(* ===== verification/_CoqProject ===== *)
-Q . S2P
Prelude.v
Crc32.v
MuxFrame.v
MuxTcp.v
MuxTrace.v
MuxSession.v
MuxLedger.v
RoundTrip.v
MuxLink.v
LinkSafety.v
LinkLoops.v
LinkProps.v
Watchdog.v
Lzvn.v
Deflate.v
Der.v
Cpio.v
ApfsObject.v
Btree.v
Omap.v
Spaceman.v
PrivateSpace.v
Materialize.v
Checkpoint.v
CheckpointProps.v
Sha.v
ShaProps.v
Primality.v
P256Field.v
P256.v
P256Props.v
P256Group.v
P256Order.v
Ecdsa.v
EcdsaSample.v
Windows.v
Channel.v
Plist.v
AsrPayload.v
AsrPayloadProps.v
AsrCodec.v
AsrCodecProps.v
AsrSession.v
AsrSessionProps.v
Pem.v
RamrodCodec.v
FatNames.v
FatNamesProps.v
Fat.v
FatProps.v
FatImage.v
FatRead.v
FatStage.v
FatRoundtrip.v
FatHistory.v
FatSafety.v
Bridge.v
BridgeProps.v
BridgeManb.v
BridgeBoot.v
BridgeSafety.v
BridgeSession.v
BridgeSessionProps.v
BridgeGuarantees.v
BridgeClient.v
BridgeClientProps.v
Patch.v
PatchSign.v
PatchTrust.v
PatchRecipe.v
PatchCode.v
PatchProps.v
PatchGuarantees.v
PatchSafety.v
PatchSample.v
