(* ===== verification/Prelude.v ===== *)
(** * AppleUtils: a verification library

    AppleUtils (src/) is a Rust tool that restores and repairs Apple devices
    and their disc images.  This library models the parts that carry its own
    protocol and format logic and proves what makes them correct.  Paths below
    are relative to src/src/.

    ** The program's parts and where they are modelled

    The USB mux (usbmux/) speaks a framed, TCP-like protocol to a device over a
    bulk pipe:
    - [MuxFrame]: the mux header and version packets (usbmux/frame.rs);
    - [MuxTcp]: the TCP header of a mux payload (usbmux/tcp.rs);
    - [MuxTrace]: the trace events as data (usbmux/trace.rs);
    - [MuxSession]: one connection (usbmux/session.rs).  [MuxSession.t] is the
      struct; open, queue, on_segment, next_segment, retransmit, take_received
      and the rest are one definition each; [MuxLedger]: the books an observer
      keeps of it;
    - [RoundTrip]: the round-trip meter (usbmux/roundtrip.rs);
    - [MuxLink]: the link that owns the pipe and the sessions
      (usbmux/link.rs).  A state monad over the link record; the transport and
      its clock are a type class, as the Rust code is generic over a trait.
      [LinkSafety] holds the transport's laws, the link invariant and a small
      safety logic, [LinkLoops] the termination arguments, [LinkProps] the
      theorems and a scripted transport for the concrete runs;
    - [Watchdog]: the hold protocol and stall reporting (usbmux/watchdog.rs),
      with the locking order of SharedLink::with (usbmux/stream.rs).
    Codecs:
    - [Crc32]: both CRC loops (crypto/crc32.rs);
    - [Lzvn]: the LZVN decoder (lzvn.rs);
    - [Deflate]: stored deflate, zlib and gzip (asr_server/deflate.rs);
    - [Der]: the DER encoder (ramrod/der.rs);
    - [Cpio]: the odc archive writer (ramrod/cpio.rs).
    The APFS repair writer (repair_writer/):
    - [ApfsObject]: blocks of a container on an image backend, the Fletcher
      checksum, whole-object and read-modify-write updates (disc.rs, object.rs,
      the checksum of apfs_image.rs and the field readers of apfs_verify.rs);
    - [Btree]: fixed-size leaf nodes on their bytes (btree.rs);
    - [Omap]: the object map on top of them (omap.rs);
    - [Spaceman], [PrivateSpace], [Materialize]: the space manager's bitmaps,
      a private copy of it and its publication (spaceman.rs);
    - [Checkpoint], [CheckpointProps]: the checkpoint ring (checkpoint.rs).
    Cryptography (crypto/):
    - [Sha], [ShaProps]: SHA-1, SHA-256, SHA-384 and SHA-512 as streaming
      hashers;
    - [Primality], [P256Field], [P256], [P256Props]: Montgomery limbs, Jacobian
      points, encodings, with the field and order proved prime;
    - [P256Group]: the points of the curve are a commutative group;
      [P256Order]: the generator's order, by a checked certificate;
    - [Ecdsa]: signing, verifying, HMAC and HKDF, nonces, derived keys, DER
      signatures; [EcdsaSample]: the test vector of RFC 6979.
    The restore services:
    - [Windows], [Channel], [Plist]: searching byte strings, connections that
      cut and interrupt, the plist crate as a class with its laws;
    - [AsrPayload], [AsrCodec], [AsrSession] (each with its Props file): the
      image server of asr_server/, from blocks and digests to the conversation
      with a device;
    - [Pem], [RamrodCodec]: base64, PEM and the message framing of ramrod/.
    EFI partitions (fat32.rs):
    - [FatNames]: short and long names, directory entries; [Fat]: geometry,
      allocation table, builder, directory encoder; [FatImage]: boot sector,
      assembly, reader, staging tree and the entry points;
    - [FatNamesProps], [FatProps], [FatRead], [FatStage], [FatRoundtrip]: names,
      builder, reader, staging and assembly, one file of lemmas each;
    - [FatHistory]: images refine a map of files; [FatSafety]: no panics.
    The Restore Bridge, which carries the USB pipe of a virtual machine over a
    socket (bridge_protocol.rs, bridge_transport.rs):
    - [Bridge]: records, the frame assembler, binary payloads and checks;
      [BridgeProps], [BridgeManb], [BridgeBoot], [BridgeSafety]: streams and
      records, the signed body, the boot context, no panics;
    - [BridgeSession]: the state shared by the reader thread, the link and the
      control handles, and the threads as a step relation; [BridgeSessionProps]:
      its invariants; [BridgeGuarantees]: what a session guarantees;
    - [BridgeClient], [BridgeClientProps]: reading records, handshake, listing,
      watching and claiming devices, and the replies to control requests.
    Patching restore executables (restore_patch.rs, restore_patch/):
    - [Patch]: bounded readers, the trust cache in its IM4P container and the
      code signature of a Mach-O file; [PatchSign], [PatchTrust]: renewed
      signatures are accepted again, an exchanged hash can be exchanged back;
    - [PatchRecipe]: the Mach-O reader, the recognition of the gate and of the
      allow list, their rewriting, and prepare_skip_tcon over all of it;
      [PatchCode]: moved AArch64 instructions;
    - [PatchProps], [PatchGuarantees]: what an application of the recipe changes,
      a reference machine for the gate, the whole patch; [PatchSafety]: no
      panics, enough fuel; [PatchSample]: a concrete image, patched.
    This file holds what they share: results, machine integers, byte lists,
    record update, tactics and hint databases.

    ** How Rust is rendered

    A w-bit integer is a [Z] with its wrap-around, saturation or check written
    out; usize has 64 bits.  [Result] is [res], with a third outcome [Panic] for
    an index or slice out of range, a failed expect and an unsigned
    subtraction that would go below zero.  Methods on &mut self are functions
    from state to state; where an error can leave a state changed, the state is
    returned next to the error.  Durations and instants are nanoseconds.
    Text of Display implementations is not modelled.

    ** Fuel

    Loops that are not structural take fuel, and the theorems show how much is
    enough: LZVN one turn per byte of the stream plus one; inflate one block
    per byte; the cpio copy one read per byte plus one; flush the number of
    segments its queue can need; the blocking link calls (negotiate, open,
    read) the timeout plus one turns on a clock that moves with every receive
    (where it may stand still, no number of turns is enough); reading an archive one turn per member plus one; publishing a space
    manager one turn per copy plus one; building a modulus R/m + 1 subtractions;
    a payload one turn per block plus one; reading from a connection one turn
    per byte, interruption and end; the frame assembler one turn per byte of its
    buffer plus one; the loops of the bridge client one turn per byte and record
    left to read plus one; following a cluster chain one turn per
    cluster plus one; directory walks the depth limit of the code; the elements
    of a DER container one turn per byte of the file; a chain of pointers one
    turn per byte of its page; the gate's machine twelve steps.  The searches
    for an ECDSA nonce and for a derived scalar have no bound in the code: their
    fuel is an argument, and the theorems say that the first usable candidate
    is found whenever it is among the turns allowed, and that turns run out only
    if none of them was usable.

    ** What the theorems show

    - Sessions: what one side delivers is a prefix of what the other queued,
      over a wire that loses, duplicates and reorders, as long as fewer than 2^32
      bytes are queued; counters, window and queues are those an observer of the
      interface computes; every emitted segment is a slice of the stream; handshake,
      retransmission, progress and finality of close.
    - Link: no operation panics and the invariant holds after any sequence of
      operations over any lawful transport, for timeouts that end within the
      range of an instant (a longer one panics, [LinkProps.long_timeout_panics]);
      blocking calls return on a clock that moves with every receive; inbound
      packets are rejected, sequenced and delivered as specified; flush drains.
    - Watchdog: under every interleaving of the atomic accesses, those of a
      sample among them, the counters count the threads and an age is reported
      only from a hold that was stamped; reports form episodes.
    - Formats: round trips for mux and TCP headers, zlib and gzip, TLV, object
      identifiers and cpio archives; the LZVN decoder accepts exactly
      the assembled programs of its instruction set and executes them, and is
      bounded on arbitrary input; the calendar
      computation is exact; CRC-32 detects every burst of up to four bytes.
    - Object map: lookup and upsert over a leaf's bytes refine lookup and
      insert of a finite map; insertion keeps the leaf well formed and sorted,
      seals it, and touches no other block.
    - Space and checkpoints: allocation hands out the first free block and keeps
      every count; publication and checkpoints write only free blocks, so what
      was published stays readable; a checkpoint reads back.
    - Cryptography: the hashers are the FIPS functions however the input is
      split; limb and point arithmetic refine the integers modulo a prime and
      the affine group, whose laws are proved; verification accepts exactly the
      encodings of a public point with a valid ECDSA signature, signing is RFC
      6979 with its nonces, and what a key pair signs is accepted.
    - Image server: the conversation refines a relation between requests and
      answers; a device that follows it assembles exactly the image.
    - Framing: messages and property lists are taken off a connection exactly,
      however it cuts and interrupts; base64 decoding is characterised.
    - EFI images: any history of creations and updates reads as the map of the
      files written last, for paths without a clash of ASCII case and partitions
      below 2^41 bytes; a cluster chain is read exactly, or refused with the
      reason, on any image whose table lies inside it and covers its clusters;
      creation panics nowhere once the table's size has settled.
    - Restore Bridge: however a stream is cut, the assembler gives its records;
      a signed body is accepted exactly when the DER writer makes it, a boot
      context exactly when it is its own encoding; under every interleaving of
      the threads packets stay in order and within the credits of both sides, a
      broker that keeps to its credits is never refused and reads what was
      written, replies go to the request they answer, no wake-up of a waiting
      sender is lost, and closing is final.
    - Restore patches: a prepared patch is the recipe's edit and nothing else,
      its signature and trust cache agree with it; the rewritten gate, run step
      by step, honours the flag; a moved instruction keeps its target; renewing
      a signature and exchanging a hash are sound; hostile files panic nowhere
      in the readers of caches and signatures.
    Beside them stand theorems about behaviour a reader may not expect:
    [FatSafety.table_one_sector_short], [FatSafety.case_hides_files],
    [FatSafety.large_table_panics],
    [Watchdog.hold_goes_unseen], [Watchdog.sample_mixes_holds],
    [ApfsObject.valid_ignores_word_order], [Cpio.cpio_trailer_path_hides].

    ** Assumptions

    The bulk transport and the image backend are parameters with laws stated
    as classes ([LawfulTransport], [SteadyClock], [LawfulImage]); each has a
    concrete instance that the witnesses run; deadlines are held to the range of
    an instant by [ClockRange].  The watchdog's atomics are sequentially
    consistent, and its mutex is a flag with one owner.  A condition variable is
    the number of times it was notified: a waiter that saw a smaller number has
    been woken.  Statistics in 64 bits (the round-trip meter, the totals of a
    cpio writer) are unbounded numbers.  Leaves are at most 64 KiB, so that offsets fit
    their 16 bits.  A session's peer is assumed to acknowledge only recent
    data where a theorem says so.

    The plist crate is a class with laws and an instance; serde_json in the bridge
    is a class without laws.  The steps of a bridge session are the sections
    under one lock, and its socket may deliver and fail as it likes.  The staging directory
    of EFI images is a tree on a case-sensitive host; str::to_lowercase is an
    argument.  Files to patch are shorter than 2^64 bytes, and what the
    functions called by a gate return is arbitrary.  Allocation of memory does
    not fail.

    ** Not modelled

    The APFS reader and verifier (whole-container walks), the repair engine on
    top of them, the restore client and its providers, the firmware bundles
    around a patch, Asahi support and the IPSW browser are mostly orchestration over
    files, sockets, threads and third-party formats; the terminal interface is
    presentation.  PROJECT.json lists every part with its reason.
*)

From stdpp Require Import base tactics numbers list strings.
From Stdlib Require Import ZArith Lia.

Open Scope Z_scope.

(** ** Fallible computations

    [res E A] is Rust's [Result<A, E>] with one more outcome, [Panic], for an
    out-of-range index or slice, a failed [expect] and the like. *)

Inductive res (E A : Type) : Type :=
| Ok (a : A)
| Err (e : E)
| Panic.
Arguments Ok {E A} _.
Arguments Err {E A} _.
Arguments Panic {E A}.

Definition res_bind {E A B : Type} (m : res E A) (k : A -> res E B) : res E B :=
  match m with
  | Ok a => k a
  | Err e => Err e
  | Panic => Panic
  end.

Definition map_err {E F A : Type} (f : E -> F) (m : res E A) : res F A :=
  match m with
  | Ok a => Ok a
  | Err e => Err (f e)
  | Panic => Panic
  end.

(** [Option::ok_or]. *)
Definition ok_or {E A : Type} (o : option A) (e : E) : res E A :=
  match o with
  | Some a => Ok a
  | None => Err e
  end.

(** [Option::expect], and every implicit bounds check. *)
Definition or_panic {E A : Type} (o : option A) : res E A :=
  match o with
  | Some a => Ok a
  | None => Panic
  end.

Declare Scope rust_scope.
Delimit Scope rust_scope with rust.
Notation "'let?' x ':=' m 'in' k" := (res_bind m (fun x => k))
  (at level 10, x pattern, m at level 100, k at level 200) : rust_scope.
Open Scope rust_scope.

Lemma res_bind_ok {E A B} (m : res E A) (k : A -> res E B) (b : B) :
  res_bind m k = Ok b <-> exists a, m = Ok a /\ k a = Ok b.
Proof. destruct m; simpl; split; try discriminate; eauto; by intros (?&[= <-]&?) || by intros (?&[=]&?). Qed.

Lemma res_bind_err {E A B} (m : res E A) (k : A -> res E B) (e : E) :
  res_bind m k = Err e <-> m = Err e \/ exists a, m = Ok a /\ k a = Err e.
Proof.
  destruct m; simpl; split; eauto; try discriminate.
  - by intros [?|(?&[= <-]&?)].
  - intros [= ->]; eauto.
  - by intros [[= ->]|(?&[=]&?)].
  - by intros [?|(?&[=]&?)].
Qed.

Definition no_panic {E A : Type} (m : res E A) : Prop := m <> Panic.

Lemma no_panic_bind {E A B} (m : res E A) (k : A -> res E B) :
  no_panic m -> (forall a, m = Ok a -> no_panic (k a)) -> no_panic (res_bind m k).
Proof. unfold no_panic; destruct m; simpl; eauto; discriminate. Qed.

(** ** Functional record update: [r <| f := v |>] *)

Class Eta (R : Type) := eta_expand : R -> R.
Class Setter {R A : Type} (proj : R -> A) := set_field : (A -> A) -> R -> R.

Ltac build_setter proj :=
  lazymatch type of proj with
  | ?R -> ?A =>
      let inst := constr:(@eta_expand R _) in
      let body := eval hnf in inst in
      lazymatch eval pattern proj in body with
      | ?ctx _ => exact (fun (f : A -> A) (r : R) => ctx (fun s => f (proj s)) r)
      end
  end.

#[global] Hint Extern 1 (Setter ?proj) => build_setter proj : typeclass_instances.

Notation "r '<|' f ':=' v '|>'" := (set_field (proj := f) (fun _ => v) r)
  (at level 1, left associativity, format "r  <|  f  :=  v  |>").

(** ** Machine integers

    A [w]-bit unsigned value is a [Z] in [[0, 2^w)]; arithmetic that wraps is
    written with an explicit [mod 2^w].  [usize] is 64 bits wide. *)

Definition in_range (w x : Z) : Prop := 0 <= x < 2 ^ w.
Abbreviation u8 := (in_range 8).
Abbreviation u16 := (in_range 16).
Abbreviation u32 := (in_range 32).
Abbreviation u64 := (in_range 64).

Definition wrap (w x : Z) : Z := x mod 2 ^ w.
Definition wrapping_add (w x y : Z) : Z := wrap w (x + y).
Definition wrapping_sub (w x y : Z) : Z := wrap w (x - y).
Definition wrapping_mul (w x y : Z) : Z := wrap w (x * y).
Definition saturating_add (w x y : Z) : Z := Z.min (x + y) (2 ^ w - 1).
Definition saturating_sub (x y : Z) : Z := Z.max (x - y) 0.
(** [checked_add] on a [w]-bit type. *)
Definition checked_add (w x y : Z) : option Z := if x + y <? 2 ^ w then Some (x + y) else None.
Definition checked_sub (x y : Z) : option Z := if y <=? x then Some (x - y) else None.
(** [x + y] and [x * y] on a [w]-bit type, with overflow checks on. *)
Definition add_or_panic {E} (w x y : Z) : res E Z := or_panic (checked_add w x y).
Definition mul_or_panic {E} (w x y : Z) : res E Z := if x * y <? 2 ^ w then Ok (x * y) else Panic.
(** [!x] on a [w]-bit type. *)
Definition bit_not (w x : Z) : Z := 2 ^ w - 1 - x.
(** [x as i32] for a 32-bit [x]. *)
Definition as_i32 (x : Z) : Z := if x <? 2 ^ 31 then x else x - 2 ^ 32.

Definition usize_bits : Z := 64.

#[export] Instance in_range_dec w x : Decision (in_range w x).
Proof. unfold in_range; apply _. Defined.

Lemma pow2_pos (w : Z) : 0 <= w -> 0 < 2 ^ w.
Proof. intros; apply Z.pow_pos_nonneg; lia. Qed.

Lemma add_or_panic_ok {E} (w x y : Z) : x + y < 2 ^ w -> add_or_panic (E := E) w x y = Ok (x + y).
Proof. intros. unfold add_or_panic, checked_add. by rewrite (proj2 (Z.ltb_lt _ _)). Qed.

Lemma wrap_range (w x : Z) : 0 <= w -> in_range w (wrap w x).
Proof. intros; apply Z.mod_pos_bound, pow2_pos; done. Qed.

Lemma wrap_small (w x : Z) : in_range w x -> wrap w x = x.
Proof. apply Z.mod_small. Qed.

Lemma wrap_idemp (w x : Z) : wrap w (wrap w x) = wrap w x.
Proof. unfold wrap; by rewrite Zmod_mod. Qed.

(** Splits the hypotheses and goals that boolean guards leave behind. *)
Ltac bools :=
  repeat match goal with
  | H : (_ && _)%bool = true |- _ => apply andb_prop in H; destruct H
  | H : (_ || _)%bool = false |- _ => apply orb_false_elim in H; destruct H
  | H : negb _ = true |- _ => apply negb_true_iff in H
  | H : negb _ = false |- _ => apply negb_false_iff in H
  | H : (_ <? _) = true |- _ => apply Z.ltb_lt in H
  | H : (_ <? _) = false |- _ => apply Z.ltb_ge in H
  | H : (_ <=? _) = true |- _ => apply Z.leb_le in H
  | H : (_ <=? _) = false |- _ => apply Z.leb_gt in H
  | H : (_ =? _) = true |- _ => apply Z.eqb_eq in H
  | H : (_ =? _) = false |- _ => apply Z.eqb_neq in H
  end.

(** Decides goals about 32-bit wrap-around by exposing the quotients. *)
Ltac unfold_words :=
  unfold wrapping_add, wrapping_sub, wrapping_mul, wrap, as_i32, in_range,
    saturating_add, saturating_sub, bit_not in *.
Ltac words := unfold_words; Z.div_mod_to_equations; lia.

Lemma wrapping_sub_wrap w x y : wrapping_sub w (wrap w x) (wrap w y) = wrap w (x - y).
Proof. unfold wrapping_sub, wrap. by rewrite Zminus_mod_idemp_l, Zminus_mod_idemp_r. Qed.

Lemma wrapping_add_wrap w x y : wrapping_add w (wrap w x) y = wrap w (x + y).
Proof. unfold wrapping_add, wrap. by rewrite Zplus_mod_idemp_l. Qed.

Lemma wrapping_add_wrap_r w x y : wrapping_add w (wrap w x) (wrap w y) = wrap w (x + y).
Proof. unfold wrapping_add, wrap. by rewrite Zplus_mod_idemp_l, Zplus_mod_idemp_r. Qed.

(** Reinterpreting a wrapped difference as signed recovers it. *)
Lemma as_i32_wrap x : - 2 ^ 31 <= x < 2 ^ 31 -> as_i32 (wrap 32 x) = x.
Proof.
  intros. unfold as_i32, wrap. destruct (decide (0 <= x)).
  - rewrite Z.mod_small by lia. by rewrite (proj2 (Z.ltb_lt _ _)) by lia.
  - replace (x mod 2 ^ 32) with (x + 2 ^ 32).
    + rewrite (proj2 (Z.ltb_ge _ _)) by lia. lia.
    + symmetry. rewrite <- (Z.mod_small (x + 2 ^ 32) (2 ^ 32)) by lia.
      rewrite <- (Z_mod_plus_full x 1 (2 ^ 32)). f_equal; lia.
Qed.

Lemma as_i32_pos x : u32 x -> 0 < as_i32 x -> as_i32 x = x /\ 0 < x < 2 ^ 31.
Proof. unfold as_i32, in_range. intros. case_match; bools; lia. Qed.

Lemma as_i32_range x : u32 x -> - 2 ^ 31 <= as_i32 x < 2 ^ 31 /\ wrap 32 (as_i32 x) = x.
Proof.
  unfold as_i32, in_range, wrap. intros. case_match; bools; (split; [lia|]).
  - apply Z.mod_small; lia.
  - rewrite <- (Z_mod_plus_full (x - 2 ^ 32) 1 (2 ^ 32)).
    replace (x - 2 ^ 32 + 1 * 2 ^ 32) with x by lia. apply Z.mod_small; lia.
Qed.

Lemma wrap_inj_small w x y : in_range w (x - y) \/ in_range w (y - x) -> wrap w x = wrap w y -> x = y.
Proof.
  intros H E. assert (wrap w (x - y) = 0 /\ wrap w (y - x) = 0) as [E1 E2].
  { rewrite <- !wrapping_sub_wrap, E. unfold wrapping_sub. rewrite Z.sub_diag.
    split; apply Zmod_0_l. }
  destruct H as [H|H].
  - rewrite wrap_small in E1 by done; lia.
  - rewrite wrap_small in E2 by done; lia.
Qed.

(** Bit fields as arithmetic. *)
Lemma land_low x n : 0 <= n -> Z.land x (2 ^ n - 1) = x mod 2 ^ n.
Proof. intros. rewrite <- Z.land_ones by done. f_equal. rewrite Z.ones_equiv. lia. Qed.

Lemma lor_shiftl x y n : 0 <= n -> 0 <= y < 2 ^ n -> Z.lor (Z.shiftl x n) y = x * 2 ^ n + y.
Proof.
  intros Hn Hy. assert (Z.land (Z.shiftl x n) y = 0) as D.
  { apply Z.bits_inj'. intros i Hi. rewrite Z.land_spec, Z.bits_0.
    destruct (decide (i < n)).
    - by rewrite Z.shiftl_spec_low.
    - rewrite <- (Z.mod_small y (2 ^ n)) by done.
      rewrite Z.mod_pow2_bits_high by lia. apply andb_false_r. }
  rewrite <- Z.lxor_lor, <- Z.add_nocarry_lxor by done. by rewrite Z.shiftl_mul_pow2.
Qed.

(** ** Byte strings *)

Abbreviation bytes := (list Z).
Abbreviation is_bytes := (Forall (in_range 8)).

(** Lengths and positions as [Z], the way the code computes with [usize]. *)
Definition zlen {A : Type} (l : list A) : Z := Z.of_nat (length l).
Definition ztake {A : Type} (n : Z) (l : list A) : list A := take (Z.to_nat n) l.
Definition zdrop {A : Type} (n : Z) (l : list A) : list A := drop (Z.to_nat n) l.
Definition zget {A : Type} (l : list A) (i : Z) : option A :=
  if i <? 0 then None else l !! Z.to_nat i.

(** [l.get(lo..hi)]. *)
Definition get_range {A : Type} (l : list A) (lo hi : Z) : option (list A) :=
  if (0 <=? lo) && (lo <=? hi) && (hi <=? zlen l) then Some (ztake (hi - lo) (zdrop lo l)) else None.

(** [l\[at..at + src.len()\].copy_from_slice(src)]; [None] when out of range. *)
Definition splice {A : Type} (l : list A) (pos : Z) (src : list A) : option (list A) :=
  if (0 <=? pos) && (pos + zlen src <=? zlen l)
  then Some (ztake pos l ++ src ++ zdrop (pos + zlen src) l) else None.

Definition zeros (n : Z) : bytes := replicate (Z.to_nat n) 0.

(** Little- and big-endian words. *)
Fixpoint le_bytes (n : nat) (x : Z) : bytes :=
  match n with
  | O => []
  | S n => x mod 256 :: le_bytes n (x / 256)
  end.

Fixpoint le_val (l : bytes) : Z :=
  match l with
  | [] => 0
  | b :: l => b + 256 * le_val l
  end.

Definition be_bytes (n : nat) (x : Z) : bytes := rev (le_bytes n x).
Definition be_val (l : bytes) : Z := le_val (rev l).

Lemma length_le_bytes n x : length (le_bytes n x) = n.
Proof. revert x; induction n; intros; simpl; auto. Qed.

Lemma length_be_bytes n x : length (be_bytes n x) = n.
Proof. unfold be_bytes. by rewrite length_rev, length_le_bytes. Qed.

Lemma is_bytes_le_bytes n x : is_bytes (le_bytes n x).
Proof.
  revert x; induction n; intros; simpl; constructor; auto.
  apply Z.mod_pos_bound; lia.
Qed.

Lemma is_bytes_be_bytes n x : is_bytes (be_bytes n x).
Proof. apply Forall_rev, is_bytes_le_bytes. Qed.

Lemma le_val_bound l : is_bytes l -> 0 <= le_val l < 2 ^ (8 * zlen l).
Proof.
  unfold zlen; induction 1 as [|b l Hb _ IH]; [simpl; lia|].
  cbn [le_val length]. rewrite Nat2Z.inj_succ.
  replace (8 * Z.succ (Z.of_nat (length l))) with (8 + 8 * Z.of_nat (length l)) by lia.
  rewrite Z.pow_add_r by lia. unfold in_range in Hb. lia.
Qed.

Lemma be_val_bound l : is_bytes l -> 0 <= be_val l < 2 ^ (8 * zlen l).
Proof.
  intros H%Forall_rev. unfold be_val, zlen. rewrite <- length_rev.
  by apply le_val_bound.
Qed.

Lemma le_val_le_bytes n x : le_val (le_bytes n x) = x mod 2 ^ (8 * Z.of_nat n).
Proof.
  revert x; induction n as [|n IH]; intros x.
  { by rewrite Z.mod_1_r. }
  cbn [le_bytes le_val]. rewrite IH, Nat2Z.inj_succ.
  replace (8 * Z.succ (Z.of_nat n)) with (8 + 8 * Z.of_nat n) by lia.
  rewrite Z.pow_add_r by lia. change (2 ^ 8) with 256.
  rewrite Z.rem_mul_r by (pose proof (pow2_pos (8 * Z.of_nat n)); lia). lia.
Qed.

Lemma be_val_be_bytes n x : be_val (be_bytes n x) = x mod 2 ^ (8 * Z.of_nat n).
Proof. unfold be_val, be_bytes. by rewrite rev_involutive, le_val_le_bytes. Qed.

Lemma le_bytes_le_val n l : is_bytes l -> length l = n -> le_bytes n (le_val l) = l.
Proof.
  intros H <-. induction H as [|b l Hb _ IH]; [done|]. cbn [length le_bytes le_val].
  unfold in_range in Hb. replace ((b + 256 * le_val l) mod 256) with b by words.
  replace ((b + 256 * le_val l) / 256) with (le_val l) by words. by rewrite IH.
Qed.

Lemma be_bytes_be_val n l : is_bytes l -> length l = n -> be_bytes n (be_val l) = l.
Proof.
  intros H <-. unfold be_bytes, be_val.
  rewrite le_bytes_le_val, rev_involutive; auto using Forall_rev, length_rev.
Qed.

Lemma le_val_app l k : le_val (l ++ k) = le_val l + 256 ^ Z.of_nat (length l) * le_val k.
Proof.
  induction l as [|b l IH]; [simpl; lia|]. cbn [app le_val length]. rewrite IH, Nat2Z.inj_succ.
  rewrite Z.pow_succ_r by lia. lia.
Qed.

Lemma be_val_app l k : be_val (l ++ k) = be_val l * 256 ^ Z.of_nat (length k) + be_val k.
Proof. unfold be_val. rewrite rev_app_distr, le_val_app, length_rev. lia. Qed.

Lemma be_val_cons b l : be_val (b :: l) = b * 256 ^ Z.of_nat (length l) + be_val l.
Proof. change (b :: l) with ([b] ++ l). rewrite be_val_app. unfold be_val at 1. simpl. lia. Qed.

(** ** Slices, takes and drops *)

Section zlist.
Context {A : Type}.
Implicit Types (l k : list A) (n m : Z).

Lemma zlen_nonneg l : 0 <= zlen l.
Proof. unfold zlen; lia. Qed.

Lemma zlen_nil : zlen (@nil A) = 0.
Proof. done. Qed.

Lemma zlen_cons x l : zlen (x :: l) = zlen l + 1.
Proof. unfold zlen; simpl; lia. Qed.

Lemma zlen_app l k : zlen (l ++ k) = zlen l + zlen k.
Proof. unfold zlen; rewrite length_app; lia. Qed.

Lemma zlen_zero l : zlen l = 0 <-> l = [].
Proof. unfold zlen; destruct l; simpl; split; try done; lia. Qed.

Lemma zlen_ztake n l : zlen (ztake n l) = Z.max 0 (Z.min n (zlen l)).
Proof. unfold zlen, ztake. rewrite length_take; lia. Qed.

Lemma zlen_zdrop n l : zlen (zdrop n l) = Z.max 0 (zlen l - Z.max 0 n).
Proof. unfold zlen, zdrop. rewrite length_drop; lia. Qed.

Lemma ztake_zdrop n l : ztake n l ++ zdrop n l = l.
Proof. apply take_drop. Qed.

Lemma ztake_all n l : zlen l <= n -> ztake n l = l.
Proof. intros; apply take_ge; unfold zlen in *; lia. Qed.

Lemma zdrop_all n l : zlen l <= n -> zdrop n l = [].
Proof. intros; apply drop_ge; unfold zlen in *; lia. Qed.

Lemma zdrop_0 l : zdrop 0 l = l.
Proof. done. Qed.

Lemma zdrop_nonpos n l : n <= 0 -> zdrop n l = l.
Proof. intros; unfold zdrop. by replace (Z.to_nat n) with 0%nat by lia. Qed.

Lemma ztake_app_le n l k : n <= zlen l -> ztake n (l ++ k) = ztake n l.
Proof. intros; apply take_app_le; unfold zlen in *; lia. Qed.

Lemma ztake_app_ge n l k : zlen l <= n -> ztake n (l ++ k) = l ++ ztake (n - zlen l) k.
Proof.
  intros; unfold ztake, zlen in *. rewrite take_app_ge by lia. do 2 f_equal; lia.
Qed.

Lemma zdrop_app_le n l k : n <= zlen l -> zdrop n (l ++ k) = zdrop n l ++ k.
Proof. intros; apply drop_app_le; unfold zlen in *; lia. Qed.

Lemma zdrop_app_ge n l k : zlen l <= n -> zdrop n (l ++ k) = zdrop (n - zlen l) k.
Proof.
  intros; unfold zdrop, zlen in *. rewrite drop_app_ge by lia. f_equal; lia.
Qed.

Lemma zdrop_zdrop n m l : 0 <= n -> 0 <= m -> zdrop n (zdrop m l) = zdrop (m + n) l.
Proof. intros; unfold zdrop. rewrite drop_drop. f_equal; lia. Qed.

Lemma ztake_ztake n m l : ztake n (ztake m l) = ztake (Z.min n m) l.
Proof. unfold ztake. rewrite take_take. f_equal; lia. Qed.

Lemma zdrop_ztake_comm n m l :
  0 <= n -> 0 <= m -> zdrop n (ztake (n + m) l) = ztake m (zdrop n l).
Proof.
  intros; unfold zdrop, ztake. rewrite <- take_drop_commute || rewrite skipn_firstn_comm.
  f_equal; lia.
Qed.

Lemma ztake_add n m l : 0 <= n -> 0 <= m -> ztake (n + m) l = ztake n l ++ ztake m (zdrop n l).
Proof.
  intros. rewrite <- (ztake_zdrop n (ztake (n + m) l)).
  rewrite ztake_ztake, zdrop_ztake_comm by lia. do 2 f_equal; lia.
Qed.

Lemma get_range_some l lo hi k :
  get_range l lo hi = Some k <->
  (0 <= lo <= hi /\ hi <= zlen l) /\ k = ztake (hi - lo) (zdrop lo l).
Proof. unfold get_range. repeat case_match; naive_solver lia. Qed.

Lemma splice_some l pos src k :
  splice l pos src = Some k <->
  (0 <= pos /\ pos + zlen src <= zlen l) /\
  k = ztake pos l ++ src ++ zdrop (pos + zlen src) l.
Proof. unfold splice. repeat case_match; naive_solver lia. Qed.

Lemma splice_length l pos src k : splice l pos src = Some k -> zlen k = zlen l.
Proof.
  intros [[? ?] ->]%splice_some. pose proof (zlen_nonneg src).
  rewrite !zlen_app, zlen_ztake, zlen_zdrop. lia.
Qed.
End zlist.

(** ** Chunks *)

(** [slice::chunks]: pieces of [n] items, the last one possibly shorter. *)
Fixpoint chunks_from {A} (fuel : nat) (n : Z) (l : list A) : list (list A) :=
  match fuel, l with
  | S fuel, _ :: _ => ztake n l :: chunks_from fuel n (zdrop n l)
  | _, _ => []
  end.
Definition slice_chunks {A} (n : Z) (l : list A) : list (list A) := chunks_from (length l) n l.

Lemma chunks_from_spec {A} fuel n (l : list A) :
  1 <= n -> (length l <= fuel)%nat ->
  concat (chunks_from fuel n l) = l /\ Forall (fun c => 1 <= zlen c <= n) (chunks_from fuel n l).
Proof.
  intros Hn. revert l. induction fuel as [|fuel IH]; intros [|x l] Hf; simpl in *; try done; [lia|].
  destruct (IH (zdrop n (x :: l))) as [E F].
  { unfold zdrop. rewrite length_drop. simpl. lia. }
  rewrite E, ztake_zdrop. split; [done|]. constructor; [|done].
  rewrite zlen_ztake, zlen_cons. pose proof (zlen_nonneg l). lia.
Qed.

Lemma slice_chunks_spec {A} n (l : list A) :
  1 <= n -> concat (slice_chunks n l) = l /\ Forall (fun c => 1 <= zlen c <= n) (slice_chunks n l).
Proof. intros. by apply chunks_from_spec. Qed.

Lemma chunks_from_enough {A} fuel fuel' n (l : list A) :
  1 <= n -> (length l <= fuel)%nat -> (length l <= fuel')%nat -> chunks_from fuel n l = chunks_from fuel' n l.
Proof.
  intros Hn. revert fuel' l. induction fuel as [|fuel IH]; intros [|fuel'] [|x l] H1 H2; cbn in *; try done; try lia.
  f_equal. apply IH; unfold zdrop; rewrite length_drop; cbn; lia.
Qed.

Lemma slice_chunks_step {A} n (l : list A) :
  1 <= n -> l <> [] -> slice_chunks n l = ztake n l :: slice_chunks n (zdrop n l).
Proof.
  intros Hn Hl. destruct l as [|x l]; [done|]. unfold slice_chunks. cbn [length chunks_from]. f_equal.
  apply chunks_from_enough; [done| |done]. unfold zdrop. rewrite length_drop. cbn. lia.
Qed.

(** Induction along the pieces. *)
Lemma slice_chunks_ind {A} n (Hn : 1 <= n) (P : list A -> Prop) :
  P [] -> (forall l, l <> [] -> P (zdrop n l) -> P l) -> forall l, P l.
Proof.
  intros H0 Hs l. remember (length l) as k eqn:Ek. revert l Ek.
  induction (lt_wf k) as [k _ IH]; intros l ->. destruct l as [|x l]; [done|]. apply Hs; [done|].
  refine (IH _ _ _ eq_refl). unfold zdrop. rewrite length_drop. cbn. lia.
Qed.

Lemma zlen_chunks {A} n (l : list A) : 1 <= n -> zlen (slice_chunks n l) = (zlen l + n - 1) / n.
Proof.
  intros Hn. induction l as [|l Hl IH] using (slice_chunks_ind n Hn).
  { change (zlen []) with 0. symmetry. apply Z.div_small. change (zlen []) with 0. lia. }
  rewrite slice_chunks_step by done. rewrite zlen_cons, IH, zlen_zdrop.
  assert (1 <= zlen l) by (pose proof (zlen_nonneg l); destruct (decide (zlen l = 0)) as [E%zlen_zero|]; [done|lia]).
  destruct (decide (zlen l <= n)).
  - replace (Z.max 0 (zlen l - Z.max 0 n)) with 0 by lia. rewrite (Z.div_small (0 + n - 1)) by lia.
    apply (Z.div_unique _ _ _ (zlen l - 1)); lia.
  - replace (Z.max 0 (zlen l - Z.max 0 n) + n - 1) with (zlen l + n - 1 + (-1) * n) by lia.
    rewrite Z.div_add by lia. lia.
Qed.

Lemma slice_chunks_one {A} n (l : list A) : l <> [] -> zlen l <= n -> slice_chunks n l = [l].
Proof.
  intros Hl Hn. assert (1 <= n).
  { pose proof (zlen_nonneg l). destruct (decide (zlen l = 0)) as [E%zlen_zero|]; [done|lia]. }
  rewrite slice_chunks_step by done. by rewrite ztake_all, zdrop_all.
Qed.

(** Whole pieces first: the rest is cut on its own. *)
Lemma slice_chunks_app {A} n (l k : list A) :
  1 <= n -> zlen l mod n = 0 -> slice_chunks n (l ++ k) = slice_chunks n l ++ slice_chunks n k.
Proof.
  intros Hn. induction l as [|l Hl IH] using (slice_chunks_ind n Hn); [done|]. intros Hm.
  assert (n <= zlen l) as Hle.
  { pose proof (zlen_nonneg l). destruct (decide (zlen l = 0)) as [E%zlen_zero|]; [done|].
    apply Z.divide_pos_le; [lia|]. apply Z.mod_divide; lia. }
  rewrite (slice_chunks_step n (l ++ k)), (slice_chunks_step n l); [|done..|by destruct l].
  rewrite ztake_app_le, zdrop_app_le by lia. cbn [app]. f_equal. apply IH.
  rewrite zlen_zdrop. replace (Z.max 0 (zlen l - Z.max 0 n)) with (zlen l + (-1) * n) by lia.
  by rewrite Z.mod_add by lia.
Qed.

(** A piece of a concatenation. *)
Lemma piece {A} (p k r : list A) lo n : lo = zlen p -> n = zlen k -> ztake n (zdrop lo (p ++ k ++ r)) = k.
Proof.
  intros -> ->. rewrite zdrop_app_ge by lia. rewrite Z.sub_diag, zdrop_0, ztake_app_le by lia. by apply ztake_all.
Qed.

(** Indexing and slicing as Rust does them: out of range is a panic. *)
Definition index {E A : Type} (l : list A) (i : Z) : res E A := or_panic (zget l i).
Definition slice {E A : Type} (l : list A) (lo hi : Z) : res E (list A) :=
  or_panic (get_range l lo hi).
Definition copy_at {E A : Type} (l : list A) (pos : Z) (src : list A) : res E (list A) :=
  or_panic (splice l pos src).

#[global] Opaque le_bytes be_bytes.
#[global] Arguments be_val : simpl never.
#[global] Arguments zeros : simpl never.
#[global] Arguments ztake : simpl never.
#[global] Arguments zdrop : simpl never.
#[global] Arguments zlen : simpl never.
#[global] Arguments slice : simpl never.
#[global] Arguments copy_at : simpl never.

Lemma copy_at_prefix {E A} (p l src : list A) pos :
  pos = zlen p -> zlen src <= zlen l ->
  copy_at (E:=E) (p ++ l) pos src = Ok ((p ++ src) ++ zdrop (zlen src) l).
Proof.
  intros -> Hl. unfold copy_at, splice. pose proof (zlen_nonneg p). pose proof (zlen_nonneg src).
  rewrite zlen_app. rewrite !(proj2 (Z.leb_le _ _)) by lia. simpl. f_equal.
  rewrite ztake_app_le, ztake_all, zdrop_app_ge, <- app_assoc by lia. repeat f_equal. lia.
Qed.

Lemma slice_mid {E A} (p k r : list A) lo hi :
  lo = zlen p -> hi = zlen p + zlen k -> slice (E:=E) (p ++ k ++ r) lo hi = Ok k.
Proof.
  intros -> ->. unfold slice, get_range. pose proof (zlen_nonneg p). pose proof (zlen_nonneg k).
  pose proof (zlen_nonneg r). rewrite !zlen_app, !(proj2 (Z.leb_le _ _)) by lia. simpl. f_equal.
  rewrite zdrop_app_ge by lia. rewrite Z.sub_diag, zdrop_0.
  rewrite ztake_app_le by lia. rewrite ztake_all by lia. done.
Qed.

Lemma slice_ok {E A} (l : list A) lo hi :
  0 <= lo <= hi -> hi <= zlen l -> slice (E:=E) l lo hi = Ok (ztake (hi - lo) (zdrop lo l)).
Proof.
  intros. unfold slice, get_range. by rewrite !(proj2 (Z.leb_le _ _)) by lia.
Qed.

Lemma slice_inv {E A} (l : list A) lo hi k :
  slice (E:=E) l lo hi = Ok k -> 0 <= lo <= hi /\ hi <= zlen l /\ k = ztake (hi - lo) (zdrop lo l).
Proof. unfold slice, or_panic. destruct (get_range l lo hi) eqn:G; [|done]. intros [= <-]. apply get_range_some in G. naive_solver. Qed.

Lemma copy_at_inv {E A} (l : list A) pos src l' :
  copy_at (E:=E) l pos src = Ok l' ->
  0 <= pos /\ pos + zlen src <= zlen l /\ zlen l' = zlen l /\ l' = ztake pos l ++ src ++ zdrop (pos + zlen src) l.
Proof.
  unfold copy_at, or_panic. destruct (splice l pos src) eqn:G; [|done]. intros [= <-].
  pose proof (splice_length _ _ _ _ G). apply splice_some in G. naive_solver.
Qed.

Lemma copy_at_ok {E A} (l src : list A) pos :
  0 <= pos -> pos + zlen src <= zlen l -> copy_at (E:=E) l pos src = Ok (ztake pos l ++ src ++ zdrop (pos + zlen src) l).
Proof. intros Hp Hr. unfold copy_at. by rewrite (proj2 (splice_some l pos src _) (conj (conj Hp Hr) eq_refl)). Qed.

(** What a copy leaves to read: the source where it was put, the old list elsewhere. *)
Lemma part_copy_same {E A} (l : list A) pos src l' : copy_at (E:=E) l pos src = Ok l' -> ztake (zlen src) (zdrop pos l') = src.
Proof. intros (?&?&_&->)%copy_at_inv. apply piece; [|done]. rewrite zlen_ztake. pose proof (zlen_nonneg src). lia. Qed.

Lemma part_copy_other {E A} (l : list A) pos src l' lo n :
  copy_at (E:=E) l pos src = Ok l' -> 0 <= lo -> 0 <= n -> lo + n <= pos \/ pos + zlen src <= lo ->
  ztake n (zdrop lo l') = ztake n (zdrop lo l).
Proof.
  intros (Hp&Hr&_&->)%copy_at_inv Hlo Hn Hd. pose proof (zlen_nonneg src).
  assert (zlen (ztake pos l) = pos) as Hz by (rewrite zlen_ztake; lia). destruct Hd as [Hd|Hd].
  - rewrite zdrop_app_le by lia. rewrite ztake_app_le by (rewrite zlen_zdrop; lia).
    rewrite <- (ztake_zdrop pos l) at 2. rewrite zdrop_app_le by lia. by rewrite ztake_app_le by (rewrite zlen_zdrop; lia).
  - rewrite !zdrop_app_ge by lia. rewrite zdrop_zdrop by lia. do 2 f_equal. lia.
Qed.

Lemma slice_is_bytes {E} l lo hi k : slice (E:=E) l lo hi = Ok k -> is_bytes l -> is_bytes k.
Proof.
  unfold slice, or_panic. destruct (get_range l lo hi) eqn:G; [|done]. intros [= <-] Hl.
  apply get_range_some in G as [_ ->]. by apply Forall_take, Forall_drop.
Qed.

Lemma zget_app {A} (p q : list A) i : 0 <= i -> zget (p ++ q) (zlen p + i) = zget q i.
Proof.
  intros. unfold zget, zlen. rewrite !(proj2 (Z.ltb_ge _ _)) by lia.
  rewrite lookup_app_r by lia. f_equal. lia.
Qed.

Lemma zget_some {A} (l : list A) i x : zget l i = Some x -> 0 <= i < zlen l.
Proof.
  unfold zget, zlen. case_match; [done|]. bools. intros E%lookup_lt_Some. lia.
Qed.

Lemma zget_in {A} (l : list A) i : 0 <= i < zlen l -> exists x, zget l i = Some x.
Proof.
  intros. unfold zget. rewrite (proj2 (Z.ltb_ge _ _)) by lia. apply lookup_lt_is_Some.
  unfold zlen in *; lia.
Qed.

Lemma zget_bytes l i x : is_bytes l -> zget l i = Some x -> u8 x.
Proof.
  intros Hl. unfold zget. destruct (i <? 0); [done|]. intros E. by eapply Forall_lookup_1 in E.
Qed.

Create Rewrite HintDb zlen.
#[export] Hint Rewrite @zlen_nil @zlen_cons @zlen_app @zlen_ztake @zlen_zdrop : zlen.
#[export] Hint Resolve zlen_nonneg : core.

Lemma zlen_be_bytes n x : zlen (be_bytes n x) = Z.of_nat n.
Proof. unfold zlen; by rewrite length_be_bytes. Qed.
Lemma zlen_le_bytes n x : zlen (le_bytes n x) = Z.of_nat n.
Proof. unfold zlen; by rewrite length_le_bytes. Qed.
Lemma zlen_zeros n : zlen (zeros n) = Z.max 0 n.
Proof. unfold zlen, zeros. rewrite length_replicate; lia. Qed.
#[export] Hint Rewrite zlen_be_bytes zlen_le_bytes zlen_zeros : zlen.

Lemma is_bytes_ztake n l : is_bytes l -> is_bytes (ztake n l).
Proof. apply Forall_take. Qed.
Lemma is_bytes_zdrop n l : is_bytes l -> is_bytes (zdrop n l).
Proof. apply Forall_drop. Qed.
Lemma is_bytes_zeros n : is_bytes (zeros n).
Proof. apply Forall_replicate. unfold in_range; lia. Qed.

Create HintDb isbytes.
#[export] Hint Resolve is_bytes_ztake is_bytes_zdrop is_bytes_zeros is_bytes_be_bytes
  is_bytes_le_bytes Forall_app_2 : isbytes.


(** Closes the concrete side conditions of witnesses by evaluation. *)
Ltac by_compute :=
  repeat match goal with |- _ /\ _ => split | |- in_range _ _ => split end;
  vm_compute; first [done | discriminate | intros ?; discriminate].
Ltac concrete_bytes := repeat (apply List.Forall_cons; [by_compute|]); apply List.Forall_nil.

(** Solves [ztake n (zdrop lo (k1 ++ ... ++ k ++ r)) = k], reading one field out
    of an encoding. *)
Ltac zl := autorewrite with zlen; lia.
Ltac pick :=
  repeat first [rewrite zdrop_nonpos by zl | rewrite zdrop_app_ge by zl];
  first [rewrite ztake_app_le by zl | idtac]; apply ztake_all; zl.

(** Digits of a number in a small base, most significant first, as ASCII. *)
Fixpoint radix (base : Z) (fuel : nat) (n : Z) : bytes :=
  match fuel with
  | O => []
  | S fuel => if n <? base then [48 + n] else radix base fuel (n / base) ++ [48 + n mod base]
  end.

Definition read_radix (base : Z) (text : bytes) : Z := foldl (fun v c => v * base + (c - 48)) 0 text.

Lemma read_radix_zeros base n text : read_radix base (replicate n 48 ++ text) = read_radix base text.
Proof.
  unfold read_radix. rewrite foldl_app. f_equal. induction n as [|n IH]; [done|]. cbn [replicate foldl].
  by replace (0 * base + (48 - 48)) with 0 by lia.
Qed.

Lemma radix_spec base fuel k n :
  2 <= base -> 0 <= n < base ^ Z.of_nat k -> (0 < k <= fuel)%nat ->
  read_radix base (radix base fuel n) = n /\ 1 <= zlen (radix base fuel n) <= Z.of_nat k.
Proof.
  intros Hb. revert k n. induction fuel as [|fuel IH]; intros k n Hn Hk; [lia|]. cbn [radix].
  destruct (n <? base) eqn:T; bools.
  { change (zlen [48 + n]) with 1. unfold read_radix. cbn [foldl]. lia. }
  destruct k as [|k]; [lia|]. rewrite Nat2Z.inj_succ, Z.pow_succ_r in Hn by lia.
  assert (0 < k)%nat by (destruct k; [simpl in Hn; lia|lia]).
  pose proof (Z.div_mod n base ltac:(lia)). pose proof (Z.mod_pos_bound n base ltac:(lia)).
  destruct (IH k (n / base)) as [E L].
  { split; [apply Z.div_pos; lia|apply Z.div_lt_upper_bound; lia]. }
  { lia. }
  unfold read_radix in *. rewrite foldl_app, E, zlen_app. cbn [foldl].
  change (zlen [48 + n mod base]) with 1. lia.
Qed.

(** More than [k] digits are needed exactly from [base ^ k] on. *)
Lemma radix_long base fuel k n :
  2 <= base -> base ^ Z.of_nat k <= n -> (k < fuel)%nat -> Z.of_nat k < zlen (radix base fuel n).
Proof.
  intros Hb. revert k n. induction fuel as [|fuel IH]; intros k n Hn Hk; [lia|]. cbn [radix].
  destruct k as [|k].
  { destruct (n <? base); [done|]. rewrite zlen_app. change (zlen [_]) with 1.
    pose proof (zlen_nonneg (radix base fuel (n / base))). lia. }
  rewrite Nat2Z.inj_succ, Z.pow_succ_r in Hn by lia.
  pose proof (Z.pow_pos_nonneg base (Z.of_nat k)).
  rewrite (proj2 (Z.ltb_ge _ _)) by nia. rewrite zlen_app. change (zlen [_]) with 1.
  specialize (IH k (n / base)). assert (base ^ Z.of_nat k <= n / base) by (apply Z.div_le_lower_bound; lia).
  lia.
Qed.

(** Exhaustive checking over all bytes. *)
Lemma u8_forallb (P : Z -> bool) :
  forallb P (seqZ 0 256) = true -> forall b, u8 b -> P b = true.
Proof.
  intros H b Hb. rewrite forallb_forall in H. apply H.
  apply list_elem_of_In, elem_of_seqZ. unfold in_range in Hb. lia.
Qed.

(** Bytes, decided. *)
Lemma is_bytes_forallb l : forallb (fun x => (0 <=? x) && (x <? 256)) l = true -> is_bytes l.
Proof.
  intros Hf. apply Forall_forall. intros x Hx%list_elem_of_In. rewrite forallb_forall in Hf. specialize (Hf x Hx).
  unfold in_range. bools. split; lia.
Qed.

