(* ===== verification/Crc32.v ===== *)
(** * Reflected CRC-32 and CRC-32C (src/src/crypto/crc32.rs)

    Both routines run the same bit-serial register over the message, one byte
    at a time, with the polynomials [0xedb88320] and [0x82f63b78].  The file
    defines the register, proves that it stays a 32-bit word, that it composes
    over concatenation, and the guarantee the checksum exists for: two messages
    that differ only inside one window of at most four bytes never collide. *)

From S2P Require Import Prelude.
From stdpp Require Import base tactics numbers list.
From Stdlib Require Import ZArith Lia.

Open Scope Z_scope.

Definition POLY_CRC32 : Z := 0xedb88320.
Definition POLY_CRC32C : Z := 0x82f63b78.

(** One turn of the inner loop: [mask = (crc & 1).wrapping_neg()] selects the
    polynomial. *)
Definition crc_bit (poly crc : Z) : Z :=
  let mask := wrap 32 (- Z.land crc 1) in
  Z.lxor (Z.shiftr crc 1) (Z.land poly mask).

Definition crc_byte (poly crc byte : Z) : Z :=
  Nat.iter 8 (crc_bit poly) (Z.lxor crc byte).

Definition crc_run (poly crc : Z) (data : bytes) : Z :=
  foldl (crc_byte poly) crc data.

Definition embedded_panic_crc32 (data : bytes) : Z :=
  bit_not 32 (crc_run POLY_CRC32 (2 ^ 32 - 1) data).

Definition crc32c_update (crc : Z) (data : bytes) : Z :=
  crc_run POLY_CRC32C crc data.

(** ** The register *)

(** What is needed of a polynomial: 32 bits, the top one set. *)
Definition good_poly (poly : Z) : Prop := u32 poly /\ Z.testbit poly 31 = true.

Lemma good_poly_crc32 : good_poly POLY_CRC32.
Proof. split; [unfold in_range, POLY_CRC32; lia | done]. Qed.
Lemma good_poly_crc32c : good_poly POLY_CRC32C.
Proof. split; [unfold in_range, POLY_CRC32C; lia | done]. Qed.

Lemma crc_bit_alt poly crc :
  u32 poly ->
  crc_bit poly crc = Z.lxor (Z.shiftr crc 1) (if Z.odd crc then poly else 0).
Proof.
  intros Hp. unfold crc_bit. f_equal.
  replace (Z.land crc 1) with (crc mod 2) by (symmetry; apply (Z.land_ones crc 1); lia).
  rewrite Zmod_odd.
  destruct (Z.odd crc).
  - change (Z.land poly (Z.ones 32) = poly).
    rewrite Z.land_ones by lia. by apply Z.mod_small.
  - apply Z.land_0_r.
Qed.

Lemma u32_testbit x : u32 x <-> 0 <= x /\ forall i, 32 <= i -> Z.testbit x i = false.
Proof.
  unfold in_range; split.
  - intros [H0 H]. split; [done|]. intros i Hi.
    rewrite <- (Z.mod_small x (2 ^ 32)) by lia. apply Z.mod_pow2_bits_high; lia.
  - intros [H0 H]. split; [done|].
    assert (x mod 2 ^ 32 = x) as <-; [|apply Z.mod_pos_bound; lia].
    apply Z.bits_inj'. intros i Hi. destruct (decide (i < 32)).
    + by rewrite Z.mod_pow2_bits_low by lia.
    + rewrite Z.mod_pow2_bits_high, H by lia. done.
Qed.

Lemma lxor_u32 x y : u32 x -> u32 y -> u32 (Z.lxor x y).
Proof.
  rewrite !u32_testbit. intros [Hx Hx'] [Hy Hy']. split.
  - apply Z.lxor_nonneg; lia.
  - intros i Hi. by rewrite Z.lxor_spec, Hx', Hy' by lia.
Qed.

Lemma shiftr1_u32 x : u32 x -> u32 (Z.shiftr x 1) /\ Z.testbit (Z.shiftr x 1) 31 = false.
Proof.
  intros [Hx Hx']%u32_testbit. split.
  - apply u32_testbit. split; [by apply Z.shiftr_nonneg|].
    intros i Hi. rewrite Z.shiftr_spec, Hx' by lia. done.
  - rewrite Z.shiftr_spec, Hx' by lia. done.
Qed.

Lemma byte_lxor b x : u8 b -> b + 256 * x = Z.lxor b (Z.shiftl x 8).
Proof.
  intros Hb. rewrite Z.shiftl_mul_pow2, (Z.mul_comm x) by lia. change (2 ^ 8) with 256.
  apply Z.add_nocarry_lxor. apply Z.bits_inj'. intros i Hi.
  rewrite Z.land_spec, Z.bits_0. change 256 with (2 ^ 8).
  rewrite (Z.mul_comm _ x). destruct (decide (i < 8)).
  - rewrite Z.mul_pow2_bits_low by lia. apply andb_false_r.
  - rewrite <- (Z.mod_small b (2 ^ 8)), Z.mod_pow2_bits_high by (unfold in_range in *; lia). done.
Qed.

Section register.
Context (poly : Z) (Hpoly : good_poly poly).

Lemma crc_bit_u32 crc : u32 crc -> u32 (crc_bit poly crc).
Proof.
  intros H. rewrite crc_bit_alt by apply Hpoly.
  apply lxor_u32; [by apply shiftr1_u32|]. destruct (Z.odd crc); [apply Hpoly|].
  unfold in_range; lia.
Qed.

(** Bit 31 after a step is the bit that was shifted out. *)
Lemma crc_bit_top crc : u32 crc -> Z.testbit (crc_bit poly crc) 31 = Z.odd crc.
Proof.
  intros H. rewrite crc_bit_alt, Z.lxor_spec by apply Hpoly.
  rewrite (proj2 (shiftr1_u32 crc H)).
  destruct (Z.odd crc); [by rewrite (proj2 Hpoly)|]. by rewrite Z.bits_0.
Qed.

Lemma crc_bit_inj x y : u32 x -> u32 y -> crc_bit poly x = crc_bit poly y -> x = y.
Proof.
  intros Hx Hy E.
  assert (Z.odd x = Z.odd y) as Eodd by (rewrite <- !crc_bit_top; congruence).
  rewrite !crc_bit_alt, Eodd in E by apply Hpoly.
  assert (Z.shiftr x 1 = Z.shiftr y 1) as Es.
  { apply (f_equal (fun z => Z.lxor z (if Z.odd y then poly else 0))) in E.
    by rewrite !Z.lxor_assoc, Z.lxor_nilpotent, !Z.lxor_0_r in E. }
  rewrite <- !Z.div2_spec in Es.
  rewrite (Z.div2_odd x), (Z.div2_odd y), Es, Eodd. done.
Qed.

(** Bits above the lowest shift down untouched. *)
Lemma crc_bit_shift x y : crc_bit poly (Z.lxor x (Z.shiftl y 1)) = Z.lxor (crc_bit poly x) y.
Proof.
  rewrite !crc_bit_alt, Z.shiftr_lxor by apply Hpoly.
  rewrite Z.shiftr_shiftl_l by lia. rewrite Z.sub_diag, Z.shiftl_0_r.
  replace (Z.odd (Z.lxor x (Z.shiftl y 1))) with (Z.odd x).
  - by rewrite !Z.lxor_assoc, (Z.lxor_comm y).
  - rewrite <- !Z.bit0_odd, Z.lxor_spec, Z.shiftl_spec_low by lia. by rewrite xorb_false_r.
Qed.

Definition crc_bits (n : nat) : Z -> Z := Nat.iter n (crc_bit poly).

Lemma crc_bits_add n m x : crc_bits (n + m) x = crc_bits n (crc_bits m x).
Proof. apply Nat.iter_add. Qed.

Lemma crc_bits_u32 n x : u32 x -> u32 (crc_bits n x).
Proof. intros; induction n; simpl; auto using crc_bit_u32. Qed.

Lemma crc_bits_inj n x y : u32 x -> u32 y -> crc_bits n x = crc_bits n y -> x = y.
Proof.
  intros Hx Hy. induction n as [|n IH]; simpl; [done|].
  intros E%crc_bit_inj; auto using crc_bits_u32.
Qed.

Lemma crc_bits_shift n x y :
  crc_bits n (Z.lxor x (Z.shiftl y (Z.of_nat n))) = Z.lxor (crc_bits n x) y.
Proof.
  revert y; induction n as [|n IH]; intros y; [by rewrite Z.shiftl_0_r|].
  change (crc_bits (S n) ?z) with (crc_bit poly (crc_bits n z)).
  rewrite Nat2Z.inj_succ, <- Z.add_1_l, <- Z.shiftl_shiftl, IH by lia.
  apply crc_bit_shift.
Qed.

Lemma crc_byte_u32 crc b : u32 crc -> u8 b -> u32 (crc_byte poly crc b).
Proof.
  intros. apply (crc_bits_u32 8), lxor_u32; [done|]. unfold in_range in *; lia.
Qed.

Lemma crc_run_u32 crc data : u32 crc -> is_bytes data -> u32 (crc_run poly crc data).
Proof.
  intros Hc Hd. unfold crc_run. revert crc Hc.
  induction Hd; intros crc Hc; simpl; auto using crc_byte_u32.
Qed.

Lemma crc_run_app crc a b : crc_run poly crc (a ++ b) = crc_run poly (crc_run poly crc a) b.
Proof. apply foldl_app. Qed.

(** Running [n] bytes is [8n] register steps on the state with the bytes
    folded in up front, as a little-endian word. *)
Lemma crc_run_word crc w :
  is_bytes w -> crc_run poly crc w = crc_bits (8 * length w) (Z.lxor crc (le_val w)).
Proof.
  intros Hw. revert crc. induction Hw as [|b w Hb Hw IH]; intros crc.
  { simpl. by rewrite Z.lxor_0_r. }
  cbn [crc_run foldl le_val length]. change (foldl (crc_byte poly) ?c w) with (crc_run poly c w).
  rewrite IH. replace (8 * S (length w))%nat with (8 * length w + 8)%nat by lia.
  rewrite crc_bits_add. f_equal. change (crc_byte poly crc b) with (crc_bits 8 (Z.lxor crc b)).
  rewrite byte_lxor, <- Z.lxor_assoc by done. symmetry. apply (crc_bits_shift 8).
Qed.

Lemma crc_run_inj_state x y data :
  u32 x -> u32 y -> is_bytes data -> crc_run poly x data = crc_run poly y data -> x = y.
Proof.
  intros Hx Hy Hd. revert x y Hx Hy.
  induction Hd as [|b data Hb Hd IH]; intros x y Hx Hy; [done|]. simpl. intros E.
  apply IH in E; auto using crc_byte_u32.
  apply (crc_bits_inj 8) in E; try (apply lxor_u32; unfold in_range in *; lia).
  apply (f_equal (fun z => Z.lxor z b)) in E.
  by rewrite !Z.lxor_assoc, Z.lxor_nilpotent, !Z.lxor_0_r in E.
Qed.

Lemma crc_run_burst crc a w w' b :
  u32 crc -> is_bytes a -> is_bytes w -> is_bytes w' -> is_bytes b ->
  length w = length w' -> (length w <= 4)%nat -> w <> w' ->
  crc_run poly crc (a ++ w ++ b) <> crc_run poly crc (a ++ w' ++ b).
Proof.
  intros Hc Ha Hw Hw' Hb Hl Hl4 Hne E. apply Hne.
  rewrite !crc_run_app in E.
  assert (u32 (crc_run poly crc a)) as Hs by auto using crc_run_u32.
  generalize dependent (crc_run poly crc a); intros s E Hs.
  apply crc_run_inj_state in E; auto using crc_run_u32.
  rewrite !crc_run_word, <- Hl in E by done.
  assert (forall v, is_bytes v -> (length v <= 4)%nat -> u32 (le_val v)) as Hle.
  { intros v Hv Hv4. pose proof (le_val_bound v Hv). unfold zlen, in_range in *.
    assert (2 ^ (8 * Z.of_nat (length v)) <= 2 ^ 32); [|lia].
    apply Z.pow_le_mono_r; lia. }
  apply crc_bits_inj in E; try (apply lxor_u32; auto; apply Hle; auto; lia).
  apply (f_equal (Z.lxor s)) in E.
  rewrite <- !Z.lxor_assoc, Z.lxor_nilpotent, !Z.lxor_0_l in E.
  rewrite <- (le_bytes_le_val (length w) w), <- (le_bytes_le_val (length w) w') by done.
  by rewrite E.
Qed.
End register.

(** ** The two checksums *)

(** The published check values, evaluated on the definitions. *)
Example crc32_vectors :
  embedded_panic_crc32 [] = 0 /\
  embedded_panic_crc32 [49; 50; 51; 52; 53; 54; 55; 56; 57] = 0xcbf43926 /\
  bit_not 32 (crc32c_update (2 ^ 32 - 1) [49; 50; 51; 52; 53; 54; 55; 56; 57]) = 0xe3069283.
Proof. vm_compute. done. Qed.

(** CRC-32 burst detection: messages equal but for one window of at most four
    bytes have different checksums. *)
Theorem crc32_detects_bursts a w w' b :
  is_bytes (a ++ w ++ b) -> is_bytes w' -> length w = length w' ->
  (length w <= 4)%nat -> w <> w' ->
  embedded_panic_crc32 (a ++ w ++ b) <> embedded_panic_crc32 (a ++ w' ++ b).
Proof.
  intros [Ha [Hw Hb]%Forall_app]%Forall_app Hw' ??? E. unfold embedded_panic_crc32, bit_not in E.
  eapply (crc_run_burst POLY_CRC32 good_poly_crc32 (2 ^ 32 - 1) a w w' b); auto; [|lia].
  unfold in_range; lia.
Qed.

Lemma crc32_detects_bursts_witness :
  embedded_panic_crc32 ([1; 2] ++ [3; 4; 5; 6] ++ [7]) <>
  embedded_panic_crc32 ([1; 2] ++ [3; 4; 5; 7] ++ [7]).
Proof.
  apply crc32_detects_bursts; [repeat constructor; unfold in_range; lia
    | repeat constructor; unfold in_range; lia | reflexivity | simpl; lia | discriminate].
Defined.

(** CRC-32C, run incrementally: it stays a 32-bit register, extending it over
    two pieces is extending it over their concatenation, and a change confined
    to four bytes changes the register. *)
Theorem crc32c_update_spec crc a w w' b :
  u32 crc -> is_bytes (a ++ w ++ b) -> is_bytes w' -> length w = length w' ->
  (length w <= 4)%nat ->
  u32 (crc32c_update crc (a ++ w ++ b)) /\
  crc32c_update crc (a ++ w ++ b) = crc32c_update (crc32c_update crc a) (w ++ b) /\
  (w <> w' -> crc32c_update crc (a ++ w ++ b) <> crc32c_update crc (a ++ w' ++ b)).
Proof.
  intros Hc Hall Hw' ??. split_and!.
  - by apply crc_run_u32; [apply good_poly_crc32c|..].
  - apply crc_run_app.
  - apply Forall_app in Hall as [Ha [Hw Hb]%Forall_app].
    by intros; apply crc_run_burst; [apply good_poly_crc32c|..].
Qed.

Lemma crc32c_update_spec_witness :
  crc32c_update 0 ([9] ++ [1] ++ [2]) <> crc32c_update 0 ([9] ++ [200] ++ [2]).
Proof.
  apply (crc32c_update_spec 0 [9] [1] [200] [2]);
    [unfold in_range; lia | repeat constructor; unfold in_range; lia
    | repeat constructor; unfold in_range; lia | reflexivity | simpl; lia | discriminate].
Defined.
