(* ===== verification/MuxFrame.v ===== *)
(** * Mux packet framing (src/src/usbmux/frame.rs)

    The 8-byte (version 1) or 16-byte (version 2) header every mux packet
    starts with, the 20-byte version packet and the version request.  Encoders
    write into a caller's buffer and return it with the count; decoders and
    [payload] take the delivered bytes. *)

From S2P Require Import Prelude.
From stdpp Require Import base tactics numbers list.
From Stdlib Require Import ZArith Lia.

Open Scope Z_scope.

Definition HEADER_LEN_V2 : Z := 16.
Definition HEADER_LEN_V1 : Z := 8.
Definition VERSION_PACKET_LEN : Z := 20.
Definition HOST_MAGIC : Z := 0xFEEDFACE.
Definition DEVICE_MAGIC : Z := 0xFACEFACE.
Definition MAX_PACKET : Z := 0x8000.
Definition MAX_TRANSFER : Z := 0x7FFC.

Inductive FrameError :=
| Short (needed had : Z)
| LengthMismatch (declared actual : Z)
| NotVersion (protocol : Z).

Definition be32 {E} (b : bytes) : res E Z := let? k := slice b 0 4 in Ok (be_val k).
Definition be16 {E} (b : bytes) : res E Z := let? k := slice b 0 2 in Ok (be_val k).

(** [be32(&bytes\[lo..lo + 4\])] and [be16(&bytes\[lo..lo + 2\])]. *)
Definition be32_at {E} (b : bytes) (lo : Z) : res E Z := let? k := slice b lo (lo + 4) in be32 k.
Definition be16_at {E} (b : bytes) (lo : Z) : res E Z := let? k := slice b lo (lo + 2) in be16 k.

Module MuxVersion.

Inductive t := V1 | V2.

#[global] Instance t_eq_dec : EqDecision t.
Proof. solve_decision. Defined.

Definition header_len (v : t) : Z := match v with V1 => HEADER_LEN_V1 | V2 => HEADER_LEN_V2 end.
Definition wire_value (v : t) : Z := match v with V1 => 1 | V2 => 2 end.
Definition negotiated_from (value : Z) : t := if value =? 1 then V1 else V2.
Definition is_sequenced (v : t) : bool := match v with V2 => true | V1 => false end.

End MuxVersion.

Module Protocol.

Inductive t := Version | Control | HostLogLevel | Tcp | Unknown (value : Z).

#[global] Instance t_eq_dec : EqDecision t.
Proof. solve_decision. Defined.

Definition wire_value (p : t) : Z :=
  match p with
  | Version => 0
  | Control => 1
  | HostLogLevel => 2
  | Tcp => 6
  | Unknown value => value
  end.

Definition from_wire (value : Z) : t :=
  match value with
  | 0 => Version
  | 1 => Control
  | 2 => HostLogLevel
  | 6 => Tcp
  | other => Unknown other
  end.

Definition is_dispatched (p : t) : bool :=
  match p with Version | HostLogLevel | Tcp => true | _ => false end.

(** [Unknown] never carries the number of a named protocol. *)
Definition wf (p : t) : Prop :=
  u32 (wire_value p) /\ match p with Unknown v => from_wire v = Unknown v | _ => True end.

Lemma wire_from_wire v : wire_value (from_wire v) = v.
Proof. unfold from_wire. repeat case_match; done. Qed.

Lemma from_wire_wire p : wf p -> from_wire (wire_value p) = p.
Proof. destruct p; simpl; try done. by intros [_ ?]. Qed.

Lemma from_wire_wf v : u32 v -> wf (from_wire v).
Proof.
  intros Hv. split; [by rewrite wire_from_wire|].
  pose proof (wire_from_wire v) as E. destruct (from_wire v) eqn:F; try done.
  simpl in E. by subst.
Qed.

End Protocol.

Module MuxHeader.

Record t := Mk {
  protocol : Protocol.t;
  length : Z;
  magic : Z;
  tx_seq : Z;
  rx_ack : Z;
}.

Definition host (protocol : Protocol.t) (length tx_seq rx_ack : Z) : t :=
  Mk protocol length HOST_MAGIC tx_seq rx_ack.

Definition encode (h : t) (version : MuxVersion.t) (out : bytes) : res FrameError (Z * bytes) :=
  let len := MuxVersion.header_len version in
  if zlen out <? len then Err (Short len (zlen out)) else
  let? out := copy_at out 0 (be_bytes 4 (Protocol.wire_value (protocol h))) in
  let? out := copy_at out 4 (be_bytes 4 (length h)) in
  if MuxVersion.is_sequenced version then
    let? out := copy_at out 8 (be_bytes 4 (magic h)) in
    let? out := copy_at out 12 (be_bytes 2 (tx_seq h)) in
    let? out := copy_at out 14 (be_bytes 2 (rx_ack h)) in
    Ok (len, out)
  else Ok (len, out).

Definition decode (version : MuxVersion.t) (b : bytes) : res FrameError t :=
  let len := MuxVersion.header_len version in
  if zlen b <? len then Err (Short len (zlen b)) else
  let? proto := be32_at b 0 in
  let? length := be32_at b 4 in
  if MuxVersion.is_sequenced version then
    let? magic := be32_at b 8 in
    let? tx_seq := be16_at b 12 in
    let? rx_ack := be16_at b 14 in
    Ok (Mk (Protocol.from_wire proto) length magic tx_seq rx_ack)
  else Ok (Mk (Protocol.from_wire proto) length 0 0 0).

Definition payload (h : t) (version : MuxVersion.t) (packet : bytes) : res FrameError bytes :=
  if negb (length h =? zlen packet) then Err (LengthMismatch (length h) (zlen packet)) else
  let header := MuxVersion.header_len version in
  if zlen packet <? header then Err (Short header (zlen packet)) else
  slice packet header (zlen packet).

End MuxHeader.

Module VersionPacket.

Record t := Mk { version : Z; reserved : Z }.

Definition encode (p : t) : res FrameError bytes :=
  let out := zeros VERSION_PACKET_LEN in
  let? out := copy_at out 0 (be_bytes 4 (Protocol.wire_value Protocol.Version)) in
  let? out := copy_at out 4 (be_bytes 4 VERSION_PACKET_LEN) in
  let? out := copy_at out 8 (be_bytes 4 (version p)) in
  copy_at out 12 (be_bytes 4 (reserved p)).

Definition decode (b : bytes) : res FrameError t :=
  if zlen b <? VERSION_PACKET_LEN then Err (Short VERSION_PACKET_LEN (zlen b)) else
  let? protocol := be32_at b 0 in
  if negb (protocol =? Protocol.wire_value Protocol.Version) then Err (NotVersion protocol) else
  let? version := be32_at b 8 in
  let? reserved := be32_at b 12 in
  Ok (Mk version reserved).

Definition negotiated (p : t) : MuxVersion.t := MuxVersion.negotiated_from (version p).

End VersionPacket.

(** [VersionRequest] wraps the word that goes in the version slot. *)
Module VersionRequest.

Definition t := Z.
Definition resync : t := HOST_MAGIC.
Definition exact (version : MuxVersion.t) : t := MuxVersion.wire_value version.
Definition wire_value (r : t) : Z := r.
Definition expected (r : t) : MuxVersion.t := MuxVersion.negotiated_from r.
Definition packet (r : t) : VersionPacket.t := VersionPacket.Mk r 0.

End VersionRequest.

(** ** Reading and writing header words *)

Lemma be32_at_mid {E} (p k r : bytes) lo :
  lo = zlen p -> zlen k = 4 -> be32_at (E:=E) (p ++ k ++ r) lo = Ok (be_val k).
Proof.
  intros -> Hk. unfold be32_at. rewrite slice_mid by (try done; by rewrite Hk). simpl.
  unfold be32. rewrite <- (app_nil_r k) at 1. by rewrite (slice_mid [] k []).
Qed.

Lemma be32_at_head {E} (k r : bytes) : zlen k = 4 -> be32_at (E:=E) (k ++ r) 0 = Ok (be_val k).
Proof. by apply (be32_at_mid []). Qed.

Lemma be16_at_mid {E} (p k r : bytes) lo :
  lo = zlen p -> zlen k = 2 -> be16_at (E:=E) (p ++ k ++ r) lo = Ok (be_val k).
Proof.
  intros -> Hk. unfold be16_at. rewrite slice_mid by (try done; by rewrite Hk). simpl.
  unfold be16. rewrite <- (app_nil_r k) at 1. by rewrite (slice_mid [] k []).
Qed.

Lemma be_word_roundtrip n x : in_range (8 * Z.of_nat n) x -> be_val (be_bytes n x) = x.
Proof. intros. rewrite be_val_be_bytes. by apply Z.mod_small. Qed.

Lemma be32_at_ok {E} (b : bytes) lo :
  0 <= lo -> lo + 4 <= zlen b -> be32_at (E:=E) b lo = Ok (be_val (ztake 4 (zdrop lo b))).
Proof.
  intros. unfold be32_at. rewrite slice_ok by lia. simpl. replace (lo + 4 - lo) with 4 by lia.
  unfold be32. rewrite slice_ok by (autorewrite with zlen; lia). simpl.
  rewrite zdrop_0, ztake_ztake. done.
Qed.

Lemma be16_at_ok {E} (b : bytes) lo :
  0 <= lo -> lo + 2 <= zlen b -> be16_at (E:=E) b lo = Ok (be_val (ztake 2 (zdrop lo b))).
Proof.
  intros. unfold be16_at. rewrite slice_ok by lia. simpl. replace (lo + 2 - lo) with 2 by lia.
  unfold be16. rewrite slice_ok by (autorewrite with zlen; lia). simpl.
  rewrite zdrop_0, ztake_ztake. done.
Qed.

(** A field read out of a buffer is a word of its width, and writing it back
    gives the bytes that were there. *)
Lemma be_field (b : bytes) lo n :
  is_bytes b -> 0 <= lo -> lo + Z.of_nat n <= zlen b ->
  in_range (8 * Z.of_nat n) (be_val (ztake (Z.of_nat n) (zdrop lo b))) /\
  be_bytes n (be_val (ztake (Z.of_nat n) (zdrop lo b))) = ztake (Z.of_nat n) (zdrop lo b).
Proof.
  intros Hb ??.
  assert (zlen (ztake (Z.of_nat n) (zdrop lo b)) = Z.of_nat n) as Hl
    by (autorewrite with zlen; lia).
  split.
  - rewrite <- Hl at 1. apply be_val_bound; auto with isbytes.
  - apply be_bytes_be_val; [auto with isbytes|]. unfold zlen in Hl. lia.
Qed.

(** ** The header codec *)

Module HeaderFacts.
Import MuxHeader.

Definition wf (h : t) : Prop :=
  Protocol.wf (protocol h) /\ u32 (length h) /\ u32 (magic h) /\ u16 (tx_seq h) /\ u16 (rx_ack h).

(** What a version-1 header carries: no magic and no sequence pair. *)
Definition carried (v : MuxVersion.t) (h : t) : t :=
  if MuxVersion.is_sequenced v then h else Mk (protocol h) (length h) 0 0 0.

Definition header_bytes (v : MuxVersion.t) (h : t) : bytes :=
  be_bytes 4 (Protocol.wire_value (protocol h)) ++ be_bytes 4 (length h) ++
  if MuxVersion.is_sequenced v
  then be_bytes 4 (magic h) ++ be_bytes 2 (tx_seq h) ++ be_bytes 2 (rx_ack h) else [].

Lemma zlen_header_bytes v h : zlen (header_bytes v h) = MuxVersion.header_len v.
Proof. destruct v; reflexivity. Qed.

Lemma encode_eq h v out :
  encode h v out =
    if zlen out <? MuxVersion.header_len v
    then Err (Short (MuxVersion.header_len v) (zlen out))
    else Ok (MuxVersion.header_len v, header_bytes v h ++ zdrop (MuxVersion.header_len v) out).
Proof.
  unfold encode. case_match eqn:L; [done|]. bools.
  assert (8 <= zlen out) by (destruct v; simpl in L; unfold HEADER_LEN_V1, HEADER_LEN_V2 in L; lia).
  rewrite (copy_at_prefix [] out) by (autorewrite with zlen; lia). simpl.
  rewrite copy_at_prefix by (autorewrite with zlen; lia). simpl.
  unfold header_bytes.
  destruct v; simpl in *; unfold HEADER_LEN_V1, HEADER_LEN_V2 in *;
    rewrite ?zlen_be_bytes, zdrop_zdrop by lia; [by rewrite <- !app_assoc|].
  repeat (rewrite copy_at_prefix by (autorewrite with zlen; lia); simpl;
          rewrite ?zlen_be_bytes, zdrop_zdrop by lia).
  by rewrite <- !app_assoc.
Qed.

Lemma decode_header_bytes v h rest :
  wf h -> decode v (header_bytes v h ++ rest) = Ok (carried v h).
Proof.
  intros (Hp&Hl&Hm&Ht&Hr). unfold decode. rewrite zlen_app, zlen_header_bytes.
  pose proof (zlen_nonneg rest). rewrite (proj2 (Z.ltb_ge _ _)) by lia.
  unfold header_bytes, carried. rewrite <- !app_assoc.
  rewrite be32_at_head by done. simpl.
  rewrite be_word_roundtrip, Protocol.from_wire_wire by (done || apply Hp).
  rewrite be32_at_mid, be_word_roundtrip by done. simpl.
  destruct v; simpl; [done|]. rewrite <- !app_assoc.
  rewrite (app_assoc (be_bytes 4 _)), be32_at_mid, be_word_roundtrip by done. simpl.
  rewrite (app_assoc (_ ++ be_bytes 4 (length h))), be16_at_mid, be_word_roundtrip by done. simpl.
  rewrite (app_assoc (_ ++ be_bytes 4 (magic h))), be16_at_mid, be_word_roundtrip by done.
  by destruct h.
Qed.

Lemma decode_some v b h :
  is_bytes b -> decode v b = Ok h ->
  MuxVersion.header_len v <= zlen b /\ wf h /\ carried v h = h /\
  ztake (MuxVersion.header_len v) b = header_bytes v h.
Proof.
  intros Hb. unfold decode. case_match eqn:L; [done|]. bools.
  assert (8 <= zlen b) by (destruct v; simpl in L; unfold HEADER_LEN_V1, HEADER_LEN_V2 in L; lia).
  rewrite !be32_at_ok by lia. simpl.
  pose proof (be_field b 0 4 Hb ltac:(lia) ltac:(lia)) as [R0 B0].
  pose proof (be_field b 4 4 Hb ltac:(lia) ltac:(lia)) as [R4 B4].
  change (Z.of_nat 4) with 4 in *.
  destruct v; simpl in *; unfold HEADER_LEN_V1, HEADER_LEN_V2 in *.
  - intros [= <-]. split_and!; try done.
    + split_and!; simpl; try done; by apply Protocol.from_wire_wf.
    + unfold header_bytes; simpl. rewrite Protocol.wire_from_wire, B0, B4, app_nil_r.
      rewrite zdrop_0. by rewrite <- (ztake_add 4 4) by lia.
  - rewrite be32_at_ok, !be16_at_ok by lia. simpl. intros [= <-].
    pose proof (be_field b 8 4 Hb ltac:(lia) ltac:(lia)) as [R8 B8].
    pose proof (be_field b 12 2 Hb ltac:(lia) ltac:(lia)) as [R12 B12].
    pose proof (be_field b 14 2 Hb ltac:(lia) ltac:(lia)) as [R14 B14].
    change (Z.of_nat 4) with 4 in *. change (Z.of_nat 2) with 2 in *.
    split_and!; try done.
    + split_and!; simpl; try done. by apply Protocol.from_wire_wf.
    + unfold header_bytes; simpl.
      rewrite Protocol.wire_from_wire, B0, B4, B8, B12, B14, zdrop_0.
      change 16 with (4 + (4 + (4 + (2 + 2)))).
      repeat (rewrite ztake_add by lia; f_equal; rewrite ?zdrop_zdrop by lia); done.
Qed.

(** The declared length is the second word. *)
Lemma decode_length v b h : decode v b = Ok h -> length h = be_val (ztake 4 (zdrop 4 b)).
Proof.
  unfold decode. destruct (_ <? _) eqn:L; [done|]. bools.
  destruct v; simpl in *; unfold HEADER_LEN_V1, HEADER_LEN_V2 in *;
    rewrite ?be32_at_ok, ?be16_at_ok by lia; by intros [= <-].
Qed.

Lemma decode_no_panic v b : no_panic (decode v b).
Proof.
  unfold no_panic, decode. destruct (_ <? _) eqn:L; [done|]. bools.
  destruct v; simpl in *; unfold HEADER_LEN_V1, HEADER_LEN_V2 in *;
    by rewrite ?be32_at_ok, ?be16_at_ok by lia.
Qed.

Lemma payload_no_panic h v b : no_panic (payload h v b).
Proof.
  unfold no_panic, payload. destruct (negb _) eqn:L; [done|]. destruct (_ <? _) eqn:M; [done|].
  bools. assert (0 <= MuxVersion.header_len v) by (by destruct v). by rewrite slice_ok by lia.
Qed.

Lemma payload_some h v b p : payload h v b = Ok p -> p = zdrop (MuxVersion.header_len v) b.
Proof.
  unfold payload. destruct (negb _) eqn:L; [done|]. destruct (_ <? _) eqn:M; [done|].
  bools. assert (0 <= MuxVersion.header_len v) by (by destruct v). rewrite slice_ok by lia.
  intros [= <-]. apply ztake_all. zl.
Qed.

Lemma version_decode_no_panic b : no_panic (VersionPacket.decode b).
Proof.
  unfold no_panic, VersionPacket.decode, VERSION_PACKET_LEN. destruct (_ <? _) eqn:L; [done|]. bools.
  rewrite !be32_at_ok by lia. simpl. by case_match.
Qed.

End HeaderFacts.

(** ** Properties *)

(** Header round trip.  A buffer of at least the header's length is accepted;
    only its first [header_len] bytes change, and decoding the result gives
    back every field the version carries. *)
Theorem header_roundtrip v h out :
  HeaderFacts.wf h -> MuxVersion.header_len v <= zlen out ->
  exists out',
    MuxHeader.encode h v out = Ok (MuxVersion.header_len v, out') /\
    zlen out' = zlen out /\
    zdrop (MuxVersion.header_len v) out' = zdrop (MuxVersion.header_len v) out /\
    MuxHeader.decode v out' = Ok (HeaderFacts.carried v h).
Proof.
  intros Hh Hl. eexists. rewrite HeaderFacts.encode_eq, (proj2 (Z.ltb_ge _ _)) by lia.
  split; [done|]. assert (0 <= MuxVersion.header_len v) by (destruct v; done). split_and!.
  - rewrite zlen_app, HeaderFacts.zlen_header_bytes, zlen_zdrop. lia.
  - rewrite zdrop_app_ge, HeaderFacts.zlen_header_bytes, Z.sub_diag; [done|].
    rewrite HeaderFacts.zlen_header_bytes; lia.
  - by apply HeaderFacts.decode_header_bytes.
Qed.

Definition sample_header : MuxHeader.t := MuxHeader.host Protocol.Tcp 36 0 0xFFFF.

Lemma header_roundtrip_witness :
  exists out', MuxHeader.encode sample_header MuxVersion.V2 (zeros 16) = Ok (16, out') /\
    MuxHeader.decode MuxVersion.V2 out' = Ok sample_header.
Proof.
  destruct (header_roundtrip MuxVersion.V2 sample_header (zeros 16)) as (out'&E&_&_&D).
  - by_compute.
  - vm_compute; discriminate.
  - exists out'. split; [exact E|exact D].
Defined.

(** The decoder and the payload split are exact: on any delivered packet,
    decoding fails only on a packet shorter than the header; when header and
    payload are both accepted, the packet is precisely the encoded header
    followed by the payload, and its length is the declared one. *)
Theorem packet_split v packet :
  is_bytes packet ->
  match MuxHeader.decode v packet with
  | Ok h =>
      HeaderFacts.wf h /\
      MuxHeader.payload h v packet =
        (if MuxHeader.length h =? zlen packet
         then Ok (zdrop (MuxVersion.header_len v) packet)
         else Err (LengthMismatch (MuxHeader.length h) (zlen packet))) /\
      packet = HeaderFacts.header_bytes v h ++ zdrop (MuxVersion.header_len v) packet
  | Err e => e = Short (MuxVersion.header_len v) (zlen packet) /\ zlen packet < MuxVersion.header_len v
  | Panic => False
  end.
Proof.
  intros Hb. destruct (MuxHeader.decode v packet) as [h|e|] eqn:D.
  - destruct (HeaderFacts.decode_some _ _ _ Hb D) as (Hlen&Hwf&_&Hpre). split_and!; [done| |].
    + unfold MuxHeader.payload. destruct (_ =? _) eqn:E; simpl; [|done]. bools.
      rewrite (proj2 (Z.ltb_ge _ _)) by lia. assert (0 <= MuxVersion.header_len v) by (destruct v; done).
      rewrite slice_ok by lia. f_equal. apply ztake_all. rewrite zlen_zdrop. lia.
    + by rewrite <- Hpre, ztake_zdrop.
  - unfold MuxHeader.decode in D. case_match eqn:L; [bools; by simplify_eq|].
    exfalso. bools. destruct v; simpl in *; unfold HEADER_LEN_V1, HEADER_LEN_V2 in *;
      rewrite ?be32_at_ok, ?be16_at_ok in D by lia; discriminate D.
  - unfold MuxHeader.decode in D. case_match eqn:L; [discriminate D|].
    bools. destruct v; simpl in *; unfold HEADER_LEN_V1, HEADER_LEN_V2 in *;
      rewrite ?be32_at_ok, ?be16_at_ok in D by lia; discriminate D.
Qed.

Lemma packet_split_witness :
  MuxHeader.payload sample_header MuxVersion.V2
    (HeaderFacts.header_bytes MuxVersion.V2 sample_header ++ replicate 20 7)
  = Ok (replicate 20 7).
Proof.
  assert (is_bytes (HeaderFacts.header_bytes MuxVersion.V2 sample_header ++ replicate 20 7)) as H.
  { apply Forall_app; split; [|apply Forall_replicate; unfold in_range; lia].
    unfold HeaderFacts.header_bytes; simpl; auto with isbytes. }
  pose proof (packet_split MuxVersion.V2 _ H) as P.
  vm_compute in P |- *. exact (proj1 (proj2 P)).
Defined.

(** The version exchange.  The request packet always encodes, to 20 bytes; the
    device's reply decodes to the word it carried, and the version in force is
    version 1 exactly for the word 1, version 2 for every other word. *)
Theorem version_exchange (r : VersionRequest.t) (tail : bytes) :
  u32 r ->
  exists out,
    VersionPacket.encode (VersionRequest.packet r) = Ok out /\
    zlen out = VERSION_PACKET_LEN /\
    VersionPacket.decode (out ++ tail) = Ok (VersionRequest.packet r) /\
    (VersionPacket.negotiated (VersionRequest.packet r) = MuxVersion.V1 <-> r = 1) /\
    VersionPacket.negotiated (VersionRequest.packet r) = VersionRequest.expected r.
Proof.
  intros Hr. eexists. split_and!.
  - unfold VersionPacket.encode. rewrite (copy_at_prefix [] (zeros VERSION_PACKET_LEN)) by done.
    do 3 (cbn [res_bind]; rewrite copy_at_prefix by (vm_compute; done || discriminate)).
    rewrite app_nil_l. reflexivity.
  - done.
  - unfold VersionPacket.decode. rewrite zlen_app.
    match goal with |- context [zlen ?a + zlen tail] => change (zlen a) with 20 end.
    rewrite (proj2 (Z.ltb_ge _ _)) by (pose proof (zlen_nonneg tail); unfold VERSION_PACKET_LEN; lia).
    rewrite <- !app_assoc, be32_at_head by done. simpl.
    rewrite (app_assoc (be_bytes 4 0)), be32_at_mid, be_word_roundtrip by done. simpl.
    by rewrite (app_assoc (_ ++ be_bytes 4 VERSION_PACKET_LEN)), be32_at_mid, !be_word_roundtrip
      by (done || by_compute).
  - unfold VersionPacket.negotiated, MuxVersion.negotiated_from; simpl.
    case_match; bools; naive_solver.
  - done.
Qed.

Lemma version_exchange_witness :
  exists out, VersionPacket.encode (VersionRequest.packet VersionRequest.resync) = Ok out /\
    VersionPacket.decode (out ++ []) = Ok (VersionRequest.packet VersionRequest.resync).
Proof.
  destruct (version_exchange VersionRequest.resync []) as (out&E&_&D&_); [by_compute|].
  exists out. split; [exact E|exact D].
Defined.
