(* ===== verification/MuxTcp.v ===== *)
(** * The mux's TCP header (src/src/usbmux/tcp.rs)

    A 20-byte option-free header.  The window travels as a 16-bit count of
    256-byte units, so a window only survives the trip rounded down to a
    multiple of 256 and clamped to [0xFFFF << 8]. *)

From S2P Require Import Prelude MuxFrame.
From stdpp Require Import base tactics numbers list.
From Stdlib Require Import ZArith Lia.

Open Scope Z_scope.

Definition TCP_HEADER_LEN : Z := 20.
Definition DATA_OFFSET_WORDS : Z := 5.
Definition WINDOW_SCALE_SHIFT : Z := 8.
Definition DEVICE_INITIAL_SEQUENCE : Z := 0.

Module flags.

Definition FIN : Z := 0x01.
Definition SYN : Z := 0x02.
Definition RST : Z := 0x04.
Definition PSH : Z := 0x08.
Definition ACK : Z := 0x10.
Definition URG : Z := 0x20.
Definition SYN_ACK : Z := Z.lor SYN ACK.

End flags.

Inductive TcpError :=
| TcpShort (needed had : Z)
| TcpOptions (offset_words : Z).

Module TcpHeader.

Record t := Mk {
  source_port : Z;
  destination_port : Z;
  sequence : Z;
  acknowledgement : Z;
  flags : Z;
  window : Z;
}.

Definition window_from_wire (wire : Z) : Z := Z.shiftl wire WINDOW_SCALE_SHIFT.

Definition window_to_wire (count : Z) : Z :=
  let scaled := Z.shiftr count WINDOW_SCALE_SHIFT in
  if 65535 <? scaled then 65535 else wrap 16 scaled.

Definition encode (h : t) (out : bytes) : res TcpError (Z * bytes) :=
  if zlen out <? TCP_HEADER_LEN then Err (TcpShort TCP_HEADER_LEN (zlen out)) else
  let? out := copy_at out 0 (be_bytes 2 (source_port h)) in
  let? out := copy_at out 2 (be_bytes 2 (destination_port h)) in
  let? out := copy_at out 4 (be_bytes 4 (sequence h)) in
  let? out := copy_at out 8 (be_bytes 4 (acknowledgement h)) in
  let? out := copy_at out 12 [wrap 8 (Z.shiftl DATA_OFFSET_WORDS 4)] in
  let? out := copy_at out 13 [flags h] in
  let? out := copy_at out 14 (be_bytes 2 (window_to_wire (window h))) in
  let? out := copy_at out 16 [0; 0; 0; 0] in
  Ok (TCP_HEADER_LEN, out).

Definition decode (b : bytes) : res TcpError t :=
  if zlen b <? TCP_HEADER_LEN then Err (TcpShort TCP_HEADER_LEN (zlen b)) else
  let? b12 := index b 12 in
  let offset_words := Z.shiftr b12 4 in
  if negb (offset_words =? DATA_OFFSET_WORDS) then Err (TcpOptions offset_words) else
  let? source_port := be16_at b 0 in
  let? destination_port := be16_at b 2 in
  let? sequence := be32_at b 4 in
  let? acknowledgement := be32_at b 8 in
  let? flags := index b 13 in
  let? wire := be16_at b 14 in
  Ok (Mk source_port destination_port sequence acknowledgement flags (window_from_wire wire)).

Definition declared_header_len (b : bytes) : option Z :=
  byte ← zget b 12; Some (Z.land (Z.shiftr byte 2) 0x3c).

Definition is_bare_ack (h : t) : bool := flags h =? flags.ACK.
Definition is_bare_syn (h : t) : bool := flags h =? flags.SYN.
Definition is_syn_ack (h : t) : bool := flags h =? flags.SYN_ACK.
Definition is_fin (h : t) : bool :=
  negb (Z.land (flags h) flags.FIN =? 0) &&
  (Z.land (flags h) (bit_not 8 (Z.lor (Z.lor flags.FIN flags.ACK) flags.PSH)) =? 0).
Definition is_reset (h : t) : bool := negb (Z.land (flags h) flags.RST =? 0).
Definition window_edge (h : t) : Z := wrapping_add 32 (acknowledgement h) (window h).

End TcpHeader.

(** ** Facts *)

Module TcpFacts.
Import TcpHeader.

Definition wf (h : t) : Prop :=
  u16 (source_port h) /\ u16 (destination_port h) /\ u32 (sequence h) /\
  u32 (acknowledgement h) /\ u8 (TcpHeader.flags h) /\ u32 (window h).

(** The largest window the wire can carry. *)
Definition WINDOW_MAX : Z := 65535 * 256.

(** What a window is worth after a trip over the wire. *)
Definition quantize (w : Z) : Z := window_from_wire (window_to_wire w).

Lemma window_from_wire_eq w : window_from_wire w = w * 256.
Proof. unfold window_from_wire, WINDOW_SCALE_SHIFT. by rewrite Z.shiftl_mul_pow2 by lia. Qed.

Lemma window_to_wire_eq w : 0 <= w -> window_to_wire w = Z.min 65535 (w / 256).
Proof.
  intros. unfold window_to_wire, WINDOW_SCALE_SHIFT. rewrite Z.shiftr_div_pow2 by lia.
  change (2 ^ 8) with 256. assert (0 <= w / 256) by (apply Z.div_pos; lia).
  case_match; bools; [lia|]. rewrite wrap_small by (unfold in_range; lia). lia.
Qed.

Lemma quantize_eq w : 0 <= w -> quantize w = Z.min WINDOW_MAX (w / 256 * 256).
Proof.
  intros. unfold quantize, WINDOW_MAX. rewrite window_from_wire_eq, window_to_wire_eq by lia. lia.
Qed.

Lemma quantize_bounds w : 0 <= w -> 0 <= quantize w <= w /\ (w <= WINDOW_MAX -> w - quantize w < 256).
Proof. intros. rewrite quantize_eq by lia. unfold WINDOW_MAX in *. Z.div_mod_to_equations; lia. Qed.

Lemma window_to_wire_u16 w : 0 <= w -> u16 (window_to_wire w).
Proof.
  intros. rewrite window_to_wire_eq by lia. assert (0 <= w / 256) by (apply Z.div_pos; lia).
  unfold in_range; lia.
Qed.

Definition tcp_bytes (h : t) : bytes :=
  be_bytes 2 (source_port h) ++ be_bytes 2 (destination_port h) ++ be_bytes 4 (sequence h) ++
  be_bytes 4 (acknowledgement h) ++ [80] ++ [TcpHeader.flags h] ++
  be_bytes 2 (window_to_wire (window h)) ++ [0; 0; 0; 0].

Lemma zlen_tcp_bytes h : zlen (tcp_bytes h) = TCP_HEADER_LEN.
Proof. reflexivity. Qed.

Lemma is_bytes_tcp_bytes h : wf h -> is_bytes (tcp_bytes h).
Proof.
  intros (_&_&_&_&Hf&_). unfold tcp_bytes. rewrite !Forall_app, !Forall_cons, !Forall_nil.
  split_and!; try apply is_bytes_be_bytes; done || by_compute.
Qed.

Lemma tcp_encode_eq h out :
  encode h out =
    if zlen out <? TCP_HEADER_LEN then Err (TcpShort TCP_HEADER_LEN (zlen out))
    else Ok (TCP_HEADER_LEN, tcp_bytes h ++ zdrop TCP_HEADER_LEN out).
Proof.
  unfold encode, TCP_HEADER_LEN. case_match eqn:L; [done|]. bools.
  rewrite (copy_at_prefix [] out) by (autorewrite with zlen; lia). rewrite app_nil_l.
  do 7 (cbn [res_bind]; rewrite copy_at_prefix by (autorewrite with zlen; lia)).
  cbn [res_bind]. unfold tcp_bytes. rewrite !zdrop_zdrop by (autorewrite with zlen; lia).
  rewrite <- !app_assoc. done.
Qed.

Lemma index_ok {E} (b : bytes) i : is_bytes b -> 0 <= i < zlen b -> exists x, index (E:=E) b i = Ok x /\ u8 x.
Proof.
  intros Hb Hi. unfold index, zget. rewrite (proj2 (Z.ltb_ge _ _)) by lia.
  destruct (b !! Z.to_nat i) as [x|] eqn:L.
  - exists x. split; [done|]. by eapply Forall_lookup_1.
  - apply lookup_ge_None in L. unfold zlen in *. lia.
Qed.

Lemma index_zdrop {E} (b : bytes) i x : index (E:=E) b i = Ok x -> zdrop i b = x :: zdrop (i + 1) b.
Proof.
  unfold index, zget, zdrop, or_panic. repeat case_match; try done. intros [= ->]. bools.
  replace (Z.to_nat (i + 1)) with (S (Z.to_nat i)) by lia. by apply drop_S.
Qed.

Lemma ztake_cons n x (l : bytes) : 0 < n -> ztake n (x :: l) = x :: ztake (n - 1) l.
Proof.
  intros. unfold ztake. replace (Z.to_nat n) with (S (Z.to_nat (n - 1))) by lia. done.
Qed.

Lemma zdrop_one n x (l : bytes) : n = 1 -> zdrop n (x :: l) = l.
Proof. by intros ->. Qed.

(** The decoder, field by field, on a buffer that holds a header. *)
Lemma decode_eq b :
  TCP_HEADER_LEN <= zlen b ->
  decode b =
    let? b12 := index b 12 in
    if negb (Z.shiftr b12 4 =? DATA_OFFSET_WORDS) then Err (TcpOptions (Z.shiftr b12 4)) else
    let? f := index b 13 in
    Ok (Mk (be_val (ztake 2 (zdrop 0 b))) (be_val (ztake 2 (zdrop 2 b)))
          (be_val (ztake 4 (zdrop 4 b))) (be_val (ztake 4 (zdrop 8 b))) f
          (window_from_wire (be_val (ztake 2 (zdrop 14 b))))).
Proof.
  unfold TCP_HEADER_LEN; intros. unfold decode, TCP_HEADER_LEN.
  rewrite (proj2 (Z.ltb_ge _ _)), !be16_at_ok, !be32_at_ok by lia. done.
Qed.

Lemma decode_tcp_bytes h rest :
  wf h -> decode (tcp_bytes h ++ rest) =
    Ok (Mk (source_port h) (destination_port h) (sequence h) (acknowledgement h)
          (TcpHeader.flags h) (quantize (window h))).
Proof.
  intros (Hs&Hd&Hq&Ha&Hf&Hw). pose proof (zlen_nonneg rest).
  rewrite decode_eq by (rewrite zlen_app, zlen_tcp_bytes; lia).
  unfold tcp_bytes. rewrite <- !app_assoc.
  replace (ztake 2 (zdrop 0 _)) with (be_bytes 2 (source_port h)) by (symmetry; pick).
  replace (ztake 2 (zdrop 2 _)) with (be_bytes 2 (destination_port h)) by (symmetry; pick).
  replace (ztake 4 (zdrop 4 _)) with (be_bytes 4 (sequence h)) by (symmetry; pick).
  replace (ztake 4 (zdrop 8 _)) with (be_bytes 4 (acknowledgement h)) by (symmetry; pick).
  replace (ztake 2 (zdrop 14 _)) with (be_bytes 2 (window_to_wire (window h))) by (symmetry; pick).
  rewrite !be_word_roundtrip by (done || apply window_to_wire_u16, Hw).
  done.
Qed.

(** Everything a successful decode says about the bytes: the fields are words
    of their width, the window is a wire window, and re-encoding reproduces the
    delivered bytes except the reserved nibble and the checksum and urgent
    words, which the mux ignores. *)
Lemma tcp_decode_some b h :
  is_bytes b -> decode b = Ok h ->
  TCP_HEADER_LEN <= zlen b /\ wf h /\ quantize (window h) = window h /\
  window h <= WINDOW_MAX /\
  ztake 12 b = ztake 12 (tcp_bytes h) /\
  ztake 3 (zdrop 13 b) = ztake 3 (zdrop 13 (tcp_bytes h)).
Proof.
  intros Hb D. destruct (decide (TCP_HEADER_LEN <= zlen b)) as [L|L]; last first.
  { unfold decode in D. rewrite (proj2 (Z.ltb_lt _ _)) in D by lia. done. }
  rewrite decode_eq in D by done. unfold TCP_HEADER_LEN in L.
  destruct (index_ok (E:=TcpError) b 12 Hb ltac:(lia)) as (b12&E12&_).
  destruct (index_ok (E:=TcpError) b 13 Hb ltac:(lia)) as (f&E13&Hf).
  rewrite E12, E13 in D. simpl in D. case_match; [done|]. injection D as <-.
  pose proof (be_field b 0 2 Hb ltac:(lia) ltac:(lia)) as [R0 B0].
  pose proof (be_field b 2 2 Hb ltac:(lia) ltac:(lia)) as [R2 B2].
  pose proof (be_field b 4 4 Hb ltac:(lia) ltac:(lia)) as [R4 B4].
  pose proof (be_field b 8 4 Hb ltac:(lia) ltac:(lia)) as [R8 B8].
  pose proof (be_field b 14 2 Hb ltac:(lia) ltac:(lia)) as [R14 B14].
  change (Z.of_nat 4) with 4 in *. change (Z.of_nat 2) with 2 in *.
  set (w := be_val (ztake 2 (zdrop 14 b))) in *.
  assert (window_to_wire (window_from_wire w) = w) as Hw.
  { rewrite window_from_wire_eq. unfold in_range in R14. rewrite window_to_wire_eq by lia.
    rewrite Z.div_mul by lia. lia. }
  split_and!; simpl; [done| |unfold quantize; by rewrite Hw| | |].
  - split_and!; simpl; try done. rewrite window_from_wire_eq. unfold in_range in *; lia.
  - rewrite window_from_wire_eq. unfold in_range in *. unfold WINDOW_MAX; lia.
  - change (ztake 12 b) with (ztake (2 + (2 + (4 + 4))) b).
    rewrite (ztake_add 2 (2 + (4 + 4))), (ztake_add 2 (4 + 4)), (ztake_add 4 4), !zdrop_zdrop by lia.
    unfold tcp_bytes; simpl. rewrite B0, B2, B4, B8, zdrop_0. symmetry.
    match goal with |- ztake _ (?x ++ ?y ++ ?z ++ ?u ++ ?r) = _ =>
      rewrite (app_assoc z u r), (app_assoc y _ r), (app_assoc x _ r) end.
    rewrite ztake_app_le by zl. apply ztake_all; zl.
  - unfold tcp_bytes; simpl. rewrite B0, B2, B4, B8. fold w. rewrite Hw. subst w. rewrite B14.
    repeat rewrite zdrop_app_ge by zl.
    rewrite (zdrop_one _ 80) by zl.
    rewrite (index_zdrop _ _ _ E13), !ztake_cons by lia. f_equal.
    change (3 - 1) with 2. change (13 + 1) with 14. symmetry. rewrite ztake_app_le by zl.
    apply ztake_all; zl.
Qed.

Lemma tcp_decode_no_panic b : is_bytes b -> no_panic (decode b).
Proof.
  intros Hb. unfold no_panic. destruct (decide (TCP_HEADER_LEN <= zlen b)) as [L|L]; last first.
  { unfold decode. by rewrite (proj2 (Z.ltb_lt _ _)) by lia. }
  rewrite decode_eq by done. unfold TCP_HEADER_LEN in L.
  destruct (index_ok (E:=TcpError) b 12 Hb ltac:(lia)) as (b12&->&_).
  destruct (index_ok (E:=TcpError) b 13 Hb ltac:(lia)) as (f&->&Hf). simpl. by case_match.
Qed.

End TcpFacts.

(** ** Properties *)

(** TCP header round trip.  Encoding into a large enough buffer writes 20 bytes
    and leaves the rest; decoding returns every field, with the window rounded
    down by less than 256 bytes (never up) up to the clamp at [0xFFFF << 8]. *)
Theorem tcp_roundtrip h out :
  TcpFacts.wf h -> TCP_HEADER_LEN <= zlen out ->
  exists out' h',
    TcpHeader.encode h out = Ok (TCP_HEADER_LEN, out') /\
    zlen out' = zlen out /\ zdrop TCP_HEADER_LEN out' = zdrop TCP_HEADER_LEN out /\
    TcpHeader.decode out' = Ok h' /\
    (TcpHeader.source_port h', TcpHeader.destination_port h', TcpHeader.sequence h',
     TcpHeader.acknowledgement h', TcpHeader.flags h') =
    (TcpHeader.source_port h, TcpHeader.destination_port h, TcpHeader.sequence h,
     TcpHeader.acknowledgement h, TcpHeader.flags h) /\
    0 <= TcpHeader.window h' <= TcpHeader.window h /\
    (TcpHeader.window h <= TcpFacts.WINDOW_MAX ->
     TcpHeader.window h - TcpHeader.window h' < 256) /\
    (TcpFacts.WINDOW_MAX <= TcpHeader.window h -> TcpHeader.window h' = TcpFacts.WINDOW_MAX).
Proof.
  intros Hh Hl. rewrite TcpFacts.tcp_encode_eq, (proj2 (Z.ltb_ge _ _)) by done.
  do 2 eexists. split; [done|].
  assert (0 <= TcpHeader.window h) as Hw by apply Hh.
  pose proof (TcpFacts.quantize_bounds _ Hw).
  assert (0 <= TCP_HEADER_LEN) by done. split_and!.
  - rewrite zlen_app, TcpFacts.zlen_tcp_bytes, zlen_zdrop. lia.
  - rewrite zdrop_app_ge, TcpFacts.zlen_tcp_bytes, Z.sub_diag; [done|].
    rewrite TcpFacts.zlen_tcp_bytes; lia.
  - by apply TcpFacts.decode_tcp_bytes.
  - done.
  - simpl; lia.
  - simpl; lia.
  - simpl; tauto.
  - simpl. intros. rewrite TcpFacts.quantize_eq by lia. unfold TcpFacts.WINDOW_MAX in *.
    Z.div_mod_to_equations; lia.
Qed.

Definition sample_tcp : TcpHeader.t := TcpHeader.Mk 49152 62078 1000 2000 16 (256 * 1024 - 1).

Lemma tcp_roundtrip_witness :
  exists out' h', TcpHeader.encode sample_tcp (zeros 20) = Ok (20, out') /\
    TcpHeader.decode out' = Ok h' /\ TcpHeader.window sample_tcp - TcpHeader.window h' < 256.
Proof.
  destruct (tcp_roundtrip sample_tcp (zeros 20)) as (out'&h'&E&_&_&D&_&_&W&_).
  - by_compute.
  - by_compute.
  - exists out', h'. split; [exact E|]. split; [exact D|]. apply W. by_compute.
Defined.

Lemma header_len_of_offset byte :
  u8 byte -> Z.shiftr byte 4 = DATA_OFFSET_WORDS -> Z.land (Z.shiftr byte 2) 0x3c = TCP_HEADER_LEN.
Proof.
  intros H E. pose proof (u8_forallb
    (fun b => implb (Z.shiftr b 4 =? 5) (Z.land (Z.shiftr b 2) 0x3c =? 20)) eq_refl byte H) as C.
  simpl in C. rewrite E in C. by apply Z.eqb_eq in C.
Qed.

(** The decoder on arbitrary bytes: it never panics, refuses exactly the short
    buffers and the headers with options, and what it accepts re-encodes to the
    bytes delivered, the ignored checksum, urgent and reserved bits apart. *)
Theorem tcp_decode_exact b :
  is_bytes b ->
  match TcpHeader.decode b with
  | Ok h =>
      TCP_HEADER_LEN <= zlen b /\ TcpFacts.wf h /\
      TcpHeader.declared_header_len b = Some TCP_HEADER_LEN /\
      TcpFacts.quantize (TcpHeader.window h) = TcpHeader.window h /\
      ztake 12 b = ztake 12 (TcpFacts.tcp_bytes h) /\
      ztake 3 (zdrop 13 b) = ztake 3 (zdrop 13 (TcpFacts.tcp_bytes h))
  | Err (TcpShort needed had) =>
      needed = TCP_HEADER_LEN /\ had = zlen b /\ zlen b < TCP_HEADER_LEN
  | Err (TcpOptions words) =>
      words <> DATA_OFFSET_WORDS /\ exists byte, zget b 12 = Some byte /\ words = Z.shiftr byte 4
  | Panic => False
  end.
Proof.
  intros Hb. destruct (decide (TCP_HEADER_LEN <= zlen b)) as [L|L]; last first.
  { unfold TcpHeader.decode. rewrite (proj2 (Z.ltb_lt _ _)) by lia. split_and!; lia. }
  destruct (TcpFacts.index_ok (E:=TcpError) b 12 Hb ltac:(unfold TCP_HEADER_LEN in L; lia))
    as (b12&E12&H12).
  destruct (TcpFacts.index_ok (E:=TcpError) b 13 Hb ltac:(unfold TCP_HEADER_LEN in L; lia))
    as (b13&E13&_).
  assert (zget b 12 = Some b12) as G12.
  { unfold index, or_panic in E12. case_match; by simplify_eq. }
  destruct (TcpHeader.decode b) as [h|e|] eqn:D.
  - pose proof (TcpFacts.tcp_decode_some b h Hb D) as (?&?&?&?&?&?). split_and!; try done.
    rewrite TcpFacts.decode_eq, E12 in D by done. simpl in D. case_match; [done|]. bools.
    unfold TcpHeader.declared_header_len. rewrite G12. simpl. f_equal.
    by apply header_len_of_offset.
  - rewrite TcpFacts.decode_eq, E12, E13 in D by done. simpl in D. case_match; [|done].
    injection D as <-. bools. eauto.
  - rewrite TcpFacts.decode_eq, E12, E13 in D by done. simpl in D. by case_match.
Qed.

Lemma tcp_decode_exact_witness :
  TcpHeader.declared_header_len (TcpFacts.tcp_bytes sample_tcp) = Some TCP_HEADER_LEN.
Proof.
  assert (is_bytes (TcpFacts.tcp_bytes sample_tcp)) as H.
  { apply TcpFacts.is_bytes_tcp_bytes. by_compute. }
  pose proof (tcp_decode_exact _ H) as P. vm_compute in P |- *.
  exact (proj1 (proj2 (proj2 P))).
Defined.
