(* ===== verification/MuxTrace.v ===== *)
(** * Mux trace events (src/src/usbmux/trace.rs)

    The events the mux reports to a sink, as data.  Durations are nanoseconds. *)

From S2P Require Import Prelude MuxFrame.
From stdpp Require Import base tactics numbers list.
From Stdlib Require Import ZArith.

Open Scope Z_scope.

Module LinkPhase.

Inductive t :=
| Idle | Inspect | Negotiate | OpenSyn | OpenPoll | OpenEnd | Read | Write | WriteProbe | Flush
| Close | PumpFallback.

End LinkPhase.

Inductive TraceEvent :=
| TVersionSent (version count : Z)
| TVersionTimedOut (waited : Z)
| TVersionWaitDiscarded (protocol count : Z)
| TVersionNegotiated (version : MuxVersion.t) (header_len segment_size : Z)
| TSynSent (local_port remote_port sequence : Z)
| TSynAckReceived (local_port device_sequence window : Z)
| TSessionEstablished (local_port remote_port : Z)
| THandshakeTimedOut (local_port waited : Z)
| TSent (local_port count : Z)
| TRetransmitted (local_port sequence count : Z) (outer_sequence : option Z)
| TReceived (local_port count : Z)
| TSequenceGap (expected received : Z)
| TOutOfOrder (local_port expected received : Z)
| TReset (local_port : Z)
| TUnmatched (local_port : Z)
| TOtherProtocol (protocol : Z)
| TControlMessage (payload : bytes) (acknowledged_host_packet : option Z)
| TPacketRejected (protocol declared delivered magic : Z) (head : bytes) (rejected : Z)
| TReadPollExpired (local_port waited elapsed : Z)
| TWriteWindowShut (local_port snd_una snd_nxt snd_wnd_edge peer_window pending segments_in
                    waited elapsed : Z) (probed : bool)
| TSessionClosedByFlags (local_port flags : Z)
| TDeviceGone (local_port : Z)
| TLinkStalled (phase : LinkPhase.t) (port held waiters acquisitions since_acquisition stalled
                packets_in packets_out queued deferred idle_reads refused : Z)
| TLinkResumed (stalled acquisitions packets_in packets_out : Z).
