(* ===== verification/MuxSession.v ===== *)
(** * The mux session state machine (src/src/usbmux/session.rs)

    One host-side TCP-like connection: handshake, cumulative acknowledgement,
    send-window accounting with silly-window avoidance, retransmission of the
    unacknowledged bytes, in-order receive and the FIN exchange.  A [VecDeque]
    of bytes is a list: copying [as_slices]' two halves one after the other is
    copying the list.  A handler that mutates [self] returns the new session
    next to its result. *)

From S2P Require Import Prelude MuxFrame MuxTcp.
From stdpp Require Import base tactics numbers list.
From Stdlib Require Import ZArith Lia.

Open Scope Z_scope.

Inductive SessionState := SynSent | Established | Closed.

#[export] Instance SessionState_eq_dec : EqDecision SessionState.
Proof. solve_decision. Defined.

Inductive SessionEvent :=
| EvEstablished
| EvData (count : Z)
| EvAcknowledged
| EvReset
| EvOutOfOrder (expected received : Z)
| EvClosedByFlags (flags : Z).

Inductive SessionError :=
| SessClosed
| BadHandshake (flags : Z)
| BadAcknowledgement (sent acknowledged : Z).

Module Segment.

Record t := Mk { header : TcpHeader.t; payload : bytes }.

Definition to_bytes (s : t) : res TcpError bytes :=
  let out := zeros (TCP_HEADER_LEN + zlen (payload s)) in
  let? (written, out) := or_panic match TcpHeader.encode (header s) out with
                                   | Ok r => Some r | _ => None end in
  copy_at out written (payload s).

End Segment.

Record SessionConfig := {
  local_port : Z;
  remote_port : Z;
  initial_sequence : Z;
  mss : Z;
  receive_window : Z;
}.

(** Sequence comparison modulo 2^32. *)
Definition seq_gt (a b : Z) : bool := 0 <? as_i32 (wrapping_sub 32 a b).

Module MuxSession.

Record t := Mk {
  config : SessionConfig;
  state : SessionState;
  snd_nxt : Z;
  snd_una : Z;
  snd_wnd_edge : Z;
  send_epoch : Z;
  rcv_nxt : Z;
  outbound : bytes;
  unacknowledged : bytes;
  inbound : bytes;
  owe_ack : bool;
  peer_fin : option Z;
  write_shutdown : bool;
  sent_fin : option Z;
  peer_window : Z;
  max_peer_window : Z;
  segments_in : Z;
}.

#[global] Instance eta_session : Eta t := fun s =>
  Mk (config s) (state s) (snd_nxt s) (snd_una s) (snd_wnd_edge s) (send_epoch s) (rcv_nxt s)
     (outbound s) (unacknowledged s) (inbound s) (owe_ack s) (peer_fin s) (write_shutdown s)
     (sent_fin s) (peer_window s) (max_peer_window s) (segments_in s).

Definition open (c : SessionConfig) : t * Segment.t :=
  let session :=
    {| config := c; state := SynSent;
       snd_nxt := initial_sequence c; snd_una := initial_sequence c;
       snd_wnd_edge := initial_sequence c; send_epoch := 0; rcv_nxt := 0;
       outbound := []; unacknowledged := []; inbound := []; owe_ack := false;
       peer_fin := None; write_shutdown := false; sent_fin := None;
       peer_window := 0; max_peer_window := 0; segments_in := 0 |} in
  let header := TcpHeader.Mk (local_port c) (remote_port c) (initial_sequence c) 0
                  flags.SYN (receive_window c) in
  (session, Segment.Mk header []).

Definition is_open (s : t) : bool := match state s with Closed => false | _ => true end.
Definition received_len (s : t) : Z := zlen (inbound s).
Definition pending_len (s : t) : Z := zlen (outbound s).

Definition queue (s : t) (data : bytes) : t := s <| outbound := outbound s ++ data |>.

(** Callers pass [take] no larger than the queue. *)
Definition take_outbound (s : t) (take : Z) : t * bytes :=
  (s <| outbound := zdrop take (outbound s) |>, ztake take (outbound s)).

(** Fills the front of [out]; returns the count and the buffer. *)
Definition take_received (s : t) (out : bytes) : t * (Z * bytes) :=
  let taken := Z.min (zlen out) (zlen (inbound s)) in
  (s <| inbound := zdrop taken (inbound s) |>,
   (taken, ztake taken (inbound s) ++ zdrop taken out)).

Definition in_flight (s : t) : Z := wrapping_sub 32 (snd_nxt s) (snd_una s).

Definition usable_window (s : t) : Z :=
  let room := wrapping_sub 32 (snd_wnd_edge s) (snd_nxt s) in
  if as_i32 room <=? 0 then 0 else room.

Definition advertised_window (s : t) : Z :=
  let used := if zlen (inbound s) <? 2 ^ 32 then zlen (inbound s) else 2 ^ 32 - 1 in
  saturating_sub (receive_window (config s)) used.

Definition ack_header (s : t) (sequence : Z) : TcpHeader.t :=
  TcpHeader.Mk (local_port (config s)) (remote_port (config s)) sequence (rcv_nxt s)
    flags.ACK (advertised_window s).

Definition on_syn_ack (s : t) (h : TcpHeader.t) : t * res SessionError SessionEvent :=
  if negb (TcpHeader.is_syn_ack h) then (s, Err (BadHandshake (TcpHeader.flags h))) else
  let expected := wrapping_add 32 (initial_sequence (config s)) 1 in
  if negb (TcpHeader.acknowledgement h =? expected)
  then (s, Err (BadAcknowledgement expected (TcpHeader.acknowledgement h))) else
  (s <| snd_nxt := expected |>
     <| snd_una := expected |>
     <| snd_wnd_edge := TcpHeader.window_edge h |>
     <| peer_window := TcpHeader.window h |>
     <| max_peer_window := Z.max (max_peer_window s) (TcpHeader.window h) |>
     <| rcv_nxt := wrapping_add 32 (TcpHeader.sequence h) 1 |>
     <| state := Established |>
     <| owe_ack := true |>, Ok EvEstablished).

(** The acknowledgement half of [on_established]: [None] is the early return
    with [BadAcknowledgement]. *)
Definition apply_ack (s : t) (h : TcpHeader.t) : option t :=
  if negb (Z.land (TcpHeader.flags h) flags.ACK =? 0) &&
     seq_gt (TcpHeader.acknowledgement h) (snd_una s) then
    if seq_gt (TcpHeader.acknowledgement h) (snd_nxt s) then None else
    let acknowledged := wrapping_sub 32 (TcpHeader.acknowledgement h) (snd_una s) in
    Some (s <| unacknowledged :=
                 zdrop (Z.min acknowledged (zlen (unacknowledged s))) (unacknowledged s) |>
            <| snd_una := TcpHeader.acknowledgement h |>
            <| send_epoch := wrapping_add 64 (send_epoch s) 1 |>)
  else Some s.

(** The window update: the last segment's edge, never the widest seen. *)
Definition apply_window (s : t) (h : TcpHeader.t) : t :=
  if negb (Z.land (TcpHeader.flags h) flags.ACK =? 0) then
    s <| snd_wnd_edge := TcpHeader.window_edge h |>
      <| peer_window := TcpHeader.window h |>
      <| max_peer_window := Z.max (max_peer_window s) (TcpHeader.window h) |>
  else s.

(** The data half of [on_established]. *)
Definition apply_data (s : t) (h : TcpHeader.t) (payload : bytes) : t * SessionEvent :=
  if (zlen payload =? 0) && negb (TcpHeader.is_fin h) then (s, EvAcknowledged) else
  if negb (TcpHeader.sequence h =? rcv_nxt s) || bool_decide (is_Some (peer_fin s)) then
    (s <| owe_ack := true |>, EvOutOfOrder (rcv_nxt s) (TcpHeader.sequence h)) else
  let rcv := wrapping_add 32 (rcv_nxt s) (wrap 32 (zlen payload)) in
  let s := s <| inbound := inbound s ++ payload |> <| rcv_nxt := rcv |> in
  let s := if TcpHeader.is_fin h
           then s <| peer_fin := Some rcv |> <| rcv_nxt := wrapping_add 32 rcv 1 |> else s in
  (s <| owe_ack := true |>, EvData (zlen payload)).

Definition on_established (s : t) (h : TcpHeader.t) (payload : bytes)
  : t * res SessionError SessionEvent :=
  if negb (TcpHeader.is_bare_ack h) && negb (TcpHeader.is_fin h)
  then (s <| state := Closed |>, Ok (EvClosedByFlags (TcpHeader.flags h))) else
  match apply_ack s h with
  | None => (s, Err (BadAcknowledgement (snd_nxt s) (TcpHeader.acknowledgement h)))
  | Some s1 => let '(s2, ev) := apply_data (apply_window s1 h) h payload in (s2, Ok ev)
  end.

Definition on_segment (s : t) (h : TcpHeader.t) (payload : bytes)
  : t * res SessionError SessionEvent :=
  let s := s <| segments_in := saturating_add 64 (segments_in s) 1 |> in
  if TcpHeader.is_reset h then (s <| state := Closed |>, Ok EvReset) else
  match state s with
  | Closed => (s, Err SessClosed)
  | SynSent => on_syn_ack s h
  | Established => on_established s h payload
  end.

Definition may_send_now (s : t) (take : Z) : bool :=
  (mss (config s) <=? take) || (max_peer_window s / 2 <=? take) || (peer_window s <=? take) ||
  (take =? zlen (outbound s)) || (in_flight s =? 0).

Definition with_fin (h : TcpHeader.t) : TcpHeader.t :=
  TcpHeader.Mk (TcpHeader.source_port h) (TcpHeader.destination_port h) (TcpHeader.sequence h)
    (TcpHeader.acknowledgement h) (Z.lor (TcpHeader.flags h) flags.FIN) (TcpHeader.window h).

Definition send_data (s : t) (take : Z) : t * Segment.t :=
  let starts_flight := zlen (unacknowledged s) =? 0 in
  let '(s, payload) := take_outbound s take in
  let s := s <| unacknowledged := unacknowledged s ++ payload |> in
  let s := if starts_flight then s <| send_epoch := wrapping_add 64 (send_epoch s) 1 |> else s in
  let header := ack_header s (snd_nxt s) in
  (s <| snd_nxt := wrapping_add 32 (snd_nxt s) (wrap 32 take) |> <| owe_ack := false |>,
   Segment.Mk header payload).

Definition send_fin (s : t) : t * Segment.t :=
  let header := with_fin (ack_header s (snd_nxt s)) in
  (s <| sent_fin := Some (snd_nxt s) |>
     <| snd_nxt := wrapping_add 32 (snd_nxt s) 1 |>
     <| send_epoch := wrapping_add 64 (send_epoch s) 1 |>
     <| owe_ack := false |>, Segment.Mk header []).

Definition next_segment (s : t) : t * option Segment.t :=
  if negb (bool_decide (state s = Established)) then (s, None) else
  let usable := usable_window s in
  let take := Z.min (Z.min (zlen (outbound s)) (mss (config s))) usable in
  if (0 <? usable) && negb (zlen (outbound s) =? 0) && may_send_now s take then
    let '(s, seg) := send_data s take in (s, Some seg)
  else if (0 <? usable) && (zlen (outbound s) =? 0) && write_shutdown s &&
          bool_decide (sent_fin s = None) then
    let '(s, seg) := send_fin s in (s, Some seg)
  else if owe_ack s then
    let s := s <| owe_ack := false |> in
    (s, Some (Segment.Mk (ack_header s (snd_nxt s)) []))
  else (s, None).

Definition retransmit_unacknowledged (s : t) : option Segment.t :=
  if negb (bool_decide (state s = Established)) then None else
  if zlen (unacknowledged s) =? 0 then
    match sent_fin s with
    | None => None
    | Some sequence =>
        if negb (snd_una s =? sequence) then None
        else Some (Segment.Mk (with_fin (ack_header s sequence)) [])
    end
  else
    let room := wrapping_sub 32 (snd_wnd_edge s) (snd_una s) in
    if as_i32 room <=? 0 then None else
    let take := Z.min (Z.min (zlen (unacknowledged s)) (mss (config s))) room in
    Some (Segment.Mk (ack_header s (snd_una s)) (ztake take (unacknowledged s))).

Definition request_ack (s : t) : t :=
  if bool_decide (state s = Established) then s <| owe_ack := true |> else s.

Definition probe_window (s : t) : t * bool :=
  if negb (bool_decide (state s = Established)) || owe_ack s then (s, false) else
  if (0 <? usable_window s) && negb (zlen (outbound s) =? 0) then (s, false) else
  (s <| owe_ack := true |>, true).

Definition shutdown_write (s : t) : t * res SessionError unit :=
  if negb (bool_decide (state s = Established)) then (s, Err SessClosed)
  else (s <| write_shutdown := true |>, Ok tt).

Definition can_write (s : t) : bool :=
  bool_decide (state s = Established) && negb (write_shutdown s).

Definition received_eof (s : t) : bool :=
  bool_decide (is_Some (peer_fin s)) && (zlen (inbound s) =? 0).

Definition orderly_closed (s : t) : bool :=
  bool_decide (state s = Established) && received_eof s &&
  bool_decide (is_Some (sent_fin s)) && (snd_una s =? snd_nxt s).

Definition pending_sequences (s : t) : Z :=
  zlen (outbound s) + if write_shutdown s && bool_decide (sent_fin s = None) then 1 else 0.

Definition close (s : t) : t * Segment.t :=
  let s := s <| state := Closed |> in
  (s, Segment.Mk (TcpHeader.Mk (local_port (config s)) (remote_port (config s)) (snd_nxt s)
                    (rcv_nxt s) flags.RST 0) []).

End MuxSession.

(** ** Invariant

    [Q] is every byte ever queued for the device, [iss] the initial sequence
    number.  The ghost offsets count from [iss + 1]: [u] what the device has
    acknowledged, [nd] how many data bytes were handed to the link, [e] the
    window edge.  A FIN takes one more sequence number. *)

Module Inv.
Import MuxSession.

Abbreviation W := TcpFacts.WINDOW_MAX.

Definition fin_sent (s : t) : Z := if sent_fin s then 1 else 0.
Definition fin_seen (s : t) : Z := if peer_fin s then 1 else 0.

Record send_core (iss : Z) (Q : bytes) (u nd e : Z) (s : t) : Prop := {
  sc_nd : 0 <= nd <= zlen Q;
  sc_u : 0 <= u <= nd + fin_sent s;
  sc_flight : nd + fin_sent s <= u + W;
  sc_e : u - 2 ^ 30 <= e <= u + W;
  sc_una : snd_una s = wrap 32 (iss + 1 + u);
  sc_nxt : snd_nxt s = wrap 32 (iss + 1 + (nd + fin_sent s));
  sc_edge : snd_wnd_edge s = wrap 32 (iss + 1 + e);
  sc_out : outbound s = zdrop nd Q;
  sc_unack : unacknowledged s = ztake (nd - u) (zdrop u Q);
  sc_fin : forall f, sent_fin s = Some f ->
             f = wrap 32 (iss + 1 + nd) /\ nd = zlen Q /\ write_shutdown s = true;
}.

(** [R] is every data byte accepted from the device, [irs] its initial
    sequence number. *)
Record recv_core (irs : Z) (R : bytes) (s : t) : Prop := {
  rc_nxt : rcv_nxt s = wrap 32 (irs + 1 + (zlen R + fin_seen s));
  rc_inbound : exists taken, R = taken ++ inbound s;
  rc_fin : forall f, peer_fin s = Some f -> f = wrap 32 (irs + 1 + zlen R);
}.

Definition config_ok (c : SessionConfig) : Prop :=
  u16 (local_port c) /\ u16 (remote_port c) /\ u32 (initial_sequence c) /\
  1 <= mss c /\ u32 (receive_window c).

Record idle_core (Q R : bytes) (s : t) : Prop := {
  ic_ghost : Q = [] /\ R = [];
  ic_out : outbound s = [] /\ unacknowledged s = [] /\ inbound s = [];
  ic_fin : peer_fin s = None /\ sent_fin s = None /\ write_shutdown s = false;
}.

Definition inv (irs : Z) (Q R : bytes) (s : t) : Prop :=
  config_ok (config s) /\
  match state s with
  | SynSent => idle_core Q R s
  | Established =>
      (exists u nd e, send_core (initial_sequence (config s)) Q u nd e s) /\ recv_core irs R s
  | Closed => True
  end.

(** *** Window arithmetic under the invariant *)

Lemma in_flight_eq iss Q u nd e s :
  send_core iss Q u nd e s -> in_flight s = nd + fin_sent s - u.
Proof.
  intros []. unfold in_flight. rewrite sc_nxt0, sc_una0, wrapping_sub_wrap.
  rewrite wrap_small; [lia|]. unfold in_range, TcpFacts.WINDOW_MAX in *. lia.
Qed.

Lemma usable_window_eq iss Q u nd e s :
  send_core iss Q u nd e s -> usable_window s = Z.max 0 (e - (nd + fin_sent s)).
Proof.
  intros []. unfold usable_window. rewrite sc_nxt0, sc_edge0, wrapping_sub_wrap.
  unfold TcpFacts.WINDOW_MAX in *.
  rewrite as_i32_wrap by lia. case_match; bools; [lia|].
  rewrite wrap_small; [lia|]. unfold in_range; lia.
Qed.

Lemma unack_length iss Q u nd e s :
  send_core iss Q u nd e s -> zlen (unacknowledged s) = Z.max 0 (nd - u).
Proof. intros []. rewrite sc_unack0, zlen_ztake, zlen_zdrop. lia. Qed.

Lemma outbound_length iss Q u nd e s :
  send_core iss Q u nd e s -> zlen (outbound s) = zlen Q - nd.
Proof. intros []. rewrite sc_out0, zlen_zdrop. lia. Qed.

(** Adjacent slices of the stream join. *)
Lemma stream_join (Q : bytes) u nd k :
  0 <= u <= nd -> 0 <= k -> ztake (nd - u) (zdrop u Q) ++ ztake k (zdrop nd Q) = ztake (nd + k - u) (zdrop u Q).
Proof.
  intros. replace (nd + k - u) with ((nd - u) + k) by lia.
  rewrite ztake_add, zdrop_zdrop by lia. do 3 f_equal. lia.
Qed.

Lemma stream_split (Q : bytes) u nd :
  0 <= u -> u <= nd \/ zlen Q = nd -> 0 <= nd ->
  Q = ztake u Q ++ ztake (nd - u) (zdrop u Q) ++ zdrop nd Q.
Proof.
  intros ? [?| <-] ?.
  - replace (zdrop nd Q) with (zdrop (nd - u) (zdrop u Q)) by (rewrite zdrop_zdrop by lia; f_equal; lia).
    by rewrite !ztake_zdrop.
  - rewrite (zdrop_all (zlen Q)), app_nil_r by lia. destruct (decide (u <= zlen Q)).
    + rewrite (ztake_all (zlen Q - u)) by zl. by rewrite ztake_zdrop.
    + rewrite (ztake_all u), (zdrop_all u) by lia. unfold ztake. rewrite take_nil. by rewrite app_nil_r.
Qed.

(** *** Sending *)

Lemma fin_sent_pending iss Q u nd e s :
  send_core iss Q u nd e s -> zlen (outbound s) <> 0 -> sent_fin s = None.
Proof.
  intros H Ho. destruct (sent_fin s) as [f|] eqn:F; [|done].
  destruct (sc_fin _ _ _ _ _ _ H f F) as (_&Hnd&_).
  rewrite (outbound_length _ _ _ _ _ _ H) in Ho. lia.
Qed.

Lemma send_data_core iss Q u nd e s take :
  send_core iss Q u nd e s -> 0 < take -> take <= zlen (outbound s) -> take <= usable_window s ->
  send_core iss Q u (nd + take) e (fst (send_data s take)) /\
  TcpHeader.sequence (Segment.header (snd (send_data s take))) = wrap 32 (iss + 1 + nd) /\
  Segment.payload (snd (send_data s take)) = ztake take (zdrop nd Q).
Proof.
  intros H Ht Hto Htw. pose proof (outbound_length _ _ _ _ _ _ H) as Hout.
  assert (sent_fin s = None) as F by (eapply fin_sent_pending; [done|lia]).
  rewrite (usable_window_eq _ _ _ _ _ _ H) in Htw.
  destruct H; unfold fin_sent in *; rewrite F in *.
  unfold send_data; cbv zeta. simpl. split_and!.
  - destruct (zlen (unacknowledged s) =? 0); split; unfold fin_sent; simpl; rewrite ?F; try done; try lia.
    all: try (rewrite sc_nxt0, wrapping_add_wrap_r; f_equal; lia).
    all: try (rewrite sc_out0, zdrop_zdrop by lia; f_equal; lia).
    all: rewrite sc_unack0, sc_out0; apply stream_join; lia.
  - destruct (zlen (unacknowledged s) =? 0); simpl; rewrite sc_nxt0; f_equal; lia.
  - destruct (zlen (unacknowledged s) =? 0); simpl; by rewrite sc_out0.
Qed.

Lemma send_fin_core iss Q u nd e s :
  send_core iss Q u nd e s -> zlen (outbound s) = 0 -> write_shutdown s = true ->
  sent_fin s = None -> 0 < usable_window s ->
  send_core iss Q u nd e (fst (send_fin s)) /\
  TcpHeader.sequence (Segment.header (snd (send_fin s))) = wrap 32 (iss + 1 + zlen Q) /\
  Segment.payload (snd (send_fin s)) = [].
Proof.
  intros H Ho Hw F Hu. rewrite (usable_window_eq _ _ _ _ _ _ H) in Hu.
  rewrite (outbound_length _ _ _ _ _ _ H) in Ho. assert (zlen Q = nd) as Hq by lia.
  destruct H; unfold fin_sent in *; rewrite F in *. unfold send_fin; simpl. split_and!.
  - split; unfold fin_sent; simpl; try done; try lia.
    + rewrite sc_nxt0, wrapping_add_wrap. f_equal; lia.
    + intros f [= <-]. split_and!; [|lia|done]. rewrite sc_nxt0. f_equal; lia.
  - rewrite sc_nxt0. f_equal; lia.
  - done.
Qed.

(** *** Acknowledgements *)

(** The device acknowledges recent sequence numbers: at most 2^30 behind what
    it has already acknowledged. *)
Definition recent_ack (s : t) (h : TcpHeader.t) : Prop :=
  - 2 ^ 30 <= as_i32 (wrapping_sub 32 (TcpHeader.acknowledgement h) (snd_una s)).

(** What is acknowledged, counted from [iss + 1], once [h] has been heard after
    [u]: an acknowledgement behind [u] takes nothing back. *)
Definition acked_by (iss u : Z) (h : TcpHeader.t) : Z :=
  if Z.land (TcpHeader.flags h) flags.ACK =? 0 then u
  else u + Z.max 0 (as_i32 (wrapping_sub 32 (TcpHeader.acknowledgement h) (wrap 32 (iss + 1 + u)))).

Lemma apply_ack_core iss Q u nd e s h s' :
  send_core iss Q u nd e s -> u32 (TcpHeader.acknowledgement h) ->
  0 <= TcpHeader.window h <= W ->
  (Z.land (TcpHeader.flags h) flags.ACK <> 0 -> recent_ack s h) ->
  apply_ack s h = Some s' ->
  exists e', send_core iss Q (acked_by iss u h) nd e' (apply_window s' h).
Proof.
  intros H Ha Hw Hr. unfold apply_ack, apply_window, acked_by.
  destruct (Z.land (TcpHeader.flags h) flags.ACK =? 0) eqn:A; simpl.
  { intros [= <-]. by exists e. }
  bools. specialize (Hr A). unfold recent_ack in Hr. rewrite <- (sc_una _ _ _ _ _ _ H).
  set (ack := TcpHeader.acknowledgement h) in *.
  set (d := as_i32 (wrapping_sub 32 ack (snd_una s))) in *.
  destruct (as_i32_range (wrapping_sub 32 ack (snd_una s))) as [Hd Hdw];
    [apply wrap_range; lia|]. fold d in Hd, Hdw.
  assert (ack = wrap 32 (iss + 1 + (u + d))) as Hack.
  { rewrite <- (wrap_small 32 ack) by done. rewrite (sc_una _ _ _ _ _ _ H) in Hdw.
    unfold wrapping_sub, wrap in *. unfold in_range in Ha. Z.div_mod_to_equations; lia. }
  assert (wrapping_sub 32 ack (snd_una s) = wrap 32 d) as Hsub by done.
  unfold seq_gt. fold d. case_match eqn:G.
  - bools. rewrite (sc_nxt _ _ _ _ _ _ H), Hack, wrapping_sub_wrap.
    pose proof (sc_flight _ _ _ _ _ _ H). pose proof (sc_u _ _ _ _ _ _ H).
    unfold TcpFacts.WINDOW_MAX in *.
    rewrite as_i32_wrap by lia. case_match eqn:G2; [done|]. bools. intros [= <-].
    rewrite (Z.max_r 0 d) by lia. exists (u + d + TcpHeader.window h).
    rewrite <- Hack, Hsub, wrap_small by (unfold in_range; lia).
    destruct H. split; unfold fin_sent in *; simpl; try done; try (unfold TcpFacts.WINDOW_MAX; lia).
    + unfold TcpHeader.window_edge. fold ack. rewrite Hack, wrapping_add_wrap. f_equal; lia.
    + rewrite sc_unack0, zlen_ztake, zlen_zdrop.
      destruct (decide (d <= nd - u)).
      * replace (Z.min d _) with d by lia.
        replace (nd - u) with (d + (nd - (u + d))) by lia.
        rewrite zdrop_ztake_comm, zdrop_zdrop by lia. done.
      * rewrite zdrop_all by zl. unfold ztake. by replace (Z.to_nat (nd - (u + d))) with 0%nat by lia.
  - bools. intros [= <-]. rewrite (Z.max_l 0 d), Z.add_0_r by lia. exists (u + d + TcpHeader.window h).
    destruct H. split; simpl; try done.
    + unfold TcpFacts.WINDOW_MAX in *; lia.
    + unfold TcpHeader.window_edge. fold ack. rewrite Hack, wrapping_add_wrap. f_equal; lia.
Qed.

(** *** Receiving *)

Definition accepted (ev : SessionEvent) (payload : bytes) : bytes :=
  match ev with EvData _ => payload | _ => [] end.

Lemma apply_data_recv irs R s h payload s' ev :
  recv_core irs R s -> apply_data s h payload = (s', ev) ->
  recv_core irs (R ++ accepted ev payload) s'.
Proof.
  intros [Hn [taken Hi] Hf]. unfold apply_data.
  case_match; [intros [= <- <-]; simpl; rewrite app_nil_r; split; eauto|].
  case_match eqn:G; [intros [= <- <-]; simpl; rewrite app_nil_r; split; simpl; eauto|].
  apply orb_false_elim in G as [_ G]. apply bool_decide_eq_false in G.
  destruct (peer_fin s) eqn:Pf; [by destruct G|].
  unfold fin_seen in Hn. rewrite Pf in Hn.
  assert (wrapping_add 32 (rcv_nxt s) (wrap 32 (zlen payload)) =
          wrap 32 (irs + 1 + zlen (R ++ payload))) as E.
  { rewrite Hn, wrapping_add_wrap_r, zlen_app. f_equal; lia. }
  intros [= <- <-]. simpl. rewrite E. split.
  - destruct (TcpHeader.is_fin h); unfold fin_seen; simpl; rewrite ?Pf.
    + rewrite wrapping_add_wrap. f_equal; lia.
    + f_equal; lia.
  - exists taken. destruct (TcpHeader.is_fin h); simpl; by rewrite Hi, app_assoc.
  - intros f. destruct (TcpHeader.is_fin h); simpl; [by intros [= <-]|]. by rewrite Pf.
Qed.

Lemma apply_data_send iss Q u nd e s h payload :
  send_core iss Q u nd e s -> send_core iss Q u nd e (fst (apply_data s h payload)).
Proof.
  intros []. unfold apply_data. repeat case_match; split; unfold fin_sent in *; simpl; done.
Qed.

Lemma apply_data_frame s h payload :
  config (fst (apply_data s h payload)) = config s /\ state (fst (apply_data s h payload)) = state s.
Proof. unfold apply_data. repeat case_match; done. Qed.

Lemma apply_ack_frame s h s' :
  apply_ack s h = Some s' ->
  config (apply_window s' h) = config s /\ state (apply_window s' h) = state s /\
  rcv_nxt (apply_window s' h) = rcv_nxt s /\ inbound (apply_window s' h) = inbound s /\
  peer_fin (apply_window s' h) = peer_fin s.
Proof.
  unfold apply_ack, apply_window. repeat case_match; intros [= <-]; done.
Qed.

End Inv.

(** ** Serialisation *)

Lemma to_bytes_eq seg :
  Segment.to_bytes seg = Ok (TcpFacts.tcp_bytes (Segment.header seg) ++ Segment.payload seg).
Proof.
  unfold Segment.to_bytes. pose proof (zlen_nonneg (Segment.payload seg)).
  assert (0 <= TCP_HEADER_LEN) by done.
  rewrite TcpFacts.tcp_encode_eq, (proj2 (Z.ltb_ge _ _)) by zl. simpl.
  rewrite copy_at_prefix; [|by rewrite TcpFacts.zlen_tcp_bytes|zl].
  rewrite zdrop_zdrop, zdrop_all by zl. by rewrite app_nil_r.
Qed.

(** ** Runs of a session *)

Module Run.
Import MuxSession Inv.

(** A session with what an observer has seen of it: every byte queued, every
    data byte accepted, every segment handed to the link. *)
Record world := World {
  sess : t;
  queued : bytes;
  received : bytes;
  sent : list Segment.t;
}.

Inductive op :=
| OpQueue (data : bytes)
| OpSegment (h : TcpHeader.t) (payload : bytes)
| OpNext
| OpRetransmit
| OpTake (out : bytes)
| OpRequestAck
| OpProbe
| OpShutdown
| OpClose.

Definition exec (w : world) (o : op) : world :=
  let s := sess w in
  match o with
  | OpQueue data =>
      if can_write s then World (queue s data) (queued w ++ data) (received w) (sent w) else w
  | OpSegment h payload =>
      let '(s, r) := on_segment s h payload in
      World s (queued w)
        (received w ++ match r with Ok ev => accepted ev payload | _ => [] end) (sent w)
  | OpNext => let '(s, o) := next_segment s in World s (queued w) (received w) (sent w ++ option_list o)
  | OpRetransmit =>
      World s (queued w) (received w) (sent w ++ option_list (retransmit_unacknowledged s))
  | OpTake out => World (fst (take_received s out)) (queued w) (received w) (sent w)
  | OpRequestAck => World (request_ack s) (queued w) (received w) (sent w)
  | OpProbe => World (fst (probe_window s)) (queued w) (received w) (sent w)
  | OpShutdown => World (fst (shutdown_write s)) (queued w) (received w) (sent w)
  | OpClose => let '(s, seg) := close s in World s (queued w) (received w) (sent w ++ [seg])
  end.

(** What is assumed of the device: headers are ones the decoder produces, its
    SYN-ACK carries its own initial sequence number, and its acknowledgements
    are recent. *)
Definition op_ok (irs : Z) (w : world) (o : op) : Prop :=
  match o with
  | OpSegment h payload =>
      TcpFacts.wf h /\ TcpHeader.window h <= W /\
      (state (sess w) = SynSent -> TcpHeader.is_syn_ack h = true -> TcpHeader.sequence h = irs) /\
      (state (sess w) = Established -> Z.land (TcpHeader.flags h) flags.ACK <> 0 ->
       recent_ack (sess w) h)
  | _ => True
  end.

Definition start (c : SessionConfig) : world :=
  World (fst (open c)) [] [] [snd (open c)].

Inductive reach (c : SessionConfig) (irs : Z) : world -> Prop :=
| reach_start : reach c irs (start c)
| reach_exec w o : reach c irs w -> op_ok irs w o -> reach c irs (exec w o).

(** *** Every operation preserves the invariant *)

(** A step that leaves a component's fields alone keeps its part. *)
Ltac keep_core :=
  match goal with
  | H : send_core _ _ _ _ _ _ |- _ => destruct H; split; unfold fin_sent in *; simpl in *; done
  | H : recv_core _ _ _ |- _ => destruct H; split; unfold fin_seen in *; simpl in *; done
  | H : idle_core _ _ _ |- _ => destruct H; split; simpl in *; done
  end.

Lemma inv_on_syn_ack irs Q R s h :
  inv irs Q R s -> state s = SynSent -> TcpFacts.wf h -> TcpHeader.window h <= W ->
  (TcpHeader.is_syn_ack h = true -> TcpHeader.sequence h = irs) ->
  inv irs Q R (fst (on_syn_ack s h)) /\
  match snd (on_syn_ack s h) with Ok ev => accepted ev = (fun _ => []) | _ => True end.
Proof.
  intros Hinv St Hh Hw Hseq. unfold on_syn_ack.
  destruct (TcpHeader.is_syn_ack h) eqn:SA; simpl; [|done].
  case_match eqn:A; simpl; [done|]. bools. split; [|done].
  destruct Hinv as [Hc Hi]. rewrite St in Hi. destruct Hi as [[-> ->] (Ho&Hu&Hin) (Hp&Hf&Hs)].
  destruct Hh as (_&_&Hsq&Hack&_&Hwin). unfold wrapping_add in A.
  split; [done|]. simpl. split.
  - exists 0, 0, (TcpHeader.window h).
    split; unfold fin_sent, TcpFacts.WINDOW_MAX in *; simpl; rewrite ?Hf, ?Ho, ?Hu; try done;
      unfold in_range in *; try lia.
    all: unfold wrapping_add, TcpHeader.window_edge; rewrite ?A; try (f_equal; lia).
    rewrite wrapping_add_wrap. f_equal; lia.
  - rewrite (Hseq eq_refl). split; unfold fin_seen; simpl; rewrite ?Hp, ?Hin; [|by exists []|done].
    unfold wrapping_add. f_equal; zl.
Qed.

Lemma inv_on_established irs Q R s h payload :
  inv irs Q R s -> state s = Established -> TcpFacts.wf h -> TcpHeader.window h <= W ->
  (Z.land (TcpHeader.flags h) flags.ACK <> 0 -> recent_ack s h) ->
  inv irs Q
    (R ++ match snd (on_established s h payload) with Ok ev => accepted ev payload | _ => [] end)
    (fst (on_established s h payload)).
Proof.
  intros Hinv St Hh Hw Hr. unfold on_established.
  destruct (negb (TcpHeader.is_bare_ack h) && negb (TcpHeader.is_fin h)); simpl.
  { rewrite app_nil_r. split; [apply Hinv|done]. }
  destruct (apply_ack s h) as [s1|] eqn:A; simpl; [|by rewrite app_nil_r].
  destruct Hinv as [Hc Hi]. rewrite St in Hi. destruct Hi as [(u&nd&e&Hs) Hrc].
  destruct (apply_ack_frame _ _ _ A) as (Fc&Fs&Fr&Fi&Fp).
  edestruct (apply_ack_core _ _ _ _ _ _ h s1 Hs) as (e'&Hs');
    [apply Hh|split; [apply Hh|done]|exact Hr|exact A|].
  pose proof (apply_data_frame (apply_window s1 h) h payload) as [Dc Ds].
  pose proof (apply_data_send _ _ _ _ _ _ h payload Hs') as Hs''.
  destruct (apply_data (apply_window s1 h) h payload) as [s2 ev] eqn:D. simpl in *.
  split; [by rewrite Dc, Fc|]. rewrite Ds, Fs, St. split.
  - rewrite Dc, Fc. eauto.
  - apply (apply_data_recv irs R (apply_window s1 h) h payload s2 ev); [|done].
    destruct Hrc. split; unfold fin_seen in *; rewrite ?Fr, ?Fi, ?Fp; done.
Qed.

Lemma inv_segments_in irs Q R s n : inv irs Q R s -> inv irs Q R (s <| segments_in := n |>).
Proof.
  intros [Hc Hi]. split; [done|]. simpl. destruct (state s); [keep_core| |done].
  destruct Hi as [(u&nd&e&Hs) Hr]. split; [exists u, nd, e|]; keep_core.
Qed.

Lemma inv_on_segment irs w h payload :
  inv irs (queued w) (received w) (sess w) -> op_ok irs w (OpSegment h payload) ->
  let w' := exec w (OpSegment h payload) in inv irs (queued w') (received w') (sess w').
Proof.
  destruct w as [s Q R out]. simpl. intros Hinv%(inv_segments_in _ _ _ _ (saturating_add 64 (segments_in s) 1))
    (Hh&Hw&Hsyn&Hack).
  unfold on_segment. set (s0 := s <| segments_in := _ |>) in *.
  assert (state s0 = state s) as Es by done. assert (snd_una s0 = snd_una s) as Eu by done.
  destruct (TcpHeader.is_reset h); simpl.
  { rewrite app_nil_r; split; [apply Hinv|done]. }
  destruct (state s) eqn:St.
  - destruct (inv_on_syn_ack irs Q R s0 h Hinv St Hh Hw) as [H1 H2]; [auto|].
    destruct (on_syn_ack s0 h) as [s' [ev| |]]; simpl in *; rewrite ?H2; simpl;
      by rewrite app_nil_r.
  - pose proof (inv_on_established irs Q R s0 h payload Hinv St Hh Hw) as H1.
    destruct (on_established s0 h payload) as [s' r]; simpl in *. apply H1. auto.
  - simpl. by rewrite app_nil_r.
Qed.

(** The four ways [next_segment] can go on an established session. *)
Inductive next_case (s : t) : t -> option Segment.t -> Prop :=
| next_data take :
    0 < take -> take <= zlen (outbound s) -> take <= mss (config s) -> take <= usable_window s ->
    next_case s (fst (send_data s take)) (Some (snd (send_data s take)))
| next_fin :
    zlen (outbound s) = 0 -> write_shutdown s = true -> sent_fin s = None -> 0 < usable_window s ->
    next_case s (fst (send_fin s)) (Some (snd (send_fin s)))
| next_ack :
    owe_ack s = true ->
    next_case s (s <| owe_ack := false |>)
      (Some (Segment.Mk (ack_header s (snd_nxt s)) []))
| next_idle : owe_ack s = false -> next_case s s None.

Lemma next_segment_case s :
  state s = Established -> 1 <= mss (config s) ->
  next_case s (fst (next_segment s)) (snd (next_segment s)).
Proof.
  intros St Hm. unfold next_segment. rewrite bool_decide_eq_true_2 by done. cbn [negb].
  set (take := Z.min _ _). pose proof (zlen_nonneg (outbound s)).
  destruct ((0 <? usable_window s) && negb (zlen (outbound s) =? 0) && may_send_now s take) eqn:D.
  { apply andb_prop in D as [D _]. bools.
    pose proof (next_data s take) as N. destruct (send_data s take). simpl in *. apply N; lia. }
  destruct ((0 <? usable_window s) && _ && _ && _) eqn:F.
  { bools.
    repeat match goal with H : bool_decide _ = true |- _ => apply bool_decide_eq_true in H end.
    pose proof (next_fin s) as N. destruct (send_fin s). simpl in *. apply N; done || lia. }
  destruct (owe_ack s) eqn:A; [exact (next_ack s A)|exact (next_idle s A)].
Qed.

Lemma next_segment_closed s : state s <> Established -> next_segment s = (s, None).
Proof. intros. unfold next_segment. by rewrite bool_decide_eq_false_2. Qed.

(** What a session still has to say: unsent bytes, an unsent FIN, an owed
    acknowledgement. *)
Definition backlog (s : t) : Z := pending_sequences s + if owe_ack s then 1 else 0.

Lemma backlog_nonneg s : 0 <= backlog s.
Proof.
  unfold backlog, pending_sequences. pose proof (zlen_nonneg (outbound s)). repeat case_match; lia.
Qed.

Lemma next_segment_backlog s seg :
  1 <= mss (config s) -> snd (next_segment s) = Some seg ->
  backlog (fst (next_segment s)) < backlog s /\ owe_ack (fst (next_segment s)) = false.
Proof.
  intros Hm E. destruct (decide (state s = Established)) as [St|St];
    [|by rewrite next_segment_closed in E].
  pose proof (next_segment_case s St Hm) as N. destruct (next_segment s) as [s' o]. simpl in *.
  subst o. unfold backlog, pending_sequences. inversion N; subst; clear N.
  - pose proof (zlen_nonneg (outbound s)). unfold send_data; simpl.
    destruct (zlen (unacknowledged s) =? 0); simpl; (split; [|done]); autorewrite with zlen;
      repeat case_match; lia.
  - simpl. split; [|done].
    match goal with H : sent_fin s = None |- _ => rewrite H end.
    match goal with H : write_shutdown s = true |- _ => rewrite H end.
    rewrite bool_decide_eq_true_2, andb_false_r by done. simpl. case_match; lia.
  - simpl. match goal with H : owe_ack s = true |- _ => rewrite H end. split; [lia|done].
Qed.

(** Data stays queued only behind a shut window or behind data in flight. *)
Lemma next_segment_none s :
  state s = Established -> snd (next_segment s) = None ->
  fst (next_segment s) = s /\ owe_ack s = false /\
  (zlen (outbound s) = 0 \/ usable_window s <= 0 \/ in_flight s <> 0).
Proof.
  intros St. unfold next_segment. rewrite bool_decide_eq_true_2 by done. cbn [negb].
  destruct ((0 <? usable_window s) && negb (zlen (outbound s) =? 0) && _) eqn:D;
    [by destruct (send_data _ _)|].
  destruct (_ && bool_decide _); [by destruct (send_fin _)|].
  destruct (owe_ack s); [done|]. simpl. intros _. split_and!; try done.
  destruct (0 <? usable_window s) eqn:U; [|bools; lia].
  destruct (zlen (outbound s) =? 0) eqn:O; [bools; lia|]. simpl in D.
  unfold may_send_now in D. bools. right; right. done.
Qed.

(** An owed acknowledgement always goes out, held-back data or not. *)
Lemma owed_ack_sent s :
  state s = Established -> owe_ack s = true -> exists seg, snd (next_segment s) = Some seg.
Proof.
  intros St A. unfold next_segment. rewrite bool_decide_eq_true_2, A by done. cbn [negb].
  destruct (_ && may_send_now _ _); [destruct (send_data _ _); simpl; eauto|].
  destruct (_ && bool_decide _); [destruct (send_fin _); simpl; eauto|]. simpl; eauto.
Qed.

(** What the link is entitled to assume of a segment: data bytes are a slice of
    the queued stream at the offset the sequence number names. *)
Definition seg_ok (c : SessionConfig) (Q : bytes) (seg : Segment.t) : Prop :=
  let p := Segment.payload seg in
  p = [] \/ exists off, 0 <= off /\ off + zlen p <= zlen Q /\ zlen p <= mss c /\
    TcpHeader.sequence (Segment.header seg) = wrap 32 (initial_sequence c + 1 + off) /\
    p = ztake (zlen p) (zdrop off Q).

Lemma seg_ok_mono c Q Q' seg : seg_ok c Q seg -> seg_ok c (Q ++ Q') seg.
Proof.
  intros [?|(off&?&?&?&?&E)]; [by left|right]. exists off. pose proof (zlen_nonneg Q').
  pose proof (zlen_nonneg (Segment.payload seg)). rewrite zlen_app.
  split_and!; try done; try lia. rewrite zdrop_app_le by lia. rewrite ztake_app_le by zl. done.
Qed.

Lemma inv_next irs Q R s :
  inv irs Q R s ->
  inv irs Q R (fst (next_segment s)) /\ config (fst (next_segment s)) = config s /\
  forall seg, snd (next_segment s) = Some seg -> seg_ok (config s) Q seg.
Proof.
  intros [Hc Hi]. destruct (decide (state s = Established)) as [St|St]; last first.
  { rewrite next_segment_closed by done. done. }
  rewrite St in Hi. destruct Hi as [(u&nd&e&Hs) Hr].
  pose proof (next_segment_case s St ltac:(apply Hc)) as N.
  destruct (next_segment s) as [s' o]. simpl in *. destruct N as [take ???? |????|?|?].
  - destruct (send_data_core _ _ _ _ _ _ _ Hs H H0 H2) as (Hs'&Hq&Hp).
    assert (config (fst (send_data s take)) = config s /\ state (fst (send_data s take)) = state s /\
            recv_core irs R (fst (send_data s take))) as (Ec&Es&Er).
    { unfold send_data; simpl. destruct (zlen _ =? 0); split_and!; try done; keep_core. }
    split_and!; [|done|].
    + split; [by rewrite Ec|]. rewrite Es, St, Ec. eauto.
    + intros seg Hseg. assert (seg = snd (send_data s take)) as -> by congruence.
      right. exists nd. rewrite Hp, Hq.
      pose proof (outbound_length _ _ _ _ _ _ Hs). pose proof (sc_nd _ _ _ _ _ _ Hs).
      assert (zlen (ztake take (zdrop nd Q)) = take) as -> by zl. split_and!; done || lia.
  - destruct (send_fin_core _ _ _ _ _ _ Hs H H0 H1 H2) as (Hs'&_&Hp).
    split_and!; [|done|].
    + split; [done|]. simpl. rewrite St. split; [eauto|keep_core].
    + intros seg Hseg. left. by assert (seg = snd (send_fin s)) as -> by congruence.
  - split_and!; [|done|by intros seg [= <-]; left].
    split; [done|]. simpl. rewrite St. split; [exists u, nd, e|]; keep_core.
  - split_and!; [|done|done]. split; [done|]. rewrite St. eauto.
Qed.

Lemma retransmit_ok irs Q R s seg :
  inv irs Q R s -> retransmit_unacknowledged s = Some seg -> seg_ok (config s) Q seg.
Proof.
  intros [Hc Hi] E. unfold retransmit_unacknowledged in E.
  destruct (decide (state s = Established)) as [St|St];
    [rewrite bool_decide_eq_true_2 in E by done|by rewrite bool_decide_eq_false_2 in E by done].
  rewrite St in Hi. destruct Hi as [(u&nd&e&Hs) _]. simpl in E.
  destruct (zlen (unacknowledged s) =? 0) eqn:Z; [repeat case_match; simplify_eq; by left|].
  destruct (as_i32 _ <=? 0) eqn:Rm; [done|]. injection E as <-. bools.
  pose proof (unack_length _ _ _ _ _ _ Hs) as Hl. destruct Hs, Hc as (_&_&_&Hm&_).
  rewrite sc_edge0, sc_una0, wrapping_sub_wrap in *. unfold TcpFacts.WINDOW_MAX in *.
  rewrite as_i32_wrap in Rm by lia.
  rewrite (wrap_small 32 (_ - _)) by (unfold in_range; lia).
  set (take := Z.min _ _). right. exists u. simpl. rewrite sc_unack0, ztake_ztake.
  assert (zlen (ztake (Z.min take (nd - u)) (zdrop u Q)) = take) as -> by (subst take; zl).
  split_and!; try lia; try done. f_equal. lia.
Qed.

Lemma queue_core iss Q u nd e s data :
  write_shutdown s = false -> send_core iss Q u nd e s ->
  send_core iss (Q ++ data) u nd e (queue s data).
Proof.
  intros Hw Hs. assert (sent_fin s = None) as F.
  { destruct (sent_fin s) eqn:F; [|done]. destruct (sc_fin _ _ _ _ _ _ Hs _ F) as (_&_&?). congruence. }
  destruct Hs; unfold fin_sent in *; rewrite F in *. pose proof (zlen_nonneg data).
  split; unfold fin_sent; simpl; rewrite ?F, ?zlen_app; try done; try lia.
  - by rewrite sc_out0, zdrop_app_le by lia.
  - rewrite zdrop_app_le by lia. by rewrite ztake_app_le by zl.
Qed.

Lemma inv_queue irs Q R s data :
  inv irs Q R s -> can_write s = true -> inv irs (Q ++ data) R (queue s data).
Proof.
  unfold can_write. intros [Hc Hi] Hw. bools. apply bool_decide_eq_true in H as St.
  split; [done|]. simpl. rewrite St in *. destruct Hi as [(u&nd&e&Hs) Hr]. split; [|keep_core].
  exists u, nd, e. by apply queue_core.
Qed.

Lemma inv_take irs Q R s out : inv irs Q R s -> inv irs Q R (fst (take_received s out)).
Proof.
  intros [Hc Hi]. split; [done|]. simpl. destruct (state s).
  - destruct Hi as [Hg (Ho&Hu&Hin) Hf]. split; simpl; try done. rewrite Hin. unfold zdrop.
    by rewrite drop_nil.
  - destruct Hi as [(u&nd&e&Hs) Hr]. split; [exists u, nd, e; keep_core|].
    destruct Hr as [Hn [k Hk] Hf]. split; simpl; try done.
    exists (k ++ ztake (zlen out `min` zlen (inbound s)) (inbound s)).
    by rewrite <- app_assoc, ztake_zdrop.
  - done.
Qed.

(** The flag-only operations: only [owe_ack] or [write_shutdown] changes. *)
Lemma inv_flags irs Q R s b :
  inv irs Q R s ->
  inv irs Q R (s <| owe_ack := b |>) /\
  (state s = Established -> inv irs Q R (s <| write_shutdown := true |>)).
Proof.
  intros [Hc Hi]. split.
  - split; [done|]. simpl. destruct (state s); [keep_core| |done].
    destruct Hi as [(u&nd&e&Hs) Hr]. split; [exists u, nd, e|]; keep_core.
  - intros St. split; [done|]. simpl. rewrite St in *. destruct Hi as [(u&nd&e&Hs) Hr].
    split; [exists u, nd, e|keep_core]. destruct Hs; split; unfold fin_sent in *; simpl in *; try done.
    intros f Hf. by destruct (sc_fin0 f Hf) as (?&?&_).
Qed.

Definition good (c : SessionConfig) (irs : Z) (w : world) : Prop :=
  config (sess w) = c /\ inv irs (queued w) (received w) (sess w) /\
  Forall (seg_ok c (queued w)) (sent w).

Lemma on_segment_config s h payload : config (fst (on_segment s h payload)) = config s.
Proof.
  unfold on_segment, on_syn_ack, on_established.
  destruct (TcpHeader.is_reset h); [done|]. simpl. destruct (state s); simpl; [| |done].
  - repeat case_match; done.
  - destruct (negb _ && negb _); [done|]. destruct (apply_ack _ h) as [s1|] eqn:A; [|done].
    pose proof (apply_data_frame (apply_window s1 h) h payload) as [E _].
    destruct (apply_data _ h payload). simpl in *. rewrite E.
    by destruct (apply_ack_frame _ _ _ A) as [-> _].
Qed.

Lemma on_segment_no_panic s h payload : no_panic (snd (on_segment s h payload)).
Proof.
  unfold no_panic, on_segment. destruct (TcpHeader.is_reset h); [done|]. simpl.
  destruct (state s); simpl; [| |done].
  - unfold on_syn_ack. by repeat case_match.
  - unfold on_established. destruct (negb _ && negb _); [done|].
    destruct (apply_ack _ h); [|done]. by destruct (apply_data _ h payload).
Qed.

Lemma good_exec c irs w o : good c irs w -> op_ok irs w o -> good c irs (exec w o).
Proof.
  intros (Hc&Hi&Hs) Hop. destruct w as [s Q R out]. destruct o; simpl in *.
  - destruct (can_write s) eqn:Cw; [|done]. split_and!; simpl; [done|by apply inv_queue|].
    eapply Forall_impl; [done|]. intros; by apply seg_ok_mono.
  - pose proof (inv_on_segment irs (World s Q R out) h payload Hi Hop) as H.
    pose proof (on_segment_config s h payload). simpl in *.
    destruct (on_segment s h payload); simpl in *. split_and!; simpl; congruence || done.
  - destruct (inv_next _ _ _ _ Hi) as (H1&H2&H3). destruct (next_segment s) as [s' o]; simpl in *.
    split_and!; simpl; [congruence|done|]. apply Forall_app_2; [done|].
    destruct o; simpl; constructor; [|constructor]. rewrite <- Hc. by apply H3.
  - split_and!; simpl; [done..|]. apply Forall_app_2; [done|].
    destruct (retransmit_unacknowledged s) eqn:E; simpl; constructor; [|constructor].
    rewrite <- Hc. by eapply retransmit_ok.
  - split_and!; simpl; [done|by apply inv_take|done].
  - unfold request_ack. case_match; split_and!; simpl; try done. by apply inv_flags.
  - unfold probe_window. repeat case_match; split_and!; simpl; try done. by apply inv_flags.
  - unfold shutdown_write. case_match eqn:G; split_and!; simpl; try done. bools.
    apply bool_decide_eq_true in G. by apply (inv_flags irs Q R s false).
  - split_and!; simpl; [done|split; [apply Hi|done]|].
    apply Forall_app_2; [done|]. constructor; [by left|constructor].
Qed.

Lemma good_reach c irs w : config_ok c -> reach c irs w -> good c irs w.
Proof.
  intros Hc. induction 1 as [|w o _ IH Hop]; [|by apply good_exec].
  split_and!; simpl; [done| |constructor; [by left|constructor]].
  split; [done|]. simpl. by split.
Qed.

(** *** Header words stay words *)

Definition ranges (s : t) : Prop :=
  config_ok (config s) /\ u32 (snd_nxt s) /\ u32 (snd_una s) /\ u32 (rcv_nxt s) /\
  forall f, sent_fin s = Some f -> u32 f.

Lemma advertised_window_u32 s : u32 (receive_window (config s)) -> u32 (advertised_window s).
Proof.
  unfold advertised_window, saturating_sub, in_range. pose proof (zlen_nonneg (inbound s)).
  case_match; bools; lia.
Qed.

Lemma ack_header_wf s seq : ranges s -> u32 seq -> TcpFacts.wf (ack_header s seq).
Proof.
  intros (Hc&_&_&Hr&_) Hs. destruct Hc as (?&?&?&?&?). split_and!; simpl; try done.
  by apply advertised_window_u32.
Qed.

Lemma with_fin_wf h : TcpFacts.wf h -> TcpHeader.flags h = flags.ACK -> TcpFacts.wf (with_fin h).
Proof. intros (?&?&?&?&?&?) E. split_and!; simpl; try done. by rewrite E. Qed.

Ltac word_range := first [done | apply wrap_range; lia | (unfold in_range; lia)].

Lemma ranges_next s :
  ranges s -> ranges (fst (next_segment s)) /\
  forall seg, snd (next_segment s) = Some seg -> TcpFacts.wf (Segment.header seg).
Proof.
  intros Hr. destruct (decide (state s = Established)) as [St|St];
    [|by rewrite next_segment_closed].
  pose proof Hr as (Hc&Hn&Hu&Hv&Hf).
  pose proof (next_segment_case s St ltac:(apply Hc)) as N.
  destruct (next_segment s) as [s' o]. simpl in *. destruct N as [take ???? |????|?|?].
  - unfold send_data; simpl. destruct (zlen (unacknowledged s) =? 0); simpl;
      (split; [split_and!; simpl; try word_range; by unfold in_range; words|]);
      intros seg [= <-]; simpl; by apply ack_header_wf.
  - simpl. split.
    + split_and!; simpl; try word_range. by intros f [= <-].
    + intros seg [= <-]. simpl. apply with_fin_wf; [by apply ack_header_wf|done].
  - split; [done|]. intros seg [= <-]. by apply ack_header_wf.
  - done.
Qed.

Lemma ranges_on_segment s h payload :
  ranges s -> TcpFacts.wf h -> ranges (fst (on_segment s h payload)).
Proof.
  intros (Hc&Hn&Hu&Hv&Hf) (_&_&_&Ha&_&_). unfold on_segment.
  destruct (TcpHeader.is_reset h); [done|]. simpl. destruct (state s); simpl; [| |done].
  - unfold on_syn_ack. repeat case_match; simpl; try done. split_and!; simpl; word_range.
  - unfold on_established. destruct (negb _ && negb _); simpl; [done|].
    destruct (apply_ack _ h) as [s1|] eqn:A; [|done].
    assert (ranges (apply_window s1 h)) as H1.
    { unfold apply_ack, apply_window in *. repeat case_match; simplify_eq; split_and!; simpl; done. }
    generalize dependent (apply_window s1 h). intros s2 (?&?&?&?&?).
    unfold apply_data. repeat case_match; simplify_eq; simpl; split_and!; simpl; word_range.
Qed.

Lemma ranges_exec irs w o :
  ranges (sess w) -> Forall (fun seg => TcpFacts.wf (Segment.header seg)) (sent w) ->
  op_ok irs w o ->
  ranges (sess (exec w o)) /\
  Forall (fun seg => TcpFacts.wf (Segment.header seg)) (sent (exec w o)).
Proof.
  intros Hr Hs Hop. destruct w as [s Q R out]. destruct o; simpl in *.
  - by case_match.
  - pose proof (ranges_on_segment s h payload Hr). destruct (on_segment s h payload). simpl in *.
    destruct Hop as (?&_). auto.
  - destruct (ranges_next s Hr) as [H1 H2]. destruct (next_segment s) as [s' o]. simpl in *.
    split; [done|]. apply Forall_app_2; [done|]. destruct o; simpl; constructor; auto.
  - split; [done|]. apply Forall_app_2; [done|]. pose proof Hr as (?&?&?&?&Hf).
    unfold retransmit_unacknowledged. repeat case_match; simpl; constructor; auto; simpl.
    + apply with_fin_wf; [|done]. apply ack_header_wf; [done|auto].
    + by apply ack_header_wf.
  - done.
  - unfold request_ack. by case_match.
  - unfold probe_window. by repeat case_match.
  - unfold shutdown_write. by case_match.
  - split; [done|]. apply Forall_app_2; [done|]. constructor; [|constructor].
    destruct Hr as ((?&?&?&?&?)&?&?&?&_). split_and!; simpl; word_range.
Qed.

Lemma sent_wf c irs w :
  config_ok c -> reach c irs w ->
  ranges (sess w) /\ Forall (fun seg => TcpFacts.wf (Segment.header seg)) (sent w).
Proof.
  intros Hc. induction 1 as [|w o _ [IH1 IH2] Hop]; [|by eapply ranges_exec].
  destruct Hc as (?&?&?&?&?). split; [split_and!; simpl; word_range|].
  constructor; [|constructor]. split_and!; simpl; word_range.
Qed.

End Run.

(** ** Properties *)

Module SessionProps.
Import MuxSession Inv Run.

(** A sample run shared by the witnesses: handshake, two queued writes, the
    first flushed, half of it acknowledged, data received. *)
Definition sample_config : SessionConfig := Build_SessionConfig 49152 62078 4294967290 8 65536.
Definition device_header (seq ack : Z) (f : Z) : TcpHeader.t := TcpHeader.Mk 62078 49152 seq ack f 4096.
Definition sample_ops : list op :=
  [OpSegment (device_header 0 4294967291 flags.SYN_ACK) []; OpNext;
   OpQueue (seqZ 1 12); OpNext; OpSegment (device_header 1 4294967295 flags.ACK) [7; 8; 9]; OpNext].
Definition sample_world : world := foldl exec (start sample_config) sample_ops.

Lemma sample_config_ok : config_ok sample_config.
Proof. by_compute. Qed.

Lemma sample_reach : reach sample_config 0 sample_world.
Proof.
  unfold sample_world, sample_ops. cbn [foldl].
  repeat (apply reach_exec; [|vm_compute; repeat split; try done; try discriminate;
                              intros; discriminate]).
  apply reach_start.
Qed.

(** Every segment ever handed to the link, first transmission or retransmission,
    carries at its sequence number exactly the bytes queued for that place in
    the stream, at most [mss] of them: retransmission never changes data. *)
Theorem sent_segments_are_stream_slices c irs w seg :
  config_ok c -> reach c irs w -> In seg (sent w) -> Segment.payload seg <> [] ->
  exists off, 0 <= off /\ off + zlen (Segment.payload seg) <= zlen (queued w) /\
    zlen (Segment.payload seg) <= mss c /\
    TcpHeader.sequence (Segment.header seg) = wrap 32 (initial_sequence c + 1 + off) /\
    Segment.payload seg = ztake (zlen (Segment.payload seg)) (zdrop off (queued w)).
Proof.
  intros Hc (_&_&Hs)%good_reach Hin Hne; [|done].
  rewrite List.Forall_forall in Hs. by destruct (Hs _ Hin).
Qed.

Definition sample_segment : Segment.t :=
  Segment.Mk (TcpHeader.Mk 49152 62078 4294967291 1 flags.ACK 65536) (seqZ 1 8).

Lemma sent_segments_are_stream_slices_witness :
  exists off, Segment.payload sample_segment =
    ztake (zlen (Segment.payload sample_segment)) (zdrop off (queued sample_world)).
Proof.
  assert (In sample_segment (sent sample_world)) as Hin by (vm_compute; tauto).
  destruct (sent_segments_are_stream_slices sample_config 0 sample_world sample_segment
              sample_config_ok sample_reach Hin) as (off&_&_&_&_&H); [discriminate|].
  exists off. exact H.
Defined.

(** A receiving session fed, in any order and with any repetition or loss, data
    segments another session sent. *)
Inductive fed (S : list Segment.t) (c : SessionConfig) (irs : Z) : world -> Prop :=
| fed_start : fed S c irs (start c)
| fed_exec w o :
    fed S c irs w -> op_ok irs w o ->
    match o with
    | OpSegment h payload =>
        payload = [] \/ exists seg, In seg S /\ Segment.payload seg = payload /\
          TcpHeader.sequence (Segment.header seg) = TcpHeader.sequence h
    | _ => True
    end -> fed S c irs (exec w o).

Lemma fed_reach S c irs w : fed S c irs w -> reach c irs w.
Proof. induction 1; by constructor. Qed.

Lemma apply_data_accepts s h payload s' ev :
  apply_data s h payload = (s', ev) -> accepted ev payload <> [] ->
  accepted ev payload = payload /\ TcpHeader.sequence h = rcv_nxt s /\ peer_fin s = None.
Proof.
  unfold apply_data. case_match; [by intros [= <- <-]|]. case_match eqn:G; [by intros [= <- <-]|].
  intros [= <- <-] _. apply orb_false_elim in G as [G1 G2]. bools.
  apply bool_decide_eq_false in G2. split_and!; try done.
  destruct (peer_fin s); [by destruct G2|done].
Qed.

(** Data is accepted only at the next expected sequence number, before a FIN. *)
Lemma accepted_in_order irs Q R s h payload ev :
  inv irs Q R s -> snd (on_segment s h payload) = Ok ev -> accepted ev payload <> [] ->
  accepted ev payload = payload /\ TcpHeader.sequence h = wrap 32 (irs + 1 + zlen R).
Proof.
  intros [_ Hi]. unfold on_segment. destruct (TcpHeader.is_reset h); [by intros [= <-]|]. simpl.
  destruct (state s); [|destruct Hi as [_ Hr]|done].
  { unfold on_syn_ack. repeat case_match; intros [= <-]; done. }
  unfold on_established. destruct (negb _ && negb _); [by intros [= <-]|].
  destruct (apply_ack _ h) as [s1|] eqn:A; [|done].
  destruct (apply_ack_frame _ _ _ A) as (_&_&Fr&_&Fp). simpl in Fr, Fp.
  destruct (apply_data (apply_window s1 h) h payload) as [s2 ev2] eqn:D. intros [= <-] Hne.
  destruct (apply_data_accepts _ _ _ _ _ D Hne) as (?&Hq&Hp). split; [done|].
  destruct Hr as [Hn _ _]. rewrite Fp in Hp. unfold fin_seen in Hn. rewrite Hp in Hn.
  rewrite Hq, Fr, Hn. f_equal; lia.
Qed.

(** C1. Reliable in-order delivery.  Connect a receiving session to a sending one
    over a link that may lose, repeat and reorder data segments: at every moment
    the receiver has accepted exactly a prefix of the bytes the sender queued.
    The sender has queued fewer than 2^32 bytes, where a sequence number names one
    place.  Of the headers both sides see it is assumed ([op_ok]) that they are ones
    the decoder produces, with a window the wire can express, that a SYN-ACK carries
    the peer's initial sequence number, and that acknowledgements lie at most 2^30
    behind what was already acknowledged. *)
Theorem delivered_is_prefix c1 irs1 w1 c2 w2 :
  config_ok c1 -> config_ok c2 -> reach c1 irs1 w1 -> zlen (queued w1) < 2 ^ 32 ->
  fed (sent w1) c2 (initial_sequence c1) w2 ->
  received w2 `prefix_of` queued w1.
Proof.
  intros Hc1 Hc2 H1 Hlen Hfed. pose proof (good_reach _ _ _ Hc1 H1) as (_&_&Hsent).
  rewrite List.Forall_forall in Hsent.
  induction Hfed as [|w o Hfed IH Hop Hsrc]; [apply prefix_nil|].
  pose proof (good_reach _ _ _ Hc2 (fed_reach _ _ _ _ Hfed)) as (_&Hi&_).
  destruct o; try (simpl; repeat case_match; exact IH). simpl in *.
  destruct (on_segment (sess w) h payload) as [s' r] eqn:E. simpl.
  destruct r as [ev| |]; [|rewrite app_nil_r; exact IH..].
  destruct (decide (accepted ev payload = [])) as [->|Hne]; [by rewrite app_nil_r|].
  destruct (accepted_in_order _ _ _ _ _ _ _ Hi (f_equal snd E) Hne) as [Ha Hq].
  rewrite Ha in *. destruct Hsrc as [?|(seg&Hin&Hp&Hs)]; [done|]. subst payload.
  destruct (Hsent _ Hin) as [?|(off&Hoff&Hend&_&Hseq&Hslice)]; [done|].
  destruct IH as [k Hk]. assert (zlen (received w) <= zlen (queued w1)) as Hr.
  { rewrite Hk, zlen_app. pose proof (zlen_nonneg k). lia. }
  pose proof (zlen_nonneg (Segment.payload seg)). pose proof (zlen_nonneg (received w)).
  assert (off = zlen (received w)) as ->.
  { apply (Z.add_reg_l (initial_sequence c1 + 1)), (wrap_inj_small 32); [unfold in_range; lia|congruence]. }
  exists (zdrop (zlen (Segment.payload seg)) k).
  rewrite Hk, zdrop_app_ge, Z.sub_diag, zdrop_0 in Hslice by lia.
  rewrite Hk, <- app_assoc. f_equal. rewrite Hslice at 1. by rewrite ztake_zdrop.
Qed.

Definition peer_config : SessionConfig := Build_SessionConfig 62078 49152 100 1400 65536.
Definition peer_ops : list op :=
  [OpSegment (TcpHeader.Mk 49152 62078 4294967290 101 flags.SYN_ACK 4096) [];
   OpSegment (TcpHeader.Mk 49152 62078 4294967291 101 flags.ACK 4096) (seqZ 1 8);
   OpSegment (TcpHeader.Mk 49152 62078 4294967291 101 flags.ACK 4096) (seqZ 1 8)].
Definition peer_world : world := foldl exec (start peer_config) peer_ops.

Lemma delivered_is_prefix_witness : received peer_world `prefix_of` queued sample_world.
Proof.
  apply (delivered_is_prefix sample_config 0 sample_world peer_config peer_world).
  - exact sample_config_ok.
  - by_compute.
  - exact sample_reach.
  - vm_compute; reflexivity.
  - unfold peer_world, peer_ops. cbn [foldl].
    assert (In sample_segment (sent sample_world)) as Hin by (vm_compute; tauto).
    assert (forall h p, h = TcpHeader.Mk 49152 62078 4294967291 101 flags.ACK 4096 -> p = seqZ 1 8 ->
      exists seg, In seg (sent sample_world) /\ Segment.payload seg = p /\
        TcpHeader.sequence (Segment.header seg) = TcpHeader.sequence h) as Hsrc.
    { intros h p -> ->. exists sample_segment. split; [exact Hin|split; reflexivity]. }
    apply fed_exec; [apply fed_exec; [apply fed_exec; [apply fed_start|..]|..]|..].
    + clear; vm_compute; repeat split; try done; try discriminate; intros; discriminate.
    + left; reflexivity.
    + clear; vm_compute; repeat split; try done; try discriminate; intros; discriminate.
    + right. apply Hsrc; reflexivity.
    + clear; vm_compute; repeat split; try done; try discriminate; intros; discriminate.
    + right. apply Hsrc; reflexivity.
Defined.

(** The handshake.  An opening session becomes established exactly by a SYN-ACK
    that acknowledges its SYN; it then owes the third leg, its send window is
    the advertised one and nothing is in flight.  Any other segment is refused
    with the session unchanged but for the segment counter, and a reset closes
    it. *)
Theorem handshake s h payload :
  state s = SynSent -> u32 (TcpHeader.window h) ->
  let '(s', r) := on_segment s h payload in
  let expected := wrapping_add 32 (initial_sequence (config s)) 1 in
  if TcpHeader.is_reset h then r = Ok EvReset /\ state s' = Closed
  else if negb (TcpHeader.is_syn_ack h) then
    r = Err (BadHandshake (TcpHeader.flags h)) /\ s' = s <| segments_in := segments_in s' |>
  else if negb (TcpHeader.acknowledgement h =? expected) then
    r = Err (BadAcknowledgement expected (TcpHeader.acknowledgement h)) /\
    s' = s <| segments_in := segments_in s' |>
  else
    r = Ok EvEstablished /\ state s' = Established /\ in_flight s' = 0 /\
    rcv_nxt s' = wrapping_add 32 (TcpHeader.sequence h) 1 /\
    (TcpHeader.window h <= W -> usable_window s' = TcpHeader.window h) /\
    exists seg, snd (next_segment s') = Some seg.
Proof.
  intros St Hw. unfold on_segment. destruct (TcpHeader.is_reset h); [done|]. simpl. rewrite St.
  unfold on_syn_ack. destruct (TcpHeader.is_syn_ack h); [|done]. simpl.
  destruct (_ =? _) eqn:A; [|done]. simpl. bools. split_and!; try done.
  - unfold in_flight; simpl. unfold wrapping_sub. by rewrite Z.sub_diag.
  - intros Hle. unfold usable_window, TcpHeader.window_edge; simpl. rewrite A.
    change (wrapping_add 32 (initial_sequence (config s)) 1)
      with (wrap 32 (initial_sequence (config s) + 1)).
    rewrite wrapping_add_wrap, wrapping_sub_wrap. unfold TcpFacts.WINDOW_MAX, in_range in *.
    replace (_ + 1 + TcpHeader.window h - _) with (TcpHeader.window h) by lia.
    rewrite as_i32_wrap by lia. case_match; bools; [lia|]. apply wrap_small. unfold in_range; lia.
  - by apply owed_ack_sent.
Qed.

Lemma handshake_witness :
  snd (on_segment (fst (open sample_config)) (device_header 0 4294967291 flags.SYN_ACK) [])
  = Ok EvEstablished.
Proof.
  pose proof (handshake (fst (open sample_config)) (device_header 0 4294967291 flags.SYN_ACK) []
                eq_refl ltac:(by_compute)) as P.
  vm_compute in P |- *. exact (proj1 P).
Defined.

(** Pulling segments makes progress and stops: each one strictly shrinks what
    the session still has to say, respects the segment size and the usable
    window, and settles the owed acknowledgement; when none comes the session is
    unchanged, owes nothing, and data is withheld only behind a shut window or
    behind data already in flight. *)
Theorem next_segment_progress c irs w :
  config_ok c -> reach c irs w -> state (sess w) = Established ->
  let s := sess w in
  match next_segment s with
  | (s', Some seg) =>
      backlog s' < backlog s /\ owe_ack s' = false /\
      zlen (Segment.payload seg) <= Z.max 0 (Z.min (mss c) (usable_window s))
  | (s', None) =>
      s' = s /\ owe_ack s = false /\
      (outbound s = [] \/ usable_window s = 0 \/ 0 < in_flight s)
  end.
Proof.
  intros Hc (Ec&[_ Hi]&_)%good_reach St; [|done]. simpl. set (s := sess w) in *. rewrite St in Hi.
  destruct Hi as [(u&nd&e&Hs) _].
  assert (1 <= mss (config s)) as Hm by (rewrite Ec; apply Hc).
  pose proof (next_segment_backlog s) as B. pose proof (next_segment_none s St) as N.
  pose proof (next_segment_case s St Hm) as C.
  destruct (next_segment s) as [s' [seg|]]; simpl in *.
  - destruct (B seg Hm eq_refl) as [B1 B2]. split_and!; [done|done|].
    rewrite <- Ec. inversion C; subst; clear C; simpl; try (rewrite zlen_nil; lia).
    unfold send_data; simpl. destruct (zlen (unacknowledged s) =? 0); simpl; zl.
  - destruct (N eq_refl) as (->&?&H). split_and!; [done|done|].
    rewrite (in_flight_eq _ _ _ _ _ _ Hs) in *. rewrite (usable_window_eq _ _ _ _ _ _ Hs) in *.
    destruct Hs. rewrite zlen_zero in H. destruct H as [?|[?|?]]; [by left|right; left; lia|].
    right; right; lia.
Qed.

Lemma next_segment_progress_witness :
  match next_segment (sess sample_world) with
  | (s', Some seg) => backlog s' < backlog (sess sample_world)
  | (s', None) => owe_ack (sess sample_world) = false
  end.
Proof.
  pose proof (next_segment_progress sample_config 0 sample_world sample_config_ok sample_reach
                eq_refl) as P. cbv zeta in P.
  destruct (next_segment (sess sample_world)) as [s' [seg|]]; [exact (proj1 P)|exact (proj1 (proj2 P))].
Defined.

(** Loss recovery.  While anything is unacknowledged and the window reaches past
    it, retransmission resends from the oldest unacknowledged byte, at its own
    sequence number; once only the FIN is outstanding it resends the FIN; with
    nothing outstanding it stays silent. *)
Theorem retransmit_oldest c irs w :
  config_ok c -> reach c irs w -> state (sess w) = Established ->
  let s := sess w in
  match retransmit_unacknowledged s with
  | Some seg =>
      TcpHeader.sequence (Segment.header seg) = snd_una s /\ 0 < in_flight s /\
      Segment.payload seg `prefix_of` unacknowledged s /\
      (unacknowledged s <> [] -> Segment.payload seg <> []) /\
      (unacknowledged s = [] -> TcpHeader.is_fin (Segment.header seg) = true /\ sent_fin s = Some (snd_una s))
  | None =>
      in_flight s = 0 \/
      as_i32 (wrapping_sub 32 (snd_wnd_edge s) (snd_una s)) <= 0 /\ unacknowledged s <> []
  end.
Proof.
  intros Hc (Ec&[_ Hi]&_)%good_reach St; [|done]. simpl. set (s := sess w) in *. rewrite St in Hi.
  destruct Hi as [(u&nd&e&Hs) _].
  assert (1 <= mss (config s)) as Hm by (rewrite Ec; apply Hc).
  pose proof (in_flight_eq _ _ _ _ _ _ Hs) as Hf. pose proof (unack_length _ _ _ _ _ _ Hs) as Hl.
  unfold retransmit_unacknowledged. rewrite bool_decide_eq_true_2 by done. simpl.
  destruct (zlen (unacknowledged s) =? 0) eqn:Zn; bools.
  - pose proof Zn as Znil. apply zlen_zero in Znil. unfold fin_sent in Hf.
    destruct (sent_fin s) as [f|] eqn:F; [|left; destruct Hs; unfold fin_sent in *; rewrite F in *; lia].
    destruct (sc_fin _ _ _ _ _ _ Hs f F) as (Hff&Hnd&_).
    destruct (snd_una s =? f) eqn:U; simpl; bools.
    + split_and!; [done| |apply prefix_nil|congruence|intros _; split; [done|congruence]].
      rewrite (sc_una _ _ _ _ _ _ Hs) in U. destruct Hs; unfold fin_sent in *; rewrite F in *.
      assert (u <= nd); [|lia]. assert (u = nd \/ u = nd + 1) as [-> | ->] by lia; [lia|].
      unfold TcpFacts.WINDOW_MAX in *. rewrite <- U in Hff.
      apply (wrap_inj_small 32) in Hff; [lia|unfold in_range; lia].
    + left. destruct Hs; unfold fin_sent in *; rewrite F in *.
      assert (u = nd \/ u = nd + 1) as [-> | ->] by lia; [congruence|lia].
  - destruct (as_i32 _ <=? 0) eqn:E; bools.
    + right. split; [done|]. intros Hn. apply Zn. by rewrite Hn.
    + assert (0 < wrapping_sub 32 (snd_wnd_edge s) (snd_una s)) as Hroom.
      { apply as_i32_pos in E; [lia|]. apply wrap_range; lia. }
      pose proof (zlen_nonneg (unacknowledged s)).
      split_and!; simpl; try done.
      * rewrite Hf. unfold fin_sent. case_match; lia.
      * exists (zdrop (zlen (unacknowledged s) `min` mss (config s) `min`
                       wrapping_sub 32 (snd_wnd_edge s) (snd_una s)) (unacknowledged s)).
        by rewrite ztake_zdrop.
      * intros _ Hnil%zlen_zero. rewrite zlen_ztake in Hnil. lia.
      * intros Hn. exfalso. apply Zn. by rewrite Hn.
Qed.

Lemma retransmit_oldest_witness :
  match retransmit_unacknowledged (sess sample_world) with
  | Some seg => TcpHeader.sequence (Segment.header seg) = snd_una (sess sample_world)
  | None => in_flight (sess sample_world) = 0 \/ unacknowledged (sess sample_world) <> []
  end.
Proof.
  pose proof (retransmit_oldest sample_config 0 sample_world sample_config_ok sample_reach eq_refl) as P.
  cbv zeta in P. destruct (retransmit_unacknowledged (sess sample_world)) as [seg|];
    [exact (proj1 P)|]. destruct P as [P|P]; [left; exact P|right; exact (proj2 P)].
Defined.

(** On the wire.  Every segment a session hands out serialises without panic,
    and what the header decoder and the 20-byte split read back is the segment:
    same ports, numbers, flags and payload, the window within one unit of 256. *)
Theorem segment_wire_roundtrip c irs w seg :
  config_ok c -> reach c irs w -> In seg (sent w) ->
  exists out h',
    Segment.to_bytes seg = Ok out /\
    TcpHeader.decode out = Ok h' /\ zdrop TCP_HEADER_LEN out = Segment.payload seg /\
    h' = TcpHeader.Mk (TcpHeader.source_port (Segment.header seg))
           (TcpHeader.destination_port (Segment.header seg))
           (TcpHeader.sequence (Segment.header seg))
           (TcpHeader.acknowledgement (Segment.header seg))
           (TcpHeader.flags (Segment.header seg))
           (TcpFacts.quantize (TcpHeader.window (Segment.header seg))).
Proof.
  intros Hc [_ Hw]%sent_wf Hin; [|done]. rewrite List.Forall_forall in Hw. specialize (Hw _ Hin).
  rewrite to_bytes_eq. do 2 eexists. split_and!; [done| |by rewrite zdrop_app_ge|done].
  by apply TcpFacts.decode_tcp_bytes.
Qed.

Lemma segment_wire_roundtrip_witness :
  exists out, Segment.to_bytes sample_segment = Ok out /\
    zdrop TCP_HEADER_LEN out = Segment.payload sample_segment.
Proof.
  assert (In sample_segment (sent sample_world)) as Hin by (vm_compute; tauto).
  destruct (segment_wire_roundtrip sample_config 0 sample_world sample_segment
              sample_config_ok sample_reach Hin) as (out&h'&H1&_&H2&_).
  exists out. split; [exact H1|exact H2].
Defined.

(** A closed session is final: whatever is done to it, it stays closed, accepts
    no byte and offers nothing but resets. *)
Theorem closed_is_final w o :
  state (sess w) = Closed ->
  state (sess (exec w o)) = Closed /\ received (exec w o) = received w /\
  queued (exec w o) = queued w /\
  forall seg, In seg (sent (exec w o)) ->
    In seg (sent w) \/ TcpHeader.flags (Segment.header seg) = flags.RST /\ Segment.payload seg = [].
Proof.
  intros St. destruct w as [s Q R out]. simpl in *. destruct o; simpl.
  - unfold can_write. rewrite bool_decide_eq_false_2 by congruence. simpl. auto.
  - unfold on_segment. destruct (TcpHeader.is_reset h); simpl; [|rewrite St; simpl];
      rewrite app_nil_r; split_and!; auto.
  - rewrite next_segment_closed by congruence. simpl. rewrite app_nil_r. auto.
  - unfold retransmit_unacknowledged. rewrite bool_decide_eq_false_2 by congruence. simpl.
    rewrite app_nil_r. auto.
  - auto.
  - unfold request_ack. rewrite bool_decide_eq_false_2 by congruence. auto.
  - unfold probe_window. rewrite bool_decide_eq_false_2 by congruence. simpl. auto.
  - unfold shutdown_write. rewrite bool_decide_eq_false_2 by congruence. simpl. auto.
  - split_and!; try done. intros seg [?|[<-|[]]]%in_app_or; [by left|by right].
Qed.

Lemma closed_is_final_witness :
  state (sess (exec (exec (start sample_config) OpClose) OpNext)) = Closed.
Proof. apply (closed_is_final (exec (start sample_config) OpClose) OpNext). reflexivity. Defined.

End SessionProps.
