(* ===== verification/MuxLedger.v ===== *)
(** * The books of a mux session (src/src/usbmux/session.rs)

    An observer beside the session keeps a ledger of what passed the interface:
    the device's headers the session took into account, the segments it
    accepted with their sequence numbers, the bytes the reader took away.  The
    theorem computes every counter and queue of the session from that ledger,
    in every state it can reach, closed ones included. *)

From S2P Require Import Prelude MuxFrame MuxTcp MuxSession.
From stdpp Require Import base tactics numbers list.
From Stdlib Require Import ZArith Lia.

Open Scope Z_scope.

Import MuxSession Inv Run.

(** [heard] are the acknowledging headers that were not refused, [log] the
    segments whose data (or FIN) was accepted, [taken] what [take_received]
    copied out. *)
Record ledger := Ledger {
  run : world;
  heard : list TcpHeader.t;
  log : list (TcpHeader.t * bytes);
  taken : bytes;
}.

Definition noted (r : res SessionError SessionEvent) (h : TcpHeader.t) : list TcpHeader.t :=
  match r with
  | Ok (EvEstablished | EvData _ | EvAcknowledged | EvOutOfOrder _ _) =>
      if Z.land (TcpHeader.flags h) flags.ACK =? 0 then [] else [h]
  | _ => []
  end.

Definition entered (r : res SessionError SessionEvent) (h : TcpHeader.t) (payload : bytes)
  : list (TcpHeader.t * bytes) :=
  match r with Ok (EvData _) => [(h, payload)] | _ => [] end.

Definition lexec (l : ledger) (o : op) : ledger :=
  let w := exec (run l) o in
  match o with
  | OpSegment h payload =>
      let r := snd (on_segment (sess (run l)) h payload) in
      Ledger w (heard l ++ noted r h) (log l ++ entered r h payload) (taken l)
  | OpTake out =>
      let '(count, copied) := snd (take_received (sess (run l)) out) in
      Ledger w (heard l) (log l) (taken l ++ ztake count copied)
  | _ => Ledger w (heard l) (log l) (taken l)
  end.

Inductive lreach (c : SessionConfig) (irs : Z) : ledger -> Prop :=
| lreach_start : lreach c irs (Ledger (start c) [] [] [])
| lreach_exec l o : lreach c irs l -> op_ok irs (run l) o -> lreach c irs (lexec l o).

Lemma run_lexec l o : run (lexec l o) = exec (run l) o.
Proof. by destruct o. Qed.

(** Keeping the ledger restricts no run. *)
Lemma reach_ledger c irs w : reach c irs w -> exists l, lreach c irs l /\ run l = w.
Proof.
  induction 1 as [|w o _ (l&Hl&<-) Hop]; [eexists; split; [constructor|done]|].
  exists (lexec l o). split; [by constructor|apply run_lexec].
Qed.

(** What a cumulative reader of [heard] holds acknowledged, from [iss + 1]. *)
Definition acked (iss : Z) (hs : list TcpHeader.t) : Z := foldl (acked_by iss) 0 hs.

(** The sequence numbers a segment takes up, and those of a whole log. *)
Definition span (seg : TcpHeader.t * bytes) : Z :=
  zlen (seg.2) + if TcpHeader.is_fin (seg.1) then 1 else 0.

Fixpoint spans (segs : list (TcpHeader.t * bytes)) : Z :=
  match segs with [] => 0 | seg :: segs => span seg + spans segs end.

(** Each segment starts where the one before it ended, and none follows a FIN. *)
Fixpoint in_order (next : Z) (segs : list (TcpHeader.t * bytes)) : Prop :=
  match segs with
  | [] => True
  | seg :: segs =>
      TcpHeader.sequence (seg.1) = wrap 32 next /\
      (TcpHeader.is_fin (seg.1) = true -> segs = []) /\ in_order (next + span seg) segs
  end.

Definition bodies (segs : list (TcpHeader.t * bytes)) : bytes := concat (map snd segs).

Lemma spans_app l1 l2 : spans (l1 ++ l2) = spans l1 + spans l2.
Proof. induction l1; simpl; lia. Qed.

Lemma bodies_snoc segs h p : bodies (segs ++ [(h, p)]) = bodies segs ++ p.
Proof. unfold bodies. by rewrite map_app, concat_app; simpl; rewrite app_nil_r. Qed.

Lemma spans_bodies segs : zlen (bodies segs) <= spans segs.
Proof.
  induction segs as [|[h p] segs IH]; [done|]. unfold bodies in *. simpl.
  rewrite zlen_app. unfold span; simpl. destruct (TcpHeader.is_fin h); lia.
Qed.

Lemma in_order_snoc next segs h p :
  in_order next segs -> spans segs = zlen (bodies segs) ->
  TcpHeader.sequence h = wrap 32 (next + spans segs) -> in_order next (segs ++ [(h, p)]).
Proof.
  revert next. induction segs as [|[h0 p0] segs IH]; intros next; simpl.
  { intros _ _ ->. split_and!; [f_equal; lia|done..]. }
  intros (Hs&Hf&Ho) Hb E. pose proof (spans_bodies segs).
  unfold bodies, span in Hb, E. cbn [map concat fst snd] in *. rewrite zlen_app in Hb.
  fold (bodies segs) in *. destruct (TcpHeader.is_fin h0) eqn:F; [lia|].
  split_and!; [done..|]. apply IH; [done|lia|]. rewrite E. f_equal. unfold span; simpl. rewrite F. lia.
Qed.

(** ** The invariant *)

(** The window fields repeat the last header heard and the widest of all. *)
Definition window_books (hs : list TcpHeader.t) (s : t) : Prop :=
  match last hs with
  | None => max_peer_window s = 0
  | Some h => snd_wnd_edge s = TcpHeader.window_edge h /\ peer_window s = TcpHeader.window h /\
              max_peer_window s = foldl (fun m h => Z.max m (TcpHeader.window h)) 0 hs
  end.

Definition send_books (iss : Z) (hs : list TcpHeader.t) (Q : bytes) (s : t) : Prop :=
  match hs with
  | [] => state s <> Established /\ Q = [] /\ outbound s = [] /\ unacknowledged s = [] /\
          snd_una s = iss /\ snd_nxt s = iss /\ sent_fin s = None /\ write_shutdown s = false
  | _ => state s <> SynSent /\ exists nd e, send_core iss Q (acked iss hs) nd e s
  end.

Record recv_books (irs : Z) (hs : list TcpHeader.t) (segs : list (TcpHeader.t * bytes))
    (tk : bytes) (s : t) : Prop := {
  rb_bytes : bodies segs = tk ++ inbound s;
  rb_order : in_order (irs + 1) segs;
  rb_span : spans segs = zlen (bodies segs) + fin_seen s;
  rb_next : match hs with
            | [] => segs = []
            | _ => rcv_nxt s = wrap 32 (irs + 1 + spans segs)
            end;
}.

Record books (c : SessionConfig) (irs : Z) (hs : list TcpHeader.t) (Q : bytes)
    (segs : list (TcpHeader.t * bytes)) (tk : bytes) (s : t) : Prop := {
  bk_config : config s = c;
  bk_send : send_books (initial_sequence c) hs Q s;
  bk_window : window_books hs s;
  bk_recv : recv_books irs hs segs tk s;
}.

(** ** Preservation *)

Lemma acked_snoc iss hs h : acked iss (hs ++ [h]) = acked_by iss (acked iss hs) h.
Proof. unfold acked. by rewrite foldl_app. Qed.

(** Sending moves only the sent mark. *)
Lemma next_core iss Q u nd e s :
  1 <= mss (config s) -> send_core iss Q u nd e s ->
  exists nd', send_core iss Q u nd' e (fst (next_segment s)).
Proof.
  intros Hm Hs. destruct (decide (state s = Established)) as [St|St];
    [|rewrite next_segment_closed by done; by exists nd].
  destruct (next_segment_case s St Hm) as [take ????|????|?|?].
  - exists (nd + take). by apply send_data_core.
  - exists nd. by apply send_fin_core.
  - exists nd. keep_core.
  - by exists nd.
Qed.

Lemma next_frame s :
  1 <= mss (config s) ->
  let s' := fst (next_segment s) in
  config s' = config s /\ state s' = state s /\ rcv_nxt s' = rcv_nxt s /\ inbound s' = inbound s /\
  peer_fin s' = peer_fin s /\ snd_wnd_edge s' = snd_wnd_edge s /\ peer_window s' = peer_window s /\
  max_peer_window s' = max_peer_window s.
Proof.
  intros Hm. destruct (decide (state s = Established)) as [St|St];
    [|by rewrite next_segment_closed].
  destruct (next_segment_case s St Hm); try done.
  unfold send_data; simpl. by destruct (zlen (unacknowledged s) =? 0).
Qed.

(** Updates of the fields the books do not read. *)
Ltac keep_books :=
  match goal with
  | H : books _ _ ?hs _ _ _ _ |- _ =>
      destruct H as [? Hsend Hwin []]; split; simpl in *;
      [done
      |destruct hs; simpl in *; [naive_solver|];
       destruct Hsend as (?&nd&e&?); split; [done|exists nd, e; keep_core]
      |done
      |split; unfold fin_seen in *; simpl in *; done]
  end.

Lemma books_segments_in c irs hs Q segs tk s n :
  books c irs hs Q segs tk s -> books c irs hs Q segs tk (s <| segments_in := n |>).
Proof. intros. keep_books. Qed.

Lemma books_owe_ack c irs hs Q segs tk s b :
  books c irs hs Q segs tk s -> books c irs hs Q segs tk (s <| owe_ack := b |>).
Proof. intros. keep_books. Qed.

Lemma books_closed c irs hs Q segs tk s :
  books c irs hs Q segs tk s -> books c irs hs Q segs tk (s <| state := Closed |>).
Proof. intros. keep_books. Qed.

Lemma books_syn_ack c irs Q segs tk s h :
  books c irs [] Q segs tk s -> TcpFacts.wf h -> TcpHeader.window h <= W ->
  (TcpHeader.is_syn_ack h = true -> TcpHeader.sequence h = irs) ->
  let r := on_syn_ack s h in
  books c irs (noted (snd r) h) Q (segs ++ entered (snd r) h []) tk (fst r).
Proof.
  intros Hb Hh Hw Hseq. simpl. unfold on_syn_ack.
  destruct (TcpHeader.is_syn_ack h) eqn:SA; simpl; [|by rewrite app_nil_r].
  case_match eqn:A; simpl; [by rewrite app_nil_r|]. bools. rewrite app_nil_r.
  assert (Z.land (TcpHeader.flags h) flags.ACK =? 0 = false) as ->.
  { unfold TcpHeader.is_syn_ack in SA. bools. rewrite SA. done. }
  destruct Hb as [Hc (_&->&Ho&Hu&_&_&Hf&Hs) Hwin [Hby Hor Hsp ->]].
  destruct Hh as (_&_&Hsq&Hack&_&Hwd). unfold wrapping_add in A. rewrite Hc in *.
  split; simpl; [done| | |].
  - split; [done|]. exists 0, (TcpHeader.window h).
    assert (acked (initial_sequence c) [h] = 0) as ->.
    { unfold acked, acked_by; simpl. case_match; [done|]. rewrite A, Z.add_0_r.
      unfold wrapping_sub. rewrite Z.sub_diag. done. }
    split; unfold fin_sent, TcpFacts.WINDOW_MAX in *; simpl; rewrite ?Hf, ?Ho, ?Hu; try done;
      unfold in_range in *; try lia.
    all: unfold wrapping_add, TcpHeader.window_edge; rewrite ?A; try (f_equal; lia).
    rewrite wrapping_add_wrap. f_equal; lia.
  - unfold window_books in *. simpl in *. rewrite Hwin. done.
  - split; simpl; try done. rewrite (Hseq eq_refl), Z.add_0_r. done.
Qed.

(** The headers an accepted segment adds to [heard]. *)
Definition note (h : TcpHeader.t) : list TcpHeader.t :=
  if Z.land (TcpHeader.flags h) flags.ACK =? 0 then [] else [h].

Lemma heard_cons (hs : list TcpHeader.t) h A (x y : A) :
  hs <> [] -> match hs ++ note h with [] => x | _ => y end = y.
Proof. by destruct hs. Qed.

Lemma books_ack c irs hs Q segs tk s h s1 :
  hs <> [] -> books c irs hs Q segs tk s -> TcpFacts.wf h -> TcpHeader.window h <= W ->
  (Z.land (TcpHeader.flags h) flags.ACK <> 0 -> recent_ack s h) ->
  apply_ack s h = Some s1 ->
  books c irs (hs ++ note h) Q segs tk (apply_window s1 h).
Proof.
  intros Hne [Hc Hs Hw [Hby Hor Hsp Hn]] Hh Hwd Hr A.
  destruct (apply_ack_frame _ _ _ A) as (Fc&Fs&Fr&Fi&Fp).
  split; [congruence| | |].
  - unfold send_books in *. rewrite heard_cons by done. destruct hs as [|h0 hs]; [done|].
    destruct Hs as (St&nd&e&Hs). split; [congruence|].
    edestruct (apply_ack_core _ _ _ _ _ _ h s1 Hs) as (e'&Hs');
      [apply Hh|split; [apply Hh|done]|exact Hr|exact A|].
    exists nd, e'. unfold note, acked_by in *.
    case_match; [by rewrite app_nil_r|by rewrite acked_snoc; unfold acked_by; rewrite H].
  - unfold window_books, note, apply_ack, apply_window in *.
    destruct (Z.land (TcpHeader.flags h) flags.ACK =? 0); simpl in *.
    + injection A as <-. by rewrite app_nil_r.
    + rewrite last_snoc, foldl_app. simpl. split_and!; [done..|].
      assert (max_peer_window s1 = max_peer_window s) as -> by (repeat case_match; by simplify_eq/=).
      destruct (last hs) eqn:L; [by destruct Hw as (_&_&->)|]. by apply last_None in L.
  - split; rewrite ?Fi; [done..| |].
    + unfold fin_seen. by rewrite Fp.
    + rewrite heard_cons by done. rewrite Fr. by destruct hs.
Qed.

Lemma books_data c irs hs Q segs tk s h payload :
  hs <> [] -> books c irs hs Q segs tk s ->
  let r := apply_data s h payload in
  books c irs hs Q (segs ++ entered (Ok (snd r)) h payload) tk (fst r).
Proof.
  intros Hne [Hc Hs Hw [Hby Hor Hsp Hn]]. simpl.
  destruct (apply_data_frame s h payload) as [Dc Ds]. split.
  - by rewrite Dc.
  - unfold send_books in *. rewrite Ds. destruct hs; [done|]. destruct Hs as (?&nd&e&?).
    split; [done|]. exists nd, e. by apply apply_data_send.
  - unfold window_books, apply_data in *. repeat case_match; simplify_eq/=; done.
  - destruct hs as [|h0 hs]; [done|]. unfold apply_data.
    destruct (_ && _); simpl; [rewrite app_nil_r; by split|].
    destruct (_ || _) eqn:G; simpl; [rewrite app_nil_r; by split|].
    apply orb_false_elim in G as [G1 G2]. bools. apply bool_decide_eq_false in G2.
    destruct (peer_fin s) eqn:Pf; [by destruct G2|]. unfold fin_seen in Hsp. rewrite Pf in Hsp.
    split.
    + rewrite bodies_snoc, Hby, <- app_assoc. by case_match.
    + apply in_order_snoc; [done|lia|]. by rewrite G1.
    + rewrite bodies_snoc, spans_app, zlen_app. unfold fin_seen, span. simpl. unfold span. simpl.
      destruct (TcpHeader.is_fin h); simpl; rewrite ?Pf; lia.
    + rewrite spans_app. simpl. unfold span. simpl.
      destruct (TcpHeader.is_fin h); simpl; rewrite Hn, wrapping_add_wrap_r, ?wrapping_add_wrap;
        f_equal; lia.
Qed.

Lemma books_established c irs hs Q segs tk s h payload :
  hs <> [] -> books c irs hs Q segs tk s -> TcpFacts.wf h -> TcpHeader.window h <= W ->
  (Z.land (TcpHeader.flags h) flags.ACK <> 0 -> recent_ack s h) ->
  let r := on_established s h payload in
  books c irs (hs ++ noted (snd r) h) Q (segs ++ entered (snd r) h payload) tk (fst r).
Proof.
  intros Hne Hb Hh Hw Hr. simpl. unfold on_established.
  destruct (_ && _); simpl; [rewrite !app_nil_r; by apply books_closed|].
  destruct (apply_ack s h) as [s1|] eqn:A; simpl; [|by rewrite !app_nil_r].
  pose proof (books_ack _ _ _ _ _ _ _ _ _ Hne Hb Hh Hw Hr A) as H1.
  pose proof (books_data _ _ (hs ++ note h) _ _ _ _ h payload ltac:(by destruct hs) H1) as H2.
  assert (forall s' ev, apply_data (apply_window s1 h) h payload = (s', ev) ->
            noted (Ok ev) h = note h) as Hnote.
  { intros s' ev. unfold apply_data. repeat case_match; by intros [= <- <-]. }
  destruct (apply_data _ h payload) as [s2 ev] eqn:D. cbn [fst snd]. by rewrite (Hnote s2 ev).
Qed.

Lemma books_segment c irs l h payload :
  books c irs (heard l) (queued (run l)) (log l) (taken l) (sess (run l)) ->
  op_ok irs (run l) (OpSegment h payload) ->
  let r := on_segment (sess (run l)) h payload in
  books c irs (heard l ++ noted (snd r) h) (queued (run l)) (log l ++ entered (snd r) h payload)
    (taken l) (fst r).
Proof.
  destruct l as [[s Q R out] hs segs tk]. simpl.
  intros Hb%(books_segments_in _ _ _ _ _ _ _ (saturating_add 64 (segments_in s) 1)) (Hh&Hw&Hsyn&Hack).
  unfold on_segment. set (s0 := s <| segments_in := _ |>) in *.
  destruct (TcpHeader.is_reset h); simpl; [rewrite !app_nil_r; by apply books_closed|].
  assert (state s0 = state s) as Es by done. destruct (state s) eqn:St.
  - destruct hs as [|h0 hs]; [|by destruct Hb as [_ [? _] _ _]].
    pose proof (books_syn_ack _ _ _ _ _ _ h Hb Hh Hw ltac:(auto)) as H. simpl in *.
    unfold entered in *. destruct (snd (on_syn_ack s0 h)) as [[]| |] eqn:E; try done.
    exfalso. unfold on_syn_ack in E. repeat case_match; simplify_eq/=.
  - apply books_established; auto. intros ->. by destruct Hb as [_ [? _] _ _].
  - simpl. by rewrite !app_nil_r.
Qed.

Lemma books_queue c irs hs Q segs tk s data :
  can_write s = true -> books c irs hs Q segs tk s ->
  books c irs hs (Q ++ data) segs tk (queue s data).
Proof.
  unfold can_write. intros Hw [Hc Hs Hwin Hr]. bools. apply bool_decide_eq_true in H as St.
  split; simpl; [done| |done|destruct Hr; split; done].
  destruct hs as [|h0 hs]; [by destruct Hs|]. destruct Hs as (Hst&nd&e&Hs). split; [done|].
  exists nd, e. by apply queue_core.
Qed.

Lemma books_take c irs hs Q segs tk s out :
  books c irs hs Q segs tk s ->
  let '(s', (count, copied)) := take_received s out in
  books c irs hs Q segs (tk ++ ztake count copied) s'.
Proof.
  intros [Hc Hs Hwin [Hby Hor Hsp Hn]]. unfold take_received. set (n := Z.min _ _).
  assert (ztake n (ztake n (inbound s) ++ zdrop n out) = ztake n (inbound s)) as ->.
  { pose proof (zlen_nonneg out). pose proof (zlen_nonneg (inbound s)).
    rewrite ztake_app_le by (subst n; zl). rewrite ztake_ztake. f_equal. lia. }
  split; simpl; [done| |done|].
  - destruct hs; simpl in *; [done|]. destruct Hs as (?&nd&e&?). split; [done|].
    exists nd, e. keep_core.
  - split; simpl; try done. by rewrite <- app_assoc, ztake_zdrop.
Qed.

Lemma books_shutdown c irs hs Q segs tk s :
  state s = Established -> books c irs hs Q segs tk s ->
  books c irs hs Q segs tk (s <| write_shutdown := true |>).
Proof.
  intros St [Hc Hs Hwin Hr]. split; simpl; [done| |done|destruct Hr; by split].
  destruct hs as [|h0 hs]; [by destruct Hs|]. destruct Hs as (?&nd&e&[]). split; [done|].
  exists nd, e. split; unfold fin_sent in *; simpl in *; try done.
  intros f Hf. by destruct (sc_fin0 f Hf) as (?&?&_).
Qed.

Lemma books_next c irs hs Q segs tk s :
  1 <= mss c -> books c irs hs Q segs tk s -> books c irs hs Q segs tk (fst (next_segment s)).
Proof.
  intros Hm [Hc Hs Hwin []]. rewrite <- Hc in Hm.
  destruct (next_frame s Hm) as (Ec&Es&Er&Ei&Ep&Ew&Epw&Em). split.
  - congruence.
  - destruct hs as [|h0 hs].
    + destruct Hs as [St Hs]. by rewrite next_segment_closed.
    + destruct Hs as (St&nd&e&Hs). split; [by rewrite Es|].
      destruct (next_core _ _ _ _ _ _ Hm Hs) as [nd' ?]. eauto.
  - unfold window_books in *. by rewrite Ew, Epw, Em.
  - split; unfold fin_seen in *; rewrite ?Ei, ?Ep, ?Er; done.
Qed.

Definition ledger_books (c : SessionConfig) (irs : Z) (l : ledger) : Prop :=
  books c irs (heard l) (queued (run l)) (log l) (taken l) (sess (run l)).

Lemma books_lexec c irs l o :
  config_ok c -> ledger_books c irs l -> op_ok irs (run l) o -> ledger_books c irs (lexec l o).
Proof.
  intros (_&_&_&Hm&_) Hb Hop. destruct l as [[s Q R out] hs segs tk]. destruct o; simpl in *.
  - unfold ledger_books in *. simpl in *. case_match; [by apply books_queue|done].
  - pose proof (books_segment _ _ _ h payload Hb Hop) as H. unfold ledger_books. simpl in *.
    by destruct (on_segment s h payload).
  - pose proof (books_next _ _ _ _ _ _ _ Hm Hb) as H. unfold ledger_books. simpl in *.
    by destruct (next_segment s).
  - done.
  - exact (books_take _ _ _ _ _ _ _ out0 Hb).
  - unfold ledger_books, request_ack; simpl. case_match; [by apply books_owe_ack|done].
  - unfold ledger_books, probe_window; simpl. repeat case_match; try done. by apply books_owe_ack.
  - unfold ledger_books, shutdown_write; simpl. case_match eqn:G; [done|]. simpl. bools.
    apply bool_decide_eq_true in G. by apply books_shutdown.
  - by apply books_closed.
Qed.

Lemma books_reach c irs l : config_ok c -> lreach c irs l -> ledger_books c irs l.
Proof.
  intros Hc. induction 1 as [|l o _ IH Hop]; [|by apply books_lexec]. by split; [..|split].
Qed.

Lemma received_log c irs l : lreach c irs l -> received (run l) = bodies (log l).
Proof.
  induction 1 as [|l o _ IH _]; [done|]. destruct l as [[s Q R out] hs segs tk]. simpl in IH.
  subst R. destruct o; simpl; try done.
  - by case_match.
  - destruct (on_segment s h payload) as [s' [[]| |]]; simpl; rewrite ?app_nil_r; try done.
    by rewrite bodies_snoc.
  - by destruct (next_segment s).
Qed.

(** ** The property *)

Definition handed (w : world) : Z := zlen (queued w) - zlen (outbound (sess w)) + fin_sent (sess w).

Lemma send_core_books iss Q u nd e s :
  send_core iss Q u nd e s ->
  let sent := zlen Q - zlen (outbound s) + fin_sent s in
  Q = ztake u Q ++ unacknowledged s ++ outbound s /\
  snd_una s = wrap 32 (iss + 1 + u) /\ snd_nxt s = wrap 32 (iss + 1 + sent) /\
  0 <= u <= sent /\ in_flight s = sent - u /\ in_flight s <= W /\
  (0 < usable_window s -> in_flight s + usable_window s <= W).
Proof.
  intros Hs. simpl. rewrite (in_flight_eq _ _ _ _ _ _ Hs), (usable_window_eq _ _ _ _ _ _ Hs),
    (outbound_length _ _ _ _ _ _ Hs). destruct Hs. split_and!; try done; try lia.
  - rewrite sc_out0, sc_unack0. apply stream_split; [lia| |lia].
    unfold fin_sent in *. destruct (sent_fin s) as [f|]; [|lia].
    destruct (sc_fin0 f eq_refl) as (_&?&_). lia.
  - rewrite sc_nxt0. f_equal; lia.
Qed.

(** C27. The books of a session balance after every run of its operations against
    a device that keeps to [op_ok] (its SYN-ACK carries its initial sequence
    number, acknowledgements are at most 2^30 behind, windows fit the wire).
    Receiving: what was taken and what still waits are together the bodies of
    the segments accepted; those follow one another without gap or overlap
    from the device's first sequence number, nothing after a FIN; and
    [rcv_nxt] is the sequence number after the last of them.  Sending, once a
    SYN-ACK was taken (and still after the session closed): the acknowledged
    prefix computed from the headers heard, the bytes awaiting acknowledgement
    and the unsent ones are the queued stream in order; [snd_una] is the end of
    that prefix and [snd_nxt] the end of what was handed to the link; the bytes
    in flight are the difference, at most the largest window of the wire, also
    when the usable window is added; and the window fields are those of the
    last header heard and the widest of all.  Before a SYN-ACK nothing is queued
    and both send counters are the initial sequence number. *)
Theorem session_accounting c irs l :
  config_ok c -> lreach c irs l ->
  let s := sess (run l) in let Q := queued (run l) in let iss := initial_sequence c in
  bodies (log l) = taken l ++ inbound s /\ received (run l) = bodies (log l) /\
  in_order (irs + 1) (log l) /\
  match last (heard l) with
  | None =>
      state s <> Established /\ Q = [] /\ outbound s = [] /\ unacknowledged s = [] /\
      snd_una s = iss /\ snd_nxt s = iss /\ log l = []
  | Some h =>
      let u := acked iss (heard l) in
      state s <> SynSent /\ rcv_nxt s = wrap 32 (irs + 1 + spans (log l)) /\
      Q = ztake u Q ++ unacknowledged s ++ outbound s /\
      snd_una s = wrap 32 (iss + 1 + u) /\ snd_nxt s = wrap 32 (iss + 1 + handed (run l)) /\
      0 <= u <= handed (run l) /\ in_flight s = handed (run l) - u /\ in_flight s <= W /\
      (0 < usable_window s -> in_flight s + usable_window s <= W) /\
      snd_wnd_edge s = TcpHeader.window_edge h /\ peer_window s = TcpHeader.window h /\
      max_peer_window s = foldl (fun m h => Z.max m (TcpHeader.window h)) 0 (heard l)
  end.
Proof.
  intros Hc Hl. pose proof (received_log _ _ _ Hl) as Hrec.
  destruct (books_reach _ _ _ Hc Hl) as [_ Hs Hw [Hby Hor _ Hn]]. unfold window_books in Hw. simpl.
  split_and!; [done..|]. destruct (last (heard l)) as [h|] eqn:L.
  - destruct (heard l) as [|h0 hs]; [done|]. destruct Hs as (St&nd&e&Hs).
    destruct (send_core_books _ _ _ _ _ _ Hs) as (?&?&?&?&?&?&?). destruct Hw as (?&?&?).
    split_and!; try done; unfold handed; lia.
  - apply last_None in L. rewrite L in *. destruct Hs as (?&?&?&?&?&?&_). by split_and!.
Qed.

Definition sample_ledger : ledger :=
  foldl lexec (Ledger (start SessionProps.sample_config) [] [] [])
    (SessionProps.sample_ops ++ [OpTake (zeros 2)]).

Lemma sample_lreach : lreach SessionProps.sample_config 0 sample_ledger.
Proof.
  unfold sample_ledger, SessionProps.sample_ops. cbn [foldl app].
  repeat (apply lreach_exec; [|vm_compute; repeat split; try done; try discriminate;
                               intros; discriminate]).
  apply lreach_start.
Qed.

(** The device has acknowledged four of the twelve bytes queued, eight were
    handed to the link, and two of the three bytes it sent were taken. *)
Lemma session_accounting_witness :
  queued (run sample_ledger) =
    [1; 2; 3; 4] ++ unacknowledged (sess (run sample_ledger)) ++ outbound (sess (run sample_ledger)) /\
  bodies (log sample_ledger) = [7; 8] ++ inbound (sess (run sample_ledger)).
Proof.
  destruct (session_accounting SessionProps.sample_config 0 sample_ledger
              SessionProps.sample_config_ok sample_lreach) as (H1&_&_&H).
  split; [|vm_compute in H1 |- *; exact H1].
  assert (last (heard sample_ledger) = Some (SessionProps.device_header 1 4294967295 flags.ACK))
    as E by (vm_compute; reflexivity).
  rewrite E in H. destruct H as (_&_&H&_). vm_compute in H |- *. exact H.
Defined.
