(* ===== verification/RoundTrip.v ===== *)
(** * The round-trip meter (src/src/usbmux/roundtrip.rs)

    Per-port send/ack/wait statistics the link keeps, and the shared budget of
    summary lines.  Instants and durations are nanosecond counts ([Z]); the
    64-bit statistics counters are unbounded integers (a run would need 2^64
    events to tell the difference).  A summary line is the data it prints, not
    its text.  The process-wide atomic budget is the [remaining] field of the
    meter that spends it: one meter's operations are sequential. *)

From S2P Require Import Prelude.
From stdpp Require Import base tactics numbers list gmap.
From Stdlib Require Import ZArith Lia.

Open Scope Z_scope.

Definition WAITS_PER_SUMMARY : Z := 128.
Definition SUMMARY_MIN_INTERVAL : Z := 30 * 1000000000.
Definition PROCESS_LINE_BUDGET : Z := 1024.
Definition UNACKED_RING : Z := 64.

Definition micros (duration : Z) : Z := Z.min (duration / 1000) (2 ^ 64 - 1).
(** [Instant::saturating_duration_since]. *)
Definition since (later earlier : Z) : Z := Z.max 0 (later - earlier).

Definition seq_reached (acknowledgement seq_end : Z) : bool :=
  0 <=? as_i32 (wrapping_sub 32 acknowledgement seq_end).

Inductive LineGrant := Granted | Last | Exhausted.
Inductive SummaryReason := Periodic | ClosedPort.

(** [LineBudget::take] on the remaining count. *)
Definition budget_take (remaining : Z) : Z * LineGrant :=
  if remaining =? 0 then (remaining, Exhausted)
  else (remaining - 1, if remaining =? 1 then Last else Granted).

Module Tally.

Record t := Mk { count : Z; total_us : Z; max_us : Z }.
Definition default : t := Mk 0 0 0.

Definition record (tl : t) (us : Z) : t :=
  Mk (count tl + 1) (saturating_add 64 (total_us tl) us)
     (if max_us tl <? us then us else max_us tl).

Definition mean_us (tl : t) : Z := if count tl =? 0 then 0 else total_us tl / count tl.

End Tally.

Record SentSegment := { seq_end : Z; seg_bytes : Z; sent_at : Z }.

Record PortStats := MkPortStats {
  ps_local_port : Z;
  bytes_queued : Z;
  segments_sent : Z;
  bytes_sent : Z;
  bytes_acked : Z;
  ps_send : Tally.t;
  blocked : Tally.t;
  waited_window_open : Tally.t;
  lock_wait : Tally.t;
  inbound_wait_shut : Tally.t;
  inbound_wait_open : Tally.t;
  ack : Tally.t;
  ps_peer_window : Z;
  usable_at_block : Z;
  in_flight_at_block : Z;
  in_flight_total_at_block : Z;
  unacked_now : Z;
  unacked_dropped : Z;
  span : Z;
}.

#[export] Instance eta_stats : Eta PortStats := fun p =>
  MkPortStats (ps_local_port p) (bytes_queued p) (segments_sent p) (bytes_sent p) (bytes_acked p)
    (ps_send p) (blocked p) (waited_window_open p) (lock_wait p) (inbound_wait_shut p)
    (inbound_wait_open p) (ack p) (ps_peer_window p) (usable_at_block p) (in_flight_at_block p)
    (in_flight_total_at_block p) (unacked_now p) (unacked_dropped p) (span p).

Definition in_flight_mean_at_block (p : PortStats) : Z :=
  if Tally.count (blocked p) =? 0 then 0 else in_flight_total_at_block p / Tally.count (blocked p).

Definition bytes_per_second (p : PortStats) : Z :=
  let us := span p / 1000 in
  if us =? 0 then 0 else Z.min (bytes_sent p * 1000000 / us) (2 ^ 64 - 1).

Record PortMeter := MkPortMeter {
  stats : PortStats;
  unacked : list SentSegment;
  first_send : option Z;
  last_activity : option Z;
  waits_since_summary : Z;
  last_summary : option Z;
}.

#[export] Instance eta_meter : Eta PortMeter := fun p =>
  MkPortMeter (stats p) (unacked p) (first_send p) (last_activity p) (waits_since_summary p)
    (last_summary p).

Definition new_port (local_port : Z) : PortMeter :=
  MkPortMeter
    (MkPortStats local_port 0 0 0 0 Tally.default Tally.default Tally.default Tally.default
       Tally.default Tally.default Tally.default 0 0 0 0 0 0 0)
    [] None None 0 None.

Definition touch (p : PortMeter) (at_ : Z) : PortMeter :=
  let first := match first_send p with None => at_ | Some f => f end in
  p <| first_send := Some first |>
    <| last_activity := Some at_ |>
    <| stats := (stats p) <| span := since at_ first |> |>.

Record SummaryLine := { line_stats : PortStats; line_reason : SummaryReason; line_last : bool }.

Record RoundtripMeter := MkMeter {
  ports : gmap Z PortMeter;
  remaining : Z;
  lines : list SummaryLine;
}.

#[export] Instance eta_rm : Eta RoundtripMeter := fun m => MkMeter (ports m) (remaining m) (lines m).

Definition new_meter (budget : Z) : RoundtripMeter := MkMeter ∅ budget [].

Definition meter_stats (m : RoundtripMeter) (local_port : Z) : option PortStats :=
  stats <$> ports m !! local_port.

(** [entry(local_port).or_insert_with(...)]. *)
Definition port (m : RoundtripMeter) (local_port : Z) : PortMeter :=
  default (new_port local_port) (ports m !! local_port).

Definition set_port (m : RoundtripMeter) (local_port : Z) (p : PortMeter) : RoundtripMeter :=
  m <| ports := <[local_port := p]> (ports m) |>.

Definition emit (m : RoundtripMeter) (local_port : Z) (reason : SummaryReason) : RoundtripMeter :=
  match ports m !! local_port with
  | None => m
  | Some p =>
      let '(rest, grant) := budget_take (remaining m) in
      let m := m <| remaining := rest |> in
      match grant with
      | Granted => m <| lines := lines m ++ [Build_SummaryLine (stats p) reason false] |>
      | Last => m <| lines := lines m ++ [Build_SummaryLine (stats p) reason true] |>
      | Exhausted => m
      end
  end.

Definition on_queue (m : RoundtripMeter) (local_port count : Z) : RoundtripMeter :=
  let p := port m local_port in
  set_port m local_port (p <| stats := (stats p) <| bytes_queued := bytes_queued (stats p) + count |> |>).

Definition on_segment_sent (m : RoundtripMeter) (local_port sequence count send at_ : Z)
  : RoundtripMeter :=
  if count =? 0 then m else
  let p := port m local_port in
  let st := stats p in
  let st := st <| segments_sent := segments_sent st + 1 |>
               <| bytes_sent := bytes_sent st + count |>
               <| ps_send := Tally.record (ps_send st) (micros send) |> in
  let '(ring, st) :=
    if zlen (unacked p) =? UNACKED_RING
    then (drop 1 (unacked p), st <| unacked_dropped := unacked_dropped st + 1 |>)
    else (unacked p, st) in
  let ring := ring ++ [Build_SentSegment (wrapping_add 32 sequence (wrap 32 count)) (wrap 32 count) at_] in
  let st := st <| unacked_now := wrap 32 (zlen ring) |> in
  set_port m local_port (touch (p <| stats := st |> <| unacked := ring |>) at_).

(** The [while let] loop of [on_ack]: pops the fully acknowledged front. *)
Fixpoint pop_acked (ring : list SentSegment) (st : PortStats) (after at_ : Z)
  : list SentSegment * PortStats :=
  match ring with
  | [] => ([], st)
  | front :: rest =>
      if negb (seq_reached after (seq_end front)) then (front :: rest, st) else
      pop_acked rest
        (st <| bytes_acked := bytes_acked st + seg_bytes front |>
            <| ack := Tally.record (ack st) (micros (since at_ (sent_at front))) |>)
        after at_
  end.

Definition on_ack (m : RoundtripMeter) (local_port before after peer_window at_ : Z)
  : RoundtripMeter :=
  let p := port m local_port in
  let st := (stats p) <| ps_peer_window := peer_window |> in
  if before =? after then set_port m local_port (p <| stats := st |>) else
  let '(ring, st) := pop_acked (unacked p) st after at_ in
  let st := st <| unacked_now := wrap 32 (zlen ring) |> in
  set_port m local_port (touch (p <| stats := st |> <| unacked := ring |>) at_).

Definition tick_summary (m : RoundtripMeter) (local_port at_ : Z) : RoundtripMeter :=
  let p := port m local_port in
  let waits := Z.min (saturating_add 32 (waits_since_summary p) 1) WAITS_PER_SUMMARY in
  let p := p <| waits_since_summary := waits |> in
  let counted := WAITS_PER_SUMMARY <=? waits in
  let rested := match last_summary p with
                | None => true
                | Some last => SUMMARY_MIN_INTERVAL <=? since at_ last
                end in
  let m := set_port m local_port p in
  if counted && rested then
    emit (set_port m local_port (p <| waits_since_summary := 0 |> <| last_summary := Some at_ |>))
      local_port Periodic
  else m.

Definition as_u32 (usable_window : Z) : Z := if usable_window <? 2 ^ 32 then usable_window else 2 ^ 32 - 1.

Definition on_write_wait (m : RoundtripMeter) (local_port waited usable_window in_flight peer_window at_ : Z)
  : RoundtripMeter :=
  let usable := as_u32 usable_window in
  let p := port m local_port in
  let st := (stats p) <| ps_peer_window := peer_window |> in
  let st :=
    if usable =? 0 then
      st <| blocked := Tally.record (blocked st) (micros waited) |>
         <| usable_at_block := usable |>
         <| in_flight_at_block := in_flight |>
         <| in_flight_total_at_block := in_flight_total_at_block st + in_flight |>
    else st <| waited_window_open := Tally.record (waited_window_open st) (micros waited) |> in
  let m := set_port m local_port (touch (p <| stats := st |>) at_) in
  if usable =? 0 then tick_summary m local_port at_ else m.

Definition on_lock_wait (m : RoundtripMeter) (local_port waited : Z) : RoundtripMeter :=
  if waited =? 0 then m else
  let p := port m local_port in
  set_port m local_port
    (p <| stats := (stats p) <| lock_wait := Tally.record (lock_wait (stats p)) (micros waited) |> |>).

Definition on_inbound_wait (m : RoundtripMeter) (local_port waited usable_window in_flight peer_window at_ : Z)
  : RoundtripMeter :=
  if waited =? 0 then m else
  let usable := as_u32 usable_window in
  let p := port m local_port in
  let st := if 0 <? peer_window then (stats p) <| ps_peer_window := peer_window |> else stats p in
  let st :=
    if usable =? 0 then
      st <| inbound_wait_shut := Tally.record (inbound_wait_shut st) (micros waited) |>
         <| usable_at_block := usable |>
         <| in_flight_at_block := in_flight |>
    else st <| inbound_wait_open := Tally.record (inbound_wait_open st) (micros waited) |> in
  let m := set_port m local_port (touch (p <| stats := st |>) at_) in
  if usable =? 0 then tick_summary m local_port at_ else m.

Definition on_close (m : RoundtripMeter) (local_port : Z) : RoundtripMeter :=
  match ports m !! local_port with
  | None => m
  | Some _ =>
      let m := emit m local_port ClosedPort in
      m <| ports := delete local_port (ports m) |>
  end.

(** ** Runs of the meter *)

Inductive meter_op :=
| MQueue (port count : Z)
| MSent (port sequence count send at_ : Z)
| MAck (port before after peer_window at_ : Z)
| MWriteWait (port waited usable in_flight peer_window at_ : Z)
| MLockWait (port waited : Z)
| MInboundWait (port waited usable in_flight peer_window at_ : Z)
| MClose (port : Z).

Definition meter_exec (m : RoundtripMeter) (o : meter_op) : RoundtripMeter :=
  match o with
  | MQueue p n => on_queue m p n
  | MSent p q n d t => on_segment_sent m p q n d t
  | MAck p b a w t => on_ack m p b a w t
  | MWriteWait p d u f w t => on_write_wait m p d u f w t
  | MLockWait p d => on_lock_wait m p d
  | MInboundWait p d u f w t => on_inbound_wait m p d u f w t
  | MClose p => on_close m p
  end.

(** Segment payloads are word-sized counts. *)
Definition meter_op_ok (o : meter_op) : Prop :=
  match o with MSent _ _ n _ _ => u32 n | _ => True end.

Definition ring_bytes (ring : list SentSegment) : Z := foldr Z.add 0 (seg_bytes <$> ring).

(** Conservation for one port: every segment sent is acknowledged, in the ring
    or dropped from it, and the byte counts follow. *)
Record port_ok (p : PortMeter) : Prop := {
  po_ring : zlen (unacked p) <= UNACKED_RING;
  po_now : unacked_now (stats p) = zlen (unacked p);
  po_bytes : Forall (fun g => 0 <= seg_bytes g) (unacked p);
  po_dropped : 0 <= unacked_dropped (stats p);
  po_segments : segments_sent (stats p) =
    Tally.count (ack (stats p)) + zlen (unacked p) + unacked_dropped (stats p);
  po_acked : bytes_acked (stats p) + ring_bytes (unacked p) <= bytes_sent (stats p);
  po_exact : unacked_dropped (stats p) = 0 ->
    bytes_acked (stats p) + ring_bytes (unacked p) = bytes_sent (stats p);
}.

Record budget_ok (budget : Z) (m : RoundtripMeter) : Prop := {
  bo_left : 0 <= remaining m;
  bo_sum : zlen (lines m) + remaining m = budget;
  bo_last : forall i line, lines m !! i = Some line ->
    (line_last line = true <-> Z.of_nat i = budget - 1);
}.

Definition meter_ok (budget : Z) (m : RoundtripMeter) : Prop :=
  map_Forall (fun _ p => port_ok p) (ports m) /\ budget_ok budget m.

Lemma port_ok_new n : port_ok (new_port n).
Proof. by split. Qed.

Lemma port_ok_port m n : map_Forall (fun _ p => port_ok p) (ports m) -> port_ok (port m n).
Proof.
  intros H. unfold port. destruct (ports m !! n) eqn:E; [by eapply H|apply port_ok_new].
Qed.

Lemma meter_ok_set B m n p : meter_ok B m -> port_ok p -> meter_ok B (set_port m n p).
Proof.
  intros [H1 H2] Hp. split; [by apply map_Forall_insert_2|]. destruct H2. by split.
Qed.

Lemma port_ok_touch p t : port_ok p -> port_ok (touch p t).
Proof. intros []. by split. Qed.

Lemma meter_ok_emit B m n r : meter_ok B m -> meter_ok B (emit m n r).
Proof.
  intros [H1 [Hl Hs Hi]]. unfold emit. destruct (ports m !! n) as [p|]; [|by split].
  unfold budget_take. destruct (remaining m =? 0) eqn:Z; [by split|]. bools.
  assert (forall b, (b = true <-> remaining m = 1) ->
    budget_ok B (m <| remaining := remaining m - 1 |>
                   <| lines := lines m ++ [Build_SummaryLine (stats p) r b] |>)) as Hadd.
  { intros b Hb. split; simpl; [lia|zl|]. intros i line [Hlk|[Hge Hlk]]%lookup_app_Some; [by apply Hi|].
    apply list_lookup_singleton_Some in Hlk as [Hz <-]. simpl. rewrite Hb. unfold zlen in *. lia. }
  destruct (remaining m =? 1) eqn:O; bools; (split; [done|]); apply Hadd; naive_solver.
Qed.

Lemma meter_ok_tick B m n t : meter_ok B m -> meter_ok B (tick_summary m n t).
Proof.
  intros H. unfold tick_summary.
  assert (forall w, port_ok ((port m n) <| waits_since_summary := w |>)) as Hw.
  { intros w. destruct (port_ok_port m n (proj1 H)). by split. }
  case_match; [apply meter_ok_emit|]; repeat apply meter_ok_set; auto.
  specialize (Hw 0). destruct Hw. by split.
Qed.

Lemma pop_acked_ok ring st after at_ ring' st' :
  pop_acked ring st after at_ = (ring', st') -> Forall (fun g => 0 <= seg_bytes g) ring ->
  zlen ring' <= zlen ring /\ Forall (fun g => 0 <= seg_bytes g) ring' /\
  Tally.count (ack st') + zlen ring' = Tally.count (ack st) + zlen ring /\
  bytes_acked st' + ring_bytes ring' = bytes_acked st + ring_bytes ring /\
  bytes_sent st' = bytes_sent st /\ segments_sent st' = segments_sent st /\
  unacked_dropped st' = unacked_dropped st /\
  (forall g, head ring' = Some g -> seq_reached after (seq_end g) = false).
Proof.
  revert st. induction ring as [|g ring IH]; intros st; simpl.
  { by intros [= <- <-]. }
  destruct (seq_reached after (seq_end g)) eqn:S; simpl.
  - intros E [Hg Hf]%Forall_cons. apply IH in E as (?&?&Hc&Hb&?&?&?&?); [|done].
    simpl in *. rewrite zlen_cons.
    change (ring_bytes (g :: ring)) with (seg_bytes g + ring_bytes ring). split_and!; try done; lia.
  - intros [= <- <-] ?. split_and!; try done. simpl. congruence.
Qed.

Lemma meter_ok_sent B m n q k d t : u32 k -> meter_ok B m -> meter_ok B (on_segment_sent m n q k d t).
Proof.
  intros Hk H. unfold on_segment_sent. case_match; [done|].
  destruct (port_ok_port m n (proj1 H)) as [R N Fb D S A E].
  rewrite (wrap_small 32 k) by done. unfold in_range in Hk.
  assert (forall ring x, ring_bytes (ring ++ [x]) = ring_bytes ring + seg_bytes x) as Happ.
  { intros ring x. induction ring as [|g ring IH]; [simpl; unfold ring_bytes; simpl; lia|].
    change (ring_bytes ((g :: ring) ++ [x])) with (seg_bytes g + ring_bytes (ring ++ [x])).
    change (ring_bytes (g :: ring)) with (seg_bytes g + ring_bytes ring). lia. }
  assert (forall (l : list SentSegment) x, zlen (l ++ [x]) = zlen l + 1) as Hz by (intros; zl).
  destruct (zlen (unacked (port m n)) =? UNACKED_RING) eqn:F; bools;
    apply meter_ok_set; try done; apply port_ok_touch.
  - destruct (unacked (port m n)) as [|g ring] eqn:U; [done|]. simpl. rewrite drop_0.
    rewrite zlen_cons in *. apply Forall_cons in Fb as [Hg Hring].
    change (ring_bytes (g :: ring)) with (seg_bytes g + ring_bytes ring) in *.
    split; simpl; rewrite ?Happ, ?Hz; simpl; try lia.
    + rewrite wrap_small; [done|]. unfold in_range, UNACKED_RING in *. pose proof (zlen_nonneg ring). lia.
    + apply Forall_app_2; [done|]. constructor; [simpl; lia|constructor].
  - split; simpl; rewrite ?Happ, ?Hz; simpl; try lia.
    + rewrite wrap_small; [done|]. unfold in_range, UNACKED_RING in *.
      pose proof (zlen_nonneg (unacked (port m n))). lia.
    + apply Forall_app_2; [done|]. constructor; [simpl; lia|constructor].
Qed.

Lemma meter_ok_ack B m n b a w t : meter_ok B m -> meter_ok B (on_ack m n b a w t).
Proof.
  intros H. unfold on_ack. destruct (port_ok_port m n (proj1 H)) as [R N Fb D S A E].
  case_match; [apply meter_ok_set; [done|by split]|].
  destruct (pop_acked _ _ _ _) as [ring st] eqn:P.
  apply pop_acked_ok in P as (L&F&C&B1&B2&B3&B4&_); [|done]. simpl in *.
  apply meter_ok_set; [done|]. apply port_ok_touch. split; simpl; try done; try lia.
  - rewrite wrap_small; [done|]. unfold in_range, UNACKED_RING in *. pose proof (zlen_nonneg ring). lia.
Qed.

Lemma meter_ok_exec B m o : meter_op_ok o -> meter_ok B m -> meter_ok B (meter_exec m o).
Proof.
  intros Ho H. pose proof (fun n => port_ok_port m n (proj1 H)) as Hp.
  destruct o as [n k|n q k d t|n b a w t|n d u f w t|n d|n d u f w t|n]; simpl in *.
  - apply meter_ok_set; [done|]. destruct (Hp n). by split.
  - by apply meter_ok_sent.
  - by apply meter_ok_ack.
  - unfold on_write_wait. case_match; [apply meter_ok_tick|]; apply meter_ok_set; try done;
      apply port_ok_touch; destruct (Hp n); by split.
  - unfold on_lock_wait. case_match; [done|]. apply meter_ok_set; [done|]. destruct (Hp n). by split.
  - unfold on_inbound_wait. case_match; [done|].
    repeat case_match; try apply meter_ok_tick; apply meter_ok_set; try done;
      apply port_ok_touch; destruct (Hp n); by split.
  - unfold on_close. destruct (ports m !! n); [|done].
    destruct (meter_ok_emit B m n ClosedPort H) as [H1 []]. split; [|by split].
    simpl. by apply map_Forall_delete.
Qed.

(** ** Property *)

(** The meter's books balance after any sequence of operations.  Per port, every
    segment sent is acknowledged, still in the 64-entry ring, or counted as
    dropped, and the byte counts agree exactly while nothing was dropped.  Over
    all ports, at most [budget] summary lines are ever printed, and the line
    flagged as the last is the one that spends the budget. *)
Theorem meter_balances budget ops :
  0 <= budget -> Forall meter_op_ok ops ->
  meter_ok budget (foldl meter_exec (new_meter budget) ops).
Proof.
  intros Hb Hops.
  assert (meter_ok budget (new_meter budget)) as H by (split; [done|by split]).
  revert H. generalize (new_meter budget).
  induction Hops as [|o ops Ho _ IH]; intros m H; simpl; [done|]. by apply IH, meter_ok_exec.
Qed.

Lemma meter_balances_witness :
  meter_ok 1 (foldl meter_exec (new_meter 1)
    [MQueue 7 100; MSent 7 1000 60 5000 1; MSent 7 1060 40 5000 2; MAck 7 1000 1060 4096 9;
     MClose 7; MQueue 8 1; MClose 8]).
Proof. apply meter_balances; [discriminate|repeat constructor; by_compute]. Defined.
