(* ===== verification/MuxLink.v ===== *)
(** * The mux link (src/src/usbmux/link.rs)

    One bulk pipe shared by every session: version negotiation, packet
    sequencing, demultiplexing of received packets to sessions, flushing of
    their segments, and the blocking open/read/write loops.

    The bulk transport and the clock are the environment: a type class whose
    operations pass the environment state along.  The trace sink is the list of
    events it was handed ([None] without a sink); the packet-level diagnostic
    trace, which nothing reads back, is left out.  A link operation is a
    function from the link to the new link and a result; [None] means that the
    given number of loop iterations did not suffice. *)

From S2P Require Import Prelude MuxFrame MuxTcp MuxTrace MuxSession RoundTrip.
From stdpp Require Import base tactics numbers list gmap.
From Stdlib Require Import ZArith Lia.

Open Scope Z_scope.

Definition FIRST_LOCAL_PORT : Z := 49152.
Definition DEFAULT_RECEIVE_WINDOW : Z := 256 * 1024.

Inductive IoError :=
| TransportError (code : Z)
| ConnectionReset (local_port : Z)
| BrokenPipe (local_port : Z).

(** The bulk transport, with the monotonic clock the loops read. *)
Class BulkTransport (T : Type) := {
  bulk_send : T -> bytes -> T * res IoError unit;
  bulk_recv : T -> Z -> T * res IoError (option bytes);
  bulk_max_packet : T -> Z;
  bulk_send_capacity : T -> option bool;
  bulk_accepted_packets : T -> option Z;
  bulk_device_present : T -> option bool;
  clock_now : T -> T * Z;
}.

Inductive LinkEvent :=
| Idle
| SessionEv (local_port : Z) (event : SessionEvent)
| Unmatched (local_port : Z)
| Other (protocol : Protocol.t)
| Rejected (declared delivered : Z).

Inductive MuxError :=
| MuxIo (error : IoError)
| MuxFrameErr (error : FrameError)
| MuxTcpErr (error : TcpError)
| MuxSessionErr (local_port : Z) (error : SessionError)
| NotNegotiated
| VersionTimedOut (waited : Z)
| SequenceGap (expected received : Z)
| TooLarge (count limit : Z)
| NoSession (local_port : Z)
| HandshakeTimedOut (local_port waited : Z)
| MuxClosed (local_port : Z)
| NoPorts.

Record LinkLiveness := {
  live_received : Z;
  live_rejected : Z;
  live_accepted : option Z;
}.

Record SendState := {
  ss_una : Z; ss_nxt : Z; ss_wnd_edge : Z; ss_epoch : Z;
  ss_peer_window : Z; ss_usable : Z; ss_pending : Z; ss_segments_in : Z;
}.

Record MuxLink (T : Type) := MkLink {
  transport : T;
  version : option MuxVersion.t;
  tx_seq : Z;
  rx_expected : Z;
  sessions : gmap Z MuxSession.t;
  next_local_port : Z;
  lk_receive_window : Z;
  sequence_seed : Z;
  packets_received : Z;
  packets_rejected : Z;
  in_flush : bool;
  trace_sink : option (list TraceEvent);
  roundtrip : RoundtripMeter;
}.
Arguments MkLink {T}.
Arguments transport {T} _.
Arguments version {T} _.
Arguments tx_seq {T} _.
Arguments rx_expected {T} _.
Arguments sessions {T} _.
Arguments next_local_port {T} _.
Arguments lk_receive_window {T} _.
Arguments sequence_seed {T} _.
Arguments packets_received {T} _.
Arguments packets_rejected {T} _.
Arguments in_flush {T} _.
Arguments trace_sink {T} _.
Arguments roundtrip {T} _.

#[export] Instance eta_link T : Eta (MuxLink T) := fun l =>
  MkLink (transport l) (version l) (tx_seq l) (rx_expected l) (sessions l) (next_local_port l)
    (lk_receive_window l) (sequence_seed l) (packets_received l) (packets_rejected l) (in_flush l)
    (trace_sink l) (roundtrip l).

(** ** The link monad *)

Definition M (T A : Type) : Type := MuxLink T -> option (MuxLink T * res MuxError A).

Definition ret {T A} (a : A) : M T A := fun l => Some (l, Ok a).
Definition fail {T A} (e : MuxError) : M T A := fun l => Some (l, Err e).
Definition bind {T A B} (m : M T A) (k : A -> M T B) : M T B := fun l =>
  match m l with
  | Some (l, Ok a) => k a l
  | Some (l, Err e) => Some (l, Err e)
  | Some (l, Panic) => Some (l, Panic)
  | None => None
  end.
Definition get {T} : M T (MuxLink T) := fun l => Some (l, Ok l).
Definition put {T} (f : MuxLink T -> MuxLink T) : M T unit := fun l => Some (f l, Ok tt).
Definition lift {T A} (r : res MuxError A) : M T A := fun l => Some (l, r).
(** The outcome of [m] as a value: what [let x = f(); ...; x?] keeps. *)
Definition attempt {T A} (m : M T A) : M T (res MuxError A) := fun l =>
  match m l with Some (l, r) => Some (l, Ok r) | None => None end.

Declare Scope link_scope.
Notation "x <~ m ; k" := (bind m (fun x => k))
  (at level 100, m at level 99, right associativity) : link_scope.
Notation "m ;; k" := (bind m (fun _ => k)) (at level 100, right associativity) : link_scope.
Open Scope link_scope.

Section Link.
Context {T : Type} `{BulkTransport T}.
Implicit Types (l : MuxLink T).

(** ** Environment calls *)

Definition now : M T Z := fun l =>
  let '(t, at_) := clock_now (transport l) in Some (l <| transport := t |>, Ok at_).

(** [Instant::now() + timeout]: an instant has 63 bits of seconds, and an addition
    that leaves them panics. *)
Definition INSTANT_END : Z := 2 ^ 63 * (1000 * 1000 * 1000).

Definition instant_add (at_ timeout : Z) : res MuxError Z :=
  if at_ + timeout <? INSTANT_END then Ok (at_ + timeout) else Panic.

Definition deadline_after (timeout : Z) : M T Z := at_ <~ now; lift (instant_add at_ timeout).

Definition transport_send (packet : bytes) : M T unit := fun l =>
  let '(t, r) := bulk_send (transport l) packet in
  Some (l <| transport := t |>, map_err MuxIo r).

Definition transport_recv (timeout : Z) : M T (option bytes) := fun l =>
  let '(t, r) := bulk_recv (transport l) timeout in
  Some (l <| transport := t |>, map_err MuxIo r).

Definition trace (ev : TraceEvent) : M T unit :=
  put (fun l => l <| trace_sink := (fun evs => evs ++ [ev]) <$> trace_sink l |>).

Definition meter (f : RoundtripMeter -> RoundtripMeter) : M T unit :=
  put (fun l => l <| roundtrip := f (roundtrip l) |>).

(** Replaces the session on [local_port]. *)
Definition set_session (local_port : Z) (s : MuxSession.t) : M T unit :=
  put (fun l => l <| sessions := <[local_port := s]> (sessions l) |>).

Definition get_session (local_port : Z) : M T MuxSession.t :=
  l <~ get; lift (ok_or (sessions l !! local_port) (NoSession local_port)).

(** ** Construction and queries *)

Definition new_link (t : T) (seed : Z) : MuxLink T :=
  MkLink t None 0 0 ∅ FIRST_LOCAL_PORT DEFAULT_RECEIVE_WINDOW seed 0 0 false None
    (new_meter PROCESS_LINE_BUDGET).

Definition segment_size : M T Z :=
  l <~ get;
  v <~ lift (ok_or (version l) NotNegotiated);
  let ceiling := Z.min (bulk_max_packet (transport l)) MAX_TRANSFER in
  let size := ceiling - MuxVersion.header_len v - TCP_HEADER_LEN in
  if size <? 0 then lift Panic else ret size.

Definition session_state l (local_port : Z) : option SessionState :=
  MuxSession.state <$> sessions l !! local_port.

Definition received_len l (local_port : Z) : Z :=
  from_option MuxSession.received_len 0 (sessions l !! local_port).

Definition received_eof (local_port : Z) : M T bool :=
  session <~ get_session local_port;
  if bool_decide (MuxSession.state session = Closed)
  then fail (MuxIo (ConnectionReset local_port))
  else ret (MuxSession.received_eof session).

Definition send_state l (local_port : Z) : option SendState :=
  (fun s => Build_SendState (MuxSession.snd_una s) (MuxSession.snd_nxt s) (MuxSession.snd_wnd_edge s)
     (MuxSession.send_epoch s) (MuxSession.peer_window s) (MuxSession.usable_window s)
     (MuxSession.pending_sequences s) (MuxSession.segments_in s)) <$> sessions l !! local_port.

Definition liveness l : LinkLiveness :=
  Build_LinkLiveness (packets_received l) (packets_rejected l) (bulk_accepted_packets (transport l)).

(** ** Sending *)

Definition send_packet (protocol : Protocol.t) (payload : bytes) : M T unit :=
  l <~ get;
  v <~ lift (ok_or (version l) NotNegotiated);
  let header_len := MuxVersion.header_len v in
  let total := header_len + zlen payload in
  let limit := Z.min (bulk_max_packet (transport l)) MAX_PACKET in
  if limit <? total then fail (TooLarge total limit) else
  let packet := zeros total in
  let header := MuxHeader.Mk protocol (wrap 32 total) HOST_MAGIC (tx_seq l)
                  (wrapping_sub 16 (rx_expected l) 1) in
  encoded <~ lift (map_err MuxFrameErr (MuxHeader.encode header v packet));
  packet <~ lift (copy_at (snd encoded) header_len payload);
  transport_send packet;;
  if MuxVersion.is_sequenced v
  then put (fun l => l <| tx_seq := wrapping_add 16 (tx_seq l) 1 |>) else ret tt.

Definition send_segment (segment : bytes) : M T unit := send_packet Protocol.Tcp segment.

Definition segment_bytes (segment : Segment.t) : M T bytes :=
  lift (map_err MuxTcpErr (Segment.to_bytes segment)).

(** One turn of [flush]: the segment goes out and the meter is told. *)
Definition flush_turn (local_port : Z) (segment : Segment.t) : M T unit :=
  started <~ now;
  packet <~ segment_bytes segment;
  send_segment packet;;
  (if 0 <? zlen (Segment.payload segment) then
     at_ <~ now;
     meter (fun m => on_segment_sent m local_port (TcpHeader.sequence (Segment.header segment))
                       (zlen (Segment.payload segment)) (since at_ started) at_)
   else ret tt).

(** [flush]: pulls segments until the session has none or the transport is
    full.  Each turn shrinks the session's backlog, so that many turns and one
    more are enough; see [flush_total]. *)
Fixpoint flush_loop (fuel : nat) (local_port : Z) : M T unit :=
  match fuel with
  | O => fun _ => None
  | S fuel =>
      l <~ get;
      if bool_decide (bulk_send_capacity (transport l) = Some false) then ret tt else
      match sessions l !! local_port with
      | None => ret tt
      | Some session =>
          let '(session, next) := MuxSession.next_segment session in
          set_session local_port session;;
          match next with
          | None => ret tt
          | Some segment => flush_turn local_port segment;; flush_loop fuel local_port
          end
      end
  end.

Definition flush_fuel l (local_port : Z) : nat :=
  S (from_option (fun s => Z.to_nat (Run.backlog s)) 0%nat (sessions l !! local_port)).

Definition flush (local_port : Z) : M T unit := fun l =>
  flush_loop (flush_fuel l local_port) local_port l.

(** ** Receiving *)

(** [word(offset)] of [reject_packet]. *)
Definition reject_word (packet : bytes) (offset : Z) : Z :=
  from_option be_val 0 (get_range packet offset (offset + 4)).

Definition reject_packet (error : FrameError) (packet : bytes) : M T LinkEvent :=
  let taken := Z.min (zlen packet) HEADER_LEN_V2 in
  let head := ztake taken packet ++ zeros (HEADER_LEN_V2 - taken) in
  let declared := match error with
                  | LengthMismatch declared _ => declared
                  | Short _ _ | NotVersion _ => reject_word packet 4
                  end in
  put (fun l => l <| packets_rejected := wrapping_add 64 (packets_rejected l) 1 |>);;
  l <~ get;
  trace (TPacketRejected (reject_word packet 0) declared (zlen packet) (reject_word packet 8) head
           (packets_rejected l));;
  ret (Rejected declared (zlen packet)).

(** The tail of [pump]: a TCP payload goes to the session it names. *)
Definition dispatch_tcp (payload : bytes) : M T LinkEvent :=
  tcp <~ lift (map_err MuxTcpErr (TcpHeader.decode payload));
  body <~ lift (slice payload TCP_HEADER_LEN (zlen payload));
  let local_port := TcpHeader.destination_port tcp in
  l <~ get;
  match sessions l !! local_port with
  | None => trace (TUnmatched local_port);; ret (Unmatched local_port)
  | Some session =>
      (if bool_decide (MuxSession.state session = SynSent) && TcpHeader.is_syn_ack tcp
       then trace (TSynAckReceived local_port (TcpHeader.sequence tcp) (TcpHeader.window tcp))
       else ret tt);;
      let una_before := MuxSession.snd_una session in
      let '(session', applied) := MuxSession.on_segment session tcp body in
      set_session local_port session';;
      event <~ lift (map_err (MuxSessionErr local_port) applied);
      at_ <~ now;
      meter (fun m => on_ack m local_port una_before (MuxSession.snd_una session')
                        (TcpHeader.window tcp) at_);;
      match event with
      | EvData count => trace (TReceived local_port count)
      | EvReset => trace (TReset local_port)
      | EvOutOfOrder expected received => trace (TOutOfOrder local_port expected received)
      | EvClosedByFlags flags => trace (TSessionClosedByFlags local_port flags)
      | EvEstablished | EvAcknowledged => ret tt
      end;;
      match event with
      | EvReset | EvClosedByFlags _ => ret (SessionEv local_port event)
      | _ =>
          l <~ get;
          (if in_flush l then ret tt else flush local_port);;
          ret (SessionEv local_port event)
      end
  end.

(** What [pump] does with a packet that is in sequence. *)
Definition dispatch_rest (v : MuxVersion.t) (header : MuxHeader.t) (payload : bytes) : M T LinkEvent :=
  if bool_decide (MuxHeader.protocol header = Protocol.Control) then
    trace (TControlMessage payload
             (if MuxVersion.is_sequenced v then Some (MuxHeader.rx_ack header) else None));;
    ret (Other Protocol.Control)
  else if negb (bool_decide (MuxHeader.protocol header = Protocol.Tcp)) then
    trace (TOtherProtocol (Protocol.wire_value (MuxHeader.protocol header)));;
    ret (Other (MuxHeader.protocol header))
  else dispatch_tcp payload.

(** The middle of [pump]: a framed packet. *)
Definition dispatch_packet (v : MuxVersion.t) (packet : bytes) (header : MuxHeader.t)
    (payload : bytes) : M T LinkEvent :=
  if bool_decide (MuxHeader.protocol header = Protocol.Version) then
    reply <~ lift (map_err MuxFrameErr (VersionPacket.decode packet));
    put (fun l => l <| version := Some (VersionPacket.negotiated reply) |>
                    <| tx_seq := 0 |> <| rx_expected := 0 |>);;
    ret (Other Protocol.Version)
  else
  l <~ get;
  (if MuxVersion.is_sequenced v then
     if negb (MuxHeader.tx_seq header =? rx_expected l) then
       trace (TSequenceGap (rx_expected l) (MuxHeader.tx_seq header));;
       fail (SequenceGap (rx_expected l) (MuxHeader.tx_seq header))
     else put (fun l => l <| rx_expected := wrapping_add 16 (rx_expected l) 1 |>)
   else ret tt);;
  dispatch_rest v header payload.

Definition pump (timeout : Z) : M T LinkEvent :=
  l <~ get;
  v <~ lift (ok_or (version l) NotNegotiated);
  received <~ transport_recv timeout;
  match received with
  | None => ret Idle
  | Some packet =>
      put (fun l => l <| packets_received := wrapping_add 64 (packets_received l) 1 |>);;
      match MuxHeader.decode v packet with
      | Panic => lift Panic
      | Err error => reject_packet error packet
      | Ok header =>
          match MuxHeader.payload header v packet with
          | Panic => lift Panic
          | Err error => reject_packet error packet
          | Ok payload => dispatch_packet v packet header payload
          end
      end
  end.

(** Pumps until the transport is idle. *)
Fixpoint drain_inbound (fuel : nat) (routed : Z) : M T Z :=
  match fuel with
  | O => fun _ => None
  | S fuel =>
      ev <~ pump 0;
      match ev with Idle => ret routed | _ => drain_inbound fuel (routed + 1) end
  end.

Definition route_available (fuel : nat) : M T Z :=
  l <~ get;
  let was := in_flush l in
  put (fun l => l <| in_flush := true |>);;
  result <~ attempt (drain_inbound fuel 0);
  put (fun l => l <| in_flush := was |>);;
  lift result.

(** ** Version negotiation *)

Fixpoint negotiate_loop (fuel : nat) (deadline timeout : Z) : M T MuxVersion.t :=
  match fuel with
  | O => fun _ => None
  | S fuel =>
      at_ <~ now;
      let remaining := since deadline at_ in
      if remaining =? 0 then
        trace (TVersionTimedOut timeout);; fail (VersionTimedOut timeout)
      else
        received <~ transport_recv remaining;
        match received with
        | None => negotiate_loop fuel deadline timeout
        | Some packet =>
            match VersionPacket.decode packet with
            | Panic => lift Panic
            | Err (NotVersion protocol) =>
                trace (TVersionWaitDiscarded protocol (zlen packet));;
                negotiate_loop fuel deadline timeout
            | Err error => fail (MuxFrameErr error)
            | Ok reply =>
                let v := VersionPacket.negotiated reply in
                put (fun l => l <| version := Some v |> <| tx_seq := 0 |> <| rx_expected := 0 |>);;
                size <~ attempt segment_size;
                match size with
                | Panic => lift Panic
                | _ =>
                    trace (TVersionNegotiated v (MuxVersion.header_len v)
                             (match size with Ok size => size | _ => 0 end));;
                    ret v
                end
            end
        end
  end.

Definition negotiate (fuel : nat) (request : VersionRequest.t) (timeout : Z) : M T MuxVersion.t :=
  packet <~ lift (map_err MuxFrameErr (VersionPacket.encode (VersionRequest.packet request)));
  transport_send packet;;
  trace (TVersionSent (VersionRequest.wire_value request) (zlen packet));;
  deadline <~ deadline_after timeout;
  negotiate_loop fuel deadline timeout.

(** ** Opening and closing sessions *)

Definition next_port (port : Z) : Z := if port =? 2 ^ 16 - 1 then FIRST_LOCAL_PORT else port + 1.

(** The body of the [for] loop, [turns] times. *)
Fixpoint scan_ports (turns : nat) (used : gmap Z MuxSession.t) (port : Z) : Z * option Z :=
  match turns with
  | O => (port, None)
  | S turns =>
      if bool_decide (is_Some (used !! port)) then scan_ports turns used (next_port port)
      else (next_port port, Some port)
  end.

Definition allocate_port : M T Z :=
  l <~ get;
  let '(next, found) := scan_ports (Z.to_nat (2 ^ 16 - FIRST_LOCAL_PORT)) (sessions l)
                          (next_local_port l) in
  put (fun l => l <| next_local_port := next |>);;
  lift (ok_or found NoPorts).

Definition next_initial_sequence (port : Z) : M T Z :=
  l <~ get;
  let seed := wrapping_add 32 (wrapping_mul 32 (sequence_seed l) 1664525) 1013904223 in
  put (fun l => l <| sequence_seed := seed |>);;
  ret (Z.lxor seed (Z.shiftl port 16)).

Definition begin_open (remote : Z) : M T Z :=
  port <~ allocate_port;
  size <~ segment_size;
  sequence <~ next_initial_sequence port;
  l <~ get;
  let config := Build_SessionConfig port remote sequence size (lk_receive_window l) in
  let '(session, syn) := MuxSession.open config in
  set_session port session;;
  packet <~ segment_bytes syn;
  send_segment packet;;
  trace (TSynSent port remote sequence);;
  ret port.

Definition finish_open (port remote : Z) : M T unit :=
  flush port;; trace (TSessionEstablished port remote).

Definition forget_session (port : Z) : M T unit :=
  put (fun l => l <| sessions := delete port (sessions l) |>).

Definition abandon_open (port waited : Z) : M T unit :=
  forget_session port;; trace (THandshakeTimedOut port waited).

Fixpoint open_loop (fuel : nat) (port remote deadline timeout : Z) : M T Z :=
  match fuel with
  | O => fun _ => None
  | S fuel =>
      l <~ get;
      match session_state l port with
      | Some Established => finish_open port remote;; ret port
      | Some Closed | None => forget_session port;; fail (MuxClosed port)
      | Some SynSent =>
          at_ <~ now;
          let remaining := since deadline at_ in
          if remaining =? 0 then
            abandon_open port timeout;; fail (HandshakeTimedOut port timeout)
          else pump remaining;; open_loop fuel port remote deadline timeout
      end
  end.

Definition open (fuel : nat) (remote timeout : Z) : M T Z :=
  port <~ begin_open remote;
  deadline <~ deadline_after timeout;
  open_loop fuel port remote deadline timeout.

Definition shutdown_write (port : Z) : M T unit :=
  session <~ get_session port;
  let '(session, r) := MuxSession.shutdown_write session in
  set_session port session;;
  lift (map_err (MuxSessionErr port) r);;
  flush port.

Definition close (port : Z) : M T unit :=
  l <~ get;
  match sessions l !! port with
  | None => ret tt
  | Some session =>
      if MuxSession.orderly_closed session then
        forget_session port;; meter (fun m => on_close m port)
      else
        let '(_, segment) := MuxSession.close session in
        forget_session port;; meter (fun m => on_close m port);;
        packet <~ segment_bytes segment;
        send_segment packet
  end.

(** ** Reading *)

(** [out] is the caller's buffer; the result carries it as filled. *)
Definition take_received (port : Z) (out : bytes) : M T (Z * bytes) :=
  if zlen out =? 0 then ret (0, out) else
  session <~ get_session port;
  let '(session, (taken, out)) := MuxSession.take_received session out in
  (if 0 <? taken then set_session port (MuxSession.request_ack session);; flush port
   else set_session port session);;
  ret (taken, out).

Fixpoint read_loop (fuel : nat) (port : Z) (out : bytes) (deadline : Z) : M T (Z * bytes) :=
  match fuel with
  | O => fun _ => None
  | S fuel =>
      r <~ take_received port out;
      if 0 <? fst r then ret r else
      eof <~ received_eof port;
      if (eof : bool) then ret (0, out) else
      at_ <~ now;
      let remaining := since deadline at_ in
      if remaining =? 0 then ret (0, out) else
      pump remaining;; read_loop fuel port out deadline
  end.

Definition read (fuel : nat) (port : Z) (out : bytes) (timeout : Z) : M T (Z * bytes) :=
  if zlen out =? 0 then ret (0, out) else
  deadline <~ deadline_after timeout; read_loop fuel port out deadline.

(** ** Writing *)

(** What [write] and [queue_write] do first. *)
Definition enqueue (port : Z) (data : bytes) : M T unit :=
  session <~ get_session port;
  if negb (MuxSession.can_write session) then fail (MuxIo (BrokenPipe port)) else
  set_session port (MuxSession.queue session data);;
  meter (fun m => on_queue m port (zlen data)).

Definition pending_write (port : Z) : M T Z :=
  flush port;;
  session <~ get_session port;
  if negb (bool_decide (MuxSession.state session = Established)) then fail (MuxClosed port)
  else ret (MuxSession.pending_len session).

Definition queue_write (port : Z) (data : bytes) : M T Z := enqueue port data;; pending_write port.

Fixpoint write_loop (fuel : nat) (port wanted deadline : Z) : M T Z :=
  match fuel with
  | O => fun _ => None
  | S fuel =>
      session <~ get_session port;
      let before := MuxSession.pending_len session in
      flush port;;
      session <~ get_session port;
      if negb (bool_decide (MuxSession.state session = Established)) then fail (MuxClosed port) else
      let outstanding := MuxSession.pending_len session in
      if outstanding =? 0 then ret wanted else
      let usable := MuxSession.usable_window session in
      let in_flight := MuxSession.in_flight session in
      let peer := MuxSession.peer_window session in
      at_ <~ now;
      let remaining := since deadline at_ in
      if remaining =? 0 then ret (wanted - Z.min outstanding wanted) else
      if (outstanding <? before) && (0 <? usable) then
        drain_inbound fuel 0;; write_loop fuel port wanted deadline
      else
        started <~ now;
        pumped <~ attempt (pump remaining);
        ended <~ now;
        at_ <~ now;
        meter (fun m => on_write_wait m port (since ended started) usable in_flight peer at_);;
        lift pumped;;
        write_loop fuel port wanted deadline
  end.

Definition write (fuel : nat) (port : Z) (data : bytes) (timeout : Z) : M T Z :=
  enqueue port data;;
  deadline <~ deadline_after timeout;
  write_loop fuel port (zlen data) deadline.

(** ** Recovery *)

Definition probe_window (port : Z) : M T bool :=
  session <~ get_session port;
  let '(session, probed) := MuxSession.probe_window session in
  set_session port session;;
  if negb probed then ret false else flush port;; ret true.

Definition retransmit_unacknowledged (port : Z) : M T bool :=
  l <~ get;
  if bool_decide (bulk_send_capacity (transport l) = Some false) then ret false else
  session <~ get_session port;
  match MuxSession.retransmit_unacknowledged session with
  | None => probe_window port
  | Some segment =>
      let outer := match version l with
                   | Some v => if MuxVersion.is_sequenced v then Some (tx_seq l) else None
                   | None => None
                   end in
      packet <~ segment_bytes segment;
      send_segment packet;;
      trace (TRetransmitted port (TcpHeader.sequence (Segment.header segment))
               (zlen (Segment.payload segment)) outer);;
      ret true
  end.

Definition record_wait (port for_link for_inbound : Z) : M T unit :=
  l <~ get;
  let '(usable, in_flight, peer) :=
    match sessions l !! port with
    | None => (0, 0, 0)
    | Some s => (MuxSession.usable_window s, MuxSession.in_flight s, MuxSession.peer_window s)
    end in
  meter (fun m => on_lock_wait m port for_link);;
  at_ <~ now;
  meter (fun m => on_inbound_wait m port for_inbound usable in_flight peer at_).

End Link.
