(* ===== verification/LinkSafety.v ===== *)
(** * The link invariant, and that every link operation keeps it

    What is assumed of the bulk transport and of the clock (two type classes),
    the invariant of a link, and a small program logic, [safe m Q]: from a link
    that satisfies the invariant [m] does not panic, keeps the invariant and
    returns a value in [Q].  [link_op] lists the public operations. *)

From S2P Require Import Prelude MuxFrame MuxTcp MuxTrace MuxSession RoundTrip MuxLink.
From stdpp Require Import base tactics numbers list gmap relations.
From Stdlib Require Import ZArith Lia.

Open Scope Z_scope.
Open Scope link_scope.

(** ** What is assumed of the environment *)

(** A transfer has room for a header and a byte of data, what arrives is bytes,
    and a transport call returns. *)
Class LawfulTransport (T : Type) `{BulkTransport T} : Prop := {
  max_packet_room : forall t, HEADER_LEN_V2 + TCP_HEADER_LEN < bulk_max_packet t;
  recv_bytes : forall t d p, snd (bulk_recv t d) = Ok (Some p) -> is_bytes p;
  recv_returns : forall t d, snd (bulk_recv t d) <> Panic;
  send_returns : forall t p, snd (bulk_send t p) <> Panic;
}.

(** The clock has read less than half of the range of an instant. *)
Class ClockRange (T : Type) `{BulkTransport T} : Prop := {
  clock_range : forall t, snd (clock_now t) < 2 ^ 62 * (1000 * 1000 * 1000);
}.

(** A timeout of no more than the other half. *)
Definition timeout_ok (timeout : Z) : Prop := 0 <= timeout <= 2 ^ 62 * (1000 * 1000 * 1000).

(** The monotonic clock: a reading is never before the last one, and a receive
    takes time. *)
Class SteadyClock (T : Type) `{BulkTransport T} := {
  time : T -> Z;
  time_now : forall t, time t <= snd (clock_now t) <= time (fst (clock_now t));
  time_send : forall t p, time t <= time (fst (bulk_send t p));
  time_recv : forall t d, time t < time (fst (bulk_recv t d));
}.

(** ** The link invariant *)

Definition session_ok (port : Z) (s : MuxSession.t) : Prop :=
  local_port (MuxSession.config s) = port /\ Run.ranges s.

Record link_ok {T} (l : MuxLink T) : Prop := {
  lo_tx : u16 (tx_seq l);
  lo_rx : u16 (rx_expected l);
  lo_port : FIRST_LOCAL_PORT <= next_local_port l < 2 ^ 16;
  lo_window : u32 (lk_receive_window l);
  lo_seed : u32 (sequence_seed l);
  lo_sessions : map_Forall session_ok (sessions l);
}.

(** [m] keeps the invariant, never panics, and its value satisfies [Q]. *)
Definition safe {T A} (m : M T A) (Q : A -> Prop) : Prop :=
  forall l, link_ok l ->
  match m l with
  | Some (l', Ok a) => link_ok l' /\ Q a
  | Some (l', Err _) => link_ok l'
  | Some (_, Panic) => False
  | None => True
  end.

Create HintDb link.

Section Safety.
Context {T : Type} `{LawfulTransport T}.
Implicit Types (l : MuxLink T).

Lemma safe_bind {A B} (m : M T A) (k : A -> M T B) Q R :
  safe m Q -> (forall a, Q a -> safe (k a) R) -> safe (bind m k) R.
Proof.
  intros Hm Hk l Hl. unfold bind. specialize (Hm l Hl).
  destruct (m l) as [[l' [a|e|]]|]; try done. destruct Hm as [Hl' Ha]. by apply Hk.
Qed.

Lemma safe_weaken {A} (m : M T A) (Q R : A -> Prop) : (forall a, Q a -> R a) -> safe m Q -> safe m R.
Proof. intros HQ Hm l Hl. specialize (Hm l Hl). destruct (m l) as [[l' [a|e|]]|]; naive_solver. Qed.

Lemma safe_ret {A} (a : A) (Q : A -> Prop) : Q a -> safe (T := T) (ret a) Q.
Proof. by intros ? l Hl. Qed.

Lemma safe_fail {A} e (Q : A -> Prop) : safe (T := T) (fail e) Q.
Proof. by intros l Hl. Qed.

Lemma safe_get (Q : MuxLink T -> Prop) : (forall l, link_ok l -> Q l) -> safe get Q.
Proof. intros HQ l Hl. split; auto. Qed.

Lemma safe_put (f : MuxLink T -> MuxLink T) (Q : unit -> Prop) :
  Q tt -> (forall l, link_ok l -> link_ok (f l)) -> safe (put f) Q.
Proof. intros ? Hf l Hl. split; auto. Qed.

Lemma safe_lift {A} (r : res MuxError A) (Q : A -> Prop) :
  r <> Panic -> (forall a, r = Ok a -> Q a) -> safe (T := T) (lift r) Q.
Proof. intros Hr HQ l Hl. unfold lift. destruct r; naive_solver. Qed.

Lemma safe_none {A} (Q : A -> Prop) : safe (T := T) (fun _ => None) Q.
Proof. by intros l Hl. Qed.

Lemma safe_attempt {A} (m : M T A) Q :
  safe m Q -> safe (attempt m) (fun r => r <> Panic /\ forall a, r = Ok a -> Q a).
Proof.
  intros Hm l Hl. unfold attempt. specialize (Hm l Hl).
  destruct (m l) as [[l' [a|e|]]|]; naive_solver.
Qed.

Lemma link_ok_meter l f : link_ok l -> link_ok (l <| roundtrip := f |>).
Proof. by intros []. Qed.

Lemma safe_meter f (Q : unit -> Prop) : Q tt -> safe (T := T) (meter f) Q.
Proof. intros. apply safe_put; [done|]. intros. by apply link_ok_meter. Qed.

Lemma safe_trace ev (Q : unit -> Prop) : Q tt -> safe (T := T) (trace ev) Q.
Proof. intros. apply safe_put; [done|]. by intros ? []. Qed.

Lemma safe_now (Q : Z -> Prop) : (forall z, Q z) -> safe (T := T) now Q.
Proof. intros HQ l []. unfold now. by destruct (clock_now _). Qed.

Lemma safe_set_session port s (Q : unit -> Prop) :
  Q tt -> session_ok port s -> safe (T := T) (set_session port s) Q.
Proof.
  intros. apply safe_put; [done|]. intros ? []. split; try done. simpl.
  by apply map_Forall_insert_2.
Qed.

Lemma safe_get_session port : safe (T := T) (get_session port) (session_ok port).
Proof.
  intros l Hl. unfold get_session, bind, get, lift, ok_or.
  destruct (sessions l !! port) eqn:E; [|done]. split; [done|]. by apply (lo_sessions l Hl).
Qed.

Lemma session_lookup_ok l port s : link_ok l -> sessions l !! port = Some s -> session_ok port s.
Proof. intros []. by apply lo_sessions0. Qed.

Lemma safe_transport_send p (Q : unit -> Prop) : Q tt -> safe (T := T) (transport_send p) Q.
Proof.
  intros HQ l Hl. unfold transport_send. pose proof (send_returns (transport l) p).
  destruct (bulk_send _ p) as [t [[]|e|]]; try done; simpl; by destruct Hl.
Qed.

Lemma safe_transport_recv d :
  safe (T := T) (transport_recv d) (fun o => forall p, o = Some p -> is_bytes p).
Proof.
  intros l Hl. unfold transport_recv. pose proof (recv_returns (transport l) d).
  pose proof (recv_bytes (transport l) d).
  destruct (bulk_recv _ d) as [t [o|e|]]; try done; simpl in *; destruct Hl; [|done].
  split; [done|]. intros p ->. by eauto.
Qed.

(** *** Sending *)

Lemma version_header_len v : 8 <= MuxVersion.header_len v <= HEADER_LEN_V2.
Proof. by destruct v. Qed.

Lemma safe_segment_size : safe (T := T) segment_size (fun size => 1 <= size).
Proof.
  intros l Hl. unfold segment_size, bind, get, lift, ok_or, ret.
  destruct (version l) as [v|]; [|done]. pose proof (max_packet_room (transport l)).
  pose proof (version_header_len v). unfold HEADER_LEN_V2, TCP_HEADER_LEN, MAX_TRANSFER in *.
  destruct (_ <? 0) eqn:?; bools; [lia|]. split; [done|lia].
Qed.

(** The packet [send_packet] hands to the transport. *)
Definition packet_of (v : MuxVersion.t) (protocol : Protocol.t) (tx rx : Z) (payload : bytes) : bytes :=
  HeaderFacts.header_bytes v
    (MuxHeader.Mk protocol (wrap 32 (MuxVersion.header_len v + zlen payload)) HOST_MAGIC tx
       (wrapping_sub 16 rx 1)) ++ payload.

Lemma packet_build v h payload :
  exists n packet, MuxHeader.encode h v (zeros (MuxVersion.header_len v + zlen payload)) = Ok (n, packet) /\
    copy_at (E := MuxError) packet (MuxVersion.header_len v) payload =
      Ok (HeaderFacts.header_bytes v h ++ payload).
Proof.
  pose proof (version_header_len v). pose proof (zlen_nonneg payload).
  rewrite HeaderFacts.encode_eq, (proj2 (Z.ltb_ge _ _)) by zl. do 2 eexists. split; [done|].
  rewrite copy_at_prefix; [|by rewrite HeaderFacts.zlen_header_bytes|zl].
  rewrite zdrop_zdrop, zdrop_all by zl. by rewrite app_nil_r.
Qed.

(** [send_packet] unfolded: one packet, then the sequence number moves. *)
Lemma send_packet_eq protocol payload l :
  send_packet protocol payload l =
    match version l with
    | None => Some (l, Err NotNegotiated)
    | Some v =>
        let total := MuxVersion.header_len v + zlen payload in
        let limit := Z.min (bulk_max_packet (transport l)) MAX_PACKET in
        if limit <? total then Some (l, Err (TooLarge total limit)) else
        let '(t, r) := bulk_send (transport l)
                         (packet_of v protocol (tx_seq l) (rx_expected l) payload) in
        let l := l <| transport := t |> in
        match r with
        | Ok _ => Some (if MuxVersion.is_sequenced v
                        then l <| tx_seq := wrapping_add 16 (tx_seq l) 1 |> else l, Ok tt)
        | Err e => Some (l, Err (MuxIo e))
        | Panic => Some (l, Panic)
        end
    end.
Proof.
  unfold send_packet, bind, get, lift, ok_or. destruct (version l) as [v|]; [|done].
  cbv zeta. destruct (_ <? _); [done|].
  destruct (packet_build v (MuxHeader.Mk protocol (wrap 32 (MuxVersion.header_len v + zlen payload))
    HOST_MAGIC (tx_seq l) (wrapping_sub 16 (rx_expected l) 1)) payload) as (n&p&E1&E2).
  rewrite E1. simpl. rewrite E2. unfold transport_send. fold (packet_of v protocol (tx_seq l) (rx_expected l) payload).
  destruct (bulk_send _ _) as [t [[]|e|]]; simpl; try done. by destruct (MuxVersion.is_sequenced v).
Qed.

Lemma safe_send_packet protocol payload (Q : unit -> Prop) :
  Q tt -> safe (T := T) (send_packet protocol payload) Q.
Proof.
  intros HQ l Hl. rewrite send_packet_eq. destruct (version l) as [v|]; [|done]. cbv zeta.
  destruct (_ <? _); [done|]. pose proof (send_returns (transport l)
    (packet_of v protocol (tx_seq l) (rx_expected l) payload)).
  destruct (bulk_send _ _) as [t [[]|e|]]; try done; destruct Hl; [|done].
  split; [|done]. destruct (MuxVersion.is_sequenced v); split; simpl; try done.
  apply wrap_range; lia.
Qed.

Lemma safe_segment_bytes seg (Q : bytes -> Prop) :
  (forall p, Q p) -> safe (T := T) (segment_bytes seg) Q.
Proof. intros. unfold segment_bytes. rewrite to_bytes_eq. by apply safe_lift. Qed.

End Safety.

Lemma safe_seq {T A B} (m : M T A) (k : A -> M T B) R :
  safe m (fun _ => True) -> (forall a, safe (k a) R) -> safe (bind m k) R.
Proof. intros Hm Hk. eapply safe_bind; [exact Hm|auto]. Qed.

#[export] Hint Resolve safe_ret safe_fail safe_none safe_meter safe_trace safe_now
  safe_set_session safe_transport_send safe_send_packet safe_segment_bytes : link.

(** Walks a link operation, leaving the obligations it cannot discharge. *)
Ltac walk1 :=
  lazymatch goal with
  | |- safe (bind get _) _ =>
      let Hl := fresh "Hl" in eapply safe_bind; [apply safe_get; intros ? Hl; exact Hl|cbv beta]
  | |- safe (bind (get_session _) _) _ => eapply safe_bind; [apply safe_get_session|cbv beta]
  | |- safe (bind segment_size _) _ => eapply safe_bind; [apply safe_segment_size|cbv beta]
  | |- safe (bind (transport_recv _) _) _ => eapply safe_bind; [apply safe_transport_recv|cbv beta]
  | |- safe (bind (attempt _) _) _ => fail
  | |- safe (bind (lift _) _) _ => fail
  | |- safe (bind _ _) _ => apply safe_seq
  | |- safe (if ?b then _ else _) _ => destruct b eqn:?
  | |- safe (match ?o with Some _ => _ | None => _ end) _ => destruct o eqn:?
  | |- safe _ _ => solve [eauto 3 with link | unfold send_segment; eauto 3 with link]
  end.
Ltac walk := repeat (intros; cbv beta zeta; walk1); intros; cbv beta zeta.

(** *** Session steps under the link *)

Lemma session_ok_next port s : session_ok port s -> session_ok port (fst (MuxSession.next_segment s)).
Proof.
  intros [Hp Hr]. split; [|by apply Run.ranges_next].
  unfold MuxSession.next_segment. repeat (case_match; simpl; try done).
Qed.

Lemma session_ok_segment port s h payload :
  session_ok port s -> TcpFacts.wf h -> session_ok port (fst (MuxSession.on_segment s h payload)).
Proof.
  intros [Hp Hr] Hh. split; [by rewrite Run.on_segment_config|by apply Run.ranges_on_segment].
Qed.

Lemma session_ok_open c : Inv.config_ok c -> session_ok (local_port c) (fst (MuxSession.open c)).
Proof.
  intros Hc. split; [done|]. destruct Hc as (?&?&?&?&?). split_and!; simpl; try done.
Qed.

Lemma session_ok_queue port s data : session_ok port s -> session_ok port (MuxSession.queue s data).
Proof. done. Qed.

Lemma session_ok_take port s out :
  session_ok port s -> session_ok port (fst (MuxSession.take_received s out)).
Proof. done. Qed.

Lemma session_ok_request port s : session_ok port s -> session_ok port (MuxSession.request_ack s).
Proof. unfold MuxSession.request_ack. by case_match. Qed.

Lemma session_ok_probe port s : session_ok port s -> session_ok port (fst (MuxSession.probe_window s)).
Proof. unfold MuxSession.probe_window. by repeat case_match. Qed.

Lemma session_ok_shutdown port s :
  session_ok port s -> session_ok port (fst (MuxSession.shutdown_write s)).
Proof. unfold MuxSession.shutdown_write. by case_match. Qed.

#[export] Hint Resolve session_ok_next session_ok_segment session_ok_queue session_ok_take
  session_ok_request session_ok_probe session_ok_shutdown : link.

Section Operations.
Context {T : Type} `{LawfulTransport T}.
Implicit Types (l : MuxLink T).

Lemma safe_flush_turn port seg (Q : unit -> Prop) : Q tt -> safe (T := T) (flush_turn port seg) Q.
Proof. intros. unfold flush_turn. walk. Qed.

#[local] Hint Resolve safe_flush_turn : link.

Lemma safe_flush_loop fuel port (Q : unit -> Prop) : Q tt -> safe (T := T) (flush_loop fuel port) Q.
Proof.
  intros HQ. induction fuel as [|fuel IH]; simpl; [apply safe_none|].
  eapply safe_bind; [apply safe_get; intros ? Hl; exact Hl|]. intros l Hl.
  case_bool_decide; [by apply safe_ret|].
  destruct (sessions l !! port) as [s|] eqn:E; [|by apply safe_ret].
  pose proof (session_ok_next _ _ (session_lookup_ok _ _ _ Hl E)) as Hs.
  destruct (MuxSession.next_segment s) as [s' [seg|]]; walk.
Qed.

Lemma safe_flush port (Q : unit -> Prop) : Q tt -> safe (T := T) (flush port) Q.
Proof. intros HQ l Hl. by apply safe_flush_loop. Qed.

#[local] Hint Resolve safe_flush : link.

Lemma safe_reject_packet e p (Q : LinkEvent -> Prop) :
  (forall d n, Q (Rejected d n)) -> safe (T := T) (reject_packet e p) Q.
Proof.
  intros HQ. unfold reject_packet. eapply safe_bind.
  { apply (safe_put _ (fun _ => True)); [done|]. intros ? []. by split. }
  walk.
Qed.

Lemma map_err_panic {E F A} (f : E -> F) (r : res E A) : map_err f r = Panic <-> r = Panic.
Proof. by destruct r. Qed.

Lemma map_err_ok {E F A} (f : E -> F) (r : res E A) a : map_err f r = Ok a <-> r = Ok a.
Proof. destruct r; simpl; split; congruence. Qed.

Lemma safe_lift_err {E A} (f : E -> MuxError) (r : res E A) :
  no_panic r -> safe (T := T) (lift (map_err f r)) (fun a => r = Ok a).
Proof.
  intros Hr. apply safe_lift; [by rewrite map_err_panic|]. intros a. by rewrite map_err_ok.
Qed.

Lemma safe_dispatch_tcp payload : is_bytes payload -> safe (T := T) (dispatch_tcp payload) (fun _ => True).
Proof.
  intros Hb. unfold dispatch_tcp.
  eapply safe_bind; [by apply safe_lift_err, TcpFacts.tcp_decode_no_panic|].
  intros tcp D. cbv beta in D. destruct (TcpFacts.tcp_decode_some _ _ Hb D) as (Hlen&Hwf&_).
  rewrite slice_ok by (done || lia). eapply safe_bind; [by apply (safe_lift _ (fun _ => True))|].
  intros body _. cbv zeta. eapply safe_bind; [apply safe_get; intros ? Hl; exact Hl|]. intros l Hl.
  destruct (sessions l !! _) as [s|] eqn:E; [|by walk].
  pose proof (session_ok_segment _ _ tcp body (session_lookup_ok _ _ _ Hl E) Hwf) as Hs.
  pose proof (Run.on_segment_no_panic s tcp body).
  eapply (safe_bind _ _ (fun _ => True)); [by walk|]. intros _ _.
  destruct (MuxSession.on_segment s tcp body) as [s' applied]. simpl in *.
  eapply (safe_bind _ _ (fun _ => True)); [by walk|]. intros _ _.
  eapply safe_bind; [by apply safe_lift_err|]. intros ev _.
  eapply (safe_bind _ _ (fun _ => True)); [by walk|]. intros at_ _.
  eapply (safe_bind _ _ (fun _ => True)); [by walk|]. intros _ _.
  eapply (safe_bind _ _ (fun _ => True)); [destruct ev; by walk|]. intros _ _.
  destruct ev; walk.
Qed.

Lemma safe_reset_version v (Q : unit -> Prop) :
  Q tt ->
  safe (T := T) (put (fun l => l <| version := Some v |> <| tx_seq := 0 |> <| rx_expected := 0 |>)) Q.
Proof. intros. apply safe_put; [done|]. intros ? []. by split. Qed.

#[local] Hint Resolve safe_reset_version safe_reject_packet safe_dispatch_tcp : link.

Lemma safe_dispatch_rest v header payload :
  is_bytes payload -> safe (T := T) (dispatch_rest v header payload) (fun _ => True).
Proof. intros Hb. unfold dispatch_rest. walk. Qed.

#[local] Hint Resolve safe_dispatch_rest : link.

Lemma safe_dispatch_packet v packet header payload :
  is_bytes payload -> safe (T := T) (dispatch_packet v packet header payload) (fun _ => True).
Proof.
  intros Hb. unfold dispatch_packet. destruct (bool_decide _).
  { eapply safe_bind; [apply safe_lift_err, HeaderFacts.version_decode_no_panic|]. walk. }
  walk. apply safe_put; [done|]. intros ? []. split; try done. apply wrap_range; lia.
Qed.

Lemma safe_pump timeout : safe (T := T) (pump timeout) (fun _ => True).
Proof.
  unfold pump. walk1. intros l Hl. eapply (safe_seq (lift _)).
  { apply safe_lift; [|done]. by destruct (version l). }
  intros v. walk1. intros received Hr. destruct received as [packet|]; [|by walk].
  apply safe_seq. { apply safe_put; [done|]. intros ? []. by split. }
  intros _. pose proof (HeaderFacts.decode_no_panic v packet).
  destruct (MuxHeader.decode v packet) as [h|e|]; [|by walk|done].
  pose proof (HeaderFacts.payload_no_panic h v packet).
  destruct (MuxHeader.payload h v packet) as [p|e|] eqn:P; [|by walk|done].
  apply safe_dispatch_packet. apply HeaderFacts.payload_some in P as ->. auto with isbytes.
Qed.

#[local] Hint Resolve safe_pump : link.

Lemma safe_drain fuel n : safe (T := T) (drain_inbound fuel n) (fun _ => True).
Proof. revert n. induction fuel; intros n; simpl; [by walk|]. walk. case_match; walk. Qed.

#[local] Hint Resolve safe_drain : link.

Lemma safe_in_flush b : safe (T := T) (put (fun l => l <| in_flush := b |>)) (fun _ => True).
Proof. apply safe_put; [done|]. intros ? []. by split. Qed.

#[local] Hint Resolve safe_in_flush : link.

Lemma safe_route_available fuel : safe (T := T) (route_available fuel) (fun _ => True).
Proof.
  unfold route_available. walk. eapply safe_bind; [apply safe_attempt, safe_drain|].
  intros r [Hr _]. walk. by apply safe_lift.
Qed.

Lemma safe_deadline `{!ClockRange T} timeout : timeout_ok timeout -> safe (T := T) (deadline_after timeout) (fun _ => True).
Proof.
  intros Ht l Hl. unfold deadline_after, bind, now, lift. pose proof (clock_range (transport l)) as Hc. pose proof (safe_now (fun _ => True) (fun _ => I) l Hl) as Hn.
  unfold now in Hn. destruct (clock_now (transport l)) as [t at_]. cbn [snd] in Hc. unfold instant_add, timeout_ok, INSTANT_END in *.
  rewrite (proj2 (Z.ltb_lt _ _)) by lia. exact Hn.
Qed.
#[local] Opaque deadline_after.

Lemma safe_negotiate_loop fuel deadline timeout :
  safe (T := T) (negotiate_loop fuel deadline timeout) (fun _ => True).
Proof.
  induction fuel; simpl; [by walk|]. walk.
  pose proof (HeaderFacts.version_decode_no_panic l).
  destruct (VersionPacket.decode l) as [reply|[]|]; walk; [|done].
  eapply safe_bind; [apply safe_attempt, safe_segment_size|]. intros r [Hr _]. destruct r; walk. done.
Qed.

Lemma safe_negotiate `{!ClockRange T} fuel request timeout :
  timeout_ok timeout -> safe (T := T) (negotiate fuel request timeout) (fun _ => True).
Proof.
  intros Ht. unfold negotiate. apply safe_seq.
  { eapply safe_weaken; [|apply safe_lift_err]; [done|]. unfold no_panic, VersionPacket.encode.
    done. }
  walk; first [by apply safe_deadline | apply safe_negotiate_loop].
Qed.

(** *** Ports *)

Lemma next_port_range p : FIRST_LOCAL_PORT <= p < 2 ^ 16 -> FIRST_LOCAL_PORT <= next_port p < 2 ^ 16.
Proof. unfold next_port, FIRST_LOCAL_PORT. case_match; bools; lia. Qed.

Lemma scan_ports_range turns used p :
  FIRST_LOCAL_PORT <= p < 2 ^ 16 ->
  FIRST_LOCAL_PORT <= fst (scan_ports turns used p) < 2 ^ 16 /\
  forall q, snd (scan_ports turns used p) = Some q ->
    FIRST_LOCAL_PORT <= q < 2 ^ 16 /\ used !! q = None.
Proof.
  revert p. induction turns as [|n IH]; intros p Hp; simpl; [done|].
  case_bool_decide as U; [by apply IH, next_port_range|]. simpl. split; [by apply next_port_range|].
  intros q [= <-]. split; [done|]. by apply eq_None_not_Some.
Qed.

(** The [k]-th port after [p] in the cycle. *)
Definition port_at (p k : Z) : Z :=
  FIRST_LOCAL_PORT + (p - FIRST_LOCAL_PORT + k) mod (2 ^ 16 - FIRST_LOCAL_PORT).

Lemma port_at_next p k :
  FIRST_LOCAL_PORT <= p < 2 ^ 16 -> 0 <= k -> port_at (next_port p) k = port_at p (k + 1).
Proof.
  unfold port_at, next_port, FIRST_LOCAL_PORT. intros. case_match; bools; subst; f_equal.
  - rewrite <- (Z_mod_plus_full (49152 - 49152 + k) 1). f_equal; lia.
  - f_equal; lia.
Qed.

Lemma scan_ports_none turns used p k :
  FIRST_LOCAL_PORT <= p < 2 ^ 16 -> snd (scan_ports turns used p) = None ->
  0 <= k < Z.of_nat turns -> is_Some (used !! port_at p k).
Proof.
  revert p k. induction turns as [|n IH]; intros p k Hp; [lia|]. simpl.
  case_bool_decide as U; [|done]. intros Hs Hk. destruct (decide (k = 0)) as [->|].
  - unfold port_at. rewrite Z.add_0_r, Z.mod_small by (unfold FIRST_LOCAL_PORT in *; lia).
    by replace (FIRST_LOCAL_PORT + (p - FIRST_LOCAL_PORT)) with p by lia.
  - replace k with ((k - 1) + 1) by lia. rewrite <- port_at_next by lia.
    apply IH; [by apply next_port_range|done|lia].
Qed.

Lemma safe_allocate_port :
  safe (T := T) allocate_port (fun p => FIRST_LOCAL_PORT <= p < 2 ^ 16).
Proof.
  intros l Hl. unfold allocate_port, bind, get, put, lift, ok_or.
  destruct (scan_ports_range (Z.to_nat (2 ^ 16 - FIRST_LOCAL_PORT)) (sessions l) _ (lo_port l Hl))
    as [H1 H2].
  destruct (scan_ports _ _ _) as [next [q|]]; simpl in *; destruct Hl; [|done].
  split; [done|]. by apply H2.
Qed.

Lemma lxor_range w x y : 0 < w -> in_range w x -> in_range w y -> in_range w (Z.lxor x y).
Proof.
  intros Hw [Hx Hx'] [Hy Hy']. split; [by apply Z.lxor_nonneg|].
  destruct (decide (Z.lxor x y = 0)) as [->|Hn]; [lia|].
  pose proof (proj2 (Z.lxor_nonneg x y)) as Hp. specialize (Hp (conj (fun _ => Hy) (fun _ => Hx))).
  apply Z.log2_lt_pow2; [lia|]. pose proof (Z.log2_lxor x y Hx Hy).
  assert (forall z, 0 <= z < 2 ^ w -> Z.log2 z < w) as L.
  { intros z [Hz Hz']. destruct (decide (z = 0)) as [->|]; [simpl; lia|].
    apply Z.log2_lt_pow2; lia. }
  pose proof (L x). pose proof (L y). lia.
Qed.

Lemma safe_next_initial_sequence p :
  u16 p -> safe (T := T) (next_initial_sequence p) (fun x => u32 x).
Proof.
  intros Hp l Hl. unfold next_initial_sequence, bind, get, put, ret.
  set (seed := wrapping_add _ _ _). assert (u32 seed) as Hs by (apply wrap_range; lia).
  split; [destruct Hl; by split|]. apply lxor_range; [lia|done|].
  rewrite Z.shiftl_mul_pow2 by lia. unfold in_range in *; lia.
Qed.

Lemma safe_begin_open remote :
  u16 remote -> safe (T := T) (begin_open remote) (fun _ => True).
Proof.
  intros Hr. unfold begin_open. eapply safe_bind; [apply safe_allocate_port|]. intros p Hp. cbv beta in Hp.
  assert (u16 p) by (unfold in_range, FIRST_LOCAL_PORT in *; lia).
  walk1. intros size Hsize. eapply safe_bind; [by apply safe_next_initial_sequence|]. intros seq Hseq.
  walk1. intros l Hl. cbv zeta. set (c := Build_SessionConfig _ _ _ _ _).
  assert (session_ok p (fst (MuxSession.open c))) as Hs.
  { apply (session_ok_open c). split_and!; try done; apply Hl. }
  destruct (MuxSession.open c) as [session syn]. simpl in Hs. walk.
Qed.

Lemma safe_forget_session port (Q : unit -> Prop) : Q tt -> safe (T := T) (forget_session port) Q.
Proof.
  intros. apply safe_put; [done|]. intros ? []. split; try done. by apply map_Forall_delete.
Qed.

#[local] Hint Resolve safe_forget_session : link.

Lemma safe_open_loop fuel port remote deadline timeout :
  safe (T := T) (open_loop fuel port remote deadline timeout) (fun _ => True).
Proof.
  induction fuel; simpl; [by walk|]. walk1. intros l Hl.
  destruct (session_state l port) as [[]|]; unfold finish_open, abandon_open; walk.
Qed.

Lemma safe_open `{!ClockRange T} fuel remote timeout :
  u16 remote -> timeout_ok timeout -> safe (T := T) (open fuel remote timeout) (fun _ => True).
Proof.
  intros Hr Ht. unfold open. apply safe_seq; [by apply safe_begin_open|].
  intros. apply safe_seq; [by apply safe_deadline|]. intros. apply safe_open_loop.
Qed.

(** *** Session traffic *)

Lemma safe_shutdown_write port : safe (T := T) (shutdown_write port) (fun _ => True).
Proof.
  unfold shutdown_write. walk1. intros s Hs. apply session_ok_shutdown in Hs.
  assert (no_panic (snd (MuxSession.shutdown_write s))) as Hp
    by (unfold no_panic, MuxSession.shutdown_write; by case_match).
  destruct (MuxSession.shutdown_write s) as [s' r]. walk.
  eapply safe_bind; [by apply safe_lift_err|]. walk.
Qed.

Lemma safe_close port : safe (T := T) (close port) (fun _ => True).
Proof. unfold close. walk. unfold MuxSession.close. walk. Qed.

Lemma safe_take_received port out : safe (T := T) (take_received port out) (fun _ => True).
Proof.
  unfold take_received. destruct (zlen out =? 0); [by walk|]. walk1. intros s Hs.
  apply (session_ok_take _ _ out) in Hs. destruct (MuxSession.take_received s out) as [s' [n out']].
  simpl in Hs. walk.
Qed.

#[local] Hint Resolve safe_take_received : link.

Lemma safe_received_eof port : safe (T := T) (received_eof port) (fun _ => True).
Proof. unfold received_eof. walk. Qed.

#[local] Hint Resolve safe_received_eof : link.

Lemma safe_read_loop fuel port out deadline :
  safe (T := T) (read_loop fuel port out deadline) (fun _ => True).
Proof. induction fuel; simpl; walk. Qed.

Lemma safe_read `{!ClockRange T} fuel port out timeout : timeout_ok timeout -> safe (T := T) (read fuel port out timeout) (fun _ => True).
Proof. intros Ht. unfold read. walk; first [by apply safe_deadline | apply safe_read_loop]. Qed.

Lemma safe_enqueue port data : safe (T := T) (enqueue port data) (fun _ => True).
Proof. unfold enqueue. walk. Qed.

Lemma safe_pending_write port : safe (T := T) (pending_write port) (fun _ => True).
Proof. unfold pending_write. walk. Qed.

#[local] Hint Resolve safe_enqueue safe_pending_write : link.

Lemma safe_queue_write port data : safe (T := T) (queue_write port data) (fun _ => True).
Proof. unfold queue_write. walk. Qed.

Lemma safe_write_loop fuel port wanted deadline :
  safe (T := T) (write_loop fuel port wanted deadline) (fun _ => True).
Proof.
  induction fuel; simpl; walk. eapply safe_bind; [apply safe_attempt, safe_pump|].
  intros r [Hr _]. walk. apply safe_seq; [by apply safe_lift|]. walk.
Qed.

Lemma safe_write `{!ClockRange T} fuel port data timeout : timeout_ok timeout -> safe (T := T) (write fuel port data timeout) (fun _ => True).
Proof. intros Ht. unfold write. walk; first [by apply safe_deadline | apply safe_write_loop]. Qed.

Lemma safe_probe_window port : safe (T := T) (probe_window port) (fun _ => True).
Proof.
  unfold probe_window. walk1. intros s Hs. apply session_ok_probe in Hs.
  destruct (MuxSession.probe_window s). walk.
Qed.

#[local] Hint Resolve safe_probe_window : link.

Lemma safe_retransmit port : safe (T := T) (retransmit_unacknowledged port) (fun _ => True).
Proof. unfold retransmit_unacknowledged. walk. Qed.

Lemma safe_record_wait port a b : safe (T := T) (record_wait port a b) (fun _ => True).
Proof. unfold record_wait. walk1. intros l Hl. destruct (sessions l !! port); walk. Qed.

End Operations.

(** ** Every operation *)

Inductive link_op :=
| LNegotiate (request : VersionRequest.t) (timeout : Z)
| LOpen (remote timeout : Z)
| LBeginOpen (remote : Z)
| LFinishOpen (port remote : Z)
| LAbandonOpen (port waited : Z)
| LForget (port : Z)
| LShutdown (port : Z)
| LWrite (port : Z) (data : bytes) (timeout : Z)
| LDrain
| LRoute
| LTake (port : Z) (out : bytes)
| LQueue (port : Z) (data : bytes)
| LProbe (port : Z)
| LRetransmit (port : Z)
| LWait (port for_link for_inbound : Z)
| LRead (port : Z) (out : bytes) (timeout : Z)
| LFlush (port : Z)
| LClose (port : Z)
| LPump (timeout : Z).

Definition discard {T A} (m : M T A) : M T unit := m;; ret tt.

Definition link_exec {T} `{BulkTransport T} (fuel : nat) (o : link_op) : M T unit :=
  match o with
  | LNegotiate request timeout => discard (negotiate fuel request timeout)
  | LOpen remote timeout => discard (open fuel remote timeout)
  | LBeginOpen remote => discard (begin_open remote)
  | LFinishOpen port remote => finish_open port remote
  | LAbandonOpen port waited => abandon_open port waited
  | LForget port => forget_session port
  | LShutdown port => shutdown_write port
  | LWrite port data timeout => discard (write fuel port data timeout)
  | LDrain => discard (drain_inbound fuel 0)
  | LRoute => discard (route_available fuel)
  | LTake port out => discard (take_received port out)
  | LQueue port data => discard (queue_write port data)
  | LProbe port => discard (probe_window port)
  | LRetransmit port => discard (retransmit_unacknowledged port)
  | LWait port a b => record_wait port a b
  | LRead port out timeout => discard (read fuel port out timeout)
  | LFlush port => flush port
  | LClose port => close port
  | LPump timeout => discard (pump timeout)
  end.

(** Remote ports are [u16], and timeouts leave room for the clock. *)
Definition link_op_ok (o : link_op) : Prop :=
  match o with
  | LOpen remote timeout => u16 remote /\ timeout_ok timeout
  | LBeginOpen remote => u16 remote
  | LNegotiate _ timeout | LWrite _ _ timeout | LRead _ _ timeout => timeout_ok timeout
  | _ => True
  end.

(** A script of operations, each started whatever the last one returned. *)
Fixpoint link_run {T} `{BulkTransport T} (fuel : nat) (ops : list link_op) (l : MuxLink T)
  : option (MuxLink T * list (res MuxError unit)) :=
  match ops with
  | [] => Some (l, [])
  | o :: ops =>
      match link_exec fuel o l with
      | None => None
      | Some (l, r) =>
          match link_run fuel ops l with
          | None => None
          | Some (l, rs) => Some (l, r :: rs)
          end
      end
  end.

Lemma safe_link_exec {T} `{LawfulTransport T} `{!ClockRange T} fuel o :
  link_op_ok o -> safe (T := T) (link_exec fuel o) (fun _ => True).
Proof.
  intros Ho. destruct o; cbn [link_op_ok link_exec] in *; unfold discard, finish_open, abandon_open.
  all: try (lazymatch type of Ho with _ /\ timeout_ok _ => destruct Ho end).
  all: repeat (lazymatch goal with |- safe (bind _ _) _ => apply safe_seq; [|intros] end).
  all: eauto 2 using safe_negotiate, safe_open, safe_begin_open, safe_flush, safe_trace, safe_ret,
    safe_forget_session, safe_shutdown_write, safe_write, safe_drain, safe_route_available,
    safe_take_received, safe_queue_write, safe_probe_window, safe_retransmit, safe_record_wait,
    safe_read, safe_close, safe_pump.
Qed.

Lemma link_ok_new {T} (t : T) seed : u32 seed -> link_ok (new_link t seed).
Proof. intros. split; simpl; try done; apply map_Forall_empty. Qed.
