(* ===== verification/LinkLoops.v ===== *)
(** * Link operations return, and what they leave alone

    [prompt m]: [m] returns and the clock does not go back; [quiet], [flushes]:
    which parts of the link an operation may touch; then the bounds on the
    loops of [flush], [negotiate], [open] and [read]. *)

From S2P Require Import Prelude MuxFrame MuxTcp MuxTrace MuxSession RoundTrip MuxLink LinkSafety.
From stdpp Require Import base tactics numbers list gmap relations.
From Stdlib Require Import ZArith Lia.

Open Scope Z_scope.
Open Scope link_scope.

(** ** Calls that return

    [prompt m]: [m] returns on every link that satisfies the invariant, and the
    clock has not gone back. *)

Definition prompt {T A} `{SteadyClock T} (m : M T A) : Prop :=
  forall l, link_ok l -> exists l' r, m l = Some (l', r) /\ time (transport l) <= time (transport l').

Section Prompt.
Context {T : Type} `{BulkTransport T} `{!LawfulTransport T} `{!SteadyClock T}.
Implicit Types (l : MuxLink T).

Lemma prompt_bind {A B} (m : M T A) (k : A -> M T B) Q :
  safe m Q -> prompt m -> (forall a, Q a -> prompt (k a)) -> prompt (bind m k).
Proof.
  intros Hs Hm Hk l Hl. unfold bind. specialize (Hs l Hl). destruct (Hm l Hl) as (l1&r1&E1&T1).
  rewrite E1 in *. destruct r1 as [a|e|]; [|by eauto|by eauto]. destruct Hs as [Hl1 Ha].
  destruct (Hk a Ha l1 Hl1) as (l2&r2&E2&T2). do 2 eexists. split; [done|lia].
Qed.

Lemma prompt_seq {A B} (m : M T A) (k : A -> M T B) :
  safe m (fun _ => True) -> prompt m -> (forall a, prompt (k a)) -> prompt (bind m k).
Proof. intros. eapply prompt_bind; eauto. Qed.

Lemma prompt_pure {A} (m : M T A) :
  (forall l, exists l' r, m l = Some (l', r) /\ transport l' = transport l) -> prompt m.
Proof. intros Hm l _. destruct (Hm l) as (l'&r&E&Et). exists l', r. split; [done|]. rewrite Et. lia. Qed.

Lemma prompt_get : prompt (T := T) get.
Proof. apply prompt_pure. eauto. Qed.
Lemma prompt_ret {A} (a : A) : prompt (T := T) (ret a).
Proof. apply prompt_pure. eauto. Qed.
Lemma prompt_fail {A} e : prompt (T := T) (A := A) (fail e).
Proof. apply prompt_pure. eauto. Qed.
Lemma prompt_lift {A} (r : res MuxError A) : prompt (T := T) (lift r).
Proof. apply prompt_pure. unfold lift. eauto. Qed.
Lemma prompt_trace ev : prompt (T := T) (trace ev).
Proof. apply prompt_pure. do 2 eexists. by split. Qed.
Lemma prompt_meter f : prompt (T := T) (meter f).
Proof. apply prompt_pure. do 2 eexists. by split. Qed.
Lemma prompt_set_session port s : prompt (T := T) (set_session port s).
Proof. apply prompt_pure. do 2 eexists. by split. Qed.
Lemma prompt_get_session port : prompt (T := T) (get_session port).
Proof. apply prompt_pure. do 2 eexists. by split. Qed.
Lemma prompt_forget port : prompt (T := T) (forget_session port).
Proof. apply prompt_pure. do 2 eexists. by split. Qed.
Lemma prompt_segment_bytes seg : prompt (T := T) (segment_bytes seg).
Proof. apply prompt_lift. Qed.

Lemma prompt_now : prompt (T := T) now.
Proof.
  intros l _. unfold now. pose proof (time_now (transport l)).
  destruct (clock_now _) as [t at_]. do 2 eexists. split; [done|]. simpl in *. lia.
Qed.

Lemma prompt_recv d : prompt (T := T) (transport_recv d).
Proof.
  intros l _. unfold transport_recv. pose proof (time_recv (transport l) d).
  destruct (bulk_recv _ d) as [t r]. do 2 eexists. split; [done|]. simpl in *. lia.
Qed.

Lemma prompt_transport_send p : prompt (T := T) (transport_send p).
Proof.
  intros l _. unfold transport_send. pose proof (time_send (transport l) p).
  destruct (bulk_send _ p) as [t r]. do 2 eexists. split; [done|]. simpl in *. lia.
Qed.

Lemma prompt_send_packet protocol payload : prompt (T := T) (send_packet protocol payload).
Proof.
  intros l _. rewrite send_packet_eq. destruct (version l) as [v|].
  2: { do 2 eexists. split; [done|lia]. }
  cbv zeta. destruct (_ <? _). { do 2 eexists. split; [done|lia]. }
  pose proof (time_send (transport l) (packet_of v protocol (tx_seq l) (rx_expected l) payload)).
  destruct (bulk_send _ _) as [t [a|e|]]; (do 2 eexists; split; [done|]); simpl in *; try lia.
  by destruct (MuxVersion.is_sequenced v); simpl.
Qed.

End Prompt.

#[export] Hint Resolve prompt_get prompt_ret prompt_fail prompt_lift prompt_trace prompt_meter
  prompt_set_session prompt_get_session prompt_forget prompt_segment_bytes prompt_now prompt_recv
  prompt_transport_send prompt_send_packet : link.

(** ** What an operation leaves alone *)

(** Everything but the transport, the transmit counter, the trace and the
    meter is the same. *)
Record steady {T} (l l' : MuxLink T) : Prop := {
  st_version : version l' = version l;
  st_rx : rx_expected l' = rx_expected l;
  st_sessions : sessions l' = sessions l;
  st_port : next_local_port l' = next_local_port l;
  st_window : lk_receive_window l' = lk_receive_window l;
  st_seed : sequence_seed l' = sequence_seed l;
  st_received : packets_received l' = packets_received l;
  st_rejected : packets_rejected l' = packets_rejected l;
  st_flush : in_flush l' = in_flush l;
}.

#[export] Instance steady_preorder T : PreOrder (@steady T).
Proof.
  split; [by intros l; split|]. intros l1 l2 l3 [] []. split; by etrans.
Qed.

Definition quiet {T A} (m : M T A) : Prop := forall l l' r, m l = Some (l', r) -> steady l l'.

(** The session on [port] pulled some segments; every other one is untouched. *)
Definition pulled : MuxSession.t -> MuxSession.t -> Prop :=
  rtc (fun s s' => s' = fst (MuxSession.next_segment s)).

Record flushed {T} (port : Z) (l l' : MuxLink T) : Prop := {
  fl_steady : steady l (l' <| sessions := sessions l |>);
  fl_others : forall q, q <> port -> sessions l' !! q = sessions l !! q;
  fl_session : option_relation pulled (fun _ => False) (fun _ => False)
                 (sessions l !! port) (sessions l' !! port);
}.

(** Nothing is left to flush: the transport is full, or the session is gone or
    has no segment to give. *)
Definition drained {T} `{BulkTransport T} (port : Z) (l : MuxLink T) : Prop :=
  bulk_send_capacity (transport l) = Some false \/
  forall s, sessions l !! port = Some s -> MuxSession.next_segment s = (s, None).

Section Frames.
Context {T : Type} `{BulkTransport T}.
Implicit Types (l : MuxLink T).

Lemma quiet_bind {A B} (m : M T A) (k : A -> M T B) :
  quiet m -> (forall a, quiet (k a)) -> quiet (bind m k).
Proof.
  intros Hm Hk l l' r. unfold bind. destruct (m l) as [[l1 [a|e|]]|] eqn:E; [|by intros [= <- _]; eauto..|done].
  intros E2. etrans; [by eapply Hm|by eapply Hk].
Qed.

Lemma quiet_ret {A} (a : A) : quiet (T := T) (ret a).
Proof. by intros l l' r [= <- <-]. Qed.
Lemma quiet_now : quiet (T := T) now.
Proof. intros l l' r. unfold now. destruct (clock_now _). by intros [= <- <-]. Qed.
Lemma quiet_meter f : quiet (T := T) (meter f).
Proof. by intros l l' r [= <- <-]. Qed.
Lemma quiet_trace ev : quiet (T := T) (trace ev).
Proof. by intros l l' r [= <- <-]. Qed.
Lemma quiet_segment_bytes seg : quiet (T := T) (segment_bytes seg).
Proof. by intros l l' r [= <- <-]. Qed.

Lemma quiet_send_packet protocol payload : quiet (T := T) (send_packet protocol payload).
Proof.
  intros l l' r. rewrite send_packet_eq. destruct (version l) as [v|] eqn:V; [|by intros [= <- <-]].
  cbv zeta. destruct (_ <? _); [by intros [= <- <-]|].
  destruct (bulk_send _ _) as [t [a|e|]]; intros [= <- <-]; try done.
  by destruct (MuxVersion.is_sequenced v).
Qed.

Lemma quiet_flush_turn port seg : quiet (T := T) (flush_turn port seg).
Proof.
  unfold flush_turn, send_segment.
  repeat lazymatch goal with
  | |- quiet (bind _ _) => apply quiet_bind; [|intros]
  | |- quiet (if ?b then _ else _) => destruct b
  | |- quiet _ => first [apply quiet_now | apply quiet_meter | apply quiet_ret
                        | apply quiet_segment_bytes | apply quiet_send_packet]
  end.
Qed.

Lemma next_segment_stop s s' : MuxSession.next_segment s = (s', None) -> s' = s.
Proof.
  intros E. destruct (decide (MuxSession.state s = Established)) as [St|St].
  - destruct (Run.next_segment_none s St) as (Es&_&_); by rewrite E in *.
  - rewrite Run.next_segment_closed in E by done. by simplify_eq.
Qed.

Lemma flushed_refl port l : flushed port l l.
Proof. split; [by split|done|]. destruct (sessions l !! port); [by constructor|done]. Qed.

Lemma flushed_step port l l1 l2 s :
  sessions l !! port = Some s ->
  steady (l <| sessions := <[port := fst (MuxSession.next_segment s)]> (sessions l) |>) l1 ->
  flushed port l1 l2 -> flushed port l l2.
Proof.
  intros Hs H1 [H2 Ho Hp]. pose proof (st_sessions _ _ H1) as Es. simpl in Es. split.
  - destruct H1, H2; simpl in *. split; simpl; congruence.
  - intros q Hq. rewrite Ho, Es by done. by apply lookup_insert_ne.
  - rewrite Hs. rewrite Es, lookup_insert_eq in Hp.
    destruct (sessions l2 !! port) as [s2|]; [|by inversion Hp]. simpl in *. by eapply rtc_l.
Qed.

Lemma flush_loop_spec fuel port l l' r :
  flush_loop fuel port l = Some (l', r) -> flushed port l l' /\ (r = Ok tt -> drained port l').
Proof.
  revert l. induction fuel as [|fuel IH]; intros l; [done|]. cbn [flush_loop].
  unfold bind, get. cbv beta iota. case_bool_decide as Full.
  { intros [= <- <-]. split; [apply flushed_refl|by left]. }
  destruct (sessions l !! port) as [s|] eqn:Hs.
  2: { intros [= <- <-]. split; [apply flushed_refl|]. intros _. right. by rewrite Hs. }
  pose proof (next_segment_stop s) as Stop.
  pose proof (flushed_step port l) as Step. specialize (fun l1 l2 => Step l1 l2 s Hs).
  destruct (MuxSession.next_segment s) as [s' [seg|]] eqn:N; simpl in Step.
  - unfold set_session, put. cbv beta iota.
    pose proof (quiet_flush_turn port seg) as Qt.
    destruct (flush_turn port seg _) as [[l1 [a|e|]]|] eqn:E; [..|done].
    + intros F. apply IH in F as [F1 F2]. split; [|done]. eapply Step; [by eapply Qt|done].
    + intros [= <- <-]. split; [|done]. eapply Step; [by eapply Qt|apply flushed_refl].
    + intros [= <- <-]. split; [|done]. eapply Step; [by eapply Qt|apply flushed_refl].
  - intros [= <- <-]. rewrite (Stop s' eq_refl) in *. split.
    + eapply Step; [reflexivity|apply flushed_refl].
    + intros _. right. simpl. rewrite lookup_insert_eq. by intros ? [= <-].
Qed.

(** *** Operations that at most pull segments from one session *)

Definition flushes {A} (port : Z) (m : M T A) : Prop :=
  forall l l' r, m l = Some (l', r) -> flushed port l l'.

Lemma flushed_trans port l1 l2 l3 : flushed port l1 l2 -> flushed port l2 l3 -> flushed port l1 l3.
Proof.
  intros [S1 O1 P1] [S2 O2 P2]. split.
  - destruct S1, S2; simpl in *. split; simpl; congruence.
  - intros q Hq. by rewrite O2, O1.
  - destruct (sessions l1 !! port), (sessions l2 !! port), (sessions l3 !! port); simpl in *; try done.
    by etrans.
Qed.

Lemma steady_flushed port l l' : steady l l' -> flushed port l l'.
Proof.
  intros Q. destruct Q. split.
  - by split.
  - intros q _. by rewrite st_sessions0.
  - rewrite st_sessions0. destruct (sessions l !! port); [constructor|done].
Qed.

Lemma quiet_flushes {A} port (m : M T A) : quiet m -> flushes port m.
Proof. intros Q l l' r E. by apply steady_flushed, (Q l l' r). Qed.

Lemma flushes_bind {A B} port (m : M T A) (k : A -> M T B) :
  flushes port m -> (forall a, flushes port (k a)) -> flushes port (bind m k).
Proof.
  intros Hm Hk l l' r. unfold bind. destruct (m l) as [[l1 [a|e|]]|] eqn:E; [|by intros [= <- _]; eauto..|done].
  intros E2. eapply flushed_trans; [by eapply Hm|by eapply Hk].
Qed.

Lemma flushes_get {B} port (k : MuxLink T -> M T B) :
  (forall l, flushes port (k l)) -> flushes port (bind get k).
Proof. intros Hk l l' r. unfold bind, get. apply Hk. Qed.

Lemma flushes_flush port : flushes port (flush port).
Proof. intros l l' r E. exact (proj1 (flush_loop_spec _ _ _ _ _ E)). Qed.

Lemma quiet_lift {A} (r : res MuxError A) : quiet (T := T) (lift r).
Proof. by intros l l' r' [= <- <-]. Qed.

Ltac steady_walk :=
  repeat lazymatch goal with
  | |- flushes _ (bind get _) => apply flushes_get; intros
  | |- flushes _ (bind _ _) => apply flushes_bind; [|intros]
  | |- flushes _ (if ?b then _ else _) => destruct b
  | |- flushes _ (flush _) => apply flushes_flush
  | |- flushes _ _ =>
      apply quiet_flushes; first [apply quiet_now | apply quiet_meter | apply quiet_ret
        | apply quiet_trace | apply quiet_lift | apply quiet_segment_bytes | apply quiet_send_packet]
  end.

(** What a successful [m] returns. *)
Definition yields {A} (m : M T A) (v : A) : Prop := forall l l' a, m l = Some (l', Ok a) -> a = v.

Lemma yields_bind {A B} (m : M T A) (k : A -> M T B) v :
  (forall a, yields (k a) v) -> yields (bind m k) v.
Proof.
  intros Hk l l' b. unfold bind. destruct (m l) as [[l1 [a|e|]]|]; [|done..]. apply Hk.
Qed.

Lemma yields_ret {A} (v : A) : yields (ret v) v.
Proof. by intros l l' a [= _ <-]. Qed.

(** The session a TCP payload is for takes the segment and may then pull
    segments of its own; nothing else moves. *)
Lemma dispatch_tcp_spec payload l l' r :
  dispatch_tcp payload l = Some (l', r) ->
  match TcpHeader.decode payload with
  | Ok tcp =>
      let port := TcpHeader.destination_port tcp in
      match sessions l !! port with
      | None => flushed port l l'
      | Some s =>
          let '(s', applied) := MuxSession.on_segment s tcp (zdrop TCP_HEADER_LEN payload) in
          flushed port (l <| sessions := <[port := s']> (sessions l) |>) l' /\
          match applied with
          | Err e => r = Err (MuxSessionErr port e)
          | Ok ev => forall ev', r = Ok ev' -> ev' = SessionEv port ev
          | Panic => r = Panic
          end
      end
  | _ => l' = l
  end.
Proof.
  unfold dispatch_tcp. unfold bind at 1, lift at 1.
  destruct (TcpHeader.decode payload) as [tcp|e|] eqn:D; [|by intros [= <- <-]..]. cbn [map_err].
  assert (TCP_HEADER_LEN <= zlen payload) as L.
  { unfold TcpHeader.decode in D. destruct (_ <? _) eqn:L; [done|]. by bools. }
  rewrite slice_ok by (done || lia). rewrite ztake_all by zl.
  unfold bind at 1 2, lift at 1, get at 1. cbv beta iota zeta.
  destruct (sessions l !! TcpHeader.destination_port tcp) as [s|] eqn:Hs.
  2: { apply (quiet_flushes _ (trace _;; ret _)). apply quiet_bind; [apply quiet_trace|].
       intros; apply quiet_ret. }
  destruct (MuxSession.on_segment s tcp (zdrop TCP_HEADER_LEN payload)) as [s' applied].
  match goal with |- context [bind (lift (map_err ?f applied)) ?k] =>
    set (tail := bind (lift (map_err f applied)) k) end.
  assert (flushes (TcpHeader.destination_port tcp) tail) as Ft.
  { subst tail. apply flushes_bind; [apply quiet_flushes, quiet_lift|]. intros ev.
    steady_walk; destruct ev; steady_walk. }
  assert (forall l l' r, tail l = Some (l', r) ->
    match applied with
    | Err e => r = Err (MuxSessionErr (TcpHeader.destination_port tcp) e)
    | Ok ev => forall ev', r = Ok ev' -> ev' = SessionEv (TcpHeader.destination_port tcp) ev
    | Panic => r = Panic
    end) as Rt.
  { subst tail. clear. intros l l' r. unfold bind at 1, lift.
    destruct applied as [ev|e|]; cbn [map_err]; [|by intros [= _ <-]..].
    intros E ev' ->. revert E. revert l l' ev'.
    match goal with |- forall l l' ev', ?m l = _ -> ev' = ?v => change (yields m v) end.
    repeat (apply yields_bind; intros). destruct ev; repeat (apply yields_bind; intros); apply yields_ret. }
  intros E. unfold bind at 1 in E. unfold bind at 1, set_session, put in E.
  destruct (bool_decide _ && _); cbv beta iota in E; (split; [|exact (Rt _ _ _ E)]); apply Ft in E; [|done].
  eapply flushed_trans; [|exact E]. by apply steady_flushed.
Qed.

Lemma dispatch_rest_keeps v header payload l l' r :
  dispatch_rest v header payload l = Some (l', r) ->
  rx_expected l' = rx_expected l /\ version l' = version l.
Proof.
  unfold dispatch_rest. destruct (bool_decide _); [by intros [= <- <-]|].
  destruct (negb _); [by intros [= <- <-]|]. intros E. apply dispatch_tcp_spec in E.
  destruct (TcpHeader.decode payload) as [tcp|e|]; [|by subst..]. cbv zeta in E.
  destruct (sessions l !! _) as [s|].
  - destruct (MuxSession.on_segment _ _ _). by destruct E as [[[]] _].
  - by destruct E as [[]].
Qed.

Lemma pulled_keeps s s' : pulled s s' ->
  MuxSession.state s' = MuxSession.state s /\ MuxSession.config s' = MuxSession.config s /\
  MuxSession.inbound s' = MuxSession.inbound s /\ MuxSession.rcv_nxt s' = MuxSession.rcv_nxt s /\
  MuxSession.peer_fin s' = MuxSession.peer_fin s.
Proof.
  induction 1 as [|s s1 s2 -> _ IH]; [done|].
  destruct IH as (E1&E2&E3&E4&E5). rewrite E1, E2, E3, E4, E5.
  unfold MuxSession.next_segment, MuxSession.send_data. repeat (case_match; simpl; try done);
    simplify_eq; simpl; done.
Qed.

End Frames.

(** ** The loops end *)

Section Loops.
Context {T : Type} `{BulkTransport T} `{!LawfulTransport T} `{!SteadyClock T}.
Implicit Types (l : MuxLink T).

#[local] Hint Resolve safe_flush_turn safe_flush safe_reject_packet safe_dispatch_tcp safe_lift
  safe_get safe_transport_recv safe_segment_size safe_reset_version safe_pump safe_take_received
  safe_received_eof safe_forget_session : link.

(** Walks an operation for [prompt]. *)
Ltac swift1 :=
  lazymatch goal with
  | |- prompt (bind get _) => eapply prompt_seq; [by apply safe_get|apply prompt_get|intros]
  | |- prompt (bind (transport_recv _) _) =>
      eapply prompt_bind; [apply safe_transport_recv|apply prompt_recv|cbv beta; intros]
  | |- prompt (bind (get_session _) _) =>
      eapply prompt_bind; [apply safe_get_session|apply prompt_get_session|cbv beta; intros]
  | |- prompt (bind _ _) => apply prompt_seq; [by walk| |intros]
  | |- prompt (if ?b then _ else _) => destruct b eqn:?
  | |- prompt (match ?o with Some _ => _ | None => _ end) => destruct o eqn:?
  | |- prompt _ => solve [eauto 3 with link | unfold send_segment; eauto 3 with link]
  end.
Ltac swift := repeat (intros; cbv beta zeta; swift1); intros; cbv beta zeta.

Lemma prompt_flush_turn port seg : prompt (T := T) (flush_turn port seg).
Proof. unfold flush_turn. swift. Qed.

Lemma flush_loop_total fuel port l :
  link_ok l -> (from_option (fun s => Z.to_nat (Run.backlog s)) 0 (sessions l !! port) < fuel)%nat ->
  exists l' r, flush_loop fuel port l = Some (l', r) /\ time (transport l) <= time (transport l').
Proof.
  revert l. induction fuel as [|fuel IH]; intros l Hl Hf; [lia|]. cbn [flush_loop].
  unfold bind, get. cbv beta iota. case_bool_decide; [do 2 eexists; split; [done|lia]|].
  destruct (sessions l !! port) as [s|] eqn:Hs; [|do 2 eexists; split; [done|lia]]. simpl in Hf.
  pose proof (session_lookup_ok _ _ _ Hl Hs) as Hok. pose proof (session_ok_next _ _ Hok) as Hok'.
  assert (1 <= mss (MuxSession.config s)) as Hm by apply Hok.
  pose proof (fun seg => Run.next_segment_backlog s seg Hm) as Hb.
  destruct (MuxSession.next_segment s) as [s' [seg|]]; simpl in *;
    unfold set_session, put; cbv beta iota; [|do 2 eexists; split; [done|simpl; lia]].
  destruct (Hb seg eq_refl) as [Hlt _]. pose proof (Run.backlog_nonneg s').
  set (l0 := l <| sessions := <[port := s']> (sessions l) |>).
  assert (link_ok l0) as Hl0.
  { destruct Hl. split; try done. simpl. by apply map_Forall_insert_2. }
  destruct (prompt_flush_turn port seg l0 Hl0) as (l1&r1&E1&T1).
  pose proof (safe_flush_turn port seg (fun _ => True) I l0 Hl0) as Hl1.
  pose proof (quiet_flush_turn port seg l0 l1 r1 E1) as Q1. rewrite E1 in *.
  destruct r1; [|by eauto|by eauto]. destruct Hl1 as [Hl1 _].
  destruct (IH l1 Hl1) as (l2&r2&E2&T2).
  - rewrite (st_sessions _ _ Q1). simpl. rewrite lookup_insert_eq. simpl. lia.
  - do 2 eexists. split; [done|]. simpl in *. lia.
Qed.

Lemma prompt_flush port : prompt (T := T) (flush port).
Proof. intros l Hl. apply flush_loop_total; [done|]. unfold flush_fuel. lia. Qed.

#[local] Hint Resolve prompt_flush prompt_flush_turn : link.

Lemma prompt_put (f : MuxLink T -> MuxLink T) :
  (forall l, transport (f l) = transport l) -> prompt (put f).
Proof. intros Hf. apply prompt_pure. intros l. do 2 eexists. split; [done|apply Hf]. Qed.

Lemma prompt_reject_packet e p : prompt (T := T) (reject_packet e p).
Proof.
  unfold reject_packet. apply prompt_seq; [|by apply prompt_put|swift].
  apply safe_put; [done|]. intros ? []. by split.
Qed.

Lemma prompt_dispatch_tcp payload : is_bytes payload -> prompt (T := T) (dispatch_tcp payload).
Proof.
  intros Hb. unfold dispatch_tcp.
  eapply prompt_bind; [by apply safe_lift_err, TcpFacts.tcp_decode_no_panic|apply prompt_lift|].
  intros tcp D. cbv beta in D. destruct (TcpFacts.tcp_decode_some _ _ Hb D) as (Hlen&Hwf&_).
  rewrite slice_ok by (done || lia). apply prompt_seq; [by apply safe_lift|apply prompt_lift|].
  intros body. cbv zeta.
  eapply prompt_bind; [apply safe_get; intros ? Hl; exact Hl|apply prompt_get|]. intros l Hl.
  destruct (sessions l !! _) as [s|] eqn:E; [|by swift].
  pose proof (session_ok_segment _ _ tcp body (session_lookup_ok _ _ _ Hl E) Hwf) as Hs.
  pose proof (Run.on_segment_no_panic s tcp body).
  swift1; [by swift|]. destruct (MuxSession.on_segment s tcp body) as [s' applied]. simpl in *.
  swift1; [by swift|].
  eapply prompt_bind; [by apply safe_lift_err|apply prompt_lift|]. intros ev _.
  swift1; [by swift|]. swift1; [by swift|].
  apply prompt_seq; [destruct ev; by walk|destruct ev; by swift|].
  intros _. destruct ev; swift.
Qed.

Lemma prompt_dispatch_rest v header payload :
  is_bytes payload -> prompt (T := T) (dispatch_rest v header payload).
Proof. intros Hb. unfold dispatch_rest. swift. by apply prompt_dispatch_tcp. Qed.

Lemma prompt_dispatch_packet v packet header payload :
  is_bytes payload -> prompt (T := T) (dispatch_packet v packet header payload).
Proof.
  intros Hb. unfold dispatch_packet. destruct (bool_decide _).
  { eapply prompt_bind; [apply safe_lift_err, HeaderFacts.version_decode_no_panic|apply prompt_lift|].
    intros reply _. apply prompt_seq; [by walk|by apply prompt_put|by swift]. }
  eapply prompt_seq; [by apply safe_get|apply prompt_get|]. intros l.
  assert (safe (T := T) (put (fun l => l <| rx_expected := wrapping_add 16 (rx_expected l) 1 |>))
            (fun _ => True)) as Hput.
  { apply safe_put; [done|]. intros ? []. split; try done. apply wrap_range; lia. }
  apply prompt_seq; [walk; exact Hput| |].
  { swift. by apply prompt_put. }
  intros _. by apply prompt_dispatch_rest.
Qed.

(** A pump returns, and time has passed if it routed or waited. *)
Lemma pump_returns timeout l :
  link_ok l ->
  exists l' r, pump timeout l = Some (l', r) /\ time (transport l) <= time (transport l') /\
    forall ev, r = Ok ev -> time (transport l) < time (transport l').
Proof.
  intros Hl. unfold pump. unfold bind at 1 2, get, lift, ok_or.
  destruct (version l) as [v|]; [|do 2 eexists; split_and!; [done|lia|done]].
  cbv beta iota. unfold bind at 1.
  pose proof (safe_transport_recv timeout l Hl) as Hs. unfold transport_recv in *.
  pose proof (time_recv (transport l) timeout) as Ht.
  destruct (bulk_recv (transport l) timeout) as [t [o|e|]]; simpl in Hs, Ht |- *;
    [|do 2 eexists; split_and!; [done|simpl; lia|done]..].
  destruct Hs as [Hl1 Hb].
  set (l1 := l <| transport := t |>) in *. set (k := match o with Some _ => _ | None => _ end).
  assert (prompt k) as Hk.
  { subst k. destruct o as [packet|]; [|by swift]. specialize (Hb packet eq_refl).
    apply prompt_seq; [|by apply prompt_put|].
    { apply safe_put; [done|]. intros ? []. by split. }
    intros _. destruct (MuxHeader.decode v packet) as [h|e|];
      [|apply prompt_reject_packet|apply prompt_lift].
    destruct (MuxHeader.payload h v packet) as [p|e|] eqn:P;
      [|apply prompt_reject_packet|apply prompt_lift].
    apply prompt_dispatch_packet. apply HeaderFacts.payload_some in P as ->. auto with isbytes. }
  destruct (Hk l1 Hl1) as (l2&r2&E2&T2). exists l2, r2. subst l1. simpl in *.
  split_and!; [done|lia|intros; lia].
Qed.

Lemma prompt_pump timeout : prompt (T := T) (pump timeout).
Proof. intros l Hl. destruct (pump_returns timeout l Hl) as (l'&r&?&?&_). eauto. Qed.

(** A clock reading: the invariant is kept and the deadline is nearer. *)
Lemma now_reads l : link_ok l ->
  exists l' at_, now l = Some (l', Ok at_) /\ link_ok l' /\
    time (transport l) <= at_ <= time (transport l').
Proof.
  intros Hl. pose proof (safe_now (fun _ => True) ltac:(done) l Hl) as Hs. unfold now in *.
  pose proof (time_now (transport l)). destruct (clock_now _) as [t at_].
  do 2 eexists. split; [done|]. split; [apply Hs|]. simpl in *. lia.
Qed.

Lemma open_loop_returns fuel port remote deadline timeout l :
  link_ok l -> deadline - time (transport l) < Z.of_nat fuel -> (0 < fuel)%nat ->
  exists l' r, open_loop fuel port remote deadline timeout l = Some (l', r).
Proof.
  revert l. induction fuel as [|fuel IH]; intros l Hl Hf Hpos; [lia|]. cbn [open_loop].
  unfold bind at 1, get. cbv beta iota.
  assert (forall (m : M T Z) l, prompt m -> link_ok l -> exists l' r, m l = Some (l', r)) as Returns.
  { intros m l0 Hm Hl0. destruct (Hm l0 Hl0) as (?&?&?&_). eauto. }
  destruct (session_state l port) as [[]|].
  - destruct (now_reads l Hl) as (l1&at_&E1&Hl1&Ht). unfold bind at 1. rewrite E1. cbv beta iota zeta.
    destruct (since deadline at_ =? 0) eqn:R.
    { apply (Returns (abandon_open port timeout;; _) l1); [unfold abandon_open; by swift|done]. }
    bools. unfold since in R. unfold bind.
    destruct (pump_returns (since deadline at_) l1 Hl1) as (l2&r2&E2&T2&Hr2). 
    pose proof (safe_pump (since deadline at_) l1 Hl1) as Hs2. rewrite E2 in *.
    destruct r2 as [ev|e|]; [|by eauto..]. specialize (Hr2 ev eq_refl).
    apply IH; [apply Hs2|lia|lia].
  - apply Returns; [unfold finish_open; by swift|done].
  - apply Returns; [by swift|done].
  - apply Returns; [by swift|done].
Qed.

Lemma segment_size_pure l : exists r, segment_size l = Some (l, r).
Proof.
  unfold segment_size, bind, get, lift, ok_or, ret. destruct (version l); [|by eauto].
  destruct (_ <? 0); eauto.
Qed.

Lemma negotiate_loop_returns fuel deadline timeout l :
  link_ok l -> deadline - time (transport l) < Z.of_nat fuel -> (0 < fuel)%nat ->
  exists l' r, negotiate_loop fuel deadline timeout l = Some (l', r).
Proof.
  revert l. induction fuel as [|fuel IH]; intros l Hl Hf Hpos; [lia|]. cbn [negotiate_loop].
  destruct (now_reads l Hl) as (l1&at_&E1&Hl1&Ht). unfold bind at 1. rewrite E1. cbv beta iota zeta.
  destruct (since deadline at_ =? 0) eqn:R; [by eauto|]. bools. unfold since in R. unfold bind at 1.
  pose proof (safe_transport_recv (since deadline at_) l1 Hl1) as Hs. unfold transport_recv in *.
  pose proof (time_recv (transport l1) (since deadline at_)) as Hr.
  destruct (bulk_recv _ _) as [t [o|e|]]; simpl in Hs, Hr |- *; [|by eauto..].
  destruct Hs as [Hl2 _]. set (l2 := l1 <| transport := t |>) in *.
  assert (deadline - time (transport l2) < Z.of_nat fuel) by (subst l2; simpl; lia).
  destruct o as [packet|]; [|apply IH; [done|done|lia]].
  destruct (VersionPacket.decode packet) as [reply|[]|]; [|by eauto..|by eauto| |by eauto].
  - unfold bind, put, attempt. cbv beta iota.
    match goal with |- context [segment_size ?l0] => destruct (segment_size_pure l0) as [r ->] end.
    destruct r; by eauto.
  - unfold bind at 1. simpl. apply IH; [by destruct Hl2|done|lia].
Qed.

Lemma read_loop_returns fuel port out deadline l :
  link_ok l -> deadline - time (transport l) < Z.of_nat fuel -> (0 < fuel)%nat ->
  exists l' r, read_loop fuel port out deadline l = Some (l', r).
Proof.
  revert l. induction fuel as [|fuel IH]; intros l Hl Hf Hpos; [lia|]. cbn [read_loop].
  assert (prompt (T := T) (take_received port out)) as Hp.
  { unfold take_received. destruct (zlen out =? 0); [by swift|].
    eapply prompt_bind; [apply safe_get_session|apply prompt_get_session|]. intros s Hs.
    apply (session_ok_take _ _ out) in Hs.
    destruct (MuxSession.take_received s out) as [s' [n out']]. simpl in Hs. swift. }
  destruct (Hp l Hl) as (l1&r1&E1&T1). pose proof (safe_take_received port out l Hl) as Hl1.
  unfold bind at 1. rewrite E1 in *. destruct r1 as [r1|e|]; [|by eauto..]. destruct Hl1 as [Hl1 _].
  cbv beta iota. destruct (0 <? fst r1); [by eauto|].
  assert (prompt (T := T) (received_eof port)) as He by (unfold received_eof; swift).
  destruct (He l1 Hl1) as (l2&r2&E2&T2). pose proof (safe_received_eof port l1 Hl1) as Hl2.
  unfold bind at 1. rewrite E2 in *. destruct r2 as [[]|e|]; [by eauto| |by eauto..].
  destruct Hl2 as [Hl2 _]. cbv beta iota.
  destruct (now_reads l2 Hl2) as (l3&at_&E3&Hl3&Ht). unfold bind at 1. rewrite E3. cbv beta iota zeta.
  destruct (since deadline at_ =? 0) eqn:R; [by eauto|]. bools. unfold since in R. unfold bind at 1.
  destruct (pump_returns (since deadline at_) l3 Hl3) as (l4&r4&E4&T4&Hr4).
  pose proof (safe_pump (since deadline at_) l3 Hl3) as Hs4. rewrite E4 in *.
  destruct r4 as [ev|e|]; [|by eauto..]. specialize (Hr4 ev eq_refl).
  apply IH; [apply Hs4|lia|lia].
Qed.

(** A loop that starts with a clock reading and [timeout] to go. *)
Lemma deadline_returns {A} (m : Z -> M T A) fuel timeout l :
  link_ok l -> 0 <= timeout < Z.of_nat fuel ->
  (forall deadline l', link_ok l' -> deadline - time (transport l') < Z.of_nat fuel -> (0 < fuel)%nat ->
     exists l'' r, m deadline l' = Some (l'', r)) ->
  exists l' r, bind (deadline_after timeout) m l = Some (l', r).
Proof.
  intros Hl Hf Hm. destruct (now_reads l Hl) as (l1&at_&E1&Hl1&Ht). unfold deadline_after, bind, lift, instant_add. rewrite E1.
  destruct (_ <? _); [|by eauto]. apply Hm; [done|lia|lia].
Qed.

Lemma prompt_begin_open remote : u16 remote -> prompt (T := T) (begin_open remote).
Proof.
  intros Hr. unfold begin_open.
  eapply prompt_bind; [apply safe_allocate_port| |].
  { apply prompt_pure. intros l. unfold allocate_port, bind, get, put, lift.
    destruct (scan_ports _ _ _) as [n [q|]]; simpl; eauto. }
  intros p Hp. cbv beta in Hp. assert (u16 p) by (unfold in_range, FIRST_LOCAL_PORT in *; lia).
  eapply prompt_bind; [apply safe_segment_size| |].
  { apply prompt_pure. intros l. destruct (segment_size_pure l) as [r ->]. eauto. }
  intros size Hsize. eapply prompt_bind; [by apply safe_next_initial_sequence| |].
  { apply prompt_pure. intros l. unfold next_initial_sequence, bind, get, put, ret. do 2 eexists. split; reflexivity. }
  intros seq Hseq. eapply prompt_bind; [apply safe_get; intros ? Hl; exact Hl|apply prompt_get|].
  intros l Hl. cbv zeta. set (c := Build_SessionConfig _ _ _ _ _).
  assert (session_ok p (fst (MuxSession.open c))) as Hs.
  { apply (session_ok_open c). split_and!; try done; apply Hl. }
  destruct (MuxSession.open c) as [session syn]. simpl in Hs. swift.
Qed.

End Loops.
