(* ===== verification/LinkProps.v ===== *)
(** * Properties of the mux link

    A scripted transport to evaluate the link on, and the theorems about
    src/src/usbmux/link.rs. *)

From S2P Require Import Prelude MuxFrame MuxTcp MuxTrace MuxSession RoundTrip MuxLink LinkSafety LinkLoops.
From stdpp Require Import base tactics numbers list gmap relations.
From Stdlib Require Import ZArith Lia.

Open Scope Z_scope.
Open Scope link_scope.

Lemma link_ok_version {T} (l : MuxLink T) v : link_ok l -> link_ok (l <| version := v |>).
Proof. by intros []. Qed.

(** ** A scripted transport

    Packets to receive and packets sent, with a clock that a receive advances. *)

Record script := Script { inbox : list bytes; outbox : list bytes; clock : Z }.

#[export] Instance script_transport : BulkTransport script := {
  bulk_send s packet := (Script (inbox s) (outbox s ++ [packet]) (clock s), Ok tt);
  bulk_recv s timeout :=
    match inbox s with
    | [] => (Script [] (outbox s) (clock s + 1 + Z.max 0 timeout), Ok None)
    | p :: rest => (Script rest (outbox s) (clock s + 1), Ok (Some (map (wrap 8) p)))
    end;
  bulk_max_packet _ := MAX_PACKET;
  bulk_send_capacity _ := None;
  bulk_accepted_packets _ := None;
  bulk_device_present _ := None;
  clock_now s := (s, clock s);
}.

#[export] Instance script_lawful : LawfulTransport script.
Proof.
  split.
  - intros t. done.
  - intros [[|p i] o c] d q; simpl; intros [= <-]. apply Forall_forall. intros x.
    rewrite list_elem_of_fmap. intros (y&->&_). apply wrap_range. lia.
  - by intros [[|p i] o c] d.
  - done.
Qed.

#[export] Instance script_steady : SteadyClock script.
Proof.
  exists clock; [intros s; simpl; lia|intros s p; simpl; lia|].
  intros [[|p i] o c] d; simpl; lia.
Defined.

(** The same, with a clock that stops before the end of its range. *)
Record stopping := Stopping { running : script }.

#[export] Instance stopping_transport : BulkTransport stopping := {
  bulk_send s packet := let '(t, r) := bulk_send (running s) packet in (Stopping t, r);
  bulk_recv s timeout := let '(t, r) := bulk_recv (running s) timeout in (Stopping t, r);
  bulk_max_packet s := bulk_max_packet (running s);
  bulk_send_capacity s := bulk_send_capacity (running s);
  bulk_accepted_packets s := bulk_accepted_packets (running s);
  bulk_device_present s := bulk_device_present (running s);
  clock_now s := (s, Z.min (clock (running s)) (2 ^ 62));
}.

#[export] Instance stopping_lawful : LawfulTransport stopping.
Proof.
  split.
  - done.
  - intros [s] d p Hp. apply (recv_bytes s d). cbn in *. by destruct (inbox s).
  - intros [s] d. cbn. by destruct (inbox s).
  - done.
Qed.

#[export] Instance stopping_range : ClockRange stopping.
Proof. split. intros [s]. cbn [clock_now stopping_transport snd running]. lia. Qed.

(** The device's half of an exchange: a version reply, a SYN-ACK for the first
    session, data for it, and a datagram that does not frame. *)
Definition device_packet (tx rx : Z) (payload : bytes) : bytes :=
  packet_of MuxVersion.V2 Protocol.Tcp tx rx payload.
Definition sample_seed : Z := 1.
Definition sample_iss : Z :=
  Z.lxor (wrapping_add 32 (wrapping_mul 32 sample_seed 1664525) 1013904223)
    (Z.shiftl FIRST_LOCAL_PORT 16).
Definition sample_syn_ack : bytes :=
  TcpFacts.tcp_bytes (TcpHeader.Mk 62078 FIRST_LOCAL_PORT 700 (wrapping_add 32 sample_iss 1) flags.SYN_ACK 65536).
Definition sample_data : bytes :=
  TcpFacts.tcp_bytes (TcpHeader.Mk 62078 FIRST_LOCAL_PORT 701 (wrapping_add 32 sample_iss 1) flags.ACK 65536)
    ++ [104; 105].
Definition sample_version_reply : bytes :=
  match VersionPacket.encode (VersionPacket.Mk 2 0) with Ok p => p | _ => [] end.
Definition sample_script : script :=
  Script [sample_version_reply; device_packet 0 1 sample_syn_ack; device_packet 1 2 sample_data; [1; 2; 3]]
    [] 0.
Definition sample_ops : list link_op :=
  [LNegotiate VersionRequest.resync 10; LOpen 62078 10; LWrite FIRST_LOCAL_PORT [1; 2; 3] 10; LPump 1;
   LRead FIRST_LOCAL_PORT [0; 0; 0; 0] 10].
Definition sample_link : MuxLink script := new_link sample_script sample_seed.

(** A negotiated link with nothing to receive. *)
Definition small_link : MuxLink script :=
  (new_link (Script [] [] 0) sample_seed) <| version := Some MuxVersion.V2 |>.

(** A link about to receive three bytes that do not frame. *)
Definition reject_link : MuxLink script :=
  (new_link (Script [[1; 2; 3]] [] 0) sample_seed) <| version := Some MuxVersion.V2 |>.

(** A link about to receive a packet out of sequence. *)
Definition gap_packet : bytes := packet_of MuxVersion.V2 Protocol.Tcp 7 0 [].
Definition gap_link : MuxLink script :=
  (new_link (Script [gap_packet] [] 0) sample_seed) <| version := Some MuxVersion.V2 |>.

(** A link with one session, about to receive its SYN-ACK. *)
Definition synack_link : MuxLink script :=
  (new_link (Script [device_packet 0 1 sample_syn_ack] [] 0) sample_seed)
    <| version := Some MuxVersion.V2 |>
    <| sessions := {[ FIRST_LOCAL_PORT :=
         fst (MuxSession.open (Build_SessionConfig FIRST_LOCAL_PORT 62078 sample_iss 1000 65536)) ]} |>.

Definition open_link : MuxLink script :=
  (new_link (Script [device_packet 0 1 sample_syn_ack] [] 0) sample_seed)
    <| version := Some MuxVersion.V2 |>.

(** An established session with nothing in flight. *)
Definition write_link : MuxLink script :=
  (new_link (Script [] [] 0) sample_seed)
    <| version := Some MuxVersion.V2 |>
    <| sessions := {[ FIRST_LOCAL_PORT :=
         fst (MuxSession.on_segment
           (fst (MuxSession.open (Build_SessionConfig FIRST_LOCAL_PORT 62078 sample_iss 1000 65536)))
           (TcpHeader.Mk 62078 FIRST_LOCAL_PORT 700 (wrapping_add 32 sample_iss 1) flags.SYN_ACK 65536) []) ]} |>.

Lemma tcp_protocol_wf : Protocol.wf Protocol.Tcp.
Proof. by_compute. Qed.

Lemma small_link_ok : link_ok small_link.
Proof. apply link_ok_version, link_ok_new. by_compute. Qed.

(** ** Properties *)

(** C22. The link is safe against its environment: whatever a lawful transport
    delivers, after any sequence of operations on a fresh link the invariant
    holds (counters in range, every session filed under its own port with its
    words in range) and no operation has panicked.  The clock has run for less than
    2^62 seconds, and no timeout is longer: beyond that, the sum that is the
    deadline of [negotiate], [open], [read] and [write] may panic. *)
Theorem link_never_panics `{LawfulTransport T} `{!ClockRange T} fuel ops (t : T) seed l rs :
  u32 seed -> Forall link_op_ok ops ->
  link_run fuel ops (new_link t seed) = Some (l, rs) ->
  link_ok l /\ Forall (fun r => r <> Panic) rs.
Proof.
  intros Hs Ho. pose proof (link_ok_new t seed Hs) as Hl. revert Hl rs.
  generalize (new_link t seed). induction Ho as [|o ops Hop _ IH]; intros l0 Hl0 rs.
  { by intros [= <- <-]. }
  cbn [link_run]. pose proof (safe_link_exec fuel o Hop l0 Hl0) as S1.
  destruct (link_exec fuel o l0) as [[l1 r1]|]; [|done].
  assert (link_ok l1 /\ r1 <> Panic) as [Hl1 Hr1].
  { destruct r1; [split; [apply S1|done]|done..]. }
  destruct (link_run fuel ops l1) as [[l2 rs2]|] eqn:E; [|done].
  intros [= <- <-]. destruct (IH l1 Hl1 _ E) as [Hl2 Hr2]. split; [done|by constructor].
Qed.

Definition all_ok {T A} (n : nat) (o : option (MuxLink T * list (res MuxError A))) : bool :=
  match o with
  | Some (_, rs) => (length rs =? n)%nat && forallb (fun r => match r with Ok _ => true | _ => false end) rs
  | None => false
  end.

Lemma sample_runs : all_ok 5 (link_run 50 sample_ops sample_link) = true.
Proof. vm_compute. reflexivity. Qed.

Definition stopping_link : MuxLink stopping := new_link (Stopping sample_script) sample_seed.

Lemma stopping_runs : is_Some (link_run 50 sample_ops stopping_link).
Proof. vm_compute. by eexists. Qed.

Lemma link_never_panics_witness :
  exists l rs, link_run 50 sample_ops stopping_link = Some (l, rs) /\
    link_ok l /\ Forall (fun r => r <> Panic) rs.
Proof.
  assert (u32 sample_seed) as Hs by by_compute.
  assert (Forall link_op_ok sample_ops) as Ho.
  { repeat (apply List.Forall_cons; [first [exact I|split; by_compute|by_compute]|]). apply List.Forall_nil. }
  pose proof stopping_runs as R.
  destruct (link_run 50 sample_ops stopping_link) as [[l rs]|] eqn:E; [|by destruct R]. clear R.
  exists l, rs. split; [reflexivity|].
  exact (link_never_panics 50 sample_ops (Stopping sample_script) sample_seed l rs Hs Ho E).
Defined.

(** A timeout that leaves the range of an instant makes a call panic. *)
Lemma long_timeout_panics : exists l, link_exec 50 (LNegotiate VersionRequest.resync INSTANT_END) stopping_link = Some (l, Panic).
Proof. vm_compute. by eexists. Qed.

(** The blocking calls return.  On a clock that moves with every receive,
    [negotiate], [open] and [read] end within as many turns as their timeout
    has ticks (and one more), whatever the device sends or withholds. *)
Theorem blocking_calls_return `{LawfulTransport T} `{!SteadyClock T} fuel timeout (l : MuxLink T)
    request remote port out :
  link_ok l -> u16 remote -> 0 <= timeout < Z.of_nat fuel ->
  (exists l' r, negotiate fuel request timeout l = Some (l', r)) /\
  (exists l' r, open fuel remote timeout l = Some (l', r)) /\
  (exists l' r, read fuel port out timeout l = Some (l', r)).
Proof.
  intros Hl Hr Hf. split_and!.
  - unfold negotiate.
    destruct (VersionPacket.encode (VersionRequest.packet request)) as [p|e|];
      unfold bind at 1, lift, map_err; [|by eauto..].
    unfold bind at 1. pose proof (safe_transport_send p (fun _ => True) I l Hl) as S1.
    destruct (prompt_transport_send p l Hl) as (l1&r1&E1&_). rewrite E1 in *.
    destruct r1; [|by eauto..]. destruct S1 as [Hl1 _]. unfold bind at 1, trace, put. cbv beta iota.
    apply (deadline_returns (fun d => negotiate_loop fuel d timeout) fuel); [by destruct Hl1|done|].
    intros. by apply negotiate_loop_returns.
  - unfold open. unfold bind at 1. pose proof (safe_begin_open remote Hr l Hl) as S1.
    destruct (prompt_begin_open remote Hr l Hl) as (l1&r1&E1&_). rewrite E1 in *.
    destruct r1 as [p|e|]; [|by eauto..]. destruct S1 as [Hl1 _].
    apply (deadline_returns (fun d => open_loop fuel p remote d timeout) fuel); [done|done|].
    intros. by apply open_loop_returns.
  - unfold read. destruct (zlen out =? 0); [by eauto|].
    apply (deadline_returns (fun d => read_loop fuel port out d) fuel); [done|done|].
    intros. by apply read_loop_returns.
Qed.

Lemma blocking_calls_return_witness :
  exists l' r, open 11 62078 10 (sample_link <| version := Some MuxVersion.V2 |>) = Some (l', r).
Proof.
  refine (proj1 (proj2 (blocking_calls_return 11 10 (sample_link <| version := Some MuxVersion.V2 |>)
    VersionRequest.resync 62078 FIRST_LOCAL_PORT [0] _ _ _))).
  - apply link_ok_version, link_ok_new. by_compute.
  - by_compute.
  - by_compute.
Defined.

(** [flush] ends on its own: on any link that satisfies the invariant it
    returns, touches no session but the one named and changes that one only by
    pulling segments from it; when it reports success, the transport is full or
    the session has nothing left to send. *)
Theorem flush_drains `{LawfulTransport T} `{!SteadyClock T} port (l : MuxLink T) :
  link_ok l ->
  exists l' r, flush port l = Some (l', r) /\ flushed port l l' /\ (r = Ok tt -> drained port l').
Proof.
  intros Hl. destruct (prompt_flush port l Hl) as (l'&r&E&_). exists l', r. split; [done|].
  by apply (flush_loop_spec (flush_fuel l port) port).
Qed.

Lemma flush_drains_witness :
  exists l' r, flush FIRST_LOCAL_PORT sample_link = Some (l', r) /\
    flushed FIRST_LOCAL_PORT sample_link l' /\ (r = Ok tt -> drained FIRST_LOCAL_PORT l').
Proof. refine (flush_drains FIRST_LOCAL_PORT sample_link _). apply link_ok_new. by_compute. Defined.

(** The wire format of an outgoing packet.  A packet that fits goes to the
    transport as one transfer that decodes, under the negotiated version, to
    the protocol and payload given, the current transmit sequence and the
    acknowledgement of the last packet received; the transmit sequence moves
    (modulo 2^16, version 2 only) exactly when the transfer succeeds.  One that
    does not fit changes nothing. *)
Theorem send_packet_wire `{BulkTransport T} protocol payload (l : MuxLink T) v :
  link_ok l -> Protocol.wf protocol -> version l = Some v ->
  let total := MuxVersion.header_len v + zlen payload in
  let limit := Z.min (bulk_max_packet (transport l)) MAX_PACKET in
  if limit <? total then send_packet protocol payload l = Some (l, Err (TooLarge total limit)) else
  exists packet h,
    MuxHeader.decode v packet = Ok h /\ MuxHeader.payload h v packet = Ok payload /\
    MuxHeader.protocol h = protocol /\ zlen packet = total /\
    (MuxVersion.is_sequenced v = true ->
       MuxHeader.magic h = HOST_MAGIC /\ MuxHeader.tx_seq h = tx_seq l /\
       wrapping_add 16 (MuxHeader.rx_ack h) 1 = rx_expected l) /\
    send_packet protocol payload l =
      let '(t, r) := bulk_send (transport l) packet in
      let sent := l <| transport := t |> in
      match r with
      | Ok _ => Some (sent <| tx_seq := if MuxVersion.is_sequenced v
                                        then wrapping_add 16 (tx_seq l) 1 else tx_seq l |>, Ok tt)
      | Err e => Some (sent, Err (MuxIo e))
      | Panic => Some (sent, Panic)
      end.
Proof.
  intros Hl Hp Hv. cbv zeta. rewrite send_packet_eq, Hv. cbv zeta.
  destruct (_ <? _) eqn:Fit; [done|]. bools.
  pose proof (version_header_len v). pose proof (zlen_nonneg payload).
  set (h := MuxHeader.Mk protocol (wrap 32 (MuxVersion.header_len v + zlen payload)) HOST_MAGIC
    (tx_seq l) (wrapping_sub 16 (rx_expected l) 1)).
  assert (HeaderFacts.wf h) as Hwf.
  { split_and!; simpl; try done; [apply wrap_range; lia|apply Hl|apply wrap_range; lia]. }
  assert (zlen (packet_of v protocol (tx_seq l) (rx_expected l) payload) =
          MuxVersion.header_len v + zlen payload) as Hlen.
  { unfold packet_of. by rewrite zlen_app, HeaderFacts.zlen_header_bytes. }
  exists (packet_of v protocol (tx_seq l) (rx_expected l) payload), (HeaderFacts.carried v h).
  split_and!; [by apply HeaderFacts.decode_header_bytes| |by destruct v|done| |].
  - unfold MuxHeader.payload. rewrite Hlen.
    replace (MuxHeader.length _) with (MuxVersion.header_len v + zlen payload).
    2: { unfold HeaderFacts.carried. symmetry. assert (forall n, 0 <= n < 2 ^ 32 -> wrap 32 n = n) as W
           by (intros; by apply wrap_small). unfold MAX_PACKET in *. destruct v; simpl; apply W; simpl in *; lia. }
    rewrite Z.eqb_refl, (proj2 (Z.ltb_ge _ _)) by lia. simpl.
    rewrite slice_ok by lia. f_equal. unfold packet_of.
    rewrite zdrop_app_ge by (rewrite HeaderFacts.zlen_header_bytes; lia).
    rewrite HeaderFacts.zlen_header_bytes, Z.sub_diag, zdrop_0. apply ztake_all. lia.
  - intros Sq. unfold HeaderFacts.carried. rewrite Sq. simpl. split_and!; try done.
    pose proof (lo_rx l Hl) as Hr. revert Hr. clear. unfold in_range. words.
  - destruct (bulk_send _ _) as [t [a|e|]]; try done. destruct (MuxVersion.is_sequenced v); [done|].
    by destruct l.
Qed.

Lemma send_packet_wire_witness :
  exists l', send_packet Protocol.Tcp [1; 2; 3] small_link = Some (l', Ok tt) /\ tx_seq l' = 1.
Proof.
  pose proof (send_packet_wire Protocol.Tcp [1; 2; 3] small_link MuxVersion.V2 small_link_ok tcp_protocol_wf eq_refl)
    as S.
  cbv zeta in S. destruct S as (packet&h&_&_&_&_&_&S). eexists. split; [exact S|reflexivity].
Defined.

(** Port allocation.  The port returned is a dynamic one that no session holds,
    and allocation fails exactly when all 16,384 of them are taken; nothing but
    the cursor moves. *)
Theorem allocate_port_spec {T} (l : MuxLink T) :
  link_ok l ->
  exists next r, allocate_port l = Some (l <| next_local_port := next |>, r) /\
    FIRST_LOCAL_PORT <= next < 2 ^ 16 /\
    match r with
    | Ok p => FIRST_LOCAL_PORT <= p < 2 ^ 16 /\ sessions l !! p = None
    | Err e => e = NoPorts /\
        forall p, FIRST_LOCAL_PORT <= p < 2 ^ 16 -> is_Some (sessions l !! p)
    | Panic => False
    end.
Proof.
  intros Hl. unfold allocate_port, bind, get, put, lift, ok_or.
  set (turns := Z.to_nat (2 ^ 16 - FIRST_LOCAL_PORT)).
  destruct (scan_ports_range turns (sessions l) _ (lo_port l Hl)) as [H1 H2].
  pose proof (fun k => scan_ports_none turns (sessions l) (next_local_port l) k (lo_port l Hl)) as H3.
  destruct (scan_ports turns (sessions l) (next_local_port l)) as [next found]. simpl in *.
  exists next. destruct found as [p|]; eexists; (split; [done|]); (split; [done|]); [by apply H2|].
  split; [done|]. intros p Hp. pose proof (lo_port l Hl) as Hn.
  specialize (H3 ((p - next_local_port l) mod (2 ^ 16 - FIRST_LOCAL_PORT)) eq_refl).
  unfold port_at in H3. rewrite Zplus_mod_idemp_r in H3.
  replace (next_local_port l - FIRST_LOCAL_PORT + (p - next_local_port l)) with
    (p - FIRST_LOCAL_PORT) in H3 by lia.
  unfold FIRST_LOCAL_PORT in *. rewrite (Z.mod_small (p - 49152)) in H3 by lia.
  replace (49152 + (p - 49152)) with p in H3 by lia. apply H3.
  subst turns. pose proof (Z.mod_pos_bound (p - next_local_port l) (2 ^ 16 - 49152)). lia.
Qed.

Lemma allocate_port_spec_witness :
  exists next r, allocate_port small_link = Some (small_link <| next_local_port := next |>, r) /\
    FIRST_LOCAL_PORT <= next < 2 ^ 16.
Proof.
  destruct (allocate_port_spec small_link small_link_ok) as (next&r&E&Hn&_). eauto.
Defined.

(** ** Receiving *)

(** What [pump] has done before it looks into the packet. *)
Definition receiving {T} (l : MuxLink T) (t : T) : MuxLink T :=
  l <| transport := t |> <| packets_received := wrapping_add 64 (packets_received l) 1 |>.

Lemma pump_eq {T} `{BulkTransport T} d (l : MuxLink T) v t packet :
  version l = Some v -> bulk_recv (transport l) d = (t, Ok (Some packet)) ->
  pump d l =
    match MuxHeader.decode v packet with
    | Panic => Some (receiving l t, Panic)
    | Err error => reject_packet error packet (receiving l t)
    | Ok h =>
        match MuxHeader.payload h v packet with
        | Panic => Some (receiving l t, Panic)
        | Err error => reject_packet error packet (receiving l t)
        | Ok payload => dispatch_packet v packet h payload (receiving l t)
        end
    end.
Proof.
  intros Hv Hr. unfold pump. unfold bind at 1 2, get, lift, ok_or. rewrite Hv. cbv beta iota.
  unfold bind at 1, transport_recv. rewrite Hr. simpl. unfold bind at 1, put. cbv beta iota.
  destruct (MuxHeader.decode v packet) as [h|e|]; [|done..].
  by destruct (MuxHeader.payload h v packet).
Qed.

(** A transfer that does not frame as a mux packet is dropped: it is counted
    and reported, and neither the sessions nor the sequence counters see it. *)
Theorem pump_rejects `{BulkTransport T} d (l : MuxLink T) v t packet :
  version l = Some v -> bulk_recv (transport l) d = (t, Ok (Some packet)) -> is_bytes packet ->
  (zlen packet < MuxVersion.header_len v \/ be_val (ztake 4 (zdrop 4 packet)) <> zlen packet) ->
  exists l' declared, pump d l = Some (l', Ok (Rejected declared (zlen packet))) /\
    sessions l' = sessions l /\ tx_seq l' = tx_seq l /\ rx_expected l' = rx_expected l /\
    version l' = version l /\ roundtrip l' = roundtrip l /\
    packets_received l' = wrapping_add 64 (packets_received l) 1 /\
    packets_rejected l' = wrapping_add 64 (packets_rejected l) 1.
Proof.
  intros Hv Hr Hb Hbad. rewrite (pump_eq d l v t packet Hv Hr).
  assert (forall e, exists l' declared,
    reject_packet e packet (receiving l t) = Some (l', Ok (Rejected declared (zlen packet))) /\
    sessions l' = sessions l /\ tx_seq l' = tx_seq l /\ rx_expected l' = rx_expected l /\
    version l' = version l /\ roundtrip l' = roundtrip l /\
    packets_received l' = wrapping_add 64 (packets_received l) 1 /\
    packets_rejected l' = wrapping_add 64 (packets_rejected l) 1) as R.
  { intros e. do 2 eexists. split; [reflexivity|]. by simpl. }
  pose proof (HeaderFacts.decode_no_panic v packet).
  destruct (MuxHeader.decode v packet) as [h|e|] eqn:D; [|apply R|done].
  destruct (HeaderFacts.decode_some v packet h Hb D) as (Hlen&_&_&Hpre).
  assert (MuxHeader.length h <> zlen packet) as Hl.
  { destruct Hbad as [?|Hbad]; [lia|]. intros E. apply Hbad. rewrite <- E.
    by rewrite (HeaderFacts.decode_length _ _ _ D). }
  unfold MuxHeader.payload. rewrite (proj2 (Z.eqb_neq _ _)) by done. apply R.
Qed.

Lemma pump_rejects_witness :
  exists l' declared, pump 5 reject_link = Some (l', Ok (Rejected declared 3)) /\ tx_seq l' = 0.
Proof.
  destruct (pump_rejects 5 reject_link MuxVersion.V2 (Script [] [] 1) [1; 2; 3])
    as (l'&declared&E&_&Ht&_); [reflexivity|reflexivity|concrete_bytes|left; by_compute|].
  exists l', declared. split; [exact E|exact Ht].
Defined.

(** Packet sequencing.  A framed packet that is not a version packet is
    accepted under version 2 only when it carries the expected sequence number,
    which then advances by one; any other number is an error that leaves
    sessions and counters as they were.  A version packet restarts both
    counters whatever it carries. *)
Theorem pump_sequencing `{BulkTransport T} d (l : MuxLink T) v t packet h payload l' r :
  version l = Some v -> bulk_recv (transport l) d = (t, Ok (Some packet)) ->
  MuxHeader.decode v packet = Ok h -> MuxHeader.payload h v packet = Ok payload ->
  pump d l = Some (l', r) ->
  if bool_decide (MuxHeader.protocol h = Protocol.Version) then
    sessions l' = sessions l /\
    match VersionPacket.decode packet with
    | Ok reply => version l' = Some (VersionPacket.negotiated reply) /\ tx_seq l' = 0 /\
                  rx_expected l' = 0 /\ r = Ok (Other Protocol.Version)
    | _ => tx_seq l' = tx_seq l /\ rx_expected l' = rx_expected l /\ version l' = version l
    end
  else if MuxVersion.is_sequenced v then
    if MuxHeader.tx_seq h =? rx_expected l
    then rx_expected l' = wrapping_add 16 (rx_expected l) 1 /\ version l' = Some v
    else r = Err (SequenceGap (rx_expected l) (MuxHeader.tx_seq h)) /\
         sessions l' = sessions l /\ tx_seq l' = tx_seq l /\ rx_expected l' = rx_expected l
  else rx_expected l' = rx_expected l /\ version l' = Some v.
Proof.
  intros Hv Hr Hd Hp E. rewrite (pump_eq d l v t packet Hv Hr), Hd, Hp in E.
  unfold dispatch_packet in E. case_bool_decide as Pv.
  { unfold bind at 1, lift in E. pose proof (HeaderFacts.version_decode_no_panic packet).
    destruct (VersionPacket.decode packet) as [reply|e|]; [..|done]; cbn [map_err] in E.
    - injection E as <- <-. by split_and!.
    - injection E as <- <-. by split_and!. }
  unfold bind at 1, get at 1 in E. cbv beta iota in E.
  assert (forall l1 l2 r2, dispatch_rest v h payload l1 = Some (l2, r2) ->
    rx_expected l2 = rx_expected l1 /\ version l2 = version l1) as Rest by apply dispatch_rest_keeps.
  change (rx_expected (receiving l t)) with (rx_expected l) in E.
  destruct (MuxVersion.is_sequenced v) eqn:Sq.
  - destruct (MuxHeader.tx_seq h =? rx_expected l) eqn:G; cbn [negb] in E.
    + unfold bind at 1, put at 1 in E. cbv beta iota in E.
      apply Rest in E as [E1 E2]. by rewrite E1, E2.
    + injection E as <- <-. by split_and!.
  - unfold bind at 1, ret at 1 in E. cbv beta iota in E.
    apply Rest in E as [E1 E2]. by rewrite E1, E2.
Qed.

Lemma pump_sequencing_witness :
  exists l', pump 5 gap_link = Some (l', Err (SequenceGap 0 7)) /\ rx_expected l' = 0.
Proof.
  assert (bulk_recv (transport gap_link) 5 = (Script [] [] 1, Ok (Some gap_packet))) as Hr
    by (vm_compute; reflexivity).
  assert (MuxHeader.decode MuxVersion.V2 gap_packet = Ok (MuxHeader.Mk Protocol.Tcp 16 HOST_MAGIC 7 65535))
    as Hd by (vm_compute; reflexivity).
  assert (MuxHeader.payload (MuxHeader.Mk Protocol.Tcp 16 HOST_MAGIC 7 65535) MuxVersion.V2 gap_packet = Ok [])
    as Hp by (vm_compute; reflexivity).
  assert (match pump 5 gap_link with Some _ => true | None => false end = true) as Hs
    by (vm_compute; reflexivity).
  destruct (pump 5 gap_link) as [[l' r]|] eqn:E; [clear Hs|discriminate Hs].
  destruct (pump_sequencing 5 gap_link MuxVersion.V2 _ gap_packet _ [] l' r eq_refl Hr Hd Hp E)
    as (->&_&_&Hx).
  exists l'. split; [reflexivity|exact Hx].
Defined.

(** Demultiplexing.  An in-sequence TCP packet reaches the session its
    destination port names and no other: that session takes the segment (and
    may then be flushed), every other one is untouched, and the event or the
    error reported is that session's.  A port without a session is reported and
    changes nothing. *)
Theorem pump_delivers `{BulkTransport T} d (l : MuxLink T) v t packet h payload tcp l' r :
  version l = Some v -> bulk_recv (transport l) d = (t, Ok (Some packet)) ->
  MuxHeader.decode v packet = Ok h -> MuxHeader.payload h v packet = Ok payload ->
  MuxHeader.protocol h = Protocol.Tcp ->
  (MuxVersion.is_sequenced v = true -> MuxHeader.tx_seq h = rx_expected l) ->
  TcpHeader.decode payload = Ok tcp -> pump d l = Some (l', r) ->
  (forall q, q <> TcpHeader.destination_port tcp -> sessions l' !! q = sessions l !! q) /\
  match sessions l !! TcpHeader.destination_port tcp with
  | None => sessions l' !! TcpHeader.destination_port tcp = None
  | Some s =>
      let '(taken, applied) := MuxSession.on_segment s tcp (zdrop TCP_HEADER_LEN payload) in
      (exists s', sessions l' !! TcpHeader.destination_port tcp = Some s' /\ pulled taken s') /\
      match applied with
      | Err e => r = Err (MuxSessionErr (TcpHeader.destination_port tcp) e)
      | Ok ev => forall ev', r = Ok ev' -> ev' = SessionEv (TcpHeader.destination_port tcp) ev
      | Panic => r = Panic
      end
  end.
Proof.
  intros Hv Hr Hd Hp Ht Hseq Htcp E. rewrite (pump_eq d l v t packet Hv Hr), Hd, Hp in E.
  unfold dispatch_packet in E. rewrite Ht, bool_decide_eq_false_2 in E by done. cbv iota in E.
  unfold bind at 1, get at 1 in E. cbv beta iota in E.
  change (rx_expected (receiving l t)) with (rx_expected l) in E.
  assert (exists l1, dispatch_tcp payload l1 = Some (l', r) /\ sessions l1 = sessions l) as (l1&E1&Es).
  { assert (forall l1, dispatch_rest v h payload l1 = dispatch_tcp payload l1) as R.
    { intros l1. unfold dispatch_rest. by rewrite Ht, bool_decide_eq_false_2, bool_decide_eq_true_2. }
    destruct (MuxVersion.is_sequenced v).
    - rewrite (Hseq eq_refl), Z.eqb_refl in E. cbn [negb] in E. unfold bind at 1, put at 1 in E.
      cbv beta iota in E. rewrite R in E. by eexists.
    - unfold bind at 1, ret at 1 in E. cbv beta iota in E. rewrite R in E. by eexists. }
  apply dispatch_tcp_spec in E1. rewrite Htcp in E1. cbv zeta in E1. rewrite Es in E1.
  destruct (sessions l !! TcpHeader.destination_port tcp) as [s|] eqn:Hs.
  - destruct (MuxSession.on_segment _ _ _) as [taken applied]. destruct E1 as [[_ Ho Hpl] Hres].
    simpl in *. rewrite lookup_insert_eq in Hpl. split_and!; [|..].
    + intros q Hq. rewrite Ho by done. by apply lookup_insert_ne.
    + destruct (sessions l' !! _) as [s'|]; [|done]. eauto.
    + done.
  - destruct E1 as [_ Ho Hpl]. rewrite Es in *. split; [done|]. rewrite Hs in Hpl.
    by destruct (sessions l' !! _).
Qed.

Lemma pump_delivers_witness :
  exists l' s', sessions l' !! FIRST_LOCAL_PORT = Some s' /\
    option_map fst (pump 5 synack_link) = Some l'.
Proof.
  set (packet := device_packet 0 1 sample_syn_ack).
  set (h := MuxHeader.Mk Protocol.Tcp 36 HOST_MAGIC 0 0).
  set (tcp := TcpHeader.Mk 62078 FIRST_LOCAL_PORT 700 (wrapping_add 32 sample_iss 1) flags.SYN_ACK 65536).
  assert (bulk_recv (transport synack_link) 5 = (Script [] [] 1, Ok (Some packet))) as Hr
    by (vm_compute; reflexivity).
  assert (MuxHeader.decode MuxVersion.V2 packet = Ok h) as Hd by (vm_compute; reflexivity).
  assert (MuxHeader.payload h MuxVersion.V2 packet = Ok sample_syn_ack) as Hp by (vm_compute; reflexivity).
  assert (TcpHeader.decode sample_syn_ack = Ok tcp) as Ht by (vm_compute; reflexivity).
  assert (match pump 5 synack_link with Some _ => true | None => false end = true) as Hs
    by (vm_compute; reflexivity).
  destruct (pump 5 synack_link) as [[l' r]|] eqn:E; [clear Hs|discriminate Hs].
  pose proof (pump_delivers 5 synack_link MuxVersion.V2 _ packet h sample_syn_ack tcp l' r eq_refl Hr Hd Hp
    eq_refl (fun _ => eq_refl) Ht E) as [_ S].
  assert (sessions synack_link !! TcpHeader.destination_port tcp = Some (fst (MuxSession.open
    (Build_SessionConfig FIRST_LOCAL_PORT 62078 sample_iss 1000 65536)))) as Hl by reflexivity.
  rewrite Hl in S. destruct (MuxSession.on_segment _ _ _) as [taken applied].
  destruct S as [(s'&Hs'&_) _]. exists l', s'. split; [exact Hs'|reflexivity].
Defined.

(** ** Opening and writing *)

Lemma open_loop_ok {T} `{BulkTransport T} fuel port remote deadline timeout (l l' : MuxLink T) p :
  open_loop fuel port remote deadline timeout l = Some (l', Ok p) ->
  p = port /\ session_state l' port = Some Established /\ drained port l'.
Proof.
  revert l. induction fuel as [|fuel IH]; intros l; [done|]. cbn [open_loop].
  unfold bind at 1, get at 1. cbv beta iota. destruct (session_state l port) as [[]|] eqn:St; [|..|done].
  - unfold bind at 1. destruct (now l) as [[l1 [at_|e|]]|]; [|done..]. cbv zeta.
    destruct (_ =? 0); [done|]. unfold bind at 1.
    destruct (pump _ l1) as [[l2 [ev|e|]]|]; [|done..]. apply IH.
  - unfold finish_open. unfold bind at 1 2.
    destruct (flush port l) as [[l1 [[]|e|]]|] eqn:F; [|done..]. intros [= <- <-].
    destruct (flush_loop_spec _ _ _ _ _ F) as [[_ _ Hp] Hd]. split_and!; [done| |by apply Hd].
    unfold session_state in *. simpl. destruct (sessions l !! port) as [s|]; [|done].
    destruct (sessions l1 !! port) as [s1|]; [|done]. simpl in *.
    apply pulled_keeps in Hp as (->&_). done.
  - done.
Qed.

(** A successful [open] names a dynamic port that was free, its session is
    established, and the closing leg of the handshake has been flushed. *)
Theorem open_establishes `{BulkTransport T} fuel remote timeout (l l' : MuxLink T) port :
  link_ok l -> open fuel remote timeout l = Some (l', Ok port) ->
  FIRST_LOCAL_PORT <= port < 2 ^ 16 /\ sessions l !! port = None /\
  session_state l' port = Some Established /\ drained port l'.
Proof.
  intros Hl. unfold open, begin_open. unfold bind at 1 2.
  unfold allocate_port, bind at 1, get at 1.
  destruct (scan_ports_range (Z.to_nat (2 ^ 16 - FIRST_LOCAL_PORT)) (sessions l) _ (lo_port l Hl))
    as [_ H2].
  destruct (scan_ports _ _ _) as [next [q|]]; [|done]. destruct (H2 q eq_refl) as [Hq Hf].
  unfold bind at 1, put, lift, ok_or. cbv beta iota.
  match goal with |- context [bind segment_size ?k ?l0] =>
    assert (yields (bind segment_size k) q) as Y; [|destruct (bind segment_size k l0) as [[l1 [p|e|]]|] eqn:B] end;
    [|apply Y in B as ->|done..].
  { repeat (apply yields_bind; intros). apply yields_ret. }
  unfold bind at 1. destruct (deadline_after timeout l1) as [[l2 [at_|e|]]|]; [|done..].
  intros (->&?&?)%open_loop_ok. done.
Qed.

Lemma open_establishes_witness :
  exists l' port, open 20 62078 10 open_link = Some (l', Ok port) /\
    sessions open_link !! port = None /\ session_state l' port = Some Established.
Proof.
  assert (match open 20 62078 10 open_link with Some (_, Ok _) => true | _ => false end = true) as Hs
    by (vm_compute; reflexivity).
  destruct (open 20 62078 10 open_link) as [[l' [port|e|]]|] eqn:E; [clear Hs|discriminate Hs..].
  assert (link_ok open_link) as Hl by (apply link_ok_version, link_ok_new; clear E; by_compute).
  destruct (open_establishes 20 62078 10 open_link l' port Hl E) as (_&H1&H2&_).
  exists l', port. split; [reflexivity|]. split; [exact H1|exact H2].
Defined.

Lemma write_loop_ok {T} `{BulkTransport T} fuel port wanted deadline (l l' : MuxLink T) n :
  0 <= wanted -> write_loop fuel port wanted deadline l = Some (l', Ok n) ->
  exists s, sessions l' !! port = Some s /\ MuxSession.state s = Established /\
    n = wanted - Z.min (MuxSession.pending_len s) wanted.
Proof.
  intros Hw. revert l. induction fuel as [|fuel IH]; intros l; [done|]. cbn [write_loop].
  unfold bind at 1. destruct (get_session port l) as [[l1 [s|e|]]|]; [|done..]. cbv zeta.
  unfold bind at 1. destruct (flush port l1) as [[l2 [u|e|]]|]; [|done..].
  unfold bind at 1. unfold get_session, bind at 1, get at 1, lift, ok_or.
  destruct (sessions l2 !! port) as [s2|] eqn:Hs2; [|done].
  destruct (decide (MuxSession.state s2 = Established)) as [St|St];
    [rewrite bool_decide_eq_true_2 by done|by rewrite bool_decide_eq_false_2].
  cbn [negb]. destruct (MuxSession.pending_len s2 =? 0) eqn:P.
  { intros [= <- <-]. bools. exists s2. rewrite P, Z.min_l by lia. split_and!; [done|done|lia]. }
  unfold bind at 1, now at 1. destruct (clock_now _) as [t at_].
  destruct (since deadline at_ =? 0). { intros E. injection E as E1 E2. subst. eauto. }
  destruct (_ && _).
  - unfold bind at 1. destruct (drain_inbound fuel 0 _) as [[l3 [k|e|]]|]; [|done..]. apply IH.
  - unfold bind at 1. destruct (now _) as [[l3 [k|e|]]|]; [|done..].
    unfold bind at 1, attempt. destruct (pump _ l3) as [[l4 pumped]|]; [|done].
    unfold bind at 1. destruct (now l4) as [[l5 [k2|e|]]|]; [|done..].
    unfold bind at 1. destruct (now l5) as [[l6 [k3|e|]]|]; [|done..].
    unfold bind at 1, meter, put. cbv beta iota. unfold bind at 1.
    destruct pumped as [ev|e|]; [|done..]. apply IH.
Qed.

(** [write] reports exactly what left the queue: on success the session is
    still established, and the count returned is the length of the data less
    what is still pending (never negative). *)
Theorem write_reports `{BulkTransport T} fuel port data timeout (l l' : MuxLink T) n :
  write fuel port data timeout l = Some (l', Ok n) ->
  0 <= n <= zlen data /\
  exists s, sessions l' !! port = Some s /\ MuxSession.state s = Established /\
    n = zlen data - Z.min (MuxSession.pending_len s) (zlen data).
Proof.
  unfold write. unfold bind at 1. destruct (enqueue port data l) as [[l1 [u|e|]]|]; [|done..].
  unfold bind at 1. destruct (deadline_after timeout l1) as [[l2 [at_|e|]]|]; [|done..].
  intros E. apply write_loop_ok in E as (s&Hs&St&->); [|apply zlen_nonneg].
  split; [|by eauto]. unfold MuxSession.pending_len. pose proof (zlen_nonneg (MuxSession.outbound s)).
  pose proof (zlen_nonneg data). lia.
Qed.

Lemma write_reports_witness :
  exists l' n, write 20 FIRST_LOCAL_PORT [1; 2; 3] 10 write_link = Some (l', Ok n) /\ 0 <= n <= 3.
Proof.
  assert (match write 20 FIRST_LOCAL_PORT [1; 2; 3] 10 write_link with Some (_, Ok _) => true | _ => false end
    = true) as Hs by (vm_compute; reflexivity).
  destruct (write 20 FIRST_LOCAL_PORT [1; 2; 3] 10 write_link) as [[l' [n|e|]]|] eqn:E;
    [clear Hs|discriminate Hs..].
  destruct (write_reports 20 FIRST_LOCAL_PORT [1; 2; 3] 10 write_link l' n E) as (H1&_).
  exists l', n. split; [reflexivity|exact H1].
Defined.
