(* ===== verification/Watchdog.v ===== *)
(** * The link watchdog (src/src/usbmux/watchdog.rs)

    Threads that use the link announce themselves in a block of atomics
    ([LinkActivity]); a sampling thread reads it and reports stalls.  The hold
    protocol is modelled one atomic access at a time, in the order the code
    makes them and interleaved arbitrarily, with [SharedLink::with]
    (src/src/usbmux/stream.rs) as the client: announce, lock, [acquired], body,
    unlock, drop of the hold.  Accesses are sequentially consistent.  Times are
    nanoseconds since [began]. *)

From S2P Require Import Prelude MuxFrame MuxTrace.
From stdpp Require Import base tactics numbers list.
From Stdlib Require Import ZArith Lia.

Open Scope Z_scope.

Definition SECOND : Z := 1000 * 1000 * 1000.
Definition DEFAULT_WATCHDOG_SAMPLE : Z := 1 * SECOND.
Definition DEFAULT_HELD_STALL_AFTER : Z := 10 * SECOND.
Definition DEFAULT_QUIET_AFTER : Z := 45 * SECOND.
Definition DEFAULT_WATCHDOG_REPEAT : Z := 10 * SECOND.

Record LinkWatchdogStats := {
  packets_in : Z; packets_out : Z; deferred_writes : Z; idle_reads : Z; reads_refused : Z; queued : Z;
}.

Definition code (p : LinkPhase.t) : Z :=
  match p with
  | LinkPhase.Idle => 0 | LinkPhase.Inspect => 1 | LinkPhase.Negotiate => 2 | LinkPhase.OpenSyn => 3
  | LinkPhase.OpenPoll => 4 | LinkPhase.OpenEnd => 5 | LinkPhase.Read => 6 | LinkPhase.Write => 7
  | LinkPhase.WriteProbe => 8 | LinkPhase.Flush => 9 | LinkPhase.Close => 10 | LinkPhase.PumpFallback => 11
  end.

Definition from_code (c : Z) : LinkPhase.t :=
  if c =? 1 then LinkPhase.Inspect else if c =? 2 then LinkPhase.Negotiate else
  if c =? 3 then LinkPhase.OpenSyn else if c =? 4 then LinkPhase.OpenPoll else
  if c =? 5 then LinkPhase.OpenEnd else if c =? 6 then LinkPhase.Read else
  if c =? 7 then LinkPhase.Write else if c =? 8 then LinkPhase.WriteProbe else
  if c =? 9 then LinkPhase.Flush else if c =? 10 then LinkPhase.Close else
  if c =? 11 then LinkPhase.PumpFallback else LinkPhase.Idle.

(** ** Shared activity *)

Record LinkActivity := MkActivity {
  held_since : Z;
  phase : Z;
  port : Z;
  waiters : Z;
  acquisitions : Z;
  releases : Z;
}.

#[export] Instance eta_activity : Eta LinkActivity := fun a =>
  MkActivity (held_since a) (phase a) (port a) (waiters a) (acquisitions a) (releases a).

Definition new_activity : LinkActivity := MkActivity 0 (code LinkPhase.Idle) 0 0 0 0.

Record LinkSample := MkSample {
  s_phase : LinkPhase.t; s_port : Z; s_held : Z; s_waiters : Z; s_acquisitions : Z; s_releases : Z;
}.

(** How long a loaded [held_since] says the link has been held. *)
Definition held_for (before after stamp elapsed : Z) : Z :=
  if (before =? after) && negb (stamp =? 0) then saturating_sub elapsed (stamp - 1) else 0.

Definition sample_of (ph pt wt after held rel : Z) : LinkSample :=
  MkSample (if held =? 0 then LinkPhase.Idle else from_code ph) (if held =? 0 then 0 else pt) held wt after rel.

(** A sample that nothing interrupts. *)
Definition sample (a : LinkActivity) (now : Z) : LinkSample :=
  sample_of (phase a) (port a) (waiters a) (acquisitions a)
    (held_for (acquisitions a) (acquisitions a) (held_since a) now) (releases a).

(** ** Threads

    Where a thread stands in [SharedLink::with]; from the stamp on, a thread
    remembers the time it took. *)
Inductive pc :=
| Outside
| Waiting (ph : LinkPhase.t) (pt : Z)        (* begin_wait done, asking for the lock *)
| Locked (ph : LinkPhase.t) (pt : Z)         (* next: waiters.fetch_sub *)
| Counted (ph : LinkPhase.t) (pt : Z)        (* next: phase.store *)
| Phased (pt : Z)                            (* next: port.store *)
| Ported                                     (* next: began.elapsed() *)
| Timed (stamp : Z)                          (* next: held_since.store *)
| Stamped (stamp : Z)                        (* next: acquisitions.fetch_add *)
| Body (stamp : Z)                           (* the closure runs *)
| Unlocked (stamp : Z)                       (* guard dropped; next: held_since.store(0) *)
| Cleared                                    (* next: phase.store(Idle) *)
| Idled.                                     (* next: releases.fetch_add *)

(** A sampler between two loads. *)
Inductive probe :=
| Resting
| Before (before : Z)
| LoadedStamp (before stamp : Z)
| LoadedPhase (before stamp ph : Z)
| LoadedPort (before stamp ph pt : Z)
| LoadedWaiters (before stamp ph pt wt : Z)
| LoadedAfter (before stamp ph pt wt after : Z)
| Aged (ph pt wt after held : Z)
| Sampled (look : LinkSample).

Record sys := MkSys {
  activity : LinkActivity;
  now : Z;
  owner : option nat;
  threads : list pc;
  sampler : probe;
}.

#[export] Instance eta_sys : Eta sys := fun s =>
  MkSys (activity s) (now s) (owner s) (threads s) (sampler s).

Definition start (n : nat) : sys := MkSys new_activity 0 None (replicate n Outside) Resting.

Definition goto (i : nat) (p : pc) (a : LinkActivity) (s : sys) : sys :=
  s <| activity := a |> <| threads := <[i := p]> (threads s) |>.

(** [begin_wait] of thread [i]. *)
Definition begin_wait (i : nat) (ph : LinkPhase.t) (pt : Z) (s : sys) : option sys :=
  match threads s !! i with
  | Some Outside =>
      let a := activity s in
      Some (goto i (Waiting ph pt) (a <| waiters := wrapping_add 32 (waiters a) 1 |>) s)
  | _ => None
  end.

(** A hold dropped before the lock came. *)
Definition abandon (i : nat) (s : sys) : option sys :=
  match threads s !! i with
  | Some (Waiting _ _) =>
      let a := activity s in
      Some (goto i Outside (a <| waiters := wrapping_sub 32 (waiters a) 1 |>) s)
  | _ => None
  end.

(** The mutex around the link, in [SharedLink::with]. *)
Definition lock (i : nat) (ph : LinkPhase.t) (pt : Z) (s : sys) : option sys :=
  match owner s with
  | None => Some (goto i (Locked ph pt) (activity s) s <| owner := Some i |>)
  | Some _ => None
  end.

Definition unlock (i : nat) (stamp : Z) (s : sys) : sys :=
  goto i (Unlocked stamp) (activity s) s <| owner := None |>.

(** The next access of thread [i]: the lock, [acquired], the unlock, and [drop]. *)
Definition advance (i : nat) (s : sys) : option sys :=
  let a := activity s in
  match threads s !! i with
  | Some (Waiting ph pt) => lock i ph pt s
  | Some (Locked ph pt) =>
      Some (goto i (Counted ph pt) (a <| waiters := wrapping_sub 32 (waiters a) 1 |>) s)
  | Some (Counted ph pt) => Some (goto i (Phased pt) (a <| phase := code ph |>) s)
  | Some (Phased pt) => Some (goto i Ported (a <| port := pt |>) s)
  | Some Ported => Some (goto i (Timed (wrap 64 (now s))) a s)
  | Some (Timed stamp) => Some (goto i (Stamped stamp) (a <| held_since := wrapping_add 64 stamp 1 |>) s)
  | Some (Stamped stamp) =>
      Some (goto i (Body stamp) (a <| acquisitions := wrapping_add 64 (acquisitions a) 1 |>) s)
  | Some (Body stamp) => Some (unlock i stamp s)
  | Some (Unlocked _) => Some (goto i Cleared (a <| held_since := 0 |>) s)
  | Some Cleared => Some (goto i Idled (a <| phase := code LinkPhase.Idle |>) s)
  | Some Idled =>
      Some (goto i Outside (a <| releases := wrapping_add 64 (releases a) 1 |>) s)
  | Some Outside | None => None
  end.

(** The next load of [LinkActivity::sample]. *)
Definition look (s : sys) : sys :=
  let a := activity s in
  s <| sampler :=
    match sampler s with
    | Resting | Sampled _ => Before (acquisitions a)
    | Before b => LoadedStamp b (held_since a)
    | LoadedStamp b st => LoadedPhase b st (phase a)
    | LoadedPhase b st ph => LoadedPort b st ph (port a)
    | LoadedPort b st ph pt => LoadedWaiters b st ph pt (waiters a)
    | LoadedWaiters b st ph pt wt => LoadedAfter b st ph pt wt (acquisitions a)
    | LoadedAfter b st ph pt wt af => Aged ph pt wt af (held_for b af st (now s))
    | Aged ph pt wt af held => Sampled (sample_of ph pt wt af held (releases a))
    end |>.

Inductive action :=
| Pass (d : nat)
| Begin (i : nat) (ph : LinkPhase.t) (pt : Z)
| GiveUp (i : nat)
| Go (i : nat)
| Look.

Definition act (x : action) (s : sys) : option sys :=
  match x with
  | Pass d => Some (s <| now := now s + Z.of_nat d |>)
  | Begin i ph pt => begin_wait i ph pt s
  | GiveUp i => abandon i s
  | Go i => advance i s
  | Look => Some (look s)
  end.

Fixpoint run (xs : list action) (s : sys) : option sys :=
  match xs with
  | [] => Some s
  | x :: xs => match act x s with Some s => run xs s | None => None end
  end.

(** ** The watchdog's loop *)

Record LinkWatchdogPolicy := {
  policy_sample : Z; held_stall_after : Z; quiet_after : Z; repeat_every : Z;
}.

Definition default_policy : LinkWatchdogPolicy := {|
  policy_sample := DEFAULT_WATCHDOG_SAMPLE; held_stall_after := DEFAULT_HELD_STALL_AFTER;
  quiet_after := DEFAULT_QUIET_AFTER; repeat_every := DEFAULT_WATCHDOG_REPEAT |}.

Record Progress := { p_acquisitions : Z; p_packets_in : Z; p_packets_out : Z }.

#[export] Instance Progress_eq_dec : EqDecision Progress.
Proof. solve_decision. Defined.

Definition progress (acq : Z) (stats : LinkWatchdogStats) : Progress :=
  {| p_acquisitions := acq; p_packets_in := packets_in stats; p_packets_out := packets_out stats |}.

Definition stall_event (view : LinkSample) (stats : LinkWatchdogStats) (since_acquisition stalled : Z)
  : TraceEvent :=
  TLinkStalled (s_phase view) (s_port view) (s_held view) (s_waiters view) (s_acquisitions view)
    since_acquisition stalled (packets_in stats) (packets_out stats) (queued stats) (deferred_writes stats)
    (idle_reads stats) (reads_refused stats).

(** The locals of [run_watchdog]. *)
Record watch := MkWatch {
  last : Progress;
  moved_at : Z;
  stalled_since : option Z;
  reported_at : Z;
}.

#[export] Instance eta_watch : Eta watch := fun w =>
  MkWatch (last w) (moved_at w) (stalled_since w) (reported_at w).

(** What one turn of the loop sees: the time, the sample, the progress and the
    statistics read for the event. *)
Record sight := MkSight { t : Z; view : LinkSample; current : Progress; stats : LinkWatchdogStats }.

Definition watch_start (p : Progress) (t0 t1 : Z) : watch := MkWatch p t0 None t1.

Definition is_stalled (policy : LinkWatchdogPolicy) (held waiting since_acquisition : Z) : bool :=
  (held_stall_after policy <=? held) ||
  ((0 <? waiting) && (held_stall_after policy <=? since_acquisition)) ||
  (quiet_after policy <=? since_acquisition).

Definition turn (policy : LinkWatchdogPolicy) (x : sight) (w : watch) : watch * option TraceEvent :=
  let w := if decide (current x = last w) then w else w <| last := current x |> <| moved_at := t x |> in
  let since := saturating_sub (t x) (moved_at w) in
  match is_stalled policy (s_held (view x)) (s_waiters (view x)) since, stalled_since w with
  | true, None =>
      (w <| stalled_since := Some (t x) |> <| reported_at := t x |>,
       Some (stall_event (view x) (stats x) since 0))
  | true, Some began =>
      if repeat_every policy <=? saturating_sub (t x) (reported_at w)
      then (w <| reported_at := t x |>,
            Some (stall_event (view x) (stats x) since (saturating_sub (t x) began)))
      else (w, None)
  | false, Some began =>
      (w <| stalled_since := None |>,
       Some (TLinkResumed (saturating_sub (t x) began) (s_acquisitions (view x)) (packets_in (stats x))
               (packets_out (stats x))))
  | false, None => (w, None)
  end.

Fixpoint watch_run (policy : LinkWatchdogPolicy) (xs : list sight) (w : watch) : watch * list (Z * TraceEvent) :=
  match xs with
  | [] => (w, [])
  | x :: xs =>
      let '(w, e) := turn policy x w in
      let '(w, es) := watch_run policy xs w in
      (w, match e with Some e => (t x, e) :: es | None => es end)
  end.

(** ** Invariant of the hold protocol *)

Definition tally (f : pc -> bool) (l : list pc) : Z := foldr (fun p n => Z.b2z (f p) + n) 0 l.

Definition is_waiting (p : pc) : bool := match p with Waiting _ _ | Locked _ _ => true | _ => false end.
Definition is_holding (p : pc) : bool :=
  match p with Body _ | Unlocked _ | Cleared | Idled => true | _ => false end.
Definition owns_lock (p : pc) : bool :=
  match p with Locked _ _ | Counted _ _ | Phased _ | Ported | Timed _ | Stamped _ | Body _ => true | _ => false end.

(** The time a thread stored as its stamp, until it clears it. *)
Definition stamp_of (p : pc) : option Z :=
  match p with Stamped st | Body st | Unlocked st => Some st | _ => None end.

(** The time a thread took, stored or not. *)
Definition time_of (p : pc) : option Z :=
  match p with Timed st | Stamped st | Body st | Unlocked st => Some st | _ => None end.

Lemma stamp_time p st : stamp_of p = Some st -> time_of p = Some st.
Proof. by destruct p. Qed.

Lemma tally_insert f l i p q :
  l !! i = Some p -> tally f (<[i := q]> l) = tally f l - Z.b2z (f p) + Z.b2z (f q).
Proof.
  revert i. induction l as [|x l IH]; intros [|i] H; try done; simpl in H; simplify_eq.
  - simpl. lia.
  - specialize (IH i H). unfold tally in *. simpl. lia.
Qed.

Lemma tally_replicate f n : f Outside = false -> tally f (replicate n Outside) = 0.
Proof. intros H. induction n as [|n IH]; [done|]. unfold tally in *. simpl. rewrite H, IH. done. Qed.

Record sys_ok (s : sys) : Prop := {
  ok_now : 0 <= now s;
  ok_waiters : waiters (activity s) = wrap 32 (tally is_waiting (threads s));
  ok_holds : wrap 64 (acquisitions (activity s)) = wrap 64 (releases (activity s) + tally is_holding (threads s));
  ok_owner : forall i p, threads s !! i = Some p -> owns_lock p = true <-> owner s = Some i;
  ok_stamps : forall i p st, threads s !! i = Some p -> time_of p = Some st ->
      exists t, 0 <= t <= now s /\ st = wrap 64 t;
  ok_held : held_since (activity s) <> 0 ->
      exists i p st, threads s !! i = Some p /\ stamp_of p = Some st /\
        held_since (activity s) = wrapping_add 64 st 1;
}.

Lemma start_ok n : sys_ok (start n).
Proof.
  constructor; cbn [start activity now owner threads new_activity waiters acquisitions releases held_since]; [lia| | | | |done].
  - by rewrite tally_replicate.
  - by rewrite tally_replicate.
  - intros i p [-> _]%lookup_replicate. done.
  - intros i p st [-> _]%lookup_replicate. done.
Qed.

(** Moving one thread: what the invariant asks of the move. *)
Lemma move_ok i p q a o s :
  sys_ok s -> threads s !! i = Some p ->
  (owns_lock q = true <-> o = Some i) -> (forall j, j <> i -> o = Some j <-> owner s = Some j) ->
  waiters a = wrap 32 (waiters (activity s) + Z.b2z (is_waiting q) - Z.b2z (is_waiting p)) ->
  wrap 64 (acquisitions a - releases a) =
    wrap 64 (acquisitions (activity s) - releases (activity s) + Z.b2z (is_holding q) - Z.b2z (is_holding p)) ->
  (forall st, time_of q = Some st -> time_of p = Some st \/ st = wrap 64 (now s)) ->
  (held_since a <> 0 ->
   (held_since a = held_since (activity s) /\ stamp_of q = stamp_of p) \/
   (exists st, stamp_of q = Some st /\ held_since a = wrapping_add 64 st 1)) ->
  sys_ok (goto i q a s <| owner := o |>).
Proof.
  intros [Hn Hw Hh Ho Hs Hc] Hi Eo Eo' Ew Eh Es Ec.
  assert (i < length (threads s))%nat as Hlt by (eapply lookup_lt_Some; eauto).
  constructor; unfold goto, set_field; cbn [activity now owner threads]; [done| | | | |].
  - rewrite Ew, Hw, (tally_insert _ _ _ p) by done. unfold wrap.
    rewrite <- (Zminus_mod_idemp_l (_ + _)), Zplus_mod_idemp_l, Zminus_mod_idemp_l. f_equal. lia.
  - rewrite (tally_insert _ _ _ p) by done.
    assert (forall x y z, wrap 64 (x - y) = wrap 64 z -> wrap 64 x = wrap 64 (y + z)) as Mv.
    { intros x y z E. unfold wrap in *. rewrite <- (Zplus_mod_idemp_r z), <- E, Zplus_mod_idemp_r. f_equal. lia. }
    apply Mv. rewrite Eh. unfold wrap in *.
    rewrite <- Z.add_sub_assoc, <- Zplus_mod_idemp_l.
    rewrite <- (Zminus_mod_idemp_l (acquisitions (activity s))), Hh, Zminus_mod_idemp_l, Zplus_mod_idemp_l. f_equal. lia.
  - intros j r Hj. destruct (decide (i = j)) as [<-|Ne].
    + rewrite list_lookup_insert_eq in Hj by done. by simplify_eq.
    + rewrite list_lookup_insert_ne in Hj by done. rewrite Eo' by done. by apply Ho.
  - intros j r st Hj Hst. destruct (decide (i = j)) as [<-|Ne].
    + rewrite list_lookup_insert_eq in Hj by done. simplify_eq.
      destruct (Es st Hst) as [E| ->]; [by eapply Hs|]. exists (now s). split; [lia|done].
    + rewrite list_lookup_insert_ne in Hj by done. by eapply Hs.
  - intros Hne. destruct (Ec Hne) as [[E1 E2]|(st & E1 & E2)].
    + rewrite E1 in *. destruct (Hc Hne) as (j & r & st & Hj & Hst & E). exists j.
      destruct (decide (i = j)) as [<-|Ne].
      * exists q, st. rewrite list_lookup_insert_eq by done. simplify_eq. by rewrite E2.
      * exists r, st. by rewrite list_lookup_insert_ne by done.
    + exists i, q, st. by rewrite list_lookup_insert_eq by done.
Qed.

Lemma goto_ok i p q a s :
  sys_ok s -> threads s !! i = Some p -> owns_lock q = owns_lock p ->
  waiters a = wrap 32 (waiters (activity s) + Z.b2z (is_waiting q) - Z.b2z (is_waiting p)) ->
  wrap 64 (acquisitions a - releases a) =
    wrap 64 (acquisitions (activity s) - releases (activity s) + Z.b2z (is_holding q) - Z.b2z (is_holding p)) ->
  (forall st, time_of q = Some st -> time_of p = Some st \/ st = wrap 64 (now s)) ->
  (held_since a <> 0 ->
   (held_since a = held_since (activity s) /\ stamp_of q = stamp_of p) \/
   (exists st, stamp_of q = Some st /\ held_since a = wrapping_add 64 st 1)) ->
  sys_ok (goto i q a s).
Proof.
  intros Hok Hi Eo Ew Eh Es Ec. apply (move_ok i p q a (owner s) s); try done.
  rewrite Eo. by apply (ok_owner s Hok).
Qed.

Lemma wrap_waiters s : sys_ok s -> wrap 32 (waiters (activity s)) = waiters (activity s).
Proof. intros Hok. rewrite (ok_waiters s Hok). apply wrap_idemp. Qed.

(** The side conditions of a single access. *)
Ltac access Hok :=
  cbn [waiters acquisitions releases held_since is_waiting is_holding owns_lock stamp_of time_of Z.b2z];
  rewrite ?Z.add_simpl_r, ?Z.add_0_r, ?Z.sub_0_r;
  first [ done | by rewrite wrap_waiters | by left | by right; eauto | intros ?; by left; split
        | intros ? [= <-]; by (left + right) | unfold wrapping_add, wrapping_sub, wrap; done | idtac ].

Lemma wrap_count x y : wrap 64 (wrapping_add 64 x 1 - y) = wrap 64 (x - y + 1).
Proof. unfold wrapping_add, wrap. rewrite Zminus_mod_idemp_l. f_equal. lia. Qed.
Lemma wrap_uncount x y : wrap 64 (x - wrapping_add 64 y 1) = wrap 64 (x - y - 1).
Proof. unfold wrapping_add, wrap. rewrite Zminus_mod_idemp_r. f_equal. lia. Qed.

Lemma act_ok x s s' : sys_ok s -> act x s = Some s' -> sys_ok s'.
Proof.
  intros Hok. destruct x as [d|i ph pt|i|i|]; cbn [act].
  - intros [= <-]. destruct Hok as [Hn ? ? ? Hs ?]. constructor; unfold set_field; cbn [activity now owner threads]; try done.
    + lia.
    + intros j p st Hj Hst. destruct (Hs j p st Hj Hst) as (t & ? & ->). exists t. split; [lia|done].
  - unfold begin_wait. destruct (threads s !! i) as [[]|] eqn:Hi; try done. intros [= <-].
    eapply goto_ok; [done|exact Hi|unfold set_field; access Hok..].
  - unfold abandon. destruct (threads s !! i) as [[]|] eqn:Hi; try done. intros [= <-].
    eapply goto_ok; [done|exact Hi|unfold set_field; access Hok..].
  - unfold advance, lock, unlock. destruct (threads s !! i) as [[]|] eqn:Hi; try done.
    + destruct (owner s) eqn:Ho; [done|]. intros [= <-].
      eapply move_ok; [done|exact Hi|..]; unfold set_field; access Hok.
      by intros j Hj; split; intros; congruence.
    + intros [= <-]. eapply goto_ok; [done|exact Hi|unfold set_field; access Hok..].
    + intros [= <-]. eapply goto_ok; [done|exact Hi|unfold set_field; access Hok..].
    + intros [= <-]. eapply goto_ok; [done|exact Hi|unfold set_field; access Hok..].
    + intros [= <-]. eapply goto_ok; [done|exact Hi|unfold set_field; access Hok..].
    + intros [= <-]. eapply goto_ok; [done|exact Hi|unfold set_field; access Hok..].
    + intros [= <-]. eapply goto_ok; [done|exact Hi|unfold set_field; access Hok..].
      all: try apply wrap_count.
    + intros [= <-]. assert (owner s = Some i) as Ho by (by apply (ok_owner s Hok i _ Hi)).
      eapply move_ok; [done|exact Hi|..]; unfold set_field; access Hok. rewrite Ho. intros j Hj. split; congruence.
    + intros [= <-]. eapply goto_ok; [done|exact Hi|unfold set_field; access Hok..].
    + intros [= <-]. eapply goto_ok; [done|exact Hi|unfold set_field; access Hok..].
    + intros [= <-]. eapply goto_ok; [done|exact Hi|unfold set_field; access Hok..].
      all: try apply wrap_uncount.
  - intros [= <-]. destruct Hok. by constructor.
Qed.

Lemma run_ok xs s s' : sys_ok s -> run xs s = Some s' -> sys_ok s'.
Proof.
  revert s. induction xs as [|x xs IH]; intros s Hok; cbn [run]; [by intros [= <-]|].
  destruct (act x s) as [s1|] eqn:E; [|done]. intros Hr. eapply IH; [|exact Hr]. by eapply act_ok.
Qed.

Lemma act_length x s s' : act x s = Some s' -> length (threads s') = length (threads s).
Proof.
  destruct x; cbn [act]; unfold begin_wait, abandon, advance, lock, unlock; repeat (case_match; try done);
    intros [= <-]; try done; unfold goto, set_field; cbn [threads]; by rewrite ?length_insert.
Qed.

Lemma run_length xs s s' : run xs s = Some s' -> length (threads s') = length (threads s).
Proof.
  revert s. induction xs as [|x xs IH]; intros s; cbn [run]; [by intros [= <-]|].
  destruct (act x s) as [s1|] eqn:E; [|done]. intros H. rewrite (IH _ H). by eapply act_length.
Qed.

Lemma tally_nonneg f l : 0 <= tally f l <= zlen l.
Proof.
  induction l as [|x l IH]; [done|]. rewrite zlen_cons. unfold tally in *. simpl. destruct (f x); cbn; lia.
Qed.

(** *** Samples taken load by load *)

Lemma run_app xs ys s : run (xs ++ ys) s = match run xs s with Some s1 => run ys s1 | None => None end.
Proof. revert s. induction xs as [|x xs IH]; intros s; cbn [run app]; [done|]. by destruct (act x s). Qed.

(** Left alone, the loads make a [sample]. *)
Lemma sample_uninterrupted s :
  sampler s = Resting ->
  run (replicate 8 Look) s = Some (s <| sampler := Sampled (sample (activity s) (now s)) |>).
Proof. intros E. destruct s as [a u o ts p]. cbn in E. by subst p. Qed.

Definition is_look (x : action) : bool := match x with Look => true | _ => false end.
Definition looks (xs : list action) : nat := length (List.filter is_look xs).

Lemma act_now x s s' : act x s = Some s' -> now s <= now s'.
Proof.
  destruct x; cbn [act]; unfold begin_wait, abandon, advance, lock, unlock; repeat (case_match; try done);
    intros [= <-]; unfold goto, set_field; cbn [now look]; unfold look, set_field; cbn [now]; lia.
Qed.

Lemma act_sampler x s s' : act x s = Some s' -> x <> Look -> sampler s' = sampler s.
Proof.
  destruct x; cbn [act]; unfold begin_wait, abandon, advance, lock, unlock; repeat (case_match; try done);
    by intros [= <-].
Qed.

(** [k] loads ago a sample was about to load the stamp, and found [stamp]; it had
    loaded [before]; the clock has since passed [P]. *)
Definition loaded (n : nat) (xs : list action) (s : sys) (k : nat) (before stamp : Z) (P : Z -> Prop) : Prop :=
  exists ys zs s1, xs = ys ++ zs /\ run ys (start n) = Some s1 /\ run zs s1 = Some s /\
    sampler s1 = Before before /\ held_since (activity s1) = stamp /\ looks zs = k /\ P (now s1).

Definition sampling (n : nat) (xs : list action) (s : sys) : Prop :=
  let within u := u <= now s in
  let aged before after stamp held u := exists v, u <= v <= now s /\ held = held_for before after stamp v in
  match sampler s with
  | Resting | Before _ => True
  | LoadedStamp b st => loaded n xs s 1 b st within
  | LoadedPhase b st _ => loaded n xs s 2 b st within
  | LoadedPort b st _ _ => loaded n xs s 3 b st within
  | LoadedWaiters b st _ _ _ => loaded n xs s 4 b st within
  | LoadedAfter b st _ _ _ _ => loaded n xs s 5 b st within
  | Aged _ _ _ af held => exists b st, loaded n xs s 6 b st (aged b af st held)
  | Sampled v => exists b st, loaded n xs s 7 b st (aged b (s_acquisitions v) st (s_held v))
  end.

Lemma loaded_step n xs s x s' k k' b st (P P' : Z -> Prop) :
  loaded n xs s k b st P -> act x s = Some s' -> k' = (k + looks [x])%nat -> (forall u, P u -> P' u) ->
  loaded n (xs ++ [x]) s' k' b st P'.
Proof.
  intros (ys & zs & s1 & -> & H1 & H2 & Hs & Hh & Hk & Hp) Hx -> Himp. exists ys, (zs ++ [x]), s1.
  rewrite run_app, H2. cbn [run]. rewrite Hx. unfold looks in *. rewrite List.filter_app, length_app, Hk, <- app_assoc.
  split_and!; auto.
Qed.

Lemma sampling_step n xs s x s' :
  run xs (start n) = Some s -> sampling n xs s -> act x s = Some s' -> sampling n (xs ++ [x]) s'.
Proof.
  intros Hr Hs Hx. pose proof (act_now _ _ _ Hx) as Ht. unfold sampling in *. assert (x = Look \/ x <> Look) as [->|Ne] by (destruct x; auto).
  - cbn [act] in Hx. injection Hx as <-. pose proof (eq_refl : act Look s = Some (look s)) as Hx.
    unfold look at 1. unfold set_field. cbn [sampler].
    destruct (sampler s) eqn:Es; try done; try (eapply loaded_step; [exact Hs|exact Hx|done|done]).
    + exists xs, [Look], s. cbn [run act]. by split_and!.
    + exists before, stamp. eapply loaded_step; [exact Hs|exact Hx|done|]. intros u Hu. exists (now s). done.
    + destruct Hs as (b & st & Hl). exists b, st. eapply loaded_step; [exact Hl|exact Hx|done|done].
  - rewrite (act_sampler _ _ _ Hx Ne). assert (looks [x] = 0%nat) as E0 by (by destruct x).
    destruct (sampler s) eqn:Es; try done; try (eapply loaded_step; [exact Hs|exact Hx|by rewrite E0|cbn; intros; lia]).
    all: destruct Hs as (b & st & Hl); exists b, st; (eapply loaded_step; [exact Hl|exact Hx|by rewrite E0|]).
    all: cbn; intros u (v & ? & ->); exists v; split; [lia|done].
Qed.

Lemma run_sampling n xs s : run xs (start n) = Some s -> sampling n xs s.
Proof.
  revert s. induction xs as [|x xs IH] using rev_ind; intros s; [by intros [= <-]|].
  rewrite run_app. destruct (run xs (start n)) as [s1|] eqn:Hr; [|done]. cbn [run].
  destruct (act x s1) as [s2|] eqn:Hx; [|done]. intros [= <-]. by eapply sampling_step; eauto.
Qed.

(** ** Episodes *)

Fixpoint episodes (every : Z) (open : option (Z * Z)) (es : list (Z * TraceEvent)) : Prop :=
  match es with
  | [] => True
  | (u, TLinkStalled _ _ _ _ _ _ stalled _ _ _ _ _ _) :: es =>
      match open with
      | None => stalled = 0 /\ episodes every (Some (u, u)) es
      | Some (began, reported) =>
          every <= u - reported /\ stalled = u - began /\ episodes every (Some (began, u)) es
      end
  | (u, TLinkResumed stalled _ _ _) :: es =>
      match open with
      | None => False
      | Some (began, _) => stalled = u - began /\ episodes every None es
      end
  | _ => False
  end.

(** Times seen by the loop never go back. *)
Fixpoint in_time (u : Z) (xs : list sight) : Prop :=
  match xs with
  | [] => True
  | x :: xs => u <= t x /\ in_time (t x) xs
  end.

Definition open_episode (w : watch) : option (Z * Z) := (fun began => (began, reported_at w)) <$> stalled_since w.

Definition watch_ok (u : Z) (w : watch) : Prop :=
  moved_at w <= u /\ match stalled_since w with Some began => began <= reported_at w <= u | None => True end.

Lemma turn_ok policy x w u :
  watch_ok u w -> u <= t x -> 0 < repeat_every policy ->
  let '(w', e) := turn policy x w in
  watch_ok (t x) w' /\
  forall es, episodes (repeat_every policy) (open_episode w') es ->
    episodes (repeat_every policy) (open_episode w)
      match e with Some e => (t x, e) :: es | None => es end.
Proof.
  intros [Hm Hs] Hu Hr. unfold turn.
  set (w1 := if decide _ then _ else _).
  assert (moved_at w1 <= t x /\ stalled_since w1 = stalled_since w /\ reported_at w1 = reported_at w) as (Em & Es & Er)
    by (unfold w1; case_decide; cbn; repeat split; lia).
  clearbody w1. unfold open_episode, watch_ok. rewrite Es.
  destruct (is_stalled _ _ _ _); destruct (stalled_since w) as [began|] eqn:St.
  - unfold saturating_sub. destruct (repeat_every policy <=? _) eqn:R; bools.
    + unfold set_field; cbn [moved_at stalled_since reported_at]. rewrite Es, ?St. cbn. rewrite Er in *.
      split; [lia|]. intros es He. split_and!; [lia|lia|done].
    + rewrite Er, Es. cbn. split; [lia|done].
  - unfold set_field; cbn. split; [lia|]. intros es He. done.
  - unfold set_field; cbn. split; [lia|]. intros es He. unfold saturating_sub. split; [lia|done].
  - rewrite Es. cbn. split; [lia|done].
Qed.

Lemma watch_run_episodes policy xs w u :
  watch_ok u w -> in_time u xs -> 0 < repeat_every policy ->
  episodes (repeat_every policy) (open_episode w) (watch_run policy xs w).2.
Proof.
  intros Hw Ht Hr. revert w u Hw Ht. induction xs as [|x xs IH]; intros w u Hw; cbn [watch_run in_time]; [done|].
  intros [Hu Ht]. pose proof (turn_ok policy x w u Hw Hu Hr) as T. destruct (turn policy x w) as [w1 e].
  destruct T as [Hw1 Hes]. specialize (IH w1 (t x) Hw1 Ht). destruct (watch_run policy xs w1) as [w2 es].
  cbn in *. by apply Hes.
Qed.

Definition is_stall (e : TraceEvent) : bool :=
  match e with TLinkStalled _ _ _ _ _ _ _ _ _ _ _ _ _ => true | _ => false end.

(** An episode can only be open because it was open or was reported. *)
Lemma watch_run_opened policy xs w :
  stalled_since (watch_run policy xs w).1 <> None ->
  stalled_since w <> None \/ exists u e, (u, e) ∈ (watch_run policy xs w).2 /\ is_stall e = true.
Proof.
  revert w. induction xs as [|x xs IH]; intros w; cbn [watch_run]; [by left|].
  destruct (turn policy x w) as [w1 e] eqn:T. specialize (IH w1).
  destruct (watch_run policy xs w1) as [w2 es]. cbn [fst snd] in *. intros Hf.
  destruct (IH Hf) as [H1|(u & e' & Hin & He)].
  - unfold turn in T. set (w0 := if decide _ then _ else _) in T.
    assert (stalled_since w0 = stalled_since w) as E0 by (unfold w0; by case_decide).
    rewrite E0 in T. destruct (stalled_since w) eqn:St; [by left|]. right.
    destruct (is_stalled _ _ _ _); simplify_eq.
    exists (t x). eexists. split; [by left|done].
  - right. exists u, e'. split; [|done]. destruct e; [by right|done].
Qed.

Lemma watch_run_app policy xs ys w :
  (watch_run policy (xs ++ ys) w).1 = (watch_run policy ys (watch_run policy xs w).1).1.
Proof.
  revert w. induction xs as [|x xs IH]; intros w; cbn [watch_run app]; [done|].
  destruct (turn policy x w) as [w1 e]. specialize (IH w1).
  destruct (watch_run policy (xs ++ ys) w1), (watch_run policy xs w1). done.
Qed.

Lemma turn_still policy x w :
  current x = last w -> last (turn policy x w).1 = last w /\ moved_at (turn policy x w).1 = moved_at w.
Proof.
  intros E. unfold turn. rewrite decide_True by done.
  repeat (first [ progress cbn | case_match ]); done.
Qed.

Lemma watch_run_still policy xs w :
  Forall (fun x => current x = last w) xs -> moved_at (watch_run policy xs w).1 = moved_at w /\
    last (watch_run policy xs w).1 = last w.
Proof.
  revert w. induction xs as [|x xs IH]; intros w Hx; cbn [watch_run]; [done|].
  apply Forall_cons in Hx as [Hx Hxs]. destruct (turn_still policy x w Hx) as [El Em].
  destruct (turn policy x w) as [w1 e]. cbn [fst] in *. specialize (IH w1). rewrite El in IH.
  destruct (IH Hxs) as [Em' El']. destruct (watch_run policy xs w1). cbn in *. by rewrite Em', El'.
Qed.

Lemma turn_stalls policy x w :
  current x = last w -> quiet_after policy <= t x - moved_at w -> 0 <= quiet_after policy ->
  stalled_since (turn policy x w).1 <> None.
Proof.
  intros E Hq H0. unfold turn. rewrite decide_True by done.
  assert (forall h n, is_stalled policy h n (saturating_sub (t x) (moved_at w)) = true) as Hs.
  { intros h n. unfold is_stalled, saturating_sub. rewrite (proj2 (Z.leb_le (quiet_after policy) _)) by lia.
    by rewrite orb_true_r. }
  rewrite Hs. destruct (stalled_since w) eqn:St; [|done]. case_match; cbn; by rewrite St.
Qed.

(** *** The properties *)

(** C40. Threads interleave their use of the link, and a sampling thread its
    loads, one access at a time in any way.  The waiters counter is the number of
    threads asking for the lock, and acquisitions run ahead of releases by the
    number of threads between the two.  An age that a finished sample reports
    counts from the stamp of a thread that was in the link when this sample, seven
    loads before its end, loaded the stamp; it is exact for a moment between
    that load and the end of the sample, so it exceeds what the hold had lasted
    by no more than the sample took. *)
Theorem watchdog_accounting (xs : list action) (n : nat) (s : sys) :
  Z.of_nat n < 2 ^ 32 -> run xs (start n) = Some s -> now s < 2 ^ 64 - 1 ->
  waiters (activity s) = tally is_waiting (threads s) /\
  wrapping_sub 64 (acquisitions (activity s)) (releases (activity s)) = tally is_holding (threads s) /\
  (forall view, sampler s = Sampled view -> 0 < s_held view ->
   exists ys zs s1 i p stamp aged, xs = ys ++ zs /\ run ys (start n) = Some s1 /\ run zs s1 = Some s /\
     sampler s1 = Before (s_acquisitions view) /\ looks zs = 7%nat /\
     threads s1 !! i = Some p /\ stamp_of p = Some stamp /\ stamp <= now s1 <= aged /\ aged <= now s /\
     s_held view = aged - stamp).
Proof.
  intros Hn Hr Hnow. pose proof (run_ok _ _ _ (start_ok n) Hr) as Hok.
  assert (zlen (threads s) = Z.of_nat n) as Hl
    by (unfold zlen; rewrite (run_length _ _ _ Hr); cbn; by rewrite length_replicate).
  pose proof (tally_nonneg is_waiting (threads s)). pose proof (tally_nonneg is_holding (threads s)).
  split_and!.
  - rewrite (ok_waiters s Hok). apply wrap_small. unfold_words. lia.
  - pose proof (ok_holds s Hok) as E. unfold wrapping_sub, wrap in *. rewrite <- Zminus_mod_idemp_l, E, Zminus_mod_idemp_l.
    rewrite Z.add_comm, Z.add_simpl_r. apply Z.mod_small. lia.
  - intros view Ev. pose proof (run_sampling _ _ _ Hr) as Hs. unfold sampling in Hs. rewrite Ev in Hs.
    destruct Hs as (b & st & ys & zs & s1 & -> & H1 & H2 & Hb & Hst & Hk & v & Hv & ->). unfold held_for.
    destruct (Z.eqb_spec b (s_acquisitions view)) as [->|]; [|cbn; lia]. destruct (Z.eqb_spec st 0) as [|Hne]; [cbn; lia|]. cbn [andb negb].
    intros Hpos. pose proof (run_ok _ _ _ (start_ok n) H1) as Hok1. rewrite <- Hst in Hne.
    destruct (ok_held s1 Hok1 Hne) as (i & p & stamp & Hi & Hp & Eh). destruct (ok_stamps s1 Hok1 i p stamp Hi (stamp_time _ _ Hp)) as (u & Hu & Est).
    rewrite wrap_small in Est by (unfold_words; lia). subst stamp. rewrite <- Hst, Eh in *. unfold wrapping_add in *.
    rewrite wrap_small in * by (unfold_words; lia). unfold saturating_sub in *.
    exists ys, zs, s1, i, p, u, v. split_and!; try done; lia.
Qed.

(** The watchdog reports in episodes, whatever it sees: a stall is first
    reported with age zero, then no more often than the policy's interval,
    each time with the age of the episode; a resumption is reported only at
    the end of an episode, with its full age.  A link that makes no progress
    for the quiet interval is always inside an episode. *)
Theorem watchdog_episodes (policy : LinkWatchdogPolicy) (p : Progress) (t0 t1 : Z) (xs : list sight) :
  0 < repeat_every policy -> t0 <= t1 -> in_time t1 xs ->
  let w := watch_start p t0 t1 in
  episodes (repeat_every policy) None (watch_run policy xs w).2 /\
  (forall ys x, xs = ys ++ [x] -> Forall (fun y => current y = p) xs -> 0 <= quiet_after policy <= t x - t0 ->
   stalled_since (watch_run policy xs w).1 <> None /\
   exists u e, (u, e) ∈ (watch_run policy xs w).2 /\ is_stall e = true).
Proof.
  intros Hr H01 Ht w. split.
  - apply (watch_run_episodes policy xs w t1); [by split|done|done].
  - intros ys x -> Hp Hq. apply Forall_app in Hp as [Hys Hx]. apply Forall_cons in Hx as [Hx _].
    destruct (watch_run_still policy ys w Hys) as [Em El].
    assert (stalled_since (watch_run policy (ys ++ [x]) w).1 <> None) as Hs.
    { rewrite watch_run_app. cbn [watch_run]. set (w1 := (watch_run policy ys w).1) in *.
      pose proof (turn_stalls policy x w1) as T. destruct (turn policy x w1) as [w2 e].
      cbn [fst] in *. apply T; [by rewrite El|rewrite Em; cbn; lia|lia]. }
    split; [done|]. destruct (watch_run_opened _ _ _ Hs) as [H|H]; [done|exact H].
Qed.

(** *** What interleaving does to a sample *)

(** Thread 0 unlocks, thread 1 locks and stamps, thread 0 clears. *)
Definition hidden_hold : list action :=
  [Begin 0 LinkPhase.Read 1; Go 0; Go 0; Go 0; Go 0; Go 0; Go 0; Go 0; Go 0;
   Begin 1 LinkPhase.Write 2; Go 1; Go 1; Go 1; Go 1; Go 1; Go 1; Go 1;
   Go 0; Go 0; Go 0].

(** [SharedLink::with] drops the mutex guard before the hold, so the hold of
    thread 0 can be cleared after thread 1 has stamped its own: thread 1 then
    holds the link for as long as it likes while every sample says that nobody
    does. *)
Theorem hold_goes_unseen (d : nat) :
  exists s, run (hidden_hold ++ [Pass d]) (start 2) = Some s /\
    owner s = Some 1%nat /\ threads s !! 1%nat = Some (Body 0) /\ now s = Z.of_nat d /\
    s_held (sample (activity s) (now s)) = 0 /\ s_phase (sample (activity s) (now s)) = LinkPhase.Idle.
Proof.
  eexists. split; [vm_compute; reflexivity|]. cbn [owner threads now]. by split_and!.
Qed.

Definition torn : list action :=
  [Begin 0 LinkPhase.Read 1; Go 0; Go 0; Go 0; Go 0; Go 0; Go 0; Go 0; Pass 100; Look; Look; Go 0; Go 0; Go 0; Go 0;
   Begin 1 LinkPhase.Write 2; Go 1; Go 1; Go 1; Go 1; Look; Look; Look; Look; Look; Look].

(** The counter is bumped only after the fields are written, so a sample that
    finds it unchanged can still mix two holds: here the age is thread 0's and
    the phase and port are thread 1's. *)
Theorem sample_mixes_holds :
  exists s view, run torn (start 2) = Some s /\ sampler s = Sampled view /\
    s_phase view = LinkPhase.Write /\ s_port view = 2 /\ s_held view = 100 /\
    threads s !! 1%nat = Some Ported.
Proof. do 2 eexists. split; [vm_compute; reflexivity|]. by split_and!. Qed.

(** *** Concrete runs *)

(** Thread 0 holds the link from time 5 and leaves while it is being sampled. *)
Definition one_read : list action :=
  [Begin 0 LinkPhase.Read 7; Begin 1 LinkPhase.Write 9; Pass 5; Go 0; Go 0; Go 0; Go 0; Go 0; Go 0; Go 0; Pass 20;
   Look; Look; Go 0; Look; Look; Look; Pass 2; Look; Look; Look].

Lemma watchdog_accounting_witness :
  exists s view, run one_read (start 2) = Some s /\ waiters (activity s) = 1 /\
    wrapping_sub 64 (acquisitions (activity s)) (releases (activity s)) = 1 /\
    sampler s = Sampled view /\ s_held view = 22 /\
    exists ys zs s1 i p stamp aged, one_read = ys ++ zs /\ run ys (start 2) = Some s1 /\ run zs s1 = Some s /\
      sampler s1 = Before (s_acquisitions view) /\ looks zs = 7%nat /\
      threads s1 !! i = Some p /\ stamp_of p = Some stamp /\ stamp <= now s1 <= aged /\ aged <= now s /\
      s_held view = aged - stamp.
Proof.
  do 2 eexists. split; [vm_compute; reflexivity|].
  match goal with |- waiters (activity ?s) = 1 /\ _ =>
    destruct (watchdog_accounting one_read 2 s) as (Hw & Ha & Hh);
      [done|vm_compute; reflexivity|done|]
  end.
  split; [exact Hw|]. split; [exact Ha|]. split; [reflexivity|]. split; [reflexivity|]. by apply Hh.
Defined.

Definition idle_view : LinkSample := MkSample LinkPhase.Idle 0 0 0 3 3.
Definition calm : LinkWatchdogStats :=
  {| packets_in := 10; packets_out := 8; deferred_writes := 0; idle_reads := 0; reads_refused := 0; queued := 0 |}.
Definition quiet_sights : list sight :=
  map (fun k => MkSight (k * SECOND) idle_view (progress 3 calm) calm) [1; 20; 40; 50; 55; 65].

Lemma watchdog_episodes_witness :
  let r := watch_run default_policy quiet_sights (watch_start (progress 3 calm) 0 0) in
  episodes (10 * SECOND) None r.2 /\ exists u e, (u, e) ∈ r.2 /\ is_stall e = true.
Proof.
  destruct (watchdog_episodes default_policy (progress 3 calm) 0 0 quiet_sights) as [He Hs];
    [done|done|repeat split; discriminate|].
  split; [exact He|].
  apply (Hs (map (fun k => MkSight (k * SECOND) idle_view (progress 3 calm) calm) [1; 20; 40; 50; 55])
            (MkSight (65 * SECOND) idle_view (progress 3 calm) calm)); [reflexivity| |split; discriminate].
  repeat (apply List.Forall_cons; [reflexivity|]). apply List.Forall_nil.
Defined.
