(* ===== verification/Lzvn.v ===== *)
(** * The LZVN decoder (src/src/lzvn.rs)

    One opcode per turn: a run of literals copied from the stream, then a match
    copied from the output already decoded.  The output vector is threaded
    through, so an error leaves what was decoded before it.  Each turn consumes
    a byte of the stream, so [length stream + 1] turns are enough. *)

From S2P Require Import Prelude.
From stdpp Require Import base tactics numbers list.
From Stdlib Require Import ZArith Lia.

Open Scope Z_scope.

Inductive LzvnError :=
| Truncated (pos : Z)
| ReservedOpcode (pos opcode : Z)
| DistanceTooFar (pos distance decoded : Z)
| NoPreviousDistance (pos : Z)
| OutputTooLarge (limit : Z)
| Unterminated (decoded : Z).

Definition END_OF_STREAM_BYTES : Z := 8.

Inductive Opcode :=
| SmallDistance | MediumDistance | LargeDistance | PreviousDistance
| SmallLiteral | LargeLiteral | SmallMatch | LargeMatch | Nop | EndOfStream | Reserved.

#[export] Instance Opcode_eq_dec : EqDecision Opcode.
Proof. solve_decision. Defined.

Definition between (lo hi x : Z) : bool := (lo <=? x) && (x <=? hi).

Definition classify (opcode : Z) : Opcode :=
  if opcode =? 0xe0 then LargeLiteral else
  if between 0xe1 0xef opcode then SmallLiteral else
  if opcode =? 0xf0 then LargeMatch else
  if between 0xf1 0xff opcode then SmallMatch else
  if between 0xa0 0xbf opcode then MediumDistance else
  if opcode =? 0x06 then EndOfStream else
  if (opcode =? 0x0e) || (opcode =? 0x16) then Nop else
  if (opcode =? 0x1e) || (opcode =? 0x26) || (opcode =? 0x2e) || (opcode =? 0x36) || (opcode =? 0x3e)
  then Reserved else
  if between 0x70 0x7f opcode || between 0xd0 0xdf opcode then Reserved else
  if Z.land opcode 0x07 =? 7 then LargeDistance else
  if Z.land opcode 0x07 =? 6 then PreviousDistance else SmallDistance.

Definition byte_at (stream : bytes) (pos start : Z) : res LzvnError Z :=
  ok_or (zget stream pos) (Truncated start).

Definition half_word_at (stream : bytes) (pos start : Z) : res LzvnError Z :=
  let? low := byte_at stream pos start in
  let? high := byte_at stream (pos + 1) start in
  Ok (le_val [low; high]).

(** What an opcode asks for: literals, match length and distance, and where the
    literals start. *)
Record fields := Fields { f_literals : Z; f_length : Z; f_distance : Z; f_at : Z }.

Definition read_fields (stream : bytes) (pos distance opcode : Z) (kind : Opcode) : res LzvnError fields :=
  match kind with
  | SmallDistance =>
      let? low := byte_at stream (pos + 1) pos in
      Ok (Fields (Z.shiftr opcode 6) (Z.land (Z.shiftr opcode 3) 0x07 + 3)
            (Z.lor (Z.shiftl (Z.land opcode 0x07) 8) low) (pos + 2))
  | MediumDistance =>
      let? packed := half_word_at stream (pos + 1) pos in
      Ok (Fields (Z.land (Z.shiftr opcode 3) 0x03)
            (Z.lor (Z.shiftl (Z.land opcode 0x07) 2) (Z.land packed 0x03) + 3)
            (Z.shiftr packed 2) (pos + 3))
  | LargeDistance =>
      let? wide := half_word_at stream (pos + 1) pos in
      Ok (Fields (Z.shiftr opcode 6) (Z.land (Z.shiftr opcode 3) 0x07 + 3) wide (pos + 3))
  | PreviousDistance =>
      Ok (Fields (Z.shiftr opcode 6) (Z.land (Z.shiftr opcode 3) 0x07 + 3) distance (pos + 1))
  | SmallLiteral => Ok (Fields (Z.land opcode 0x0f) 0 distance (pos + 1))
  | LargeLiteral =>
      let? count := byte_at stream (pos + 1) pos in Ok (Fields (count + 16) 0 distance (pos + 2))
  | SmallMatch => Ok (Fields 0 (Z.land opcode 0x0f) distance (pos + 1))
  | LargeMatch =>
      let? count := byte_at stream (pos + 1) pos in Ok (Fields 0 (count + 16) distance (pos + 2))
  | Nop | EndOfStream | Reserved => Panic
  end.

(** [for from in (out.len() - distance..).take(length)]. *)
Fixpoint copy_match (length : nat) (from : Z) (out : bytes) : bytes * res LzvnError unit :=
  match length with
  | O => (out, Ok tt)
  | S length =>
      match index (E := LzvnError) out from with
      | Ok byte => copy_match length (from + 1) (out ++ [byte])
      | Err e => (out, Err e)
      | Panic => (out, Panic)
      end
  end.

Record state := State { at_ : Z; distance : Z; out : bytes }.

(** The literal run of a turn; the position after it. *)
Definition put_literals (stream : bytes) (limit ceiling start : Z) (f : fields) (o : bytes)
  : bytes * res LzvnError Z :=
  if f_literals f =? 0 then (o, Ok (f_at f)) else
  match checked_add usize_bits (f_at f) (f_literals f) with
  | Some fin =>
      if negb (fin <=? zlen stream) then (o, Err (Truncated start)) else
      if ceiling <? zlen o + f_literals f then (o, Err (OutputTooLarge limit)) else
      match slice (E := LzvnError) stream (f_at f) fin with
      | Ok lits => (o ++ lits, Ok fin)
      | Err e => (o, Err e)
      | Panic => (o, Panic)
      end
  | None => (o, Err (Truncated start))
  end.

(** The match of a turn. *)
Definition put_match (base limit ceiling start : Z) (f : fields) (o : bytes)
  : bytes * res LzvnError unit :=
  if f_length f =? 0 then (o, Ok tt) else
  if f_distance f =? 0 then (o, Err (NoPreviousDistance start)) else
  let decoded := zlen o - base in
  if decoded <? f_distance f then (o, Err (DistanceTooFar start (f_distance f) decoded)) else
  if ceiling <? zlen o + f_length f then (o, Err (OutputTooLarge limit)) else
  copy_match (Z.to_nat (f_length f)) (zlen o - f_distance f) o.

Inductive turn :=
| Done (o : bytes) (r : res LzvnError unit)
| More (s : state).

(** A turn whose opcode carries literals, a match or both. *)
Definition operate (stream : bytes) (base limit ceiling : Z) (s : state) (opcode : Z) (kind : Opcode) : turn :=
  match read_fields stream (at_ s) (distance s) opcode kind with
  | Err e => Done (out s) (Err e)
  | Panic => Done (out s) Panic
  | Ok f =>
      match put_literals stream limit ceiling (at_ s) f (out s) with
      | (o, Err e) => Done o (Err e)
      | (o, Panic) => Done o Panic
      | (o, Ok pos) =>
          match put_match base limit ceiling (at_ s) f o with
          | (o, Err e) => Done o (Err e)
          | (o, Panic) => Done o Panic
          | (o, Ok _) => More (State pos (f_distance f) o)
          end
      end
  end.

Definition step (stream : bytes) (base limit ceiling : Z) (s : state) : turn :=
  match zget stream (at_ s) with
  | None => Done (out s) (Err (Unterminated (zlen (out s) - base)))
  | Some opcode =>
      match classify opcode with
      | EndOfStream =>
          if zlen stream - at_ s <? END_OF_STREAM_BYTES then Done (out s) (Err (Truncated (at_ s)))
          else Done (out s) (Ok tt)
      | Nop => More (State (at_ s + 1) (distance s) (out s))
      | Reserved => Done (out s) (Err (ReservedOpcode (at_ s) opcode))
      | kind => operate stream base limit ceiling s opcode kind
      end
  end.

Fixpoint decode_loop (fuel : nat) (stream : bytes) (base limit ceiling : Z) (s : state)
  : option (bytes * res LzvnError unit) :=
  match fuel with
  | O => None
  | S fuel =>
      match step stream base limit ceiling s with
      | Done o r => Some (o, r)
      | More s => decode_loop fuel stream base limit ceiling s
      end
  end.

Definition decode_onto (stream : bytes) (limit : Z) (o : bytes) : option (bytes * res LzvnError unit) :=
  match checked_add usize_bits (zlen o) limit with
  | None => Some (o, Err (OutputTooLarge limit))
  | Some ceiling =>
      decode_loop (S (length stream)) stream (zlen o) limit ceiling (State 0 0 o)
  end.

Definition decode (stream : bytes) (limit : Z) : option (res LzvnError bytes) :=
  match decode_onto stream limit [] with
  | None => None
  | Some (o, Ok _) => Some (Ok o)
  | Some (_, Err e) => Some (Err e)
  | Some (_, Panic) => Some Panic
  end.

(** ** Reference semantics *)

(** [n] bytes of the last [d] bytes of [o], over and over. *)
Definition periodic (o : bytes) (d n : nat) : bytes :=
  map (fun i => nth (length o - d + i mod d) o 0) (seq 0 n).

Lemma periodic_snoc o d n :
  periodic o d (S n) = periodic o d n ++ [nth (length o - d + n mod d) o 0].
Proof. unfold periodic. by rewrite seq_S, map_app. Qed.

Lemma length_periodic o d n : length (periodic o d n) = n.
Proof. unfold periodic. by rewrite length_map, length_seq. Qed.

(** The byte [d] back from the end of a partly copied match. *)
Lemma periodic_back o d n :
  (0 < d <= length o)%nat ->
  (o ++ periodic o d n) !! (length o + n - d)%nat = Some (nth (length o - d + n mod d) o 0).
Proof.
  intros Hd. destruct (decide (n < d)%nat).
  - rewrite Nat.mod_small, lookup_app_l by lia. replace (length o + n - d)%nat with (length o - d + n)%nat by lia.
    destruct (lookup_lt_is_Some_2 o (length o - d + n)) as [x Hx]; [lia|].
    rewrite Hx. f_equal. symmetry. by apply nth_lookup_Some.
  - rewrite lookup_app_r by lia. unfold periodic. rewrite list_lookup_fmap.
    rewrite lookup_seq_lt by lia. simpl. do 2 f_equal.
    replace (length o + n - d - length o)%nat with (n - d)%nat by lia. f_equal.
    replace n with ((n - d) + 1 * d)%nat at 2 by lia. by rewrite Nat.Div0.mod_add.
Qed.

(** The byte-by-byte loop, overlap included, is the periodic extension. *)
Lemma copy_match_periodic o d k n :
  (0 < d <= length o)%nat ->
  copy_match n (zlen (o ++ periodic o d k) - Z.of_nat d) (o ++ periodic o d k) =
    (o ++ periodic o d (k + n), Ok tt).
Proof.
  intros Hd. revert k. induction n as [|n IH]; intros k; simpl.
  { by rewrite Nat.add_0_r. }
  unfold index, zget, or_panic, zlen. rewrite length_app, length_periodic.
  rewrite (proj2 (Z.ltb_ge _ _)) by lia.
  replace (Z.to_nat _) with (length o + k - d)%nat by lia. rewrite periodic_back by done.
  specialize (IH (S k)). rewrite periodic_snoc in IH.
  replace (k + S n)%nat with (S k + n)%nat by lia. rewrite <- IH. rewrite <- app_assoc. f_equal.
  unfold zlen. rewrite !length_app, length_periodic. simpl. lia.
Qed.

Lemma copy_match_eq o d n :
  0 < d <= zlen o ->
  copy_match n (zlen o - d) o = (o ++ periodic o (Z.to_nat d) n, Ok tt).
Proof.
  intros Hd. unfold zlen in Hd. pose proof (copy_match_periodic o (Z.to_nat d) 0 n) as E.
  simpl in E. rewrite app_nil_r, Z2Nat.id in E by lia. apply E. lia.
Qed.

Lemma is_bytes_periodic o d n : is_bytes o -> is_bytes (periodic o d n).
Proof.
  intros Ho. apply Forall_map, Forall_true. intros i.
  destruct (nth_in_or_default (length o - d + i mod d) o 0) as [H| ->].
  - rewrite Forall_forall in Ho. apply Ho, list_elem_of_In, H.
  - unfold in_range; lia.
Qed.

(** ** Safety *)

Lemma byte_at_ok stream pos start b :
  is_bytes stream -> byte_at stream pos start = Ok b -> u8 b /\ pos < zlen stream.
Proof.
  unfold byte_at, ok_or. intros Hs. destruct (zget stream pos) eqn:G; [|done]. intros [= <-].
  pose proof (zget_some _ _ _ G). split; [by eapply zget_bytes|lia].
Qed.

Lemma byte_at_no_panic stream pos start : no_panic (byte_at stream pos start).
Proof. unfold no_panic, byte_at, ok_or. by case_match. Qed.

Lemma half_word_at_ok stream pos start w :
  is_bytes stream -> half_word_at stream pos start = Ok w -> u16 w /\ pos + 1 < zlen stream.
Proof.
  unfold half_word_at. intros Hs.
  destruct (byte_at stream pos start) as [lo| |] eqn:L; [|done..]. simpl.
  destruct (byte_at stream (pos + 1) start) as [hi| |] eqn:H; [|done..]. simpl. intros [= <-].
  apply byte_at_ok in L, H; [|done..]. unfold in_range in *. simpl. lia.
Qed.

Lemma half_word_at_no_panic stream pos start : no_panic (half_word_at stream pos start).
Proof.
  unfold half_word_at. apply no_panic_bind; [apply byte_at_no_panic|]. intros lo _.
  apply no_panic_bind; [apply byte_at_no_panic|]. done.
Qed.

Definition fields_ok (pos : Z) (f : fields) : Prop :=
  0 <= f_literals f /\ 0 <= f_length f /\ 0 <= f_distance f /\ pos < f_at f.

Definition has_fields (kind : Opcode) : bool :=
  match kind with Nop | EndOfStream | Reserved => false | _ => true end.

Lemma read_fields_ok stream pos d opcode kind f :
  is_bytes stream -> u8 opcode -> 0 <= d -> read_fields stream pos d opcode kind = Ok f ->
  fields_ok pos f.
Proof.
  intros Hs Ho Hd. unfold fields_ok, in_range in *.
  assert (forall x n, 0 <= x -> 0 <= Z.shiftr x n) as Sh by (intros; by apply Z.shiftr_nonneg).
  assert (forall x y, 0 <= y -> 0 <= Z.land x y) as La by (intros; apply Z.land_nonneg; by right).
  assert (forall x n y, 0 <= x -> 0 <= y -> 0 <= Z.lor (Z.shiftl x n) y) as Lo
    by (intros; apply Z.lor_nonneg; split; [by apply Z.shiftl_nonneg|done]).
  pose proof (Sh opcode 6). pose proof (Sh opcode 3).
  pose proof (La (Z.shiftr opcode 3) 7). pose proof (La (Z.shiftr opcode 3) 3).
  pose proof (La opcode 7). pose proof (La opcode 15).
  destruct kind; simpl; try (intros [= <-]; simpl; lia); try done.
  - destruct (byte_at stream (pos + 1) pos) as [b| |] eqn:B; [|done..]. intros [= <-]. simpl.
    apply byte_at_ok in B as [B _]; [|done]. unfold in_range in B.
    pose proof (Lo (Z.land opcode 7) 8 b). lia.
  - destruct (half_word_at stream (pos + 1) pos) as [w| |] eqn:B; [|done..]. intros [= <-]. simpl.
    apply half_word_at_ok in B as [B _]; [|done]. unfold in_range in B. pose proof (Sh w 2).
    pose proof (La w 3). pose proof (Lo (Z.land opcode 7) 2 (Z.land w 3)). lia.
  - destruct (half_word_at stream (pos + 1) pos) as [w| |] eqn:B; [|done..]. intros [= <-]. simpl.
    apply half_word_at_ok in B as [B _]; [|done]. unfold in_range in B. lia.
  - destruct (byte_at stream (pos + 1) pos) as [b| |] eqn:B; [|done..]. intros [= <-]. simpl.
    apply byte_at_ok in B as [B _]; [|done]. unfold in_range in B. lia.
  - destruct (byte_at stream (pos + 1) pos) as [b| |] eqn:B; [|done..]. intros [= <-]. simpl.
    apply byte_at_ok in B as [B _]; [|done]. unfold in_range in B. lia.
Qed.

Lemma read_fields_no_panic stream pos d opcode kind :
  has_fields kind = true -> no_panic (read_fields stream pos d opcode kind).
Proof.
  destruct kind; simpl; try done; intros _; apply no_panic_bind; try done;
    apply byte_at_no_panic || apply half_word_at_no_panic.
Qed.

(** Grown within the ceiling from what was there. *)
Definition grown (base : bytes) (limit : Z) (o : bytes) : Prop :=
  exists k, o = base ++ k /\ zlen k <= limit /\ is_bytes k.

Lemma grown_app base limit o k :
  grown base limit o -> is_bytes k -> zlen (o ++ k) <= zlen base + limit -> grown base limit (o ++ k).
Proof.
  intros (k0&->&_&Hk0) Hk L. exists (k0 ++ k). rewrite app_assoc. split_and!; [done| |auto with isbytes].
  rewrite !zlen_app in *. lia.
Qed.

Lemma put_literals_ok stream limit start f base o :
  is_bytes stream -> 0 <= start -> fields_ok start f -> grown base limit o ->
  let '(o', r) := put_literals stream limit (zlen base + limit) start f o in
  grown base limit o' /\ r <> Panic /\ forall pos, r = Ok pos -> start < pos.
Proof.
  intros Hs H0 (Hl&_&_&Ha) Ho. unfold put_literals.
  destruct (f_literals f =? 0); [split_and!; [done|done|by intros ? [= <-]]|].
  unfold checked_add. destruct (_ <? 2 ^ usize_bits) eqn:?; [|by split_and!].
  destruct (negb _) eqn:E; [by split_and!|]. destruct (_ <? zlen _ + _) eqn:C; [by split_and!|]. bools.
  rewrite slice_ok by lia. split_and!; [|done|intros ? [= <-]; lia].
  apply grown_app; [done|auto with isbytes|]. rewrite zlen_app. zl.
Qed.

Lemma put_match_ok limit start f base o :
  is_bytes base -> fields_ok start f -> grown base limit o ->
  let '(o', r) := put_match (zlen base) limit (zlen base + limit) start f o in
  grown base limit o' /\ r <> Panic.
Proof.
  intros Hb (_&Hl&Hd&_) Ho. unfold put_match.
  destruct (f_length f =? 0); [done|]. destruct (f_distance f =? 0) eqn:D; [done|].
  destruct (zlen o - zlen base <? f_distance f) eqn:F; [done|].
  destruct (zlen base + limit <? zlen o + f_length f) eqn:C; [done|]. bools.
  pose proof (zlen_nonneg base). rewrite copy_match_eq by lia. cbv iota. split; [|done].
  apply grown_app; [done| |].
  - apply is_bytes_periodic. destruct Ho as (k&->&_&Hk). auto with isbytes.
  - rewrite zlen_app. unfold zlen at 2. rewrite length_periodic. lia.
Qed.

Definition state_ok (base : bytes) (limit : Z) (s : state) : Prop :=
  0 <= at_ s /\ 0 <= distance s /\ grown base limit (out s).

(** What is known after a turn. *)
Definition turn_ok (stream base : bytes) (limit : Z) (s : state) (tn : turn) : Prop :=
  match tn with
  | Done o r => grown base limit o /\ r <> Panic
  | More s' => state_ok base limit s' /\ at_ s < at_ s' /\ at_ s < zlen stream
  end.

Lemma operate_ok stream base limit s opcode kind :
  is_bytes stream -> is_bytes base -> state_ok base limit s -> u8 opcode -> at_ s < zlen stream ->
  has_fields kind = true ->
  turn_ok stream base limit s (operate stream (zlen base) limit (zlen base + limit) s opcode kind).
Proof.
  intros Hs Hb (Ha&Hd&Ho) Hop Hr Hk. unfold operate.
  pose proof (read_fields_no_panic stream (at_ s) (distance s) opcode kind Hk) as Np.
  destruct (read_fields _ _ _ _ _) as [f|e|] eqn:R; [|done..].
  apply read_fields_ok in R; [|done..].
  pose proof (put_literals_ok stream limit (at_ s) f base (out s) Hs Ha R Ho) as L.
  destruct (put_literals _ _ _ _ _ _) as [o1 [pos|e|]]; destruct L as (Ho1&N1&Hp); [|done..].
  specialize (Hp pos eq_refl).
  pose proof (put_match_ok limit (at_ s) f base o1 Hb R Ho1) as Mt.
  destruct (put_match _ _ _ _ _ _) as [o2 [[]|e|]]; destruct Mt as (Ho2&N2); [|done..].
  split_and!; [split_and!; simpl; [lia|apply R|done]|simpl; lia|lia].
Qed.

Lemma step_ok stream base limit s :
  is_bytes stream -> is_bytes base -> state_ok base limit s ->
  turn_ok stream base limit s (step stream (zlen base) limit (zlen base + limit) s).
Proof.
  intros Hs Hb Hok. pose proof Hok as (Ha&Hd&Ho). unfold step.
  destruct (zget stream (at_ s)) as [opcode|] eqn:G; [|done].
  pose proof (zget_some _ _ _ G) as Hr. pose proof (zget_bytes _ _ _ Hs G) as Hop.
  destruct (classify opcode); try (apply operate_ok; done || lia).
  - split_and!; [split_and!; simpl; [lia|done|done]|simpl; lia|lia].
  - by destruct (_ <? _).
  - done.
Qed.

Lemma decode_loop_ok fuel stream base limit s :
  is_bytes stream -> is_bytes base -> state_ok base limit s ->
  Z.max 0 (zlen stream - at_ s) < Z.of_nat fuel ->
  exists o r, decode_loop fuel stream (zlen base) limit (zlen base + limit) s = Some (o, r) /\
    grown base limit o /\ r <> Panic.
Proof.
  intros Hs Hb. revert s. induction fuel as [|fuel IH]; intros s Hok Hf; [lia|]. simpl.
  pose proof (step_ok stream base limit s Hs Hb Hok) as St.
  destruct (step _ _ _ _ _) as [o r|s']; [by eauto|]. destruct St as (Hok'&Ha&Hb').
  apply IH; [done|]. lia.
Qed.

(** ** Programs

    The instructions a stream is made of, their encodings and what they mean. *)

Inductive instr :=
| ISmall (lits : bytes) (len dist : Z)
| IMedium (lits : bytes) (len dist : Z)
| ILarge (lits : bytes) (len dist : Z)
| IPrevious (lits : bytes) (len : Z)
| ILiteral (lits : bytes)
| IMatch (len : Z)
| INop (code : Z).

Definition packed_opcode (lits : bytes) (len low : Z) : Z := zlen lits * 64 + (len - 3) * 8 + low.

(** The bytes before the literals. *)
Definition head (i : instr) : bytes :=
  match i with
  | ISmall lits len dist => [packed_opcode lits len (dist / 256); dist mod 256]
  | IMedium lits len dist =>
      let packed := dist * 4 + (len - 3) mod 4 in
      [0xa0 + zlen lits * 8 + (len - 3) / 4; packed mod 256; packed / 256]
  | ILarge lits len dist => [packed_opcode lits len 7; dist mod 256; dist / 256]
  | IPrevious lits len => [packed_opcode lits len 6]
  | ILiteral lits => if zlen lits <? 16 then [0xe0 + zlen lits] else [0xe0; zlen lits - 16]
  | IMatch len => if len <? 16 then [0xf0 + len] else [0xf0; len - 16]
  | INop code => [code]
  end.

Definition literals_of (i : instr) : bytes :=
  match i with
  | ISmall lits _ _ | IMedium lits _ _ | ILarge lits _ _ | IPrevious lits _ | ILiteral lits => lits
  | IMatch _ | INop _ => []
  end.

Definition length_of (i : instr) : Z :=
  match i with
  | ISmall _ len _ | IMedium _ len _ | ILarge _ len _ | IPrevious _ len | IMatch len => len
  | ILiteral _ | INop _ => 0
  end.

(** The distance in force after the instruction. *)
Definition distance_of (d : Z) (i : instr) : Z :=
  match i with ISmall _ _ dist | IMedium _ _ dist | ILarge _ _ dist => dist | _ => d end.

Definition kind_of (i : instr) : Opcode :=
  match i with
  | ISmall _ _ _ => SmallDistance
  | IMedium _ _ _ => MediumDistance
  | ILarge _ _ _ => LargeDistance
  | IPrevious _ _ => PreviousDistance
  | ILiteral lits => if zlen lits <? 16 then SmallLiteral else LargeLiteral
  | IMatch len => if len <? 16 then SmallMatch else LargeMatch
  | INop _ => Nop
  end.

(** Which instructions the format has.  An opcode packs the number of literals, the
    length of the match and the high part of the distance in bits LLMMMDDD.  High
    lengths give way to other opcodes as literals are added: with L literals a
    match is at most 10 - 2 L long.  DDD 7 announces a wide distance and 6 the
    previous one, which needs a literal: without one it is the end of the stream,
    one of the two fillers, or nothing. *)
Definition encodable (i : instr) : Prop :=
  match i with
  | ISmall lits len dist => zlen lits <= 3 /\ 3 <= len <= 10 - 2 * zlen lits /\ 0 <= dist < 1536
  | IMedium lits len dist => zlen lits <= 3 /\ 3 <= len <= 34 /\ 0 <= dist < 2 ^ 14
  | ILarge lits len dist => zlen lits <= 3 /\ 3 <= len <= 10 - 2 * zlen lits /\ 0 <= dist < 2 ^ 16
  | IPrevious lits len => 1 <= zlen lits <= 3 /\ 3 <= len <= 10 - 2 * zlen lits
  | ILiteral lits => 1 <= zlen lits <= 271
  | IMatch len => 1 <= len <= 271
  | INop code => code = 0x0e \/ code = 0x16
  end.

Definition assemble (program : list instr) : bytes :=
  concat (map (fun i => head i ++ literals_of i) program).

(** Literals are appended, then a match repeats what lies [d] back. *)
Definition perform (i : instr) (d : Z) (o : bytes) : option (Z * bytes) :=
  let o := o ++ literals_of i in
  let d := distance_of d i in
  if length_of i =? 0 then Some (d, o) else
  if (0 <? d) && (d <=? zlen o) then Some (d, o ++ periodic o (Z.to_nat d) (Z.to_nat (length_of i)))
  else None.

Fixpoint run (program : list instr) (d : Z) (o : bytes) : option (Z * bytes) :=
  match program with
  | [] => Some (d, o)
  | i :: program =>
      match perform i d o with
      | Some (d, o) => run program d o
      | None => None
      end
  end.

(** ** The decoder runs programs *)

Lemma packed_fields lits len low :
  zlen lits <= 3 -> 3 <= len <= 10 -> 0 <= low <= 7 ->
  Z.shiftr (packed_opcode lits len low) 6 = zlen lits /\
  Z.land (Z.shiftr (packed_opcode lits len low) 3) 0x07 + 3 = len /\
  Z.land (packed_opcode lits len low) 0x07 = low.
Proof.
  intros. pose proof (zlen_nonneg lits). unfold packed_opcode.
  change 0x07 with (2 ^ 3 - 1). rewrite !land_low, !Z.shiftr_div_pow2 by lia.
  change (2 ^ 3) with 8. change (2 ^ 6) with 64. split_and!; Z.div_mod_to_equations; lia.
Qed.

(** The opcode table has every instruction in its class. *)
Lemma classify_packed l m low :
  0 <= l <= 3 -> 0 <= m <= 7 - 2 * l -> 0 <= low <= 7 -> low <> 6 \/ 1 <= l ->
  classify (l * 64 + m * 8 + low) =
    if low =? 7 then LargeDistance else if low =? 6 then PreviousDistance else SmallDistance.
Proof.
  intros Hl Hm Hw Hs.
  assert (forallb (fun l => forallb (fun m => forallb (fun low =>
    (7 - 2 * l <? m) || ((low =? 6) && (l =? 0)) || bool_decide (classify (l * 64 + m * 8 + low) =
      if low =? 7 then LargeDistance else if low =? 6 then PreviousDistance else SmallDistance))
    (seqZ 0 8)) (seqZ 0 8)) (seqZ 0 4) = true) as T by (vm_compute; reflexivity).
  rewrite forallb_forall in T. specialize (T l). rewrite forallb_forall in T.
  assert (forall n x, 0 <= x < n -> In x (seqZ 0 n)) as Hin by (intros; apply list_elem_of_In, elem_of_seqZ; lia).
  specialize (T (Hin 4 l ltac:(lia)) m (Hin 8 m ltac:(lia))). rewrite forallb_forall in T. specialize (T low (Hin 8 low ltac:(lia))).
  apply orb_prop in T as [T|T]; [|by apply bool_decide_eq_true in T].
  apply orb_prop in T as [T|T]; bools; lia.
Qed.

Lemma classify_head i : encodable i -> classify (hd 0 (head i)) = kind_of i.
Proof.
  destruct i as [lits len dist|lits len dist|lits len dist|lits len|lits|len|code]; cbn [encodable head hd kind_of];
    try pose proof (zlen_nonneg lits).
  - intros (?&?&?). unfold packed_opcode. rewrite classify_packed by (Z.div_mod_to_equations; lia).
    by rewrite !(proj2 (Z.eqb_neq _ _)) by (Z.div_mod_to_equations; lia).
  - intros (?&?&?). unfold classify, between. repeat (case_match; bools; try done; try (Z.div_mod_to_equations; lia)).
  - intros (?&?&?). unfold packed_opcode. by rewrite classify_packed by lia.
  - intros (?&?). unfold packed_opcode. by rewrite classify_packed by lia.
  - intros ?. case_match; bools; cbn [hd]; [|done]. unfold classify, between.
    rewrite (proj2 (Z.eqb_neq _ _)), !(proj2 (Z.leb_le _ _)) by lia. done.
  - intros ?. case_match; bools; cbn [hd]; [|done]. unfold classify, between.
    repeat (case_match; bools; try done; try lia).
  - by intros [-> | ->].
Qed.

Lemma byte_at_app pre k i start b :
  0 <= i -> zget k i = Some b -> byte_at (pre ++ k) (zlen pre + i) start = Ok b.
Proof. intros Hi Hk. unfold byte_at. by rewrite zget_app, Hk. Qed.

Lemma half_word_at_app pre k i start lo hi :
  0 <= i -> zget k i = Some lo -> zget k (i + 1) = Some hi ->
  half_word_at (pre ++ k) (zlen pre + i) start = Ok (lo + 256 * hi).
Proof.
  intros Hi Hl Hh. unfold half_word_at. rewrite (byte_at_app _ _ _ _ lo) by done. simpl.
  rewrite <- Z.add_assoc, (byte_at_app _ _ _ _ hi) by (done || lia). simpl. f_equal. lia.
Qed.

(** Every field comes back out of the encoding. *)
Lemma read_fields_head pre i rest d :
  encodable i -> kind_of i <> Nop ->
  read_fields (pre ++ head i ++ rest) (zlen pre) d (hd 0 (head i)) (kind_of i) =
    Ok (Fields (zlen (literals_of i)) (length_of i) (distance_of d i) (zlen pre + zlen (head i))).
Proof.
  intros He Hk. destruct i as [lits len dist|lits len dist|lits len dist|lits len|lits|len|code];
    cbn [encodable kind_of head hd literals_of length_of distance_of] in *; [..|done].
  - destruct He as (Hl&Hn&Hd). cbn [read_fields].
    rewrite (byte_at_app pre _ 1 _ (dist mod 256)) by done. cbn [res_bind].
    destruct (packed_fields lits len (dist / 256)) as (->&->&->); [lia|pose proof (zlen_nonneg lits); lia|Z.div_mod_to_equations; lia|].
    rewrite lor_shiftl by (try apply Z.mod_pos_bound; lia). do 2 f_equal. Z.div_mod_to_equations; lia.
  - destruct He as (Hl&Hn&Hd). cbn [read_fields]. pose proof (zlen_nonneg lits).
    set (packed := dist * 4 + (len - 3) mod 4).
    assert (0 <= packed < 2 ^ 16) by (subst packed; Z.div_mod_to_equations; lia).
    rewrite (half_word_at_app pre _ 1 _ (packed mod 256) (packed / 256)) by done. cbn [res_bind].
    replace (packed mod 256 + 256 * (packed / 256)) with packed by (Z.div_mod_to_equations; lia).
    change 0x03 with (2 ^ 2 - 1). change 0x07 with (2 ^ 3 - 1).
    rewrite !land_low, !Z.shiftr_div_pow2 by lia.
    rewrite lor_shiftl by (try apply Z.mod_pos_bound; lia).
    change (2 ^ 2) with 4. change (2 ^ 3) with 8. subst packed.
    f_equal. f_equal; Z.div_mod_to_equations; lia.
  - destruct He as (Hl&Hn&Hd). cbn [read_fields].
    rewrite (half_word_at_app pre _ 1 _ (dist mod 256) (dist / 256)) by done. cbn [res_bind].
    destruct (packed_fields lits len 7) as (->&->&_); [lia|pose proof (zlen_nonneg lits); lia|lia|].
    do 2 f_equal. Z.div_mod_to_equations; lia.
  - destruct He as (Hl&Hn). cbn [read_fields].
    destruct (packed_fields lits len 6) as (->&->&_); [lia|lia|lia|]. done.
  - destruct (zlen lits <? 16) eqn:E; bools; cbn [hd read_fields].
    + change 0x0f with (2 ^ 4 - 1). rewrite land_low by lia. change (2 ^ 4) with 16.
      f_equal. f_equal. Z.div_mod_to_equations; lia.
    + rewrite (byte_at_app pre _ 1 _ (zlen lits - 16)) by done. cbn [res_bind].
      f_equal. f_equal. lia.
  - destruct (len <? 16) eqn:E; bools; cbn [hd read_fields].
    + change 0x0f with (2 ^ 4 - 1). rewrite land_low by lia. change (2 ^ 4) with 16.
      f_equal. f_equal. Z.div_mod_to_equations; lia.
    + rewrite (byte_at_app pre _ 1 _ (len - 16)) by done. cbn [res_bind].
      f_equal. f_equal. lia.
Qed.

Lemma periodic_app b o d n : (d <= length o)%nat -> periodic (b ++ o) d n = periodic o d n.
Proof.
  intros Hd. apply map_ext. intros i. rewrite length_app, app_nth2 by (destruct d; simpl; lia).
  f_equal. lia.
Qed.

Lemma perform_grows i d o d' o' :
  perform i d o = Some (d', o') -> zlen o + zlen (literals_of i) + length_of i <= zlen o' \/ length_of i < 0.
Proof.
  unfold perform. pose proof (zlen_nonneg (literals_of i)). destruct (length_of i =? 0) eqn:L; bools.
  - intros [= <- <-]. left. rewrite zlen_app. lia.
  - destruct (_ && _); [|done]. intros [= <- <-]. rewrite !zlen_app. unfold zlen at 5.
    rewrite length_periodic. lia.
Qed.

Lemma encodable_length i : encodable i -> 0 <= length_of i.
Proof. intros He. destruct i; simpl in *; lia. Qed.

Lemma put_literals_instr pre i post limit base o d :
  zlen (pre ++ (head i ++ literals_of i) ++ post) < 2 ^ usize_bits ->
  zlen o + zlen (literals_of i) <= limit ->
  put_literals (pre ++ (head i ++ literals_of i) ++ post) limit (zlen base + limit) (zlen pre)
    (Fields (zlen (literals_of i)) (length_of i) d (zlen pre + zlen (head i))) (base ++ o) =
  (base ++ o ++ literals_of i, Ok (zlen pre + zlen (head i ++ literals_of i))).
Proof.
  intros Hs Hl. unfold put_literals. cbn [f_literals f_at].
  destruct (zlen (literals_of i) =? 0) eqn:Z0; bools.
  { apply zlen_zero in Z0. rewrite Z0, !app_nil_r. done. }
  rewrite !zlen_app in Hs. pose proof (zlen_nonneg pre). pose proof (zlen_nonneg (head i)).
  pose proof (zlen_nonneg post).
  unfold checked_add. rewrite (proj2 (Z.ltb_lt _ _)) by lia.
  rewrite (proj2 (Z.leb_le _ _)) by (rewrite !zlen_app; lia). cbn [negb].
  rewrite (proj2 (Z.ltb_ge _ _)) by (rewrite !zlen_app; lia).
  rewrite <- app_assoc, (app_assoc pre), slice_mid by (rewrite zlen_app; lia).
  rewrite <- app_assoc. do 2 f_equal. rewrite zlen_app. lia.
Qed.

Lemma put_match_instr i limit base start o d d' o' pos :
  encodable i -> perform i d o = Some (d', o') -> zlen o' <= limit ->
  put_match (zlen base) limit (zlen base + limit) start
    (Fields (zlen (literals_of i)) (length_of i) (distance_of d i) pos) (base ++ o ++ literals_of i) =
  (base ++ o', Ok tt) /\ d' = distance_of d i.
Proof.
  intros He Hp Hlim. pose proof (encodable_length i He). unfold put_match. cbn [f_length f_distance].
  pose proof (perform_grows _ _ _ _ _ Hp) as Hg. unfold perform in Hp.
  destruct (length_of i =? 0) eqn:L; [by injection Hp as <- <-|].
  destruct (_ && _) eqn:C; [|done]. injection Hp as <- <-. bools.
  rewrite (proj2 (Z.eqb_neq _ _)) by lia. rewrite !(zlen_app base).
  rewrite (proj2 (Z.ltb_ge _ _)) by lia. rewrite (zlen_app o) in *.
  rewrite (proj2 (Z.ltb_ge _ _)) by lia. split; [|done].
  rewrite <- (zlen_app o), <- (zlen_app base). rewrite copy_match_eq.
  2: { rewrite !zlen_app. pose proof (zlen_nonneg base). lia. }
  rewrite periodic_app; [by rewrite <- app_assoc|]. rewrite <- zlen_app in *. unfold zlen in *. lia.
Qed.

Lemma step_instr pre i post base limit o d d' o' :
  encodable i -> zlen (pre ++ (head i ++ literals_of i) ++ post) < 2 ^ usize_bits ->
  perform i d o = Some (d', o') -> zlen o' <= limit ->
  step (pre ++ (head i ++ literals_of i) ++ post) (zlen base) limit (zlen base + limit)
    (State (zlen pre) d (base ++ o)) =
  More (State (zlen pre + zlen (head i ++ literals_of i)) d' (base ++ o')).
Proof.
  intros He Hs Hp Hlim. pose proof (encodable_length i He) as Hn.
  pose proof (perform_grows _ _ _ _ _ Hp) as Hg. unfold step. cbn [at_ distance out].
  assert (exists t, head i = hd 0 (head i) :: t) as [t Ht].
  { destruct i; simpl; try by eexists. all: case_match; by eexists. }
  replace (zget (pre ++ (head i ++ literals_of i) ++ post) (zlen pre)) with (Some (hd 0 (head i))).
  2: { rewrite <- (Z.add_0_r (zlen pre)), zget_app, Ht by lia. done. }
  rewrite (classify_head _ He). destruct (decide (kind_of i = Nop)) as [N|N].
  { destruct i; simpl in N; try discriminate N; try (by case_match). simpl in *.
    injection Hp as <- <-. by rewrite app_nil_r. }
  assert (operate (pre ++ (head i ++ literals_of i) ++ post) (zlen base) limit (zlen base + limit)
    (State (zlen pre) d (base ++ o)) (hd 0 (head i)) (kind_of i) =
    More (State (zlen pre + zlen (head i ++ literals_of i)) d' (base ++ o'))) as Op.
  { unfold operate. cbn [at_ distance out]. rewrite <- (app_assoc (head i)).
    rewrite read_fields_head by done. rewrite (app_assoc (head i)).
    rewrite put_literals_instr by (done || lia).
    destruct (put_match_instr i limit base (zlen pre) o d d' o' (zlen pre + zlen (head i)) He Hp Hlim)
      as [-> ->]. done. }
  rewrite <- Op. destruct i; simpl in N |- *; try done; by case_match.
Qed.

Lemma run_mono program d o d' o' :
  Forall encodable program -> run program d o = Some (d', o') -> zlen o <= zlen o'.
Proof.
  intros Hp. revert d o. induction Hp as [|i program He _ IH]; intros d o; simpl; [by intros [= <- <-]|].
  destruct (perform i d o) as [[d1 o1]|] eqn:P; [|done]. intros R%IH.
  pose proof (perform_grows _ _ _ _ _ P). pose proof (encodable_length i He).
  pose proof (zlen_nonneg (literals_of i)). lia.
Qed.

Lemma decode_loop_run fuel pre program rest base limit d o d' o' :
  Forall encodable program -> run program d o = Some (d', o') -> zlen o' <= limit ->
  zlen (pre ++ assemble program ++ rest) < 2 ^ usize_bits ->
  (length program + 1 <= fuel)%nat ->
  exists fuel', (0 < fuel')%nat /\
  decode_loop fuel (pre ++ assemble program ++ rest) (zlen base) limit (zlen base + limit)
    (State (zlen pre) d (base ++ o)) =
  decode_loop fuel' (pre ++ assemble program ++ rest) (zlen base) limit (zlen base + limit)
    (State (zlen pre + zlen (assemble program)) d' (base ++ o')).
Proof.
  intros Hp. revert fuel pre d o. induction Hp as [|i program He Hp IH]; intros fuel pre d o.
  { simpl. intros [= <- <-] _ _ Hf. exists fuel. split; [lia|]. by rewrite Z.add_0_r. }
  cbn [run]. destruct (perform i d o) as [[d1 o1]|] eqn:P; [|done]. intros R Hlim Hs Hf.
  unfold assemble in *. cbn [map concat] in *. fold (assemble program) in *.
  destruct fuel as [|fuel]; [simpl in Hf; lia|]. cbn [decode_loop].
  rewrite <- (app_assoc _ (assemble program)) in *.
  rewrite (step_instr pre i (assemble program ++ rest) base limit o d d1 o1);
    [|done|done|done|apply run_mono in R; [lia|done]].
  rewrite (app_assoc pre) in *. rewrite <- zlen_app.
  destruct (IH fuel (pre ++ head i ++ literals_of i) d1 o1) as (fuel'&Hf'&E);
    [done|done|done|simpl in Hf; lia|].
  exists fuel'. split; [done|]. rewrite E. do 2 f_equal. rewrite !zlen_app. lia.
Qed.

Lemma assemble_length program : (length program <= length (assemble program))%nat.
Proof.
  unfold assemble. induction program as [|i program IH]; simpl; [lia|]. rewrite !length_app.
  assert (1 <= length (head i))%nat by (destruct i; simpl; try case_match; simpl; lia). lia.
Qed.

(** ** The decoder runs nothing else *)

Lemma byte_at_inv pre rest k start x :
  0 <= k -> byte_at (pre ++ rest) (zlen pre + k) start = Ok x -> zget rest k = Some x.
Proof. intros Hk. unfold byte_at. rewrite zget_app by done. by destruct (zget rest k); intros [= ->]. Qed.

Lemma half_word_at_inv pre b rest start x :
  half_word_at (pre ++ b :: rest) (zlen pre + 1) start = Ok x ->
  exists lo hi post, rest = lo :: hi :: post /\ x = lo + 256 * hi.
Proof.
  unfold half_word_at. destruct (byte_at _ _ _) as [lo| |] eqn:L; [|done..]. cbn [res_bind]. rewrite <- Z.add_assoc.
  destruct (byte_at (pre ++ b :: rest) (zlen pre + (1 + 1)) start) as [hi| |] eqn:H; [|done..]. intros [= <-].
  apply byte_at_inv in L, H; try lia. destruct rest as [|x [|y post]]; try done. injection L as ->. injection H as ->.
  exists lo, hi, post. split; [done|]. cbn. lia.
Qed.

(** The opcode table read backwards: what an opcode of a class looks like. *)
Definition opcode_shape (b : Z) : bool :=
  let l := Z.shiftr b 6 in let m := Z.land (Z.shiftr b 3) 7 in let low := Z.land b 7 in
  let packed := (l <=? 3) && (0 <=? l) && (0 <=? m) && (m <=? 7 - 2 * l) && (b =? l * 64 + m * 8 + low) in
  match classify b with
  | SmallDistance => packed && (0 <=? low) && (low <=? 5)
  | LargeDistance => packed && (low =? 7)
  | PreviousDistance => packed && (low =? 6) && (1 <=? l)
  | MediumDistance =>
      let l := Z.land (Z.shiftr b 3) 3 in
      (0 <=? l) && (l <=? 3) && (0 <=? low) && (low <=? 7) && (b =? 0xa0 + l * 8 + low)
  | SmallLiteral => (1 <=? Z.land b 15) && (Z.land b 15 <=? 15) && (b =? 0xe0 + Z.land b 15)
  | LargeLiteral => b =? 0xe0
  | SmallMatch => (1 <=? Z.land b 15) && (Z.land b 15 <=? 15) && (b =? 0xf0 + Z.land b 15)
  | LargeMatch => b =? 0xf0
  | Nop => (b =? 0x0e) || (b =? 0x16)
  | EndOfStream => b =? 0x06
  | Reserved => true
  end.

Lemma opcode_shaped b : u8 b -> opcode_shape b = true.
Proof. apply u8_forallb. by vm_compute. Qed.

(** An opcode and its fields are an instruction, up to its literals. *)
Lemma read_fields_inv pre b rest d f :
  is_bytes (b :: rest) -> read_fields (pre ++ b :: rest) (zlen pre) d b (classify b) = Ok f ->
  exists (make : bytes -> instr) h post, b :: rest = h ++ post /\ f_at f = zlen pre + zlen h /\
    forall lits, zlen lits = f_literals f ->
      encodable (make lits) /\ head (make lits) = h /\ literals_of (make lits) = lits /\
      length_of (make lits) = f_length f /\ distance_of d (make lits) = f_distance f.
Proof.
  intros [Hb Hr]%Forall_cons. pose proof (opcode_shaped b Hb) as Hs. unfold opcode_shape in Hs.
  destruct (classify b); cbn [read_fields]; try done.
  - destruct (byte_at _ _ _) as [low| |] eqn:L; [|done..]. intros [= <-]. apply byte_at_inv in L; [|lia].
    destruct rest as [|low' post]; [done|]. injection L as ->. apply Forall_cons in Hr as [Hlow _]. unfold in_range in Hlow.
    set (l := Z.shiftr b 6) in *. set (m := Z.land (Z.shiftr b 3) 7) in *. set (w := Z.land b 7) in *. bools.
    exists (fun lits => ISmall lits (m + 3) (w * 256 + low)), [b; low], post. cbn [f_at f_literals f_length f_distance encodable head literals_of length_of distance_of].
    change 0x07 with 7. fold w. rewrite lor_shiftl by lia. change (2 ^ 8) with 256. unfold packed_opcode.
    split_and!; [done|by rewrite zlen_cons|]. intros lits ->. split_and!; try done; try lia.
    do 2 f_equal; [|Z.div_mod_to_equations; lia]. replace ((w * 256 + low) / 256) with w by (Z.div_mod_to_equations; lia). lia.
  - destruct (half_word_at _ _ _) as [w| |] eqn:L; [|done..]. intros [= <-].
    apply half_word_at_inv in L as (lo & hi & post & -> & ->). apply Forall_cons in Hr as [Hlo [Hhi _]%Forall_cons]. unfold in_range in Hlo, Hhi.
    set (l := Z.land (Z.shiftr b 3) 3) in *. set (m := Z.land b 7) in *. bools. set (w := lo + 256 * hi).
    change 0x03 with 3. change 0x07 with 7. fold l m. change 3 with (2 ^ 2 - 1). rewrite (land_low w), Z.shiftr_div_pow2, lor_shiftl by (try apply Z.mod_pos_bound; lia).
    change (2 ^ 2) with 4. change (4 - 1) with 3.
    exists (fun lits => IMedium lits (m * 4 + w mod 4 + 3) (w / 4)), [b; lo; hi], post.
    cbn [f_at f_literals f_length f_distance encodable head literals_of length_of distance_of]. cbv zeta.
    split_and!; [done|by rewrite !zlen_cons|]. intros lits ->. assert (w / 4 * 4 + (m * 4 + w mod 4 + 3 - 3) mod 4 = w) as -> by (Z.div_mod_to_equations; lia).
    split_and!; try done; try (unfold w; Z.div_mod_to_equations; lia).
    repeat f_equal; unfold w; Z.div_mod_to_equations; lia.
  - destruct (half_word_at _ _ _) as [w| |] eqn:L; [|done..]. intros [= <-].
    apply half_word_at_inv in L as (lo & hi & post & -> & ->). apply Forall_cons in Hr as [Hlo [Hhi _]%Forall_cons]. unfold in_range in Hlo, Hhi.
    set (l := Z.shiftr b 6) in *. set (m := Z.land (Z.shiftr b 3) 7) in *. bools. set (w := lo + 256 * hi).
    exists (fun lits => ILarge lits (m + 3) w), [b; lo; hi], post.
    cbn [f_at f_literals f_length f_distance encodable head literals_of length_of distance_of]. unfold packed_opcode.
    split_and!; [done|by rewrite !zlen_cons|]. intros lits ->. split_and!; try done; try (unfold w; lia).
    repeat f_equal; unfold w; try (Z.div_mod_to_equations; lia).
  - intros [= <-]. set (l := Z.shiftr b 6) in *. set (m := Z.land (Z.shiftr b 3) 7) in *. bools.
    exists (fun lits => IPrevious lits (m + 3)), [b], rest.
    cbn [f_at f_literals f_length f_distance encodable head literals_of length_of distance_of]. unfold packed_opcode.
    split_and!; [done|done|]. intros lits ->. split_and!; try done; try lia. f_equal; lia.
  - intros [= <-]. bools. exists (fun lits => ILiteral lits), [b], rest.
    cbn [f_at f_literals f_length f_distance encodable head literals_of length_of distance_of].
    split_and!; [done|done|]. intros lits ->. change 0x0f with 15. rewrite (proj2 (Z.ltb_lt _ _)) by lia. split_and!; try done; try lia. f_equal; lia.
  - destruct (byte_at _ _ _) as [low| |] eqn:L; [|done..]. intros [= <-]. apply byte_at_inv in L; [|lia].
    destruct rest as [|low' post]; [done|]. injection L as ->. apply Forall_cons in Hr as [Hlow _]. unfold in_range in Hlow. bools.
    exists (fun lits => ILiteral lits), [b; low], post.
    cbn [f_at f_literals f_length f_distance encodable head literals_of length_of distance_of].
    split_and!; [done|done|]. intros lits ->. rewrite (proj2 (Z.ltb_ge _ _)) by lia. split_and!; try done; try lia. repeat f_equal; lia.
  - intros [= <-]. bools. exists (fun _ => IMatch (Z.land b 15)), [b], rest.
    cbn [f_at f_literals f_length f_distance encodable head literals_of length_of distance_of].
    split_and!; [done|done|]. intros lits ->%zlen_zero. rewrite (proj2 (Z.ltb_lt _ _)) by lia. split_and!; try done; try lia. f_equal; lia.
  - destruct (byte_at _ _ _) as [low| |] eqn:L; [|done..]. intros [= <-]. apply byte_at_inv in L; [|lia].
    destruct rest as [|low' post]; [done|]. injection L as ->. apply Forall_cons in Hr as [Hlow _]. unfold in_range in Hlow. bools.
    exists (fun _ => IMatch (low + 16)), [b; low], post.
    cbn [f_at f_literals f_length f_distance encodable head literals_of length_of distance_of].
    split_and!; [done|done|]. intros lits ->%zlen_zero. rewrite (proj2 (Z.ltb_ge _ _)) by lia. split_and!; try done; try lia. repeat f_equal; lia.
Qed.

Lemma put_literals_inv pre h post limit ceiling start f o o' pos :
  f_at f = zlen pre + zlen h -> 0 <= f_literals f -> zlen o <= ceiling ->
  put_literals (pre ++ h ++ post) limit ceiling start f o = (o', Ok pos) ->
  exists lits post', post = lits ++ post' /\ zlen lits = f_literals f /\ o' = o ++ lits /\
    pos = zlen pre + zlen (h ++ lits) /\ zlen o' <= ceiling.
Proof.
  intros Ha Hn Ho. unfold put_literals. destruct (f_literals f =? 0) eqn:E; bools.
  { intros [= <- <-]. exists [], post. rewrite !app_nil_r. by rewrite Ha. }
  destruct (checked_add _ _ _) as [fin|] eqn:C; [|done]. unfold checked_add in C. destruct (_ <? _); [|done]. injection C as <-.
  destruct (negb _); [done|]. destruct (ceiling <? _) eqn:L; [done|]. destruct (slice _ _ _) as [lits| |] eqn:S; [|done..].
  intros [= <- <-]. apply slice_inv in S as (_ & Hl & ->). bools. rewrite Ha in *. replace (_ + _ - _) with (f_literals f) by lia.
  rewrite !zlen_app in Hl. rewrite (app_assoc pre), zdrop_app_ge by (rewrite zlen_app; lia). rewrite zlen_app, Z.sub_diag, zdrop_0.
  exists (ztake (f_literals f) post), (zdrop (f_literals f) post). rewrite ztake_zdrop, !zlen_app, zlen_ztake. split_and!; try done; lia.
Qed.

Lemma put_match_inv base x limit start f o' :
  0 <= f_length f -> 0 <= f_distance f -> zlen x <= limit ->
  put_match (zlen base) limit (zlen base + limit) start f (base ++ x) = (o', Ok tt) ->
  exists y, o' = base ++ y /\ zlen y <= limit /\
    (if f_length f =? 0 then Some (f_distance f, x)
     else if (0 <? f_distance f) && (f_distance f <=? zlen x)
          then Some (f_distance f, x ++ periodic x (Z.to_nat (f_distance f)) (Z.to_nat (f_length f))) else None) = Some (f_distance f, y).
Proof.
  intros Hn Hd Hx. unfold put_match. destruct (f_length f =? 0) eqn:E0; [intros [= <-]; by exists x|].
  destruct (f_distance f =? 0) eqn:E1; [done|]. bools. rewrite zlen_app. replace (zlen base + zlen x - zlen base) with (zlen x) by lia.
  destruct (zlen x <? f_distance f) eqn:E2; [done|]. destruct (zlen base + limit <? _) eqn:E3; [done|]. bools.
  rewrite <- zlen_app, copy_match_eq by (rewrite zlen_app; pose proof (zlen_nonneg base); lia).
  intros [= <-].
  rewrite periodic_app by (unfold zlen in *; lia). rewrite (proj2 (Z.ltb_lt _ _)), (proj2 (Z.leb_le _ _)) by lia. cbn [andb].
  eexists. split; [by rewrite <- app_assoc|]. split; [|done]. rewrite zlen_app. unfold zlen at 2. rewrite length_periodic. lia.
Qed.

Lemma step_inv pre rest base limit d o s' :
  is_bytes (pre ++ rest) -> 0 <= d -> zlen o <= limit ->
  step (pre ++ rest) (zlen base) limit (zlen base + limit) (State (zlen pre) d (base ++ o)) = More s' ->
  exists i post d' o', encodable i /\ rest = (head i ++ literals_of i) ++ post /\ perform i d o = Some (d', o') /\
    0 <= d' /\ zlen o' <= limit /\ s' = State (zlen pre + zlen (head i ++ literals_of i)) d' (base ++ o').
Proof.
  intros Hs Hd Ho. pose proof Hs as [_ Hr]%Forall_app. unfold step. cbn [at_ distance out]. destruct (zget (pre ++ rest) (zlen pre)) as [b|] eqn:G; [|done].
  rewrite <- (Z.add_0_r (zlen pre)), zget_app in G by lia. destruct rest as [|b' rest]; [done|]. injection G as ->.
  destruct (decide (classify b = Nop)) as [N|N].
  { rewrite N. intros [= <-]. exists (INop b), rest, d, o. pose proof Hr as [Hb _]%Forall_cons. pose proof (opcode_shaped b Hb) as S.
    unfold opcode_shape in S. rewrite N in S. cbn [encodable head literals_of]. split_and!; try done.
    - apply orb_prop in S as [S|S]; bools; auto.
    - unfold perform. cbn [length_of literals_of distance_of]. by rewrite app_nil_r. }
  assert (operate (pre ++ b :: rest) (zlen base) limit (zlen base + limit) (State (zlen pre) d (base ++ o)) b (classify b) = More s' -> 
    exists i post d' o', encodable i /\ b :: rest = (head i ++ literals_of i) ++ post /\ perform i d o = Some (d', o') /\
    0 <= d' /\ zlen o' <= limit /\ s' = State (zlen pre + zlen (head i ++ literals_of i)) d' (base ++ o')) as Op.
  2: { destruct (classify b); try exact Op; try done. by case_match. }
  unfold operate. cbn [at_ distance out]. destruct (read_fields _ _ _ _ _) as [f| |] eqn:F; [|done..].
  pose proof F as Fo. apply read_fields_ok in Fo; [|done|by apply Forall_cons in Hr as [? _]|done].
  apply read_fields_inv in F as (make & h & post & E & Ha & Hm); [|done]. rewrite E.
  destruct (put_literals _ _ _ _ _ _) as [o1 [pos| |]] eqn:L; [|done..].
  apply (put_literals_inv pre h post) in L as (lits & post' & -> & Hl & -> & -> & Hc); [|done|apply Fo|rewrite zlen_app; lia].
  destruct (Hm lits Hl) as (He & Hh & Hli & Hle & Hdi).
  destruct (put_match _ _ _ _ _ _) as [o2 [[]| |]] eqn:M; [|done..]. intros [= <-].
  destruct Fo as (_ & Fl & Fd & _). rewrite <- app_assoc in M. apply put_match_inv in M as (y & -> & Hy & P); [|done|done|rewrite !zlen_app in *; lia].
  exists (make lits), post', (f_distance f), y. unfold perform. rewrite Hh, Hli, Hle, Hdi, <- app_assoc. by split_and!.
Qed.

Lemma step_done pre rest base limit d o x :
  is_bytes (pre ++ rest) -> step (pre ++ rest) (zlen base) limit (zlen base + limit) (State (zlen pre) d (base ++ o)) = Done x (Ok tt) ->
  x = base ++ o /\ exists junk, rest = 0x06 :: junk /\ 7 <= zlen junk.
Proof.
  intros Hs. pose proof Hs as [_ Hr]%Forall_app. unfold step. cbn [at_ distance out]. destruct (zget (pre ++ rest) (zlen pre)) as [b|] eqn:G; [|done].
  rewrite <- (Z.add_0_r (zlen pre)), zget_app in G by lia. destruct rest as [|b' rest]; [done|]. injection G as ->.
  assert (forall k, operate (pre ++ b :: rest) (zlen base) limit (zlen base + limit) (State (zlen pre) d (base ++ o)) b k <> Done x (Ok tt)) as Op.
  { intros k. unfold operate. destruct (read_fields _ _ _ _ _); [|congruence..]. destruct (put_literals _ _ _ _ _ _) as [? []]; [|congruence..].
    destruct (put_match _ _ _ _ _ _) as [? [[]| |]]; congruence. }
  destruct (classify b) eqn:C; try (intros H; by apply Op in H); try done. case_match eqn:L; [done|]. intros [= <-]. split; [done|].
  pose proof Hr as [Hb _]%Forall_cons. pose proof (opcode_shaped b Hb) as S. unfold opcode_shape in S. rewrite C in S. apply Z.eqb_eq in S as ->. bools.
  exists rest. split; [done|]. unfold END_OF_STREAM_BYTES in L. rewrite zlen_app, zlen_cons in L. lia.
Qed.

Lemma decode_loop_inv fuel pre rest base limit d o x :
  is_bytes (pre ++ rest) -> 0 <= d -> zlen o <= limit ->
  decode_loop fuel (pre ++ rest) (zlen base) limit (zlen base + limit) (State (zlen pre) d (base ++ o)) = Some (x, Ok tt) ->
  exists program junk d' o', Forall encodable program /\ rest = assemble program ++ 0x06 :: junk /\ 7 <= zlen junk /\
    run program d o = Some (d', o') /\ zlen o' <= limit /\ x = base ++ o'.
Proof.
  revert pre rest d o. induction fuel as [|fuel IH]; intros pre rest d o Hs Hd Ho; [done|]. cbn [decode_loop].
  destruct (step _ _ _ _ _) as [y r|s'] eqn:S.
  - intros [= -> ->]. apply step_done in S as (-> & junk & -> & Hj); [|done]. exists [], junk, d, o. by split_and!.
  - apply step_inv in S as (i & post & d1 & o1 & He & -> & Hp & Hd1 & Ho1 & ->); [|done..]. rewrite <- zlen_app, (app_assoc pre) in *.
    intros (program & junk & d' & o' & Hf & -> & Hj & Hr & Hl & ->)%IH; [|done..].
    exists (i :: program), junk, d', o'. unfold assemble. cbn [map concat run]. rewrite Hp, <- !app_assoc. split_and!; try done. by constructor.
Qed.

(** A program of one instruction of each kind: literals, matches that overlap
    themselves, and a reused distance. *)
Definition sample_program : list instr :=
  [ILiteral [97; 98; 99; 100]; ISmall [81] 5 4; INop 0x0e; IMedium [90] 9 5; ILarge [] 3 2;
   IPrevious [88; 89] 4; IMatch 3; IMatch 20].

Lemma sample_encodable : Forall encodable sample_program.
Proof. repeat (apply List.Forall_cons; [first [by_compute | by left]|]). apply List.Forall_nil. Qed.

(** ** Properties *)

(** The decoder is total and bounded.  On any input it returns after at most one
    turn per stream byte, never panics, and leaves the output it was given
    followed by at most [limit] bytes, on the error paths too. *)
Theorem lzvn_bounded stream limit o :
  is_bytes stream -> is_bytes o -> 0 <= limit ->
  exists k r, decode_onto stream limit o = Some (o ++ k, r) /\
    r <> Panic /\ zlen k <= limit /\ is_bytes k.
Proof.
  intros Hs Ho Hl. unfold decode_onto, checked_add. destruct (_ <? _).
  2: { exists [], (Err (OutputTooLarge limit)). by rewrite app_nil_r. }
  destruct (decode_loop_ok (S (length stream)) stream o limit (State 0 0 o)) as (o'&r&E&(k&->&Hk&Hb)&Hr);
    [done|done| |simpl; unfold zlen; lia|].
  { split_and!; simpl; [lia|lia|]. exists []. by rewrite app_nil_r. }
  exists k, r. by split_and!.
Qed.

Lemma lzvn_bounded_witness :
  exists k r, decode_onto [0xe1; 122; 0x30; 1; 6] 5 [7] = Some ([7] ++ k, r) /\ zlen k <= 5.
Proof.
  destruct (lzvn_bounded [0xe1; 122; 0x30; 1; 6] 5 [7]) as (k&r&E&_&Hk&_);
    [concrete_bytes|concrete_bytes|by_compute|].
  exists k, r. split; [exact E|exact Hk].
Defined.

(** C36. The decoder implements the format, and nothing else: a stream is decoded
    exactly when it is an assembled program of the format's instructions, the end
    marker and at least seven bytes more, with room for what the program
    produces; and what is appended to the output is what the program means, a
    match longer than its distance repeating the bytes it is producing. *)
Theorem lzvn_runs_programs stream limit base x :
  is_bytes stream -> 0 <= limit -> zlen base + limit < 2 ^ usize_bits -> zlen stream < 2 ^ usize_bits ->
  decode_onto stream limit base = Some (x, Ok tt) <->
  exists program junk d o, Forall encodable program /\ stream = assemble program ++ 0x06 :: junk /\ 7 <= zlen junk /\
    run program 0 [] = Some (d, o) /\ zlen o <= limit /\ x = base ++ o.
Proof.
  intros Hb Hl Hc Hs. unfold decode_onto, checked_add. rewrite (proj2 (Z.ltb_lt _ _)) by done. split.
  - intros H. apply (decode_loop_inv (S (length stream)) [] stream base limit 0 []); [done|done|done|]. by rewrite app_nil_r.
  - intros (program & junk & d & o & Hp & -> & Hj & R & Hlim & ->).
    destruct (decode_loop_run (S (length (assemble program ++ 0x06 :: junk))) [] program
      (0x06 :: junk) base limit 0 [] d o) as (fuel&Hf&E); [done|done|done|done| |].
    { rewrite length_app. pose proof (assemble_length program). lia. }
    rewrite app_nil_r in E. change (zlen (@nil Z)) with 0 in E. cbn [app] in E. rewrite E.
    destruct fuel as [|fuel]; [lia|]. cbn [decode_loop]. unfold step. cbn [at_ out].
    rewrite Z.add_0_l, <- (Z.add_0_r (zlen (assemble program))), zget_app by lia.
    change (zget (0x06 :: junk) 0) with (Some 6). change (classify 6) with EndOfStream. cbv iota.
    rewrite zlen_app, zlen_cons. unfold END_OF_STREAM_BYTES. by rewrite (proj2 (Z.ltb_ge _ _)) by lia.
Qed.

Lemma lzvn_runs_programs_witness :
  decode_onto (assemble sample_program ++ [6; 0; 0; 0; 0; 0; 0; 0; 1; 2]) 60 [33] =
    Some ([33] ++ snd (default (0, []) (run sample_program 0 [])), Ok tt).
Proof.
  destruct (run sample_program 0 []) as [[d o]|] eqn:E; [|vm_compute in E; discriminate E].
  apply (lzvn_runs_programs (assemble sample_program ++ [6; 0; 0; 0; 0; 0; 0; 0; 1; 2]) 60 [33]);
    [clear E; concrete_bytes|clear E; by_compute..|].
  exists sample_program, [0; 0; 0; 0; 0; 0; 0; 1; 2], d, o. split_and!; [exact sample_encodable|reflexivity|clear E; by_compute|exact E| |reflexivity].
  assert (zlen o = zlen (snd (default (0, []) (run sample_program 0 [])))) as -> by (by rewrite E).
  clear E. by_compute.
Defined.
