(* ===== verification/Deflate.v ===== *)
(** * Stored DEFLATE, zlib and gzip (src/src/asr_server/deflate.rs)

    The streams are built from stored blocks only.  [u32] additions that would
    overflow are panics here, as in a checked build. *)

From S2P Require Import Prelude Crc32.
From stdpp Require Import base tactics numbers list.
From Stdlib Require Import ZArith Lia.

Open Scope Z_scope.

Definition MAX_STORED_BLOCK : Z := 0xffff.
Definition ZLIB_CMF : Z := 0x78.
Definition ZLIB_FLG : Z := 0x01.

Inductive DeflateError :=
| Truncated
| TrailingBytes (count : Z)
| UnsupportedBlockType (kind : Z)
| StoredLengthMismatch (len nlen : Z)
| NotZlib
| NotGzip
| PresetDictionary
| UnsupportedGzipFlags (flags : Z)
| ChecksumMismatch (expected actual : Z)
| LengthMismatch (declared actual : Z).

Definition push_stored_block (out block : bytes) (final_block : bool) : bytes :=
  let len := wrap 16 (zlen block) in
  out ++ [if final_block then 1 else 0] ++ le_bytes 2 len ++ le_bytes 2 (bit_not 16 len) ++ block.

(** The [while let] loop over the peekable chunks. *)
Fixpoint push_blocks (out : bytes) (blocks : list bytes) : bytes :=
  match blocks with
  | [] => out
  | block :: blocks =>
      push_blocks (push_stored_block out block (match blocks with [] => true | _ => false end)) blocks
  end.

Definition deflate_stored (data : bytes) : bytes :=
  if zlen data =? 0 then push_stored_block [] [] true
  else push_blocks [] (slice_chunks MAX_STORED_BLOCK data).

Definition checked_u32 {E} (x : Z) : res E Z := if x <? 2 ^ 32 then Ok x else Panic.

Definition MODULUS : Z := 65521.

Fixpoint adler_run {E} (run : bytes) (low high : Z) : res E (Z * Z) :=
  match run with
  | [] => Ok (low, high)
  | byte :: run =>
      let? low := checked_u32 (low + byte) in
      let? high := checked_u32 (high + low) in
      adler_run run low high
  end.

Fixpoint adler_runs {E} (runs : list bytes) (low high : Z) : res E (Z * Z) :=
  match runs with
  | [] => Ok (low, high)
  | run :: runs =>
      let? (low, high) := adler_run run low high in
      adler_runs runs (low mod MODULUS) (high mod MODULUS)
  end.

Definition adler32 {E} (data : bytes) : res E Z :=
  let? (low, high) := adler_runs (slice_chunks 5552 data) 1 0 in
  Ok (Z.lor (wrap 32 (Z.shiftl high 16)) low).

Definition zlib_compress {E} (data : bytes) : res E bytes :=
  let? sum := adler32 data in
  Ok ([ZLIB_CMF] ++ [ZLIB_FLG] ++ deflate_stored data ++ be_bytes 4 sum).

Definition gzip_compress (data : bytes) : bytes :=
  [0x1f; 0x8b; 0x08; 0x00; 0x00; 0x00; 0x00; 0x00; 0x00; 0xff] ++ deflate_stored data ++
  le_bytes 4 (embedded_panic_crc32 data) ++ le_bytes 4 (wrap 32 (zlen data)).

Fixpoint inflate_loop (fuel : nat) (stream out : bytes) : option (res DeflateError bytes) :=
  match fuel with
  | O => None
  | S fuel =>
      match zget stream 0 with
      | None => Some (Err Truncated)
      | Some header =>
          let block_type := Z.land (Z.shiftr header 1) 3 in
          if negb (block_type =? 0) then Some (Err (UnsupportedBlockType block_type)) else
          let final_block := Z.land header 1 =? 1 in
          match get_range stream 1 5 with
          | None => Some (Err Truncated)
          | Some len_bytes =>
              let len := le_val (ztake 2 len_bytes) in
              let nlen := le_val (zdrop 2 len_bytes) in
              if negb (nlen =? bit_not 16 len) then Some (Err (StoredLengthMismatch len nlen)) else
              let fin := 5 + len in
              match get_range stream 5 fin with
              | None => Some (Err Truncated)
              | Some block =>
                  let out := out ++ block in
                  match slice (E := DeflateError) stream fin (zlen stream) with
                  | Ok stream =>
                      if final_block
                      then Some (if zlen stream =? 0 then Ok out else Err (TrailingBytes (zlen stream)))
                      else inflate_loop fuel stream out
                  | Err e => Some (Err e)
                  | Panic => Some Panic
                  end
              end
          end
      end
  end.

(** A block takes at least five bytes, so the stream's length bounds the turns. *)
Definition inflate_stored (stream : bytes) : option (res DeflateError bytes) :=
  inflate_loop (S (length stream)) stream [].

Definition zlib_decompress (stream : bytes) : option (res DeflateError bytes) :=
  if zlen stream <? 6 then Some (Err Truncated) else
  match index (E := DeflateError) stream 0, index (E := DeflateError) stream 1,
        slice (E := DeflateError) stream 2 (zlen stream - 4),
        slice (E := DeflateError) stream (zlen stream - 4) (zlen stream) with
  | Ok b0, Ok b1, Ok body, Ok tail =>
      let header := b0 * 256 + b1 in
      if negb (Z.land b0 0x0f =? 8) || negb (header mod 31 =? 0) then Some (Err NotZlib) else
      if negb (Z.land b1 0x20 =? 0) then Some (Err PresetDictionary) else
      let expected := be_val tail in
      match inflate_stored body with
      | None => None
      | Some r =>
          Some (let? out := r in
                let? actual := adler32 out in
                if negb (actual =? expected) then Err (ChecksumMismatch expected actual) else Ok out)
      end
  | _, _, _, _ => Some Panic
  end.

Definition gzip_decompress (stream : bytes) : option (res DeflateError bytes) :=
  if zlen stream <? 18 then Some (Err Truncated) else
  match ztake 4 stream,
        slice (E := DeflateError) stream 10 (zlen stream - 8),
        slice (E := DeflateError) stream (zlen stream - 8) (zlen stream - 4),
        slice (E := DeflateError) stream (zlen stream - 4) (zlen stream) with
  | [b0; b1; b2; b3], Ok body, Ok sum, Ok size =>
      if negb (b0 =? 0x1f) || negb (b1 =? 0x8b) || negb (b2 =? 0x08) then Some (Err NotGzip) else
      if negb (b3 =? 0) then Some (Err (UnsupportedGzipFlags b3)) else
      match inflate_stored body with
      | None => None
      | Some r =>
          Some (let? out := r in
                let expected := le_val sum in
                let actual := embedded_panic_crc32 out in
                if negb (actual =? expected) then Err (ChecksumMismatch expected actual) else
                let declared := le_val size in
                if negb (declared =? wrap 32 (zlen out)) then Err (LengthMismatch declared (zlen out))
                else Ok out)
      end
  | _, _, _, _ => Some Panic
  end.

(** ** Adler-32 *)

(** The two sums of the definition, over the integers. *)
Definition adler_sums (data : bytes) (low high : Z) : Z * Z :=
  foldl (fun '(low, high) byte => (low + byte, high + (low + byte))) (low, high) data.

Definition adler32_reference (data : bytes) : Z :=
  let '(low, high) := adler_sums data 1 0 in high mod MODULUS * 2 ^ 16 + low mod MODULUS.

Lemma adler_sums_mod data low high low' high' :
  low mod MODULUS = low' mod MODULUS -> high mod MODULUS = high' mod MODULUS ->
  fst (adler_sums data low high) mod MODULUS = fst (adler_sums data low' high') mod MODULUS /\
  snd (adler_sums data low high) mod MODULUS = snd (adler_sums data low' high') mod MODULUS.
Proof.
  revert low high low' high'. induction data as [|x data IH]; intros low high low' high' El Eh; [done|].
  assert ((low + x) mod MODULUS = (low' + x) mod MODULUS) as E1.
  { rewrite <- (Zplus_mod_idemp_l low), El. by rewrite Zplus_mod_idemp_l. }
  apply IH; [done|]. rewrite (Zplus_mod high), (Zplus_mod high'), Eh, E1. done.
Qed.

(** No sum overflows over a run of 5552 bytes: twice the second one stays
    below 2^33. *)
Lemma adler_run_sums {E} run low high :
  is_bytes run -> 0 <= low -> 0 <= high ->
  2 * high + 2 * zlen run * low + 255 * (zlen run * (zlen run + 1)) < 2 ^ 33 ->
  low + 255 * zlen run < 2 ^ 32 ->
  adler_run (E := E) run low high = Ok (adler_sums run low high).
Proof.
  intros Hr. revert low high. induction Hr as [|x run Hx _ IH]; intros low high Hl Hh B1 B2; [done|].
  rewrite zlen_cons in *. pose proof (zlen_nonneg run). unfold in_range in Hx. cbn [adler_run].
  assert (high + (low + x) < 2 ^ 32) by nia.
  unfold checked_u32 at 1. rewrite (proj2 (Z.ltb_lt _ _)) by lia. cbn [res_bind].
  unfold checked_u32 at 1. rewrite (proj2 (Z.ltb_lt _ _)) by lia. cbn [res_bind].
  rewrite IH; [done|lia|lia|nia|lia].
Qed.

Lemma adler_sums_app d1 d2 low high :
  adler_sums (d1 ++ d2) low high =
    adler_sums d2 (fst (adler_sums d1 low high)) (snd (adler_sums d1 low high)).
Proof. unfold adler_sums. rewrite foldl_app. by destruct (foldl _ (low, high) d1). Qed.

Lemma adler_sums_nonneg data low high :
  is_bytes data -> 0 <= low -> 0 <= high ->
  0 <= fst (adler_sums data low high) /\ 0 <= snd (adler_sums data low high).
Proof.
  intros Hd. revert low high. induction Hd as [|x data Hx _ IH]; intros low high Hl Hh; [done|].
  unfold in_range in Hx. apply IH; lia.
Qed.

(** Reducing after each run agrees with reducing once at the end. *)
Lemma adler_runs_sums {E} runs low high :
  Forall (fun c => zlen c <= 5552) runs -> is_bytes (concat runs) ->
  0 <= low < MODULUS -> 0 <= high < MODULUS ->
  exists low' high', adler_runs (E := E) runs low high = Ok (low', high') /\
    low' = fst (adler_sums (concat runs) low high) mod MODULUS /\
    high' = snd (adler_sums (concat runs) low high) mod MODULUS.
Proof.
  intros Hc. revert low high. induction Hc as [|c runs Hlen _ IH]; intros low high Hb Hl Hh; simpl.
  { exists low, high. by rewrite !Z.mod_small. }
  apply Forall_app in Hb as [Hb1 Hb2]. unfold MODULUS in Hl, Hh. pose proof (zlen_nonneg c).
  rewrite adler_run_sums; [|done|lia|lia|nia|lia]. cbn [res_bind].
  destruct (adler_sums c low high) as [l1 h1] eqn:S1.
  destruct (IH (l1 mod MODULUS) (h1 mod MODULUS)) as (l'&h'&E1&->&->);
    [done|apply Z.mod_pos_bound; done..|].
  do 2 eexists. split; [done|]. rewrite adler_sums_app, S1. simpl.
  apply adler_sums_mod; by rewrite Zmod_mod.
Qed.

Lemma adler32_eq {E} data : is_bytes data -> adler32 (E := E) data = Ok (adler32_reference data).
Proof.
  intros Hb. unfold adler32, adler32_reference. destruct (slice_chunks_spec 5552 data) as [Ec Fc]; [lia|].
  destruct (adler_runs_sums (E := E) (slice_chunks 5552 data) 1 0) as (l&h&->&->&->);
    [|by rewrite Ec|done|done|].
  { eapply Forall_impl; [exact Fc|]. simpl. lia. }
  rewrite Ec. cbn [res_bind]. destruct (adler_sums data 1 0) as [l h]. cbn [fst snd].
  pose proof (Z.mod_pos_bound l MODULUS ltac:(done)). pose proof (Z.mod_pos_bound h MODULUS ltac:(done)).
  unfold MODULUS in *. rewrite wrap_small.
  - rewrite lor_shiftl by lia. done.
  - rewrite Z.shiftl_mul_pow2 by lia. unfold in_range. lia.
Qed.

Lemma adler32_reference_u32 data : u32 (adler32_reference data).
Proof.
  unfold adler32_reference. destruct (adler_sums data 1 0) as [l h].
  pose proof (Z.mod_pos_bound l MODULUS ltac:(done)). pose proof (Z.mod_pos_bound h MODULUS ltac:(done)).
  unfold MODULUS, in_range in *. lia.
Qed.

(** ** Stored blocks *)

Definition block_bytes (block : bytes) (final_block : bool) : bytes :=
  [if final_block then 1 else 0] ++ le_bytes 2 (zlen block) ++ le_bytes 2 (bit_not 16 (zlen block)) ++ block.

Fixpoint blocks_bytes (blocks : list bytes) : bytes :=
  match blocks with
  | [] => []
  | block :: blocks => block_bytes block (match blocks with [] => true | _ => false end) ++ blocks_bytes blocks
  end.

Lemma push_stored_block_eq out block fin :
  zlen block <= MAX_STORED_BLOCK -> push_stored_block out block fin = out ++ block_bytes block fin.
Proof.
  intros Hb. unfold push_stored_block, block_bytes. pose proof (zlen_nonneg block).
  rewrite wrap_small; [done|]. unfold in_range, MAX_STORED_BLOCK in *; lia.
Qed.

Lemma push_blocks_eq out blocks :
  Forall (fun b => zlen b <= MAX_STORED_BLOCK) blocks -> push_blocks out blocks = out ++ blocks_bytes blocks.
Proof.
  intros Hb. revert out. induction Hb as [|b blocks Hb _ IH]; intros out; simpl; [by rewrite app_nil_r|].
  by rewrite IH, push_stored_block_eq, <- app_assoc.
Qed.

(** The blocks [deflate_stored] writes. *)
Lemma deflate_stored_blocks data :
  exists blocks, blocks <> [] /\ Forall (fun b => zlen b <= MAX_STORED_BLOCK) blocks /\
    concat blocks = data /\ deflate_stored data = blocks_bytes blocks.
Proof.
  unfold deflate_stored. destruct (zlen data =? 0) eqn:Z0; bools.
  - apply zlen_zero in Z0 as ->. exists [[]]. split_and!; [done| |done|done].
    constructor; [done|constructor].
  - destruct (slice_chunks_spec MAX_STORED_BLOCK data) as [Ec Fc]; [done|].
    exists (slice_chunks MAX_STORED_BLOCK data).
    assert (Forall (fun b => zlen b <= MAX_STORED_BLOCK) (slice_chunks MAX_STORED_BLOCK data)) as F.
    { eapply Forall_impl; [exact Fc|]. simpl. lia. }
    split_and!; [|done|done|by rewrite push_blocks_eq].
    intros N. rewrite N in Ec. simpl in Ec. by subst.
Qed.

Lemma zget_ztake {A} (l : list A) i n : 0 <= i < n -> zget (ztake n l) i = zget l i.
Proof.
  intros. unfold zget, ztake. destruct (i <? 0); [done|]. apply lookup_take_lt. lia.
Qed.

Lemma get_range_mid {A} (p k r : list A) lo hi :
  lo = zlen p -> hi = zlen p + zlen k -> get_range (p ++ k ++ r) lo hi = Some k.
Proof.
  intros Hl Hh. pose proof (slice_mid (E := DeflateError) p k r lo hi Hl Hh) as S.
  unfold slice, or_panic in S. by destruct (get_range _ _ _); simplify_eq.
Qed.

(** One block read back. *)
Lemma inflate_block fuel block fin rest out :
  zlen block <= MAX_STORED_BLOCK ->
  inflate_loop (S fuel) (block_bytes block fin ++ rest) out =
    if fin : bool then Some (if zlen rest =? 0 then Ok (out ++ block) else Err (TrailingBytes (zlen rest)))
    else inflate_loop fuel rest (out ++ block).
Proof.
  intros Hb. pose proof (zlen_nonneg block) as Hn. unfold MAX_STORED_BLOCK in Hb.
  assert (u16 (zlen block) /\ u16 (bit_not 16 (zlen block))) as [H16 Hn16] by (unfold bit_not, in_range; lia).
  unfold block_bytes. rewrite <- !app_assoc.
  set (hdr := le_bytes 2 (zlen block) ++ le_bytes 2 (bit_not 16 (zlen block))).
  set (stream := [if fin then 1 else 0] ++ _).
  assert (stream = [if fin then 1 else 0] ++ hdr ++ block ++ rest) as Es
    by (subst stream hdr; by rewrite <- app_assoc).
  assert (zlen hdr = 4) as Hh by (subst hdr; zl).
  cbn [inflate_loop]. rewrite Es. change (zget ([if fin then 1 else 0] ++ _) 0) with (Some (if fin then 1 else 0)).
  replace (Z.land (Z.shiftr (if fin then 1 else 0) 1) 3 =? 0) with true by (by destruct fin). cbn [negb].
  rewrite (get_range_mid [if fin then 1 else 0] hdr (block ++ rest) 1 5) by (by rewrite ?Hh).
  replace (ztake 2 hdr) with (le_bytes 2 (zlen block)) by (subst hdr; symmetry; pick).
  replace (zdrop 2 hdr) with (le_bytes 2 (bit_not 16 (zlen block))).
  2: { subst hdr. rewrite zdrop_app_ge by zl. by rewrite zdrop_nonpos by zl. }
  rewrite !le_val_le_bytes. change (8 * Z.of_nat 2) with 16. rewrite !Z.mod_small by done.
  rewrite Z.eqb_refl. cbn [negb]. rewrite app_assoc.
  rewrite (get_range_mid ([if fin then 1 else 0] ++ hdr) block rest) by (rewrite zlen_app, Hh; done || lia).
  rewrite slice_ok by (rewrite !zlen_app, Hh; change (zlen [if fin then 1 else 0]) with 1; pose proof (zlen_nonneg rest); lia).
  rewrite app_assoc, zdrop_app_ge by (rewrite !zlen_app, Hh; change (zlen [if fin then 1 else 0]) with 1; lia).
  rewrite !zlen_app, Hh. change (zlen [if fin then 1 else 0]) with 1.
  replace (5 + zlen block - (1 + 4 + zlen block)) with 0 by lia. rewrite zdrop_0, ztake_all by lia.
  by destruct fin.
Qed.

Lemma inflate_blocks fuel blocks out :
  blocks <> [] -> Forall (fun b => zlen b <= MAX_STORED_BLOCK) blocks -> (length blocks <= fuel)%nat ->
  inflate_loop fuel (blocks_bytes blocks) out = Some (Ok (out ++ concat blocks)).
Proof.
  intros Hne Hb. revert fuel out Hne.
  induction Hb as [|b blocks Hb Hr IH]; intros fuel out Hne Hf; [done|].
  destruct fuel as [|fuel]; [simpl in Hf; lia|]. cbn [blocks_bytes concat].
  rewrite inflate_block by done. destruct blocks as [|b2 blocks].
  - simpl. by rewrite app_nil_r.
  - rewrite IH; [|done|simpl in *; lia]. by rewrite <- app_assoc.
Qed.

Lemma blocks_bytes_length blocks : (5 * length blocks <= length (blocks_bytes blocks))%nat.
Proof.
  induction blocks as [|b blocks IH]; simpl; [lia|]. rewrite length_app. simpl.
  rewrite !length_app, !length_le_bytes. lia.
Qed.

Lemma inflate_deflate data : inflate_stored (deflate_stored data) = Some (Ok data).
Proof.
  destruct (deflate_stored_blocks data) as (blocks&Hne&Hb&Hc&->). unfold inflate_stored.
  pose proof (blocks_bytes_length blocks). rewrite inflate_blocks by (done || lia). by rewrite Hc.
Qed.

(** ** Arbitrary input *)

Lemma inflate_loop_total fuel stream out :
  is_bytes stream -> is_bytes out -> zlen stream < Z.of_nat fuel ->
  exists r, inflate_loop fuel stream out = Some r /\ r <> Panic /\
    forall o, r = Ok o -> is_bytes o /\ zlen o + 5 <= zlen out + zlen stream.
Proof.
  revert stream out. induction fuel as [|fuel IH]; intros stream out Hs Ho Hf.
  { pose proof (zlen_nonneg stream). lia. }
  cbn [inflate_loop]. destruct (zget stream 0) as [header|]; [|by eexists; split_and!].
  destruct (negb _); [by eexists; split_and!|].
  destruct (get_range stream 1 5) as [lens|] eqn:G; [|by eexists; split_and!].
  apply get_range_some in G as [[_ G] ->].
  set (lens := ztake (5 - 1) (zdrop 1 stream)). assert (is_bytes lens) by (subst lens; auto with isbytes).
  destruct (negb _); [by eexists; split_and!|].
  pose proof (le_val_bound (ztake 2 lens) ltac:(auto with isbytes)) as [Hn _].
  destruct (get_range stream 5 _) as [block|] eqn:B; [|by eexists; split_and!].
  apply get_range_some in B as [[[_ B1] B2] ->]. rewrite slice_ok by lia.
  set (rest := ztake _ (zdrop (5 + _) stream)). set (block := ztake _ (zdrop 5 stream)).
  assert (is_bytes rest /\ is_bytes block) as [Hr Hb] by (subst rest block; auto with isbytes).
  assert (zlen rest + zlen block + 5 <= zlen stream) as Hl by (subst rest block; zl).
  destruct (Z.land header 1 =? 1).
  - destruct (zlen rest =? 0); eexists; (split_and!; [done|done|]); [|done].
    intros o [= <-]. split; [auto with isbytes|]. rewrite zlen_app. pose proof (zlen_nonneg rest). lia.
  - pose proof (zlen_nonneg block). destruct (IH rest (out ++ block)) as (r&E&Np&Hok);
      [done|auto with isbytes|lia|].
    exists r. split_and!; [done|done|]. intros o Ho'. destruct (Hok o Ho'). rewrite zlen_app in *.
    split; [done|lia].
Qed.

Lemma inflate_total stream :
  is_bytes stream ->
  exists r, inflate_stored stream = Some r /\ r <> Panic /\
    forall o, r = Ok o -> is_bytes o /\ zlen o + 5 <= zlen stream.
Proof.
  intros Hs. destruct (inflate_loop_total (S (length stream)) stream []) as (r&E&Np&Hok);
    [done|constructor|unfold zlen; lia|]. exists r. split_and!; [done|done|].
  intros o Ho. by apply Hok.
Qed.

(** ** Properties *)

(** The deferred-modulus Adler-32 loop never overflows its 32-bit accumulators
    and computes the checksum of the definition: the sum of the bytes and the
    sum of its partial sums, each modulo 65521. *)
Theorem adler32_exact {E} data :
  is_bytes data -> adler32 (E := E) data = Ok (adler32_reference data) /\ u32 (adler32_reference data).
Proof. intros Hb. split; [by apply adler32_eq|apply adler32_reference_u32]. Qed.

Lemma adler32_exact_witness : adler32 (E := DeflateError) [87; 105; 107; 105] = Ok 0x3DA0195.
Proof.
  rewrite (proj1 (adler32_exact [87; 105; 107; 105] ltac:(concrete_bytes))). vm_compute. reflexivity.
Defined.

(** The pieces of a container: [n] header bytes, a body, [m] trailer bytes. *)
Lemma container_pieces (h body tail : bytes) n m :
  zlen h = n -> zlen tail = m ->
  let s := h ++ body ++ tail in
  slice (E := DeflateError) s n (zlen s - m) = Ok body /\
  slice (E := DeflateError) s (zlen s - m) (zlen s) = Ok tail /\
  zlen s = n + zlen body + m.
Proof.
  intros <- <-. cbv zeta. rewrite !zlen_app. split_and!; [|..|lia].
  - apply slice_mid; lia.
  - rewrite app_assoc. rewrite <- (app_nil_r tail) at 1. apply slice_mid; rewrite zlen_app; lia.
Qed.

Lemma embedded_crc_u32 data : is_bytes data -> u32 (embedded_panic_crc32 data).
Proof.
  intros Hb. unfold embedded_panic_crc32, bit_not.
  assert (u32 (crc_run POLY_CRC32 (2 ^ 32 - 1) data)) as H.
  { apply crc_run_u32; [apply good_poly_crc32|by_compute|done]. }
  unfold in_range in *. lia.
Qed.

Lemma zlib_roundtrip {E} data :
  is_bytes data -> exists z, zlib_compress (E := E) data = Ok z /\ zlib_decompress z = Some (Ok data).
Proof.
  intros Hb. pose proof (zlen_nonneg (deflate_stored data)).
  unfold zlib_compress. rewrite adler32_eq by done. cbn [res_bind]. eexists. split; [done|].
  unfold zlib_decompress. rewrite (app_assoc [ZLIB_CMF]).
  destruct (container_pieces ([ZLIB_CMF] ++ [ZLIB_FLG]) (deflate_stored data)
    (be_bytes 4 (adler32_reference data)) 2 4) as (Sb&St&Hl); [done|done|].
  cbv zeta in *. rewrite Hl. rewrite (proj2 (Z.ltb_ge _ _)) by lia. rewrite <- Hl, Sb, St.
  change (index (E := DeflateError) _ 0) with (Ok (E := DeflateError) ZLIB_CMF).
  change (index (E := DeflateError) _ 1) with (Ok (E := DeflateError) ZLIB_FLG). cbv iota zeta.
  change (negb (Z.land ZLIB_CMF 15 =? 8) || negb ((ZLIB_CMF * 256 + ZLIB_FLG) mod 31 =? 0)) with false.
  change (negb (Z.land ZLIB_FLG 32 =? 0)) with false. cbv iota.
  rewrite inflate_deflate. cbn [res_bind]. rewrite adler32_eq by done. cbn [res_bind].
  rewrite be_val_be_bytes. change (8 * Z.of_nat 4) with 32.
  rewrite Z.mod_small by apply adler32_reference_u32. by rewrite Z.eqb_refl.
Qed.

Lemma gzip_roundtrip data : is_bytes data -> gzip_decompress (gzip_compress data) = Some (Ok data).
Proof.
  intros Hb. pose proof (zlen_nonneg (deflate_stored data)).
  unfold gzip_compress, gzip_decompress. set (h := [31; 139; 8; 0; 0; 0; 0; 0; 0; 255]).
  set (crc := le_bytes 4 (embedded_panic_crc32 data)). set (size := le_bytes 4 (wrap 32 (zlen data))).
  destruct (container_pieces h (deflate_stored data) (crc ++ size) 10 8) as (Sb&_&Hl);
    [done|subst crc size; zl|].
  destruct (container_pieces (h ++ deflate_stored data ++ crc) [] size
    (10 + zlen (deflate_stored data) + 4) 4) as (_&Sz&_); [subst h crc; zl|subst size; zl|].
  cbv zeta in *. rewrite <- !app_assoc in Sz. cbn [app] in Sz. fold size in Sz. rewrite Hl.
  rewrite (proj2 (Z.ltb_ge _ _)) by lia. rewrite <- Hl, Sb, Sz.
  rewrite (app_assoc h), (slice_mid (h ++ deflate_stored data) crc size);
    [|subst h crc size; zl|subst h crc size; zl].
  change (ztake 4 _) with [31; 139; 8; 0]. cbv iota.
  change (negb (31 =? 31) || negb (139 =? 139) || negb (8 =? 8)) with false. cbv iota.
  change (negb (0 =? 0)) with false. cbv iota. rewrite inflate_deflate. cbn [res_bind].
  subst crc size. rewrite !le_val_le_bytes. change (8 * Z.of_nat 4) with 32.
  rewrite Z.mod_small by (by apply embedded_crc_u32). rewrite Z.eqb_refl. cbn [negb].
  rewrite Z.mod_small by (apply wrap_range; lia). by rewrite Z.eqb_refl.
Qed.

(** Compression loses nothing: both containers, built over any number of stored
    blocks, decompress to the bytes they were given. *)
Theorem compress_roundtrip data :
  is_bytes data ->
  (exists z, zlib_compress (E := DeflateError) data = Ok z /\ zlib_decompress z = Some (Ok data)) /\
  gzip_decompress (gzip_compress data) = Some (Ok data).
Proof. split; [by apply zlib_roundtrip|by apply gzip_roundtrip]. Qed.

Lemma compress_roundtrip_witness : gzip_decompress (gzip_compress [104; 105]) = Some (Ok [104; 105]).
Proof. exact (proj2 (compress_roundtrip [104; 105] ltac:(concrete_bytes))). Defined.

(** Decompression of arbitrary bytes returns, without a panic; what it accepts
    is shorter than its container and matches the checksum in the trailer. *)
Theorem decompress_total stream :
  is_bytes stream ->
  (exists r, zlib_decompress stream = Some r /\ r <> Panic /\
     forall o, r = Ok o -> zlen o + 11 <= zlen stream /\
       be_val (zdrop (zlen stream - 4) stream) = adler32_reference o) /\
  (exists r, gzip_decompress stream = Some r /\ r <> Panic /\
     forall o, r = Ok o -> zlen o + 23 <= zlen stream /\
       le_val (ztake 4 (zdrop (zlen stream - 8) stream)) = embedded_panic_crc32 o).
Proof.
  intros Hs. split.
  - unfold zlib_decompress. destruct (_ <? 6) eqn:L; [by eexists; split_and!|]. bools.
    unfold index. destruct (zget_in stream 0) as [b0 ->]; [lia|].
    destruct (zget_in stream 1) as [b1 ->]; [lia|]. cbn [or_panic]. rewrite !slice_ok by lia.
    destruct (_ || _); [by eexists; split_and!|]. destruct (negb _); [by eexists; split_and!|].
    destruct (inflate_total (ztake (zlen stream - 4 - 2) (zdrop 2 stream))) as (r&->&Np&Hok);
      [auto with isbytes|].
    eexists. split; [done|]. destruct r as [o|e|]; [|by split_and!|done]. cbn [res_bind].
    destruct (Hok o eq_refl) as [Hb Hlen]. rewrite adler32_eq by done. cbn [res_bind].
    destruct (_ =? _) eqn:C; cbn [negb]; (split; [done|]); [|done]. bools.
    intros o' [= <-]. split; [revert Hlen; zl|]. rewrite C. f_equal. symmetry. apply ztake_all. zl.
  - unfold gzip_decompress. destruct (_ <? 18) eqn:L; [by eexists; split_and!|]. bools.
    assert (length (ztake 4 stream) = 4%nat) as L4.
    { pose proof (zlen_ztake 4 stream) as E. unfold zlen in *. lia. }
    destruct (ztake 4 stream) as [|b0 [|b1 [|b2 [|b3 [|? ?]]]]]; try discriminate L4.
    rewrite !slice_ok by lia. destruct (_ || _); [by eexists; split_and!|].
    destruct (negb _); [by eexists; split_and!|].
    destruct (inflate_total (ztake (zlen stream - 8 - 10) (zdrop 10 stream))) as (r&->&Np&Hok);
      [auto with isbytes|].
    eexists. split; [done|]. destruct r as [o|e|]; [|by split_and!|done]. cbn [res_bind].
    destruct (Hok o eq_refl) as [Hb Hlen].
    destruct (embedded_panic_crc32 o =? _) eqn:C; cbn [negb]; [|by split_and!].
    destruct (_ =? wrap 32 (zlen o)); cbn [negb]; (split; [done|]); [|done]. bools.
    intros o' [= <-]. split; [revert Hlen; zl|]. rewrite C. do 2 f_equal. lia.
Qed.

Lemma decompress_total_witness :
  exists r, zlib_decompress [0x78; 1; 1; 0; 0; 255; 255; 0; 0; 0; 2] = Some r /\ r <> Panic.
Proof.
  destruct (decompress_total [0x78; 1; 1; 0; 0; 255; 255; 0; 0; 0; 2] ltac:(concrete_bytes))
    as [(r&E&Np&_) _].
  exists r. split; [exact E|exact Np].
Defined.
