(* ===== verification/Der.v ===== *)
(** * DER encoding (src/src/ramrod/der.rs)

    The encoder behind certificates and restore tickets: tag-length-value
    framing, integers, bit strings, object identifiers, four-character private
    tags and times.  Text is its bytes; signed 64-bit division truncates
    ([Z.quot]), [div_euclid] and [rem_euclid] by a positive number floor. *)

From S2P Require Import Prelude.
From stdpp Require Import base tactics numbers list.
From Stdlib Require Import ZArith Lia.

Open Scope Z_scope.

Definition IDENTIFIER_BOOLEAN : Z := 0x01.
Definition IDENTIFIER_INTEGER : Z := 0x02.
Definition IDENTIFIER_BIT_STRING : Z := 0x03.
Definition IDENTIFIER_OCTET_STRING : Z := 0x04.
Definition IDENTIFIER_NULL : Z := 0x05.
Definition IDENTIFIER_OID : Z := 0x06.
Definition IDENTIFIER_UTF8_STRING : Z := 0x0c.
Definition IDENTIFIER_PRINTABLE_STRING : Z := 0x13.
Definition IDENTIFIER_IA5_STRING : Z := 0x16.
Definition IDENTIFIER_UTC_TIME : Z := 0x17.
Definition IDENTIFIER_GENERALIZED_TIME : Z := 0x18.
Definition IDENTIFIER_SEQUENCE : Z := 0x30.
Definition IDENTIFIER_SET : Z := 0x31.

Definition CONSTRUCTED : Z := 0x20.
Definition CLASS_CONTEXT : Z := 0x80.
Definition CLASS_PRIVATE : Z := 0xc0.
Definition HIGH_TAG_NUMBER_FORM : Z := 0x1f.
Definition LOW_TAG_NUMBER_MAX : Z := 30.
Definition FOURCC_BYTES : Z := 4.
Definition UTC_TIME_FIRST_YEAR : Z := 1950.
Definition UTC_TIME_LAST_YEAR : Z := 2049.
Definition GENERALIZED_TIME_LAST_YEAR : Z := 9999.
Definition SECONDS_PER_DAY : Z := 86400.

Inductive DerError :=
| NotAFourCharacterCode (count : Z)
| OidTooShort (arcs : Z)
| OidFirstArc (value : Z)
| OidSecondArc (first second : Z)
| YearOutOfRange (year : Z).

(** [Iterator::position]. *)
Fixpoint position {A} (p : A -> bool) (l : list A) : option Z :=
  match l with
  | [] => None
  | x :: l => if p x then Some 0 else (fun i => i + 1) <$> position p l
  end.

(** [Iterator::rposition]. *)
Definition rposition {A} (p : A -> bool) (l : list A) : option Z :=
  (fun i => zlen l - 1 - i) <$> position p (rev l).

Definition nonzero (b : Z) : bool := negb (b =? 0).

(** ** Framing *)

Definition length_bytes (len : Z) : bytes :=
  if len <? 0x80 then [wrap 8 len] else
  let digits := be_bytes 8 len in
  let first := default (zlen digits - 1) (position nonzero digits) in
  let significant := zdrop first digits in
  [Z.lor 0x80 (wrap 8 (zlen significant))] ++ significant.

Definition tlv (identifier body : bytes) : bytes :=
  identifier ++ length_bytes (zlen body) ++ body.

Definition sequence (body : bytes) : bytes := tlv [IDENTIFIER_SEQUENCE] body.
Definition set (body : bytes) : bytes := tlv [IDENTIFIER_SET] body.
Definition ia5_string (text : bytes) : bytes := tlv [IDENTIFIER_IA5_STRING] text.
Definition printable_string (text : bytes) : bytes := tlv [IDENTIFIER_PRINTABLE_STRING] text.
Definition utf8_string (text : bytes) : bytes := tlv [IDENTIFIER_UTF8_STRING] text.
Definition octet_string (b : bytes) : bytes := tlv [IDENTIFIER_OCTET_STRING] b.
Definition bit_string (b : bytes) : bytes := tlv [IDENTIFIER_BIT_STRING] (0 :: b).

(** [u8::trailing_zeros]: eight for zero. *)
Definition trailing_zeros (b : Z) : Z :=
  default 8 (position (Z.testbit b) (seqZ 0 8)).

Definition named_bit_string {E} (bits : bytes) : res E bytes :=
  match rposition nonzero bits with
  | None => Ok (tlv [IDENTIFIER_BIT_STRING] [0])
  | Some last =>
      let? byte := index bits last in
      let? used := slice bits 0 (last + 1) in
      Ok (tlv [IDENTIFIER_BIT_STRING] (trailing_zeros byte :: used))
  end.

Definition integer {E} (magnitude : bytes) : res E bytes :=
  match position nonzero magnitude with
  | None => Ok (tlv [IDENTIFIER_INTEGER] [0])
  | Some start =>
      let? trimmed := slice magnitude start (zlen magnitude) in
      let? top := index trimmed 0 in
      if negb (Z.land top 0x80 =? 0) then Ok (tlv [IDENTIFIER_INTEGER] (0 :: trimmed))
      else Ok (tlv [IDENTIFIER_INTEGER] trimmed)
  end.

Definition integer_u64 {E} (value : Z) : res E bytes := integer (be_bytes 8 value).
Definition boolean (value : bool) : bytes := tlv [IDENTIFIER_BOOLEAN] [if value then 0xff else 0].
Definition null : bytes := tlv [IDENTIFIER_NULL] [].

(** ** Base 128

    Ten groups of seven bits are enough for 64. *)

Fixpoint base128_groups (fuel : nat) (value : Z) : bytes :=
  match fuel with
  | O => []
  | S fuel =>
      let group := Z.land value 0x7f in
      let value := Z.shiftr value 7 in
      if value =? 0 then [group] else group :: base128_groups fuel value
  end.

(** The continuation bit on every group but the last. *)
Fixpoint continue_groups (groups : bytes) : bytes :=
  match groups with
  | [] => []
  | [group] => [group]
  | group :: groups => Z.lor group 0x80 :: continue_groups groups
  end.

Definition base128 (value : Z) : bytes := continue_groups (rev (base128_groups 10 value)).

Definition context_identifier (tag_number : Z) (constructed : bool) : bytes :=
  let class := Z.lor CLASS_CONTEXT (if constructed then CONSTRUCTED else 0) in
  if tag_number <=? LOW_TAG_NUMBER_MAX then [Z.lor class tag_number]
  else [Z.lor class HIGH_TAG_NUMBER_FORM] ++ base128 tag_number.

Definition explicit (tag_number : Z) (body : bytes) : bytes := tlv (context_identifier tag_number true) body.
Definition context_primitive (tag_number : Z) (body : bytes) : bytes :=
  tlv (context_identifier tag_number false) body.

Definition try_oid (arcs : list Z) : res DerError bytes :=
  match arcs with
  | first :: second :: rest =>
      if 2 <? first then Err (OidFirstArc first) else
      if (first <? 2) && (40 <=? second) then Err (OidSecondArc first second) else
      let body := base128 (first * 40 + second) in
      Ok (tlv [IDENTIFIER_OID] (foldl (fun body arc => body ++ base128 arc) body rest))
  | _ => Err (OidTooShort (zlen arcs))
  end.

Definition oid (arcs : list Z) : res DerError bytes :=
  match try_oid arcs with
  | Ok encoded => Ok encoded
  | _ => Panic
  end.

Definition fourcc_private (code : bytes) : res DerError bytes :=
  if negb (zlen code =? FOURCC_BYTES) then Err (NotAFourCharacterCode (zlen code)) else
  let tag := be_val code in
  Ok ([Z.lor (Z.lor CLASS_PRIVATE CONSTRUCTED) HIGH_TAG_NUMBER_FORM] ++ base128 tag).

(** ** Times *)

Record CivilTime := { year : Z; month : Z; day : Z; hour : Z; minute : Z; second : Z }.

Definition civil_from_unix (unix_secs : Z) : CivilTime :=
  let days := unix_secs / SECONDS_PER_DAY in
  let rem := unix_secs mod SECONDS_PER_DAY in
  let shifted := days + 719468 in
  let era := Z.quot (if 0 <=? shifted then shifted else shifted - 146096) 146097 in
  let day_of_era := shifted - era * 146097 in
  let year_of_era :=
    Z.quot (day_of_era - Z.quot day_of_era 1460 + Z.quot day_of_era 36524 - Z.quot day_of_era 146096) 365 in
  let y := year_of_era + era * 400 in
  let day_of_year := day_of_era - (365 * year_of_era + Z.quot year_of_era 4 - Z.quot year_of_era 100) in
  let month_prime := Z.quot (5 * day_of_year + 2) 153 in
  let d := wrap 32 (day_of_year - Z.quot (153 * month_prime + 2) 5 + 1) in
  let m := wrap 32 (if month_prime <? 10 then month_prime + 3 else month_prime - 9) in
  {| year := y + (if m <=? 2 then 1 else 0); month := m; day := d;
     hour := wrap 32 (Z.quot rem 3600); minute := wrap 32 (Z.rem (Z.quot rem 60) 60);
     second := wrap 32 (Z.rem rem 60) |}.

(** Decimal digits; twenty are enough for 64 bits. *)
Definition decimal (n : Z) : bytes := radix 10 20 n.

(** [{:0w}] of a non-negative number. *)
Definition padded (w n : Z) : bytes :=
  let text := decimal n in replicate (Z.to_nat (w - zlen text)) 48 ++ text.

Definition clock_text (time : CivilTime) : bytes :=
  padded 2 (month time) ++ padded 2 (day time) ++ padded 2 (hour time) ++ padded 2 (minute time) ++
  padded 2 (second time) ++ [90].

Definition utc_time (unix_secs : Z) : res DerError bytes :=
  let time := civil_from_unix unix_secs in
  if negb ((UTC_TIME_FIRST_YEAR <=? year time) && (year time <=? UTC_TIME_LAST_YEAR))
  then Err (YearOutOfRange (year time)) else
  Ok (tlv [IDENTIFIER_UTC_TIME] (padded 2 (Z.rem (year time) 100) ++ clock_text time)).

Definition generalized_time (unix_secs : Z) : res DerError bytes :=
  let time := civil_from_unix unix_secs in
  if negb ((0 <=? year time) && (year time <=? GENERALIZED_TIME_LAST_YEAR))
  then Err (YearOutOfRange (year time)) else
  Ok (tlv [IDENTIFIER_GENERALIZED_TIME] (padded 4 (year time) ++ clock_text time)).

Definition x509_time (unix_secs : Z) : res DerError bytes :=
  let y := year (civil_from_unix unix_secs) in
  if (UTC_TIME_FIRST_YEAR <=? y) && (y <=? UTC_TIME_LAST_YEAR)
  then utc_time unix_secs else generalized_time unix_secs.

(** ** Reading back

    A strict reader: definite lengths in their shortest form, base-128 numbers
    without a leading zero group. *)

Definition read_length (b : bytes) : option (Z * bytes) :=
  match b with
  | [] => None
  | h :: rest =>
      if h <? 0x80 then Some (h, rest) else
      let n := h - 0x80 in
      let digits := ztake n rest in
      if (n <? 1) || (8 <? n) || (zlen rest <? n) then None else
      if (hd 0 digits =? 0) || (be_val digits <? 0x80) then None else
      Some (be_val digits, zdrop n rest)
  end.

Definition read_tlv (identifier b : bytes) : option (bytes * bytes) :=
  if bool_decide (ztake (zlen identifier) b = identifier) then
    match read_length (zdrop (zlen identifier) b) with
    | Some (n, rest) => if n <=? zlen rest then Some (ztake n rest, zdrop n rest) else None
    | None => None
    end
  else None.

Fixpoint read_groups (acc : Z) (b : bytes) : option (Z * bytes) :=
  match b with
  | [] => None
  | x :: b => if x <? 128 then Some (acc * 128 + x, b) else read_groups (acc * 128 + (x - 128)) b
  end.

Definition read_base128 (b : bytes) : option (Z * bytes) :=
  if hd 0 b =? 0x80 then None else read_groups 0 b.

Fixpoint read_arcs (fuel : nat) (b : bytes) : option (list Z) :=
  match fuel, b with
  | _, [] => Some []
  | O, _ => None
  | S fuel, _ =>
      match read_base128 b with
      | Some (arc, b) => match read_arcs fuel b with Some arcs => Some (arc :: arcs) | None => None end
      | None => None
      end
  end.

Definition read_oid (body : bytes) : option (list Z) :=
  match read_base128 body with
  | Some (joint, rest) =>
      let first := Z.min (joint / 40) 2 in
      match read_arcs (length rest) rest with
      | Some arcs => Some (first :: joint - 40 * first :: arcs)
      | None => None
      end
  | None => None
  end.

(** ** Facts *)

Lemma position_some {A} (p : A -> bool) l i :
  position p l = Some i ->
  0 <= i < zlen l /\ Forall (fun x => p x = false) (ztake i l) /\
  exists x r, zdrop i l = x :: r /\ p x = true.
Proof.
  revert i. induction l as [|y l IH]; intros i; simpl; [done|]. rewrite zlen_cons.
  destruct (p y) eqn:P.
  - intros [= <-]. pose proof (zlen_nonneg l). split_and!; [lia|lia|constructor|eauto].
  - destruct (position p l) as [j|] eqn:J; [|done]. intros [= <-].
    destruct (IH j eq_refl) as (Hj&Hf&x&r&Hd&Hx). split_and!; [lia|lia| |].
    + unfold ztake. replace (Z.to_nat (j + 1)) with (S (Z.to_nat j)) by lia. by constructor.
    + exists x, r. unfold zdrop. by replace (Z.to_nat (j + 1)) with (S (Z.to_nat j)) by lia.
Qed.

Lemma position_none {A} (p : A -> bool) l : position p l = None -> Forall (fun x => p x = false) l.
Proof.
  induction l as [|y l IH]; simpl; [done|]. destruct (p y) eqn:P; [done|].
  destruct (position p l); [done|]. constructor; auto.
Qed.

Lemma nonzero_false_val l : Forall (fun x => nonzero x = false) l -> be_val l = 0.
Proof.
  induction 1 as [|x l Hx _ IH]; [done|]. rewrite be_val_cons, IH. unfold nonzero in Hx. bools. lia.
Qed.

(** Dropping leading zeros keeps the value. *)
Lemma be_val_trim l i : position nonzero l = Some i -> be_val (zdrop i l) = be_val l.
Proof.
  intros H. apply position_some in H as (_&Hz&_).
  pose proof (be_val_app (ztake i l) (zdrop i l)) as E. rewrite ztake_zdrop, (nonzero_false_val _ Hz) in E.
  lia.
Qed.

Lemma lor_128 x : 0 <= x < 128 -> Z.lor x 0x80 = x + 128.
Proof.
  intros. pose proof (lor_shiftl 1 x 7) as E. change (Z.shiftl 1 7) with 128 in E.
  rewrite Z.lor_comm, E; lia.
Qed.

Lemma read_length_bytes len rest :
  0 <= len < 2 ^ 64 -> read_length (length_bytes len ++ rest) = Some (len, rest).
Proof.
  intros Hlen. unfold length_bytes. destruct (len <? 0x80) eqn:S; bools.
  { rewrite wrap_small by (unfold in_range; lia). simpl. by rewrite (proj2 (Z.ltb_lt _ _)). }
  set (digits := be_bytes 8 len).
  assert (be_val digits = len) as Hv.
  { subst digits. rewrite be_val_be_bytes. change (8 * Z.of_nat 8) with 64. by apply Z.mod_small. }
  assert (zlen digits = 8) as H8 by (subst digits; zl).
  destruct (position nonzero digits) as [first|] eqn:P; last first.
  { apply position_none, nonzero_false_val in P. lia. }
  cbn [from_option]. unfold id. pose proof (be_val_trim _ _ P) as Hs. apply position_some in P as (Hf&_&x&r&Hd&Hx).
  set (sig := zdrop first digits) in *. assert (zlen sig = 8 - first) as Hn by (subst sig; zl).
  rewrite wrap_small by (unfold in_range; lia).
  rewrite (Z.lor_comm 0x80), lor_128 by lia. rewrite <- app_assoc. cbn [app read_length].
  rewrite (proj2 (Z.ltb_ge _ _)) by lia. replace (zlen sig + 128 - 128) with (zlen sig) by lia.
  rewrite ztake_app_le, ztake_all, zdrop_app_ge, Z.sub_diag, zdrop_0 by lia.
  pose proof (zlen_nonneg rest). rewrite zlen_app.
  rewrite !(proj2 (Z.ltb_ge _ _)) by lia. cbn [orb].
  replace (hd 0 sig =? 0) with false by (rewrite Hd; unfold nonzero in Hx; by bools; symmetry; apply Z.eqb_neq).
  cbn [orb]. by rewrite Hs, Hv.
Qed.

Lemma read_tlv_eq identifier body rest :
  zlen body < 2 ^ 64 -> read_tlv identifier (tlv identifier body ++ rest) = Some (body, rest).
Proof.
  intros Hb. unfold read_tlv, tlv. rewrite <- !app_assoc.
  rewrite ztake_app_le, ztake_all by lia. rewrite bool_decide_eq_true_2 by done.
  rewrite zdrop_app_ge, Z.sub_diag, zdrop_0 by lia. pose proof (zlen_nonneg body).
  rewrite read_length_bytes by lia. rewrite zlen_app. pose proof (zlen_nonneg rest).
  rewrite (proj2 (Z.leb_le _ _)) by lia.
  by rewrite ztake_app_le, ztake_all, zdrop_app_ge, Z.sub_diag, zdrop_0 by lia.
Qed.

(** *** Base 128 *)

Definition groups_val (groups : bytes) : Z := foldr (fun g v => g + 128 * v) 0 groups.

Lemma base128_groups_spec fuel value :
  0 <= value < 128 ^ Z.of_nat fuel -> (0 < fuel)%nat ->
  groups_val (base128_groups fuel value) = value /\
  Forall (fun g => 0 <= g < 128) (base128_groups fuel value) /\
  base128_groups fuel value <> [] /\ (last (base128_groups fuel value) = Some 0 -> value = 0).
Proof.
  revert value. induction fuel as [|fuel IH]; intros value Hv Hf; [lia|]. cbn [base128_groups].
  change 0x7f with (2 ^ 7 - 1). rewrite land_low, Z.shiftr_div_pow2 by lia. change (2 ^ 7) with 128.
  rewrite Nat2Z.inj_succ, Z.pow_succ_r in Hv by lia.
  pose proof (Z.mod_pos_bound value 128 ltac:(lia)). destruct (value / 128 =? 0) eqn:D; bools.
  - split_and!; [unfold groups_val; simpl|constructor; [done|constructor]|done|simpl; intros [= E]];
      Z.div_mod_to_equations; lia.
  - assert (0 < value / 128 < 128 ^ Z.of_nat fuel) as Hd by (Z.div_mod_to_equations; lia).
    assert (0 < fuel)%nat by (destruct fuel; [simpl in Hd|]; lia).
    destruct (IH (value / 128)) as (E&F&N&L); [lia|done|]. split_and!.
    + unfold groups_val in *. cbn [foldr]. rewrite E. Z.div_mod_to_equations; lia.
    + by constructor.
    + done.
    + destruct (base128_groups fuel (value / 128)) as [|g gs] eqn:G; [done|].
      rewrite last_cons_cons. intros E0%L. lia.
Qed.

Lemma read_continue_groups gs acc rest :
  gs <> [] -> Forall (fun g => 0 <= g < 128) gs ->
  read_groups acc (continue_groups gs ++ rest) = Some (foldl (fun a g => a * 128 + g) acc gs, rest).
Proof.
  intros Hne Hg. revert acc Hne. induction Hg as [|g gs Hg Hr IH]; intros acc Hne; [done|].
  destruct gs as [|g2 gs].
  - simpl. by rewrite (proj2 (Z.ltb_lt _ _)) by lia.
  - change (continue_groups (g :: g2 :: gs)) with (Z.lor g 0x80 :: continue_groups (g2 :: gs)).
    rewrite lor_128 by done. cbn [app read_groups]. rewrite (proj2 (Z.ltb_ge _ _)) by lia.
    rewrite IH by done. cbn [foldl]. do 3 f_equal. lia.
Qed.

Lemma foldl_groups gs acc :
  foldl (fun a g => a * 128 + g) acc (rev gs) = acc * 128 ^ Z.of_nat (length gs) + groups_val gs.
Proof.
  revert acc. induction gs as [|g gs IH]; intros acc; [simpl; unfold groups_val; simpl; lia|].
  cbn [rev length]. rewrite foldl_app, IH. unfold groups_val. cbn [foldr foldl].
  rewrite Nat2Z.inj_succ, Z.pow_succ_r by lia. fold (groups_val gs). lia.
Qed.

Lemma read_base128_eq value rest :
  0 <= value < 2 ^ 64 -> read_base128 (base128 value ++ rest) = Some (value, rest).
Proof.
  intros Hv. destruct (base128_groups_spec 10 value) as (E&F&N&L); [split; [lia|]|lia|].
  { change (128 ^ Z.of_nat 10) with (2 ^ 70). lia. }
  unfold base128, read_base128. set (gs := base128_groups 10 value) in *.
  assert (rev gs <> []) as Nr by (intros R; apply N; rewrite <- (rev_involutive gs), R; done).
  rewrite read_continue_groups by (try apply Forall_rev; done). rewrite foldl_groups, E.
  rewrite Z.mul_0_l, Z.add_0_l.
  replace (hd 0 (continue_groups (rev gs) ++ rest) =? 128) with false; [done|]. symmetry. apply Z.eqb_neq.
  assert (Forall (fun g => 0 <= g < 128) (rev gs)) as Fr by (by apply Forall_rev).
  destruct (rev gs) as [|g hs] eqn:R; [done|]. inversion_clear Fr as [|? ? Hg _].
  assert (last gs = Some g) as Hlast.
  { rewrite <- (rev_involutive gs), R. cbn [rev]. apply last_snoc. }
  destruct hs as [|g2 hs]; [simpl; lia|]. change (hd 0 _) with (Z.lor g 0x80).
  rewrite lor_128 by done. intros Eg. assert (g = 0) as -> by lia.
  subst gs. rewrite (L Hlast) in R. vm_compute in R. discriminate R.
Qed.

Lemma base128_nonempty value rest : base128 value ++ rest <> [].
Proof.
  unfold base128. assert (base128_groups 10 value <> []) as N by (cbn [base128_groups]; by case_match).
  destruct (rev (base128_groups 10 value)) as [|g hs] eqn:R.
  { exfalso. apply N. by rewrite <- (rev_involutive (base128_groups 10 value)), R. }
  by destruct hs.
Qed.

Lemma read_arcs_eq arcs fuel :
  Forall (in_range 32) arcs ->
  (length (concat (map base128 arcs)) <= fuel)%nat ->
  read_arcs fuel (concat (map base128 arcs)) = Some arcs.
Proof.
  intros Ha. revert fuel. induction Ha as [|a arcs Hx _ IH]; intros fuel Hf; [by destruct fuel|].
  cbn [map concat] in *.
  assert (1 <= length (base128 a))%nat as Hl.
  { pose proof (base128_nonempty a []) as N. rewrite app_nil_r in N. destruct (base128 a); [done|simpl; lia]. }
  rewrite length_app in Hf. destruct fuel as [|fuel]; [lia|].
  destruct (base128 a ++ concat (map base128 arcs)) as [|x l] eqn:E;
    [by apply base128_nonempty in E|].
  cbn [read_arcs]. rewrite <- E, read_base128_eq by (unfold in_range in Hx; lia).
  by rewrite IH by lia.
Qed.

Lemma oid_body joint arcs :
  foldl (fun body arc => body ++ base128 arc) joint arcs = joint ++ concat (map base128 arcs).
Proof.
  revert joint. induction arcs as [|a arcs IH]; intros joint; simpl; [by rewrite app_nil_r|].
  by rewrite IH, app_assoc.
Qed.

(** ** The calendar

    Days since 1970-01-01 by counting: whole years, then whole months. *)

Definition leap (y : Z) : bool := (y mod 4 =? 0) && (negb (y mod 100 =? 0) || (y mod 400 =? 0)).

Definition month_length (leap_year : bool) (m : Z) : Z :=
  if m =? 2 then (if leap_year then 29 else 28)
  else if (m =? 4) || (m =? 6) || (m =? 9) || (m =? 11) then 30 else 31.

(** Days of the year before month [m]. *)
Definition month_start (leap_year : bool) (m : Z) : Z :=
  foldr (fun k n => month_length leap_year k + n) 0 (seqZ 1 (m - 1)).

(** Days before the first of January of year [y], counted from year 0. *)
Definition days_before_year (y : Z) : Z :=
  365 * y + (y + 3) / 4 - (y + 99) / 100 + (y + 399) / 400.

Lemma days_before_year_step y :
  days_before_year (y + 1) = days_before_year y + if leap y then 366 else 365.
Proof.
  unfold days_before_year, leap.
  destruct (y mod 4 =? 0) eqn:E4, (y mod 100 =? 0) eqn:E100, (y mod 400 =? 0) eqn:E400; simpl; bools;
    Z.div_mod_to_equations; lia.
Qed.

Definition days_from_civil (t : CivilTime) : Z :=
  days_before_year (year t) + month_start (leap (year t)) (month t) + (day t - 1) - days_before_year 1970.

Definition unix_from_civil (t : CivilTime) : Z :=
  days_from_civil t * SECONDS_PER_DAY + hour t * 3600 + minute t * 60 + second t.

Definition civil_ok (t : CivilTime) : Prop :=
  1 <= month t <= 12 /\ 1 <= day t <= month_length (leap (year t)) (month t) /\
  0 <= hour t < 24 /\ 0 <= minute t < 60 /\ 0 <= second t < 60.

(** The year of the 400-year era, March first: [d] is the day of the era. *)
Lemma year_of_era_spec d :
  0 <= d < 146097 ->
  let y := (d - d / 1460 + d / 36524 - d / 146096) / 365 in
  0 <= y < 400 /\ 0 <= d - (365 * y + y / 4 - y / 100) /\
  d - (365 * y + y / 4 - y / 100) <= 365 /\
  (d - (365 * y + y / 4 - y / 100) = 365 -> leap (y + 1) = true).
Proof.
  intros Hd. cbv zeta. destruct (decide (d = 146096)) as [->|Hn]; [done|].
  replace (d / 146096) with 0 by (symmetry; apply Z.div_small; lia). rewrite Z.sub_0_r.
  set (y := (d - d / 1460 + d / 36524) / 365).
  assert (1460 * (d / 1460) <= d < 1460 * (d / 1460 + 1) /\ 36524 * (d / 36524) <= d < 36524 * (d / 36524 + 1))
    as [Ha Hq] by (Z.div_mod_to_equations; lia).
  assert (365 * y <= d - d / 1460 + d / 36524 < 365 * (y + 1)) as Hy by (subst y; Z.div_mod_to_equations; lia).
  assert (4 * (y / 4) <= y < 4 * (y / 4 + 1) /\ 100 * (y / 100) <= y < 100 * (y / 100 + 1)) as [Hb Hc]
    by (Z.div_mod_to_equations; lia).
  clearbody y. set (a := d / 1460) in *. set (q := d / 36524) in *. clearbody a q. assert (0 <= q <= 4) as Hq4 by lia. split_and!; try lia.
  intros E365. unfold leap.
  assert (exists k, y = 4 * k + 3) as [k Hk] by (exists (y / 4); lia).
  replace ((y + 1) mod 4) with 0 by (subst; Z.div_mod_to_equations; lia).
  assert (y / 100 * 100 + 99 <> y) as N100 by lia.
  replace ((y + 1) mod 100 =? 0) with false; [done|]. symmetry. apply Z.eqb_neq.
  Z.div_mod_to_equations; lia.
Qed.

(** The date of day [n] of the year that starts in March, month and day. *)
Definition march_month (n : Z) : Z :=
  let p := (5 * n + 2) / 153 in if p <? 10 then p + 3 else p - 9.
Definition march_day (n : Z) : Z := n - (153 * ((5 * n + 2) / 153) + 2) / 5 + 1.

(** [l1] and [l2]: whether the year the count starts in and the next are leap. *)
Definition march_ok (l1 l2 : bool) (n : Z) : bool :=
  let m := march_month n in
  let d := march_day n in
  if m <=? 2
  then (1 <=? m) && (1 <=? d) && ((d <=? month_length l2 m) || (n =? 365)) && (month_start l2 m + d - 1 =? n - 306)
  else (m <=? 12) && (1 <=? d) && (d <=? month_length l1 m) &&
       (month_start l1 m + d - 1 =? n + 59 + if l1 then 1 else 0).

Lemma march_table l1 l2 n : 0 <= n <= 365 -> march_ok l1 l2 n = true.
Proof.
  intros Hn. assert (forallb (march_ok l1 l2) (seqZ 0 366) = true) as F
    by (destruct l1, l2; vm_compute; reflexivity).
  rewrite forallb_forall in F. apply F, list_elem_of_In, elem_of_seqZ. lia.
Qed.

Lemma march_last : march_month 365 = 2 /\ march_day 365 = 29 /\ month_length true 2 = 29.
Proof. done. Qed.

(** The first of March, from the first of January. *)
Lemma march_first y :
  days_before_year y + 59 + (if leap y then 1 else 0) = 60 + 365 * y + y / 4 - y / 100 + y / 400.
Proof.
  unfold days_before_year, leap.
  destruct (y mod 4 =? 0) eqn:E4, (y mod 100 =? 0) eqn:E100, (y mod 400 =? 0) eqn:E400; simpl; bools;
    Z.div_mod_to_equations; lia.
Qed.

Lemma era_shift y e :
  (y + e * 400) / 4 = y / 4 + e * 100 /\ (y + e * 400) / 100 = y / 100 + e * 4 /\
  (y + e * 400) / 400 = y / 400 + e /\ leap (y + e * 400) = leap y.
Proof.
  unfold leap. split_and!; Z.div_mod_to_equations; lia.
Qed.

Lemma era_floor s :
  Z.quot (if 0 <=? s then s else s - 146096) 146097 = s / 146097.
Proof. destruct (0 <=? s) eqn:E; bools; Z.to_euclidean_division_equations; lia. Qed.

Lemma civil_time_of_day t :
  let c := civil_from_unix t in
  hour c * 3600 + minute c * 60 + second c = t mod SECONDS_PER_DAY /\
  0 <= hour c < 24 /\ 0 <= minute c < 60 /\ 0 <= second c < 60.
Proof.
  cbn -[Z.quot Z.rem Z.modulo Z.div Z.mul wrap]. unfold SECONDS_PER_DAY.
  pose proof (Z.mod_pos_bound t 86400 ltac:(lia)) as Hr. set (r := t mod 86400) in *. clearbody r.
  assert (0 <= Z.quot r 3600 < 24 /\ 0 <= Z.rem (Z.quot r 60) 60 < 60 /\ 0 <= Z.rem r 60 < 60 /\
    Z.quot r 3600 * 3600 + Z.rem (Z.quot r 60) 60 * 60 + Z.rem r 60 = r) as (H1&H2&H3&H4)
    by (Z.to_euclidean_division_equations; lia).
  rewrite !wrap_small by (unfold in_range; lia). done.
Qed.

(** The date, as the day of the era counted from March. *)
Lemma civil_date t :
  let c := civil_from_unix t in
  days_from_civil c = t / SECONDS_PER_DAY /\
  1 <= month c <= 12 /\ 1 <= day c <= month_length (leap (year c)) (month c).
Proof.
  unfold civil_from_unix. cbv zeta. rewrite era_floor. unfold SECONDS_PER_DAY.
  set (days := t / 86400). clearbody days. set (s := days + 719468). set (e := s / 146097).
  set (d := s - e * 146097).
  assert (0 <= d < 146097) as Hd by (subst d e; Z.div_mod_to_equations; lia).
  destruct (year_of_era_spec d Hd) as (Hy&Hn0&Hn1&Hleap). cbv zeta in *.
  rewrite !(Z.quot_div_nonneg d) by lia.
  rewrite (Z.quot_div_nonneg (d - d / 1460 + d / 36524 - d / 146096)) by (Z.div_mod_to_equations; lia).
  set (y := (d - d / 1460 + d / 36524 - d / 146096) / 365) in *. clearbody y.
  rewrite !(Z.quot_div_nonneg y) by lia.
  set (n := d - (365 * y + y / 4 - y / 100)) in *.
  rewrite (Z.quot_div_nonneg (5 * n + 2)) by lia.
  rewrite (Z.quot_div_nonneg (153 * ((5 * n + 2) / 153) + 2)) by (Z.div_mod_to_equations; lia).
  fold (march_day n). change (if (5 * n + 2) / 153 <? 10 then _ else _) with (march_month n).
  pose proof (march_table (leap y) (leap (y + 1)) n ltac:(lia)) as Tab.
  assert (leap (y + e * 400) = leap y /\ leap (y + e * 400 + 1) = leap (y + 1)) as [L1 L2].
  { split; [apply era_shift|]. replace (y + e * 400 + 1) with (y + 1 + e * 400) by lia. apply era_shift. }
  assert (days_before_year (y + e * 400) + 59 + (if leap y then 1 else 0) + n = 60 + s) as March.
  { rewrite <- L1, march_first. destruct (era_shift y e) as (->&->&->&_). rewrite (Z.div_small y 400) by lia.
    subst n d. lia. }
  pose proof (days_before_year_step (y + e * 400)) as Step. rewrite L1 in Step.
  assert (days_before_year 1970 = 719528) as E70 by done.
  unfold march_ok in Tab. cbv zeta in Tab. unfold days_from_civil. cbn [year month day]. rewrite E70.
  destruct (march_month n <=? 2) eqn:M2.
  - apply andb_prop in Tab as [Tab T4]. apply andb_prop in Tab as [Tab T3]. bools.
    assert (march_day n <= month_length (leap (y + 1)) (march_month n)) as T5.
    { apply orb_prop in T3 as [T3|T3]; bools; [done|].
      rewrite (Hleap T3), T3. destruct march_last as (->&->&->). lia. }
    assert (march_month n <= 31 /\ march_day n <= 31) as [B1 B2].
    { split; [lia|]. revert T5. unfold month_length. repeat case_match; lia. }
    rewrite !wrap_small by (unfold in_range; lia). rewrite (proj2 (Z.leb_le _ _)) by lia. rewrite L2.
    split_and!; try lia. rewrite Step. destruct (leap y); lia.
  - bools. assert (march_day n <= 31) as B2.
    { match goal with H : march_day n <= _ |- _ => revert H end. unfold month_length. repeat case_match; lia. }
    rewrite !wrap_small by (unfold in_range; lia). rewrite (proj2 (Z.leb_gt _ _)) by lia.
    rewrite Z.add_0_r, L1. split_and!; try lia.
Qed.

(** ** Decimal fields *)

Abbreviation read_digits := (read_radix 10).

(** A field of [w] digits reads back. *)
Lemma padded_spec w n :
  1 <= w <= 20 -> 0 <= n < 10 ^ w -> zlen (padded w n) = w /\ read_digits (padded w n) = n.
Proof.
  intros Hw Hn. destruct (radix_spec 10 20 (Z.to_nat w) n) as [E L]; [lia|by rewrite Z2Nat.id by lia|lia|].
  rewrite Z2Nat.id in L by lia. unfold padded, decimal. rewrite read_radix_zeros, E, zlen_app. split; [|done].
  unfold zlen at 1. rewrite length_replicate. lia.
Qed.

(** The fields of a time text, [w] digits of year first. *)
Definition read_time (w : Z) (text : bytes) : list Z :=
  let field lo n := read_digits (ztake n (zdrop lo text)) in
  [field 0 w; field w 2; field (w + 2) 2; field (w + 4) 2; field (w + 6) 2; field (w + 8) 2].

Lemma read_time_eq w y c :
  1 <= w <= 20 -> 0 <= y < 10 ^ w -> civil_ok c ->
  zlen (padded w y ++ clock_text c) = w + 11 /\
  read_time w (padded w y ++ clock_text c) = [y; month c; day c; hour c; minute c; second c].
Proof.
  intros Hw Hy (Hm&Hd&Hh&Hmin&Hs).
  assert (month_length (leap (year c)) (month c) <= 31) by (unfold month_length; repeat case_match; lia).
  destruct (padded_spec w y) as [L0 E0]; [done..|].
  destruct (padded_spec 2 (month c)) as [L1 E1]; [lia..|]. destruct (padded_spec 2 (day c)) as [L2 E2]; [lia..|].
  destruct (padded_spec 2 (hour c)) as [L3 E3]; [lia..|]. destruct (padded_spec 2 (minute c)) as [L4 E4]; [lia..|].
  destruct (padded_spec 2 (second c)) as [L5 E5]; [lia..|]. unfold clock_text.
  set (f0 := padded w y) in *. set (f1 := padded 2 (month c)) in *. set (f2 := padded 2 (day c)) in *.
  set (f3 := padded 2 (hour c)) in *. set (f4 := padded 2 (minute c)) in *. set (f5 := padded 2 (second c)) in *.
  clearbody f0 f1 f2 f3 f4 f5. split; [zl|]. unfold read_time. cbv zeta.
  replace (ztake w _) with f0 by (symmetry; pick).
  replace (ztake 2 (zdrop w _)) with f1 by (symmetry; pick).
  replace (ztake 2 (zdrop (w + 2) _)) with f2 by (symmetry; pick).
  replace (ztake 2 (zdrop (w + 4) _)) with f3 by (symmetry; pick).
  replace (ztake 2 (zdrop (w + 6) _)) with f4 by (symmetry; pick).
  replace (ztake 2 (zdrop (w + 8) _)) with f5 by (symmetry; pick).
  by rewrite E0, E1, E2, E3, E4, E5.
Qed.

Lemma civil_from_unix_ok t : civil_ok (civil_from_unix t).
Proof.
  destruct (civil_date t) as (_&Hm&Hday). destruct (civil_time_of_day t) as (_&Hh&Hmin&Hs).
  exact (conj Hm (conj Hday (conj Hh (conj Hmin Hs)))).
Qed.

(** ** Sample values *)

Definition sample_arcs : list Z := [1; 2; 840; 113549; 1; 1; 11].

(** ** Properties *)

(** Tag-length-value framing round trips: a strict DER reader, which accepts
    only the shortest length encoding, recovers the body and what follows it. *)
Theorem tlv_roundtrip identifier body rest :
  zlen body < 2 ^ 64 -> read_tlv identifier (tlv identifier body ++ rest) = Some (body, rest).
Proof. apply read_tlv_eq. Qed.

Lemma tlv_roundtrip_witness : read_tlv [0x30] (tlv [0x30] (zeros 200) ++ [7]) = Some (zeros 200, [7]).
Proof. apply (tlv_roundtrip [0x30] (zeros 200) [7]). by_compute. Defined.

(** Object identifiers: the encoder refuses exactly the identifiers X.660 has no
    encoding for, naming the reason, and what it emits reads back to the same
    arcs through minimal base-128 groups. *)
Theorem oid_roundtrip arcs :
  Forall (in_range 32) arcs ->
  match try_oid arcs with
  | Ok encoded => exists body, encoded = tlv [IDENTIFIER_OID] body /\ read_oid body = Some arcs
  | Err (OidTooShort n) => n = zlen arcs /\ zlen arcs < 2
  | Err (OidFirstArc v) => exists rest, arcs = v :: rest /\ 2 < v
  | Err (OidSecondArc f s) => exists rest, arcs = f :: s :: rest /\ f < 2 /\ 40 <= s
  | Err _ | Panic => False
  end.
Proof.
  intros Ha. destruct arcs as [|f [|s rest]]; [done|done|]. cbn [try_oid].
  inversion_clear Ha as [|? ? Hf Ha']. inversion_clear Ha' as [|? ? Hs Hr]. unfold in_range in Hf, Hs.
  destruct (2 <? f) eqn:F2; bools; [eauto|].
  destruct ((f <? 2) && (40 <=? s)) eqn:F3; [bools; eauto|].
  eexists. split; [done|]. rewrite oid_body. unfold read_oid. rewrite read_base128_eq by lia.
  rewrite read_arcs_eq by done.
  assert (Z.min ((f * 40 + s) / 40) 2 = f) as ->.
  { destruct (decide (f = 2)) as [->|]; [Z.div_mod_to_equations; lia|].
    assert (s < 40) by (apply andb_false_iff in F3 as [?|?]; bools; lia). Z.div_mod_to_equations; lia. }
  do 3 f_equal. lia.
Qed.

Lemma oid_roundtrip_witness :
  exists body, try_oid sample_arcs = Ok (tlv [IDENTIFIER_OID] body) /\ read_oid body = Some sample_arcs.
Proof.
  pose proof (oid_roundtrip sample_arcs ltac:(concrete_bytes)) as R.
  destruct (try_oid sample_arcs) as [enc|e|] eqn:E; [|vm_compute in E; discriminate E..].
  destruct R as (body&->&Hr). exists body. split; [reflexivity|exact Hr].
Defined.

(** Integers: the encoding of a magnitude is non-empty, non-negative in two's
    complement (the top bit is clear), shortest, and has the same value. *)
Theorem integer_minimal magnitude :
  is_bytes magnitude ->
  exists b body, integer (E := DerError) magnitude = Ok (tlv [IDENTIFIER_INTEGER] (b :: body)) /\
    be_val (b :: body) = be_val magnitude /\ 0 <= b < 0x80 /\
    (b = 0 -> match body with [] => True | c :: _ => 0x80 <= c end).
Proof.
  intros Hm. unfold integer. destruct (position nonzero magnitude) as [i|] eqn:P; last first.
  { apply position_none, nonzero_false_val in P. exists 0, []. by rewrite P. }
  pose proof (be_val_trim _ _ P) as Hv. apply position_some in P as (Hi&_&x&r&Hd&Hx).
  rewrite slice_ok by lia. cbn [res_bind]. rewrite ztake_all by zl. rewrite Hd in *.
  assert (u8 x) as Hx8.
  { assert (is_bytes (x :: r)) as Hb by (rewrite <- Hd; auto with isbytes). by inversion_clear Hb. }
  change (index (E := DerError) (x :: r) 0) with (Ok (E := DerError) x). cbn [res_bind].
  unfold nonzero in Hx. bools. unfold in_range in Hx8.
  assert (Z.land x 0x80 = if x <? 128 then 0 else 128) as ->.
  { apply Z.eqb_eq, (u8_forallb (fun x => Z.land x 0x80 =? if x <? 128 then 0 else 128)); [vm_compute; reflexivity|].
    done. }
  destruct (x <? 128) eqn:X; bools; cbn [negb Z.eqb].
  - exists x, r. split_and!; [done|done|lia|lia|lia].
  - exists 0, (x :: r). split_and!; [done| |lia|lia|done]. rewrite be_val_cons. lia.
Qed.

Lemma integer_minimal_witness :
  exists b body, integer (E := DerError) [0; 0; 200; 1] = Ok (tlv [IDENTIFIER_INTEGER] (b :: body)) /\
    be_val (b :: body) = be_val [0; 0; 200; 1].
Proof.
  destruct (integer_minimal [0; 0; 200; 1] ltac:(concrete_bytes)) as (b&body&E&Hv&_).
  exists b, body. split; [exact E|exact Hv].
Defined.

(** The calendar conversion is exact for every instant, before 1970 too: the
    fields form a valid Gregorian date and time of day, and counting the days
    of the years and months before it gives the instant back. *)
Theorem civil_exact unix_secs :
  civil_ok (civil_from_unix unix_secs) /\ unix_from_civil (civil_from_unix unix_secs) = unix_secs.
Proof.
  split; [apply civil_from_unix_ok|]. destruct (civil_date unix_secs) as (Hd&_).
  destruct (civil_time_of_day unix_secs) as (Ht&_). unfold unix_from_civil. rewrite Hd.
  pose proof (Z.div_mod unix_secs SECONDS_PER_DAY ltac:(done)). lia.
Qed.

(** Certificate times follow X.509: a UTCTime exactly for 1950 to 2049, else a
    GeneralizedTime, refused exactly outside years 0 to 9999; the fields of the
    text are the fields of the instant. *)
Theorem x509_time_fields unix_secs :
  let c := civil_from_unix unix_secs in
  match x509_time unix_secs with
  | Ok encoded =>
      exists text, if (1950 <=? year c) && (year c <=? 2049) then
        encoded = tlv [IDENTIFIER_UTC_TIME] text /\ zlen text = 13 /\
        read_time 2 text = [year c mod 100; month c; day c; hour c; minute c; second c]
      else
        encoded = tlv [IDENTIFIER_GENERALIZED_TIME] text /\ zlen text = 15 /\
        read_time 4 text = [year c; month c; day c; hour c; minute c; second c]
  | Err e => e = YearOutOfRange (year c) /\ ~ 0 <= year c <= 9999
  | Panic => False
  end.
Proof.
  cbv zeta. unfold x509_time, utc_time, generalized_time. cbv zeta.
  pose proof (civil_from_unix_ok unix_secs) as Hc. set (c := civil_from_unix unix_secs) in *.
  clearbody c. unfold UTC_TIME_FIRST_YEAR, UTC_TIME_LAST_YEAR, GENERALIZED_TIME_LAST_YEAR.
  destruct ((1950 <=? year c) && (year c <=? 2049)) eqn:U; cbn [negb].
  - bools. rewrite Z.rem_mod_nonneg by lia. eexists. split; [reflexivity|].
    apply (read_time_eq 2); [lia| |done]. apply Z.mod_pos_bound. lia.
  - destruct ((0 <=? year c) && (year c <=? 9999)) eqn:G; cbn [negb].
    + bools. eexists. split; [reflexivity|]. apply (read_time_eq 4); [lia|lia|done].
    + split; [done|]. apply andb_false_iff in G as [G|G]; bools; lia.
Qed.
