(* ===== verification/Cpio.v ===== *)
(** * The odc cpio writer (src/src/ramrod/cpio.rs)

    An archive is written member by member to a sink.  The sink ([Write]) and
    the source of a file's contents ([Read]) are type classes; [Vec<u8>] and
    [&[u8]] are instances.  A write returns the new writer next to its result,
    so that an error leaves what was emitted before it. *)

From S2P Require Import Prelude.
From stdpp Require Import base tactics numbers list strings.
From Stdlib Require Import ZArith Lia.

Open Scope Z_scope.

Definition CPIO_MAGIC : bytes := [48; 55; 48; 55; 48; 55].
Definition CPIO_HEADER_BYTES : Z := 76.
Definition CPIO_TRAILER_PATH : bytes := [84; 82; 65; 73; 76; 69; 82; 33; 33; 33].
Definition MODE_TYPE_REGULAR : Z := 8 ^ 5.
Definition MODE_TYPE_DIRECTORY : Z := 4 * 8 ^ 4.
Definition MODE_TYPE_SYMLINK : Z := 8 ^ 5 + 2 * 8 ^ 4.
Definition MODE_PERMISSION_MASK : Z := 8 ^ 4 - 1.
Definition COPY_BUFFER_BYTES : Z := 64 * 1024.
Definition NARROW_FIELD : Z := 6.
Definition WIDE_FIELD : Z := 11.

Inductive CpioFileType := Directory | RegularFile | Symlink.

Definition mode_type_bits (t : CpioFileType) : Z :=
  match t with
  | Directory => MODE_TYPE_DIRECTORY
  | RegularFile => MODE_TYPE_REGULAR
  | Symlink => MODE_TYPE_SYMLINK
  end.

Definition link_count (t : CpioFileType) : Z := 1.

Record CpioFileMeta := { mode : Z; uid : Z; gid : Z; mtime : Z }.

Inductive CpioBody :=
| Empty
| LinkTarget (target : bytes)
| Contents (contents : bytes).

Definition declared_size (b : CpioBody) : Z :=
  match b with
  | Empty => 0
  | LinkTarget target => zlen target
  | Contents contents => zlen contents
  end.

Record CpioEntry := {
  path : bytes; file_type : CpioFileType;
  e_mode : Z; e_uid : Z; e_gid : Z; e_mtime : Z;
  body : CpioBody;
}.

Definition directory (path : bytes) (mode uid gid mtime : Z) : CpioEntry :=
  Build_CpioEntry path Directory mode uid gid mtime Empty.
Definition symlink (path target : bytes) (mode uid gid mtime : Z) : CpioEntry :=
  Build_CpioEntry path Symlink mode uid gid mtime (LinkTarget target).
Definition regular_file (path contents : bytes) (mode uid gid mtime : Z) : CpioEntry :=
  Build_CpioEntry path RegularFile mode uid gid mtime (Contents contents).

Inductive CpioError :=
| FieldTooLarge (field : string) (value width : Z)
| EmptyPath
| NulInPath (path : bytes) (offset : Z)
| NulInLinkTarget (path target : bytes) (offset : Z)
| ModeOutsidePermissionMask (path : bytes) (mode : Z)
| BodyMismatch (path : bytes) (file_type : CpioFileType) (body : CpioBody)
| SourceTooShort (path : bytes) (expected copied : Z)
| SourceTooLong (path : bytes) (expected : Z)
| Io (code : Z).

(** ** Sinks and sources *)

Class Sink (W : Type) := {
  write_all : W -> bytes -> W * option Z;
  sink_flush : W -> W * option Z;
}.

#[export] Instance vec_sink : Sink bytes := {
  write_all out b := (out ++ b, None);
  sink_flush out := (out, None);
}.

Inductive read_outcome := ReadBytes (b : bytes) | ReadInterrupted | ReadFailed (code : Z).

Class Source (R : Type) := read : R -> Z -> R * read_outcome.

#[export] Instance slice_source : Source bytes := fun b want => (zdrop want b, ReadBytes (ztake want b)).

(** ** Headers *)

(** Position of the first NUL. *)
Fixpoint nul_position (b : bytes) : option Z :=
  match b with
  | [] => None
  | x :: b => if x =? 0 then Some 0 else (fun i => i + 1) <$> nul_position b
  end.

(** [format!("{value:o}")]: 22 digits are enough for 64 bits. *)
Definition octal (value : Z) : bytes := radix 8 22 value.

Definition push_octal (header : bytes) (field : string) (value width : Z) : res CpioError bytes :=
  let digits := octal value in
  if width <? zlen digits then Err (FieldTooLarge field value width) else
  Ok (header ++ replicate (Z.to_nat (width - zlen digits)) 48 ++ digits).

Definition validate_path (path : bytes) : res CpioError Z :=
  if zlen path =? 0 then Err EmptyPath else
  match nul_position path with
  | Some offset => Err (NulInPath path offset)
  | None => Ok (zlen path + 1)
  end.

Definition build_header (path : bytes) (ino : Z) (meta : CpioFileMeta) (nlink filesize : Z)
  : res CpioError bytes :=
  let? namesize := validate_path path in
  let header := CPIO_MAGIC in
  let? header := push_octal header "dev" 0 NARROW_FIELD in
  let? header := push_octal header "ino" ino NARROW_FIELD in
  let? header := push_octal header "mode" (mode meta) NARROW_FIELD in
  let? header := push_octal header "uid" (uid meta) NARROW_FIELD in
  let? header := push_octal header "gid" (gid meta) NARROW_FIELD in
  let? header := push_octal header "nlink" nlink NARROW_FIELD in
  let? header := push_octal header "rdev" 0 NARROW_FIELD in
  let? header := push_octal header "mtime" (mtime meta) WIDE_FIELD in
  let? header := push_octal header "namesize" namesize NARROW_FIELD in
  push_octal header "filesize" filesize WIDE_FIELD.

(** ** The writer *)

Record CpioWriter (W : Type) := MkWriter {
  out : W;
  bytes_written : Z;
  entries_written : Z;
  next_inode : Z;
}.
Arguments MkWriter {W}.
Arguments out {W} _.
Arguments bytes_written {W} _.
Arguments entries_written {W} _.
Arguments next_inode {W} _.

#[export] Instance eta_writer W : Eta (CpioWriter W) := fun w =>
  MkWriter (out w) (bytes_written w) (entries_written w) (next_inode w).

Definition new_writer {W} (sink : W) : CpioWriter W := MkWriter sink 0 0 1.

(** A write: the writer threads through, an error stops. *)
Definition wr (W A : Type) : Type := CpioWriter W -> CpioWriter W * res CpioError A.
Definition wbind {W A B} (m : wr W A) (k : A -> wr W B) : wr W B := fun w =>
  match m w with
  | (w, Ok a) => k a w
  | (w, Err e) => (w, Err e)
  | (w, Panic) => (w, Panic)
  end.
Definition wlift {W A} (r : res CpioError A) : wr W A := fun w => (w, r).
Definition wput {W} (f : CpioWriter W -> CpioWriter W) : wr W unit := fun w => (f w, Ok tt).

Declare Scope cpio_scope.
Notation "x <~ m ; k" := (wbind m (fun x => k))
  (at level 100, m at level 99, right associativity) : cpio_scope.
Notation "m ;; k" := (wbind m (fun _ => k)) (at level 100, right associativity) : cpio_scope.
Open Scope cpio_scope.

Section Writer.
Context {W : Type} `{Sink W}.

Definition emit (b : bytes) : wr W unit := fun w =>
  match write_all (out w) b with
  | (o, Some code) => (w <| out := o |>, Err (Io code))
  | (o, None) => (w <| out := o |> <| bytes_written := bytes_written w + zlen b |>, Ok tt)
  end.

Definition write_member (path : bytes) (t : CpioFileType) (meta : CpioFileMeta) (filesize : Z)
  : wr W unit := fun w =>
  if negb (Z.land (mode meta) (bit_not 32 MODE_PERMISSION_MASK) =? 0)
  then (w, Err (ModeOutsidePermissionMask path (mode meta))) else
  (header <~ wlift (build_header path (next_inode w)
      (Build_CpioFileMeta (Z.lor (mode_type_bits t) (mode meta)) (uid meta) (gid meta) (mtime meta))
      (link_count t) filesize);
   emit header;; emit path;; emit [0];;
   wput (fun w => w <| next_inode := next_inode w + 1 |> <| entries_written := entries_written w + 1 |>)) w.

Definition write_directory (path : bytes) (meta : CpioFileMeta) : wr W unit :=
  write_member path Directory meta 0.

Definition write_symlink (path target : bytes) (meta : CpioFileMeta) : wr W unit :=
  match nul_position target with
  | Some offset => wlift (Err (NulInLinkTarget path target offset))
  | None => write_member path Symlink meta (zlen target);; emit target
  end.

(** The copy loop; [None] when [fuel] reads did not suffice. *)
Fixpoint copy_source {R} `{Source R} (fuel : nat) (path : bytes) (len remaining : Z) (data : R)
  : CpioWriter W -> option (CpioWriter W * (R * res CpioError unit)) := fun w =>
  match fuel with
  | O => None
  | S fuel =>
      if remaining <=? 0 then Some (w, (data, Ok tt)) else
      let want := Z.min remaining COPY_BUFFER_BYTES in
      match read data want with
      | (data, ReadBytes []) => Some (w, (data, Err (SourceTooShort path len (len - remaining))))
      | (data, ReadBytes chunk) =>
          match emit chunk w with
          | (w, Ok _) => copy_source fuel path len (remaining - zlen chunk) data w
          | (w, Err e) => Some (w, (data, Err e))
          | (w, Panic) => Some (w, (data, Panic))
          end
      | (data, ReadInterrupted) => copy_source fuel path len remaining data w
      | (data, ReadFailed code) => Some (w, (data, Err (Io code)))
      end
  end.

(** The source must be at its end. *)
Fixpoint check_overrun {R} `{Source R} (fuel : nat) (path : bytes) (len : Z) (data : R)
  : option (res CpioError unit) :=
  match fuel with
  | O => None
  | S fuel =>
      match read data 1 with
      | (_, ReadBytes []) => Some (Ok tt)
      | (_, ReadBytes _) => Some (Err (SourceTooLong path len))
      | (data, ReadInterrupted) => check_overrun fuel path len data
      | (_, ReadFailed code) => Some (Err (Io code))
      end
  end.

Definition write_file {R} `{Source R} (fuel : nat) (path : bytes) (len : Z) (data : R) (meta : CpioFileMeta)
  : CpioWriter W -> option (CpioWriter W * res CpioError unit) := fun w =>
  match write_member path RegularFile meta len w with
  | (w, Err e) => Some (w, Err e)
  | (w, Panic) => Some (w, Panic)
  | (w, Ok _) =>
      match copy_source fuel path len len data w with
      | None => None
      | Some (w, (_, Err e)) => Some (w, Err e)
      | Some (w, (_, Panic)) => Some (w, Panic)
      | Some (w, (data, Ok _)) =>
          match check_overrun fuel path len data with
          | None => None
          | Some r => Some (w, r)
          end
      end
  end.

(** A slice is read in whole buffers, so its length bounds the reads. *)
Definition write_entry (entry : CpioEntry) : CpioWriter W -> option (CpioWriter W * res CpioError unit) :=
  fun w =>
  let meta := Build_CpioFileMeta (e_mode entry) (e_uid entry) (e_gid entry) (e_mtime entry) in
  match file_type entry, body entry with
  | Directory, Empty => Some (write_directory (path entry) meta w)
  | Symlink, LinkTarget target => Some (write_symlink (path entry) target meta w)
  | RegularFile, Contents contents =>
      write_file (S (length contents)) (path entry) (zlen contents) contents meta w
  | t, b => Some (w, Err (BodyMismatch (path entry) t b))
  end.

Definition finish : wr W unit := fun w =>
  (header <~ wlift (build_header CPIO_TRAILER_PATH 0 (Build_CpioFileMeta 0 0 0 0) 1 0);
   emit header;; emit CPIO_TRAILER_PATH;; emit [0];;
   (fun w => match sink_flush (out w) with
             | (o, None) => (w <| out := o |>, Ok tt)
             | (o, Some code) => (w <| out := o |>, Err (Io code))
             end)) w.

End Writer.

(** ** Reading an archive *)

Record member := Member {
  m_ino : Z; m_mode : Z; m_uid : Z; m_gid : Z; m_nlink : Z; m_mtime : Z;
  m_path : bytes; m_body : bytes;
}.

Definition octal_at (b : bytes) (lo w : Z) : Z := read_radix 8 (ztake w (zdrop lo b)).

Definition read_member (b : bytes) : option (member * bytes) :=
  let n := octal_at b 59 6 in
  let f := octal_at b 65 11 in
  if bool_decide (ztake 6 b = CPIO_MAGIC) && (1 <=? n) && (76 + n + f <=? zlen b) &&
     bool_decide (zget b (76 + n - 1) = Some 0)
  then Some (Member (octal_at b 12 6) (octal_at b 18 6) (octal_at b 24 6) (octal_at b 30 6)
               (octal_at b 36 6) (octal_at b 48 11) (ztake (n - 1) (zdrop 76 b)) (ztake f (zdrop (76 + n) b)),
             zdrop (76 + n + f) b)
  else None.

Fixpoint read_archive (fuel : nat) (b : bytes) : option (list member) :=
  match fuel with
  | O => None
  | S fuel =>
      match read_member b with
      | None => None
      | Some (m, rest) =>
          if bool_decide (m_path m = CPIO_TRAILER_PATH) then Some []
          else match read_archive fuel rest with Some ms => Some (m :: ms) | None => None end
      end
  end.

(** ** Entries the format can carry *)

Definition body_bytes (b : CpioBody) : bytes :=
  match b with Empty => [] | LinkTarget t => t | Contents c => c end.

(** The fields are words of their width. *)
Definition entry_wf (e : CpioEntry) : Prop :=
  u32 (e_mode e) /\ u32 (e_uid e) /\ u32 (e_gid e) /\ u64 (e_mtime e) /\
  zlen (path e) + 1 < 2 ^ 64 /\ zlen (body_bytes (body e)) < 2 ^ 64.

Definition body_matches (t : CpioFileType) (b : CpioBody) : Prop :=
  match t, b with
  | Directory, Empty | RegularFile, Contents _ => True
  | Symlink, LinkTarget target => nul_position target = None
  | _, _ => False
  end.

Record entry_ok (ino : Z) (e : CpioEntry) : Prop := {
  eo_path : path e <> [] /\ nul_position (path e) = None /\ zlen (path e) + 1 < 8 ^ 6;
  eo_mode : e_mode e <= MODE_PERMISSION_MASK;
  eo_ids : e_uid e < 8 ^ 6 /\ e_gid e < 8 ^ 6 /\ ino < 8 ^ 6;
  eo_mtime : e_mtime e < 8 ^ 11;
  eo_size : zlen (body_bytes (body e)) < 8 ^ 11;
  eo_body : body_matches (file_type e) (body e);
}.

(** What the member says when read back. *)
Definition member_of (ino : Z) (e : CpioEntry) : member :=
  Member ino (mode_type_bits (file_type e) + e_mode e) (e_uid e) (e_gid e) 1 (e_mtime e) (path e)
    (body_bytes (body e)).

Definition field (w v : Z) : bytes := replicate (Z.to_nat (w - zlen (octal v))) 48 ++ octal v.

Definition header_of (ino md u g nlink mt namesize filesize : Z) : bytes :=
  CPIO_MAGIC ++ field 6 0 ++ field 6 ino ++ field 6 md ++ field 6 u ++ field 6 g ++ field 6 nlink ++
  field 6 0 ++ field 11 mt ++ field 6 namesize ++ field 11 filesize.

Definition member_bytes (m : member) : bytes :=
  header_of (m_ino m) (m_mode m) (m_uid m) (m_gid m) (m_nlink m) (m_mtime m)
    (zlen (m_path m) + 1) (zlen (m_body m)) ++ m_path m ++ [0] ++ m_body m.

(** ** Facts *)

Lemma field_spec w v :
  1 <= w <= 22 -> 0 <= v < 8 ^ w -> zlen (field w v) = w /\ read_radix 8 (field w v) = v.
Proof.
  intros Hw Hv. destruct (radix_spec 8 22 (Z.to_nat w) v) as [E L]; [lia|by rewrite Z2Nat.id by lia|lia|].
  rewrite Z2Nat.id in L by lia. unfold field, octal. rewrite read_radix_zeros, E, zlen_app. split; [|done].
  unfold zlen at 1. rewrite length_replicate. lia.
Qed.

Lemma push_octal_ok h name v w :
  1 <= w <= 21 -> 0 <= v < 8 ^ w -> push_octal h name v w = Ok (h ++ field w v).
Proof.
  intros Hw Hv. destruct (radix_spec 8 22 (Z.to_nat w) v) as [E L]; [lia|by rewrite Z2Nat.id by lia|lia|].
  rewrite Z2Nat.id in L by lia. unfold push_octal, octal. by rewrite (proj2 (Z.ltb_ge _ _)) by lia.
Qed.

Lemma push_octal_err h name v w :
  1 <= w <= 21 -> 8 ^ w <= v -> push_octal h name v w = Err (FieldTooLarge name v w).
Proof.
  intros Hw Hv. pose proof (radix_long 8 22 (Z.to_nat w) v) as L. rewrite Z2Nat.id in L by lia.
  unfold push_octal, octal. by rewrite (proj2 (Z.ltb_lt _ _)) by (apply L; lia).
Qed.

Definition header_fits (p : bytes) (ino md u g mt filesize : Z) : Prop :=
  (p <> [] /\ nul_position p = None /\ zlen p + 1 < 8 ^ 6) /\
  ino < 8 ^ 6 /\ md < 8 ^ 6 /\ u < 8 ^ 6 /\ g < 8 ^ 6 /\ mt < 8 ^ 11 /\ filesize < 8 ^ 11.

(** The header is built exactly when every field fits. *)
Lemma build_header_case p ino md u g mt nlink filesize :
  0 <= ino -> 0 <= md -> 0 <= u -> 0 <= g -> 0 <= mt -> 0 <= nlink < 8 ^ 6 -> 0 <= filesize ->
  let r := build_header p ino (Build_CpioFileMeta md u g mt) nlink filesize in
  (header_fits p ino md u g mt filesize /\
   r = Ok (header_of ino md u g nlink mt (zlen p + 1) filesize)) \/
  (~ header_fits p ino md u g mt filesize /\ exists e, r = Err e).
Proof.
  intros H1 H2 H3 H4 H5 H6 H7. cbv zeta. unfold build_header, header_fits, validate_path, NARROW_FIELD, WIDE_FIELD.
  pose proof (zlen_nonneg p). cbn [mode uid gid mtime].
  destruct (zlen p =? 0) eqn:P; bools.
  { right. apply zlen_zero in P. split; [tauto|eauto]. }
  assert (p <> []) as Np by (by intros ->).
  destruct (nul_position p) as [o|] eqn:N; [right; split; [naive_solver|eauto]|]. cbn [res_bind].
  assert (forall v w, {v < w} + {w <= v}) as Split by (intros; destruct (decide (v < w)); [left|right]; lia).
  rewrite push_octal_ok by lia. cbn [res_bind].
  destruct (Split ino (8 ^ 6)); [rewrite push_octal_ok by lia; cbn [res_bind]
    |rewrite push_octal_err by lia; right; split; [lia|eauto]].
  destruct (Split md (8 ^ 6)); [rewrite push_octal_ok by lia; cbn [res_bind]
    |rewrite push_octal_err by lia; right; split; [lia|eauto]].
  destruct (Split u (8 ^ 6)); [rewrite push_octal_ok by lia; cbn [res_bind]
    |rewrite push_octal_err by lia; right; split; [lia|eauto]].
  destruct (Split g (8 ^ 6)); [rewrite push_octal_ok by lia; cbn [res_bind]
    |rewrite push_octal_err by lia; right; split; [lia|eauto]].
  rewrite push_octal_ok by lia. cbn [res_bind]. rewrite push_octal_ok by lia. cbn [res_bind].
  destruct (Split mt (8 ^ 11)); [rewrite push_octal_ok by lia; cbn [res_bind]
    |rewrite push_octal_err by lia; right; split; [lia|eauto]].
  destruct (Split (zlen p + 1) (8 ^ 6)); [rewrite push_octal_ok by lia; cbn [res_bind]
    |rewrite push_octal_err by lia; right; split; [lia|eauto]].
  destruct (Split filesize (8 ^ 11)); [rewrite push_octal_ok by lia
    |rewrite push_octal_err by lia; right; split; [lia|eauto]].
  left. split; [by split_and!|]. unfold header_of. by rewrite <- !app_assoc.
Qed.

Lemma land_high m : u32 m -> Z.land m (bit_not 32 MODE_PERMISSION_MASK) = 4096 * (m / 4096).
Proof.
  intros Hm. change (bit_not 32 MODE_PERMISSION_MASK) with (Z.shiftl (Z.ones 20) 12).
  transitivity (Z.shiftl (Z.land (Z.shiftr m 12) (Z.ones 20)) 12).
  - apply Z.bits_inj'. intros i Hi. rewrite Z.land_spec, !Z.shiftl_spec by lia.
    destruct (decide (i < 12)).
    + rewrite !(Z.testbit_neg_r _ (i - 12)) by lia. apply andb_false_r.
    + rewrite Z.land_spec, Z.shiftr_spec by lia. by rewrite Z.sub_add.
  - rewrite Z.land_ones, Z.shiftl_mul_pow2, Z.shiftr_div_pow2 by lia. unfold_words.
    change (2 ^ 12) with 4096. rewrite Z.mod_small; [lia|].
    split; [apply Z.div_pos; lia|apply Z.div_lt_upper_bound; lia].
Qed.

Lemma type_bits_add t m :
  0 <= m <= MODE_PERMISSION_MASK ->
  Z.lor (mode_type_bits t) m = mode_type_bits t + m /\ 0 <= mode_type_bits t + m < 8 ^ 6.
Proof.
  change MODE_PERMISSION_MASK with (2 ^ 12 - 1). intros Hm.
  assert (mode_type_bits t = Z.shiftl (mode_type_bits t / 4096) 12) as E by (by destruct t).
  rewrite E at 1. rewrite lor_shiftl by lia. rewrite Z.shiftl_mul_pow2 in E by lia. rewrite <- E.
  split; [done|]. destruct t; cbv -[Z.lt Z.le Z.add] in *; lia.
Qed.

(** The writer after [b] went out. *)
Definition emitted (b : bytes) (w : CpioWriter bytes) : CpioWriter bytes :=
  MkWriter (out w ++ b) (bytes_written w + zlen b) (entries_written w) (next_inode w).
Definition counted (w : CpioWriter bytes) : CpioWriter bytes :=
  MkWriter (out w) (bytes_written w) (entries_written w + 1) (next_inode w + 1).

Lemma emit_vec b (w : CpioWriter bytes) : emit b w = (emitted b w, Ok tt).
Proof. done. Qed.
Lemma emitted_emitted a b w : emitted b (emitted a w) = emitted (a ++ b) w.
Proof. unfold emitted. cbn. rewrite zlen_app, app_assoc. f_equal. lia. Qed.
Lemma counted_emitted b w : counted (emitted b w) = emitted b (counted w).
Proof. done. Qed.
Lemma emitted_nil w : emitted [] w = w.
Proof. destruct w. unfold emitted. cbn. rewrite app_nil_r. f_equal. rewrite zlen_nil. lia. Qed.

(** What a member's preamble needs. *)
Definition preamble_fits (p : bytes) (ino : Z) (meta : CpioFileMeta) (filesize : Z) : Prop :=
  mode meta <= MODE_PERMISSION_MASK /\
  header_fits p ino 0 (uid meta) (gid meta) (mtime meta) filesize.

Definition preamble (p : bytes) (t : CpioFileType) (ino : Z) (meta : CpioFileMeta) (filesize : Z) : bytes :=
  header_of ino (mode_type_bits t + mode meta) (uid meta) (gid meta) 1 (mtime meta) (zlen p + 1) filesize
  ++ p ++ [0].

Definition meta_wf (meta : CpioFileMeta) : Prop :=
  u32 (mode meta) /\ 0 <= uid meta /\ 0 <= gid meta /\ 0 <= mtime meta.

Lemma write_member_case p t meta filesize (w : CpioWriter bytes) :
  meta_wf meta -> 0 <= filesize -> 0 <= next_inode w ->
  (preamble_fits p (next_inode w) meta filesize /\
   write_member p t meta filesize w = (emitted (preamble p t (next_inode w) meta filesize) (counted w), Ok tt)) \/
  (~ preamble_fits p (next_inode w) meta filesize /\
   exists e, write_member p t meta filesize w = (w, Err e)).
Proof.
  intros (Hm & Hu & Hg & Ht) Hf Hi. unfold write_member, preamble_fits. rewrite land_high by done.
  destruct (4096 * (mode meta / 4096) =? 0) eqn:M; cbn [negb]; bools.
  2: { right. split; [|eauto]. change MODE_PERMISSION_MASK with 4095.
       intros [Hle _]. unfold_words. rewrite Z.div_small in M by lia. lia. }
  assert (0 <= mode meta <= MODE_PERMISSION_MASK) as Hmode.
  { change MODE_PERMISSION_MASK with 4095. unfold_words. Z.div_mod_to_equations. lia. }
  destruct (type_bits_add t (mode meta) Hmode) as [-> Hty].
  destruct (build_header_case p (next_inode w) (mode_type_bits t + mode meta) (uid meta) (gid meta)
    (mtime meta) (link_count t) filesize) as [[Fit E]|[Nfit [e E]]]; try lia; [by destruct t|..].
  - left. split; [unfold header_fits in *; intuition lia|].
    unfold wbind, wlift. rewrite E. do 3 (rewrite emit_vec; cbv beta iota).
    rewrite !emitted_emitted. unfold preamble. rewrite <- ?app_assoc. by destruct t.
  - right. split; [unfold header_fits in *; intuition lia|]. unfold wbind, wlift. rewrite E. eauto.
Qed.

(** Copying from a slice. *)
Lemma copy_source_slice fuel p len remaining (data : bytes) (w : CpioWriter bytes) :
  (length data < fuel)%nat -> 0 <= remaining ->
  copy_source fuel p len remaining data w =
    Some (emitted (ztake remaining data) w,
          (zdrop remaining data,
           if remaining <=? zlen data then Ok tt
           else Err (SourceTooShort p len (len - (remaining - zlen data))))).
Proof.
  revert remaining data w. induction fuel as [|fuel IH]; [lia|]. intros remaining data w Hf Hr.
  cbn [copy_source]. destruct (remaining <=? 0) eqn:R; bools.
  { assert (remaining = 0) as -> by lia. pose proof (zlen_nonneg data).
    rewrite (proj2 (Z.leb_le _ _)) by lia. change (ztake 0 data) with (@nil Z).
    by rewrite emitted_nil, zdrop_0. }
  set (want := Z.min remaining COPY_BUFFER_BYTES).
  assert (0 < want <= remaining) as Hw by (unfold want, COPY_BUFFER_BYTES; lia).
  cbn [read slice_source]. unfold read, slice_source.
  pose proof (zlen_ztake want data) as Lt. pose proof (zlen_nonneg data) as Hd.
  destruct (ztake want data) as [|c chunk] eqn:T.
  - assert (zlen data = 0) as Z0 by (change (zlen (@nil Z)) with 0 in Lt; lia).
    apply zlen_zero in Z0. subst data. rewrite (proj2 (Z.leb_gt _ _)) by (rewrite zlen_nil; lia).
    unfold ztake, zdrop. rewrite !take_nil, !drop_nil, emitted_nil. do 4 f_equal. by rewrite Z.sub_0_r.
  - rewrite emit_vec, <- T. rewrite IH.
    + rewrite emitted_emitted, zlen_ztake, zlen_zdrop. f_equal. f_equal; [f_equal|f_equal].
      * replace remaining with (want + (remaining - want)) at 2 by lia. rewrite ztake_add by lia.
        destruct (decide (want <= zlen data)); [do 2 f_equal; lia|].
        rewrite (zdrop_all want) by lia. f_equal. unfold ztake. by rewrite !take_nil.
      * destruct (decide (want <= zlen data)).
        -- rewrite zdrop_zdrop by lia. f_equal. lia.
        -- rewrite !zdrop_all; [done|lia|rewrite zlen_zdrop; lia].
      * destruct (decide (remaining <= zlen data)).
        -- rewrite !(proj2 (Z.leb_le _ _)) by lia. done.
        -- rewrite !(proj2 (Z.leb_gt _ _)) by lia. do 2 f_equal. lia.
    + assert (zlen (zdrop want data) < zlen data) as L.
      { rewrite zlen_zdrop. assert (zlen data <> 0); [|lia]. intros E%zlen_zero. subst.
        unfold ztake in T. by rewrite take_nil in T. }
      unfold zlen in L. lia.
    + rewrite zlen_ztake. lia.
Qed.

Lemma write_file_slice p len (data : bytes) meta (w : CpioWriter bytes) :
  meta_wf meta -> 0 <= len -> 0 <= next_inode w ->
  (preamble_fits p (next_inode w) meta len /\
   write_file (S (length data)) p len data meta w =
     Some (emitted (preamble p RegularFile (next_inode w) meta len ++ ztake len data) (counted w),
           if zlen data <? len then Err (SourceTooShort p len (zlen data))
           else if len <? zlen data then Err (SourceTooLong p len) else Ok tt)) \/
  (~ preamble_fits p (next_inode w) meta len /\
   exists e, write_file (S (length data)) p len data meta w = Some (w, Err e)).
Proof.
  intros Hm Hl Hi. unfold write_file.
  destruct (write_member_case p RegularFile meta len w Hm Hl Hi) as [[F ->]|[F [e ->]]]; [left|right; eauto].
  split; [done|]. rewrite copy_source_slice by lia. rewrite emitted_emitted.
  destruct (len <=? zlen data) eqn:C; bools.
  - rewrite (proj2 (Z.ltb_ge (zlen data) len)) by lia. cbn [check_overrun]. unfold read, slice_source.
    pose proof (zlen_zdrop len data) as Ld. destruct (zdrop len data) as [|x rest] eqn:D.
    + change (zlen (@nil Z)) with 0 in Ld. rewrite (proj2 (Z.ltb_ge len (zlen data))) by lia. done.
    + rewrite zlen_cons in Ld. pose proof (zlen_nonneg rest).
      rewrite (proj2 (Z.ltb_lt len (zlen data))) by lia. done.
  - rewrite (proj2 (Z.ltb_lt (zlen data) len)) by lia. do 3 f_equal. f_equal. lia.
Qed.

Lemma entry_ok_split ino e :
  entry_ok ino e <->
  body_matches (file_type e) (body e) /\
  preamble_fits (path e) ino (Build_CpioFileMeta (e_mode e) (e_uid e) (e_gid e) (e_mtime e))
    (zlen (body_bytes (body e))).
Proof.
  unfold preamble_fits, header_fits. cbn [mode uid gid mtime]. split.
  - intros [??????]. intuition lia.
  - intros (?&?&?&?&?&?&?&?&?). constructor; intuition lia.
Qed.

Lemma write_entry_vec (w : CpioWriter bytes) e :
  entry_wf e -> 0 <= next_inode w ->
  (entry_ok (next_inode w) e /\
   write_entry e w = Some (emitted (member_bytes (member_of (next_inode w) e)) (counted w), Ok tt)) \/
  (~ entry_ok (next_inode w) e /\ exists err, write_entry e w = Some (w, Err err)).
Proof.
  intros (Hm & Hu & Hg & Ht & _ & _) Hi. rewrite entry_ok_split.
  unfold write_entry, member_bytes, member_of. cbn [m_ino m_mode m_uid m_gid m_nlink m_mtime m_path m_body].
  set (meta := Build_CpioFileMeta _ _ _ _). pose proof (zlen_nonneg (body_bytes (body e))) as Hb.
  assert (meta_wf meta) as Hmeta by (unfold meta_wf, meta; unfold_words; cbn; lia).
  destruct (file_type e), (body e) as [|target|contents]; cbn [body_matches body_bytes] in *;
    try (right; split; [tauto|by eauto]).
  - unfold write_directory. destruct (write_member_case (path e) Directory meta 0 w) as [[F ->]|[F [x ->]]];
      [done|done|done|left|right; split; [tauto|eauto]].
    by split.
  - destruct (write_file_slice (path e) (zlen contents) contents meta w) as [[F ->]|[F [x ->]]];
      [done|lia|done|left|right; split; [tauto|eauto]].
    split; [done|]. rewrite !Z.ltb_irrefl, ztake_all by lia. unfold preamble. by rewrite <- !app_assoc.
  - unfold write_symlink. destruct (nul_position target) eqn:N; [right; split; [naive_solver|by eauto]|].
    unfold wbind. destruct (write_member_case (path e) Symlink meta (zlen target) w) as [[F ->]|[F [x ->]]];
      [done|lia|done|left|right; split; [tauto|by eauto]].
    split; [done|]. rewrite emit_vec, emitted_emitted. unfold preamble. by rewrite <- !app_assoc.
Qed.

(** ** Reading members back *)

Lemma octal_at_skip (f b : bytes) lo w : zlen f <= lo -> octal_at (f ++ b) lo w = octal_at b (lo - zlen f) w.
Proof. intros. unfold octal_at. by rewrite zdrop_app_ge. Qed.

Lemma octal_at_here (f b : bytes) w : zlen f = w -> octal_at (f ++ b) 0 w = read_radix 8 f.
Proof. intros E. unfold octal_at. rewrite zdrop_0, ztake_app_le, ztake_all by lia. done. Qed.

Record member_wf (m : member) : Prop := {
  mw_ino : 0 <= m_ino m < 8 ^ 6;
  mw_mode : 0 <= m_mode m < 8 ^ 6;
  mw_uid : 0 <= m_uid m < 8 ^ 6;
  mw_gid : 0 <= m_gid m < 8 ^ 6;
  mw_nlink : 0 <= m_nlink m < 8 ^ 6;
  mw_mtime : 0 <= m_mtime m < 8 ^ 11;
  mw_path : zlen (m_path m) + 1 < 8 ^ 6;
  mw_body : zlen (m_body m) < 8 ^ 11;
}.

(** Reach a field by skipping the ones before it. *)
Ltac at_field :=
  repeat (rewrite octal_at_skip by lia);
  match goal with |- octal_at (_ ++ _) ?lo _ = _ => replace lo with 0 by lia end;
  rewrite octal_at_here by lia; done.

Lemma header_of_fields ino md u g nl mt n f rest :
  0 <= ino < 8 ^ 6 -> 0 <= md < 8 ^ 6 -> 0 <= u < 8 ^ 6 -> 0 <= g < 8 ^ 6 -> 0 <= nl < 8 ^ 6 ->
  0 <= mt < 8 ^ 11 -> 0 <= n < 8 ^ 6 -> 0 <= f < 8 ^ 11 ->
  let h := header_of ino md u g nl mt n f in
  zlen h = CPIO_HEADER_BYTES /\ ztake 6 (h ++ rest) = CPIO_MAGIC /\
  octal_at (h ++ rest) 12 6 = ino /\ octal_at (h ++ rest) 18 6 = md /\ octal_at (h ++ rest) 24 6 = u /\
  octal_at (h ++ rest) 30 6 = g /\ octal_at (h ++ rest) 36 6 = nl /\ octal_at (h ++ rest) 48 11 = mt /\
  octal_at (h ++ rest) 59 6 = n /\ octal_at (h ++ rest) 65 11 = f.
Proof.
  intros H1 H2 H3 H4 H5 H6 H7 H8. cbv zeta. unfold header_of, CPIO_HEADER_BYTES.
  destruct (field_spec 6 0) as [L0 R0]; [lia..|]. destruct (field_spec 6 ino) as [L1 R1]; [lia..|].
  destruct (field_spec 6 md) as [L2 R2]; [lia..|]. destruct (field_spec 6 u) as [L3 R3]; [lia..|].
  destruct (field_spec 6 g) as [L4 R4]; [lia..|]. destruct (field_spec 6 nl) as [L5 R5]; [lia..|].
  destruct (field_spec 11 mt) as [L6 R6]; [lia..|]. destruct (field_spec 6 n) as [L7 R7]; [lia..|].
  destruct (field_spec 11 f) as [L8 R8]; [lia..|]. assert (zlen CPIO_MAGIC = 6) as LM by done.
  rewrite <- !app_assoc. split; [rewrite !zlen_app; lia|].
  split; [rewrite ztake_app_le, ztake_all by lia; done|]. split_and!; at_field.
Qed.

Lemma read_member_bytes m rest : member_wf m -> read_member (member_bytes m ++ rest) = Some (m, rest).
Proof.
  intros [H1 H2 H3 H4 H5 H6 H7 H8]. destruct m as [ino md u g nl mt p b].
  cbn [m_ino m_mode m_uid m_gid m_nlink m_mtime m_path m_body] in *.
  pose proof (zlen_nonneg p) as Pp. pose proof (zlen_nonneg b) as Pb. pose proof (zlen_nonneg rest) as Pr.
  unfold member_bytes. cbn [m_ino m_mode m_uid m_gid m_nlink m_mtime m_path m_body]. rewrite <- !app_assoc.
  destruct (header_of_fields ino md u g nl mt (zlen p + 1) (zlen b) (p ++ [0] ++ b ++ rest))
    as (L & M & E1 & E2 & E3 & E4 & E5 & E6 & E7 & E8); [lia..|]. unfold CPIO_HEADER_BYTES in L.
  set (h := header_of _ _ _ _ _ _ _ _) in *. clearbody h.
  unfold read_member. rewrite M, E1, E2, E3, E4, E5, E6, E7, E8.
  assert (zlen (h ++ p ++ [0] ++ b ++ rest) = 76 + zlen p + 1 + zlen b + zlen rest) as La by zl.
  rewrite La, !(proj2 (Z.leb_le _ _)) by lia.
  assert (zget (h ++ p ++ [0] ++ b ++ rest) (76 + (zlen p + 1) - 1) = Some 0) as ->.
  { replace (76 + (zlen p + 1) - 1) with (zlen (h ++ p) + 0) by zl. rewrite app_assoc, zget_app by lia. done. }
  rewrite !bool_decide_eq_true_2 by done. cbn [andb]. f_equal. f_equal; [f_equal|].
  - rewrite zdrop_app_ge by lia. rewrite zdrop_nonpos, ztake_app_le, ztake_all by lia. done.
  - rewrite (app_assoc p), (app_assoc h), zdrop_app_ge by zl. rewrite zdrop_nonpos by zl.
    rewrite ztake_app_le, ztake_all by lia. done.
  - rewrite (app_assoc [0]), (app_assoc p), (app_assoc h), zdrop_app_ge by zl. by rewrite zdrop_nonpos by zl.
Qed.

(** ** Whole archives *)

(** One [write_entry] after the other, with [?]. *)
Fixpoint write_entries (es : list CpioEntry) (w : CpioWriter bytes)
  : option (CpioWriter bytes * res CpioError unit) :=
  match es with
  | [] => Some (w, Ok tt)
  | e :: es =>
      match write_entry e w with
      | Some (w, Ok _) => write_entries es w
      | other => other
      end
  end.

Fixpoint members_from (ino : Z) (es : list CpioEntry) : list member :=
  match es with
  | [] => []
  | e :: es => member_of ino e :: members_from (ino + 1) es
  end.

Fixpoint all_ok (ino : Z) (es : list CpioEntry) : Prop :=
  match es with
  | [] => True
  | e :: es => entry_wf e /\ entry_ok ino e /\ all_ok (ino + 1) es
  end.

Definition trailer : member := Member 0 0 0 0 1 0 CPIO_TRAILER_PATH [].

Lemma member_of_wf ino e : 0 <= ino -> entry_wf e -> entry_ok ino e -> member_wf (member_of ino e).
Proof.
  intros Hi (Hm & Hu & Hg & Ht & _ & _) [(_ & _ & ?) Hmode ? ? ? ?]. unfold_words.
  destruct (type_bits_add (file_type e) (e_mode e)) as [_ ?]; [lia|].
  constructor; cbn [member_of m_ino m_mode m_uid m_gid m_nlink m_mtime m_path m_body]; lia.
Qed.

Lemma finish_vec (w : CpioWriter bytes) : finish w = (emitted (member_bytes trailer) w, Ok tt).
Proof.
  unfold finish, wbind, wlift.
  assert (build_header CPIO_TRAILER_PATH 0 (Build_CpioFileMeta 0 0 0 0) 1 0 = Ok (header_of 0 0 0 0 1 0 11 0)) as ->
    by by_compute.
  do 3 (rewrite emit_vec; cbv beta iota). rewrite !emitted_emitted.
  unfold member_bytes. cbn [trailer m_ino m_mode m_uid m_gid m_nlink m_mtime m_path m_body].
  rewrite <- ?app_assoc. change (zlen CPIO_TRAILER_PATH + 1) with 11. done.
Qed.

Lemma write_entries_vec es (w : CpioWriter bytes) :
  0 <= next_inode w -> all_ok (next_inode w) es ->
  exists w', write_entries es w = Some (w', Ok tt) /\
    out w' = out w ++ concat (map member_bytes (members_from (next_inode w) es)) /\
    bytes_written w' - bytes_written w = zlen (out w') - zlen (out w) /\
    entries_written w' = entries_written w + zlen es.
Proof.
  revert w. induction es as [|e es IH]; intros w Hi; cbn [all_ok write_entries members_from map concat].
  - intros _. exists w. rewrite app_nil_r. change (zlen (@nil CpioEntry)) with 0. split_and!; [done|done|lia..].
  - intros (Hwf & Hok & Hrest). destruct (write_entry_vec w e Hwf Hi) as [[_ ->]|[N _]]; [|done].
    set (w1 := emitted _ _). destruct (IH w1) as (w' & -> & Ho & Hb & Hn); [cbn; lia|done|].
    exists w'. split; [done|]. rewrite Ho, zlen_cons in *. rewrite Hn.
    unfold w1 in *. cbn [emitted counted out bytes_written entries_written next_inode] in *.
    rewrite <- app_assoc in *. rewrite !zlen_app in *. split_and!; [done|lia..].
Qed.

Lemma read_archive_members ms rest fuel :
  Forall (fun m => member_wf m /\ m_path m <> CPIO_TRAILER_PATH) ms ->
  read_archive (length ms + fuel) (concat (map member_bytes ms) ++ rest) =
    (fun tail => ms ++ tail) <$> read_archive fuel rest.
Proof.
  induction 1 as [|m ms [Hm Hp] _ IH]; cbn [length map concat Nat.add app].
  - by destruct (read_archive fuel rest).
  - cbn [read_archive]. rewrite <- app_assoc, read_member_bytes by done.
    rewrite bool_decide_eq_false_2 by done. rewrite IH. by destruct (read_archive fuel rest).
Qed.

Lemma read_trailer m rest fuel :
  member_wf m -> m_path m = CPIO_TRAILER_PATH -> read_archive (S fuel) (member_bytes m ++ rest) = Some [].
Proof. intros Hm Hp. cbn [read_archive]. rewrite read_member_bytes by done. by rewrite bool_decide_eq_true_2. Qed.

Lemma members_from_ok es ino :
  0 <= ino -> all_ok ino es -> Forall (fun e => path e <> CPIO_TRAILER_PATH) es ->
  Forall (fun m => member_wf m /\ m_path m <> CPIO_TRAILER_PATH) (members_from ino es) /\
  length (members_from ino es) = length es.
Proof.
  revert ino. induction es as [|e es IH]; intros ino Hi; cbn [all_ok members_from length]; [by repeat constructor|].
  intros (Hwf & Hok & Hrest). intros [Hp Hps]%Forall_cons. destruct (IH (ino + 1)) as [HF ->]; [lia|done|done|].
  split; [|done]. constructor; [|done]. split; [by apply member_of_wf|done].
Qed.

(** *** The properties *)

(** CX. One entry, written to a byte vector, is accepted exactly when the
    format can carry it: a non-empty path without NUL, permission bits only,
    a body of the entry's kind, and every number within its octal field.  An
    accepted entry appends its header, path, NUL and contents and advances
    the three counters; a refused one leaves the writer and the vector
    untouched. *)
Theorem cpio_entry_exact (w : CpioWriter bytes) (e : CpioEntry) :
  entry_wf e -> 0 <= next_inode w ->
  exists r w', write_entry e w = Some (w', r) /\ r <> Panic /\
    (r = Ok tt <-> entry_ok (next_inode w) e) /\
    (r = Ok tt -> w' = MkWriter (out w ++ member_bytes (member_of (next_inode w) e))
                         (bytes_written w + zlen (member_bytes (member_of (next_inode w) e)))
                         (entries_written w + 1) (next_inode w + 1)) /\
    (r <> Ok tt -> w' = w).
Proof.
  intros Hwf Hi. destruct (write_entry_vec w e Hwf Hi) as [[Hok ->]|[Hno [x ->]]].
  - exists (Ok tt), (emitted (member_bytes (member_of (next_inode w) e)) (counted w)). by split_and!.
  - exists (Err x), w. split_and!; [done|done|split; [done|tauto]|done|done].
Qed.

(** CX. A file is streamed from its source at the declared length: with a
    source of exactly that length the archive gains the header and the whole
    contents; a shorter source stops with the number of bytes that were
    copied, a longer one is caught by the extra read; what was emitted is the
    declared header followed by at most the declared number of bytes. *)
Theorem cpio_file_length p len (data : bytes) meta (w : CpioWriter bytes) :
  meta_wf meta -> 0 <= len -> 0 <= next_inode w -> preamble_fits p (next_inode w) meta len ->
  write_file (S (length data)) p len data meta w =
    Some (MkWriter (out w ++ preamble p RegularFile (next_inode w) meta len ++ ztake len data)
            (bytes_written w + CPIO_HEADER_BYTES + (zlen p + 1) + Z.min len (zlen data))
            (entries_written w + 1) (next_inode w + 1),
          if zlen data <? len then Err (SourceTooShort p len (zlen data))
          else if len <? zlen data then Err (SourceTooLong p len) else Ok tt).
Proof.
  intros Hm Hl Hi Hf. destruct (write_file_slice p len data meta w Hm Hl Hi) as [[_ ->]|[N _]]; [|done].
  f_equal. f_equal. unfold emitted, counted. cbn [out bytes_written entries_written next_inode]. f_equal.
  destruct Hm as (?&?&?&?), Hf as (?&(?&?&?)&?&?&?&?&?&?). pose proof (zlen_nonneg p).
  destruct (type_bits_add RegularFile (mode meta)) as [_ ?]; [unfold_words; lia|].
  unfold preamble. destruct (header_of_fields (next_inode w) (mode_type_bits RegularFile + mode meta) (uid meta)
    (gid meta) 1 (mtime meta) (zlen p + 1) len []) as [L _]; [lia..|].
  rewrite !zlen_app, L, zlen_ztake. change (zlen [0]) with 1. pose proof (zlen_nonneg data). lia.
Qed.

(** C39. CX. An archive reads back: entries the format can carry, none of them
    named like the end marker, are all written, the byte count is the length
    of the output, and a reader of the odc format finds exactly these
    members, numbered from 1, and then the trailer. *)
Theorem cpio_archive_roundtrip (es : list CpioEntry) :
  all_ok 1 es -> Forall (fun e => path e <> CPIO_TRAILER_PATH) es ->
  exists w w', write_entries es (new_writer []) = Some (w, Ok tt) /\ finish w = (w', Ok tt) /\
    entries_written w' = zlen es /\ bytes_written w' = zlen (out w') /\
    read_archive (S (length es)) (out w') = Some (members_from 1 es).
Proof.
  intros Hok Hp. destruct (write_entries_vec es (new_writer [])) as (w & E & Ho & Hb & Hn); [done|done|].
  destruct (members_from_ok es 1) as [HF HL]; [lia|done|done|].
  exists w, (emitted (member_bytes trailer) w). rewrite finish_vec. cbn [emitted out bytes_written entries_written].
  cbn [new_writer next_inode out bytes_written entries_written app] in *. change (bytes_written w - 0 = zlen (out w) - 0) in Hb.
  split_and!; [done|done|lia|rewrite zlen_app; lia|]. rewrite Ho.
  replace (S (length es)) with (length (members_from 1 es) + 1)%nat by lia.
  rewrite read_archive_members by done. rewrite <- (app_nil_r (member_bytes trailer)), read_trailer; [|by constructor|done].
  cbn. by rewrite app_nil_r.
Qed.

(** An entry named like the end marker is accepted, and a reader of the
    finished archive stops there: the entries written after it are lost. *)
Theorem cpio_trailer_path_hides (e : CpioEntry) (es : list CpioEntry) :
  all_ok 1 (e :: es) -> path e = CPIO_TRAILER_PATH ->
  exists w w', write_entries (e :: es) (new_writer []) = Some (w, Ok tt) /\ finish w = (w', Ok tt) /\
    read_archive (S (S (length es))) (out w') = Some [].
Proof.
  intros Hok Hp. destruct (write_entries_vec (e :: es) (new_writer [])) as (w & E & Ho & _ & _); [done|done|].
  exists w, (emitted (member_bytes trailer) w). rewrite finish_vec. split; [done|]. split; [done|].
  cbn [emitted out]. rewrite Ho. cbn [new_writer next_inode out members_from map concat app]. rewrite <- !app_assoc.
  apply read_trailer; [|done]. destruct Hok as (? & ? & _). by apply member_of_wf.
Qed.

(** *** Concrete runs *)

Definition sample_dir : CpioEntry := directory [100] 493 0 0 1700000000.
Definition sample_link : CpioEntry := symlink [100; 47; 108] [46; 46; 47; 120] 511 501 20 1700000000.
Definition sample_file : CpioEntry := regular_file [100; 47; 102] [1; 2; 3; 0; 255] 420 501 20 1700000000.
Definition sample_entries : list CpioEntry := [sample_dir; sample_link; sample_file].

Lemma sample_all_ok : all_ok 1 sample_entries.
Proof.
  repeat split; try by_compute.
Qed.

Lemma cpio_entry_exact_witness :
  exists w', write_entry sample_file (new_writer []) = Some (w', Ok tt) /\ entries_written w' = 1.
Proof.
  destruct (cpio_entry_exact (new_writer []) sample_file) as (r & w' & E & _ & Hr & Hw & _);
    [by repeat split|done|].
  assert (r = Ok tt) as Hok by (apply Hr; constructor; by repeat split).
  exists w'. rewrite E, Hok. split; [done|]. by rewrite (Hw Hok).
Defined.

Lemma cpio_file_length_witness :
  write_file 4 [102] 5 [7; 8; 9] (Build_CpioFileMeta 420 0 0 0) (new_writer []) =
    Some (MkWriter (preamble [102] RegularFile 1 (Build_CpioFileMeta 420 0 0 0) 5 ++ [7; 8; 9]) 81 1 2,
          Err (SourceTooShort [102] 5 3)).
Proof.
  apply (cpio_file_length [102] 5 [7; 8; 9] (Build_CpioFileMeta 420 0 0 0) (new_writer [])); by repeat split.
Defined.

Lemma cpio_archive_roundtrip_witness :
  exists w w', write_entries sample_entries (new_writer []) = Some (w, Ok tt) /\ finish w = (w', Ok tt) /\
    read_archive 4 (out w') = Some (members_from 1 sample_entries).
Proof.
  destruct (cpio_archive_roundtrip sample_entries) as (w & w' & E & F & _ & _ & R);
    [exact sample_all_ok|repeat (apply List.Forall_cons; [discriminate|]); apply List.Forall_nil|].
  exists w, w'. exact (conj E (conj F R)).
Defined.
