(* ===== verification/ApfsObject.v ===== *)
(** * APFS objects on a disc (src/src/repair_writer/{disc,object}.rs)

    Blocks of a container reached through an image backend ([ImageIo]), the
    64-bit Fletcher checksum of an APFS object (src/src/apfs_image.rs), and the
    two ways a repair writes one: a whole object, or read-modify-write.  The
    backend is a type class with its laws; the in-memory image of the sources
    is an instance. *)

From S2P Require Import Prelude.
From stdpp Require Import base tactics numbers list strings.
From Stdlib Require Import ZArith Lia.

Open Scope Z_scope.

(** ** Little-endian fields (src/src/apfs_verify.rs) *)

Definition u16_at {E} (b : bytes) (pos : Z) : res E Z :=
  let? x0 := index b pos in
  let? x1 := index b (pos + 1) in
  Ok (le_val [x0; x1]).

Definition u32_at {E} (b : bytes) (pos : Z) : res E Z :=
  let? x0 := index b pos in
  let? x1 := index b (pos + 1) in
  let? x2 := index b (pos + 2) in
  let? x3 := index b (pos + 3) in
  Ok (le_val [x0; x1; x2; x3]).

Definition u64_at {E} (b : bytes) (pos : Z) : res E Z :=
  let? buf := slice b pos (pos + 8) in Ok (le_val buf).

(** ** Checksums *)

Definition FLETCHER_MODULUS : Z := 0xFFFFFFFF.

(** The loop over [as_chunks::<4>().0]: whole words, a remainder is ignored. *)
Fixpoint sum_words (body : bytes) (lo hi : Z) : Z * Z :=
  match body with
  | x0 :: x1 :: x2 :: x3 :: body =>
      let lo := (lo + le_val [x0; x1; x2; x3]) mod FLETCHER_MODULUS in
      let hi := (hi + lo) mod FLETCHER_MODULUS in
      sum_words body lo hi
  | _ => (lo, hi)
  end.

Definition fletcher64_sums (body : bytes) : Z * Z := sum_words body 0 0.

Definition fletcher64 {E} (block : bytes) : res E Z :=
  let? body := slice block 8 (zlen block) in
  let '(lo, hi) := fletcher64_sums body in
  let c1 := FLETCHER_MODULUS - (lo + hi) mod FLETCHER_MODULUS in
  let c2 := FLETCHER_MODULUS - (lo + c1) mod FLETCHER_MODULUS in
  Ok (Z.lor (Z.shiftl c2 32) c1).

Definition fletcher64_seal {E} (block : bytes) : res E bytes :=
  let? checksum := fletcher64 block in
  copy_at block 0 (le_bytes 8 checksum).

Definition fletcher64_valid (block : bytes) : bool :=
  (8 <=? zlen block) && (zlen block mod 4 =? 0) && ((fletcher64_sums block).1 =? 0).

(** The verifier's own copy of the test (src/src/apfs_verify.rs). *)
Definition checksum_valid (block : bytes) : bool :=
  if (zlen block <? 8) || negb (zlen block mod 4 =? 0) then false else
  let '(low, _) := sum_words block 0 0 in low =? 0.

(** ** The image backend and the session *)

Inductive DiscError :=
| DiscIo (message : string)
| OutOfRange (paddr : Z)
| BlockLength (expected actual : Z).

Class ImageIo (D : Type) := {
  read_at : D -> Z -> Z -> D * res string bytes;
  write_at : D -> Z -> bytes -> D * res string unit;
}.

Record RepairSession (D : Type) := MkSession {
  disc : D;
  container_offset : Z;
  block_size : Z;
  block_count : Z;
}.
Arguments MkSession {D}.
Arguments disc {D} _.
Arguments container_offset {D} _.
Arguments block_size {D} _.
Arguments block_count {D} _.

#[export] Instance eta_session D : Eta (RepairSession D) := fun s =>
  MkSession (disc s) (container_offset s) (block_size s) (block_count s).

Definition new_session {D} (d : D) (container_offset block_size block_count : Z) : RepairSession D :=
  MkSession d container_offset block_size block_count.

(** Code that works on a session. *)
Definition io (D E A : Type) : Type := RepairSession D -> RepairSession D * res E A.
Definition iobind {D E A B} (m : io D E A) (k : A -> io D E B) : io D E B := fun s =>
  match m s with
  | (s, Ok a) => k a s
  | (s, Err e) => (s, Err e)
  | (s, Panic) => (s, Panic)
  end.
Definition lift {D E A} (r : res E A) : io D E A := fun s => (s, r).
Definition io_map_err {D E F A} (f : E -> F) (m : io D E A) : io D F A := fun s =>
  let '(s, r) := m s in (s, map_err f r).

Declare Scope io_scope.
Delimit Scope io_scope with io.
Notation "'do' x <- m ; k" := (iobind m (fun x => k))
  (at level 10, x pattern, m at level 100, k at level 200) : io_scope.
Open Scope io_scope.

Definition saturating_mul (w x y : Z) : Z := Z.min (x * y) (2 ^ w - 1).

Definition absolute {D} (s : RepairSession D) (paddr : Z) : res DiscError Z :=
  if block_count s <=? paddr then Err (OutOfRange paddr) else
  ok_or (checked_add 64 (container_offset s) (saturating_mul 64 paddr (block_size s))) (OutOfRange paddr).

Section Session.
Context {D : Type} `{ImageIo D}.

(** [into] is a buffer of the given length. *)
Definition read_block (paddr into_len : Z) : io D DiscError bytes := fun s =>
  if negb (into_len =? block_size s) then (s, Err (BlockLength (block_size s) into_len)) else
  (do pos <- lift (absolute s paddr);
   fun s => let '(d, r) := read_at (disc s) pos into_len in (s <| disc := d |>, map_err DiscIo r)) s.

Definition write_block (paddr : Z) (from : bytes) : io D DiscError unit := fun s =>
  if negb (zlen from =? block_size s) then (s, Err (BlockLength (block_size s) (zlen from))) else
  (do pos <- lift (absolute s paddr);
   fun s => let '(d, r) := write_at (disc s) pos from in (s <| disc := d |>, map_err DiscIo r)) s.

(** ** Objects *)

Definition OBJ_PHYS_BYTES : Z := 32.
Definition OID_OFFSET : Z := 0x08.
Definition XID_OFFSET : Z := 0x10.
Definition TYPE_OFFSET : Z := 0x18.
Definition SUBTYPE_OFFSET : Z := 0x1C.

Inductive ObjectWriteError :=
| ObjectDisc (error : DiscError)
| BodyTooLarge (block_size body_len : Z).

Definition object_block {E} (size oid xid o_type subtype : Z) (body : bytes) : res E bytes :=
  let block := zeros size in
  let? block := copy_at block OID_OFFSET (le_bytes 8 oid) in
  let? block := copy_at block XID_OFFSET (le_bytes 8 xid) in
  let? block := copy_at block TYPE_OFFSET (le_bytes 4 o_type) in
  let? block := copy_at block SUBTYPE_OFFSET (le_bytes 4 subtype) in
  let? block := copy_at block OBJ_PHYS_BYTES body in
  fletcher64_seal block.

Definition write_object (paddr oid xid o_type subtype : Z) (body : bytes) : io D ObjectWriteError unit := fun s =>
  let size := block_size s in
  if size <? OBJ_PHYS_BYTES + zlen body then (s, Err (BodyTooLarge size (zlen body))) else
  (do block <- lift (object_block size oid xid o_type subtype body);
   io_map_err ObjectDisc (write_block paddr block)) s.

Inductive ReadModifyWriteError (E : Type) :=
| RmwDisc (error : DiscError)
| Mutation (error : E).
Arguments RmwDisc {E} _.
Arguments Mutation {E} _.

Definition read_modify_write {E} (paddr : Z) (mutate : bytes -> res E bytes) : io D (ReadModifyWriteError E) unit :=
  fun s =>
  let size := block_size s in
  (do block <- io_map_err RmwDisc (read_block paddr size);
   do block <- lift (map_err Mutation (mutate block));
   do block <- lift (fletcher64_seal block);
   io_map_err RmwDisc (write_block paddr block)) s.

End Session.
Arguments RmwDisc {E} _.
Arguments Mutation {E} _.

(** ** The in-memory image of the sources *)

Record MemoryImage := { image_bytes : bytes }.

#[export] Instance memory_image : ImageIo MemoryImage := {
  read_at m offset len :=
    let b := image_bytes m in
    (m, Ok (if zlen b <=? offset then zeros len else
            let copy := Z.min (zlen b - offset) len in
            ztake copy (zdrop offset b) ++ zeros (len - copy)));
  write_at m offset data :=
    match checked_add usize_bits offset (zlen data) with
    | None => (m, Err "write overflow"%string)
    | Some fin =>
        let b := image_bytes m in
        let b := b ++ zeros (fin - zlen b) in
        match copy_at b offset data with
        | Ok b => ({| image_bytes := b |}, Ok tt)
        | Err e => (m, Err e)
        | Panic => (m, Panic)
        end
    end;
}.

(** ** Ranges of a block

    [get] reads a range, [put] overwrites one; disjoint ranges commute. *)

Definition get (l : bytes) (lo n : Z) : bytes := ztake n (zdrop lo l).
Definition put (l : bytes) (pos : Z) (src : bytes) : bytes :=
  ztake pos l ++ src ++ zdrop (pos + zlen src) l.

Lemma copy_at_put {E} (l : bytes) pos src :
  0 <= pos -> pos + zlen src <= zlen l -> copy_at (E := E) l pos src = Ok (put l pos src).
Proof. intros. unfold copy_at, splice. by rewrite !(proj2 (Z.leb_le _ _)) by lia. Qed.

Lemma zlen_put l pos src : 0 <= pos -> pos + zlen src <= zlen l -> zlen (put l pos src) = zlen l.
Proof. intros. pose proof (zlen_nonneg src). unfold put. rewrite !zlen_app, zlen_ztake, zlen_zdrop. lia. Qed.

Lemma zlen_get l lo n : 0 <= lo -> 0 <= n -> lo + n <= zlen l -> zlen (get l lo n) = n.
Proof. intros. unfold get. rewrite zlen_ztake, zlen_zdrop. lia. Qed.

Lemma get_put_same l pos src n :
  0 <= pos -> pos + zlen src <= zlen l -> n = zlen src -> get (put l pos src) pos n = src.
Proof.
  intros ? ? ->. pose proof (zlen_nonneg src). unfold get, put.
  rewrite zdrop_app_ge by (rewrite zlen_ztake; lia). rewrite zlen_ztake.
  rewrite zdrop_nonpos by lia. by rewrite ztake_app_le, ztake_all by lia.
Qed.

Lemma get_put_below l pos src lo n :
  0 <= lo -> 0 <= n -> lo + n <= pos -> pos + zlen src <= zlen l -> get (put l pos src) lo n = get l lo n.
Proof.
  intros. pose proof (zlen_nonneg src). unfold get, put.
  rewrite zdrop_app_le by (rewrite zlen_ztake; lia).
  rewrite ztake_app_le by (rewrite zlen_zdrop, zlen_ztake; lia).
  replace pos with (lo + (pos - lo)) by lia. rewrite zdrop_ztake_comm by lia. rewrite ztake_ztake. f_equal. lia.
Qed.

Lemma get_put_above l pos src lo n :
  0 <= pos -> pos + zlen src <= lo -> pos + zlen src <= zlen l -> get (put l pos src) lo n = get l lo n.
Proof.
  intros. pose proof (zlen_nonneg src). unfold get, put.
  rewrite zdrop_app_ge by (rewrite zlen_ztake; lia). rewrite zlen_ztake.
  rewrite zdrop_app_ge by lia. rewrite zdrop_zdrop by lia. f_equal. f_equal. lia.
Qed.

Lemma is_bytes_put l pos src : is_bytes l -> is_bytes src -> is_bytes (put l pos src).
Proof.
  intros. unfold put. apply Forall_app. split; [by apply is_bytes_ztake|].
  apply Forall_app. split; [done|by apply is_bytes_zdrop].
Qed.

Lemma is_bytes_get l lo n : is_bytes l -> is_bytes (get l lo n).
Proof. intros. by apply is_bytes_ztake, is_bytes_zdrop. Qed.

Lemma get_step l lo (n : nat) :
  0 <= lo -> lo + Z.of_nat (S n) <= zlen l ->
  exists x, zget l lo = Some x /\ get l lo (Z.of_nat (S n)) = x :: get l (lo + 1) (Z.of_nat n).
Proof.
  intros Hlo Hn. destruct (zget_in l lo) as [x Hx]; [lia|]. exists x. split; [done|].
  unfold zget in Hx. rewrite (proj2 (Z.ltb_ge _ _)) in Hx by lia.
  unfold get, ztake, zdrop. rewrite (drop_S l x (Z.to_nat lo) Hx).
  replace (Z.to_nat (Z.of_nat (S n))) with (S (Z.to_nat (Z.of_nat n))) by lia.
  rewrite firstn_cons. replace (Z.to_nat (lo + 1)) with (S (Z.to_nat lo)) by lia. done.
Qed.

Lemma u16_at_get {E} l pos : 0 <= pos -> pos + 2 <= zlen l -> u16_at (E := E) l pos = Ok (le_val (get l pos 2)).
Proof.
  intros ? ?. destruct (get_step l pos 1) as (x & Hx & Ex); [lia..|].
  destruct (get_step l (pos + 1) 0) as (y & Hy & Ey); [lia..|].
  unfold u16_at, index. rewrite Hx, Hy. cbn [or_panic res_bind].
  change (get l pos 2) with (get l pos (Z.of_nat 2)). rewrite Ex.
  change (Z.of_nat 1) with (Z.of_nat (S 0)). rewrite Ey. done.
Qed.

Lemma u32_at_get {E} l pos : 0 <= pos -> pos + 4 <= zlen l -> u32_at (E := E) l pos = Ok (le_val (get l pos 4)).
Proof.
  intros ? ?. destruct (get_step l pos 3) as (x & Hx & Ex); [lia..|].
  destruct (get_step l (pos + 1) 2) as (y & Hy & Ey); [lia..|].
  destruct (get_step l (pos + 1 + 1) 1) as (z & Hz & Ez); [lia..|].
  destruct (get_step l (pos + 1 + 1 + 1) 0) as (w & Hw & Ew); [lia..|].
  replace (pos + 1 + 1 + 1) with (pos + 3) in * by lia. replace (pos + 1 + 1) with (pos + 2) in * by lia.
  unfold u32_at, index. rewrite Hx, Hy, Hz, Hw. cbn [or_panic res_bind].
  change (get l pos 4) with (get l pos (Z.of_nat 4)). rewrite Ex.
  change (Z.of_nat 3) with (Z.of_nat (S 2)). rewrite Ey. change (Z.of_nat 2) with (Z.of_nat (S 1)). rewrite Ez.
  change (Z.of_nat 1) with (Z.of_nat (S 0)). rewrite Ew. done.
Qed.

Lemma u64_at_get {E} l pos : 0 <= pos -> pos + 8 <= zlen l -> u64_at (E := E) l pos = Ok (le_val (get l pos 8)).
Proof. intros. unfold u64_at. rewrite slice_ok by lia. unfold get. by replace (pos + 8 - pos) with 8 by lia. Qed.

(** Side conditions on ranges, and reading through a stack of writes. *)
Ltac range :=
  first [ lia | rewrite zlen_le_bytes; range | rewrite zlen_zeros; range | rewrite zlen_put by range; range ].
Ltac gets :=
  repeat first [ rewrite get_put_same by range | rewrite get_put_below by range | rewrite get_put_above by range ].

Lemma le_val_field n x : 0 <= x < 2 ^ (8 * Z.of_nat n) -> le_val (le_bytes n x) = x.
Proof. intros. rewrite le_val_le_bytes. by apply Z.mod_small. Qed.

(** ** The checksum *)

Lemma le_val_word x0 x1 x2 x3 : le_val [x0; x1; x2; x3] = x0 + 256 * (x1 + 256 * (x2 + 256 * x3)).
Proof. cbn. lia. Qed.

Lemma le_val_4_bound w : is_bytes w -> zlen w = 4 -> 0 <= le_val w < 2 ^ 32.
Proof. intros Hw Hl. pose proof (le_val_bound w Hw) as B. rewrite Hl in B. exact B. Qed.

(** The sum of the words, which is all the low half depends on. *)
Fixpoint word_sum (body : bytes) : Z :=
  match body with
  | x0 :: x1 :: x2 :: x3 :: body => le_val [x0; x1; x2; x3] + word_sum body
  | _ => 0
  end.

Lemma list_by_4 (P : bytes -> Prop) :
  (forall l, zlen l < 4 -> P l) -> (forall x0 x1 x2 x3 l, P l -> P (x0 :: x1 :: x2 :: x3 :: l)) -> forall l, P l.
Proof.
  intros Hs Hc l. remember (length l) as n eqn:En. revert l En.
  induction n as [n IH] using lt_wf_ind. intros l ->.
  destruct l as [|x0 [|x1 [|x2 [|x3 l]]]]; try (apply Hs; done).
  apply Hc. eapply IH; [|reflexivity]. cbn. lia.
Qed.

Lemma short_cases (l : bytes) : zlen l < 4 -> (exists a b c, l = [a; b; c]) \/ (exists a b, l = [a; b]) \/ (exists a, l = [a]) \/ l = [].
Proof.
  destruct l as [|x0 [|x1 [|x2 [|x3 l]]]]; intros H; [by right; right; right| | | |rewrite !zlen_cons in H; pose proof (zlen_nonneg l); lia].
  - right; right; left; eauto.
  - right; left; eauto.
  - left; eauto.
Qed.

Lemma sum_words_low body lo hi : 0 <= lo < FLETCHER_MODULUS ->
  (sum_words body lo hi).1 = (lo + word_sum body) mod FLETCHER_MODULUS.
Proof.
  revert lo hi. induction body as [l Hl|x0 x1 x2 x3 l IH] using list_by_4; intros lo hi Hlo.
  - destruct (short_cases l Hl) as [(a & b & c & ->)|[(a & b & ->)|[(a & ->)| ->]]]; cbn [sum_words word_sum fst];
      rewrite Z.add_0_r, Z.mod_small by done; done.
  - cbn [sum_words word_sum]. rewrite IH by (apply Z.mod_pos_bound; reflexivity).
    rewrite Zplus_mod_idemp_l. f_equal. lia.
Qed.

Lemma sum_words_range body lo hi :
  0 <= lo < FLETCHER_MODULUS -> 0 <= hi < FLETCHER_MODULUS ->
  0 <= (sum_words body lo hi).1 < FLETCHER_MODULUS /\ 0 <= (sum_words body lo hi).2 < FLETCHER_MODULUS.
Proof.
  revert lo hi. induction body as [l Hl|x0 x1 x2 x3 l IH] using list_by_4; intros lo hi Hlo Hhi.
  - destruct (short_cases l Hl) as [(a & b & c & ->)|[(a & b & ->)|[(a & ->)| ->]]]; done.
  - cbn [sum_words]. apply IH; apply Z.mod_pos_bound; reflexivity.
Qed.

Lemma word_sum_app a b : zlen a mod 4 = 0 -> word_sum (a ++ b) = word_sum a + word_sum b.
Proof.
  induction a as [l Hl|x0 x1 x2 x3 l IH] using list_by_4; intros Hm.
  - destruct (short_cases l Hl) as [(x & y & z & ->)|[(x & y & ->)|[(x & ->)| ->]]]; done.
  - cbn [app word_sum]. rewrite IH; [lia|]. rewrite !zlen_cons in Hm.
    rewrite <- Hm. replace (zlen l + 1 + 1 + 1 + 1) with (zlen l + 1 * 4) by lia. by rewrite Z.mod_add.
Qed.

Lemma le_val_cons x l : le_val (x :: l) = x + 256 * le_val l.
Proof. done. Qed.

Lemma word_sum_8 x : 0 <= x < 2 ^ 64 -> word_sum (le_bytes 8 x) = x mod 2 ^ 32 + x / 2 ^ 32.
Proof.
  intros Hx. pose proof (le_val_le_bytes 8 x) as V. change (8 * Z.of_nat 8) with 64 in V.
  pose proof (is_bytes_le_bytes 8 x) as B. pose proof (length_le_bytes 8 x) as L.
  rewrite Z.mod_small in V by done.
  destruct (le_bytes 8 x) as [|b0 [|b1 [|b2 [|b3 [|b4 [|b5 [|b6 [|b7 [|]]]]]]]]]; try done.
  repeat match goal with H : is_bytes (_ :: _) |- _ => apply Forall_cons in H as [? H] end.
  cbn [word_sum]. rewrite !le_val_word. rewrite !le_val_cons in V. change (le_val []) with 0 in V. subst x.
  set (lo := b0 + 256 * (b1 + 256 * (b2 + 256 * b3))). set (hi := b4 + 256 * (b5 + 256 * (b6 + 256 * b7))).
  replace (b0 + _) with (lo + hi * 2 ^ 32) by (unfold lo, hi; lia).
  assert (0 <= lo < 2 ^ 32) by (unfold lo; unfold_words; lia).
  rewrite Z.mod_add, Z.div_add, Z.mod_small, Z.div_small by lia. lia.
Qed.

Lemma seal_spec {E} block :
  8 <= zlen block ->
  exists c, fletcher64_seal (E := E) block = Ok (put block 0 (le_bytes 8 c)) /\ 0 <= c < 2 ^ 64 /\
    (word_sum (zdrop 8 block) + (c mod 2 ^ 32 + c / 2 ^ 32)) mod FLETCHER_MODULUS = 0.
Proof.
  intros Hl. unfold fletcher64_seal, fletcher64. rewrite slice_ok by lia. cbn [res_bind].
  rewrite ztake_all by (rewrite zlen_zdrop; lia). unfold fletcher64_sums.
  pose proof (sum_words_range (zdrop 8 block) 0 0) as R. pose proof (sum_words_low (zdrop 8 block) 0 0) as Lo.
  destruct (sum_words (zdrop 8 block) 0 0) as [lo hi]. cbn [fst snd] in *.
  destruct R as [Rlo Rhi]; [done|done|]. specialize (Lo ltac:(done)). rewrite Z.add_0_l in Lo.
  set (c1 := FLETCHER_MODULUS - (lo + hi) mod FLETCHER_MODULUS).
  set (c2 := FLETCHER_MODULUS - (lo + c1) mod FLETCHER_MODULUS).
  assert (0 < c1 <= FLETCHER_MODULUS) as B1
    by (unfold c1; pose proof (Z.mod_pos_bound (lo + hi) FLETCHER_MODULUS ltac:(done)); lia).
  assert (0 < c2 <= FLETCHER_MODULUS) as B2
    by (unfold c2; pose proof (Z.mod_pos_bound (lo + c1) FLETCHER_MODULUS ltac:(done)); lia).
  assert ((lo + c1 + c2) mod FLETCHER_MODULUS = 0) as Z0.
  { unfold c2. rewrite Zplus_mod, Zminus_mod, Z_mod_same_full, Z.sub_0_l, Zmod_mod.
    rewrite <- Zplus_mod. replace (lo + c1 + _) with ((lo + c1) - (lo + c1) mod FLETCHER_MODULUS) by lia.
    rewrite Zminus_mod, Zmod_mod, Z.sub_diag. done. }
  clearbody c1 c2. assert (FLETCHER_MODULUS < 2 ^ 32) as FM by done.
  exists (Z.lor (Z.shiftl c2 32) c1). rewrite lor_shiftl by lia. split_and!.
  - cbn [res_bind]. apply copy_at_put; [lia|]. rewrite zlen_le_bytes. lia.
  - lia.
  - lia.
  - rewrite (Z.add_comm (c2 * 2 ^ 32)), Z.mod_add, Z.div_add by lia.
    rewrite (Z.mod_small c1), (Z.div_small c1) by lia.
    rewrite <- Zplus_mod_idemp_l, <- Lo. rewrite <- Z0. f_equal. lia.
Qed.

Lemma put_front block c : put block 0 (le_bytes 8 c) = le_bytes 8 c ++ zdrop 8 block.
Proof. unfold put. by rewrite zlen_le_bytes. Qed.

Lemma seal_valid {E} block :
  8 <= zlen block ->
  exists c, fletcher64_seal (E := E) block = Ok (put block 0 (le_bytes 8 c)) /\
    zlen (put block 0 (le_bytes 8 c)) = zlen block /\
    (zlen block mod 4 = 0 -> fletcher64_valid (put block 0 (le_bytes 8 c)) = true).
Proof.
  intros Hl. destruct (seal_spec (E := E) block Hl) as (c & E1 & Hc & Hz). exists c. split; [done|].
  assert (zlen (put block 0 (le_bytes 8 c)) = zlen block) as L by range. split; [done|].
  intros Hm. unfold fletcher64_valid. rewrite L, (proj2 (Z.leb_le _ _)), Hm by lia. cbn [andb].
  unfold fletcher64_sums. rewrite sum_words_low by done.
  rewrite Z.add_0_l, put_front, word_sum_app by (by rewrite zlen_le_bytes).
  rewrite word_sum_8 by done. rewrite Z.add_comm, Hz. done.
Qed.

(** *** Properties of the checksum *)

(** Sealing a block of whole words writes only its first eight bytes and
    makes it valid. *)
Theorem seal_makes_valid {E} (block : bytes) :
  8 <= zlen block -> zlen block mod 4 = 0 ->
  exists sealed, fletcher64_seal (E := E) block = Ok sealed /\ zlen sealed = zlen block /\
    zdrop 8 sealed = zdrop 8 block /\ fletcher64_valid sealed = true.
Proof.
  intros Hl Hm. destruct (seal_valid (E := E) block Hl) as (c & E1 & L & V).
  exists (put block 0 (le_bytes 8 c)). split_and!; [done|done| |by apply V].
  rewrite put_front, zdrop_app_ge by (rewrite zlen_le_bytes; lia). by rewrite zlen_le_bytes, zdrop_nonpos by lia.
Qed.

Lemma seal_makes_valid_witness :
  exists sealed, fletcher64_seal (E := unit) (zeros 8 ++ [1; 2; 3; 4; 255; 255; 255; 255]) = Ok sealed /\
    fletcher64_valid sealed = true.
Proof.
  destruct (seal_makes_valid (E := unit) (zeros 8 ++ [1; 2; 3; 4; 255; 255; 255; 255])) as (sealed & E1 & _ & _ & V);
    [done|done|]. by exists sealed.
Defined.

(** The two validity tests agree. *)
Lemma checksum_valid_eq block : checksum_valid block = fletcher64_valid block.
Proof.
  unfold checksum_valid, fletcher64_valid, fletcher64_sums. destruct (sum_words block 0 0) as [lo hi]. cbn [fst].
  rewrite Z.leb_antisym. destruct (zlen block <? 8), (zlen block mod 4 =? 0); done.
Qed.

(** The validity test looks at the low sum only: exchanging two words of the
    body, which the full checksum detects, leaves a block valid. *)
Theorem valid_ignores_word_order (pre w1 mid w2 post : bytes) :
  zlen pre mod 4 = 0 -> zlen w1 = 4 -> zlen mid mod 4 = 0 -> zlen w2 = 4 ->
  fletcher64_valid (pre ++ w1 ++ mid ++ w2 ++ post) = fletcher64_valid (pre ++ w2 ++ mid ++ w1 ++ post).
Proof.
  intros Hp H1 Hm H2. unfold fletcher64_valid, fletcher64_sums. rewrite !sum_words_low by done.
  assert (zlen (pre ++ w1 ++ mid ++ w2 ++ post) = zlen (pre ++ w2 ++ mid ++ w1 ++ post)) as -> by (rewrite !zlen_app; lia).
  rewrite !word_sum_app by (rewrite ?H1, ?H2; done). do 3 f_equal. lia.
Qed.

Lemma valid_ignores_word_order_witness :
  fletcher64_valid ([251; 255; 255; 255] ++ [1; 0; 0; 0] ++ [] ++ [3; 0; 0; 0] ++ []) =
  fletcher64_valid ([251; 255; 255; 255] ++ [3; 0; 0; 0] ++ [] ++ [1; 0; 0; 0] ++ []) /\
  fletcher64_valid ([251; 255; 255; 255] ++ [1; 0; 0; 0] ++ [] ++ [3; 0; 0; 0] ++ []) = true.
Proof. split; [apply valid_ignores_word_order; reflexivity|vm_compute; reflexivity]. Defined.

(** ** Lawful images

    What a backend promises: bytes at offsets; a read returns them, a write
    that succeeds replaces exactly its range, one that fails leaves everything
    outside its range alone, and neither panics. *)
Class LawfulImage (D : Type) `{ImageIo D} := {
  valid : D -> Prop;
  view : D -> Z -> Z;
  view_u8 d i : valid d -> u8 (view d i);
  law_read d off n d' r :
    valid d -> 0 <= off -> 0 <= n -> read_at d off n = (d', r) ->
    valid d' /\ (forall i, 0 <= i -> view d' i = view d i) /\ r <> Panic /\
    (forall b, r = Ok b -> b = map (view d) (seqZ off n));
  law_write d off data d' r :
    valid d -> 0 <= off -> off + zlen data < 2 ^ 64 -> is_bytes data -> write_at d off data = (d', r) ->
    valid d' /\ r <> Panic /\
    (r = Ok tt -> forall i, 0 <= i ->
       view d' i = if bool_decide (off <= i < off + zlen data) then default 0 (zget data (i - off)) else view d i);
  law_frame d off data d' r :
    valid d -> 0 <= off -> off + zlen data < 2 ^ 64 -> is_bytes data -> write_at d off data = (d', r) ->
    forall i, 0 <= i -> ~ off <= i < off + zlen data -> view d' i = view d i;
}.

Section Lawful.
Context {D : Type} `{LawfulImage D}.

Definition block_at (s : RepairSession D) (paddr : Z) : bytes :=
  map (view (disc s)) (seqZ (container_offset s + paddr * block_size s) (block_size s)).

Record session_ok (s : RepairSession D) : Prop := {
  so_valid : valid (disc s);
  so_offset : 0 <= container_offset s;
  so_size : 0 < block_size s;
  so_fits : container_offset s + block_count s * block_size s < 2 ^ 64;
}.

(** Same geometry. *)
Definition same_shape (s s' : RepairSession D) : Prop :=
  container_offset s' = container_offset s /\ block_size s' = block_size s /\ block_count s' = block_count s.

Definition same_blocks (s s' : RepairSession D) : Prop :=
  forall q, 0 <= q < block_count s -> block_at s' q = block_at s q.

Lemma zlen_block_at s paddr : session_ok s -> zlen (block_at s paddr) = block_size s.
Proof. intros Hs. unfold block_at, zlen. rewrite length_map, length_seqZ. pose proof (so_size s Hs). lia. Qed.

Lemma is_bytes_block_at s paddr : session_ok s -> is_bytes (block_at s paddr).
Proof.
  intros Hs. unfold block_at. apply Forall_map, Forall_forall. intros i _. apply view_u8, (so_valid s Hs).
Qed.

Lemma block_at_ext s s' paddr :
  same_shape s s' -> session_ok s -> 0 <= paddr ->
  (forall i, container_offset s + paddr * block_size s <= i < container_offset s + (paddr + 1) * block_size s ->
     view (disc s') i = view (disc s) i) ->
  block_at s' paddr = block_at s paddr.
Proof.
  intros (E1 & E2 & E3) Hs Hp Hv. unfold block_at. rewrite E1, E2. apply map_ext_in. intros i Hi%list_elem_of_In.
  apply elem_of_seqZ in Hi. apply Hv. lia.
Qed.

Lemma absolute_ok s paddr :
  session_ok s -> 0 <= paddr < block_count s ->
  absolute s paddr = Ok (container_offset s + paddr * block_size s) /\
  0 <= container_offset s + paddr * block_size s /\
  container_offset s + (paddr + 1) * block_size s < 2 ^ 64.
Proof.
  intros [_ Ho Hz Hf] Hp. unfold absolute, saturating_mul, checked_add. rewrite (proj2 (Z.leb_gt _ _)) by lia.
  assert (container_offset s + (paddr + 1) * block_size s < 2 ^ 64) by nia.
  assert (0 <= paddr * block_size s) by nia.
  rewrite Z.min_l by lia. rewrite (proj2 (Z.ltb_lt _ _)) by lia. split; [done|lia].
Qed.

Lemma read_block_spec s paddr s' r :
  session_ok s -> 0 <= paddr < block_count s -> read_block paddr (block_size s) s = (s', r) ->
  session_ok s' /\ same_shape s s' /\ same_blocks s s' /\ r <> Panic /\
  (forall b, r = Ok b -> b = block_at s paddr).
Proof.
  intros Hs Hp. unfold read_block. rewrite Z.eqb_refl. cbn [negb].
  destruct (absolute_ok s paddr Hs Hp) as (Ea & Ha0 & Ha1). unfold iobind, lift. rewrite Ea.
  destruct (read_at (disc s) _ (block_size s)) as [d ro] eqn:R. intros [= <- <-].
  pose proof (so_size s Hs). apply law_read in R as (Hv & Hw & Np & Ho); [|apply (so_valid s Hs)|lia|lia].
  split_and!.
  - destruct Hs. by constructor.
  - done.
  - intros q Hq. apply block_at_ext; [done|done|lia|]. intros i Hi. apply Hw.
    pose proof (so_offset s Hs). nia.
  - by destruct ro.
  - intros b Hb. apply Ho. destruct ro; naive_solver.
Qed.

Lemma write_block_spec s paddr from s' r :
  session_ok s -> 0 <= paddr < block_count s -> zlen from = block_size s -> is_bytes from ->
  write_block paddr from s = (s', r) ->
  session_ok s' /\ same_shape s s' /\ r <> Panic /\
  (r = Ok tt -> block_at s' paddr = from /\
     forall q, 0 <= q < block_count s -> q <> paddr -> block_at s' q = block_at s q).
Proof.
  intros Hs Hp Hl Hb. unfold write_block. rewrite Hl, Z.eqb_refl. cbn [negb].
  destruct (absolute_ok s paddr Hs Hp) as (Ea & Ha0 & Ha1). unfold iobind, lift. rewrite Ea.
  destruct (write_at (disc s) _ from) as [d ro] eqn:R. intros [= <- <-].
  pose proof (so_size s Hs). pose proof (so_offset s Hs).
  apply law_write in R as (Hv & Np & Ho); [|apply (so_valid s Hs)|lia|nia|done].
  split_and!; [destruct Hs; by constructor|done|by destruct ro|].
  intros Hr. assert (ro = Ok tt) as -> by (destruct ro as [[]| |]; done). specialize (Ho eq_refl).
  unfold set_field. split.
  - unfold block_at. cbn [disc container_offset block_size]. apply list_eq. intros k. rewrite list_lookup_fmap.
    destruct (decide (k < length from)%nat) as [Hk|Hk].
    + rewrite lookup_seqZ_lt by (unfold zlen in Hl; lia). cbn. rewrite Ho by lia.
      rewrite bool_decide_eq_true_2 by (rewrite Hl; unfold zlen in Hl; lia).
      replace (_ + Z.of_nat k - _) with (Z.of_nat k) by lia. unfold zget.
      rewrite (proj2 (Z.ltb_ge _ _)) by lia. rewrite Nat2Z.id.
      destruct (lookup_lt_is_Some_2 from k Hk) as [x ->]. done.
    + rewrite lookup_seqZ_ge by (unfold zlen in Hl; lia). symmetry. apply lookup_ge_None. lia.
  - intros q Hq Ne. apply block_at_ext; [done|done|lia|]. intros i Hi. cbn [disc].
    rewrite Ho by nia. rewrite bool_decide_eq_false_2; [done|]. rewrite Hl. nia.
Qed.

(** Whatever a write returns, no other block changes. *)
Lemma write_block_frame s paddr from s' r :
  session_ok s -> 0 <= paddr -> is_bytes from -> write_block paddr from s = (s', r) ->
  session_ok s' /\ same_shape s s' /\ r <> Panic /\
  forall q, 0 <= q < block_count s -> q <> paddr -> block_at s' q = block_at s q.
Proof.
  intros Hs Hp Hb. unfold write_block. destruct (Z.eqb_spec (zlen from) (block_size s)) as [Hl|]; cbn [negb]; [|by intros [= <- <-]].
  unfold iobind, lift, absolute. destruct (block_count s <=? paddr) eqn:T; bools; [by intros [= <- <-]|].
  destruct (absolute_ok s paddr Hs ltac:(lia)) as (Ea & Ha0 & Ha1). unfold absolute in Ea.
  rewrite (proj2 (Z.leb_gt _ _)) in Ea by lia. rewrite Ea.
  destruct (write_at (disc s) _ from) as [d ro] eqn:R. intros [= <- <-]. pose proof (so_size s Hs). pose proof (so_offset s Hs).
  pose proof R as R'. apply law_write in R' as (Hv & Np & _); [|apply (so_valid s Hs)|lia|nia|done].
  split_and!; [destruct Hs; by constructor|done|by destruct ro|]. intros q Hq Ne. apply block_at_ext; [done|done|lia|].
  intros i Hi. cbn. eapply (law_frame (disc s)); [apply (so_valid s Hs)|exact Ha0|rewrite Hl; nia|done|exact R|nia|rewrite Hl; nia].
Qed.

(** Read-modify-write: the mutation sees the block, its error changes nothing,
    its result is sealed and written, and no other block moves. *)
Lemma rmw_spec {E} (s : RepairSession D) paddr (mutate : bytes -> res E bytes) s' r :
  session_ok s -> 0 <= paddr < block_count s -> 8 <= block_size s ->
  (forall b', mutate (block_at s paddr) = Ok b' -> zlen b' = block_size s /\ is_bytes b') ->
  read_modify_write paddr mutate s = (s', r) ->
  session_ok s' /\ same_shape s s' /\
  match r with
  | Ok _ => exists b' c, mutate (block_at s paddr) = Ok b' /\ block_at s' paddr = put b' 0 (le_bytes 8 c) /\
      (block_size s mod 4 = 0 -> fletcher64_valid (block_at s' paddr) = true) /\
      (forall q, 0 <= q < block_count s -> q <> paddr -> block_at s' q = block_at s q)
  | Err (Mutation e) => mutate (block_at s paddr) = Err e /\ same_blocks s s'
  | Err (RmwDisc _) => True
  | Panic => mutate (block_at s paddr) = Panic
  end.
Proof.
  intros Hs Hp H8 Hm. unfold read_modify_write, io_map_err, iobind.
  destruct (read_block paddr (block_size s) s) as [s1 r1] eqn:R1.
  apply read_block_spec in R1 as (Hs1 & Hsh & Hsb & Np & Hb); [|done|done].
  destruct r1 as [b|e|]; cbn [map_err]; [|by intros [= <- <-]|done].
  rewrite (Hb b eq_refl). clear b Hb Np. unfold lift at 1.
  destruct (mutate (block_at s paddr)) as [b'|e|] eqn:M; cbn [map_err]; [|by intros [= <- <-]..].
  destruct (Hm b' eq_refl) as [Hl Hby]. destruct Hsh as (Eo & Ez & Ec).
  destruct (seal_valid (E := ReadModifyWriteError E) b') as (c & Ec' & Hl' & Hv); [lia|].
  unfold lift. rewrite Ec'.
  destruct (write_block paddr _ s1) as [s2 r2] eqn:W. intros [= <- <-].
  apply write_block_spec in W as (Hs2 & (Eo2 & Ez2 & Ec2) & Np2 & Hw);
    [|done|lia|lia|apply is_bytes_put; [done|apply is_bytes_le_bytes]].
  split; [done|]. split; [by unfold same_shape; rewrite Eo2, Ez2, Ec2|].
  destruct r2 as [[]|e|]; cbn [map_err]; [|done|done].
  destruct (Hw eq_refl) as [Hw1 Hw2]. exists b', c. split_and!; [done|done| |].
  - intros H4. rewrite Hw1. apply Hv. by rewrite Hl.
  - intros q Hq Ne. rewrite Hw2 by (done || lia). by apply Hsb.
Qed.

Lemma object_block_spec {E} size oid xid o_type subtype body :
  u64 oid -> u64 xid -> u32 o_type -> u32 subtype -> is_bytes body -> OBJ_PHYS_BYTES + zlen body <= size ->
  exists b, object_block (E := E) size oid xid o_type subtype body = Ok b /\ zlen b = size /\ is_bytes b /\
    u64_at (E := unit) b OID_OFFSET = Ok oid /\ u64_at (E := unit) b XID_OFFSET = Ok xid /\
    u32_at (E := unit) b TYPE_OFFSET = Ok o_type /\ u32_at (E := unit) b SUBTYPE_OFFSET = Ok subtype /\
    get b OBJ_PHYS_BYTES (zlen body) = body /\
    get b (OBJ_PHYS_BYTES + zlen body) (size - OBJ_PHYS_BYTES - zlen body) = zeros (size - OBJ_PHYS_BYTES - zlen body) /\
    (size mod 4 = 0 -> fletcher64_valid b = true).
Proof.
  unfold OBJ_PHYS_BYTES, OID_OFFSET, XID_OFFSET, TYPE_OFFSET, SUBTYPE_OFFSET.
  intros Ho Hx Ht Hu Hb Hl. pose proof (zlen_nonneg body) as Pb. unfold object_block.
  unfold OBJ_PHYS_BYTES, OID_OFFSET, XID_OFFSET, TYPE_OFFSET, SUBTYPE_OFFSET.
  do 5 (rewrite copy_at_put by range; cbn [res_bind]).
  set (b := put (put _ 28 _) 32 body).
  assert (zlen b = size) as Lb by (unfold b; range).
  assert (is_bytes b) as Bb by (unfold b; repeat apply is_bytes_put; try apply is_bytes_le_bytes; [apply is_bytes_zeros|done]).
  destruct (seal_valid (E := E) b) as (c & Es & Ls & Vs); [lia|]. exists (put b 0 (le_bytes 8 c)). rewrite Lb in *.
  rewrite !u64_at_get, !u32_at_get by lia. unfold_words.
  split_and!; [done|done|apply is_bytes_put; [done|apply is_bytes_le_bytes]|..|done].
  all: rewrite get_put_above by range; unfold b; gets; try done.
  1-4: f_equal; by apply le_val_field.
  unfold get, zeros, ztake, zdrop. rewrite drop_replicate, take_replicate. f_equal. lia.
Qed.
End Lawful.

(** *** The in-memory image is lawful *)

Definition memory_view (m : MemoryImage) (i : Z) : Z := default 0 (zget (image_bytes m) i).

Lemma zget_nat {A} (l : list A) (k : nat) : zget l (Z.of_nat k) = l !! k.
Proof. unfold zget. rewrite (proj2 (Z.ltb_ge _ _)) by lia. by rewrite Nat2Z.id. Qed.

Lemma zget_beyond {A} (l : list A) i : zlen l <= i -> zget l i = None.
Proof.
  intros. pose proof (zlen_nonneg l). unfold zget, zlen in *. rewrite (proj2 (Z.ltb_ge _ _)) by lia. apply lookup_ge_None. lia.
Qed.

Lemma map_view_short m off n :
  zlen (image_bytes m) <= off -> map (memory_view m) (seqZ off n) = zeros n.
Proof.
  intros. unfold zeros. apply list_eq. intros k. rewrite list_lookup_fmap. destruct (decide (k < Z.to_nat n)%nat).
  - rewrite lookup_seqZ_lt, lookup_replicate_2 by lia. cbn. unfold memory_view. by rewrite zget_beyond by lia.
  - rewrite lookup_seqZ_ge by lia. symmetry. apply lookup_ge_None. rewrite length_replicate. lia.
Qed.

Lemma map_view_inside m off n :
  0 <= off -> 0 <= n -> off + n <= zlen (image_bytes m) ->
  map (memory_view m) (seqZ off n) = ztake n (zdrop off (image_bytes m)).
Proof.
  intros. apply list_eq. intros k. rewrite list_lookup_fmap. unfold ztake, zdrop.
  destruct (decide (k < Z.to_nat n)%nat).
  - rewrite lookup_seqZ_lt, lookup_take_lt, lookup_drop by lia. cbn. unfold memory_view.
    replace (off + Z.of_nat k) with (Z.of_nat (Z.to_nat off + k)) by lia. rewrite zget_nat.
    destruct (lookup_lt_is_Some_2 (image_bytes m) (Z.to_nat off + k)) as [x ->]; [unfold zlen in *; lia|done].
  - rewrite lookup_seqZ_ge, lookup_take_ge by lia. done.
Qed.

Lemma zget_put l pos src i :
  0 <= pos -> pos + zlen src <= zlen l -> 0 <= i ->
  zget (put l pos src) i = if bool_decide (pos <= i < pos + zlen src) then zget src (i - pos) else zget l i.
Proof.
  intros Hp Hl Hi. pose proof (zlen_nonneg src).
  assert (zlen (ztake pos l) = pos) as Lt by (rewrite zlen_ztake; lia).
  unfold put. case_bool_decide.
  - replace i with (zlen (ztake pos l) + (i - pos)) at 1 by lia. rewrite zget_app by lia.
    unfold zget. case_match; [done|]. rewrite lookup_app_l; [done|]. unfold zlen in *. lia.
  - destruct (decide (i < pos)).
    + unfold zget. rewrite (proj2 (Z.ltb_ge _ _)) by lia. rewrite lookup_app_l by (unfold zlen in Lt; lia).
      unfold ztake. by rewrite lookup_take_lt by lia.
    + rewrite app_assoc. replace i with (zlen (ztake pos l ++ src) + (i - pos - zlen src)) at 1 by (rewrite zlen_app; lia).
      rewrite zget_app by lia. unfold zget. rewrite !(proj2 (Z.ltb_ge _ _)) by lia. unfold zdrop. rewrite lookup_drop.
      f_equal. lia.
Qed.

Lemma memory_write d off data d' r :
  is_bytes (image_bytes d) -> 0 <= off -> off + zlen data < 2 ^ 64 -> is_bytes data -> write_at d off data = (d', r) ->
  is_bytes (image_bytes d') /\ r = Ok tt /\ forall i, 0 <= i ->
    memory_view d' i = if bool_decide (off <= i < off + zlen data) then default 0 (zget data (i - off)) else memory_view d i.
Proof.
  intros Hd Ho Hf Hb. cbn [write_at memory_image]. unfold checked_add, usize_bits.
  rewrite (proj2 (Z.ltb_lt _ _)) by lia. set (b := image_bytes d ++ zeros (off + zlen data - zlen (image_bytes d))).
  assert (is_bytes b) as Bb by (apply Forall_app; split; [done|apply is_bytes_zeros]).
  assert (zlen (image_bytes d) <= zlen b /\ off + zlen data <= zlen b) as [Lb1 Lb2]
    by (unfold b; rewrite zlen_app, zlen_zeros; lia).
  rewrite copy_at_put by lia. intros [= <- <-]. split; [by apply is_bytes_put|]. split; [done|].
  intros i Hi. unfold memory_view. cbn [image_bytes]. rewrite zget_put by lia. case_bool_decide; [done|].
  destruct (decide (i < zlen (image_bytes d))).
  - f_equal. unfold b, zget. rewrite (proj2 (Z.ltb_ge _ _)) by lia. apply lookup_app_l. unfold zlen in *. lia.
  - rewrite (zget_beyond (image_bytes d)) by lia. unfold b. cbn [default].
    replace i with (zlen (image_bytes d) + (i - zlen (image_bytes d))) by lia. rewrite zget_app by lia.
    unfold zget. case_match; [done|]. unfold zeros.
    destruct (replicate _ 0 !! _) eqn:E; [by apply lookup_replicate in E as [-> _]|done].
Qed.

#[export] Instance memory_lawful : LawfulImage MemoryImage.
Proof.
  refine {| valid m := is_bytes (image_bytes m); view := memory_view |}.
  - intros d i Hd. unfold memory_view. destruct (zget (image_bytes d) i) eqn:E; [by eapply zget_bytes|done].
  - intros d off n d' r Hd Ho Hn. cbn [read_at memory_image]. intros [= <- <-]. split_and!; [done|done|done|].
    intros b [= <-]. destruct (zlen (image_bytes d) <=? off) eqn:L; bools; [by rewrite map_view_short|].
    set (c := Z.min (zlen (image_bytes d) - off) n). rewrite <- (map_view_inside d off c) by (unfold c; lia).
    assert (zeros (n - c) = map (memory_view d) (seqZ (off + c) (n - c))) as ->.
    { destruct (decide (c = n)) as [->|]; [by rewrite Z.sub_diag|]. rewrite map_view_short; [done|unfold c in *; lia]. }
    rewrite <- map_app. f_equal. symmetry. replace n with (c + (n - c)) at 1 by lia. apply seqZ_app; unfold c; lia.
  - intros d off data d' r Hd Ho Hf Hb R. destruct (memory_write d off data d' r Hd Ho Hf Hb R) as (V & -> & Hw). done.
  - intros d off data d' r Hd Ho Hf Hb R i Hi Hn. destruct (memory_write d off data d' r Hd Ho Hf Hb R) as (_ & _ & Hw).
    rewrite Hw by done. by rewrite bool_decide_eq_false_2.
Defined.

(** *** Objects *)

(** Writing an object, over any lawful image: a body that does not fit is
    refused with nothing written; otherwise the block becomes a sealed, valid
    object whose header fields and body read back, zero-padded, and no other
    block of the container changes. *)
Theorem write_object_exact {D} `{LawfulImage D} (s s' : RepairSession D) paddr oid xid o_type subtype body r :
  session_ok s -> 0 <= paddr < block_count s -> u64 oid -> u64 xid -> u32 o_type -> u32 subtype -> is_bytes body ->
  write_object paddr oid xid o_type subtype body s = (s', r) ->
  r <> Panic /\ session_ok s' /\ same_shape s s' /\
  (block_size s < OBJ_PHYS_BYTES + zlen body <-> r = Err (BodyTooLarge (block_size s) (zlen body))) /\
  (block_size s < OBJ_PHYS_BYTES + zlen body -> s' = s) /\
  (r = Ok tt ->
     u64_at (E := unit) (block_at s' paddr) OID_OFFSET = Ok oid /\
     u64_at (E := unit) (block_at s' paddr) XID_OFFSET = Ok xid /\
     u32_at (E := unit) (block_at s' paddr) TYPE_OFFSET = Ok o_type /\
     u32_at (E := unit) (block_at s' paddr) SUBTYPE_OFFSET = Ok subtype /\
     get (block_at s' paddr) OBJ_PHYS_BYTES (zlen body) = body /\
     (block_size s mod 4 = 0 -> fletcher64_valid (block_at s' paddr) = true) /\
     (forall q, 0 <= q < block_count s -> q <> paddr -> block_at s' q = block_at s q)).
Proof.
  intros Hs Hp Ho Hx Ht Hu Hb. unfold write_object.
  destruct (block_size s <? OBJ_PHYS_BYTES + zlen body) eqn:L; bools.
  { intros [= <- <-]. by split_and!. }
  destruct (object_block_spec (E := ObjectWriteError) (block_size s) oid xid o_type subtype body)
    as (b & Eb & Lb & Bb & F1 & F2 & F3 & F4 & F5 & _ & F7); try done.
  unfold iobind, lift, io_map_err. rewrite Eb. destruct (write_block paddr b s) as [s1 r1] eqn:W.
  apply write_block_spec in W as (Hs1 & Hsh & Np & Hw); [|done..]. intros [= <- <-].
  split_and!; [by destruct r1|done|done| |lia|].
  - split; [lia|]. by destruct r1.
  - intros Hr. assert (r1 = Ok tt) as -> by (destruct r1 as [[]| |]; done). destruct (Hw eq_refl) as [-> Hq]. by split_and!.
Qed.

Definition blank_disc : RepairSession MemoryImage := new_session {| image_bytes := zeros 512 |} 0 128 4.

Lemma blank_disc_ok : session_ok blank_disc.
Proof. by constructor; [apply is_bytes_zeros|..]. Qed.

Lemma write_object_exact_witness :
  exists s', write_object 2 7 9 0x40000002 0xb [1; 2; 3] blank_disc = (s', Ok tt) /\
    u64_at (E := unit) (block_at s' 2) OID_OFFSET = Ok 7 /\ block_at s' 1 = block_at blank_disc 1.
Proof.
  destruct (write_object 2 7 9 0x40000002 0xb [1; 2; 3] blank_disc) as [s' r] eqn:W.
  assert (r = Ok tt) as -> by (apply (f_equal snd) in W; vm_compute in W; by rewrite <- W).
  exists s'. split; [done|].
  destruct (write_object_exact blank_disc s' 2 7 9 0x40000002 0xb [1; 2; 3] (Ok tt)) as (_ & _ & _ & _ & _ & Hok);
    [exact blank_disc_ok|by_compute..|concrete_bytes|exact W|].
  destruct (Hok eq_refl) as (H1 & _ & _ & _ & _ & _ & H2). split; [exact H1|]. apply H2; by_compute.
Defined.
