(* ===== verification/Btree.v ===== *)
(** * Leaf nodes of fixed-size B-trees (src/src/repair_writer/btree.rs)

    A leaf is one block: a header, a table of contents of (key offset, value
    offset) pairs sorted by key, keys growing up from the end of the table,
    values growing down from the end of the node, and a tree-info footer in a
    root.  Lookup, overwrite and insertion work on the block's bytes; every
    bounds check the code relies on is an explicit panic. *)

From S2P Require Import Prelude ApfsObject.
From stdpp Require Import base tactics numbers list strings.
From Stdlib Require Import ZArith Lia.

Open Scope Z_scope.

Definition FLAGS_OFFSET : Z := OBJ_PHYS_BYTES.
Definition NKEYS_OFFSET : Z := OBJ_PHYS_BYTES + 0x04.
Definition TOC_OFF_OFFSET : Z := OBJ_PHYS_BYTES + 0x08.
Definition TOC_LEN_OFFSET : Z := OBJ_PHYS_BYTES + 0x0A.
Definition FREE_SPACE_OFFSET : Z := OBJ_PHYS_BYTES + 0x0C.
Definition KEY_FREE_LIST_OFFSET : Z := OBJ_PHYS_BYTES + 0x10.
Definition VAL_FREE_LIST_OFFSET : Z := OBJ_PHYS_BYTES + 0x14.
Definition BT_KEY_COUNT_OFFSET : Z := 0x18.
Definition TOC_BASE : Z := 56.
Definition BTREE_INFO_BYTES : Z := 40.
Definition TOC_ENTRY_BYTES : Z := 4.
Definition BTNODE_ROOT : Z := 0x1.
Definition BTNODE_LEAF : Z := 0x2.
Definition BTNODE_FIXED_KV_SIZE : Z := 0x4.
Definition BTNODE_NOHEADER : Z := 0x10.

Inductive BtreeError :=
| Disc (error : DiscError)
| Headerless
| NotLeaf
| NotFixedKv
| SizeMismatch
| DuplicateKey
| IndexOutOfRange
| Malformed (reason : string)
| NodeSplitRequired.

Definition from_rmw (error : ReadModifyWriteError BtreeError) : BtreeError :=
  match error with
  | RmwDisc error => Disc error
  | Mutation error => error
  end.

Record Header := MkHeader {
  nkeys : Z; toc : Z; toc_len : Z; key_base : Z; value_end : Z;
  free_off : Z; free_len : Z; key_free_len : Z; value_free_len : Z;
  info_at : option Z;
}.

Definition has (flags bit : Z) : bool := negb (Z.land flags bit =? 0).

Definition is_leaf_node {E} (block : bytes) : res E bool :=
  if zlen block <? FLAGS_OFFSET + 2 then Ok false else
  let? flags := u16_at block FLAGS_OFFSET in
  Ok (negb (has flags BTNODE_NOHEADER) && has flags BTNODE_LEAF).

Definition decode_header (block : bytes) : res BtreeError Header :=
  let block_size := zlen block in
  let? flags := u16_at block FLAGS_OFFSET in
  if has flags BTNODE_NOHEADER then Err Headerless else
  if negb (has flags BTNODE_LEAF) then Err NotLeaf else
  if negb (has flags BTNODE_FIXED_KV_SIZE) then Err NotFixedKv else
  let? nkeys := u32_at block NKEYS_OFFSET in
  let? toc_off := u16_at block TOC_OFF_OFFSET in
  let? toc_len := u16_at block TOC_LEN_OFFSET in
  let toc := TOC_BASE + toc_off in
  let key_base := toc + toc_len in
  let? value_end := or_panic (checked_sub block_size (if has flags BTNODE_ROOT then BTREE_INFO_BYTES else 0)) in
  if (value_end <? key_base) || (block_size <? value_end)
  then Err (Malformed "table of contents leaves no room for keys and values") else
  if toc_len <? nkeys * TOC_ENTRY_BYTES
  then Err (Malformed "more keys than the table of contents holds") else
  let? free_off := u16_at block FREE_SPACE_OFFSET in
  let? free_len := u16_at block (FREE_SPACE_OFFSET + 2) in
  let? key_free_len := u16_at block (KEY_FREE_LIST_OFFSET + 2) in
  let? value_free_len := u16_at block (VAL_FREE_LIST_OFFSET + 2) in
  let? info_at :=
    (if has flags BTNODE_ROOT
     then let? pos := or_panic (checked_sub block_size BTREE_INFO_BYTES) in Ok (Some pos)
     else Ok None) in
  Ok (MkHeader nkeys toc toc_len key_base value_end free_off free_len key_free_len value_free_len info_at).

Definition toc_entry (block : bytes) (h : Header) (index : Z) : res BtreeError (Z * Z) :=
  let pos := toc h + index * TOC_ENTRY_BYTES in
  let? key_off := u16_at block pos in
  let? value_off := u16_at block (pos + 2) in
  Ok (key_off, value_off).

(** [Option::filter]. *)
Definition ofilter {A} (p : A -> bool) (o : option A) : option A :=
  match o with Some a => if p a then Some a else None | None => None end.

(** The ranges (start, end) of an entry's key and value. *)
Definition entry_ranges (block : bytes) (h : Header) (index key_size value_size : Z)
  : res BtreeError ((Z * Z) * (Z * Z)) :=
  let? (key_off, value_off) := toc_entry block h index in
  let? key_at := ok_or (ofilter (fun fin => fin + key_size <=? value_end h) (checked_add usize_bits (key_base h) key_off))
                   (Malformed "key runs past the value area") in
  let? value_at := ok_or (ofilter (fun pos => key_base h <=? pos) (checked_sub (value_end h) value_off))
                     (Malformed "value offset leaves the node") in
  let? value_fin := ok_or (ofilter (fun fin => fin <=? value_end h) (checked_add usize_bits value_at value_size))
                      (Malformed "value runs past the end of the node") in
  Ok ((key_at, key_at + key_size), (value_at, value_fin)).

(** ** Searching *)

Section Operations.
Context (compare : bytes -> bytes -> res BtreeError comparison).

Fixpoint find_loop (block : bytes) (h : Header) (key : bytes) (value_size : Z) (n : nat) (index : Z)
  : res BtreeError (Z + Z) :=
  match n with
  | O => Ok (inr (nkeys h))
  | S n =>
      let? (key_range, _) := entry_ranges block h index (zlen key) value_size in
      let? stored := slice block key_range.1 key_range.2 in
      let? order := compare stored key in
      match order with
      | Eq => Ok (inl index)
      | Gt => Ok (inr index)
      | Lt => find_loop block h key value_size n (index + 1)
      end
  end.

Definition find_in (block key : bytes) (value_size : Z) : res BtreeError (Z + Z) :=
  let? h := decode_header block in
  find_loop block h key value_size (Z.to_nat (nkeys h)) 0.

Definition value_in (block : bytes) (index key_size value_size : Z) : res BtreeError bytes :=
  let? h := decode_header block in
  if nkeys h <=? index then Err IndexOutOfRange else
  let? (_, value_range) := entry_ranges block h index key_size value_size in
  slice block value_range.1 value_range.2.

(** ** Writing *)

Definition overwrite_in (index key_size : Z) (value : bytes) (node_xid : Z) (block : bytes) : res BtreeError bytes :=
  let? h := decode_header block in
  if nkeys h <=? index then Err IndexOutOfRange else
  let? (_, value_range) := entry_ranges block h index key_size (zlen value) in
  let? block := copy_at block value_range.1 value in
  copy_at block XID_OFFSET (le_bytes 8 node_xid).

(** The scan of [insert_leaf]: where the key goes, how high keys and values reach. *)
Fixpoint scan (block : bytes) (h : Header) (key : bytes) (value_size : Z) (n : nat) (index : Z)
  (insert_at key_high value_high : Z) : res BtreeError (Z * Z * Z) :=
  match n with
  | O => Ok (insert_at, key_high, value_high)
  | S n =>
      let? (key_off, value_off) := toc_entry block h index in
      let key_high := Z.max key_high (key_off + zlen key) in
      let value_high := Z.max value_high value_off in
      let? insert_at :=
        (if insert_at =? nkeys h then
           let? (key_range, _) := entry_ranges block h index (zlen key) value_size in
           let? stored := slice block key_range.1 key_range.2 in
           let? order := compare stored key in
           match order with
           | Eq => Err DuplicateKey
           | Gt => Ok index
           | Lt => Ok insert_at
           end
         else Ok insert_at) in
      scan block h key value_size n (index + 1) insert_at key_high value_high
  end.

(** The scan of [ensure_insert_room]: the same without the search. *)
Fixpoint measure (block : bytes) (h : Header) (key_size : Z) (n : nat) (index key_high value_high : Z)
  : res BtreeError (Z * Z) :=
  match n with
  | O => Ok (key_high, value_high)
  | S n =>
      let? (key_off, value_off) := toc_entry block h index in
      measure block h key_size n (index + 1) (Z.max key_high (key_off + key_size)) (Z.max value_high value_off)
  end.

(** The free-space checks and the place of a new record: its key and value
    offsets and positions.  [insert_leaf] and [ensure_insert_room] repeat this
    text. *)
Definition place (h : Header) (key_high value_high key_size value_size : Z) : res BtreeError (Z * Z * Z * Z) :=
  let? data_area := or_panic (checked_sub (value_end h) (key_base h)) in
  if (data_area <? key_high + value_high) || (data_area <? free_off h) ||
     (data_area <? free_off h + free_len h) || (free_off h <? key_high) ||
     (data_area <? free_len h + key_free_len h + value_free_len h)
  then Err (Malformed "the node's recorded free space contradicts its table of contents") else
  if toc_len h <? (nkeys h + 1) * TOC_ENTRY_BYTES then Err NodeSplitRequired else
  let new_key_off := key_high in
  let? new_value_off := ok_or (checked_add usize_bits value_high value_size) NodeSplitRequired in
  let new_key_at := key_base h + new_key_off in
  let? new_value_at := ok_or (ofilter (fun pos => key_base h <=? pos) (checked_sub (value_end h) new_value_off))
                         NodeSplitRequired in
  if new_value_at <? new_key_at + key_size then Err NodeSplitRequired else
  Ok (new_key_off, new_value_off, new_key_at, new_value_at).

Definition put_toc (h : Header) (index key_off value_off : Z) (block : bytes) : res BtreeError bytes :=
  let pos := toc h + index * TOC_ENTRY_BYTES in
  let? block := copy_at block pos (le_bytes 2 (wrap 16 key_off)) in
  copy_at block (pos + 2) (le_bytes 2 (wrap 16 value_off)).

(** [for index in (insert_at..nkeys).rev()]: [n] entries from [insert_at] up. *)
Fixpoint shift_toc (h : Header) (insert_at : Z) (n : nat) (block : bytes) : res BtreeError bytes :=
  match n with
  | O => Ok block
  | S n =>
      let index := insert_at + Z.of_nat n in
      let? (key_off, value_off) := toc_entry block h index in
      let? block := put_toc h (index + 1) key_off value_off block in
      shift_toc h insert_at n block
  end.

(** The footer's key count. *)
Definition bump_count (h : Header) (block : bytes) : res BtreeError bytes :=
  match info_at h with
  | None => Ok block
  | Some info =>
      let pos := info + BT_KEY_COUNT_OFFSET in
      let? fin := ok_or (checked_add usize_bits pos 8) (Malformed "btree info key count is missing") in
      if zlen block <? fin then Err (Malformed "btree info key count is missing") else
      let? count := u64_at block pos in
      copy_at block pos (le_bytes 8 (saturating_add 64 count 1))
  end.

Definition insert_in (key value : bytes) (node_xid : Z) (block : bytes) : res BtreeError bytes :=
  let key_size := zlen key in
  let value_size := zlen value in
  let? h := decode_header block in
  let? (insert_at, key_high, value_high) :=
    scan block h key value_size (Z.to_nat (nkeys h)) 0 (nkeys h) 0 0 in
  let? (new_key_off, new_value_off, new_key_at, new_value_at) := place h key_high value_high key_size value_size in
  let? block := copy_at block new_key_at key in
  let? block := copy_at block new_value_at value in
  let? block := shift_toc h insert_at (Z.to_nat (nkeys h - insert_at)) block in
  let? block := put_toc h insert_at new_key_off new_value_off block in
  let? block := copy_at block NKEYS_OFFSET (le_bytes 4 (wrap 32 (nkeys h + 1))) in
  let? block := copy_at block XID_OFFSET (le_bytes 8 node_xid) in
  let used_keys := new_key_off + key_size in
  let used_values := new_value_off in
  let? data_area := or_panic (checked_sub (value_end h) (key_base h)) in
  let? after_keys := or_panic (checked_sub data_area used_keys) in
  let? rest := or_panic (checked_sub after_keys used_values) in
  let? block := copy_at block FREE_SPACE_OFFSET (le_bytes 2 (wrap 16 used_keys)) in
  let? block := copy_at block (FREE_SPACE_OFFSET + 2) (le_bytes 2 (wrap 16 rest)) in
  bump_count h block.

Definition room_in (key_size value_size : Z) (block : bytes) : res BtreeError unit :=
  let? h := decode_header block in
  let? (key_high, value_high) := measure block h key_size (Z.to_nat (nkeys h)) 0 0 0 in
  let? _ := place h key_high value_high key_size value_size in
  Ok tt.

(** ** Over a session *)

Section OnDisc.
Context {D : Type} `{ImageIo D}.

Definition with_block {A} (node_paddr : Z) (f : bytes -> res BtreeError A) : io D BtreeError A := fun s =>
  (do block <- io_map_err Disc (read_block node_paddr (block_size s)); lift (f block)) s.

Definition find_entry (node_paddr : Z) (key : bytes) (value_size : Z) : io D BtreeError (Z + Z) :=
  with_block node_paddr (fun block => find_in block key value_size).

Definition value_at (node_paddr index key_size value_size : Z) : io D BtreeError bytes :=
  with_block node_paddr (fun block => value_in block index key_size value_size).

Definition overwrite_value (node_paddr index key_size : Z) (value : bytes) (node_xid : Z) : io D BtreeError unit :=
  io_map_err from_rmw (read_modify_write node_paddr (overwrite_in index key_size value node_xid)).

Definition insert_leaf (node_paddr : Z) (key value : bytes) (node_xid : Z) : io D BtreeError unit :=
  io_map_err from_rmw (read_modify_write node_paddr (insert_in key value node_xid)).

Definition ensure_insert_room (node_paddr key_size value_size : Z) : io D BtreeError unit :=
  with_block node_paddr (room_in key_size value_size).

End OnDisc.
End Operations.

(** ** Reading a node as a table *)

(** The header as a function of the fields it is read from. *)
Definition header_fields (block : bytes) : Header :=
  let flags := le_val (get block 32 2) in
  let size := zlen block in
  let root := has flags BTNODE_ROOT in
  MkHeader (le_val (get block 36 4)) (56 + le_val (get block 40 2)) (le_val (get block 42 2))
    (56 + le_val (get block 40 2) + le_val (get block 42 2)) (size - (if root then 40 else 0))
    (le_val (get block 44 2)) (le_val (get block 46 2)) (le_val (get block 50 2)) (le_val (get block 54 2))
    (if root then Some (size - 40) else None).

Definition header_ok (block : bytes) : Prop :=
  let flags := le_val (get block 32 2) in
  let h := header_fields block in
  has flags BTNODE_NOHEADER = false /\ has flags BTNODE_LEAF = true /\ has flags BTNODE_FIXED_KV_SIZE = true /\
  key_base h <= value_end h /\ nkeys h * 4 <= toc_len h.

Lemma word_bound l lo n : is_bytes l -> 0 <= lo -> 0 <= n -> lo + n <= zlen l -> 0 <= le_val (get l lo n) < 2 ^ (8 * n).
Proof.
  intros Hl ? ? ?. pose proof (le_val_bound (get l lo n) (is_bytes_get l lo n Hl)) as B.
  rewrite zlen_get in B by lia. exact B.
Qed.

Definition NODE_MIN : Z := 96.

(** The constants as numbers. *)
Ltac offsets :=
  change FLAGS_OFFSET with 32 in *; change NKEYS_OFFSET with 36 in *; change TOC_OFF_OFFSET with 40 in *;
  change TOC_LEN_OFFSET with 42 in *; change (FREE_SPACE_OFFSET + 2) with 46 in *; change FREE_SPACE_OFFSET with 44 in *;
  change (KEY_FREE_LIST_OFFSET + 2) with 50 in *; change (VAL_FREE_LIST_OFFSET + 2) with 54 in *;
  change TOC_BASE with 56 in *; change BTREE_INFO_BYTES with 40 in *; change TOC_ENTRY_BYTES with 4 in *;
  change XID_OFFSET with 16 in *; change BT_KEY_COUNT_OFFSET with 24 in *; unfold NODE_MIN in *.

Lemma decode_header_case block :
  NODE_MIN <= zlen block -> is_bytes block ->
  (header_ok block /\ decode_header block = Ok (header_fields block)) \/
  (~ header_ok block /\ exists e, decode_header block = Err e).
Proof.
  unfold NODE_MIN. intros Hl Hb. unfold decode_header, header_ok, header_fields. offsets.
  rewrite !u16_at_get, !u32_at_get by lia. cbn [res_bind key_base value_end nkeys toc_len].
  destruct (has _ BTNODE_NOHEADER) eqn:F1; [right; split; [by intros (?&?)|by eauto]|].
  destruct (has _ BTNODE_LEAF) eqn:F2; cbn [negb]; [|right; split; [by intros (?&?&?)|by eauto]].
  destruct (has _ BTNODE_FIXED_KV_SIZE) eqn:F3; cbn [negb]; [|right; split; [by intros (?&?&?&?)|by eauto]].
  set (root := has _ BTNODE_ROOT). unfold checked_sub.
  rewrite (proj2 (Z.leb_le (if root then 40 else 0) _)) by (destruct root; lia). cbn [or_panic res_bind].
  rewrite (proj2 (Z.ltb_ge (zlen block) _)) by (destruct root; lia). rewrite orb_false_r.
  destruct (_ <? 56 + _ + _) eqn:V; bools; [right; split; [intros (?&?&?&?&?); lia|by eauto]|].
  destruct (le_val (get block 42 2) <? _) eqn:N; bools; [right; split; [intros (?&?&?&?&?); lia|by eauto]|].
  left. split; [by split_and!|]. destruct root; [|done]. rewrite (proj2 (Z.leb_le 40 _)) by lia. done.
Qed.

(** A node whose offsets fit their 16 bits. *)
Record node (block : bytes) : Prop := {
  nd_size : NODE_MIN <= zlen block <= 2 ^ 16;
  nd_bytes : is_bytes block;
  nd_header : header_ok block;
}.

Lemma node_decode block : node block -> decode_header block = Ok (header_fields block).
Proof.
  intros [[H1 _] H2 H3]. by destruct (decode_header_case block H1 H2) as [[_ ->]|[N _]].
Qed.

(** What the checks of [decode_header] establish. *)
Record geometry (size : Z) (h : Header) : Prop := {
  gm_toc : 56 <= toc h;
  gm_toc_len : 0 <= toc_len h < 2 ^ 16;
  gm_key_base : key_base h = toc h + toc_len h;
  gm_value_end : key_base h <= value_end h <= size;
  gm_size : size <= 2 ^ 16;
  gm_nkeys : 0 <= nkeys h /\ nkeys h * 4 <= toc_len h;
  gm_free : 0 <= free_off h /\ 0 <= free_len h /\ 0 <= key_free_len h /\ 0 <= value_free_len h;
  gm_info : forall i, info_at h = Some i -> i = value_end h /\ i + 40 = size;
}.

Lemma node_geometry block : node block -> geometry (zlen block) (header_fields block).
Proof.
  intros [[H1 H2] Hb (_ & _ & _ & Hk & Hn)]. unfold NODE_MIN in *. unfold header_fields in *.
  cbn [key_base value_end nkeys toc_len] in *.
  pose proof (word_bound block 36 4 Hb). pose proof (word_bound block 40 2 Hb). pose proof (word_bound block 42 2 Hb).
  pose proof (word_bound block 44 2 Hb). pose proof (word_bound block 46 2 Hb). pose proof (word_bound block 50 2 Hb).
  pose proof (word_bound block 54 2 Hb).
  constructor; cbn [toc toc_len key_base value_end nkeys free_off free_len key_free_len value_free_len info_at];
    try lia; destruct (has _ BTNODE_ROOT); try lia; try done.
  intros i [= <-]. lia.
Qed.

(** The offsets of an entry, and where they put it. *)
Definition key_off_at (block : bytes) (h : Header) (i : Z) : Z := le_val (get block (toc h + i * 4) 2).
Definition value_off_at (block : bytes) (h : Header) (i : Z) : Z := le_val (get block (toc h + i * 4 + 2) 2).

Definition fits (h : Header) (ks vs ko vo : Z) : Prop :=
  key_base h + ko + ks <= value_end h /\ vo <= value_end h - key_base h /\ vs <= vo.

Definition entry_at (block : bytes) (h : Header) (ks vs i : Z) : bytes * bytes :=
  (get block (key_base h + key_off_at block h i) ks, get block (value_end h - value_off_at block h i) vs).

(** The table a node stores. *)
Definition entries (ks vs : Z) (block : bytes) : list (bytes * bytes) :=
  let h := header_fields block in map (entry_at block h ks vs) (seqZ 0 (nkeys h)).

(** Values do not overlap, and every key ends before every value starts. *)
Definition apart (ks vs : Z) (block : bytes) : Prop :=
  let h := header_fields block in
  forall i j, 0 <= i < nkeys h -> 0 <= j < nkeys h ->
    key_off_at block h i + ks + value_off_at block h j <= value_end h - key_base h /\
    (i <> j -> value_off_at block h i + vs <= value_off_at block h j \/
               value_off_at block h j + vs <= value_off_at block h i).

Record leaf_ok (ks vs : Z) (block : bytes) : Prop := {
  lf_node : node block;
  lf_fits : forall i, 0 <= i < nkeys (header_fields block) ->
    fits (header_fields block) ks vs (key_off_at block (header_fields block) i)
      (value_off_at block (header_fields block) i);
  lf_apart : apart ks vs block;
}.

Lemma offs_bound block h i :
  is_bytes block -> 0 <= toc h -> 0 <= i -> toc h + i * 4 + 4 <= zlen block ->
  0 <= key_off_at block h i < 2 ^ 16 /\ 0 <= value_off_at block h i < 2 ^ 16.
Proof. intros Hb ? ? ?. split; apply (word_bound block _ 2 Hb); lia. Qed.

Lemma toc_entry_eq block h i :
  0 <= toc h -> 0 <= i -> toc h + i * 4 + 4 <= zlen block ->
  toc_entry block h i = Ok (key_off_at block h i, value_off_at block h i).
Proof. intros. unfold toc_entry. offsets. by rewrite !u16_at_get by lia. Qed.

Lemma entry_ranges_case block h i ks vs :
  geometry (zlen block) h -> is_bytes block -> 0 <= i < nkeys h -> 0 <= ks < 2 ^ 16 -> 0 <= vs < 2 ^ 16 ->
  let ko := key_off_at block h i in
  let vo := value_off_at block h i in
  (fits h ks vs ko vo /\ 0 <= ko /\ 0 <= vo /\
   entry_ranges block h i ks vs =
     Ok ((key_base h + ko, key_base h + ko + ks), (value_end h - vo, value_end h - vo + vs))) \/
  (~ fits h ks vs ko vo /\ exists e, entry_ranges block h i ks vs = Err e).
Proof.
  intros [] Hb Hi Hk Hv ko vo. destruct (offs_bound block h i Hb) as [B1 B2]; [lia..|].
  unfold entry_ranges, fits, usize_bits. rewrite toc_entry_eq by lia. fold ko vo in B1, B2 |- *. cbn [res_bind].
  unfold checked_add, checked_sub. rewrite (proj2 (Z.ltb_lt _ _)) by lia. cbn [ofilter].
  destruct (key_base h + ko + ks <=? value_end h) eqn:C1; cbn [ok_or res_bind]; bools; [|right; split; [lia|by eauto]].
  destruct (vo <=? value_end h) eqn:C2; cbn [ofilter ok_or res_bind]; bools; [|right; split; [lia|by eauto]].
  destruct (key_base h <=? value_end h - vo) eqn:C3; cbn [ok_or res_bind]; bools; [|right; split; [lia|by eauto]].
  rewrite (proj2 (Z.ltb_lt _ _)) by lia. cbn [ofilter].
  destruct (value_end h - vo + vs <=? value_end h) eqn:C4; cbn [ok_or res_bind]; bools; [|right; split; [lia|by eauto]].
  left. split; [lia|]. split_and!; [lia|lia|done].
Qed.

Lemma entry_ranges_ok ks vs block i :
  leaf_ok ks vs block -> 0 <= ks < 2 ^ 16 -> 0 <= vs < 2 ^ 16 ->
  let h := header_fields block in
  0 <= i < nkeys h ->
  entry_ranges block h i ks vs =
    Ok ((key_base h + key_off_at block h i, key_base h + key_off_at block h i + ks),
        (value_end h - value_off_at block h i, value_end h - value_off_at block h i + vs)) /\
  slice (E := BtreeError) block (key_base h + key_off_at block h i) (key_base h + key_off_at block h i + ks)
    = Ok (entry_at block h ks vs i).1 /\
  slice (E := BtreeError) block (value_end h - value_off_at block h i) (value_end h - value_off_at block h i + vs)
    = Ok (entry_at block h ks vs i).2.
Proof.
  intros [Hn Hf _] Hk Hv h Hi. pose proof (node_geometry block Hn) as G. fold h in G.
  destruct (entry_ranges_case block h i ks vs G (nd_bytes _ Hn) Hi Hk Hv) as [(F & ? & ? & E)|[N _]]; [|by destruct N; apply Hf].
  destruct G, F as (? & ? & ?). split; [done|]. rewrite !slice_ok by lia. unfold entry_at, get. cbn [fst snd].
  split; do 2 f_equal; lia.
Qed.

(** ** Searching a leaf *)

Section Search.
Context (compare : bytes -> bytes -> res BtreeError comparison) (cmp : bytes -> bytes -> comparison) (ks vs : Z).
Context (Hks : 0 <= ks < 2 ^ 16) (Hvs : 0 <= vs < 2 ^ 16).
Context (Hcmp : forall a b, zlen a = ks -> zlen b = ks -> compare a b = Ok (cmp a b)).

Definition key_at (block : bytes) (i : Z) : bytes := (entry_at block (header_fields block) ks vs i).1.

(** [Ok i]: the key stands at [i]; [Err i]: it belongs at [i]. *)
Definition found (block key : bytes) (r : Z + Z) : Prop :=
  let n := nkeys (header_fields block) in
  match r with
  | inl i => 0 <= i < n /\ (forall j, 0 <= j < i -> cmp (key_at block j) key = Lt) /\ cmp (key_at block i) key = Eq
  | inr i => 0 <= i <= n /\ (forall j, 0 <= j < i -> cmp (key_at block j) key = Lt) /\
             (i < n -> cmp (key_at block i) key = Gt)
  end.

Lemma zlen_key_at block i : leaf_ok ks vs block -> 0 <= i < nkeys (header_fields block) -> zlen (key_at block i) = ks.
Proof.
  intros Hl Hi. pose proof (node_geometry block (lf_node _ _ _ Hl)) as G. destruct (lf_fits _ _ _ Hl i Hi) as (? & ? & ?).
  destruct (offs_bound block (header_fields block) i (nd_bytes _ (lf_node _ _ _ Hl))) as [B1 B2]; [destruct G; lia..|].
  unfold key_at, entry_at. cbn [fst]. apply zlen_get; destruct G; lia.
Qed.

(** One comparison of the scan. *)
Lemma compare_at block key i {A} (k : comparison -> res BtreeError A) :
  leaf_ok ks vs block -> zlen key = ks -> 0 <= i < nkeys (header_fields block) ->
  (let? (key_range, _) := entry_ranges block (header_fields block) i ks vs in
   let? stored := slice block key_range.1 key_range.2 in
   let? order := compare stored key in k order) = k (cmp (key_at block i) key).
Proof.
  intros Hl Hk Hi. destruct (entry_ranges_ok ks vs block i Hl Hks Hvs Hi) as (-> & E & _).
  cbn [res_bind fst snd]. rewrite E. cbn [res_bind]. rewrite Hcmp; [done|by apply zlen_key_at|done].
Qed.

Lemma find_loop_spec block key n index :
  leaf_ok ks vs block -> zlen key = ks -> 0 <= index -> Z.of_nat n = nkeys (header_fields block) - index ->
  (forall j, 0 <= j < index -> cmp (key_at block j) key = Lt) ->
  exists r, find_loop compare block (header_fields block) key vs n index = Ok r /\ found block key r.
Proof.
  intros Hl Hk. revert index. induction n as [|n IH]; intros index Hi Hn Hb; cbn [find_loop].
  - assert (nkeys (header_fields block) = index) as E by lia. exists (inr index). unfold found. rewrite E.
    split_and!; [done|lia..|done|lia].
  - rewrite Hk, compare_at by (done || lia). destruct (cmp (key_at block index) key) eqn:C.
    + exists (inl index). split; [done|]. unfold found. split_and!; [lia..|done|done].
    + apply IH; [lia|lia|]. intros j Hj. destruct (decide (j = index)) as [->|]; [done|]. apply Hb. lia.
    + exists (inr index). split; [done|]. unfold found. split_and!; [lia..|done|done].
Qed.

Lemma find_in_spec block key :
  leaf_ok ks vs block -> zlen key = ks -> exists r, find_in compare block key vs = Ok r /\ found block key r.
Proof.
  intros Hl Hk. unfold find_in. rewrite node_decode by apply Hl. cbn [res_bind].
  pose proof (node_geometry _ (lf_node _ _ _ Hl)) as G. apply find_loop_spec; [done|done|lia|destruct G; lia|lia].
Qed.

(** Every offset of the table is below the marks. *)
Definition below (block : bytes) (n kh vh : Z) : Prop :=
  0 <= kh /\ 0 <= vh /\
  forall j, 0 <= j < n -> key_off_at block (header_fields block) j + ks <= kh /\
                          value_off_at block (header_fields block) j <= vh.

Lemma below_step block n kh vh :
  0 <= n -> 0 <= key_off_at block (header_fields block) n ->
  below block n kh vh ->
  below block (n + 1) (Z.max kh (key_off_at block (header_fields block) n + ks))
    (Z.max vh (value_off_at block (header_fields block) n)).
Proof.
  intros Hn Hk (H1 & H2 & Hb). split_and!; [lia|lia|]. intros j Hj.
  destruct (decide (j = n)) as [->|]; [lia|]. destruct (Hb j) as [? ?]; lia.
Qed.

Lemma scan_spec block key n index ia kh vh :
  leaf_ok ks vs block -> zlen key = ks -> 0 <= index -> Z.of_nat n = nkeys (header_fields block) - index ->
  below block index kh vh ->
  found block key (inr ia) \/ (ia = nkeys (header_fields block) /\ forall j, 0 <= j < index -> cmp (key_at block j) key = Lt) ->
  (ia = nkeys (header_fields block) \/ ia < index) ->
  (scan compare block (header_fields block) key vs n index ia kh vh = Err DuplicateKey /\
   exists i, found block key (inl i)) \/
  (exists ia' kh' vh', scan compare block (header_fields block) key vs n index ia kh vh = Ok (ia', kh', vh') /\
     found block key (inr ia') /\ below block (nkeys (header_fields block)) kh' vh' /\
     measure block (header_fields block) ks n index kh vh = Ok (kh', vh')).
Proof.
  intros Hl Hk. pose proof (node_geometry _ (lf_node _ _ _ Hl)) as G.
  revert index ia kh vh. induction n as [|n IH]; intros index ia kh vh Hi Hn Hb Hf Hia; cbn [scan measure].
  - assert (index = nkeys (header_fields block)) as -> by lia. right. exists ia, kh, vh.
    split_and!; [done| |done|done]. destruct Hf as [Hf|[-> Hf]]; [done|]. unfold found. split_and!; [lia..|done|lia].
  - assert (0 <= index < nkeys (header_fields block)) as Hin by lia.
    rewrite toc_entry_eq by (destruct G; lia). cbn [res_bind]. rewrite Hk.
    destruct (offs_bound block (header_fields block) index (nd_bytes _ (lf_node _ _ _ Hl))) as [B1 B2]; [destruct G; lia..|].
    pose proof (below_step block index kh vh Hi ltac:(lia) Hb) as Hb'.
    destruct (ia =? nkeys (header_fields block)) eqn:Eia; bools.
    + destruct Hf as [(_ & Hlt & _)|[_ Hlt]].
      all: rewrite compare_at by done; destruct (cmp (key_at block index) key) eqn:C; cbn [res_bind];
        [left; split; [done|]; exists index; unfold found; split_and!; [lia..|intros; apply Hlt; lia|done]|..].
      1,3: apply IH; [lia|lia|done|right; split; [done|]; intros j Hj; destruct (decide (j = index)) as [->|]; [done|apply Hlt; lia]|by left].
      all: apply IH; [lia|lia|done|left; unfold found; split_and!; [lia..|intros; apply Hlt; lia|done]|right; lia].
    + destruct Hf as [Hf|[? _]]; [|done]. cbn [res_bind]. apply IH; [lia|lia|done|by left|right; lia].
Qed.
End Search.

(** ** Inserting into a leaf *)

Lemma place_spec size h kh vh ks vs :
  geometry size h -> 0 <= kh -> 0 <= vh -> 0 <= ks -> 0 <= vs < 2 ^ 16 ->
  (exists e, place h kh vh ks vs = Err e) \/
  (place h kh vh ks vs = Ok (kh, vh + vs, key_base h + kh, value_end h - (vh + vs)) /\
   key_base h + kh + ks <= value_end h - (vh + vs) /\ (nkeys h + 1) * 4 <= toc_len h).
Proof.
  intros G Hk Hv Hks Hvs. destruct G. unfold place, checked_sub, checked_add, usize_bits. offsets.
  rewrite (proj2 (Z.leb_le (key_base h) _)) by lia. cbn [or_panic res_bind].
  destruct (_ || _ || _ || _ || _) eqn:B; [by eauto|].
  apply orb_false_elim in B as [[[[B _]%orb_false_elim _]%orb_false_elim _]%orb_false_elim _].
  destruct (toc_len h <? _) eqn:T; [by eauto|]. bools.
  rewrite (proj2 (Z.ltb_lt _ _)) by lia. cbn [ok_or res_bind].
  destruct (vh + vs <=? value_end h) eqn:S1; cbn [ofilter ok_or res_bind]; [|by eauto]. bools.
  destruct (key_base h <=? value_end h - (vh + vs)) eqn:S2; cbn [ok_or res_bind]; [|by eauto]. bools.
  destruct (_ <? key_base h + kh + ks) eqn:S3; [by eauto|]. bools. right. by split_and!.
Qed.

Lemma put_toc_eq h i ko vo block :
  0 <= toc h -> 0 <= i -> toc h + i * 4 + 4 <= zlen block -> u16 ko -> u16 vo ->
  put_toc h i ko vo block =
    Ok (put (put block (toc h + i * 4) (le_bytes 2 ko)) (toc h + i * 4 + 2) (le_bytes 2 vo)).
Proof.
  intros. unfold put_toc. offsets. rewrite !wrap_small by done. rewrite copy_at_put by range. cbn [res_bind].
  by rewrite copy_at_put by range.
Qed.

Lemma shift_toc_spec h ia n block :
  0 <= toc h -> 0 <= ia -> toc h + (ia + Z.of_nat n + 1) * 4 <= zlen block -> is_bytes block ->
  exists block', shift_toc h ia n block = Ok block' /\ zlen block' = zlen block /\ is_bytes block' /\
    (forall lo m, 0 <= lo -> 0 <= m -> lo + m <= toc h + (ia + 1) * 4 \/ toc h + (ia + Z.of_nat n + 1) * 4 <= lo ->
       get block' lo m = get block lo m) /\
    (forall j, ia <= j < ia + Z.of_nat n ->
       key_off_at block' h (j + 1) = key_off_at block h j /\ value_off_at block' h (j + 1) = value_off_at block h j).
Proof.
  intros Ht Hi. revert block. induction n as [|n IH]; intros block Hl Hb; cbn [shift_toc].
  - exists block. split_and!; [done..|]. intros; lia.
  - set (ix := ia + Z.of_nat n). destruct (offs_bound block h ix Hb) as [B1 B2]; [lia..|].
    rewrite toc_entry_eq by lia. cbn [res_bind]. rewrite put_toc_eq by (done || lia). cbn [res_bind].
    set (b1 := put (put _ _ _) _ _).
    assert (zlen b1 = zlen block) as L1 by (unfold b1; range).
    destruct (IH b1) as (b' & -> & L & Bb & Fr & Sh);
      [lia|unfold b1; repeat apply is_bytes_put; try apply is_bytes_le_bytes; done|].
    exists b'. split_and!; [done|lia|done| |].
    + intros lo m ? ? Hd. rewrite Fr by lia. unfold b1. destruct Hd; by gets.
    + intros j Hj. destruct (decide (j = ix)) as [->|].
      * unfold key_off_at at 1, value_off_at at 1. rewrite !Fr by lia. unfold b1.
        rewrite (get_put_below _ _ _ (toc h + (ix + 1) * 4)) by range. rewrite !get_put_same by range.
        by rewrite !le_val_field by (unfold_words; lia).
      * destruct (Sh j) as [-> ->]; [lia|]. unfold key_off_at, value_off_at, b1. by gets.
Qed.

(** The writes that follow the table of contents. *)
Definition finish_insert (h : Header) (node_xid used_keys used_values : Z) (block : bytes) : bytes :=
  let block := put block 36 (le_bytes 4 (nkeys h + 1)) in
  let block := put block 16 (le_bytes 8 node_xid) in
  let block := put block 44 (le_bytes 2 used_keys) in
  let block := put block 46 (le_bytes 2 (value_end h - key_base h - used_keys - used_values)) in
  match info_at h with
  | None => block
  | Some info => put block (info + 24) (le_bytes 8 (saturating_add 64 (le_val (get block (info + 24) 8)) 1))
  end.

Lemma finish_insert_facts h xid uk uv block :
  geometry (zlen block) h -> is_bytes block -> 56 <= zlen block ->
  let b' := finish_insert h xid uk uv block in
  zlen b' = zlen block /\ is_bytes b' /\
  (forall lo n, 56 <= lo -> 0 <= n -> lo + n <= value_end h -> get b' lo n = get block lo n) /\
  get b' 32 2 = get block 32 2 /\ get b' 36 4 = le_bytes 4 (nkeys h + 1) /\
  get b' 40 2 = get block 40 2 /\ get b' 42 2 = get block 42 2.
Proof.
  intros G Hb Hl. cbv zeta. unfold finish_insert.
  set (b1 := put (put (put (put _ _ _) _ _) _ _) _ _).
  assert (zlen b1 = zlen block) as L1 by (unfold b1; range).
  assert (is_bytes b1) as Bb1 by (unfold b1; repeat apply is_bytes_put; try apply is_bytes_le_bytes; done).
  assert (get b1 32 2 = get block 32 2 /\ get b1 36 4 = le_bytes 4 (nkeys h + 1) /\
    get b1 40 2 = get block 40 2 /\ get b1 42 2 = get block 42 2) as (F1 & F2 & F3 & F4)
    by (unfold b1; split_and!; by gets).
  assert (forall lo n, 56 <= lo -> 0 <= n -> get b1 lo n = get block lo n) as Fr
    by (intros lo n ? ?; unfold b1; by gets).
  clearbody b1. destruct (info_at h) as [info|] eqn:I.
  - destruct (gm_info _ _ G info I) as [-> Ei]. pose proof (gm_value_end _ _ G). pose proof (gm_toc _ _ G).
    pose proof (gm_key_base _ _ G). pose proof (gm_toc_len _ _ G).
    split_and!; [range|apply is_bytes_put; [done|apply is_bytes_le_bytes]|..].
    + intros lo n ? ? ?. rewrite get_put_below by range. by apply Fr.
    + by rewrite get_put_below by range.
    + by rewrite get_put_below by range.
    + by rewrite get_put_below by range.
    + by rewrite get_put_below by range.
  - split_and!; try done. intros; by apply Fr.
Qed.

Lemma finish_insert_eq h xid uk uv block :
  geometry (zlen block) h -> 96 <= zlen block -> 0 <= uk -> 0 <= uv -> uk + uv <= value_end h - key_base h ->
  (nkeys h + 1) * 4 <= toc_len h ->
  (let? block := copy_at block NKEYS_OFFSET (le_bytes 4 (wrap 32 (nkeys h + 1))) in
   let? block := copy_at block XID_OFFSET (le_bytes 8 xid) in
   let? data_area := or_panic (checked_sub (value_end h) (key_base h)) in
   let? after_keys := or_panic (checked_sub data_area uk) in
   let? rest := or_panic (checked_sub after_keys uv) in
   let? block := copy_at block FREE_SPACE_OFFSET (le_bytes 2 (wrap 16 uk)) in
   let? block := copy_at block (FREE_SPACE_OFFSET + 2) (le_bytes 2 (wrap 16 rest)) in
   bump_count h block) = Ok (finish_insert h xid uk uv block).
Proof.
  intros G Hl Huk Huv Hu Ht. pose proof (gm_value_end _ _ G). pose proof (gm_size _ _ G). pose proof (gm_nkeys _ _ G).
  pose proof (gm_toc_len _ _ G). pose proof (gm_toc _ _ G). pose proof (gm_key_base _ _ G).
  offsets. unfold checked_sub. rewrite (wrap_small 32) by (unfold_words; lia).
  rewrite !copy_at_put by range. cbn [res_bind]. rewrite copy_at_put by range. cbn [res_bind].
  rewrite (proj2 (Z.leb_le (key_base h) _)) by lia. cbn [or_panic res_bind].
  rewrite (proj2 (Z.leb_le uk _)) by lia. cbn [or_panic res_bind].
  rewrite (proj2 (Z.leb_le uv _)) by lia. cbn [or_panic res_bind].
  rewrite !(wrap_small 16) by (unfold_words; lia).
  rewrite copy_at_put by range. cbn [res_bind]. rewrite copy_at_put by range. cbn [res_bind].
  unfold bump_count, finish_insert. destruct (info_at h) as [info|] eqn:I; [|done]. offsets.
  destruct (gm_info _ _ G info I) as [-> Ei]. unfold checked_add, usize_bits.
  rewrite (proj2 (Z.ltb_lt _ _)) by lia. cbn [ok_or res_bind].
  rewrite (proj2 (Z.ltb_ge _ _)) by range. rewrite u64_at_get by range. cbn [res_bind].
  by rewrite copy_at_put by range.
Qed.

(** A node with the same layout and one more entry. *)
Lemma grown_node block b' :
  node block -> zlen b' = zlen block -> is_bytes b' ->
  get b' 32 2 = get block 32 2 -> get b' 36 4 = le_bytes 4 (nkeys (header_fields block) + 1) ->
  get b' 40 2 = get block 40 2 -> get b' 42 2 = get block 42 2 ->
  (nkeys (header_fields block) + 1) * 4 <= toc_len (header_fields block) ->
  let h := header_fields block in
  let h' := header_fields b' in
  node b' /\ nkeys h' = nkeys h + 1 /\ toc h' = toc h /\ toc_len h' = toc_len h /\ key_base h' = key_base h /\
  value_end h' = value_end h.
Proof.
  intros Hn L Bb G1 G2 G3 G4 Ht h h'. pose proof (node_geometry _ Hn) as G.
  assert (nkeys h' = nkeys h + 1) as N.
  { unfold h', header_fields. cbn [nkeys]. rewrite G2. apply le_val_field.
    pose proof (gm_nkeys _ _ G). pose proof (gm_toc_len _ _ G). unfold h. cbn [Z.of_nat]. lia. }
  assert (toc h' = toc h /\ toc_len h' = toc_len h /\ key_base h' = key_base h /\ value_end h' = value_end h) as (E1 & E2 & E3 & E4).
  { unfold h', h, header_fields. cbn [toc toc_len key_base value_end]. by rewrite G1, G3, G4, L. }
  split; [|by split_and!]. destruct Hn as [Hs Hb (F1 & F2 & F3 & F4 & F5)].
  constructor; [by rewrite L|done|]. unfold header_ok. fold h'. rewrite G1, N, E2, E3, E4. by split_and!.
Qed.

Section Insert.
Context (ks vs : Z) (Hks : 0 <= ks < 2 ^ 16) (Hvs : 0 <= vs < 2 ^ 16).

Definition insert_nth {A} (i : Z) (x : A) (l : list A) : list A := ztake i l ++ x :: zdrop i l.

Lemma entries_lookup block (k : nat) :
  entries ks vs block !! k =
    if decide (Z.of_nat k < nkeys (header_fields block)) then Some (entry_at block (header_fields block) ks vs (Z.of_nat k)) else None.
Proof.
  unfold entries. rewrite list_lookup_fmap. case_decide.
  - rewrite lookup_seqZ_lt by lia. done.
  - rewrite lookup_seqZ_ge by lia. done.
Qed.

Lemma insert_nth_lookup {A} (l : list A) i x (k : nat) :
  0 <= i <= zlen l ->
  insert_nth i x l !! k =
    if decide (Z.of_nat k < i) then l !! k else if decide (Z.of_nat k = i) then Some x else l !! (k - 1)%nat.
Proof.
  intros Hi. assert (length (ztake i l) = Z.to_nat i) as L by (pose proof (zlen_ztake i l) as E; unfold zlen in *; lia).
  unfold insert_nth. case_decide; [|case_decide].
  - rewrite lookup_app_l by lia. unfold ztake. by rewrite lookup_take_lt by lia.
  - rewrite lookup_app_r by lia. rewrite L. by replace (k - Z.to_nat i)%nat with 0%nat by lia.
  - rewrite lookup_app_r by lia. rewrite L. replace (k - Z.to_nat i)%nat with (S (k - 1 - Z.to_nat i)) by lia.
    rewrite lookup_cons. unfold zdrop. rewrite lookup_drop. f_equal. lia.
Qed.

Lemma zlen_entries block : node block -> zlen (entries ks vs block) = nkeys (header_fields block).
Proof.
  intros Hn. unfold entries, zlen. rewrite length_map, length_seqZ. pose proof (gm_nkeys _ _ (node_geometry _ Hn)). lia.
Qed.

(** What the writes of an insertion do to the table. *)
Lemma table_grows block b' ia kh vh key value :
  leaf_ok ks vs block -> below ks block (nkeys (header_fields block)) kh vh -> zlen key = ks -> zlen value = vs ->
  let h := header_fields block in
  let h' := header_fields b' in
  0 <= ia <= nkeys h -> key_base h + kh + ks <= value_end h - (vh + vs) ->
  node b' -> nkeys h' = nkeys h + 1 -> toc h' = toc h -> key_base h' = key_base h -> value_end h' = value_end h ->
  (forall j, 0 <= j < ia -> key_off_at b' h j = key_off_at block h j /\ value_off_at b' h j = value_off_at block h j) ->
  key_off_at b' h ia = kh -> value_off_at b' h ia = vh + vs ->
  (forall j, ia <= j < nkeys h -> key_off_at b' h (j + 1) = key_off_at block h j /\
                                  value_off_at b' h (j + 1) = value_off_at block h j) ->
  (forall ko, 0 <= ko -> ko + ks <= kh -> get b' (key_base h + ko) ks = get block (key_base h + ko) ks) ->
  (forall vo, vs <= vo <= vh -> get b' (value_end h - vo) vs = get block (value_end h - vo) vs) ->
  get b' (key_base h + kh) ks = key -> get b' (value_end h - (vh + vs)) vs = value ->
  leaf_ok ks vs b' /\ entries ks vs b' = insert_nth ia (key, value) (entries ks vs block).
Proof.
  intros Hl (Hk0 & Hv0 & Hbelow) Lk Lv h h' Hia Hfit Hn EN ET EK EV Lo Mk Mv Hi GK GV Nk Nv.
  assert (forall j, key_off_at b' h' j = key_off_at b' h j /\ value_off_at b' h' j = value_off_at b' h j) as EO
    by (intros j; unfold key_off_at, value_off_at; by rewrite ET).
  assert (forall j, 0 <= j < nkeys h -> 0 <= key_off_at block h j /\ fits h ks vs (key_off_at block h j) (value_off_at block h j)
    /\ key_off_at block h j + ks <= kh /\ value_off_at block h j <= vh) as Old.
  { intros j Hj. pose proof (node_geometry _ (lf_node _ _ _ Hl)) as G. fold h in G, Hbelow.
    destruct (offs_bound block h j (nd_bytes _ (lf_node _ _ _ Hl))) as [? ?]; [destruct G; lia..|].
    destruct (Hbelow j Hj). split_and!; [lia|by apply (lf_fits _ _ _ Hl)|lia|lia]. }
  assert (forall j, 0 <= j < nkeys h -> forall i, key_off_at b' h i = key_off_at block h j ->
    value_off_at b' h i = value_off_at block h j -> entry_at b' h' ks vs i = entry_at block h ks vs j) as Same.
  { intros j Hj i E1 E2. destruct (Old j Hj) as (? & (? & ? & ?) & ? & ?). unfold entry_at.
    destruct (EO i) as [-> ->]. rewrite E1, E2, EK, EV. f_equal; [apply GK|apply GV]; lia. }
  assert (forall i, 0 <= i < nkeys h' ->
    (i = ia /\ key_off_at b' h' i = kh /\ value_off_at b' h' i = vh + vs) \/
    (i <> ia /\ exists j, 0 <= j < nkeys h /\ j = (if decide (i < ia) then i else i - 1) /\
       key_off_at b' h' i = key_off_at block h j /\ value_off_at b' h' i = value_off_at block h j)) as Cases.
  { intros i Hi'. destruct (EO i) as [-> ->]. destruct (decide (i = ia)) as [->|Ne]; [by left|right].
    split; [done|]. destruct (decide (i < ia)).
    - exists i. destruct (Lo i) as [? ?]; [lia|]. split_and!; [lia|lia|done..].
    - exists (i - 1). destruct (Hi (i - 1)) as [E1 E2]; [lia|]. rewrite Z.sub_add in E1, E2. split_and!; [lia|lia|done..]. }
  split.
  - constructor; [done| |].
    2: { unfold apart. fold h'. rewrite EK, EV. intros i j Hi' Hj'. pose proof (lf_apart _ _ _ Hl) as Ap. unfold apart in Ap. fold h in Ap.
      destruct (Cases i Hi') as [(Ei & K1 & V1)|(Ni & i' & Ri & Di & K1 & V1)],
        (Cases j Hj') as [(Ej & K2 & V2)|(Nj & j' & Rj & Dj & K2 & V2)]; rewrite K1, V1, V2.
      - split; [lia|congruence].
      - destruct (Old j' Rj) as (? & (? & ? & ?) & ? & ?). split; lia.
      - destruct (Old i' Ri) as (? & (? & ? & ?) & ? & ?). split; lia.
      - destruct (Ap i' j' Ri Rj) as [A1 A2]. split; [done|]. intros Ne. apply A2. subst i' j'. repeat case_decide; lia. }
    fold h'. intros i Hi'. unfold fits. rewrite EK, EV. destruct (EO i) as [-> ->].
    destruct (decide (i < ia)) as [|]; [|destruct (decide (i = ia)) as [->|]].
    + destruct (Lo i) as [-> ->]; [lia|]. apply Old. lia.
    + rewrite Mk, Mv. lia.
    + destruct (Hi (i - 1)) as [E1 E2]; [lia|]. rewrite Z.sub_add in E1, E2. rewrite E1, E2. apply Old. lia.
  - apply list_eq. intros k. rewrite insert_nth_lookup by (rewrite zlen_entries by apply Hl; done).
    rewrite !entries_lookup. fold h h'. rewrite EN.
    destruct (decide (Z.of_nat k < ia)); [|destruct (decide (Z.of_nat k = ia)) as [Ek|]].
    + rewrite !decide_True by lia. f_equal. apply Same; [lia|apply Lo; lia..].
    + rewrite decide_True by lia. f_equal. unfold entry_at. rewrite Ek. destruct (EO ia) as [-> ->]. by rewrite Mk, Mv, EK, EV, Nk, Nv.
    + destruct (decide (Z.of_nat k < nkeys h + 1)).
      * rewrite decide_True by lia. f_equal. apply Same; [lia|..];
          destruct (Hi (Z.of_nat (k - 1))) as [E1 E2]; try lia;
          replace (Z.of_nat (k - 1) + 1) with (Z.of_nat k) in E1, E2 by lia; done.
      * rewrite decide_False by lia. done.
Qed.

Context (compare : bytes -> bytes -> res BtreeError comparison) (cmp : bytes -> bytes -> comparison).
Context (Hcmp : forall a b, zlen a = ks -> zlen b = ks -> compare a b = Ok (cmp a b)).

(** The writes of an insertion at [ia], once the place is known. *)
Lemma write_record block ia kh vh key value xid :
  leaf_ok ks vs block -> below ks block (nkeys (header_fields block)) kh vh ->
  zlen key = ks -> zlen value = vs -> is_bytes key -> is_bytes value ->
  let h := header_fields block in
  0 <= ia <= nkeys h -> key_base h + kh + ks <= value_end h - (vh + vs) -> (nkeys h + 1) * 4 <= toc_len h ->
  exists b3,
    (let? block := copy_at block (key_base h + kh) key in
     let? block := copy_at block (value_end h - (vh + vs)) value in
     let? block := shift_toc h ia (Z.to_nat (nkeys h - ia)) block in
     put_toc h ia kh (vh + vs) block) = Ok b3 /\
    zlen b3 = zlen block /\
    let b' := finish_insert h xid (kh + ks) (vh + vs) b3 in
    zlen b' = zlen block /\ leaf_ok ks vs b' /\
    entries ks vs b' = insert_nth ia (key, value) (entries ks vs block).
Proof.
  intros Hl Hbl Lk Lv Bk Bv h Hia Hfit Hroom. pose proof Hl as [Hn _ _]. pose proof Hn as [[Hs1 Hs2] Hby _].
  pose proof (node_geometry _ Hn) as G. fold h in G. pose proof Hbl as (Hk0 & Hv0 & _). unfold NODE_MIN in Hs1.
  pose proof (gm_value_end _ _ G). pose proof (gm_toc _ _ G). pose proof (gm_key_base _ _ G).
  pose proof (gm_toc_len _ _ G). pose proof (gm_nkeys _ _ G).
  rewrite !copy_at_put by range. cbn [res_bind]. rewrite copy_at_put by range. cbn [res_bind].
  set (b2 := put (put block _ key) _ value). assert (zlen b2 = zlen block) as L2 by (unfold b2; range).
  assert (is_bytes b2) as B2 by (unfold b2; repeat apply is_bytes_put; done).
  destruct (shift_toc_spec h ia (Z.to_nat (nkeys h - ia)) b2) as (b3 & -> & L3 & B3 & Fr & Sh); [lia|lia|lia|done|].
  cbn [res_bind]. rewrite put_toc_eq by (unfold_words; lia). eexists. split; [reflexivity|].
  set (b4 := put (put b3 _ _) _ _). assert (zlen b4 = zlen block) as L4 by (unfold b4; range).
  assert (is_bytes b4) as B4 by (unfold b4; repeat apply is_bytes_put; try apply is_bytes_le_bytes; done).
  split; [done|]. cbv zeta.
  destruct (finish_insert_facts h xid (kh + ks) (vh + vs) b4) as (L5 & B5 & Fr5 & G1 & G2 & G3 & G4);
    [by rewrite L4|done|lia|].
  assert (forall lo n, lo + n <= 56 -> 0 <= lo -> 0 <= n -> get b4 lo n = get block lo n) as Low.
  { intros lo n ? ? ?. unfold b4. gets. rewrite Fr by lia. unfold b2. by gets. }
  assert (forall lo n, key_base h <= lo -> 0 <= n -> lo + n <= value_end h ->
    get (finish_insert h xid (kh + ks) (vh + vs) b4) lo n = get b2 lo n) as Data.
  { intros lo n ? ? ?. rewrite Fr5 by lia. unfold b4. gets. apply Fr; lia. }
  set (b' := finish_insert _ _ _ _ _) in *. rewrite L4 in L5. split; [done|].
  rewrite Low in G1, G3, G4 by lia.
  destruct (grown_node block b' Hn L5 B5 G1 G2 G3 G4 Hroom) as (Nb & EN & ET & _ & EK & EV). fold h in EN, ET, EK, EV.
  apply (table_grows block b' ia kh vh key value Hl Hbl Lk Lv); try done; fold h.
  - intros j Hj. unfold key_off_at, value_off_at. rewrite !Fr5 by lia. unfold b4.
    rewrite !get_put_below by range. rewrite !Fr by lia. unfold b2. by rewrite !get_put_below by range.
  - unfold key_off_at. rewrite Fr5 by lia. unfold b4. rewrite get_put_below, get_put_same by range.
    apply le_val_field. cbn [Z.of_nat]. lia.
  - unfold value_off_at. rewrite Fr5 by lia. unfold b4. rewrite get_put_same by range.
    apply le_val_field. cbn [Z.of_nat]. lia.
  - intros j Hj. destruct (Sh j) as [S1 S2]; [lia|]. unfold key_off_at, value_off_at in *. rewrite !Fr5 by lia.
    unfold b4. rewrite !get_put_above by range. rewrite S1, S2. unfold b2. by rewrite !get_put_below by range.
  - intros ko ? ?. rewrite Data by lia. unfold b2. by rewrite !get_put_below by range.
  - intros vo ?. rewrite Data by lia. unfold b2. by rewrite !get_put_above by range.
  - rewrite Data by lia. unfold b2. by rewrite get_put_below, get_put_same by range.
  - rewrite Data by lia. unfold b2. by rewrite get_put_same by range.
Qed.

(** The three outcomes of an insertion. *)
Lemma insert_in_spec block key value xid :
  leaf_ok ks vs block -> zlen key = ks -> zlen value = vs -> is_bytes key -> is_bytes value ->
  (insert_in compare key value xid block = Err DuplicateKey /\ exists i, found cmp ks vs block key (inl i)) \/
  (exists i, found cmp ks vs block key (inr i) /\
   ((exists e, insert_in compare key value xid block = Err e /\ room_in ks vs block = Err e) \/
    (exists b', insert_in compare key value xid block = Ok b' /\ room_in ks vs block = Ok tt /\
       zlen b' = zlen block /\ leaf_ok ks vs b' /\
       entries ks vs b' = insert_nth i (key, value) (entries ks vs block)))).
Proof.
  intros Hl Lk Lv Bk Bv. unfold insert_in, room_in. pose proof Hl as [Hn _ _]. rewrite node_decode by done. cbn [res_bind].
  set (h := header_fields block). pose proof (node_geometry _ Hn) as G. fold h in G.
  destruct (scan_spec compare cmp ks vs Hks Hvs Hcmp block key (Z.to_nat (nkeys h)) 0 (nkeys h) 0 0 Hl Lk)
    as [[Es Hf]|(ia & kh & vh & Es & Hf & Hbl & Em)];
    [lia|fold h; destruct G; lia|split_and!; [lia..|intros; lia]|right; split; [done|intros; lia]|by left|..];
    rewrite Lv; fold h in Es; rewrite Es; cbn [res_bind].
  { left. by split. }
  right. exists ia. split; [done|]. fold h in Em. rewrite Em. cbn [res_bind]. rewrite Lk.
  destruct Hf as (Hia & _). fold h in Hia. pose proof Hbl as (Hk0 & Hv0 & _).
  destruct (place_spec _ h kh vh ks vs G Hk0 Hv0) as [[e Ep]|(Ep & Hfit & Hroom)]; [lia|lia|rewrite Ep; left; by eauto|].
  rewrite Ep. cbn [res_bind]. right.
  destruct (write_record block ia kh vh key value xid Hl Hbl Lk Lv Bk Bv Hia Hfit Hroom) as (b3 & E3 & L3 & L' & Hl' & Ee).
  fold h in E3, L', Hl', Ee.
  exists (finish_insert h xid (kh + ks) (vh + vs) b3). split_and!; try done.
  rewrite <- (finish_insert_eq h xid (kh + ks) (vh + vs) b3).
  - revert E3. clear. intros E3.
    destruct (copy_at block _ key) as [b1|e|]; cbn [res_bind] in *; try done.
    destruct (copy_at b1 _ value) as [b2|e|]; cbn [res_bind] in *; try done.
    destruct (shift_toc h ia _ b2) as [b4|e|]; cbn [res_bind] in *; try done. by rewrite E3.
  - by rewrite L3.
  - rewrite L3. destruct Hn as [[Hs _] _ _]. exact Hs.
  - lia.
  - lia.
  - lia.
  - done.
Qed.

(** Overwriting the value of an entry changes that value and nothing else. *)
Lemma overwrite_in_spec block i value xid :
  leaf_ok ks vs block -> zlen value = vs -> is_bytes value -> 0 <= i < nkeys (header_fields block) ->
  exists b', overwrite_in i ks value xid block = Ok b' /\ zlen b' = zlen block /\ leaf_ok ks vs b' /\
    entries ks vs b' = <[Z.to_nat i := (key_at ks vs block i, value)]> (entries ks vs block).
Proof.
  intros Hl Lv Bv Hi. pose proof Hl as [Hn _ _]. pose proof Hn as [[Hs1 Hs2] Hby Hok].
  unfold overwrite_in. rewrite node_decode by done. cbn [res_bind].
  set (h := header_fields block). pose proof (node_geometry _ Hn) as G. fold h in G.
  assert (nkeys h <=? i = false) as -> by (apply Z.leb_gt; unfold h; lia). rewrite Lv.
  destruct (entry_ranges_ok ks vs block i Hl Hks Hvs Hi) as (E & _ & _). fold h in E. rewrite E. cbn [res_bind fst snd].
  destruct (lf_fits _ _ _ Hl i Hi) as (F1 & F2 & F3). fold h in F1, F2, F3.
  pose proof (gm_value_end _ _ G). pose proof (gm_toc _ _ G). pose proof (gm_key_base _ _ G).
  pose proof (gm_toc_len _ _ G). pose proof (gm_nkeys _ _ G). unfold NODE_MIN in Hs1.
  set (vo := value_off_at block h i) in *.
  rewrite copy_at_put by range. cbn [res_bind]. offsets. rewrite copy_at_put by range. eexists. split; [reflexivity|].
  set (b' := put (put _ _ _) _ _). assert (zlen b' = zlen block) as L' by (unfold b'; range). split; [done|].
  assert (is_bytes b') as B' by (unfold b'; repeat apply is_bytes_put; try apply is_bytes_le_bytes; done).
  assert (forall lo n, 24 <= lo -> 0 <= n -> lo + n <= value_end h - vo \/ value_end h - vo + vs <= lo ->
    get b' lo n = get block lo n) as Fr by (intros lo n ? ? Hd; unfold b'; destruct Hd; by gets).
  assert (header_fields b' = h) as Eh by (unfold h, header_fields; rewrite L'; by rewrite !Fr by lia).
  assert (forall j, 0 <= j < nkeys h -> key_off_at b' h j = key_off_at block h j /\ value_off_at b' h j = value_off_at block h j) as Offs
    by (intros j Hj; unfold key_off_at, value_off_at; by rewrite !Fr by lia).
  pose proof (lf_apart _ _ _ Hl) as Ap. unfold apart in Ap. fold h in Ap.
  assert (forall j, 0 <= j < nkeys h -> entry_at b' h ks vs j =
    if decide (j = i) then (key_at ks vs block i, value) else entry_at block h ks vs j) as Ents.
  { intros j Hj. destruct (lf_fits _ _ _ Hl j Hj) as (F1' & F2' & F3'). fold h in F1', F2', F3'.
    destruct (offs_bound block h j Hby) as [B1 B2]; [lia..|]. destruct (Ap j i Hj Hi) as [A1 A2]. fold vo in A1, A2.
    unfold entry_at. destruct (Offs j Hj) as [-> ->]. rewrite Fr by lia. case_decide as Hji.
    - subst j. unfold key_at, entry_at. cbn [fst]. fold h vo. f_equal. unfold b'. by gets.
    - f_equal. rewrite Fr by lia. done. }
  split.
  - constructor.
    + constructor; [by rewrite L'|done|]. unfold header_ok. rewrite Eh. rewrite !Fr by lia. exact Hok.
    + rewrite Eh. intros j Hj. destruct (Offs j Hj) as [-> ->]. by apply (lf_fits _ _ _ Hl).
    + unfold apart. rewrite Eh. intros a b Ha Hb. destruct (Offs a Ha) as [-> ->], (Offs b Hb) as [_ ->]. by apply Ap.
  - apply list_eq. intros k. rewrite entries_lookup, Eh. destruct (decide (k = Z.to_nat i)) as [->|Ne].
    + rewrite list_lookup_insert_eq.
      * rewrite decide_True by (unfold h; lia). rewrite Ents by (unfold h; lia). by rewrite decide_True by lia.
      * pose proof (zlen_entries block Hn) as Z. fold h in Z. unfold zlen in Z. unfold h in Z. lia.
    + rewrite list_lookup_insert_ne by done. rewrite entries_lookup. fold h. case_decide; [|done].
      rewrite Ents by lia. by rewrite decide_False by lia.
Qed.

Lemma value_in_spec block i :
  leaf_ok ks vs block -> 0 <= i < nkeys (header_fields block) ->
  value_in block i ks vs = Ok (entry_at block (header_fields block) ks vs i).2.
Proof.
  intros Hl Hi. unfold value_in. rewrite node_decode by apply Hl. cbn [res_bind].
  rewrite (proj2 (Z.leb_gt _ _)) by lia. destruct (entry_ranges_ok ks vs block i Hl Hks Hvs Hi) as (-> & _ & E).
  cbn [res_bind fst snd]. exact E.
Qed.
End Insert.

(** ** Leaves on a disc *)

(** The checksum is outside everything a leaf reads. *)
Lemma seal_leaf ks vs block c :
  leaf_ok ks vs block ->
  leaf_ok ks vs (put block 0 (le_bytes 8 c)) /\ entries ks vs (put block 0 (le_bytes 8 c)) = entries ks vs block.
Proof.
  intros Hl. pose proof Hl as [Hn Hf Ha]. pose proof Hn as [[Hs1 Hs2] Hby Hok]. unfold NODE_MIN in Hs1.
  pose proof (node_geometry _ Hn) as G. set (b' := put _ _ _).
  assert (zlen b' = zlen block) as L by (unfold b'; range).
  assert (forall lo n, 8 <= lo -> get b' lo n = get block lo n) as Fr
    by (intros; unfold b'; by rewrite get_put_above by range).
  assert (header_fields b' = header_fields block) as Eh by (unfold header_fields; rewrite L; by rewrite !Fr by lia).
  set (h := header_fields block) in *.
  pose proof (gm_value_end _ _ G). pose proof (gm_toc _ _ G). pose proof (gm_key_base _ _ G). pose proof (gm_toc_len _ _ G).
  assert (forall j, 0 <= j -> key_off_at b' h j = key_off_at block h j /\ value_off_at b' h j = value_off_at block h j) as Offs
    by (intros j Hj; unfold key_off_at, value_off_at; by rewrite !Fr by lia).
  split.
  - constructor.
    + constructor; [by rewrite L|unfold b'; apply is_bytes_put; [done|apply is_bytes_le_bytes]|].
      unfold header_ok. rewrite Eh, Fr by lia. exact Hok.
    + rewrite Eh. intros j Hj. destruct (Offs j) as [-> ->]; [lia|]. by apply Hf.
    + unfold apart in *. rewrite Eh. fold h in Ha. intros i j Hi Hj. destruct (Offs i) as [-> ->]; [lia|].
      destruct (Offs j) as [_ ->]; [lia|]. by apply Ha.
  - apply list_eq. intros k. rewrite !entries_lookup, Eh. fold h. case_decide as Hk; [|done]. f_equal.
    destruct (Hf (Z.of_nat k)) as (F1 & F2 & F3); [lia|]. destruct (offs_bound block h (Z.of_nat k) Hby) as [B1 B2]; [destruct G; lia..|].
    unfold entry_at. destruct (Offs (Z.of_nat k)) as [-> ->]; [lia|]. by rewrite !Fr by lia.
Qed.

Section OnLawfulDisc.
Context {D : Type} `{LawfulImage D}.
Context (ks vs : Z) (Hks : 0 <= ks < 2 ^ 16) (Hvs : 0 <= vs < 2 ^ 16).
Context (compare : bytes -> bytes -> res BtreeError comparison) (cmp : bytes -> bytes -> comparison).
Context (Hcmp : forall a b, zlen a = ks -> zlen b = ks -> compare a b = Ok (cmp a b)).

(** A session with a leaf at [root]. *)
Record leaf_at (s : RepairSession D) (root : Z) : Prop := {
  la_session : session_ok s;
  la_root : 0 <= root < block_count s;
  la_leaf : leaf_ok ks vs (block_at s root);
}.

(** Read-only operations. *)
Lemma with_block_spec {A} (f : bytes -> res BtreeError A) s root s' r :
  leaf_at s root -> with_block root f s = (s', r) ->
  leaf_at s' root /\ same_shape s s' /\ same_blocks s s' /\ (r = f (block_at s root) \/ exists e, r = Err (Disc e)).
Proof.
  intros [Hs Hr Hl]. unfold with_block, iobind, io_map_err, lift.
  destruct (read_block root (block_size s) s) as [s1 r1] eqn:R.
  apply read_block_spec in R as (Hs1 & Hsh & Hsb & Np & Hb); [|done|done].
  assert (leaf_at s1 root) as L1.
  { destruct Hsh as (? & ? & ?). constructor; [done|lia|]. by rewrite Hsb. }
  destruct r1 as [b|e|]; cbn [map_err]; intros [= <- <-]; split_and!; try done.
  - left. by rewrite (Hb b eq_refl).
  - right. by eauto.
Qed.

(** Writes: either the disc failed, or the mutation did and nothing changed,
    or the sealed result is in place. *)
Lemma mutate_spec mutate s root s' r :
  leaf_at s root ->
  (forall b', mutate (block_at s root) = Ok b' -> zlen b' = zlen (block_at s root) /\ leaf_ok ks vs b') ->
  mutate (block_at s root) <> Panic ->
  io_map_err from_rmw (read_modify_write root mutate) s = (s', r) ->
  session_ok s' /\ same_shape s s' /\
  ((exists e, r = Err (Disc e)) \/
   (exists e, mutate (block_at s root) = Err e /\ r = Err e /\ same_blocks s s') \/
   (exists b', mutate (block_at s root) = Ok b' /\ r = Ok tt /\ leaf_at s' root /\
      entries ks vs (block_at s' root) = entries ks vs b' /\
      (block_size s mod 4 = 0 -> fletcher64_valid (block_at s' root) = true) /\
      forall q, 0 <= q < block_count s -> q <> root -> block_at s' q = block_at s q)).
Proof.
  intros [Hs Hr Hl] Hm Hp. unfold io_map_err. destruct (read_modify_write root mutate s) as [s1 r1] eqn:R.
  apply rmw_spec in R as (Hs1 & Hsh & Hc).
  - intros [= <- <-]. split; [done|]. split; [done|]. destruct r1 as [[]|[e|e]|]; cbn [map_err from_rmw].
    + destruct Hc as (b' & c & Em & Eb & Hv & Hq). right; right. exists b'. destruct (Hm b' Em) as [Lb Hlb].
      destruct (seal_leaf ks vs b' c Hlb) as [Hl' Ee]. rewrite Eb in *. split_and!; try done.
      destruct Hsh as (? & ? & ?). constructor; [done|lia|by rewrite Eb].
    + left. by eauto.
    + destruct Hc as [Em Hsb]. right; left. by eauto.
    + done.
  - done.
  - done.
  - pose proof (nd_size _ (lf_node _ _ _ Hl)) as [Hn _]. rewrite zlen_block_at in Hn by done. unfold NODE_MIN in Hn. lia.
  - intros b' Em. destruct (Hm b' Em) as [Lb Hlb]. rewrite zlen_block_at in Lb by done. split; [done|]. apply (nd_bytes _ (lf_node _ _ _ Hlb)).
Qed.
End OnLawfulDisc.

(** *** The property of insertion *)

(** C37. Inserting into a leaf, over any lawful disc and for any total
    comparison: either the disc failed, or the key was there already, or
    there is no room (exactly as [ensure_insert_room] reports it) and no
    block changed, or the leaf's table is the old one with the new record at
    the first place whose key is larger; the node is a well-formed leaf
    again, its checksum is valid, and no other block changed.  It never
    panics. *)
Theorem insert_leaf_exact {D} `{LawfulImage D} ks vs compare cmp (s s' : RepairSession D) root key value xid r :
  0 <= ks < 2 ^ 16 -> 0 <= vs < 2 ^ 16 ->
  (forall a b, zlen a = ks -> zlen b = ks -> compare a b = Ok (cmp a b)) ->
  leaf_at ks vs s root -> zlen key = ks -> zlen value = vs -> is_bytes key -> is_bytes value ->
  insert_leaf compare root key value xid s = (s', r) ->
  session_ok s' /\
  ((exists e, r = Err (Disc e)) \/
   (r = Err DuplicateKey /\ same_blocks s s' /\ exists i, found cmp ks vs (block_at s root) key (inl i)) \/
   (exists e, r = Err e /\ room_in ks vs (block_at s root) = Err e /\ same_blocks s s') \/
   (exists i, r = Ok tt /\ found cmp ks vs (block_at s root) key (inr i) /\ leaf_at ks vs s' root /\
      entries ks vs (block_at s' root) = insert_nth i (key, value) (entries ks vs (block_at s root)) /\
      (block_size s mod 4 = 0 -> fletcher64_valid (block_at s' root) = true) /\
      forall q, 0 <= q < block_count s -> q <> root -> block_at s' q = block_at s q)).
Proof.
  intros Hks Hvs Hcmp Hla Lk Lv Bk Bv R.
  pose proof (insert_in_spec ks vs Hks Hvs compare cmp Hcmp (block_at s root) key value xid (la_leaf _ _ _ _ Hla) Lk Lv Bk Bv) as Hi.
  apply (mutate_spec ks vs) in R as (Hs' & Hsh & Hc); [|done| |].
  - split; [done|]. destruct Hc as [Hc|[(e & Em & -> & Hsb)|(b' & Em & -> & Hla' & Ee & Hv & Hq)]]; [by left|..].
    + rewrite Em in Hi. destruct Hi as [([= ->] & Hf)|(i & Hf & [(e' & [= <-] & Er)|(b' & [=] & _)])].
      * right; left. by split_and!.
      * right; right; left. by eauto.
    + rewrite Em in Hi. destruct Hi as [([=] & _)|(i & Hf & [(e' & [=] & _)|(b2 & [= <-] & _ & _ & _ & Ei)])].
      right; right; right. exists i. rewrite Ee, Ei. by split_and!.
  - intros b' Em. rewrite Em in Hi. destruct Hi as [([=] & _)|(i & Hf & [(e' & [=] & _)|(b2 & [= <-] & _ & ? & ? & _)])]. done.
  - intros Em. rewrite Em in Hi. destruct Hi as [([=] & _)|(i & Hf & [(e' & [=] & _)|(b2 & [=] & _)])].
Qed.

(** *** A concrete leaf: one record, room for three more *)

Definition sample_leaf : bytes :=
  zeros 32 ++ le_bytes 2 7 ++ le_bytes 2 0 ++ le_bytes 4 1 ++ le_bytes 2 0 ++ le_bytes 2 16 ++ le_bytes 2 16 ++
  le_bytes 2 112 ++ le_bytes 2 65535 ++ le_bytes 2 0 ++ le_bytes 2 65535 ++ le_bytes 2 0 ++
  le_bytes 2 0 ++ le_bytes 2 16 ++ zeros 12 ++ le_bytes 8 5 ++ le_bytes 8 1 ++ zeros 112 ++
  le_bytes 4 0 ++ le_bytes 4 256 ++ le_bytes 8 99 ++ zeros 40.

Definition sample_disc : RepairSession MemoryImage :=
  new_session {| image_bytes := zeros 256 ++ sample_leaf ++ zeros 256 |} 0 256 3.

Lemma sample_block : block_at sample_disc 1 = sample_leaf.
Proof. vm_compute. reflexivity. Qed.

Lemma sample_leaf_ok : leaf_ok 16 16 sample_leaf.
Proof.
  assert (nkeys (header_fields sample_leaf) = 1) as En by (vm_compute; reflexivity).
  constructor.
  - constructor; [split; by_compute|apply is_bytes_forallb; vm_compute; reflexivity|].
    unfold header_ok. split_and!; by_compute.
  - rewrite En. intros i Hi. assert (i = 0) as -> by lia. unfold fits. split_and!; by_compute.
  - unfold apart. rewrite En. intros i j Hi Hj. assert (i = 0) as -> by lia. assert (j = 0) as -> by lia.
    split; [by_compute|done].
Qed.

Lemma sample_session_ok : session_ok sample_disc.
Proof. constructor; [apply is_bytes_forallb; vm_compute; reflexivity|by_compute..]. Qed.

Lemma sample_leaf_at : leaf_at 16 16 sample_disc 1.
Proof. constructor; [exact sample_session_ok|split; by_compute|]. rewrite sample_block. exact sample_leaf_ok. Qed.

Definition le_compare (a b : bytes) : res BtreeError comparison := Ok (Z.compare (le_val a) (le_val b)).

Lemma insert_leaf_exact_witness :
  exists s' i, insert_leaf le_compare 1 (le_bytes 8 3 ++ le_bytes 8 1) (zeros 16) 4 sample_disc = (s', Ok tt) /\
    entries 16 16 (block_at s' 1) = insert_nth i (le_bytes 8 3 ++ le_bytes 8 1, zeros 16) (entries 16 16 (block_at sample_disc 1)).
Proof.
  destruct (insert_leaf le_compare 1 (le_bytes 8 3 ++ le_bytes 8 1) (zeros 16) 4 sample_disc) as [s' r] eqn:R.
  assert (r = Ok tt) as Hr by (apply (f_equal snd) in R; vm_compute in R; by rewrite <- R).
  destruct (insert_leaf_exact 16 16 le_compare (fun a b => Z.compare (le_val a) (le_val b)) sample_disc s' 1
    (le_bytes 8 3 ++ le_bytes 8 1) (zeros 16) 4 r) as (_ & Hc);
    [split; by_compute|split; by_compute|by intros|exact sample_leaf_at|by_compute|by_compute
    |apply is_bytes_forallb; vm_compute; reflexivity|apply is_bytes_zeros|exact R|].
  destruct Hc as [[e E]|[(E & _)|[(e & E & _)|(i & _ & _ & _ & Ee & _)]]]; [congruence|congruence|congruence|].
  exists s', i. rewrite Hr. split; [done|]. exact Ee.
Defined.
