(* ===== verification/Omap.v ===== *)
(** * The object map (src/src/repair_writer/omap.rs)

    A leaf of 16-byte keys (object id, transaction id) and 16-byte values
    (flags, size, physical address), used as a finite map from keys to
    addresses.  The abstraction reads the leaf's table; lookup and upsert
    refine lookup and insert of a [gmap]. *)

From S2P Require Import Prelude ApfsObject Btree.
From stdpp Require Import base tactics numbers list strings gmap sorting.
From Stdlib Require Import ZArith Lia.

Open Scope Z_scope.

Definition KEY_BYTES : Z := 16.
Definition VALUE_BYTES : Z := 16.

Definition key_bytes {E} (oid xid : Z) : res E bytes :=
  let key := zeros KEY_BYTES in
  let? key := copy_at key 0 (le_bytes 8 oid) in
  copy_at key 8 (le_bytes 8 xid).

Definition value_bytes {E} (paddr block_size : Z) : res E bytes :=
  let value := zeros VALUE_BYTES in
  let? value := copy_at value 0 (le_bytes 4 0) in
  let? value := copy_at value 4 (le_bytes 4 block_size) in
  copy_at value 8 (le_bytes 8 paddr).

(** [Ord] on pairs. *)
Definition pair_compare (a b : Z * Z) : comparison :=
  match Z.compare a.1 b.1 with
  | Eq => Z.compare a.2 b.2
  | c => c
  end.

Definition compare_keys (a b : bytes) : res BtreeError comparison :=
  let? a_oid := slice a 0 8 in
  let? a_xid := slice a 8 16 in
  let? b_oid := slice b 0 8 in
  let? b_xid := slice b 8 16 in
  Ok (pair_compare (le_val a_oid, le_val a_xid) (le_val b_oid, le_val b_xid)).

Section Operations.
Context {D : Type} `{ImageIo D}.

Definition ensure_upsertable (root oid xid : Z) : io D BtreeError unit :=
  do key <- lift (key_bytes oid xid);
  do found <- find_entry compare_keys root key VALUE_BYTES;
  match found with
  | inl _ => lift (Ok tt)
  | inr _ => ensure_insert_room root KEY_BYTES VALUE_BYTES
  end.

Definition upsert (root oid xid paddr node_xid : Z) : io D BtreeError unit := fun s =>
  (do key <- lift (key_bytes oid xid);
   do value <- lift (value_bytes paddr (block_size s));
   do found <- find_entry compare_keys root key VALUE_BYTES;
   match found with
   | inl index => overwrite_value root index KEY_BYTES value node_xid
   | inr _ => insert_leaf compare_keys root key value node_xid
   end) s.

Definition lookup (root oid xid : Z) : io D BtreeError (option Z) :=
  do key <- lift (key_bytes oid xid);
  do found <- find_entry compare_keys root key VALUE_BYTES;
  match found with
  | inr _ => lift (Ok None)
  | inl index =>
      do value <- value_at root index KEY_BYTES VALUE_BYTES;
      do address <- lift (slice value 8 16);
      lift (Ok (Some (le_val address)))
  end.
End Operations.

(** ** Abstraction *)

Definition key_of (k : bytes) : Z * Z := (le_val (get k 0 8), le_val (get k 8 8)).
Definition address_of (v : bytes) : Z := le_val (get v 8 8).
Definition table (block : bytes) : list ((Z * Z) * Z) :=
  map (fun e => (key_of e.1, address_of e.2)) (entries 16 16 block).

Definition key_lt (a b : Z * Z) : Prop := pair_compare a b = Lt.

Definition omap_view (block : bytes) : gmap (Z * Z) Z := list_to_map (table block).

Definition cmp_keys (a b : bytes) : comparison := pair_compare (key_of a) (key_of b).

Lemma compare_keys_eq a b : zlen a = 16 -> zlen b = 16 -> compare_keys a b = Ok (cmp_keys a b).
Proof. intros La Lb. unfold compare_keys. by rewrite !slice_ok by lia. Qed.

Lemma pair_compare_spec a b :
  (pair_compare a b = Eq <-> a = b) /\ (pair_compare a b = Gt <-> pair_compare b a = Lt).
Proof.
  destruct a as [a1 a2], b as [b1 b2]. unfold pair_compare. cbn [fst snd].
  rewrite (Z.compare_antisym a1 b1), (Z.compare_antisym a2 b2).
  destruct (a1 ?= b1) eqn:C1; cbn [CompOpp]; [|split; [split; [done|intros [= -> ->]; by rewrite Z.compare_refl in C1]|done]..].
  apply Z.compare_eq_iff in C1 as ->. destruct (a2 ?= b2) eqn:C2; cbn [CompOpp];
    [apply Z.compare_eq_iff in C2 as ->; done|split; [split; [done|intros [= ->]; by rewrite Z.compare_refl in C2]|done]..].
Qed.

#[export] Instance key_lt_trans : Transitive key_lt.
Proof.
  intros [a1 a2] [b1 b2] [c1 c2]. unfold key_lt, pair_compare. cbn [fst snd].
  destruct (Z.compare_spec a1 b1), (Z.compare_spec b1 c1), (Z.compare_spec a1 c1); try done; try lia; intros; subst; try lia;
    rewrite ?Z.compare_lt_iff in *; try done; lia.
Qed.

#[export] Instance key_lt_irrefl : Irreflexive key_lt.
Proof. intros [a1 a2]. unfold complement, key_lt, pair_compare. cbn. by rewrite !Z.compare_refl. Qed.

(** ** Keys and values *)

Lemma key_bytes_ok {E} oid xid :
  u64 oid -> u64 xid ->
  exists key, key_bytes (E := E) oid xid = Ok key /\ zlen key = 16 /\ is_bytes key /\ key_of key = (oid, xid).
Proof.
  intros Ho Hx. unfold key_bytes, KEY_BYTES. rewrite copy_at_put by range. cbn [res_bind].
  rewrite copy_at_put by range. eexists. split; [reflexivity|].
  split_and!; [range|repeat apply is_bytes_put; try apply is_bytes_le_bytes; apply is_bytes_zeros|].
  unfold key_of. rewrite (get_put_below _ 8), !get_put_same by range. by rewrite !le_val_field.
Qed.

Lemma value_bytes_ok {E} paddr size :
  u64 paddr ->
  exists value, value_bytes (E := E) paddr size = Ok value /\ zlen value = 16 /\ is_bytes value /\ address_of value = paddr.
Proof.
  intros Hp. unfold value_bytes, VALUE_BYTES. do 2 (rewrite copy_at_put by range; cbn [res_bind]).
  rewrite copy_at_put by range. eexists. split; [reflexivity|].
  split_and!; [range|repeat apply is_bytes_put; try apply is_bytes_le_bytes; apply is_bytes_zeros|].
  unfold address_of. rewrite get_put_same by range. by rewrite le_val_field.
Qed.

(** ** Sorted tables *)

Section Sorted.
Context {K A : Type} (R : K -> K -> Prop) `{!Transitive R} `{!Irreflexive R}.
Implicit Types l : list (K * A).

Definition sorted l : Prop := StronglySorted R (map fst l).

Lemma sorted_cons k v l : sorted ((k, v) :: l) <-> sorted l /\ forall k' v', (k', v') ∈ l -> R k k'.
Proof.
  unfold sorted. cbn [map fst]. split.
  - intros Hs. apply StronglySorted_inv in Hs as [Hs Hf]. split; [done|]. intros k' v' Hin.
    rewrite Forall_forall in Hf. apply Hf. apply list_elem_of_In, in_map_iff. exists (k', v').
    split; [done|by apply list_elem_of_In].
  - intros [Hs Hf]. constructor; [done|]. apply Forall_forall. intros k' Hk.
    apply list_elem_of_In, in_map_iff in Hk as ([k2 v2] & <- & Hin). apply (Hf k2 v2). by apply list_elem_of_In.
Qed.

Lemma sorted_NoDup l : sorted l -> NoDup (l.*1).
Proof.
  induction l as [|[k v] l IH]; [constructor|]. intros [Hs Hf]%sorted_cons. apply NoDup_cons. split; [|by apply IH].
  intros ([k' v'] & Ek & Hin)%list_elem_of_fmap. cbn in Ek. subst k'. by apply (irreflexivity R k), (Hf k v').
Qed.

(** The place of a key: smaller keys before it, larger ones from it on. *)
Lemma sorted_split l (i : nat) k :
  sorted l -> (forall j k' v', (j < i)%nat -> l !! j = Some (k', v') -> R k' k) ->
  (forall k' v', l !! i = Some (k', v') -> R k k') ->
  (forall k' v', (k', v') ∈ take i l -> R k' k) /\ (forall k' v', (k', v') ∈ drop i l -> R k k').
Proof.
  intros Hs Hb Ha. split.
  - intros k' v' (j & Hj)%list_elem_of_lookup. apply lookup_take_Some in Hj as [Hj Hlt]. by apply (Hb j k' v').
  - intros k' v' Hin. assert (sorted (drop i l)) as Hd.
    { clear -Hs. revert i. induction l as [|[a b] l IH]; intros [|i]; try done. apply sorted_cons in Hs as [Hs _]. by apply IH. }
    destruct (drop i l) as [|[k1 v1] rest] eqn:E; [by apply not_elem_of_nil in Hin|].
    assert (R k k1) as H1 by (apply (Ha k1 v1); rewrite <- (Nat.add_0_r i), <- lookup_drop, E; done).
    apply elem_of_cons in Hin as [[= -> ->]|Hin]; [done|]. apply sorted_cons in Hd as [_ Hd].
    etrans; [exact H1|]. by apply (Hd k' v').
Qed.

Lemma sorted_app l1 l2 :
  sorted l1 -> sorted l2 -> (forall k v k' v', (k, v) ∈ l1 -> (k', v') ∈ l2 -> R k k') -> sorted (l1 ++ l2).
Proof.
  induction l1 as [|[k v] l1 IH]; cbn [app]; [done|]. intros [Hs Hf]%sorted_cons H2 Hx. apply sorted_cons. split.
  - apply IH; [done|done|]. intros; eapply Hx; [by right|done].
  - intros k' v' [Hin|Hin]%elem_of_app; [by eapply Hf|]. eapply Hx; [by left|done].
Qed.

Lemma sorted_take_drop l i : sorted l -> sorted (take i l) /\ sorted (drop i l).
Proof.
  intros Hs. revert i. induction l as [|[k v] l IH]; intros [|i]; cbn [take drop];
    [by split|by split|by split; [constructor|]|].
  apply sorted_cons in Hs as [Hs Hf]. destruct (IH Hs i) as [H1 H2]. split; [|done]. cbn [take]. apply sorted_cons.
  split; [done|]. intros k' v' Hin. apply (Hf k' v'). rewrite <- (take_drop i l). by apply elem_of_app; left.
Qed.

Lemma sorted_insert l i k v :
  sorted l -> (forall k' v', (k', v') ∈ take i l -> R k' k) -> (forall k' v', (k', v') ∈ drop i l -> R k k') ->
  sorted (take i l ++ (k, v) :: drop i l).
Proof.
  intros Hs Hb Ha. destruct (sorted_take_drop l i Hs) as [H1 H2]. apply sorted_app; [done| |].
  - apply sorted_cons. split; [done|exact Ha].
  - intros k1 v1 k2 v2 Hin1 [[= -> ->]|Hin2]%elem_of_cons; [by eapply Hb|].
    etrans; [by eapply Hb|by eapply Ha].
Qed.
End Sorted.

(** ** The table of a leaf *)

Definition table_sorted (block : bytes) : Prop := sorted key_lt (table block).

Lemma table_lookup block (i : Z) :
  leaf_ok 16 16 block -> 0 <= i < nkeys (header_fields block) ->
  table block !! Z.to_nat i =
    Some (key_of (key_at 16 16 block i), address_of (entry_at block (header_fields block) 16 16 i).2).
Proof.
  intros Hl Hi. unfold table. rewrite list_lookup_fmap, entries_lookup, decide_True by lia. cbn. by rewrite Z2Nat.id by lia.
Qed.

Lemma length_table block : leaf_ok 16 16 block -> Z.of_nat (length (table block)) = nkeys (header_fields block).
Proof.
  intros Hl. unfold table. rewrite length_map. by apply (zlen_entries 16 16), Hl.
Qed.

Lemma found_key block key i :
  leaf_ok 16 16 block -> found cmp_keys 16 16 block key (inl i) ->
  0 <= i < nkeys (header_fields block) /\
  table block !! Z.to_nat i = Some (key_of key, address_of (entry_at block (header_fields block) 16 16 i).2) /\
  key_of (key_at 16 16 block i) = key_of key.
Proof.
  intros Hl (Hi & _ & Ec). apply (proj1 (pair_compare_spec _ _)) in Ec. rewrite table_lookup by done. by rewrite Ec.
Qed.

Lemma found_place block key i :
  leaf_ok 16 16 block -> table_sorted block -> found cmp_keys 16 16 block key (inr i) ->
  0 <= i <= Z.of_nat (length (table block)) /\
  (forall k v, (k, v) ∈ take (Z.to_nat i) (table block) -> key_lt k (key_of key)) /\
  (forall k v, (k, v) ∈ drop (Z.to_nat i) (table block) -> key_lt (key_of key) k).
Proof.
  intros Hl Hs (Hi & Hb & Ha). rewrite length_table by done. split; [done|]. apply sorted_split; [apply _|done|..].
  - intros j k v Hj Ej. assert (Z.of_nat j < nkeys (header_fields block)) as Hlt by lia.
    rewrite <- (Nat2Z.id j), table_lookup in Ej by (done || lia). injection Ej as <- _.
    apply (Hb (Z.of_nat j)). lia.
  - intros k v Ei. assert (Z.to_nat i < length (table block))%nat as Hlt by (by eapply lookup_lt_Some).
    pose proof (length_table block Hl). rewrite table_lookup in Ei by (done || lia). injection Ei as <- _.
    apply (proj1 (proj2 (pair_compare_spec _ _))), Ha. lia.
Qed.

Lemma absent block key i :
  leaf_ok 16 16 block -> table_sorted block -> found cmp_keys 16 16 block key (inr i) -> key_of key ∉ (table block).*1.
Proof.
  intros Hl Hs Hf. destruct (found_place block key i Hl Hs Hf) as (_ & H1 & H2).
  intros ([k v] & Ek & Hin)%list_elem_of_fmap. cbn in Ek. subst k.
  rewrite <- (take_drop (Z.to_nat i) (table block)) in Hin. apply elem_of_app in Hin as [Hin|Hin].
  - by apply (irreflexivity key_lt (key_of key)), (H1 _ v).
  - by apply (irreflexivity key_lt (key_of key)), (H2 _ v).
Qed.

Lemma table_insert block b' key value i :
  leaf_ok 16 16 block -> table_sorted block -> found cmp_keys 16 16 block key (inr i) ->
  entries 16 16 b' = insert_nth i (key, value) (entries 16 16 block) ->
  table_sorted b' /\ omap_view b' = <[key_of key := address_of value]> (omap_view block).
Proof.
  intros Hl Hs Hf Ee. destruct (found_place block key i Hl Hs Hf) as (Hi & H1 & H2).
  assert (table b' = take (Z.to_nat i) (table block) ++ (key_of key, address_of value) :: drop (Z.to_nat i) (table block)) as Et.
  { unfold table. rewrite Ee. unfold insert_nth, ztake, zdrop. rewrite map_app. cbn [map]. by rewrite <- firstn_map, <- skipn_map. }
  assert (table_sorted b') as Hs'.
  { unfold table_sorted. rewrite Et. apply sorted_insert; [apply _|done|done|done]. }
  split; [done|]. unfold omap_view. rewrite <- list_to_map_cons. symmetry. apply list_to_map_proper.
  - cbn. apply NoDup_cons. split; [by eapply absent|by eapply sorted_NoDup; [apply _|]].
  - rewrite Et. rewrite <- (take_drop (Z.to_nat i) (table block)) at 1. apply Permutation_middle.
Qed.

Lemma table_overwrite block b' key value i :
  leaf_ok 16 16 block -> table_sorted block -> found cmp_keys 16 16 block key (inl i) ->
  entries 16 16 b' = <[Z.to_nat i := (key_at 16 16 block i, value)]> (entries 16 16 block) ->
  table_sorted b' /\ omap_view b' = <[key_of key := address_of value]> (omap_view block).
Proof.
  intros Hl Hs Hf Ee. destruct (found_key block key i Hl Hf) as (Hi & Hlk & Ek).
  assert (table b' = <[Z.to_nat i := (key_of key, address_of value)]> (table block)) as Et.
  { unfold table. rewrite Ee. rewrite <- Ek. apply (list_fmap_insert (fun e => (key_of e.1, address_of e.2))). }
  assert ((table b').*1 = (table block).*1) as E1.
  { rewrite Et. rewrite list_fmap_insert. cbn. apply list_insert_id. by rewrite list_lookup_fmap, Hlk. }
  assert (table_sorted b') as Hs'.
  { unfold table_sorted, sorted in *. change (map fst (table b')) with ((table b').*1). by rewrite E1. }
  pose proof (sorted_NoDup key_lt _ Hs) as Nd. pose proof (sorted_NoDup key_lt _ Hs') as Nd'.
  split; [done|]. unfold omap_view. apply map_eq. intros k. apply option_eq. intros v.
  rewrite <- elem_of_list_to_map by done. destruct (decide (k = key_of key)) as [->|Ne].
  - rewrite lookup_insert_eq. split.
    + intros Hin. assert ((key_of key, address_of value) ∈ table b') as Hin2.
      { rewrite Et. apply list_elem_of_lookup. exists (Z.to_nat i). apply list_lookup_insert_eq. by eapply lookup_lt_Some. }
      apply elem_of_list_to_map in Hin, Hin2; [|done..]. congruence.
    + intros [= <-]. rewrite Et. apply list_elem_of_lookup. exists (Z.to_nat i). apply list_lookup_insert_eq. by eapply lookup_lt_Some.
  - rewrite lookup_insert_ne by done. rewrite <- elem_of_list_to_map by done. rewrite !list_elem_of_lookup, Et.
    split; intros (j & Hj); exists j; destruct (decide (j = Z.to_nat i)) as [->|].
    + rewrite list_lookup_insert_eq in Hj by (by eapply lookup_lt_Some). congruence.
    + by rewrite list_lookup_insert_ne in Hj by done.
    + congruence.
    + by rewrite list_lookup_insert_ne by done.
Qed.

(** ** Refinement *)

Section Refinement.
Context {D : Type} `{LawfulImage D}.

Record omap_ok (s : RepairSession D) (root : Z) : Prop := {
  om_leaf : leaf_at 16 16 s root;
  om_sorted : table_sorted (block_at s root);
}.

Lemma same_omap s s' root :
  omap_ok s root -> leaf_at 16 16 s' root -> same_blocks s s' -> omap_ok s' root /\ block_at s' root = block_at s root.
Proof.
  intros [Hl Hs] Hl' Hsb. assert (block_at s' root = block_at s root) as E by (apply Hsb, Hl).
  split; [|done]. constructor; [done|by rewrite E].
Qed.

Lemma find_entry_spec s root key s' r :
  omap_ok s root -> zlen key = 16 -> find_entry compare_keys root key VALUE_BYTES s = (s', r) ->
  omap_ok s' root /\ block_at s' root = block_at s root /\ same_shape s s' /\ same_blocks s s' /\
  ((exists e, r = Err (Disc e)) \/ exists x, r = Ok x /\ found cmp_keys 16 16 (block_at s root) key x).
Proof.
  intros Ho Lk R. pose proof Ho as [Hl _]. apply (with_block_spec 16 16) in R as (Hl' & Hsh & Hsb & Hr); [|done].
  destruct (same_omap s s' root Ho Hl' Hsb) as [Ho' Eb]. split_and!; try done.
  destruct Hr as [->|He]; [right|by left]. apply find_in_spec; [done|done|apply compare_keys_eq|apply Hl|done].
Qed.

Lemma found_lookup block key x :
  leaf_ok 16 16 block -> table_sorted block -> found cmp_keys 16 16 block key x ->
  omap_view block !! key_of key =
    match x with inl i => Some (address_of (entry_at block (header_fields block) 16 16 i).2) | inr _ => None end.
Proof.
  intros Hl Hs Hf. pose proof (sorted_NoDup key_lt _ Hs) as Nd. unfold omap_view. destruct x as [i|i].
  - apply elem_of_list_to_map; [done|]. apply list_elem_of_lookup. exists (Z.to_nat i). by apply (found_key block key i).
  - apply not_elem_of_list_to_map. by eapply absent.
Qed.

(** The writing half of [upsert]. *)
Lemma upsert_write s root key value xid x s' r :
  omap_ok s root -> zlen key = 16 -> zlen value = 16 -> is_bytes key -> is_bytes value ->
  found cmp_keys 16 16 (block_at s root) key x ->
  match x with
  | inl index => overwrite_value root index KEY_BYTES value xid
  | inr _ => insert_leaf compare_keys root key value xid
  end s = (s', r) ->
  session_ok s' /\
  ((exists e, r = Err (Disc e)) \/
   (exists e, r = Err e /\ same_blocks s s' /\ (exists i, x = inr i) /\ room_in 16 16 (block_at s root) = Err e) \/
   (r = Ok tt /\ omap_ok s' root /\
    omap_view (block_at s' root) = <[key_of key := address_of value]> (omap_view (block_at s root)) /\
    (block_size s mod 4 = 0 -> fletcher64_valid (block_at s' root) = true) /\
    forall q, 0 <= q < block_count s -> q <> root -> block_at s' q = block_at s q)).
Proof.
  intros [Hl Hs] Lk Lv Bk Bv Hf R. change KEY_BYTES with 16 in R. pose proof (la_leaf _ _ _ _ Hl) as Hlf. destruct x as [i|i].
  - destruct (found_key _ key i Hlf Hf) as (Hi & _ & _).
    destruct (overwrite_in_spec 16 16 ltac:(done) ltac:(done) (block_at s root) i value xid Hlf Lv Bv Hi) as (b' & Eo & Lb & Hlb & Ee).
    apply (mutate_spec 16 16) in R as (Hs' & Hsh & Hc); [|done|by intros b2 Eb2; rewrite Eo in Eb2; injection Eb2 as <-|by rewrite Eo].
    split; [done|]. rewrite Eo in Hc. destruct Hc as [Hc|[(e & [=] & _)|(b2 & [= <-] & -> & Hl' & Ee' & Hv & Hq)]]; [by left|].
    right; right. rewrite Ee in Ee'. destruct (table_overwrite _ _ key value i Hlf Hs Hf Ee') as [Hs2 Hview]. by split_and!.
  - pose proof (insert_in_spec 16 16 ltac:(done) ltac:(done) compare_keys cmp_keys compare_keys_eq
      (block_at s root) key value xid Hlf Lk Lv Bk Bv) as Hi.
    destruct Hi as [(_ & j & Hj)|(j & Hj & Hi)].
    { pose proof (found_lookup _ _ _ Hlf Hs Hf) as E1. pose proof (found_lookup _ _ _ Hlf Hs Hj) as E2. congruence. }
    apply (mutate_spec 16 16) in R as (Hs' & Hsh & Hc); [|done| |].
    + split; [done|]. destruct Hc as [Hc|[(e & Em & -> & Hsb)|(b' & Em & -> & Hl' & Ee & Hv & Hq)]]; [by left|..];
        rewrite Em in Hi; destruct Hi as [(e' & [= <-] & Er)|(b2 & [= <-] & Er & _ & _ & Ei)].
      * right; left. exists e. by eauto.
      * right; right. rewrite Ei in Ee. destruct (table_insert _ _ key value j Hlf Hs Hj Ee) as [Hs2 Hview]. by split_and!.
    + intros b' Em. rewrite Em in Hi. by destruct Hi as [(e' & [=] & Er)|(b2 & [= <-] & Er & ? & ? & Ei)].
    + intros Em. rewrite Em in Hi. by destruct Hi as [(e' & [=] & Er)|(b2 & [=] & _)].
Qed.
End Refinement.

(** C11. The object map is a finite map.  On a sorted, well-formed leaf over
    any lawful disc, [lookup] returns the map's entry and changes nothing;
    [upsert] that succeeds is the map's insertion, leaves a sorted,
    well-formed leaf with a valid checksum, and touches no other block; when
    it fails for another reason than the disc, the key was absent, there was
    no room for it, and nothing changed.  Neither panics. *)
Theorem omap_refines_map {D} `{LawfulImage D} (s : RepairSession D) root oid xid :
  omap_ok s root -> u64 oid -> u64 xid ->
  (forall s' r, lookup root oid xid s = (s', r) ->
     omap_ok s' root /\ same_blocks s s' /\
     ((exists e, r = Err (Disc e)) \/ r = Ok (omap_view (block_at s root) !! (oid, xid)))) /\
  (forall paddr node_xid s' r, u64 paddr -> upsert root oid xid paddr node_xid s = (s', r) ->
     session_ok s' /\
     ((exists e, r = Err (Disc e)) \/
      (exists e, r = Err e /\ same_blocks s s' /\ omap_view (block_at s root) !! (oid, xid) = None /\
         room_in 16 16 (block_at s root) = Err e) \/
      (r = Ok tt /\ omap_ok s' root /\
       omap_view (block_at s' root) = <[(oid, xid) := paddr]> (omap_view (block_at s root)) /\
       (block_size s mod 4 = 0 -> fletcher64_valid (block_at s' root) = true) /\
       forall q, 0 <= q < block_count s -> q <> root -> block_at s' q = block_at s q))).
Proof.
  intros Ho Hoid Hxid. pose proof Ho as [Hl Hs]. pose proof (la_leaf _ _ _ _ Hl) as Hlf.
  destruct (key_bytes_ok (E := BtreeError) oid xid Hoid Hxid) as (key & Ek & Lk & Bk & Vk). split.
  - intros s' r. unfold lookup, iobind, lift. rewrite Ek.
    destruct (find_entry compare_keys root key VALUE_BYTES s) as [s1 r1] eqn:F.
    apply find_entry_spec in F as (Ho1 & Eb1 & Hsh1 & Hsb1 & Hr); [|done|done].
    destruct Hr as [[e ->]|(x & -> & Hf)]; [intros [= <- <-]; split_and!; try done; left; by eauto|].
    pose proof (found_lookup _ key x Hlf Hs Hf) as Ex. rewrite Vk in Ex. destruct x as [i|i].
    + change KEY_BYTES with 16. change VALUE_BYTES with 16. destruct (value_at root i 16 16 s1) as [s2 r2] eqn:V.
      apply (with_block_spec 16 16) in V as (Hl2 & Hsh2 & Hsb2 & Hr2); [|apply Ho1].
      destruct (same_omap s1 s2 root Ho1 Hl2 Hsb2) as [Ho2 _].
      assert (same_blocks s s2) as Hsb by (intros q Hq; rewrite Hsb2 by (destruct Hsh1 as (_ & _ & ->); done); by apply Hsb1).
      destruct Hr2 as [->|[e ->]]; [|intros [= <- <-]; split_and!; try done; left; by eauto].
      destruct (found_key _ key i Hlf Hf) as (Hi & _ & _). rewrite Eb1, value_in_spec by done.
      rewrite slice_ok.
      * intros [= <- <-]. split_and!; [done|done|]. right. by rewrite Ex.
      * lia.
      * destruct (lf_fits _ _ _ Hlf i Hi) as (? & ? & ?). pose proof (node_geometry _ (lf_node _ _ _ Hlf)) as G.
        unfold entry_at. cbn [snd]. rewrite zlen_get; destruct G; lia.
    + intros [= <- <-]. split_and!; [done|done|]. right. by rewrite Ex.
  - intros paddr nx s' r Hp. unfold upsert, iobind, lift. rewrite Ek.
    destruct (value_bytes_ok (E := BtreeError) paddr (block_size s) Hp) as (value & -> & Lv & Bv & Vv).
    destruct (find_entry compare_keys root key VALUE_BYTES s) as [s1 r1] eqn:F.
    apply find_entry_spec in F as (Ho1 & Eb1 & (Hc1 & Hz1 & Hn1) & Hsb1 & Hr); [|done|done].
    destruct Hr as [[e ->]|(x & -> & Hf)]; [intros [= <- <-]; split; [apply Ho1|left; by eauto]|].
    pose proof (found_lookup _ key x Hlf Hs Hf) as Ex. rewrite Vk in Ex. intros W.
    rewrite <- Eb1 in Hf. destruct (upsert_write s1 root key value nx x s' r Ho1 Lk Lv Bk Bv Hf W) as (Hs' & Hc).
    rewrite Eb1, Vk, Vv, Hn1, Hz1 in Hc. split; [done|].
    destruct Hc as [Hc|[(e & -> & Hsb & (i & ->) & Er)|(-> & Ho' & Hview & Hv & Hq)]]; [by left|right; left|right; right].
    + exists e. split_and!; try done. intros q Hq. rewrite Hsb by lia. by apply Hsb1.
    + split_and!; try done. intros q Hqr Ne. rewrite Hq by done. by apply Hsb1.
Qed.

(** [ensure_upsertable] keeps its promise: when it succeeds, an [upsert] of
    the same key from the session it returns succeeds unless the disc fails. *)
Theorem ensure_upsertable_sound {D} `{LawfulImage D} (s s1 : RepairSession D) root oid xid :
  omap_ok s root -> u64 oid -> u64 xid -> ensure_upsertable root oid xid s = (s1, Ok tt) ->
  omap_ok s1 root /\ same_blocks s s1 /\
  forall paddr node_xid s' r, u64 paddr -> upsert root oid xid paddr node_xid s1 = (s', r) ->
    (exists e, r = Err (Disc e)) \/
    (r = Ok tt /\ omap_view (block_at s' root) = <[(oid, xid) := paddr]> (omap_view (block_at s root))).
Proof.
  intros Ho Hoid Hxid. pose proof Ho as [Hl Hs]. pose proof (la_leaf _ _ _ _ Hl) as Hlf.
  destruct (key_bytes_ok (E := BtreeError) oid xid Hoid Hxid) as (key & Ek & Lk & Bk & Vk).
  unfold ensure_upsertable, upsert, iobind, lift. rewrite Ek.
  destruct (find_entry compare_keys root key VALUE_BYTES s) as [s0 r0] eqn:F.
  apply find_entry_spec in F as (Ho0 & Eb0 & Hsh0 & Hsb0 & Hr); [|done|done].
  destruct Hr as [[e ->]|(x & -> & Hf)]; [done|]. intros R.
  assert (omap_ok s1 root /\ same_blocks s s1 /\ block_at s1 root = block_at s root /\
    (forall i, x = inr i -> room_in 16 16 (block_at s root) = Ok tt)) as (Ho1 & Hsb1 & Eb1 & Hroom).
  { destruct x as [i|i]; [injection R as <-; by split_and!|].
    apply (with_block_spec 16 16) in R as (Hl1 & Hsh1 & Hsb1 & Hr1); [|apply Ho0].
    destruct (same_omap s0 s1 root Ho0 Hl1 Hsb1) as [Ho1 Eb1].
    split_and!; [done| |congruence|].
    - intros q Hq. rewrite Hsb1 by (destruct Hsh0 as (_ & _ & ->); done). by apply Hsb0.
    - intros _ _. destruct Hr1 as [Er|[e [=]]]. change KEY_BYTES with 16 in Er. change VALUE_BYTES with 16 in Er.
      by rewrite <- Eb0. }
  split; [done|]. split; [done|]. intros paddr nx s' r Hp.
  destruct (value_bytes_ok (E := BtreeError) paddr (block_size s1) Hp) as (value & -> & Lv & Bv & Vv).
  destruct (find_entry compare_keys root key VALUE_BYTES s1) as [s2 r2] eqn:F.
  apply find_entry_spec in F as (Ho2 & Eb2 & _ & _ & Hr2); [|done|done].
  destruct Hr2 as [[e ->]|(x2 & -> & Hf2)]; [intros [= <- <-]; left; by eauto|]. intros W.
  pose proof (found_lookup _ key x Hlf Hs Hf) as Ex. rewrite Eb1 in Hf2. pose proof (found_lookup _ key x2 Hlf Hs Hf2) as Ex2.
  assert (block_at s2 root = block_at s root) as E2 by congruence. rewrite <- E2 in Hf2.
  destruct (upsert_write s2 root key value nx x2 s' r Ho2 Lk Lv Bk Bv Hf2 W) as (_ & Hc). rewrite E2, Vk, Vv in Hc.
  destruct Hc as [Hc|[(e & _ & _ & (i & ->) & Er)|(-> & _ & Hview & _)]]; [by left| |by right].
  destruct x as [j|j]; [congruence|]. rewrite (Hroom j eq_refl) in Er. done.
Qed.

(** *** A concrete map *)

Lemma sample_omap_ok : omap_ok sample_disc 1.
Proof.
  constructor; [exact sample_leaf_at|]. rewrite sample_block. unfold table_sorted, sorted.
  assert (map fst (table sample_leaf) = [(5, 1)]) as -> by (vm_compute; reflexivity). repeat constructor.
Qed.

Lemma omap_refines_map_witness :
  exists s', upsert 1 7 2 1234 9 sample_disc = (s', Ok tt) /\
    omap_view (block_at s' 1) = <[(7, 2) := 1234]> (omap_view (block_at sample_disc 1)).
Proof.
  destruct (upsert 1 7 2 1234 9 sample_disc) as [s' r] eqn:R.
  assert (r = Ok tt) as Hr by (apply (f_equal snd) in R; vm_compute in R; by rewrite <- R).
  destruct (omap_refines_map sample_disc 1 7 2) as [_ Hu]; [exact sample_omap_ok|split; by_compute|split; by_compute|].
  destruct (Hu 1234 9 s' r) as (_ & [[e E]|[(e & E & _)|(_ & _ & Hv & _)]]); [split; by_compute|exact R|congruence|congruence|].
  exists s'. rewrite Hr. split; [done|]. exact Hv.
Defined.

Lemma ensure_upsertable_sound_witness :
  exists s1, ensure_upsertable 1 7 2 sample_disc = (s1, Ok tt) /\ omap_ok s1 1.
Proof.
  destruct (ensure_upsertable 1 7 2 sample_disc) as [s1 r] eqn:R.
  assert (r = Ok tt) as Hr by (apply (f_equal snd) in R; vm_compute in R; by rewrite <- R).
  rewrite Hr in R.
  destruct (ensure_upsertable_sound sample_disc s1 1 7 2) as (Ho & _);
    [exact sample_omap_ok|split; by_compute|split; by_compute|exact R|].
  exists s1. rewrite Hr. split; [done|exact Ho].
Defined.
