(* ===== verification/Spaceman.v ===== *)
(** * The space manager (src/src/repair_writer/spaceman.rs)

    Which blocks of a container are free is recorded in bitmap blocks, one per
    chunk, described by 32-byte records in chunk-info blocks, listed by the
    space manager block.  Two allocators work on it: one in place on the disc,
    and a private copy that is later written to blocks it allocated itself.
    Both are shown to be the same abstract thing, a list of free addresses in
    disc order, of which allocation takes the head. *)

From S2P Require Import Prelude ApfsObject.
From stdpp Require Import base tactics numbers list strings sorting.
From Stdlib Require Import ZArith Lia.

Open Scope Z_scope.

Definition SM_BLOCK_SIZE_OFFSET : Z := 0x20.
Definition SM_CIB_COUNT_OFFSET : Z := 0x40.
Definition SM_FREE_COUNT_OFFSET : Z := 0x48.
Definition SM_INDIRECT_CIB_OFFSET : Z := 0x44.
Definition SM_CIB_ADDR_OFFSET_OFFSET : Z := 0x50.

Definition CHUNK_INFO_BYTES : Z := 32.
Definition CIB_CHUNK_COUNT_OFFSET : Z := 0x24.
Definition CIB_ARRAY_OFFSET : Z := 0x28.

Inductive SpacemanError :=
| SmDisc (error : DiscError)
| IndirectChunkAddressing
| SmMalformed (reason : string)
| OutOfSpace
| NotAllocated (paddr : Z)
| NoSuchChunk (paddr : Z).

Definition from_rmw (error : ReadModifyWriteError SpacemanError) : SpacemanError :=
  match error with
  | RmwDisc error => SmDisc error
  | Mutation error => error
  end.

(** ** Reading the blocks *)

Fixpoint u64_array {E} (b : bytes) (offset : Z) (n : nat) (index : Z) : res E (list Z) :=
  match n with
  | O => Ok []
  | S n =>
      let? x := u64_at b (offset + index * 8) in
      let? xs := u64_array b offset n (index + 1) in
      Ok (x :: xs)
  end.

Definition cib_addrs_from_block (sm : bytes) : res SpacemanError (list Z) :=
  let? indirect := u32_at sm SM_INDIRECT_CIB_OFFSET in
  if negb (indirect =? 0) then Err IndirectChunkAddressing else
  let? cib_count := u32_at sm SM_CIB_COUNT_OFFSET in
  let? cib_addr_offset := u32_at sm SM_CIB_ADDR_OFFSET_OFFSET in
  if zlen sm <? cib_addr_offset + cib_count * 8
  then Err (SmMalformed "chunk info address array does not fit in the space manager block") else
  u64_array sm cib_addr_offset (Z.to_nat cib_count) 0.

(** ** Bits of a bitmap *)

Definition bit_at {E} (bitmap : bytes) (bit : Z) : res E Z :=
  let? x := index bitmap (Z.shiftr bit 3) in
  Ok (Z.land (Z.shiftr x (Z.land bit 7)) 1).

(** [(bit..bit + n).find(..)]. *)
Fixpoint find_clear {E} (bitmap : bytes) (n : nat) (bit : Z) : res E (option Z) :=
  match n with
  | O => Ok None
  | S n =>
      let? x := bit_at bitmap bit in
      if x =? 0 then Ok (Some bit) else find_clear bitmap n (bit + 1)
  end.

Definition set_bit {E} (bitmap : bytes) (bit : Z) : res E bytes :=
  let? x := index bitmap (Z.shiftr bit 3) in
  copy_at bitmap (Z.shiftr bit 3) [Z.lor x (Z.shiftl 1 (Z.land bit 7))].

Definition clear_bit {E} (bitmap : bytes) (bit : Z) : res E bytes :=
  let? x := index bitmap (Z.shiftr bit 3) in
  copy_at bitmap (Z.shiftr bit 3) [Z.land x (bit_not 8 (Z.shiftl 1 (Z.land bit 7)))].

(** ** Updates of a chunk record and of the free count *)

(** The closure of both read-modify-writes of a chunk-info block. *)
Definition stamp_record {E} (record_at xid new_free : Z) (block : bytes) : res E bytes :=
  let? block := copy_at block record_at (le_bytes 8 xid) in
  copy_at block (record_at + 20) (le_bytes 4 new_free).

Definition decrement_free_count_in (spaceman : bytes) : res SpacemanError bytes :=
  let? current := u64_at spaceman SM_FREE_COUNT_OFFSET in
  let? updated := ok_or (checked_sub current 1) (SmMalformed "space manager free count is already zero") in
  copy_at spaceman SM_FREE_COUNT_OFFSET (le_bytes 8 updated).

Definition increment_free_count_in (block : bytes) : res SpacemanError bytes :=
  let? current := u64_at block SM_FREE_COUNT_OFFSET in
  let? updated := add_or_panic 64 current 1 in
  copy_at block SM_FREE_COUNT_OFFSET (le_bytes 8 updated).

Definition record_at_slot (slot : Z) : Z := CIB_ARRAY_OFFSET + slot * CHUNK_INFO_BYTES.

Definition too_many_chunks : SpacemanError := SmMalformed "chunk info block claims more chunks than it holds".

Lemma bind_ok {D E A B} (a : A) (k : A -> io D E B) : iobind (lift (Ok a)) k = k a.
Proof. done. Qed.

(** ** The allocator on the disc *)

Section OnDisc.
Context {D : Type} `{ImageIo D}.

Definition sm_read (paddr size : Z) : io D SpacemanError bytes := io_map_err SmDisc (read_block paddr size).
Definition sm_write (paddr : Z) (block : bytes) : io D SpacemanError unit := io_map_err SmDisc (write_block paddr block).

Definition read_cib_addrs (spaceman_paddr : Z) : io D SpacemanError (list Z) := fun s =>
  (do sm <- sm_read spaceman_paddr (block_size s);
   lift (cib_addrs_from_block sm)) s.

Definition decrement_free_count (spaceman_paddr : Z) : io D SpacemanError unit :=
  io_map_err from_rmw (read_modify_write spaceman_paddr decrement_free_count_in).

Definition increment_free_count (spaceman_paddr : Z) : io D SpacemanError unit :=
  io_map_err from_rmw (read_modify_write spaceman_paddr increment_free_count_in).

(** The slots of one chunk-info block, [n] of them from [slot]. *)
Fixpoint allocate_slots (size spaceman_paddr xid cib_paddr : Z) (cib : bytes) (n : nat) (slot : Z)
  : io D SpacemanError (option Z) :=
  match n with
  | O => lift (Ok None)
  | S n =>
      let next := allocate_slots size spaceman_paddr xid cib_paddr cib n (slot + 1) in
      let record_at := record_at_slot slot in
      if zlen cib <? record_at + CHUNK_INFO_BYTES then lift (Err too_many_chunks) else
      do chunk_addr <- lift (u64_at cib (record_at + 8));
      do chunk_blocks <- lift (u32_at cib (record_at + 16));
      do bitmap_addr <- lift (u64_at cib (record_at + 24));
      if bitmap_addr =? 0 then next else
      do bitmap <- sm_read bitmap_addr size;
      do found <- lift (find_clear bitmap (Z.to_nat chunk_blocks) 0);
      match found with
      | None => next
      | Some bit =>
          do bitmap <- lift (set_bit bitmap bit);
          do _ <- sm_write bitmap_addr bitmap;
          do recorded_free <- lift (u32_at cib (record_at + 20));
          do new_free <- lift (ok_or (checked_sub recorded_free 1)
                                 (SmMalformed "chunk free count is already zero but a clear bit was found"));
          do _ <- io_map_err from_rmw (read_modify_write cib_paddr (stamp_record record_at xid new_free));
          do _ <- decrement_free_count spaceman_paddr;
          do paddr <- lift (add_or_panic 64 chunk_addr bit);
          lift (Ok (Some paddr))
      end
  end.

Fixpoint allocate_cibs (size spaceman_paddr xid : Z) (cib_addrs : list Z) : io D SpacemanError Z :=
  match cib_addrs with
  | [] => lift (Err OutOfSpace)
  | cib_paddr :: cib_addrs =>
      do cib <- sm_read cib_paddr size;
      do chunks <- lift (u32_at cib CIB_CHUNK_COUNT_OFFSET);
      do found <- allocate_slots size spaceman_paddr xid cib_paddr cib (Z.to_nat chunks) 0;
      match found with
      | Some paddr => lift (Ok paddr)
      | None => allocate_cibs size spaceman_paddr xid cib_addrs
      end
  end.

Definition allocate (spaceman_paddr xid : Z) : io D SpacemanError Z := fun s =>
  let size := block_size s in
  (do cib_addrs <- read_cib_addrs spaceman_paddr;
   allocate_cibs size spaceman_paddr xid cib_addrs) s.

(** [Ok true]: freed; [Ok false]: not in these chunks. *)
Fixpoint free_slots (size spaceman_paddr xid paddr cib_paddr : Z) (cib : bytes) (n : nat) (slot : Z)
  : io D SpacemanError bool :=
  match n with
  | O => lift (Ok false)
  | S n =>
      let next := free_slots size spaceman_paddr xid paddr cib_paddr cib n (slot + 1) in
      let record_at := record_at_slot slot in
      if zlen cib <? record_at + CHUNK_INFO_BYTES then lift (Err too_many_chunks) else
      do chunk_addr <- lift (u64_at cib (record_at + 8));
      do chunk_blocks <- lift (u32_at cib (record_at + 16));
      do outside <- lift (if paddr <? chunk_addr then Ok true else
                          let? fin := add_or_panic 64 chunk_addr chunk_blocks in Ok (fin <=? paddr));
      if outside then next else
      do bitmap_addr <- lift (u64_at cib (record_at + 24));
      if bitmap_addr =? 0 then lift (Err (NotAllocated paddr)) else
      let bit := paddr - chunk_addr in
      do bitmap <- sm_read bitmap_addr size;
      do x <- lift (bit_at bitmap bit);
      if x =? 0 then lift (Err (NotAllocated paddr)) else
      do bitmap <- lift (clear_bit bitmap bit);
      do _ <- sm_write bitmap_addr bitmap;
      do recorded_free <- lift (u32_at cib (record_at + 20));
      do new_free <- lift (add_or_panic 32 recorded_free 1);
      do _ <- io_map_err from_rmw (read_modify_write cib_paddr (stamp_record record_at xid new_free));
      do _ <- increment_free_count spaceman_paddr;
      lift (Ok true)
  end.

Fixpoint free_cibs (size spaceman_paddr xid paddr : Z) (cib_addrs : list Z) : io D SpacemanError unit :=
  match cib_addrs with
  | [] => lift (Err (NoSuchChunk paddr))
  | cib_paddr :: cib_addrs =>
      do cib <- sm_read cib_paddr size;
      do chunks <- lift (u32_at cib CIB_CHUNK_COUNT_OFFSET);
      do freed <- free_slots size spaceman_paddr xid paddr cib_paddr cib (Z.to_nat chunks) 0;
      if freed : bool then lift (Ok tt) else free_cibs size spaceman_paddr xid paddr cib_addrs
  end.

Definition free (spaceman_paddr xid paddr : Z) : io D SpacemanError unit := fun s =>
  let size := block_size s in
  (do cib_addrs <- read_cib_addrs spaceman_paddr;
   free_cibs size spaceman_paddr xid paddr cib_addrs) s.

Definition spaceman_block_size (spaceman_paddr : Z) : io D SpacemanError Z := fun s =>
  (do sm <- sm_read spaceman_paddr (block_size s);
   lift (u32_at sm SM_BLOCK_SIZE_OFFSET)) s.
End OnDisc.

(** ** Bits *)

Definition used (bitmap : bytes) (i : Z) : bool := Z.testbit (default 0 (zget bitmap (i / 8))) (i mod 8).

Lemma shiftr_3 i : Z.shiftr i 3 = i / 8.
Proof. by rewrite Z.shiftr_div_pow2. Qed.
Lemma land_7 i : Z.land i 7 = i mod 8.
Proof. exact (land_low i 3 ltac:(lia)). Qed.

Lemma bit_at_eq {E} bitmap i : 0 <= i < 8 * zlen bitmap -> bit_at (E := E) bitmap i = Ok (Z.b2z (used bitmap i)).
Proof.
  intros Hi. unfold bit_at, used, index. rewrite shiftr_3, land_7.
  destruct (zget_in bitmap (i / 8)) as [x ->]; [split; [apply Z.div_pos|apply Z.div_lt_upper_bound]; lia|].
  cbn [or_panic res_bind default]. f_equal. pose proof (Z.mod_pos_bound i 8 ltac:(lia)).
  rewrite (land_low _ 1) by lia. by rewrite Z.testbit_spec', Z.shiftr_div_pow2 by lia.
Qed.

Lemma byte_bits :
  forallb (fun x => forallb (fun k =>
    let s := Z.lor x (Z.shiftl 1 k) in
    let c := Z.land x (bit_not 8 (Z.shiftl 1 k)) in
    (0 <=? s) && (s <? 256) && (0 <=? c) && (c <? 256) &&
    forallb (fun j => Bool.eqb (Z.testbit s j) ((j =? k) || Z.testbit x j) &&
                      Bool.eqb (Z.testbit c j) (negb (j =? k) && Z.testbit x j)) (seqZ 0 8)) (seqZ 0 8)) (seqZ 0 256) = true.
Proof. vm_compute. reflexivity. Qed.

Lemma byte_bits_spec x k :
  u8 x -> 0 <= k < 8 ->
  u8 (Z.lor x (Z.shiftl 1 k)) /\ u8 (Z.land x (bit_not 8 (Z.shiftl 1 k))) /\
  forall j, 0 <= j < 8 ->
    Z.testbit (Z.lor x (Z.shiftl 1 k)) j = ((j =? k) || Z.testbit x j) /\
    Z.testbit (Z.land x (bit_not 8 (Z.shiftl 1 k))) j = (negb (j =? k) && Z.testbit x j).
Proof.
  intros Hx Hk. pose proof (u8_forallb _ byte_bits x Hx) as B. cbv beta zeta in B. rewrite forallb_forall in B.
  specialize (B k ltac:(apply list_elem_of_In, elem_of_seqZ; lia)). bools.
  match goal with H : forallb _ _ = true |- _ => rewrite forallb_forall in H; rename H into Hf end.
  split_and!; [unfold in_range; lia..|]. intros j Hj. specialize (Hf j ltac:(apply list_elem_of_In, elem_of_seqZ; lia)).
  bools. split; by apply eqb_prop.
Qed.

(** One byte replaced. *)
Lemma poke_spec {E} bitmap i x v :
  is_bytes bitmap -> 0 <= i -> zget bitmap (i / 8) = Some x -> u8 v ->
  exists b', copy_at (E := E) bitmap (i / 8) [v] = Ok b' /\ zlen b' = zlen bitmap /\ is_bytes b' /\
    forall j, 0 <= j -> used b' j = if j / 8 =? i / 8 then Z.testbit v (j mod 8) else used bitmap j.
Proof.
  intros Hb Hi Hx Hv. pose proof (zget_some _ _ _ Hx) as R. rewrite copy_at_put by (rewrite ?zlen_cons, ?zlen_nil; lia).
  eexists. split; [reflexivity|]. split_and!.
  - apply zlen_put; rewrite ?zlen_cons, ?zlen_nil; lia.
  - apply is_bytes_put; [done|by constructor].
  - intros j Hj. pose proof (Z.div_pos j 8 Hj ltac:(lia)). unfold used.
    rewrite zget_put by (rewrite ?zlen_cons, ?zlen_nil; lia). change (zlen [v]) with 1.
    case_bool_decide as C.
    + assert (j / 8 = i / 8) as -> by lia. by rewrite Z.eqb_refl, Z.sub_diag.
    + by rewrite (proj2 (Z.eqb_neq _ _)) by lia.
Qed.

Lemma same_bit i j : 0 <= i -> 0 <= j -> (j =? i) = (j / 8 =? i / 8) && (j mod 8 =? i mod 8).
Proof.
  intros. pose proof (Z.div_mod i 8 ltac:(lia)). pose proof (Z.div_mod j 8 ltac:(lia)).
  destruct (Z.eqb_spec j i) as [->|]; [by rewrite !Z.eqb_refl|].
  destruct (Z.eqb_spec (j / 8) (i / 8)), (Z.eqb_spec (j mod 8) (i mod 8)); try done; lia.
Qed.

Lemma set_bit_spec {E} bitmap i :
  is_bytes bitmap -> 0 <= i < 8 * zlen bitmap ->
  exists b', set_bit (E := E) bitmap i = Ok b' /\ zlen b' = zlen bitmap /\ is_bytes b' /\
    forall j, 0 <= j -> used b' j = (j =? i) || used bitmap j.
Proof.
  intros Hb Hi. unfold set_bit, index. rewrite shiftr_3, land_7.
  destruct (zget_in bitmap (i / 8)) as [x Hx]; [split; [apply Z.div_pos|apply Z.div_lt_upper_bound]; lia|].
  rewrite Hx. cbn [or_panic res_bind]. pose proof (zget_bytes _ _ _ Hb Hx) as Ux.
  destruct (byte_bits_spec x (i mod 8) Ux (Z.mod_pos_bound i 8 ltac:(lia))) as (Us & _ & Hj).
  destruct (poke_spec (E := E) bitmap i x _ Hb ltac:(lia) Hx Us) as (b' & E1 & L & B & Hu).
  exists b'. split_and!; [done..|]. intros j Hj0. rewrite Hu by done. rewrite (same_bit i j) by lia.
  destruct (Z.eqb_spec (j / 8) (i / 8)) as [E2|]; [|done].
  rewrite (proj1 (Hj _ (Z.mod_pos_bound j 8 ltac:(lia)))). unfold used. by rewrite E2, Hx.
Qed.

Lemma clear_bit_spec {E} bitmap i :
  is_bytes bitmap -> 0 <= i < 8 * zlen bitmap ->
  exists b', clear_bit (E := E) bitmap i = Ok b' /\ zlen b' = zlen bitmap /\ is_bytes b' /\
    forall j, 0 <= j -> used b' j = negb (j =? i) && used bitmap j.
Proof.
  intros Hb Hi. unfold clear_bit, index. rewrite shiftr_3, land_7.
  destruct (zget_in bitmap (i / 8)) as [x Hx]; [split; [apply Z.div_pos|apply Z.div_lt_upper_bound]; lia|].
  rewrite Hx. cbn [or_panic res_bind]. pose proof (zget_bytes _ _ _ Hb Hx) as Ux.
  destruct (byte_bits_spec x (i mod 8) Ux (Z.mod_pos_bound i 8 ltac:(lia))) as (_ & Uc & Hj).
  destruct (poke_spec (E := E) bitmap i x _ Hb ltac:(lia) Hx Uc) as (b' & E1 & L & B & Hu).
  exists b'. split_and!; [done..|]. intros j Hj0. rewrite Hu by done. rewrite (same_bit i j) by lia.
  destruct (Z.eqb_spec (j / 8) (i / 8)) as [E2|]; [|done].
  rewrite (proj2 (Hj _ (Z.mod_pos_bound j 8 ltac:(lia)))). unfold used. by rewrite E2, Hx.
Qed.

(** The clear bits among the [n] from [bit], in order. *)
Definition clear_from (bitmap : bytes) (bit n : Z) : list Z := filter (fun i => used bitmap i = false) (seqZ bit n).
Definition clear_bits (bitmap : bytes) (n : Z) : list Z := clear_from bitmap 0 n.

Lemma find_clear_spec {E} bitmap (n : nat) bit :
  0 <= bit -> bit + Z.of_nat n <= 8 * zlen bitmap ->
  find_clear (E := E) bitmap n bit = Ok (head (clear_from bitmap bit (Z.of_nat n))).
Proof.
  revert bit. induction n as [|n IH]; intros bit Hb Hn; [done|]. cbn [find_clear].
  rewrite bit_at_eq by lia. cbn [res_bind]. unfold clear_from. rewrite Nat2Z.inj_succ, seqZ_cons, Z.pred_succ by lia.
  rewrite filter_cons. destruct (used bitmap bit) eqn:U; cbn [Z.b2z Z.eqb].
  - rewrite decide_False by congruence. rewrite IH by lia. by unfold clear_from.
  - by rewrite decide_True.
Qed.

Lemma filter_ext_in {A} (P Q : A -> Prop) `{!forall x, Decision (P x)} `{!forall x, Decision (Q x)} (l : list A) :
  (forall x, x ∈ l -> P x <-> Q x) -> filter P l = filter Q l.
Proof.
  induction l as [|x l IH]; intros Hx; [done|]. rewrite !filter_cons, IH by (intros y Hy; apply Hx; by right).
  pose proof (Hx x ltac:(by left)). repeat case_decide; naive_solver.
Qed.

Lemma filter_all_in {A} (P : A -> Prop) `{!forall x, Decision (P x)} (l : list A) :
  (forall x, x ∈ l -> P x) -> filter P l = l.
Proof.
  induction l as [|x l IH]; intros Hx; [done|]. rewrite filter_cons, IH by (intros y Hy; apply Hx; by right).
  by rewrite decide_True by (apply Hx; by left).
Qed.

Lemma clear_from_ext b b' bit n :
  (forall j, bit <= j < bit + n -> used b' j = used b j) -> clear_from b' bit n = clear_from b bit n.
Proof.
  intros Hu. unfold clear_from. apply filter_ext_in. intros j Hj%elem_of_seqZ. by rewrite Hu by lia.
Qed.

(** Marking the first clear bit used removes it from the list of clear bits. *)
Lemma clear_bits_set b b' i n rest :
  clear_bits b n = i :: rest -> (forall j, 0 <= j -> used b' j = (j =? i) || used b j) -> clear_bits b' n = rest.
Proof.
  unfold clear_bits, clear_from. intros Hc Hu.
  assert (NoDup (i :: rest)) as [Ni _]%NoDup_cons by (rewrite <- Hc; apply NoDup_filter, NoDup_seqZ).
  assert (filter (fun j => j <> i) (i :: rest) = rest) as <-.
  { rewrite filter_cons, decide_False by naive_solver. apply filter_all_in. intros x Hx. naive_solver. }
  rewrite <- Hc, list_filter_filter. apply filter_ext_in. intros j Hj%elem_of_seqZ. rewrite Hu by lia.
  destruct (Z.eqb_spec j i); cbn [orb]; naive_solver.
Qed.

(** Clearing a used bit adds it. *)
Lemma clear_bits_clear b b' i n :
  0 <= i < n -> used b i = true -> (forall j, 0 <= j -> used b' j = negb (j =? i) && used b j) ->
  clear_bits b' n ≡ₚ i :: clear_bits b n.
Proof.
  unfold clear_bits, clear_from. intros Hi Hb Hu. apply NoDup_Permutation.
  - apply NoDup_filter, NoDup_seqZ.
  - apply NoDup_cons. split; [|apply NoDup_filter, NoDup_seqZ]. rewrite list_elem_of_filter. intros [E _]. congruence.
  - intros j. rewrite elem_of_cons, !list_elem_of_filter, elem_of_seqZ. split.
    + intros [Hj Hr]. rewrite Hu in Hj by lia. destruct (Z.eqb_spec j i); naive_solver.
    + intros [->|[Hj Hr]]; (split; [rewrite Hu by lia|lia]); [by rewrite Z.eqb_refl|].
      destruct (Z.eqb_spec j i); naive_solver.
Qed.

(** ** Chunks *)

Record Chunk := { ck_addr : Z; ck_blocks : Z; ck_free : Z; ck_bitmap : Z }.

#[export] Instance eta_chunk : Eta Chunk := fun c => Build_Chunk (ck_addr c) (ck_blocks c) (ck_free c) (ck_bitmap c).

Definition field (b : bytes) (pos n : Z) : Z := le_val (get b pos n).

Definition chunk_at (cib : bytes) (slot : Z) : Chunk :=
  let r := record_at_slot slot in
  {| ck_addr := field cib (r + 8) 8; ck_blocks := field cib (r + 16) 4;
     ck_free := field cib (r + 20) 4; ck_bitmap := field cib (r + 24) 8 |}.

Definition chunk_count (cib : bytes) : Z := field cib CIB_CHUNK_COUNT_OFFSET 4.
Definition chunks_of (cib : bytes) : list Chunk := map (chunk_at cib) (seqZ 0 (chunk_count cib)).

Definition cib_count (sm : bytes) : Z := field sm SM_CIB_COUNT_OFFSET 4.
Definition cib_offset (sm : bytes) : Z := field sm SM_CIB_ADDR_OFFSET_OFFSET 4.
Definition free_count (sm : bytes) : Z := field sm SM_FREE_COUNT_OFFSET 8.
Definition cib_list (sm : bytes) : list Z := map (fun i => field sm (cib_offset sm + i * 8) 8) (seqZ 0 (cib_count sm)).

(** The free addresses of a chunk, given the bitmap blocks. *)
Definition chunk_frees (bm : Z -> bytes) (ck : Chunk) : list Z :=
  if ck_bitmap ck =? 0 then [] else map (Z.add (ck_addr ck)) (clear_bits (bm (ck_bitmap ck)) (ck_blocks ck)).
Definition frees (bm : Z -> bytes) (cks : list Chunk) : list Z := concat (map (chunk_frees bm) cks).

Definition bitmaps_of (cks : list Chunk) : list Z := filter (fun a => a <> 0) (map ck_bitmap cks).
Definition sum_of (f : Chunk -> Z) (cks : list Chunk) : Z := foldr Z.add 0 (map f cks).

(** A chunk-info block whose records fit, and a chunk whose bitmap covers it. *)
Record cib_ok (cib : bytes) : Prop := {
  cb_bytes : is_bytes cib;
  cb_fits : record_at_slot (chunk_count cib) <= zlen cib;
}.

Record chunk_ok (size limit : Z) (ck : Chunk) : Prop := {
  ch_bitmap : ck_bitmap ck <> 0 -> 0 < ck_bitmap ck < limit /\ ck_blocks ck <= 8 * size;
  ch_addr : ck_addr ck + ck_blocks ck < 2 ^ 64;
  ch_free : ck_free ck <= ck_blocks ck;
}.

(** The recorded free count is the number of clear bits. *)
Definition counted (bm : Z -> bytes) (ck : Chunk) : Prop :=
  ck_bitmap ck <> 0 -> ck_free ck = zlen (chunk_frees bm ck).

Lemma field_bound b pos n : is_bytes b -> 0 <= n -> 0 <= pos -> pos + n <= zlen b -> 0 <= field b pos n < 2 ^ (8 * n).
Proof.
  intros Hb Hn Hp Hl. pose proof (le_val_bound _ (is_bytes_get b pos n Hb)) as B. unfold field.
  by rewrite zlen_get in B by lia.
Qed.

Lemma field_nonneg b pos n : is_bytes b -> 0 <= field b pos n.
Proof. intros Hb. apply le_val_bound, is_bytes_get, Hb. Qed.

Lemma frees_app bm l k : frees bm (l ++ k) = frees bm l ++ frees bm k.
Proof. unfold frees. by rewrite map_app, concat_app. Qed.
Lemma frees_cons bm c l : frees bm (c :: l) = chunk_frees bm c ++ frees bm l.
Proof. done. Qed.
Lemma sum_of_app f l k : sum_of f (l ++ k) = sum_of f l + sum_of f k.
Proof. unfold sum_of. rewrite map_app, foldr_app. induction (map f l); cbn [foldr]; lia. Qed.
Lemma sum_of_cons f c l : sum_of f (c :: l) = f c + sum_of f l.
Proof. done. Qed.
Lemma sum_of_nonneg f l : Forall (fun c => 0 <= f c) l -> 0 <= sum_of f l.
Proof. induction 1; [done|]. rewrite sum_of_cons. lia. Qed.
Lemma sum_of_le f g l : Forall (fun c => f c <= g c) l -> sum_of f l <= sum_of g l.
Proof. induction 1; [done|]. rewrite !sum_of_cons. lia. Qed.
Lemma bitmaps_app l k : bitmaps_of (l ++ k) = bitmaps_of l ++ bitmaps_of k.
Proof. unfold bitmaps_of. by rewrite map_app, filter_app. Qed.
Lemma bitmaps_cons c l :
  bitmaps_of (c :: l) = (if decide (ck_bitmap c <> 0) then [ck_bitmap c] else []) ++ bitmaps_of l.
Proof. unfold bitmaps_of. cbn [map]. rewrite filter_cons. by case_decide. Qed.
Lemma bitmaps_elem c l : c ∈ l -> ck_bitmap c <> 0 -> ck_bitmap c ∈ bitmaps_of l.
Proof. intros Hc Hb. apply list_elem_of_filter. split; [done|]. by apply list_elem_of_fmap_2. Qed.

Lemma frees_ext bm bm' l : (forall a, a ∈ bitmaps_of l -> bm' a = bm a) -> frees bm' l = frees bm l.
Proof.
  intros Hb. unfold frees. f_equal. apply map_ext_in. intros c Hc%list_elem_of_In. unfold chunk_frees.
  destruct (Z.eqb_spec (ck_bitmap c) 0); [done|]. by rewrite Hb by (by apply bitmaps_elem).
Qed.

(** ** The space manager on a lawful disc *)

Section OnLawfulDisc.
Context {D : Type} `{LawfulImage D}.
Implicit Types s : RepairSession D.

Definition chunks s (sp : Z) : list Chunk :=
  concat (map (fun c => chunks_of (block_at s c)) (cib_list (block_at s sp))).

(** The free addresses, in the order of the disc structures. *)
Definition free_list s (sp : Z) : list Z := frees (block_at s) (chunks s sp).

Record spaceman_ok s (sp : Z) : Prop := {
  sp_session : session_ok s;
  sp_size : 0x58 <= block_size s;
  sp_range : 0 <= sp < block_count s;
  sp_direct : field (block_at s sp) SM_INDIRECT_CIB_OFFSET 4 = 0;
  sp_array : 0x54 <= cib_offset (block_at s sp);
  sp_array_fits : cib_offset (block_at s sp) + cib_count (block_at s sp) * 8 <= block_size s;
  sp_cibs : Forall (fun c => 0 <= c < block_count s /\ cib_ok (block_at s c)) (cib_list (block_at s sp));
  sp_chunks : Forall (chunk_ok (block_size s) (block_count s)) (chunks s sp);
  sp_distinct : NoDup (sp :: cib_list (block_at s sp) ++ bitmaps_of (chunks s sp));
  sp_disjoint : NoDup (concat (map (fun ck => seqZ (ck_addr ck) (ck_blocks ck)) (chunks s sp)));
  sp_counted : Forall (counted (block_at s)) (chunks s sp);
  sp_total : free_count (block_at s sp) = sum_of ck_free (chunks s sp);
  sp_blocks : sum_of ck_blocks (chunks s sp) < 2 ^ 64;
}.

(** A state with the same contents. *)
Definition like s0 s : Prop := session_ok s /\ same_shape s0 s /\ same_blocks s0 s.

Lemma like_refl s : session_ok s -> like s s.
Proof. done. Qed.

Lemma same_shape_trans s1 s2 s3 : same_shape s1 s2 -> same_shape s2 s3 -> same_shape s1 s3.
Proof. unfold same_shape. lia. Qed.

Lemma sm_read_spec s0 s paddr s' r :
  like s0 s -> 0 <= paddr < block_count s0 -> sm_read paddr (block_size s0) s = (s', r) ->
  like s0 s' /\ ((exists e, r = Err (SmDisc e)) \/ r = Ok (block_at s0 paddr)).
Proof.
  intros (Hs & Hsh & Hb) Hp. unfold sm_read, io_map_err. pose proof Hsh as (E1 & E2 & E3). rewrite <- E2.
  destruct (read_block paddr (block_size s) s) as [s1 r1] eqn:R. intros [= <- <-].
  apply read_block_spec in R as (Hs1 & Hsh1 & Hb1 & Np & Ho); [|done|lia]. split.
  - split; [done|]. split; [by eapply same_shape_trans|]. intros q Hq. rewrite Hb1 by lia. by apply Hb.
  - destruct r1 as [b|e|]; cbn [map_err]; [right|left; by eexists|done]. rewrite (Ho b eq_refl). by rewrite Hb.
Qed.

(** The effect of the three writes of an update. *)
Record updated s0 s' (sp c bm : Z) (bitmap cib sm : bytes) : Prop := {
  up_session : session_ok s';
  up_shape : same_shape s0 s';
  up_bitmap : block_at s' bm = bitmap;
  up_cib : exists x, block_at s' c = put cib 0 (le_bytes 8 x);
  up_sm : exists x, block_at s' sp = put sm 0 (le_bytes 8 x);
  up_valid : block_size s0 mod 4 = 0 ->
    fletcher64_valid (block_at s' c) = true /\ fletcher64_valid (block_at s' sp) = true;
  up_others q : 0 <= q < block_count s0 -> q <> bm -> q <> c -> q <> sp -> block_at s' q = block_at s0 q;
}.

Lemma commit_spec {A} s0 s sp c bm bitmap cib sm m1 m2 (a : A) s' r :
  like s0 s -> 8 <= block_size s0 ->
  0 <= sp < block_count s0 -> 0 <= c < block_count s0 -> 0 <= bm < block_count s0 ->
  sp <> c -> sp <> bm -> c <> bm ->
  zlen bitmap = block_size s0 -> is_bytes bitmap ->
  m1 (block_at s0 c) = Ok cib -> zlen cib = block_size s0 -> is_bytes cib ->
  m2 (block_at s0 sp) = Ok sm -> zlen sm = block_size s0 -> is_bytes sm ->
  (do _ <- sm_write bm bitmap;
   do _ <- io_map_err from_rmw (read_modify_write c m1);
   do _ <- io_map_err from_rmw (read_modify_write sp m2);
   lift (Ok a)) s = (s', r) ->
  session_ok s' /\ ((exists e, r = Err (SmDisc e)) \/ (r = Ok a /\ updated s0 s' sp c bm bitmap cib sm)).
Proof.
  intros (Hs & (E1 & E2 & E3) & Hb) H8 Hsp Hc Hbm N1 N2 N3 Lb Bb M1 Lc Bc M2 Lm Bm.
  unfold iobind, sm_write, io_map_err.
  destruct (write_block bm bitmap s) as [s1 r1] eqn:W.
  apply write_block_spec in W as (Hs1 & (F1 & F2 & F3) & Np1 & Hw); [|done|lia|lia|done].
  destruct r1 as [[]|e|]; cbn [map_err]; [|by intros [= <- <-]; eauto|done]. destruct (Hw eq_refl) as [W1 W2].
  assert (block_at s1 c = block_at s0 c /\ block_at s1 sp = block_at s0 sp) as [Ec Esp]
    by (split; rewrite W2 by lia; by apply Hb).
  destruct (read_modify_write c m1 s1) as [s2 r2] eqn:R1.
  apply rmw_spec in R1 as (Hs2 & (G1 & G2 & G3) & C1); [|done|lia|lia|].
  2:{ intros b'. rewrite Ec, M1. intros [= <-]. split; [lia|done]. }
  rewrite Ec, M1 in C1. destruct r2 as [[]|[e|e]|]; cbn [map_err from_rmw]; [|by intros [= <- <-]; eauto|by destruct C1|done].
  destruct C1 as (b1 & x1 & [= <-] & B1 & V1 & O1).
  assert (block_at s2 sp = block_at s0 sp) as Esp2 by (rewrite O1 by lia; done).
  destruct (read_modify_write sp m2 s2) as [s3 r3] eqn:R2.
  apply rmw_spec in R2 as (Hs3 & (I1 & I2 & I3) & C2); [|done|lia|lia|].
  2:{ intros b'. rewrite Esp2, M2. intros [= <-]. split; [lia|done]. }
  rewrite Esp2, M2 in C2. destruct r3 as [[]|[e|e]|]; cbn [map_err from_rmw]; [|by intros [= <- <-]; eauto|by destruct C2|done].
  destruct C2 as (b2 & x2 & [= <-] & B2 & V2 & O2). intros [= <- <-]. split; [done|]. right. split; [done|].
  constructor; [done|unfold same_shape; lia|..].
  - rewrite O2, O1 by lia. done.
  - exists x1. by rewrite O2 by lia.
  - by exists x2.
  - intros H4. split; [|apply V2; congruence]. rewrite O2 by lia. apply V1. congruence.
  - intros q Hq Q1 Q2 Q3. rewrite O2, O1, W2 by lia. by apply Hb.
Qed.

(** *** Facts of a well-formed space manager *)

Lemma u64_array_eq {E} b off (n : nat) i :
  0 <= off -> 0 <= i -> off + (i + Z.of_nat n) * 8 <= zlen b ->
  u64_array (E := E) b off n i = Ok (map (fun j => field b (off + j * 8) 8) (seqZ i (Z.of_nat n))).
Proof.
  intros Ho. revert i. induction n as [|n IH]; intros i Hi Hl; [done|]. cbn [u64_array].
  rewrite u64_at_get by lia. cbn [res_bind]. rewrite IH by lia. cbn [res_bind].
  rewrite Nat2Z.inj_succ, (seqZ_cons i), Z.pred_succ by lia. done.
Qed.

Lemma cib_addrs_ok s sp :
  spaceman_ok s sp -> cib_addrs_from_block (block_at s sp) = Ok (cib_list (block_at s sp)).
Proof.
  intros Hk. pose proof (sp_size _ _ Hk). pose proof (zlen_block_at s sp (sp_session _ _ Hk)) as L.
  pose proof (is_bytes_block_at s sp (sp_session _ _ Hk)) as B.
  unfold cib_addrs_from_block, SM_INDIRECT_CIB_OFFSET, SM_CIB_COUNT_OFFSET, SM_CIB_ADDR_OFFSET_OFFSET.
  rewrite !u32_at_get by lia. cbn [res_bind].
  change (le_val (get (block_at s sp) 68 4)) with (field (block_at s sp) SM_INDIRECT_CIB_OFFSET 4).
  rewrite (sp_direct _ _ Hk). cbn [Z.eqb negb].
  change (le_val (get (block_at s sp) 64 4)) with (cib_count (block_at s sp)).
  change (le_val (get (block_at s sp) 80 4)) with (cib_offset (block_at s sp)).
  pose proof (sp_array_fits _ _ Hk). pose proof (sp_array _ _ Hk).
  rewrite (proj2 (Z.ltb_ge _ _)) by lia. pose proof (field_nonneg (block_at s sp) SM_CIB_COUNT_OFFSET 4 B) as P.
  fold (cib_count (block_at s sp)) in P. rewrite u64_array_eq by lia. by rewrite Z2Nat.id by lia.
Qed.

Lemma record_fits cib k :
  cib_ok cib -> 0 <= k < chunk_count cib -> 40 <= record_at_slot k /\ record_at_slot k + 32 <= zlen cib.
Proof. intros [_ Hf] Hk. unfold record_at_slot, CIB_ARRAY_OFFSET, CHUNK_INFO_BYTES in *. lia. Qed.

Lemma record_too_many cib k :
  cib_ok cib -> 0 <= k < chunk_count cib -> (zlen cib <? record_at_slot k + CHUNK_INFO_BYTES) = false.
Proof. intros Hc Hk. pose proof (record_fits _ _ Hc Hk). unfold CHUNK_INFO_BYTES. apply Z.ltb_ge. lia. Qed.

(** The four reads of a record. *)
Lemma record_reads {E} cib k :
  cib_ok cib -> 0 <= k < chunk_count cib ->
  u64_at (E := E) cib (record_at_slot k + 8) = Ok (ck_addr (chunk_at cib k)) /\
  u32_at (E := E) cib (record_at_slot k + 16) = Ok (ck_blocks (chunk_at cib k)) /\
  u32_at (E := E) cib (record_at_slot k + 20) = Ok (ck_free (chunk_at cib k)) /\
  u64_at (E := E) cib (record_at_slot k + 24) = Ok (ck_bitmap (chunk_at cib k)).
Proof.
  intros Hc Hk. pose proof (record_fits _ _ Hc Hk). rewrite !u64_at_get, !u32_at_get by lia. done.
Qed.

Lemma chunk_fields cib k :
  cib_ok cib -> 0 <= k < chunk_count cib ->
  0 <= ck_addr (chunk_at cib k) /\ 0 <= ck_blocks (chunk_at cib k) < 2 ^ 32 /\
  0 <= ck_free (chunk_at cib k) < 2 ^ 32 /\ 0 <= ck_bitmap (chunk_at cib k).
Proof.
  intros Hc Hk. pose proof (record_fits _ _ Hc Hk). pose proof (cb_bytes _ Hc).
  cbn [chunk_at ck_addr ck_blocks ck_free ck_bitmap].
  pose proof (field_bound cib (record_at_slot k + 16) 4). pose proof (field_bound cib (record_at_slot k + 20) 4).
  change (8 * 4) with 32 in *. split_and!; try (by apply field_nonneg); intuition lia.
Qed.

Lemma count_read {E} cib :
  is_bytes cib -> 40 <= zlen cib ->
  u32_at (E := E) cib CIB_CHUNK_COUNT_OFFSET = Ok (chunk_count cib) /\ 0 <= chunk_count cib.
Proof.
  intros Hb Hl. split; [|by apply field_nonneg]. unfold CIB_CHUNK_COUNT_OFFSET. by rewrite u32_at_get by lia.
Qed.

Lemma chunk_elem s sp c k :
  c ∈ cib_list (block_at s sp) -> 0 <= k < chunk_count (block_at s c) -> chunk_at (block_at s c) k ∈ chunks s sp.
Proof.
  intros Hc Hk. apply list_elem_of_In, in_concat. exists (chunks_of (block_at s c)). split.
  - apply in_map_iff. exists c. split; [done|]. by apply list_elem_of_In.
  - apply in_map_iff. exists k. split; [done|]. apply list_elem_of_In, elem_of_seqZ. lia.
Qed.

Lemma elem_cib s sp c :
  spaceman_ok s sp -> c ∈ cib_list (block_at s sp) -> 0 <= c < block_count s /\ cib_ok (block_at s c).
Proof. intros Hk Hc. by apply (proj1 (Forall_forall _ _) (sp_cibs _ _ Hk)). Qed.

Lemma distinct_three s sp c ck :
  spaceman_ok s sp -> c ∈ cib_list (block_at s sp) -> ck ∈ chunks s sp -> ck_bitmap ck <> 0 ->
  sp <> c /\ sp <> ck_bitmap ck /\ c <> ck_bitmap ck.
Proof.
  intros Hk Hc Hck Hb. pose proof (bitmaps_elem _ _ Hck Hb) as Hbm.
  destruct (proj1 (NoDup_cons _ _) (sp_distinct _ _ Hk)) as [N1 N2].
  apply NoDup_app in N2 as (_ & N2 & _). rewrite not_elem_of_app in N1.
  split_and!; intros E; subst; naive_solver.
Qed.

Definition stamped (cib : bytes) (k xid n : Z) : bytes :=
  put (put cib (record_at_slot k) (le_bytes 8 xid)) (record_at_slot k + 20) (le_bytes 4 n).
Definition with_count (sm : bytes) (n : Z) : bytes := put sm SM_FREE_COUNT_OFFSET (le_bytes 8 n).

Lemma stamp_ok {E} cib k xid n :
  cib_ok cib -> 0 <= k < chunk_count cib ->
  stamp_record (E := E) (record_at_slot k) xid n cib = Ok (stamped cib k xid n) /\
  zlen (stamped cib k xid n) = zlen cib /\ is_bytes (stamped cib k xid n).
Proof.
  intros Hc Hk. pose proof (record_fits _ _ Hc Hk). unfold stamp_record, stamped. rewrite copy_at_put by range.
  cbn [res_bind]. rewrite copy_at_put by range. split_and!; [done|range|].
  repeat apply is_bytes_put; try apply is_bytes_le_bytes. apply (cb_bytes _ Hc).
Qed.

Lemma with_count_facts sm n : is_bytes sm -> 80 <= zlen sm -> zlen (with_count sm n) = zlen sm /\ is_bytes (with_count sm n).
Proof.
  intros Hb Hl. unfold with_count, SM_FREE_COUNT_OFFSET. split; [range|]. apply is_bytes_put; [done|apply is_bytes_le_bytes].
Qed.

Lemma decrement_ok sm :
  80 <= zlen sm -> 1 <= free_count sm -> decrement_free_count_in sm = Ok (with_count sm (free_count sm - 1)).
Proof.
  intros Hl Hf. unfold decrement_free_count_in, SM_FREE_COUNT_OFFSET. rewrite u64_at_get by lia. cbn [res_bind].
  change (le_val (get sm 72 8)) with (free_count sm). unfold checked_sub. rewrite (proj2 (Z.leb_le _ _)) by lia.
  cbn [ok_or res_bind]. by rewrite copy_at_put by range.
Qed.

Lemma increment_ok sm :
  80 <= zlen sm -> free_count sm + 1 < 2 ^ 64 -> increment_free_count_in sm = Ok (with_count sm (free_count sm + 1)).
Proof.
  intros Hl Hf. unfold increment_free_count_in, add_or_panic, SM_FREE_COUNT_OFFSET. rewrite u64_at_get by lia. cbn [res_bind].
  change (le_val (get sm 72 8)) with (free_count sm). unfold checked_add. rewrite (proj2 (Z.ltb_lt _ _)) by lia.
  cbn [or_panic res_bind]. by rewrite copy_at_put by range.
Qed.

(** *** Allocation *)

(** The chunk and bit taken, and what was written. *)
Record taken s0 s' (sp c k p xid : Z) : Prop := {
  tk_chunk : 0 <= k < chunk_count (block_at s0 c);
  tk_bitmap : ck_bitmap (chunk_at (block_at s0 c) k) <> 0;
  tk_bits : exists bit rest bitmap,
    let ck := chunk_at (block_at s0 c) k in
    clear_bits (block_at s0 (ck_bitmap ck)) (ck_blocks ck) = bit :: rest /\ p = ck_addr ck + bit /\
    (forall j, 0 <= j -> used bitmap j = (j =? bit) || used (block_at s0 (ck_bitmap ck)) j) /\
    updated s0 s' sp c (ck_bitmap ck) bitmap
      (stamped (block_at s0 c) k xid (ck_free ck - 1))
      (with_count (block_at s0 sp) (free_count (block_at s0 sp) - 1));
}.

Lemma clear_head_range b n bit rest : clear_bits b n = bit :: rest -> 0 <= bit < n.
Proof.
  intros Hc. assert (bit ∈ clear_bits b n) as Hi by (rewrite Hc; by left).
  apply list_elem_of_filter in Hi as [_ Hi%elem_of_seqZ]. lia.
Qed.

Lemma counted_free s sp ck :
  spaceman_ok s sp -> ck ∈ chunks s sp -> ck_bitmap ck <> 0 ->
  ck_free ck = zlen (clear_bits (block_at s (ck_bitmap ck)) (ck_blocks ck)).
Proof.
  intros Hk Hc Hb. pose proof (proj1 (Forall_forall _ _) (sp_counted _ _ Hk) ck Hc Hb) as E. rewrite E.
  unfold chunk_frees. rewrite (proj2 (Z.eqb_neq _ _)) by done. unfold zlen. by rewrite length_map.
Qed.

Lemma chunk_free_nonneg s sp : spaceman_ok s sp -> Forall (fun ck => 0 <= ck_free ck) (chunks s sp).
Proof.
  intros Hk. apply Forall_forall. intros ck Hc%list_elem_of_In. apply in_concat in Hc as (l & Hl & Hc).
  apply in_map_iff in Hl as (c & <- & Hl%list_elem_of_In). apply in_map_iff in Hc as (k & <- & Hc%list_elem_of_In).
  apply elem_of_seqZ in Hc. destruct (elem_cib _ _ _ Hk Hl) as [_ Ho]. apply (chunk_fields _ k Ho). lia.
Qed.

Lemma sum_of_elem f l ck : Forall (fun c => 0 <= f c) l -> ck ∈ l -> f ck <= sum_of f l.
Proof.
  induction 1 as [|x l Hx Hl IH]; [by intros ?%not_elem_of_nil|]. rewrite sum_of_cons, elem_of_cons.
  pose proof (sum_of_nonneg f l Hl). intros [->|Hi]; [lia|]. specialize (IH Hi). lia.
Qed.

Definition slots_outcome s0 sp c xid (slot : Z) (n : nat) s' (r : res SpacemanError (option Z)) : Prop :=
  session_ok s' /\
  ((exists e, r = Err (SmDisc e)) \/
   (r = Ok None /\ like s0 s' /\ frees (block_at s0) (map (chunk_at (block_at s0 c)) (seqZ slot (Z.of_nat n))) = []) \/
   (exists k p, r = Ok (Some p) /\ slot <= k /\ taken s0 s' sp c k p xid /\
      frees (block_at s0) (map (chunk_at (block_at s0 c)) (seqZ slot (k - slot))) = [])).

Lemma slots_skip s0 sp c xid slot n s' r :
  chunk_frees (block_at s0) (chunk_at (block_at s0 c) slot) = [] ->
  slots_outcome s0 sp c xid (slot + 1) n s' r -> slots_outcome s0 sp c xid slot (S n) s' r.
Proof.
  intros Hf [Hs' Hcase]. split; [exact Hs'|].
  destruct Hcase as [He|[(-> & Hl' & Hf')|(k & p & -> & Hge & Ht & Hf')]]; [by left|..].
  - right; left. split_and!; [done..|]. rewrite Nat2Z.inj_succ, seqZ_cons, Z.pred_succ by lia. cbn [map].
    by rewrite frees_cons, Hf.
  - right; right. exists k, p. split_and!; [done|lia|done|]. rewrite (seqZ_cons slot) by lia. cbn [map].
    rewrite frees_cons, Hf. cbn [app]. rewrite <- Hf'. do 3 f_equal; lia.
Qed.

Lemma allocate_slots_spec s0 sp c xid : spaceman_ok s0 sp -> c ∈ cib_list (block_at s0 sp) ->
  forall (n : nat) s slot s' r,
  like s0 s -> 0 <= slot -> slot + Z.of_nat n = chunk_count (block_at s0 c) ->
  allocate_slots (block_size s0) sp xid c (block_at s0 c) n slot s = (s', r) ->
  slots_outcome s0 sp c xid slot n s' r.
Proof.
  intros Hk Hc. destruct (elem_cib _ _ _ Hk Hc) as [Rc Oc]. pose proof (sp_session _ _ Hk) as Hs0.
  induction n as [|n IH]; intros s slot s' r Hl Hge0 Hn.
  { cbn [allocate_slots]. intros [= <- <-]. split; [apply Hl|]. right; left. done. }
  cbn [allocate_slots]. rewrite record_too_many by (done || lia).
  destruct (record_reads (E := SpacemanError) (block_at s0 c) slot Oc ltac:(lia)) as (E1 & E2 & E3 & E4).
  destruct (chunk_fields (block_at s0 c) slot Oc ltac:(lia)) as (P1 & P2 & P3 & P4).
  pose proof (chunk_elem s0 sp c slot Hc ltac:(lia)) as Hck.
  set (ck := chunk_at (block_at s0 c) slot) in *. rewrite E1, E2, E4.
  rewrite !bind_ok.
  destruct (Z.eqb_spec (ck_bitmap ck) 0) as [Hz|Hz].
  { intros R. apply slots_skip, (IH s); [|done|lia..|done]. fold ck. unfold chunk_frees. by rewrite Hz. }
  destruct (proj1 (Forall_forall _ _) (sp_chunks _ _ Hk) ck Hck) as [Hb Ha Hfr]. destruct (Hb Hz) as [Rb Sb].
  unfold iobind at 1. destruct (sm_read (ck_bitmap ck) (block_size s0) s) as [s1 r1] eqn:R1.
  apply (sm_read_spec s0) in R1 as [Hl1 [[e ->]| ->]]; [by intros [= <- <-]; split; [apply Hl1|eauto]| |done|lia].
  pose proof (zlen_block_at s0 (ck_bitmap ck) Hs0) as Lb. pose proof (is_bytes_block_at s0 (ck_bitmap ck) Hs0) as Bb.
  rewrite find_clear_spec by lia. rewrite Z2Nat.id by lia. fold (clear_bits (block_at s0 (ck_bitmap ck)) (ck_blocks ck)).
  rewrite bind_ok.
  destruct (clear_bits (block_at s0 (ck_bitmap ck)) (ck_blocks ck)) as [|bit rest] eqn:Ec; cbn [head].
  { intros R. apply slots_skip, (IH s1); [|done|lia..|done]. fold ck. unfold chunk_frees.
    by rewrite (proj2 (Z.eqb_neq _ _)), Ec by done. }
  clear IH. pose proof (clear_head_range _ _ _ _ Ec) as Hbit.
  destruct (set_bit_spec (E := SpacemanError) (block_at s0 (ck_bitmap ck)) bit Bb ltac:(lia)) as (b' & Es & Lb' & Bb' & Hu).
  rewrite Es, bind_ok, E3, bind_ok.
  pose proof (counted_free _ _ _ Hk Hck Hz) as Ef. rewrite Ec, zlen_cons in Ef. pose proof (zlen_nonneg rest).
  assert (1 <= free_count (block_at s0 sp)) as Hfc.
  { rewrite (sp_total _ _ Hk). pose proof (sum_of_elem ck_free _ ck (chunk_free_nonneg _ _ Hk) Hck). lia. }
  destruct (distinct_three _ _ _ _ Hk Hc Hck Hz) as (N1 & N2 & N3).
  pose proof (sp_size _ _ Hk) as Hsz. pose proof (zlen_block_at s0 sp Hs0) as Lsp. pose proof (zlen_block_at s0 c Hs0) as Lc.
  destruct (stamp_ok (E := SpacemanError) (block_at s0 c) slot xid (ck_free ck - 1) Oc ltac:(lia)) as (Est & Lst & Bst).
  destruct (with_count_facts (block_at s0 sp) (free_count (block_at s0 sp) - 1) (is_bytes_block_at _ _ Hs0) ltac:(lia)) as [Lw Bw].
  assert (ok_or (checked_sub (ck_free ck) 1) (SmMalformed "chunk free count is already zero but a clear bit was found")
    = Ok (ck_free ck - 1)) as Ecs by (unfold checked_sub; by rewrite (proj2 (Z.leb_le _ _)) by lia).
  assert (add_or_panic (E := SpacemanError) 64 (ck_addr ck) bit = Ok (ck_addr ck + bit)) as Eap
    by (unfold add_or_panic, checked_add; by rewrite (proj2 (Z.ltb_lt _ _)) by lia).
  assert (decrement_free_count_in (block_at s0 sp) = Ok (with_count (block_at s0 sp) (free_count (block_at s0 sp) - 1))) as Edc
    by (apply decrement_ok; lia).
  pose proof (sp_range _ _ Hk).
  rewrite Ecs, bind_ok, Eap, bind_ok. intros R.
  apply (commit_spec s0 s1 sp c (ck_bitmap ck) b' (stamped (block_at s0 c) slot xid (ck_free ck - 1))
    (with_count (block_at s0 sp) (free_count (block_at s0 sp) - 1)) _ decrement_free_count_in (Some (ck_addr ck + bit)))
    in R as [Hs' [He|[-> Hup]]]; [by split; [|left]| |done || lia..].
  split; [done|]. right; right. exists slot, (ck_addr ck + bit). split_and!; [done|lia| |by rewrite Z.sub_diag].
  constructor; [lia|done|]. by exists bit, rest, b'.
Qed.

Definition chunks_in s (cibs : list Z) : list Chunk := concat (map (fun c => chunks_of (block_at s c)) cibs).

(** The chunks before slot [k] of the chunk-info block after [cpre], and after it. *)
Definition before s (cpre : list Z) (c k : Z) : list Chunk :=
  chunks_in s cpre ++ map (chunk_at (block_at s c)) (seqZ 0 k).
Definition after s (c k : Z) (cpost : list Z) : list Chunk :=
  map (chunk_at (block_at s c)) (seqZ (k + 1) (chunk_count (block_at s c) - (k + 1))) ++ chunks_in s cpost.

Lemma chunks_in_split s cpre c cpost k :
  0 <= k < chunk_count (block_at s c) ->
  chunks_in s (cpre ++ c :: cpost) = before s cpre c k ++ chunk_at (block_at s c) k :: after s c k cpost.
Proof.
  intros Hk. unfold chunks_in, before, after. rewrite map_app, concat_app, <- app_assoc. f_equal. cbn [map concat].
  unfold chunks_of at 1. set (n := chunk_count (block_at s c)) in *.
  replace n with (k + (1 + (n - (k + 1)))) at 1 by lia. rewrite !seqZ_app by lia.
  rewrite !map_app, <- !app_assoc. by rewrite Z.add_0_l.
Qed.

Lemma allocate_cibs_spec s0 sp xid : spaceman_ok s0 sp ->
  forall l s s' r, like s0 s -> (forall c, c ∈ l -> c ∈ cib_list (block_at s0 sp)) ->
  allocate_cibs (block_size s0) sp xid l s = (s', r) ->
  session_ok s' /\
  ((exists e, r = Err (SmDisc e)) \/
   (r = Err OutOfSpace /\ like s0 s' /\ frees (block_at s0) (chunks_in s0 l) = []) \/
   (exists cpre c cpost k p, l = cpre ++ c :: cpost /\ r = Ok p /\ taken s0 s' sp c k p xid /\
      frees (block_at s0) (before s0 cpre c k) = [])).
Proof.
  intros Hk. induction l as [|c l IH]; intros s s' r Hl Hin.
  { cbn [allocate_cibs]. intros [= <- <-]. split; [apply Hl|]. right; left. done. }
  cbn [allocate_cibs]. pose proof (Hin c ltac:(by left)) as Hc. destruct (elem_cib _ _ _ Hk Hc) as [Rc Oc].
  pose proof (sp_session _ _ Hk) as Hs0. pose proof (sp_size _ _ Hk). pose proof (zlen_block_at s0 c Hs0).
  unfold iobind at 1. destruct (sm_read c (block_size s0) s) as [s1 r1] eqn:R1.
  apply (sm_read_spec s0) in R1 as [Hl1 [[e ->]| ->]]; [by intros [= <- <-]; split; [apply Hl1|eauto]| |done|lia].
  destruct (count_read (E := SpacemanError) (block_at s0 c) (cb_bytes _ Oc) ltac:(lia)) as [-> Hn]. rewrite bind_ok.
  unfold iobind at 1. destruct (allocate_slots _ _ _ _ _ _ _ s1) as [s2 r2] eqn:R2.
  apply (allocate_slots_spec s0 sp c xid Hk Hc) in R2 as [Hs2 [[e ->]|[(-> & Hl2 & Hf)|(k & p & -> & Hge & Ht & Hf)]]];
    [intros [= <- <-]; eauto| |intros [= <- <-]|done|lia|lia].
  - intros R. rewrite Z2Nat.id in Hf by lia.
    destruct (IH s2 s' r Hl2 ltac:(intros; apply Hin; by right) R) as [Hs' [He|[(-> & Hl' & Hf')|Hok]]]; (split; [done|]).
    + by left.
    + right; left. split_and!; [done..|]. unfold chunks_in in *. cbn [map concat]. rewrite frees_app, Hf'. unfold chunks_of. by rewrite Hf.
    + destruct Hok as (cpre & c' & cpost & k & p & -> & -> & Ht & Hf'). right; right. exists (c :: cpre), c', cpost, k, p.
      split_and!; [done..|]. unfold before, chunks_in in *. cbn [map concat]. rewrite <- app_assoc, frees_app, Hf'.
      unfold chunks_of at 1. by rewrite Hf.
  - split; [done|]. right; right. exists [], c, l, k, p. split_and!; [done..|]. rewrite Z.sub_0_r in Hf. done.
Qed.

(** *** What an update does to the chunks *)

Lemma field_put_below b pos src lo n :
  0 <= lo -> 0 <= n -> lo + n <= pos -> pos + zlen src <= zlen b -> field (put b pos src) lo n = field b lo n.
Proof. intros. unfold field. by rewrite get_put_below. Qed.
Lemma field_put_above b pos src lo n :
  0 <= pos -> pos + zlen src <= lo -> pos + zlen src <= zlen b -> field (put b pos src) lo n = field b lo n.
Proof. intros. unfold field. by rewrite get_put_above. Qed.

Lemma with_count_fields sm n x :
  is_bytes sm -> 88 <= zlen sm -> 84 <= cib_offset sm -> 0 <= n < 2 ^ 64 ->
  let sm' := put (with_count sm n) 0 (le_bytes 8 x) in
  free_count sm' = n /\ cib_list sm' = cib_list sm /\ cib_offset sm' = cib_offset sm /\ cib_count sm' = cib_count sm /\
  field sm' SM_INDIRECT_CIB_OFFSET 4 = field sm SM_INDIRECT_CIB_OFFSET 4.
Proof.
  intros Hb Hl Ho Hn. cbv zeta. unfold with_count, SM_FREE_COUNT_OFFSET, SM_INDIRECT_CIB_OFFSET.
  set (sm' := put _ 0 _).
  assert (forall lo m, 80 <= lo -> field sm' lo m = field sm lo m) as Fa
    by (intros; unfold sm'; by rewrite !field_put_above by range).
  assert (forall lo m, 8 <= lo -> 0 <= m -> lo + m <= 72 -> field sm' lo m = field sm lo m) as Fb
    by (intros; unfold sm'; rewrite field_put_above by range; by rewrite field_put_below by range).
  assert (cib_offset sm' = cib_offset sm) as Eo by (apply Fa; unfold SM_CIB_ADDR_OFFSET_OFFSET; lia).
  assert (cib_count sm' = cib_count sm) as Ec by (apply Fb; unfold SM_CIB_COUNT_OFFSET; lia).
  split_and!; [|..|done|done|apply Fb; lia].
  - unfold free_count, SM_FREE_COUNT_OFFSET, sm'. rewrite field_put_above by range. unfold field.
    rewrite get_put_same by range. by apply le_val_field.
  - unfold cib_list. rewrite Eo, Ec. apply map_ext_in. intros i Hi%list_elem_of_In. apply elem_of_seqZ in Hi. apply Fa. lia.
Qed.

Lemma stamped_chunks cib k xid n x :
  cib_ok cib -> 0 <= k < chunk_count cib -> 0 <= n < 2 ^ 32 ->
  let cib' := put (stamped cib k xid n) 0 (le_bytes 8 x) in
  chunk_count cib' = chunk_count cib /\ zlen cib' = zlen cib /\ is_bytes cib' /\
  chunk_at cib' k = (chunk_at cib k) <| ck_free := n |> /\
  forall j, 0 <= j < chunk_count cib -> j <> k -> chunk_at cib' j = chunk_at cib j.
Proof.
  intros Hc Hk Hn. cbv zeta. pose proof (record_fits _ _ Hc Hk) as [R1 R2]. set (cib' := put _ 0 _).
  assert (zlen cib' = zlen cib) as L by (unfold cib', stamped; range).
  assert (forall lo m, 8 <= lo -> 0 <= m -> lo + m <= record_at_slot k -> field cib' lo m = field cib lo m) as Fb
    by (intros; unfold cib', stamped; rewrite field_put_above by range; by rewrite !field_put_below by range).
  assert (forall lo m, record_at_slot k + 24 <= lo -> field cib' lo m = field cib lo m) as Fa
    by (intros; unfold cib', stamped; by rewrite !field_put_above by range).
  assert (forall lo m, record_at_slot k + 8 <= lo -> 0 <= m -> lo + m <= record_at_slot k + 20 -> field cib' lo m = field cib lo m) as Fm
    by (intros; unfold cib', stamped; rewrite field_put_above by range; rewrite field_put_below by range;
        by rewrite field_put_above by range).
  split_and!; [apply Fb; unfold CIB_CHUNK_COUNT_OFFSET; lia|done| |..].
  - unfold cib', stamped. repeat apply is_bytes_put; try apply is_bytes_le_bytes. apply (cb_bytes _ Hc).
  - unfold chunk_at, set_field. cbn [ck_addr ck_blocks ck_bitmap ck_free]. rewrite (Fm (_ + 8)), (Fm (_ + 16)), (Fa (_ + 24)) by lia. f_equal.
    unfold cib', stamped. rewrite field_put_above by range. unfold field. rewrite get_put_same by range. by apply le_val_field.
  - intros j Hj Hne. unfold chunk_at. cbv zeta.
    assert (record_at_slot j + 32 <= record_at_slot k \/ record_at_slot k + 32 <= record_at_slot j) as [|]
      by (unfold record_at_slot, CHUNK_INFO_BYTES, CIB_ARRAY_OFFSET in *; lia);
      (pose proof (record_fits _ _ Hc Hj)); [rewrite !Fb by lia|rewrite !Fa by lia]; done.
Qed.

Lemma chunks_in_ext s s' cibs : (forall q, q ∈ cibs -> block_at s' q = block_at s q) -> chunks_in s' cibs = chunks_in s cibs.
Proof. intros Hq. unfold chunks_in. f_equal. apply map_ext_in. intros q Hi%list_elem_of_In. by rewrite Hq. Qed.

Lemma clear_bits_length b n : 0 <= n -> 0 <= zlen (clear_bits b n) <= n.
Proof.
  intros Hn. split; [done|]. unfold clear_bits, clear_from, zlen.
  pose proof (length_filter (fun i => used b i = false) (seqZ 0 n)) as L. rewrite length_seqZ in L. lia.
Qed.

Section Update.
Context s0 s' (sp : Z) (cpre : list Z) (c : Z) (cpost : list Z) (k xid n : Z) (bitmap : bytes) (cnt : Z).
Context (Hok : spaceman_ok s0 sp) (Hcl : cib_list (block_at s0 sp) = cpre ++ c :: cpost).
Context (Hk : 0 <= k < chunk_count (block_at s0 c)).
Let ck := chunk_at (block_at s0 c) k.
Let ck' := ck <| ck_free := n |>.
Context (Hb : ck_bitmap ck <> 0).
Context (Hup : updated s0 s' sp c (ck_bitmap ck) bitmap (stamped (block_at s0 c) k xid n) (with_count (block_at s0 sp) cnt)).
Context (Hn : n = zlen (clear_bits bitmap (ck_blocks ck))).
Context (Hcnt : cnt = free_count (block_at s0 sp) - ck_free ck + n).

Lemma update_elem : c ∈ cib_list (block_at s0 sp).
Proof. rewrite Hcl. apply elem_of_app. right. by left. Qed.

Lemma update_chunks0 : chunks s0 sp = before s0 cpre c k ++ ck :: after s0 c k cpost.
Proof. unfold chunks. rewrite Hcl. by apply chunks_in_split. Qed.

Lemma update_cib_ok : cib_ok (block_at s0 c).
Proof. apply (elem_cib _ _ _ Hok update_elem). Qed.

Lemma update_ck : ck ∈ chunks s0 sp.
Proof. apply chunk_elem; [apply update_elem|done]. Qed.

Lemma update_n : 0 <= n <= ck_blocks ck /\ n < 2 ^ 32.
Proof.
  destruct (chunk_fields _ _ update_cib_ok Hk) as (_ & P & _). fold ck in P.
  pose proof (clear_bits_length bitmap (ck_blocks ck)). lia.
Qed.

Lemma update_others q : 0 <= q < block_count s0 -> q <> ck_bitmap ck -> q <> c -> q <> sp -> block_at s' q = block_at s0 q.
Proof. apply (up_others _ _ _ _ _ _ _ _ Hup). Qed.

Lemma update_cibs q : q ∈ cpre ++ cpost -> block_at s' q = block_at s0 q.
Proof.
  intros Hq. assert (q ∈ cib_list (block_at s0 sp)) as Hq'.
  { rewrite Hcl. apply elem_of_app. apply elem_of_app in Hq as [|]; [by left|right; by right]. }
  destruct (elem_cib _ _ _ Hok Hq') as [Rq _].
  destruct (distinct_three _ _ _ _ Hok Hq' update_ck Hb) as (N1 & _ & N2).
  apply update_others; [done|done| |done]. intros ->.
  destruct (proj1 (NoDup_cons _ _) (sp_distinct _ _ Hok)) as [_ [N _]%NoDup_app].
  rewrite Hcl in N. apply NoDup_app in N as (_ & Nc & [Nd _]%NoDup_cons).
  apply elem_of_app in Hq as [Hq|Hq]; [|done]. apply (Nc c Hq). by left.
Qed.

Lemma update_bitmaps a : a ∈ bitmaps_of (before s0 cpre c k ++ after s0 c k cpost) -> block_at s' a = block_at s0 a.
Proof.
  intros Ha. destruct (proj1 (NoDup_cons _ _) (sp_distinct _ _ Hok)) as [N1 (_ & N2 & N3)%NoDup_app].
  rewrite not_elem_of_app in N1. rewrite update_chunks0 in *.
  rewrite bitmaps_app, elem_of_app in Ha. rewrite bitmaps_app, bitmaps_cons, decide_True in * by done.
  assert (a ∈ bitmaps_of (before s0 cpre c k) ++ [ck_bitmap ck] ++ bitmaps_of (after s0 c k cpost)) as Ha'.
  { rewrite !elem_of_app. naive_solver. }
  assert (a ∈ bitmaps_of (chunks s0 sp)) as Hin.
  { rewrite update_chunks0, bitmaps_app, bitmaps_cons, decide_True by done. done. }
  apply list_elem_of_filter in Hin as [Hz Hin]. apply list_elem_of_fmap in Hin as (x & -> & Hx).
  destruct (proj1 (Forall_forall _ _) (sp_chunks _ _ Hok) x Hx) as [Hxb _ _]. specialize (Hxb Hz).
  apply update_others; [lia| |intros E; rewrite E in Ha'; exact (N2 _ update_elem Ha')|intros E; rewrite E in Ha'; naive_solver].
  intros E. rewrite E in Ha. apply NoDup_app in N3 as (_ & N4 & [N5 _]%NoDup_cons).
  destruct Ha as [Ha|Ha]; [apply (N4 _ Ha); by left|done].
Qed.

Lemma update_cib_facts :
  chunk_count (block_at s' c) = chunk_count (block_at s0 c) /\ cib_ok (block_at s' c) /\ chunk_at (block_at s' c) k = ck' /\
  forall j, 0 <= j < chunk_count (block_at s0 c) -> j <> k -> chunk_at (block_at s' c) j = chunk_at (block_at s0 c) j.
Proof.
  destruct (up_cib _ _ _ _ _ _ _ _ Hup) as [x ->]. pose proof update_n.
  destruct (stamped_chunks (block_at s0 c) k xid n x update_cib_ok Hk ltac:(lia)) as (E1 & E2 & E3 & E4 & E5).
  split_and!; [done| |done|done]. constructor; [done|]. rewrite E1, E2. apply (cb_fits _ update_cib_ok).
Qed.

Lemma update_sm_facts :
  free_count (block_at s' sp) = cnt /\ cib_list (block_at s' sp) = cib_list (block_at s0 sp) /\
  cib_offset (block_at s' sp) = cib_offset (block_at s0 sp) /\ cib_count (block_at s' sp) = cib_count (block_at s0 sp) /\
  field (block_at s' sp) SM_INDIRECT_CIB_OFFSET 4 = field (block_at s0 sp) SM_INDIRECT_CIB_OFFSET 4.
Proof.
  destruct (up_sm _ _ _ _ _ _ _ _ Hup) as [x ->]. pose proof (sp_session _ _ Hok) as Hs0.
  apply with_count_fields; [by apply is_bytes_block_at|rewrite zlen_block_at by done; apply (sp_size _ _ Hok)|apply (sp_array _ _ Hok)|].
  pose proof update_n. pose proof (sp_total _ _ Hok). pose proof (sp_blocks _ _ Hok).
  assert (Forall (fun x => ck_free x <= ck_blocks x) (chunks s0 sp)) as Hle
    by (eapply Forall_impl; [apply (sp_chunks _ _ Hok)|intros y [_ _ ?]; done]).
  pose proof (chunk_free_nonneg _ _ Hok) as Hnn.
  rewrite update_chunks0, Forall_app, Forall_cons in Hle, Hnn. destruct Hle as (L1 & L2 & L3), Hnn as (M1 & M2 & M3).
  apply sum_of_le in L1, L3. apply sum_of_nonneg in M1, M3.
  rewrite update_chunks0, sum_of_app, sum_of_cons in *. lia.
Qed.

Lemma update_chunks : chunks s' sp = before s0 cpre c k ++ ck' :: after s0 c k cpost.
Proof.
  unfold chunks. destruct update_sm_facts as (_ & -> & _). rewrite Hcl.
  destruct update_cib_facts as (En & _ & Ek & Ej). fold (chunks_in s' (cpre ++ c :: cpost)).
  rewrite (chunks_in_split s' cpre c cpost k) by lia. rewrite Ek. unfold before, after. rewrite En.
  rewrite !(chunks_in_ext s0 s') by (intros; apply update_cibs; apply elem_of_app; auto).
  assert (forall lo m, 0 <= lo -> lo + m <= chunk_count (block_at s0 c) -> (lo + m <= k \/ k < lo) ->
    map (chunk_at (block_at s' c)) (seqZ lo m) = map (chunk_at (block_at s0 c)) (seqZ lo m)) as Em.
  { intros. apply map_ext_in. intros j Hj%list_elem_of_In. apply elem_of_seqZ in Hj. apply Ej; lia. }
  rewrite !Em by lia. done.
Qed.

Lemma update_frees :
  free_list s' sp = frees (block_at s0) (before s0 cpre c k) ++
    map (Z.add (ck_addr ck)) (clear_bits bitmap (ck_blocks ck)) ++ frees (block_at s0) (after s0 c k cpost).
Proof.
  unfold free_list. rewrite update_chunks, frees_app, frees_cons.
  rewrite !(frees_ext (block_at s0) (block_at s')) by (intros; apply update_bitmaps; rewrite bitmaps_app; apply elem_of_app; auto).
  f_equal. f_equal. unfold chunk_frees. change (ck_bitmap ck') with (ck_bitmap ck). change (ck_addr ck') with (ck_addr ck).
  change (ck_blocks ck') with (ck_blocks ck). rewrite (proj2 (Z.eqb_neq _ _)) by done. by rewrite (up_bitmap _ _ _ _ _ _ _ _ Hup).
Qed.

Lemma update_space_ok : spaceman_ok s' sp.
Proof.
  destruct update_sm_facts as (F1 & F2 & F3 & F4 & F5). destruct (up_shape _ _ _ _ _ _ _ _ Hup) as (S1 & S2 & S3).
  destruct update_cib_facts as (_ & Oc & _). pose proof update_n. pose proof (sp_chunks _ _ Hok) as Hch. pose proof (sp_counted _ _ Hok) as Hct.
  rewrite update_chunks0, Forall_app, Forall_cons in Hch, Hct. destruct Hch as (C1 & [B1 B2 B3] & C3), Hct as (D1 & _ & D3).
  constructor.
  - apply (up_session _ _ _ _ _ _ _ _ Hup).
  - rewrite S2. apply (sp_size _ _ Hok).
  - rewrite S3. apply (sp_range _ _ Hok).
  - rewrite F5. apply (sp_direct _ _ Hok).
  - rewrite F3. apply (sp_array _ _ Hok).
  - rewrite F3, F4, S2. apply (sp_array_fits _ _ Hok).
  - rewrite F2, S3. apply Forall_forall. intros q Hq. destruct (elem_cib _ _ _ Hok Hq) as [Rq Oq]. split; [done|].
    destruct (decide (q = c)) as [->|Nq]; [done|]. rewrite update_cibs; [done|].
    rewrite Hcl, elem_of_app, elem_of_cons in Hq. apply elem_of_app. naive_solver.
  - rewrite update_chunks, S2, S3. apply Forall_app. split; [done|]. apply Forall_cons. split; [|done]. constructor; [done|done|].
    change (n <= ck_blocks ck). lia.
  - rewrite F2, update_chunks. pose proof (sp_distinct _ _ Hok) as N. rewrite update_chunks0 in N.
    rewrite bitmaps_app, bitmaps_cons in *. exact N.
  - rewrite update_chunks. pose proof (sp_disjoint _ _ Hok) as N. rewrite update_chunks0 in N. rewrite map_app in *. exact N.
  - rewrite update_chunks. apply Forall_app. 
    assert (forall l, (forall a, a ∈ bitmaps_of l -> block_at s' a = block_at s0 a) -> Forall (counted (block_at s0)) l ->
      Forall (counted (block_at s')) l) as Hx.
    { intros l Ha Hl. rewrite Forall_forall in *. intros x Hx Hz. rewrite (Hl x Hx Hz). unfold chunk_frees.
      by rewrite Ha by (by apply bitmaps_elem). }
    split; [|apply Forall_cons; split].
    + apply Hx; [|done]. intros a Ha. apply update_bitmaps. rewrite bitmaps_app. apply elem_of_app. auto.
    + intros _. change (n = zlen (chunk_frees (block_at s') ck')). unfold chunk_frees. change (ck_bitmap ck') with (ck_bitmap ck).
      change (ck_blocks ck') with (ck_blocks ck). rewrite (proj2 (Z.eqb_neq _ _)) by done.
      rewrite (up_bitmap _ _ _ _ _ _ _ _ Hup). unfold zlen. rewrite length_map. exact Hn.
    + apply Hx; [|done]. intros a Ha. apply update_bitmaps. rewrite bitmaps_app. apply elem_of_app. auto.
  - rewrite F1, update_chunks, Hcnt, (sp_total _ _ Hok), update_chunks0, !sum_of_app, !sum_of_cons. change (ck_free ck') with n. lia.
  - rewrite update_chunks. pose proof (sp_blocks _ _ Hok) as N. rewrite update_chunks0 in N.
    rewrite sum_of_app, sum_of_cons in *. exact N.
Qed.
End Update.

(** The blocks an update touches. *)
Definition touches_three s s' (sp : Z) : Prop :=
  exists c bm, c ∈ cib_list (block_at s sp) /\ bm ∈ bitmaps_of (chunks s sp) /\
    (block_size s mod 4 = 0 -> fletcher64_valid (block_at s' c) = true /\ fletcher64_valid (block_at s' sp) = true) /\
    forall q, 0 <= q < block_count s -> q <> sp -> q <> c -> q <> bm -> block_at s' q = block_at s q.

Lemma chunk_frees_sublist bm ck : 0 <= ck_blocks ck -> chunk_frees bm ck `sublist_of` seqZ (ck_addr ck) (ck_blocks ck).
Proof.
  intros Hn. unfold chunk_frees. destruct (ck_bitmap ck =? 0); [apply sublist_nil_l|].
  rewrite <- (Z.add_0_r (ck_addr ck)) at 2. rewrite <- fmap_add_seqZ. apply fmap_sublist, sublist_filter.
Qed.

Lemma frees_sublist bm l :
  Forall (fun ck => 0 <= ck_blocks ck) l ->
  frees bm l `sublist_of` concat (map (fun ck => seqZ (ck_addr ck) (ck_blocks ck)) l).
Proof.
  induction 1 as [|ck l Hc _ IH]; [done|]. rewrite frees_cons. cbn [map concat]. apply sublist_app; [|done].
  by apply chunk_frees_sublist.
Qed.

Lemma chunk_blocks_nonneg s sp : spaceman_ok s sp -> Forall (fun ck => 0 <= ck_blocks ck) (chunks s sp).
Proof.
  intros Hk. apply Forall_forall. intros ck Hc%list_elem_of_In. apply in_concat in Hc as (l & Hl & Hc).
  apply in_map_iff in Hl as (c & <- & Hl%list_elem_of_In). apply in_map_iff in Hc as (k & <- & Hc%list_elem_of_In).
  apply elem_of_seqZ in Hc. destruct (elem_cib _ _ _ Hk Hl) as [_ Ho]. apply (chunk_fields _ k Ho). lia.
Qed.

Lemma free_list_nodup s sp : spaceman_ok s sp -> NoDup (free_list s sp).
Proof.
  intros Hk. eapply sublist_NoDup; [apply (sp_disjoint _ _ Hk)|apply frees_sublist, chunk_blocks_nonneg, Hk].
Qed.

Lemma read_cibs_spec {A} s sp (f : list Z -> io D SpacemanError A) s' r :
  spaceman_ok s sp -> (do cib_addrs <- read_cib_addrs sp; f cib_addrs) s = (s', r) ->
  (like s s' /\ exists e, r = Err (SmDisc e)) \/ exists s1, like s s1 /\ f (cib_list (block_at s sp)) s1 = (s', r).
Proof.
  intros Hk. unfold read_cib_addrs. unfold iobind at 1 2. destruct (sm_read sp (block_size s) s) as [s1 r1] eqn:R1.
  apply (sm_read_spec s) in R1 as [Hl1 [[e ->]| ->]];
    [intros [= <- <-]; left; eauto| |apply like_refl, (sp_session _ _ Hk)|apply (sp_range _ _ Hk)].
  unfold lift. rewrite cib_addrs_ok by done. intros R. right. eauto.
Qed.

Lemma allocate_spec s sp xid s' r :
  spaceman_ok s sp -> allocate sp xid s = (s', r) ->
  session_ok s' /\
  ((exists e, r = Err (SmDisc e)) \/
   (r = Err OutOfSpace /\ free_list s sp = [] /\ like s s') \/
   (exists p rest, r = Ok p /\ free_list s sp = p :: rest /\ free_list s' sp = rest /\
      free_count (block_at s' sp) = free_count (block_at s sp) - 1 /\ spaceman_ok s' sp /\ touches_three s s' sp)).
Proof.
  intros Hk R. unfold allocate in R. apply read_cibs_spec in R as [[Hl He]|(s1 & Hl1 & R)]; [split; [apply Hl|by left]| |done].
  apply (allocate_cibs_spec s sp xid Hk) in R as [Hs' Hc]; [|done|done]. split; [done|].
  destruct Hc as [He|[(-> & Hl & Hf)|(cpre & c & cpost & k & p & Ecl & -> & Ht & Hf)]]; [by left|by right; left|].
  right; right. destruct Ht as [Hkk Hz (bit & rest & bitmap & Ec & -> & Hu & Hup)].
  set (ck := chunk_at (block_at s c) k) in *. pose proof (clear_bits_set _ _ _ _ _ Ec Hu) as Ec'.
  pose proof (update_elem s sp cpre c cpost Ecl) as Hc. pose proof (chunk_elem s sp c k Hc Hkk) as Hck. fold ck in Hck.
  pose proof (counted_free _ _ _ Hk Hck Hz) as Ef. rewrite Ec, zlen_cons in Ef.
  assert (ck_free ck - 1 = zlen (clear_bits bitmap (ck_blocks ck))) as En by (rewrite Ec'; lia).
  assert (free_count (block_at s sp) - 1 = free_count (block_at s sp) - ck_free ck + (ck_free ck - 1)) as Et by lia.
  exists (ck_addr ck + bit), (map (Z.add (ck_addr ck)) rest ++ frees (block_at s) (after s c k cpost)). split_and!.
  - done.
  - unfold free_list. rewrite (update_chunks0 s sp cpre c cpost k Ecl Hkk), frees_app, Hf, frees_cons. fold ck.
    cbn [app]. unfold chunk_frees at 1. rewrite (proj2 (Z.eqb_neq _ _)), Ec by done. done.
  - rewrite (update_frees s s' sp cpre c cpost k xid _ bitmap _ Hk Ecl Hkk Hz Hup En Et), Hf. fold ck. by rewrite Ec'.
  - exact (proj1 (update_sm_facts s s' sp cpre c cpost k xid _ bitmap _ Hk Ecl Hkk Hup En Et)).
  - exact (update_space_ok s s' sp cpre c cpost k xid _ bitmap _ Hk Ecl Hkk Hz Hup En Et).
  - exists c, (ck_bitmap ck). split_and!; [done|by apply bitmaps_elem|apply (up_valid _ _ _ _ _ _ _ _ Hup)|].
    intros q Hq N1 N2 N3. by apply (up_others _ _ _ _ _ _ _ _ Hup).
Qed.

(** *** Freeing *)

Record given s0 s' (sp c k p xid : Z) : Prop := {
  gv_chunk : 0 <= k < chunk_count (block_at s0 c);
  gv_bitmap : ck_bitmap (chunk_at (block_at s0 c) k) <> 0;
  gv_bits : exists bitmap,
    let ck := chunk_at (block_at s0 c) k in
    0 <= p - ck_addr ck < ck_blocks ck /\ used (block_at s0 (ck_bitmap ck)) (p - ck_addr ck) = true /\
    (forall j, 0 <= j -> used bitmap j = negb (j =? p - ck_addr ck) && used (block_at s0 (ck_bitmap ck)) j) /\
    updated s0 s' sp c (ck_bitmap ck) bitmap
      (stamped (block_at s0 c) k xid (ck_free ck + 1))
      (with_count (block_at s0 sp) (free_count (block_at s0 sp) + 1));
}.

Definition covers (p : Z) (ck : Chunk) : Prop := ck_addr ck <= p < ck_addr ck + ck_blocks ck.

Definition free_outcome s0 sp c xid p (slot : Z) (n : nat) s' (r : res SpacemanError bool) : Prop :=
  session_ok s' /\
  ((exists e, r = Err (SmDisc e)) \/
   (r = Ok false /\ like s0 s' /\ Forall (fun ck => ~ covers p ck) (map (chunk_at (block_at s0 c)) (seqZ slot (Z.of_nat n)))) \/
   (exists ck, r = Err (NotAllocated p) /\ like s0 s' /\ ck ∈ chunks s0 sp /\ covers p ck /\
      (ck_bitmap ck = 0 \/ p ∈ chunk_frees (block_at s0) ck)) \/
   (exists k, r = Ok true /\ given s0 s' sp c k p xid)).

Lemma free_count_room s sp ck :
  spaceman_ok s sp -> ck ∈ chunks s sp -> ck_free ck < ck_blocks ck -> free_count (block_at s sp) + 1 < 2 ^ 64.
Proof.
  intros Hk Hck Hlt. rewrite (sp_total _ _ Hk). pose proof (sp_blocks _ _ Hk).
  assert (forall l, sum_of (fun x => ck_blocks x - ck_free x) l = sum_of ck_blocks l - sum_of ck_free l) as Et
    by (induction l as [|x l IHl]; [done|]; rewrite !sum_of_cons; lia).
  assert (Forall (fun x => 0 <= ck_blocks x - ck_free x) (chunks s sp)) as Hall
    by (eapply Forall_impl; [apply (sp_chunks _ _ Hk)|intros y [_ _ ?]; lia]).
  pose proof (sum_of_elem _ _ ck Hall Hck) as Te. rewrite Et in Te. lia.
Qed.

Lemma free_slots_spec s0 sp c xid p : spaceman_ok s0 sp -> c ∈ cib_list (block_at s0 sp) ->
  forall (n : nat) s slot s' r,
  like s0 s -> 0 <= slot -> slot + Z.of_nat n = chunk_count (block_at s0 c) ->
  free_slots (block_size s0) sp xid p c (block_at s0 c) n slot s = (s', r) ->
  free_outcome s0 sp c xid p slot n s' r.
Proof.
  intros Hk Hc. destruct (elem_cib _ _ _ Hk Hc) as [Rc Oc]. pose proof (sp_session _ _ Hk) as Hs0.
  induction n as [|n IH]; intros s slot s' r Hl Hge0 Hn.
  { cbn [free_slots]. intros [= <- <-]. split; [apply Hl|]. right; left. done. }
  cbn [free_slots]. rewrite record_too_many by (done || lia).
  destruct (record_reads (E := SpacemanError) (block_at s0 c) slot Oc ltac:(lia)) as (E1 & E2 & E3 & E4).
  destruct (chunk_fields (block_at s0 c) slot Oc ltac:(lia)) as (P1 & P2 & P3 & P4).
  pose proof (chunk_elem s0 sp c slot Hc ltac:(lia)) as Hck.
  set (ck := chunk_at (block_at s0 c) slot) in *. rewrite E1, E2, !bind_ok.
  destruct (proj1 (Forall_forall _ _) (sp_chunks _ _ Hk) ck Hck) as [Hb Ha Hfr].
  assert ((if p <? ck_addr ck then Ok true else
           let? fin := add_or_panic (E := SpacemanError) 64 (ck_addr ck) (ck_blocks ck) in Ok (fin <=? p)) =
          Ok (negb (bool_decide (covers p ck)))) as ->.
  { unfold add_or_panic, checked_add, covers. rewrite (proj2 (Z.ltb_lt _ _) Ha). cbn [or_panic res_bind].
    destruct (p <? ck_addr ck) eqn:T; bools; [by rewrite bool_decide_eq_false_2 by lia|]. f_equal.
    destruct (_ <=? p) eqn:T2; bools; [by rewrite bool_decide_eq_false_2 by lia|by rewrite bool_decide_eq_true_2 by lia]. }
  rewrite bind_ok. case_bool_decide as Cv; cbn [negb].
  2:{ intros R. destruct (IH s (slot + 1) s' r Hl ltac:(lia) ltac:(lia) R) as [Hs' [He|[(-> & Hl' & Hf)|Hrest]]]; (split; [done|]); [by left| |auto].
      right; left. split_and!; [done..|]. rewrite Nat2Z.inj_succ, seqZ_cons, Z.pred_succ by lia. cbn [map]. by constructor. }
  clear IH. rewrite E4, bind_ok. destruct (Z.eqb_spec (ck_bitmap ck) 0) as [Hz|Hz].
  { intros [= <- <-]. split; [apply Hl|]. right; right; left. exists ck. split_and!; eauto. }
  destruct (Hb Hz) as [Rb Sb].
  unfold iobind at 1. destruct (sm_read (ck_bitmap ck) (block_size s0) s) as [s1 r1] eqn:R1.
  apply (sm_read_spec s0) in R1 as [Hl1 [[e ->]| ->]]; [by intros [= <- <-]; split; [apply Hl1|eauto]| |done|lia].
  pose proof (zlen_block_at s0 (ck_bitmap ck) Hs0) as Lb. pose proof (is_bytes_block_at s0 (ck_bitmap ck) Hs0) as Bb.
  unfold covers in Cv. rewrite bit_at_eq, bind_ok by lia.
  destruct (used (block_at s0 (ck_bitmap ck)) (p - ck_addr ck)) eqn:U; cbn [Z.b2z Z.eqb].
  2:{ intros [= <- <-]. split; [apply Hl1|]. right; right; left. exists ck. split_and!; [done..|]. right. unfold chunk_frees.
      rewrite (proj2 (Z.eqb_neq _ _)) by done. apply list_elem_of_In, in_map_iff. exists (p - ck_addr ck). split; [lia|].
      apply list_elem_of_In, list_elem_of_filter. split; [done|]. apply elem_of_seqZ. lia. }
  destruct (clear_bit_spec (E := SpacemanError) (block_at s0 (ck_bitmap ck)) (p - ck_addr ck) Bb ltac:(lia)) as (b' & Es & Lb' & Bb' & Hu).
  rewrite Es, bind_ok, E3, bind_ok.
  pose proof (clear_bits_clear _ _ (p - ck_addr ck) (ck_blocks ck) ltac:(lia) U Hu) as Pm.
  pose proof (counted_free _ _ _ Hk Hck Hz) as Ef. pose proof (clear_bits_length b' (ck_blocks ck) ltac:(lia)) as Lc'.
  unfold zlen in Lc'. rewrite (Permutation_length Pm) in Lc'. cbn [length] in Lc'. unfold zlen in Ef.
  pose proof (free_count_room s0 sp ck Hk Hck ltac:(lia)) as Hfc.
  destruct (distinct_three _ _ _ _ Hk Hc Hck Hz) as (N1 & N2 & N3).
  pose proof (sp_size _ _ Hk) as Hsz. pose proof (zlen_block_at s0 sp Hs0) as Lsp. pose proof (zlen_block_at s0 c Hs0) as Lc.
  destruct (stamp_ok (E := SpacemanError) (block_at s0 c) slot xid (ck_free ck + 1) Oc ltac:(lia)) as (Est & Lst & Bst).
  destruct (with_count_facts (block_at s0 sp) (free_count (block_at s0 sp) + 1) (is_bytes_block_at _ _ Hs0) ltac:(lia)) as [Lw Bw].
  assert (add_or_panic (E := SpacemanError) 32 (ck_free ck) 1 = Ok (ck_free ck + 1)) as Eap
    by (unfold add_or_panic, checked_add; by rewrite (proj2 (Z.ltb_lt _ _)) by lia).
  assert (increment_free_count_in (block_at s0 sp) = Ok (with_count (block_at s0 sp) (free_count (block_at s0 sp) + 1))) as Eic
    by (apply increment_ok; lia).
  pose proof (sp_range _ _ Hk). rewrite Eap, bind_ok. intros R.
  apply (commit_spec s0 s1 sp c (ck_bitmap ck) b' (stamped (block_at s0 c) slot xid (ck_free ck + 1))
    (with_count (block_at s0 sp) (free_count (block_at s0 sp) + 1)) _ increment_free_count_in true)
    in R as [Hs' [He|[-> Hup]]]; [by split; [|left]| |done || lia..].
  split; [done|]. right; right; right. exists slot. split; [done|]. constructor; [lia|done|]. exists b'. cbv zeta. fold ck. split_and!; [lia|lia|done..].
Qed.

Lemma free_cibs_spec s0 sp xid p : spaceman_ok s0 sp ->
  forall l s s' r, like s0 s -> (forall c, c ∈ l -> c ∈ cib_list (block_at s0 sp)) ->
  free_cibs (block_size s0) sp xid p l s = (s', r) ->
  session_ok s' /\
  ((exists e, r = Err (SmDisc e)) \/
   (r = Err (NoSuchChunk p) /\ like s0 s' /\ Forall (fun ck => ~ covers p ck) (chunks_in s0 l)) \/
   (exists ck, r = Err (NotAllocated p) /\ like s0 s' /\ ck ∈ chunks s0 sp /\ covers p ck /\
      (ck_bitmap ck = 0 \/ p ∈ chunk_frees (block_at s0) ck)) \/
   (exists cpre c cpost k, l = cpre ++ c :: cpost /\ r = Ok tt /\ given s0 s' sp c k p xid)).
Proof.
  intros Hk. induction l as [|c l IH]; intros s s' r Hl Hin.
  { cbn [free_cibs]. intros [= <- <-]. split; [apply Hl|]. right; left. done. }
  cbn [free_cibs]. pose proof (Hin c ltac:(by left)) as Hc. destruct (elem_cib _ _ _ Hk Hc) as [Rc Oc].
  pose proof (sp_session _ _ Hk) as Hs0. pose proof (sp_size _ _ Hk). pose proof (zlen_block_at s0 c Hs0).
  unfold iobind at 1. destruct (sm_read c (block_size s0) s) as [s1 r1] eqn:R1.
  apply (sm_read_spec s0) in R1 as [Hl1 [[e ->]| ->]]; [by intros [= <- <-]; split; [apply Hl1|eauto]| |done|lia].
  destruct (count_read (E := SpacemanError) (block_at s0 c) (cb_bytes _ Oc) ltac:(lia)) as [-> Hn]. rewrite bind_ok.
  unfold iobind at 1. destruct (free_slots _ _ _ _ _ _ _ _ s1) as [s2 r2] eqn:R2.
  apply (free_slots_spec s0 sp c xid p Hk Hc) in R2
    as [Hs2 [[e ->]|[(-> & Hl2 & Hf)|[(ck & -> & Hl2 & Hck)|(k & -> & Hg)]]]];
    [intros [= <- <-]; eauto| |intros [= <- <-]; eauto 10|intros [= <- <-]|done|lia|lia].
  - intros R. rewrite Z2Nat.id in Hf by lia.
    destruct (IH s2 s' r Hl2 ltac:(intros; apply Hin; by right) R) as [Hs' [He|[(-> & Hl' & Hf')|[Hna|Hok]]]]; (split; [done|]); auto.
    + right; left. split_and!; [done..|]. unfold chunks_in in *. cbn [map concat]. by apply Forall_app.
    + destruct Hok as (cpre & c' & cpost & k & -> & -> & Hg). right; right; right. by exists (c :: cpre), c', cpost, k.
  - split; [done|]. right; right; right. by exists [], c, l, k.
Qed.

Lemma free_spec s sp xid p s' r :
  spaceman_ok s sp -> free sp xid p s = (s', r) ->
  session_ok s' /\
  ((exists e, r = Err (SmDisc e)) \/
   (r = Err (NoSuchChunk p) /\ like s s' /\ Forall (fun ck => ~ covers p ck) (chunks s sp)) \/
   (r = Err (NotAllocated p) /\ like s s' /\
      (p ∈ free_list s sp \/ exists ck, ck ∈ chunks s sp /\ covers p ck /\ ck_bitmap ck = 0)) \/
   (r = Ok tt /\ free_list s' sp ≡ₚ p :: free_list s sp /\
      free_count (block_at s' sp) = free_count (block_at s sp) + 1 /\ spaceman_ok s' sp /\ touches_three s s' sp)).
Proof.
  intros Hk R. unfold free in R. apply read_cibs_spec in R as [[Hl He]|(s1 & Hl1 & R)]; [split; [apply Hl|by left]| |done].
  apply (free_cibs_spec s sp xid p Hk) in R as [Hs' Hc]; [|done|done]. split; [done|].
  destruct Hc as [He|[(-> & Hl & Hf)|[(ck & -> & Hl & Hck & Hcv & Hor)|(cpre & c & cpost & k & Ecl & -> & Hg)]]]; [by left|by right; left|..].
  { right; right; left. split_and!; [done..|]. destruct Hor as [Hz|Hf]; [right; by exists ck|left].
    unfold free_list, frees. apply list_elem_of_In, in_concat. exists (chunk_frees (block_at s) ck).
    split; [apply in_map|]; by apply list_elem_of_In. }
  right; right; right. destruct Hg as [Hkk Hz (bitmap & Hr & Hus & Hu & Hup)].
  set (ck := chunk_at (block_at s c) k) in *. pose proof (clear_bits_clear _ _ _ _ Hr Hus Hu) as Pm.
  pose proof (update_elem s sp cpre c cpost Ecl) as Hc. pose proof (chunk_elem s sp c k Hc Hkk) as Hck. fold ck in Hck.
  pose proof (counted_free _ _ _ Hk Hck Hz) as Ef. pose proof (Permutation_length Pm) as Lp. cbn [length] in Lp.
  assert (ck_free ck + 1 = zlen (clear_bits bitmap (ck_blocks ck))) as En by (unfold zlen in *; lia).
  assert (free_count (block_at s sp) + 1 = free_count (block_at s sp) - ck_free ck + (ck_free ck + 1)) as Et by lia.
  split_and!.
  - done.
  - rewrite (update_frees s s' sp cpre c cpost k xid _ bitmap _ Hk Ecl Hkk Hz Hup En Et). fold ck.
    unfold free_list. rewrite (update_chunks0 s sp cpre c cpost k Ecl Hkk), frees_app, frees_cons. fold ck.
    unfold chunk_frees. rewrite (proj2 (Z.eqb_neq _ _)) by done.
    rewrite Pm. cbn [map]. rewrite (Z.add_comm (ck_addr ck)), Z.sub_add. cbn [app]. symmetry. apply Permutation_middle.
  - exact (proj1 (update_sm_facts s s' sp cpre c cpost k xid _ bitmap _ Hk Ecl Hkk Hup En Et)).
  - exact (update_space_ok s s' sp cpre c cpost k xid _ bitmap _ Hk Ecl Hkk Hz Hup En Et).
  - exists c, (ck_bitmap ck). split_and!; [done|by apply bitmaps_elem|apply (up_valid _ _ _ _ _ _ _ _ Hup)|].
    intros q Hq N1 N2 N3. by apply (up_others _ _ _ _ _ _ _ _ Hup).
Qed.
End OnLawfulDisc.

(** *** Properties *)

(** C33. Allocating on the disc, over any lawful backend: either the backend failed;
    or the free list is empty, the error is OutOfSpace and no block changed; or
    the result is the head of the free list, the free list that remains is its
    tail (so the block is not handed out again), the space manager is well
    formed, its counts still agree with its bitmaps, and only the space
    manager, one chunk-info block and one bitmap block were written, the first
    two with valid checksums.  It never panics and reports no other error. *)
Theorem allocate_takes_head {D} `{LawfulImage D} (s s' : RepairSession D) sp xid r :
  spaceman_ok s sp -> allocate sp xid s = (s', r) ->
  (exists e, r = Err (SmDisc e)) \/
  (r = Err OutOfSpace /\ free_list s sp = [] /\ same_blocks s s') \/
  (exists p rest, r = Ok p /\ free_list s sp = p :: rest /\ free_list s' sp = rest /\ p ∉ rest /\
     free_count (block_at s' sp) = free_count (block_at s sp) - 1 /\
     spaceman_ok s' sp /\ touches_three s s' sp).
Proof.
  intros Hk R. apply allocate_spec in R as [_ Hc]; [|done].
  destruct Hc as [He|[(-> & Hf & Hl)|(p & rest & -> & Hf & Hf' & Hn & Hk' & Ht)]]; [by left|right; left; by split_and!; try apply Hl|].
  right; right. exists p, rest. pose proof (free_list_nodup _ _ Hk) as N. rewrite Hf in N. by apply NoDup_cons in N as [N _].
Qed.

(** Freeing an address: either the backend failed; or the address lies in no
    chunk (NoSuchChunk) or is not marked allocated (NotAllocated: it is free,
    or its chunk has no bitmap) and no block changed; or it was allocated and
    is now free, every other address keeps its state, the counts grow by one
    and the space manager is well formed.  It never panics and reports no
    other error. *)
Theorem free_gives_back {D} `{LawfulImage D} (s s' : RepairSession D) sp xid p r :
  spaceman_ok s sp -> free sp xid p s = (s', r) ->
  (exists e, r = Err (SmDisc e)) \/
  (r = Err (NoSuchChunk p) /\ Forall (fun ck => ~ covers p ck) (chunks s sp) /\ same_blocks s s') \/
  (r = Err (NotAllocated p) /\ same_blocks s s' /\
     (p ∈ free_list s sp \/ exists ck, ck ∈ chunks s sp /\ covers p ck /\ ck_bitmap ck = 0)) \/
  (r = Ok tt /\ p ∉ free_list s sp /\ free_list s' sp ≡ₚ p :: free_list s sp /\
     free_count (block_at s' sp) = free_count (block_at s sp) + 1 /\
     spaceman_ok s' sp /\ touches_three s s' sp).
Proof.
  intros Hk R. apply free_spec in R as [_ Hc]; [|done].
  destruct Hc as [He|[(-> & Hl & Hf)|[(-> & Hl & Hor)|(-> & Hp & Hn & Hk' & Ht)]]];
    [by left|right; left; by split_and!; try apply Hl|right; right; left; by split_and!; try apply Hl|].
  right; right; right. pose proof (free_list_nodup _ _ Hk') as N. rewrite Hp in N. by apply NoDup_cons in N as [N _].
Qed.

(** *** A concrete container: one chunk without a bitmap, one with six blocks in use *)

Definition sample_sm : bytes :=
  zeros 64 ++ le_bytes 4 1 ++ le_bytes 4 0 ++ le_bytes 8 18 ++ le_bytes 4 88 ++ zeros 4 ++ le_bytes 8 2 ++ zeros 32.
Definition sample_cib : bytes :=
  zeros 36 ++ le_bytes 4 2 ++
  (le_bytes 8 0 ++ le_bytes 8 16 ++ le_bytes 4 8 ++ le_bytes 4 8 ++ le_bytes 8 0) ++
  (le_bytes 8 0 ++ le_bytes 8 0 ++ le_bytes 4 16 ++ le_bytes 4 10 ++ le_bytes 8 3) ++ zeros 24.
Definition sample_bitmap : bytes := [0x4F; 0x80] ++ zeros 126.
Definition sample_space : RepairSession MemoryImage :=
  new_session {| image_bytes := zeros 128 ++ sample_sm ++ sample_cib ++ sample_bitmap ++ zeros (128 * 12) |} 0 128 16.

Lemma sample_space_ok : spaceman_ok sample_space 1.
Proof.
  assert (chunks sample_space 1 = [Build_Chunk 16 8 8 0; Build_Chunk 0 16 10 3]) as Ec by (vm_compute; reflexivity).
  assert (cib_list (block_at sample_space 1) = [2]) as El by (vm_compute; reflexivity).
  constructor; rewrite ?Ec, ?El.
  - constructor; [apply is_bytes_forallb; vm_compute; reflexivity|by_compute..].
  - by_compute.
  - by_compute.
  - vm_compute; reflexivity.
  - by_compute.
  - by_compute.
  - constructor; [|constructor]. split; [by_compute|]. constructor; [apply is_bytes_forallb; vm_compute; reflexivity|by_compute].
  - repeat constructor; by_compute.
  - apply (bool_decide_unpack _). vm_compute. exact I.
  - apply (bool_decide_unpack _). vm_compute. exact I.
  - constructor; [intros N; by destruct N|]. constructor; [intros _; vm_compute; reflexivity|constructor].
  - vm_compute; reflexivity.
  - vm_compute; reflexivity.
Qed.

Lemma allocate_takes_head_witness :
  exists s' rest, allocate 1 7 sample_space = (s', Ok 4) /\ free_list sample_space 1 = 4 :: rest /\ free_list s' 1 = rest.
Proof.
  destruct (allocate 1 7 sample_space) as [s' r] eqn:R.
  assert (r = Ok 4) as Hr by (apply (f_equal snd) in R; vm_compute in R; by rewrite <- R).
  destruct (allocate_takes_head sample_space s' 1 7 r sample_space_ok R)
    as [[e E]|[(E & _)|(p & rest & E & Hf & Hf' & _)]]; [congruence|congruence|].
  assert (p = 4) as -> by congruence. exists s', rest. rewrite Hr. split; [done|]. by split.
Defined.

Lemma free_gives_back_witness :
  exists s', free 1 7 6 sample_space = (s', Ok tt) /\ free_list s' 1 ≡ₚ 6 :: free_list sample_space 1.
Proof.
  destruct (free 1 7 6 sample_space) as [s' r] eqn:R.
  assert (r = Ok tt) as Hr by (apply (f_equal snd) in R; vm_compute in R; by rewrite <- R).
  destruct (free_gives_back sample_space s' 1 7 6 r sample_space_ok R)
    as [[e E]|[(E & _)|[(E & _)|(_ & _ & Hp & _)]]]; [congruence|congruence|congruence|].
  exists s'. rewrite Hr. by split.
Defined.
