(* ===== verification/PrivateSpace.v ===== *)
(** * The private space manager (PrivateSpaceman of src/src/repair_writer/spaceman.rs)

    A copy of the space manager, its chunk-info blocks and bitmaps in memory.
    Allocations change the copy; [materialize] gives every changed block a new
    address, allocated from the copy itself, and writes it there, so that the
    blocks in use stay as they are until a checkpoint points at the new ones. *)

From S2P Require Import Prelude ApfsObject Spaceman.
From stdpp Require Import base tactics numbers list strings.
From Stdlib Require Import ZArith Lia.

Open Scope Z_scope.

Record BitmapCopy := {
  bm_original_paddr : Z;
  bm_cow_paddr : option Z;
  bm_block : bytes;
  bm_dirty : bool;
}.
#[export] Instance eta_bitmap : Eta BitmapCopy := fun b =>
  Build_BitmapCopy (bm_original_paddr b) (bm_cow_paddr b) (bm_block b) (bm_dirty b).

Record CibCopy := {
  cib_original_paddr : Z;
  cib_cow_paddr : option Z;
  cib_block : bytes;
  cib_dirty : bool;
  bitmaps : list BitmapCopy;
}.
#[export] Instance eta_cib : Eta CibCopy := fun c =>
  Build_CibCopy (cib_original_paddr c) (cib_cow_paddr c) (cib_block c) (cib_dirty c) (bitmaps c).

Record PrivateSpaceman := { spaceman : bytes; cibs : list CibCopy }.
#[export] Instance eta_private : Eta PrivateSpaceman := fun p => Build_PrivateSpaceman (spaceman p) (cibs p).

Definition current_paddr (b : BitmapCopy) : Z := default (bm_original_paddr b) (bm_cow_paddr b).

(** Code on a mutable value of type [S] that can fail: the value as it stands
    is returned with the error. *)
Definition st (S E A : Type) : Type := S -> S * res E A.
Definition stbind {S E A B} (m : st S E A) (k : A -> st S E B) : st S E B := fun x =>
  match m x with
  | (x, Ok a) => k a x
  | (x, Err e) => (x, Err e)
  | (x, Panic) => (x, Panic)
  end.
Definition pure {S E A} (r : res E A) : st S E A := fun x => (x, r).
Definition modify {S E} (f : S -> S) : st S E unit := fun x => (f x, Ok tt).
Definition read {S E A} (f : S -> A) : st S E A := fun x => (x, Ok (f x)).

Declare Scope st_scope.
Delimit Scope st_scope with st.
Notation "'let!' x ':=' m 'in' k" := (stbind m (fun x => k))
  (at level 10, x pattern, m at level 100, k at level 200) : st_scope.
Open Scope st_scope.

(** ** Loading *)

Section Load.
Context {D : Type} `{ImageIo D}.

Fixpoint load_bitmaps (size : Z) (cib : bytes) (n : nat) (slot : Z) : io D SpacemanError (list BitmapCopy) :=
  match n with
  | O => lift (Ok [])
  | S n =>
      let record_at := record_at_slot slot in
      if zlen cib <? record_at + CHUNK_INFO_BYTES then lift (Err too_many_chunks) else
      do bitmap_addr <- lift (u64_at cib (record_at + 24));
      if bitmap_addr =? 0 then load_bitmaps size cib n (slot + 1) else
      do bitmap <- sm_read bitmap_addr size;
      do rest <- load_bitmaps size cib n (slot + 1);
      lift (Ok ({| bm_original_paddr := bitmap_addr; bm_cow_paddr := None; bm_block := bitmap; bm_dirty := false |} :: rest))
  end.

Fixpoint load_cibs (size : Z) (cib_addrs : list Z) : io D SpacemanError (list CibCopy) :=
  match cib_addrs with
  | [] => lift (Ok [])
  | cib_paddr :: cib_addrs =>
      do cib <- sm_read cib_paddr size;
      do chunks <- lift (u32_at cib CIB_CHUNK_COUNT_OFFSET);
      do bms <- load_bitmaps size cib (Z.to_nat chunks) 0;
      do rest <- load_cibs size cib_addrs;
      lift (Ok ({| cib_original_paddr := cib_paddr; cib_cow_paddr := None; cib_block := cib; cib_dirty := false;
                   bitmaps := bms |} :: rest))
  end.

Definition load (spaceman_paddr : Z) : io D SpacemanError PrivateSpaceman := fun s =>
  let size := block_size s in
  (do sm <- sm_read spaceman_paddr size;
   do cib_addrs <- lift (cib_addrs_from_block sm);
   do cs <- load_cibs size cib_addrs;
   lift (Ok {| spaceman := sm; cibs := cs |})) s.
End Load.

(** ** Allocating *)

(** [bitmaps.iter_mut().find(|bitmap| bitmap.original_paddr == bitmap_addr)], as a position. *)
Fixpoint find_bitmap (p : BitmapCopy -> bool) (l : list BitmapCopy) : option (nat * BitmapCopy) :=
  match l with
  | [] => None
  | b :: l => if p b then Some (O, b) else '(i, b) ← find_bitmap p l; Some (S i, b)
  end.

(** The slots of one chunk-info block: the chunk's address and the bit taken. *)
Fixpoint private_slots (xid : Z) (n : nat) (slot : Z) : st CibCopy SpacemanError (option (Z * Z)) :=
  match n with
  | O => pure (Ok None)
  | S n =>
      let next := private_slots xid n (slot + 1) in
      let record_at := record_at_slot slot in
      let! block := read cib_block in
      if zlen block <? record_at + CHUNK_INFO_BYTES then pure (Err too_many_chunks) else
      let! chunk_addr := pure (u64_at block (record_at + 8)) in
      let! chunk_blocks := pure (u32_at block (record_at + 16)) in
      let! bitmap_addr := pure (u64_at block (record_at + 24)) in
      if bitmap_addr =? 0 then next else
      let! bms := read bitmaps in
      match find_bitmap (fun b => bm_original_paddr b =? bitmap_addr) bms with
      | None => next
      | Some (i, bitmap) =>
          let! found := pure (find_clear (bm_block bitmap) (Z.to_nat chunk_blocks) 0) in
          match found with
          | None => next
          | Some bit =>
              let! b := pure (set_bit (bm_block bitmap) bit) in
              let! _ := modify (fun c => c <| bitmaps := <[i := bitmap <| bm_block := b |> <| bm_dirty := true |>]> bms |>) in
              let! recorded_free := pure (u32_at block (record_at + 20)) in
              let! new_free := pure (ok_or (checked_sub recorded_free 1)
                                       (SmMalformed "chunk free count is already zero but a clear bit was found")) in
              let! block := pure (stamp_record record_at xid new_free block) in
              let! _ := modify (fun c => c <| cib_block := block |> <| cib_dirty := true |>) in
              pure (Ok (Some (chunk_addr, bit)))
          end
      end
  end.

Definition private_slots_all (xid : Z) : st CibCopy SpacemanError (option (Z * Z)) :=
  let! block := read cib_block in
  let! chunks := pure (u32_at block CIB_CHUNK_COUNT_OFFSET) in
  private_slots xid (Z.to_nat chunks) 0.

(** The chunk-info blocks, then the free count of the space manager block. *)
Fixpoint private_cibs (xid : Z) (sm : bytes) (cs : list CibCopy) : bytes * list CibCopy * res SpacemanError Z :=
  match cs with
  | [] => (sm, [], Err OutOfSpace)
  | cib :: cs =>
      match private_slots_all xid cib with
      | (cib, Ok None) => let '(sm, cs, r) := private_cibs xid sm cs in (sm, cib :: cs, r)
      | (cib, Ok (Some (chunk_addr, bit))) =>
          match decrement_free_count_in sm with
          | Ok sm => (sm, cib :: cs, add_or_panic 64 chunk_addr bit)
          | Err e => (sm, cib :: cs, Err e)
          | Panic => (sm, cib :: cs, Panic)
          end
      | (cib, Err e) => (sm, cib :: cs, Err e)
      | (cib, Panic) => (sm, cib :: cs, Panic)
      end
  end.

Definition private_allocate (xid : Z) : st PrivateSpaceman SpacemanError Z := fun p =>
  let '(sm, cs, r) := private_cibs xid (spaceman p) (cibs p) in ({| spaceman := sm; cibs := cs |}, r).

(** ** Materializing *)

Definition cib_nth (i : nat) : st PrivateSpaceman SpacemanError CibCopy := fun p => (p, or_panic (cibs p !! i)).
Definition set_cib (i : nat) (f : CibCopy -> CibCopy) : st PrivateSpaceman SpacemanError unit :=
  modify (fun p => p <| cibs := alter f i (cibs p) |>).

(** New addresses for a changed chunk-info block and its changed bitmaps;
    the result tells whether one was assigned. *)
Definition assign_cib (xid : Z) (i : nat) : st PrivateSpaceman SpacemanError bool :=
  let! cib := cib_nth i in
  if cib_dirty cib && negb (bool_decide (is_Some (cib_cow_paddr cib))) then
    let! paddr := private_allocate xid in
    let! _ := set_cib i (fun c => c <| cib_cow_paddr := Some paddr |>) in
    pure (Ok true)
  else pure (Ok false).

Definition assign_bitmap (xid : Z) (i j : nat) : st PrivateSpaceman SpacemanError bool :=
  let! cib := cib_nth i in
  let! b := pure (or_panic (bitmaps cib !! j)) in
  if bm_dirty b && negb (bool_decide (is_Some (bm_cow_paddr b))) then
    let! paddr := private_allocate xid in
    let! _ := set_cib i (fun c => c <| bitmaps := alter (fun b => b <| bm_cow_paddr := Some paddr |>) j (bitmaps c) |>) in
    pure (Ok true)
  else pure (Ok false).

(** [for bitmap_index in ..]: [n] of them from [j]. *)
Fixpoint assign_bitmaps (xid : Z) (i n j : nat) : st PrivateSpaceman SpacemanError bool :=
  match n with
  | O => pure (Ok false)
  | S n =>
      let! a := assign_bitmap xid i j in
      let! b := assign_bitmaps xid i n (S j) in
      pure (Ok (a || b))
  end.

Fixpoint assign_pass (xid : Z) (n i : nat) : st PrivateSpaceman SpacemanError bool :=
  match n with
  | O => pure (Ok false)
  | S n =>
      let! a := assign_cib xid i in
      let! cib := cib_nth i in
      let! b := assign_bitmaps xid i (length (bitmaps cib)) 0 in
      let! c := assign_pass xid n (S i) in
      pure (Ok (a || b || c))
  end.

(** [loop { .. if !assigned { break } }]. *)
Fixpoint assign_loop (xid : Z) (fuel : nat) : st PrivateSpaceman SpacemanError unit :=
  match fuel with
  | O => pure Panic
  | S fuel =>
      let! n := read (fun p => length (cibs p)) in
      let! assigned := assign_pass xid n 0 in
      if assigned : bool then assign_loop xid fuel else pure (Ok tt)
  end.

(** The records of a chunk-info block point at the new bitmaps. *)
Fixpoint patch_slots (n : nat) (slot : Z) : st CibCopy SpacemanError unit :=
  match n with
  | O => pure (Ok tt)
  | S n =>
      let record_at := record_at_slot slot in
      let! block := read cib_block in
      let! bms := read bitmaps in
      let! bitmap_addr := pure (u64_at block (record_at + 24)) in
      let! _ :=
        match find_bitmap (fun b => (bm_original_paddr b =? bitmap_addr) || (current_paddr b =? bitmap_addr)) bms with
        | Some (_, b) =>
            match bm_cow_paddr b with
            | Some cow =>
                let! block := pure (copy_at block (record_at + 24) (le_bytes 8 cow)) in
                modify (fun c => c <| cib_block := block |> <| cib_dirty := true |>)
            | None => pure (Ok tt)
            end
        | None => pure (Ok tt)
        end in
      patch_slots n (slot + 1)
  end.

Section Publish.
Context {D : Type} `{ImageIo D}.

Fixpoint write_bitmaps (l : list BitmapCopy) : io D SpacemanError unit :=
  match l with
  | [] => lift (Ok tt)
  | b :: l =>
      do _ <- match bm_cow_paddr b with
              | Some cow => sm_write cow (bm_block b)
              | None => lift (Ok tt)
              end;
      write_bitmaps l
  end.

Definition cib_image {E} (xid cow : Z) (block : bytes) : res E bytes :=
  let? block := copy_at block OID_OFFSET (le_bytes 8 cow) in
  let? block := copy_at block XID_OFFSET (le_bytes 8 xid) in
  fletcher64_seal block.

Definition write_cib (xid : Z) (c : CibCopy) : io D SpacemanError unit :=
  match cib_cow_paddr c with
  | Some cow => do block <- lift (cib_image xid cow (cib_block c)); sm_write cow block
  | None => lift (Ok tt)
  end.

(** One turn of [for (index, cib) in self.cibs.iter_mut().enumerate()]: the
    changed copy, the space manager block and the disc. *)
Definition publish_cib (xid cib_count cib_addr_offset index : Z) (c : CibCopy) (sm : bytes) (s : RepairSession D)
  : CibCopy * bytes * (RepairSession D * res SpacemanError unit) :=
  match (let! block := read cib_block in
         let! n := pure (u32_at block CIB_CHUNK_COUNT_OFFSET) in
         patch_slots (Z.to_nat n) 0) c with
  | (c, Ok _) =>
      let cib_paddr := default (cib_original_paddr c) (cib_cow_paddr c) in
      match (if index <? cib_count then copy_at sm (cib_addr_offset + index * 8) (le_bytes 8 cib_paddr) else Ok sm) with
      | Ok sm => (c, sm, (do _ <- write_bitmaps (bitmaps c); write_cib xid c) s)
      | Err e => (c, sm, (s, Err e))
      | Panic => (c, sm, (s, Panic))
      end
  | (c, Err e) => (c, sm, (s, Err e))
  | (c, Panic) => (c, sm, (s, Panic))
  end.

Fixpoint publish (xid cib_count cib_addr_offset index : Z) (cs : list CibCopy) (sm : bytes) (s : RepairSession D)
  : list CibCopy * bytes * (RepairSession D * res SpacemanError unit) :=
  match cs with
  | [] => ([], sm, (s, Ok tt))
  | c :: cs =>
      match publish_cib xid cib_count cib_addr_offset index c sm s with
      | (c, sm, (s, Ok _)) =>
          let '(cs, sm, r) := publish xid cib_count cib_addr_offset (index + 1) cs sm s in (c :: cs, sm, r)
      | (c, sm, (s, Err e)) => (c :: cs, sm, (s, Err e))
      | (c, sm, (s, Panic)) => (c :: cs, sm, (s, Panic))
      end
  end.

Definition copies (p : PrivateSpaceman) : nat :=
  (length (cibs p) + length (concat (map bitmaps (cibs p))))%nat.

Definition materialize (xid : Z) (p : PrivateSpaceman) (s : RepairSession D)
  : PrivateSpaceman * (RepairSession D * res SpacemanError bytes) :=
  match assign_loop xid (S (copies p)) p with
  | (p, Ok _) =>
      match (let? cib_count := u32_at (spaceman p) SM_CIB_COUNT_OFFSET in
             let? cib_addr_offset := u32_at (spaceman p) SM_CIB_ADDR_OFFSET_OFFSET in
             Ok (cib_count, cib_addr_offset)) with
      | Ok (cib_count, cib_addr_offset) =>
          let '(cs, sm, (s, r)) := publish xid cib_count cib_addr_offset 0 (cibs p) (spaceman p) s in
          ({| spaceman := sm; cibs := cs |}, (s, let? _ := r in Ok sm))
      | Err e => (p, (s, Err e))
      | Panic => (p, (s, Panic))
      end
  | (p, Err e) => (p, (s, Err e))
  | (p, Panic) => (p, (s, Panic))
  end.
End Publish.

(** ** The free list of a private copy *)

Definition with_original (a : Z) (b : BitmapCopy) : bool := bm_original_paddr b =? a.
Definition bitmap_of (c : CibCopy) (a : Z) : bytes :=
  match find_bitmap (with_original a) (bitmaps c) with
  | Some (_, b) => bm_block b
  | None => []
  end.

Definition copy_chunks (c : CibCopy) : list Chunk := chunks_of (cib_block c).
Definition copy_frees (c : CibCopy) : list Z := frees (bitmap_of c) (copy_chunks c).
Definition private_frees (p : PrivateSpaceman) : list Z := concat (map copy_frees (cibs p)).
Definition private_chunks (p : PrivateSpaceman) : list Chunk := concat (map copy_chunks (cibs p)).
Definition range_of (ck : Chunk) : list Z := seqZ (ck_addr ck) (ck_blocks ck).

Record copy_ok (size limit : Z) (c : CibCopy) : Prop := {
  cp_size : zlen (cib_block c) = size;
  cp_cib : cib_ok (cib_block c);
  cp_chunks : Forall (chunk_ok size limit) (copy_chunks c);
  cp_originals : map bm_original_paddr (bitmaps c) = bitmaps_of (copy_chunks c);
  cp_distinct : NoDup (bitmaps_of (copy_chunks c));
  cp_blocks : Forall (fun b => zlen (bm_block b) = size /\ is_bytes (bm_block b)) (bitmaps c);
  cp_counted : Forall (counted (bitmap_of c)) (copy_chunks c);
}.

Record private_ok (size limit : Z) (p : PrivateSpaceman) : Prop := {
  pv_size : zlen (spaceman p) = size /\ 0x58 <= size;
  pv_bytes : is_bytes (spaceman p);
  pv_copies : Forall (copy_ok size limit) (cibs p);
  pv_disjoint : NoDup (concat (map range_of (private_chunks p)));
  pv_total : free_count (spaceman p) = sum_of ck_free (private_chunks p);
  pv_array : 0x54 <= cib_offset (spaceman p) /\ cib_offset (spaceman p) + cib_count (spaceman p) * 8 <= size;
  pv_count : cib_count (spaceman p) = zlen (cibs p);
}.

(** *** Finding bitmaps *)

Lemma find_bitmap_some p l i b : find_bitmap p l = Some (i, b) -> l !! i = Some b /\ p b = true.
Proof.
  revert i. induction l as [|x l IH]; intros i; [done|]. cbn [find_bitmap]. destruct (p x) eqn:P; [by intros [= <- <-]|].
  destruct (find_bitmap p l) as [[i' b']|]; [|done]. cbn. intros [= <- <-]. by apply IH.
Qed.

Lemma find_bitmap_original l i b :
  NoDup (map bm_original_paddr l) -> l !! i = Some b -> find_bitmap (with_original (bm_original_paddr b)) l = Some (i, b).
Proof.
  revert i. induction l as [|x l IH]; intros i N Hi; [done|]. cbn [map] in N. apply NoDup_cons in N as [Nx N].
  cbn [find_bitmap]. unfold with_original at 1. destruct i as [|i]; [injection Hi as ->; by rewrite Z.eqb_refl|].
  cbn in Hi. destruct (Z.eqb_spec (bm_original_paddr x) (bm_original_paddr b)) as [E|].
  - destruct Nx. rewrite E. apply list_elem_of_fmap_2, list_elem_of_lookup. eauto.
  - by rewrite (IH i N Hi).
Qed.

Lemma find_bitmap_elem l a :
  NoDup (map bm_original_paddr l) -> a ∈ map bm_original_paddr l ->
  exists i b, l !! i = Some b /\ bm_original_paddr b = a /\ find_bitmap (with_original a) l = Some (i, b).
Proof.
  intros N Ha. apply list_elem_of_fmap in Ha as (b & -> & [i Hi]%list_elem_of_lookup). exists i, b. split_and!; [done..|].
  by apply find_bitmap_original.
Qed.

(** *** Chunks of one block *)

Definition slots_from (cib : bytes) (lo n : Z) : list Chunk := map (chunk_at cib) (seqZ lo n).

Lemma chunks_of_split cib k :
  0 <= k < chunk_count cib ->
  chunks_of cib = slots_from cib 0 k ++ chunk_at cib k :: slots_from cib (k + 1) (chunk_count cib - (k + 1)).
Proof.
  intros Hk. unfold chunks_of, slots_from. set (n := chunk_count cib) in *.
  replace n with (k + (1 + (n - (k + 1)))) at 1 by lia. rewrite !seqZ_app by lia. by rewrite !map_app.
Qed.

Lemma put_self l : is_bytes l -> 8 <= zlen l -> put l 0 (le_bytes 8 (field l 0 8)) = l.
Proof.
  intros Hb Hl. unfold field. rewrite le_bytes_le_val;
    [|by apply is_bytes_get|apply Nat2Z.inj; change (Z.of_nat (length (get l 0 8))) with (zlen (get l 0 8)); by rewrite zlen_get by lia].
  unfold put. rewrite zlen_get by lia. change (ztake 0 l) with (@nil Z). cbn [app]. unfold get. rewrite zdrop_0. apply ztake_zdrop.
Qed.

Lemma stamped_plain cib k xid n :
  cib_ok cib -> 0 <= k < chunk_count cib -> 0 <= n < 2 ^ 32 ->
  let cib' := stamped cib k xid n in
  zlen cib' = zlen cib /\ cib_ok cib' /\ chunk_count cib' = chunk_count cib /\
  chunks_of cib' = slots_from cib 0 k ++ (chunk_at cib k) <| ck_free := n |> :: slots_from cib (k + 1) (chunk_count cib - (k + 1)).
Proof.
  intros Hc Hk Hn. cbv zeta. destruct (stamp_ok (E := unit) cib k xid n Hc Hk) as (_ & L & B).
  pose proof (record_fits _ _ Hc Hk) as [R1 R2].
  pose proof (stamped_chunks cib k xid n (field (stamped cib k xid n) 0 8) Hc Hk Hn) as H. cbv zeta in H.
  rewrite put_self in H by (done || lia). destruct H as (E1 & _ & _ & E4 & E5).
  assert (cib_ok (stamped cib k xid n)) as Ho by (constructor; [done|rewrite E1, L; apply (cb_fits _ Hc)]).
  split_and!; [done..|]. rewrite (chunks_of_split _ k) by lia. rewrite E4, E1. unfold slots_from.
  assert (forall lo m, 0 <= lo -> lo + m <= chunk_count cib -> (lo + m <= k \/ k < lo) ->
    map (chunk_at (stamped cib k xid n)) (seqZ lo m) = map (chunk_at cib) (seqZ lo m)) as Em.
  { intros. apply map_ext_in. intros j Hj%list_elem_of_In. apply elem_of_seqZ in Hj. apply E5; lia. }
  rewrite !Em by lia. done.
Qed.

(** ** Allocation in one copy *)

Lemma st_ok {S E A B} (a : A) (k : A -> st S E B) : stbind (pure (Ok a)) k = k a.
Proof. done. Qed.
Lemma st_read {S E A B} (f : S -> A) (k : A -> st S E B) x : stbind (read f) k x = k (f x) x.
Proof. done. Qed.
Lemma st_modify {S E B} (f : S -> S) (k : unit -> st S E B) x : stbind (modify f) k x = k tt (f x).
Proof. done. Qed.

(** The copy after a bit of slot [k], bitmap [i], was taken. *)
Definition took (xid k : Z) (i : nat) (b : BitmapCopy) (block : bytes) (c : CibCopy) : CibCopy :=
  c <| bitmaps := <[i := b <| bm_block := block |> <| bm_dirty := true |>]> (bitmaps c) |>
    <| cib_block := stamped (cib_block c) k xid (ck_free (chunk_at (cib_block c) k) - 1) |> <| cib_dirty := true |>.

Record takes (c c' : CibCopy) (xid k bit : Z) : Prop := {
  ts_slot : 0 <= k < chunk_count (cib_block c);
  ts_bits : exists i b rest block,
    let ck := chunk_at (cib_block c) k in
    ck_bitmap ck <> 0 /\ bitmaps c !! i = Some b /\ bm_original_paddr b = ck_bitmap ck /\
    clear_bits (bm_block b) (ck_blocks ck) = bit :: rest /\
    zlen block = zlen (bm_block b) /\ is_bytes block /\
    (forall j, 0 <= j -> used block j = (j =? bit) || used (bm_block b) j) /\
    c' = took xid k i b block c;
}.

Lemma copy_bitmap size limit c ck :
  copy_ok size limit c -> ck ∈ copy_chunks c -> ck_bitmap ck <> 0 ->
  exists i b, bitmaps c !! i = Some b /\ bm_original_paddr b = ck_bitmap ck /\
    find_bitmap (with_original (ck_bitmap ck)) (bitmaps c) = Some (i, b) /\ bitmap_of c (ck_bitmap ck) = bm_block b /\
    zlen (bm_block b) = size /\ is_bytes (bm_block b).
Proof.
  intros Hc Hck Hz. pose proof (bitmaps_elem _ _ Hck Hz) as Ha. rewrite <- (cp_originals _ _ _ Hc) in Ha.
  apply find_bitmap_elem in Ha as (i & b & Hi & Ho & Hf); [|rewrite (cp_originals _ _ _ Hc); apply (cp_distinct _ _ _ Hc)].
  exists i, b. destruct (proj1 (Forall_forall _ _) (cp_blocks _ _ _ Hc) b) as [Lb Bb]; [by apply list_elem_of_lookup; eauto|].
  unfold bitmap_of. rewrite Hf. by split_and!.
Qed.

Lemma copy_counted size limit c ck :
  copy_ok size limit c -> ck ∈ copy_chunks c -> ck_bitmap ck <> 0 ->
  ck_free ck = zlen (clear_bits (bitmap_of c (ck_bitmap ck)) (ck_blocks ck)).
Proof.
  intros Hc Hck Hz. rewrite (proj1 (Forall_forall _ _) (cp_counted _ _ _ Hc) ck Hck Hz). unfold chunk_frees.
  rewrite (proj2 (Z.eqb_neq _ _)) by done. unfold zlen. by rewrite length_map.
Qed.

Lemma slot_elem cib k : 0 <= k < chunk_count cib -> chunk_at cib k ∈ chunks_of cib.
Proof. intros Hk. apply list_elem_of_fmap_2, elem_of_seqZ. lia. Qed.

Lemma private_slots_spec size limit xid c (Hc : copy_ok size limit c) : forall (n : nat) slot c' r,
  0 <= slot -> slot + Z.of_nat n = chunk_count (cib_block c) ->
  private_slots xid n slot c = (c', r) ->
  (r = Ok None /\ c' = c /\ frees (bitmap_of c) (slots_from (cib_block c) slot (Z.of_nat n)) = []) \/
  (exists k bit, r = Ok (Some (ck_addr (chunk_at (cib_block c) k), bit)) /\ slot <= k /\ takes c c' xid k bit /\
     frees (bitmap_of c) (slots_from (cib_block c) slot (k - slot)) = []).
Proof.
  pose proof (cp_cib _ _ _ Hc) as Oc. induction n as [|n IH]; intros slot c' r Hge0 Hn.
  { cbn [private_slots]. intros [= <- <-]. by left. }
  cbn [private_slots]. rewrite st_read, record_too_many by (done || lia).
  destruct (record_reads (E := SpacemanError) (cib_block c) slot Oc ltac:(lia)) as (E1 & E2 & E3 & E4).
  destruct (chunk_fields (cib_block c) slot Oc ltac:(lia)) as (P1 & P2 & P3 & P4).
  pose proof (slot_elem (cib_block c) slot ltac:(lia)) as Hck.
  assert (chunk_frees (bitmap_of c) (chunk_at (cib_block c) slot) = [] ->
    private_slots xid n (slot + 1) c = (c', r) ->
    (r = Ok None /\ c' = c /\ frees (bitmap_of c) (slots_from (cib_block c) slot (Z.of_nat (S n))) = []) \/
    (exists k bit, r = Ok (Some (ck_addr (chunk_at (cib_block c) k), bit)) /\ slot <= k /\ takes c c' xid k bit /\
     frees (bitmap_of c) (slots_from (cib_block c) slot (k - slot)) = [])) as Next.
  { intros Hf R. destruct (IH (slot + 1) c' r ltac:(lia) ltac:(lia) R) as [(-> & -> & Hf')|(k & bit & -> & Hge & Ht & Hf')].
    - left. split_and!; [done..|]. unfold slots_from. rewrite Nat2Z.inj_succ, seqZ_cons, Z.pred_succ by lia. cbn [map].
      by rewrite frees_cons, Hf.
    - right. exists k, bit. split_and!; [done|lia|done|]. unfold slots_from in *. rewrite (seqZ_cons slot) by lia. cbn [map].
      rewrite frees_cons, Hf. cbn [app]. rewrite <- Hf'. do 3 f_equal; lia. }
  clear IH. set (ck := chunk_at (cib_block c) slot) in *. rewrite E1, E2, E4, !st_ok.
  destruct (Z.eqb_spec (ck_bitmap ck) 0) as [Hz|Hz].
  { apply Next. unfold chunk_frees. by rewrite Hz. }
  rewrite st_read. destruct (copy_bitmap _ _ _ _ Hc Hck Hz) as (i & b & Hi & Ho & Hf & Hbo & Lb & Bb).
  change (fun b0 => bm_original_paddr b0 =? ck_bitmap ck) with (with_original (ck_bitmap ck)). rewrite Hf.
  destruct (proj1 (Forall_forall _ _) (cp_chunks _ _ _ Hc) ck Hck) as [Hb Ha Hfr]. destruct (Hb Hz) as [Rb Sb].
  rewrite find_clear_spec by lia. rewrite Z2Nat.id by lia. fold (clear_bits (bm_block b) (ck_blocks ck)). rewrite st_ok.
  destruct (clear_bits (bm_block b) (ck_blocks ck)) as [|bit rest] eqn:Ec; cbn [head].
  { apply Next. unfold chunk_frees. by rewrite (proj2 (Z.eqb_neq _ _)), Hbo, Ec by done. }
  clear Next. pose proof (clear_head_range _ _ _ _ Ec) as Hbit.
  destruct (set_bit_spec (E := SpacemanError) (bm_block b) bit Bb ltac:(lia)) as (b' & Es & Lb' & Bb' & Hu).
  rewrite Es, st_ok, st_modify, E3, st_ok.
  pose proof (copy_counted _ _ _ _ Hc Hck Hz) as Ef. rewrite Hbo, Ec, zlen_cons in Ef. pose proof (zlen_nonneg rest).
  unfold checked_sub. rewrite (proj2 (Z.leb_le _ _)) by lia. cbn [ok_or]. rewrite st_ok.
  destruct (stamp_ok (E := SpacemanError) (cib_block c) slot xid (ck_free ck - 1) Oc ltac:(lia)) as (Est & _ & _).
  rewrite Est, st_ok, st_modify. intros [= <- <-]. right. exists slot, bit. rewrite Z.sub_diag.
  split_and!; [done|lia| |done]. constructor; [lia|]. exists i, b, rest, b'. by split_and!.
Qed.

(** What allocation does not change: the addresses. *)
Definition shape : Type := Z * option Z * list (Z * option Z).
Definition shape_of (c : CibCopy) : shape :=
  (cib_original_paddr c, cib_cow_paddr c, map (fun b => (bm_original_paddr b, bm_cow_paddr b)) (bitmaps c)).

(** A copy that is not marked changed equals the block it was read from. *)
Record tracked (blk : Z -> bytes) (c : CibCopy) : Prop := {
  tr_clean : cib_dirty c = false -> cib_block c = blk (cib_original_paddr c) /\ Forall (fun b => bm_dirty b = false) (bitmaps c);
  tr_bitmaps : Forall (fun b => (bm_dirty b = false -> bm_block b = blk (bm_original_paddr b)) /\
                                (is_Some (bm_cow_paddr b) -> bm_dirty b = true)) (bitmaps c);
  tr_cow : is_Some (cib_cow_paddr c) -> cib_dirty c = true;
}.

(** Marks are never removed. *)
Definition grows (c c' : CibCopy) : Prop :=
  (cib_dirty c = true -> cib_dirty c' = true) /\
  Forall2 (fun b b' => bm_dirty b = true -> bm_dirty b' = true) (bitmaps c) (bitmaps c').

Lemma grows_refl c : grows c c.
Proof. split; [done|]. induction (bitmaps c); by constructor. Qed.

Section Took.
Context (size limit : Z) (c : CibCopy) (xid k bit : Z) (i : nat) (b : BitmapCopy) (rest : list Z) (block : bytes).
Let ck := chunk_at (cib_block c) k.
Let c' := took xid k i b block c.
Context (Hc : copy_ok size limit c) (Hk : 0 <= k < chunk_count (cib_block c)).
Context (Hz : ck_bitmap ck <> 0) (Hi : bitmaps c !! i = Some b) (Ho : bm_original_paddr b = ck_bitmap ck).
Context (Ec : clear_bits (bm_block b) (ck_blocks ck) = bit :: rest).
Context (Lb : zlen block = zlen (bm_block b)) (Bb : is_bytes block).
Context (Hu : forall j, 0 <= j -> used block j = (j =? bit) || used (bm_block b) j).

Lemma took_originals : map bm_original_paddr (bitmaps c') = map bm_original_paddr (bitmaps c).
Proof.
  unfold c', took, set_field. cbn [bitmaps]. apply list_eq. intros j. rewrite !list_lookup_fmap.
  destruct (decide (j = i)) as [->|Hne]; [|by rewrite list_lookup_insert_ne].
  rewrite list_lookup_insert_eq by (by eapply lookup_lt_Some). by rewrite Hi.
Qed.

Lemma took_shape : shape_of c' = shape_of c.
Proof.
  unfold shape_of. f_equal. unfold c', took, set_field. cbn [bitmaps]. apply list_eq. intros j. rewrite !list_lookup_fmap.
  destruct (decide (j = i)) as [->|Hne]; [|by rewrite list_lookup_insert_ne].
  rewrite list_lookup_insert_eq by (by eapply lookup_lt_Some). by rewrite Hi.
Qed.

Lemma took_nodup : NoDup (map bm_original_paddr (bitmaps c)).
Proof. rewrite (cp_originals _ _ _ Hc). apply (cp_distinct _ _ _ Hc). Qed.

Lemma took_bitmap_of a : bitmap_of c' a = if decide (a = ck_bitmap ck) then block else bitmap_of c a.
Proof.
  pose proof took_originals as Eo. unfold bitmap_of. case_decide as E.
  - subst a. rewrite <- Ho. pose proof (find_bitmap_original (bitmaps c') i (b <| bm_block := block |> <| bm_dirty := true |>)) as F.
    change (bm_original_paddr (b <| bm_block := block |> <| bm_dirty := true |>)) with (bm_original_paddr b) in F.
    rewrite F; [done|rewrite Eo; apply took_nodup|]. unfold c', took, set_field. cbn [bitmaps].
    rewrite list_lookup_insert_eq; [done|by eapply lookup_lt_Some].
  - destruct (decide (a ∈ map bm_original_paddr (bitmaps c))) as [Ha|Ha].
    + destruct (find_bitmap_elem _ _ took_nodup Ha) as (j & bj & Hj & Hjo & ->).
      assert (bitmaps c' !! j = Some bj) as Hj'.
      { unfold c', took, set_field. cbn [bitmaps]. rewrite list_lookup_insert_ne; [done|]. intros ->. congruence. }
      rewrite <- Hjo, (find_bitmap_original _ j bj); [done|rewrite Eo; apply took_nodup|done].
    + assert (forall l, a ∉ map bm_original_paddr l -> find_bitmap (with_original a) l = None) as Fn.
      { induction l as [|x l IH]; intros Hx; [done|]. cbn [map find_bitmap] in *. rewrite not_elem_of_cons in Hx.
        unfold with_original at 1. rewrite (proj2 (Z.eqb_neq _ _)) by naive_solver. by rewrite IH by naive_solver. }
      by rewrite !Fn by (rewrite ?Eo; done).
Qed.

Lemma took_chunks :
  copy_chunks c' = slots_from (cib_block c) 0 k ++ ck <| ck_free := ck_free ck - 1 |> ::
    slots_from (cib_block c) (k + 1) (chunk_count (cib_block c) - (k + 1)) /\
  cib_ok (cib_block c') /\ zlen (cib_block c') = size.
Proof.
  pose proof (copy_counted _ _ _ ck Hc (slot_elem _ _ Hk) Hz) as Ef.
  destruct (copy_bitmap _ _ _ ck Hc (slot_elem _ _ Hk) Hz) as (i' & b2 & Hi' & Ho' & _ & Hbo & _).
  assert (b2 = b) as ->.
  { pose proof (find_bitmap_original _ _ _ took_nodup Hi) as F1. pose proof (find_bitmap_original _ _ _ took_nodup Hi') as F2.
    rewrite Ho' in F2. rewrite Ho in F1. congruence. }
  rewrite Hbo, Ec, zlen_cons in Ef. pose proof (zlen_nonneg rest).
  destruct (chunk_fields _ _ (cp_cib _ _ _ Hc) Hk) as (_ & _ & P & _). fold ck in P.
  destruct (stamped_plain (cib_block c) k xid (ck_free ck - 1) (cp_cib _ _ _ Hc) Hk ltac:(lia)) as (L & O & _ & E).
  split_and!; [exact E|exact O|]. change (cib_block c') with (stamped (cib_block c) k xid (ck_free ck - 1)).
  rewrite L. apply (cp_size _ _ _ Hc).
Qed.

Let pre := slots_from (cib_block c) 0 k.
Let post := slots_from (cib_block c) (k + 1) (chunk_count (cib_block c) - (k + 1)).

Lemma took_chunks0 : copy_chunks c = pre ++ ck :: post.
Proof. by apply chunks_of_split. Qed.

Lemma took_apart a : a ∈ bitmaps_of pre \/ a ∈ bitmaps_of post -> bitmap_of c' a = bitmap_of c a.
Proof.
  intros Ha. rewrite took_bitmap_of. case_decide as E; [|done]. subst a. exfalso.
  pose proof (cp_distinct _ _ _ Hc) as N. rewrite took_chunks0, bitmaps_app, bitmaps_cons, decide_True in N by done.
  apply NoDup_app in N as (_ & N1 & [N2 _]%NoDup_cons). destruct Ha as [Ha|Ha]; [apply (N1 _ Ha); by left|done].
Qed.

Lemma took_frees :
  copy_frees c = frees (bitmap_of c) pre ++ (ck_addr ck + bit) :: map (Z.add (ck_addr ck)) rest ++ frees (bitmap_of c) post /\
  copy_frees c' = frees (bitmap_of c) pre ++ map (Z.add (ck_addr ck)) rest ++ frees (bitmap_of c) post.
Proof.
  unfold copy_frees. rewrite (proj1 took_chunks), took_chunks0, !frees_app, !frees_cons.
  rewrite !(frees_ext (bitmap_of c) (bitmap_of c')) by (intros; apply took_apart; auto).
  unfold chunk_frees. change (ck_bitmap (ck <| ck_free := ck_free ck - 1 |>)) with (ck_bitmap ck).
  change (ck_addr (ck <| ck_free := ck_free ck - 1 |>)) with (ck_addr ck).
  change (ck_blocks (ck <| ck_free := ck_free ck - 1 |>)) with (ck_blocks ck).
  rewrite (proj2 (Z.eqb_neq _ _)) by done. rewrite took_bitmap_of, decide_True by done.
  rewrite (clear_bits_set _ _ _ _ _ Ec Hu). unfold bitmap_of at 2. rewrite <- Ho, (find_bitmap_original _ _ _ took_nodup Hi), Ec.
  done.
Qed.

Lemma took_ok : copy_ok size limit c'.
Proof.
  destruct took_chunks as (Ech & Och & Lch). pose proof (cp_chunks _ _ _ Hc) as Hch. pose proof (cp_counted _ _ _ Hc) as Hct.
  rewrite took_chunks0, Forall_app, Forall_cons in Hch, Hct. destruct Hch as (C1 & [B1 B2 B3] & C3), Hct as (D1 & D2 & D3).
  assert (bitmaps_of (copy_chunks c') = bitmaps_of (copy_chunks c)) as Ebm
    by (rewrite Ech, took_chunks0, !bitmaps_app, !bitmaps_cons; done).
  constructor.
  - done.
  - done.
  - rewrite Ech. apply Forall_app. split; [done|]. constructor; [|done]. constructor; [done|done|].
    change (ck_free ck - 1 <= ck_blocks ck). lia.
  - rewrite Ebm, took_originals. apply (cp_originals _ _ _ Hc).
  - rewrite Ebm. apply (cp_distinct _ _ _ Hc).
  - pose proof (cp_blocks _ _ _ Hc) as Hbl. unfold c', took, set_field. cbn [bitmaps]. apply Forall_insert; [done|].
    cbn [bm_block]. destruct (proj1 (Forall_lookup _ _) Hbl i b Hi) as [Ls _]. split; [lia|done].
  - assert (forall l, (forall a, a ∈ bitmaps_of l -> bitmap_of c' a = bitmap_of c a) -> Forall (counted (bitmap_of c)) l ->
      Forall (counted (bitmap_of c')) l) as Hx.
    { intros l Ha Hl. rewrite Forall_forall in *. intros x Hx Hnz. rewrite (Hl x Hx Hnz). unfold chunk_frees.
      by rewrite Ha by (by apply bitmaps_elem). }
    rewrite Ech. apply Forall_app. split; [apply Hx; [intros; apply took_apart; by left|done]|].
    constructor; [|apply Hx; [intros; apply took_apart; by right|done]]. intros _. specialize (D2 Hz).
    change (ck_free ck - 1 = zlen (chunk_frees (bitmap_of c') ck)). rewrite D2. unfold chunk_frees.
    rewrite (proj2 (Z.eqb_neq _ _)) by done. rewrite took_bitmap_of, decide_True by done.
    rewrite (clear_bits_set _ _ _ _ _ Ec Hu). unfold bitmap_of. rewrite <- Ho, (find_bitmap_original _ _ _ took_nodup Hi), Ec.
    cbn [map]. rewrite zlen_cons. lia.
Qed.

Lemma took_sum : sum_of ck_free (copy_chunks c') = sum_of ck_free (copy_chunks c) - 1.
Proof. rewrite (proj1 took_chunks), took_chunks0, !sum_of_app, !sum_of_cons. change (ck_free (ck <| ck_free := _ |>)) with (ck_free ck - 1). fold pre post. lia. Qed.

Lemma took_ranges : map range_of (copy_chunks c') = map range_of (copy_chunks c).
Proof. rewrite (proj1 took_chunks), took_chunks0, !map_app. done. Qed.

Lemma took_tracked blk : tracked blk c -> tracked blk c'.
Proof.
  intros [T1 T2 T3]. constructor; [done| |done]. unfold c', took, set_field. cbn [bitmaps]. by apply Forall_insert.
Qed.

Lemma took_grows : grows c c'.
Proof.
  split; [done|]. unfold c', took, set_field. cbn [bitmaps]. apply Forall2_same_length_lookup. split; [by rewrite length_insert|].
  intros j x y Hx. destruct (decide (j = i)) as [->|Hne].
  - rewrite list_lookup_insert_eq by (by eapply lookup_lt_Some). by intros [= <-].
  - rewrite list_lookup_insert_ne by done. congruence.
Qed.
End Took.

(** ** Allocation in the whole copy *)

Definition all_frees (cs : list CibCopy) : list Z := concat (map copy_frees cs).
Definition all_chunks (cs : list CibCopy) : list Chunk := concat (map copy_chunks cs).

(** One allocation as a relation between the chunk-info copies. *)
Record stepped (size limit : Z) (cs cs' : list CibCopy) (a : Z) : Prop := {
  sd_frees : all_frees cs = a :: all_frees cs';
  sd_copies : Forall (copy_ok size limit) cs';
  sd_shapes : map shape_of cs' = map shape_of cs;
  sd_sum : sum_of ck_free (all_chunks cs') = sum_of ck_free (all_chunks cs) - 1;
  sd_ranges : map range_of (all_chunks cs') = map range_of (all_chunks cs);
  sd_tracked blk : Forall (tracked blk) cs -> Forall (tracked blk) cs';
  sd_grows : Forall2 grows cs cs';
  sd_fits : 0 <= a < 2 ^ 64;
}.

Lemma stepped_skip size limit c cs cs' a :
  copy_ok size limit c -> copy_frees c = [] -> stepped size limit cs cs' a -> stepped size limit (c :: cs) (c :: cs') a.
Proof.
  intros Hc Hf [S1 S2 S3 S4 S5 S6 S7]. constructor; unfold all_frees, all_chunks in *.
  - cbn [map concat]. by rewrite Hf, S1.
  - by constructor.
  - cbn [map]. by rewrite S3.
  - cbn [map concat]. rewrite !sum_of_app. lia.
  - cbn [map concat]. by rewrite !map_app, S5.
  - intros blk [T1 T2]%Forall_cons. constructor; auto.
  - constructor; [apply grows_refl|done].
  - done.
Qed.

Lemma private_slots_all_spec size limit xid c c' r :
  copy_ok size limit c -> 40 <= size -> private_slots_all xid c = (c', r) ->
  (r = Ok None /\ c' = c /\ copy_frees c = []) \/
  (exists addr bit, r = Ok (Some (addr, bit)) /\ addr + bit < 2 ^ 64 /\ 0 <= addr /\ 0 <= bit /\
     forall cs, Forall (copy_ok size limit) cs -> stepped size limit (c :: cs) (c' :: cs) (addr + bit)).
Proof.
  intros Hc H40. unfold private_slots_all. rewrite st_read.
  destruct (count_read (E := SpacemanError) (cib_block c) (cb_bytes _ (cp_cib _ _ _ Hc))) as [-> Hn];
    [rewrite (cp_size _ _ _ Hc); lia|]. rewrite st_ok.
  intros R. apply (private_slots_spec _ _ _ _ Hc) in R as [(-> & -> & Hf)|(k & bit & -> & Hge & Ht & Hf)]; [..|lia|lia].
  { left. rewrite Z2Nat.id in Hf by lia. done. }
  right. destruct Ht as [Hk (i & b & rest & block & Hz & Hi & Ho & Ec & Lb & Bb & Hu & ->)]. rewrite Z.sub_0_r in Hf.
  set (ck := chunk_at (cib_block c) k) in *. exists (ck_addr ck), bit.
  destruct (chunk_fields _ _ (cp_cib _ _ _ Hc) Hk) as (P1 & _). fold ck in P1.
  pose proof (clear_head_range _ _ _ _ Ec) as Hbit.
  destruct (proj1 (Forall_forall _ _) (cp_chunks _ _ _ Hc) ck (slot_elem _ _ Hk)) as [_ Ha _].
  split_and!; [done|lia|lia|lia|]. intros cs Hcs.
  pose proof (took_frees size limit c xid k bit i b rest block Hc Hk Hz Hi Ho Ec Hu) as [F1 F2]. rewrite Hf in F1, F2. cbn [app] in F1, F2.
  unfold all_frees, all_chunks. constructor; unfold all_frees, all_chunks; cbn [map concat].
  - by rewrite F1, F2.
  - constructor; [|done]. by apply (took_ok size limit c xid k bit i b rest block).
  - by rewrite (took_shape c xid k i b block Hi).
  - rewrite !sum_of_app, (took_sum size limit c xid k bit i b rest block Hc Hk Hz Hi Ho Ec). lia.
  - by rewrite !map_app, (took_ranges size limit c xid k bit i b rest block Hc Hk Hz Hi Ho Ec).
  - intros blk [T1 T2]%Forall_cons. constructor; [|done]. by apply took_tracked.
  - constructor; [by apply took_grows|]. clear. induction cs; constructor; [apply grows_refl|done].
  - lia.
Qed.

Lemma private_cibs_spec size limit xid : 80 <= size -> forall cs sm sm' cs' r,
  Forall (copy_ok size limit) cs -> zlen sm = size -> sum_of ck_free (all_chunks cs) <= free_count sm ->
  private_cibs xid sm cs = (sm', cs', r) ->
  (r = Err OutOfSpace /\ sm' = sm /\ cs' = cs /\ all_frees cs = []) \/
  (exists a, r = Ok a /\ sm' = with_count sm (free_count sm - 1) /\ 1 <= free_count sm /\ stepped size limit cs cs' a).
Proof.
  intros Hsz. induction cs as [|c cs IH]; intros sm sm' cs' r Hall Hl Hsum.
  { cbn [private_cibs]. intros [= <- <- <-]. by left. }
  apply Forall_cons in Hall as [Hc Hcs]. cbn [private_cibs].
  destruct (private_slots_all xid c) as [c1 r1] eqn:R1.
  assert (forall l, Forall (copy_ok size limit) l -> 0 <= sum_of ck_free (all_chunks l)) as Hnn.
  { intros l Hll. apply sum_of_nonneg. unfold all_chunks. apply Forall_concat, Forall_map, Forall_forall. intros x Hx.
    rewrite Forall_forall in Hll. apply Forall_forall. intros ck Hck%list_elem_of_In.
    apply in_map_iff in Hck as (k & <- & Hk%list_elem_of_In). apply elem_of_seqZ in Hk.
    apply (chunk_fields _ k (cp_cib _ _ _ (Hll x Hx))). lia. }
  apply (private_slots_all_spec size limit) in R1
    as [(-> & -> & Hf)|(addr & bit & -> & Hlt & Ha & Hb & Hst)]; [| |done|lia].
  - destruct (private_cibs xid sm cs) as [[sm2 cs2] r2] eqn:R2. intros [= <- <- <-].
    unfold all_chunks in Hsum. cbn [map concat] in Hsum. rewrite sum_of_app in Hsum.
    pose proof (Hnn [c] ltac:(by constructor)) as Hc0. unfold all_chunks in Hc0. cbn [map concat] in Hc0. rewrite app_nil_r in Hc0.
    destruct (IH sm sm2 cs2 r2 Hcs Hl) as [(-> & -> & -> & Hf2)|(a & -> & -> & H1 & Hst)]; [unfold all_chunks; lia|done|..].
    + left. split_and!; [done..|]. unfold all_frees. cbn [map concat]. by rewrite Hf.
    + right. exists a. split_and!; [done..|]. by apply stepped_skip.
  - specialize (Hst cs Hcs). pose proof (Hnn (c1 :: cs) (sd_copies _ _ _ _ _ Hst)) as Hn1. rewrite (sd_sum _ _ _ _ _ Hst) in Hn1.
    rewrite decrement_ok by lia. intros [= <- <- <-]. right. exists (addr + bit). split_and!; [|done|lia|done].
    unfold add_or_panic, checked_add. by rewrite (proj2 (Z.ltb_lt _ _)) by lia.
Qed.

Lemma with_count_plain sm n :
  is_bytes sm -> 88 <= zlen sm -> 84 <= cib_offset sm -> 0 <= n < 2 ^ 64 ->
  let sm' := with_count sm n in
  zlen sm' = zlen sm /\ is_bytes sm' /\ free_count sm' = n /\ cib_offset sm' = cib_offset sm /\ cib_count sm' = cib_count sm.
Proof.
  intros Hb Hl Ho Hn. cbv zeta. destruct (with_count_facts sm n Hb ltac:(lia)) as [L B].
  pose proof (with_count_fields sm n (field (with_count sm n) 0 8) Hb Hl Ho Hn) as F. cbv zeta in F.
  rewrite put_self in F by (done || lia). naive_solver.
Qed.

Lemma private_allocate_spec size limit xid p p' r :
  private_ok size limit p -> private_allocate xid p = (p', r) ->
  (r = Err OutOfSpace /\ p' = p /\ private_frees p = []) \/
  (exists a, r = Ok a /\ private_ok size limit p' /\ stepped size limit (cibs p) (cibs p') a).
Proof.
  intros Hp. destruct (pv_size _ _ _ Hp) as [Hl H88]. destruct (pv_array _ _ _ Hp) as [Ha1 Ha2]. unfold private_allocate.
  destruct (private_cibs xid (spaceman p) (cibs p)) as [[sm' cs'] r'] eqn:R. intros [= <- <-].
  pose proof (pv_total _ _ _ Hp) as Ht. apply (private_cibs_spec size limit) in R; [|lia|apply (pv_copies _ _ _ Hp)|done|by rewrite Ht].
  destruct R as [(-> & -> & -> & Hf)|(a & -> & -> & H1 & Hst)]; [left; by destruct p|]. right. exists a. split_and!; [done| |done].
  pose proof (pv_bytes _ _ _ Hp) as Hb.
  assert (free_count (spaceman p) < 2 ^ 64) as Hlt by (apply (field_bound (spaceman p) SM_FREE_COUNT_OFFSET 8); unfold SM_FREE_COUNT_OFFSET; lia || done).
  destruct (with_count_plain (spaceman p) (free_count (spaceman p) - 1) Hb ltac:(lia) Ha1 ltac:(lia)) as (W1 & W2 & W3 & W4 & W5).
  constructor; cbn [spaceman cibs]; [lia|done|apply (sd_copies _ _ _ _ _ Hst)|..].
  - unfold private_chunks. cbn [cibs]. fold (all_chunks cs'). rewrite (sd_ranges _ _ _ _ _ Hst). apply (pv_disjoint _ _ _ Hp).
  - rewrite W3, Ht. unfold private_chunks. cbn [cibs]. fold (all_chunks cs'). rewrite (sd_sum _ _ _ _ _ Hst). done.
  - by rewrite W4, W5.
  - rewrite W5, (pv_count _ _ _ Hp). unfold zlen. by rewrite <- (length_map shape_of), <- (length_map shape_of cs'), (sd_shapes _ _ _ _ _ Hst).
Qed.
