(* ===== verification/Materialize.v ===== *)
(** * Materializing a private space manager

    The proofs about [PrivateSpace.materialize]: the assignment loop ends with
    a new address for every changed block, all distinct and all taken from the
    free list; publishing writes to those addresses only, and the returned
    space manager block describes, on the disc, exactly the private copy. *)

From S2P Require Import Prelude ApfsObject Spaceman PrivateSpace.
From stdpp Require Import base tactics numbers list strings.
From Stdlib Require Import ZArith Lia.

Open Scope Z_scope.

(** ** Assigned addresses *)

Definition olist {A} (o : option A) : list A := match o with Some a => [a] | None => [] end.
Definition shape_cows (x : shape) : list Z := olist x.1.2 ++ concat (map (fun b => olist b.2) x.2).
Definition cows_of (cs : list CibCopy) : list Z := concat (map (fun c => shape_cows (shape_of c)) cs).
Definition cows (p : PrivateSpaceman) : list Z := cows_of (cibs p).

(** The addresses the copies were read from. *)
Definition layout (p : PrivateSpaceman) : list (Z * list Z) :=
  map (fun c => (cib_original_paddr c, map bm_original_paddr (bitmaps c))) (cibs p).

Definition bm_settled (b : BitmapCopy) : Prop := bm_dirty b = true -> is_Some (bm_cow_paddr b).
Definition settled (c : CibCopy) : Prop :=
  (cib_dirty c = true -> is_Some (cib_cow_paddr c)) /\ Forall bm_settled (bitmaps c).

Lemma concat_alter_perm {A} (f : A -> list Z) (g : A -> A) (l : list A) i x a :
  l !! i = Some x -> f (g x) ≡ₚ a :: f x -> concat (map f (alter g i l)) ≡ₚ a :: concat (map f l).
Proof.
  revert i. induction l as [|y l IH]; intros [|i] Hi Hp; try done.
  - injection Hi as ->. cbn [alter map concat]. cbn. by rewrite Hp.
  - cbn in Hi |- *. rewrite (IH i Hi Hp). symmetry. apply Permutation_middle.
Qed.

Lemma shapes_layout p p' : map shape_of (cibs p') = map shape_of (cibs p) -> layout p' = layout p /\ cows p' = cows p.
Proof.
  intros E. split.
  - unfold layout. assert (forall cs, map (fun c => (cib_original_paddr c, map bm_original_paddr (bitmaps c))) cs =
      map (fun x : shape => (x.1.1, map fst x.2)) (map shape_of cs)) as Hm.
    { intros cs. rewrite map_map. apply map_ext. intros c. unfold shape_of. cbn [fst snd]. by rewrite map_map. }
    by rewrite !Hm, E.
  - unfold cows, cows_of. rewrite <- !(map_map shape_of). by rewrite E.
Qed.

Section Assign.
Context (size limit xid : Z) (blk : Z -> bytes) (G : list Z).

(** The invariant of the assignment loop; [G] is the free list it started from. *)
Record assigning (p : PrivateSpaceman) : Prop := {
  as_ok : private_ok size limit p;
  as_tracked : Forall (tracked blk) (cibs p);
  as_perm : cows p ++ private_frees p ≡ₚ G;
}.

Record assigned (p p' : PrivateSpaceman) (a : bool) : Prop := {
  ad_inv : assigning p';
  ad_layout : layout p' = layout p;
  ad_grow : (length (cows p) + (if a then 1 else 0) <= length (cows p'))%nat;
  ad_same : a = false -> p' = p;
}.

Lemma assigned_refl p : assigning p -> assigned p p false.
Proof. intros Hp. constructor; [done..|lia|done]. Qed.

Lemma assigned_trans p1 p2 p3 a b : assigned p1 p2 a -> assigned p2 p3 b -> assigned p1 p3 (a || b).
Proof.
  intros [A1 A2 A3 A4] [B1 B2 B3 B4]. constructor; [done|congruence| |].
  - destruct a, b; cbn [orb]; lia.
  - intros [E1 E2]%orb_false_elim. by rewrite (B4 E2), (A4 E1).
Qed.

(** Giving copy [i] an address just allocated. *)
Lemma set_cow_inv p p1 a i c f :
  assigning p -> private_ok size limit p1 -> stepped size limit (cibs p) (cibs p1) a -> cibs p1 !! i = Some c ->
  (forall c', copy_ok size limit c' -> copy_ok size limit (f c') /\ copy_frees (f c') = copy_frees c' /\
     copy_chunks (f c') = copy_chunks c' /\
     (cib_original_paddr (f c'), map bm_original_paddr (bitmaps (f c'))) = (cib_original_paddr c', map bm_original_paddr (bitmaps c'))) ->
  shape_cows (shape_of (f c)) ≡ₚ a :: shape_cows (shape_of c) -> (tracked blk c -> tracked blk (f c)) ->
  assigned p (p1 <| cibs := alter f i (cibs p1) |>) true.
Proof.
  intros [Hp Ht HG] Hp1 Hst Hi Hf Hc Htr. destruct (shapes_layout p p1 (sd_shapes _ _ _ _ _ Hst)) as [El Ec].
  pose proof (pv_copies _ _ _ Hp1) as Hcop.
  assert (forall {B} (h : CibCopy -> B), (forall c', copy_ok size limit c' -> h (f c') = h c') ->
    map h (alter f i (cibs p1)) = map h (cibs p1)) as Hmap.
  { intros B h Hh. apply list_eq. intros j. rewrite !list_lookup_fmap. destruct (decide (j = i)) as [->|Hne].
    - rewrite list_lookup_alter, decide_True, Hi by done. cbn. f_equal. apply Hh. by eapply Forall_lookup_1.
    - by rewrite list_lookup_alter_ne. }
  assert (private_chunks (p1 <| cibs := alter f i (cibs p1) |>) = private_chunks p1) as Ech
    by (unfold private_chunks; cbn; f_equal; apply Hmap; intros c' Hc'; apply (Hf c' Hc')).
  assert (private_frees (p1 <| cibs := alter f i (cibs p1) |>) = private_frees p1) as Efr
    by (unfold private_frees; cbn; f_equal; apply Hmap; intros c' Hc'; apply (Hf c' Hc')).
  assert (cows (p1 <| cibs := alter f i (cibs p1) |>) ≡ₚ a :: cows p1) as Eco
    by (unfold cows, cows_of; cbn; by eapply concat_alter_perm).
  constructor; [constructor|..].
  - destruct Hp1. constructor; rewrite ?Ech; cbn [spaceman cibs set_field]; try done.
    + apply Forall_alter; [done|]. intros c' Hc' _. apply Hf. by eapply Forall_lookup_1.
    + unfold zlen. by rewrite length_alter.
  - cbn. apply Forall_alter; [by apply (sd_tracked _ _ _ _ _ Hst)|]. intros c' Hc' Ht'. assert (c' = c) as -> by congruence. auto.
  - rewrite Efr, Eco, Ec. cbn [app]. rewrite Permutation_middle. rewrite <- HG. f_equiv.
    change (private_frees p) with (all_frees (cibs p)). by rewrite (sd_frees _ _ _ _ _ Hst).
  - rewrite <- El. unfold layout. cbn. apply Hmap. intros c' Hc'. apply (Hf c' Hc').
  - rewrite (Permutation_length Eco), Ec. cbn [length]. lia.
  - done.
Qed.

Lemma stepped_nth cs cs' a i c :
  stepped size limit cs cs' a -> cs !! i = Some c ->
  exists c', cs' !! i = Some c' /\ shape_of c' = shape_of c /\ grows c c'.
Proof.
  intros Hst Hi. destruct (Forall2_lookup_l _ _ _ _ _ (sd_grows _ _ _ _ _ Hst) Hi) as (c' & Hi' & Hg). exists c'. split_and!; [done| |done].
  pose proof (sd_shapes _ _ _ _ _ Hst) as E. apply (f_equal (fun l => l !! i)) in E.
  rewrite !list_lookup_fmap, Hi, Hi' in E. exact (Some_inj _ _ E).
Qed.

Lemma cow_copy_ok a c : copy_ok size limit c -> copy_ok size limit (c <| cib_cow_paddr := Some a |>).
Proof. intros [C1 C2 C3 C4 C5 C6 C7]. by constructor. Qed.

Definition give (a : Z) (b : BitmapCopy) : BitmapCopy := b <| bm_cow_paddr := Some a |>.

Lemma give_originals a j l : map bm_original_paddr (alter (give a) j l) = map bm_original_paddr l.
Proof. revert j. induction l as [|b l IH]; intros [|j]; [done..|]. cbn. f_equal. apply IH. Qed.

Lemma give_bitmap_of a j c x : bitmap_of (c <| bitmaps := alter (give a) j (bitmaps c) |>) x = bitmap_of c x.
Proof.
  unfold bitmap_of. cbn. generalize (bitmaps c). intros l.
  assert (match find_bitmap (with_original x) (alter (give a) j l) with Some (_, b) => Some (bm_block b) | None => None end =
          match find_bitmap (with_original x) l with Some (_, b) => Some (bm_block b) | None => None end) as E.
  { revert j. induction l as [|b l IH]; intros [|j]; [done..| |].
    - cbn. unfold with_original, give. cbn. by destruct (bm_original_paddr b =? x).
    - change (alter (give a) (S j) (b :: l)) with (b :: alter (give a) j l). cbn [find_bitmap].
      destruct (with_original x b); [done|]. specialize (IH j).
      destruct (find_bitmap _ (alter _ j l)) as [[? ?]|], (find_bitmap _ l) as [[? ?]|]; cbn in *; congruence. }
  destruct (find_bitmap _ (alter _ j l)) as [[? ?]|], (find_bitmap _ l) as [[? ?]|]; congruence.
Qed.

Lemma frees_eq bm bm' l : (forall a, bm' a = bm a) -> frees bm' l = frees bm l.
Proof. intros Ha. apply frees_ext. auto. Qed.

Lemma give_copy_ok a j c :
  copy_ok size limit c ->
  copy_ok size limit (c <| bitmaps := alter (give a) j (bitmaps c) |>) /\
  copy_frees (c <| bitmaps := alter (give a) j (bitmaps c) |>) = copy_frees c.
Proof.
  intros [C1 C2 C3 C4 C5 C6 C7]. split; [|unfold copy_frees; apply frees_eq, give_bitmap_of].
  constructor; [done..| |done| |].
  - change (map bm_original_paddr (alter (give a) j (bitmaps c)) = bitmaps_of (copy_chunks c)). by rewrite give_originals.
  - cbn. apply Forall_alter; [done|]. intros b _. done.
  - change (Forall (counted (bitmap_of (c <| bitmaps := alter (give a) j (bitmaps c) |>))) (copy_chunks c)).
    eapply Forall_impl; [exact C7|]. intros ck Hck Hz. rewrite (Hck Hz). unfold chunk_frees. by rewrite give_bitmap_of.
Qed.

Lemma assign_cib_spec p i c p' r :
  assigning p -> cibs p !! i = Some c -> assign_cib xid i p = (p', r) ->
  r = Err OutOfSpace \/ exists a, r = Ok a /\ assigned p p' a /\ (a = false -> cib_dirty c = true -> is_Some (cib_cow_paddr c)).
Proof.
  intros Hp Hi. unfold assign_cib, stbind at 1, cib_nth. rewrite Hi. cbn [or_panic].
  case_bool_decide as Hs.
  { rewrite andb_false_r. intros [= <- <-]. right. exists false. split_and!; [done|by apply assigned_refl|done]. }
  destruct (cib_dirty c) eqn:Hd; cbn [andb negb].
  2:{ intros [= <- <-]. right. exists false. split_and!; [done|by apply assigned_refl|done]. }
  unfold stbind at 1. destruct (private_allocate xid p) as [p1 r1] eqn:R.
  apply (private_allocate_spec size limit) in R as [(-> & -> & _)|(a & -> & Hp1 & Hst)];
    [intros [= <- <-]; by left| |apply (as_ok _ Hp)].
  destruct (stepped_nth _ _ _ _ _ Hst Hi) as (c1 & Hi1 & Es & Hg).
  intros [= <- <-]. right. exists true. split_and!; [done| |done].
  assert (cib_cow_paddr c1 = None) as En by (unfold shape_of in Es; injection Es; intros; destruct (cib_cow_paddr c); [destruct Hs; eauto|done]).
  apply (set_cow_inv p p1 a i c1); [done..| | |].
  - intros c' Hc'. split_and!; [by apply cow_copy_ok|done..].
  - unfold shape_cows, shape_of. cbn. by rewrite En.
  - intros [T1 T2 T3]. constructor; [done|done|]. intros _. cbn. apply Hg, Hd.
Qed.

Lemma assign_bitmap_spec p i c j b p' r :
  assigning p -> cibs p !! i = Some c -> bitmaps c !! j = Some b -> assign_bitmap xid i j p = (p', r) ->
  r = Err OutOfSpace \/ exists a, r = Ok a /\ assigned p p' a /\ (a = false -> bm_settled b).
Proof.
  intros Hp Hi Hj. unfold assign_bitmap, stbind at 1, cib_nth. rewrite Hi. cbn [or_panic]. rewrite Hj. cbn [or_panic]. rewrite st_ok.
  case_bool_decide as Hs.
  { rewrite andb_false_r. intros [= <- <-]. right. exists false. split_and!; [done|by apply assigned_refl|by intros _ _]. }
  destruct (bm_dirty b) eqn:Hd; cbn [andb negb].
  2:{ intros [= <- <-]. right. exists false. split_and!; [done|by apply assigned_refl|]. unfold bm_settled. congruence. }
  unfold stbind at 1. destruct (private_allocate xid p) as [p1 r1] eqn:R.
  apply (private_allocate_spec size limit) in R as [(-> & -> & _)|(a & -> & Hp1 & Hst)];
    [intros [= <- <-]; by left| |apply (as_ok _ Hp)].
  destruct (stepped_nth _ _ _ _ _ Hst Hi) as (c1 & Hi1 & Es & [_ Hg]).
  destruct (Forall2_lookup_l _ _ _ _ _ Hg Hj) as (b1 & Hj1 & Hgb).
  intros [= <- <-]. right. exists true. split_and!; [done| |done].
  assert (bm_cow_paddr b1 = None) as En.
  { unfold shape_of in Es. injection Es as _ _ E. apply (f_equal (fun l => l !! j)) in E.
    rewrite !list_lookup_fmap, Hj, Hj1 in E. injection E as _ E. rewrite E. destruct (bm_cow_paddr b); [destruct Hs; eauto|done]. }
  apply (set_cow_inv p p1 a i c1 (fun c => c <| bitmaps := alter (give a) j (bitmaps c) |>)); [done..| | |].
  - intros c' Hc'. destruct (give_copy_ok a j c' Hc') as [G1 G2]. split_and!; [done..|]. cbn. by rewrite give_originals.
  - unfold shape_cows, shape_of. cbn [fst snd bitmaps set_field]. rewrite !map_map. cbn [snd].
    rewrite (concat_alter_perm (fun b => olist (bm_cow_paddr b)) (give a) (bitmaps c1) j b1 a Hj1).
    + symmetry. apply Permutation_middle.
    + cbn. by rewrite En.
  - intros [T1 T2 T3]. constructor; [|cbn; apply Forall_alter; [done|]|done].
    + intros Hcd. destruct (T1 Hcd) as [E F]. rewrite Forall_lookup in F. specialize (F j b1 Hj1). rewrite Hgb in F by done. done.
    + intros b' Hb' [Q1 Q2]. split; [exact Q1|]. intros _. assert (b' = b1) as -> by congruence. cbn. auto.
Qed.

Lemma layout_nth p p' i c :
  layout p' = layout p -> cibs p !! i = Some c ->
  exists c', cibs p' !! i = Some c' /\ length (bitmaps c') = length (bitmaps c).
Proof.
  intros E Hi. unfold layout in E. apply (f_equal (fun l => l !! i)) in E. rewrite !list_lookup_fmap, Hi in E.
  destruct (cibs p' !! i) as [c'|]; [|done]. exists c'. split; [done|]. cbn in E. injection E as _ E.
  apply (f_equal length) in E. by rewrite !length_map in E.
Qed.

Lemma assign_bitmaps_spec i (n : nat) : forall j p c p' r,
  assigning p -> cibs p !! i = Some c -> (j + n)%nat = length (bitmaps c) -> assign_bitmaps xid i n j p = (p', r) ->
  r = Err OutOfSpace \/ exists a, r = Ok a /\ assigned p p' a /\
    (a = false -> forall j' b, (j <= j')%nat -> bitmaps c !! j' = Some b -> bm_settled b).
Proof.
  induction n as [|n IH]; intros j p c p' r Hp Hi Hn.
  { cbn [assign_bitmaps]. intros [= <- <-]. right. exists false. split_and!; [done|by apply assigned_refl|].
    intros _ j' b Hj Hb. apply lookup_lt_Some in Hb. lia. }
  cbn [assign_bitmaps]. destruct (lookup_lt_is_Some_2 (bitmaps c) j ltac:(lia)) as [b Hb]. unfold stbind at 1.
  destruct (assign_bitmap xid i j p) as [p1 r1] eqn:R1.
  apply (assign_bitmap_spec p i c j b) in R1 as [->|(a & -> & Ha & Hsb)]; [intros [= <- <-]; by left| |done..].
  destruct (layout_nth p p1 i c (ad_layout _ _ _ Ha) Hi) as (c1 & Hi1 & Hl1). unfold stbind.
  destruct (assign_bitmaps xid i n (S j) p1) as [p2 r2] eqn:R2.
  apply (IH (S j) p1 c1) in R2 as [->|(a2 & -> & Ha2 & Hsb2)]; [intros [= <- <-]; by left| |apply (ad_inv _ _ _ Ha)|done|lia].
  intros [= <- <-]. right. exists (a || a2). split_and!; [done|by eapply assigned_trans|].
  intros [E1 E2]%orb_false_elim j' b' Hj Hb'. assert (p1 = p) as -> by (by apply (ad_same _ _ _ Ha)).
  assert (c1 = c) as -> by congruence. destruct (decide (j' = j)) as [->|]; [|apply (Hsb2 E2 j'); [lia|done]].
  assert (b' = b) as -> by congruence. auto.
Qed.

Lemma assign_pass_spec (n : nat) : forall i p p' r,
  assigning p -> (i + n)%nat = length (cibs p) -> assign_pass xid n i p = (p', r) ->
  r = Err OutOfSpace \/ exists a, r = Ok a /\ assigned p p' a /\
    (a = false -> forall i' c, (i <= i')%nat -> cibs p !! i' = Some c -> settled c).
Proof.
  induction n as [|n IH]; intros i p p' r Hp Hn.
  { cbn [assign_pass]. intros [= <- <-]. right. exists false. split_and!; [done|by apply assigned_refl|].
    intros _ i' c Hj Hc. apply lookup_lt_Some in Hc. lia. }
  cbn [assign_pass]. destruct (lookup_lt_is_Some_2 (cibs p) i ltac:(lia)) as [c Hc]. unfold stbind at 1.
  destruct (assign_cib xid i p) as [p1 r1] eqn:R1.
  apply (assign_cib_spec p i c) in R1 as [->|(a & -> & Ha & Hsa)]; [intros [= <- <-]; by left| |done..].
  destruct (layout_nth p p1 i c (ad_layout _ _ _ Ha) Hc) as (c1 & Hi1 & Hl1).
  unfold stbind at 1, cib_nth. rewrite Hi1. cbn [or_panic]. unfold stbind at 1.
  destruct (assign_bitmaps xid i (length (bitmaps c1)) 0 p1) as [p2 r2] eqn:R2.
  apply (assign_bitmaps_spec i _ 0 p1 c1) in R2 as [->|(b & -> & Hb & Hsb)]; [intros [= <- <-]; by left| |apply (ad_inv _ _ _ Ha)|done|done].
  pose proof (assigned_trans _ _ _ _ _ Ha Hb) as Hab.
  assert (length (cibs p2) = length (cibs p)) as Lc.
  { pose proof (f_equal length (ad_layout _ _ _ Hab)) as E. unfold layout in E. by rewrite !length_map in E. }
  unfold stbind. destruct (assign_pass xid n (S i) p2) as [p3 r3] eqn:R3.
  apply (IH (S i) p2) in R3 as [->|(d & -> & Hd & Hsd)]; [intros [= <- <-]; by left| |apply (ad_inv _ _ _ Hab)|lia].
  intros [= <- <-]. right. exists (a || b || d). split_and!; [done|by eapply assigned_trans|].
  intros [[E1 E2]%orb_false_elim E3]%orb_false_elim i' c' Hj Hc'.
  assert (p1 = p) as -> by (by apply (ad_same _ _ _ Ha)). assert (p2 = p) as -> by (by apply (ad_same _ _ _ Hb)).
  assert (c1 = c) as -> by congruence. destruct (decide (i' = i)) as [->|]; [|apply (Hsd E3 i'); [lia|done]].
  assert (c' = c) as -> by congruence. split; [auto|]. apply Forall_lookup. intros j b' Hb'. apply (Hsb E2 j b'); [lia|done].
Qed.

Lemma shape_cows_bound c : (length (shape_cows (shape_of c)) <= 1 + length (bitmaps c))%nat.
Proof.
  unfold shape_cows, shape_of. cbn [fst snd]. rewrite length_app.
  assert (length (olist (cib_cow_paddr c)) <= 1)%nat by (destruct (cib_cow_paddr c); cbn; lia).
  assert (length (concat (map (fun b => olist b.2) (map (fun b => (bm_original_paddr b, bm_cow_paddr b)) (bitmaps c)))) <= length (bitmaps c))%nat.
  { clear. induction (bitmaps c) as [|b l IH]; [done|]. cbn [map concat length snd]. rewrite length_app.
    destruct (bm_cow_paddr b); cbn [olist length]; lia. }
  lia.
Qed.

Lemma cows_bound p : (length (cows p) <= copies p)%nat.
Proof.
  unfold cows, cows_of, copies. induction (cibs p) as [|c cs IH]; [done|]. cbn [map concat]. rewrite !length_app. cbn [length].
  pose proof (shape_cows_bound c). lia.
Qed.

Lemma layout_copies p p' : layout p' = layout p -> copies p' = copies p.
Proof.
  intros E. unfold copies. f_equal.
  - pose proof (f_equal length E) as L. unfold layout in L. by rewrite !length_map in L.
  - assert (forall cs, length (concat (map bitmaps cs)) =
      length (concat (map snd (map (fun c => (cib_original_paddr c, map bm_original_paddr (bitmaps c))) cs)))) as Hl.
    { induction cs as [|c cs IH]; [done|]. cbn [map concat snd]. by rewrite !length_app, IH, length_map. }
    rewrite !Hl. unfold layout in E. by rewrite E.
Qed.

(** The loop ends: a pass that assigns uses up one of finitely many copies. *)
Lemma assign_loop_spec (fuel : nat) : forall p p' r,
  assigning p -> (copies p < fuel + length (cows p))%nat -> assign_loop xid fuel p = (p', r) ->
  r = Err OutOfSpace \/ (r = Ok tt /\ assigning p' /\ layout p' = layout p /\ Forall settled (cibs p')).
Proof.
  induction fuel as [|fuel IH]; intros p p' r Hp Hf; [pose proof (cows_bound p); lia|].
  cbn [assign_loop]. rewrite st_read. unfold stbind.
  destruct (assign_pass xid (length (cibs p)) 0 p) as [p1 r1] eqn:R1.
  apply (assign_pass_spec _ 0 p) in R1 as [->|(a & -> & Ha & Hs)]; [intros [= <- <-]; by left| |done|done].
  destruct a.
  - intros R. destruct Ha as [A1 A2 A3 _]. destruct (IH p1 p' r A1) as [->|(-> & B1 & B2 & B3)]; [|done|by left|].
    + rewrite (layout_copies _ _ A2). lia.
    + right. split_and!; [done..|congruence|done].
  - intros [= <- <-]. right. assert (p1 = p) as -> by (by apply (ad_same _ _ _ Ha)). split_and!; [done..|].
    apply Forall_lookup. intros i c Hc. apply (Hs eq_refl i); [lia|done].
Qed.
End Assign.

(** ** Pointing the records at the new bitmaps *)

Definition repointed (cib : bytes) (k a : Z) : bytes := put cib (record_at_slot k + 24) (le_bytes 8 a).

Lemma repointed_chunks cib k a :
  cib_ok cib -> 0 <= k < chunk_count cib -> 0 <= a < 2 ^ 64 ->
  let cib' := repointed cib k a in
  copy_at (E := SpacemanError) cib (record_at_slot k + 24) (le_bytes 8 a) = Ok cib' /\
  zlen cib' = zlen cib /\ cib_ok cib' /\ chunk_count cib' = chunk_count cib /\
  chunk_at cib' k = (chunk_at cib k) <| ck_bitmap := a |> /\
  forall j, 0 <= j < chunk_count cib -> j <> k -> chunk_at cib' j = chunk_at cib j.
Proof.
  intros Hc Hk Ha. cbv zeta. pose proof (record_fits _ _ Hc Hk) as [R1 R2].
  unfold repointed. set (cib' := put _ _ _).
  assert (zlen cib' = zlen cib) as L by (unfold cib'; range).
  assert (forall lo m, 0 <= lo -> 0 <= m -> lo + m <= record_at_slot k + 24 -> field cib' lo m = field cib lo m) as Fb
    by (intros; unfold cib'; by rewrite field_put_below by range).
  assert (forall lo m, record_at_slot k + 32 <= lo -> field cib' lo m = field cib lo m) as Fa
    by (intros; unfold cib'; by rewrite field_put_above by range).
  assert (chunk_count cib' = chunk_count cib) as En by (apply Fb; unfold CIB_CHUNK_COUNT_OFFSET; lia).
  split_and!; [rewrite copy_at_put by range; done|done| |done|..].
  - constructor; [unfold cib'; apply is_bytes_put; [apply (cb_bytes _ Hc)|apply is_bytes_le_bytes]|]. rewrite En, L. apply (cb_fits _ Hc).
  - unfold chunk_at, set_field. cbn [ck_addr ck_blocks ck_bitmap ck_free]. rewrite (Fb (_ + 8)), (Fb (_ + 16)), (Fb (_ + 20)) by lia.
    f_equal. unfold cib', field. rewrite get_put_same by range. by apply le_val_field.
  - intros j Hj Hne. unfold chunk_at. cbv zeta.
    assert (record_at_slot j + 32 <= record_at_slot k + 24 \/ record_at_slot k + 32 <= record_at_slot j) as [|]
      by (unfold record_at_slot, CHUNK_INFO_BYTES, CIB_ARRAY_OFFSET in *; lia);
      (pose proof (record_fits _ _ Hc Hj)); [rewrite !Fb by lia|rewrite !Fa by lia]; done.
Qed.

(** Where the bitmap read from [a] goes. *)
Definition remap (bms : list BitmapCopy) (a : Z) : Z :=
  match find_bitmap (with_original a) bms with
  | Some (_, b) => current_paddr b
  | None => a
  end.
Definition move (bms : list BitmapCopy) (ck : Chunk) : Chunk := ck <| ck_bitmap := remap bms (ck_bitmap ck) |>.

Definition bm_cows (bms : list BitmapCopy) : list Z := concat (map (fun b => olist (bm_cow_paddr b)) bms).

(** The addresses to use next are none of the addresses in use. *)
Record fresh_cows (bms : list BitmapCopy) : Prop := {
  fc_range : Forall (fun a => 0 < a < 2 ^ 64) (bm_cows bms);
  fc_apart a : a ∈ bm_cows bms -> a ∉ map bm_original_paddr bms;
  fc_nonzero : Forall (fun b => bm_original_paddr b <> 0) bms;
}.

Lemma bm_cows_elem bms b a : b ∈ bms -> bm_cow_paddr b = Some a -> a ∈ bm_cows bms.
Proof.
  intros Hb Ha. apply list_elem_of_In, in_concat. exists (olist (bm_cow_paddr b)). split; [|rewrite Ha; by left].
  apply in_map_iff. exists b. split; [done|by apply list_elem_of_In].
Qed.

(** The search of the source finds the bitmap by its old address. *)
Lemma find_either bms a :
  fresh_cows bms -> a = 0 \/ a ∈ map bm_original_paddr bms ->
  find_bitmap (fun b => (bm_original_paddr b =? a) || (current_paddr b =? a)) bms = find_bitmap (with_original a) bms.
Proof.
  intros [F1 F2 F3] Ha.
  assert (forall b, b ∈ bms -> (bm_original_paddr b =? a) || (current_paddr b =? a) = with_original a b) as He.
  { intros b Hb. unfold with_original. destruct (Z.eqb_spec (bm_original_paddr b) a) as [|Hne]; [done|]. cbn [orb].
    unfold current_paddr. destruct (bm_cow_paddr b) as [x|] eqn:Ex; cbn [default]; [|by apply Z.eqb_neq].
    pose proof (bm_cows_elem _ _ _ Hb Ex) as Hx. apply Z.eqb_neq. intros E. change (x = a) in E. subst x. destruct Ha as [->|Ha].
    - rewrite Forall_forall in F1. specialize (F1 0 Hx). lia.
    - by apply (F2 a). }
  clear F1 F2 F3 Ha. induction bms as [|b l IH]; [done|]. cbn [find_bitmap]. rewrite He by (by left).
  destruct (with_original a b); [done|]. rewrite IH; [done|]. intros x Hx. apply He. by right.
Qed.

Definition patched (c c' : CibCopy) (upto : Z) : Prop :=
  shape_of c' = shape_of c /\ bitmaps c' = bitmaps c /\ (cib_dirty c = true -> cib_dirty c' = true) /\
  zlen (cib_block c') = zlen (cib_block c) /\ cib_ok (cib_block c') /\ chunk_count (cib_block c') = chunk_count (cib_block c) /\
  forall j, 0 <= j < chunk_count (cib_block c) ->
    chunk_at (cib_block c') j = if decide (j < upto) then move (bitmaps c) (chunk_at (cib_block c) j) else chunk_at (cib_block c) j.

Lemma patch_slots_spec size limit c (Hc : copy_ok size limit c) (Hf : fresh_cows (bitmaps c)) : forall (n : nat) slot c1,
  0 <= slot -> slot + Z.of_nat n = chunk_count (cib_block c) -> patched c c1 slot ->
  exists c', patch_slots n slot c1 = (c', Ok tt) /\ patched c c' (chunk_count (cib_block c)).
Proof.
  induction n as [|n IH]; intros slot c1 Hge Hn P1.
  { exists c1. split; [done|]. by replace (chunk_count (cib_block c)) with slot by lia. }
  cbn [patch_slots]. rewrite !st_read. destruct P1 as (Q1 & Q2 & Q3 & Q4 & Q5 & Q6 & Q7).
  destruct (record_reads (E := SpacemanError) (cib_block c1) slot Q5 ltac:(lia)) as (_ & _ & _ & E4).
  pose proof (Q7 slot ltac:(lia)) as Ek. rewrite decide_False in Ek by lia. rewrite E4, Ek, st_ok, Q2.
  set (ck := chunk_at (cib_block c) slot) in *.
  assert (ck_bitmap ck = 0 \/ ck_bitmap ck ∈ map bm_original_paddr (bitmaps c)) as Ha.
  { destruct (decide (ck_bitmap ck = 0)) as [|Hz]; [by left|right]. rewrite (cp_originals _ _ _ Hc).
    apply bitmaps_elem; [apply slot_elem; lia|done]. }
  rewrite find_either by done.
  assert (forall c2, patched c c2 (slot + 1) -> exists c', patch_slots n (slot + 1) c2 = (c', Ok tt) /\
    patched c c' (chunk_count (cib_block c))) as Next by (intros; apply IH; [lia|lia|done]). clear IH.
  assert (move (bitmaps c) ck = ck -> patched c c1 (slot + 1)) as Same.
  { intros Em. split_and!; [done..|]. intros j Hj. rewrite Q7 by lia. destruct (decide (j = slot)) as [->|Hne].
    - rewrite decide_False, decide_True by lia. by fold ck.
    - repeat case_decide; try done; lia. }
  unfold move, remap in Same. destruct (find_bitmap (with_original (ck_bitmap ck)) (bitmaps c)) as [[i b]|] eqn:Ef.
  - destruct (find_bitmap_some _ _ _ _ Ef) as [Hi Ho]. unfold with_original in Ho. apply Z.eqb_eq in Ho.
    destruct (bm_cow_paddr b) as [a|] eqn:Ea.
    + pose proof (fc_range _ Hf) as Fr. rewrite Forall_forall in Fr.
      specialize (Fr a (bm_cows_elem _ _ _ ltac:(apply list_elem_of_lookup; eauto) Ea)).
      destruct (repointed_chunks (cib_block c1) slot a Q5 ltac:(lia) ltac:(lia)) as (-> & L & O & Nn & Hk & Hj).
      apply Next. split_and!; cbn; [by rewrite <- Q1|done|done|lia|done|lia|].
      intros j Hjr. destruct (decide (j = slot)) as [->|Hne].
      * rewrite decide_True, Hk, Ek by lia. fold ck. unfold move, remap. rewrite Ef. unfold current_paddr. by rewrite Ea.
      * rewrite Hj, Q7 by lia. repeat case_decide; try done; lia.
    + rewrite st_ok. apply Next, Same. unfold current_paddr. rewrite Ea. cbn [default]. rewrite Ho. by destruct ck.
  - rewrite st_ok. apply Next, Same. by destruct ck.
Qed.

(** ** Writing *)

(** The header of a published chunk-info block lies before its records. *)
Lemma cib_image_ok xid cow block :
  cib_ok block -> 40 <= zlen block ->
  exists b, cib_image (E := SpacemanError) xid cow block = Ok b /\ zlen b = zlen block /\ is_bytes b /\
    chunks_of b = chunks_of block /\ (zlen block mod 4 = 0 -> fletcher64_valid b = true).
Proof.
  intros Hc Hl. unfold cib_image, OID_OFFSET, XID_OFFSET. do 2 (rewrite copy_at_put by range; cbn [res_bind]).
  set (b0 := put _ _ _). assert (zlen b0 = zlen block) as L0 by (unfold b0; range).
  destruct (seal_valid (E := SpacemanError) b0) as (x & -> & Lx & Vx); [lia|]. exists (put b0 0 (le_bytes 8 x)).
  assert (forall lo m, 24 <= lo -> field (put b0 0 (le_bytes 8 x)) lo m = field block lo m) as F
    by (intros; unfold b0; by rewrite !field_put_above by range).
  split_and!; [done|lia|unfold b0; repeat apply is_bytes_put; try apply is_bytes_le_bytes; apply (cb_bytes _ Hc)| |].
  - unfold chunks_of. assert (chunk_count (put b0 0 (le_bytes 8 x)) = chunk_count block) as En
      by (apply F; unfold CIB_CHUNK_COUNT_OFFSET; lia).
    rewrite En. apply map_ext_in. intros k Hk%list_elem_of_In. apply elem_of_seqZ in Hk.
    pose proof (record_fits block k Hc ltac:(lia)). unfold chunk_at. by rewrite !F by lia.
  - intros H4. apply Vx. by rewrite L0.
Qed.

Section OnLawfulDisc.
Context {D : Type} `{LawfulImage D}.
Implicit Types s : RepairSession D.

Fixpoint write_all (l : list (Z * bytes)) : io D SpacemanError unit :=
  match l with
  | [] => lift (Ok tt)
  | (a, b) :: l => do _ <- sm_write a b; write_all l
  end.

Lemma write_all_app l k s :
  write_all (l ++ k) s = match write_all l s with (s, Ok _) => write_all k s | (s, Err e) => (s, Err e) | (s, Panic) => (s, Panic) end.
Proof.
  revert s. induction l as [|[a b] l IH]; intros s; [done|]. cbn [app write_all]. unfold iobind.
  by destruct (sm_write a b s) as [s1 [?| |]].
Qed.

Lemma write_all_spec l : forall s s' r,
  session_ok s -> NoDup (map fst l) ->
  Forall (fun w => 0 <= w.1 < block_count s /\ zlen w.2 = block_size s /\ is_bytes w.2) l ->
  write_all l s = (s', r) ->
  session_ok s' /\ same_shape s s' /\
  (forall q, 0 <= q < block_count s -> q ∉ map fst l -> block_at s' q = block_at s q) /\
  ((exists e, r = Err (SmDisc e)) \/ (r = Ok tt /\ forall w, w ∈ l -> block_at s' w.1 = w.2)).
Proof.
  induction l as [|[a b] l IH]; intros s s' r Hs N Hl.
  { cbn [write_all]. intros [= <- <-]. split_and!; [done..|]. right. split; [done|]. by intros w ?%not_elem_of_nil. }
  cbn [map fst] in N. apply NoDup_cons in N as [Na N]. apply Forall_cons in Hl as [(R & L & B) Hl]. cbn [fst snd] in *.
  cbn [write_all]. unfold iobind, sm_write, io_map_err. destruct (write_block a b s) as [s1 r1] eqn:W.
  pose proof (write_block_frame s a b s1 r1 Hs ltac:(lia) B W) as (_ & _ & _ & W2).
  apply write_block_spec in W as (Hs1 & Sh1 & Np & Hw); [|done..].
  destruct r1 as [[]|e|]; cbn [map_err]; [|intros [= <- <-]|done].
  2:{ split_and!; [done..| |by eauto]. intros q Hq [Hne _]%not_elem_of_cons. by apply W2. }
  destruct (Hw eq_refl) as [W1 _]. pose proof Sh1 as (G1 & G2 & G3). intros R2.
  apply IH in R2 as (Hs2 & Sh2 & Hout & Hor); [|done|done|by rewrite G2, G3].
  split_and!; [done|by eapply same_shape_trans|..].
  - intros q Hq [Hne Hnot]%not_elem_of_cons. rewrite Hout by (done || lia). by apply W2.
  - destruct Hor as [He|(-> & Hin)]; [by left|]. right. split; [done|].
    intros w [->|Hw']%elem_of_cons; [|by apply Hin]. cbn [fst snd]. rewrite Hout; [done|lia|done].
Qed.

Definition bitmap_plan (bms : list BitmapCopy) : list (Z * bytes) :=
  concat (map (fun b => olist ((fun a => (a, bm_block b)) <$> bm_cow_paddr b)) bms).

Lemma write_bitmaps_eq bms s : write_bitmaps bms s = write_all (bitmap_plan bms) s.
Proof.
  revert s. induction bms as [|b l IH]; intros s; [done|]. unfold bitmap_plan. cbn [write_bitmaps map concat].
  rewrite write_all_app. destruct (bm_cow_paddr b) as [a|]; cbn [fmap option_fmap option_map olist write_all];
    unfold iobind; [destruct (sm_write a (bm_block b) s) as [s1 [[]| |]]; try done|]; apply IH.
Qed.

Lemma bitmap_plan_keys bms : map fst (bitmap_plan bms) = bm_cows bms.
Proof.
  unfold bitmap_plan, bm_cows. rewrite concat_map, map_map. f_equal. apply map_ext. intros b. by destruct (bm_cow_paddr b).
Qed.

(** One copy, with its records pointed at the new bitmaps. *)
Record plan_of (xid : Z) (c c' : CibCopy) (l : list (Z * bytes)) : Prop := {
  pl_patched : patched c c' (chunk_count (cib_block c));
  pl_writes : exists image, l = bitmap_plan (bitmaps c) ++ olist ((fun a => (a, image)) <$> cib_cow_paddr c) /\
    zlen image = zlen (cib_block c) /\ is_bytes image /\ chunks_of image = chunks_of (cib_block c');
}.

Lemma plan_keys xid c c' l : plan_of xid c c' l -> map fst l ≡ₚ shape_cows (shape_of c).
Proof.
  intros [_ (image & -> & _)]. rewrite map_app, bitmap_plan_keys. unfold shape_cows, shape_of, bm_cows. cbn [fst snd].
  rewrite map_map. cbn [snd]. rewrite Permutation_app_comm. by destruct (cib_cow_paddr c).
Qed.

Definition target (c : CibCopy) : Z := default (cib_original_paddr c) (cib_cow_paddr c).
Definition set_addr (sm : bytes) (off index a : Z) : bytes := put sm (off + index * 8) (le_bytes 8 a).

Lemma publish_cib_spec size limit xid cnt off index c sm s :
  copy_ok size limit c -> 40 <= size -> fresh_cows (bitmaps c) ->
  0 <= index < cnt -> 0 <= off -> off + cnt * 8 <= zlen sm ->
  exists c' l, plan_of xid c c' l /\ publish_cib xid cnt off index c sm s = (c', set_addr sm off index (target c), write_all l s).
Proof.
  intros Hc H40 Hf Hi Ho Hl. unfold publish_cib. rewrite st_read.
  destruct (count_read (E := SpacemanError) (cib_block c) (cb_bytes _ (cp_cib _ _ _ Hc))) as [-> Hn];
    [rewrite (cp_size _ _ _ Hc); lia|]. rewrite st_ok.
  destruct (patch_slots_spec size limit c Hc Hf (Z.to_nat (chunk_count (cib_block c))) 0 c) as (c' & -> & Hp); [lia|lia| |].
  { split_and!; [done..|apply (cp_cib _ _ _ Hc)|done|]. intros j Hj. by rewrite decide_False by lia. }
  pose proof Hp as (Q1 & Q2 & Q3 & Q4 & Q5 & Q6 & Q7). rewrite (proj2 (Z.ltb_lt _ _)) by lia.
  assert (cib_cow_paddr c' = cib_cow_paddr c /\ cib_original_paddr c' = cib_original_paddr c) as [-> ->]
    by (unfold shape_of in Q1; by injection Q1).
  rewrite copy_at_put by range. exists c'.
  destruct (cib_image_ok xid (target c) (cib_block c') Q5) as (image & Ei & Li & Bi & Ci & _); [rewrite Q4, (cp_size _ _ _ Hc); lia|].
  exists (bitmap_plan (bitmaps c) ++ olist ((fun a => (a, image)) <$> cib_cow_paddr c)). split.
  - constructor; [done|]. exists image. split_and!; [done|lia|done|done].
  - unfold set_addr. f_equal. unfold iobind. rewrite Q2, write_bitmaps_eq, write_all_app.
    destruct (write_all (bitmap_plan (bitmaps c)) s) as [s1 [[]| |]]; try done. unfold write_cib.
    assert (cib_cow_paddr c' = cib_cow_paddr c) as -> by (unfold shape_of in Q1; by injection Q1).
    unfold target in Ei. destruct (cib_cow_paddr c) as [a|]; [|done]. cbn [default fmap option_fmap option_map olist write_all] in *.
    change (id a) with a in Ei.
    unfold iobind, lift. rewrite Ei. by destruct (sm_write a image s1) as [s2 [[]| |]].
Qed.

Fixpoint set_addrs (sm : bytes) (off index : Z) (l : list Z) : bytes :=
  match l with
  | [] => sm
  | a :: l => set_addrs (set_addr sm off index a) off (index + 1) l
  end.

Lemma set_addrs_spec l : forall sm off index,
  is_bytes sm -> 0 <= off -> 0 <= index -> off + (index + zlen l) * 8 <= zlen sm -> Forall (fun a => 0 <= a < 2 ^ 64) l ->
  let sm' := set_addrs sm off index l in
  zlen sm' = zlen sm /\ is_bytes sm' /\
  (forall lo m, 0 <= lo -> 0 <= m -> lo + m <= off + index * 8 -> field sm' lo m = field sm lo m) /\
  forall (j : nat) a, l !! j = Some a -> field sm' (off + (index + Z.of_nat j) * 8) 8 = a.
Proof.
  induction l as [|a l IH]; intros sm off index Hb Ho Hi Hl Hr; [done|]. cbn [set_addrs]. rewrite zlen_cons in Hl.
  apply Forall_cons in Hr as [Ha Hr]. pose proof (zlen_nonneg l).
  assert (zlen (set_addr sm off index a) = zlen sm) as L by (unfold set_addr; range).
  destruct (IH (set_addr sm off index a) off (index + 1)) as (I1 & I2 & I3 & I4);
    [unfold set_addr; apply is_bytes_put; [done|apply is_bytes_le_bytes]|lia|lia|lia|done|].
  split_and!; [lia|done|..].
  - intros lo m ? ? ?. rewrite I3 by lia. unfold set_addr. by rewrite field_put_below by range.
  - intros [|j] x; cbn; [intros [= <-]|intros Hj].
    + rewrite I3 by lia. rewrite Z.add_0_r. unfold set_addr, field. rewrite get_put_same by range. by apply le_val_field.
    + rewrite <- (I4 j x Hj). f_equal. lia.
Qed.

(** The space manager block after the loop lists the new addresses. *)
Lemma set_addrs_cibs sm l :
  is_bytes sm -> 88 <= zlen sm -> 84 <= cib_offset sm -> cib_offset sm + cib_count sm * 8 <= zlen sm -> cib_count sm = zlen l ->
  Forall (fun a => 0 <= a < 2 ^ 64) l ->
  let sm' := set_addrs sm (cib_offset sm) 0 l in
  cib_list sm' = l /\ free_count sm' = free_count sm /\ cib_count sm' = cib_count sm /\ cib_offset sm' = cib_offset sm /\
  zlen sm' = zlen sm /\ is_bytes sm'.
Proof.
  intros Hb Hl Ho Hf Hn Hr. cbv zeta.
  destruct (set_addrs_spec l sm (cib_offset sm) 0) as (L & B & Fb & Fa); [done|lia|lia|lia|done|].
  set (sm' := set_addrs _ _ _ _) in *.
  assert (cib_offset sm' = cib_offset sm) as Eo by (apply Fb; unfold SM_CIB_ADDR_OFFSET_OFFSET; lia).
  assert (cib_count sm' = cib_count sm) as Ec by (apply Fb; unfold SM_CIB_COUNT_OFFSET; lia).
  split_and!; [|apply Fb; unfold SM_FREE_COUNT_OFFSET; lia|done..]. unfold cib_list. rewrite Eo, Ec, Hn.
  apply list_eq. intros j. rewrite list_lookup_fmap. destruct (l !! j) as [a|] eqn:Ej.
  - pose proof (lookup_lt_Some _ _ _ Ej). rewrite lookup_seqZ_lt by (unfold zlen; lia). cbn. f_equal.
    exact (Fa j a Ej).
  - apply lookup_ge_None in Ej. by rewrite lookup_seqZ_ge by (unfold zlen; lia).
Qed.

Lemma publish_spec size limit xid cnt off : 40 <= size -> 0 <= off -> forall cs index sm s,
  Forall (fun c => copy_ok size limit c /\ fresh_cows (bitmaps c)) cs ->
  0 <= index -> index + zlen cs <= cnt -> off + cnt * 8 <= zlen sm ->
  exists pl : list (CibCopy * list (Z * bytes)),
    Forall2 (fun c w => plan_of xid c w.1 w.2) cs pl /\
    forall cs' sm' s' r, publish xid cnt off index cs sm s = (cs', sm', (s', r)) ->
      write_all (concat (map snd pl)) s = (s', r) /\
      (r = Ok tt -> cs' = map fst pl /\ sm' = set_addrs sm off index (map target cs)).
Proof.
  intros H40 Ho. induction cs as [|c cs IH]; intros index sm s Hall Hi Hn Hl.
  { exists []. split; [done|]. cbn [publish]. by intros ? ? ? ? [= <- <- <- <-]. }
  apply Forall_cons in Hall as [[Hc Hf] Hall]. rewrite zlen_cons in Hn. pose proof (zlen_nonneg cs).
  destruct (publish_cib_spec size limit xid cnt off index c sm s Hc H40 Hf) as (c' & l & Hp & Eq); [lia|lia|lia|].
  cbn [publish]. rewrite Eq. destruct (write_all l s) as [s1 r1] eqn:W.
  destruct (IH (index + 1) (set_addr sm off index (target c)) s1) as (pl & HF & Hpub); [done|lia|lia| |].
  { assert (zlen (set_addr sm off index (target c)) = zlen sm) as -> by (unfold set_addr; range). lia. }
  exists ((c', l) :: pl). split; [by constructor|]. intros cs' sm' s' r. cbn [map concat snd fst]. rewrite write_all_app, W.
  destruct r1 as [[]|e|]; [|by intros [= <- <- <- <-]..].
  destruct (publish xid cnt off (index + 1) cs _ s1) as [[cs2 sm2] [s2 r2]] eqn:P. intros [= <- <- <- <-].
  destruct (Hpub _ _ _ _ eq_refl) as [-> Hok]. split; [done|]. intros ->. destruct (Hok eq_refl) as [-> ->]. done.
Qed.

(** ** What the disc holds afterwards *)

Lemma patched_chunks c c' :
  patched c c' (chunk_count (cib_block c)) -> chunks_of (cib_block c') = map (move (bitmaps c)) (copy_chunks c).
Proof.
  intros (_ & _ & _ & _ & _ & En & Hj). unfold copy_chunks, chunks_of. rewrite En, map_map. apply map_ext_in.
  intros j Hjj%list_elem_of_In. apply elem_of_seqZ in Hjj. by rewrite Hj, decide_True by lia.
Qed.

Lemma plan_bitmap xid c c' l b a : plan_of xid c c' l -> b ∈ bitmaps c -> bm_cow_paddr b = Some a -> (a, bm_block b) ∈ l.
Proof.
  intros [_ (image & -> & _)] Hb Ha. apply elem_of_app. left. apply list_elem_of_In, in_concat.
  exists (olist ((fun a => (a, bm_block b)) <$> bm_cow_paddr b)). split; [|rewrite Ha; by left].
  apply in_map_iff. exists b. split; [done|by apply list_elem_of_In].
Qed.

Lemma copy_published size limit xid c c' l s s' :
  copy_ok size limit c -> tracked (block_at s) c -> settled c -> fresh_cows (bitmaps c) -> plan_of xid c c' l ->
  (forall w, w ∈ l -> block_at s' w.1 = w.2) ->
  (forall q, q = cib_original_paddr c \/ q ∈ map bm_original_paddr (bitmaps c) -> block_at s' q = block_at s q) ->
  chunks_of (block_at s' (target c)) = map (move (bitmaps c)) (copy_chunks c) /\
  frees (block_at s') (map (move (bitmaps c)) (copy_chunks c)) = copy_frees c.
Proof.
  intros Hc [T1 T2 T3] [S1 S2] Hf Hp Hw Hq. pose proof (patched_chunks _ _ (pl_patched _ _ _ _ Hp)) as Ep. split.
  - unfold target. destruct (cib_cow_paddr c) as [a|] eqn:Ea.
    + destruct (pl_writes _ _ _ _ Hp) as (image & El & _ & _ & Ei). change (default _ (Some a)) with a.
      rewrite <- Ep, <- Ei. f_equal. apply (Hw (a, image)). rewrite El, Ea. apply elem_of_app. right. by left.
    + cbn [default]. destruct (cib_dirty c) eqn:Ed; [destruct (S1 eq_refl); congruence|]. destruct (T1 eq_refl) as [Eb Hcl].
      rewrite Hq by (by left). rewrite <- Eb. symmetry. unfold copy_chunks.
      rewrite <- (map_id (chunks_of (cib_block c))) at 2. apply map_ext_in. intros ck _. unfold move, remap.
      destruct (find_bitmap _ _) as [[i b]|] eqn:Ef; [|by destruct ck].
      destruct (find_bitmap_some _ _ _ _ Ef) as [Hi Ho]. unfold with_original in Ho. apply Z.eqb_eq in Ho.
      unfold current_paddr. destruct (bm_cow_paddr b) as [a|] eqn:Eba.
      * rewrite Forall_lookup in Hcl, T2. destruct (T2 i b Hi) as [_ Hd]. rewrite (Hcl i b Hi), Eba in Hd. specialize (Hd ltac:(by eexists)). discriminate Hd.
      * cbn [default]. rewrite Ho. by destruct ck.
  - unfold copy_frees, frees. rewrite map_map. f_equal. apply map_ext_in. intros ck Hck%list_elem_of_In.
    unfold chunk_frees, move. cbn [ck_bitmap ck_addr ck_blocks set_field].
    destruct (Z.eqb_spec (ck_bitmap ck) 0) as [Hz|Hz].
    { rewrite Hz. unfold remap. destruct (find_bitmap _ _) as [[i b]|] eqn:Ef; [|done].
      destruct (find_bitmap_some _ _ _ _ Ef) as [Hi Ho]. unfold with_original in Ho. apply Z.eqb_eq in Ho.
      by destruct (proj1 (Forall_lookup _ _) (fc_nonzero _ Hf) i b Hi). }
    destruct (copy_bitmap _ _ _ _ Hc Hck Hz) as (i & b & Hi & Ho & Ef & Hbo & _). unfold remap. rewrite Ef, Hbo.
    assert (b ∈ bitmaps c) as Hb by (apply list_elem_of_lookup; eauto).
    unfold current_paddr. destruct (bm_cow_paddr b) as [a|] eqn:Eba.
    + change (default _ (Some a)) with a. pose proof (fc_range _ Hf) as Fr. rewrite Forall_forall in Fr.
      specialize (Fr a (bm_cows_elem _ _ _ Hb Eba)). rewrite (proj2 (Z.eqb_neq a 0)) by lia.
      pose proof (Hw (a, bm_block b) ltac:(by eapply plan_bitmap)) as Ew. cbn [fst snd] in Ew. by rewrite Ew.
    + cbn [default]. rewrite Ho, (proj2 (Z.eqb_neq _ _)) by done. rewrite Forall_forall in T2, S2.
      destruct (bm_dirty b) eqn:Ed; [destruct (S2 b Hb Ed); congruence|]. destruct (T2 b Hb) as [Hblk _].
      rewrite Hq by (right; rewrite <- Ho; by apply list_elem_of_fmap_2). by rewrite <- Ho, <- Hblk.
Qed.

(** The free list described by a space manager block. *)
Definition free_in s (sm : bytes) : list Z := frees (block_at s) (chunks_in s (cib_list sm)).

Definition originals (p : PrivateSpaceman) : list Z := concat (map (fun x => x.1 :: x.2) (layout p)).

Lemma private_nodup size limit p : private_ok size limit p -> NoDup (private_frees p).
Proof.
  intros Hp. pose proof (pv_disjoint _ _ _ Hp) as N. eapply sublist_NoDup; [exact N|].
  pose proof (pv_copies _ _ _ Hp) as Hc. unfold private_frees, private_chunks. clear N Hp.
  induction Hc as [|c cs Hc _ IH]; [done|]. cbn [map concat]. rewrite map_app, concat_app. apply sublist_app; [|exact IH].
  unfold copy_frees. apply frees_sublist. unfold copy_chunks, chunks_of. apply Forall_map, Forall_forall.
  intros k Hk%elem_of_seqZ. apply (chunk_fields _ k (cp_cib _ _ _ Hc)). lia.
Qed.

Lemma originals_nth p i c :
  cibs p !! i = Some c -> forall q, q = cib_original_paddr c \/ q ∈ map bm_original_paddr (bitmaps c) -> q ∈ originals p.
Proof.
  intros Hi q Hq. unfold originals, layout. rewrite map_map. apply list_elem_of_In, in_concat. cbn [fst snd].
  exists (cib_original_paddr c :: map bm_original_paddr (bitmaps c)). split.
  - apply in_map_iff. exists c. split; [done|]. apply list_elem_of_In, list_elem_of_lookup. eauto.
  - destruct Hq as [->|Hq]; [by left|right; by apply list_elem_of_In].
Qed.

Lemma plans_keys xid cs (pl : list (CibCopy * list (Z * bytes))) :
  Forall2 (fun c w => plan_of xid c w.1 w.2) cs pl -> map fst (concat (map snd pl)) ≡ₚ cows_of cs.
Proof.
  induction 1 as [|c w cs pl Hp _ IH]; [done|]. unfold cows_of in *. cbn [map concat]. rewrite map_app, IH.
  by rewrite (plan_keys _ _ _ _ Hp).
Qed.

Lemma plan_blocks size limit xid c c' l :
  copy_ok size limit c -> plan_of xid c c' l -> Forall (fun w => zlen w.2 = size /\ is_bytes w.2) l.
Proof.
  intros Hc [_ (image & -> & Li & Bi & _)]. apply Forall_app. split.
  - apply Forall_concat, Forall_map. eapply Forall_impl; [apply (cp_blocks _ _ _ Hc)|]. intros b Hb.
    destruct (bm_cow_paddr b); cbn; [by apply Forall_singleton|constructor].
  - rewrite (cp_size _ _ _ Hc) in Li. destruct (cib_cow_paddr c); cbn; [by apply Forall_singleton|constructor].
Qed.

Lemma cows_nth p i c a :
  cibs p !! i = Some c -> a ∈ shape_cows (shape_of c) -> a ∈ cows p.
Proof.
  intros Hi Ha. apply list_elem_of_In, in_concat. exists (shape_cows (shape_of c)). split; [|by apply list_elem_of_In].
  apply in_map_iff. exists c. split; [done|]. apply list_elem_of_In, list_elem_of_lookup. eauto.
Qed.

Lemma bm_cows_shape c a : a ∈ bm_cows (bitmaps c) -> a ∈ shape_cows (shape_of c).
Proof.
  intros Ha. apply elem_of_app. right. unfold shape_of. cbn [snd]. rewrite map_map. exact Ha.
Qed.

(** What materializing relies on. *)
Record ready s (p : PrivateSpaceman) : Prop := {
  rd_session : session_ok s;
  rd_ok : private_ok (block_size s) (block_count s) p;
  rd_tracked : Forall (tracked (block_at s)) (cibs p);
  rd_cows : cows p = [];
  rd_range : Forall (fun a => 0 < a < block_count s) (private_frees p);
  rd_metadata a : a ∈ originals p -> 0 <= a < block_count s /\ a ∉ private_frees p;
}.

Lemma layout_originals p p' : layout p' = layout p -> originals p' = originals p.
Proof. unfold originals. by intros ->. Qed.

Lemma copies_fresh s p p1 :
  ready s p -> assigning (block_size s) (block_count s) (block_at s) (private_frees p) p1 -> layout p1 = layout p ->
  Forall (fun a => 0 < a < block_count s /\ a ∉ originals p) (cows p1) /\ NoDup (cows p1) /\
  Forall (fun c => copy_ok (block_size s) (block_count s) c /\ fresh_cows (bitmaps c)) (cibs p1).
Proof.
  intros [R1 R2 R3 R4 R5 R6] [A1 A2 A3] El.
  assert (forall a, a ∈ cows p1 -> a ∈ private_frees p) as Hin by (intros a Ha; rewrite <- A3; apply elem_of_app; by left).
  assert (Forall (fun a => 0 < a < block_count s /\ a ∉ originals p) (cows p1)) as Hcw.
  { apply Forall_forall. intros a Ha%Hin. rewrite Forall_forall in R5. split; [by apply R5|]. intros Ho. by apply (R6 a Ho). }
  split_and!; [done| |].
  - pose proof (private_nodup _ _ _ R2) as N. rewrite <- A3 in N. by apply NoDup_app in N as [N _].
  - apply Forall_lookup. intros i c Hi. pose proof (proj1 (Forall_lookup _ _) (pv_copies _ _ _ A1) i c Hi) as Hc. split; [done|].
    assert (block_count s < 2 ^ 64) as Hlim.
    { destruct R1 as [_ B1 B2 B3]. destruct (decide (0 <= block_count s)); nia. }
    rewrite Forall_forall in Hcw. constructor.
    + apply Forall_forall. intros a Ha%bm_cows_shape. specialize (Hcw a (cows_nth _ _ _ _ Hi Ha)). lia.
    + intros a Ha%bm_cows_shape Ho. apply (Hcw a (cows_nth _ _ _ _ Hi Ha)). rewrite <- (layout_originals _ _ El).
      eapply originals_nth; [done|by right].
    + apply Forall_forall. intros b Hb. assert (bm_original_paddr b ∈ map bm_original_paddr (bitmaps c)) as Hm by (by apply list_elem_of_fmap_2).
      rewrite (cp_originals _ _ _ Hc) in Hm. by apply list_elem_of_filter in Hm as [Hz _].
Qed.

Lemma published_all xid s s' cs (pl : list (CibCopy * list (Z * bytes))) size limit :
  Forall2 (fun c w => plan_of xid c w.1 w.2) cs pl ->
  Forall (fun c => copy_ok size limit c /\ fresh_cows (bitmaps c)) cs ->
  Forall (tracked (block_at s)) cs -> Forall settled cs ->
  (forall w, w ∈ concat (map snd pl) -> block_at s' w.1 = w.2) ->
  (forall c, c ∈ cs -> forall q, q = cib_original_paddr c \/ q ∈ map bm_original_paddr (bitmaps c) -> block_at s' q = block_at s q) ->
  frees (block_at s') (chunks_in s' (map target cs)) = all_frees cs /\
  sum_of ck_free (chunks_in s' (map target cs)) = sum_of ck_free (all_chunks cs).
Proof.
  intros HF. unfold chunks_in, all_frees, all_chunks. induction HF as [|c w cs pl Hp HF IH]; intros Hc Ht Hs Hw Hq; [done|].
  apply Forall_cons in Hc as [[Hc Hf] Hcs], Ht as [Ht Hts], Hs as [Hs Hss]. cbn [map concat] in *.
  assert (forall x, x ∈ w.2 -> block_at s' x.1 = x.2) as Hw1 by (intros x Hx; apply Hw, elem_of_app; by left).
  destruct (copy_published _ _ _ _ _ _ s s' Hc Ht Hs Hf Hp Hw1 (Hq c ltac:(by left))) as [E1 E2].
  destruct IH as [I1 I2]; [done..|intros x Hx; apply Hw, elem_of_app; by right|intros x Hx; apply Hq; by right|].
  rewrite frees_app, !sum_of_app, E1, E2, I1, I2. split; [done|]. f_equal.
  unfold sum_of. rewrite map_map. done.
Qed.

Lemma target_range s p p1 :
  ready s p -> assigning (block_size s) (block_count s) (block_at s) (private_frees p) p1 -> layout p1 = layout p ->
  Forall (fun a => 0 <= a < 2 ^ 64) (map target (cibs p1)).
Proof.
  intros R A El. destruct (copies_fresh _ _ _ R A El) as (Hcw & _ & _). rewrite Forall_forall in Hcw.
  assert (block_count s < 2 ^ 64) as Hlim.
  { destruct (rd_session _ _ R) as [_ B1 B2 B3]. destruct (decide (0 <= block_count s)); nia. }
  apply Forall_map, Forall_lookup. intros i c Hi. unfold target. destruct (cib_cow_paddr c) as [a|] eqn:Ea.
  - change (0 <= a < 2 ^ 64). assert (a ∈ cows p1) as Ha.
    { apply (cows_nth _ _ _ _ Hi). apply elem_of_app. left. unfold shape_of. cbn. rewrite Ea. by left. }
    specialize (Hcw a Ha). lia.
  - cbn [default]. destruct (rd_metadata _ _ R (cib_original_paddr c)) as [B _]; [|lia].
    rewrite <- (layout_originals _ _ El). eapply originals_nth; [done|by left].
Qed.

Lemma materialize_spec xid s p p' s' r :
  ready s p -> materialize xid p s = (p', (s', r)) ->
  session_ok s' /\
  (((exists e, r = Err (SmDisc e)) /\
      forall q, 0 <= q < block_count s -> q ∉ private_frees p -> block_at s' q = block_at s q) \/
   (r = Err OutOfSpace /\ s' = s) \/
   (exists sm new, r = Ok sm /\ new ++ free_in s' sm ≡ₚ private_frees p /\
      free_count sm = sum_of ck_free (chunks_in s' (cib_list sm)) /\ zlen (cib_list sm) = zlen (cibs p) /\
      forall q, 0 <= q < block_count s -> q ∉ new -> block_at s' q = block_at s q)).
Proof.
  intros R. pose proof R as [R1 R2 R3 R4 R5 R6]. unfold materialize.
  destruct (assign_loop xid (S (copies p)) p) as [p1 r1] eqn:EL.
  apply (assign_loop_spec (block_size s) (block_count s) xid (block_at s) (private_frees p)) in EL;
    [|constructor; [done..|by rewrite R4]|lia].
  destruct EL as [->|(-> & A & El & Hset)]; [intros [= <- <- <-]; eauto|]. pose proof A as [A1 A2 A3].
  destruct (pv_size _ _ _ A1) as [L1 L2]. destruct (pv_array _ _ _ A1) as [O1 O2]. pose proof (pv_bytes _ _ _ A1) as Bsm.
  unfold SM_CIB_COUNT_OFFSET, SM_CIB_ADDR_OFFSET_OFFSET. rewrite !u32_at_get by lia. cbn [res_bind].
  change (le_val (get (spaceman p1) 64 4)) with (cib_count (spaceman p1)).
  change (le_val (get (spaceman p1) 80 4)) with (cib_offset (spaceman p1)).
  destruct (copies_fresh _ _ _ R A El) as (Hcw & Ncw & Hfr). pose proof (pv_count _ _ _ A1) as Hcnt.
  destruct (publish_spec (block_size s) (block_count s) xid (cib_count (spaceman p1)) (cib_offset (spaceman p1))) with
    (cs := cibs p1) (index := 0) (sm := spaceman p1) (s := s) as (pl & HF & Hpub); [lia|lia|done|lia|lia|lia|].
  destruct (publish _ _ _ 0 (cibs p1) (spaceman p1) s) as [[cs' sm'] [s2 r2]] eqn:EP. intros [= <- <- <-].
  destruct (Hpub _ _ _ _ eq_refl) as [Ew Hok]. pose proof (plans_keys _ _ _ HF) as Hkeys. fold (cows p1) in Hkeys.
  apply write_all_spec in Ew as (Hs2 & Sh & Hout & Hw); [|done|by rewrite Hkeys|].
  2:{ apply Forall_forall. intros w Hw. split.
      - assert (w.1 ∈ cows p1) as Hc by (rewrite <- Hkeys; by apply list_elem_of_fmap_2). rewrite Forall_forall in Hcw.
        specialize (Hcw _ Hc). lia.
      - apply list_elem_of_In, in_concat in Hw as (l & Hl & Hw). apply in_map_iff in Hl as ([c' l'] & <- & Hl%list_elem_of_In).
        apply list_elem_of_lookup in Hl as [i Hl]. destruct (Forall2_lookup_r _ _ _ _ _ HF Hl) as (c & Hc & Hp).
        destruct (proj1 (Forall_lookup _ _) Hfr i c Hc) as [Hc1 _].
        pose proof (plan_blocks _ _ _ _ _ _ Hc1 Hp) as Hb. rewrite Forall_forall in Hb. by apply Hb, list_elem_of_In. }
  split; [done|]. destruct Hw as [[e ->]|(-> & Hin)].
  { left. split; [by exists e|]. intros q Hq Hn. apply Hout; [done|]. rewrite Hkeys. intros Hc. apply Hn. rewrite <- A3.
    apply elem_of_app. by left. }
  right; right.
  destruct (Hok eq_refl) as [-> ->].
  destruct (set_addrs_cibs (spaceman p1) (map target (cibs p1))) as (Ecl & Efc & _); [done|lia|lia|lia| |by eapply target_range|].
  { unfold zlen. by rewrite length_map. }
  destruct (published_all xid s s2 (cibs p1) pl (block_size s) (block_count s)) as [Hfrees Hsum]; [done..| |].
  { intros c [i Hi]%list_elem_of_lookup q Hq. pose proof (originals_nth _ _ _ Hi q Hq) as Ho. rewrite (layout_originals _ _ El) in Ho.
    apply Hout; [by apply R6|]. rewrite Hkeys. intros Hc. rewrite Forall_forall in Hcw. by apply (Hcw q Hc). }
  exists (set_addrs (spaceman p1) (cib_offset (spaceman p1)) 0 (map target (cibs p1))), (cows p1). split_and!.
  - done.
  - unfold free_in. rewrite Ecl, Hfrees. exact A3.
  - rewrite Efc, Ecl, Hsum. apply (pv_total _ _ _ A1).
  - rewrite Ecl. unfold zlen. rewrite length_map. f_equal. pose proof (f_equal length El) as Ll. unfold layout in Ll. by rewrite !length_map in Ll.
  - intros q Hq Hn. apply Hout; [done|]. by rewrite Hkeys.
Qed.

(** ** Loading *)

Definition fresh_bitmap s (a : Z) : BitmapCopy :=
  {| bm_original_paddr := a; bm_cow_paddr := None; bm_block := block_at s a; bm_dirty := false |}.
Definition fresh_cib s (c : Z) : CibCopy :=
  {| cib_original_paddr := c; cib_cow_paddr := None; cib_block := block_at s c; cib_dirty := false;
     bitmaps := map (fresh_bitmap s) (bitmaps_of (chunks_of (block_at s c))) |}.
Definition fresh_private s (sp : Z) : PrivateSpaceman :=
  {| spaceman := block_at s sp; cibs := map (fresh_cib s) (cib_list (block_at s sp)) |}.

Lemma load_bitmaps_spec s0 cib : cib_ok cib -> Forall (chunk_ok (block_size s0) (block_count s0)) (chunks_of cib) ->
  forall (n : nat) s slot s' r, like s0 s -> 0 <= slot -> slot + Z.of_nat n = chunk_count cib ->
  load_bitmaps (block_size s0) cib n slot s = (s', r) ->
  like s0 s' /\ ((exists e, r = Err (SmDisc e)) \/
    r = Ok (map (fresh_bitmap s0) (bitmaps_of (slots_from cib slot (Z.of_nat n))))).
Proof.
  intros Oc Hch. induction n as [|n IH]; intros s slot s' r Hl Hge Hn.
  { cbn [load_bitmaps]. intros [= <- <-]. eauto. }
  cbn [load_bitmaps]. rewrite record_too_many by (done || lia).
  destruct (record_reads (E := SpacemanError) cib slot Oc ltac:(lia)) as (_ & _ & _ & E4). rewrite E4, bind_ok.
  unfold slots_from. rewrite Nat2Z.inj_succ, (seqZ_cons slot), Z.pred_succ by lia. cbn [map]. rewrite bitmaps_cons.
  destruct (Z.eqb_spec (ck_bitmap (chunk_at cib slot)) 0) as [Hz|Hz].
  { rewrite decide_False by naive_solver. cbn [app]. apply IH; [done|lia|lia]. }
  rewrite decide_True by done. rewrite Forall_forall in Hch.
  destruct (ch_bitmap _ _ _ (Hch _ (slot_elem cib slot ltac:(lia))) Hz) as [Rb _]. unfold iobind at 1.
  destruct (sm_read (ck_bitmap (chunk_at cib slot)) (block_size s0) s) as [s1 r1] eqn:R1.
  apply (sm_read_spec s0) in R1 as [Hl1 [[e ->]| ->]]; [by intros [= <- <-]; eauto| |done|lia].
  unfold iobind. destruct (load_bitmaps (block_size s0) cib n (slot + 1) s1) as [s2 r2] eqn:R2.
  apply IH in R2 as [Hl2 [[e ->]| ->]]; [by intros [= <- <-]; eauto| |done|lia|lia].
  intros [= <- <-]. eauto.
Qed.

Lemma load_cibs_spec s0 sp : spaceman_ok s0 sp -> forall l s s' r,
  like s0 s -> (forall c, c ∈ l -> c ∈ cib_list (block_at s0 sp)) -> load_cibs (block_size s0) l s = (s', r) ->
  like s0 s' /\ ((exists e, r = Err (SmDisc e)) \/ r = Ok (map (fresh_cib s0) l)).
Proof.
  intros Hk. induction l as [|c l IH]; intros s s' r Hl Hin.
  { cbn [load_cibs]. intros [= <- <-]. eauto. }
  cbn [load_cibs]. pose proof (Hin c ltac:(by left)) as Hc. destruct (elem_cib _ _ _ Hk Hc) as [Rc Oc].
  pose proof (sp_session _ _ Hk) as Hs0. pose proof (sp_size _ _ Hk). pose proof (zlen_block_at s0 c Hs0).
  unfold iobind at 1. destruct (sm_read c (block_size s0) s) as [s1 r1] eqn:R1.
  apply (sm_read_spec s0) in R1 as [Hl1 [[e ->]| ->]]; [by intros [= <- <-]; eauto| |done|lia].
  destruct (count_read (E := SpacemanError) (block_at s0 c) (cb_bytes _ Oc) ltac:(lia)) as [-> Hn]. rewrite bind_ok.
  assert (Forall (chunk_ok (block_size s0) (block_count s0)) (chunks_of (block_at s0 c))) as Hch.
  { apply Forall_forall. intros ck Hck. apply (proj1 (Forall_forall _ _) (sp_chunks _ _ Hk)).
    apply list_elem_of_In, in_concat. exists (chunks_of (block_at s0 c)). split; [|by apply list_elem_of_In].
    apply in_map_iff. exists c. split; [done|by apply list_elem_of_In]. }
  unfold iobind at 1. destruct (load_bitmaps _ _ _ _ s1) as [s2 r2] eqn:R2.
  apply (load_bitmaps_spec s0 _ Oc Hch) in R2 as [Hl2 [[e ->]| ->]]; [by intros [= <- <-]; eauto| |done|lia|lia].
  unfold iobind. destruct (load_cibs (block_size s0) l s2) as [s3 r3] eqn:R3.
  apply IH in R3 as [Hl3 [[e ->]| ->]]; [by intros [= <- <-]; eauto| |done|intros; apply Hin; by right].
  intros [= <- <-]. split; [done|]. right. rewrite Z2Nat.id by lia. done.
Qed.

Lemma load_eq s sp s' r :
  spaceman_ok s sp -> load sp s = (s', r) ->
  like s s' /\ ((exists e, r = Err (SmDisc e)) \/ r = Ok (fresh_private s sp)).
Proof.
  intros Hk. unfold load, iobind at 1. destruct (sm_read sp (block_size s) s) as [s1 r1] eqn:R1.
  apply (sm_read_spec s) in R1 as [Hl1 [[e ->]| ->]];
    [intros [= <- <-]; eauto| |apply like_refl, (sp_session _ _ Hk)|apply (sp_range _ _ Hk)].
  rewrite cib_addrs_ok, bind_ok by done. unfold iobind. destruct (load_cibs _ _ s1) as [s2 r2] eqn:R2.
  apply (load_cibs_spec s sp Hk) in R2 as [Hl2 [[e ->]| ->]]; [by intros [= <- <-]; eauto| |done|done].
  intros [= <- <-]. eauto.
Qed.

(** Every block the space manager itself occupies is in use, as is block 0. *)
Record metadata_used s (sp : Z) : Prop := {
  mu_range : Forall (fun a => 0 < a < block_count s) (free_list s sp);
  mu_blocks a : a ∈ cib_list (block_at s sp) ++ bitmaps_of (chunks s sp) -> a ∉ free_list s sp;
}.

Lemma fresh_bitmap_of s c a : a ∈ bitmaps_of (chunks_of (block_at s c)) -> bitmap_of (fresh_cib s c) a = block_at s a.
Proof.
  unfold bitmap_of, fresh_cib. cbn [bitmaps]. induction (bitmaps_of _) as [|x l IH]; [by intros ?%not_elem_of_nil|].
  cbn [map find_bitmap]. unfold with_original at 1. cbn [bm_original_paddr fresh_bitmap].
  destruct (Z.eqb_spec x a) as [->|Hne]; [done|]. intros [->|Ha]%elem_of_cons; [done|]. specialize (IH Ha).
  destruct (find_bitmap _ _) as [[i b]|]; done.
Qed.

Section Fresh.
Context s (sp : Z) (Hk : spaceman_ok s sp).

Lemma cib_chunks c ck : c ∈ cib_list (block_at s sp) -> ck ∈ chunks_of (block_at s c) -> ck ∈ chunks s sp.
Proof.
  intros Hc Hck. apply list_elem_of_In, in_concat. exists (chunks_of (block_at s c)). split; [|by apply list_elem_of_In].
  apply in_map_iff. exists c. split; [done|by apply list_elem_of_In].
Qed.

Lemma cib_bitmaps c a : c ∈ cib_list (block_at s sp) -> a ∈ bitmaps_of (chunks_of (block_at s c)) -> a ∈ bitmaps_of (chunks s sp).
Proof.
  intros Hc Ha. apply list_elem_of_filter in Ha as [Hz Ha]. apply list_elem_of_fmap in Ha as (ck & -> & Hck).
  apply bitmaps_elem; [by eapply cib_chunks|done].
Qed.

Lemma bitmap_range a : a ∈ bitmaps_of (chunks s sp) -> 0 < a < block_count s.
Proof.
  intros Ha. apply list_elem_of_filter in Ha as [Hz Ha]. apply list_elem_of_fmap in Ha as (ck & -> & Hck).
  by apply (ch_bitmap _ _ _ (proj1 (Forall_forall _ _) (sp_chunks _ _ Hk) ck Hck)).
Qed.

Lemma fresh_frees c : frees (bitmap_of (fresh_cib s c)) (chunks_of (block_at s c)) = frees (block_at s) (chunks_of (block_at s c)).
Proof. apply frees_ext. intros a Ha. by apply fresh_bitmap_of. Qed.

Lemma bitmaps_nodup l c : NoDup (bitmaps_of (chunks_in s l)) -> c ∈ l -> NoDup (bitmaps_of (chunks_of (block_at s c))).
Proof.
  intros N Hc. apply list_elem_of_split in Hc as (l1 & l2 & ->). unfold chunks_in in N. rewrite map_app, concat_app, bitmaps_app in N.
  cbn [map concat] in N. rewrite bitmaps_app in N. by apply NoDup_app in N as (_ & _ & [N _]%NoDup_app).
Qed.

Lemma fresh_copy_ok c : c ∈ cib_list (block_at s sp) -> copy_ok (block_size s) (block_count s) (fresh_cib s c).
Proof.
  intros Hc. destruct (elem_cib _ _ _ Hk Hc) as [Rc Oc]. pose proof (sp_session _ _ Hk) as Hs.
  constructor; unfold copy_chunks; cbn [cib_block bitmaps fresh_cib].
  - by apply zlen_block_at.
  - done.
  - apply Forall_forall. intros ck Hck. apply (proj1 (Forall_forall _ _) (sp_chunks _ _ Hk)). by eapply cib_chunks.
  - rewrite map_map. apply map_id.
  - pose proof (sp_distinct _ _ Hk) as [_ (_ & _ & N)%NoDup_app]%NoDup_cons. by eapply bitmaps_nodup.
  - apply Forall_map, Forall_forall. intros a Ha. cbn [bm_block fresh_bitmap]. split; [by apply zlen_block_at|by apply is_bytes_block_at].
  - apply Forall_forall. intros ck Hck Hz.
    rewrite (proj1 (Forall_forall _ _) (sp_counted _ _ Hk) ck (cib_chunks c ck Hc Hck) Hz). unfold chunk_frees.
    by rewrite fresh_bitmap_of by (by apply bitmaps_elem).
Qed.

Lemma fresh_chunks : private_chunks (fresh_private s sp) = chunks s sp.
Proof. unfold private_chunks, chunks. cbn [cibs fresh_private]. rewrite map_map. done. Qed.

Lemma fresh_private_frees : private_frees (fresh_private s sp) = free_list s sp.
Proof.
  unfold private_frees, free_list, chunks. cbn [cibs fresh_private]. rewrite map_map.
  induction (cib_list (block_at s sp)) as [|c l IH]; [done|]. cbn [map concat]. rewrite frees_app, <- IH. f_equal.
  apply fresh_frees.
Qed.

Lemma fresh_private_ok : private_ok (block_size s) (block_count s) (fresh_private s sp).
Proof.
  pose proof (sp_session _ _ Hk) as Hs.
  constructor; rewrite ?fresh_chunks; cbn [spaceman cibs fresh_private].
  - split; [by apply zlen_block_at|apply (sp_size _ _ Hk)].
  - by apply is_bytes_block_at.
  - apply Forall_map, Forall_forall. intros c Hc. by apply fresh_copy_ok.
  - apply (sp_disjoint _ _ Hk).
  - apply (sp_total _ _ Hk).
  - split; [apply (sp_array _ _ Hk)|apply (sp_array_fits _ _ Hk)].
  - unfold zlen. rewrite length_map. unfold cib_list. rewrite length_map, length_seqZ.
    pose proof (field_nonneg (block_at s sp) SM_CIB_COUNT_OFFSET 4 (is_bytes_block_at s sp Hs)) as P.
    fold (cib_count (block_at s sp)) in P. lia.
Qed.

Lemma fresh_originals a : a ∈ originals (fresh_private s sp) -> a ∈ cib_list (block_at s sp) ++ bitmaps_of (chunks s sp).
Proof.
  unfold originals, layout. cbn [cibs fresh_private]. rewrite !map_map. cbn [fst snd cib_original_paddr bitmaps fresh_cib].
  intros Ha%list_elem_of_In. apply in_concat in Ha as (l & Hl & Ha). apply in_map_iff in Hl as (c & <- & Hc%list_elem_of_In).
  apply elem_of_app. rewrite map_map, map_id in Ha. destruct Ha as [->|Ha%list_elem_of_In]; [by left|right]. by eapply cib_bitmaps.
Qed.

Lemma fresh_ready s1 : like s s1 -> metadata_used s sp -> ready s1 (fresh_private s sp).
Proof.
  intros (Hs1 & (E1 & E2 & E3) & Hb) [M1 M2]. constructor.
  - done.
  - rewrite E2, E3. apply fresh_private_ok.
  - cbn [cibs fresh_private]. apply Forall_map, Forall_forall. intros c Hc. destruct (elem_cib _ _ _ Hk Hc) as [Rc _].
    constructor; cbn [cib_dirty cib_block cib_cow_paddr cib_original_paddr bitmaps fresh_cib].
    + intros _. split; [by rewrite Hb|]. apply Forall_map, Forall_forall. done.
    + apply Forall_map, Forall_forall. intros a Ha. cbn [bm_dirty bm_block bm_cow_paddr bm_original_paddr fresh_bitmap].
      split; [|by intros [? ?]]. intros _. rewrite Hb; [done|]. pose proof (bitmap_range a (cib_bitmaps c a Hc Ha)). lia.
    + by intros [? ?].
  - unfold cows, cows_of. cbn [cibs fresh_private]. rewrite map_map. apply concat_nil_Forall, Forall_map, Forall_forall.
    intros c _. unfold shape_cows, shape_of. cbn. apply concat_nil_Forall. rewrite !map_map. apply Forall_map, Forall_forall. done.
  - rewrite fresh_private_frees, E3. exact M1.
  - intros a Ha%fresh_originals. rewrite fresh_private_frees, E3. split; [|by apply M2].
    apply elem_of_app in Ha as [Ha|Ha]; [by apply (elem_cib _ _ _ Hk Ha)|]. pose proof (bitmap_range a Ha). lia.
Qed.
End Fresh.

(** A run of successful allocations. *)
Inductive allocates (xid : Z) : PrivateSpaceman -> list Z -> PrivateSpaceman -> Prop :=
| allocates_nil p : allocates xid p [] p
| allocates_cons p a p1 l p2 :
    private_allocate xid p = (p1, Ok a) -> allocates xid p1 l p2 -> allocates xid p (a :: l) p2.

Lemma allocates_ready xid s p l p' : ready s p -> allocates xid p l p' -> ready s p' /\ private_frees p = l ++ private_frees p'.
Proof.
  intros R A. induction A as [p|p a p1 l p2 E A IH]; [done|].
  destruct R as [R1 R2 R3 R4 R5 R6]. apply (private_allocate_spec _ _ _ _ _ _ R2) in E as [([=] & _)|(x & [= <-] & Hok & Hst)].
  pose proof (sd_frees _ _ _ _ _ Hst) as Ef. change (private_frees p = a :: private_frees p1) in Ef.
  destruct (shapes_layout p p1 (sd_shapes _ _ _ _ _ Hst)) as [El Ec].
  destruct IH as [IH1 IH2]; [|split; [done|]; rewrite Ef, IH2; done]. constructor; [done|done|by apply (sd_tracked _ _ _ _ _ Hst)|congruence|..].
  - rewrite Ef in R5. by apply Forall_cons in R5 as [_ R5].
  - intros q. rewrite (layout_originals _ _ El). intros Hq. destruct (R6 q Hq) as [B N]. split; [done|]. rewrite Ef in N.
    intros Hc. apply N. by right.
Qed.
End OnLawfulDisc.

(** ** Properties *)

(** A private copy hands out the disc's free list in order and to its end: after
    loading and any run of allocations, the addresses returned so far are a
    prefix of the free list on disc, and the next allocation returns the next
    address or, exactly when none is left, OutOfSpace.  It never panics. *)
Theorem private_allocations {D} `{LawfulImage D} (s s1 : RepairSession D) sp xid p0 l p p' r :
  spaceman_ok s sp -> load sp s = (s1, Ok p0) -> allocates xid p0 l p -> private_allocate xid p = (p', r) ->
  same_blocks s s1 /\ NoDup (free_list s sp) /\
  ((r = Err OutOfSpace /\ p' = p /\ free_list s sp = l) \/
   (exists a rest, r = Ok a /\ free_list s sp = l ++ a :: rest /\ allocates xid p0 (l ++ [a]) p')).
Proof.
  intros Hk HL HA HP. apply load_eq in HL as [(_ & _ & Hl) [[e [=]]|[= ->]]]; [|done]. split; [done|].
  split; [by apply free_list_nodup|].
  assert (private_ok (block_size s) (block_count s) p /\ private_frees (fresh_private s sp) = l ++ private_frees p) as [Hp Hf].
  { pose proof (fresh_private_ok s sp Hk) as H0'. revert H0'. clear HP. induction HA as [q|q a q1 m q2 E A IH]; [done|]. intros Hq.
    apply (private_allocate_spec _ _ _ _ _ _ Hq) in E as [([=] & _)|(x & [= <-] & Hok & Hst)].
    destruct (IH Hok) as [I1 I2]. split; [done|]. change (private_frees q) with (all_frees (cibs q)).
    rewrite (sd_frees _ _ _ _ _ Hst). change (all_frees (cibs q1)) with (private_frees q1). by rewrite I2. }
  rewrite (fresh_private_frees s sp) in Hf.
  pose proof (private_allocate_spec _ _ _ _ _ _ Hp HP) as [(-> & -> & He)|(a & -> & _ & Hst)].
  - left. by rewrite Hf, He, app_nil_r.
  - right. exists a, (private_frees p'). split_and!; [done| |].
    + rewrite Hf. f_equal. exact (sd_frees _ _ _ _ _ Hst).
    + clear - HA HP. induction HA as [q|q b q1 m q2 E A IH]; cbn [app]; [by eapply allocates_cons; [|constructor]|].
      eapply allocates_cons; [done|]. by apply IH.
Qed.

(** C16. Materializing is copy-on-write.  After loading a well-formed space manager
    whose own blocks are in use, and any run of allocations [l], either the
    backend failed, and even then every block in use and every block handed out
    before is unchanged; or there was no room for the changed blocks and the disc is
    unchanged; or it returns a space manager block and there is a set of new
    blocks such that: every block outside the new ones, so every block in use
    and every block handed out before, is unchanged; and the space manager
    block, read on the new disc, describes exactly the free list that is left
    when the blocks handed out and the new ones are taken from the old free
    list, with a free count that agrees with its chunks.  It never panics and
    its loop ends. *)
Theorem materialize_copy_on_write {D} `{LawfulImage D} (s s1 s' : RepairSession D) sp xid p0 l p p' r :
  spaceman_ok s sp -> metadata_used s sp -> load sp s = (s1, Ok p0) -> allocates xid p0 l p ->
  materialize xid p s1 = (p', (s', r)) ->
  ((exists e, r = Err (SmDisc e)) /\
     forall q, 0 <= q < block_count s -> q ∉ free_list s sp \/ q ∈ l -> block_at s' q = block_at s q) \/
  (r = Err OutOfSpace /\ same_blocks s s') \/
  (exists sm new, r = Ok sm /\ l ++ new ++ free_in s' sm ≡ₚ free_list s sp /\
     free_count sm = sum_of ck_free (chunks_in s' (cib_list sm)) /\
     zlen (cib_list sm) = zlen (cib_list (block_at s sp)) /\
     forall q, 0 <= q < block_count s -> q ∉ new -> block_at s' q = block_at s q).
Proof.
  intros Hk Hm HL HA HM. apply load_eq in HL as [Hl [[e [=]]|[= ->]]]; [|done].
  pose proof (fresh_ready s sp Hk s1 Hl Hm) as R0. destruct Hl as (_ & (E1 & E2 & E3) & Hb).
  assert (map shape_of (cibs p) = map shape_of (cibs (fresh_private s sp))) as Es.
  { clear HM. pose proof (rd_ok _ _ R0) as Hok. clear R0. revert Hok. induction HA as [q|q a q1 m q2 E A IH]; [done|]. intros Hq.
    apply (private_allocate_spec _ _ _ _ _ _ Hq) in E as [([=] & _)|(x & [= <-] & Hok & Hst)].
    rewrite (IH Hok). apply (sd_shapes _ _ _ _ _ Hst). }
  destruct (allocates_ready _ _ _ _ _ R0 HA) as [R Ef]. rewrite (fresh_private_frees s sp) in Ef.
  apply (materialize_spec xid s1 p p' s' r R) in HM as [_ [[He Hq]|[(-> & ->)|(sm & new & -> & Hp & Hc & Hn & Hq)]]]; [|by right; left|].
  { left. split; [done|]. intros q Hr Ho. rewrite Hq; [by apply Hb|lia|]. pose proof (free_list_nodup _ _ Hk) as N. rewrite Ef in *.
    apply NoDup_app in N as (_ & N & _). rewrite elem_of_app in Ho. intros Hin. destruct Ho as [Ho|Ho]; [by apply Ho; right|by apply (N q)]. }
  right; right. exists sm, new. split_and!; [done|by rewrite Hp, Ef|done| |].
  - rewrite Hn. pose proof (f_equal length Es) as L. rewrite !length_map in L. unfold zlen. rewrite L. cbn [cibs fresh_private].
    by rewrite length_map.
  - intros q Hr Hnew. rewrite Hq by (done || lia). by apply Hb.
Qed.

Lemma sample_metadata_used : metadata_used sample_space 1.
Proof.
  assert (free_list sample_space 1 = [4; 5; 7; 8; 9; 10; 11; 12; 13; 14]) as Ef by (vm_compute; reflexivity).
  assert (cib_list (block_at sample_space 1) ++ bitmaps_of (chunks sample_space 1) = [2; 3]) as Em by (vm_compute; reflexivity).
  constructor; rewrite Ef.
  - apply (bool_decide_unpack _). vm_compute. exact I.
  - intros a. rewrite Em. intros Ha. assert (Forall (fun a => a ∉ [4; 5; 7; 8; 9; 10; 11; 12; 13; 14]) [2; 3]) as F
      by (apply (bool_decide_unpack _); vm_compute; exact I). rewrite Forall_forall in F. by apply F.
Qed.

Definition sample_loaded : RepairSession MemoryImage * PrivateSpaceman :=
  match load 1 sample_space with
  | (s, Ok p) => (s, p)
  | (s, _) => (s, fresh_private s 1)
  end.
Definition sample_allocated : PrivateSpaceman := fst (private_allocate 7 sample_loaded.2).

Lemma sample_load : load 1 sample_space = (sample_loaded.1, Ok sample_loaded.2).
Proof. vm_compute. reflexivity. Qed.
Lemma sample_allocate : private_allocate 7 sample_loaded.2 = (sample_allocated, Ok 4).
Proof. vm_compute. reflexivity. Qed.

Lemma private_allocations_witness :
  exists a rest p', private_allocate 7 sample_allocated = (p', Ok a) /\ free_list sample_space 1 = [4] ++ a :: rest.
Proof.
  destruct (private_allocate 7 sample_allocated) as [p' r] eqn:R.
  assert (r = Ok 5) as Hr by (apply (f_equal snd) in R; vm_compute in R; by rewrite <- R).
  destruct (private_allocations sample_space sample_loaded.1 1 7 sample_loaded.2 [4] sample_allocated p' r)
    as (_ & _ & [(E & _)|(a & rest & E & Hf & _)]);
    [exact sample_space_ok|exact sample_load|eapply allocates_cons; [exact sample_allocate|constructor]|exact R|congruence|].
  exists a, rest, p'. rewrite E. by split.
Defined.

Lemma materialize_copy_on_write_witness :
  exists p' s' sm new, materialize 7 sample_allocated sample_loaded.1 = (p', (s', Ok sm)) /\
    [4] ++ new ++ free_in s' sm ≡ₚ free_list sample_space 1.
Proof.
  destruct (materialize 7 sample_allocated sample_loaded.1) as [p' [s' r]] eqn:R.
  assert (match r with Ok _ => true | _ => false end = true) as Hr
    by (apply (f_equal (fun x => x.2.2)) in R; cbn [fst snd] in R; rewrite <- R; vm_compute; reflexivity).
  destruct (materialize_copy_on_write sample_space sample_loaded.1 s' 1 7 sample_loaded.2 [4] sample_allocated p' r)
    as [[[e E] _]|[(E & _)|(sm & new & E & Hp & _)]];
    [exact sample_space_ok|exact sample_metadata_used|exact sample_load
    |eapply allocates_cons; [exact sample_allocate|constructor]|exact R|by rewrite E in Hr|by rewrite E in Hr|].
  exists p', s', sm, new. rewrite E. by split.
Defined.
