(* ===== verification/Checkpoint.v ===== *)
(** * Checkpoints (src/src/repair_writer/checkpoint.rs)

    A container keeps its published states in two rings: descriptor blocks
    (checkpoint maps and a superblock) and data blocks (ephemeral objects).
    Appending a checkpoint writes the next state behind the published one.
    The theorems show that the published state survives whatever happens, and
    that what was appended reads back. *)

From S2P Require Import Prelude ApfsObject Spaceman.
From stdpp Require Import base tactics numbers list strings.
From Stdlib Require Import ZArith Lia.

Open Scope Z_scope.

Definition NX_BLOCK_SIZE_OFFSET : Z := 0x24.
Definition NX_NEXT_XID_OFFSET : Z := 0x60.
Definition NX_OMAP_OID_OFFSET : Z := 0xA0.
Definition NX_XP_DESC_BLOCKS_OFFSET : Z := 0x68.
Definition NX_XP_DATA_BLOCKS_OFFSET : Z := 0x6C.
Definition NX_XP_DESC_BASE_OFFSET : Z := 0x70.
Definition NX_XP_DATA_BASE_OFFSET : Z := 0x78.
Definition NX_XP_DESC_NEXT_OFFSET : Z := 0x80.
Definition NX_XP_DATA_NEXT_OFFSET : Z := 0x84.
Definition NX_XP_DESC_INDEX_OFFSET : Z := 0x88.
Definition NX_XP_DESC_LEN_OFFSET : Z := 0x8C.
Definition NX_XP_DATA_INDEX_OFFSET : Z := 0x90.
Definition NX_XP_DATA_LEN_OFFSET : Z := 0x94.
Definition NX_NEXT_OID_OFFSET : Z := 0x58.
Definition NX_MAGIC_OFFSET : Z := 0x20.
Definition NX_MAGIC : Z := 0x4253584E.

Definition CPM_FLAGS_OFFSET : Z := 0x20.
Definition CPM_COUNT_OFFSET : Z := 0x24.
Definition CPM_ENTRIES_OFFSET : Z := 0x28.
Definition CPM_ENTRY_BYTES : Z := 40.
Definition CPM_FLAGS_VALUE : Z := 1.

Definition OBJ_PHYSICAL : Z := 0x40000000.
Definition TYPE_CHECKPOINT_MAP : Z := 0x0C.
Definition OBJ_TYPE_MASK : Z := 0x0000FFFF.
Definition TYPE_NX_SUPERBLOCK : Z := 0x01.

Record EphemeralObject := { oid : Z; o_type : Z; subtype : Z; paddr : Z }.
#[export] Instance eta_ephemeral : Eta EphemeralObject := fun e => Build_EphemeralObject (oid e) (o_type e) (subtype e) (paddr e).

Record AppendedCheckpoint := { superblock_paddr : Z; ephemeral_objects : list EphemeralObject }.

Inductive CheckpointError :=
| CpDisc (error : DiscError)
| CpWrite (error : ObjectWriteError)
| CpMalformed (reason : string)
| NotInPublishedCheckpoint (oid : Z)
| MultiBlockEphemeralObject (oid size : Z)
| RingFull.

Record Geometry := {
  g_block_size : Z;
  descriptor_base : Z; descriptor_blocks : Z;
  data_base : Z; data_blocks : Z;
  descriptor_index : Z; descriptor_len : Z;
  data_index : Z; data_len : Z;
}.

Definition read_geometry (superblock : bytes) : res CheckpointError Geometry :=
  let? bs := u32_at superblock NX_BLOCK_SIZE_OFFSET in
  let? db := u64_at superblock NX_XP_DESC_BASE_OFFSET in
  let? dn := u32_at superblock NX_XP_DESC_BLOCKS_OFFSET in
  let? tb := u64_at superblock NX_XP_DATA_BASE_OFFSET in
  let? tn := u32_at superblock NX_XP_DATA_BLOCKS_OFFSET in
  let? di := u32_at superblock NX_XP_DESC_INDEX_OFFSET in
  let? dl := u32_at superblock NX_XP_DESC_LEN_OFFSET in
  let? ti := u32_at superblock NX_XP_DATA_INDEX_OFFSET in
  let? tl := u32_at superblock NX_XP_DATA_LEN_OFFSET in
  let geometry := {| g_block_size := bs; descriptor_base := db; descriptor_blocks := dn; data_base := tb; data_blocks := tn;
                     descriptor_index := di; descriptor_len := dl; data_index := ti; data_len := tl |} in
  if descriptor_blocks geometry =? 0 then Err (CpMalformed "checkpoint descriptor ring has zero blocks") else
  if data_blocks geometry =? 0 then Err (CpMalformed "checkpoint data ring has zero blocks") else
  if (descriptor_len geometry =? 0) || (descriptor_blocks geometry <? descriptor_len geometry)
  then Err (CpMalformed "the published checkpoint's descriptor window does not fit the ring") else
  if data_blocks geometry <? data_len geometry
  then Err (CpMalformed "the published checkpoint's data window does not fit the ring") else
  Ok geometry.

(** [base + (index + offset) % blocks]. *)
Definition slot_at {E} (base blocks index offset : Z) : res E Z := add_or_panic 64 base ((index + offset) mod blocks).

Definition put_u32 {E} (body : bytes) (pos value : Z) : res E bytes := copy_at body pos (le_bytes 4 value).
Definition put_u64 {E} (body : bytes) (pos value : Z) : res E bytes := copy_at body pos (le_bytes 8 value).

Definition is_map (block : bytes) : res CheckpointError bool :=
  let? t := u32_at block TYPE_OFFSET in Ok (Z.land t OBJ_TYPE_MASK =? TYPE_CHECKPOINT_MAP).

(** The entry count of a checkpoint map, checked against its capacity. *)
Definition map_count (size : Z) (block : bytes) : res CheckpointError Z :=
  let? count := u32_at block CPM_COUNT_OFFSET in
  let? room := or_panic (checked_sub size CPM_ENTRIES_OFFSET) in
  if room / CPM_ENTRY_BYTES <? count
  then Err (CpMalformed "a published checkpoint mapping claims more entries than it can hold") else Ok count.

Definition entry_pos (index : Z) : Z := CPM_ENTRIES_OFFSET + index * CPM_ENTRY_BYTES.

Fixpoint map_sizes (block : bytes) (n : nat) (index : Z) : res CheckpointError (list (Z * Z)) :=
  match n with
  | O => Ok []
  | S n =>
      let? o := u64_at block (entry_pos index + 24) in
      let? size := u32_at block (entry_pos index + 8) in
      let? rest := map_sizes block n (index + 1) in
      Ok ((o, size) :: rest)
  end.

(** [.iter().find(|(oid, _)| *oid == wanted)]. *)
Definition find_oid {A} (wanted : Z) (l : list (Z * A)) : option A :=
  snd <$> List.find (fun x => x.1 =? wanted) l.

Section OnDisc.
Context {D : Type} `{ImageIo D}.

Definition cp_read (pos size : Z) : io D CheckpointError bytes := io_map_err CpDisc (read_block pos size).

Fixpoint published_slots (size : Z) (g : Geometry) (n : nat) (slot : Z) : io D CheckpointError (list (Z * Z)) :=
  match n with
  | O => lift (Ok [])
  | S n =>
      do pos <- lift (slot_at (descriptor_base g) (descriptor_blocks g) (descriptor_index g) slot);
      do block <- cp_read pos size;
      do mapped <- lift (is_map block);
      do sizes <- lift (if mapped : bool then let? count := map_count size block in map_sizes block (Z.to_nat count) 0 else Ok []);
      do rest <- published_slots size g n (slot + 1);
      lift (Ok (sizes ++ rest))
  end.

Definition published_mapping_sizes (g : Geometry) : io D CheckpointError (list (Z * Z)) := fun s =>
  published_slots (block_size s) g (Z.to_nat (descriptor_len g)) 0 s.

(** One entry of a checkpoint map and the object it names. *)
Definition collect_entry (size : Z) (map : bytes) (index : Z) : io D CheckpointError EphemeralObject :=
  let pos := entry_pos index in
  do t <- lift (u32_at map pos);
  do st <- lift (u32_at map (pos + 4));
  do o <- lift (u64_at map (pos + 24));
  do mapped <- lift (u64_at map (pos + 32));
  do object <- cp_read mapped size;
  do ho <- lift (u64_at object OID_OFFSET);
  do ht <- lift (u32_at object TYPE_OFFSET);
  do hs <- lift (u32_at object SUBTYPE_OFFSET);
  if negb (ho =? o) || negb (ht =? t) || negb (hs =? st)
  then lift (Err (CpMalformed "an ephemeral object's own header disagrees with its checkpoint mapping")) else
  lift (Ok {| oid := o; o_type := t; subtype := st; paddr := mapped |}).

Fixpoint collect_entries (size : Z) (map : bytes) (n : nat) (index : Z) : io D CheckpointError (list EphemeralObject) :=
  match n with
  | O => lift (Ok [])
  | S n =>
      do e <- collect_entry size map index;
      do rest <- collect_entries size map n (index + 1);
      lift (Ok (e :: rest))
  end.

Fixpoint collect_slots (size : Z) (g : Geometry) (n : nat) (slot : Z) : io D CheckpointError (list EphemeralObject) :=
  match n with
  | O => lift (Ok [])
  | S n =>
      do pos <- lift (slot_at (descriptor_base g) (descriptor_blocks g) (descriptor_index g) slot);
      do map <- cp_read pos size;
      do mapped <- lift (is_map map);
      do objects <- (if mapped : bool then
                       do count <- lift (map_count size map);
                       collect_entries size map (Z.to_nat count) 0
                     else lift (Ok []));
      do rest <- collect_slots size g n (slot + 1);
      lift (Ok (objects ++ rest))
  end.

Definition collect_ephemeral_objects (superblock_paddr : Z) : io D CheckpointError (list EphemeralObject) := fun s =>
  let size := block_size s in
  (do sb <- cp_read superblock_paddr size;
   do magic <- lift (u32_at sb NX_MAGIC_OFFSET);
   if negb (magic =? NX_MAGIC) then lift (Err (CpMalformed "no NXSB magic at the given superblock address")) else
   do g <- lift (read_geometry sb);
   collect_slots size g (Z.to_nat (descriptor_len g)) 0) s.

(** ** Appending *)

Record CheckpointPublish := {
  omap_oid : option Z;
  next_oid : option Z;
  ephemeral_bodies : list (Z * bytes);
}.

Fixpoint check_addresses (g : Geometry) (entries : list EphemeralObject) : res CheckpointError unit :=
  match entries with
  | [] => Ok tt
  | entry :: entries =>
      let? outside := (if paddr entry <? data_base g then Ok true else
                       let? fin := add_or_panic 64 (data_base g) (data_blocks g) in Ok (fin <=? paddr entry)) in
      if outside : bool then Err (CpMalformed "an ephemeral object's address falls outside the checkpoint data area")
      else check_addresses g entries
  end.

Fixpoint bump_next_oid (published : list (Z * Z)) (next : Z) (entries : list EphemeralObject) : res CheckpointError Z :=
  match entries with
  | [] => Ok next
  | entry :: entries =>
      if existsb (fun x => x.1 =? oid entry) published then bump_next_oid published next entries else
      let? bound := ok_or (checked_add 64 (oid entry) 1)
                      (CpMalformed "new ephemeral object ID overflows the container object ID space") in
      bump_next_oid published (Z.max next bound) entries
  end.

(** The mapping size of one object: published, or that of its new body. *)
Definition size_of (size : Z) (published : list (Z * Z)) (bodies : list (Z * bytes)) (entry : EphemeralObject)
  : res CheckpointError Z :=
  let found := match find_oid (oid entry) published with
               | Some n => Some n
               | None => match find_oid (oid entry) bodies with
                         | Some body => if zlen body <? 2 ^ 32 then Some (zlen body) else None
                         | None => None
                         end
               end in
  let? n := ok_or found (NotInPublishedCheckpoint (oid entry)) in
  if negb (n =? size) then Err (MultiBlockEphemeralObject (oid entry) n) else Ok n.

Fixpoint object_sizes (size : Z) (published : list (Z * Z)) (bodies : list (Z * bytes)) (entries : list EphemeralObject)
  : res CheckpointError (list Z) :=
  match entries with
  | [] => Ok []
  | entry :: entries =>
      let? n := size_of size published bodies entry in
      let? rest := object_sizes size published bodies entries in
      Ok (n :: rest)
  end.

(** Restamps an object for the new transaction, after checking who it is. *)
Definition restamp (new_xid : Z) (entry : EphemeralObject) (block : bytes) : res CheckpointError bytes :=
  let? ho := u64_at block OID_OFFSET in
  let? ht := u32_at block TYPE_OFFSET in
  let? hs := u32_at block SUBTYPE_OFFSET in
  if negb (ho =? oid entry) || negb (ht =? o_type entry) || negb (hs =? subtype entry)
  then Err (CpMalformed "an ephemeral object's own header disagrees with the identity given for it") else
  let? block := copy_at block XID_OFFSET (le_bytes 8 new_xid) in
  fletcher64_seal block.

Fixpoint object_bodies (size new_xid : Z) (bodies : list (Z * bytes)) (entries : list EphemeralObject)
  : io D CheckpointError (list bytes) :=
  match entries with
  | [] => lift (Ok [])
  | entry :: entries =>
      do block <- match find_oid (oid entry) bodies with
                  | Some body =>
                      if negb (zlen body =? size)
                      then lift (Err (CpMalformed "a replacement ephemeral body does not match the container block size"))
                      else lift (Ok body)
                  | None => cp_read (paddr entry) size
                  end;
      do block <- lift (restamp new_xid entry block);
      do rest <- object_bodies size new_xid bodies entries;
      lift (Ok (block :: rest))
  end.

Fixpoint put_entries {E} (objects : list (EphemeralObject * Z)) (index : Z) (body : bytes) : res E bytes :=
  match objects with
  | [] => Ok body
  | (entry, size) :: objects =>
      let pos := (CPM_ENTRIES_OFFSET - OBJ_PHYS_BYTES) + index * CPM_ENTRY_BYTES in
      let? body := put_u32 body pos (o_type entry) in
      let? body := put_u32 body (pos + 4) (subtype entry) in
      let? body := put_u32 body (pos + 8) size in
      let? body := put_u32 body (pos + 12) 0 in
      let? body := put_u64 body (pos + 16) 0 in
      let? body := put_u64 body (pos + 24) (oid entry) in
      let? body := put_u64 body (pos + 32) (paddr entry) in
      put_entries objects (index + 1) body
  end.

Definition map_body {E} (objects : list (EphemeralObject * Z)) (size : Z) : res E bytes :=
  let? len := or_panic (checked_sub size OBJ_PHYS_BYTES) in
  let body := zeros len in
  let? body := put_u32 body (CPM_FLAGS_OFFSET - OBJ_PHYS_BYTES) CPM_FLAGS_VALUE in
  let? body := put_u32 body (CPM_COUNT_OFFSET - OBJ_PHYS_BYTES) (wrap 32 (zlen objects)) in
  put_entries objects 0 body.

Definition write_checkpoint_map (pos xid : Z) (objects : list (EphemeralObject * Z)) (size : Z) : io D CheckpointError unit :=
  do body <- lift (map_body objects size);
  io_map_err CpWrite (write_object pos pos xid (Z.lor TYPE_CHECKPOINT_MAP OBJ_PHYSICAL) 0 body).

(** The loop over [ephemeral_objects.iter().zip(bodies.iter()).enumerate()]. *)
Fixpoint relocate (g : Geometry) (new_data_index : Z) (entries : list EphemeralObject) (bodies : list bytes) (offset : Z)
  : io D CheckpointError (list EphemeralObject) :=
  match entries, bodies with
  | entry :: entries, body :: bodies =>
      do pos <- lift (slot_at (data_base g) (data_blocks g) new_data_index offset);
      do _ <- io_map_err CpDisc (write_block pos body);
      do rest <- relocate g new_data_index entries bodies (offset + 1);
      lift (Ok (entry <| paddr := pos |> :: rest))
  | _, _ => lift (Ok [])
  end.

Fixpoint write_maps (g : Geometry) (new_descriptor_index new_xid size : Z) (chunks : list (list (EphemeralObject * Z))) (map_index : Z)
  : io D CheckpointError unit :=
  match chunks with
  | [] => lift (Ok tt)
  | chunk :: chunks =>
      do pos <- lift (slot_at (descriptor_base g) (descriptor_blocks g) new_descriptor_index map_index);
      do _ <- write_checkpoint_map pos new_xid chunk size;
      write_maps g new_descriptor_index new_xid size chunks (map_index + 1)
  end.

Definition new_superblock {E} (old_sb : bytes) (g : Geometry) (new_descriptor_index new_descriptor_len new_data_index new_data_len
    new_xid new_oid : Z) (omap : option Z) : res E bytes :=
  let sb := old_sb in
  let? sb := put_u32 sb NX_XP_DESC_INDEX_OFFSET (wrap 32 new_descriptor_index) in
  let? sb := put_u32 sb NX_XP_DESC_LEN_OFFSET (wrap 32 new_descriptor_len) in
  let? sb := put_u32 sb NX_XP_DATA_INDEX_OFFSET (wrap 32 new_data_index) in
  let? sb := put_u32 sb NX_XP_DATA_LEN_OFFSET (wrap 32 new_data_len) in
  let? sb := put_u32 sb NX_XP_DESC_NEXT_OFFSET (wrap 32 ((new_descriptor_index + new_descriptor_len) mod descriptor_blocks g)) in
  let? sb := put_u32 sb NX_XP_DATA_NEXT_OFFSET (wrap 32 ((new_data_index + new_data_len) mod data_blocks g)) in
  let? sb := put_u64 sb NX_NEXT_XID_OFFSET (saturating_add 64 new_xid 1) in
  let? sb := put_u64 sb NX_NEXT_OID_OFFSET new_oid in
  match omap with
  | Some o => put_u64 sb NX_OMAP_OID_OFFSET o
  | None => Ok sb
  end.

(** The checks before anything is written: the superblock's identity, the
    geometry and the new object id bound, sizes and bodies of the objects. *)
Definition prepare (size : Z) (old_sb : bytes) (new_xid : Z) (entries : list EphemeralObject) (publish : CheckpointPublish)
  : io D CheckpointError (Geometry * Z * list Z * list bytes) :=
  do magic <- lift (u32_at old_sb NX_MAGIC_OFFSET);
  if negb (magic =? NX_MAGIC) then lift (Err (CpMalformed "no NXSB magic at the given superblock address")) else
  do old_o_type <- lift (u32_at old_sb TYPE_OFFSET);
  if negb (Z.land old_o_type OBJ_TYPE_MASK =? TYPE_NX_SUPERBLOCK)
  then lift (Err (CpMalformed "object at the given address is not a container superblock")) else
  do g <- lift (read_geometry old_sb);
  if negb (g_block_size g =? size)
  then lift (Err (CpMalformed "the superblock's own block size disagrees with the disc's")) else
  do _ <- lift (check_addresses g entries);
  do published <- published_mapping_sizes g;
  do old_next_oid <- lift (u64_at old_sb NX_NEXT_OID_OFFSET);
  let next := default old_next_oid (next_oid publish) in
  if next <? old_next_oid
  then lift (Err (CpMalformed "published next object ID precedes the existing container object ID bound")) else
  do next <- lift (bump_next_oid published next entries);
  do sizes <- lift (object_sizes size published (ephemeral_bodies publish) entries);
  do bodies <- object_bodies size new_xid (ephemeral_bodies publish) entries;
  lift (Ok (g, next, sizes, bodies)).

(** [.div_ceil(n)]. *)
Definition div_ceil {E} (x n : Z) : res E Z :=
  if n =? 0 then Panic else Ok (if x mod n =? 0 then x / n else x / n + 1).

Definition append_with (old_superblock_paddr new_xid : Z) (entries : list EphemeralObject) (publish : CheckpointPublish)
  : io D CheckpointError AppendedCheckpoint := fun s =>
  let size := block_size s in
  (do old_sb <- cp_read old_superblock_paddr size;
   do (g, next, sizes, bodies) <- prepare size old_sb new_xid entries publish;
   do old_oid <- lift (u64_at old_sb OID_OFFSET);
   do old_o_type <- lift (u32_at old_sb TYPE_OFFSET);
   do old_subtype <- lift (u32_at old_sb SUBTYPE_OFFSET);
   do room <- lift (or_panic (checked_sub size CPM_ENTRIES_OFFSET));
   let capacity_per_map := room / CPM_ENTRY_BYTES in
   do map_block_count <- lift (match entries with [] => Ok 1 | _ => div_ceil (zlen entries) capacity_per_map end);
   let new_descriptor_len := map_block_count + 1 in
   if descriptor_blocks g <? new_descriptor_len + descriptor_len g then lift (Err RingFull) else
   let new_descriptor_index := (descriptor_index g + descriptor_len g) mod descriptor_blocks g in
   let new_data_len := zlen entries in
   if data_blocks g <? new_data_len + data_len g then lift (Err RingFull) else
   let new_data_index := (data_index g + data_len g) mod data_blocks g in
   do relocated <- relocate g new_data_index entries bodies 0;
   let mapped := zip relocated sizes in
   do _ <- write_maps g new_descriptor_index new_xid size (slice_chunks (Z.max capacity_per_map 1) mapped) 0;
   do _ <- match mapped with
           | [] => do pos <- lift (slot_at (descriptor_base g) (descriptor_blocks g) new_descriptor_index 0);
                   write_checkpoint_map pos new_xid [] size
           | _ => lift (Ok tt)
           end;
   do new_superblock_paddr <- lift (slot_at (descriptor_base g) (descriptor_blocks g) new_descriptor_index map_block_count);
   do sb <- lift (new_superblock old_sb g new_descriptor_index new_descriptor_len new_data_index new_data_len new_xid next
                    (omap_oid publish));
   do body <- lift (slice sb OBJ_PHYS_BYTES (zlen sb));
   do _ <- io_map_err CpWrite (write_object new_superblock_paddr old_oid new_xid old_o_type old_subtype body);
   lift (Ok {| superblock_paddr := new_superblock_paddr; ephemeral_objects := relocated |})) s.

Definition append_checkpoint (old_superblock_paddr new_xid : Z) (entries : list EphemeralObject) : io D CheckpointError AppendedCheckpoint :=
  append_with old_superblock_paddr new_xid entries {| omap_oid := None; next_oid := None; ephemeral_bodies := [] |}.
End OnDisc.

(** ** A small logic for code on a session

    [safe_or err keep s m Q]: whatever the backend answers, [m] run from [s]
    does not panic, leaves every block of [keep] as it is, fails only with
    errors of [err], and if it returns [Ok a] then [Q a] holds of the state it
    ends in. *)

Section Logic.
Context {D : Type} `{LawfulImage D}.
Implicit Types s : RepairSession D.

Definition kept (keep : Z -> Prop) s s' : Prop :=
  forall q, 0 <= q < block_count s -> keep q -> block_at s' q = block_at s q.

Definition outcome {E A} (err : E -> Prop) (r : res E A) : Prop :=
  match r with
  | Ok _ => True
  | Err e => err e
  | Panic => False
  end.

Definition safe_or {E A} (err : E -> Prop) (keep : Z -> Prop) s (m : io D E A) (Q : A -> RepairSession D -> Prop) : Prop :=
  forall s' r, m s = (s', r) ->
    session_ok s' /\ same_shape s s' /\ kept keep s s' /\ outcome err r /\ forall a, r = Ok a -> Q a s'.

Definition everything (q : Z) : Prop := True.
Definition all_but (l : list Z) (q : Z) : Prop := q ∉ l.

Lemma outcome_any {E A} (err : E -> Prop) (r : res E A) : r <> Panic -> (forall e, err e) -> outcome err r.
Proof. intros Hn He. destruct r; [done|apply He|done]. Qed.

Lemma safe_ok {E A} (err : E -> Prop) s (a : A) (Q : A -> RepairSession D -> Prop) :
  session_ok s -> Q a s -> safe_or err everything s (lift (Ok a)) Q.
Proof. intros Hs HQ s' r [= <- <-]. split_and!; [done..|]. by intros ? [= <-]. Qed.

Lemma safe_err {E A} (err : E -> Prop) s (e : E) (Q : A -> RepairSession D -> Prop) :
  session_ok s -> err e -> safe_or err everything s (lift (Err e)) Q.
Proof. intros Hs He s' r [= <- <-]. by split_and!. Qed.

Lemma io_safe_weaken {E A} (err : E -> Prop) (keep keep' : Z -> Prop) s (m : io D E A) (Q Q' : A -> RepairSession D -> Prop) :
  safe_or err keep s m Q -> (forall q, keep' q -> keep q) -> (forall a s', Q a s' -> Q' a s') -> safe_or err keep' s m Q'.
Proof.
  intros Hm Hk HQ s' r R. destruct (Hm s' r R) as (H1 & H2 & H3 & H4 & H5). split_and!; [done|done| |done|auto].
  intros q Hq Hkq. by apply H3; [|apply Hk].
Qed.

Lemma io_safe_bind {E A B} (err : E -> Prop) (keep keep1 keep2 : Z -> Prop) s (m : io D E A) (k : A -> io D E B) Q R :
  safe_or err keep1 s m Q -> (forall q, keep q -> keep1 q /\ keep2 q) ->
  (forall a s1, session_ok s1 -> same_shape s s1 -> kept keep1 s s1 -> Q a s1 -> safe_or err keep2 s1 (k a) R) ->
  safe_or err keep s (iobind m k) R.
Proof.
  intros Hm Hk HK s' r. unfold iobind. destruct (m s) as [s1 r1] eqn:E1.
  destruct (Hm s1 r1 E1) as (H1 & H2 & H3 & H4 & H5). destruct r1 as [a|e|]; [|intros [= <- <-]|done].
  - intros E2. destruct (HK a s1 H1 H2 H3 (H5 a eq_refl) s' r E2) as (I1 & I2 & I3 & I4 & I5).
    split_and!; [done|by eapply same_shape_trans| |done|done]. destruct H2 as (? & ? & Hc). intros q Hq Hkq.
    destruct (Hk q Hkq). rewrite I3 by (done || lia). by apply H3.
  - split_and!; [done|done| |done|done]. intros q Hq Hkq. by apply H3; [|apply Hk].
Qed.

Lemma safe_assoc {E A B C} (err : E -> Prop) keep s (m : io D E A) (f : A -> io D E B) (k : B -> io D E C) R :
  safe_or err keep s (iobind (iobind m f) k) R -> safe_or err keep s (iobind m (fun a => iobind (f a) k)) R.
Proof. intros Hm s' r E'. apply (Hm s' r). rewrite <- E'. unfold iobind. by destruct (m s) as [s1 [a|e|]]. Qed.

Lemma safe_pure {E A B} (err : E -> Prop) keep s (x : A) (k : A -> io D E B) R :
  safe_or err keep s (k x) R -> safe_or err keep s (iobind (lift (Ok x)) k) R.
Proof. done. Qed.

Lemma safe_map_err {E F A} (f : E -> F) (err : F -> Prop) keep s (m : io D E A) Q :
  safe_or (fun e => err (f e)) keep s m Q -> safe_or err keep s (io_map_err f m) Q.
Proof.
  intros Hm s' r. unfold io_map_err. destruct (m s) as [s1 r1] eqn:E1. intros [= <- <-].
  destruct (Hm s1 r1 E1) as (H1 & H2 & H3 & H4 & H5). split_and!; [done..|by destruct r1|].
  intros a Ha. apply H5. by destruct r1; naive_solver.
Qed.

(** A checked pure step: not a panic, and what it gives. *)
Lemma io_safe_lift {E A B} (err : E -> Prop) keep s (r : res E A) (k : A -> io D E B) R :
  session_ok s -> outcome err r -> (forall a, r = Ok a -> safe_or err keep s (k a) R) -> safe_or err keep s (iobind (lift r) k) R.
Proof.
  intros Hs Hn Hk. destruct r as [a|e|]; [by apply Hk| |done]. intros s' r [= <- <-]. by split_and!.
Qed.

Lemma io_safe_read (err : CheckpointError -> Prop) s pos :
  (forall e, err (CpDisc e)) -> session_ok s -> 0 <= pos < block_count s ->
  safe_or err everything s (cp_read pos (block_size s)) (fun b s' => b = block_at s pos).
Proof.
  intros He Hs Hp. apply safe_map_err. intros s' r R. apply read_block_spec in R as (H1 & H2 & H3 & H4 & H5); [|done..].
  split_and!; [done|done| |by apply outcome_any|done]. intros q Hq _. by apply H3.
Qed.

Lemma io_safe_write (err : DiscError -> Prop) s pos from :
  (forall e, err e) -> session_ok s -> 0 <= pos < block_count s -> zlen from = block_size s -> is_bytes from ->
  safe_or err (all_but [pos]) s (write_block pos from) (fun _ s' => block_at s' pos = from).
Proof.
  intros He Hs Hp Hl Hb s' r R. pose proof (write_block_frame s pos from s' r Hs (proj1 Hp) Hb R) as (_ & _ & _ & Hf).
  apply write_block_spec in R as (H1 & H2 & H3 & H4); [|done..]. split_and!; [done|done| |by apply outcome_any|].
  - intros q Hq Hk. apply Hf; [done|]. intros ->. apply Hk. by left.
  - intros []. apply H4.
Qed.

Lemma safe_write_object (err : ObjectWriteError -> Prop) s pos oid xid o_type subtype body :
  (forall e, err (ObjectDisc e)) ->
  session_ok s -> 0 <= pos < block_count s -> u64 oid -> u64 xid -> u32 o_type -> u32 subtype -> is_bytes body ->
  OBJ_PHYS_BYTES + zlen body <= block_size s ->
  safe_or err (all_but [pos]) s (write_object pos oid xid o_type subtype body) (fun _ s' =>
    let b := block_at s' pos in
    field b OID_OFFSET 8 = oid /\ field b XID_OFFSET 8 = xid /\ field b TYPE_OFFSET 4 = o_type /\ field b SUBTYPE_OFFSET 4 = subtype /\
    get b OBJ_PHYS_BYTES (zlen body) = body /\ (block_size s mod 4 = 0 -> fletcher64_valid b = true)).
Proof.
  intros He Hs Hp Ho Hx Ht Hu Hb Hl. pose proof (zlen_nonneg body).
  destruct (object_block_spec (E := ObjectWriteError) (block_size s) oid xid o_type subtype body Ho Hx Ht Hu Hb Hl)
    as (b & Eb & Lb & Bb & F1 & F2 & F3 & F4 & F5 & _ & F7).
  assert (32 <= block_size s) by (unfold OBJ_PHYS_BYTES in Hl; lia).
  unfold OID_OFFSET, XID_OFFSET, TYPE_OFFSET, SUBTYPE_OFFSET in *. rewrite u64_at_get in F1 by lia. rewrite u64_at_get in F2 by lia.
  rewrite u32_at_get in F3 by lia. rewrite u32_at_get in F4 by lia.
  injection F1 as F1. injection F2 as F2. injection F3 as F3. injection F4 as F4.
  match goal with |- safe_or _ _ _ _ ?Q => assert (safe_or err (all_but [pos]) s (io_map_err ObjectDisc (write_block pos b)) Q) as Hgo end.
  { apply (io_safe_weaken _ (all_but [pos]) _ _ _ (fun _ s' => block_at s' pos = b)); [by apply safe_map_err, io_safe_write|done|].
    intros _ s1 ->. by split_and!. }
  intros s' r. unfold write_object. rewrite (proj2 (Z.ltb_ge _ _)) by lia. rewrite Eb. apply Hgo.
Qed.
End Logic.

(** No panic and no block of [keep] changed, whatever the error. *)
Abbreviation safe := (safe_or (fun _ => True)).

(** The only errors are the backend's. *)
Definition disc_error (e : CheckpointError) : Prop := exists d, e = CpDisc d.
Abbreviation sure := (safe_or disc_error).

(** ** Rings *)

(** The blocks at offsets [lo .. lo + len) of a ring, counted from [index]. *)
Definition ring_slot (base blocks index k : Z) : Z := base + (index + k) mod blocks.
Definition window (base blocks index lo len : Z) : list Z := map (ring_slot base blocks index) (seqZ lo len).

Lemma ring_slot_range base blocks index k : 0 < blocks -> base <= ring_slot base blocks index k < base + blocks.
Proof. intros. unfold ring_slot. pose proof (Z.mod_pos_bound (index + k) blocks ltac:(lia)). lia. Qed.

Lemma ring_slot_inj base blocks index j k :
  0 <= j < blocks -> 0 <= k < blocks -> ring_slot base blocks index j = ring_slot base blocks index k -> j = k.
Proof.
  intros Hj Hk E. unfold ring_slot in E. assert ((index + j) mod blocks = (index + k) mod blocks) as E' by lia.
  pose proof (Z.div_mod (index + j) blocks ltac:(lia)). pose proof (Z.div_mod (index + k) blocks ltac:(lia)).
  destruct (Z.lt_trichotomy ((index + j) / blocks) ((index + k) / blocks)) as [|[E2|]]; [nia| |nia]. rewrite E2, E' in *. lia.
Qed.

(** Advancing the index by [n] shifts the window by [n]. *)
Lemma ring_slot_shift base blocks index n k :
  blocks <> 0 -> ring_slot base blocks ((index + n) mod blocks) k = ring_slot base blocks index (n + k).
Proof. intros Hb. unfold ring_slot. rewrite Zplus_mod_idemp_l. do 2 f_equal. lia. Qed.

Lemma window_elem base blocks index lo len q :
  q ∈ window base blocks index lo len <-> exists k, lo <= k < lo + len /\ q = ring_slot base blocks index k.
Proof.
  unfold window. rewrite list_elem_of_fmap. setoid_rewrite elem_of_seqZ. naive_solver.
Qed.

Lemma window_apart base blocks index a b q :
  0 <= a -> 0 <= b -> a + b <= blocks -> q ∈ window base blocks index 0 a -> q ∉ window base blocks index a b.
Proof.
  intros Ha Hb Hab (j & Hj & ->)%window_elem (k & Hk & E)%window_elem. apply ring_slot_inj in E; lia.
Qed.

Definition geometry_of (sb : bytes) : Geometry :=
  {| g_block_size := field sb NX_BLOCK_SIZE_OFFSET 4; descriptor_base := field sb NX_XP_DESC_BASE_OFFSET 8;
     descriptor_blocks := field sb NX_XP_DESC_BLOCKS_OFFSET 4; data_base := field sb NX_XP_DATA_BASE_OFFSET 8;
     data_blocks := field sb NX_XP_DATA_BLOCKS_OFFSET 4; descriptor_index := field sb NX_XP_DESC_INDEX_OFFSET 4;
     descriptor_len := field sb NX_XP_DESC_LEN_OFFSET 4; data_index := field sb NX_XP_DATA_INDEX_OFFSET 4;
     data_len := field sb NX_XP_DATA_LEN_OFFSET 4 |}.

(** A geometry the reader accepts. *)
Record geometry_ok (g : Geometry) : Prop := {
  gk_desc_blocks : 0 < descriptor_blocks g < 2 ^ 32;
  gk_data_blocks : 0 < data_blocks g < 2 ^ 32;
  gk_desc_len : 0 < descriptor_len g <= descriptor_blocks g;
  gk_data_len : 0 <= data_len g <= data_blocks g;
  gk_desc_index : 0 <= descriptor_index g;
  gk_data_index : 0 <= data_index g;
}.

Definition SB_MIN : Z := 0xA8.

Ltac offsets := unfold NX_BLOCK_SIZE_OFFSET, NX_NEXT_XID_OFFSET, NX_OMAP_OID_OFFSET, NX_XP_DESC_BLOCKS_OFFSET,
  NX_XP_DATA_BLOCKS_OFFSET, NX_XP_DESC_BASE_OFFSET, NX_XP_DATA_BASE_OFFSET, NX_XP_DESC_NEXT_OFFSET, NX_XP_DATA_NEXT_OFFSET,
  NX_XP_DESC_INDEX_OFFSET, NX_XP_DESC_LEN_OFFSET, NX_XP_DATA_INDEX_OFFSET, NX_XP_DATA_LEN_OFFSET, NX_NEXT_OID_OFFSET,
  NX_MAGIC_OFFSET, CPM_FLAGS_OFFSET, CPM_COUNT_OFFSET, CPM_ENTRIES_OFFSET, CPM_ENTRY_BYTES, OBJ_PHYS_BYTES, OID_OFFSET,
  XID_OFFSET, TYPE_OFFSET, SUBTYPE_OFFSET, SB_MIN in *.

Lemma u32_field {E} b pos : 0 <= pos -> pos + 4 <= zlen b -> u32_at (E := E) b pos = Ok (field b pos 4).
Proof. apply u32_at_get. Qed.
Lemma u64_field {E} b pos : 0 <= pos -> pos + 8 <= zlen b -> u64_at (E := E) b pos = Ok (field b pos 8).
Proof. apply u64_at_get. Qed.

Lemma field_u32 b pos : is_bytes b -> 0 <= pos -> pos + 4 <= zlen b -> u32 (field b pos 4).
Proof. intros. apply (field_bound b pos 4); lia || done. Qed.
Lemma field_u64 b pos : is_bytes b -> 0 <= pos -> pos + 8 <= zlen b -> u64 (field b pos 8).
Proof. intros. apply (field_bound b pos 8); lia || done. Qed.

Lemma read_geometry_eq sb :
  is_bytes sb -> SB_MIN <= zlen sb ->
  read_geometry sb <> Panic /\ (forall g, read_geometry sb = Ok g -> g = geometry_of sb /\ geometry_ok g) /\
  (geometry_ok (geometry_of sb) -> read_geometry sb = Ok (geometry_of sb)).
Proof.
  intros Hb Hl. offsets. unfold read_geometry. offsets. rewrite !u32_field, !u64_field by lia. cbn [res_bind].
  fold (geometry_of sb).
  pose proof (field_u32 sb 0x68 Hb ltac:(lia) ltac:(lia)). pose proof (field_u32 sb 0x6C Hb ltac:(lia) ltac:(lia)).
  pose proof (field_u32 sb 0x88 Hb ltac:(lia) ltac:(lia)). pose proof (field_u32 sb 0x8C Hb ltac:(lia) ltac:(lia)).
  pose proof (field_u32 sb 0x90 Hb ltac:(lia) ltac:(lia)). pose proof (field_u32 sb 0x94 Hb ltac:(lia) ltac:(lia)).
  unfold in_range in *. change (field sb 0x68 4) with (descriptor_blocks (geometry_of sb)) in *.
  change (field sb 0x6C 4) with (data_blocks (geometry_of sb)) in *. change (field sb 0x88 4) with (descriptor_index (geometry_of sb)) in *.
  change (field sb 0x8C 4) with (descriptor_len (geometry_of sb)) in *. change (field sb 0x90 4) with (data_index (geometry_of sb)) in *.
  change (field sb 0x94 4) with (data_len (geometry_of sb)) in *.
  change (Build_Geometry _ _ _ _ _ _ _ _ _) with (geometry_of sb).
  set (g := geometry_of sb) in *.
  destruct (descriptor_blocks g =? 0) eqn:T1; bools; [split_and!; [done..|intros []; lia]|].
  destruct (data_blocks g =? 0) eqn:T2; bools; [split_and!; [done..|intros []; lia]|].
  destruct ((descriptor_len g =? 0) || (descriptor_blocks g <? descriptor_len g)) eqn:T3.
  { split_and!; [done..|]. intros []. apply orb_true_iff in T3 as [?|?]; bools; lia. }
  destruct (data_blocks g <? data_len g) eqn:T4; bools; [split_and!; [done..|intros []; lia]|].
  split_and!; [done| |done]. intros g' [= <-]. split; [done|]. constructor; lia.
Qed.

(** ** Checkpoint maps *)

Record entry_typed (e : EphemeralObject) : Prop := {
  et_oid : u64 (oid e);
  et_type : u32 (o_type e);
  et_subtype : u32 (subtype e);
  et_paddr : u64 (paddr e);
}.

(** Entry [j] at its place, [base] being the start of the entries. *)
Definition entry_stored (b : bytes) (base : Z) (j : Z) (e : EphemeralObject) (n : Z) : Prop :=
  let pos := base + j * 40 in
  field b pos 4 = o_type e /\ field b (pos + 4) 4 = subtype e /\ field b (pos + 8) 4 = n /\
  field b (pos + 24) 8 = oid e /\ field b (pos + 32) 8 = paddr e.

Lemma put_u32_eq {E} b pos v : 0 <= pos -> pos + 4 <= zlen b -> put_u32 (E := E) b pos v = Ok (put b pos (le_bytes 4 v)).
Proof. intros. unfold put_u32. by rewrite copy_at_put by range. Qed.
Lemma put_u64_eq {E} b pos v : 0 <= pos -> pos + 8 <= zlen b -> put_u64 (E := E) b pos v = Ok (put b pos (le_bytes 8 v)).
Proof. intros. unfold put_u64. by rewrite copy_at_put by range. Qed.

Lemma field_put_u32 b pos v : 0 <= pos -> pos + 4 <= zlen b -> u32 v -> field (put b pos (le_bytes 4 v)) pos 4 = v.
Proof. intros. unfold field. rewrite get_put_same by range. by apply le_val_field. Qed.
Lemma field_put_u64 b pos v : 0 <= pos -> pos + 8 <= zlen b -> u64 v -> field (put b pos (le_bytes 8 v)) pos 8 = v.
Proof. intros. unfold field. rewrite get_put_same by range. by apply le_val_field. Qed.

(** Reads one field through a stack of writes. *)
Ltac in_word := first [ done | range | unfold in_range in *; lia ].
Ltac fields := repeat first
  [ rewrite field_put_above by range | rewrite field_put_below by range
  | rewrite field_put_u32 by in_word | rewrite field_put_u64 by in_word ].

Lemma put_entries_spec {E} (l : list (EphemeralObject * Z)) : forall index b,
  Forall (fun x => entry_typed x.1 /\ u32 x.2) l -> is_bytes b -> 0 <= index -> 8 + (index + zlen l) * 40 <= zlen b ->
  exists b', put_entries (E := E) l index b = Ok b' /\ zlen b' = zlen b /\ is_bytes b' /\
    (forall lo m, 0 <= lo -> 0 <= m -> lo + m <= 8 + index * 40 -> field b' lo m = field b lo m) /\
    forall (j : nat) e n, l !! j = Some (e, n) -> entry_stored b' 8 (index + Z.of_nat j) e n.
Proof.
  induction l as [|[e n] l IH]; intros index b Ht Hb Hi Hl; [by exists b|]. rewrite zlen_cons in Hl. pose proof (zlen_nonneg l).
  apply Forall_cons in Ht as [[[T1 T2 T3 T4] Tn] Ht]. cbn [fst snd] in *. cbn [put_entries]. offsets.
  replace (40 - 32 + index * 40) with (8 + index * 40) by lia. remember (8 + index * 40) as pos eqn:Ep.
  do 4 (rewrite put_u32_eq by range; cbn [res_bind]). do 3 (rewrite put_u64_eq by range; cbn [res_bind]).
  match goal with |- context [put_entries l _ ?x] => set (b1 := x) end.
  assert (zlen b1 = zlen b) as L1 by (unfold b1; range).
  assert (is_bytes b1) as B1 by (unfold b1; repeat apply is_bytes_put; try apply is_bytes_le_bytes; done).
  assert (field b1 pos 4 = o_type e /\ field b1 (pos + 4) 4 = subtype e /\ field b1 (pos + 8) 4 = n /\
    field b1 (pos + 24) 8 = oid e /\ field b1 (pos + 32) 8 = paddr e) as (F1 & F2 & F3 & F4 & F5)
    by (unfold b1; split_and!; fields; done).
  destruct (IH (index + 1) b1) as (b' & E' & L' & B' & Fb & Fj); [done|done|lia|lia|]. exists b'. split_and!; [done|lia|done|..].
  - intros lo m ? ? ?. rewrite Fb by lia. unfold b1. fields. done.
  - intros [|j] e' n'; cbn [lookup list_lookup]; [intros [= <- <-]|intros Hj].
    + unfold entry_stored. rewrite Z.add_0_r, <- Ep. by rewrite !Fb by lia.
    + specialize (Fj j e' n' Hj). by replace (index + Z.of_nat (S j)) with (index + 1 + Z.of_nat j) by lia.
Qed.

Lemma map_body_spec {E} (l : list (EphemeralObject * Z)) size :
  Forall (fun x => entry_typed x.1 /\ u32 x.2) l -> 40 + zlen l * 40 <= size -> size < 2 ^ 32 ->
  exists body, map_body (E := E) l size = Ok body /\ zlen body = size - 32 /\ is_bytes body /\
    field body 4 4 = zlen l /\ forall (j : nat) e n, l !! j = Some (e, n) -> entry_stored body 8 (Z.of_nat j) e n.
Proof.
  intros Ht Hl Hs. pose proof (zlen_nonneg l). unfold map_body, checked_sub. offsets. rewrite (proj2 (Z.leb_le _ _)) by lia.
  cbn [or_panic res_bind]. change (32 - 32) with 0. change (0x24 - 32) with 4.
  rewrite put_u32_eq by range. cbn [res_bind]. rewrite put_u32_eq by range. cbn [res_bind].
  rewrite (wrap_small 32 (zlen l)) by (unfold in_range; lia).
  set (b := put _ 4 _). assert (zlen b = size - 32) as Lb by (unfold b; range).
  destruct (put_entries_spec (E := E) l 0 b) as (b' & -> & L' & B' & Fb & Fj); [done| |lia|lia|].
  { unfold b. repeat apply is_bytes_put; try apply is_bytes_le_bytes. apply is_bytes_zeros. }
  exists b'. split_and!; [done|lia|done| |done]. rewrite Fb by lia. unfold b, field. rewrite get_put_same by range.
  rewrite le_val_field; [done|]. change (8 * Z.of_nat 4) with 32. lia.
Qed.

