(* ===== verification/CheckpointProps.v ===== *)
(** * Checkpoints: what is kept and what reads back

    The proofs about [Checkpoint.append_with] and
    [Checkpoint.collect_ephemeral_objects], over any lawful disc. *)

From S2P Require Import Prelude ApfsObject Spaceman Checkpoint.
From stdpp Require Import base tactics numbers list strings.
From Stdlib Require Import ZArith Lia.

Open Scope Z_scope.

(** ** The checks before writing *)

Section Append.
Context {D : Type} `{LawfulImage D}.
Implicit Types s : RepairSession D.

(** Both rings lie in the container and do not overlap. *)
Record rings_ok (limit : Z) (g : Geometry) : Prop := {
  rk_geometry : geometry_ok g;
  rk_desc : 0 <= descriptor_base g /\ descriptor_base g + descriptor_blocks g <= limit;
  rk_data : 0 <= data_base g /\ data_base g + data_blocks g <= limit;
  rk_apart : descriptor_base g + descriptor_blocks g <= data_base g \/ data_base g + data_blocks g <= descriptor_base g;
}.

Lemma slot_at_ok {E} base blocks index k limit :
  0 <= base -> 0 < blocks -> base + blocks <= limit -> limit < 2 ^ 64 ->
  slot_at (E := E) base blocks index k = Ok (ring_slot base blocks index k) /\ 0 <= ring_slot base blocks index k < limit.
Proof.
  intros H1 H2 H3 H4. pose proof (ring_slot_range base blocks index k H2). unfold slot_at, add_or_panic, checked_add.
  fold (ring_slot base blocks index k). rewrite (proj2 (Z.ltb_lt _ _)) by lia. split; [done|lia].
Qed.

Lemma limit_small s : session_ok s -> block_count s < 2 ^ 64.
Proof. intros [_ B1 B2 B3]. destruct (decide (0 <= block_count s)); nia. Qed.

Lemma is_map_ok (b : bytes) : 32 <= zlen b -> is_map b = Ok (Z.land (field b TYPE_OFFSET 4) OBJ_TYPE_MASK =? TYPE_CHECKPOINT_MAP).
Proof. intros Hl. unfold is_map. offsets. by rewrite u32_field by lia. Qed.

Lemma map_count_ok size b :
  is_bytes b -> zlen b = size -> SB_MIN <= size ->
  map_count size b <> Panic /\ (forall n, map_count size b = Ok n -> n = field b CPM_COUNT_OFFSET 4 /\ 0 <= n /\ 40 + n * 40 <= size) /\
  (40 + field b CPM_COUNT_OFFSET 4 * 40 <= size -> map_count size b = Ok (field b CPM_COUNT_OFFSET 4)).
Proof.
  intros Hb Hl Hs. unfold map_count, checked_sub. offsets. rewrite u32_field by lia. rewrite (proj2 (Z.leb_le _ _)) by lia.
  cbn [res_bind or_panic]. pose proof (field_u32 b 0x24 Hb ltac:(lia) ltac:(lia)). unfold in_range in *.
  pose proof (Z.div_mod (size - 40) 40 ltac:(lia)). pose proof (Z.mod_pos_bound (size - 40) 40 ltac:(lia)).
  destruct ((size - 40) / 40 <? field b 36 4) eqn:T; bools; (split_and!; [done| |]); try done; try lia.
  intros n [= <-]. lia.
Qed.

Lemma map_sizes_ok (b : bytes) (n : nat) : forall index, 0 <= index -> 40 + (index + Z.of_nat n) * 40 <= zlen b -> map_sizes b n index <> Panic.
Proof.
  induction n as [|n IH]; intros index Hi Hl; [done|]. cbn [map_sizes]. unfold entry_pos. offsets.
  rewrite u64_field, u32_field by lia. cbn [res_bind]. specialize (IH (index + 1) ltac:(lia) ltac:(lia)).
  by destruct (map_sizes b n (index + 1)).
Qed.

Lemma published_safe g (n : nat) : forall s slot,
  session_ok s -> rings_ok (block_count s) g -> SB_MIN <= block_size s ->
  safe everything s (published_slots (block_size s) g n slot) (fun _ _ => True).
Proof.
  induction n as [|n IH]; intros s slot Hs Hg Hz; [by apply safe_ok|]. cbn [published_slots].
  destruct (rk_desc _ _ Hg) as [D1 D2]. pose proof (gk_desc_blocks _ (rk_geometry _ _ Hg)).
  destruct (slot_at_ok (E := CheckpointError) (descriptor_base g) (descriptor_blocks g) (descriptor_index g) slot (block_count s))
    as [-> Hr]; [lia|lia|lia|by apply limit_small|]. apply safe_pure.
  eapply (io_safe_bind _ everything everything everything); [by apply io_safe_read|done|]. intros b s1 Hs1 (G1 & G2 & G3) _ ->.
  pose proof (zlen_block_at s (ring_slot (descriptor_base g) (descriptor_blocks g) (descriptor_index g) slot) Hs) as Lb.
  pose proof (is_bytes_block_at s (ring_slot (descriptor_base g) (descriptor_blocks g) (descriptor_index g) slot) Hs) as Bb.
  set (b := block_at s _) in *. rewrite is_map_ok by (offsets; lia). apply safe_pure.
  apply io_safe_lift; [done| |].
  - destruct (Z.land _ _ =? _); [|done]. destruct (map_count_ok (block_size s) b Bb Lb Hz) as (Np & Hn & _).
    destruct (map_count (block_size s) b) as [c| |]; [|done|done]. cbn [res_bind]. destruct (Hn c eq_refl) as (_ & Hc1 & Hc2).
    apply outcome_any; [apply map_sizes_ok; lia|done].
  - intros sizes _. rewrite <- G2. eapply (io_safe_bind _ everything everything everything); [apply IH; [done|by rewrite G3|lia]|done|].
    intros rest s2 Hs2 _ _ _. by apply safe_ok.
Qed.

Lemma check_addresses_ok g limit l :
  rings_ok limit g -> limit < 2 ^ 64 ->
  check_addresses g l <> Panic /\ (check_addresses g l = Ok tt -> Forall (fun e => data_base g <= paddr e < data_base g + data_blocks g) l).
Proof.
  intros Hg Hlim. destruct (rk_data _ _ Hg) as [D1 D2]. induction l as [|e l [IH1 IH2]]; [done|]. cbn [check_addresses].
  unfold add_or_panic, checked_add. rewrite (proj2 (Z.ltb_lt (data_base g + data_blocks g) (2 ^ 64))) by lia. cbn [or_panic res_bind].
  destruct (paddr e <? data_base g) eqn:T1; cbn [res_bind]; [done|].
  destruct (data_base g + data_blocks g <=? paddr e) eqn:T2; bools; [done|]. split; [done|]. intros Hl. constructor; [lia|auto].
Qed.

Lemma bump_ok published l : forall next,
  0 <= next < 2 ^ 64 -> Forall entry_typed l ->
  bump_next_oid published next l <> Panic /\ (forall n, bump_next_oid published next l = Ok n -> next <= n < 2 ^ 64).
Proof.
  induction l as [|e l IH]; intros next Hn Ht; [split; [done|]; intros n [= <-]; lia|]. apply Forall_cons in Ht as [[T _ _ _] Ht].
  cbn [bump_next_oid]. destruct (existsb _ _); [by apply IH|]. unfold checked_add.
  destruct (oid e + 1 <? 2 ^ 64) eqn:L; bools; [|done]. cbn [ok_or res_bind]. unfold in_range in T.
  destruct (IH (Z.max next (oid e + 1)) ltac:(lia) Ht) as [I1 I2]. split; [done|]. intros n Hn'. specialize (I2 n Hn'). lia.
Qed.

Lemma object_sizes_ok size published bodies l :
  object_sizes size published bodies l <> Panic /\
  (forall ns, object_sizes size published bodies l = Ok ns -> ns = replicate (length l) size).
Proof.
  induction l as [|e l [IH1 IH2]]; [split; [done|]; by intros ns [= <-]|]. cbn [object_sizes]. unfold size_of.
  match goal with |- context [ok_or ?o _] => destruct o as [n|] end; cbn [ok_or res_bind]; [|done].
  destruct (Z.eqb_spec n size) as [->|]; cbn [negb res_bind]; [|done].
  destruct (object_sizes size published bodies l) as [ns| |]; cbn [res_bind]; [|done|done]. split; [done|].
  intros ns' [= <-]. cbn [length replicate]. by rewrite (IH2 ns eq_refl).
Qed.

(** A block that is the object [e], stamped with the new transaction. *)
Record body_for (size xid : Z) (e : EphemeralObject) (b : bytes) : Prop := {
  bf_size : zlen b = size;
  bf_bytes : is_bytes b;
  bf_oid : field b OID_OFFSET 8 = oid e;
  bf_type : field b TYPE_OFFSET 4 = o_type e;
  bf_subtype : field b SUBTYPE_OFFSET 4 = subtype e;
  bf_xid : field b XID_OFFSET 8 = xid;
  bf_valid : size mod 4 = 0 -> fletcher64_valid b = true;
}.

Lemma restamp_ok size xid e b :
  u64 xid -> is_bytes b -> zlen b = size -> SB_MIN <= size ->
  restamp xid e b <> Panic /\ (forall b', restamp xid e b = Ok b' -> body_for size xid e b').
Proof.
  intros Hx Hb Hl Hs. offsets. unfold restamp. offsets. rewrite u64_field, !u32_field by lia. cbn [res_bind].
  destruct (Z.eqb_spec (field b 8 8) (oid e)) as [E1|]; cbn [negb orb]; [|done].
  destruct (Z.eqb_spec (field b 24 4) (o_type e)) as [E2|]; cbn [negb orb]; [|done].
  destruct (Z.eqb_spec (field b 28 4) (subtype e)) as [E3|]; cbn [negb orb]; [|done].
  rewrite copy_at_put by range. cbn [res_bind]. set (b1 := put _ _ _). assert (zlen b1 = size) as L1 by (unfold b1; range).
  destruct (seal_valid (E := CheckpointError) b1) as (x & -> & Lx & Vx); [lia|]. split; [done|]. intros b' [= <-].
  constructor; offsets.
  - lia.
  - unfold b1. repeat apply is_bytes_put; try apply is_bytes_le_bytes. done.
  - rewrite <- E1. unfold b1. by fields.
  - rewrite <- E2. unfold b1. by fields.
  - rewrite <- E3. unfold b1. by fields.
  - unfold b1. fields. done.
  - intros H4. apply Vx. by rewrite L1.
Qed.

Lemma find_oid_in {A} o (l : list (Z * A)) a : find_oid o l = Some a -> exists k, (k, a) ∈ l.
Proof.
  unfold find_oid. destruct (List.find _ l) as [[k x]|] eqn:F; [|done]. cbn. intros [= <-]. apply find_some in F as [F _].
  exists k. by apply list_elem_of_In.
Qed.

Lemma object_bodies_safe xid bodies l : forall s,
  session_ok s -> SB_MIN <= block_size s -> u64 xid -> Forall (fun x => is_bytes x.2) bodies ->
  Forall (fun e => 0 <= paddr e < block_count s) l ->
  safe everything s (object_bodies (block_size s) xid bodies l) (fun bs _ => Forall2 (body_for (block_size s) xid) l bs).
Proof.
  induction l as [|e l IH]; intros s Hs Hz Hx Hbo Hl; [by apply safe_ok|]. apply Forall_cons in Hl as [He Hl]. cbn [object_bodies].
  assert (safe everything s (match find_oid (oid e) bodies with
            | Some body => if negb (zlen body =? block_size s)
                then lift (Err (CpMalformed "a replacement ephemeral body does not match the container block size")) else lift (Ok body)
            | None => cp_read (paddr e) (block_size s) end) (fun b _ => is_bytes b /\ zlen b = block_size s)) as Hb.
  { destruct (find_oid (oid e) bodies) as [body|] eqn:F.
    - destruct (find_oid_in _ _ _ F) as [k Hk]. rewrite Forall_forall in Hbo. specialize (Hbo _ Hk). cbn [snd] in Hbo.
      destruct (Z.eqb_spec (zlen body) (block_size s)); cbn [negb]; [by apply safe_ok|by apply safe_err].
    - eapply io_safe_weaken; [by apply io_safe_read|done|]. intros b s' ->. split; [by apply is_bytes_block_at|by apply zlen_block_at]. }
  eapply (io_safe_bind _ everything everything everything); [exact Hb|done|]. intros b s1 Hs1 (G1 & G2 & G3) _ [Bb Lb].
  destruct (restamp_ok (block_size s) xid e b Hx Bb Lb Hz) as [Np Hok].
  apply io_safe_lift; [done|by apply outcome_any|]. intros b' Eb. rewrite <- G2. eapply (io_safe_bind _ everything everything everything);
    [apply IH; [done|lia|done|done|by rewrite G3]|done|].
  intros rest s2 Hs2 _ _ Hr. apply safe_ok; [done|]. rewrite G2 in *. constructor; [by apply Hok|done].
Qed.

(** The arguments of an append. *)
Record append_args (xid : Z) (l : list EphemeralObject) (pub : CheckpointPublish) : Prop := {
  aa_xid : u64 xid;
  aa_entries : Forall entry_typed l;
  aa_bodies : Forall (fun x => is_bytes x.2) (ephemeral_bodies pub);
  aa_next : forall n, next_oid pub = Some n -> u64 n;
  aa_omap : forall n, omap_oid pub = Some n -> u64 n;
}.

Definition prepared (size xid : Z) (sb : bytes) (l : list EphemeralObject) (x : Geometry * Z * list Z * list bytes) : Prop :=
  let '(g, next, sizes, bodies) := x in
  field sb NX_MAGIC_OFFSET 4 = NX_MAGIC /\ Z.land (field sb TYPE_OFFSET 4) OBJ_TYPE_MASK = TYPE_NX_SUPERBLOCK /\
  g = geometry_of sb /\ geometry_ok g /\ field sb NX_NEXT_OID_OFFSET 8 <= next < 2 ^ 64 /\
  sizes = replicate (length l) size /\ Forall2 (body_for size xid) l bodies.

Lemma prepare_safe s sb xid l pub :
  session_ok s -> SB_MIN <= block_size s -> is_bytes sb -> zlen sb = block_size s -> append_args xid l pub ->
  (geometry_ok (geometry_of sb) -> rings_ok (block_count s) (geometry_of sb)) ->
  safe everything s (prepare (block_size s) sb xid l pub) (fun x _ => prepared (block_size s) xid sb l x).
Proof.
  intros Hs Hz Hb Hl [A1 A2 A3 A4 A5] Hg. unfold prepare.
  rewrite (u32_field sb NX_MAGIC_OFFSET) by (offsets; lia). apply safe_pure.
  destruct (Z.eqb_spec (field sb NX_MAGIC_OFFSET 4) NX_MAGIC) as [E1|]; cbn [negb]; [|by apply safe_err].
  rewrite (u32_field sb TYPE_OFFSET) by (offsets; lia). apply safe_pure.
  destruct (Z.eqb_spec (Z.land (field sb TYPE_OFFSET 4) OBJ_TYPE_MASK) TYPE_NX_SUPERBLOCK) as [E2|]; cbn [negb]; [|by apply safe_err].
  destruct (read_geometry_eq sb Hb ltac:(lia)) as (Np & Hgeo & _). apply io_safe_lift; [done|by apply outcome_any|]. intros g Eg.
  destruct (Hgeo g Eg) as [-> Hgok]. specialize (Hg Hgok). clear Eg Hgeo Np.
  destruct (g_block_size _ =? block_size s); cbn [negb]; [|by apply safe_err].
  destruct (check_addresses_ok _ _ l Hg (limit_small s Hs)) as [Np Hin]. apply io_safe_lift; [done|by apply outcome_any|]. intros [] Ec. specialize (Hin Ec).
  unfold published_mapping_sizes. eapply (io_safe_bind _ everything everything everything _ _ _ (fun _ _ => True)); [|done|].
  { intros s' r R. exact (published_safe _ _ s 0 Hs Hg Hz s' r R). }
  intros published s1 Hs1 (G1 & G2 & G3) _ _. rewrite (u64_field sb NX_NEXT_OID_OFFSET) by (offsets; lia). apply safe_pure.
  pose proof (field_u64 sb NX_NEXT_OID_OFFSET Hb ltac:(offsets; lia) ltac:(offsets; lia)) as Un.
  destruct (default (field sb NX_NEXT_OID_OFFSET 8) (next_oid pub) <? field sb NX_NEXT_OID_OFFSET 8) eqn:T; bools; [by apply safe_err|].
  destruct (bump_ok published l (default (field sb NX_NEXT_OID_OFFSET 8) (next_oid pub))) as [Np1 Hn]; [|done|].
  { unfold in_range in *. destruct (next_oid pub) as [n|] eqn:En; cbn [default] in *; [specialize (A4 n eq_refl); change (id n) with n in *; lia|lia]. }
  apply io_safe_lift; [done|by apply outcome_any|]. intros next En. specialize (Hn next En).
  destruct (object_sizes_ok (block_size s) published (ephemeral_bodies pub) l) as [Np2 Hsz]. apply io_safe_lift; [done|by apply outcome_any|].
  intros sizes Es. rewrite <- G2. eapply (io_safe_bind _ everything everything everything); [apply object_bodies_safe; [done|lia|done|done|]|done|].
  { destruct (rk_data _ _ Hg). eapply Forall_impl; [exact Hin|]. intros e He. cbv beta in *. rewrite G3. lia. }
  intros bodies s2 Hs2 _ _ HF. apply safe_ok; [done|]. rewrite G2 in *. split_and!; [done..|lia|lia|by apply Hsz|done].
Qed.

(** ** Writing the new state *)

Definition moved (l : list EphemeralObject) (ps : list Z) : list EphemeralObject :=
  zip_with (fun e p => e <| paddr := p |>) l ps.

Lemma window_cons base blocks index lo len :
  0 < len -> window base blocks index lo len = ring_slot base blocks index lo :: window base blocks index (lo + 1) (len - 1).
Proof. intros. unfold window. rewrite seqZ_cons by lia. cbn [map]. do 3 f_equal; lia. Qed.

Lemma window_first base blocks index lo len :
  0 <= lo -> lo + len <= blocks -> 0 < len -> ring_slot base blocks index lo ∉ window base blocks index (lo + 1) (len - 1).
Proof. intros H1 H2 H3 (k & Hk & E)%window_elem. apply ring_slot_inj in E; lia. Qed.

Lemma relocate_safe g xid index l : forall s bs off,
  session_ok s -> rings_ok (block_count s) g -> Forall2 (body_for (block_size s) xid) l bs ->
  0 <= off -> off + zlen l <= data_blocks g ->
  let ps := window (data_base g) (data_blocks g) index off (zlen l) in
  safe (all_but ps) s (relocate g index l bs off)
    (fun rl s' => rl = moved l ps /\ Forall2 (fun p b => block_at s' p = b) ps bs).
Proof.
  induction l as [|e l IH]; intros s bs off Hs Hg HF Hoff Hlen ps.
  { inversion HF. eapply io_safe_weaken; [apply safe_ok with (Q := fun rl (s' : RepairSession D) => rl = [] /\ True); done|done|].
    intros a s' [-> _]. unfold ps. split; [done|]. constructor. }
  inversion HF as [|e' b l' bs' Hb HF']. subst. rewrite zlen_cons in Hlen. pose proof (zlen_nonneg l).
  assert (ps = ring_slot (data_base g) (data_blocks g) index off :: window (data_base g) (data_blocks g) index (off + 1) (zlen l)) as Eps.
  { unfold ps. rewrite zlen_cons, window_cons by lia. by replace (zlen l + 1 - 1) with (zlen l) by lia. }
  clearbody ps. subst ps. cbn [relocate].
  destruct (rk_data _ _ Hg) as [D1 D2]. pose proof (gk_data_blocks _ (rk_geometry _ _ Hg)).
  destruct (slot_at_ok (E := CheckpointError) (data_base g) (data_blocks g) index off (block_count s))
    as [-> Hr]; [lia|lia|lia|by apply limit_small|]. apply safe_pure.
  pose proof (window_first (data_base g) (data_blocks g) index off (zlen l + 1) ltac:(lia) ltac:(lia) ltac:(lia)) as Hnot.
  replace (zlen l + 1 - 1) with (zlen l) in Hnot by lia.
  set (p := ring_slot _ _ _ off) in *. set (rest := window _ _ _ _ _) in *.
  eapply (io_safe_bind _ _ (all_but [p]) (all_but rest)).
  - apply safe_map_err, io_safe_write; [done|done|done|apply (bf_size _ _ _ _ Hb)|apply (bf_bytes _ _ _ _ Hb)].
  - intros q Hq. unfold all_but in *. rewrite not_elem_of_cons in Hq. split; [|naive_solver]. rewrite list_elem_of_singleton. naive_solver.
  - intros [] s1 Hs1 (G1 & G2 & G3) _ Hp.
    eapply (io_safe_bind _ _ (all_but rest) everything); [apply IH; [done|by rewrite G3|by rewrite G2|lia|lia]|done|].
    intros rl s2 Hs2 (I1 & I2 & I3) Hk [-> HF2]. apply safe_ok; [done|]. split; [done|]. constructor; [|done].
    rewrite Hk; [done|lia|done].
Qed.

(** What a written checkpoint map holds. *)
Record map_at (xid : Z) (chunk : list (EphemeralObject * Z)) (b : bytes) : Prop := {
  mt_type : field b TYPE_OFFSET 4 = Z.lor TYPE_CHECKPOINT_MAP OBJ_PHYSICAL;
  mt_xid : field b XID_OFFSET 8 = xid;
  mt_count : field b CPM_COUNT_OFFSET 4 = zlen chunk;
  mt_entries (j : nat) e n : chunk !! j = Some (e, n) -> entry_stored b CPM_ENTRIES_OFFSET (Z.of_nat j) e n;
  mt_valid : zlen b mod 4 = 0 -> fletcher64_valid b = true;
}.

Lemma get_get l lo n a m : 0 <= lo -> 0 <= a -> 0 <= m -> a + m <= n -> get (get l lo n) a m = get l (lo + a) m.
Proof.
  intros. unfold get. replace n with (a + (n - a)) by lia. rewrite zdrop_ztake_comm by lia. rewrite ztake_ztake, zdrop_zdrop by lia.
  f_equal. lia.
Qed.

Lemma field_shift b body lo m :
  get b 32 (zlen body) = body -> 0 <= lo -> 0 <= m -> lo + m <= zlen body -> field b (32 + lo) m = field body lo m.
Proof. intros E ? ? ?. unfold field. rewrite <- E at 1. by rewrite get_get by lia. Qed.

Lemma entry_shift b body j e n :
  get b 32 (zlen body) = body -> 0 <= j -> 8 + (j + 1) * 40 <= zlen body -> entry_stored body 8 j e n -> entry_stored b 40 j e n.
Proof.
  intros E Hj Hl (F1 & F2 & F3 & F4 & F5). unfold entry_stored.
  rewrite <- F1, <- F2, <- F3, <- F4, <- F5. rewrite <- !(field_shift b body) by (done || lia).
  split_and!; f_equal; lia.
Qed.

Lemma write_map_safe s pos xid chunk :
  session_ok s -> 0 <= pos < block_count s -> u64 xid -> SB_MIN <= block_size s < 2 ^ 32 ->
  Forall (fun x => entry_typed x.1 /\ u32 x.2) chunk -> 40 + zlen chunk * 40 <= block_size s ->
  safe (all_but [pos]) s (write_checkpoint_map pos xid chunk (block_size s)) (fun _ s' => map_at xid chunk (block_at s' pos)).
Proof.
  intros Hs Hp Hx Hz Ht Hl. pose proof (limit_small s Hs). pose proof (zlen_nonneg chunk). unfold write_checkpoint_map.
  destruct (map_body_spec (E := CheckpointError) chunk (block_size s) Ht Hl ltac:(lia)) as (body & -> & Lb & Bb & Fc & Fj).
  apply safe_pure, safe_map_err.
  match goal with |- safe_or _ _ _ _ ?Q => set (Q0 := Q) end. intros s' r R.
  destruct (safe_write_object (fun _ => True) s pos pos xid (Z.lor TYPE_CHECKPOINT_MAP OBJ_PHYSICAL) 0 body) with (s' := s') (r := r)
    as (H1' & H2' & H3' & H4' & H5'); [done|done|done|unfold in_range; lia|done|by_compute|by_compute|done|offsets; lia|exact R|].
  split_and!; [done..|]. intros a Ha. specialize (H5' a Ha) as (_ & F2 & F3 & _ & F5 & F6). unfold Q0.
  set (b := block_at s' pos) in *. offsets. constructor; offsets.
  - done.
  - done.
  - rewrite <- Fc. change 36 with (32 + 4). apply field_shift; [done|lia..].
  - intros j e n Hj. pose proof (lookup_lt_Some _ _ _ Hj). apply (entry_shift b body); [done|lia|unfold zlen in *; lia|by apply Fj].
  - intros H4. apply F6. destruct H2' as (_ & E2 & _). rewrite <- E2. unfold b in H4. by rewrite zlen_block_at in H4.
Qed.

Lemma write_maps_safe g xid index cs : forall s mi,
  session_ok s -> rings_ok (block_count s) g -> u64 xid -> SB_MIN <= block_size s < 2 ^ 32 ->
  Forall (fun chunk => Forall (fun x => entry_typed x.1 /\ u32 x.2) chunk /\ 40 + zlen chunk * 40 <= block_size s) cs ->
  0 <= mi -> mi + zlen cs <= descriptor_blocks g ->
  let ps := window (descriptor_base g) (descriptor_blocks g) index mi (zlen cs) in
  safe (all_but ps) s (write_maps g index xid (block_size s) cs mi)
    (fun _ s' => Forall2 (fun p chunk => map_at xid chunk (block_at s' p)) ps cs).
Proof.
  induction cs as [|c cs IH]; intros s mi Hs Hg Hx Hz Hcs Hmi Hlen ps.
  { eapply io_safe_weaken; [by apply safe_ok with (Q := fun _ _ => True)|done|]. intros a s' _. constructor. }
  rewrite zlen_cons in Hlen. pose proof (zlen_nonneg cs). apply Forall_cons in Hcs as [[Hc1 Hc2] Hcs].
  assert (ps = ring_slot (descriptor_base g) (descriptor_blocks g) index mi ::
    window (descriptor_base g) (descriptor_blocks g) index (mi + 1) (zlen cs)) as Eps.
  { unfold ps. rewrite zlen_cons, window_cons by lia. by replace (zlen cs + 1 - 1) with (zlen cs) by lia. }
  clearbody ps. subst ps. cbn [write_maps].
  destruct (rk_desc _ _ Hg) as [D1 D2]. pose proof (gk_desc_blocks _ (rk_geometry _ _ Hg)).
  destruct (slot_at_ok (E := CheckpointError) (descriptor_base g) (descriptor_blocks g) index mi (block_count s))
    as [-> Hr]; [lia|lia|lia|by apply limit_small|]. apply safe_pure.
  pose proof (window_first (descriptor_base g) (descriptor_blocks g) index mi (zlen cs + 1) ltac:(lia) ltac:(lia) ltac:(lia)) as Hnot.
  replace (zlen cs + 1 - 1) with (zlen cs) in Hnot by lia.
  set (p := ring_slot _ _ _ mi) in *. set (rest := window _ _ _ _ _) in *.
  eapply (io_safe_bind _ _ (all_but [p]) (all_but rest)).
  - by apply write_map_safe.
  - intros q Hq. unfold all_but in *. rewrite not_elem_of_cons in Hq. split; [|naive_solver]. rewrite list_elem_of_singleton. naive_solver.
  - intros [] s1 Hs1 (G1 & G2 & G3) _ Hp. rewrite <- G2.
    match goal with |- safe_or _ _ _ _ ?Q => set (Q0 := Q) end. intros s' r R.
    destruct (IH s1 (mi + 1)) with (s' := s') (r := r) as (I1 & I2 & I3 & I4 & I5);
      [done|by rewrite G3|done|lia|by rewrite G2|lia|lia|exact R|].
    split_and!; [done..|]. intros a Ha. unfold Q0. constructor; [|by apply (I5 a Ha)]. rewrite I3; [done|lia|done].
Qed.

(** The superblock of the new state. *)
Definition advanced (g : Geometry) (maps objects : Z) : Geometry :=
  {| g_block_size := g_block_size g; descriptor_base := descriptor_base g; descriptor_blocks := descriptor_blocks g;
     data_base := data_base g; data_blocks := data_blocks g;
     descriptor_index := (descriptor_index g + descriptor_len g) mod descriptor_blocks g; descriptor_len := maps + 1;
     data_index := (data_index g + data_len g) mod data_blocks g; data_len := objects |}.

Lemma advanced_ok g maps objects :
  geometry_ok g -> 0 <= maps -> 0 <= objects -> maps + 1 + descriptor_len g <= descriptor_blocks g -> objects + data_len g <= data_blocks g ->
  geometry_ok (advanced g maps objects).
Proof.
  intros [G1 G2 G3 G4 G5 G6] Hm Ho H1 H2. constructor; cbn; try lia.
  - apply Z.mod_pos_bound. lia.
  - apply Z.mod_pos_bound. lia.
Qed.

Lemma new_superblock_ok {E} sb maps objects xid next omap :
  let g := geometry_of sb in
  let g' := advanced g maps objects in
  is_bytes sb -> SB_MIN <= zlen sb -> geometry_ok g -> geometry_ok g' -> u64 xid -> u64 next ->
  (forall o, omap = Some o -> u64 o) ->
  exists sb', new_superblock (E := E) sb g (descriptor_index g') (maps + 1) (data_index g') objects xid next omap = Ok sb' /\
    zlen sb' = zlen sb /\ is_bytes sb' /\ geometry_of sb' = g' /\ field sb' NX_MAGIC_OFFSET 4 = field sb NX_MAGIC_OFFSET 4 /\
    field sb' NX_NEXT_XID_OFFSET 8 = Z.min (xid + 1) (2 ^ 64 - 1) /\ field sb' NX_NEXT_OID_OFFSET 8 = next /\
    field sb' NX_OMAP_OID_OFFSET 8 = default (field sb NX_OMAP_OID_OFFSET 8) omap.
Proof.
  intros g g' Hb Hl Hg Hg' Hx Hn Ho. destruct Hg' as [G1 G2 G3 G4 G5 G6]. 
  change (descriptor_len g') with (maps + 1) in *. change (data_len g') with objects in *.
  change (descriptor_blocks g') with (descriptor_blocks g) in *. change (data_blocks g') with (data_blocks g) in *.
  pose proof (gk_desc_blocks _ Hg) as D1. pose proof (gk_data_blocks _ Hg) as D2.
  assert (descriptor_index g' < 2 ^ 32 /\ data_index g' < 2 ^ 32) as [D3 D4].
  { change (descriptor_index g') with ((descriptor_index g + descriptor_len g) mod descriptor_blocks g).
    change (data_index g') with ((data_index g + data_len g) mod data_blocks g).
    pose proof (Z.mod_pos_bound (descriptor_index g + descriptor_len g) (descriptor_blocks g) ltac:(lia)).
    pose proof (Z.mod_pos_bound (data_index g + data_len g) (data_blocks g) ltac:(lia)). lia. }
  pose proof (Z.mod_pos_bound (descriptor_index g' + (maps + 1)) (descriptor_blocks g) ltac:(lia)) as M1.
  pose proof (Z.mod_pos_bound (data_index g' + objects) (data_blocks g) ltac:(lia)) as M2.
  unfold new_superblock, saturating_add. rewrite !wrap_small by (unfold in_range; lia).
  offsets. do 6 (rewrite put_u32_eq by range; cbn [res_bind]). do 2 (rewrite put_u64_eq by range; cbn [res_bind]).
  set (sb1 := put (put _ 0x60 _) 0x58 _). assert (zlen sb1 = zlen sb) as L1 by (unfold sb1; range).
  assert (is_bytes sb1) as B1 by (unfold sb1; repeat apply is_bytes_put; try apply is_bytes_le_bytes; done).
  unfold in_range in *.
  assert (exists sb', match omap with Some o => put_u64 (E := E) sb1 0xA0 o | None => Ok sb1 end = Ok sb' /\ zlen sb' = zlen sb /\
    is_bytes sb' /\ (forall lo m, 0 <= lo -> 0 <= m -> lo + m <= 0xA0 -> field sb' lo m = field sb1 lo m) /\
    field sb' 0xA0 8 = default (field sb1 0xA0 8) omap) as (sb' & E' & L' & B' & Fb & Fo).
  { destruct omap as [o|]; [|by exists sb1]. rewrite put_u64_eq by lia. eexists. split; [reflexivity|].
    split_and!; [range|apply is_bytes_put; [done|apply is_bytes_le_bytes]|intros; by rewrite field_put_below by range|].
    unfold field at 1. rewrite get_put_same by range. rewrite le_val_field; [done|]. exact (Ho o eq_refl). }
  exists sb'. split; [exact E'|]. split; [done|]. split; [done|]. rewrite Fo. split_and!.
  - unfold geometry_of. offsets. rewrite !Fb by lia. unfold sb1. by fields.
  - rewrite Fb by lia. unfold sb1. by fields.
  - rewrite Fb by lia. unfold sb1. by fields.
  - rewrite Fb by lia. unfold sb1. by fields.
  - f_equal. unfold sb1. by fields.
Qed.

Lemma window_shift base blocks index n lo len :
  blocks <> 0 -> window base blocks ((index + n) mod blocks) lo len = window base blocks index (n + lo) len.
Proof.
  intros Hb. unfold window. rewrite <- (fmap_add_seqZ n lo len). rewrite <- list_fmap_compose. apply map_ext. intros k. cbn.
  by apply ring_slot_shift.
Qed.

Lemma window_app base blocks index lo a b :
  0 <= a -> 0 <= b -> window base blocks index lo (a + b) = window base blocks index lo a ++ window base blocks index (lo + a) b.
Proof. intros. unfold window. rewrite seqZ_app by lia. apply map_app. Qed.

Lemma zlen_window base blocks index lo len : 0 <= len -> zlen (window base blocks index lo len) = len.
Proof. intros. unfold window, zlen. rewrite length_map, length_seqZ. lia. Qed.

Definition ceil_div (x n : Z) : Z := if x mod n =? 0 then x / n else x / n + 1.

Lemma ceil_div_step x n : 0 < n -> n <= x -> ceil_div x n = 1 + ceil_div (x - n) n.
Proof.
  intros Hn Hx. pose proof (Z.mod_add (x - n) 1 n ltac:(lia)) as M. pose proof (Z.div_add (x - n) 1 n ltac:(lia)) as Q.
  replace (x - n + 1 * n) with x in M, Q by lia. unfold ceil_div. rewrite M, Q. destruct (_ =? 0); lia.
Qed.

Lemma ceil_div_small x n : 0 < x <= n -> ceil_div x n = 1.
Proof.
  intros Hx. unfold ceil_div. destruct (decide (x = n)) as [->|].
  - rewrite Z.mod_same, Z.div_same by lia. done.
  - rewrite Z.mod_small, Z.div_small by lia. by rewrite (proj2 (Z.eqb_neq _ _)) by lia.
Qed.

Lemma zlen_slice_chunks {A} (n : Z) (l : list A) :
  1 <= n -> zlen (slice_chunks n l) = if decide (l = []) then 0 else ceil_div (zlen l) n.
Proof.
  intros Hn. induction l as [|xs Hx IH] using (slice_chunks_ind n Hn); [done|]. rewrite slice_chunks_step by done.
  rewrite zlen_cons, IH. rewrite (decide_False (P := xs = [])) by done.
  assert (1 <= zlen xs) by (pose proof (zlen_nonneg xs); destruct (decide (zlen xs = 0)) as [E%zlen_zero|]; [done|lia]).
  case_decide as E.
  - assert (zlen xs <= n) by (pose proof (zlen_zdrop n xs) as Z; rewrite E in Z; change (zlen (@nil A)) with 0 in Z; lia).
    by rewrite ceil_div_small by lia.
  - assert (n < zlen xs) by (destruct (decide (n < zlen xs)); [done|]; destruct E; apply zdrop_all; lia).
    rewrite (ceil_div_step (zlen xs)) by lia. rewrite zlen_zdrop. replace (Z.max 0 (zlen xs - Z.max 0 n)) with (zlen xs - n) by lia. lia.
Qed.

(** The number of map blocks for [n] objects. *)
Definition capacity (size : Z) : Z := (size - 40) / 40.
Definition map_blocks (size n : Z) : Z := if n =? 0 then 1 else ceil_div n (capacity size).

Lemma ceil_div_pos x n : 0 < n -> 0 < x -> 1 <= ceil_div x n.
Proof.
  intros Hn Hx. unfold ceil_div. pose proof (Z.div_mod x n ltac:(lia)). pose proof (Z.mod_pos_bound x n Hn).
  destruct (Z.eqb_spec (x mod n) 0); [|pose proof (Z.div_pos x n ltac:(lia) Hn); lia]. nia.
Qed.

Lemma capacity_facts size : SB_MIN <= size -> 1 <= capacity size /\ 40 + capacity size * 40 <= size.
Proof.
  intros Hsz. unfold capacity. offsets. pose proof (Z.div_mod (size - 40) 40 ltac:(lia)).
  pose proof (Z.mod_pos_bound (size - 40) 40 ltac:(lia)). lia.
Qed.

Lemma moved_typed (es : list EphemeralObject) size ps :
  Forall entry_typed es -> Forall (fun p => 0 <= p < 2 ^ 64) ps -> u32 size ->
  Forall (fun x => entry_typed x.1 /\ u32 x.2) (zip (moved es ps) (replicate (length es) size)).
Proof.
  intros He Hp Hu. revert ps Hp. induction He as [|e es [T1 T2 T3 T4] _ IH]; intros ps Hp; [constructor|].
  destruct Hp as [|p ps Hp Hps]; [constructor|]. cbn [moved zip_with length replicate]. constructor; [|by apply IH].
  cbn [fst snd]. split; [by constructor|done].
Qed.

Lemma length_moved (es : list EphemeralObject) ps : length ps = length es -> length (moved es ps) = length es.
Proof. intros E. unfold moved. rewrite length_zip_with. lia. Qed.

Lemma kept_forall2 {A} (P : A -> bytes -> Prop) (ps : list Z) (xs : list A) keep s1 s2 :
  kept keep s1 s2 -> Forall (fun p => 0 <= p < block_count s1 /\ keep p) ps ->
  Forall2 (fun p x => P x (block_at s1 p)) ps xs -> Forall2 (fun p x => P x (block_at s2 p)) ps xs.
Proof.
  intros Hk Hp HF. revert Hp. induction HF as [|p x ps xs Hx _ IH]; intros Hp; [constructor|].
  apply Forall_cons in Hp as [[Hr Hkp] Hp]. constructor; [by rewrite Hk|by apply IH].
Qed.

Lemma window_range base blocks index lo len limit :
  0 <= base -> 0 < blocks -> base + blocks <= limit ->
  Forall (fun p => base <= p < base + blocks /\ 0 <= p < limit) (window base blocks index lo len).
Proof.
  intros H1 H2 H3. apply Forall_forall. intros p (k & _ & ->)%window_elem. pose proof (ring_slot_range base blocks index k H2). lia.
Qed.

Section Append2.
Context s (old xid : Z) (l : list EphemeralObject) (pub : CheckpointPublish).
Let sb := block_at s old.
Let g := geometry_of sb.
Let n := zlen l.
Let maps := map_blocks (block_size s) n.
Definition new_descriptors : list Z :=
  window (descriptor_base (geometry_of (block_at s old))) (descriptor_blocks (geometry_of (block_at s old)))
    (descriptor_index (geometry_of (block_at s old))) (descriptor_len (geometry_of (block_at s old))) (map_blocks (block_size s) (zlen l) + 1).
Definition new_data : list Z :=
  window (data_base (geometry_of (block_at s old))) (data_blocks (geometry_of (block_at s old)))
    (data_index (geometry_of (block_at s old))) (data_len (geometry_of (block_at s old))) (zlen l).
Context (Hs : session_ok s) (Hz : SB_MIN <= block_size s < 2 ^ 32) (Hold : 0 <= old < block_count s).
Context (Ha : append_args xid l pub) (Hg : geometry_ok g -> rings_ok (block_count s) g).

(** The block a new superblock is. *)
Record superblock_for (b : bytes) : Prop := {
  sf_geometry : geometry_of b = advanced g maps n;
  sf_magic : field b NX_MAGIC_OFFSET 4 = NX_MAGIC;
  sf_xid : field b XID_OFFSET 8 = xid;
  sf_type : Z.land (field b TYPE_OFFSET 4) OBJ_TYPE_MASK = TYPE_NX_SUPERBLOCK;
  sf_oid : field b OID_OFFSET 8 = field sb OID_OFFSET 8;
  sf_next_xid : field b NX_NEXT_XID_OFFSET 8 = Z.min (xid + 1) (2 ^ 64 - 1);
  sf_next_oid : field sb NX_NEXT_OID_OFFSET 8 <= field b NX_NEXT_OID_OFFSET 8;
  sf_omap : field b NX_OMAP_OID_OFFSET 8 = default (field sb NX_OMAP_OID_OFFSET 8) (omap_oid pub);
  sf_valid : block_size s mod 4 = 0 -> fletcher64_valid b = true;
}.

(** What a successful append leaves on the disc. *)
Record appended (ac : AppendedCheckpoint) s' : Prop := {
  ap_magic : field sb NX_MAGIC_OFFSET 4 = NX_MAGIC;
  ap_geometry : geometry_ok g;
  ap_desc_room : maps + 1 + descriptor_len g <= descriptor_blocks g;
  ap_data_room : n + data_len g <= data_blocks g;
  ap_paddr : superblock_paddr ac = ring_slot (descriptor_base g) (descriptor_blocks g) (descriptor_index g) (descriptor_len g + maps);
  ap_objects : ephemeral_objects ac = moved l new_data;
  ap_bodies : Forall2 (fun p e => body_for (block_size s) xid e (block_at s' p)) new_data l;
  ap_maps : exists chunks, concat chunks = zip (moved l new_data) (replicate (length l) (block_size s)) /\
    Forall (fun c => 40 + zlen c * 40 <= block_size s) chunks /\
    Forall2 (fun p c => map_at xid c (block_at s' p))
      (window (descriptor_base g) (descriptor_blocks g) (descriptor_index g) (descriptor_len g) maps) chunks;
  ap_superblock : superblock_for (block_at s' (superblock_paddr ac));
}.

Lemma maps_safe s1 index (rl : list (EphemeralObject * Z)) :
  session_ok s1 -> same_shape s s1 -> rings_ok (block_count s1) g -> u64 xid -> zlen rl = n ->
  Forall (fun x => entry_typed x.1 /\ u32 x.2) rl -> maps <= descriptor_blocks g ->
  let ps := window (descriptor_base g) (descriptor_blocks g) index 0 maps in
  safe (all_but ps) s1
    (do _ <- write_maps g index xid (block_size s) (slice_chunks (Z.max (capacity (block_size s)) 1) rl) 0;
     match rl with
     | [] => do pos <- lift (slot_at (descriptor_base g) (descriptor_blocks g) index 0); write_checkpoint_map pos xid [] (block_size s)
     | _ => lift (Ok tt)
     end)
    (fun _ s' => exists chunks, concat chunks = rl /\ Forall (fun c => 40 + zlen c * 40 <= block_size s) chunks /\
       Forall2 (fun p c => map_at xid c (block_at s' p)) ps chunks).
Proof.
  intros Hs1 (G1 & G2 & G3) Hg1 Hx Hn Ht Hm ps. destruct (capacity_facts (block_size s) (proj1 Hz)) as [C1 C2].
  rewrite Z.max_l by lia. destruct (slice_chunks_spec (capacity (block_size s)) rl C1) as [L1 L2].
  pose proof (zlen_slice_chunks (capacity (block_size s)) rl C1) as L3.
  destruct rl as [|x rl].
  - assert (maps = 1) as Em by (unfold maps, map_blocks; rewrite <- Hn; done).
    unfold ps. rewrite Em. change (slice_chunks (capacity (block_size s)) []) with (@nil (list (EphemeralObject * Z))).
    cbn [write_maps]. apply safe_pure. destruct (rk_desc _ _ Hg1) as [D1 D2]. pose proof (gk_desc_blocks _ (rk_geometry _ _ Hg1)).
    destruct (slot_at_ok (E := CheckpointError) (descriptor_base g) (descriptor_blocks g) index 0 (block_count s1))
      as [-> Hr]; [lia|lia|lia|by apply limit_small|]. apply safe_pure. rewrite <- G2.
    eapply io_safe_weaken; [apply write_map_safe; [done|done|done|lia|constructor|change (zlen []) with 0; offsets; lia]|done|].
    intros a s' Hmap. exists [[]]. split_and!; [done| |].
    + constructor; [|constructor]. change (zlen []) with 0. offsets. lia.
    + constructor; [done|constructor].
  - rewrite decide_False in L3 by done. set (rl' := x :: rl) in *.
    assert (zlen rl' <> 0) as Hnz by (unfold rl'; rewrite zlen_cons; pose proof (zlen_nonneg rl); lia).
    assert (maps = zlen (slice_chunks (capacity (block_size s)) rl')) as Em.
    { rewrite L3, Hn. unfold maps, map_blocks. rewrite <- Hn. by rewrite (proj2 (Z.eqb_neq _ _)) by done. }
    rewrite <- G2 in *. eapply (io_safe_bind _ _ (all_but ps) everything).
    + unfold ps. rewrite Em. apply write_maps_safe; [done|done|done|lia| |lia|lia].
      apply Forall_forall. intros c Hc. rewrite Forall_forall in L2. specialize (L2 c Hc). split; [|lia].
      apply Forall_forall. intros y Hy. rewrite Forall_forall in Ht. apply Ht. rewrite <- L1.
      apply list_elem_of_In, in_concat. exists c. split; by apply list_elem_of_In.
    + done.
    + intros [] s2 Hs2 (I1 & I2 & I3) _ HF. apply safe_ok; [done|]. eexists. split_and!; [exact L1| |].
      * eapply Forall_impl; [exact L2|]. intros c Hc. cbv beta in Hc. lia.
      * unfold ps. rewrite Em. exact HF.
Qed.

Lemma n_nonneg : 0 <= n.
Proof. apply zlen_nonneg. Qed.

Lemma maps_pos : 1 <= maps.
Proof.
  unfold maps, map_blocks. pose proof n_nonneg. destruct (Z.eqb_spec n 0); [lia|]. apply ceil_div_pos; [|lia].
  destruct (capacity_facts (block_size s) (proj1 Hz)); lia.
Qed.

(** The blocks an append leaves alone: all but the new windows, and all
    when it finds no room or no geometry. *)
Definition untouched (q : Z) : Prop :=
  geometry_ok g -> maps + 1 + descriptor_len g <= descriptor_blocks g -> n + data_len g <= data_blocks g ->
  q ∉ new_descriptors ++ new_data.

Lemma zlen_mapped : zlen (zip (moved l new_data) (replicate (length l) (block_size s))) = n.
Proof.
  assert (length new_data = length l) as Ln
    by (apply Nat2Z.inj; change (zlen new_data = zlen l); unfold new_data; rewrite zlen_window; [done|apply zlen_nonneg]).
  unfold zlen. rewrite length_zip_with, length_replicate, length_moved by done. unfold n, zlen. lia.
Qed.

(** Where an append writes: [mps] the maps, [sbp] the superblock. *)
Record places (mps : list Z) (sbp : Z) : Prop := {
  pl_descriptors : new_descriptors = mps ++ [sbp];
  pl_fresh : sbp ∉ mps;
  pl_maps : Forall (fun p => descriptor_base g <= p < descriptor_base g + descriptor_blocks g /\ 0 <= p < block_count s) mps;
  pl_superblock : descriptor_base g <= sbp < descriptor_base g + descriptor_blocks g /\ 0 <= sbp < block_count s;
  pl_data : Forall (fun p => 0 <= p < block_count s /\ p ∉ mps /\ p <> sbp) new_data;
}.

Lemma new_places :
  rings_ok (block_count s) g -> maps + 1 + descriptor_len g <= descriptor_blocks g -> n + data_len g <= data_blocks g ->
  places (window (descriptor_base g) (descriptor_blocks g) (descriptor_index g) (descriptor_len g) maps)
    (ring_slot (descriptor_base g) (descriptor_blocks g) (descriptor_index g) (descriptor_len g + maps)).
Proof.
  intros [Hgk [K1 K2] [K3 K4] K5] T1 T2. pose proof maps_pos as Nm. pose proof n_nonneg as Nn.
  destruct Hgk as [D1 D2 D3 D4 _ _].
  pose proof (window_range (descriptor_base g) (descriptor_blocks g) (descriptor_index g) (descriptor_len g) maps (block_count s) ltac:(lia) ltac:(lia) ltac:(lia)) as Rm.
  pose proof (ring_slot_range (descriptor_base g) (descriptor_blocks g) (descriptor_index g) (descriptor_len g + maps) ltac:(lia)) as Rs.
  constructor; [|..|done|lia|].
  - unfold new_descriptors. fold sb g n maps. by rewrite window_app by lia.
  - intros (k & Hk & E)%window_elem. apply ring_slot_inj in E; lia.
  - eapply Forall_impl; [exact (window_range (data_base g) (data_blocks g) (data_index g) (data_len g) n (block_count s) ltac:(lia) ltac:(lia) ltac:(lia))|].
    cbv beta. intros p Hp. split_and!; [lia..| |lia]. intros Hin. rewrite Forall_forall in Rm. specialize (Rm p Hin). cbv beta in Rm. lia.
Qed.

(** The superblock stage. *)
Lemma superblock_safe s4 next sbp rl :
  session_ok s4 -> same_shape s s4 -> geometry_ok g -> geometry_ok (advanced g maps n) -> 0 <= sbp < block_count s ->
  field sb NX_MAGIC_OFFSET 4 = NX_MAGIC -> Z.land (field sb TYPE_OFFSET 4) OBJ_TYPE_MASK = TYPE_NX_SUPERBLOCK ->
  field sb NX_NEXT_OID_OFFSET 8 <= next < 2 ^ 64 ->
  safe (all_but [sbp]) s4
    (do sb' <- lift (new_superblock sb g (descriptor_index (advanced g maps n)) (maps + 1) (data_index (advanced g maps n)) n xid next (omap_oid pub));
     do body <- lift (slice sb' OBJ_PHYS_BYTES (zlen sb'));
     do _ <- io_map_err CpWrite (write_object sbp (field sb OID_OFFSET 8) xid (field sb TYPE_OFFSET 4) (field sb SUBTYPE_OFFSET 4) body);
     lift (Ok {| superblock_paddr := sbp; ephemeral_objects := rl |}))
    (fun ac s5 => ac = {| superblock_paddr := sbp; ephemeral_objects := rl |} /\ superblock_for (block_at s5 sbp)).
Proof.
  intros Hs4 (M1 & M2 & M3) Hgk Hadv Rsb E1 E2 Hnext.
  pose proof (zlen_block_at s old Hs) as Lsb. pose proof (is_bytes_block_at s old Hs) as Bsb. fold sb in Lsb, Bsb.
  pose proof (field_u64 sb NX_NEXT_OID_OFFSET Bsb ltac:(offsets; lia) ltac:(offsets; lia)) as Un.
  destruct (new_superblock_ok (E := CheckpointError) sb maps n xid next (omap_oid pub) Bsb ltac:(lia) Hgk Hadv (aa_xid _ _ _ Ha))
    as (sb' & Esb & Lsb' & Bsb' & Q1 & Q2 & Q3 & Q4 & Q5); [unfold in_range in *; lia|apply (aa_omap _ _ _ Ha)|].
  fold g in Esb, Q1. rewrite Esb. apply safe_pure. rewrite slice_ok by (offsets; lia). apply safe_pure.
  set (body := ztake _ _). assert (body = get sb' 32 (block_size s - 32)) as Ebody by (unfold body, get; offsets; by rewrite Lsb', Lsb).
  assert (zlen body = block_size s - 32) as Lbody by (rewrite Ebody, zlen_get; offsets; lia).
  eapply (io_safe_bind _ _ (all_but [sbp]) everything).
  { apply safe_map_err, safe_write_object; [done|done|lia| |apply (aa_xid _ _ _ Ha)|..|rewrite Ebody; by apply is_bytes_get|rewrite Lbody; offsets; lia].
    - apply field_u64; [done|offsets; lia..].
    - apply field_u32; [done|offsets; lia..].
    - apply field_u32; [done|offsets; lia..]. }
  { done. }
  cbv zeta. intros [] s5 Hs5 Sh5 Kp5 (W1 & W2 & W3 & W4 & W5 & W6). apply safe_ok; [done|]. split; [done|].
  set (b := block_at s5 sbp) in *. rewrite Lbody, Ebody in W5.
  assert (forall lo m, 32 <= lo -> 0 <= m -> lo + m <= block_size s -> field b lo m = field sb' lo m) as Fsh.
  { intros lo m ? ? ?. pose proof (f_equal (fun x => get x (lo - 32) m) W5) as E. cbv beta in E. offsets.
    rewrite !get_get in E by lia. replace (32 + (lo - 32)) with lo in E by lia. unfold field. by rewrite E. }
  unfold geometry_of in Q1. constructor; unfold geometry_of; offsets; rewrite ?Fsh by lia.
  all: try done; try congruence; try lia.
  intros H4. apply W6. by rewrite M2.
Qed.

Lemma append_safe : safe untouched s (append_with old xid l pub) appended.
Proof.
  pose proof (zlen_block_at s old Hs) as Lsb. pose proof (is_bytes_block_at s old Hs) as Bsb. fold sb in Lsb, Bsb.
  pose proof n_nonneg as Nn. pose proof maps_pos as Nm. destruct (capacity_facts (block_size s) (proj1 Hz)) as [C1 C2].
  intros s' r. unfold append_with. cbv zeta. revert s' r.
  match goal with |- forall s' r, ?m s = _ -> _ => change (safe untouched s m appended) end.
  eapply (io_safe_bind _ _ everything); [by apply io_safe_read|done|]. intros b s1 Hs1 Sh1 _ ->. fold sb. pose proof Sh1 as (G1 & G2 & G3).
  eapply (io_safe_bind _ _ everything).
  { rewrite <- G2. apply prepare_safe; [done|lia|done|lia|done|]. fold g. by rewrite G3. }
  { done. }
  intros [[[g0 next] sizes] bodies] s2 Hs2 Sh2 _ Hp. pose proof (same_shape_trans _ _ _ Sh1 Sh2) as Sh02. pose proof Sh02 as (I1 & I2 & I3).
  rewrite G2 in Hp. destruct Hp as (E1 & E2 & -> & Hgk & Hnext & -> & HB). fold g in Hgk. fold g. specialize (Hg Hgk).
  rewrite (u64_field sb OID_OFFSET), (u32_field sb TYPE_OFFSET), (u32_field sb SUBTYPE_OFFSET) by (offsets; lia). do 3 apply safe_pure.
  unfold checked_sub. rewrite (proj2 (Z.leb_le _ _)) by (offsets; lia). cbn [or_panic]. apply safe_pure.
  change ((block_size s - CPM_ENTRIES_OFFSET) / CPM_ENTRY_BYTES) with (capacity (block_size s)).
  assert (match l with [] => Ok 1 | _ :: _ => div_ceil (E := CheckpointError) (zlen l) (capacity (block_size s)) end = Ok maps) as ->.
  { unfold maps, map_blocks, n. destruct l as [|e l']; [done|]. unfold div_ceil. rewrite (proj2 (Z.eqb_neq (capacity _) 0)) by lia.
    rewrite (proj2 (Z.eqb_neq (zlen _) 0)) by (rewrite zlen_cons; pose proof (zlen_nonneg l'); lia). done. }
  apply safe_pure.
  destruct (descriptor_blocks g <? maps + 1 + descriptor_len g) eqn:T1; bools; [eapply io_safe_weaken; [by apply safe_err|done|done]|].
  fold n. destruct (data_blocks g <? n + data_len g) eqn:T2; bools; [eapply io_safe_weaken; [by apply safe_err|done|done]|].
  destruct (new_places Hg ltac:(lia) ltac:(lia)) as [End Nsb Rm Rsb Rt].
  pose proof (gk_desc_blocks _ Hgk) as D1. pose proof (gk_data_blocks _ Hgk) as D2. pose proof (gk_desc_len _ Hgk) as D3.
  pose proof (gk_data_len _ Hgk) as D4. destruct (rk_desc _ _ Hg) as [K1 K2]. destruct (rk_data _ _ Hg) as [K3 K4].
  pose proof (limit_small s Hs) as Lim.
  set (di := (descriptor_index g + descriptor_len g) mod descriptor_blocks g). set (ti := (data_index g + data_len g) mod data_blocks g).
  assert (window (data_base g) (data_blocks g) ti 0 n = new_data) as Et
    by (unfold ti, new_data; fold sb g n; rewrite window_shift by lia; f_equal; lia).
  assert (window (descriptor_base g) (descriptor_blocks g) di 0 maps =
    window (descriptor_base g) (descriptor_blocks g) (descriptor_index g) (descriptor_len g) maps) as Em
    by (unfold di; rewrite window_shift by lia; f_equal; lia).
  assert (ring_slot (descriptor_base g) (descriptor_blocks g) di maps =
    ring_slot (descriptor_base g) (descriptor_blocks g) (descriptor_index g) (descriptor_len g + maps)) as Esbp by (apply ring_slot_shift; lia).
  set (mps := window _ _ (descriptor_index g) _ _) in *. set (sbp := ring_slot _ _ (descriptor_index g) _) in *.
  (* the objects *)
  eapply (io_safe_bind _ _ (all_but new_data) (all_but (mps ++ [sbp]))).
  { rewrite <- Et. apply relocate_safe with (xid := xid); [done|by rewrite I3|by rewrite I2|lia|fold n; lia]. }
  { intros q Hq. specialize (Hq Hgk ltac:(lia) ltac:(lia)). rewrite End in Hq. unfold all_but. rewrite !not_elem_of_app in *. naive_solver. }
  fold n. intros rl s3 Hs3 Sh3 _ [-> HF3]. rewrite Et in *. pose proof (same_shape_trans _ _ _ Sh02 Sh3) as Sh03. pose proof Sh03 as (J1 & J2 & J3).
  assert (Forall2 (fun p e => body_for (block_size s) xid e (block_at s3 p)) new_data l) as HF3'.
  { clear - HB HF3. revert HF3. generalize new_data. induction HB as [|e b l' bs Hb _ IH]; intros ps HF3; inversion HF3; subst; constructor; auto. }
  (* the maps *)
  apply safe_assoc. eapply (io_safe_bind _ _ (all_but mps) (all_but [sbp])).
  { rewrite <- Em. apply maps_safe; [done|done|by rewrite J3|apply (aa_xid _ _ _ Ha)|apply zlen_mapped| |lia].
    apply moved_typed; [apply (aa_entries _ _ _ Ha)| |unfold in_range; offsets; lia].
    eapply Forall_impl; [exact Rt|]. intros p (Hp & _). lia. }
  { intros q Hq. unfold all_but in *. by rewrite not_elem_of_app in Hq. }
  intros [] s4 Hs4 Sh4 Kp4 (chunks & Hch & Hcap & HF4). pose proof (same_shape_trans _ _ _ Sh03 Sh4) as Sh04. pose proof Sh04 as (M1 & M2 & M3).
  (* the superblock *)
  destruct (slot_at_ok (E := CheckpointError) (descriptor_base g) (descriptor_blocks g) di maps (block_count s)) as [-> _]; [lia..|].
  apply safe_pure. rewrite Esbp.
  pose proof (advanced_ok g maps n Hgk ltac:(lia) Nn ltac:(lia) ltac:(lia)) as Hadv.
  intros s5 r R. destruct (superblock_safe s4 next sbp (moved l new_data) Hs4 Sh04 Hgk Hadv ltac:(lia) E1 E2 Hnext s5 r R)
    as (X1 & X2 & Kp5 & X4 & X5). split_and!; [done..|]. intros ac Hac. destruct (X5 ac Hac) as [-> Hsb].
  rewrite Em in HF4. constructor; [done|done|lia|lia|done|done| | |done].
  - eapply kept_forall2; [exact Kp5| |eapply kept_forall2; [exact Kp4| |exact HF3']]; (eapply Forall_impl; [exact Rt|]); cbv beta.
    + intros p (Hp & _ & Hp'). split; [lia|]. by intros ->%list_elem_of_singleton.
    + intros p (Hp & Hp' & _). split; [lia|done].
  - exists chunks. split_and!; [done|done|]. refine (kept_forall2 (fun c b => map_at xid c b) mps chunks _ s4 s5 Kp5 _ HF4).
    apply Forall_forall. intros p Hin. rewrite Forall_forall in Rm. specialize (Rm p Hin). cbv beta in Rm. split; [lia|].
    by intros ->%list_elem_of_singleton.
Qed.
End Append2.

(** ** Reading a checkpoint back *)

(** The block at an object's address is that object. *)
Record object_at s (e : EphemeralObject) : Prop := {
  oa_range : 0 <= paddr e < block_count s;
  oa_oid : field (block_at s (paddr e)) OID_OFFSET 8 = oid e;
  oa_type : field (block_at s (paddr e)) TYPE_OFFSET 4 = o_type e;
  oa_subtype : field (block_at s (paddr e)) SUBTYPE_OFFSET 4 = subtype e;
}.

(** Read-only code keeps its state's blocks. *)
Lemma kept_all s s1 q : kept everything s s1 -> 0 <= q < block_count s -> block_at s1 q = block_at s q.
Proof. intros Hk Hq. by apply Hk. Qed.

Lemma object_at_kept s s1 e : same_shape s s1 -> kept everything s s1 -> object_at s e -> object_at s1 e.
Proof.
  intros (_ & _ & E) Hk [O1 O2 O3 O4]. pose proof (kept_all _ _ _ Hk O1) as Eb. constructor; rewrite ?Eb; [lia|done..].
Qed.

Lemma collect_entries_safe map (chunk : list (EphemeralObject * Z)) (n : nat) : forall s index,
  session_ok s -> SB_MIN <= block_size s -> zlen map = block_size s ->
  (forall (j : nat) e k, chunk !! j = Some (e, k) -> entry_stored map 40 (index + Z.of_nat j) e k) ->
  Forall (fun x => object_at s x.1) chunk -> 0 <= index -> 40 + (index + zlen chunk) * 40 <= block_size s -> length chunk = n ->
  sure everything s (collect_entries (block_size s) map n index) (fun r _ => r = chunk.*1).
Proof.
  revert chunk. induction n as [|n IH]; intros chunk s index Hs Hz Hm He Ho Hi Hl Hn.
  { destruct chunk; [|done]. by apply safe_ok. }
  destruct chunk as [|[e k] chunk]; [done|]. injection Hn as Hn. apply Forall_cons in Ho as [Ho Hos]. cbn [fst] in Ho.
  rewrite zlen_cons in Hl. pose proof (zlen_nonneg chunk). pose proof (He 0%nat e k eq_refl) as (F1 & F2 & _ & F4 & F5).
  rewrite Z.add_0_r in *. cbn [collect_entries]. unfold collect_entry, entry_pos. offsets.
  apply io_safe_weaken with (keep := everything) (Q := fun r (_ : RepairSession D) => r = e :: chunk.*1); [|done|done].
  eapply (io_safe_bind _ everything everything everything _ _ _ (fun x (_ : RepairSession D) => x = e)); [|done|].
  - rewrite !u32_field, !u64_field by lia. rewrite F1, F2, F4, F5. do 4 apply safe_pure.
    eapply (io_safe_bind _ everything everything everything); [apply io_safe_read; [by eexists|done|apply (oa_range _ _ Ho)]|done|].
    intros b s1 Hs1 Sh1 Hk1 ->. pose proof (zlen_block_at s (paddr e) Hs) as Lb. rewrite !u64_field, !u32_field by lia. do 3 apply safe_pure.
    destruct Ho as [O1 O2 O3 O4]. offsets. rewrite O2, O3, O4, !Z.eqb_refl. cbn [negb orb]. apply safe_ok; [done|]. by destruct e.
  - intros x s1 Hs1 Sh1 Hk1 ->. pose proof Sh1 as (G1 & G2 & G3). rewrite <- G2.
    eapply (io_safe_bind _ everything everything everything); [apply (IH chunk s1 (index + 1)); try done; try lia|done|].
    + intros j e' k' Hj. specialize (He (S j) e' k' Hj). by replace (index + 1 + Z.of_nat j) with (index + Z.of_nat (S j)) by lia.
    + eapply Forall_impl; [exact Hos|]. intros x. by apply object_at_kept.
    + intros r s2 Hs2 _ _ ->. by apply safe_ok.
Qed.

Lemma map_at_type xid chunk b : map_at xid chunk b -> Z.land (field b TYPE_OFFSET 4) OBJ_TYPE_MASK = TYPE_CHECKPOINT_MAP.
Proof. intros [-> _ _ _ _]. reflexivity. Qed.

Lemma collect_slots_safe g xid (chunks : list (list (EphemeralObject * Z))) : forall s slot,
  session_ok s -> SB_MIN <= block_size s -> rings_ok (block_count s) g ->
  Forall (fun c => 40 + zlen c * 40 <= block_size s) chunks -> Forall (Forall (fun x => object_at s x.1)) chunks ->
  Forall2 (fun p c => map_at xid c (block_at s p))
    (window (descriptor_base g) (descriptor_blocks g) (descriptor_index g) slot (zlen chunks)) chunks ->
  Z.land (field (block_at s (ring_slot (descriptor_base g) (descriptor_blocks g) (descriptor_index g) (slot + zlen chunks))) TYPE_OFFSET 4)
    OBJ_TYPE_MASK = TYPE_NX_SUPERBLOCK ->
  sure everything s (collect_slots (block_size s) g (S (length chunks)) slot) (fun r _ => r = (concat chunks).*1).
Proof.
  induction chunks as [|c cs IH]; intros s slot Hs Hz Hg Hcap Ho HF Hlast;
    destruct (rk_desc _ _ Hg) as [D1 D2]; pose proof (gk_desc_blocks _ (rk_geometry _ _ Hg)); cbn [collect_slots length];
    (destruct (slot_at_ok (E := CheckpointError) (descriptor_base g) (descriptor_blocks g) (descriptor_index g) slot (block_count s))
      as [-> Hr]; [lia|lia|lia|by apply limit_small|]); apply safe_pure;
    (eapply (io_safe_bind _ everything everything everything); [apply io_safe_read; [by eexists|done|done]|done|]); intros b s1 Hs1 Sh1 Hk1 ->;
    pose proof Sh1 as (G1 & G2 & G3);
    pose proof (zlen_block_at s (ring_slot (descriptor_base g) (descriptor_blocks g) (descriptor_index g) slot) Hs) as Lb;
    rewrite is_map_ok by (offsets; lia); apply safe_pure.
  - change (zlen []) with 0 in Hlast. rewrite Z.add_0_r in Hlast. rewrite Hlast. change (TYPE_NX_SUPERBLOCK =? TYPE_CHECKPOINT_MAP) with false.
    apply safe_pure, safe_pure. by apply safe_ok.
  - rewrite zlen_cons in *. pose proof (zlen_nonneg cs). rewrite window_cons in HF by lia.
    replace (zlen cs + 1 - 1) with (zlen cs) in HF by lia. inversion HF as [|p c' ps cs' Hmap HF']. subst.
    apply Forall_cons in Hcap as [Hc Hcap], Ho as [Hoc Ho]. rewrite (map_at_type _ _ _ Hmap). change (TYPE_CHECKPOINT_MAP =? TYPE_CHECKPOINT_MAP) with true.
    set (b := block_at s (ring_slot _ _ _ slot)) in *. pose proof (is_bytes_block_at s (ring_slot (descriptor_base g) (descriptor_blocks g) (descriptor_index g) slot) Hs) as Bb. fold b in Bb.
    destruct (map_count_ok (block_size s) b Bb Lb Hz) as (_ & _ & Emc). rewrite (mt_count _ _ _ Hmap) in Emc. rewrite Emc by lia. rewrite bind_ok.
    assert (Z.to_nat (zlen c) = length c) as -> by (unfold zlen; lia). rewrite <- G2.
    eapply (io_safe_bind _ everything everything everything).
    { apply (collect_entries_safe b c (length c) s1 0); [done|lia|lia| | |lia|lia|done].
      - intros j e k Hj. rewrite Z.add_0_l. apply (mt_entries _ _ _ Hmap j e k Hj).
      - eapply Forall_impl; [exact Hoc|]. intros x. by apply object_at_kept. }
    { done. }
    intros r s2 Hs2 Sh2 Hk2 ->. pose proof Sh2 as (I1 & I2 & I3).
    assert (kept everything s s2) as Hk02 by (intros q Hq _; rewrite Hk2, Hk1; [done|done|done|lia|done]).
    pose proof (same_shape_trans _ _ _ Sh1 Sh2) as Sh02. rewrite <- I2.
    assert (forall k, block_at s2 (ring_slot (descriptor_base g) (descriptor_blocks g) (descriptor_index g) k) =
      block_at s (ring_slot (descriptor_base g) (descriptor_blocks g) (descriptor_index g) k)) as Eb.
    { intros k. apply kept_all; [done|]. pose proof (ring_slot_range (descriptor_base g) (descriptor_blocks g) (descriptor_index g) k ltac:(lia)). lia. }
    eapply (io_safe_bind _ everything everything everything); [apply (IH s2 (slot + 1))|done|].
    + done.
    + lia.
    + by rewrite I3, G3.
    + eapply Forall_impl; [exact Hcap|]. intros x Hx. cbv beta in Hx. lia.
    + eapply Forall_impl; [exact Ho|]. intros x Hx. eapply Forall_impl; [exact Hx|]. intros y. by apply object_at_kept.
    + clear - HF' Eb. unfold window in *. revert HF'. generalize cs at 2 4. intros cs2. generalize (seqZ (slot + 1) (zlen cs)).
      intros ks HF. remember (map _ ks) as ps eqn:Ep. revert ks Ep. induction HF as [|p c ps cs2 Hp _ IH]; intros ks Ep; [constructor|].
      destruct ks as [|k ks]; [done|]. injection Ep as -> Ep. constructor; [by rewrite Eb|by eapply IH].
    + rewrite Eb. by replace (slot + 1 + zlen cs) with (slot + (zlen cs + 1)) by lia.
    + intros r s3 Hs3 _ _ ->. apply safe_ok; [done|]. cbn [concat]. by rewrite fmap_app.
Qed.

Lemma moved_objects s size xid l ps :
  Forall (fun p => 0 <= p < block_count s) ps ->
  Forall2 (fun p e => body_for size xid e (block_at s p)) ps l -> Forall (object_at s) (moved l ps).
Proof.
  intros Hp HF. revert Hp. induction HF as [|p e ps l [B1 B2 B3 B4 B5 B6 B7] _ IH]; intros Hp; [constructor|].
  apply Forall_cons in Hp as [Hp Hps]. cbn [moved zip_with]. constructor; [by constructor|by apply IH].
Qed.

Lemma advanced_rings limit g maps objects : rings_ok limit g -> geometry_ok (advanced g maps objects) -> rings_ok limit (advanced g maps objects).
Proof. intros [R1 R2 R3 R4] Hg. by constructor. Qed.

(** The ephemeral objects read back from the new superblock. *)
Lemma appended_collects s old xid l pub ac s' :
  session_ok s -> SB_MIN <= block_size s < 2 ^ 32 ->
  (geometry_ok (geometry_of (block_at s old)) -> rings_ok (block_count s) (geometry_of (block_at s old))) ->
  session_ok s' -> same_shape s s' -> appended s old xid l pub ac s' ->
  sure everything s' (collect_ephemeral_objects (superblock_paddr ac)) (fun r _ => r = ephemeral_objects ac).
Proof.
  intros Hs Hz Hg Hs' (G1 & G2 & G3) [A1 A2 A3 A4 A5 A6 A7 (chunks & C1 & C2 & C3) [S1 S2 S3 S4 _ _ _ _ _]]. specialize (Hg A2).
  set (sb := block_at s old) in *. set (g := geometry_of sb) in *. set (n := zlen l) in *. set (maps := map_blocks (block_size s) n) in *.
  pose proof (zlen_nonneg l) as Nn. fold n in Nn. pose proof (maps_pos s l Hz) as Nm. fold n maps in Nm.
  pose proof (gk_desc_blocks _ A2) as D1. pose proof (gk_data_blocks _ A2) as D2. destruct (rk_desc _ _ Hg) as [K1 K2].
  destruct (rk_data _ _ Hg) as [K3 K4]. set (sbp := superblock_paddr ac) in *. set (g' := advanced g maps n) in *.
  assert (geometry_ok g') as Hg' by (apply advanced_ok; [done|lia..]).
  assert (0 <= sbp < block_count s') as Rsb.
  { rewrite A5. pose proof (ring_slot_range (descriptor_base g) (descriptor_blocks g) (descriptor_index g) (descriptor_len g + maps) ltac:(lia)). lia. }
  pose proof (zlen_block_at s' sbp Hs') as Lb. pose proof (is_bytes_block_at s' sbp Hs') as Bb. set (b := block_at s' sbp) in *.
  assert (zlen chunks = maps) as Lc.
  { apply Forall2_length in C3. apply (f_equal Z.of_nat) in C3. change (zlen (window (descriptor_base g) (descriptor_blocks g) (descriptor_index g) (descriptor_len g) maps) = zlen chunks) in C3.
    rewrite zlen_window in C3 by lia. done. }
  assert (length (moved l (new_data s old l)) = length l) as Lm.
  { assert (zlen (new_data s old l) = zlen l) as Ln by (unfold new_data; by apply zlen_window). apply length_moved. unfold zlen in Ln. lia. }
  assert (Forall (object_at s') (moved l (new_data s old l))) as Ho.
  { eapply moved_objects; [|exact A7]. eapply Forall_impl; [apply (window_range (data_base g) (data_blocks g) (data_index g) (data_len g) n (block_count s)); lia|].
    intros p Hp. cbv beta in Hp. lia. }
  assert ((concat chunks).*1 = ephemeral_objects ac) as Ec.
  { rewrite C1, A6. apply fst_zip. rewrite length_replicate. fold g in Lm. lia. }
  intros s'' r. unfold collect_ephemeral_objects. cbv zeta. revert s'' r.
  match goal with |- forall s'' r, ?m s' = _ -> _ => change (sure everything s' m (fun r _ => r = ephemeral_objects ac)) end.
  eapply (io_safe_bind _ everything everything everything); [apply io_safe_read; [by eexists|done|done]|done|].
  intros b1 s1 Hs1 Sh1 Hk1 ->. fold b. pose proof Sh1 as (I1 & I2 & I3).
  rewrite u32_field by (offsets; lia). apply safe_pure. rewrite S2, Z.eqb_refl. cbn [negb].
  destruct (read_geometry_eq b Bb ltac:(lia)) as (_ & _ & Eg). rewrite S1 in Eg. rewrite Eg by done. apply safe_pure.
  assert (Z.to_nat (descriptor_len g') = S (length chunks)) as -> by (cbn; unfold zlen in Lc; lia). rewrite <- I2, <- Ec.
  assert (forall k, block_at s1 (ring_slot (descriptor_base g') (descriptor_blocks g') (descriptor_index g') k) =
    block_at s' (ring_slot (descriptor_base g) (descriptor_blocks g) (descriptor_index g) (descriptor_len g + k))) as Eb.
  { intros k. change (descriptor_base g') with (descriptor_base g). change (descriptor_blocks g') with (descriptor_blocks g).
    change (descriptor_index g') with ((descriptor_index g + descriptor_len g) mod descriptor_blocks g). rewrite ring_slot_shift by lia.
    apply kept_all; [done|].
    pose proof (ring_slot_range (descriptor_base g) (descriptor_blocks g) (descriptor_index g) (descriptor_len g + k) ltac:(lia)). lia. }
  apply collect_slots_safe with (xid := xid).
  - done.
  - lia.
  - rewrite I3, G3. by apply advanced_rings.
  - eapply Forall_impl; [exact C2|]. intros c Hc. cbv beta in Hc. lia.
  - apply Forall_forall. intros c Hc. apply Forall_forall. intros x Hx. apply (object_at_kept s'); [done|done|].
    rewrite Forall_forall in Ho. apply Ho. rewrite A6 in Ec. rewrite <- Ec. apply list_elem_of_fmap_2.
    apply list_elem_of_In, in_concat. exists c. split; by apply list_elem_of_In.
  - rewrite Lc. unfold window.
    unfold window in C3. rewrite <- (Z.add_0_r (descriptor_len g)) in C3 at 1. rewrite <- (fmap_add_seqZ (descriptor_len g) 0 maps) in C3.
    clear - C3 Eb. revert C3. generalize (seqZ 0 maps). intros ks. generalize chunks. clear chunks.
    induction ks as [|k ks IH]; intros cs HF; inversion HF; subst; constructor; [by rewrite Eb|by apply IH].
  - rewrite Eb, Lc, Z.add_0_l, <- A5. fold b. done.
Qed.
End Append.

(** ** The theorems *)

(** The blocks of the published state in the two rings. *)
Definition published_blocks (g : Geometry) : list Z :=
  window (descriptor_base g) (descriptor_blocks g) (descriptor_index g) 0 (descriptor_len g) ++
  window (data_base g) (data_blocks g) (data_index g) 0 (data_len g).

Definition in_rings (g : Geometry) (q : Z) : Prop :=
  descriptor_base g <= q < descriptor_base g + descriptor_blocks g \/ data_base g <= q < data_base g + data_blocks g.

Section Theorems.
Context {D : Type} `{LawfulImage D}.
Implicit Types s : RepairSession D.

(** Where an append may write there is neither a published block nor a block
    outside the rings. *)
Lemma published_untouched s old l q :
  (geometry_ok (geometry_of (block_at s old)) -> rings_ok (block_count s) (geometry_of (block_at s old))) ->
  SB_MIN <= block_size s < 2 ^ 32 ->
  q ∈ published_blocks (geometry_of (block_at s old)) \/ ~ in_rings (geometry_of (block_at s old)) q ->
  untouched s old l q.
Proof.
  intros Hg Hz Hq Hgk T1 T2. specialize (Hg Hgk). pose proof (maps_pos s l Hz) as Nm. pose proof (zlen_nonneg l).
  unfold new_descriptors, new_data, published_blocks, in_rings in *. set (g := geometry_of (block_at s old)) in *.
  destruct Hgk as [D1 D2 D3 D4 _ _]. destruct Hg as [_ K1 K2 K3]. set (maps := map_blocks _ _) in *.
  assert (forall lo len, q ∈ window (descriptor_base g) (descriptor_blocks g) (descriptor_index g) lo len ->
    descriptor_base g <= q < descriptor_base g + descriptor_blocks g) as Id.
  { intros lo len (k & _ & ->)%window_elem. apply ring_slot_range. lia. }
  assert (forall lo len, q ∈ window (data_base g) (data_blocks g) (data_index g) lo len ->
    data_base g <= q < data_base g + data_blocks g) as It.
  { intros lo len (k & _ & ->)%window_elem. apply ring_slot_range. lia. }
  rewrite !elem_of_app in *. intros [Hin|Hin]; (destruct Hq as [[Hq|Hq]|Hq]; [..|apply Hq; eauto]).
  - revert Hin. apply window_apart; [lia..|exact Hq].
  - apply Id in Hin. apply It in Hq. lia.
  - apply Id in Hq. apply It in Hin. lia.
  - revert Hin. apply window_apart; [lia..|exact Hq].
Qed.

(** C17. Appending a checkpoint never panics and, whatever the backend answers and
    whichever error it ends in, leaves every block of the published checkpoint
    (its maps, its superblock and its data) and every block outside the two
    rings as it was: an interrupted append loses nothing. *)
Theorem append_keeps_published s s' r old xid l pub :
  session_ok s -> SB_MIN <= block_size s < 2 ^ 32 -> 0 <= old < block_count s -> append_args xid l pub ->
  (geometry_ok (geometry_of (block_at s old)) -> rings_ok (block_count s) (geometry_of (block_at s old))) ->
  append_with old xid l pub s = (s', r) ->
  r <> Panic /\ session_ok s' /\ same_shape s s' /\
  forall q, 0 <= q < block_count s ->
    q ∈ published_blocks (geometry_of (block_at s old)) \/ ~ in_rings (geometry_of (block_at s old)) q ->
    block_at s' q = block_at s q.
Proof.
  intros Hs Hz Ho Ha Hg R. destruct (append_safe s old xid l pub Hs Hz Ho Ha Hg s' r R) as (H1 & H2 & H3 & H4 & _).
  split_and!; [by intros ->|done|done|]. intros q Hq Hp. apply H3; [done|]. by apply published_untouched.
Qed.

(** C32. A checkpoint that was appended is complete: its superblock is sealed,
    carries the new transaction and the advanced rings, each object is stored
    restamped and sealed at the address it was moved to, and collecting the
    ephemeral objects from the new superblock gives exactly the objects the
    append reported, unless the backend fails. *)
Theorem append_reads_back s s' s'' r old xid l pub ac :
  session_ok s -> SB_MIN <= block_size s < 2 ^ 32 -> 0 <= old < block_count s -> append_args xid l pub ->
  (geometry_ok (geometry_of (block_at s old)) -> rings_ok (block_count s) (geometry_of (block_at s old))) ->
  append_with old xid l pub s = (s', Ok ac) ->
  collect_ephemeral_objects (superblock_paddr ac) s' = (s'', r) ->
  superblock_for s old xid l pub (block_at s' (superblock_paddr ac)) /\
  ephemeral_objects ac = moved l (new_data s old l) /\
  Forall2 (fun p e => body_for (block_size s) xid e (block_at s' p)) (new_data s old l) l /\
  (r = Ok (ephemeral_objects ac) \/ exists d, r = Err (CpDisc d)).
Proof.
  intros Hs Hz Ho Ha Hg R C. destruct (append_safe s old xid l pub Hs Hz Ho Ha Hg s' _ R) as (H1 & H2 & _ & _ & H5).
  specialize (H5 ac eq_refl). pose proof H5 as [_ _ _ _ _ A6 A7 _ A9]. split_and!; [done..|].
  destruct (appended_collects s old xid l pub ac s' Hs Hz Hg H1 H2 H5 s'' r C) as (_ & _ & _ & Hr & Hok).
  destruct r as [a|e|]; [left; by rewrite (Hok a eq_refl)|right|done]. destruct Hr as [d ->]. by exists d.
Qed.
End Theorems.

(** ** A small container

    Eight blocks of 200 bytes: a descriptor ring of four blocks at 1, wrapped,
    a data ring of three at 5 and one ephemeral object. *)

Definition put_all (b : bytes) (l : list (Z * nat * Z)) : bytes :=
  fold_left (fun b '(pos, n, v) => put b pos (le_bytes n v)) l b.

Definition sample_superblock : bytes := put_all (zeros 200)
  [(8, 8%nat, 1); (16, 8%nat, 5); (0x18, 4%nat, 0x80000001); (0x20, 4%nat, NX_MAGIC); (0x24, 4%nat, 200); (0x58, 8%nat, 1030);
   (0x60, 8%nat, 6); (0x68, 4%nat, 4); (0x6C, 4%nat, 3); (0x70, 8%nat, 1); (0x78, 8%nat, 5);
   (0x88, 4%nat, 3); (0x8C, 4%nat, 2); (0x90, 4%nat, 2); (0x94, 4%nat, 1); (0xA0, 8%nat, 77)].
Definition sample_map : bytes := put_all (zeros 200)
  [(8, 8%nat, 4); (16, 8%nat, 5); (0x18, 4%nat, 0x4000000C); (0x20, 4%nat, 1); (0x24, 4%nat, 1);
   (40, 4%nat, 0x80000005); (44, 4%nat, 0); (48, 4%nat, 200); (64, 8%nat, 1024); (72, 8%nat, 7)].
Definition sample_object : bytes := put_all (zeros 200) [(8, 8%nat, 1024); (16, 8%nat, 5); (0x18, 4%nat, 0x80000005); (0x30, 8%nat, 99)].
Definition sample_container : RepairSession MemoryImage :=
  new_session {| image_bytes := zeros 200 ++ sample_superblock ++ zeros 400 ++ sample_map ++ zeros 400 ++ sample_object |} 0 200 8.
Definition sample_entry : EphemeralObject := {| oid := 1024; o_type := 0x80000005; subtype := 0; paddr := 7 |}.
Definition sample_publish : CheckpointPublish := {| omap_oid := Some 78; next_oid := None; ephemeral_bodies := [] |}.

Lemma sample_container_ok : session_ok sample_container.
Proof. constructor; [apply is_bytes_forallb; vm_compute; reflexivity|by_compute..]. Qed.

Lemma sample_rings :
  rings_ok (block_count sample_container) (geometry_of (block_at sample_container 1)).
Proof.
  assert (geometry_of (block_at sample_container 1) =
    {| g_block_size := 200; descriptor_base := 1; descriptor_blocks := 4; data_base := 5; data_blocks := 3;
       descriptor_index := 3; descriptor_len := 2; data_index := 2; data_len := 1 |}) as -> by (vm_compute; reflexivity).
  constructor; [constructor|..]; cbn; lia.
Qed.

Lemma sample_args : append_args 6 [sample_entry] sample_publish.
Proof.
  constructor; [by_compute| |constructor|done|by intros n [= <-]]. constructor; [|constructor]. constructor; by_compute.
Qed.

Lemma append_keeps_published_witness :
  exists s' ac, append_with 1 6 [sample_entry] sample_publish sample_container = (s', Ok ac) /\
    block_at s' 1 = sample_superblock /\ block_at s' 7 = sample_object.
Proof.
  destruct (append_with 1 6 [sample_entry] sample_publish sample_container) as [s' r] eqn:R.
  assert (r = Ok {| superblock_paddr := 3; ephemeral_objects := [sample_entry <| paddr := 5 |>] |}) as Hr
    by (apply (f_equal snd) in R; vm_compute in R; by rewrite <- R).
  destruct (append_keeps_published sample_container s' r 1 6 [sample_entry] sample_publish sample_container_ok)
    as (_ & _ & _ & Hk); [by_compute|by_compute|exact sample_args|intros _; exact sample_rings|exact R|].
  exists s'. eexists. rewrite Hr. split; [reflexivity|].
  assert (published_blocks (geometry_of (block_at sample_container 1)) = [4; 1; 7]) as Ep by (vm_compute; reflexivity).
  rewrite Ep in Hk. split.
  - rewrite (Hk 1); [vm_compute; reflexivity|by_compute|left; by apply (bool_decide_unpack _)].
  - rewrite (Hk 7); [vm_compute; reflexivity|by_compute|left; by apply (bool_decide_unpack _)].
Defined.

Lemma append_reads_back_witness :
  exists s' s'' ac, append_with 1 6 [sample_entry] sample_publish sample_container = (s', Ok ac) /\
    collect_ephemeral_objects (superblock_paddr ac) s' = (s'', Ok [sample_entry <| paddr := 5 |>]) /\
    fletcher64_valid (block_at s' (superblock_paddr ac)) = true.
Proof.
  destruct (append_with 1 6 [sample_entry] sample_publish sample_container) as [s' r] eqn:R.
  pose (ac := {| superblock_paddr := 3; ephemeral_objects := [sample_entry <| paddr := 5 |>] |}).
  assert (r = Ok ac) as Hr by (apply (f_equal snd) in R; vm_compute in R; by rewrite <- R).
  destruct (collect_ephemeral_objects (superblock_paddr ac) s') as [s'' c] eqn:C.
  assert (c = Ok [sample_entry <| paddr := 5 |>]) as Hc.
  { apply (f_equal fst) in R. cbn [fst] in R. rewrite <- R in C. apply (f_equal snd) in C. vm_compute in C. by rewrite <- C. }
  rewrite Hr in R.
  destruct (append_reads_back sample_container s' s'' c 1 6 [sample_entry] sample_publish ac sample_container_ok)
    as (Hsb & _); [by_compute|by_compute|exact sample_args|intros _; exact sample_rings|exact R|exact C|].
  exists s', s'', ac. rewrite Hr, <- Hc. split_and!; [done|done|]. apply (sf_valid _ _ _ _ _ _ Hsb). by_compute.
Defined.
