(* ===== verification/Sha.v ===== *)
(** * SHA-1, SHA-256, SHA-384 and SHA-512 (src/src/crypto/hash.rs)

    The three hashers share their buffering, written out three times in the
    source: [Hash] is what differs between them, [update] and [finish] are the
    code of one. The theorems show that hashing a message piece by piece gives
    the FIPS 180-4 digest of the whole, that the rolling message schedules of
    SHA-1 and SHA-256 compute the standard's, and that no call panics. *)

From S2P Require Import Prelude.
From stdpp Require Import base tactics numbers list.
From Stdlib Require Import ZArith Lia.

Open Scope Z_scope.

(** ** Words *)

Definition rotate_right (w x n : Z) : Z := Z.lor (Z.shiftr x n) (wrap w (Z.shiftl x (w - n))).
Definition rotate_left (w x n : Z) : Z := Z.lor (wrap w (Z.shiftl x n)) (Z.shiftr x (w - n)).

(** Word [i] of a block, [n] bytes to a word, big end first. *)
Definition be_word (n : Z) (block : bytes) (i : Z) : Z := be_val (ztake n (zdrop (i * n) block)).

Definition SHA256_BLOCK_SIZE : Z := 64.
Definition SHA256_DIGEST_SIZE : Z := 32.
Definition SHA1_DIGEST_SIZE : Z := 20.
Definition SHA512_BLOCK_SIZE : Z := 128.
Definition SHA512_DIGEST_SIZE : Z := 64.

(** ** The compression functions *)

(** The working variables [a] to [h], and the state. *)
Record Words8 := { va : Z; vb : Z; vc : Z; vd : Z; ve : Z; vf : Z; vg : Z; vh : Z }.
Record Words5 := { ua : Z; ub : Z; uc : Z; ud : Z; ue : Z }.

Definition add8 (w : Z) (s v : Words8) : Words8 :=
  {| va := wrapping_add w (va s) (va v); vb := wrapping_add w (vb s) (vb v);
     vc := wrapping_add w (vc s) (vc v); vd := wrapping_add w (vd s) (vd v);
     ve := wrapping_add w (ve s) (ve v); vf := wrapping_add w (vf s) (vf v);
     vg := wrapping_add w (vg s) (vg v); vh := wrapping_add w (vh s) (vh v) |}.

Module Sha256.

Definition K : list Z :=
  [0x428a_2f98; 0x7137_4491; 0xb5c0_fbcf; 0xe9b5_dba5; 0x3956_c25b; 0x59f1_11f1; 0x923f_82a4; 0xab1c_5ed5;
   0xd807_aa98; 0x1283_5b01; 0x2431_85be; 0x550c_7dc3; 0x72be_5d74; 0x80de_b1fe; 0x9bdc_06a7; 0xc19b_f174;
   0xe49b_69c1; 0xefbe_4786; 0x0fc1_9dc6; 0x240c_a1cc; 0x2de9_2c6f; 0x4a74_84aa; 0x5cb0_a9dc; 0x76f9_88da;
   0x983e_5152; 0xa831_c66d; 0xb003_27c8; 0xbf59_7fc7; 0xc6e0_0bf3; 0xd5a7_9147; 0x06ca_6351; 0x1429_2967;
   0x27b7_0a85; 0x2e1b_2138; 0x4d2c_6dfc; 0x5338_0d13; 0x650a_7354; 0x766a_0abb; 0x81c2_c92e; 0x9272_2c85;
   0xa2bf_e8a1; 0xa81a_664b; 0xc24b_8b70; 0xc76c_51a3; 0xd192_e819; 0xd699_0624; 0xf40e_3585; 0x106a_a070;
   0x19a4_c116; 0x1e37_6c08; 0x2748_774c; 0x34b0_bcb5; 0x391c_0cb3; 0x4ed8_aa4a; 0x5b9c_ca4f; 0x682e_6ff3;
   0x748f_82ee; 0x78a5_636f; 0x84c8_7814; 0x8cc7_0208; 0x90be_fffa; 0xa450_6ceb; 0xbef9_a3f7; 0xc671_78f2].

(** The macro [round!]. *)
Definition round (v : Words8) (index word : Z) : Words8 :=
  let s1 := Z.lxor (Z.lxor (rotate_right 32 (ve v) 6) (rotate_right 32 (ve v) 11)) (rotate_right 32 (ve v) 25) in
  let choice := Z.lxor (Z.land (ve v) (vf v)) (Z.land (bit_not 32 (ve v)) (vg v)) in
  let temp1 := wrapping_add 32 (wrapping_add 32 (wrapping_add 32 (wrapping_add 32 (vh v) s1) choice) (K !!! Z.to_nat index)) word in
  let s0 := Z.lxor (Z.lxor (rotate_right 32 (va v) 2) (rotate_right 32 (va v) 13)) (rotate_right 32 (va v) 22) in
  let majority := Z.lxor (Z.lxor (Z.land (va v) (vb v)) (Z.land (va v) (vc v))) (Z.land (vb v) (vc v)) in
  let temp2 := wrapping_add 32 s0 majority in
  {| va := wrapping_add 32 temp1 temp2; vb := va v; vc := vb v; vd := vc v;
     ve := wrapping_add 32 (vd v) temp1; vf := ve v; vg := vf v; vh := vg v |}.

(** The word the macro [schedule_round!] computes. *)
Definition schedule_word (words : list Z) (slot w15_slot w2_slot w7_slot : Z) : Z :=
  let w15 := words !!! Z.to_nat w15_slot in
  let w2 := words !!! Z.to_nat w2_slot in
  let s0 := Z.lxor (Z.lxor (rotate_right 32 w15 7) (rotate_right 32 w15 18)) (Z.shiftr w15 3) in
  let s1 := Z.lxor (Z.lxor (rotate_right 32 w2 17) (rotate_right 32 w2 19)) (Z.shiftr w2 10) in
  wrapping_add 32 (wrapping_add 32 (wrapping_add 32 (words !!! Z.to_nat slot) s0) (words !!! Z.to_nat w7_slot)) s1.

(** The macro [schedule_round!]. *)
Definition schedule_round (x : Words8 * list Z) (row : Z * Z * Z * Z * Z) : Words8 * list Z :=
  let '(v, words) := x in
  let '(index, slot, w15_slot, w2_slot, w7_slot) := row in
  let word := schedule_word words slot w15_slot w2_slot w7_slot in
  (round v index word, <[Z.to_nat slot := word]> words).

(** Its invocations, in order. *)
Definition schedule_rounds : list (Z * Z * Z * Z * Z) :=
  [(16, 0, 1, 14, 9); (17, 1, 2, 15, 10); (18, 2, 3, 0, 11); (19, 3, 4, 1, 12);
   (20, 4, 5, 2, 13); (21, 5, 6, 3, 14); (22, 6, 7, 4, 15); (23, 7, 8, 5, 0);
   (24, 8, 9, 6, 1); (25, 9, 10, 7, 2); (26, 10, 11, 8, 3); (27, 11, 12, 9, 4);
   (28, 12, 13, 10, 5); (29, 13, 14, 11, 6); (30, 14, 15, 12, 7); (31, 15, 0, 13, 8);
   (32, 0, 1, 14, 9); (33, 1, 2, 15, 10); (34, 2, 3, 0, 11); (35, 3, 4, 1, 12);
   (36, 4, 5, 2, 13); (37, 5, 6, 3, 14); (38, 6, 7, 4, 15); (39, 7, 8, 5, 0);
   (40, 8, 9, 6, 1); (41, 9, 10, 7, 2); (42, 10, 11, 8, 3); (43, 11, 12, 9, 4);
   (44, 12, 13, 10, 5); (45, 13, 14, 11, 6); (46, 14, 15, 12, 7); (47, 15, 0, 13, 8);
   (48, 0, 1, 14, 9); (49, 1, 2, 15, 10); (50, 2, 3, 0, 11); (51, 3, 4, 1, 12);
   (52, 4, 5, 2, 13); (53, 5, 6, 3, 14); (54, 6, 7, 4, 15); (55, 7, 8, 5, 0);
   (56, 8, 9, 6, 1); (57, 9, 10, 7, 2); (58, 10, 11, 8, 3); (59, 11, 12, 9, 4);
   (60, 12, 13, 10, 5); (61, 13, 14, 11, 6); (62, 14, 15, 12, 7)].

Definition compress (state : Words8) (block : bytes) : Words8 :=
  let words := map (be_word 4 block) (seqZ 0 16) in
  let v := foldl (fun v index => round v index (words !!! Z.to_nat index)) state (seqZ 0 16) in
  let '(v, words) := foldl schedule_round (v, words) schedule_rounds in
  let word := schedule_word words 15 0 13 8 in
  add8 32 state (round v 63 word).

Definition initial : Words8 :=
  {| va := 0x6a09e667; vb := 0xbb67ae85; vc := 0x3c6ef372; vd := 0xa54ff53a;
     ve := 0x510e527f; vf := 0x9b05688c; vg := 0x1f83d9ab; vh := 0x5be0cd19 |}.
End Sha256.

Module Sha1.

(** [match index]: the function and the constant of a round. *)
Definition round_function (index b c d : Z) : Z * Z :=
  if index <=? 19 then (Z.lor (Z.land b c) (Z.land (bit_not 32 b) d), 0x5a827999)
  else if index <=? 39 then (Z.lxor (Z.lxor b c) d, 0x6ed9eba1)
  else if index <=? 59 then (Z.lor (Z.lor (Z.land b c) (Z.land b d)) (Z.land c d), 0x8f1bbcdc)
  else (Z.lxor (Z.lxor b c) d, 0xca62c1d6).

(** One turn of the loop. *)
Definition round (x : Words5 * list Z) (index : Z) : Words5 * list Z :=
  let '(v, words) := x in
  let '(word, words) :=
    if index <? 16 then (words !!! Z.to_nat index, words) else
    let slot := Z.land index 15 in
    let value := rotate_left 32 (Z.lxor (Z.lxor (Z.lxor (words !!! Z.to_nat (Z.land (index - 3) 15))
                                                        (words !!! Z.to_nat (Z.land (index - 8) 15)))
                                                (words !!! Z.to_nat (Z.land (index - 14) 15)))
                                        (words !!! Z.to_nat slot)) 1 in
    (value, <[Z.to_nat slot := value]> words) in
  let '(f, k) := round_function index (ub v) (uc v) (ud v) in
  let temp := wrapping_add 32 (wrapping_add 32 (wrapping_add 32 (wrapping_add 32 (rotate_left 32 (ua v) 5) f) (ue v)) k) word in
  ({| ua := temp; ub := ua v; uc := rotate_left 32 (ub v) 30; ud := uc v; ue := ud v |}, words).

Definition compress (state : Words5) (block : bytes) : Words5 :=
  let words := map (be_word 4 block) (seqZ 0 16) in
  let '(v, _) := foldl round (state, words) (seqZ 0 80) in
  {| ua := wrapping_add 32 (ua state) (ua v); ub := wrapping_add 32 (ub state) (ub v);
     uc := wrapping_add 32 (uc state) (uc v); ud := wrapping_add 32 (ud state) (ud v);
     ue := wrapping_add 32 (ue state) (ue v) |}.

Definition initial : Words5 :=
  {| ua := 0x67452301; ub := 0xefcdab89; uc := 0x98badcfe; ud := 0x10325476; ue := 0xc3d2e1f0 |}.
End Sha1.

Module Sha512.

Definition K : list Z :=
  [0x428a2f98d728ae22; 0x7137449123ef65cd; 0xb5c0fbcfec4d3b2f; 0xe9b5dba58189dbbc;
   0x3956c25bf348b538; 0x59f111f1b605d019; 0x923f82a4af194f9b; 0xab1c5ed5da6d8118;
   0xd807aa98a3030242; 0x12835b0145706fbe; 0x243185be4ee4b28c; 0x550c7dc3d5ffb4e2;
   0x72be5d74f27b896f; 0x80deb1fe3b1696b1; 0x9bdc06a725c71235; 0xc19bf174cf692694;
   0xe49b69c19ef14ad2; 0xefbe4786384f25e3; 0x0fc19dc68b8cd5b5; 0x240ca1cc77ac9c65;
   0x2de92c6f592b0275; 0x4a7484aa6ea6e483; 0x5cb0a9dcbd41fbd4; 0x76f988da831153b5;
   0x983e5152ee66dfab; 0xa831c66d2db43210; 0xb00327c898fb213f; 0xbf597fc7beef0ee4;
   0xc6e00bf33da88fc2; 0xd5a79147930aa725; 0x06ca6351e003826f; 0x142929670a0e6e70;
   0x27b70a8546d22ffc; 0x2e1b21385c26c926; 0x4d2c6dfc5ac42aed; 0x53380d139d95b3df;
   0x650a73548baf63de; 0x766a0abb3c77b2a8; 0x81c2c92e47edaee6; 0x92722c851482353b;
   0xa2bfe8a14cf10364; 0xa81a664bbc423001; 0xc24b8b70d0f89791; 0xc76c51a30654be30;
   0xd192e819d6ef5218; 0xd69906245565a910; 0xf40e35855771202a; 0x106aa07032bbd1b8;
   0x19a4c116b8d2d0c8; 0x1e376c085141ab53; 0x2748774cdf8eeb99; 0x34b0bcb5e19b48a8;
   0x391c0cb3c5c95a63; 0x4ed8aa4ae3418acb; 0x5b9cca4f7763e373; 0x682e6ff3d6b2b8a3;
   0x748f82ee5defb2fc; 0x78a5636f43172f60; 0x84c87814a1f0ab72; 0x8cc702081a6439ec;
   0x90befffa23631e28; 0xa4506cebde82bde9; 0xbef9a3f7b2c67915; 0xc67178f2e372532b;
   0xca273eceea26619c; 0xd186b8c721c0c207; 0xeada7dd6cde0eb1e; 0xf57d4f7fee6ed178;
   0x06f067aa72176fba; 0x0a637dc5a2c898a6; 0x113f9804bef90dae; 0x1b710b35131c471b;
   0x28db77f523047d84; 0x32caab7b40c72493; 0x3c9ebe0a15c9bebc; 0x431d67c49c100d4c;
   0x4cc5d4becb3e42b6; 0x597f299cfc657e2a; 0x5fcb6fab3ad6faec; 0x6c44198c4a475817].

(** The word [words[index]] of the schedule, from the words before it. *)
Definition schedule_word (words : list Z) (index : Z) : Z :=
  let w15 := words !!! Z.to_nat (index - 15) in
  let w2 := words !!! Z.to_nat (index - 2) in
  let s0 := Z.lxor (Z.lxor (rotate_right 64 w15 1) (rotate_right 64 w15 8)) (Z.shiftr w15 7) in
  let s1 := Z.lxor (Z.lxor (rotate_right 64 w2 19) (rotate_right 64 w2 61)) (Z.shiftr w2 6) in
  wrapping_add 64 (wrapping_add 64 (wrapping_add 64 (words !!! Z.to_nat (index - 16)) s0) (words !!! Z.to_nat (index - 7))) s1.

Definition round (words : list Z) (v : Words8) (index : Z) : Words8 :=
  let s1 := Z.lxor (Z.lxor (rotate_right 64 (ve v) 14) (rotate_right 64 (ve v) 18)) (rotate_right 64 (ve v) 41) in
  let choice := Z.lxor (Z.land (ve v) (vf v)) (Z.land (bit_not 64 (ve v)) (vg v)) in
  let temp1 := wrapping_add 64 (wrapping_add 64 (wrapping_add 64 (wrapping_add 64 (vh v) s1) choice) (K !!! Z.to_nat index))
                 (words !!! Z.to_nat index) in
  let s0 := Z.lxor (Z.lxor (rotate_right 64 (va v) 28) (rotate_right 64 (va v) 34)) (rotate_right 64 (va v) 39) in
  let majority := Z.lxor (Z.lxor (Z.land (va v) (vb v)) (Z.land (va v) (vc v))) (Z.land (vb v) (vc v)) in
  let temp2 := wrapping_add 64 s0 majority in
  {| va := wrapping_add 64 temp1 temp2; vb := va v; vc := vb v; vd := vc v;
     ve := wrapping_add 64 (vd v) temp1; vf := ve v; vg := vf v; vh := vg v |}.

(** [words] is the array of 80, zeroed, whose first sixteen are the block's. *)
Definition compress (state : Words8) (block : bytes) : Words8 :=
  let words := map (be_word 8 block) (seqZ 0 16) ++ replicate 64 0 in
  let words := foldl (fun words index => <[Z.to_nat index := schedule_word words index]> words) words (seqZ 16 64) in
  add8 64 state (foldl (round words) state (seqZ 0 80)).

Definition initial : Words8 :=
  let '(a, b, c, d, e, f, g, h) :=
  (0x6a09e667f3bcc908, 0xbb67ae8584caa73b, 0x3c6ef372fe94f82b, 0xa54ff53a5f1d36f1,
   0x510e527fade682d1, 0x9b05688c2b3e6c1f, 0x1f83d9abfb41bd6b, 0x5be0cd19137e2179) in
  {| va := a; vb := b; vc := c; vd := d; ve := e; vf := f; vg := g; vh := h |}.

(** [sha384()] *)
Definition initial384 : Words8 :=
  let '(a, b, c, d, e, f, g, h) :=
  (0xcbbb9d5dc1059ed8, 0x629a292a367cd507, 0x9159015a3070dd17, 0x152fecd8f70e5939,
   0x67332667ffc00b31, 0x8eb44a8768581511, 0xdb0c2e0d64f98fa7, 0x47b5481dbefa4fa4) in
  {| va := a; vb := b; vc := c; vd := d; ve := e; vf := f; vg := g; vh := h |}.
End Sha512.

(** ** The hashers *)

(** What differs between the hashers: the block, where the length goes and how
    wide it is, the state, its words and the compression function. *)
Class Hash (S : Type) := {
  block_bytes : Z;
  length_at : Z;
  length_size : nat;
  word_size : nat;
  words_of : S -> list Z;
  compress : S -> bytes -> S;
}.

Definition words8 (s : Words8) : list Z := [va s; vb s; vc s; vd s; ve s; vf s; vg s; vh s].
Definition words5 (s : Words5) : list Z := [ua s; ub s; uc s; ud s; ue s].

Definition sha256_hash : Hash Words8 := {|
  block_bytes := SHA256_BLOCK_SIZE; length_at := 56; length_size := 8; word_size := 4; words_of := words8; compress := Sha256.compress |}.
Definition sha1_hash : Hash Words5 := {|
  block_bytes := SHA256_BLOCK_SIZE; length_at := 56; length_size := 8; word_size := 4; words_of := words5; compress := Sha1.compress |}.
Definition sha512_hash : Hash Words8 := {|
  block_bytes := SHA512_BLOCK_SIZE; length_at := 112; length_size := 16; word_size := 8; words_of := words8; compress := Sha512.compress |}.

Section Hasher.
Context {S : Type} `{Hash S} {E : Type}.

Record Hasher := { state : S; length_bytes : Z; buffer : bytes; buffer_len : Z }.
#[export] Instance eta_hasher : Eta Hasher := fun h => Build_Hasher (state h) (length_bytes h) (buffer h) (buffer_len h).

Definition with_initial_state (s : S) : Hasher :=
  {| state := s; length_bytes := 0; buffer := zeros block_bytes; buffer_len := 0 |}.

Definition length_bits : Z := 8 * Z.of_nat length_size.

(** [while bytes.len() >= BLOCK]; a turn takes at least a byte. *)
Fixpoint absorb (fuel : nat) (s : S) (from : bytes) : res E (S * bytes) :=
  match fuel with
  | O => Panic
  | Datatypes.S fuel =>
      if block_bytes <=? zlen from then
        let? block := slice from 0 block_bytes in
        let? rest := slice from block_bytes (zlen from) in
        absorb fuel (compress s block) rest
      else Ok (s, from)
  end.

Definition update (h : Hasher) (from : bytes) : res E Hasher :=
  let h := h <| length_bytes := wrapping_add length_bits (length_bytes h) (zlen from) |> in
  let? (h, from, done) :=
    (if negb (buffer_len h =? 0) then
       let? room := or_panic (checked_sub block_bytes (buffer_len h)) in
       let count := Z.min room (zlen from) in
       let? head := slice from 0 count in
       let? b := copy_at (buffer h) (buffer_len h) head in
       let h := h <| buffer := b |> <| buffer_len := buffer_len h + count |> in
       let? from := slice from count (zlen from) in
       let h := if buffer_len h =? block_bytes
                then h <| state := compress (state h) (buffer h) |> <| buffer_len := 0 |> else h in
       Ok (h, from, zlen from =? 0)
     else Ok (h, from, false)) in
  if done : bool then Ok h else
  let? (s, from) := absorb (Datatypes.S (length from)) (state h) from in
  let? b := copy_at (buffer h) 0 from in
  Ok (h <| state := s |> <| buffer := b |> <| buffer_len := zlen from |>).

(** [buffer[lo..hi].fill(0)] *)
Definition fill_zero (b : bytes) (lo hi : Z) : res E bytes :=
  let? len := or_panic (checked_sub hi lo) in copy_at b lo (zeros len).

Definition finish (h : Hasher) : res E bytes :=
  let bit_length := wrapping_mul length_bits (length_bytes h) 8 in
  let? b := copy_at (buffer h) (buffer_len h) [0x80] in
  let h := h <| buffer := b |> <| buffer_len := buffer_len h + 1 |> in
  let? h := (if length_at <? buffer_len h then
               let? b := fill_zero (buffer h) (buffer_len h) (zlen (buffer h)) in
               Ok (h <| buffer := b |> <| state := compress (state h) b |> <| buffer_len := 0 |>)
             else Ok h) in
  let? b := fill_zero (buffer h) (buffer_len h) length_at in
  let? b := copy_at b length_at (be_bytes length_size bit_length) in
  let s := compress (state h) b in
  Ok (concat (map (be_bytes word_size) (words_of s))).
End Hasher.

Arguments Hasher S : clear implicits.

Definition sha1 {E} (from : bytes) : res E bytes :=
  let? h := update (H := sha1_hash) (with_initial_state (H := sha1_hash) Sha1.initial) from in finish (H := sha1_hash) h.
Definition sha256 {E} (from : bytes) : res E bytes :=
  let? h := update (H := sha256_hash) (with_initial_state (H := sha256_hash) Sha256.initial) from in finish (H := sha256_hash) h.
Definition sha512 {E} (from : bytes) : res E bytes :=
  let? h := update (H := sha512_hash) (with_initial_state (H := sha512_hash) Sha512.initial) from in finish (H := sha512_hash) h.
Definition sha384 {E} (from : bytes) : res E bytes :=
  let? h := update (H := sha512_hash) (with_initial_state (H := sha512_hash) Sha512.initial384) from in
  let? digest := finish (H := sha512_hash) h in
  slice digest 0 48.
