(* ===== verification/ShaProps.v ===== *)
(** * The hashes against FIPS 180-4

    [Fips] states the standard's functions: padding, message schedules with
    all their words, rounds as sums modulo the word size. The theorems relate
    the code of [Sha] to it. *)

From S2P Require Import Prelude Sha.
From stdpp Require Import base tactics numbers list.
From Stdlib Require Import ZArith Lia.

Open Scope Z_scope.

(** ** The standard *)

Module Fips.

(** The schedule: word by word from those before. *)
Fixpoint expand (next : list Z -> Z) (n : nat) (ws : list Z) : list Z :=
  match n with
  | O => ws
  | S n => expand next n (ws ++ [next ws])
  end.

(** [W_(t-k)] when [W_t] is the next word. *)
Definition back (ws : list Z) (k : nat) : Z := ws !!! (length ws - k)%nat.

(** The functions of SHA-2, [w] the word size, the rotations as arguments. *)
Definition Sigma (w a b c x : Z) : Z := Z.lxor (Z.lxor (rotate_right w x a) (rotate_right w x b)) (rotate_right w x c).
Definition sigma (w a b c x : Z) : Z := Z.lxor (Z.lxor (rotate_right w x a) (rotate_right w x b)) (Z.shiftr x c).
Definition Ch (w x y z : Z) : Z := Z.lxor (Z.land x y) (Z.land (bit_not w x) z).
Definition Maj (x y z : Z) : Z := Z.lxor (Z.lxor (Z.land x y) (Z.land x z)) (Z.land y z).
Definition Parity (x y z : Z) : Z := Z.lxor (Z.lxor x y) z.

Definition sha2_next (w : Z) (sigma0 sigma1 : Z -> Z) (ws : list Z) : Z :=
  wrap w (sigma1 (back ws 2) + back ws 7 + sigma0 (back ws 15) + back ws 16).

Definition sha2_round (w : Z) (Sigma0 Sigma1 : Z -> Z) (k : list Z) (ws : list Z) (v : Words8) (t : Z) : Words8 :=
  let T1 := wrap w (vh v + Sigma1 (ve v) + Ch w (ve v) (vf v) (vg v) + k !!! Z.to_nat t + ws !!! Z.to_nat t) in
  let T2 := wrap w (Sigma0 (va v) + Maj (va v) (vb v) (vc v)) in
  {| va := wrap w (T1 + T2); vb := va v; vc := vb v; vd := vc v; ve := wrap w (vd v + T1); vf := ve v; vg := vf v; vh := vg v |}.

Definition next256 : list Z -> Z := sha2_next 32 (sigma 32 7 18 3) (sigma 32 17 19 10).
Definition next512 : list Z -> Z := sha2_next 64 (sigma 64 1 8 7) (sigma 64 19 61 6).

Definition compress256 (s : Words8) (block : bytes) : Words8 :=
  let W := expand next256 48 (map (be_word 4 block) (seqZ 0 16)) in
  add8 32 s (foldl (sha2_round 32 (Sigma 32 2 13 22) (Sigma 32 6 11 25) Sha256.K W) s (seqZ 0 64)).

Definition compress512 (s : Words8) (block : bytes) : Words8 :=
  let W := expand next512 64 (map (be_word 8 block) (seqZ 0 16)) in
  add8 64 s (foldl (sha2_round 64 (Sigma 64 28 34 39) (Sigma 64 14 18 41) Sha512.K W) s (seqZ 0 80)).

(** SHA-1 *)
Definition next1 (ws : list Z) : Z :=
  rotate_left 32 (Z.lxor (Z.lxor (Z.lxor (back ws 3) (back ws 8)) (back ws 14)) (back ws 16)) 1.

Definition f1 (t x y z : Z) : Z :=
  if t <=? 19 then Ch 32 x y z else if t <=? 39 then Parity x y z else if t <=? 59 then Maj x y z else Parity x y z.
Definition K1 (t : Z) : Z :=
  if t <=? 19 then 0x5a827999 else if t <=? 39 then 0x6ed9eba1 else if t <=? 59 then 0x8f1bbcdc else 0xca62c1d6.

Definition round1 (ws : list Z) (v : Words5) (t : Z) : Words5 :=
  {| ua := wrap 32 (rotate_left 32 (ua v) 5 + f1 t (ub v) (uc v) (ud v) + ue v + K1 t + ws !!! Z.to_nat t);
     ub := ua v; uc := rotate_left 32 (ub v) 30; ud := uc v; ue := ud v |}.

Definition compress1 (s : Words5) (block : bytes) : Words5 :=
  let W := expand next1 64 (map (be_word 4 block) (seqZ 0 16)) in
  let v := foldl (round1 W) s (seqZ 0 80) in
  {| ua := wrap 32 (ua s + ua v); ub := wrap 32 (ub s + ub v); uc := wrap 32 (uc s + uc v);
     ud := wrap 32 (ud s + ud v); ue := wrap 32 (ue s + ue v) |}.

(** A digest: blocks of [B] bytes of the padded message, the length in [L]
    bytes at the end. *)
Fixpoint blocks {S} (step : S -> bytes -> S) (B : Z) (n : nat) (s : S) (m : bytes) : S :=
  match n with
  | O => s
  | Datatypes.S n => blocks step B n (step s (ztake B m)) (zdrop B m)
  end.
Definition process {S} (step : S -> bytes -> S) (B : Z) (s : S) (m : bytes) : S := blocks step B (Z.to_nat (zlen m / B)) s m.

Definition pad (B : Z) (L : nat) (m : bytes) : bytes :=
  m ++ [0x80] ++ zeros ((B - Z.of_nat L - 1 - zlen m) mod B) ++ be_bytes L (8 * zlen m).

Definition digest {S} (step : S -> bytes -> S) (words : S -> list Z) (B : Z) (L n : nat) (s : S) (m : bytes) : bytes :=
  concat (map (be_bytes n) (words (process step B s (pad B L m)))).

Definition SHA1 : bytes -> bytes := digest compress1 words5 64 8 4 Sha1.initial.
Definition SHA256 : bytes -> bytes := digest compress256 words8 64 8 4 Sha256.initial.
Definition SHA512 : bytes -> bytes := digest compress512 words8 128 16 8 Sha512.initial.
Definition SHA384 (m : bytes) : bytes := ztake 48 (digest compress512 words8 128 16 8 Sha512.initial384 m).
End Fips.

#[global] Arguments Fips.process : simpl never.
#[global] Arguments Fips.pad : simpl never.

(** ** Words in range *)

Lemma lor_range w x y : 0 <= w -> in_range w x -> in_range w y -> in_range w (Z.lor x y).
Proof.
  intros Hw Hx Hy. rewrite <- (wrap_small w x), <- (wrap_small w y) by done. unfold wrap.
  rewrite <- !Z.land_ones, <- Z.land_lor_distr_l, Z.land_ones by done. by apply wrap_range.
Qed.

Lemma rotate_left_range w x n : 0 <= n <= w -> in_range w x -> in_range w (rotate_left w x n).
Proof.
  intros Hn Hx. unfold rotate_left. apply lor_range; [lia|apply wrap_range; lia|]. rewrite Z.shiftr_div_pow2 by lia.
  unfold in_range in *. pose proof (pow2_pos (w - n) ltac:(lia)). split; [apply Z.div_pos; lia|].
  apply Z.div_lt_upper_bound; [done|]. nia.
Qed.

Definition typed5 (v : Words5) : Prop := Forall (in_range 32) (words5 v).
Definition typed8 (w : Z) (v : Words8) : Prop := Forall (in_range w) (words8 v).

(** ** Boolean functions of SHA-1 *)

Lemma lor_lxor_disjoint x y : Z.land x y = 0 -> Z.lor x y = Z.lxor x y.
Proof. intros Hl. symmetry. by apply Z.lxor_lor. Qed.

Lemma bit_not_testbit w x i : in_range w x -> 0 <= i -> Z.testbit (bit_not w x) i = (i <? w) && negb (Z.testbit x i).
Proof.
  intros Hx Hi. unfold bit_not. assert (0 <= w) by (unfold in_range in Hx; destruct (decide (0 <= w)); [done|rewrite Z.pow_neg_r in Hx by lia; lia]).
  replace (2 ^ w - 1 - x) with (Z.ldiff (Z.ones w) x).
  - rewrite Z.ldiff_spec. by rewrite Z.testbit_ones_nonneg by lia.
  - rewrite <- Z.sub_nocarry_ldiff; [rewrite Z.ones_equiv; lia|]. rewrite <- (wrap_small w x) at 1 by done. unfold wrap.
    rewrite <- Z.land_ones by done. by rewrite Z.ldiff_land, <- Z.land_assoc, Z.land_lnot_diag, Z.land_0_r.
Qed.

Lemma choice_lor x y z : in_range 32 x -> Z.lor (Z.land x y) (Z.land (bit_not 32 x) z) = Fips.Ch 32 x y z.
Proof.
  intros Hx. apply lor_lxor_disjoint, Z.bits_inj'. intros i Hi. rewrite !Z.land_spec, bit_not_testbit, Z.bits_0 by done.
  by destruct (Z.testbit x i), (Z.testbit y i), (i <? 32).
Qed.

Lemma majority_lor x y z : Z.lor (Z.lor (Z.land x y) (Z.land x z)) (Z.land y z) = Fips.Maj x y z.
Proof.
  apply Z.bits_inj'. intros i Hi. unfold Fips.Maj. rewrite !Z.lor_spec, !Z.lxor_spec, !Z.land_spec.
  by destruct (Z.testbit x i), (Z.testbit y i), (Z.testbit z i).
Qed.

Lemma round_function_fips t b c d : in_range 32 b -> Sha1.round_function t b c d = (Fips.f1 t b c d, Fips.K1 t).
Proof.
  intros Hb. unfold Sha1.round_function, Fips.f1, Fips.K1. rewrite choice_lor by done. rewrite majority_lor.
  by repeat case_match.
Qed.

(** ** Message schedules *)

Lemma length_expand next n ws : length (Fips.expand next n ws) = (length ws + n)%nat.
Proof. revert ws. induction n as [|n IH]; intros ws; cbn; [lia|]. rewrite IH, length_app. cbn. lia. Qed.

Lemma expand_prefix next n ws i : (i < length ws)%nat -> Fips.expand next n ws !!! i = ws !!! i.
Proof.
  revert ws. induction n as [|n IH]; intros ws Hi; [done|]. cbn [Fips.expand]. rewrite IH by (rewrite length_app; lia).
  by apply lookup_total_app_l.
Qed.

Lemma expand_next next n ws : Fips.expand next (S n) ws !!! length ws = next ws.
Proof.
  cbn [Fips.expand]. rewrite expand_prefix by (rewrite length_app; cbn; lia).
  by rewrite lookup_total_app_r, Nat.sub_diag by lia.
Qed.

Lemma expand_snoc next n ws : Fips.expand next (S n) ws = Fips.expand next n ws ++ [next (Fips.expand next n ws)].
Proof.
  revert ws. induction n as [|n IH]; intros ws; [done|].
  change (Fips.expand next (S n) (ws ++ [next ws]) = Fips.expand next n (ws ++ [next ws]) ++ [next (Fips.expand next n (ws ++ [next ws]))]).
  apply IH.
Qed.

(** [ring] holds the last sixteen words of [ws]. *)
Record rolled (ring ws : list Z) : Prop := {
  rl_ring : length ring = 16%nat;
  rl_words : (16 <= length ws)%nat;
  rl_last (k : nat) : (1 <= k <= 16)%nat -> ring !!! ((length ws - k) mod 16)%nat = Fips.back ws k;
}.

Lemma rolled_start ws : length ws = 16%nat -> rolled ws ws.
Proof.
  intros Hl. constructor; [done|lia|]. intros k Hk. unfold Fips.back. rewrite Hl. by rewrite Nat.mod_small by lia.
Qed.

(** Overwriting the oldest word rolls the ring on. *)
Lemma rolled_push ring ws x : rolled ring ws -> rolled (<[(length ws mod 16)%nat := x]> ring) (ws ++ [x]).
Proof.
  intros [R1 R2 R3]. constructor; [by rewrite length_insert|rewrite length_app; cbn; lia|]. intros k Hk.
  unfold Fips.back in *. rewrite length_app. cbn [length]. destruct (decide (k = 1)%nat) as [->|].
  - replace (length ws + 1 - 1)%nat with (length ws) by lia. rewrite list_lookup_total_insert_eq
      by (rewrite R1; apply Nat.mod_upper_bound; lia). by rewrite lookup_total_app_r, Nat.sub_diag by lia.
  - specialize (R3 (k - 1)%nat ltac:(lia)). replace (length ws - (k - 1))%nat with (length ws + 1 - k)%nat in R3 by lia.
    rewrite list_lookup_total_insert_ne.
    + rewrite R3. by rewrite lookup_total_app_l by lia.
    + intros E. assert (Z.of_nat (length ws) mod 16 = (Z.of_nat (length ws) + 1 - Z.of_nat k) mod 16) as E'.
      { replace (Z.of_nat (length ws) + 1 - Z.of_nat k) with (Z.of_nat (length ws + 1 - k)) by lia. change 16 with (Z.of_nat 16).
        rewrite <- !Nat2Z.inj_mod. by rewrite E. }
      pose proof (Z.div_mod (Z.of_nat (length ws)) 16 ltac:(lia)). pose proof (Z.div_mod (Z.of_nat (length ws) + 1 - Z.of_nat k) 16 ltac:(lia)).
      lia.
Qed.

(** The slots of the ring as the code writes them. *)
Lemma rolled_slot ring ws k (i : Z) :
  rolled ring ws -> (1 <= k <= 16)%nat -> 0 <= i < 16 -> (Z.of_nat (length ws) - Z.of_nat k) mod 16 = i ->
  ring !!! Z.to_nat i = Fips.back ws k.
Proof.
  intros [R1 R2 R3] Hk Hi E. rewrite <- R3 by done. f_equal. apply Nat2Z.inj. rewrite Nat2Z.inj_mod, Nat2Z.inj_sub by lia.
  rewrite Z2Nat.id by lia. by rewrite <- E.
Qed.

(** *** SHA-256 *)

Definition row256 (t : Z) : Z * Z * Z * Z * Z := (t, t mod 16, (t + 1) mod 16, (t + 14) mod 16, (t + 9) mod 16).

Lemma schedule_rounds_rows : Sha256.schedule_rounds = map row256 (seqZ 16 47).
Proof. vm_compute. reflexivity. Qed.

Lemma wrapping_sum3 w a b c : wrapping_add w (wrapping_add w a b) c = wrap w (a + b + c).
Proof. unfold wrapping_add, wrap. apply Zplus_mod_idemp_l. Qed.
Lemma wrapping_sum4 w a b c d : wrapping_add w (wrapping_add w (wrapping_add w a b) c) d = wrap w (a + b + c + d).
Proof. rewrite wrapping_sum3. unfold wrapping_add, wrap. rewrite <- !Z.add_assoc, Zplus_mod_idemp_l. f_equal. lia. Qed.
Lemma wrapping_sum5 w a b c d e :
  wrapping_add w (wrapping_add w (wrapping_add w (wrapping_add w a b) c) d) e = wrap w (a + b + c + d + e).
Proof. rewrite wrapping_sum4. unfold wrapping_add, wrap. rewrite <- !Z.add_assoc, Zplus_mod_idemp_l. f_equal. lia. Qed.

Lemma mod_shift16 t k i : 0 <= i < 16 -> i = (t + (16 - k)) mod 16 -> (t - k) mod 16 = i.
Proof. intros Hi ->. replace (t + (16 - k)) with (t - k + 1 * 16) by lia. by rewrite Z.mod_add by lia. Qed.

Lemma schedule_word_fips ring ws t :
  rolled ring ws -> t = Z.of_nat (length ws) ->
  Sha256.schedule_word ring (t mod 16) ((t + 1) mod 16) ((t + 14) mod 16) ((t + 9) mod 16) = Fips.next256 ws.
Proof.
  intros HR ->. set (t := Z.of_nat (length ws)).
  pose proof (fun k => Z.mod_pos_bound (t + k) 16 ltac:(lia)) as B.
  assert (forall (k : nat) c, (1 <= k <= 16)%nat -> c = 16 - Z.of_nat k -> ring !!! Z.to_nat ((t + c) mod 16) = Fips.back ws k) as Hs.
  { intros k c Hk ->. apply rolled_slot; [done|done|apply B|]. by apply mod_shift16; [apply B|]. }
  pose proof (Hs 15%nat 1 ltac:(lia) eq_refl) as H1. pose proof (Hs 2%nat 14 ltac:(lia) eq_refl) as H2.
  pose proof (Hs 7%nat 9 ltac:(lia) eq_refl) as H3. pose proof (Hs 16%nat 0 ltac:(lia) eq_refl) as H4.
  rewrite Z.add_0_r in H4. unfold Sha256.schedule_word. rewrite H1, H2, H3, H4, wrapping_sum4.
  unfold Fips.next256, Fips.sha2_next, Fips.sigma. f_equal. lia.
Qed.

Lemma round256_fips W v t word :
  W !!! Z.to_nat t = word ->
  Sha256.round v t word = Fips.sha2_round 32 (Fips.Sigma 32 2 13 22) (Fips.Sigma 32 6 11 25) Sha256.K W v t.
Proof.
  intros <-. unfold Sha256.round, Fips.sha2_round. cbv zeta. by rewrite !(wrapping_sum5 32 (vh v)).
Qed.

Lemma schedule_fold n : forall ring ws v,
  rolled ring ws ->
  let t := Z.of_nat (length ws) in
  let W := Fips.expand Fips.next256 n ws in
  exists ring', foldl Sha256.schedule_round (v, ring) (map row256 (seqZ t (Z.of_nat n))) =
    (foldl (fun v t => Sha256.round v t (W !!! Z.to_nat t)) v (seqZ t (Z.of_nat n)), ring') /\ rolled ring' W.
Proof.
  induction n as [|n IH]; intros ring ws v HR t W; [by exists ring|].
  replace (Z.of_nat (S n)) with (1 + Z.of_nat n) by lia. rewrite seqZ_cons by lia. replace (Z.pred (1 + Z.of_nat n)) with (Z.of_nat n) by lia.
  cbn [map foldl]. unfold Sha256.schedule_round at 2, row256 at 1. rewrite (schedule_word_fips ring ws t HR eq_refl).
  assert (W !!! Z.to_nat t = Fips.next256 ws) as -> by (unfold t; rewrite Nat2Z.id; apply expand_next).
  assert (Z.to_nat (t mod 16) = length ws mod 16)%nat as ->.
  { unfold t. change 16 with (Z.of_nat 16). by rewrite <- Nat2Z.inj_mod, Nat2Z.id. }
  destruct (IH _ _ (Sha256.round v t (Fips.next256 ws)) (rolled_push ring ws (Fips.next256 ws) HR)) as (ring' & E & HR').
  rewrite length_app in E. cbn [length] in E. replace (Z.of_nat (length ws + 1)) with (Z.succ t) in E by (unfold t; lia).
  exists ring'. split; [exact E|exact HR'].
Qed.

Lemma foldl_ext_in {A B} (f g : A -> B -> A) l : (forall a b, b ∈ l -> f a b = g a b) -> forall a, foldl f a l = foldl g a l.
Proof.
  induction l as [|b l IH]; intros Hfg a; [done|]. cbn. rewrite Hfg by left. apply IH. intros. apply Hfg. by right.
Qed.

Lemma compress256_fips s block : Sha256.compress s block = Fips.compress256 s block.
Proof.
  unfold Sha256.compress, Fips.compress256. set (M := map _ (seqZ 0 16)). assert (length M = 16%nat) as LM by (unfold M; by rewrite length_map).
  set (v0 := foldl _ s (seqZ 0 16)). rewrite schedule_rounds_rows.
  destruct (schedule_fold 47 M M v0 (rolled_start M LM)) as (ring & E & HR). rewrite LM in E. change (Z.of_nat 16) with 16 in E.
  change (Z.of_nat 47) with 47 in E. rewrite E.
  set (W47 := Fips.expand Fips.next256 47 M) in *. assert (length W47 = 63%nat) as L47 by (unfold W47; rewrite length_expand, LM; done).
  pose proof (expand_snoc Fips.next256 47 M) as EW. fold W47 in EW.
  set (W := Fips.expand Fips.next256 48 M) in *.
  pose proof (schedule_word_fips ring W47 63 HR ltac:(rewrite L47; done)) as E63.
  change (63 mod 16) with 15 in E63. change ((63 + 1) mod 16) with 0 in E63. change ((63 + 14) mod 16) with 13 in E63.
  change ((63 + 9) mod 16) with 8 in E63. rewrite E63. f_equal.
  change (seqZ 0 64) with (seqZ 0 16 ++ seqZ 16 47 ++ [63]). rewrite !foldl_app. cbn [foldl].
  rewrite (round256_fips W).
  2:{ rewrite EW, lookup_total_app_r by (rewrite L47; done). by rewrite L47. }
  f_equal. rewrite (foldl_ext_in _ (Fips.sha2_round 32 (Fips.Sigma 32 2 13 22) (Fips.Sigma 32 6 11 25) Sha256.K W)).
  - f_equal. apply foldl_ext_in. intros v t Ht%elem_of_seqZ. apply round256_fips. unfold W. rewrite expand_prefix; [done|lia].
  - intros v t Ht%elem_of_seqZ. apply round256_fips. rewrite EW. apply lookup_total_app_l. lia.
Qed.

(** *** SHA-512 *)

Lemma schedule512_fold n : forall ws,
  (16 <= length ws)%nat ->
  foldl (fun words index => <[Z.to_nat index := Sha512.schedule_word words index]> words) (ws ++ replicate n 0)
    (seqZ (Z.of_nat (length ws)) (Z.of_nat n)) = Fips.expand Fips.next512 n ws.
Proof.
  induction n as [|n IH]; intros ws Hl; [cbn; apply app_nil_r|].
  replace (Z.of_nat (S n)) with (1 + Z.of_nat n) by lia. rewrite seqZ_cons by lia. replace (Z.pred (1 + Z.of_nat n)) with (Z.of_nat n) by lia.
  cbn [foldl Fips.expand].
  assert (Sha512.schedule_word (ws ++ replicate (S n) 0) (Z.of_nat (length ws)) = Fips.next512 ws) as ->.
  { unfold Sha512.schedule_word, Fips.next512, Fips.sha2_next, Fips.sigma, Fips.back.
    rewrite wrapping_sum4, !lookup_total_app_l by lia.
    replace (Z.to_nat (Z.of_nat (length ws) - 15)) with (length ws - 15)%nat by lia.
    replace (Z.to_nat (Z.of_nat (length ws) - 2)) with (length ws - 2)%nat by lia.
    replace (Z.to_nat (Z.of_nat (length ws) - 7)) with (length ws - 7)%nat by lia.
    replace (Z.to_nat (Z.of_nat (length ws) - 16)) with (length ws - 16)%nat by lia. f_equal. lia. }
  rewrite Nat2Z.id, insert_app_r_alt, Nat.sub_diag by lia. cbn [replicate].
  specialize (IH (ws ++ [Fips.next512 ws])). rewrite length_app in IH. cbn [length] in IH.
  replace (Z.of_nat (length ws + 1)) with (Z.succ (Z.of_nat (length ws))) in IH by lia. rewrite <- app_assoc in IH. apply IH. lia.
Qed.

Lemma round512_fips W v t :
  Sha512.round W v t = Fips.sha2_round 64 (Fips.Sigma 64 28 34 39) (Fips.Sigma 64 14 18 41) Sha512.K W v t.
Proof. unfold Sha512.round, Fips.sha2_round. cbv zeta. by rewrite !(wrapping_sum5 64 (vh v)). Qed.

Lemma compress512_fips s block : Sha512.compress s block = Fips.compress512 s block.
Proof.
  unfold Sha512.compress, Fips.compress512. set (M := map _ (seqZ 0 16)). assert (length M = 16%nat) as LM by (unfold M; by rewrite length_map).
  pose proof (schedule512_fold 64 M ltac:(lia)) as E. rewrite LM in E. change (Z.of_nat 16) with 16 in E. change (Z.of_nat 64) with 64 in E.
  rewrite E. f_equal. apply foldl_ext_in. intros v t _. apply round512_fips.
Qed.

(** *** SHA-1 *)

Lemma typed_round1 W v t : typed5 v -> typed5 (Fips.round1 W v t).
Proof.
  unfold typed5, words5. rewrite !Forall_cons. intros (H1 & H2 & H3 & H4 & H5 & _). cbn. split_and!; try done.
  - by apply wrap_range.
  - by apply rotate_left_range.
Qed.

Lemma typed_rounds1 W l : forall v, typed5 v -> typed5 (foldl (Fips.round1 W) v l).
Proof. induction l as [|t l IH]; intros v Hv; [done|]. cbn. by apply IH, typed_round1. Qed.

Lemma sha1_first W ring v t :
  typed5 v -> 0 <= t < 16 -> W !!! Z.to_nat t = ring !!! Z.to_nat t -> Sha1.round (v, ring) t = (Fips.round1 W v t, ring).
Proof.
  intros Hv Ht HW. unfold Sha1.round. rewrite (proj2 (Z.ltb_lt _ _)) by lia.
  rewrite round_function_fips by (unfold typed5, words5 in Hv; rewrite !Forall_cons in Hv; apply Hv).
  rewrite wrapping_sum5. unfold Fips.round1. by rewrite HW.
Qed.

Lemma sha1_later W ring ws v t :
  typed5 v -> rolled ring ws -> t = Z.of_nat (length ws) -> W !!! Z.to_nat t = Fips.next1 ws ->
  Sha1.round (v, ring) t = (Fips.round1 W v t, <[(length ws mod 16)%nat := Fips.next1 ws]> ring).
Proof.
  intros Hv HR Et HW. pose proof (rl_words _ _ HR) as Hl. unfold Sha1.round. rewrite (proj2 (Z.ltb_ge _ _)) by lia.
  assert (forall (k : nat), (1 <= k <= 16)%nat -> ring !!! Z.to_nat (Z.land (t - Z.of_nat k) 15) = Fips.back ws k) as Hs.
  { intros k Hk. rewrite (land_low _ 4) by lia. change (2 ^ 4) with 16. apply rolled_slot; [done|done|apply Z.mod_pos_bound; lia|by rewrite Et]. }
  pose proof (Hs 16%nat ltac:(lia)) as H16. change (Z.of_nat 16) with 16 in H16.
  assert (Z.land (t - 16) 15 = Z.land t 15) as E16.
  { rewrite !(land_low _ 4) by lia. change (2 ^ 4) with 16. replace t with (t - 16 + 1 * 16) at 2 by lia. by rewrite Z.mod_add by lia. }
  rewrite E16 in H16. rewrite H16, (Hs 3%nat ltac:(lia) : ring !!! Z.to_nat (Z.land (t - 3) 15) = _),
    (Hs 8%nat ltac:(lia) : ring !!! Z.to_nat (Z.land (t - 8) 15) = _), (Hs 14%nat ltac:(lia) : ring !!! Z.to_nat (Z.land (t - 14) 15) = _).
  fold (Fips.next1 ws). rewrite round_function_fips by (unfold typed5, words5 in Hv; rewrite !Forall_cons in Hv; apply Hv).
  rewrite wrapping_sum5. unfold Fips.round1. rewrite HW. f_equal. f_equal. apply Nat2Z.inj. rewrite (land_low _ 4) by lia.
  rewrite Z2Nat.id by (apply Z.mod_pos_bound; done). by rewrite Nat2Z.inj_mod, Et.
Qed.

Lemma sha1_first_fold W ring l : forall v,
  typed5 v -> Forall (fun t => 0 <= t < 16 /\ W !!! Z.to_nat t = ring !!! Z.to_nat t) l ->
  foldl Sha1.round (v, ring) l = (foldl (Fips.round1 W) v l, ring).
Proof.
  induction l as [|t l IH]; intros v Hv Hl; [done|]. apply Forall_cons in Hl as [[Ht HW] Hl]. cbn [foldl].
  rewrite (sha1_first W) by done. by apply IH; [apply typed_round1|].
Qed.

Lemma sha1_later_fold n : forall ring ws v,
  typed5 v -> rolled ring ws ->
  exists ring', foldl Sha1.round (v, ring) (seqZ (Z.of_nat (length ws)) (Z.of_nat n)) =
    (foldl (Fips.round1 (Fips.expand Fips.next1 n ws)) v (seqZ (Z.of_nat (length ws)) (Z.of_nat n)), ring').
Proof.
  induction n as [|n IH]; intros ring ws v Hv HR; [by exists ring|].
  replace (Z.of_nat (S n)) with (1 + Z.of_nat n) by lia. rewrite seqZ_cons by lia. replace (Z.pred (1 + Z.of_nat n)) with (Z.of_nat n) by lia.
  cbn [foldl]. rewrite (sha1_later (Fips.expand Fips.next1 (S n) ws) ring ws) by (done || rewrite Nat2Z.id; apply expand_next).
  set (v' := Fips.round1 _ _ _). destruct (IH _ (ws ++ [Fips.next1 ws]) v' ltac:(by apply typed_round1) (rolled_push ring ws _ HR)) as (ring' & E).
  rewrite length_app in E. cbn [length] in E. replace (Z.of_nat (length ws + 1)) with (Z.succ (Z.of_nat (length ws))) in E by lia.
  exists ring'. exact E.
Qed.

Lemma compress1_fips s block : typed5 s -> Sha1.compress s block = Fips.compress1 s block.
Proof.
  intros Hs. unfold Sha1.compress, Fips.compress1. set (M := map _ (seqZ 0 16)).
  assert (length M = 16%nat) as LM by (unfold M; by rewrite length_map). set (W := Fips.expand Fips.next1 64 M).
  change (seqZ 0 80) with (seqZ 0 16 ++ seqZ 16 64). rewrite !foldl_app.
  rewrite (sha1_first_fold W); [|done|].
  - destruct (sha1_later_fold 64 M M (foldl (Fips.round1 W) s (seqZ 0 16))) as (ring' & E); [by apply typed_rounds1|by apply rolled_start|].
    rewrite LM in E. change (Z.of_nat 16) with 16 in E. change (Z.of_nat 64) with 64 in E. by rewrite E.
  - apply Forall_forall. intros t Ht%elem_of_seqZ. split; [lia|]. unfold W. apply expand_prefix. lia.
Qed.

Lemma typed_compress1 s block : typed5 (Fips.compress1 s block).
Proof. repeat constructor; by apply wrap_range. Qed.

Lemma typed_add8 w s v : 0 <= w -> typed8 w (add8 w s v).
Proof. intros Hw. repeat constructor; by apply wrap_range. Qed.

(** ** Buffering *)

Lemma be_bytes_wrap n x : be_bytes n (x mod 2 ^ (8 * Z.of_nat n)) = be_bytes n x.
Proof.
  rewrite <- be_val_be_bytes. apply be_bytes_be_val; [apply is_bytes_be_bytes|apply length_be_bytes].
Qed.

Lemma zeros_app n m : 0 <= n -> 0 <= m -> zeros (n + m) = zeros n ++ zeros m.
Proof. intros. unfold zeros. by rewrite Z2Nat.inj_add, replicate_add by lia. Qed.

Section Blocks.
Context {S : Type} (step : S -> bytes -> S) (B : Z) (HB : 0 < B).

Lemma blocks_app n1 n2 : forall s m1 m2,
  zlen m1 = Z.of_nat n1 * B -> Fips.blocks step B (n1 + n2) s (m1 ++ m2) = Fips.blocks step B n2 (Fips.blocks step B n1 s m1) m2.
Proof.
  induction n1 as [|n1 IH]; intros s m1 m2 Hl.
  - assert (m1 = []) as -> by (apply zlen_zero; lia). done.
  - cbn [Nat.add Fips.blocks]. rewrite ztake_app_le, zdrop_app_le by lia. apply IH. rewrite zlen_zdrop. lia.
Qed.

Lemma process_app s m1 m2 :
  zlen m1 mod B = 0 -> Fips.process step B s (m1 ++ m2) = Fips.process step B (Fips.process step B s m1) m2.
Proof.
  intros Hm. unfold Fips.process. pose proof (zlen_nonneg m1) as N1. pose proof (zlen_nonneg m2) as N2.
  pose proof (Z.div_mod (zlen m1) B ltac:(lia)) as Q. rewrite Hm in Q. rewrite zlen_app. rewrite Q at 1.
  rewrite (Z.add_comm (_ + 0)), Z.add_0_r, (Z.mul_comm B), Z.div_add, Z.add_comm by lia.
  pose proof (Z.div_pos (zlen m1) B N1 HB). pose proof (Z.div_pos (zlen m2) B N2 HB).
  rewrite Z2Nat.inj_add by lia. apply blocks_app. lia.
Qed.

Lemma process_short s m : zlen m < B -> Fips.process step B s m = s.
Proof. intros Hm. unfold Fips.process. pose proof (zlen_nonneg m). by rewrite Z.div_small by lia. Qed.

Lemma process_block s b : zlen b = B -> Fips.process step B s b = step s b.
Proof. intros Hb. unfold Fips.process. rewrite Hb, Z.div_same by lia. change (Z.to_nat 1) with 1%nat. cbn [Fips.blocks]. by rewrite ztake_all by lia. Qed.
End Blocks.

(** The law of a hash: a block is the length field and what precedes it. *)
Class LawfulHash (S : Type) {H : Hash S} : Prop := {
  law_first : 1 <= length_at;
  law_block : block_bytes = length_at + Z.of_nat length_size;
}.

Section Streaming.
Context {S : Type} `{LawfulHash S} {E : Type}.
Implicit Types (s : S) (m from full rest : bytes).
Notation process := (Fips.process compress block_bytes).

(** The hasher has taken in [m], starting from [s0]. *)
Inductive absorbed s0 m (h : Hasher S) : Prop :=
| Absorbed full rest junk
    (ab_message : m = full ++ rest)
    (ab_whole : zlen full mod block_bytes = 0)
    (ab_short : zlen rest < block_bytes)
    (ab_state : state h = process s0 full)
    (ab_buffer : buffer h = rest ++ junk)
    (ab_size : zlen (buffer h) = block_bytes)
    (ab_len : buffer_len h = zlen rest)
    (ab_length : length_bytes h = wrap length_bits (zlen m)).

Lemma block_pos : 0 < block_bytes.
Proof. pose proof law_first. pose proof law_block. lia. Qed.

Lemma absorbed_new s0 : absorbed s0 [] (with_initial_state s0).
Proof.
  pose proof block_pos. exists [] [] (zeros block_bytes); try done.
  cbn. rewrite zlen_zeros. lia.
Qed.

Lemma absorb_ok fuel : forall s from,
  (length from < fuel)%nat ->
  exists full rest, absorb (E := E) fuel s from = Ok (process s full, rest) /\ from = full ++ rest /\
    zlen full mod block_bytes = 0 /\ zlen rest < block_bytes.
Proof.
  pose proof block_pos as HB. induction fuel as [|fuel IH]; intros s from Hf; [lia|]. cbn [absorb].
  destruct (block_bytes <=? zlen from) eqn:T; bools.
  - do 2 (rewrite slice_ok by lia; cbn [res_bind]). rewrite zdrop_0, Z.sub_0_r, (ztake_all (zlen from - _)) by (rewrite zlen_zdrop; lia).
    destruct (IH (compress s (ztake block_bytes from)) (zdrop block_bytes from)) as (full & rest & E' & Ef & Hm & Hr).
    { assert (zlen (zdrop block_bytes from) < zlen from) by (rewrite zlen_zdrop; lia). unfold zlen in *. lia. }
    assert (zlen (ztake block_bytes from) = block_bytes) as Lb by (rewrite zlen_ztake; lia).
    exists (ztake block_bytes from ++ full), rest. split_and!; [| | |done].
    + rewrite process_app by (try rewrite Lb, Z.mod_same; lia). rewrite (process_block _ _ HB s) by done. exact E'.
    + rewrite <- app_assoc, <- Ef. by rewrite ztake_zdrop.
    + rewrite zlen_app, Lb, Z.add_comm. rewrite <- (Z.mul_1_l block_bytes) at 1. by rewrite Z.mod_add by lia.
  - exists [], from. split_and!; [|done|done|done]. by rewrite process_short.
Qed.

(** The tail of [update]: whole blocks, then what is left into the buffer. *)
Lemma update_tail s0 full from (h : Hasher S) n :
  zlen full mod block_bytes = 0 -> state h = process s0 full -> zlen (buffer h) = block_bytes ->
  length_bytes h = wrap length_bits n -> n = zlen (full ++ from) ->
  exists h', (let? (s, from) := absorb (E := E) (Datatypes.S (length from)) (state h) from in
              let? b := copy_at (buffer h) 0 from in
              Ok (h <| state := s |> <| buffer := b |> <| buffer_len := zlen from |>)) = Ok h' /\ absorbed s0 (full ++ from) h'.
Proof.
  pose proof block_pos as HB. intros Hm Hs Hb Hl ->. destruct (absorb_ok (Datatypes.S (length from)) (state h) from) as (full' & rest & -> & Ef & Hm' & Hr); [lia|].
  cbn [res_bind]. rewrite (copy_at_prefix [] (buffer h) rest 0 eq_refl) by lia. cbn [res_bind].
  eexists. split; [reflexivity|]. exists (full ++ full') rest (zdrop (zlen rest) (buffer h)); cbn; try done.
  - rewrite Ef. by rewrite app_assoc.
  - rewrite zlen_app, Z.add_mod, Hm, Hm' by lia. done.
  - rewrite process_app by done. by rewrite Hs.
  - rewrite zlen_app, zlen_zdrop, Hb. pose proof (zlen_nonneg rest). lia.
Qed.

Lemma update_ok s0 m (h : Hasher S) from :
  absorbed s0 m h -> exists h', update (E := E) h from = Ok h' /\ absorbed s0 (m ++ from) h'.
Proof.
  pose proof block_pos as HB. intros [full rest junk Em Hw Hr Hs Hb Hz Hl Hn].
  pose proof (zlen_nonneg rest) as Nr. pose proof (zlen_nonneg from) as Nf.
  assert (wrapping_add length_bits (length_bytes h) (zlen from) = wrap length_bits (zlen (m ++ from))) as Hn'
    by (rewrite Hn, wrapping_add_wrap, zlen_app; done).
  unfold update, set_field. cbn [state length_bytes buffer buffer_len]. rewrite Hn', Hl. destruct (Z.eqb_spec (zlen rest) 0) as [Hr0|Hr0]; cbn [negb].
  - apply zlen_zero in Hr0. subst rest. rewrite app_nil_r in Em. subst full. cbn [res_bind].
    by eapply update_tail; [..|reflexivity].
  - unfold checked_sub. rewrite (proj2 (Z.leb_le _ _)) by lia. cbn [or_panic res_bind buffer buffer_len].
    set (count := Z.min (block_bytes - zlen rest) (zlen from)). rewrite slice_ok by lia. cbn [res_bind].
    rewrite zdrop_0, Z.sub_0_r. assert (zlen (ztake count from) = count) as Lc by (rewrite zlen_ztake; lia).
    assert (zlen junk = block_bytes - zlen rest) as Lj by (rewrite Hb, zlen_app in Hz; lia).
    rewrite Hb, (copy_at_prefix rest) by lia. cbn [res_bind buffer_len]. rewrite slice_ok by lia. cbn [res_bind].
    rewrite (ztake_all (zlen from - count)) by (rewrite zlen_zdrop; lia). rewrite Lc.
    destruct (Z.eqb_spec (zlen rest + count) block_bytes) as [Hfull|Hpart].
    + assert (zdrop count junk = []) as -> by (apply zdrop_all; lia). rewrite app_nil_r.
      set (block := rest ++ ztake count from). assert (zlen block = block_bytes) as Lblock by (unfold block; rewrite zlen_app; lia).
      assert (m ++ from = (full ++ block) ++ zdrop count from) as Emf.
      { unfold block. rewrite Em, <- !app_assoc. by rewrite ztake_zdrop. }
      assert (zlen (full ++ block) mod block_bytes = 0) as Hw'.
      { rewrite zlen_app, Lblock. rewrite <- (Z.mul_1_l block_bytes) at 1. by rewrite Z.mod_add by lia. }
      assert (compress (state h) block = process s0 (full ++ block)) as Hs'
        by (rewrite process_app by done; rewrite process_block by done; by rewrite Hs).
      cbn [state buffer]. rewrite Hs'.
      destruct (Z.eqb_spec (zlen (zdrop count from)) 0) as [Hd|Hd].
      * cbn [res_bind]. eexists. split; [reflexivity|]. apply zlen_zero in Hd. rewrite Hd, app_nil_r in Emf.
        exists (full ++ block) [] block; try done. cbn. by rewrite app_nil_r.
      * cbn [res_bind]. rewrite Emf.
        apply (update_tail s0 (full ++ block) (zdrop count from)
          {| state := process s0 (full ++ block); length_bytes := wrap length_bits (zlen ((full ++ block) ++ zdrop count from));
             buffer := block; buffer_len := 0 |} (zlen ((full ++ block) ++ zdrop count from))); done.
    + assert (count = zlen from) as Ec by lia. rewrite Ec, (zdrop_all (zlen from) from), ztake_all by lia. cbn [res_bind].
      change (zlen (@nil Z) =? 0) with true. cbn iota. eexists. split; [reflexivity|].
      exists full (rest ++ from) (zdrop (zlen from) junk); cbn; try done.
      * by rewrite Em, app_assoc.
      * rewrite zlen_app. lia.
      * rewrite !zlen_app, zlen_zdrop. lia.
      * rewrite zlen_app. lia.
Qed.

Lemma fill_zero_ok pre mid post lo hi :
  lo = zlen pre -> hi = zlen pre + zlen mid -> fill_zero (E := E) (pre ++ mid ++ post) lo hi = Ok (pre ++ zeros (zlen mid) ++ post).
Proof.
  intros -> ->. pose proof (zlen_nonneg pre). pose proof (zlen_nonneg mid). pose proof (zlen_nonneg post).
  unfold fill_zero, checked_sub. rewrite (proj2 (Z.leb_le _ _)) by lia. cbn [or_panic res_bind].
  replace (zlen pre + zlen mid - zlen pre) with (zlen mid) by lia.
  rewrite copy_at_prefix by (rewrite ?zlen_app, ?zlen_zeros; lia). rewrite zlen_zeros, Z.max_r, zdrop_app_ge by lia.
  by rewrite Z.sub_diag, zdrop_0, app_assoc.
Qed.

(** The last block: [pre], zeros up to the length and the length. *)
Lemma last_block {A} pre junk len (k : bytes -> res E A) :
  zlen pre <= length_at -> zlen pre + zlen junk = block_bytes -> zlen len = Z.of_nat length_size ->
  (let? b := fill_zero (pre ++ junk) (zlen pre) length_at in let? b := copy_at b length_at len in k b) =
  k (pre ++ zeros (length_at - zlen pre) ++ len).
Proof.
  intros Hp Hj Hl. pose proof law_block. pose proof (zlen_nonneg pre). set (n := length_at - zlen pre).
  rewrite <- (ztake_zdrop n junk). assert (zlen (ztake n junk) = n) as Ln by (rewrite zlen_ztake; lia).
  rewrite fill_zero_ok by lia. cbn [res_bind]. rewrite Ln, app_assoc.
  rewrite copy_at_prefix by (rewrite ?zlen_app, ?zlen_zeros, ?zlen_zdrop; lia). cbn [res_bind].
  rewrite zdrop_all, app_nil_r, <- app_assoc by (rewrite zlen_zdrop; lia). done.
Qed.

Lemma finish_ok s0 m (h : Hasher S) :
  absorbed s0 m h ->
  finish (E := E) h = Ok (Fips.digest compress words_of block_bytes length_size word_size s0 m).
Proof.
  pose proof block_pos as HB. pose proof law_block as LB. pose proof law_first as LF.
  intros [full rest junk Em Hw Hr Hs Hb Hz Hl Hn]. pose proof (zlen_nonneg rest) as Nr.
  unfold finish, set_field. cbn [state length_bytes buffer buffer_len]. rewrite Hl, Hb.
  assert (zlen junk = block_bytes - zlen rest) as Lj by (rewrite Hb, zlen_app in Hz; lia).
  rewrite copy_at_prefix by (rewrite ?zlen_cons; change (zlen (@nil Z)) with 0; lia). cbn [res_bind].
  change (zlen [128]) with 1. set (pre := rest ++ [128]). assert (zlen pre = zlen rest + 1) as Lp by (unfold pre; rewrite zlen_app; done).
  rewrite <- Lp. set (j := zdrop 1 junk). assert (zlen pre + zlen j = block_bytes) as Hj by (unfold j; rewrite zlen_zdrop; lia).
  unfold wrapping_mul, wrap. rewrite Hn. unfold wrap. rewrite Z.mul_mod_idemp_l by (apply Z.pow_nonzero; unfold length_bits; lia).
  unfold length_bits. rewrite be_bytes_wrap, (Z.mul_comm (zlen m) 8). set (len := be_bytes length_size (8 * zlen m)).
  assert (zlen len = Z.of_nat length_size) as Llen by apply zlen_be_bytes.
  assert (zlen m mod block_bytes = zlen rest) as Hmod.
  { rewrite Em, zlen_app, Z.add_mod, Hw, Z.add_0_l, Z.mod_mod by lia. by apply Z.mod_small. }
  set (k := (length_at - 1 - zlen rest) mod block_bytes).
  assert (Fips.pad block_bytes length_size m = full ++ pre ++ zeros k ++ len) as Epad.
  { unfold Fips.pad, pre. fold len. rewrite Em at 1. rewrite <- !app_assoc. do 4 f_equal. f_equal. unfold k.
    replace (block_bytes - Z.of_nat length_size - 1 - zlen m) with (length_at - 1 - zlen m) by lia.
    rewrite Zminus_mod, Hmod. rewrite Zminus_mod_idemp_l. done. }
  unfold Fips.digest. rewrite Epad, (process_app compress block_bytes HB s0 full) by done. rewrite <- Hs.
  destruct (length_at <? zlen pre) eqn:T; bools.
  - assert (k = length_at - zlen pre + block_bytes) as Ek.
    { unfold k. rewrite <- (Z.mod_add _ 1) by lia. rewrite Z.mod_small; lia. }
    rewrite <- (app_nil_r j) at 1 2. rewrite fill_zero_ok by (rewrite ?zlen_app; change (zlen (@nil Z)) with 0; lia). cbn [res_bind state buffer buffer_len].
    rewrite app_nil_r. set (b1 := pre ++ zeros (zlen j)). assert (zlen b1 = block_bytes) as L1
      by (unfold b1; rewrite zlen_app, zlen_zeros; pose proof (zlen_nonneg j); lia).
    rewrite (last_block [] b1) by (change (zlen (@nil Z)) with 0; lia).
    change (zlen (@nil Z)) with 0. rewrite Z.sub_0_r. cbn [app]. do 2 f_equal. f_equal. f_equal.
    replace k with (zlen j + length_at) by (pose proof (zlen_nonneg j); lia). rewrite zeros_app by (pose proof (zlen_nonneg j); lia).
    rewrite <- app_assoc, app_assoc. fold b1.
    rewrite (process_app compress block_bytes HB _ b1) by (rewrite L1; apply Z.mod_same; lia).
    rewrite (process_block _ _ HB _ b1) by done. rewrite process_block; [done|done|]. rewrite zlen_app, zlen_zeros. lia.
  - assert (k = length_at - zlen pre) as Ek by (unfold k; rewrite Z.mod_small; lia).
    cbn [res_bind state buffer buffer_len]. rewrite last_block by lia. do 2 f_equal. f_equal. f_equal. rewrite Ek.
    rewrite process_block; [done|done|]. rewrite !zlen_app, zlen_zeros. pose proof (zlen_nonneg pre). lia.
Qed.

(** The calls of [update] on the pieces of a message. *)
Definition updates (h : Hasher S) (chunks : list bytes) : res E (Hasher S) :=
  foldl (fun h chunk => let? h := h in update h chunk) (Ok h) chunks.

Lemma updates_ok s0 chunks : forall m (h : Hasher S),
  absorbed s0 m h -> exists h', updates h chunks = Ok h' /\ absorbed s0 (m ++ concat chunks) h'.
Proof.
  unfold updates. induction chunks as [|c chunks IH]; intros m h Hh.
  - exists h. by rewrite app_nil_r.
  - cbn [foldl concat res_bind]. destruct (update_ok s0 m h c Hh) as (h1 & -> & H1). rewrite app_assoc. by apply IH.
Qed.

Lemma streamed s0 chunks :
  (let? h := updates (with_initial_state s0) chunks in finish h) =
  Ok (Fips.digest compress words_of block_bytes length_size word_size s0 (concat chunks)).
Proof.
  destruct (updates_ok s0 chunks [] _ (absorbed_new s0)) as (h & -> & Hh). by apply finish_ok.
Qed.
End Streaming.

Lemma sha256_lawful : LawfulHash Words8 (H := sha256_hash).
Proof. by constructor. Qed.
Lemma sha1_lawful : LawfulHash Words5 (H := sha1_hash).
Proof. by constructor. Qed.
Lemma sha512_lawful : LawfulHash Words8 (H := sha512_hash).
Proof. by constructor. Qed.

(** ** The theorems *)

Lemma blocks_ext {S} (P : S -> Prop) (f g : S -> bytes -> S) B n :
  (forall s b, P s -> f s b = g s b /\ P (g s b)) ->
  forall s m, P s -> Fips.blocks f B n s m = Fips.blocks g B n s m /\ P (Fips.blocks g B n s m).
Proof.
  intros Hfg. induction n as [|n IH]; intros s m Hs; [done|]. cbn [Fips.blocks].
  destruct (Hfg s (ztake B m) Hs) as [-> Hg]. by apply IH.
Qed.

Lemma digest_ext {S} (P : S -> Prop) (f g : S -> bytes -> S) words B L n s m :
  (forall s b, P s -> f s b = g s b /\ P (g s b)) -> P s -> Fips.digest f words B L n s m = Fips.digest g words B L n s m.
Proof.
  intros Hfg Hs. unfold Fips.digest, Fips.process. by destruct (blocks_ext P f g B (Z.to_nat (zlen (Fips.pad B L m) / B)) Hfg s (Fips.pad B L m) Hs) as [-> _].
Qed.

Lemma zlen_digest {S} (f : S -> bytes -> S) words B L n s m k :
  (forall s, zlen (words s) = k) -> zlen (Fips.digest f words B L n s m) = k * Z.of_nat n.
Proof.
  intros Hw. unfold Fips.digest. rewrite <- (Hw (Fips.process f B s (Fips.pad B L m))). generalize (words (Fips.process f B s (Fips.pad B L m))).
  intros l. induction l as [|x l IH]; [done|]. cbn [map concat]. rewrite zlen_app, zlen_be_bytes, IH, zlen_cons. lia.
Qed.

Lemma streamed1 {E} chunks :
  (let? h := updates (E := E) (H := sha1_hash) (with_initial_state (H := sha1_hash) Sha1.initial) chunks in finish (H := sha1_hash) h) =
  Ok (Fips.SHA1 (concat chunks)).
Proof.
  rewrite (streamed (H0 := sha1_lawful)). f_equal. apply (digest_ext typed5).
  - intros s b Hs. split; [by apply compress1_fips|apply typed_compress1].
  - repeat constructor; by_compute.
Qed.

Lemma streamed256 {E} chunks :
  (let? h := updates (E := E) (H := sha256_hash) (with_initial_state (H := sha256_hash) Sha256.initial) chunks in finish (H := sha256_hash) h) =
  Ok (Fips.SHA256 (concat chunks)).
Proof.
  rewrite (streamed (H0 := sha256_lawful)). f_equal. apply (digest_ext (fun _ => True)); [|done].
  intros s b _. split; [apply compress256_fips|done].
Qed.

Lemma streamed512 {E} s0 chunks :
  (let? h := updates (E := E) (H := sha512_hash) (with_initial_state (H := sha512_hash) s0) chunks in finish (H := sha512_hash) h) =
  Ok (Fips.digest Fips.compress512 words8 128 16 8 s0 (concat chunks)).
Proof.
  rewrite (streamed (H0 := sha512_lawful)). f_equal. apply (digest_ext (fun _ => True)); [|done].
  intros s b _. split; [apply compress512_fips|done].
Qed.

Lemma streamed384 {E} chunks :
  (let? h := updates (E := E) (H := sha512_hash) (with_initial_state (H := sha512_hash) Sha512.initial384) chunks in
   let? d := finish (H := sha512_hash) h in slice d 0 48) = Ok (Fips.SHA384 (concat chunks)).
Proof.
  pose proof (streamed512 (E := E) Sha512.initial384 chunks) as Hs. destruct (updates _ chunks) as [h|e|]; [|done|done].
  cbn [res_bind] in *. rewrite Hs. cbn [res_bind].
  pose proof (zlen_digest Fips.compress512 words8 128 16 8 Sha512.initial384 (concat chunks) 8 (fun _ => eq_refl)) as L.
  rewrite slice_ok by lia. by rewrite zdrop_0.
Qed.

(** C25. However a message is cut into pieces, hashing it piece by piece with any
    of the four hashers gives the FIPS 180-4 digest of the whole message, and
    so do the functions that hash it at once; none of them panics. *)
Theorem hashes_match_fips {E} (chunks : list bytes) (m : bytes) :
  m = concat chunks ->
  (let? h := updates (E := E) (H := sha1_hash) (with_initial_state (H := sha1_hash) Sha1.initial) chunks in finish (H := sha1_hash) h) = Ok (Fips.SHA1 m) /\
  (let? h := updates (E := E) (H := sha256_hash) (with_initial_state (H := sha256_hash) Sha256.initial) chunks in finish (H := sha256_hash) h) = Ok (Fips.SHA256 m) /\
  (let? h := updates (E := E) (H := sha512_hash) (with_initial_state (H := sha512_hash) Sha512.initial) chunks in finish (H := sha512_hash) h) = Ok (Fips.SHA512 m) /\
  (let? h := updates (E := E) (H := sha512_hash) (with_initial_state (H := sha512_hash) Sha512.initial384) chunks in
   let? d := finish (H := sha512_hash) h in slice d 0 48) = Ok (Fips.SHA384 m) /\
  sha1 (E := E) m = Ok (Fips.SHA1 m) /\ sha256 (E := E) m = Ok (Fips.SHA256 m) /\
  sha512 (E := E) m = Ok (Fips.SHA512 m) /\ sha384 (E := E) m = Ok (Fips.SHA384 m).
Proof.
  intros ->. pose proof (streamed1 (E := E) [concat chunks]) as H1. pose proof (streamed256 (E := E) [concat chunks]) as H2.
  pose proof (streamed512 (E := E) Sha512.initial [concat chunks]) as H3. pose proof (streamed384 (E := E) [concat chunks]) as H4.
  cbn [concat] in H1, H2, H3, H4. rewrite app_nil_r in H1, H2, H3, H4.
  split_and!; [apply streamed1|apply streamed256|apply streamed512|apply streamed384|done..].
Qed.

(** What the types of the source say of a hasher: [k] words of the word size,
    a full buffer, a position inside it and a length that wrapped. *)
Record hasher_typed_at {S} {H : Hash S} (k : Z) (h : Hasher S) : Prop := {
  ht_words : Forall (in_range (8 * Z.of_nat word_size)) (words_of (state h)) /\ zlen (words_of (state h)) = k;
  ht_buffer : zlen (buffer h) = block_bytes;
  ht_len : 0 <= buffer_len h < block_bytes;
  ht_length : in_range length_bits (length_bytes h);
}.

Lemma absorbed_typed {S} {H : Hash S} {L : LawfulHash S} k s0 m (h : Hasher S) :
  (forall s, zlen (words_of s) = k) -> (forall s b, Forall (in_range (8 * Z.of_nat word_size)) (words_of (compress s b))) ->
  Forall (in_range (8 * Z.of_nat word_size)) (words_of s0) -> absorbed s0 m h -> hasher_typed_at k h.
Proof.
  intros Hk Hc H0 [full rest junk Em Hw Hr Hs Hb Hz Hl Hn]. constructor.
  - split; [|apply Hk]. rewrite Hs. unfold Fips.process.
    refine (proj2 (blocks_ext (fun s => Forall (in_range (8 * Z.of_nat word_size)) (words_of s)) compress compress _ _ _ _ _ H0)).
    intros s b _. split; [done|apply Hc].
  - done.
  - pose proof (zlen_nonneg rest). lia.
  - rewrite Hn. apply wrap_range. unfold length_bits. lia.
Qed.

(** Every hasher reached by updates is well typed: 32-bit words for SHA-1 and
    SHA-256, 64-bit words for SHA-512 and SHA-384, a buffer of one block with
    the position strictly inside it, and digests of 20, 32, 64 and 48 bytes. *)
Theorem hashers_typed {E} (chunks : list bytes) :
  (exists h, updates (E := E) (H := sha1_hash) (with_initial_state (H := sha1_hash) Sha1.initial) chunks = Ok h /\ hasher_typed_at (H := sha1_hash) 5 h) /\
  (exists h, updates (E := E) (H := sha256_hash) (with_initial_state (H := sha256_hash) Sha256.initial) chunks = Ok h /\ hasher_typed_at (H := sha256_hash) 8 h) /\
  (exists h, updates (E := E) (H := sha512_hash) (with_initial_state (H := sha512_hash) Sha512.initial) chunks = Ok h /\ hasher_typed_at (H := sha512_hash) 8 h) /\
  (exists h, updates (E := E) (H := sha512_hash) (with_initial_state (H := sha512_hash) Sha512.initial384) chunks = Ok h /\ hasher_typed_at (H := sha512_hash) 8 h) /\
  zlen (Fips.SHA1 (concat chunks)) = SHA1_DIGEST_SIZE /\ zlen (Fips.SHA256 (concat chunks)) = SHA256_DIGEST_SIZE /\
  zlen (Fips.SHA512 (concat chunks)) = SHA512_DIGEST_SIZE /\ zlen (Fips.SHA384 (concat chunks)) = 48.
Proof.
  split_and!.
  - destruct (updates_ok (H0 := sha1_lawful) (E := E) Sha1.initial chunks [] _ (absorbed_new (H0 := sha1_lawful) _)) as (h & -> & Hh).
    exists h. split; [done|]. eapply (absorbed_typed (L := sha1_lawful)); [done| | |exact Hh].
    + intros s b. cbn. unfold Sha1.compress. destruct (foldl _ _ _) as [v ?]. repeat constructor; by apply wrap_range.
    + repeat constructor; by_compute.
  - destruct (updates_ok (H0 := sha256_lawful) (E := E) Sha256.initial chunks [] _ (absorbed_new (H0 := sha256_lawful) _)) as (h & -> & Hh).
    exists h. split; [done|]. eapply (absorbed_typed (L := sha256_lawful)); [done| | |exact Hh].
    + intros s b. cbn [compress words_of sha256_hash]. rewrite compress256_fips. by apply typed_add8.
    + repeat constructor; by_compute.
  - destruct (updates_ok (H0 := sha512_lawful) (E := E) Sha512.initial chunks [] _ (absorbed_new (H0 := sha512_lawful) _)) as (h & -> & Hh).
    exists h. split; [done|]. eapply (absorbed_typed (L := sha512_lawful)); [done| | |exact Hh].
    + intros s b. by apply typed_add8.
    + repeat constructor; by_compute.
  - destruct (updates_ok (H0 := sha512_lawful) (E := E) Sha512.initial384 chunks [] _ (absorbed_new (H0 := sha512_lawful) _)) as (h & -> & Hh).
    exists h. split; [done|]. eapply (absorbed_typed (L := sha512_lawful)); [done| | |exact Hh].
    + intros s b. by apply typed_add8.
    + repeat constructor; by_compute.
  - by refine (zlen_digest Fips.compress1 words5 64 8 4 _ _ 5 _).
  - by refine (zlen_digest Fips.compress256 words8 64 8 4 _ _ 8 _).
  - by refine (zlen_digest Fips.compress512 words8 128 16 8 _ _ 8 _).
  - unfold Fips.SHA384. rewrite zlen_ztake, (zlen_digest _ _ _ _ _ _ _ 8) by done. done.
Qed.

(** The constants the specification shares with the code are the standard's: the
    first bits of the fractional parts of the cube roots of the first primes in
    the tables, of their square roots in the initial values. *)
Definition first_primes : list Z :=
  filter (fun n => forallb (fun d => negb (n mod d =? 0)) (seqZ 2 (n - 2))) (seqZ 2 408).

(** [k] are the first [bits] bits after the point of the [e]-th root of [p]. *)
Definition root_bits (e bits p k : Z) : bool :=
  existsb (fun whole => let c := whole * 2 ^ bits + k in
             (k <? 2 ^ bits) && (c ^ e <=? p * 2 ^ (bits * e)) && (p * 2 ^ (bits * e) <? (c + 1) ^ e)) (seqZ 1 7).

Definition all_roots (e bits : Z) (ps ks : list Z) : bool :=
  bool_decide (length ps = length ks) && forallb (fun '(p, k) => root_bits e bits p k) (zip ps ks).

Lemma constants_of_the_standard :
  all_roots 3 32 (take 64 first_primes) Sha256.K = true /\ all_roots 3 64 (take 80 first_primes) Sha512.K = true /\
  all_roots 2 32 (take 8 first_primes) (words8 Sha256.initial) = true /\
  all_roots 2 64 (take 8 first_primes) (words8 Sha512.initial) = true /\
  all_roots 2 64 (take 8 (drop 8 first_primes)) (words8 Sha512.initial384) = true.
Proof. split_and!; vm_compute; reflexivity. Qed.

(** The vectors of the source's tests. *)
Example sha256_abc : sha256 (E := unit) [97; 98; 99] = Ok
  [0xba; 0x78; 0x16; 0xbf; 0x8f; 0x01; 0xcf; 0xea; 0x41; 0x41; 0x40; 0xde; 0x5d; 0xae; 0x22; 0x23;
   0xb0; 0x03; 0x61; 0xa3; 0x96; 0x17; 0x7a; 0x9c; 0xb4; 0x10; 0xff; 0x61; 0xf2; 0x00; 0x15; 0xad].
Proof. vm_compute. reflexivity. Qed.

Example sha1_abc : sha1 (E := unit) [97; 98; 99] = Ok
  [0xa9; 0x99; 0x3e; 0x36; 0x47; 0x06; 0x81; 0x6a; 0xba; 0x3e; 0x25; 0x71; 0x78; 0x50; 0xc2; 0x6c; 0x9c; 0xd0; 0xd8; 0x9d].
Proof. vm_compute. reflexivity. Qed.

Lemma hashes_match_fips_witness : (let? h := updates (E := unit) (H := sha256_hash)
    (with_initial_state (H := sha256_hash) Sha256.initial) [[97]; [98; 99]] in finish (H := sha256_hash) h) = sha256 [97; 98; 99].
Proof.
  destruct (hashes_match_fips (E := unit) [[97]; [98; 99]] [97; 98; 99]) as (_ & H2 & _ & _ & _ & H6 & _); [reflexivity|].
  rewrite H6. exact H2.
Defined.
