(* ===== verification/Primality.v ===== *)
(** * Fermat's theorem and primality certificates

    What the P-256 code relies on of its two moduli: they are prime, so that
    raising to [m - 2] inverts. Fermat's little theorem, trial division and
    Pocklington's criterion, and the certificates of the two primes. *)

From S2P Require Import Prelude.
From stdpp Require Import base tactics numbers list.
From Stdlib Require Import ZArith Znumtheory Zdiv Zpow_facts Lia.

Open Scope Z_scope.

(** Congruence modulo [p], a [Proper] equivalence for sums and products. *)
#[export] Existing Instance eqm_setoid.
#[export] Existing Instance Zplus_eqm.
#[export] Existing Instance Zminus_eqm.
#[export] Existing Instance Zmult_eqm.
#[export] Existing Instance Zopp_eqm.

(** ** Fermat's little theorem *)

Definition product (l : list Z) : Z := foldr Z.mul 1 l.

Lemma product_perm l k : l ≡ₚ k -> product l = product k.
Proof. unfold product. induction 1; cbn; [done|congruence|ring|congruence]. Qed.

Lemma rel_prime_product p l : Forall (rel_prime p) l -> rel_prime p (product l).
Proof.
  induction 1 as [|x l Hx _ IH]; cbn; [apply rel_prime_sym, rel_prime_1|by apply rel_prime_mult].
Qed.

Lemma eqm_cancel p k v w : rel_prime p k -> eqm p (v * k) (w * k) -> eqm p v w.
Proof.
  intros Hk E. unfold eqm in *. apply Z.cong_iff_ex in E as [q E]. apply Z.cong_iff_ex.
  destruct (Gauss p k (v - w)) as [r Hr]; [exists q; lia|done|by exists r].
Qed.

Lemma product_scaled p a l : 0 < p -> eqm p (product (map (fun i => (a * i) mod p) l)) (a ^ zlen l * product l).
Proof.
  intros Hp. induction l as [|x l IH]; [by cbn|]. cbn [map product foldr]. rewrite zlen_cons, Z.pow_add_r, Z.pow_1_r
    by (pose proof (zlen_nonneg l); lia). fold (product (map (fun i => (a * i) mod p) l)) (product l).
  etransitivity; [apply Zmult_eqm; [apply Zmod_eqm|exact IH]|]. replace (a * x * (a ^ zlen l * product l)) with (a ^ zlen l * a * (x * product l)) by ring.
  reflexivity.
Qed.

Lemma scaled_perm p a : prime p -> rel_prime p a -> map (fun i => (a * i) mod p) (seqZ 1 (p - 1)) ≡ₚ seqZ 1 (p - 1).
Proof.
  intros Hp Ha. pose proof (prime_ge_2 _ Hp). apply submseteq_length_Permutation; [|by rewrite length_map].
  apply NoDup_submseteq.
  - apply NoDup_fmap_2_strong; [|apply NoDup_seqZ]. intros x y Hx%elem_of_seqZ Hy%elem_of_seqZ E.
    assert (eqm p x y) as E' by (apply (eqm_cancel p a); [done|]; rewrite !(Z.mul_comm _ a); exact E).
    unfold eqm in E'. rewrite !Z.mod_small in E' by lia. done.
  - intros z (x & -> & Hx%elem_of_seqZ)%list_elem_of_fmap. apply elem_of_seqZ.
    pose proof (Z.mod_pos_bound (a * x) p ltac:(lia)). cut ((a * x) mod p <> 0); [lia|]. intros E. apply Z.mod_divide in E; [|lia].
    pose proof (Gauss p a x E Ha) as Hd. apply Z.divide_pos_le in Hd; lia.
Qed.

Theorem fermat_little p a : prime p -> rel_prime p a -> eqm p (a ^ (p - 1)) 1.
Proof.
  intros Hp Ha. pose proof (prime_ge_2 _ Hp). apply (eqm_cancel p (product (seqZ 1 (p - 1)))).
  - apply rel_prime_product, Forall_forall. intros x Hx%elem_of_seqZ. apply rel_prime_sym, rel_prime_le_prime; [done|lia].
  - pose proof (product_scaled p a (seqZ 1 (p - 1)) ltac:(lia)) as E. rewrite (product_perm _ _ (scaled_perm p a Hp Ha)) in E.
    unfold zlen in E. rewrite length_seqZ, Z2Nat.id in E by lia. rewrite Z.mul_1_l. by symmetry.
Qed.

Lemma prime_rel_prime_mod p a : prime p -> a mod p <> 0 -> rel_prime p a.
Proof. intros Hp Ha. apply prime_rel_prime; [done|]. intros Hd. apply Ha. apply Z.mod_divide; [pose proof (prime_ge_2 _ Hp); lia|done]. Qed.

(** Raising to [p - 2] inverts. *)
Lemma fermat_inverse p a : prime p -> a mod p <> 0 -> eqm p (a * a ^ (p - 2)) 1.
Proof.
  intros Hp Ha. pose proof (prime_ge_2 _ Hp). rewrite <- Z.pow_succ_r by lia. replace (Z.succ (p - 2)) with (p - 1) by lia.
  by apply fermat_little, prime_rel_prime_mod.
Qed.

(** ** Prime divisors *)

Lemma prime_divisor n : 1 < n -> exists r, prime r /\ (r | n).
Proof.
  intros Hn. assert (0 <= n) as H0 by lia. revert Hn. pattern n. apply Z_lt_induction; [|done]. clear n H0. intros n IH Hn.
  destruct (prime_dec n) as [|Hc]; [by exists n|]. destruct (not_prime_divide n Hn Hc) as (d & Hd & Hdn).
  destruct (IH d ltac:(lia) ltac:(lia)) as (r & Hr & Hrd). exists r. split; [done|]. by transitivity d.
Qed.

Lemma small_divisor n : 1 < n -> ~ prime n -> exists r, prime r /\ (r | n) /\ r * r <= n.
Proof.
  intros Hn Hc. destruct (not_prime_divide n Hn Hc) as (d & Hd & e & He).
  assert (exists f, 1 < f /\ (f | n) /\ f * f <= n) as (f & Hf & Hfn & Hff).
  { destruct (decide (d <= e)); [exists d|exists e]; (split_and!; [nia| |nia]); [by exists e|exists d; lia]. }
  destruct (prime_divisor f Hf) as (r & Hr & Hrf). pose proof (prime_ge_2 _ Hr). exists r. split_and!; [done|by transitivity f|].
  apply Z.divide_pos_le in Hrf; [nia|lia].
Qed.

(** Trial division. *)
Definition no_divisor (n : Z) : bool := forallb (fun d => negb (n mod d =? 0)) (seqZ 2 (Z.sqrt n)).

Lemma trial_division n : 1 < n -> no_divisor n = true -> prime n.
Proof.
  intros Hn Ht. destruct (prime_dec n) as [|Hc]; [done|]. destruct (small_divisor n Hn Hc) as (r & Hr & Hd & Hrr).
  pose proof (prime_ge_2 _ Hr). unfold no_divisor in Ht. rewrite forallb_forall in Ht. specialize (Ht r).
  rewrite <- list_elem_of_In, elem_of_seqZ in Ht. pose proof (Z.sqrt_le_square n r ltac:(lia) ltac:(lia)) as Hs.
  apply Z.mod_divide in Hd; [|lia]. rewrite Hd in Ht. cbn in Ht. by discriminate Ht; lia.
Qed.

(** ** Pocklington's criterion *)

Record pocklington_at (n a q : Z) : Prop := {
  pk_prime : prime q;
  pk_divides : (q | n - 1);
  pk_coprime : rel_prime (a ^ ((n - 1) / q) - 1) n;
}.

Lemma pow_eqm p a b k : 0 <= k -> eqm p a b -> eqm p (a ^ k) (b ^ k).
Proof.
  intros Hk E. revert k Hk. apply natlike_ind; [done|]. intros k Hk IH. rewrite !Z.pow_succ_r by done. by apply Zmult_eqm.
Qed.

Lemma pocklington_divisor n a q r :
  1 < n -> eqm n (a ^ (n - 1)) 1 -> pocklington_at n a q -> prime r -> (r | n) -> (q | r - 1).
Proof.
  intros Hn Ha [Hq [k Hk] Hc] Hr Hrn. pose proof (prime_ge_2 _ Hq). pose proof (prime_ge_2 _ Hr).
  destruct (Zdivide_dec q (r - 1)) as [|Hnd]; [done|].
  assert (rel_prime q (r - 1)) as Hrel by (by apply prime_rel_prime). apply rel_prime_bezout in Hrel as [u v Huv].
  assert ((n - 1) / q = k) as Ek by (rewrite Hk, Z.div_mul; lia). rewrite Ek in Hc. assert (0 <= k) by nia.
  assert (eqm r (a ^ (n - 1)) 1) as Har.
  { unfold eqm in *. apply Z.cong_iff_ex in Ha as [j Hj]. apply Z.cong_iff_ex. destruct Hrn as [w Hw]. exists (j * w). nia. }
  assert (rel_prime r a) as Hra.
  { apply prime_rel_prime; [done|]. intros [w Hw]. unfold eqm in Har. replace (n - 1) with (Z.succ (n - 2)) in Har by lia.
    rewrite Z.pow_succ_r in Har by lia. rewrite Hw in Har at 1. replace (w * r * a ^ (n - 2)) with (w * a ^ (n - 2) * r) in Har by ring.
    rewrite Z.mod_mul, Z.mod_small in Har by lia. done. }
  pose proof (fermat_little r a Hr Hra) as Hf.
  assert (eqm r (a ^ k) 1) as Hak.
  { (* choose the exponent of [a ^ k] nonnegatively *)
    set (t := 1 + Z.abs u + Z.abs v). assert (exists x y, 0 <= x /\ 0 <= y /\ x * q = 1 + y * (r - 1)) as (x & y & Hx & Hy & Hxy).
    { assert (Z.abs u <= t /\ Z.abs v <= t) as [Bu Bv] by lia. clearbody t. exists (u + t * (r - 1)), (- v + t * q). split_and!; [nia|nia|].
      transitivity (u * q + t * q * (r - 1)); [ring|]. replace (u * q) with (1 - v * (r - 1)) by lia. ring. }
    assert (eqm r (a ^ (k * (x * q))) 1) as E1.
    { replace (k * (x * q)) with ((n - 1) * x) by lia. rewrite Z.pow_mul_r by lia. etransitivity; [by apply pow_eqm|]. by rewrite Z.pow_1_l. }
    rewrite Hxy in E1. replace (k * (1 + y * (r - 1))) with (k + (r - 1) * (y * k)) in E1 by ring.
    rewrite Z.pow_add_r, (Z.pow_mul_r a (r - 1)) in E1 by nia.
    assert (eqm r ((a ^ (r - 1)) ^ (y * k)) 1) as E2 by (etransitivity; [apply pow_eqm; [nia|exact Hf]|]; by rewrite Z.pow_1_l by nia).
    rewrite E2, Z.mul_1_r in E1. done. }
  unfold eqm in Hak. apply Z.cong_iff_ex in Hak as [j Hj].
  exfalso. assert (r | 1) as Hd; [|apply Z.divide_pos_le in Hd; lia]. apply (rel_prime_bezout) in Hc as [u' v' Huv']. destruct Hrn as [w Hw].
  exists (u' * j + v' * w). rewrite <- Huv', Hj, Hw. ring.
Qed.

Lemma distinct_primes_rel q l : prime q -> Forall prime l -> q ∉ l -> rel_prime q (product l).
Proof.
  intros Hq Hl Hn. apply rel_prime_product. rewrite Forall_forall in *. intros x Hx. apply prime_rel_prime; [done|].
  intros Hd. apply Hn. by rewrite (prime_div_prime q x) by auto.
Qed.

Lemma product_divides x l : NoDup l -> Forall prime l -> Forall (fun q => (q | x)) l -> (product l | x).
Proof.
  induction 1 as [|q l Hq Hnd IH]; intros Hp Hd; [by exists x; cbn; lia|]. apply Forall_cons in Hp as [Hpq Hp], Hd as [Hdq Hd].
  destruct (IH Hp Hd) as [y Hy]. cbn [product foldr]. fold (product l).
  destruct (Gauss q (product l) y) as [z Hz]; [by rewrite Z.mul_comm, <- Hy|by apply distinct_primes_rel|]. exists z. rewrite Hy, Hz. ring.
Qed.

Lemma product_pos l : Forall prime l -> 1 <= product l.
Proof.
  induction 1 as [|q l Hq _ IH]; [done|]. cbn [product foldr]. fold (product l). pose proof (prime_ge_2 _ Hq). nia.
Qed.

Theorem pocklington n a qs :
  1 < n -> eqm n (a ^ (n - 1)) 1 -> NoDup qs -> Forall (pocklington_at n a) qs -> n < (product qs + 1) * (product qs + 1) -> prime n.
Proof.
  intros Hn Ha Hnd Hq Hbig. destruct (prime_dec n) as [|Hc]; [done|]. destruct (small_divisor n Hn Hc) as (r & Hr & Hrn & Hrr).
  pose proof (prime_ge_2 _ Hr). assert (product qs | r - 1) as Hd.
  { apply product_divides; [done|..]; (eapply Forall_impl; [exact Hq|]); intros q Hpk; [by destruct Hpk|by apply (pocklington_divisor n a)]. }
  assert (1 <= product qs) by (apply product_pos; eapply Forall_impl; [exact Hq|]; by intros q []).
  apply Z.divide_pos_le in Hd; [nia|lia].
Qed.

(** A certificate, checked by computation; the [q] are proved apart. *)
Definition certified (n a : Z) (qs : list Z) : bool :=
  (1 <? n) && (Zpow_mod a (n - 1) n =? 1) && bool_decide (NoDup qs) &&
  forallb (fun q => ((n - 1) mod q =? 0) && (Z.gcd ((Zpow_mod a ((n - 1) / q) n - 1) mod n) n =? 1)) qs &&
  (n <? (product qs + 1) * (product qs + 1)).

Lemma certified_prime n a qs : Forall prime qs -> certified n a qs = true -> prime n.
Proof.
  intros Hp Hc. unfold certified in Hc. rewrite !andb_true_iff, bool_decide_eq_true, forallb_forall in Hc.
  destruct Hc as [[[[Hn Ha] Hnd] Hq] Hbig]. bools. rewrite Zpow_mod_correct in Ha by lia.
  apply (pocklington n a qs); [lia|unfold eqm; by rewrite (Z.mod_small 1) by lia|done| |lia].
  rewrite Forall_forall in *. intros q Hin. specialize (Hp q Hin). pose proof (prime_ge_2 _ Hp).
  specialize (Hq q (proj1 (list_elem_of_In _ _) Hin)). apply andb_true_iff in Hq as [Hq Hg]. bools.
  rewrite Zpow_mod_correct in Hg by lia. constructor; [done|by apply Z.mod_divide; [lia|]|].
  apply Zgcd_1_rel_prime. rewrite Zminus_mod_idemp_l in Hg. rewrite Z.gcd_mod in Hg by lia. by rewrite Z.gcd_comm.
Qed.

(** ** The moduli of P-256 *)

Definition P256_P : Z := 0xffffffff00000001000000000000000000000000ffffffffffffffffffffffff.
Definition P256_N : Z := 0xffffffff00000000ffffffffffffffffbce6faada7179e84f3b9cac2fc632551.

Ltac by_trial := apply trial_division; [reflexivity|vm_compute; reflexivity].
Ltac by_certificate qs := apply (certified_prime _ 2 qs); [|vm_compute; reflexivity].

Lemma prime_46076956964474543 : prime 46076956964474543.
Proof. by_certificate [704251; 78283]. repeat apply Forall_cons_2; [by_trial|by_trial|apply Forall_nil_2]. Qed.

Lemma prime_66417393611 : prime 66417393611.
Proof. by_certificate [3677; 197]. repeat apply Forall_cons_2; [by_trial|by_trial|apply Forall_nil_2]. Qed.

Lemma prime_11290956913871 : prime 11290956913871.
Proof. by_certificate [66417393611]. apply Forall_cons_2; [apply prime_66417393611|apply Forall_nil_2]. Qed.

Lemma prime_150_bits : prime 774023187263532362759620327192479577272145303.
Proof.
  by_certificate [46076956964474543; 11290956913871].
  repeat apply Forall_cons_2; [apply prime_46076956964474543|apply prime_11290956913871|apply Forall_nil_2].
Qed.

Lemma prime_160_bits : prime 835945042244614951780389953367877943453916927241.
Proof.
  by_certificate [774023187263532362759620327192479577272145303]. apply Forall_cons_2; [apply prime_150_bits|apply Forall_nil_2].
Qed.

Lemma prime_field : prime P256_P.
Proof.
  by_certificate [835945042244614951780389953367877943453916927241]. apply Forall_cons_2; [apply prime_160_bits|apply Forall_nil_2].
Qed.

Lemma prime_191039911 : prime 191039911.
Proof. by_certificate [155317]. apply Forall_cons_2; [by_trial|apply Forall_nil_2]. Qed.

Lemma prime_208150935158385979 : prime 208150935158385979.
Proof. by_certificate [191039911; 3023]. repeat apply Forall_cons_2; [apply prime_191039911|by_trial|apply Forall_nil_2]. Qed.

Lemma prime_91_bits : prime 2624747550333869278416773953.
Proof. by_certificate [208150935158385979]. apply Forall_cons_2; [apply prime_208150935158385979|apply Forall_nil_2]. Qed.

Lemma prime_1002328039319 : prime 1002328039319.
Proof. by_certificate [3969899]. apply Forall_cons_2; [by_trial|apply Forall_nil_2]. Qed.

Lemma prime_order : prime P256_N.
Proof.
  by_certificate [2624747550333869278416773953; 1002328039319].
  repeat apply Forall_cons_2; [apply prime_91_bits|apply prime_1002328039319|apply Forall_nil_2].
Qed.
