(* ===== verification/P256Field.v ===== *)
(** * P-256: limbs and Montgomery arithmetic (src/src/crypto/p256.rs)

    [U256], four 64-bit limbs, and [Modulus], arithmetic modulo an odd number
    in Montgomery form. The theorems show that the limb code is arithmetic on
    the numbers, that [mont_mul] is Montgomery multiplication, and that
    [Modulus.new] builds the right constants. *)

From S2P Require Import Prelude Primality.
From stdpp Require Import base tactics numbers list.
From Stdlib Require Import ZArith Znumtheory Zdiv Lia.

Open Scope Z_scope.

(** ** Limbs *)

Definition P256_ELEMENT_BYTES : Z := 32.

(** [struct U256([u64; 4])]: four limbs, the low one first. *)
Definition U256 : Type := list Z.

Definition ZERO : U256 := [0; 0; 0; 0].
Definition u256_one : U256 := [1; 0; 0; 0].

Definition from_be_bytes (from : bytes) : U256 :=
  map (fun index => let start := P256_ELEMENT_BYTES - 8 * (index + 1) in be_val (ztake 8 (zdrop start from))) (seqZ 0 4).

(** The limbs are written from the end of the array towards its start. *)
Definition to_be_bytes (a : U256) : bytes := foldl (fun out limb => be_bytes 8 limb ++ out) [] a.

Definition is_zero (a : U256) : bool := forallb (fun limb => limb =? 0) a.

Definition bit (a : U256) (index : Z) : Z := Z.land (Z.shiftr (a !!! Z.to_nat (index / 64)) (index mod 64)) 1.

Fixpoint adc_loop (a b : list Z) (carry : Z) : list Z * Z :=
  match a, b with
  | x :: a, y :: b =>
      let sum := x + y + carry in
      let '(out, carry) := adc_loop a b (Z.shiftr sum 64) in
      (wrap 64 sum :: out, carry)
  | _, _ => ([], carry)
  end.
Definition adc (a b : U256) : U256 * Z := let '(out, carry) := adc_loop a b 0 in (out, wrap 64 carry).

Fixpoint sbb_loop (a b : list Z) (borrow : Z) : list Z * Z :=
  match a, b with
  | x :: a, y :: b =>
      let diff := x - y - borrow in
      let '(out, borrow) := sbb_loop a b (if diff <? 0 then 1 else 0) in
      (wrap 64 diff :: out, borrow)
  | _, _ => ([], borrow)
  end.
Definition sbb (a b : U256) : U256 * Z := let '(out, borrow) := sbb_loop a b 0 in (out, wrap 64 borrow).

(** [for index in (0..n).rev()]. *)
Fixpoint ge_loop (n : nat) (a b : U256) : bool :=
  match n with
  | O => true
  | S index => if negb (a !!! index =? b !!! index) then b !!! index <? a !!! index else ge_loop index a b
  end.
Definition u256_ge (a b : U256) : bool := ge_loop 4 a b.

Definition select (a b : U256) (choose_a : Z) : U256 :=
  let mask := wrapping_sub 64 0 choose_a in
  zip_with (fun a_limb b_limb => Z.lor (Z.land a_limb mask) (Z.land b_limb (bit_not 64 mask))) a b.

Definition mac (a b c carry : Z) : Z * Z :=
  let wide := a + b * c + carry in (wrap 64 wide, wrap 64 (Z.shiftr wide 64)).

(** ** Arithmetic modulo [m] *)

Record Modulus := { m : U256; n0 : Z; r2 : U256; one : U256 }.

Definition newton_step (m0 inverse : Z) : Z := wrapping_mul 64 inverse (wrapping_sub 64 2 (wrapping_mul 64 m0 inverse)).
Definition wrapping_neg (w x : Z) : Z := wrap w (- x).

(** [while one.ge(m)]; enough turns are part of the theorems. *)
Fixpoint reduce_loop (fuel : nat) (modulus one : U256) : option U256 :=
  match fuel with
  | O => None
  | S fuel => if u256_ge one modulus then let '(reduced, _) := sbb one modulus in reduce_loop fuel modulus reduced else Some one
  end.

Definition double_mod (modulus r : U256) : U256 :=
  let '(doubled, carry) := adc r r in
  let '(reduced, borrow) := sbb doubled modulus in
  if (carry =? 1) || (borrow =? 0) then reduced else doubled.

(** [Modulus::new], with the number of turns the reduction may take. *)
Definition modulus_new (fuel : nat) (modulus : U256) : option Modulus :=
  let inverse := Nat.iter 6 (newton_step (modulus !!! 0%nat)) 1 in
  let n0 := wrapping_neg 64 inverse in
  let '(one, _) := sbb ZERO modulus in
  match reduce_loop fuel modulus one with
  | None => None
  | Some one => Some {| m := modulus; n0 := n0; r2 := Nat.iter 256 (double_mod modulus) one; one := one |}
  end.

Definition overflowing_add (w x y : Z) : Z * bool := (wrap w (x + y), 2 ^ w <=? x + y).
Definition from_bool (b : bool) : Z := if b then 1 else 0.

(** The first inner loop: [t\[j\] += a_i * b\[j\]]. *)
Definition mul_row (ai : Z) (b : U256) (t : list Z) : list Z * Z :=
  foldl (fun '(t, carry) j => let '(lo, hi) := mac (t !!! j) ai (b !!! j) carry in (<[j := lo]> t, hi)) (t, 0) [0; 1; 2; 3]%nat.

(** The second: adds [factor * m] and shifts down by a limb. *)
Definition reduce_row (factor : Z) (modulus : U256) (t : list Z) (carry : Z) : list Z * Z :=
  foldl (fun '(t, carry) j => let '(lo, hi) := mac (t !!! j) factor (modulus !!! j) carry in (<[(j - 1)%nat := lo]> t, hi)) (t, carry) [1; 2; 3]%nat.

Definition mont_step (M : Modulus) (a b : U256) (t : list Z) (i : nat) : list Z :=
  let '(t, carry) := mul_row (a !!! i) b t in
  let '(sum, overflow) := overflowing_add 64 (t !!! 4%nat) carry in
  let t := <[4%nat := sum]> t in
  let t := <[5%nat := wrapping_add 64 (t !!! 5%nat) (from_bool overflow)]> t in
  let factor := wrapping_mul 64 (t !!! 0%nat) (n0 M) in
  let '(_, carry) := mac (t !!! 0%nat) factor (m M !!! 0%nat) 0 in
  let '(t, carry) := reduce_row factor (m M) t carry in
  let '(sum, overflow) := overflowing_add 64 (t !!! 4%nat) carry in
  let t := <[3%nat := sum]> t in
  let t := <[4%nat := wrapping_add 64 (t !!! 5%nat) (from_bool overflow)]> t in
  <[5%nat := 0]> t.

Definition mont_mul (M : Modulus) (a b : U256) : U256 :=
  let t := foldl (mont_step M a b) [0; 0; 0; 0; 0; 0] [0; 1; 2; 3]%nat in
  let value := [t !!! 0; t !!! 1; t !!! 2; t !!! 3]%nat in
  let '(reduced, borrow) := sbb value (m M) in
  if (t !!! 4%nat =? 0) && (borrow =? 1) then value else reduced.

Definition to_mont (M : Modulus) (value : U256) : U256 := mont_mul M value (r2 M).
Definition from_mont (M : Modulus) (value : U256) : U256 := mont_mul M value u256_one.

Definition mod_add (M : Modulus) (a b : U256) : U256 :=
  let '(sum, carry) := adc a b in
  let '(reduced, borrow) := sbb sum (m M) in
  if (carry =? 1) || (borrow =? 0) then reduced else sum.

Definition mod_sub (M : Modulus) (a b : U256) : U256 :=
  let '(diff, borrow) := sbb a b in
  if borrow =? 1 then fst (adc diff (m M)) else diff.

Definition mod_neg (M : Modulus) (a : U256) : U256 :=
  if is_zero a then a else fst (sbb (m M) a).

Definition sqr (M : Modulus) (a : U256) : U256 := mont_mul M a a.

(** [for bit in (0..256).rev()]. *)
Definition bits_down : list Z := rev (seqZ 0 256).

Definition mont_pow (M : Modulus) (base exponent : U256) : U256 :=
  foldl (fun result index =>
           let result := sqr M result in
           let multiplied := mont_mul M result base in
           select multiplied result (bit exponent index)) (one M) bits_down.

Definition mont_inv (M : Modulus) (a : U256) : U256 :=
  let '(exponent, _) := sbb (m M) [2; 0; 0; 0] in mont_pow M a exponent.

Definition reduce_once (M : Modulus) (value : U256) : U256 :=
  let '(reduced, borrow) := sbb value (m M) in if borrow =? 1 then value else reduced.

(** [shift_right]; [bits] is between 1 and 63 where it is called. *)
Definition shift_right (value : U256) (bits : Z) : U256 :=
  map (fun index =>
         let low := Z.shiftr (value !!! index) bits in
         let high := if (index =? 3)%nat then 0 else wrap 64 (Z.shiftl (value !!! S index) (64 - bits)) in
         Z.lor low high) [0; 1; 2; 3]%nat.

(** ** What limbs stand for *)

Fixpoint val (l : list Z) : Z :=
  match l with
  | [] => 0
  | x :: l => x + 2 ^ 64 * val l
  end.

Definition u256 (a : U256) : Prop := length a = 4%nat /\ Forall u64 a.

Definition R : Z := 2 ^ 256.

Lemma val_bound l : Forall u64 l -> 0 <= val l < 2 ^ (64 * zlen l).
Proof.
  induction 1 as [|x l Hx _ IH]; [change (zlen (@nil Z)) with 0; cbn; lia|]. rewrite zlen_cons. cbn [val]. pose proof (zlen_nonneg l).
  replace (64 * (zlen l + 1)) with (64 + 64 * zlen l) by lia. rewrite Z.pow_add_r by lia. unfold in_range in Hx. nia.
Qed.

Lemma u256_bound a : u256 a -> 0 <= val a < R.
Proof. intros [Hl Ha]. apply val_bound in Ha. unfold zlen in Ha. rewrite Hl in Ha. exact Ha. Qed.

Lemma val_inj l k : Forall u64 l -> Forall u64 k -> length l = length k -> val l = val k -> l = k.
Proof.
  intros Hl. revert k. induction Hl as [|x l Hx _ IH]; intros [|y k] Hk Hn Hv; try done.
  apply Forall_cons in Hk as [Hy Hk]. cbn [val] in Hv. unfold in_range in *.
  assert (x = y /\ val l = val k) as [-> Hv'] by lia. f_equal. apply IH; [done|by injection Hn|done].
Qed.

Lemma u256_inj a b : u256 a -> u256 b -> val a = val b -> a = b.
Proof. intros [La Ha] [Lb Hb]. apply val_inj; [done|done|congruence]. Qed.

(** The four limbs of a number. *)
Lemma u256_limbs a : u256 a -> exists a0 a1 a2 a3, a = [a0; a1; a2; a3] /\ u64 a0 /\ u64 a1 /\ u64 a2 /\ u64 a3.
Proof.
  intros [Hl Ha]. destruct a as [|a0 [|a1 [|a2 [|a3 [|]]]]]; try done. rewrite !Forall_cons in Ha. exists a0, a1, a2, a3. tauto.
Qed.

Lemma adc_loop_spec a : forall b carry,
  Forall u64 a -> Forall u64 b -> length a = length b -> 0 <= carry <= 1 ->
  Forall u64 (adc_loop a b carry).1 /\ length (adc_loop a b carry).1 = length a /\ 0 <= (adc_loop a b carry).2 <= 1 /\
  val (adc_loop a b carry).1 + 2 ^ (64 * zlen a) * (adc_loop a b carry).2 = val a + val b + carry.
Proof.
  induction a as [|x a IH]; intros [|y b] carry Ha Hb Hn Hc; try done.
  - cbn [adc_loop sbb_loop fst snd val]. change (zlen (@nil Z)) with 0. split_and!; try done; lia.
  - apply Forall_cons in Ha as [Hx Ha], Hb as [Hy Hb]. injection Hn as Hn. cbn [adc_loop]. rewrite Z.shiftr_div_pow2 by lia.
    unfold in_range in *. pose proof (Z.div_mod (x + y + carry) (2 ^ 64) ltac:(lia)) as Q.
    pose proof (Z.mod_pos_bound (x + y + carry) (2 ^ 64) ltac:(lia)) as M.
    destruct (IH b ((x + y + carry) / 2 ^ 64) Ha Hb Hn ltac:(lia)) as (H1 & H2 & H3 & H4).
    destruct (adc_loop a b _) as [out c]. cbn [fst snd] in *. cbn [val length]. rewrite zlen_cons. pose proof (zlen_nonneg a).
    replace (64 * (zlen a + 1)) with (64 + 64 * zlen a) by lia. rewrite Z.pow_add_r by lia. unfold wrap.
    split_and!; [constructor; [unfold in_range; lia|done]|by f_equal|lia|lia|]. nia.
Qed.

Lemma sbb_loop_spec a : forall b borrow,
  Forall u64 a -> Forall u64 b -> length a = length b -> 0 <= borrow <= 1 ->
  Forall u64 (sbb_loop a b borrow).1 /\ length (sbb_loop a b borrow).1 = length a /\ 0 <= (sbb_loop a b borrow).2 <= 1 /\
  val (sbb_loop a b borrow).1 - 2 ^ (64 * zlen a) * (sbb_loop a b borrow).2 = val a - val b - borrow.
Proof.
  induction a as [|x a IH]; intros [|y b] borrow Ha Hb Hn Hc; try done.
  - cbn [adc_loop sbb_loop fst snd val]. change (zlen (@nil Z)) with 0. split_and!; try done; lia.
  - apply Forall_cons in Ha as [Hx Ha], Hb as [Hy Hb]. injection Hn as Hn. cbn [sbb_loop].
    unfold in_range in *. set (c := if x - y - borrow <? 0 then 1 else 0).
    assert (0 <= c <= 1 /\ wrap 64 (x - y - borrow) = x - y - borrow + 2 ^ 64 * c) as [Hc' Ew].
    { unfold c, wrap. destruct (x - y - borrow <? 0) eqn:T; bools.
      - split; [lia|]. rewrite <- (Z.mod_add _ 1), Z.mod_small by lia. lia.
      - split; [lia|]. rewrite Z.mod_small by lia. lia. }
    destruct (IH b c Ha Hb Hn Hc') as (H1 & H2 & H3 & H4).
    destruct (sbb_loop a b c) as [out d]. cbn [fst snd] in *. cbn [val length]. rewrite zlen_cons. pose proof (zlen_nonneg a).
    replace (64 * (zlen a + 1)) with (64 + 64 * zlen a) by lia. rewrite Z.pow_add_r by lia.
    split_and!; [constructor; [by apply wrap_range|done]|by f_equal|lia|lia|]. rewrite Ew. nia.
Qed.

Lemma adc_spec a b : u256 a -> u256 b ->
  exists s c, adc a b = (s, c) /\ u256 s /\ 0 <= c <= 1 /\ val s + R * c = val a + val b.
Proof.
  intros [La Ha] [Lb Hb]. unfold adc. destruct (adc_loop_spec a b 0 Ha Hb ltac:(congruence) ltac:(lia)) as (H1 & H2 & H3 & H4).
  destruct (adc_loop a b 0) as [out c]. cbn [fst snd] in *. exists out, c. rewrite wrap_small by (unfold in_range; lia).
  unfold zlen in H4. rewrite La in *. split_and!; [done|by split|lia|lia|]. unfold R. change (64 * Z.of_nat 4) with 256 in H4. lia.
Qed.

Lemma sbb_spec a b : u256 a -> u256 b ->
  exists s c, sbb a b = (s, c) /\ u256 s /\ 0 <= c <= 1 /\ val s - R * c = val a - val b.
Proof.
  intros [La Ha] [Lb Hb]. unfold sbb. destruct (sbb_loop_spec a b 0 Ha Hb ltac:(congruence) ltac:(lia)) as (H1 & H2 & H3 & H4).
  destruct (sbb_loop a b 0) as [out c]. cbn [fst snd] in *. exists out, c. rewrite wrap_small by (unfold in_range; lia).
  unfold zlen in H4. rewrite La in *. split_and!; [done|by split|lia|lia|]. unfold R. change (64 * Z.of_nat 4) with 256 in H4. lia.
Qed.

Lemma ge_spec a b : u256 a -> u256 b -> u256_ge a b = (val b <=? val a).
Proof.
  intros (a0 & a1 & a2 & a3 & -> & A0 & A1 & A2 & A3)%u256_limbs (b0 & b1 & b2 & b3 & -> & B0 & B1 & B2 & B3)%u256_limbs.
  unfold in_range in *. unfold u256_ge. cbn [ge_loop lookup_total list_lookup_total val].
  destruct (Z.eqb_spec a3 b3) as [->|]; cbn [negb]; [|destruct (b3 <? a3) eqn:T; bools; symmetry; [apply Z.leb_le|apply Z.leb_gt]; lia].
  destruct (Z.eqb_spec a2 b2) as [->|]; cbn [negb]; [|destruct (b2 <? a2) eqn:T; bools; symmetry; [apply Z.leb_le|apply Z.leb_gt]; lia].
  destruct (Z.eqb_spec a1 b1) as [->|]; cbn [negb]; [|destruct (b1 <? a1) eqn:T; bools; symmetry; [apply Z.leb_le|apply Z.leb_gt]; lia].
  destruct (Z.eqb_spec a0 b0) as [->|]; cbn [negb]; [symmetry; apply Z.leb_le; lia|].
  destruct (b0 <? a0) eqn:T; bools; symmetry; [apply Z.leb_le|apply Z.leb_gt]; lia.
Qed.

Lemma is_zero_spec a : u256 a -> is_zero a = (val a =? 0).
Proof.
  intros (a0 & a1 & a2 & a3 & -> & A0 & A1 & A2 & A3)%u256_limbs. unfold in_range in *. unfold is_zero. cbn [forallb val].
  destruct (Z.eqb_spec a0 0), (Z.eqb_spec a1 0), (Z.eqb_spec a2 0), (Z.eqb_spec a3 0); cbn [andb]; symmetry; first [apply Z.eqb_eq; lia|apply Z.eqb_neq; lia].
Qed.

Lemma zip_with_l {A B} (f : A -> B -> A) l k : (forall x y, x ∈ l -> f x y = x) -> length l = length k -> zip_with f l k = l.
Proof.
  revert k. induction l as [|x l IH]; intros [|y k] Hf Hn; try done. cbn. rewrite Hf by left. f_equal. apply IH; [|by injection Hn].
  intros. apply Hf. by right.
Qed.
Lemma zip_with_r {A B} (f : A -> B -> B) l k : (forall x y, y ∈ k -> f x y = y) -> length l = length k -> zip_with f l k = k.
Proof.
  revert k. induction l as [|x l IH]; intros [|y k] Hf Hn; try done. cbn. rewrite Hf by left. f_equal. apply IH; [|by injection Hn].
  intros. apply Hf. by right.
Qed.

Lemma select_spec a b c : u256 a -> u256 b -> 0 <= c <= 1 -> select a b c = if c =? 1 then a else b.
Proof.
  intros [La Ha] [Lb Hb] Hc. rewrite Forall_forall in Ha, Hb. unfold select.
  assert (forall x, u64 x -> Z.land x (2 ^ 64 - 1) = x) as Hland.
  { intros x Hx. rewrite land_low by lia. by apply wrap_small. }
  assert (c = 1 \/ c = 0) as [-> | ->] by lia; cbn [Z.eqb Pos.eqb].
  - change (wrapping_sub 64 0 1) with (2 ^ 64 - 1). change (bit_not 64 (2 ^ 64 - 1)) with 0. apply zip_with_l; [|congruence].
    intros x y Hx. rewrite Z.land_0_r, Z.lor_0_r. by apply Hland, Ha.
  - change (wrapping_sub 64 0 0) with 0. change (bit_not 64 0) with (2 ^ 64 - 1). apply zip_with_r; [|congruence].
    intros x y Hy. rewrite Z.land_0_r. cbn [Z.lor]. by apply Hland, Hb.
Qed.

Lemma mac_spec a b c carry : u64 a -> u64 b -> u64 c -> u64 carry ->
  exists lo hi, mac a b c carry = (lo, hi) /\ u64 lo /\ u64 hi /\ lo + 2 ^ 64 * hi = a + b * c + carry.
Proof.
  intros Ha Hb Hc Hk. unfold mac, in_range in *. set (wide := a + b * c + carry).
  assert (0 <= wide < 2 ^ 128) by (unfold wide; nia). rewrite Z.shiftr_div_pow2 by lia.
  pose proof (Z.div_mod wide (2 ^ 64) ltac:(lia)). pose proof (Z.mod_pos_bound wide (2 ^ 64) ltac:(lia)).
  assert (wide / 2 ^ 64 < 2 ^ 64) by (apply Z.div_lt_upper_bound; lia). assert (0 <= wide / 2 ^ 64) by (apply Z.div_pos; lia).
  exists (wide mod 2 ^ 64), (wide / 2 ^ 64). unfold wrap. rewrite (Z.mod_small (wide / 2 ^ 64)) by lia. split_and!; [done|lia..].
Qed.

(** ** Montgomery multiplication *)

(** One [mac] of a row: names its two words. *)
Ltac mac_step :=
  match goal with
  | |- context [mac ?a ?b ?c ?k] =>
      let lo := fresh "lo" in let hi := fresh "hi" in let E := fresh "E" in let Hlo := fresh "Hlo" in let Hhi := fresh "Hhi" in
      let V := fresh "V" in
      destruct (mac_spec a b c k) as (lo & hi & E & Hlo & Hhi & V); [done..|]; rewrite E; clear E;
      cbn [insert list_insert lookup_total list_lookup_total Nat.sub]
  end.

Lemma mul_row_spec ai b0 b1 b2 b3 t0 t1 t2 t3 t4 t5 :
  u64 ai -> u64 b0 -> u64 b1 -> u64 b2 -> u64 b3 -> u64 t0 -> u64 t1 -> u64 t2 -> u64 t3 ->
  exists s0 s1 s2 s3 c, mul_row ai [b0; b1; b2; b3] [t0; t1; t2; t3; t4; t5] = ([s0; s1; s2; s3; t4; t5], c) /\
    u64 s0 /\ u64 s1 /\ u64 s2 /\ u64 s3 /\ u64 c /\
    val [s0; s1; s2; s3] + R * c = val [t0; t1; t2; t3] + ai * val [b0; b1; b2; b3].
Proof.
  intros. assert (u64 0) by done. unfold mul_row. cbn [foldl lookup_total list_lookup_total]. do 4 mac_step.
  do 5 eexists. split_and!; [reflexivity|done..|]. cbn [val]. unfold R. lia.
Qed.

Lemma reduce_row_spec f m0 m1 m2 m3 t0 t1 t2 t3 t4 t5 carry :
  u64 f -> u64 m1 -> u64 m2 -> u64 m3 -> u64 t1 -> u64 t2 -> u64 t3 -> u64 carry ->
  exists s0 s1 s2 c, reduce_row f [m0; m1; m2; m3] [t0; t1; t2; t3; t4; t5] carry = ([s0; s1; s2; t3; t4; t5], c) /\
    u64 s0 /\ u64 s1 /\ u64 s2 /\ u64 c /\
    val [s0; s1; s2] + 2 ^ 192 * c = val [t1; t2; t3] + f * val [m1; m2; m3] + carry.
Proof.
  intros. unfold reduce_row. cbn [foldl lookup_total list_lookup_total Nat.sub]. do 3 mac_step.
  do 4 eexists. split_and!; [reflexivity|done..|]. cbn [val]. lia.
Qed.

(** The modulus is odd and [n0] its negated inverse modulo a limb. *)
Record modulus_ok (M : Modulus) : Prop := {
  mo_m : u256 (m M);
  mo_n0 : u64 (n0 M);
  mo_inverse : (n0 M * val (m M) + 1) mod 2 ^ 64 = 0;
  mo_big : 2 < val (m M);
}.

Lemma factor_clears t0 n m0 m1 : (n * (m0 + 2 ^ 64 * m1) + 1) mod 2 ^ 64 = 0 -> (t0 + wrap 64 (t0 * n) * m0) mod 2 ^ 64 = 0.
Proof.
  intros Hn. unfold wrap. rewrite <- Zplus_mod_idemp_r, Z.mul_mod_idemp_l, Zplus_mod_idemp_r by lia.
  replace (n * (m0 + 2 ^ 64 * m1) + 1) with (n * m0 + 1 + n * m1 * 2 ^ 64) in Hn by lia. rewrite Z.mod_add in Hn by lia.
  replace (t0 + t0 * n * m0) with (t0 * (n * m0 + 1)) by lia. rewrite <- Z.mul_mod_idemp_r, Hn by lia. by rewrite Z.mul_0_r.
Qed.

Lemma overflowing_add_spec x y : u64 x -> u64 y ->
  exists s o, overflowing_add 64 x y = (s, o) /\ u64 s /\ s + 2 ^ 64 * from_bool o = x + y.
Proof.
  intros Hx Hy. unfold in_range in *. unfold overflowing_add, wrap. exists ((x + y) mod 2 ^ 64), (2 ^ 64 <=? x + y). split; [done|].
  pose proof (Z.mod_pos_bound (x + y) (2 ^ 64) ltac:(lia)). split; [done|].
  destruct (2 ^ 64 <=? x + y) eqn:T; bools; cbn [from_bool].
  - rewrite <- (Z.mod_add (x + y) (-1)) by lia. rewrite Z.mod_small; lia.
  - rewrite Z.mod_small; lia.
Qed.

Lemma mont_step_spec M a b i t0 t1 t2 t3 t4 :
  modulus_ok M -> u256 b -> u64 (a !!! i) -> Forall u64 [t0; t1; t2; t3; t4] -> val [t0; t1; t2; t3; t4] < val b + val (m M) ->
  exists s0 s1 s2 s3 s4 f, mont_step M a b [t0; t1; t2; t3; t4; 0] i = [s0; s1; s2; s3; s4; 0] /\
    Forall u64 [s0; s1; s2; s3; s4] /\
    2 ^ 64 * val [s0; s1; s2; s3; s4] = val [t0; t1; t2; t3; t4] + a !!! i * val b + f * val (m M) /\
    val [s0; s1; s2; s3; s4] < val b + val (m M).
Proof.
  intros [Hm Hn Hinv _] Hb Ha Ht HT. pose proof (u256_bound _ Hb) as Bb. pose proof (u256_bound _ Hm) as Bm.
  destruct (u256_limbs _ Hb) as (b0 & b1 & b2 & b3 & Eb & B0 & B1 & B2 & B3).
  destruct (u256_limbs _ Hm) as (m0 & m1 & m2 & m3 & Em & M0 & M1 & M2 & M3).
  rewrite !Forall_cons in Ht. destruct Ht as (T0 & T1 & T2 & T3 & T4 & _).
  unfold mont_step. rewrite Eb, Em in *. set (ai := a !!! i) in *.
  destruct (mul_row_spec ai b0 b1 b2 b3 t0 t1 t2 t3 t4 0) as (u0 & u1 & u2 & u3 & c & -> & U0 & U1 & U2 & U3 & C & V1); [done..|].
  cbn [lookup_total list_lookup_total]. destruct (overflowing_add_spec t4 c T4 C) as (u4 & o & -> & U4 & V2).
  cbn [insert list_insert lookup_total list_lookup_total]. set (f := wrapping_mul 64 u0 (n0 M)).
  assert (u64 f) as F by (by apply wrap_range).
  destruct (mac_spec u0 f m0 0) as (lo & hi & -> & Lo & Hi & V3); [done..|].
  assert (lo = 0) as ->.
  { pose proof (factor_clears u0 (n0 M) m0 (m1 + 2 ^ 64 * (m2 + 2 ^ 64 * (m3 + 2 ^ 64 * 0))) Hinv) as Hc. fold (wrapping_mul 64 u0 (n0 M)) in Hc. fold f in Hc.
    replace (u0 + f * m0) with (lo + hi * 2 ^ 64) in Hc by lia. rewrite Z.mod_add in Hc by lia.
    unfold in_range in Lo. by rewrite Z.mod_small in Hc by lia. }
  set (u5 := wrapping_add 64 0 (from_bool o)).
  destruct (reduce_row_spec f m0 m1 m2 m3 u0 u1 u2 u3 u4 u5 hi) as (s0 & s1 & s2 & d & -> & S0 & S1 & S2 & Dd & V4); [done..|].
  cbn [lookup_total list_lookup_total]. destruct (overflowing_add_spec u4 d U4 Dd) as (s3 & o2 & -> & S3 & V5).
  cbn [insert list_insert lookup_total list_lookup_total].
  assert (u5 = from_bool o) as E5 by (unfold u5, wrapping_add; rewrite wrap_small; [done|unfold in_range; destruct o; cbn; lia]).
  assert (wrapping_add 64 u5 (from_bool o2) = from_bool o + from_bool o2) as E6.
  { rewrite E5. unfold wrapping_add. apply wrap_small. unfold in_range. destruct o, o2; cbn; lia. }
  rewrite E6. exists s0, s1, s2, s3, (from_bool o + from_bool o2), f. split; [reflexivity|].
  assert (2 ^ 64 * val [s0; s1; s2; s3; from_bool o + from_bool o2] =
    val [t0; t1; t2; t3; t4] + ai * val [b0; b1; b2; b3] + f * val [m0; m1; m2; m3]) as V.
  { cbn [val] in *. unfold R in *. clear -V1 V2 V3 V4 V5.
    set (x0 := ai * (b0 + 2 ^ 64 * (b1 + 2 ^ 64 * (b2 + 2 ^ 64 * (b3 + 2 ^ 64 * 0))))) in *.
    replace (f * (m0 + 2 ^ 64 * (m1 + 2 ^ 64 * (m2 + 2 ^ 64 * (m3 + 2 ^ 64 * 0))))) with
      (f * m0 + 2 ^ 64 * (f * (m1 + 2 ^ 64 * (m2 + 2 ^ 64 * (m3 + 2 ^ 64 * 0))))) by ring.
    set (x1 := f * m0) in *. set (x2 := f * (m1 + _)) in *. clearbody x0 x1 x2. lia. }
  split_and!.
  - rewrite !Forall_cons. split_and!; try done. by destruct o, o2.
  - exact V.
  - unfold in_range in *. nia.
Qed.

Lemma mont_mul_spec M a b :
  modulus_ok M -> u256 a -> u256 b -> val b < val (m M) ->
  u256 (mont_mul M a b) /\ val (mont_mul M a b) < val (m M) /\ (val (mont_mul M a b) * R) mod val (m M) = (val a * val b) mod val (m M).
Proof.
  intros HM Ha Hb Hlt. pose proof (u256_bound _ Hb) as Bb. pose proof (mo_m _ HM) as Hm. pose proof (u256_bound _ Hm) as Bm.
  pose proof (mo_big _ HM) as Big. destruct (u256_limbs _ Ha) as (a0 & a1 & a2 & a3 & Ea & A0 & A1 & A2 & A3).
  unfold mont_mul. cbn [foldl].
  destruct (mont_step_spec M a b 0 0 0 0 0 0 HM Hb) as (p0 & p1 & p2 & p3 & p4 & f0 & -> & P & V0 & W0); [by rewrite Ea|by repeat constructor|cbn [val]; lia|].
  destruct (mont_step_spec M a b 1 p0 p1 p2 p3 p4 HM Hb) as (q0 & q1 & q2 & q3 & q4 & f1 & -> & Q & V1 & W1); [by rewrite Ea|done|done|].
  destruct (mont_step_spec M a b 2 q0 q1 q2 q3 q4 HM Hb) as (u0 & u1 & u2 & u3 & u4 & f2 & -> & U & V2 & W2); [by rewrite Ea|done|done|].
  destruct (mont_step_spec M a b 3 u0 u1 u2 u3 u4 HM Hb) as (s0 & s1 & s2 & s3 & s4 & f3 & -> & S & V3 & W3); [by rewrite Ea|done|done|].
  cbn [lookup_total list_lookup_total]. set (value := [s0; s1; s2; s3]). set (T := val [s0; s1; s2; s3; s4]) in *.
  assert (T * R = val a * val b + (f0 + 2 ^ 64 * f1 + 2 ^ 128 * f2 + 2 ^ 192 * f3) * val (m M)) as VT.
  { rewrite Ea in *. cbn [lookup_total list_lookup_total] in *. change (val [0; 0; 0; 0; 0]) with 0 in V0. cbn [val]. unfold R.
    set (x := val b) in *. set (y := val (m M)) in *. set (v1 := val [p0; p1; p2; p3; p4]) in *. set (v2 := val [q0; q1; q2; q3; q4]) in *.
    set (v3 := val [u0; u1; u2; u3; u4]) in *. clearbody x y v1 v2 v3 T. clear -V0 V1 V2 V3. nia. }
  assert ((T * R) mod val (m M) = (val a * val b) mod val (m M)) as HR by (rewrite VT; apply Z.mod_add; lia).
  rewrite !Forall_cons in S. destruct S as (S0 & S1 & S2 & S3 & S4 & _).
  assert (u256 value) as Hv by (split; [done|]; unfold value; rewrite !Forall_cons; by split_and!).
  assert (T = val value + R * s4) as ET by (unfold T, value, R; cbn [val]; lia).
  destruct (sbb_spec value (m M) Hv Hm) as (r & c & -> & Hr & Hc & Vr). pose proof (u256_bound _ Hv) as Bv. pose proof (u256_bound _ Hr) as Br.
  unfold in_range in S4. unfold R in *. destruct (Z.eqb_spec s4 0) as [E4|E4]; cbn [andb].
  - destruct (Z.eqb_spec c 1) as [Ec|Ec]; [split_and!; [done|lia|]|split_and!; [done|lia|]].
    + by replace (val value) with T by lia.
    + rewrite <- HR. replace (val r * 2 ^ 256) with (T * 2 ^ 256 + (- 2 ^ 256) * val (m M)) by nia. by rewrite Z.mod_add by lia.
  - assert (s4 = 1) by lia. assert (c = 1) as -> by lia. split_and!; [done|lia|].
    rewrite <- HR. replace (val r * 2 ^ 256) with (T * 2 ^ 256 + (- 2 ^ 256) * val (m M)) by nia. by rewrite Z.mod_add by lia.
Qed.

(** ** Numbers in Montgomery form *)

(** [x] stands for the number [v] modulo [m]. *)
Record stands (M : Modulus) (v : Z) (x : U256) : Prop := {
  st_limbs : u256 x;
  st_small : val x < val (m M);
  st_value : eqm (val (m M)) (val x) (v * R);
}.

(** What [Modulus::new] is to provide. *)
Record modulus_full (M : Modulus) : Prop := {
  mf_ok : modulus_ok M;
  mf_one : stands M 1 (one M);
  mf_r2 : stands M R (r2 M);
}.

Lemma modulus_rel_prime M : modulus_ok M -> rel_prime (val (m M)) R.
Proof.
  intros [_ _ Hinv Big]. apply Z.mod_divide in Hinv as [k Hk]; [|lia].
  assert (rel_prime (val (m M)) (2 ^ 64)) as H64.
  { apply bezout_rel_prime. exists (- n0 M) k. lia. }
  change R with (2 ^ 64 * (2 ^ 64 * (2 ^ 64 * 2 ^ 64))). do 3 (apply rel_prime_mult; [exact H64|]). exact H64.
Qed.

Section Field.
Context (M : Modulus) (HM : modulus_ok M).
Notation p := (val (m M)).
Implicit Types (x y : U256) (v w : Z).

Lemma p_range : 2 < p < R.
Proof. split; [apply (mo_big _ HM)|apply u256_bound, (mo_m _ HM)]. Qed.

Lemma R_cancel v w : eqm p (v * R) (w * R) -> eqm p v w.
Proof. by apply eqm_cancel, modulus_rel_prime. Qed.

Lemma stands_eqm v w x : eqm p v w -> stands M v x -> stands M w x.
Proof. intros E [S1 S2 S3]. constructor; [done|done|]. by rewrite S3, E. Qed.

Lemma stands_eq v w x y : stands M v x -> stands M w y -> x = y <-> eqm p v w.
Proof.
  intros [X1 X2 X3] [Y1 Y2 Y3]. pose proof (u256_bound _ X1). pose proof (u256_bound _ Y1). split.
  - intros ->. apply R_cancel. by rewrite <- X3, <- Y3.
  - intros E. apply u256_inj; [done|done|]. assert (eqm p (val x) (val y)) as E' by (by rewrite X3, Y3, E).
    unfold eqm in E'. by rewrite !Z.mod_small in E' by lia.
Qed.

(** A difference by the modulus, or none. *)
Lemma stands_reduced v x k : u256 x -> val x < p -> val x = k \/ val x = k - p -> eqm p k (v * R) -> stands M v x.
Proof.
  intros X1 X2 X3 E. constructor; [done|done|]. destruct X3 as [-> | ->]; [done|]. rewrite <- E. unfold eqm.
  rewrite <- (Z.mod_add (k - p) 1) by (pose proof p_range; lia). f_equal. lia.
Qed.

Lemma stands_exists x : u256 x -> val x < p -> exists v, stands M v x.
Proof.
  intros Hx Hlt. destruct (rel_prime_bezout _ _ (modulus_rel_prime M HM)) as [u w E].
  exists (val x * w). constructor; [done|done|]. rewrite <- Z.mul_assoc. replace (w * R) with (1 - u * p) by lia.
  replace (val x * (1 - u * p)) with (val x + (- (val x * u)) * p) by ring. unfold eqm. symmetry. apply Z.mod_add. pose proof p_range. lia.
Qed.

Lemma stands_add v w x y : stands M v x -> stands M w y -> stands M (v + w) (mod_add M x y).
Proof.
  intros [X1 X2 X3] [Y1 Y2 Y3]. pose proof p_range. pose proof (u256_bound _ X1). pose proof (u256_bound _ Y1). unfold mod_add.
  destruct (adc_spec x y X1 Y1) as (s & c & -> & Hs & Hc & Vs). destruct (sbb_spec s (m M) Hs (mo_m _ HM)) as (r & d & -> & Hr & Hd & Vr).
  pose proof (u256_bound _ Hs). pose proof (u256_bound _ Hr).
  assert (eqm p (val x + val y) ((v + w) * R)) as E by (rewrite X3, Y3, Z.mul_add_distr_r; reflexivity).
  unfold R in *. destruct (Z.eqb_spec c 1), (Z.eqb_spec d 0); cbn [orb]; apply (stands_reduced _ _ (val x + val y)); (done || lia).
Qed.

Lemma stands_sub v w x y : stands M v x -> stands M w y -> stands M (v - w) (mod_sub M x y).
Proof.
  intros [X1 X2 X3] [Y1 Y2 Y3]. pose proof p_range. pose proof (u256_bound _ X1). pose proof (u256_bound _ Y1). unfold mod_sub.
  destruct (sbb_spec x y X1 Y1) as (s & c & -> & Hs & Hc & Vs). pose proof (u256_bound _ Hs).
  assert (eqm p (val x - val y) ((v - w) * R)) as E by (rewrite X3, Y3, Z.mul_sub_distr_r; reflexivity).
  destruct (Z.eqb_spec c 1) as [->|].
  - destruct (adc_spec s (m M) Hs (mo_m _ HM)) as (r & d & -> & Hr & Hd & Vr). cbn [fst]. pose proof (u256_bound _ Hr).
    unfold R in *. apply (stands_reduced _ _ (val x - val y + p)); [done|lia|lia|]. rewrite <- E. unfold eqm.
    rewrite <- (Z.mod_add (val x - val y) 1) by lia. f_equal. lia.
  - unfold R in *. apply (stands_reduced _ _ (val x - val y)); (done || lia).
Qed.

Lemma stands_neg v x : stands M v x -> stands M (- v) (mod_neg M x).
Proof.
  intros [X1 X2 X3]. pose proof p_range. pose proof (u256_bound _ X1). unfold mod_neg. rewrite is_zero_spec by done.
  assert (eqm p (- val x) (- v * R)) as E by (rewrite X3, Z.mul_opp_l; reflexivity).
  destruct (Z.eqb_spec (val x) 0) as [E0|].
  - constructor; [done|done|]. rewrite <- E, E0. done.
  - destruct (sbb_spec (m M) x (mo_m _ HM) X1) as (r & d & -> & Hr & Hd & Vr). cbn [fst]. pose proof (u256_bound _ Hr). unfold R in *.
    apply (stands_reduced _ _ (- val x + p)); [done|lia|lia|]. rewrite <- E. unfold eqm.
    rewrite <- (Z.mod_add (- val x) 1) by lia. f_equal. lia.
Qed.

Lemma stands_mul v w x y : stands M v x -> stands M w y -> stands M (v * w) (mont_mul M x y).
Proof.
  intros [X1 X2 X3] [Y1 Y2 Y3]. destruct (mont_mul_spec M x y HM X1 Y1 Y2) as (H1 & H2 & H3). constructor; [done|done|].
  apply R_cancel. transitivity (val x * val y); [exact H3|]. rewrite X3, Y3. replace (v * R * (w * R)) with (v * w * R * R) by ring. reflexivity.
Qed.

Lemma stands_sqr v x : stands M v x -> stands M (v * v) (sqr M x).
Proof. intros. by apply stands_mul. Qed.

Lemma from_mont_val v x : stands M v x -> u256 (from_mont M x) /\ val (from_mont M x) = v mod p.
Proof.
  intros [X1 X2 X3]. pose proof p_range. assert (u256 u256_one) as Ho by (split; [done|repeat constructor; by_compute]).
  destruct (mont_mul_spec M x u256_one HM X1 Ho) as (H1 & H2 & H3); [change (val u256_one) with 1; lia|]. split; [done|].
  change (val u256_one) with 1 in H3. rewrite Z.mul_1_r in H3.
  assert (eqm p (val (from_mont M x)) v) as E by (apply R_cancel; transitivity (val x); [exact H3|done]).
  unfold eqm in E. pose proof (u256_bound _ H1). unfold from_mont in *. by rewrite Z.mod_small in E by lia.
Qed.

Lemma to_mont_stands x : stands M R (r2 M) -> u256 x -> stands M (val x) (to_mont M x).
Proof.
  intros [Y1 Y2 Y3] Hx. destruct (mont_mul_spec M x (r2 M) HM Hx Y1 Y2) as (H1 & H2 & H3). constructor; [done|done|].
  apply R_cancel. transitivity (val x * val (r2 M)); [exact H3|]. rewrite Y3. replace (val x * (R * R)) with (val x * R * R) by ring. reflexivity.
Qed.

Lemma stands_zero v x : stands M v x -> is_zero x = (v mod p =? 0).
Proof.
  intros [X1 X2 X3]. pose proof p_range. pose proof (u256_bound _ X1). rewrite is_zero_spec by done.
  apply Bool.eq_iff_eq_true. rewrite !Z.eqb_eq. split; intros E.
  - assert (eqm p v 0) as E'; [|exact E']. apply R_cancel. rewrite <- X3, E. done.
  - assert (eqm p (val x) 0) as E'; [|unfold eqm in E'; by rewrite !Z.mod_small in E' by lia].
    rewrite X3. assert (eqm p v 0) as -> by exact E. done.
Qed.

(** *** Powers *)

Lemma val_testbit l : Forall u64 l -> forall i, 0 <= i < 64 * zlen l ->
  Z.testbit (val l) i = Z.testbit (l !!! Z.to_nat (i / 64)) (i mod 64).
Proof.
  induction 1 as [|x l Hx _ IH]; intros i Hi; [change (zlen (@nil Z)) with 0 in Hi; lia|].
  rewrite zlen_cons in Hi. cbn [val]. unfold in_range in Hx. destruct (decide (i < 64)).
  - rewrite Z.div_small, Z.mod_small by lia. change ((x :: l) !!! Z.to_nat 0) with x.
    rewrite <- (Z.mod_pow2_bits_low (x + 2 ^ 64 * val l) 64) by lia. f_equal.
    rewrite (Z.mul_comm (2 ^ 64)), Z.mod_add by lia. by apply Z.mod_small.
  - replace i with (i - 64 + 64) at 1 by lia. rewrite <- Z.div_pow2_bits by lia.
    replace ((x + 2 ^ 64 * val l) / 2 ^ 64) with (val l) by (rewrite (Z.mul_comm (2 ^ 64)), Z.div_add, Z.div_small by lia; lia).
    rewrite IH by lia.
    assert (i / 64 = (i - 64) / 64 + 1 /\ i mod 64 = (i - 64) mod 64) as [-> ->].
    { replace i with (i - 64 + 1 * 64) at 1 3 by lia. by rewrite Z.div_add, Z.mod_add by lia. }
    rewrite Z2Nat.inj_add by (try apply Z.div_pos; lia). by rewrite Nat.add_comm.
Qed.

Lemma bit_spec a i : u256 a -> 0 <= i < 256 -> bit a i = Z.b2z (Z.testbit (val a) i).
Proof.
  intros [La Ha] Hi. rewrite val_testbit by (try done; unfold zlen; lia). unfold bit. pose proof (Z.mod_pos_bound i 64 ltac:(lia)).
  change 1 with (Z.ones 1). rewrite Z.land_ones, Z.testbit_spec', Z.shiftr_div_pow2 by lia. done.
Qed.

Lemma bit_range a i : u256 a -> 0 <= i < 256 -> 0 <= bit a i <= 1.
Proof. intros. rewrite bit_spec by done. by destruct (Z.testbit _ _). Qed.

(** A loop over the bits from the top, its invariant indexed by the bits left. *)
Lemma bits_down_ind {A} (f : A -> Z -> A) (Inv : Z -> A -> Prop) n :
  (forall acc i, 0 <= i < Z.of_nat n -> Inv (i + 1) acc -> Inv i (f acc i)) ->
  forall acc, Inv (Z.of_nat n) acc -> Inv 0 (foldl f acc (rev (seqZ 0 (Z.of_nat n)))).
Proof.
  induction n as [|n IH]; intros Hf acc Hacc; [done|].
  replace (Z.of_nat (S n)) with (Z.of_nat n + 1) in * by lia. rewrite seqZ_app by lia. rewrite rev_app_distr.
  change (rev (seqZ (0 + Z.of_nat n) 1)) with [0 + Z.of_nat n]. cbn [app foldl]. apply IH.
  - intros acc' i Hi. apply Hf. lia.
  - rewrite Z.add_0_l. apply Hf; [lia|done].
Qed.

(** The same for a number shifted right. *)
Lemma bits_down_loop {A} (f : A -> Z -> A) (Inv : Z -> A -> Prop) e n :
  (forall acc i, 0 <= i < Z.of_nat n -> Inv (e / 2 ^ (i + 1)) acc -> Inv (e / 2 ^ i) (f acc i)) ->
  forall acc, Inv (e / 2 ^ Z.of_nat n) acc -> Inv e (foldl f acc (rev (seqZ 0 (Z.of_nat n)))).
Proof.
  intros Hf acc Hacc. rewrite <- (Z.div_1_r e). by apply (bits_down_ind f (fun i acc => Inv (e / 2 ^ i) acc)).
Qed.

Lemma div_pow2_step e i : 0 <= e -> 0 <= i -> e / 2 ^ i = 2 * (e / 2 ^ (i + 1)) + Z.b2z (Z.testbit e i).
Proof.
  intros He Hi. rewrite Z.testbit_spec', Z.pow_add_r, <- Z.div_div by (try apply Z.pow_nonzero; lia). change (2 ^ 1) with 2.
  apply Z.div_mod. lia.
Qed.

Lemma stands_pow v x e : stands M 1 (one M) -> stands M v x -> u256 e -> stands M (v ^ val e) (mont_pow M x e).
Proof.
  intros H1 Hx He. pose proof (u256_bound _ He) as Be. unfold mont_pow, bits_down. change 256 with (Z.of_nat 256).
  apply (bits_down_loop _ (fun k acc => stands M (v ^ k) acc) (val e) 256).
  - intros acc i Hi Hacc. pose proof (stands_sqr _ _ Hacc) as Hs. pose proof (stands_mul _ _ _ _ Hs Hx) as Hm.
    rewrite (select_spec _ _ _ (st_limbs _ _ _ Hm) (st_limbs _ _ _ Hs)) by (apply bit_range; done || lia).
    rewrite bit_spec by (done || lia).
    pose proof (Z.div_pos (val e) (2 ^ (i + 1)) ltac:(lia) ltac:(apply Z.pow_pos_nonneg; lia)) as Np.
    rewrite (div_pow2_step (val e) i) by lia. set (k := val e / 2 ^ (i + 1)) in *. destruct (Z.testbit (val e) i); cbn [Z.b2z].
    + change (1 =? 1) with true. cbn iota. rewrite Z.pow_add_r, Z.pow_1_r by lia. replace (2 * k) with (k + k) by lia. by rewrite Z.pow_add_r by lia.
    + change (0 =? 1) with false. cbn iota. rewrite Z.add_0_r. replace (2 * k) with (k + k) by lia. by rewrite Z.pow_add_r by lia.
  - change (2 ^ Z.of_nat 256) with R. by rewrite Z.div_small by done.
Qed.

Lemma stands_inv v x : stands M 1 (one M) -> stands M v x -> stands M (v ^ (p - 2)) (mont_inv M x).
Proof.
  intros H1 Hx. pose proof p_range. assert (u256 [2; 0; 0; 0]) as H2 by (split; [done|repeat constructor; by_compute]).
  unfold mont_inv. destruct (sbb_spec (m M) [2; 0; 0; 0] (mo_m _ HM) H2) as (e & c & -> & He & Hc & Ve).
  change (val [2; 0; 0; 0]) with 2 in Ve. pose proof (u256_bound _ He). unfold R in *. replace (p - 2) with (val e) by lia. by apply stands_pow.
Qed.

(** [reduce_once] reduces what is below twice the modulus. *)
Lemma reduce_once_val x : u256 x -> val x < 2 * p -> u256 (reduce_once M x) /\ val (reduce_once M x) = val x mod p.
Proof.
  intros Hx Hlt. pose proof p_range. pose proof (u256_bound _ Hx). unfold reduce_once.
  destruct (sbb_spec x (m M) Hx (mo_m _ HM)) as (r & c & -> & Hr & Hc & Vr). pose proof (u256_bound _ Hr). unfold R in *.
  destruct (Z.eqb_spec c 1) as [->|].
  - split; [done|]. rewrite Z.mod_small; lia.
  - split; [done|]. rewrite <- (Z.mod_add (val x) (-1)) by lia. rewrite Z.mod_small; lia.
Qed.
End Field.

(** ** [Modulus::new] *)

Lemma wrap_shape w x : exists j, wrap w x = x + j * 2 ^ w.
Proof.
  exists (- (x / 2 ^ w)). unfold wrap. destruct (decide (2 ^ w = 0)) as [E|Hn]; [rewrite E, Zmod_0_r; lia|].
  pose proof (Z.div_mod x (2 ^ w) Hn). lia.
Qed.

Lemma newton_doubles m0 x k :
  0 <= k -> 2 * k <= 64 -> (2 ^ k | m0 * x - 1) -> (2 ^ (2 * k) | m0 * newton_step m0 x - 1).
Proof.
  intros Hk H64 [q Hq]. unfold newton_step, wrapping_mul, wrapping_sub.
  destruct (wrap_shape 64 (m0 * x)) as [j1 ->]. destruct (wrap_shape 64 (2 - (m0 * x + j1 * 2 ^ 64))) as [j2 ->].
  destruct (wrap_shape 64 (x * (2 - (m0 * x + j1 * 2 ^ 64) + j2 * 2 ^ 64))) as [j3 ->].
  replace (2 ^ 64) with (2 ^ (2 * k) * 2 ^ (64 - 2 * k)) by (rewrite <- Z.pow_add_r by lia; f_equal; lia).
  replace (2 * k) with (k + k) by lia. rewrite !Z.pow_add_r by lia. set (K := 2 ^ k) in *. set (L := 2 ^ (64 - (k + k))).
  exists (- q * q + m0 * (x * (j2 - j1) + j3) * L). replace (m0 * x) with (q * K + 1) by lia. clearbody K L.
  replace (m0 * (x * (2 - (q * K + 1 + j1 * (K * K * L)) + j2 * (K * K * L)) + j3 * (K * K * L)) - 1) with
    ((m0 * x) * (1 - q * K) - 1 + m0 * (x * (j2 - j1) + j3) * L * (K * K)) by ring.
  replace (m0 * x) with (q * K + 1) by lia. ring.
Qed.

Lemma newton_inverse m0 : Z.odd m0 = true -> (2 ^ 64 | m0 * Nat.iter 6 (newton_step m0) 1 - 1).
Proof.
  intros Hodd. apply Z.odd_spec in Hodd as [h Hh].
  assert (forall (n : nat), (n <= 6)%nat -> (2 ^ (2 ^ Z.of_nat n) | m0 * Nat.iter n (newton_step m0) 1 - 1)) as Hn.
  { induction n as [|n IH]; intros Hn; [exists h; cbn; lia|].
    replace (2 ^ Z.of_nat (S n)) with (2 * 2 ^ Z.of_nat n) by (rewrite Nat2Z.inj_succ, Z.pow_succ_r; lia).
    apply newton_doubles; [lia| |apply IH; lia]. assert (2 ^ Z.of_nat n <= 2 ^ 5) by (apply Z.pow_le_mono_r; lia). lia. }
  apply (Hn 6%nat). done.
Qed.

Lemma reduce_loop_spec modulus fuel : forall x,
  u256 modulus -> u256 x -> 0 < val modulus -> val x < Z.of_nat fuel * val modulus ->
  exists r, reduce_loop fuel modulus x = Some r /\ u256 r /\ val r = val x mod val modulus.
Proof.
  induction fuel as [|fuel IH]; intros x Hm Hx Hp Hf; [pose proof (u256_bound _ Hx); lia|].
  cbn [reduce_loop]. rewrite ge_spec by done. pose proof (u256_bound _ Hx). destruct (val modulus <=? val x) eqn:T; bools.
  - destruct (sbb_spec x modulus Hx Hm) as (r & c & -> & Hr & Hc & Vr). pose proof (u256_bound _ Hr). pose proof (u256_bound _ Hm). unfold R in *.
    destruct (IH r Hm Hr Hp) as (r' & E & Hr' & V); [lia|]. exists r'. split_and!; [done|done|]. rewrite V.
    replace (val r) with (val x + (-1) * val modulus) by lia. by rewrite Z.mod_add by lia.
  - exists x. split_and!; [done|done|]. rewrite Z.mod_small; lia.
Qed.

Lemma double_mod_spec modulus x :
  u256 modulus -> u256 x -> val x < val modulus ->
  u256 (double_mod modulus x) /\ val (double_mod modulus x) < val modulus /\ eqm (val modulus) (val (double_mod modulus x)) (2 * val x).
Proof.
  intros Hm Hx Hlt. pose proof (u256_bound _ Hx). pose proof (u256_bound _ Hm). unfold double_mod.
  destruct (adc_spec x x Hx Hx) as (s & c & -> & Hs & Hc & Vs). destruct (sbb_spec s modulus Hs Hm) as (r & d & -> & Hr & Hd & Vr).
  pose proof (u256_bound _ Hs). pose proof (u256_bound _ Hr). unfold R in *.
  assert (forall k, k = 2 * val x \/ k = 2 * val x - val modulus -> eqm (val modulus) k (2 * val x)) as Hk.
  { intros k [-> | ->]; [done|]. unfold eqm. rewrite <- (Z.mod_add (_ - _) 1) by lia. f_equal. lia. }
  destruct (Z.eqb_spec c 1), (Z.eqb_spec d 0); cbn [orb]; (split_and!; [done|lia|apply Hk; lia]).
Qed.

Lemma doublings modulus x n :
  u256 modulus -> u256 x -> val x < val modulus ->
  u256 (Nat.iter n (double_mod modulus) x) /\ val (Nat.iter n (double_mod modulus) x) < val modulus /\
  eqm (val modulus) (val (Nat.iter n (double_mod modulus) x)) (2 ^ Z.of_nat n * val x).
Proof.
  intros Hm Hx Hlt. induction n as [|n (I1 & I2 & I3)].
  - split_and!; [done|done|]. cbn [Nat.iter nat_rect]. change (2 ^ Z.of_nat 0) with 1. by rewrite Z.mul_1_l.
  - cbn [Nat.iter nat_rect]. destruct (double_mod_spec modulus _ Hm I1 I2) as (D1 & D2 & D3). split_and!; [done|done|].
    etransitivity; [exact D3|]. unfold Nat.iter in I3. rewrite I3. rewrite Nat2Z.inj_succ, Z.pow_succ_r by lia. by rewrite Z.mul_assoc.
Qed.

(** [Modulus::new] ends for every odd modulus above two, with constants fit
    for Montgomery arithmetic; [R / m + 1] turns of its loop are enough. *)
Lemma modulus_new_spec fuel modulus :
  u256 modulus -> Z.odd (val modulus) = true -> 2 < val modulus -> R / val modulus < Z.of_nat fuel ->
  exists M, modulus_new fuel modulus = Some M /\ m M = modulus /\ modulus_full M.
Proof.
  intros Hm Hodd Hbig Hfuel. pose proof (u256_bound _ Hm) as Bm. unfold modulus_new.
  assert (u256 ZERO) as HZ by (split; [done|repeat constructor; by_compute]).
  destruct (sbb_spec ZERO modulus HZ Hm) as (x & c & -> & Hx & Hc & Vx). change (val ZERO) with 0 in Vx. pose proof (u256_bound _ Hx) as Bx.
  destruct (reduce_loop_spec modulus fuel x Hm Hx ltac:(lia)) as (o & -> & Ho & Vo).
  { pose proof (Z.div_mod R (val modulus) ltac:(lia)). pose proof (Z.mod_pos_bound R (val modulus) ltac:(lia)). unfold R in *. nia. }
  assert (val o < val modulus) as Lo by (rewrite Vo; apply Z.mod_pos_bound; lia).
  assert (eqm (val modulus) (val o) R) as Eo.
  { rewrite Vo. unfold eqm. rewrite Z.mod_mod by lia. unfold R in *. replace (val x) with (2 ^ 256 + (-1) * val modulus) by lia. by rewrite Z.mod_add by lia. }
  destruct (doublings modulus o 256 Hm Ho Lo) as (D1 & D2 & D3).
  eexists. split; [reflexivity|]. split; [done|]. constructor; cbn [m n0 r2 one].
  - constructor; cbn [m n0]; [done|by apply wrap_range| |done]. apply Z.mod_divide; [lia|].
    destruct (u256_limbs _ Hm) as (m0 & m1 & m2 & m3 & -> & _). cbn [lookup_total list_lookup_total val] in *.
    set (h := m1 + _) in *. assert (Z.odd m0 = true) as H0.
    { rewrite Z.odd_add, Z.odd_mul in Hodd. change (Z.odd (2 ^ 64)) with false in Hodd. cbn [andb] in Hodd. by rewrite Bool.xorb_false_r in Hodd. }
    destruct (newton_inverse m0 H0) as [q Hq]. set (inv := Nat.iter 6 (newton_step m0) 1) in *. unfold wrapping_neg.
    destruct (wrap_shape 64 (- inv)) as [j ->]. exists (- q - inv * h + j * (m0 + 2 ^ 64 * h)). nia.
  - constructor; cbn [m]; [done|done|]. by rewrite Z.mul_1_l.
  - constructor; cbn [m]; [done|done|]. etransitivity; [exact D3|]. change (2 ^ Z.of_nat 256) with R. by rewrite Eo.
Qed.

(** From here on the arithmetic is known by these lemmas. *)
#[global] Opaque mont_mul mont_pow mont_inv to_mont from_mont mod_add mod_sub mod_neg sqr reduce_once select.
