(* ===== verification/P256.v ===== *)
(** * P-256: curve, signatures, keys (src/src/crypto/p256.rs)

    Points in Jacobian coordinates over [P256Field], HMAC and HKDF over [Sha],
    the deterministic nonces of RFC 6979, ECDSA signing and verification,
    import of public keys and the DER form of a signature. The curve's
    constants are built once in the source; [curve] is what that computes. *)

From S2P Require Import Prelude Sha P256Field.
From stdpp Require Import base tactics numbers list strings.
From Stdlib Require Import ZArith Lia.

Open Scope Z_scope.

Definition P256_UNCOMPRESSED_BYTES : Z := 1 + 2 * P256_ELEMENT_BYTES.
Definition P256_SIGNATURE_BYTES : Z := 2 * P256_ELEMENT_BYTES.
Definition SEC1_UNCOMPRESSED_TAG : Z := 0x04.
Definition SHA256_BLOCK_BYTES : Z := 64.

(** ** Curve parameters *)

(** [text.as_bytes()]. *)
Definition as_bytes (text : string) : bytes := map (fun c => Z.of_nat (Ascii.nat_of_ascii c)) (String.list_ascii_of_string text).

Definition hex_digit (c : Z) : option Z :=
  if (48 <=? c) && (c <=? 57) then Some (c - 48)
  else if (97 <=? c) && (c <=? 102) then Some (c - 97 + 10)
  else if (65 <=? c) && (c <=? 70) then Some (c - 65 + 10)
  else None.

(** [None] where the source panics. *)
Definition hex32 (text : string) : option U256 :=
  let from := as_bytes text in
  if negb (zlen from =? 64) then None else
  foldl (fun limbs index =>
           match limbs, hex_digit (from !!! Z.to_nat index) with
           | Some limbs, Some digit =>
               let limb := Z.to_nat (3 - index / 16) in
               Some (<[limb := Z.lor (wrap 64 (Z.shiftl (limbs !!! limb) 4)) digit]> limbs)
           | _, _ => None
           end) (Some ZERO) (seqZ 0 64).

Definition p_text : string := "ffffffff00000001000000000000000000000000ffffffffffffffffffffffff".
Definition n_text : string := "ffffffff00000000ffffffffffffffffbce6faada7179e84f3b9cac2fc632551".
Definition b_text : string := "5ac635d8aa3a93e7b3ebbd55769886bc651d06b0cc53b0f63bce3c3e27d2604b".
Definition gx_text : string := "6b17d1f2e12c4247f8bce6e563a440f277037d812deb33a0f4a13945d898c296".
Definition gy_text : string := "4fe342e2fe1a7f9b8ee7eb4a7c0f9e162bce33576b315ececbb6406837bf51f5".

(** The value of an optional constant, computed once. *)
Ltac value_of e := let v := eval vm_compute in e in lazymatch v with Some ?x => exact x end.

Definition p256_p : U256 := ltac:(value_of (hex32 p_text)).
Definition p256_n : U256 := ltac:(value_of (hex32 n_text)).
Definition p256_b : U256 := ltac:(value_of (hex32 b_text)).
Definition p256_gx : U256 := ltac:(value_of (hex32 gx_text)).
Definition p256_gy : U256 := ltac:(value_of (hex32 gy_text)).

(** ** Points *)

Record JacobianPoint := { px : U256; py : U256; pz : U256 }.

Record Curve := {
  field : Modulus;
  scalar : Modulus;
  b : U256;
  generator : JacobianPoint;
  sqrt_exponent : U256;
  half_p : U256;
}.

(** The closure of [curve()]; two turns reduce a modulus above half of 2^256. *)
Definition curve_new : option Curve :=
  match modulus_new 2 p256_p, modulus_new 2 p256_n with
  | Some field, Some scalar =>
      let b := to_mont field p256_b in
      let generator := {| px := to_mont field p256_gx; py := to_mont field p256_gy; pz := one field |} in
      let '(plus_one, _) := adc p256_p u256_one in
      let sqrt_exponent := shift_right plus_one 2 in
      let '(minus_one, _) := sbb p256_p u256_one in
      let half_p := shift_right minus_one 1 in
      Some {| field := field; scalar := scalar; b := b; generator := generator; sqrt_exponent := sqrt_exponent; half_p := half_p |}
  | _, _ => None
  end.

Definition curve : Curve := ltac:(value_of curve_new).

Definition infinity : JacobianPoint := {| px := u256_one; py := u256_one; pz := ZERO |}.
Definition is_infinity (p : JacobianPoint) : bool := is_zero (pz p).

Definition double (f : Modulus) (p : JacobianPoint) : JacobianPoint :=
  if is_infinity p then p else
  let delta := sqr f (pz p) in
  let gamma := sqr f (py p) in
  let beta := mont_mul f (px p) gamma in
  let x_minus := mod_sub f (px p) delta in
  let x_plus := mod_add f (px p) delta in
  let product := mont_mul f x_minus x_plus in
  let alpha := mod_add f (mod_add f product product) product in
  let alpha_squared := sqr f alpha in
  let beta2 := mod_add f beta beta in
  let beta4 := mod_add f beta2 beta2 in
  let beta8 := mod_add f beta4 beta4 in
  let x3 := mod_sub f alpha_squared beta8 in
  let y_plus_z := mod_add f (py p) (pz p) in
  let z3 := mod_sub f (mod_sub f (sqr f y_plus_z) gamma) delta in
  let gamma_squared := sqr f gamma in
  let gamma8 :=
    let two := mod_add f gamma_squared gamma_squared in
    let four := mod_add f two two in
    mod_add f four four in
  let y3 := mod_sub f (mont_mul f alpha (mod_sub f beta4 x3)) gamma8 in
  {| px := x3; py := y3; pz := z3 |}.

Definition point_add (f : Modulus) (p other : JacobianPoint) : JacobianPoint :=
  if is_infinity p then other else
  if is_infinity other then p else
  let z1z1 := sqr f (pz p) in
  let z2z2 := sqr f (pz other) in
  let u1 := mont_mul f (px p) z2z2 in
  let u2 := mont_mul f (px other) z1z1 in
  let s1 := mont_mul f (py p) (mont_mul f (pz other) z2z2) in
  let s2 := mont_mul f (py other) (mont_mul f (pz p) z1z1) in
  let h := mod_sub f u2 u1 in
  let r := mod_sub f s2 s1 in
  if is_zero h then (if is_zero r then double f p else infinity) else
  let r2 := mod_add f r r in
  let h2 := mod_add f h h in
  let i := sqr f h2 in
  let j := mont_mul f h i in
  let v := mont_mul f u1 i in
  let x3 := mod_sub f (mod_sub f (sqr f r2) j) (mod_add f v v) in
  let s1j := mont_mul f s1 j in
  let y3 := mod_sub f (mont_mul f r2 (mod_sub f v x3)) (mod_add f s1j s1j) in
  let z_sum := mod_add f (pz p) (pz other) in
  let z3 := mont_mul f (mod_sub f (mod_sub f (sqr f z_sum) z1z1) z2z2) h in
  {| px := x3; py := y3; pz := z3 |}.

Definition to_affine (f : Modulus) (p : JacobianPoint) : option (U256 * U256) :=
  if is_infinity p then None else
  let z_inv := mont_inv f (pz p) in
  let z_inv2 := sqr f z_inv in
  let z_inv3 := mont_mul f z_inv2 z_inv in
  Some (mont_mul f (px p) z_inv2, mont_mul f (py p) z_inv3).

Definition scalar_mul_point (f : Modulus) (point : JacobianPoint) (k : U256) : JacobianPoint :=
  foldl (fun accumulator index =>
           let accumulator := double f accumulator in
           let advanced := point_add f accumulator point in
           let take := bit k index in
           {| px := select (px advanced) (px accumulator) take;
              py := select (py advanced) (py accumulator) take;
              pz := select (pz advanced) (pz accumulator) take |}) infinity bits_down.

Definition scalar_mul_sum (c : Curve) (a : U256) (point : JacobianPoint) (k : U256) : JacobianPoint :=
  foldl (fun accumulator index =>
           let accumulator := double (field c) accumulator in
           let accumulator := if bit a index =? 1 then point_add (field c) accumulator (generator c) else accumulator in
           if bit k index =? 1 then point_add (field c) accumulator point else accumulator) infinity bits_down.

Definition u256_eqb (x y : U256) : bool := bool_decide (x = y).

(** The right-hand side of the curve's equation. *)
Definition curve_rhs (c : Curve) (x : U256) : U256 :=
  let f := field c in
  let three_x := let two := mod_add f x x in mod_add f two x in
  mod_add f (mod_sub f (mont_mul f (sqr f x) x) three_x) (b c).

Definition is_on_curve (c : Curve) (x y : U256) : bool := u256_eqb (sqr (field c) y) (curve_rhs c x).

(** ** HMAC and HKDF *)

(** An unbounded loop that took all the turns it was given. *)
Inductive Stalled := OutOfTurns.

Section Mac.
Context {E : Type}.

Definition hmac_sha256_parts (key : bytes) (parts : list bytes) : res E bytes :=
  let block := zeros SHA256_BLOCK_BYTES in
  let? block := (if SHA256_BLOCK_BYTES <? zlen key then let? h := sha256 key in copy_at block 0 h
                 else copy_at block 0 key) in
  let inner := map (fun x => Z.lxor x 0x36) block in
  let outer := map (fun x => Z.lxor x 0x5c) block in
  let inner := foldl (fun inner part => inner ++ part) inner parts in
  let? h := sha256 inner in
  sha256 (outer ++ h).

Definition hmac_sha256 (key message : bytes) : res E bytes := hmac_sha256_parts key [message].

(** [while produced < out.len()]; a turn produces at least a byte. [produced]
    is the prefix written so far. *)
Fixpoint hkdf_loop (fuel : nat) (prk info previous produced : bytes) (out_len counter : Z) : res E bytes :=
  match fuel with
  | O => Panic
  | S fuel =>
      if zlen produced <? out_len then
        let? block := (if counter =? 1 then hmac_sha256_parts prk [info; [counter]]
                       else hmac_sha256_parts prk [previous; info; [counter]]) in
        let take := Z.min (zlen block) (out_len - zlen produced) in
        let? head := slice block 0 take in
        hkdf_loop fuel prk info block (produced ++ head) out_len (wrapping_add 8 counter 1)
      else Ok produced
  end.

(** Fills a buffer of [out_len] bytes. *)
Definition hkdf_sha256 (salt ikm info : bytes) (out_len : Z) : res E bytes :=
  let? prk := hmac_sha256 salt ikm in
  hkdf_loop (S (Z.to_nat out_len)) prk info (zeros 32) [] out_len 1.
End Mac.

(** ** Deterministic nonces *)

Record Rfc6979Nonces := { nonce_k : bytes; nonce_v : bytes; started : bool }.
#[export] Instance eta_nonces : Eta Rfc6979Nonces := fun n => Build_Rfc6979Nonces (nonce_k n) (nonce_v n) (started n).

Definition nonces_new (private_key digest : bytes) : res Stalled Rfc6979Nonces :=
  let reduced := to_be_bytes (reduce_once (scalar curve) (from_be_bytes digest)) in
  let v := replicate 32 0x01 in
  let k := replicate 32 0x00 in
  let? k := hmac_sha256_parts k [v; [0x00]; private_key; reduced] in
  let? v := hmac_sha256 k v in
  let? k := hmac_sha256_parts k [v; [0x01]; private_key; reduced] in
  let? v := hmac_sha256 k v in
  Ok {| nonce_k := k; nonce_v := v; started := false |}.

Fixpoint next_candidate (fuel : nat) (n : Rfc6979Nonces) : res Stalled (Rfc6979Nonces * U256) :=
  match fuel with
  | O => Err OutOfTurns
  | S fuel =>
      let? n := (if started n then
                   let? k := hmac_sha256_parts (nonce_k n) [nonce_v n; [0x00]] in
                   let? v := hmac_sha256 k (nonce_v n) in
                   Ok (n <| nonce_k := k |> <| nonce_v := v |>)
                 else Ok n) in
      let n := n <| started := true |> in
      let? v := hmac_sha256 (nonce_k n) (nonce_v n) in
      let n := n <| nonce_v := v |> in
      let candidate := from_be_bytes v in
      if negb (is_zero candidate) && negb (u256_ge candidate (m (scalar curve))) then Ok (n, candidate) else next_candidate fuel n
  end.

(** ** Keys and signatures *)

Record P256PrivateKey := { key_scalar : U256; public_x : U256; public_y : U256 }.
Record P256PublicKey := { point : JacobianPoint }.

(** The loop of [derive]: the first usable candidate. *)
Fixpoint derive_scalar (fuel : nat) (seed domain : bytes) (counter : Z) : res Stalled U256 :=
  match fuel with
  | O => Err OutOfTurns
  | S fuel =>
      let? h := hmac_sha256_parts seed [domain; be_bytes 4 counter] in
      let candidate := from_be_bytes h in
      let counter := wrapping_add 32 counter 1 in
      if negb (is_zero candidate) && negb (u256_ge candidate (m (scalar curve))) then Ok candidate
      else derive_scalar fuel seed domain counter
  end.

Definition derive (fuel : nat) (seed domain : bytes) : res Stalled P256PrivateKey :=
  let c := curve in
  let? k := derive_scalar fuel seed domain 0 in
  let p := scalar_mul_point (field c) (generator c) k in
  let? (x, y) := or_panic (to_affine (field c) p) in
  if u256_ge (from_mont (field c) y) (half_p c) && negb (u256_eqb (from_mont (field c) y) (half_p c)) then
    let negated := mod_sub (scalar c) (m (scalar c)) k in
    Ok {| key_scalar := negated; public_x := x; public_y := mod_neg (field c) y |}
  else Ok {| key_scalar := k; public_x := x; public_y := y |}.

Definition public_x_bytes (k : P256PrivateKey) : bytes := to_be_bytes (from_mont (field curve) (public_x k)).

Definition public_uncompressed (k : P256PrivateKey) : bytes :=
  [SEC1_UNCOMPRESSED_TAG] ++ to_be_bytes (from_mont (field curve) (public_x k)) ++ to_be_bytes (from_mont (field curve) (public_y k)).

Definition public (k : P256PrivateKey) : P256PublicKey :=
  {| point := {| px := public_x k; py := public_y k; pz := one (field curve) |} |}.

(** One turn of signing with the nonce [k]: [r] and [s], or another nonce. *)
Definition sign_with (d e k : U256) : option (U256 * U256) :=
  let c := curve in
  if is_zero k then None else
  match to_affine (field c) (scalar_mul_point (field c) (generator c) k) with
  | None => None
  | Some (x, _) =>
      let r := reduce_once (scalar c) (from_mont (field c) x) in
      if is_zero r then None else
      let k_mont := to_mont (scalar c) k in
      let k_inv := mont_inv (scalar c) k_mont in
      let rd := mont_mul (scalar c) (to_mont (scalar c) r) (to_mont (scalar c) d) in
      let sum := mod_add (scalar c) (to_mont (scalar c) e) rd in
      let s := from_mont (scalar c) (mont_mul (scalar c) k_inv sum) in
      if is_zero s then None else Some (r, s)
  end.

Fixpoint sign_loop (fuel : nat) (d e : U256) (nonces : Rfc6979Nonces) : res Stalled bytes :=
  match fuel with
  | O => Err OutOfTurns
  | S fuel' =>
      let? (nonces, k) := next_candidate fuel nonces in
      match sign_with d e k with
      | Some (r, s) => Ok (to_be_bytes r ++ to_be_bytes s)
      | None => sign_loop fuel' d e nonces
      end
  end.

Definition sign_digest (fuel : nat) (key : P256PrivateKey) (digest : bytes) : res Stalled bytes :=
  let e := reduce_once (scalar curve) (from_be_bytes digest) in
  let? nonces := nonces_new (to_be_bytes (key_scalar key)) digest in
  sign_loop fuel (key_scalar key) e nonces.

Definition import_compact (x_bytes : bytes) : option JacobianPoint :=
  let c := curve in
  let f := field c in
  let x_raw := from_be_bytes x_bytes in
  if u256_ge x_raw (m f) then None else
  let x := to_mont f x_raw in
  let rhs := curve_rhs c x in
  let root := mont_pow f rhs (sqrt_exponent c) in
  if negb (u256_eqb (sqr f root) rhs) then None else
  let ordinary := from_mont f root in
  let y := if u256_ge ordinary (half_p c) && negb (u256_eqb ordinary (half_p c)) then mod_neg f root else root in
  Some {| px := x; py := y; pz := one f |}.

Definition import_uncompressed (from : bytes) : option JacobianPoint :=
  if negb (from !!! 0%nat =? SEC1_UNCOMPRESSED_TAG) then None else
  let f := field curve in
  let x_raw := from_be_bytes (ztake P256_ELEMENT_BYTES (zdrop 1 from)) in
  let y_raw := from_be_bytes (zdrop (1 + P256_ELEMENT_BYTES) from) in
  if u256_ge x_raw (m f) || u256_ge y_raw (m f) then None else
  let x := to_mont f x_raw in
  let y := to_mont f y_raw in
  if negb (is_on_curve curve x y) then None else
  Some {| px := x; py := y; pz := one f |}.

Definition import_public (from : bytes) : option P256PublicKey :=
  if zlen from =? P256_ELEMENT_BYTES then
    match import_compact from with Some p => Some {| point := p |} | None => None end
  else if zlen from =? P256_UNCOMPRESSED_BYTES then
    match import_uncompressed from with Some p => Some {| point := p |} | None => None end
  else None.

(** [x_bytes] and [uncompressed] of a public key. *)
Definition key_x_bytes {E} (k : P256PublicKey) : res E bytes :=
  let? (x, _) := or_panic (to_affine (field curve) (point k)) in
  Ok (to_be_bytes (from_mont (field curve) x)).

Definition uncompressed {E} (k : P256PublicKey) : res E bytes :=
  let? (x, y) := or_panic (to_affine (field curve) (point k)) in
  Ok ([SEC1_UNCOMPRESSED_TAG] ++ to_be_bytes (from_mont (field curve) x) ++ to_be_bytes (from_mont (field curve) y)).

Definition verify_point (p : JacobianPoint) (digest signature : bytes) : bool :=
  let c := curve in
  let r := from_be_bytes (ztake P256_ELEMENT_BYTES signature) in
  let s := from_be_bytes (zdrop P256_ELEMENT_BYTES signature) in
  if is_zero r || is_zero s || u256_ge r (m (scalar c)) || u256_ge s (m (scalar c)) then false else
  let e := reduce_once (scalar c) (from_be_bytes digest) in
  let s_inv := mont_inv (scalar c) (to_mont (scalar c) s) in
  let u1 := from_mont (scalar c) (mont_mul (scalar c) (to_mont (scalar c) e) s_inv) in
  let u2 := from_mont (scalar c) (mont_mul (scalar c) (to_mont (scalar c) r) s_inv) in
  let combined := scalar_mul_sum c u1 p u2 in
  match to_affine (field c) combined with
  | None => false
  | Some (x, _) => u256_eqb (reduce_once (scalar c) (from_mont (field c) x)) r
  end.

Definition verify_compact (key digest signature : bytes) : bool :=
  match import_compact key with
  | Some p => verify_point p digest signature
  | None => false
  end.

Definition verify_uncompressed (key digest signature : bytes) : bool :=
  match import_uncompressed key with
  | Some p => verify_point p digest signature
  | None => false
  end.

(** ** The DER form of a signature *)

(** [.position(|byte| *byte != 0)]. *)
Fixpoint first_nonzero (l : bytes) : option Z :=
  match l with
  | [] => None
  | x :: l => if negb (x =? 0) then Some 0 else match first_nonzero l with Some i => Some (i + 1) | None => None end
  end.

(** From the first byte that is not zero, or the last byte. *)
Definition trim_zeros (half : bytes) : bytes :=
  match first_nonzero half with
  | Some start => zdrop start half
  | None => zdrop (zlen half - 1) half
  end.

Definition der_half (half : bytes) : bytes :=
  let trimmed := trim_zeros half in
  [0x02] ++ (if negb (Z.land (trimmed !!! 0%nat) 0x80 =? 0) then [wrap 8 (zlen trimmed + 1); 0x00] else [wrap 8 (zlen trimmed)]) ++ trimmed.

Definition signature_to_der (signature : bytes) : bytes :=
  let body := der_half (ztake P256_ELEMENT_BYTES signature) ++ der_half (zdrop P256_ELEMENT_BYTES signature) in
  [0x30; wrap 8 (zlen body)] ++ body.
