(* ===== verification/P256Props.v ===== *)
(** * P-256: the code refines the curve

    An abstract specification, the points of the curve over the integers
    modulo a prime with chord and tangent addition, and the theorems that the
    Jacobian code in Montgomery form implements it, up to signing and
    verification. *)

From S2P Require Import Prelude Primality Sha ShaProps P256Field P256.
From stdpp Require Import base tactics numbers list strings.
From Stdlib Require Import ZArith Znumtheory Zdiv Zpow_facts Lia.

Open Scope Z_scope.

(** ** The constants *)

Lemma curve_constants :
  modulus_new 2 p256_p = Some (field curve) /\ modulus_new 2 p256_n = Some (scalar curve) /\ curve_new = Some curve /\
  hex32 p_text = Some p256_p /\ hex32 n_text = Some p256_n /\ hex32 b_text = Some p256_b /\ hex32 gx_text = Some p256_gx /\ hex32 gy_text = Some p256_gy.
Proof. split_and!; vm_compute; reflexivity. Qed.

Lemma u256_forallb a : length a = 4%nat -> forallb (fun x => (0 <=? x) && (x <? 2 ^ 64)) a = true -> u256 a.
Proof.
  intros Hl Ha. split; [done|]. rewrite forallb_forall in Ha. apply Forall_forall. intros x Hx%list_elem_of_In. specialize (Ha x Hx).
  apply andb_true_iff in Ha as [H1 H2]. bools. unfold in_range. lia.
Qed.

Ltac by_limbs := apply u256_forallb; vm_compute; reflexivity.

Lemma p_constants : u256 p256_p /\ val p256_p = P256_P /\ u256 p256_n /\ val p256_n = P256_N.
Proof. split_and!; try by_limbs; vm_compute; reflexivity. Qed.

#[global] Opaque curve p256_p p256_n p256_b p256_gx p256_gy.

(** The modulus of the field and that of the scalars. *)
Lemma field_full : modulus_full (field curve) /\ val (m (field curve)) = P256_P.
Proof.
  destruct p_constants as (H1 & H2 & _). destruct curve_constants as (E & _).
  destruct (modulus_new_spec 2 p256_p H1) as (M & EM & Em & HM); [by rewrite H2|by rewrite H2|by rewrite H2|].
  pose proof (eq_trans (eq_sym EM) E) as X. apply (inj Some) in X. subst M. rewrite Em. by split.
Qed.

Lemma scalar_full : modulus_full (scalar curve) /\ val (m (scalar curve)) = P256_N.
Proof.
  destruct p_constants as (_ & _ & H1 & H2). destruct curve_constants as (_ & E & _).
  destruct (modulus_new_spec 2 p256_n H1) as (M & EM & Em & HM); [by rewrite H2|by rewrite H2|by rewrite H2|].
  pose proof (eq_trans (eq_sym EM) E) as X. apply (inj Some) in X. subst M. rewrite Em. by split.
Qed.

(** A prime modulus: inversion. *)
Record prime_modulus (M : Modulus) (p : Z) : Prop := {
  pm_full : modulus_full M;
  pm_val : val (m M) = p;
  pm_prime : prime p;
}.

Lemma field_prime : prime_modulus (field curve) P256_P.
Proof. destruct field_full. constructor; [done|done|apply prime_field]. Qed.
Lemma scalar_prime : prime_modulus (scalar curve) P256_N.
Proof. destruct scalar_full. constructor; [done|done|apply prime_order]. Qed.

(** The inverse modulo [p]. *)
Definition inverse (p v : Z) : Z := Zpow_mod v (p - 2) p.

Lemma inverse_eqm p v : prime p -> eqm p (inverse p v) (v ^ (p - 2)).
Proof. intros Hp. pose proof (prime_ge_2 _ Hp). unfold inverse. rewrite Zpow_mod_correct by lia. apply Zmod_eqm. Qed.

Lemma inverse_spec p v : prime p -> v mod p <> 0 -> eqm p (v * inverse p v) 1.
Proof. intros Hp Hv. rewrite inverse_eqm by done. by apply fermat_inverse. Qed.

Lemma stands_inverse M p v x : prime_modulus M p -> stands M v x -> stands M (inverse p v) (mont_inv M x).
Proof.
  intros [Hf <- Hp] Hx. refine (stands_eqm M _ _ _ _ (stands_inv M (mf_ok _ Hf) _ _ (mf_one _ Hf) Hx)). by rewrite inverse_eqm.
Qed.

(** ** Bytes *)

Lemma be_val_split n (l : bytes) : be_val l = be_val (ztake n l) * 256 ^ zlen (zdrop n l) + be_val (zdrop n l).
Proof. rewrite <- (ztake_zdrop n l) at 1. apply be_val_app. Qed.

Lemma from_be_bytes_spec l : is_bytes l -> zlen l = 32 -> u256 (from_be_bytes l) /\ val (from_be_bytes l) = be_val l.
Proof.
  intros Hb Hl. unfold from_be_bytes, P256_ELEMENT_BYTES. change (seqZ 0 4) with [0; 1; 2; 3]. cbn [map].
  assert (forall k, 0 <= k <= 24 -> u64 (be_val (ztake 8 (zdrop k l)))) as Hw.
  { intros k Hk. pose proof (be_val_bound (ztake 8 (zdrop k l)) ltac:(by apply is_bytes_ztake, is_bytes_zdrop)) as B.
    rewrite zlen_ztake, zlen_zdrop in B. replace (8 * Z.max 0 (8 `min` Z.max 0 (zlen l - Z.max 0 k))) with 64 in B by lia. exact B. }
  split; [split; [done|]; rewrite !Forall_cons; split_and!; try (apply Hw; lia); constructor|].
  cbn [val]. rewrite (be_val_split 8 l), (be_val_split 8 (zdrop 8 l)), (be_val_split 8 (zdrop 8 (zdrop 8 l))), !zdrop_zdrop by lia.
  rewrite !zlen_zdrop, Hl. change (32 - 8 * (0 + 1)) with 24. change (32 - 8 * (1 + 1)) with 16. change (32 - 8 * (2 + 1)) with 8.
  change (32 - 8 * (3 + 1)) with 0. change (8 + 8 + 8) with 24. change (8 + 8) with 16. rewrite zdrop_0.
  rewrite (ztake_all 8 (zdrop 24 l)) by (rewrite zlen_zdrop; lia). 
  set (w0 := be_val (ztake 8 l)). set (w1 := be_val (ztake 8 (zdrop 8 l))). set (w2 := be_val (ztake 8 (zdrop 16 l))). set (w3 := be_val (zdrop 24 l)).
  change (256 ^ (0 `max` (32 - 0 `max` 8))) with (2 ^ 192). change (256 ^ (0 `max` (32 - 0 `max` 16))) with (2 ^ 128).
  change (256 ^ (0 `max` (32 - 0 `max` 24))) with (2 ^ 64). lia.
Qed.

Lemma to_be_bytes_spec a : u256 a -> to_be_bytes a = be_bytes 32 (val a).
Proof.
  intros (a0 & a1 & a2 & a3 & -> & A0 & A1 & A2 & A3)%u256_limbs. unfold to_be_bytes. cbn [foldl]. rewrite app_nil_r.
  set (l := be_bytes 8 a3 ++ _). assert (length l = 32%nat) as Ll by (unfold l; by rewrite !length_app, !length_be_bytes).
  assert (is_bytes l) as Bl by (unfold l; repeat apply Forall_app_2; apply is_bytes_be_bytes).
  rewrite <- (be_bytes_be_val 32 l Bl Ll). f_equal. unfold l. rewrite !be_val_app, !length_app, !length_be_bytes, !be_val_be_bytes.
  change (8 * Z.of_nat 8) with 64. unfold in_range in *. rewrite !Z.mod_small by lia. cbn [val].
  change (256 ^ Z.of_nat (8 + (8 + 8))) with (2 ^ 192). change (256 ^ Z.of_nat (8 + 8)) with (2 ^ 128). change (256 ^ Z.of_nat 8) with (2 ^ 64). lia.
Qed.

Lemma from_to_be_bytes a : u256 a -> from_be_bytes (to_be_bytes a) = a.
Proof.
  intros Ha. pose proof (u256_bound _ Ha). rewrite to_be_bytes_spec by done.
  destruct (from_be_bytes_spec (be_bytes 32 (val a)) (is_bytes_be_bytes _ _) (zlen_be_bytes _ _)) as [H1 H2].
  apply u256_inj; [done|done|]. rewrite H2, be_val_be_bytes. change (8 * Z.of_nat 32) with 256. by rewrite Z.mod_small.
Qed.

#[global] Opaque from_be_bytes to_be_bytes.

(** ** The specification: points and their addition *)

Inductive ecpoint :=
| Infinity
| Affine (x y : Z).

Definition B_coeff : Z := val p256_b.

(** Tangent and chord. *)
Definition ec_line (lambda x1 y1 x2 : Z) : ecpoint :=
  let x3 := (lambda * lambda - x1 - x2) mod P256_P in
  Affine x3 ((lambda * (x1 - x3) - y1) mod P256_P).

Definition ec_double (a : ecpoint) : ecpoint :=
  match a with
  | Infinity => Infinity
  | Affine x y => if y mod P256_P =? 0 then Infinity else ec_line ((3 * x * x - 3) * inverse P256_P (2 * y)) x y x
  end.

Definition ec_add (a c : ecpoint) : ecpoint :=
  match a, c with
  | Infinity, _ => c
  | _, Infinity => a
  | Affine x1 y1, Affine x2 y2 =>
      if (x2 - x1) mod P256_P =? 0 then (if (y2 - y1) mod P256_P =? 0 then ec_double a else Infinity)
      else ec_line ((y2 - y1) * inverse P256_P (x2 - x1)) x1 y1 x2
  end.

(** Multiplication by doubling and adding, along the binary digits. *)
Fixpoint ec_mul_pos (k : positive) (a : ecpoint) : ecpoint :=
  match k with
  | xH => a
  | xO k => ec_double (ec_mul_pos k a)
  | xI k => ec_add (ec_double (ec_mul_pos k a)) a
  end.
Definition ec_mul (k : Z) (a : ecpoint) : ecpoint :=
  match k with
  | Zpos k => ec_mul_pos k a
  | _ => Infinity
  end.

Definition on_curve (a : ecpoint) : Prop :=
  match a with
  | Infinity => True
  | Affine x y => eqm P256_P (y * y) (x * x * x - 3 * x + B_coeff)
  end.

(** What a Jacobian point stands for. *)
Record coordinates (p : JacobianPoint) (x y z : Z) : Prop := {
  co_x : stands (field curve) x (px p);
  co_y : stands (field curve) y (py p);
  co_z : stands (field curve) z (pz p);
}.

Inductive denotes (p : JacobianPoint) : ecpoint -> Prop :=
| DenotesInfinity x y z : coordinates p x y z -> z mod P256_P = 0 -> denotes p Infinity
| DenotesAffine x y z ax ay : coordinates p x y z -> z mod P256_P <> 0 ->
    eqm P256_P x (ax * z * z) -> eqm P256_P y (ay * z * z * z) -> denotes p (Affine ax ay).

(** ** Congruences modulo the field's prime *)

#[local] Notation P := P256_P.

Lemma P_ge : 2 < P.
Proof. done. Qed.
Lemma P_nonzero : P <> 0.
Proof. done. Qed.
Lemma two_nonzero : 2 mod P <> 0.
Proof. done. Qed.
#[local] Hint Resolve P_nonzero two_nonzero : core.
#[global] Opaque inverse P256_P P256_N.

Lemma eqm_eq v w : v = w -> eqm P v w.
Proof. by intros ->. Qed.

Lemma eqm_zero v : eqm P v 0 <-> v mod P = 0.
Proof. done. Qed.

Lemma eqm_P_sub v : eqm P (P - v) (- v).
Proof. unfold eqm. replace (P - v) with (- v + 1 * P) by ring. by apply Z.mod_add. Qed.

Lemma mod_mul_nonzero v w : v mod P <> 0 -> w mod P <> 0 -> (v * w) mod P <> 0.
Proof.
  intros Hv Hw E. apply Z.mod_divide in E; [|done]. apply prime_mult in E as [E|E]; [| |apply prime_field].
  - apply Hv. by apply Z.mod_divide.
  - apply Hw. by apply Z.mod_divide.
Qed.

Lemma eqm_zero_iff v w : eqm P v w -> v mod P = 0 <-> w mod P = 0.
Proof. unfold eqm. intros ->. done. Qed.

Lemma mul_zero_iff v w : w mod P <> 0 -> (v * w) mod P = 0 <-> v mod P = 0.
Proof.
  intros Hw. split; intros E.
  - destruct (decide (v mod P = 0)) as [|Hv]; [done|]. by destruct (mod_mul_nonzero v w Hv Hw).
  - rewrite <- Z.mul_mod_idemp_l, E by done. done.
Qed.

(** Substitutes what is known of the coordinates, the rest is an identity. *)
Ltac eqm_ring := first [apply eqm_eq; ring | idtac].

Section Points.
#[local] Notation f := (field curve).

Let HM : modulus_ok f := mf_ok _ (proj1 field_full).

Lemma f_zero v x : stands f v x -> is_zero x = (v mod P =? 0).
Proof. intros Hx. rewrite (stands_zero f HM v x Hx). by rewrite (proj2 field_full). Qed.

Lemma f_eqm v w x : eqm P v w -> stands f v x -> stands f w x.
Proof. intros E. apply stands_eqm. by rewrite (proj2 field_full). Qed.

Lemma f_exists x : u256 x -> val x < P -> exists v, stands f v x.
Proof. intros Hx Hlt. apply stands_exists; [done|done|]. by rewrite (proj2 field_full). Qed.

(** *** Doubling *)

Lemma double_coordinates p x y z :
  coordinates p x y z -> z mod P <> 0 ->
  let alpha := 3 * (x - z * z) * (x + z * z) in
  let x3 := alpha * alpha - 8 * x * y * y in
  coordinates (double f p) x3 (alpha * (4 * x * y * y - x3) - 8 * y * y * y * y) (2 * y * z).
Proof.
  intros [Hx Hy Hz] Hnz alpha x3. unfold double, is_infinity. rewrite (f_zero _ _ Hz), (proj2 (Z.eqb_neq _ _)) by done.
  cbv zeta. 
  pose proof (stands_sqr f HM _ _ Hz) as Hdelta. pose proof (stands_sqr f HM _ _ Hy) as Hgamma.
  pose proof (stands_mul f HM _ _ _ _ Hx Hgamma) as Hbeta.
  pose proof (stands_mul f HM _ _ _ _ (stands_sub f HM _ _ _ _ Hx Hdelta) (stands_add f HM _ _ _ _ Hx Hdelta)) as Hprod.
  pose proof (stands_add f HM _ _ _ _ (stands_add f HM _ _ _ _ Hprod Hprod) Hprod) as Halpha.
  pose proof (stands_add f HM _ _ _ _ Hbeta Hbeta) as Hb2. pose proof (stands_add f HM _ _ _ _ Hb2 Hb2) as Hb4.
  pose proof (stands_add f HM _ _ _ _ Hb4 Hb4) as Hb8.
  pose proof (stands_sub f HM _ _ _ _ (stands_sqr f HM _ _ Halpha) Hb8) as Hx3.
  pose proof (stands_sqr f HM _ _ Hgamma) as Hg2. pose proof (stands_add f HM _ _ _ _ Hg2 Hg2) as Hg4.
  pose proof (stands_add f HM _ _ _ _ Hg4 Hg4) as Hg8. pose proof (stands_add f HM _ _ _ _ Hg8 Hg8) as Hg16.
  constructor; cbn [px py pz].
  - refine (f_eqm _ _ _ _ Hx3). unfold x3, alpha. apply eqm_eq. ring.
  - refine (f_eqm _ _ _ _ (stands_sub f HM _ _ _ _ (stands_mul f HM _ _ _ _ Halpha (stands_sub f HM _ _ _ _ Hb4 Hx3)) Hg16)).
    unfold x3, alpha. apply eqm_eq. ring.
  - refine (f_eqm _ _ _ _ (stands_sub f HM _ _ _ _ (stands_sub f HM _ _ _ _ (stands_sqr f HM _ _ (stands_add f HM _ _ _ _ Hy Hz)) Hgamma) Hdelta)).
    apply eqm_eq. ring.
Qed.

Lemma double_refines p a : denotes p a -> denotes (double f p) (ec_double a).
Proof.
  intros [x y z Hc Hz|x y z ax ay Hc Hz Ex Ey].
  - unfold double, is_infinity. rewrite (f_zero _ _ (co_z _ _ _ _ Hc)), Hz. by eapply DenotesInfinity.
  - pose proof (double_coordinates p x y z Hc Hz) as Hd. cbv zeta in Hd. set (alpha := 3 * (x - z * z) * (x + z * z)) in *.
    set (x3 := alpha * alpha - 8 * x * y * y) in *. set (w := 2 * ay * z * z * z * z).
    assert (eqm P (2 * y * z) w) as Ew by (rewrite Ey; apply eqm_eq; unfold w; ring).
    assert (z * z * z * z * 2 mod P <> 0) as Hz4 by (repeat apply mod_mul_nonzero; done).
    cbn [ec_double]. destruct (Z.eqb_spec (ay mod P) 0) as [E0|E0].
    + eapply DenotesInfinity; [exact Hd|]. apply (eqm_zero_iff _ _ Ew). unfold w.
      replace (2 * ay * z * z * z * z) with (ay * (z * z * z * z * 2)) by ring. by apply mul_zero_iff.
    + assert (w mod P <> 0) as Hw.
      { unfold w. replace (2 * ay * z * z * z * z) with (ay * (z * z * z * z * 2)) by ring. by apply mod_mul_nonzero. }
      set (lambda := (3 * ax * ax - 3) * inverse P (2 * ay)).
      assert (eqm P (2 * ay * inverse P (2 * ay)) 1) as Ei by (apply inverse_spec; [apply prime_field|by apply mod_mul_nonzero]).
      assert (eqm P alpha (lambda * w)) as Ea.
      { unfold alpha, lambda, w. rewrite Ex.
        transitivity ((3 * ax * ax - 3) * z * z * z * z * (2 * ay * inverse P (2 * ay))); [rewrite Ei|]; apply eqm_eq; ring. }
      assert (eqm P x3 ((lambda * lambda - ax - ax) * w * w)) as E3 by (unfold x3; rewrite Ea, Ex, Ey; apply eqm_eq; unfold w; ring).
      unfold ec_line. eapply DenotesAffine; [exact Hd|by rewrite (eqm_zero_iff _ _ Ew)|..].
      * rewrite Ew, Zmod_eqm. exact E3.
      * rewrite Ew, !Zmod_eqm. rewrite E3, Ea, Ex, Ey. apply eqm_eq. unfold w. ring.
Qed.

(** *** Addition *)

Lemma infinity_denotes : denotes infinity Infinity.
Proof.
  destruct (f_exists u256_one) as [v Hv]; [by_limbs|vm_compute; reflexivity|].
  destruct (f_exists ZERO) as [z Hz]; [by_limbs|vm_compute; reflexivity|].
  eapply (DenotesInfinity _ v v z); [by constructor|]. apply Z.eqb_eq. rewrite <- (f_zero _ _ Hz). done.
Qed.

(** The chord case of [point_add], in integers. *)
Lemma chord_coordinates p q x1 y1 z1 x2 y2 z2 :
  coordinates p x1 y1 z1 -> coordinates q x2 y2 z2 -> z1 mod P <> 0 -> z2 mod P <> 0 ->
  let h := x2 * z1 * z1 - x1 * z2 * z2 in
  let r := y2 * z1 * z1 * z1 - y1 * z2 * z2 * z2 in
  let v := x1 * z2 * z2 * (4 * h * h) in
  let x3 := 4 * r * r - 4 * h * h * h - 2 * v in
  (h mod P <> 0 -> coordinates (point_add f p q) x3 (2 * r * (v - x3) - 8 * y1 * z2 * z2 * z2 * h * h * h) (2 * z1 * z2 * h)) /\
  (h mod P = 0 -> point_add f p q = if r mod P =? 0 then double f p else infinity).
Proof.
  intros [Hx1 Hy1 Hz1] [Hx2 Hy2 Hz2] N1 N2 h r v x3. unfold point_add, is_infinity.
  rewrite (f_zero _ _ Hz1), (f_zero _ _ Hz2), !(proj2 (Z.eqb_neq _ _)) by done. cbv zeta.
  pose proof (stands_sqr f HM _ _ Hz1) as Hz11. pose proof (stands_sqr f HM _ _ Hz2) as Hz22.
  pose proof (stands_mul f HM _ _ _ _ Hx1 Hz22) as Hu1. pose proof (stands_mul f HM _ _ _ _ Hx2 Hz11) as Hu2.
  pose proof (stands_mul f HM _ _ _ _ Hy1 (stands_mul f HM _ _ _ _ Hz2 Hz22)) as Hs1.
  pose proof (stands_mul f HM _ _ _ _ Hy2 (stands_mul f HM _ _ _ _ Hz1 Hz11)) as Hs2.
  pose proof (stands_sub f HM _ _ _ _ Hu2 Hu1) as Hh. pose proof (stands_sub f HM _ _ _ _ Hs2 Hs1) as Hr.
  apply (f_eqm _ h) in Hh; [|apply eqm_eq; unfold h; ring]. apply (f_eqm _ r) in Hr; [|apply eqm_eq; unfold r; ring].
  rewrite (f_zero _ _ Hh), (f_zero _ _ Hr). clearbody h r. split; intros Nh; [rewrite (proj2 (Z.eqb_neq _ _)) by done|by rewrite Nh].
  pose proof (stands_add f HM _ _ _ _ Hr Hr) as Hr2. pose proof (stands_sqr f HM _ _ (stands_add f HM _ _ _ _ Hh Hh)) as Hi.
  pose proof (stands_mul f HM _ _ _ _ Hh Hi) as Hj. pose proof (stands_mul f HM _ _ _ _ Hu1 Hi) as Hv.
  pose proof (stands_sub f HM _ _ _ _ (stands_sub f HM _ _ _ _ (stands_sqr f HM _ _ Hr2) Hj) (stands_add f HM _ _ _ _ Hv Hv)) as Hx3.
  pose proof (stands_mul f HM _ _ _ _ Hs1 Hj) as Hs1j.
  constructor; cbn [px py pz].
  - refine (f_eqm _ _ _ _ Hx3). apply eqm_eq. unfold x3, v. ring.
  - refine (f_eqm _ _ _ _ (stands_sub f HM _ _ _ _ (stands_mul f HM _ _ _ _ Hr2 (stands_sub f HM _ _ _ _ Hv Hx3)) (stands_add f HM _ _ _ _ Hs1j Hs1j))).
    apply eqm_eq. unfold x3, v. ring.
  - refine (f_eqm _ _ _ _ (stands_mul f HM _ _ _ _ (stands_sub f HM _ _ _ _ (stands_sub f HM _ _ _ _
      (stands_sqr f HM _ _ (stands_add f HM _ _ _ _ Hz1 Hz2)) Hz11) Hz22) Hh)). apply eqm_eq. ring.
Qed.

Lemma add_refines p q a c : denotes p a -> denotes q c -> denotes (point_add f p q) (ec_add a c).
Proof.
  intros Hp Hq. pose proof Hp as Hp'. pose proof Hq as Hq'.
  destruct Hp' as [x1 y1 z1 C1 N1|x1 y1 z1 a1 b1 C1 N1 Ex1 Ey1].
  { unfold point_add, is_infinity. by rewrite (f_zero _ _ (co_z _ _ _ _ C1)), N1. }
  destruct Hq' as [x2 y2 z2 C2 N2|x2 y2 z2 a2 b2 C2 N2 Ex2 Ey2].
  { unfold point_add, is_infinity. rewrite (f_zero _ _ (co_z _ _ _ _ C1)), (proj2 (Z.eqb_neq _ _)) by done.
    by rewrite (f_zero _ _ (co_z _ _ _ _ C2)), N2. }
  destruct (chord_coordinates p q x1 y1 z1 x2 y2 z2 C1 C2 N1 N2) as [Hchord Hsame]. cbv zeta in Hchord, Hsame.
  set (h := x2 * z1 * z1 - x1 * z2 * z2) in *. set (r := y2 * z1 * z1 * z1 - y1 * z2 * z2 * z2) in *.
  set (v := x1 * z2 * z2 * (4 * h * h)) in *. set (x3 := 4 * r * r - 4 * h * h * h - 2 * v) in *.
  assert (eqm P h ((a2 - a1) * (z1 * z2 * (z1 * z2)))) as Eh by (unfold h; rewrite Ex1, Ex2; apply eqm_eq; ring).
  assert (eqm P r ((b2 - b1) * (z1 * z2 * (z1 * z2) * (z1 * z2)))) as Er by (unfold r; rewrite Ey1, Ey2; apply eqm_eq; ring).
  assert ((z1 * z2) mod P <> 0) as Nw by (by apply mod_mul_nonzero).
  cbn [ec_add]. destruct (Z.eqb_spec ((a2 - a1) mod P) 0) as [E0|E0].
  - rewrite Hsame by (apply (eqm_zero_iff _ _ Eh), mul_zero_iff; [by apply mod_mul_nonzero|done]).
    assert (r mod P = 0 <-> (b2 - b1) mod P = 0) as Hr by (rewrite (eqm_zero_iff _ _ Er); apply mul_zero_iff; by repeat apply mod_mul_nonzero).
    destruct (Z.eqb_spec (r mod P) 0), (Z.eqb_spec ((b2 - b1) mod P) 0); try tauto; [by apply double_refines|apply infinity_denotes].
  - assert (h mod P <> 0) as Nh by (rewrite (eqm_zero_iff _ _ Eh); by repeat apply mod_mul_nonzero).
    specialize (Hchord Nh). set (w := 2 * z1 * z2 * h) in *.
    assert (w mod P <> 0) as Nz by (unfold w; by repeat apply mod_mul_nonzero).
    set (lambda := (b2 - b1) * inverse P (a2 - a1)).
    assert (eqm P ((a2 - a1) * inverse P (a2 - a1)) 1) as Ei by (apply inverse_spec; [apply prime_field|done]).
    assert (eqm P (2 * r) (lambda * w)) as El.
    { unfold lambda, w. rewrite Er, Eh.
      transitivity (2 * (b2 - b1) * (z1 * z2 * (z1 * z2) * (z1 * z2)) * ((a2 - a1) * inverse P (a2 - a1))); [rewrite Ei|]; apply eqm_eq; ring. }
    assert (eqm P v (a1 * w * w)) as Ev by (unfold v, w; rewrite Ex1; apply eqm_eq; ring).
    assert (eqm P (4 * h * h * h) ((a2 - a1) * w * w)) as Ej.
    { transitivity (4 * h * h * ((a2 - a1) * (z1 * z2 * (z1 * z2)))); [by rewrite Eh at 3|]. apply eqm_eq. unfold w. ring. }
    assert (eqm P x3 ((lambda * lambda - a1 - a2) * w * w)) as E3.
    { transitivity ((2 * r) * (2 * r) - 4 * h * h * h - 2 * v); [apply eqm_eq; unfold x3; ring|]. rewrite El, Ej, Ev. apply eqm_eq. ring. }
    unfold ec_line. eapply DenotesAffine; [exact Hchord|done|..].
    + rewrite Zmod_eqm. exact E3.
    + rewrite !Zmod_eqm. transitivity ((2 * r) * (v - x3) - b1 * w * w * w).
      * unfold w. rewrite Ey1. apply eqm_eq. ring.
      * rewrite El, Ev, E3. apply eqm_eq. ring.
Qed.

(** *** Multiplication *)

Lemma ec_mul_step k c a : 0 <= k -> ec_mul (2 * k + Z.b2z c) a = if c then ec_add (ec_double (ec_mul k a)) a else ec_double (ec_mul k a).
Proof. intros Hk. destruct k as [|k|k]; [| |lia]; by destruct c. Qed.

Lemma denotes_limbs p a : denotes p a -> u256 (px p) /\ u256 (py p) /\ u256 (pz p).
Proof.
  intros [x y z [Hx Hy Hz] _|x y z ax ay [Hx Hy Hz] _ _ _]; split_and!; by eapply st_limbs.
Qed.

Lemma denotes_select p q a c t :
  denotes p a -> denotes q c -> 0 <= t <= 1 ->
  denotes {| px := select (px p) (px q) t; py := select (py p) (py q) t; pz := select (pz p) (pz q) t |} (if t =? 1 then a else c).
Proof.
  intros Hp Hq Ht. destruct (denotes_limbs _ _ Hp) as (P1 & P2 & P3). destruct (denotes_limbs _ _ Hq) as (Q1 & Q2 & Q3).
  rewrite !select_spec by done. destruct (t =? 1); [by destruct p|by destruct q].
Qed.

Lemma mul_refines p a k : denotes p a -> u256 k -> denotes (scalar_mul_point f p k) (ec_mul (val k) a).
Proof.
  intros Hp Hk. pose proof (u256_bound _ Hk) as Bk. unfold scalar_mul_point, bits_down. change 256 with (Z.of_nat 256).
  apply (bits_down_loop _ (fun e acc => denotes acc (ec_mul e a)) (val k) 256).
  - intros acc i Hi Hacc. pose proof (double_refines _ _ Hacc) as Hd. pose proof (add_refines _ _ _ _ Hd Hp) as Hadd.
    pose proof (Z.div_pos (val k) (2 ^ (i + 1)) ltac:(lia) ltac:(apply Z.pow_pos_nonneg; lia)) as Np.
    rewrite (div_pow2_step (val k) i), ec_mul_step by lia.
    pose proof (denotes_select _ _ _ _ (bit k i) Hadd Hd (bit_range k i Hk ltac:(lia))) as Hs.
    rewrite bit_spec in * by (done || lia). by destruct (Z.testbit (val k) i).
  - change (2 ^ Z.of_nat 256) with R. rewrite Z.div_small by done. apply infinity_denotes.
Qed.

(** Doubling and adding along the digits of two numbers at once. *)
Fixpoint ec_mul_both (n : nat) (u1 u2 : Z) (g a : ecpoint) : ecpoint :=
  match n with
  | O => Infinity
  | S n =>
      let acc := ec_double (ec_mul_both n (u1 / 2) (u2 / 2) g a) in
      let acc := if Z.odd u1 then ec_add acc g else acc in
      if Z.odd u2 then ec_add acc a else acc
  end.

Lemma mul_sum_refines p g a u1 u2 :
  denotes (generator curve) g -> denotes p a -> u256 u1 -> u256 u2 ->
  denotes (scalar_mul_sum curve u1 p u2) (ec_mul_both 256 (val u1) (val u2) g a).
Proof.
  intros Hg Hp H1 H2. pose proof (u256_bound _ H1). pose proof (u256_bound _ H2). unfold scalar_mul_sum, bits_down.
  change 256 with (Z.of_nat 256).
  match goal with |- denotes (foldl ?F infinity _) _ => set (turn := F) end.
  assert (denotes (foldl turn infinity (rev (seqZ 0 (Z.of_nat 256))))
    (ec_mul_both (256 - Z.to_nat 0) (val u1 / 2 ^ 0) (val u2 / 2 ^ 0) g a)) as Hall; [|by rewrite !Z.div_1_r in Hall].
  apply (bits_down_ind turn (fun i acc => denotes acc (ec_mul_both (256 - Z.to_nat i) (val u1 / 2 ^ i) (val u2 / 2 ^ i) g a)) 256).
  2:{ change (2 ^ Z.of_nat 256) with R. rewrite !Z.div_small by done. apply infinity_denotes. }
  intros acc i Hi Hacc. unfold turn. replace (256 - Z.to_nat i)%nat with (S (256 - Z.to_nat (i + 1))) by lia. cbn [ec_mul_both].
  assert (forall u, val u / 2 ^ i / 2 = val u / 2 ^ (i + 1)) as Eh
    by (intros u; rewrite Z.pow_add_r, <- Z.div_div by (try apply Z.pow_nonzero; lia); done).
  rewrite !Eh. apply double_refines in Hacc.
  assert (forall u, u256 u -> (bit u i =? 1) = Z.odd (val u / 2 ^ i)) as Eb.
  { intros u Hu. rewrite bit_spec by (done || lia). rewrite <- Z.bit0_odd, Z.div_pow2_bits, Z.add_0_l by lia.
    by destruct (Z.testbit (val u) i). }
  rewrite !Eb by done. destruct (Z.odd (val u1 / 2 ^ i)), (Z.odd (val u2 / 2 ^ i)); repeat apply add_refines; done.
Qed.

(** *** Affine coordinates *)

Lemma f_pos_mul v w x y : stands f v x -> stands f w y -> stands f (v * w) (mont_mul f x y).
Proof. apply (stands_mul f HM). Qed.

Lemma to_affine_refines p a :
  denotes p a ->
  match a with
  | Infinity => to_affine f p = None
  | Affine ax ay => exists x y, to_affine f p = Some (x, y) /\ stands f ax x /\ stands f ay y
  end.
Proof.
  intros [x y z [Hx Hy Hz] N|x y z ax ay [Hx Hy Hz] N Ex Ey]; unfold to_affine, is_infinity; rewrite (f_zero _ _ Hz).
  - by rewrite N.
  - rewrite (proj2 (Z.eqb_neq _ _)) by done. pose proof (stands_inverse _ _ _ _ field_prime Hz) as Hi.
    pose proof (stands_sqr f HM _ _ Hi) as Hi2. pose proof (f_pos_mul _ _ _ _ Hi2 Hi) as Hi3.
    pose proof (inverse_spec P z prime_field N) as Ei. set (i := inverse P z) in *. do 2 eexists. split; [reflexivity|]. split.
    + refine (f_eqm _ _ _ _ (f_pos_mul _ _ _ _ Hx Hi2)). rewrite Ex.
      transitivity (ax * (z * i) * (z * i)); [apply eqm_eq; ring|]. rewrite Ei. apply eqm_eq. ring.
    + refine (f_eqm _ _ _ _ (f_pos_mul _ _ _ _ Hy Hi3)). rewrite Ey.
      transitivity (ay * (z * i) * (z * i) * (z * i)); [apply eqm_eq; ring|]. rewrite Ei. apply eqm_eq. ring.
Qed.

(** *** The equation of the curve *)

(** The third point of a line through a curve point, from what the line meets
    it in: [E] is the equation along the line. *)
Lemma line_on_curve lambda x1 y1 x2 :
  let E x := x * x * x - 3 * x + B_coeff - (lambda * (x - x1) + y1) * (lambda * (x - x1) + y1) in
  let x3 := lambda * lambda - x1 - x2 in
  eqm P (E x3) 0 -> on_curve (ec_line lambda x1 y1 x2).
Proof.
  intros E x3 H3. unfold ec_line, on_curve. fold x3. set (r := x3 mod P). assert (eqm P r x3) as Er by apply Zmod_eqm.
  rewrite !Zmod_eqm. rewrite Er. transitivity (x3 * x3 * x3 - 3 * x3 + B_coeff - E x3); [apply eqm_eq; unfold E; ring|].
  rewrite H3. apply eqm_eq. ring.
Qed.

Lemma ec_double_on_curve a : on_curve a -> on_curve (ec_double a).
Proof.
  destruct a as [|x y]; [done|]. cbn [ec_double on_curve]. intros Hc. destruct (Z.eqb_spec (y mod P) 0) as [|Ny]; [done|].
  apply line_on_curve. set (lambda := (3 * x * x - 3) * inverse P (2 * y)).
  assert (eqm P (2 * y * inverse P (2 * y)) 1) as Ei by (apply inverse_spec; [apply prime_field|by apply mod_mul_nonzero]).
  assert (eqm P (lambda * (2 * y)) (3 * x * x - 3)) as El.
  { unfold lambda. transitivity ((3 * x * x - 3) * (2 * y * inverse P (2 * y))); [apply eqm_eq; ring|]. rewrite Ei. apply eqm_eq. ring. }
  set (x3 := lambda * lambda - x - x).
  transitivity ((3 * x * x - 3 - lambda * (2 * y)) * (x3 - x) + (x * x * x - 3 * x + B_coeff - y * y)); [apply eqm_eq; unfold x3; ring|].
  rewrite El, Hc. apply eqm_eq. ring.
Qed.

Lemma ec_add_on_curve a c : on_curve a -> on_curve c -> on_curve (ec_add a c).
Proof.
  destruct a as [|x1 y1], c as [|x2 y2]; try done. intros H1 H2. cbn [ec_add].
  destruct (Z.eqb_spec ((x2 - x1) mod P) 0) as [|Nx].
  { destruct (_ =? 0); [by apply ec_double_on_curve|done]. }
  apply line_on_curve. cbn [on_curve] in H1, H2. set (lambda := (y2 - y1) * inverse P (x2 - x1)).
  assert (eqm P ((x2 - x1) * inverse P (x2 - x1)) 1) as Ei by (apply inverse_spec; [apply prime_field|done]).
  assert (eqm P (lambda * (x2 - x1)) (y2 - y1)) as El.
  { unfold lambda. transitivity ((y2 - y1) * ((x2 - x1) * inverse P (x2 - x1))); [apply eqm_eq; ring|]. rewrite Ei. apply eqm_eq. ring. }
  set (x3 := lambda * lambda - x1 - x2).
  apply (eqm_cancel P (x2 - x1)); [by apply prime_rel_prime_mod; [apply prime_field|]|].
  transitivity ((x3 - x1) * (x2 * x2 * x2 - 3 * x2 + B_coeff - (lambda * (x2 - x1) + y1) * (lambda * (x2 - x1) + y1)) -
    (x3 - x2) * (x1 * x1 * x1 - 3 * x1 + B_coeff - y1 * y1)); [apply eqm_eq; unfold x3; ring|].
  rewrite El, H1. replace (y2 - y1 + y1) with y2 by ring. rewrite H2. apply eqm_eq. ring.
Qed.

Lemma ec_mul_on_curve k a : on_curve a -> on_curve (ec_mul k a).
Proof.
  intros Ha. destruct k as [|k|k]; [done| |done]. cbn [ec_mul].
  induction k as [k IH|k IH|]; cbn [ec_mul_pos]; auto using ec_add_on_curve, ec_double_on_curve.
Qed.

Lemma ec_mul_both_on_curve n : forall u1 u2 g a, on_curve g -> on_curve a -> on_curve (ec_mul_both n u1 u2 g a).
Proof.
  induction n as [|n IH]; intros u1 u2 g a Hg Ha; [done|]. cbn [ec_mul_both]. repeat case_match; auto using ec_add_on_curve, ec_double_on_curve.
Qed.
End Points.

(** ** Curve constants and public keys *)

Definition G : ecpoint := Affine (val p256_gx) (val p256_gy).

#[local] Notation f := (field curve).
#[local] Notation sc := (scalar curve).

Lemma f_ok : modulus_ok f.
Proof. apply (proj1 field_full). Qed.
Lemma f_val : val (m f) = P.
Proof. apply field_full. Qed.
Lemma sc_ok : modulus_ok sc.
Proof. apply (proj1 scalar_full). Qed.
Lemma sc_val : val (m sc) = P256_N.
Proof. apply scalar_full. Qed.

Lemma f_one : stands f 1 (one f).
Proof. apply (proj1 field_full). Qed.
Lemma f_to_mont x : u256 x -> stands f (val x) (to_mont f x).
Proof. apply to_mont_stands; [apply f_ok|apply (proj1 field_full)]. Qed.
Lemma sc_to_mont x : u256 x -> stands sc (val x) (to_mont sc x).
Proof. apply to_mont_stands; [apply sc_ok|apply (proj1 scalar_full)]. Qed.

Lemma b_stands : stands f B_coeff (b curve).
Proof.
  replace (b curve) with (to_mont f p256_b) by (vm_compute; reflexivity). apply f_to_mont. by_limbs.
Qed.

Lemma affine_denotes p x y : coordinates p x y 1 -> denotes p (Affine x y).
Proof.
  intros Hc. eapply DenotesAffine; [exact Hc|by apply (bool_decide_unpack _); vm_compute|..]; apply eqm_eq; ring.
Qed.

Lemma generator_denotes : denotes (generator curve) G.
Proof.
  replace (generator curve) with {| px := to_mont f p256_gx; py := to_mont f p256_gy; pz := one f |} by (vm_compute; reflexivity).
  apply affine_denotes. constructor; cbn [px py pz]; [apply f_to_mont; by_limbs|apply f_to_mont; by_limbs|apply f_one].
Qed.

Lemma generator_on_curve : on_curve G.
Proof. unfold G, on_curve, eqm. vm_compute. reflexivity. Qed.

Lemma curve_rhs_stands x v : stands f v x -> stands f (v * v * v - 3 * v + B_coeff) (curve_rhs curve x).
Proof.
  intros Hx. unfold curve_rhs. cbv zeta. pose proof f_ok as HM.
  pose proof (stands_mul f HM _ _ _ _ (stands_sqr f HM _ _ Hx) Hx) as H3.
  pose proof (stands_add f HM _ _ _ _ (stands_add f HM _ _ _ _ Hx Hx) Hx) as Hl.
  refine (f_eqm _ _ _ _ (stands_add f HM _ _ _ _ (stands_sub f HM _ _ _ _ H3 Hl) b_stands)). apply eqm_eq. ring.
Qed.

Lemma u256_eqb_spec x y v w : stands f v x -> stands f w y -> u256_eqb x y = true <-> eqm P v w.
Proof.
  intros Hx Hy. unfold u256_eqb. rewrite bool_decide_eq_true. rewrite (stands_eq f f_ok v w x y Hx Hy). by rewrite f_val.
Qed.

Lemma is_on_curve_spec x y ax ay : stands f ax x -> stands f ay y -> is_on_curve curve x y = true <-> on_curve (Affine ax ay).
Proof.
  intros Hx Hy. unfold is_on_curve. apply u256_eqb_spec; [by apply (stands_sqr f f_ok)|by apply curve_rhs_stands].
Qed.

(** Square roots modulo a prime that is 3 modulo 4. *)
Lemma sqrt_exponent_val : u256 (sqrt_exponent curve) /\ 4 * val (sqrt_exponent curve) = P + 1.
Proof. split; [by_limbs|vm_compute; reflexivity]. Qed.
Lemma half_p_val : u256 (half_p curve) /\ 2 * val (half_p curve) = P - 1.
Proof. split; [by_limbs|vm_compute; reflexivity]. Qed.

Lemma sqrt_of_square v y : eqm P v (y * y) -> eqm P (v ^ val (sqrt_exponent curve) * v ^ val (sqrt_exponent curve)) v.
Proof.
  intros Hv. destruct sqrt_exponent_val as [Hs Es]. pose proof (u256_bound _ Hs) as Bs. set (e := val (sqrt_exponent curve)) in *. pose proof P_ge.
  assert (eqm P (v ^ e) ((y * y) ^ e)) as Ee by (apply pow_eqm; [lia|done]).
  destruct (decide (y mod P = 0)) as [E0|Ny].
  - assert (eqm P v 0) as Hv0 by (rewrite Hv; assert (eqm P y 0) as -> by done; done).
    assert (eqm P (v ^ e) 0) as ->; [|by rewrite Hv0].
    etransitivity; [apply pow_eqm; [lia|exact Hv0]|]. by rewrite Z.pow_0_l by lia.
  - rewrite Ee, Hv. rewrite <- Z.pow_add_r by lia. replace (y * y) with (y ^ 2) at 1 by (rewrite Z.pow_2_r; done). rewrite <- Z.pow_mul_r by lia.
    replace (2 * (e + e)) with ((P - 1) + 2) by lia. rewrite Z.pow_add_r, Z.pow_2_r by lia.
    assert (eqm P (y ^ (P - 1)) 1) as -> by (apply fermat_little; [apply prime_field|by apply prime_rel_prime_mod; [apply prime_field|]]).
    apply eqm_eq. ring.
Qed.

Lemma ge_half x v : stands f v x ->
  u256_ge (from_mont f x) (half_p curve) && negb (u256_eqb (from_mont f x) (half_p curve)) = (P - 1 <? 2 * (v mod P)).
Proof.
  intros Hx. destruct (from_mont_val f f_ok v x Hx) as [Hu Hv]. rewrite f_val in Hv. destruct half_p_val as [Hh Eh].
  rewrite ge_spec, Hv by done. unfold u256_eqb.
  assert (bool_decide (from_mont f x = half_p curve) = (val (half_p curve) =? v mod P)) as ->.
  { apply Bool.eq_iff_eq_true. rewrite bool_decide_eq_true, Z.eqb_eq, <- Hv. split; [by intros ->|]. intros E. by apply u256_inj. }
  destruct (Z.eqb_spec (val (half_p curve)) (v mod P)), (Z.leb_spec (val (half_p curve)) (v mod P)); cbn [negb andb]; symmetry;
    first [apply Z.ltb_lt; lia|apply Z.ltb_ge; lia].
Qed.

Lemma import_uncompressed_spec l :
  is_bytes l -> zlen l = 65 ->
  let x := be_val (ztake 32 (zdrop 1 l)) in
  let y := be_val (zdrop 33 l) in
  let valid := l !!! 0%nat = SEC1_UNCOMPRESSED_TAG /\ x < P /\ y < P /\ on_curve (Affine x y) in
  match import_uncompressed l with
  | Some p => valid /\ coordinates p x y 1
  | None => ~ valid
  end.
Proof.
  intros Hb Hl x y valid. unfold import_uncompressed. destruct (Z.eqb_spec (l !!! 0%nat) SEC1_UNCOMPRESSED_TAG) as [Et|Nt]; cbn [negb];
    [|by intros []]. change P256_ELEMENT_BYTES with 32. change (1 + 32) with 33. cbv zeta.
  destruct (from_be_bytes_spec (ztake 32 (zdrop 1 l))) as [X1 X2]; [by apply is_bytes_ztake, is_bytes_zdrop|rewrite zlen_ztake, zlen_zdrop; lia|].
  destruct (from_be_bytes_spec (zdrop 33 l)) as [Y1 Y2]; [by apply is_bytes_zdrop|rewrite zlen_zdrop; lia|].
  fold x in X2. fold y in Y2. rewrite !ge_spec, f_val, X2, Y2 by (done || apply f_ok).
  destruct (Z.leb_spec P x); cbn [orb]; [intros (_ & ? & _); lia|]. destruct (Z.leb_spec P y); [intros (_ & _ & ? & _); lia|].
  pose proof (f_to_mont _ X1) as SX. pose proof (f_to_mont _ Y1) as SY. rewrite X2 in SX. rewrite Y2 in SY.
  pose proof (is_on_curve_spec _ _ _ _ SX SY) as Hoc. destruct (is_on_curve curve _ _); cbn [negb].
  - split; [split_and!; [done|done|done|by apply Hoc]|]. constructor; [done|done|apply f_one].
  - intros (_ & _ & _ & Hc). by apply Hoc in Hc.
Qed.

Lemma import_compact_spec l :
  is_bytes l -> zlen l = 32 ->
  let x := be_val l in
  match import_compact l with
  | Some p => x < P /\ exists y, on_curve (Affine x y) /\ 0 <= y /\ 2 * y <= P - 1 /\ coordinates p x y 1
  | None => ~ (x < P /\ exists y, on_curve (Affine x y))
  end.
Proof.
  intros Hb Hl x. unfold import_compact. cbv zeta. destruct (from_be_bytes_spec l Hb Hl) as [X1 X2]. fold x in X2.
  rewrite ge_spec, f_val, X2 by (done || apply f_ok). destruct (Z.leb_spec P x); [intros [? _]; lia|].
  pose proof (f_to_mont _ X1) as SX. rewrite X2 in SX. pose proof (curve_rhs_stands _ _ SX) as SR.
  set (rhs := x * x * x - 3 * x + B_coeff) in *. set (root := rhs ^ val (sqrt_exponent curve)).
  pose proof (stands_pow f f_ok _ _ _ f_one SR (proj1 sqrt_exponent_val)) as Sroot. fold root in Sroot.
  set (rx := curve_rhs curve (to_mont f (from_be_bytes l))) in *. set (rt := mont_pow f rx (sqrt_exponent curve)) in *. clearbody rt rx.
  pose proof (u256_eqb_spec _ _ _ _ (stands_sqr f f_ok _ _ Sroot) SR) as Heq. destruct (u256_eqb (sqr f rt) rx); cbn [negb].
  - assert (eqm P (root * root) rhs) as Hroot by (by apply Heq). split; [done|]. rewrite (ge_half _ _ Sroot).
    pose proof (Z.mod_pos_bound root P ltac:(pose proof P_ge; lia)) as Bm. destruct (Z.ltb_spec (P - 1) (2 * (root mod P))).
    + pose proof (proj2 half_p_val). exists (P - root mod P). assert (eqm P (P - root mod P) (- root)) as En.
      { rewrite Zmod_eqm. apply eqm_P_sub. }
      split_and!; [cbn [on_curve]; fold rhs; rewrite En, <- Hroot; apply eqm_eq; ring|lia|lia|].
      constructor; [done| |apply f_one]. refine (f_eqm _ _ _ _ (stands_neg f f_ok _ _ Sroot)). by rewrite En.
    + exists (root mod P). split_and!; [cbn [on_curve]; fold rhs; by rewrite !Zmod_eqm, Hroot|lia|lia|].
      constructor; [done| |apply f_one]. refine (f_eqm _ _ _ _ Sroot). by rewrite Zmod_eqm.
  - intros [_ [y Hy]]. cbn [on_curve] in Hy. fold rhs in Hy. assert (false = true); [|done]. apply Heq.
    apply (sqrt_of_square rhs y). by symmetry.
Qed.

Lemma to_be_bytes_from_mont x v : stands f v x -> to_be_bytes (from_mont f x) = be_bytes 32 (v mod P).
Proof.
  intros Hx. destruct (from_mont_val f f_ok v x Hx) as [Hu Hv]. rewrite to_be_bytes_spec by done. by rewrite Hv, f_val.
Qed.

Lemma coordinates_affine p x y : coordinates p x y 1 ->
  exists x' y', to_affine f p = Some (x', y') /\ stands f x x' /\ stands f y y'.
Proof. intros Hc. exact (to_affine_refines p (Affine x y) (affine_denotes p x y Hc)). Qed.

(** ** The theorems *)

(** [Modulus::new] ends for every odd modulus above two and sets up Montgomery
    arithmetic: [n0 m = -1] modulo a limb, [one] stands for 1 and [r2] for R;
    its reduction loop needs at most [R / m + 1] turns. *)
Theorem modulus_new_total (fuel : nat) (modulus : U256) :
  u256 modulus -> Z.odd (val modulus) = true -> 2 < val modulus -> R / val modulus < Z.of_nat fuel ->
  exists M, modulus_new fuel modulus = Some M /\ m M = modulus /\ (n0 M * val modulus + 1) mod 2 ^ 64 = 0 /\
    stands M 1 (one M) /\ stands M R (r2 M).
Proof.
  intros H1 H2 H3 H4. destruct (modulus_new_spec fuel modulus H1 H2 H3 H4) as (M & E & Em & [HM Ho Hr]). exists M.
  split_and!; [done|done| |done|done]. rewrite <- Em. apply HM.
Qed.

Lemma modulus_new_total_witness : exists M, modulus_new 2 p256_n = Some M /\ (n0 M * val p256_n + 1) mod 2 ^ 64 = 0.
Proof.
  destruct (modulus_new_total 2 p256_n) as (M & E & _ & H & _);
    [by_limbs|vm_compute; reflexivity|vm_compute; reflexivity|vm_compute; reflexivity|].
  exists M. split; [exact E|exact H].
Defined.

(** The arithmetic of the two moduli of the curve is that of the integers
    modulo a prime: sums, differences, negation, products and powers of what
    the limbs stand for, inversion of everything but zero, conversion in and
    out of Montgomery form, and equality. *)
Theorem field_arithmetic (M : Modulus) (p v w : Z) (x y e : U256) :
  (M, p) = (field curve, P256_P) \/ (M, p) = (scalar curve, P256_N) ->
  stands M v x -> stands M w y -> u256 e ->
  stands M (v + w) (mod_add M x y) /\ stands M (v - w) (mod_sub M x y) /\ stands M (- v) (mod_neg M x) /\
  stands M (v * w) (mont_mul M x y) /\ stands M (v ^ val e) (mont_pow M x e) /\
  (v mod p <> 0 -> exists i, stands M i (mont_inv M x) /\ (v * i) mod p = 1) /\
  val (from_mont M x) = v mod p /\ stands M (val e) (to_mont M e) /\
  (x = y <-> v mod p = w mod p) /\ is_zero x = (v mod p =? 0).
Proof.
  intros HMp Hx Hy He. assert (prime_modulus M p) as Hp.
  { destruct HMp as [E|E]; injection E as -> ->; [apply field_prime|apply scalar_prime]. }
  clear HMp. pose proof Hp as [Hf Hv Hprime]. pose proof (mf_ok _ Hf) as HM. pose proof (prime_ge_2 _ Hprime). split_and!.
  - by apply stands_add.
  - by apply stands_sub.
  - by apply stands_neg.
  - by apply stands_mul.
  - by apply stands_pow; [|apply Hf|..].
  - intros Hnz. exists (inverse p v). split; [by apply stands_inverse|]. rewrite <- (Z.mod_small 1 p) by lia. by apply inverse_spec.
  - rewrite <- Hv. by apply from_mont_val.
  - by apply to_mont_stands; [|apply Hf|].
  - rewrite <- Hv. by apply stands_eq.
  - rewrite <- Hv. by apply stands_zero.
Qed.

Lemma field_arithmetic_witness :
  stands f (val p256_gx * val p256_gy) (mont_mul f (to_mont f p256_gx) (to_mont f p256_gy)).
Proof.
  destruct (field_arithmetic f P (val p256_gx) (val p256_gy) (to_mont f p256_gx) (to_mont f p256_gy) u256_one) as (_ & _ & _ & H & _);
    [left; reflexivity|apply f_to_mont; by_limbs|apply f_to_mont; by_limbs|by_limbs|exact H].
Defined.

(** C26. The Jacobian code refines the curve: on points that stand for [a] and [c]
    it doubles, adds, multiplies by a 256-bit number (choosing with masks) and
    by two numbers at once as chord and tangent addition do, and [to_affine]
    gives the coordinates, or nothing at infinity. *)
Theorem points_refine (p q : JacobianPoint) (a c : ecpoint) (k l : U256) :
  denotes p a -> denotes q c -> u256 k -> u256 l ->
  denotes (double f p) (ec_double a) /\ denotes (point_add f p q) (ec_add a c) /\
  denotes (scalar_mul_point f p k) (ec_mul (val k) a) /\
  denotes (scalar_mul_sum curve k p l) (ec_mul_both 256 (val k) (val l) G a) /\
  match a with
  | Infinity => to_affine f p = None
  | Affine ax ay => exists x y, to_affine f p = Some (x, y) /\ stands f ax x /\ stands f ay y
  end.
Proof.
  intros Hp Hq Hk Hl. split_and!; [by apply double_refines|by apply add_refines|by apply mul_refines|
    apply mul_sum_refines; [apply generator_denotes|done..]|by apply to_affine_refines].
Qed.

Lemma points_refine_witness : denotes (point_add f (generator curve) infinity) G.
Proof.
  destruct (points_refine (generator curve) infinity G Infinity u256_one u256_one) as (_ & H & _);
    [apply generator_denotes|apply infinity_denotes|by_limbs|by_limbs|exact H].
Defined.

(** A point of the curve, or infinity. *)
Definition curve_point (p : JacobianPoint) : Prop := exists a, denotes p a /\ on_curve a.

(** Every point the code computes from points of the curve is one: the
    generator and infinity are, doubling, addition and both multiplications
    keep to the curve, and the affine coordinates pass [is_on_curve]. *)
Theorem points_on_curve (p q : JacobianPoint) (k l : U256) :
  curve_point p -> curve_point q -> u256 k -> u256 l ->
  curve_point (generator curve) /\ curve_point infinity /\
  curve_point (double f p) /\ curve_point (point_add f p q) /\ curve_point (scalar_mul_point f p k) /\
  curve_point (scalar_mul_sum curve k p l) /\
  forall x y, to_affine f p = Some (x, y) -> is_on_curve curve x y = true.
Proof.
  intros (a & Da & Ca) (c & Dc & Cc) Hk Hl. split_and!.
  - exists G. split; [apply generator_denotes|apply generator_on_curve].
  - exists Infinity. split; [apply infinity_denotes|done].
  - eexists. split; [by apply double_refines|by apply ec_double_on_curve].
  - eexists. split; [by apply add_refines|by apply ec_add_on_curve].
  - eexists. split; [by apply mul_refines|by apply ec_mul_on_curve].
  - eexists. split; [apply mul_sum_refines; [apply generator_denotes|done..]|apply ec_mul_both_on_curve; [apply generator_on_curve|done]].
  - intros x y E. pose proof (to_affine_refines _ _ Da) as Ha. destruct a as [|ax ay]; [congruence|].
    destruct Ha as (x' & y' & E' & Hx & Hy). assert (x = x' /\ y = y') as [-> ->] by (split; congruence).
    by apply (is_on_curve_spec _ _ ax ay).
Qed.

Lemma points_on_curve_witness : curve_point (double f (generator curve)).
Proof.
  assert (curve_point (generator curve)) as Hg by (exists G; split; [apply generator_denotes|apply generator_on_curve]).
  destruct (points_on_curve (generator curve) (generator curve) u256_one u256_one) as (_ & _ & H & _); [exact Hg|exact Hg|by_limbs|by_limbs|exact H].
Defined.

(** Importing a public key accepts exactly the valid encodings: 65 bytes with
    the SEC1 tag and reduced coordinates of a point of the curve, which
    [uncompressed] writes back; or 32 bytes, a reduced [x] for which there is
    a point of the curve, of which it takes the one in the lower half and
    whose [x] is written back; nothing of any other length. *)
Theorem import_exact {E} (l : bytes) :
  is_bytes l ->
  match import_public l with
  | Some k =>
      (zlen l = 65 /\ l !!! 0%nat = SEC1_UNCOMPRESSED_TAG /\
       denotes (point k) (Affine (be_val (ztake 32 (zdrop 1 l))) (be_val (zdrop 33 l))) /\
       on_curve (Affine (be_val (ztake 32 (zdrop 1 l))) (be_val (zdrop 33 l))) /\ uncompressed (E := E) k = Ok l) \/
      (zlen l = 32 /\ exists y, denotes (point k) (Affine (be_val l) y) /\ on_curve (Affine (be_val l) y) /\
       0 <= y /\ 2 * y <= P - 1 /\ key_x_bytes (E := E) k = Ok l)
  | None =>
      (zlen l = 65 -> ~ (l !!! 0%nat = SEC1_UNCOMPRESSED_TAG /\ be_val (ztake 32 (zdrop 1 l)) < P /\ be_val (zdrop 33 l) < P /\
                         on_curve (Affine (be_val (ztake 32 (zdrop 1 l))) (be_val (zdrop 33 l))))) /\
      (zlen l = 32 -> ~ (be_val l < P /\ exists y, on_curve (Affine (be_val l) y)))
  end.
Proof.
  intros Hb. unfold import_public. change P256_ELEMENT_BYTES with 32. change P256_UNCOMPRESSED_BYTES with 65.
  destruct (Z.eqb_spec (zlen l) 32) as [E32|N32].
  - pose proof (import_compact_spec l Hb E32) as Hs. cbv zeta in Hs. destruct (import_compact l) as [p|].
    + right. split; [done|]. destruct Hs as (Hx & y & Hc & H1 & H2 & Hp). exists y. split_and!; [by apply affine_denotes|done..|].
      unfold key_x_bytes. cbn [point]. destruct (coordinates_affine _ _ _ Hp) as (x' & y' & -> & Sx & _). cbn [or_panic res_bind].
      rewrite (to_be_bytes_from_mont _ _ Sx), Z.mod_small by (pose proof (be_val_bound l Hb); lia). f_equal.
      apply be_bytes_be_val; [done|unfold zlen in E32; lia].
    + split; [lia|done].
  - destruct (Z.eqb_spec (zlen l) 65) as [E65|N65]; [|by split].
    pose proof (import_uncompressed_spec l Hb E65) as Hs. cbv zeta in Hs. destruct (import_uncompressed l) as [p|]; [|by split].
    left. destruct Hs as ((Ht & Hx & Hy & Hc) & Hp). split_and!; [done|done|by apply affine_denotes|done|].
    unfold uncompressed. cbn [point]. destruct (coordinates_affine _ _ _ Hp) as (x' & y' & -> & Sx & Sy). cbn [or_panic res_bind].
    assert (is_bytes (ztake 32 (zdrop 1 l))) as Bx by (by apply is_bytes_ztake, is_bytes_zdrop).
    assert (is_bytes (zdrop 33 l)) as By by (by apply is_bytes_zdrop).
    rewrite (to_be_bytes_from_mont _ _ Sx), (to_be_bytes_from_mont _ _ Sy).
    rewrite !Z.mod_small by (pose proof (be_val_bound _ Bx); pose proof (be_val_bound _ By); lia).
    rewrite !be_bytes_be_val by (done || apply Nat2Z.inj; fold (zlen (ztake 32 (zdrop 1 l))) (zlen (zdrop 33 l)); rewrite ?zlen_ztake, ?zlen_zdrop; lia).
    f_equal. destruct l as [|t l]; [done|]. change ((t :: l) !!! 0%nat) with t in Ht. rewrite <- Ht. cbn [app]. f_equal.
    change (zdrop 1 (t :: l)) with l. change (zdrop 33 (t :: l)) with (zdrop 32 l). apply ztake_zdrop.
Qed.

Definition generator_bytes : bytes := [0x04] ++ to_be_bytes p256_gx ++ to_be_bytes p256_gy.

Lemma import_exact_witness : exists k, import_public generator_bytes = Some k /\ uncompressed (E := unit) k = Ok generator_bytes.
Proof.
  assert (is_bytes generator_bytes) as Hb by (apply is_bytes_forallb; vm_compute; reflexivity).
  pose proof (import_exact (E := unit) generator_bytes Hb) as H.
  destruct (import_public generator_bytes) as [k|] eqn:E; [|vm_compute in E; discriminate E].
  exists k. split; [reflexivity|]. destruct H as [(_ & _ & _ & _ & H)|(H & _)]; [exact H|vm_compute in H; discriminate H].
Defined.
