(* ===== verification/P256Group.v ===== *)
(** * The group of the curve

    Chord-and-tangent addition of [P256Props] is a commutative group on the
    points of P-256, up to the choice of representatives modulo the field's
    prime.  A chord and a tangent are treated alike, as a line of slope [l]
    that meets the curve in both points; associativity then needs no case
    distinction between them.  The order of the generator is the constant the
    code calls [P256_N].  What the signature scheme needs follows:
    multiplication distributes over addition of scalars, and the interleaved
    multiplication of the code is the sum of two multiples. *)

From S2P Require Import Prelude Primality Sha ShaProps P256Field P256 P256Props.
From stdpp Require Import base tactics numbers list.
From Stdlib Require Import ZArith Znumtheory Zdiv Lia NsatzTactic.

Open Scope Z_scope.

#[local] Notation P := P256_P.

(** ** The prime field as an integral domain *)

#[export] Instance field_ops : @Ring_ops Z 0 1 Z.add Z.mul Z.sub Z.opp (eqm P) := {}.

#[export] Instance field_ring : Ring (Ro := field_ops).
Proof.
  constructor; try exact _; intros; apply eqm_eq;
    cbv [addition add_notation multiplication mul_notation subtraction sub_notation opposite
         opp_notation zero zero_notation one one_notation equality eq_notation]; ring.
Qed.

#[export] Instance field_cring : Cring (Rr := field_ring).
Proof. intros x y. apply eqm_eq, Z.mul_comm. Qed.

#[export] Instance field_domain : Integral_domain (Rcr := field_cring).
Proof.
  constructor.
  - intros x y E. destruct (decide (x mod P = 0)) as [|Nx]; [by left|right].
    destruct (decide (y mod P = 0)) as [|Ny]; [done|]. by destruct (mod_mul_nonzero x y Nx Ny).
  - intros E. by vm_compute in E.
Qed.

#[export] Instance eqm_decision v w : Decision (eqm P v w).
Proof. unfold eqm. apply _. Defined.

(** A nonzero factor cancels. *)
Lemma field_cancel k v w : ~ eqm P k 0 -> eqm P (k * v) (k * w) -> eqm P v w.
Proof.
  intros Hk E. assert (eqm P (k * (v - w)) 0) as E' by nsatz.
  destruct (decide (eqm P (v - w) 0)) as [E0|N0]; [nsatz|].
  by destruct (mod_mul_nonzero k (v - w) Hk N0).
Qed.

Lemma two_neq : ~ eqm P 2 0.
Proof. by intros E. Qed.

(** ** Points up to representatives *)

Definition ec_eq (a c : ecpoint) : Prop :=
  match a, c with
  | Infinity, Infinity => True
  | Affine x1 y1, Affine x2 y2 => eqm P x1 x2 /\ eqm P y1 y2
  | _, _ => False
  end.

#[export] Instance ec_eq_equivalence : Equivalence ec_eq.
Proof.
  split.
  - by intros [].
  - intros [] []; simpl; try done. intros [-> ->]. done.
  - intros [] [] []; simpl; try done. intros [-> ->] [-> ->]. done.
Qed.

#[export] Instance on_curve_proper : Proper (ec_eq ==> iff) on_curve.
Proof. intros [] []; simpl; try done. intros [-> ->]. done. Qed.

Definition ec_opp (a : ecpoint) : ecpoint :=
  match a with Infinity => Infinity | Affine x y => Affine x (- y) end.

#[export] Instance ec_opp_proper : Proper (ec_eq ==> ec_eq) ec_opp.
Proof. intros [] []; simpl; try done. intros [-> ->]. done. Qed.

Lemma ec_opp_on_curve a : on_curve a -> on_curve (ec_opp a).
Proof. destruct a as [|x y]; [done|]. cbn [ec_opp on_curve]. intros H. nsatz. Qed.

(** ** Lines *)

(** The line of slope [l] meets the curve in both points: the chord through
    two, the tangent where they are one. *)
Record slope (l x1 y1 x2 y2 : Z) : Prop := {
  sl_line : eqm P (y1 - y2) (l * (x1 - x2));
  sl_curve : eqm P (l * (y1 + y2)) (x1 * x1 + x1 * x2 + x2 * x2 - 3);
}.

(** The reflection of the third point on the line. *)
Definition third (l x1 y1 x2 : Z) : ecpoint :=
  Affine (l * l - x1 - x2) (l * (x1 - (l * l - x1 - x2)) - y1).

Definition opposite_points (x1 y1 x2 y2 : Z) : Prop := eqm P x1 x2 /\ eqm P y1 (- y2).

Lemma ec_line_third l x1 y1 x2 : ec_eq (ec_line l x1 y1 x2) (third l x1 y1 x2).
Proof. split; cbv zeta; rewrite !Zmod_eqm; done. Qed.

Lemma slope_unique l m x1 y1 x2 y2 :
  ~ opposite_points x1 y1 x2 y2 -> slope l x1 y1 x2 y2 -> slope m x1 y1 x2 y2 -> eqm P l m.
Proof.
  intros Hn [L1 L2] [M1 M2]. destruct (decide (eqm P x1 x2)) as [Ex|Nx].
  - assert (~ eqm P (y1 + y2) 0) as Ny by (intros E; apply Hn; split; [done|nsatz]).
    apply (field_cancel (y1 + y2)); [done|]. nsatz.
  - apply (field_cancel (x1 - x2)); [|nsatz]. intros E. apply Nx. nsatz.
Qed.

(** A quotient of the field. *)
Lemma quotient_spec n d : ~ eqm P d 0 -> eqm P (n * inverse P d * d) n.
Proof.
  intros Hd. pose proof (inverse_spec P d prime_field Hd) as E.
  transitivity (n * (d * inverse P d)); [apply eqm_eq; ring|]. rewrite E. apply eqm_eq. ring.
Qed.

Lemma quotient_unique l n d : ~ eqm P d 0 -> eqm P (l * d - n) 0 -> eqm P (n * inverse P d) l.
Proof.
  intros Hd E. pose proof (quotient_spec n d Hd) as Q. set (m := n * inverse P d) in *. clearbody m.
  apply (field_cancel d); [done|]. nsatz.
Qed.

Lemma double_nonzero y : ~ eqm P y 0 -> ~ eqm P (2 * y) 0.
Proof. intros Hy E. apply Hy, (field_cancel 2); [apply two_neq|]. nsatz. Qed.

Lemma third_proper l m x1 y1 x2 : eqm P l m -> ec_eq (third l x1 y1 x2) (third m x1 y1 x2).
Proof. intros E. split; nsatz. Qed.

Lemma opposite_sum x1 y1 x2 y2 :
  opposite_points x1 y1 x2 y2 -> ec_add (Affine x1 y1) (Affine x2 y2) = Infinity.
Proof.
  intros [Ex Ey]. cbn [ec_add]. destruct (Z.eqb_spec ((x2 - x1) mod P) 0) as [_|N].
  2:{ destruct N. change (eqm P (x2 - x1) 0). nsatz. }
  destruct (Z.eqb_spec ((y2 - y1) mod P) 0) as [E|]; [|done]. change (eqm P (y2 - y1) 0) in E.
  cbn [ec_double]. destruct (Z.eqb_spec (y1 mod P) 0) as [_|N]; [done|]. destruct N.
  change (eqm P y1 0). apply (field_cancel 2); [apply two_neq|]. nsatz.
Qed.

(** Addition finds the slope. *)
Lemma sum_slope x1 y1 x2 y2 :
  on_curve (Affine x1 y1) -> on_curve (Affine x2 y2) -> ~ opposite_points x1 y1 x2 y2 ->
  exists l, slope l x1 y1 x2 y2 /\ ec_add (Affine x1 y1) (Affine x2 y2) = ec_line l x1 y1 x2.
Proof.
  cbn [on_curve]. intros H1 H2 Hn. cbn [ec_add].
  destruct (Z.eqb_spec ((x2 - x1) mod P) 0) as [Ex|Nx].
  - change (eqm P (x2 - x1) 0) in Ex. assert (eqm P x1 x2) as Ex' by nsatz.
    assert (~ eqm P (y1 + y2) 0) as Ns by (intros E; apply Hn; split; [done|nsatz]).
    assert (eqm P (y2 - y1) 0) as Ey.
    { apply (field_cancel (y1 + y2)); [done|]. nsatz. }
    rewrite (proj2 (Z.eqb_eq _ 0) Ey). cbn [ec_double].
    assert (~ eqm P y1 0) as Ny by (intros E; apply Ns; nsatz).
    rewrite (proj2 (Z.eqb_neq (y1 mod P) 0) Ny).
    pose proof (double_nonzero y1 Ny) as N2.
    pose proof (quotient_spec (3 * x1 * x1 - 3) (2 * y1) N2) as Q.
    set (l := (3 * x1 * x1 - 3) * inverse P (2 * y1)) in *. clearbody l.
    exists l. split; [split; nsatz|].
    unfold ec_line. assert ((l * l - x1 - x1) mod P = (l * l - x1 - x2) mod P) as ->; [|done].
    change (eqm P (l * l - x1 - x1) (l * l - x1 - x2)). nsatz.
  - change (~ eqm P (x2 - x1) 0) in Nx. pose proof (quotient_spec (y2 - y1) (x2 - x1) Nx) as Q.
    set (l := (y2 - y1) * inverse P (x2 - x1)) in *. clearbody l. exists l. split; [|done].
    split; [nsatz|]. apply (field_cancel (x2 - x1)); [done|]. nsatz.
Qed.

(** A sum is the third point of any line through both points. *)
Lemma sum_third l x1 y1 x2 y2 :
  on_curve (Affine x1 y1) -> on_curve (Affine x2 y2) -> ~ opposite_points x1 y1 x2 y2 ->
  slope l x1 y1 x2 y2 -> ec_eq (ec_add (Affine x1 y1) (Affine x2 y2)) (third l x1 y1 x2).
Proof.
  intros H1 H2 Hn Hl. destruct (sum_slope _ _ _ _ H1 H2 Hn) as (m & Hm & ->).
  pose proof (slope_unique _ _ _ _ _ _ Hn Hl Hm) as E. rewrite ec_line_third.
  split; cbn; nsatz.
Qed.

Lemma opposite_decision x1 y1 x2 y2 : opposite_points x1 y1 x2 y2 \/ ~ opposite_points x1 y1 x2 y2.
Proof.
  unfold opposite_points. destruct (decide (eqm P x1 x2)), (decide (eqm P y1 (- y2))); tauto.
Qed.

(** ** Commutativity, inverses, representatives *)

Lemma ec_add_0_r a : ec_add a Infinity = a.
Proof. by destruct a. Qed.

Lemma ec_add_proper a a' c c' :
  on_curve a -> on_curve c -> ec_eq a a' -> ec_eq c c' -> ec_eq (ec_add a c) (ec_add a' c').
Proof.
  intros Ha Hc Ea Ec. pose proof Ha as Ha'. rewrite Ea in Ha'. pose proof Hc as Hc'. rewrite Ec in Hc'.
  destruct a as [|x1 y1], a' as [|x1' y1']; try done. destruct c as [|x2 y2], c' as [|x2' y2']; try done.
  destruct Ea as [E1 E2], Ec as [E3 E4]. destruct (opposite_decision x1 y1 x2 y2) as [Ho|Hn].
  - rewrite (opposite_sum _ _ _ _ Ho), opposite_sum; [done|]. destruct Ho. split; nsatz.
  - destruct (sum_slope _ _ _ _ Ha Hc Hn) as (l & [S1 S2] & ->). rewrite ec_line_third.
    rewrite (sum_third l x1' y1' x2' y2'); [split; cbn; nsatz|done|done| |split; nsatz].
    intros [O1 O2]. apply Hn. split; nsatz.
Qed.

Lemma ec_add_comm a c : on_curve a -> on_curve c -> ec_eq (ec_add a c) (ec_add c a).
Proof.
  destruct a as [|x1 y1], c as [|x2 y2]; try done. intros Ha Hc.
  destruct (opposite_decision x1 y1 x2 y2) as [Ho|Hn].
  - rewrite !opposite_sum; [done| |done]. destruct Ho. split; nsatz.
  - destruct (sum_slope _ _ _ _ Ha Hc Hn) as (l & [S1 S2] & ->). rewrite ec_line_third.
    rewrite (sum_third l x2 y2 x1 y1); [split; cbn; nsatz|done|done| |split; nsatz].
    intros [O1 O2]. apply Hn. split; nsatz.
Qed.

Lemma ec_add_opp a : on_curve a -> ec_add a (ec_opp a) = Infinity.
Proof.
  destruct a as [|x y]; [done|]. intros _. apply opposite_sum. split; [done|]. nsatz.
Qed.

(** ** Associativity *)

(** No point of the curve is singular. *)
Lemma not_singular x y : on_curve (Affine x y) -> eqm P y 0 -> ~ eqm P (3 * x * x) 3.
Proof.
  cbn [on_curve]. intros Hc Hy Hx.
  assert (eqm P (x * x) 1) as Hx'.
  { apply (field_cancel 3); [by intros E|]. nsatz. }
  clear Hx. assert (eqm P B_coeff (2 * x)) as Hb by (generalize dependent B_coeff; intros; nsatz).
  assert (eqm P (B_coeff * B_coeff) 4) as E by (rewrite Hb; nsatz).
  by vm_compute in E.
Qed.

(** The line through a point and a sum with it passes through the other. *)
Lemma third_slope l x1 y1 x2 y2 :
  slope l x1 y1 x2 y2 ->
  slope (- l) x1 (- y1) (l * l - x1 - x2) (l * (x1 - (l * l - x1 - x2)) - y1).
Proof. intros [S1 S2]. split; nsatz. Qed.

Lemma cancel_left x1 y1 c :
  on_curve (Affine x1 y1) -> on_curve c ->
  ec_eq (ec_add (Affine x1 (- y1)) (ec_add (Affine x1 y1) c)) c.
Proof.
  intros Ha Hc. destruct c as [|x2 y2].
  { rewrite ec_add_0_r, opposite_sum; [done|]. split; [done|]. nsatz. }
  destruct (opposite_decision x1 y1 x2 y2) as [Ho|Hn].
  { rewrite (opposite_sum _ _ _ _ Ho), ec_add_0_r. destruct Ho as [O1 O2]. split; nsatz. }
  pose proof (ec_opp_on_curve _ Ha) as Ha'. cbn [ec_opp] in Ha'.
  pose proof (ec_add_on_curve _ _ Ha Hc) as Hs.
  destruct (sum_slope _ _ _ _ Ha Hc Hn) as (l & Hl & Es). rewrite Es in Hs |- *. clear Es.
  rewrite (ec_add_proper _ (Affine x1 (- y1)) _ (third l x1 y1 x2) Ha' Hs); [|done|apply ec_line_third].
  rewrite ec_line_third in Hs. unfold third in *.
  rewrite (sum_third (- l) _ _ _ _ Ha' Hs); [| |exact (third_slope _ _ _ _ _ Hl)].
  - destruct Hl as [S1 S2]. split; nsatz.
  - intros [O1 O2]. destruct Hl as [S1 S2].
    assert (eqm P y1 0) as Y0 by (apply (field_cancel 2); [apply two_neq|]; nsatz).
    apply (not_singular x1 y1 Ha Y0). cbn [on_curve] in Ha, Hc. nsatz.
Qed.

(** The slopes of the two outer sums, from the quotient [m] of the inner ones. *)
Lemma outer_slope a b m x1 y1 x2 y2 x3 y3 :
  slope a x1 y1 x2 y2 -> slope b x2 y2 x3 y3 -> ~ eqm P a b -> eqm P (m * (a - b)) (x1 - x3) ->
  slope (m - a) (a * a - x1 - x2) (a * (x1 - (a * a - x1 - x2)) - y1) x3 y3.
Proof.
  intros [A1 A2] [B1 B2] Hn Hm.
  assert (~ eqm P (a - b) 0) as Nz by (intros E; apply Hn; nsatz).
  split; apply (field_cancel (a - b)); [done| |done|].
  - nsatz.
  - nsatz.
Qed.

(** Lines of different slopes through the middle point: the sum of the first two
    is not the opposite of the third. *)
Lemma outer_not_opposite a b x1 y1 x2 y2 x3 y3 :
  slope a x1 y1 x2 y2 -> slope b x2 y2 x3 y3 -> ~ eqm P a b -> ~ opposite_points x2 y2 x3 y3 ->
  ~ opposite_points (a * a - x1 - x2) (a * (x1 - (a * a - x1 - x2)) - y1) x3 y3.
Proof.
  intros [A1 A2] [B1 B2] Hn Ho [O1 O2].
  assert (~ eqm P (a - b) 0) as Nz by (intros E; apply Hn; nsatz).
  assert (eqm P x3 x2) as Ex by (apply (field_cancel (a - b)); [done|]; nsatz).
  assert (eqm P y3 y2) as Ey by nsatz.
  assert (~ eqm P y2 0) as Ny by (intros E; apply Ho; split; nsatz).
  apply Hn. apply (field_cancel 2); [apply two_neq|]. apply (field_cancel y2); [done|]. nsatz.
Qed.

Lemma outer_sum a b m x1 y1 x2 y2 x3 y3 :
  on_curve (Affine x1 y1) -> on_curve (Affine x2 y2) -> on_curve (Affine x3 y3) ->
  ~ opposite_points x1 y1 x2 y2 -> ~ opposite_points x2 y2 x3 y3 ->
  slope a x1 y1 x2 y2 -> slope b x2 y2 x3 y3 -> ~ eqm P a b -> eqm P (m * (a - b)) (x1 - x3) ->
  ec_eq (ec_add (ec_add (Affine x1 y1) (Affine x2 y2)) (Affine x3 y3))
    (third (m - a) (a * a - x1 - x2) (a * (x1 - (a * a - x1 - x2)) - y1) x3).
Proof.
  intros H1 H2 H3 N12 N23 Sa Sb Nab Hm. pose proof (ec_add_on_curve _ _ H1 H2) as Hs.
  pose proof (sum_third _ _ _ _ _ H1 H2 N12 Sa) as Es.
  rewrite (ec_add_proper _ _ _ (Affine x3 y3) Hs H3 Es) by done. rewrite Es in Hs.
  apply sum_third; [done|done|by eapply outer_not_opposite|by eapply outer_slope].
Qed.

Lemma slope_sym l x1 y1 x2 y2 : slope l x1 y1 x2 y2 -> slope l x2 y2 x1 y1.
Proof. intros [S1 S2]. split; nsatz. Qed.

Lemma opposite_sym x1 y1 x2 y2 : opposite_points x1 y1 x2 y2 -> opposite_points x2 y2 x1 y1.
Proof. intros [S1 S2]. split; nsatz. Qed.

(** Three points of one line: both sums meet the remaining point's opposite,
    unless the outer points are the same. *)
Lemma collinear_sums a x1 y1 x2 y2 x3 y3 :
  slope a x1 y1 x2 y2 -> slope a x2 y2 x3 y3 ->
  (eqm P x1 x3 /\ eqm P y1 y3) \/
  opposite_points (a * a - x1 - x2) (a * (x1 - (a * a - x1 - x2)) - y1) x3 y3.
Proof.
  intros [A1 A2] [B1 B2]. destruct (decide (eqm P x1 x3)) as [E|N]; [left; split; [done|nsatz]|right].
  assert (eqm P (a * a - x1 - x2) x3) as Ex.
  { apply (field_cancel (x1 - x3)); [intros E; apply N; nsatz|]. nsatz. }
  split; [done|]. nsatz.
Qed.

Lemma slope_proper l m x1 y1 x2 y2 : eqm P l m -> slope l x1 y1 x2 y2 -> slope m x1 y1 x2 y2.
Proof. intros E [S1 S2]. split; nsatz. Qed.

(** Associativity as a rotation: [(a + c) + d = (d + c) + a]. *)
Lemma rotate_generic x1 y1 x2 y2 x3 y3 :
  on_curve (Affine x1 y1) -> on_curve (Affine x2 y2) -> on_curve (Affine x3 y3) ->
  ~ opposite_points x1 y1 x2 y2 -> ~ opposite_points x2 y2 x3 y3 ->
  ec_eq (ec_add (ec_add (Affine x1 y1) (Affine x2 y2)) (Affine x3 y3))
    (ec_add (ec_add (Affine x3 y3) (Affine x2 y2)) (Affine x1 y1)).
Proof.
  intros H1 H2 H3 N12 N23.
  assert (~ opposite_points x3 y3 x2 y2) as N32 by (intros ?%opposite_sym; done).
  assert (~ opposite_points x2 y2 x1 y1) as N21 by (intros ?%opposite_sym; done).
  destruct (sum_slope _ _ _ _ H1 H2 N12) as (a & Sa & _).
  destruct (sum_slope _ _ _ _ H2 H3 N23) as (b & Sb & _).
  pose proof (slope_sym _ _ _ _ _ Sa) as Sa'. pose proof (slope_sym _ _ _ _ _ Sb) as Sb'.
  destruct (decide (eqm P a b)) as [Eab|Nab].
  - assert (slope a x2 y2 x3 y3) as Sb2 by (apply (slope_proper b); [nsatz|done]).
    destruct (collinear_sums _ _ _ _ _ _ _ Sa Sb2) as [[Ex Ey]|Ho].
    + apply ec_add_proper; [by apply ec_add_on_curve|done| |by split].
      apply ec_add_proper; [done|done|by split|done].
    + pose proof (ec_add_on_curve _ _ H1 H2) as Hs. pose proof (sum_third _ _ _ _ _ H1 H2 N12 Sa) as Es.
      pose proof (ec_add_on_curve _ _ H3 H2) as Ht. pose proof (sum_third _ _ _ _ _ H3 H2 N32 Sb') as Et.
      rewrite (ec_add_proper _ _ _ (Affine x3 y3) Hs H3 Es), (ec_add_proper _ _ _ (Affine x1 y1) Ht H1 Et) by done.
      unfold third. rewrite (opposite_sum _ _ _ _ Ho), opposite_sum; [done|].
      destruct Ho as [O1 O2], Sa as [A1 A2], Sb as [B1 B2]. split; nsatz.
  - assert (~ eqm P (a - b) 0) as Nz by (intros E; apply Nab; nsatz).
    pose proof (quotient_spec (x1 - x3) (a - b) Nz) as Hm.
    set (m := (x1 - x3) * inverse P (a - b)) in *. clearbody m.
    rewrite (outer_sum a b m) by done.
    rewrite (outer_sum b a m x3 y3 x2 y2 x1 y1); try done; [|nsatz].
    destruct Sa as [A1 A2], Sb as [B1 B2]. split; nsatz.
Qed.

Lemma cancel_opposite x1 y1 x2 y2 c :
  opposite_points x1 y1 x2 y2 -> on_curve (Affine x1 y1) -> on_curve (Affine x2 y2) -> on_curve c ->
  ec_eq (ec_add (ec_add c (Affine x2 y2)) (Affine x1 y1)) c.
Proof.
  intros [Ex Ey] H1 H2 Hc. pose proof (ec_add_on_curve _ _ Hc H2) as Hs.
  rewrite ec_add_comm by done.
  rewrite (ec_add_proper _ (Affine x2 (- y2)) _ (ec_add (Affine x2 y2) c) H1 Hs);
    [by apply cancel_left|by split|by apply ec_add_comm].
Qed.

Lemma ec_add_rotate a c d :
  on_curve a -> on_curve c -> on_curve d ->
  ec_eq (ec_add (ec_add a c) d) (ec_add (ec_add d c) a).
Proof.
  intros Ha Hc Hd. destruct a as [|x1 y1].
  { rewrite ec_add_0_r. by apply ec_add_comm. }
  destruct d as [|x3 y3].
  { rewrite ec_add_0_r. by apply ec_add_comm. }
  destruct c as [|x2 y2]; [by apply ec_add_comm|].
  destruct (opposite_decision x1 y1 x2 y2) as [Ho|N12].
  { rewrite (opposite_sum _ _ _ _ Ho). symmetry. by apply cancel_opposite. }
  destruct (opposite_decision x2 y2 x3 y3) as [Ho|N23].
  { apply opposite_sym in Ho. rewrite (opposite_sum _ _ _ _ Ho). by apply cancel_opposite. }
  by apply rotate_generic.
Qed.

Lemma ec_add_assoc a c d :
  on_curve a -> on_curve c -> on_curve d ->
  ec_eq (ec_add (ec_add a c) d) (ec_add a (ec_add c d)).
Proof.
  intros Ha Hc Hd. rewrite ec_add_rotate by done.
  pose proof (ec_add_on_curve _ _ Hd Hc) as Hdc.
  rewrite (ec_add_proper _ (ec_add c d) _ a Hdc Ha); [|by apply ec_add_comm|done].
  apply ec_add_comm; [by apply ec_add_on_curve|done].
Qed.

(** ** Multiples *)

Lemma ec_double_add a : ec_double a = ec_add a a.
Proof. destruct a as [|x y]; [done|]. cbn [ec_add]. rewrite !Z.sub_diag. done. Qed.

(** Closure, for the side conditions of the laws. *)
Create HintDb curve.
#[export] Hint Resolve ec_add_on_curve ec_double_on_curve ec_mul_on_curve ec_opp_on_curve generator_on_curve : curve.

Lemma add_cong_l a a' c : on_curve a -> on_curve c -> ec_eq a a' -> ec_eq (ec_add a c) (ec_add a' c).
Proof. intros. by apply ec_add_proper. Qed.
Lemma add_cong_r a c c' : on_curve a -> on_curve c -> ec_eq c c' -> ec_eq (ec_add a c) (ec_add a c').
Proof. intros. by apply ec_add_proper. Qed.

Lemma ec_add_swap a c d :
  on_curve a -> on_curve c -> on_curve d -> ec_eq (ec_add (ec_add a c) d) (ec_add (ec_add a d) c).
Proof.
  intros Ha Hc Hd. rewrite (ec_add_assoc a c d), (add_cong_r a _ (ec_add d c)) by (auto using ec_add_comm with curve).
  symmetry. by apply ec_add_assoc.
Qed.

Lemma ec_add_exchange a c d e :
  on_curve a -> on_curve c -> on_curve d -> on_curve e ->
  ec_eq (ec_add (ec_add a c) (ec_add d e)) (ec_add (ec_add a d) (ec_add c e)).
Proof.
  intros Ha Hc Hd He. rewrite <- (ec_add_assoc (ec_add a c) d e), <- (ec_add_assoc (ec_add a d) c e) by auto with curve.
  apply add_cong_l; auto using ec_add_swap with curve.
Qed.

(** Multiplication counts: one more is one addition more. *)
Lemma ec_mul_succ k a : on_curve a -> 0 <= k -> ec_eq (ec_mul (k + 1) a) (ec_add (ec_mul k a) a).
Proof.
  intros Ha Hk. destruct k as [|k|k]; [done| |lia]. rewrite Z.add_1_r, <- Pos2Z.inj_succ. cbn [ec_mul]. clear Hk.
  assert (forall k, on_curve (ec_mul_pos k a)) as Hp by (intros k'; exact (ec_mul_on_curve (Zpos k') a Ha)).
  induction k as [k IH|k IH|]; [|done|cbn; by rewrite ec_double_add].
  change (Pos.succ k~1) with (xO (Pos.succ k)). cbn [ec_mul_pos]. rewrite !ec_double_add. etransitivity; [apply ec_add_proper; [done|done|exact IH|exact IH]|].
  rewrite ec_add_exchange, (ec_add_assoc _ a a) by auto with curve. done.
Qed.

Lemma ec_mul_add j k a :
  on_curve a -> 0 <= j -> 0 <= k -> ec_eq (ec_mul (j + k) a) (ec_add (ec_mul j a) (ec_mul k a)).
Proof.
  intros Ha Hj. revert k. apply natlike_ind; [by rewrite Z.add_0_r, ec_add_0_r|].
  intros k Hk IH. unfold Z.succ. rewrite Z.add_assoc.
  rewrite ec_mul_succ by (done || lia). rewrite (add_cong_l _ _ _ (ec_mul_on_curve _ _ Ha) Ha IH).
  rewrite ec_add_assoc by auto with curve. symmetry.
  apply add_cong_r; auto using ec_mul_succ with curve.
Qed.

Lemma ec_mul_mul j k a : on_curve a -> 0 <= j -> 0 <= k -> ec_eq (ec_mul (j * k) a) (ec_mul j (ec_mul k a)).
Proof.
  intros Ha Hj Hk. revert j Hj. apply natlike_ind; [done|]. intros j Hj IH.
  rewrite Z.mul_succ_l, ec_mul_add by (done || nia). unfold Z.succ.
  rewrite (ec_mul_succ j) by auto with curve. apply add_cong_l; auto with curve.
Qed.

(** The interleaved multiplication is a sum of multiples. *)
Lemma ec_mul_both_sum n g a : forall u1 u2,
  on_curve g -> on_curve a -> 0 <= u1 < 2 ^ Z.of_nat n -> 0 <= u2 < 2 ^ Z.of_nat n ->
  ec_eq (ec_mul_both n u1 u2 g a) (ec_add (ec_mul u1 g) (ec_mul u2 a)).
Proof.
  induction n as [|n IH]; intros u1 u2 Hg Ha H1 H2.
  { change (2 ^ Z.of_nat 0) with 1 in *. by replace u1 with 0 by lia; replace u2 with 0 by lia. }
  rewrite Nat2Z.inj_succ, Z.pow_succ_r in * by lia. cbn [ec_mul_both].
  pose proof (Z.div_mod u1 2 ltac:(lia)) as D1. pose proof (Z.div_mod u2 2 ltac:(lia)) as D2.
  rewrite Zmod_odd in D1, D2. set (h1 := u1 / 2) in *. set (h2 := u2 / 2) in *.
  assert (0 <= h1 < 2 ^ Z.of_nat n) as B1 by (destruct (Z.odd u1); lia).
  assert (0 <= h2 < 2 ^ Z.of_nat n) as B2 by (destruct (Z.odd u2); lia).
  specialize (IH h1 h2 Hg Ha B1 B2). set (acc := ec_mul_both n h1 h2 g a) in *.
  assert (on_curve acc) as Hacc by (by apply ec_mul_both_on_curve).
  set (U := ec_mul h1 g) in *. set (V := ec_mul h2 a) in *.
  assert (on_curve U) as HU by (by apply ec_mul_on_curve). assert (on_curve V) as HV by (by apply ec_mul_on_curve).
  assert (ec_eq (ec_double acc) (ec_add (ec_double U) (ec_double V))) as E0.
  { rewrite !ec_double_add. etransitivity; [by apply ec_add_proper|]. by apply ec_add_exchange. }
  assert (ec_mul u1 g = if Z.odd u1 then ec_add (ec_double U) g else ec_double U) as ->.
  { unfold U. rewrite <- ec_mul_step by lia. f_equal. destruct (Z.odd u1); cbn [Z.b2z]; lia. }
  assert (ec_mul u2 a = if Z.odd u2 then ec_add (ec_double V) a else ec_double V) as ->.
  { unfold V. rewrite <- ec_mul_step by lia. f_equal. destruct (Z.odd u2); cbn [Z.b2z]; lia. }
  assert (on_curve (ec_double acc)) by auto with curve. assert (on_curve (ec_double U)) as HU2 by auto with curve.
  assert (on_curve (ec_double V)) as HV2 by auto with curve.
  generalize dependent (ec_double acc). generalize dependent (ec_double U). generalize dependent (ec_double V).
  intros V2 HV2 U2 HU2 A E0 HA.
  assert (ec_eq (if Z.odd u1 then ec_add A g else A) (ec_add (if Z.odd u1 then ec_add U2 g else U2) V2)) as E1.
  { destruct (Z.odd u1); [|done]. rewrite (add_cong_l _ _ _ HA Hg E0). by apply ec_add_swap. }
  assert (on_curve (if Z.odd u1 then ec_add A g else A)) as HA1 by (destruct (Z.odd u1); auto with curve).
  assert (on_curve (if Z.odd u1 then ec_add U2 g else U2)) as HU1 by (destruct (Z.odd u1); auto with curve).
  generalize dependent (if Z.odd u1 then ec_add A g else A). generalize dependent (if Z.odd u1 then ec_add U2 g else U2).
  intros U1 HU1 A1 E1 HA1. destruct (Z.odd u2); [|done].
  rewrite (add_cong_l _ _ _ HA1 Ha E1). by apply ec_add_assoc.
Qed.
