(* ===== verification/P256Order.v ===== *)
(** * The order of the generator

    Multiples of the generator, evaluated with the help of a certificate: the
    slopes of the lines of a double-and-add computation.  The checker accepts a
    slope only where it is the slope of the line, so nothing about the
    certificate is assumed.  With it the generator's order is shown to be
    [P256_N]. *)

From S2P Require Import Prelude Primality Sha ShaProps P256Field P256 P256Props P256Group.
From stdpp Require Import base tactics numbers list.
From Stdlib Require Import ZArith Znumtheory Zdiv Lia.

Open Scope Z_scope.

#[local] Notation P := P256_P.
#[local] Notation N := P256_N.

(** ** The checker *)

(** [2^512 / P], rounded down. *)
Definition prime_quotient : Z := 0x100000000fffffffffffffffefffffffefffffffeffffffff0000000000000003.

(** [q * P], along the few digits of the prime. *)
Definition times_prime (q : Z) : Z :=
  Z.shiftl q 256 - Z.shiftl q 224 + Z.shiftl q 192 + Z.shiftl q 96 - q.

(** A congruent number below a small multiple of the prime. *)
Definition shrink (v : Z) : Z :=
  v - times_prime (Z.shiftr (Z.shiftr v 256 * prime_quotient) 256).

Definition multiple (v : Z) : bool :=
  (v =? 0) || (Z.abs v =? P) || (Z.abs v =? 2 * P).
Definition not_multiple (v : Z) : bool := (Z.abs v <? 3 * P) && negb (multiple v).

Definition follow (l x1 y1 x2 : Z) : Z * Z :=
  let x3 := shrink (l * l - x1 - x2) in (x3, shrink (l * (x1 - x3) - y1)).

Definition double_by (l : Z) (p : Z * Z) : option (Z * Z) :=
  let '(x, y) := p in
  if multiple (shrink (l * (2 * y) - (3 * x * x - 3))) && not_multiple y
  then Some (follow l x y x) else None.

Definition add_by (l : Z) (p q : Z * Z) : option (Z * Z) :=
  let '(x1, y1) := p in
  let '(x2, y2) := q in
  if multiple (shrink (l * (x2 - x1) - (y2 - y1))) && not_multiple (x2 - x1)
  then Some (follow l x1 y1 x2) else None.

(** [p] and its doubles, one for each slope. *)
Fixpoint doubles (ls : list Z) (p : Z * Z) : option (list (Z * Z)) :=
  match ls with
  | [] => Some [p]
  | l :: ls =>
      match double_by l p with
      | Some q => match doubles ls q with Some t => Some (p :: t) | None => None end
      | None => None
      end
  end.

(** Adds one entry of a table, along the next slope. *)
Definition plus_entry (ls : list Z) (acc : option (Z * Z)) (t : Z * Z) : option (list Z * (Z * Z)) :=
  match acc, ls with
  | None, _ => Some (ls, t)
  | Some a, l :: ls => match add_by l a t with Some r => Some (ls, r) | None => None end
  | Some _, [] => None
  end.

(** Adds the entries of the table at the binary digits of [k]. *)
Fixpoint gather (ls : list Z) (table : list (Z * Z)) (k : positive) (acc : option (Z * Z)) : option (Z * Z) :=
  match table with
  | [] => None
  | t :: table =>
      match k with
      | xO k => gather ls table k acc
      | xI k => match plus_entry ls acc t with Some (ls, r) => gather ls table k (Some r) | None => None end
      | xH => match plus_entry ls acc t with Some (_, r) => Some r | None => None end
      end
  end.

(** ** The checker is sound *)

Definition at_point (p : Z * Z) : ecpoint := Affine (p.1) (p.2).

Lemma times_prime_eq q : times_prime q = q * P.
Proof.
  assert (P = 2 ^ 256 - 2 ^ 224 + 2 ^ 192 + 2 ^ 96 - 1) as -> by (vm_compute; reflexivity).
  unfold times_prime. rewrite !Z.shiftl_mul_pow2 by lia. ring.
Qed.

Lemma shrink_eqm v : eqm P (shrink v) v.
Proof.
  unfold shrink, eqm. rewrite times_prime_eq.
  match goal with |- (v - ?q * P) mod P = _ => replace (v - q * P) with (v + (- q) * P) by ring end.
  by apply Z.mod_add, P_nonzero.
Qed.

Lemma multiple_eqm v : multiple v = true -> eqm P v 0.
Proof.
  unfold multiple. intros H.
  assert (exists q, v = q * P) as [q ->].
  { rewrite !orb_true_iff in H. destruct H as [[H|H]|H]; bools; [exists 0; lia| |].
    - destruct (Z.abs_eq_or_opp v); [exists 1|exists (-1)]; lia.
    - destruct (Z.abs_eq_or_opp v); [exists 2|exists (-2)]; lia. }
  unfold eqm. by rewrite Z.mod_mul, Z.mod_0_l by apply P_nonzero.
Qed.

Lemma not_multiple_eqm v : not_multiple v = true -> ~ eqm P v 0.
Proof.
  unfold not_multiple, multiple. intros H E. bools.
  apply eqm_zero in E. apply Z.mod_divide in E as [q ->]; [|apply P_nonzero]. pose proof P_ge.
  rewrite Z.abs_mul, (Z.abs_eq P) in * by lia. assert (Z.abs q < 3) by nia.
  assert (Z.abs q = 0 \/ Z.abs q = 1 \/ Z.abs q = 2) as [Hq|[Hq|Hq]] by lia; rewrite Hq in *; lia.
Qed.

Lemma follow_third l x1 y1 x2 : ec_eq (third l x1 y1 x2) (at_point (follow l x1 y1 x2)).
Proof. split; cbn; rewrite !shrink_eqm; done. Qed.

Lemma double_by_sound l p q : double_by l p = Some q -> ec_eq (ec_double (at_point p)) (at_point q).
Proof.
  destruct p as [x y]. unfold double_by. destruct (_ && _) eqn:C; [|done]. intros [= <-].
  apply andb_prop in C as [Hl%multiple_eqm Hy%not_multiple_eqm]. rewrite shrink_eqm in Hl.
  rewrite <- follow_third. cbn [at_point fst snd ec_double].
  rewrite (proj2 (Z.eqb_neq (y mod P) 0) Hy), ec_line_third. apply third_proper.
  apply quotient_unique; [|exact Hl]. by apply double_nonzero.
Qed.

Lemma add_by_sound l p q r :
  add_by l p q = Some r -> ec_eq (ec_add (at_point p) (at_point q)) (at_point r).
Proof.
  destruct p as [x1 y1], q as [x2 y2]. unfold add_by. destruct (_ && _) eqn:C; [|done]. intros [= <-].
  apply andb_prop in C as [Hl%multiple_eqm Hx%not_multiple_eqm]. rewrite shrink_eqm in Hl.
  rewrite <- follow_third. cbn [at_point fst snd ec_add].
  rewrite (proj2 (Z.eqb_neq ((x2 - x1) mod P) 0) Hx), ec_line_third. apply third_proper.
  by apply quotient_unique.
Qed.

Lemma doubles_sound ls a : forall p table i,
  on_curve a -> 0 <= i -> doubles ls p = Some table -> ec_eq (ec_mul (2 ^ i) a) (at_point p) ->
  forall j t, table !! j = Some t -> ec_eq (ec_mul (2 ^ (i + Z.of_nat j)) a) (at_point t).
Proof.
  induction ls as [|l ls IH]; intros p table i Ha Hi D E j t Hj; cbn [doubles] in D.
  { injection D as <-. destruct j; [|done]. injection Hj as <-. by rewrite Z.add_0_r. }
  destruct (double_by l p) as [q|] eqn:Q; [|done]. destruct (doubles ls q) as [t'|] eqn:T; [|done].
  injection D as <-. destruct j as [|j]; [injection Hj as <-; by rewrite Z.add_0_r|].
  replace (i + Z.of_nat (S j)) with (i + 1 + Z.of_nat j) by lia.
  apply (IH q t' (i + 1) Ha ltac:(lia) T); [|done].
  rewrite <- (double_by_sound _ _ _ Q), !ec_double_add, Z.pow_add_r, Z.pow_1_r by lia.
  replace (2 ^ i * 2) with (2 ^ i + 2 ^ i) by ring. pose proof (Z.pow_nonneg 2 i ltac:(lia)).
  rewrite ec_mul_add by done. apply ec_add_proper; auto with curve.
Qed.

Definition holds (a : ecpoint) (n : Z) (acc : option (Z * Z)) : Prop :=
  ec_eq (ec_mul n a) match acc with Some p => at_point p | None => Infinity end.

Lemma plus_entry_sound a ls acc t n i ls' r :
  on_curve a -> 0 <= n -> 0 <= i -> holds a n acc -> ec_eq (ec_mul (2 ^ i) a) (at_point t) ->
  plus_entry ls acc t = Some (ls', r) -> holds a (n + 2 ^ i) (Some r).
Proof.
  intros Ha Hn Hi Hacc Ht Hp. pose proof (Z.pow_nonneg 2 i ltac:(lia)). unfold holds in *.
  rewrite ec_mul_add by done. unfold plus_entry in Hp. destruct acc as [p|].
  - destruct ls as [|l ls]; [done|]. destruct (add_by l p t) as [r'|] eqn:A; [|done].
    injection Hp as _ <-. rewrite <- (add_by_sound _ _ _ _ A). apply ec_add_proper; auto with curve.
  - injection Hp as _ <-. etransitivity; [apply ec_add_proper; [auto with curve..|exact Hacc|exact Ht]|]. done.
Qed.

Lemma gather_sound a k : forall ls table acc n i r,
  on_curve a -> 0 <= n -> 0 <= i -> holds a n acc ->
  (forall j t, table !! j = Some t -> ec_eq (ec_mul (2 ^ (i + Z.of_nat j)) a) (at_point t)) ->
  gather ls table k acc = Some r -> ec_eq (ec_mul (n + 2 ^ i * Zpos k) a) (at_point r).
Proof.
  induction k as [k IH|k IH|]; intros ls table acc n i r Ha Hn Hi Hacc Ht G; pose proof (Z.pow_nonneg 2 i ltac:(lia));
    (destruct table as [|t table]; [done|]); cbn [gather] in G.
  - destruct (plus_entry ls acc t) as [[ls' q]|] eqn:Q; [|done].
    replace (n + 2 ^ i * Z.pos k~1) with (n + 2 ^ i + 2 ^ (i + 1) * Z.pos k)
      by (rewrite Z.pow_add_r by lia; lia).
    apply (IH ls' table (Some q) (n + 2 ^ i) (i + 1) r); try done; [lia|lia| |].
    + apply (plus_entry_sound a ls acc t n i ls'); try done. rewrite <- (Z.add_0_r i). by apply (Ht 0%nat).
    + intros j u Hj. replace (i + 1 + Z.of_nat j) with (i + Z.of_nat (S j)) by lia. by apply Ht.
  - replace (n + 2 ^ i * Z.pos k~0) with (n + 2 ^ (i + 1) * Z.pos k) by (rewrite Z.pow_add_r by lia; lia).
    apply (IH ls table acc n (i + 1) r); try done; [lia|].
    intros j u Hj. replace (i + 1 + Z.of_nat j) with (i + Z.of_nat (S j)) by lia. by apply Ht.
  - destruct (plus_entry ls acc t) as [[ls' q]|] eqn:Q; [|done]. injection G as <-.
    rewrite Z.mul_1_r. apply (plus_entry_sound a ls acc t n i ls'); try done.
    rewrite <- (Z.add_0_r i). by apply (Ht 0%nat).
Qed.

(** ** The table of the generator *)

Definition generator_pair : Z * Z := (val p256_gx, val p256_gy).

(** The slopes of the tangents at [G], [2 G], ..., [2^255 G]. *)
Definition generator_slopes : list Z :=
  [0xa249bcb3191802d3cb56fc75a8731f848e7b2caf080f3477a4e4d904a671af9d;
   0xc2489a9eef61dfa06d3741ff3b405300988bd0db42a937859069b9cefb576e35;
   0x3d3f7094389059fb29d62c12aea203c23c53ca0f84ba9265d34346d498d0ce10;
   0x6fa44fab12ab52ac931dd31283af3f747d8609c5f053383c43a73240f7256e8a;
   0xe9a817f547273aa32a7361a18e9620f2b838a409be826cf083fed49b3c858688;
   0xcbf7b81fbdea68d4221b26a8e5a24b1cb5e9aaad01ecd82899cd638e1942f764;
   0xfc4b4bd92566c2ad98242459501cf92d7207904e764ab66789942b0325b9a3e8;
   0x93fe002b120dc226d15b0f98b056d3392bfd56b35499e60a5f7ad1ff70675535;
   0x59faa582c6b4f84cf05a7f0a2f866f67a3845d45e19ba871c83298597acc6389;
   0xd2b8741587a7b2e52655fc308e92e0b0e32ee6e6b41d84eb93aab4a3a4141961;
   0x1c063129ba7b4a48b2e70f43844011c46be00e0e9073b990aa60efa9cee08d40;
   0xa2e3cb03c0248e9badcbbcc1c7028566de6e61b104009831a5104754ca52749d;
   0x960ff72703b0a682d458e8c237f82e7c160c43f0388887300239f5caf2144511;
   0x928ac84a888eeece1f740cddb2fe2c3ad23b782d364f2f64e69fb00ff124a44a;
   0x2f62106edd7774f71f1f577bb87c80a69291fa99d469a7d590bb7efe497f0e98;
   0xdff9619f1fed418640882fc607fbef4ab0b4bb2ee9eb5ea61d7f347eaadfeb72;
   0x2bb34155d1c3e85258cd7587c389773ca8761dc07d32d1bc095f476c05a7c13e;
   0xedfc2e37fb69a62e021b6261a99df3018dc9eee2e4229d1cbff1ba56b4f8e3d6;
   0xb79e006a59b12e979226f397f11da4e07f4c0c6e00d804571e0be779c48ea25c;
   0x45fc98da6728684cf421d291dbdaa5438a2bbde9eedf856c54e1d2577a0d15a;
   0x3f71d35f5943c9d82c6297d4739ca141ce18dd97535b82f9b6cbf6a3a3bc338f;
   0xb063b021ea8c4d521a86be70cefe8cfca350e9ba8c166c8838fe6446dfaba3e7;
   0xc96ce208d5d84115b06c8101fbdfc996fc19127fb826057aa9a56a342393343f;
   0x58cc0685f3b5bd459e0a56513cc139f2ef4c79222658880c7b9e910437232a37;
   0xc714a5ff1e67f35e138db56e27766a8f370df7a9aac6afe2a684adb2f9318a34;
   0x244464508464873517783cc6e016573c75cc1d40a0821ca2006ccaba14e5ae68;
   0x19942949a63311386dd5eb50ae3bd81d89fda56a29528618285086a145bbc75c;
   0x89fcec8c449f2a8727481510ba958d286a3ed95b2b77e593d4a8e3bc100d5f1f;
   0xf6c406113ca7142ab7578bbd87c1fcac561785320d44621ae23c0bec57db9931;
   0x1c544e23cefcf6bdc7e2661841017cf1352b6cdad766837a00109b5b701a002a;
   0xe7af93b02913d49f7ff08817eb8b2a9186ce83f590aacc4a439598e38234c827;
   0xe353b7ead6b8630cc720fc9e590a4b3bfde6404ec154ad7d5f0e3fc795fe64a8;
   0xf2d190fa895945fdbce834e76fc615314f8d12fd6ab74e11a875fdfc3ccd5a36;
   0x6f2111875b10a1209c249e454abeae22f7965e57dba5f3791ea5b985b656d33e;
   0x5dfcaeb945eed013f0dc90070b1796fc1836e63f83e756c35d1d0c0d796c7d4c;
   0xbe3d2e335ff7468d6bd8fb93fe862c8e0e6a23e82b010d3065ee7d872d83ac05;
   0xdcdf4ad2644a2a52ace81d4008703d620b99ddaa19a8e43afe378ed8f316169f;
   0xd541d97c1e7434ca4879279fc56ab5beea2eea4739c34965dbfd94fc16ffd007;
   0x528674b2e6ac31b598ad18e8d07fc41d1b9cf19cc5b0b1a36e4bee972e1793ca;
   0xbe3eb98c294b97f8ef31e7fb4ea068b560b0394730a372737b1664be3b94f07b;
   0x1a4fe06c68f0b4432fccfa2556384fa002a2562842b472c92467450bbae7e75f;
   0x62fa001767cd781a9d2fd3e7ec992c971b637a1677ac44bb25b8332f1f328a1d;
   0xa61d0186d8bf3158c94229adbbd5c4f18d62deb67d2a553c60bf4b70fa43ae1a;
   0xa358ae4d1d2d1559cf903bb807955ed8242bdfd114b140dfab90d867071eea1c;
   0x44a9e887ace2e81779b6d576792b60e61bc31655486153ad4735e7464767e021;
   0x3d2ba9c25242b9c848025e13f8e099197cfd9e127322e91d526031e6ace4351a;
   0xec023d3a9661ac96c6dbc95cba3f761ad0a6e2e73eeb9637678a0ddd09e0adc6;
   0xe62135dfb5ca7a34ae42eefbd686412a45a2994c887c07eef7d68b30d6cb931e;
   0xd619ba80f511570a3e3ed4d04647ae2b6eb9264ad8aac5fa6d32ab6bdf78697f;
   0xffba15c48dae93bb6b7b3fcd35fd12dd25cd8fcdf93f1637105ff77b76307fa5;
   0x4771f4203b36744f55f580ef5d06095e26d9707e0b0758533cee034caba468d1;
   0xd789f8898ebd00255511f6639f2a8eea2a15e29c1b6ff8fcedf3e8269f86fcb5;
   0xfe73522c164abdfb06af1c83a0695ea24c334e788d8251561706989665d6f816;
   0x1cebd9c97cd5d590c6b74870095510a5178ded2a80f7e9ac7823793acf59a7aa;
   0x78dcfe4e3af4fa9d145e4091dd5fea89aa125b4033372535c8abe3358fb6e9cb;
   0xe022f3ccc925f51b2e88befaa3bbd50ec11bfdac0ed8e16681963206ae9f07aa;
   0xad76aeab07632ba0897563291c07533a53904c8917d4cce1df331c0fea875697;
   0x8d208cba001b885a9d1cd9bf54e51d2637ac63861474a0fba0cf6a9ae7ffc87;
   0x96791e6e5c53bddc2e330cdff59b2760a5d1e82daae727ccebf22ba376b64789;
   0xeeb3323449c404260d45d0c90e1b08bc54f7142b776ce23e8f1eac75e7a54b77;
   0xc2bf87d6b97bd496e25685665a1b00bf3f668e0d1d0ede73a3ceb3f0f4fd4a0e;
   0xd980c91e98419256b33ca70642e8086bf8045da5fc4da6a69f1a9b3081a24d28;
   0x3f00b53d7b742f827adf650878828da4901e79f385673c8ac0efa2ea3783308;
   0xd10a30165e44a72575956d5eda085e58a090d0349a5b7ec05bab13ee18158af5;
   0x29324dd7745424c70017bf17b618e2f391ed41979e1c82dcb50a3c2fb80bc258;
   0xdba0e74da82774f5d0740b49ac31b538d6f8336356feef5f2c4879ed5cabc501;
   0x3fba9142cf9b09f82a69707ca2d04b2c28ed80f3b48196ca23f69ed53b8c1abb;
   0x753104d2fc9c3c75b4ef6a5abba9162535cf4ddd8a5fd009d2e8386cab58a6f9;
   0x3dabc691917a2ea5620f8c27a2799e637b8d554a0bd646d4af7650150eec6760;
   0xa2c62e1c76621ddd9e90dab925ebdf8caf145b2e46a7e58e91d6292942092618;
   0xedad044c65261d5af330654524135fbcbf9390aae52cd419885d1b5e0f8b9b19;
   0x429efa4b1ff1915e962e01b19f4c61cc73d045853c64e8175e7f002437d62505;
   0x84f13e9eead977e5ecaa6a33b553777d9fc91dedd22924ee4b72d6c6dee592ee;
   0xbb6aad7061c969e4a76a865e39f1180ed95b0f4970c4d641edb138d52921280f;
   0x939a30e72a652164becdc44bbcc70ba1bd0abcb08ac9874f81024082a6c29a32;
   0x74076d2d468e60d0e0f299cfbb8d00eecb0d07a011d521cfa279f96f16b445ec;
   0xd6011b593a3fa7cf0134011b23ab04ef786b369c800195a19d7be1dd416fce75;
   0x524efb3f3a34cd13260690a846fa7b4fc7554d8cc78d07cbf445d22431a5451f;
   0x7b39eb93c9d76ec892fc312340d90ce59e8416bb8b11f7282dbd30f5884300b8;
   0x4b8a6e723533e7d3d8612077e43af208fcc6193b3ce83e99345da4a80725b05;
   0xe7dab0f8fcc0ae3e5c394ae291922949b7c5a1f54ecb2aeac075237d21871d65;
   0xefdf4a31f9cae53c9ad6188f15dab087c937ec1355a56737682e9b533ba614ec;
   0x79836e79fee4a540a9f84fd1c56da539d7aa05f06ee8dc07f050bc7f4b3813c8;
   0xa3dd7cd24e9aa562c028da0ecbe9bf7b1f237d0b100445d69f51a8c8e9504e0b;
   0xee60bda620cddeeffda566bf8827f5ec78e87dbab807b60366aee635c1865883;
   0x76e9bdb98b0531e25004cdb7856270d30bc0d94a955bfb20e0e76452d1903806;
   0x4603a1c4e11a2d2b7add077dd09f55a84150118f53ddade3918edb8fccb88328;
   0xd8e5e0ff655697c13b3cd835bd4c448bdb221a734ee9e30a83fe18fc466ea614;
   0x87d31f0f3334bc4e9d888d7f0a92a977b8b42f082e30677ea40e0fc53853aca8;
   0xd9486ea131e9deb91764e2eef47a6705d1a8f870f1c953b801581685c538aec5;
   0xff96fde5e45d6d4aeb53be3abfd9e88fafb24648712d8c09f882d32e476517cd;
   0x561b900375d1f12fbc43817d3b1b6ec08e24a4dca93957e6d11e37d55ad82a30;
   0x1f8c174e9b2c1a8e970cf284b20774c34967aa64c2e0dc8bd93b8e7abe8a7f57;
   0x2fd440ecc71c28fe10f61da3480411b80cb9376f63ff222b2a2ddc3a6a4e33d;
   0xe506afbffec23eb1d1eda46bc1a47f39ad9e7a88a616523424b3cf25dc4d9df3;
   0xff2ca1583f1a35de8b26a39f61ef7b330ac3d5d89557063f7a336c86fa946b5e;
   0x83cd584275b774459901c763b674c8ef7e681d397f33ab009fc63e628a4240df;
   0x2afff269aa3c2d6f8e4dbf20d491b5279a99e2d2819310bd60bded08c4ee63e8;
   0xee2d9657220818c3b91736103e17884fdada03fd2604b20df6c8f927da3bc8fb;
   0x10a7bdf60fc7a31a8b3fb42f776a4b05d3646917d4a0931b2bbfd132a5a926b2;
   0x38d2b631c04e00f91ef32f55963a230646c512bd81d0a25de987edb96d284c5e;
   0x61d5fec6a5fba22816b5b808623c7fe559ae4dac7dbe66723fc25a2336884f1a;
   0xca831e8e9847bd1e1fb03c68dfda133d25b2dfa512396511e10a6cf15a3d70ac;
   0x7ed58e109a5779007f144cd1ec6bc382ee1a6accc9547d475a7413d53779aebe;
   0xa73d3dacbdb7a692790dc1af3c9f0f014e2061b0bfc6face899384549908b31f;
   0xdea2f4a1c5ccc5e5856f2b3bb3c4b9a98cd11a940c4e5e3ac3545ff714a80470;
   0xe02f7f2832e406672922adbf40400fdbe0a73bf43d2bf2a29572259c2c257d88;
   0x6b8cbcbd6ea41e144a5f9ee91f4013a07b5c6db728814cb6c503423abdd3eb91;
   0xd9392ce2837cddf6341cacd0d31e2a8cfde54f090d312892adf3bb6a5572fac7;
   0x5e6c9a0f45f0b4f7a6cdd869db2cad66e0836dd7cc4a2c3d439798e5655a1f70;
   0xbeef0951e81fc2bfdcf83cf6b7f2e0649f0b2f79374803aaab9916e52b114dad;
   0x985452175e7b133371e382a137a936a0d1965a0ed0cbaf618841965fa3204c60;
   0xa45affba2808882a40c0a65b07ac92ea34a612da87944158e651251b6ead6046;
   0x7f90096f549fef2356ce34b939d2bd454aec6c7a1dd5c9eb304f118091a497da;
   0xc77d2546657cf94c022d48cdbe20751f455fa5881bb05fc40fba9c417fcd890;
   0x86137b79fd460d9ee30ffd72e14c0b4168aad29a9032a362177851f18be53afd;
   0x4b4f844d0143a25296621b2df080380ab2386020e7e1f94e05508c3889de979e;
   0xb365fa38e25b3fc5b284cb3d24386781b7ddb57526257713fac6e05284aabdff;
   0xc56e236cb8e7a661d0adee1089a2c97d350d26433db369b1c7e2350d34412957;
   0xc0323c3ff0b59f4e337ae5aa41da4bc064f209265d442f72bfdfd4747ebafba;
   0x335a827590f28af19ea4dea8ebda096a6622e98b9612da0ceb247a2faf30d6a0;
   0x5d4a7b8292d0281bb6ece7f76b5c03c75449103e913581c224fd46969d60ed3d;
   0x8402d15488a2480e9a2fc71a562f9ac1b56f65d30b4258c19e6d7b24e3c5467;
   0xbcec95630e11053fd18643c46f0d90db12da63a1e42973a63ecc9466b5f2dd32;
   0x189cadb9c3e6eb55225446aae811598f9c679441df3defb1e35ce2ca7d463adb;
   0x9213e703f312aeac61e4acafda19ef8e5f1381eec13e78203644a292b1f3e545;
   0x421ba08db1d328fd8d1e2b0cf284f264e5a201063430c014b77d12a00ff09317;
   0x542b952fc288536206f1249660b042005354ac1a34d2a317162b49c4b677b4b1;
   0xedc9c1dccc9c3028c4e2ba2fa2d17542f568dd145f50f77b28e4a9b163f31637;
   0x187ec219d8f10ef2c5dfd4ed5a16e35fde54cb0ddd79d6699a2a9ef6d91eb7a7;
   0xc671f9e210c1412e46fec8b5171a80eec01d94d4d5a9296e68a5c6a3b74e8296;
   0x688f1e5d18840881da851fa505c17fbc49f913ec5fc369d2f1727164ace2b165;
   0xd21ecf9b7d7162c7df440032f0fbe6d2c6e094282974d2bc869935d4d20d32bc;
   0x1e71a885315e859a7ec86a1838bf9a9f5fda7f8edaf4d3a16b9d0ca545e2534;
   0xdb4dd8140120fc49f927051c70cad79f7c6dc805939c85f07cd07ab6ad68e195;
   0x79d68e1f51dd20edf90c6e1cb37960e840093a6d484f07e28c4b2cea11b5a6e;
   0x51bb280751d6112dfa1284a5b15fb28746bf79a8c89baee6ecba7ac1b95aae26;
   0xb884fbb29bb51bff545529ed396dc9731341937ec607986d86273f859bbebe21;
   0xf1826fcfb66067e7fdc1dd614592fbd8d4993e9eef803ec581799a3cf00f2e70;
   0xd555015037bb7c9d327c8bf8f3b8a26f702923731f2614012ca37d9cd5a3bff1;
   0xfe659a56c00e3fd1c500adb7d4f65d198964ded633b97908c4d985365042be15;
   0x8158c1718a474b191e504867adc02c685a2ba52a05d4f98d36000e44fb4683be;
   0xd45b7ab81f0f83a103de4fcf9fbfee6ab63382bea0a5b0b978d0f6e6963fe847;
   0xf19b1758472c9ea63182b65fde4125c273719b2f880e5987aa085acdc733be01;
   0x1e64c6f99ca4a21bcacf3a5d4a497432b29e3d7f00a83b0d010ada65fe91c9f0;
   0xfa3aa86d30db23ba052b6438191f10f2195e002605204ee00e6cdb11aac3ef3c;
   0xd46ddb4ab2f0299b2c9e7eddc5996d803ae869349f6db130d79200e82e417b81;
   0x20a6022815bae731183b32a6ea666a48277ead8fa81ef841eea1859403e0bfa3;
   0xb83644d02dbcf9cb5edc43a48807c76a754a71eccc90430d400c2d1b60cb3865;
   0x3d08860575e43ee1f27528f715604e38453a9f8e323cae51866b0c0736eef4a9;
   0x897ab3601a533d4234c0435ea0add15315e8c903ee555597af847bc9d01b1436;
   0x40484e52b74c0c08e56c754d0181221060e8a5e9985f4cacdc689b0a529b807b;
   0x95b278f457d982f66428d3fb1c1ccb580222fe0d7f59796d4d6f0fed8ad96461;
   0xce2d7a8ea55c573c89eb97198aff82fc2974702fd12f5776d93c9673c775dc8f;
   0xeb3f05b3f694ce40135333500a2f97b60a7c3d70a329d4715cd3975591e792fa;
   0xd9c8693b805141095e5caa30ae30acb61b74fb72671ea7f6fcf180d2b6d48c2c;
   0xf84af0663d7a3bbd78165cd013aa09d1cba704dc3954de2c6d7e3c94237f4ab3;
   0x452b9d929f8e62dfd6c7c746ba40ba106038ed5410fcbca88269b978507bd960;
   0xd8c76bb063a89e7f3fdbb2da85bb04be0edbb69a4d606fa54490b8e737468fc7;
   0x50e6a30a0bec6ba71d881741e2f52fa3ca4567bf450354e5500856ad43315338;
   0x802f39f19fa37fda5f0e7f35677cbcdc147ed45dd60db73cd2fa1232b57ea362;
   0x644063d783acf2895ee48406263675e60472375900489ec1d76471b192ba77bc;
   0x3d343e5001c1648153b3ff5c2d1c32fa43934d42619d65e7e78139ac1d012eb;
   0x579db08d73af3821b876d20f4285c616f5ae2babf14c9930689c90ec3ef5167b;
   0x8390b6f7da6e0b61b2ff69f8c2a0821a48e642599d95ce7f4639e44840b1bbe2;
   0x23788111088d98bca0fa9614b12095f692e2b46cb600146f553cc74a03bcd574;
   0x44f6e4e4f7cfee9c51c47cffb1bdce2745be1a1800679c3926b5f97e49c4fba8;
   0x3f83fd12833d44f0d567074833c35475633a1c4a2ba002d62a048d551cf92263;
   0x8f5fbcd1e7e0736db266adcc49139d5269bfb2ef6694b3b5185fec29de628438;
   0xb07de4f0e535ba356ccb0d61e83caae152d2a5b7a264131c2bfd64135cd7a620;
   0xa607402a83caf83e505fccabfb97ca583cd6ad4665156f954c05943c5fbcf2b7;
   0x39fb2702b5fe5b53249a08339ea7959a1cf53be57fc533fb4abba6c2fec4b866;
   0xda4a6bec8eebc6ba58bd866653e79a260170639285735caaa9e1685fcbebd4b6;
   0x3862bf9599ab8ba66e3f2686179a9f7ae383ef67d6c09339b75171c12f9f9f58;
   0x452563836074385d50f62b06e9c8cd4b8249f7e5395d164e6c1297f906b6a63a;
   0xf0ca17296ed80271eb343429e26ceec597ee8d0c669fd578b1fee98d491c4be2;
   0xfc0d607372d2f4d11b89f9ad5ffd0539ef51cfd49cc40cbee3f7cd0199bfc1f7;
   0x6e650d5cfd29581fb98a138815e31607a43d3462f5e14383356325ad977f66fb;
   0x77a1a3d126b9f88075b5f67c07b9c568fb7f54604f03b4d342ffa934b034163e;
   0xa2f4f19154e53398febc797af2d04c9da1ec41ddb4e0ca8c23a8e0255f140257;
   0x18f7aa6b3dc3a00933742be417e35df4735e2f6d3ac79db14aea143884eb2417;
   0x236af9e75e55c824a4ac8d78a82f5f220a4c28a3eccce94063ef42fb5e549998;
   0xeb9d1dd88798835e36684209d149f36a658b2a2543c7dad4047b03047cbaff95;
   0x1ab41b2238fd148b31802644e95d5b1f148c7371a31e11e3055d92126c2c8a2a;
   0x17f395ec8bcae6fb1f942427ad235a51c0480a62a6f0a142abbb650ed4b3df1f;
   0xcc9f6e8935835507eae61b26266b1b78ff240bc520dc4649465f8d42b522de;
   0x15b3a6001a02f06e6892bba476ff857147349a0fd28844934687812dbb7a6564;
   0x8519e369450a5feaec70fccfd73d29ed8d1e44001144ecd4d4b7835024719ad6;
   0x3059b465485b77d4c243f987b5b0f25cf27575a8684cfcd4eb2d4a18401d21b4;
   0x88b155ad3cfcf2b31efa16b8973b10e0c4c17e39f8aef64aab321415487a23e0;
   0x57108fff714057bdfa5981395d5b47677c72789648ca2ebb1628af75d580dfa1;
   0x66c0742f9f4125548c61f263ba9244d4f16692fa29e5e0a620d39bc9810f901;
   0xd85bb1aa5db1427283a00d9dcdb6a5012cfd96195e6427abe01bfbcb03f55d46;
   0xeedaad9e9f12cebbfd8e54114006e13eaa4ae14c143e7235126a4501179ce4f5;
   0x361a6ae61ce718ed263e6a9b1853971703ba9809072a41c3e3763bc2ed6f3cf9;
   0x5b2c65076da1f36fbb3d2ee497e9f7413302bc6cc93b9a6ac853186f33543af2;
   0xcbe44174be4629b2fcc87a8126ee32b5c5b50d23aeebb783ad5c02ca9578c329;
   0x1d4caf106ac42c7a425fc3159924cf2b08989016019fa200be1a5e427c3d5ef7;
   0x3b64a0fada3c548581e69a352e54611b8bbc1df0e1ea0cf9d2f7a8bfb6d6c71f;
   0x2578b17af2230a95b9afad191f9001ffedbe02357f929855a1eb8708311d8a1;
   0x841a25f768da73ba64f60e0c064199c0edcc6f799e68114adf08f14ddee4308f;
   0x588fe0db8a3643f7a2a727e25a01edf60fed78079be7a25fc0dc30a5f5207e8;
   0x686734db8bd3dba5c57503c8383e0a2e9e2117921863e750aecf77a67a796ff5;
   0x21a65d75381e6a2602f2072d8e3a3ccc31c632facc77c087f7042bca91248cde;
   0x49eae1ff96d1cd7fa2e389bbfba4f0d302e682c659a3e40cfdae85465e8440c1;
   0xd6146596f2ee79137611e17d1ea396e756164cec359e33e3c1928d4d8535eb67;
   0xc819eb8218f019e4b66875ab119a7ced44952e267ed06bd9842915ae1c2662b5;
   0x562aed95a88976eb58a0eaedbbb352fa3cbb48047e678a18f27123f184affaea;
   0x6ccc8d2186ae7e49d66ff6b8f29f2ef7d0787fd4a0cd6d6cbb0151b93f8c4185;
   0xa5dc14339dbba5eb6348153a2a2ffc8e4900f2a8e4b4fb6dd824bcf0561420a6;
   0x2584ba8fa4a53169391714867d8337132b16f6d96475908e1615c722700c4063;
   0x2be8ba2e4bef2ab0902018709a4a5b8c022d5e6a378d7dc64408a8cae7b5c7a7;
   0x2f15b2b220b5ad40e5dbdea89e4c1aa4986ceec607da86e43170033722a1cb3f;
   0x12bdecd1047a88adcf126175871cc8f6dc524ab9ec13aa30e786eca5bbdffe86;
   0xc5abfad6aff7ebddb3c86d4be9bb27f3094cb9cdb529ddcb7a4af2154297dcc6;
   0xd73b64264df98ac0737a9f56dcb96baca5cff1d399c512934134bc0c1b590f5f;
   0xce4077a5bf5d472fb3457e45409b5a2393d012a3df71cd17d1566ac21c62260a;
   0x76fb5871ddcee4c42bf5a5d5188048300eb19e4b1e113b7c1fdcf08847429cfa;
   0xe3b79fce6050a68b90ee8e724a0f9a2a74940e209417871d1d999cb483a08b3a;
   0x2696e903b7f800bbb5e2fc779b05fdd16b03ff93416f00354914e79773dad614;
   0x8a95f48f04dd1bc859395581bb7ff7c3176e09937f40f36c99b8703530e3bf2;
   0xb395d61903804162db1172c006f68e42d06e03786bfc9e4e7965c02cd3db4b6a;
   0x80899b05c798fede016890c1b03b093ddd96712f36d54f6522dc451c2c827af9;
   0xf3bbc4bff6110eef4b37b9935be7a9d0cf64b50b1fd329c332086367828f8d0c;
   0x62f29d0e45749148a95c7958e857a399cec5141a63412a80e5e965884712bb3a;
   0x8fccf43eebe9a7d01488efbad513b401347805f39d02e93db124bc1180ed6934;
   0x18d61cad397c103f96dc404e579a6c6c97baaad9b92fc79fa7d5b01380078694;
   0x52a59ef3c3672d8d46b4317118e2f22e25580ad6f6bbd1633b7bbe0df59d4d1c;
   0x3a373f724af6987d59ce56bd59925e4c2f94a708f41ec2acf06fedff9919c446;
   0x5b219aa98f1126779fd6f9a666c70b7d33da4505094f44029f38d4ded0c630dd;
   0xc52512614d86a714e3e1fa8e1ec80adcbe40a9021d01abe67373338dca1fd7f2;
   0x67575e46da0705a99efb9c081f7e407f9261a88af3a6ce1c604d477d6f027db2;
   0x86426ca4a5f1f2bc4bf7bb25cadfc0201a83a5facd68bccc71fadb9210bbc305;
   0x29a7fad8a0d2b6baa49849df07e4f77e6363205e5c7c2189ffb4f83655b4b636;
   0xc614eab8caab8b08f985475ed01cb88e238346bc0cbeaa036f166b42dfb45792;
   0x5c76f6e051af305fcc125c67b00278a739e773f98021c131fb43d9ce3385d00e;
   0x157f0f31a073708d2038213b7c76206599996094e636ff81bda0c60310ac4780;
   0x3f54787fd9439d059027bc17c5f944f5a39491debf61b2b72c60044d6b249a44;
   0xbbcc1529aec8d2edd74f8b1f5aa7f8953b7b2d2e04cd428274bbaea5372fe475;
   0x151bd893fe7c6de3fc92d8bd1f184e2d6f0e4c89fd01f072f4727cc53fc7bd61;
   0x7b193d6fe98bcd2275b824015c075880617c3f9dbc1b79c438ce945ea0bcbd36;
   0x8a1d978fdcc6f034efe2e0648dba3f3f24ce9ebc23d58a93e3e444238af40e70;
   0x7f5594e6b30e86a5eb78bd8c322f8db95b1afa5454002ee646ceb26e96aa2257;
   0xeac042e2c5e481571f1eaac376de518c4433d5fd007da78198768a389db9dc88;
   0x8d94fc5d2ebd4b17e7585fd666f2a1680883abfe8ef46fc729fa17babf790dda;
   0xa6bb53ffca7f5f1f5a16112059525edbe41b29b1994ab64c3f3facfd68c2695;
   0xc2138b72713b6a4df974572f04358546ba8d1f9f52cabb2d65e4174e6e4e82e4;
   0xcd79c7043811a751c1e592ea9da7d571ee6d355fdd2ac7c6e11a6a7ba66f5891;
   0x70fe08de7b200ece1206b577ea43ba04f13abe0024ba7087aa72f7342192fba6;
   0x4534e39c9d03692fc0037c8f338b1c0215f25e6470517bb138f4353e1eec1c2c;
   0x6d53aaf6a8cede2d1071d391bc475494e2a23620090db57964cb04a52fd02b0a;
   0xe817b1192283c9445fdf19af8e73896e751c28ef4692d2b7ae9ce1ee6d7a0a69;
   0x3130eb87dc64d1b27399cb6506109a944c84a5b33e3ed2a46e73f68d6adc1efd;
   0x94f571cbdd2f660048bf99d9e6b8f719f24d650cf0d2dcc91ed22394a1b71d26;
   0x974e5dbe7404fae4c6f09c7779bebcf381522934ff03631882fffecc9e73eb8b;
   0xfc21c8a3ca342f1227fb3266864650867b71c48c43e750fbc3ad214d0ebe2c07].

Definition generator_table : list (Z * Z) :=
  Eval vm_compute in default [] (doubles generator_slopes generator_pair).

Lemma generator_table_ok : doubles generator_slopes generator_pair = Some generator_table.
Proof. vm_cast_no_check (eq_refl (Some generator_table)). Qed.

(** A checked multiple of the generator. *)
Definition generator_times (ls : list Z) (k : positive) : option (Z * Z) :=
  match gather ls generator_table k None with
  | Some (x, y) => Some (x mod P, y mod P)
  | None => None
  end.

Lemma generator_multiple ls k p :
  generator_times ls k = Some p -> ec_eq (ec_mul (Zpos k) G) (at_point p).
Proof.
  unfold generator_times. destruct (gather ls generator_table k None) as [[x y]|] eqn:E; [|done].
  intros [= <-]. assert (ec_eq (at_point (x mod P, y mod P)) (at_point (x, y))) as ->
    by (split; cbn; by rewrite Zmod_eqm).
  replace (Zpos k) with (0 + 2 ^ 0 * Zpos k) by lia.
  refine (gather_sound G k ls generator_table None 0 0 (x, y) generator_on_curve _ _ _ _ E); [lia|lia|done|].
  refine (doubles_sound generator_slopes G generator_pair generator_table 0 generator_on_curve _ generator_table_ok _);
    [lia|reflexivity].
Qed.

(** The order is [2^256 + 2^192] less this number. *)
Definition order_gap : Z := 2 ^ 224 + 0x4319055258e8617b0c46353d039cdaaf.

Definition order_slopes : list Z := [0xa9a8e79757733cc04bdf48f5d6fd2174aa3801e3fd7b064b19047c63fde4c482].
Definition gap_slopes : list Z :=
  [0x28cdb0fe6681d140c59fb73f85f16459ca4cee083742bada762de4ca226a8086;
   0xba77e145a317c0f788ce2cf76a4904293ea165fa3fbcf912de8a37fe731b54f8;
   0x9e99ea5e6de2b5447ce98cd180a2878a5380e7255da30b1b2e09df04cdad3de9;
   0xe59835a5b43de3bb52f6e6c681a01ab1f152371b8a62950c2213010933edda66;
   0xcceffa05831bfa054db728d78ae4275d24b1cb7a50e11a6310c6591ccd56f787;
   0xc60572ae54d4c3b9ecd86a1cbbeb0e613a0aec958598c7b1aaee3e73624282b1;
   0xee60775305add3bc6a06519989aed69d9ca9e882287603d864deb2aad6f8e191;
   0x4d02b04d1f81e6df9b75bd7f56631adba7eb6d67207210046bbd7130b96555ad;
   0x3c93b0f2632e45cce66d9c3543778bf2019b2d92f009d3ba55742fe7df1754d4;
   0x117a1405af4d2b93a0b34d0cd88c045c236c95bc77a233bd9b090a31950b15e3;
   0x6052d7e087850939ba1a62d8fc565e0952eaa496f17401cf203bcbf5378a9bcd;
   0x9ad3da76348144cfbfb9d27227f3952316a4b1143f51fe61c5081d643125b53f;
   0x16661b70b868fe99afa2db476f6c258344f178365a7853f16d5c68a9ba746912;
   0x134c2c759c74d40fdf7f7801db89562f707aba050f9df6ddf379a2bdccb9cbd8;
   0x19d76ce716e7452a4582ebeb36cf6f86d8fcb6f8355737e47ccc15a699048d02;
   0xae76a884bb6cb1c055f55669a44bf60004f696706fdb68b2047d701be763704;
   0x508cf4b559aaadfcb006fb37e4464c26c7817b8c54da0947c7c6f1410fca6aeb;
   0x4a53d0bdb62b803bedf55cfa4faf21902b8c04a965d3ce7a95050d06ac610ba2;
   0x723eb19867711d5b62bb174bf472a7411b9c0e316060d07986492e6bbb31f1c9;
   0x8bd8a54c87222ca7e5cb7feb13c7eac5b4307b00934a1386026649d73a80b13e;
   0xf31f1ba0cbc5cb7e31be244fa5ede9d090fa54cbe80f3a364ac320257b5b4c77;
   0x6727ec4b55496c11bcdf97ec75115fcb5674e68a672a14a2512a4cfdd0b14037;
   0xd8d2e41c4253defc7e558e8a6bffc90160c3501cadc974783416456af0f453c8;
   0x12c269a079d38b6a1a2afc350b469c8f0cc24f08992063fb465eb4d997609a5f;
   0x65f55b3d94f2218126c92967d640a1a063b915c251bafdd20967b3d73d319994;
   0xe9ae777b38b5cdcdadade19dc0bbc540ddd8a9746e20b125f2d690dfb0eae550;
   0x2c822a59d4b696a7437f1f0a552262e864dbccfe13f3f126b44217344178e9f7;
   0x6b378b048157786340060e4b27ec83728de0d0107d148ea066f8f2e48996a39;
   0xf6f4971b7541b81c7ffd579d17b7f21f43d468f1d72a067f0735dc056a02a54c;
   0x692e27b235bda0742b6aa75464856b56ffee5ec6d622c275498aaf8dc3fd8c06;
   0x36df50ae64b3d3f7204167a7a9d099a5ca82f937b7fe1de8ff7332f5266173d0;
   0xd54b1aa6f4ac23252930e4b553c94a43fb33669eaa86251692f8667860c5c5f3;
   0x2edf3e7d5e4b9fac2f3ec841b1868077a2f19c49a7bcb46db2befe2a1dd3ca2e;
   0xc0ed1add1a5d9a8b4d14b8c9fd78e99a69bd0f9a95637d15704cdc8e0f2e3ce7;
   0x39503530544d24a6585f98844d7b9d59ca6b188e5eeff5dd94d5478aaebeca18;
   0x12e495dca2095270fb208a9a85b33f0f5fb34d1f2bdbbc5324f280c3aec6e015;
   0xd2db33b6de79d4b8c0fa2f3b8ac24dfb6f62f65cd409f06f48a05623f450b2e3;
   0xa86efcd17f4fcf4d9f13d4280fffbf4e41a4a91367599d4c7b1d51e61033faa6;
   0xb616579a52993450415c82e6ce7190502f3334e66d47719c099f60f892cd5b0c;
   0xe860fa45c6064a908d9ed1fa9071a6af1a2b3fdad9046bcfcbb4d0c78518b6e1;
   0xf531b516ab81cd8884ddba6e13bb1ca7a299ccaa10191d738f89686db1116134;
   0xe18b934fccb785d92e6aa5c4afc92a720bb17c6abcf67e620c299c580aa9ee2d;
   0xb4c0170b8decae2508cf95252fd96b9bbaa67341aab9d3f9c5d471c9e5855a2d;
   0x3f2d82aeaef7f50e98c9c6a7831eefe5e6d5ea1213d8df54915df5ebc24137a7;
   0xb557354e632190c692c2462467fd404fdecde771fcc4a66b12a7a6fe2ef78f41;
   0x6005b30757aaad3f104e2d863da655dbb95e794fa5e05443b83a4e7603366222;
   0x2df3b67d2be68e63d5863410d06abe08771013f673821a9b5165861326cc53a7;
   0x8eb3d07fa47d673a81585ab6dab96b3cace1e998a2c95088dcc9b9efae45248e;
   0x8ebf5b1dffb8e2757490cf70bd58ae0100e60b33359335d45c2a9640182be386;
   0xd4317353cd3b090fd16ee235422034b56cb70c76427fe1baadbd35991f3378b9;
   0x5db8d8764dfb38ec84f940853eb067ffbcb3d548962a41bc14220bfcd23aa938;
   0x9297918d1eca8416562bac045163446dea3d5136d5f9130057b9a2a16d35dd56;
   0x253b9326271258f6842300743259e931914a6bbe0cd3fdd2e5901c38508abf9f;
   0x5435ad603f2df9f64220262ee05bc883c5982ce698f69cd9f74398388f6ec9ab;
   0xe43bc61690dd99e25393e4ed36007741f439c2e1e88b4974a488b2a339556187;
   0xff138572dfd0cd00d1ade26ba3a04e9b463f2d2daa6a978f78fbf8df057abd13;
   0xd3476dbf4507d1b5e8153406ba69a7e0c213b4498d05d1eab8954204b23a5eda;
   0x38fb0fbe660f6bd63f3e772f8f40b19cdec628823383c1dddfe961f7399fa2c5].

Definition order_point : Z * Z :=
  Eval vm_compute in default (0, 0) (generator_times gap_slopes (Z.to_pos order_gap)).

Lemma order_multiples :
  ec_eq (ec_mul (2 ^ 256 + 2 ^ 192) G) (at_point order_point) /\ ec_eq (ec_mul order_gap G) (at_point order_point).
Proof.
  split.
  - apply (generator_multiple order_slopes (2 ^ 256 + 2 ^ 192)%positive). vm_cast_no_check (eq_refl (Some order_point)).
  - apply (generator_multiple gap_slopes (Z.to_pos order_gap)). vm_cast_no_check (eq_refl (Some order_point)).
Qed.

(** ** The order *)

Lemma cancel_sum a c : on_curve a -> on_curve c -> ec_eq (ec_add a c) c -> a = Infinity.
Proof.
  intros Ha Hc E. assert (ec_eq a Infinity) as E'; [|by destruct a].
  assert (ec_eq (ec_add (ec_add a c) (ec_opp c)) (ec_add c (ec_opp c))) as H
    by (apply ec_add_proper; auto with curve; reflexivity).
  rewrite ec_add_assoc, (ec_add_opp c) in H by auto with curve. by rewrite ec_add_0_r in H.
Qed.

Lemma times_on_curve k : on_curve (ec_mul k G).
Proof. exact (ec_mul_on_curve k G generator_on_curve). Qed.

#[local] Opaque ec_mul ec_add G.

Lemma order_split : 1 < N /\ 0 <= order_gap /\ N + order_gap = 2 ^ 256 + 2 ^ 192.
Proof. split_and!; vm_compute; done. Qed.

Lemma order_infinity : ec_mul N G = Infinity.
Proof.
  destruct order_multiples as [H1 H2]. destruct order_split as (H3 & H4 & H5).
  refine (cancel_sum _ (ec_mul order_gap G) (times_on_curve _) (times_on_curve _) _).
  rewrite <- (ec_mul_add N order_gap G generator_on_curve) by lia. rewrite H5.
  etransitivity; [exact H1|]. symmetry. exact H2.
Qed.

Lemma ec_mul_proper k a a' : on_curve a -> ec_eq a a' -> ec_eq (ec_mul k a) (ec_mul k a').
Proof.
  intros Ha E. assert (on_curve a') as Ha' by (by rewrite <- E).
  destruct (Z_le_gt_dec 0 k) as [Hk|Hk]; [|by destruct k]. revert k Hk. apply natlike_ind; [reflexivity|].
  intros k Hk IH. unfold Z.succ. rewrite !ec_mul_succ by done. by apply ec_add_proper; auto with curve.
Qed.

Lemma ec_mul_infinity k : ec_eq (ec_mul k Infinity) Infinity.
Proof.
  destruct (Z_le_gt_dec 0 k) as [Hk|Hk]; [|by destruct k]. revert k Hk. apply natlike_ind; [done|].
  intros k Hk IH. unfold Z.succ. rewrite ec_mul_succ by done. by rewrite ec_add_0_r.
Qed.

Lemma order_multiple q : 0 <= q -> ec_eq (ec_mul (q * N) G) Infinity.
Proof.
  intros Hq. destruct order_split as (H3 & _). rewrite (ec_mul_mul q N G generator_on_curve), order_infinity by lia.
  apply ec_mul_infinity.
Qed.

Lemma ec_mul_mod k : 0 <= k -> ec_eq (ec_mul (k mod N) G) (ec_mul k G).
Proof.
  intros Hk. destruct order_split as (H3 & _).
  pose proof (Z.div_pos k N Hk ltac:(lia)) as Hq. pose proof (Z.mod_pos_bound k N ltac:(lia)).
  rewrite (Z.div_mod k N) at 2 by lia. rewrite (Z.mul_comm N).
  rewrite (ec_mul_add _ _ G generator_on_curve) by nia. symmetry.
  etransitivity; [exact (add_cong_l _ _ _ (times_on_curve _) (times_on_curve _) (order_multiple _ Hq))|]. reflexivity.
Qed.

(** No smaller multiple of the generator vanishes. *)
Lemma ec_mul_nonzero k : 0 < k < N -> ec_mul k G <> Infinity.
Proof.
  intros Hk E. destruct order_split as (H3 & _).
  pose proof (inverse_spec N k prime_order ltac:(rewrite Z.mod_small; lia)) as Hi.
  set (j := inverse N k mod N). assert (0 <= j) as Hj by (apply Z.mod_pos_bound; lia).
  pose proof (ec_mul_mod (j * k) ltac:(nia)) as H.
  rewrite (ec_mul_mul j k G generator_on_curve), E, ec_mul_infinity in H by lia.
  assert ((j * k) mod N = 1) as E1.
  { unfold j. rewrite Z.mul_mod_idemp_l, Z.mul_comm by lia. unfold eqm in Hi. rewrite Hi. apply Z.mod_small. lia. }
  rewrite E1 in H. exact H.
Qed.

(** The scalar [N - k] gives the opposite point. *)
Lemma ec_mul_complement k : 0 <= k <= N -> ec_eq (ec_mul (N - k) G) (ec_opp (ec_mul k G)).
Proof.
  intros Hk. pose proof (times_on_curve (N - k)) as H1. pose proof (times_on_curve k) as H2.
  pose proof (ec_opp_on_curve _ H2) as H3.
  pose proof (ec_mul_add (N - k) k G generator_on_curve ltac:(lia) ltac:(lia)) as E.
  replace (N - k + k) with N in E by ring. rewrite order_infinity in E.
  pose proof (add_cong_l _ _ _ (I : on_curve Infinity) H3 E) as E'.
  rewrite (ec_add_assoc _ _ _ H1 H2 H3), (ec_add_opp _ H2), ec_add_0_r in E'.
  symmetry. exact E'.
Qed.
