(* ===== verification/Ecdsa.v ===== *)
(** * Signatures, keys and key derivation

    HMAC (RFC 2104), HKDF (RFC 5869), deterministic nonces (RFC 6979) and ECDSA
    over the group of [P256Group], and the theorems that the code of [P256]
    computes them; that what a derived key signs is accepted follows from the
    group laws and the order of the generator. *)

From S2P Require Import Prelude Primality Sha ShaProps P256Field P256 P256Props P256Group P256Order.
From stdpp Require Import base tactics numbers list strings.
From Stdlib Require Import ZArith Znumtheory Zdiv Lia.

Open Scope Z_scope.

(** ** HMAC and HKDF *)

Definition HMAC (key message : bytes) : bytes :=
  let key := if 64 <? zlen key then Fips.SHA256 key else key in
  let key := key ++ zeros (64 - zlen key) in
  Fips.SHA256 (map (fun x => Z.lxor x 0x5c) key ++ Fips.SHA256 (map (fun x => Z.lxor x 0x36) key ++ message)).

(** [T (1) ++ ... ++ T (n)] of RFC 5869, from [T (i)]. *)
Fixpoint hkdf_blocks (n : nat) (prk info previous : bytes) (i : Z) : bytes :=
  match n with
  | O => []
  | S n => let t := HMAC prk (previous ++ info ++ [i]) in t ++ hkdf_blocks n prk info t (i + 1)
  end.
Definition HKDF (salt ikm info : bytes) (len : Z) : bytes :=
  ztake len (hkdf_blocks (Z.to_nat ((len + 31) / 32)) (HMAC salt ikm) info [] 1).

Lemma sha256_ok {E} m : sha256 (E := E) m = Ok (Fips.SHA256 m).
Proof. pose proof (streamed256 (E := E) [m]) as H. cbn [concat] in H. by rewrite app_nil_r in H. Qed.

Lemma zlen_SHA256 m : zlen (Fips.SHA256 m) = 32.
Proof. by refine (zlen_digest Fips.compress256 words8 64 8 4 _ _ 8 _). Qed.

Lemma zlen_HMAC key m : zlen (HMAC key m) = 32.
Proof. apply zlen_SHA256. Qed.

Lemma is_bytes_SHA256 m : is_bytes (Fips.SHA256 m).
Proof.
  unfold Fips.SHA256, Fips.digest. generalize (words8 (Fips.process Fips.compress256 64 Sha256.initial (Fips.pad 64 8 m))).
  intros l. induction l as [|x l IH]; [constructor|]. cbn [map concat]. apply Forall_app_2; [apply is_bytes_be_bytes|done].
Qed.

Lemma is_bytes_HMAC key m : is_bytes (HMAC key m).
Proof. apply is_bytes_SHA256. Qed.

Lemma foldl_app_concat {A} (l : list (list A)) : forall acc, foldl (fun acc x => acc ++ x) acc l = acc ++ concat l.
Proof. induction l as [|x l IH]; intros acc; cbn; [by rewrite app_nil_r|]. by rewrite IH, app_assoc. Qed.

Lemma hmac_ok {E} key parts : hmac_sha256_parts (E := E) key parts = Ok (HMAC key (concat parts)).
Proof.
  unfold hmac_sha256_parts, HMAC, SHA256_BLOCK_BYTES. pose proof (zlen_nonneg key).
  assert (forall k, zlen k <= 64 -> copy_at (E := E) (zeros 64) 0 k = Ok (k ++ zeros (64 - zlen k))) as Hc.
  { intros k Hk. pose proof (zlen_nonneg k). rewrite (copy_at_prefix [] (zeros 64) k 0 eq_refl) by (rewrite zlen_zeros; lia). cbn [app]. do 2 f_equal.
    unfold zeros, zdrop. rewrite drop_replicate. f_equal. lia. }
  destruct (64 <? zlen key) eqn:T; bools.
  - rewrite sha256_ok. cbn [res_bind]. rewrite Hc by (rewrite zlen_SHA256; lia). cbn [res_bind].
    rewrite sha256_ok, foldl_app_concat. cbn [res_bind]. by rewrite sha256_ok.
  - rewrite Hc by done. cbn [res_bind]. rewrite sha256_ok, foldl_app_concat. cbn [res_bind]. by rewrite sha256_ok.
Qed.

Lemma hkdf_loop_ok {E} prk info len : forall fuel previous produced c,
  (Z.to_nat (len - zlen produced) < fuel)%nat -> 0 <= len -> 1 <= c -> (len - zlen produced + 31) / 32 + c <= 256 ->
  zlen produced <= len ->
  let prev := if c =? 1 then [] else previous in
  hkdf_loop (E := E) fuel prk info previous produced len (wrap 8 c) =
  Ok (produced ++ ztake (len - zlen produced) (hkdf_blocks (Z.to_nat ((len - zlen produced + 31) / 32)) prk info prev c)).
Proof.
  induction fuel as [|fuel IH]; intros previous produced c Hf Hl Hc Hb Hp prev; [lia|]. cbn [hkdf_loop].
  pose proof (zlen_nonneg produced) as Np. destruct (zlen produced <? len) eqn:T; bools.
  - assert ((len - zlen produced + 31) / 32 = (len - zlen produced - 1) / 32 + 1) as Eq.
    { replace (len - zlen produced + 31) with (len - zlen produced - 1 + 1 * 32) by lia. by rewrite Z.div_add by lia. }
    pose proof (Z.div_pos (len - zlen produced - 1) 32 ltac:(lia) ltac:(lia)) as Nq.
    rewrite (wrap_small 8 c) by (unfold in_range; lia).
    assert ((if c =? 1 then hmac_sha256_parts (E := E) prk [info; [c]] else hmac_sha256_parts prk [previous; info; [c]]) =
      Ok (HMAC prk (prev ++ info ++ [c]))) as ->.
    { unfold prev. destruct (c =? 1); rewrite hmac_ok; cbn [concat]; rewrite ?app_nil_r; done. }
    cbn [res_bind]. set (t := HMAC prk (prev ++ info ++ [c])). assert (zlen t = 32) as Lt by apply zlen_HMAC.
    rewrite Lt. set (take := Z.min 32 (len - zlen produced)). rewrite slice_ok by lia. cbn [res_bind]. rewrite zdrop_0, Z.sub_0_r.
    assert (zlen (ztake take t) = take) as Lk by (rewrite zlen_ztake; lia).
    unfold wrapping_add.
    assert ((len - zlen (produced ++ ztake take t) + 31) / 32 = (len - zlen produced - 1) / 32) as Eq'.
    { rewrite zlen_app, Lk. unfold take. destruct (decide (32 <= len - zlen produced)).
      - f_equal. lia.
      - rewrite Z.min_r by lia. rewrite (Z.div_small (len - zlen produced - 1)) by lia. by replace (len - (zlen produced + (len - zlen produced)) + 31) with 31 by lia. }
    rewrite IH; [|rewrite zlen_app, Lk; lia|lia|lia|rewrite Eq'; lia|rewrite zlen_app, Lk; lia].
    rewrite (proj2 (Z.eqb_neq (c + 1) 1)) by lia. rewrite Eq', Eq, Z2Nat.inj_add by lia.
    change (Z.to_nat 1) with 1%nat. rewrite Nat.add_1_r.
    cbn [hkdf_blocks]. fold t. f_equal. rewrite <- app_assoc. f_equal. rewrite zlen_app, Lk. unfold take.
    destruct (decide (32 <= len - zlen produced)).
    + rewrite Z.min_l by lia. rewrite (ztake_all 32 t), (ztake_app_ge _ t) by lia. f_equal. f_equal. lia.
    + rewrite Z.min_r by lia. rewrite (ztake_app_le _ t) by lia. replace (len - (zlen produced + (len - zlen produced))) with 0 by lia.
      unfold ztake at 2. cbn. by rewrite app_nil_r.
  - replace (len - zlen produced) with 0 by lia. unfold ztake. cbn [Z.to_nat take]. by rewrite app_nil_r.
Qed.

(** The code computes HMAC of RFC 2104 on the concatenated parts and, for
    every output of up to 255 blocks, HKDF of RFC 5869; neither panics. *)
Theorem hmac_hkdf_exact {E} (key : bytes) (parts : list bytes) (salt ikm info : bytes) (len : Z) :
  0 <= len <= 255 * 32 ->
  hmac_sha256_parts (E := E) key parts = Ok (HMAC key (concat parts)) /\
  hkdf_sha256 (E := E) salt ikm info len = Ok (HKDF salt ikm info len).
Proof.
  intros Hl. split; [apply hmac_ok|]. unfold hkdf_sha256, hmac_sha256, HKDF. rewrite hmac_ok. cbn [res_bind concat]. rewrite app_nil_r.
  change 1 with (wrap 8 1) at 1.
  rewrite hkdf_loop_ok; change (zlen (@nil Z)) with 0; rewrite ?Z.sub_0_r; [done|lia|lia|lia| |lia].
  assert ((len + 31) / 32 < 256) by (apply Z.div_lt_upper_bound; lia). lia.
Qed.

(** ** ECDSA *)

#[local] Notation P := P256_P.
#[local] Notation N := P256_N.
#[local] Notation f := (field curve).
#[local] Notation sc := (scalar curve).

Definition in_order (v : Z) : bool := (0 <? v) && (v <? N).

Definition ecdsa_verify (Q : ecpoint) (e r s : Z) : bool :=
  in_order r && in_order s &&
  match ec_add (ec_mul ((e * inverse N s) mod N) G) (ec_mul ((r * inverse N s) mod N) Q) with
  | Infinity => false
  | Affine x _ => (x mod P) mod N =? r
  end.

Definition ecdsa_sign (d e k : Z) : option (Z * Z) :=
  match ec_mul k G with
  | Infinity => None
  | Affine x _ =>
      let r := (x mod P) mod N in
      let s := (inverse N k * (e + r * d)) mod N in
      if (r =? 0) || (s =? 0) then None else Some (r, s)
  end.

Lemma order_facts : 2 < N < R /\ R < 2 * N /\ P < 2 * N /\ P < R.
Proof. split_and!; vm_compute; reflexivity. Qed.

Lemma in_order_code x : u256 x -> negb (is_zero x) && negb (u256_ge x (m sc)) = in_order (val x).
Proof.
  intros Hx. pose proof (u256_bound _ Hx). rewrite is_zero_spec, ge_spec, sc_val by (done || apply sc_ok). unfold in_order.
  destruct (Z.eqb_spec (val x) 0), (Z.leb_spec N (val x)), (Z.ltb_spec 0 (val x)), (Z.ltb_spec (val x) N); cbn; done || lia.
Qed.

Lemma reduce_order x : u256 x -> u256 (reduce_once sc x) /\ val (reduce_once sc x) = val x mod N.
Proof.
  intros Hx. pose proof (u256_bound _ Hx). pose proof order_facts. rewrite <- sc_val. apply reduce_once_val; [apply sc_ok|done|].
  rewrite sc_val. lia.
Qed.

(** [reduce_once] of an affine coordinate. *)
Lemma reduce_coordinate x v : stands f v x ->
  u256 (reduce_once sc (from_mont f x)) /\ val (reduce_once sc (from_mont f x)) = (v mod P) mod N.
Proof.
  intros Hx. destruct (from_mont_val f f_ok v x Hx) as [Hu Hv]. rewrite f_val in Hv.
  destruct (reduce_order _ Hu) as [H1 H2]. split; [exact H1|]. rewrite H2, Hv. reflexivity.
Qed.

(** The verdict depends on the point up to representatives. *)
Lemma coordinate_eq a c (r : Z) :
  ec_eq a c ->
  match a with Infinity => false | Affine x _ => (x mod P) mod N =? r end =
  match c with Infinity => false | Affine x _ => (x mod P) mod N =? r end.
Proof. destruct a, c; try done. intros [E _]. unfold eqm in E. by rewrite E. Qed.

Lemma verify_refines p Q digest signature :
  denotes p Q -> on_curve Q -> is_bytes digest -> zlen digest = 32 -> is_bytes signature -> zlen signature = 64 ->
  verify_point p digest signature =
  ecdsa_verify Q (be_val digest mod N) (be_val (ztake 32 signature)) (be_val (zdrop 32 signature)).
Proof.
  intros Hp Hc Hd Ld Hs Ls. unfold verify_point. cbv zeta. change P256_ELEMENT_BYTES with 32.
  destruct (from_be_bytes_spec (ztake 32 signature)) as [R1 R2]; [by apply is_bytes_ztake|rewrite zlen_ztake; lia|].
  destruct (from_be_bytes_spec (zdrop 32 signature)) as [S1 S2]; [by apply is_bytes_zdrop|rewrite zlen_zdrop; lia|].
  destruct (from_be_bytes_spec digest Hd Ld) as [D1 D2]. destruct (reduce_order _ D1) as [E1 E2]. rewrite D2 in E2.
  set (r := from_be_bytes (ztake 32 signature)) in *. set (s := from_be_bytes (zdrop 32 signature)) in *. set (e := reduce_once sc _) in *.
  rewrite <- R2, <- S2, <- E2. clearbody r s e. clear R2 S2 E2 D1 D2.
  unfold ecdsa_verify. rewrite <- (in_order_code r R1), <- (in_order_code s S1).
  assert (is_zero r || is_zero s || u256_ge r (m sc) || u256_ge s (m sc) =
    negb ((negb (is_zero r) && negb (u256_ge r (m sc))) && (negb (is_zero s) && negb (u256_ge s (m sc))))) as ->
    by (by destruct (is_zero r), (is_zero s), (u256_ge r (m sc)), (u256_ge s (m sc))).
  destruct (_ && _) eqn:Hord; cbn [negb andb]; [|done].
  pose proof (stands_inverse _ _ _ _ scalar_prime (sc_to_mont _ S1)) as Sinv.
  pose proof (stands_mul sc sc_ok _ _ _ _ (sc_to_mont _ E1) Sinv) as Su1. pose proof (stands_mul sc sc_ok _ _ _ _ (sc_to_mont _ R1) Sinv) as Su2.
  destruct (from_mont_val sc sc_ok _ _ Su1) as [U1 V1]. destruct (from_mont_val sc sc_ok _ _ Su2) as [U2 V2]. rewrite sc_val in V1, V2.
  set (u1 := from_mont sc _) in *. set (u2 := from_mont sc (mont_mul sc (to_mont sc r) _)) in *. clearbody u1 u2. rewrite <- V1, <- V2.
  pose proof (to_affine_refines _ _ (mul_sum_refines p G Q u1 u2 generator_denotes Hp U1 U2)) as Ha.
  rewrite <- (coordinate_eq (ec_mul_both 256 (val u1) (val u2) G Q));
    [|exact (ec_mul_both_sum 256 G Q _ _ generator_on_curve Hc (u256_bound _ U1) (u256_bound _ U2))].
  destruct (ec_mul_both 256 (val u1) (val u2) G Q) as [|x y]; [by rewrite Ha|]. destruct Ha as (x' & y' & -> & Hx & _).
  destruct (reduce_coordinate _ _ Hx) as [C1 C2]. rewrite <- C2. unfold u256_eqb. apply Bool.eq_iff_eq_true.
  rewrite bool_decide_eq_true, Z.eqb_eq. split; [by intros ->|]. intros E. by apply u256_inj.
Qed.

Lemma sign_with_refines d e k :
  u256 d -> u256 e -> u256 k -> 0 < val k ->
  match sign_with d e k with
  | Some (r, s) => u256 r /\ u256 s /\ ecdsa_sign (val d) (val e) (val k) = Some (val r, val s)
  | None => ecdsa_sign (val d) (val e) (val k) = None
  end.
Proof.
  intros Hd He Hk Hpos. unfold sign_with, ecdsa_sign. cbv zeta. rewrite is_zero_spec, (proj2 (Z.eqb_neq _ _)) by (done || lia).
  pose proof (to_affine_refines _ _ (mul_refines _ _ k generator_denotes Hk)) as Ha.
  destruct (ec_mul (val k) G) as [|x y]; [by rewrite Ha|]. destruct Ha as (x' & y' & -> & Hx & _).
  destruct (reduce_coordinate _ _ Hx) as [C1 C2]. rewrite <- C2. set (r := reduce_once sc (from_mont f x')) in *. clearbody r.
  rewrite (is_zero_spec r C1). destruct (Z.eqb_spec (val r) 0); cbn [orb]; [done|].
  pose proof (stands_inverse _ _ _ _ scalar_prime (sc_to_mont _ Hk)) as Sinv.
  pose proof (stands_mul sc sc_ok _ _ _ _ (sc_to_mont _ C1) (sc_to_mont _ Hd)) as Srd.
  pose proof (stands_mul sc sc_ok _ _ _ _ Sinv (stands_add sc sc_ok _ _ _ _ (sc_to_mont _ He) Srd)) as Ss.
  destruct (from_mont_val sc sc_ok _ _ Ss) as [U V]. rewrite sc_val in V. set (s := from_mont sc _) in *. clearbody s. rewrite <- V.
  rewrite (is_zero_spec s U). by destruct (val s =? 0).
Qed.

Lemma in_order_true v : in_order v = true -> 0 < v < N.
Proof. unfold in_order. rewrite andb_true_iff. intros [? ?]. bools. lia. Qed.

Lemma ecdsa_sign_equation d e k r s :
  in_order k = true -> ecdsa_sign d e k = Some (r, s) ->
  in_order r = true /\ in_order s = true /\ eqm N (s * k) (e + r * d).
Proof.
  intros Hk%in_order_true. unfold ecdsa_sign. destruct (ec_mul k G) as [|x y]; [done|]. cbv zeta.
  pose proof order_facts as (B & _). pose proof (Z.mod_pos_bound (x mod P) N ltac:(lia)) as Br. set (r' := (x mod P) mod N) in *. clearbody r'.
  set (t := inverse N k * (e + r' * d)) in *. pose proof (Z.mod_pos_bound t N ltac:(lia)) as Bs.
  destruct (Z.eqb_spec r' 0), (Z.eqb_spec (t mod N) 0); cbn [orb]; try done. intros [= <- <-]. unfold in_order.
  split_and!; [by rewrite !(proj2 (Z.ltb_lt _ _)) by lia..|].
  rewrite Zmod_eqm. unfold t. transitivity (k * inverse N k * (e + r' * d)).
  - assert (inverse N k * (e + r' * d) * k = k * inverse N k * (e + r' * d)) as -> by ring. reflexivity.
  - rewrite inverse_spec; [by rewrite Z.mul_1_l|apply prime_order|]. rewrite Z.mod_small; lia.
Qed.

#[local] Opaque HMAC ec_mul ec_add G.

(** *** Deterministic nonces (RFC 6979, section 3.2) *)

(** Steps b to g: the pair [K], [V] before the first candidate. *)
Definition nonce_seed (d : Z) (digest : bytes) : bytes * bytes :=
  let secret := be_bytes 32 d ++ be_bytes 32 (be_val digest mod N) in
  let V := replicate 32 0x01 in
  let K := replicate 32 0x00 in
  let K := HMAC K (V ++ [0x00] ++ secret) in
  let V := HMAC K V in
  let K := HMAC K (V ++ [0x01] ++ secret) in
  (K, HMAC K V).

(** Step h: the pair before the candidate of number [i], counted from 0. *)
Fixpoint nonce_state (i : nat) (d : Z) (digest : bytes) : bytes * bytes :=
  match i with
  | O => nonce_seed d digest
  | S i =>
      let '(K, V) := nonce_state i d digest in
      let V := HMAC K V in
      let K := HMAC K (V ++ [0x00]) in
      (K, HMAC K V)
  end.

Definition nonce (i : nat) (d : Z) (digest : bytes) : Z :=
  let '(K, V) := nonce_state i d digest in be_val (HMAC K V).

(** The signature with the candidate of number [i], where it is usable. *)
Definition attempt (d : Z) (digest : bytes) (i : nat) : option (Z * Z) :=
  if in_order (nonce i d digest) then ecdsa_sign d (be_val digest mod N) (nonce i d digest) else None.

Definition first_attempt (d : Z) (digest : bytes) (i : nat) (r s : Z) : Prop :=
  attempt d digest i = Some (r, s) /\ forall j, (j < i)%nat -> attempt d digest j = None.

(** Where the generator stands: [i] candidates have been drawn. *)
Definition drawn (i : nat) (d : Z) (digest : bytes) (n : Rfc6979Nonces) : Prop :=
  match i with
  | O => started n = false /\ (nonce_k n, nonce_v n) = nonce_seed d digest
  | S i => started n = true /\
           let '(K, V) := nonce_state i d digest in nonce_k n = K /\ nonce_v n = HMAC K V
  end.

Lemma nonces_new_ok key digest :
  u256 key -> is_bytes digest -> zlen digest = 32 ->
  exists n, nonces_new (to_be_bytes key) digest = Ok n /\ drawn 0 (val key) digest n.
Proof.
  intros Hk Hb Hl. destruct (from_be_bytes_spec digest Hb Hl) as [D1 D2].
  destruct (reduce_order _ D1) as [E1 E2]. rewrite D2 in E2.
  unfold nonces_new, hmac_sha256. rewrite !to_be_bytes_spec, E2 by done.
  do 4 (rewrite hmac_ok; cbn [res_bind]). eexists. split; [reflexivity|].
  cbn [drawn started nonce_k nonce_v]. split; [done|]. unfold nonce_seed. cbn [concat]. by rewrite !app_nil_r.
Qed.

(** One turn of [next_candidate] draws the next candidate. *)
Lemma draw_ok i d digest n :
  drawn i d digest n ->
  exists n', drawn (S i) d digest n' /\ u256 (from_be_bytes (nonce_v n')) /\
    val (from_be_bytes (nonce_v n')) = nonce i d digest /\
    forall fuel, next_candidate (S fuel) n =
      if in_order (nonce i d digest) then Ok (n', from_be_bytes (nonce_v n')) else next_candidate fuel n'.
Proof.
  intros Hn. cbn [next_candidate].
  assert (exists K V, nonce_state i d digest = (K, V) /\
    (if started n then
       let? k := hmac_sha256_parts (nonce_k n) [nonce_v n; [0x00]] in
       let? v := hmac_sha256 k (nonce_v n) in
       Ok (n <| nonce_k := k |> <| nonce_v := v |>)
     else Ok n) = (Ok {| nonce_k := K; nonce_v := V; started := started n |} : res Stalled Rfc6979Nonces)) as (K & V & Es & ->).
  { destruct i as [|i]; cbn [drawn nonce_state] in *.
    - destruct Hn as [Hs Hn]. rewrite Hs. destruct n as [k v st]. cbn in *. subst st.
      exists k, v. split; [by symmetry|done].
    - destruct Hn as [Hs Hn]. rewrite Hs. destruct (nonce_state i d digest) as [K V]. destruct Hn as [Hk Hv].
      unfold hmac_sha256. rewrite hmac_ok. cbn [res_bind]. rewrite hmac_ok. cbn [res_bind concat].
      rewrite Hk, Hv, !app_nil_r. do 2 eexists. split; [reflexivity|]. destruct n as [k v st].
      cbn [nonce_k nonce_v started] in *. subst. reflexivity. }
  cbn [res_bind]. unfold hmac_sha256. rewrite hmac_ok. cbn [res_bind nonce_k nonce_v started concat]. rewrite app_nil_r.
  destruct (from_be_bytes_spec (HMAC K V)) as [C1 C2]; [apply is_bytes_HMAC|apply zlen_HMAC|].
  exists {| nonce_k := K; nonce_v := HMAC K V; started := true |}.
  split; [cbn [drawn started nonce_k nonce_v]; by rewrite Es|].
  unfold nonce. cbn [nonce_v]. rewrite Es. split_and!; [exact C1|exact C2|]. intros fuel. rewrite <- C2, <- (in_order_code _ C1). reflexivity.
Qed.

Lemma next_candidate_spec d digest fuel : forall i n,
  drawn i d digest n ->
  match next_candidate fuel n with
  | Ok (n', k) => exists j, (i <= j)%nat /\ drawn (S j) d digest n' /\ u256 k /\ val k = nonce j d digest /\
      in_order (nonce j d digest) = true /\
      forall t, (i <= t < j)%nat -> in_order (nonce t d digest) = false
  | Err OutOfTurns => forall t, (i <= t < i + fuel)%nat -> in_order (nonce t d digest) = false
  | Panic => False
  end.
Proof.
  induction fuel as [|fuel IH]; intros i n Hn; [cbn; intros; lia|].
  destruct (draw_ok _ _ _ _ Hn) as (n' & Hn' & Hu & Hv & ->).
  destruct (in_order (nonce i d digest)) eqn:Ho.
  { exists i. split_and!; try done. intros; lia. }
  specialize (IH (S i) n' Hn'). destruct (next_candidate fuel n') as [[n2 k]|[]|]; [| |done].
  - destruct IH as (j & Hj & Hd & Hu' & Hv' & Ho' & Hb). exists j. split_and!; try done; [lia|].
    intros t Ht. destruct (decide (t = i)) as [->|]; [done|]. apply Hb. lia.
  - intros t Ht. destruct (decide (t = i)) as [->|]; [done|]. apply IH. lia.
Qed.

Lemma sign_loop_spec d e digest fuel : forall i n,
  u256 d -> u256 e -> val e = be_val digest mod N -> drawn i (val d) digest n ->
  match sign_loop fuel d e n with
  | Ok sig => exists j r s, (i <= j)%nat /\ attempt (val d) digest j = Some (r, s) /\
      sig = be_bytes 32 r ++ be_bytes 32 s /\
      forall t, (i <= t < j)%nat -> attempt (val d) digest t = None
  | Err OutOfTurns => forall t, (i <= t < i + fuel)%nat -> attempt (val d) digest t = None
  | Panic => False
  end.
Proof.
  induction fuel as [|fuel IH]; intros i n Hd He Ee Hn; [cbn; intros; lia|].
  unfold sign_loop; fold sign_loop.
  pose proof (next_candidate_spec _ _ (S fuel) _ _ Hn) as Hc.
  destruct (next_candidate (S fuel) n) as [[n' k]|[]|]; cbn [res_bind]; [| |done].
  2:{ intros t Ht. unfold attempt. by rewrite Hc. }
  destruct Hc as (j & Hj & Hn' & Hu & Hv & Ho & Hb).
  assert (forall t, (i <= t < j)%nat -> attempt (val d) digest t = None) as Hnone
    by (intros t Ht; unfold attempt; by rewrite Hb).
  pose proof (in_order_true _ Ho) as Hpos. rewrite <- Hv in Hpos.
  pose proof (sign_with_refines d e k Hd He Hu ltac:(lia)) as Hs. rewrite Hv, Ee in Hs.
  destruct (sign_with d e k) as [[r s]|].
  - destruct Hs as (Hr & Hs & Es). exists j, (val r), (val s). split_and!; [done| |by rewrite !to_be_bytes_spec|done].
    unfold attempt. by rewrite Ho.
  - assert (attempt (val d) digest j = None) as Hj' by (unfold attempt; by rewrite Ho).
    specialize (IH (S j) n' Hd He Ee Hn'). destruct (sign_loop fuel d e n') as [sig|[]|]; [| |done].
    + destruct IH as (j' & r & s & Hjj & Ha & Hsig & Hbelow). exists j', r, s. split_and!; try done; [lia|].
      intros t Ht. destruct (decide (t < j)%nat); [apply Hnone; lia|].
      destruct (decide (t = j)) as [->|]; [done|]. apply Hbelow. lia.
    + intros t Ht. destruct (decide (t < j)%nat); [apply Hnone; lia|].
      destruct (decide (t = j)) as [->|]; [done|]. apply IH. lia.
Qed.

Lemma sign_refines fuel key digest :
  u256 (key_scalar key) -> is_bytes digest -> zlen digest = 32 ->
  match sign_digest fuel key digest with
  | Ok sig => exists i r s, first_attempt (val (key_scalar key)) digest i r s /\
      sig = be_bytes 32 r ++ be_bytes 32 s
  | Err OutOfTurns => forall i, (i < fuel)%nat -> attempt (val (key_scalar key)) digest i = None
  | Panic => False
  end.
Proof.
  intros Hd Hb Hl. destruct (from_be_bytes_spec digest Hb Hl) as [D1 D2].
  destruct (reduce_order _ D1) as [E1 E2]. rewrite D2 in E2. unfold sign_digest.
  destruct (nonces_new_ok _ _ Hd Hb Hl) as (n & -> & Hn). cbn [res_bind].
  pose proof (sign_loop_spec _ _ _ fuel _ _ Hd E1 E2 Hn) as H.
  destruct (sign_loop fuel _ _ n) as [sig|[]|]; [| |done].
  - destruct H as (j & r & s & _ & Ha & -> & Hbelow). exists j, r, s. split; [|done]. split; [done|].
    intros t Ht. apply Hbelow. lia.
  - intros i Hi. apply H. lia.
Qed.

Lemma sign_finds fuel key digest i r s :
  u256 (key_scalar key) -> is_bytes digest -> zlen digest = 32 ->
  first_attempt (val (key_scalar key)) digest i r s -> (i < fuel)%nat ->
  sign_digest fuel key digest = Ok (be_bytes 32 r ++ be_bytes 32 s).
Proof.
  intros Hd Hb Hl [Hi Hfirst] Hf. pose proof (sign_refines fuel key digest Hd Hb Hl) as H.
  destruct (sign_digest fuel key digest) as [sig|[]|]; [| |done].
  - destruct H as (j & r' & s' & [Hj Hfirst'] & ->). destruct (Nat.lt_trichotomy i j) as [L|[->|L]].
    + rewrite (Hfirst' _ L) in Hi. done.
    + rewrite Hj in Hi. by injection Hi as -> ->.
    + rewrite (Hfirst _ L) in Hj. done.
  - rewrite (H i Hf) in Hi. done.
Qed.

Lemma attempt_equation d digest i r s :
  attempt d digest i = Some (r, s) ->
  in_order (nonce i d digest) = true /\ ecdsa_sign d (be_val digest mod N) (nonce i d digest) = Some (r, s) /\
  in_order r = true /\ in_order s = true /\
  (s * nonce i d digest) mod N = (be_val digest mod N + r * d) mod N.
Proof.
  unfold attempt. destruct (in_order (nonce i d digest)) eqn:Ho; [|done]. intros Es.
  destruct (ecdsa_sign_equation _ _ _ _ _ Ho Es) as (Or & Os & Eq). by split_and!.
Qed.

(** C19. Signing is deterministic ECDSA as RFC 6979 lays down.  The nonces are
    those of its HMAC construction, in its order, and the signature returned is
    the one of the first of them that is usable: between 1 and the order, with
    neither number zero.  It is returned whenever that nonce is among the turns
    allowed; turns run out only when none of them is usable; and signing never
    panics.  The signature satisfies [s k = e + r d] modulo the order with [r]
    the coordinate of [k G]. *)
Theorem sign_exact (fuel : nat) (key : P256PrivateKey) (digest : bytes) :
  u256 (key_scalar key) -> is_bytes digest -> zlen digest = 32 ->
  let d := val (key_scalar key) in
  (forall i r s, first_attempt d digest i r s -> (i < fuel)%nat ->
     sign_digest fuel key digest = Ok (be_bytes 32 r ++ be_bytes 32 s)) /\
  match sign_digest fuel key digest with
  | Ok sig => exists i r s, first_attempt d digest i r s /\ sig = be_bytes 32 r ++ be_bytes 32 s /\
      in_order r = true /\ in_order s = true /\
      (s * nonce i d digest) mod N = (be_val digest mod N + r * d) mod N
  | Err OutOfTurns => forall i, (i < fuel)%nat -> attempt d digest i = None
  | Panic => False
  end.
Proof.
  intros Hd Hb Hl d. split; [intros i r s; by apply sign_finds|].
  pose proof (sign_refines fuel key digest Hd Hb Hl) as H.
  destruct (sign_digest fuel key digest) as [sig|[]|]; [|done|done].
  destruct H as (i & r & s & Hf & ->). exists i, r, s.
  destruct (attempt_equation _ _ _ _ _ (proj1 Hf)) as (_ & _ & Or & Os & Eq). by split_and!.
Qed.

(** ** Derived keys *)

(** The candidate scalar of turn [i]. *)
Definition derived_candidate (seed domain : bytes) (i : nat) : Z :=
  be_val (HMAC seed (domain ++ be_bytes 4 (Z.of_nat i mod 2 ^ 32))).

(** The first candidate that is a scalar of the group. *)
Definition first_candidate (seed domain : bytes) (i : nat) : Prop :=
  in_order (derived_candidate seed domain i) = true /\
  forall j, (j < i)%nat -> in_order (derived_candidate seed domain j) = false.

Lemma derive_scalar_spec seed domain fuel : forall i,
  (forall j, (j < i)%nat -> in_order (derived_candidate seed domain j) = false) ->
  match derive_scalar fuel seed domain (Z.of_nat i mod 2 ^ 32) with
  | Ok k => exists j, first_candidate seed domain j /\ u256 k /\ val k = derived_candidate seed domain j
  | Err OutOfTurns => forall j, (j < i + fuel)%nat -> in_order (derived_candidate seed domain j) = false
  | Panic => False
  end.
Proof.
  induction fuel as [|fuel IH]; intros i Hi; [cbn; intros; apply Hi; lia|].
  cbn [derive_scalar]. rewrite hmac_ok. cbn [res_bind concat]. rewrite app_nil_r.
  destruct (from_be_bytes_spec (HMAC seed (domain ++ be_bytes 4 (Z.of_nat i mod 2 ^ 32)))) as [C1 C2];
    [apply is_bytes_HMAC|apply zlen_HMAC|]. rewrite (in_order_code _ C1), C2. fold (derived_candidate seed domain i) in *.
  destruct (in_order (derived_candidate seed domain i)) eqn:Ho; [by exists i|].
  assert (wrapping_add 32 (Z.of_nat i mod 2 ^ 32) 1 = Z.of_nat (S i) mod 2 ^ 32) as ->.
  { unfold wrapping_add, wrap. rewrite Z.add_mod_idemp_l, Nat2Z.inj_succ by done. done. }
  assert (forall j, (j < S i)%nat -> in_order (derived_candidate seed domain j) = false) as Hi'.
  { intros j Hj. destruct (decide (j = i)) as [->|]; [done|]. apply Hi. lia. }
  specialize (IH (S i) Hi'). destruct (derive_scalar fuel _ _ _) as [k|[]|]; [done| |done].
  intros j Hj. apply IH. lia.
Qed.

Lemma derive_scalar_ok fuel seed domain :
  match derive_scalar fuel seed domain 0 with
  | Ok k => exists j, first_candidate seed domain j /\ u256 k /\ val k = derived_candidate seed domain j
  | Err OutOfTurns => forall j, (j < fuel)%nat -> in_order (derived_candidate seed domain j) = false
  | Panic => False
  end.
Proof. apply (derive_scalar_spec seed domain fuel 0). intros; lia. Qed.

(** A key whose public point is [(x, y)] with [y] in the lower half. *)
Record key_for (key : P256PrivateKey) (x y : Z) : Prop := {
  kf_scalar : u256 (key_scalar key) /\ in_order (val (key_scalar key)) = true;
  kf_x : stands f x (public_x key);
  kf_y : stands f y (public_y key);
  kf_range : 0 <= x < P /\ 0 <= y /\ 2 * y <= P - 1;
  kf_curve : on_curve (Affine x y);
}.

Lemma negated_scalar k : u256 k -> in_order (val k) = true -> u256 (mod_sub sc (m sc) k) /\ val (mod_sub sc (m sc) k) = N - val k.
Proof.
  intros Hk Ho%in_order_true. pose proof order_facts. Transparent mod_sub. unfold mod_sub. Opaque mod_sub.
  destruct (sbb_spec (m sc) k (mo_m _ sc_ok) Hk) as (s & c & -> & Hs & Hc & Vs). rewrite sc_val in Vs. pose proof (u256_bound _ Hs).
  assert (c = 0 \/ c = 1) as [-> | ->] by lia; [|lia]. cbn [Z.eqb]. split; [done|lia].
Qed.

Lemma derive_ok fuel seed domain :
  match derive fuel seed domain with
  | Ok key => exists j k x y, first_candidate seed domain j /\ k = derived_candidate seed domain j /\ ec_mul k G = Affine x y /\
      ((val (key_scalar key) = k /\ key_for key (x mod P) (y mod P)) \/
       (val (key_scalar key) = N - k /\ key_for key (x mod P) ((- y) mod P)))
  | Err OutOfTurns => forall j, (j < fuel)%nat -> in_order (derived_candidate seed domain j) = false
  | Panic => False
  end.
Proof.
  unfold derive. cbv zeta. pose proof (derive_scalar_ok fuel seed domain) as Hk.
  destruct (derive_scalar fuel seed domain 0) as [k|[]|]; cbn [res_bind]; [|exact Hk|done].
  destruct Hk as (j & Hj & Uk & Ek). pose proof (proj1 Hj) as Ok'. rewrite <- Ek in Ok'. pose proof (to_affine_refines _ _ (mul_refines _ _ k generator_denotes Uk)) as Ha.
  pose proof (ec_mul_on_curve (val k) G generator_on_curve) as Hoc. destruct (ec_mul (val k) G) as [|x y] eqn:EM;
    [by destruct (ec_mul_nonzero _ (in_order_true _ Ok') EM)|].
  destruct Ha as (x' & y' & -> & Hx & Hy). cbn [or_panic res_bind]. rewrite (ge_half _ _ Hy). pose proof P_ge. pose proof (proj2 half_p_val).
  pose proof (Z.mod_pos_bound x P ltac:(lia)). pose proof (Z.mod_pos_bound y P ltac:(lia)). pose proof (Z.mod_pos_bound (- y) P ltac:(lia)).
  cbn [on_curve] in Hoc. destruct (Z.ltb_spec (P - 1) (2 * (y mod P))) as [Hb|Hb]; exists j, (val k), x, y; (split; [exact Hj|]); (split; [exact Ek|]); (split; [exact EM|]).
  - right. destruct (negated_scalar k Uk Ok') as [Nu Nv]. cbn [key_scalar]. split; [done|].
    assert ((- y) mod P = P - y mod P) as En.
    { rewrite <- (Z.mod_small (P - y mod P) P) by lia. symmetry. change (eqm P (P - y mod P) (- y)). rewrite Zmod_eqm. apply eqm_P_sub. }
    constructor; cbn [key_scalar public_x public_y].
    + split; [done|]. rewrite Nv. pose proof (in_order_true _ Ok'). unfold in_order. by rewrite !(proj2 (Z.ltb_lt _ _)) by lia.
    + refine (f_eqm _ _ _ _ Hx). by rewrite Zmod_eqm.
    + refine (f_eqm _ _ _ _ (stands_neg f f_ok _ _ Hy)). by rewrite Zmod_eqm.
    + lia.
    + cbn [on_curve]. rewrite !Zmod_eqm. rewrite <- Hoc. apply eqm_eq. ring.
  - left. split; [done|]. constructor; cbn [key_scalar public_x public_y].
    + done.
    + refine (f_eqm _ _ _ _ Hx). by rewrite Zmod_eqm.
    + refine (f_eqm _ _ _ _ Hy). by rewrite Zmod_eqm.
    + lia.
    + cbn [on_curve]. by rewrite !Zmod_eqm.
Qed.

(** The lower square root is unique. *)
Lemma lower_root_unique y z : 0 <= y -> 0 <= z -> 2 * y <= P - 1 -> 2 * z <= P - 1 -> eqm P (y * y) (z * z) -> y = z.
Proof.
  intros Hy Hz By Bz E. pose proof P_ge. apply Z.cong_iff_ex in E as [q E].
  assert (P | (y - z) * (y + z)) as Hd by (exists q; rewrite <- E; ring).
  apply prime_mult in Hd as [Hd|Hd]; [| |apply prime_field]; destruct Hd as [j Hj].
  - destruct (decide (j = 0)) as [->|]; [lia|]. nia.
  - destruct (decide (j = 0)) as [->|]; [lia|]. nia.
Qed.

Lemma key_exports key x y :
  key_for key x y ->
  exists p q, import_uncompressed (public_uncompressed key) = Some p /\ import_compact (public_x_bytes key) = Some q /\
    denotes p (Affine x y) /\ denotes q (Affine x y).
Proof.
  intros [_ Hx Hy (Bx & By0 & By) Hc]. pose proof order_facts as (_ & _ & _ & HPR). pose proof P_ge.
  unfold public_uncompressed, public_x_bytes. rewrite (to_be_bytes_from_mont _ _ Hx), (to_be_bytes_from_mont _ _ Hy), !Z.mod_small by lia.
  set (bx := be_bytes 32 x). set (by' := be_bytes 32 y). assert (zlen bx = 32) as Lx by apply zlen_be_bytes. assert (zlen by' = 32) as Ly by apply zlen_be_bytes.
  assert (is_bytes bx) as Xb by apply is_bytes_be_bytes. assert (is_bytes by') as Yb by apply is_bytes_be_bytes.
  assert (be_val bx = x) as Vx by (unfold bx; rewrite be_val_be_bytes; change (8 * Z.of_nat 32) with 256; rewrite Z.mod_small by (unfold R in HPR; lia); done).
  assert (be_val by' = y) as Vy by (unfold by'; rewrite be_val_be_bytes; change (8 * Z.of_nat 32) with 256; rewrite Z.mod_small by (unfold R in HPR; lia); done).
  assert (is_bytes ([SEC1_UNCOMPRESSED_TAG] ++ bx ++ by')) as Hb by (repeat apply Forall_app_2; [by repeat constructor|done|done]).
  pose proof (import_uncompressed_spec _ Hb) as Hu. rewrite !zlen_app, Lx, Ly in Hu. specialize (Hu eq_refl). cbv zeta in Hu.
  change (zdrop 1 ([SEC1_UNCOMPRESSED_TAG] ++ bx ++ by')) with (bx ++ by') in Hu.
  change (zdrop 33 ([SEC1_UNCOMPRESSED_TAG] ++ bx ++ by')) with (zdrop 32 (bx ++ by')) in Hu.
  rewrite ztake_app_le, ztake_all, zdrop_app_ge, Lx, Z.sub_diag, zdrop_0, Vx, Vy in Hu by lia.
  pose proof (import_compact_spec bx Xb Lx) as Hq. cbv zeta in Hq. rewrite Vx in Hq.
  destruct (import_uncompressed _) as [p|]; [|destruct Hu; split_and!; [done|lia|lia|done]].
  destruct (import_compact bx) as [q|]; [|destruct Hq; split; [lia|by exists y]].
  exists p, q. destruct Hu as [_ Hp]. destruct Hq as (_ & y' & Hc' & H1 & H2 & Hq). split_and!; [done|done|by apply affine_denotes|].
  replace y with y'; [by apply affine_denotes|]. apply lower_root_unique; [done|done|done|done|]. cbn [on_curve] in Hc, Hc'. by rewrite Hc', Hc.
Qed.

(** A scalar and the public point that belongs to it, in normal form. *)
Definition key_pair (key : P256PrivateKey) (x y : Z) : Prop :=
  key_for key x y /\ ec_eq (ec_mul (val (key_scalar key)) G) (Affine x y).

Lemma key_for_pair key k x y :
  0 < k < N -> ec_mul k G = Affine x y ->
  (val (key_scalar key) = k /\ key_for key (x mod P) (y mod P)) \/
  (val (key_scalar key) = N - k /\ key_for key (x mod P) ((- y) mod P)) ->
  exists x' y', key_pair key x' y'.
Proof.
  intros Hk Em [[Ev Hf]|[Ev Hf]]; do 2 eexists; (split; [exact Hf|]); rewrite Ev.
  - rewrite Em. split; by rewrite Zmod_eqm.
  - rewrite ec_mul_complement by lia. rewrite Em. cbn [ec_opp]. split; by rewrite Zmod_eqm.
Qed.

(** C21. A derived key comes from the first of the HMAC candidates that is a scalar of
    the group: its scalar is that candidate or its complement to the order,
    whichever has a public point with [y] in the lower half.  The public point
    is the scalar times the generator, and both encodings of it import back to
    it.  Turns run out only when every candidate tried is out of range, and
    deriving never panics. *)
Theorem derived_keys (fuel : nat) (seed domain : bytes) :
  match derive fuel seed domain with
  | Ok key => exists i x y p q,
      first_candidate seed domain i /\
      (val (key_scalar key) = derived_candidate seed domain i \/ val (key_scalar key) = N - derived_candidate seed domain i) /\
      key_pair key x y /\ 2 * y <= P - 1 /\
      import_uncompressed (public_uncompressed key) = Some p /\ denotes p (Affine x y) /\
      import_compact (public_x_bytes key) = Some q /\ denotes q (Affine x y)
  | Err OutOfTurns => forall i, (i < fuel)%nat -> in_order (derived_candidate seed domain i) = false
  | Panic => False
  end.
Proof.
  pose proof (derive_ok fuel seed domain) as D. destruct (derive fuel seed domain) as [key|[]|]; [|exact D|exact D].
  destruct D as (i & k & x0 & y0 & Hi & Ek & Em & Hk).
  assert (0 < k < N) as Hpos by (subst k; apply in_order_true, Hi).
  destruct (key_for_pair _ _ _ _ Hpos Em Hk) as (x & y & Hkp). pose proof Hkp as [Hf _].
  destruct (key_exports _ _ _ Hf) as (p & q & Ip & Iq & Dp & Dq). destruct Hf as [_ _ _ (_ & _ & By) _].
  exists i, x, y, p, q. split; [exact Hi|]. split; [subst k; destruct Hk as [[? _]|[? _]]; auto|].
  repeat (split; [assumption|]). assumption.
Qed.

(** ** Verification *)

(** The uncompressed encoding of a point: the tag and both coordinates. *)
Definition sec1_encoding (x y : Z) : bytes := [SEC1_UNCOMPRESSED_TAG] ++ be_bytes 32 x ++ be_bytes 32 y.

Lemma sec1_fields x y :
  0 <= x < P -> 0 <= y < P ->
  sec1_encoding x y !!! 0%nat = SEC1_UNCOMPRESSED_TAG /\
  be_val (ztake 32 (zdrop 1 (sec1_encoding x y))) = x /\ be_val (zdrop 33 (sec1_encoding x y)) = y.
Proof.
  intros Hx Hy. split; [done|]. pose proof order_facts as (_ & _ & _ & HPR). unfold R in HPR.
  change (zdrop 1 (sec1_encoding x y)) with (be_bytes 32 x ++ be_bytes 32 y).
  change (zdrop 33 (sec1_encoding x y)) with (zdrop 32 (be_bytes 32 x ++ be_bytes 32 y)).
  assert (forall v, zlen (be_bytes 32 v) = 32) as Hl by (intros v; apply zlen_be_bytes).
  rewrite ztake_app_le, ztake_all, zdrop_app_ge, Hl, Z.sub_diag, zdrop_0, !be_val_be_bytes by (rewrite ?Hl; lia).
  change (8 * Z.of_nat 32) with 256. rewrite !Z.mod_small by lia. done.
Qed.

Lemma sec1_form key :
  is_bytes key -> zlen key = 65 -> key !!! 0%nat = SEC1_UNCOMPRESSED_TAG ->
  key = sec1_encoding (be_val (ztake 32 (zdrop 1 key))) (be_val (zdrop 33 key)).
Proof.
  intros Hk Lk Ht. destruct key as [|t l]; [done|]. change ((t :: l) !!! 0%nat) with t in Ht. subst t.
  change (zdrop 1 (SEC1_UNCOMPRESSED_TAG :: l)) with l. change (zdrop 33 (SEC1_UNCOMPRESSED_TAG :: l)) with (zdrop 32 l).
  apply Forall_cons in Hk as [_ Hl]. rewrite zlen_cons in Lk. assert (zlen l = 64) as Ll by lia.
  assert (zlen (ztake 32 l) = 32) as L1 by (rewrite zlen_ztake; lia). assert (zlen (zdrop 32 l) = 32) as L2 by (rewrite zlen_zdrop; lia).
  unfold sec1_encoding. rewrite !be_bytes_be_val, ztake_zdrop; [done|by apply is_bytes_zdrop|unfold zlen in L2; lia|by apply is_bytes_ztake|unfold zlen in L1; lia].
Qed.

Section Verification.
Context (digest signature : bytes).
Context (Hd : is_bytes digest) (Ld : zlen digest = 32) (Hs : is_bytes signature) (Ls : zlen signature = 64).

(** The verdict of ECDSA on the public point [Q]. *)
Definition accepts (Q : ecpoint) : bool :=
  ecdsa_verify Q (be_val digest mod N) (be_val (ztake 32 signature)) (be_val (zdrop 32 signature)).

Lemma verify_uncompressed_iff key :
  is_bytes key -> zlen key = 65 ->
  verify_uncompressed key digest signature = true <->
  exists x y, key = sec1_encoding x y /\ 0 <= x < P /\ 0 <= y < P /\ on_curve (Affine x y) /\ accepts (Affine x y) = true.
Proof using Hd Ld Hs Ls.
  intros Hk Lk. unfold verify_uncompressed. pose proof (import_uncompressed_spec key Hk Lk) as Hi. cbv zeta in Hi.
  pose proof (proj1 (be_val_bound (ztake 32 (zdrop 1 key)) ltac:(by apply is_bytes_ztake, is_bytes_zdrop))) as Bx.
  pose proof (proj1 (be_val_bound (zdrop 33 key) ltac:(by apply is_bytes_zdrop))) as By.
  destruct (import_uncompressed key) as [p|].
  - destruct Hi as ((Ht & Hx & Hy & Hc) & Hp). rewrite (verify_refines p _ _ _ (affine_denotes _ _ _ Hp) Hc Hd Ld Hs Ls). split.
    + intros Hv. do 2 eexists. split; [by apply sec1_form|]. split; [lia|]. split; [lia|]. split; [exact Hc|exact Hv].
    + intros (x & y & -> & Hx' & Hy' & _ & Hv). destruct (sec1_fields _ _ Hx' Hy') as (_ & -> & ->). exact Hv.
  - split; [discriminate|]. intros (x & y & -> & Hx & Hy & Hc & _). destruct Hi. destruct (sec1_fields _ _ Hx Hy) as (E0 & -> & ->).
    split; [exact E0|]. split; [lia|]. split; [lia|exact Hc].
Qed.

Lemma verify_compact_iff key :
  is_bytes key -> zlen key = 32 ->
  verify_compact key digest signature = true <->
  exists x y, key = be_bytes 32 x /\ 0 <= x < P /\ 0 <= y /\ 2 * y <= P - 1 /\ on_curve (Affine x y) /\ accepts (Affine x y) = true.
Proof using Hd Ld Hs Ls.
  intros Hk Lk. unfold verify_compact. pose proof (import_compact_spec key Hk Lk) as Hi. cbv zeta in Hi.
  pose proof (proj1 (be_val_bound key Hk)) as Bx. pose proof order_facts as (_ & _ & _ & HPR). unfold R in HPR.
  assert (forall x, 0 <= x < P -> key = be_bytes 32 x -> be_val key = x) as Hval.
  { intros x Hx ->. rewrite be_val_be_bytes. change (8 * Z.of_nat 32) with 256. apply Z.mod_small. lia. }
  destruct (import_compact key) as [p|].
  - destruct Hi as (Hx & y & Hc & Y0 & Y1 & Hp). rewrite (verify_refines p _ _ _ (affine_denotes _ _ _ Hp) Hc Hd Ld Hs Ls). split.
    + intros Hv. exists (be_val key), y. split; [symmetry; apply be_bytes_be_val; [done|unfold zlen in Lk; lia]|].
      split; [lia|]. split; [exact Y0|]. split; [exact Y1|]. split; [exact Hc|exact Hv].
    + intros (x & y' & E & Hx' & Y0' & Y1' & Hc' & Hv). rewrite (Hval x Hx' E) in *.
      replace y with y'; [exact Hv|]. apply lower_root_unique; [done..|]. cbn [on_curve] in Hc, Hc'. by rewrite Hc', Hc.
  - split; [discriminate|]. intros (x & y & E & Hx & _ & _ & Hc & _). destruct Hi. rewrite (Hval x Hx E). split; [lia|by exists y].
Qed.

(** C18. The verifiers decide ECDSA.  A 65-byte key is accepted with a signature
    exactly when it is the tag and both coordinates of a point [Q] of the curve
    and the signature is valid for [Q]; a 32-byte key exactly when it is the [x]
    of a point of the curve and the signature is valid for the one of its points
    with the lower [y].  Valid means that [r] and [s] are between 1 and the order
    and that the point [u1 G + u2 Q] has the coordinate [r] modulo the order,
    where [u1] is [e / s] and [u2] is [r / s]. *)
Theorem verify_exact (key : bytes) :
  is_bytes key ->
  (zlen key = 65 ->
     verify_uncompressed key digest signature = true <->
     exists x y, key = sec1_encoding x y /\ 0 <= x < P /\ 0 <= y < P /\ on_curve (Affine x y) /\ accepts (Affine x y) = true) /\
  (zlen key = 32 ->
     verify_compact key digest signature = true <->
     exists x y, key = be_bytes 32 x /\ 0 <= x < P /\ 0 <= y /\ 2 * y <= P - 1 /\ on_curve (Affine x y) /\ accepts (Affine x y) = true).
Proof using Hd Ld Hs Ls. intros Hk. split; intros; [by apply verify_uncompressed_iff|by apply verify_compact_iff]. Qed.
End Verification.

(** ** What is signed verifies *)

(** [u1 + u2 d] is the nonce. *)
Lemma nonce_recovered d e r s k :
  in_order s = true -> in_order k = true -> eqm N (s * k) (e + r * d) ->
  ((e * inverse N s) mod N + (r * inverse N s) mod N * d) mod N = k.
Proof.
  intros Hs%in_order_true Hk%in_order_true E.
  pose proof (inverse_spec N s prime_order ltac:(rewrite Z.mod_small; lia)) as Hi.
  transitivity (k mod N); [|apply Z.mod_small; lia]. set (w := inverse N s) in *. clearbody w.
  change (eqm N ((e * w) mod N + (r * w) mod N * d) k). rewrite !Zmod_eqm.
  transitivity ((e + r * d) * w); [unfold eqm; f_equal; ring|]. rewrite <- E.
  transitivity (s * w * k); [unfold eqm; f_equal; ring|]. rewrite Hi. unfold eqm. f_equal. ring.
Qed.

Lemma sign_then_verify d e k r s Q :
  0 <= d -> in_order k = true -> ec_eq (ec_mul d G) Q ->
  ecdsa_sign d e k = Some (r, s) -> ecdsa_verify Q e r s = true.
Proof.
  intros Hd Hk EQ Es. destruct (ecdsa_sign_equation _ _ _ _ _ Hk Es) as (Or & Os & Eq).
  unfold ecdsa_verify. rewrite Or, Os. cbn [andb].
  pose proof (nonce_recovered d e r s k Os Hk Eq) as En. pose proof order_facts as (B & _).
  pose proof (Z.mod_pos_bound (e * inverse N s) N ltac:(lia)) as B1.
  pose proof (Z.mod_pos_bound (r * inverse N s) N ltac:(lia)) as B2.
  set (u1 := (e * inverse N s) mod N) in *. set (u2 := (r * inverse N s) mod N) in *. clearbody u1 u2.
  pose proof (times_on_curve u1) as H1. pose proof (times_on_curve d) as H2.
  assert (ec_eq (ec_mul k G) (ec_add (ec_mul u1 G) (ec_mul u2 Q))) as E.
  { rewrite <- En, ec_mul_mod by nia. rewrite (ec_mul_add _ _ _ generator_on_curve) by nia.
    pose proof (times_on_curve (u2 * d)) as H3. apply add_cong_r; [exact H1|exact H3|].
    rewrite (ec_mul_mul _ _ _ generator_on_curve) by lia. by apply ec_mul_proper. }
  rewrite <- (coordinate_eq _ _ r E). unfold ecdsa_sign in Es. destruct (ec_mul k G) as [|x y]; [discriminate|].
  cbv zeta in Es. destruct (_ || _); [discriminate|]. injection Es as <- _. apply Z.eqb_refl.
Qed.

Lemma signature_halves r s :
  in_order r = true -> in_order s = true ->
  let sig := be_bytes 32 r ++ be_bytes 32 s in
  is_bytes sig /\ zlen sig = 64 /\ be_val (ztake 32 sig) = r /\ be_val (zdrop 32 sig) = s.
Proof.
  intros Hr%in_order_true Hs%in_order_true sig. pose proof order_facts as ([_ B] & _). unfold R in B.
  assert (forall v, zlen (be_bytes 32 v) = 32) as Hl by (intros v; apply zlen_be_bytes). unfold sig. rewrite zlen_app, !Hl.
  rewrite ztake_app_le, ztake_all, zdrop_app_ge, Hl, Z.sub_diag, zdrop_0, !be_val_be_bytes by (rewrite ?Hl; lia).
  change (8 * Z.of_nat 32) with 256. rewrite !Z.mod_small by lia.
  split_and!; [|done..]. apply Forall_app_2; apply is_bytes_be_bytes.
Qed.

Lemma verify_signed fuel key x y digest sig :
  key_pair key x y -> is_bytes digest -> zlen digest = 32 -> sign_digest fuel key digest = Ok sig ->
  verify_uncompressed (public_uncompressed key) digest sig = true /\
  verify_compact (public_x_bytes key) digest sig = true.
Proof.
  intros [Hf EQ] Hd Ld Hsig. pose proof Hf as [[Hu Ho] _ _ _ Hc].
  pose proof (sign_refines fuel key digest Hu Hd Ld) as H. rewrite Hsig in H. destruct H as (i & r & s & [Ha _] & ->).
  destruct (attempt_equation _ _ _ _ _ Ha) as (Hk & Es & Or & Os & _).
  destruct (signature_halves r s Or Os) as (Hb & Lb & Er & Es'). destruct (key_exports _ _ _ Hf) as (p & q & Ip & Iq & Dp & Dq).
  pose proof (in_order_true _ Ho) as Bd.
  pose proof (sign_then_verify (val (key_scalar key)) _ _ _ _ (Affine x y) ltac:(lia) Hk EQ Es) as Hv.
  unfold verify_uncompressed, verify_compact. rewrite Ip, Iq.
  split; rewrite (verify_refines _ (Affine x y)), Er, Es' by assumption; exact Hv.
Qed.

(** C20. Whatever a key pair signs, both verifiers accept under either encoding of
    its public key.  The keys the derivation returns are such pairs. *)
Theorem sign_verifies (fuel : nat) (key : P256PrivateKey) (x y : Z) (digest sig : bytes) :
  key_pair key x y -> is_bytes digest -> zlen digest = 32 -> sign_digest fuel key digest = Ok sig ->
  verify_uncompressed (public_uncompressed key) digest sig = true /\
  verify_compact (public_x_bytes key) digest sig = true.
Proof. apply verify_signed. Qed.

(** ** The DER form of a signature *)

(** A strict reader: short lengths, numbers that are positive and minimal. *)
Definition parse_integer (l : bytes) : option (Z * bytes) :=
  match l with
  | tag :: n :: l =>
      if negb (tag =? 0x02) || (n <? 1) || (127 <? n) || (zlen l <? n) then None else
      match ztake n l with
      | b0 :: c => if (127 <? b0) || ((b0 =? 0) && match c with b1 :: _ => b1 <? 128 | [] => false end) then None
                   else Some (be_val (b0 :: c), zdrop n l)
      | [] => None
      end
  | _ => None
  end.

Definition parse_signature (l : bytes) : option (Z * Z) :=
  match l with
  | tag :: n :: l =>
      if negb (tag =? 0x30) || (127 <? n) || negb (zlen l =? n) then None else
      match parse_integer l with
      | Some (r, l) => match parse_integer l with
                       | Some (s, []) => Some (r, s)
                       | _ => None
                       end
      | None => None
      end
  | _ => None
  end.

Lemma trim_zeros_spec half :
  is_bytes half -> 1 <= zlen half ->
  exists b0 c, trim_zeros half = b0 :: c /\ is_bytes (b0 :: c) /\ zlen (b0 :: c) <= zlen half /\ be_val (b0 :: c) = be_val half /\
    (b0 = 0 -> c = []).
Proof.
  unfold trim_zeros. induction half as [|x l IH]; intros Hb Hl; [change (zlen (@nil Z)) with 0 in Hl; lia|].
  pose proof Hb as [Hx Hb']%Forall_cons. cbn [first_nonzero]. destruct (Z.eqb_spec x 0) as [->|Nx]; cbn [negb].
  - destruct l as [|y l].
    + exists 0, []. split_and!; try done.
    + destruct IH as (b0 & c & E & Hbc & Hlc & Hv & Hz); [done|rewrite zlen_cons; pose proof (zlen_nonneg l); lia|].
      exists b0, c. pose proof (zlen_nonneg l). rewrite (zlen_cons 0), (be_val_cons 0), Z.mul_0_l, Z.add_0_l. split_and!; [|done|lia|done|done].
      destruct (first_nonzero (y :: l)) as [i|] eqn:F.
      * assert (0 <= i) as Hi.
        { clear -F. revert i F. generalize (y :: l). intros k. induction k as [|z k IH]; intros i F; [done|]. cbn [first_nonzero] in F.
          destruct (negb _); [injection F as <-; lia|]. destruct (first_nonzero k); [|done]. injection F as <-. specialize (IH _ eq_refl). lia. }
        rewrite <- E. unfold zdrop. replace (Z.to_nat (i + 1)) with (S (Z.to_nat i)) by lia. done.
      * rewrite <- E. unfold zdrop. rewrite !zlen_cons. replace (Z.to_nat (zlen l + 1 + 1 - 1)) with (S (Z.to_nat (zlen l + 1 - 1))) by lia. done.
  - exists x, l. by split_and!.
Qed.

(** One encoded number: what the reader makes of it. *)
Lemma der_half_parses half rest :
  is_bytes half -> zlen half = 32 -> parse_integer (der_half half ++ rest) = Some (be_val half, rest) /\ zlen (der_half half) <= 35.
Proof.
  intros Hb Hl. destruct (trim_zeros_spec half Hb ltac:(lia)) as (b0 & c & E & Hbc & Hlc & Hv & Hz). unfold der_half. rewrite E.
  change ((b0 :: c) !!! 0%nat) with b0. pose proof Hbc as [Hb0 Hc]%Forall_cons. pose proof (zlen_nonneg c) as Nc. rewrite Hl in Hlc.
  assert (negb (Z.land b0 128 =? 0) = (127 <? b0)) as Eb by (apply (u8_forallb (fun x => Bool.eqb (negb (Z.land x 128 =? 0)) (127 <? x))) in Hb0;
    [by apply Bool.eqb_prop in Hb0|vm_compute; reflexivity]).
  rewrite Eb. unfold wrap. rewrite zlen_cons in *. destruct (127 <? b0) eqn:T; bools.
  - rewrite Z.mod_small by lia. cbn [app parse_integer]. change (negb (2 =? 2)) with false. cbn [orb].
    rewrite (proj2 (Z.ltb_ge _ 1)), (proj2 (Z.ltb_ge 127 _)), (proj2 (Z.ltb_ge _ (zlen c + 1 + 1))) by (rewrite ?zlen_cons, ?zlen_app; pose proof (zlen_nonneg rest); lia).
    cbn [orb]. assert (ztake (zlen c + 1 + 1) (0 :: b0 :: c ++ rest) = 0 :: b0 :: c) as ->.
    { change (0 :: b0 :: c ++ rest) with ((0 :: b0 :: c) ++ rest). rewrite ztake_app_le, ztake_all by (rewrite !zlen_cons; lia). done. }
    assert (zdrop (zlen c + 1 + 1) (0 :: b0 :: c ++ rest) = rest) as ->.
    { change (0 :: b0 :: c ++ rest) with ((0 :: b0 :: c) ++ rest). rewrite zdrop_app_ge by (rewrite !zlen_cons; lia). by rewrite !zlen_cons, Z.sub_diag, zdrop_0. }
    change (127 <? 0) with false. change (0 =? 0) with true. cbn [orb andb]. rewrite (proj2 (Z.ltb_ge b0 128)) by lia.
    rewrite be_val_cons, Z.mul_0_l, Z.add_0_l, Hv. split; [done|]. rewrite !zlen_cons. lia.
  - rewrite Z.mod_small by lia. cbn [app parse_integer]. change (negb (2 =? 2)) with false. cbn [orb].
    rewrite (proj2 (Z.ltb_ge _ 1)), (proj2 (Z.ltb_ge 127 (zlen c + 1))), (proj2 (Z.ltb_ge _ (zlen c + 1))) by (rewrite ?zlen_cons, ?zlen_app; pose proof (zlen_nonneg rest); lia).
    cbn [orb]. assert (ztake (zlen c + 1) (b0 :: c ++ rest) = b0 :: c) as ->.
    { change (b0 :: c ++ rest) with ((b0 :: c) ++ rest). rewrite ztake_app_le, ztake_all by (rewrite !zlen_cons; lia). done. }
    assert (zdrop (zlen c + 1) (b0 :: c ++ rest) = rest) as ->.
    { change (b0 :: c ++ rest) with ((b0 :: c) ++ rest). rewrite zdrop_app_ge by (rewrite !zlen_cons; lia). by rewrite !zlen_cons, Z.sub_diag, zdrop_0. }
    rewrite (proj2 (Z.ltb_ge 127 b0)) by lia. cbn [orb]. destruct (Z.eqb_spec b0 0) as [E0|]; cbn [andb].
    + rewrite (Hz E0) in *. rewrite Hv. split; [done|]. rewrite !zlen_cons. lia.
    + rewrite Hv. split; [done|]. rewrite !zlen_cons. lia.
Qed.

(** The DER form of a signature is strict DER of its two numbers: a reader that
    refuses long lengths, negative numbers and leading zeros gets them back. *)
Theorem signature_der_roundtrip (signature : bytes) :
  is_bytes signature -> zlen signature = 64 ->
  parse_signature (signature_to_der signature) = Some (be_val (ztake 32 signature), be_val (zdrop 32 signature)).
Proof.
  intros Hb Hl. unfold signature_to_der. change P256_ELEMENT_BYTES with 32. cbv zeta.
  assert (is_bytes (ztake 32 signature)) as Hr by (by apply is_bytes_ztake). assert (is_bytes (zdrop 32 signature)) as Hs by (by apply is_bytes_zdrop).
  assert (zlen (ztake 32 signature) = 32) as Lr by (rewrite zlen_ztake; lia). assert (zlen (zdrop 32 signature) = 32) as Ls by (rewrite zlen_zdrop; lia).
  destruct (der_half_parses _ (der_half (zdrop 32 signature)) Hr Lr) as [Pr Br]. destruct (der_half_parses _ [] Hs Ls) as [Ps Bs].
  rewrite app_nil_r in Ps. set (body := der_half (ztake 32 signature) ++ _) in *.
  assert (zlen body <= 70) as Bb by (unfold body; rewrite zlen_app; lia). pose proof (zlen_nonneg body).
  unfold wrap. rewrite Z.mod_small by lia. cbn [app parse_signature]. change (negb (48 =? 48)) with false.
  rewrite (proj2 (Z.ltb_ge 127 _)), Z.eqb_refl by lia. cbn [negb orb]. by rewrite Pr, Ps.
Qed.

(** ** Witnesses *)

Lemma hmac_hkdf_exact_witness : exists h, hmac_sha256_parts (E := unit) [1] [[2]; [3]] = Ok h /\
  hkdf_sha256 (E := unit) [1] [2] [3] 40 = Ok (HKDF [1] [2] [3] 40).
Proof. destruct (hmac_hkdf_exact (E := unit) [1] [[2]; [3]] [1] [2] [3] 40) as [H1 H2]; [lia|]. eexists. split; [exact H1|exact H2]. Defined.

Lemma signature_der_roundtrip_witness :
  parse_signature (signature_to_der (replicate 31 0 ++ [200] ++ replicate 32 1)) = Some (200, be_val (replicate 32 1)).
Proof.
  apply (signature_der_roundtrip (replicate 31 0 ++ [200] ++ replicate 32 1)); [apply is_bytes_forallb; vm_compute; reflexivity|reflexivity].
Defined.
