(* ===== verification/EcdsaSample.v ===== *)
(** * A signature of RFC 6979

    The test vector of appendix A.2.5 for the curve P-256, SHA-256 and the
    message "sample", as the input at which the theorems of [Ecdsa] are
    applied: the code signs it with the first nonce, to the signature the
    standard prints, and accepts that signature. *)

From S2P Require Import Prelude Primality Sha ShaProps P256Field P256 P256Props P256Group P256Order Ecdsa.
From stdpp Require Import base tactics numbers list.
From Stdlib Require Import ZArith Znumtheory Zdiv Lia.

Open Scope Z_scope.

#[local] Notation P := P256_P.
#[local] Notation N := P256_N.

(** The ASCII letters of "sample", and their digest. *)
Definition sample_message : bytes := [0x73; 0x61; 0x6d; 0x70; 0x6c; 0x65].
Definition sample_digest : bytes := Eval vm_compute in be_bytes 32 0xaf2bdbe1aa9b6ec1e2ade1d694f41fc71a831d0268e9891562113d8a62add1bf.

Definition sample_d : Z := 0xc9afa9d845ba75166b5c215767b1d6934e50c3db36e89b127b8a622b120f6721.
Definition sample_x : Z := 0x60fed4ba255a9d31c961eb74c6356d68c049b8923b61fa6ce669622e60f29fb6.
Definition sample_y : Z := 0x7903fe1008b8bc99a41ae9e95628bc64f2f1b20c2d7e9f5177a3c294d4462299.
Definition sample_nonce : Z := 0xa6e3c57dd01abe90086538398355dd4c3b17aa873382b0f24d6129493d8aad60.
Definition sample_r : Z := 0xefd48b2aacb6a8fd1140dd9cd45e81d69d2c877b56aaf991c34d0ea84eaf3716.
Definition sample_s : Z := 0xf7cb1c942d657c41d436c7a1b6e29f65f3e900dbb9aff4064dc4ab2f843acda8.

Definition sample_signature : bytes := be_bytes 32 sample_r ++ be_bytes 32 sample_s.

(** The private key, in limbs and Montgomery form. *)
Definition sample_scalar : U256 := [0x7b8a622b120f6721; 0x4e50c3db36e89b12; 0x6b5c215767b1d693; 0xc9afa9d845ba7516].
Definition sample_key : P256PrivateKey :=
  {| key_scalar := sample_scalar;
     public_x := to_mont (field curve) [0xe669622e60f29fb6; 0xc049b8923b61fa6c; 0xc961eb74c6356d68; 0x60fed4ba255a9d31];
     public_y := to_mont (field curve) [0x77a3c294d4462299; 0xf2f1b20c2d7e9f51; 0xa41ae9e95628bc64; 0x7903fe1008b8bc99] |}.

Lemma sample_digest_sha : sha256 (E := unit) sample_message = Ok sample_digest.
Proof. vm_cast_no_check (@eq_refl (res unit bytes) (Ok sample_digest)). Qed.

(** ** The two multiples of the generator *)

Definition sample_key_slopes : list Z :=
  [0xb53f76868a701391b66e0310f0d0c69f0c550a0bd6eace9e70a716a4bd6b9a6a;
   0xd9c7e2669f440043a2e9ecc1a982f0117e8edbeb49ed47ff35372d15d6112b00;
   0x101d1130b82a0653d7389a990923782d0d99ccb72dc77924416005ee96444e;
   0x8ba888d6876392a74bead09cda5be80b30252692ad6220f59acae9b85c71c15a;
   0xc102c78df48ba3f275026f8d1928a92a43925ff9d22af9861fbd949e03675113;
   0x9385d71d901844061622b0775a79d175cf999dd28a53eb4f5f2e991b089fc1be;
   0x6b580ef845b0ee3681bcc8733a8553cd591f83a80d95fd9880878bc162d65dd0;
   0x5019556cadb9d43220ea645551b850325773b722be1b47b5cba98e4806fa02cd;
   0x36f16a876302c59453771cf6fbc6d8947022c90d92396fb475a7fe02696f9b3a;
   0x582782232547f05fe5cef71dea5974c22297e63c2a212be480cd5860db9967bb;
   0x83e75b7c589c5e7e415316eaa3a5a6b277428b1f05408f30ec77ec15d129efb;
   0x8795dec6468a62a9a1a6690bd16b8f408ba0a3c13743c735a63153c030c9e32b;
   0x6fd7f69edf3f3f2f6d35d0bcbfc2b6f494dac78a3e49ee1f9a1eda6beb47ffd0;
   0x2299704802b95f04ac301da296e66e1a9f9e630b0dbe0c8c29d53c02db1f3a3c;
   0xd8e427d6ec037fcd0f09d71dda3f8058273c6c1512a3b08405f145487249c533;
   0xa857c803a0de368ee9785b13e631d90a9831996ab0d95ed501d09de45b024940;
   0x848d6afb37bf0bbb18f3203cedff5d371e71645ebb4f1daf27c5a3569f4f403;
   0x524949128ef439f3701fcc8b2c8cca5908c09fd5d4ac4c47d35c6230da3f4638;
   0xbd7665cc382a63f5f3cb4815195c9bec5c0a604c46d609ccfb137dc98293414f;
   0x133a9372badd6f1f93b02b64ecbde7532cfa31bdaf0db492e861497e371f71f0;
   0xb96bc8db0ef676b3432ab2a02d31be2147089ef63d29f25773de523a10f77def;
   0x261f74e88cbef84f3a02da52501bf2179077f7870c272f2070d40cf90a8a6672;
   0xbe8d20211f96d821973a1fcb1044af9f9bdf520ea137be2c85aa29bb230da989;
   0xb9461f099d30821446bdeb316415e5bf9246df7861394e3c9c85c6098cdffc32;
   0x8cece08c3c38361230ca05968e7d3f6e400d145037143247fe0d888a434fbead;
   0xe753560610d38be1fb7fc692b4c541d80ac9374510cc7a6e424867ba7d0c99d9;
   0x76bc77018544508196e99a766c100e5a5e2e3d23d41315c4619ab8e399aca45b;
   0x4885c996968730762335edb6c411b3cc0708a9bb6db8a92fd270b40ab5eb811f;
   0xb829118e287f130713e867f91d8ef70e82376844a6731deac58f8e488deea220;
   0xe8fe5289aa034185c943f3777bed1bd5556ac1dbfc41cddc0170837ed9d31984;
   0x184d44fb3152a480144f93fac883c94beebe883ded7e8b97a31cad6fbdfc329;
   0x3f5f91ad491c11618b2aab13f6836a09d5d58e1244935065a670c5e040add7ea;
   0xd3f71697ba2819da102aca539ebb43a7521a7c066fcb582f936aa6c0a88a620a;
   0x6ed49e5f7487777527678ac1017f219edf169c00e10095e24acff674adf45066;
   0x75a0a045c5ecfb5bd765485e94ecdfcb5e80132696a27b460107d4a87eb8a05c;
   0xcbbe44ba35c7946ccc5bef50d45915f5edc0c6902fb7e265da68ab508f62506e;
   0xb2523c446f114b2fc6323ba4a647534c25ca79246d37e0639c5a0395e256356b;
   0x8dd0535a057932e4887a5c0dd6ae16475268ebad966610af96df3e7b641761e0;
   0x26b8ac14420a019ac018105b739813313e44a4d8bf44ea3b312572a830541921;
   0x2d3095083d1ff5bf792050cc5d521d2f008f9e4a1006025b3b16b28aa674dbef;
   0xa285dd6ac9f8671c04c2639c66f525c53a02c3c7306843d1ca5e18869693309;
   0x7cd5d1bdb241366042129f36deb91d94c4af14af9b99aa60949b8af256867ba7;
   0x6191fd879ea7b9668064c375e3a3f889e7da54ac20339ccd356e21d5338a1a9;
   0xf95f61aa0e1c329f5a505c5502d1c9182bfba3d46138622f698254b3a946658c;
   0x6870f88559ef2a48b879481db0a0628c0ead6bb3aeedc520541c016b64bc4865;
   0xa6c4899ba3cecd29c50d6f93d8ada963ba13048fd3828cdf71850687f1d864b1;
   0x52fe42bde6f42c6274b3d7008be214227f16eb26b159897935da9708a58acf2c;
   0xab24bcd67028e86a2796ad1e589d6f5ce2d41375e6479674492f3816972ad101;
   0x2a3865b83fb38f67421c3a595f13453696fd6985174fd67bacd5eb4a18974da5;
   0x19d026ba8ec2ef84afddaf485766004fa74973c95182ee4c80e55bb6c70a8865;
   0x2c89ab508088680345d5ecb048de5ec8d4584e27319cde3bee0c593fc9091b93;
   0x185dbee6b3116527909107e256029cdb4a6c6d9a082e437987e1d59eedfecd70;
   0xdb29c20030c7707058a6916381282c009264318eaeb228a566dd7f1c0481a33;
   0x774146477987c841ee7bdfca235a00898861028c211faf98c80309756be3e55f;
   0xf1ddc9624cf96963a31c2b5488604a5472cb7b97fef194e16659ecd63414cee8;
   0x13cb28605e8b6a192f19364a3bc763b9ba38521f469d5320fea074c496cec1c3;
   0x4a431b7a5f79b4893d615e65cc521e06bfd1fe13b6c4de0aaab5512b62cb0d47;
   0x18122559f6cdda8f924c45fb734eddb287b87eb0e88873c21c7ddf78f3ca00c8;
   0x310dccecdc4305aa77b45d0ea91e17966ee805da09fcacae3cbba4e0a5c4f3b2;
   0xc416b4a4e8512ad8691d87f5954bb2f08c680782c5282de585a0d331379f68de;
   0xfa03bccaa73f25c37b136339454f25eb6c16ff31295ecafb3569ec312056efc3;
   0x6ec9f58370db622bb753b80216cb506a590e42ce836879d7974f281d6903bc6d;
   0x7ae0c8c04a9df4298936b53503ed0870c37ebe3c26ce1b66a26fcca756e8dea7;
   0xfa81c8a76254d6696f4f74dbe69be4156ea345a0263585cea305057bdd08e2e8;
   0x9bedd51ef5cc74523a4ea781718f9230643139e5707b2c1ee6773711dbd44c96;
   0x948169f6eaaa7d26ea18d5d90fe10930296dabe4bd469d1a52781e3ba5d86e4f;
   0x93eb5cc4e40893a816816bc1d027e446340fd743f3e7222f6045a6ce2f0b64f1;
   0x983e24696fdf559678b47a87d6b5808521e0ca1ac49c68d2f0019b9ad7d67819;
   0x8a81fbd3c71756e5650b3e140aecfb15105bd257f261dd6ca3c3aa2015f9024a;
   0xdaa4a47213618fda46b9062123ad6f676f23b5cd40d8cc8caccdc081edf14e0e;
   0x8563adc7f7097c1b542dd1be72cfcc8cae01e32093f2e997c31f61f4bffe1503;
   0x5023a691c389d677798e96ee9ac021e09f1a3bf3d17d111d5a8c5fcff9c6f321;
   0xc30bcaabd52145c76f2f2136ab0b2847a32a2d06f475e63bdf777515cd73f09c;
   0xd24df8c96ae29481649c34d7c4c9d859315b62f575efa0e291d736664e7d7ad5;
   0xcd839faa333ebb8b0d117f6f537254580b746317d89268e65a57aee761090b45;
   0x983ba2af61887c0bcd49d63b9bc6c202569c401749b8c26bbde8289aa96ef7a4;
   0xe557582f94417bcedbfb17e14577c98f2d804664c5de303347601a272046fec8;
   0xcdf758fe7cf2cb842bb131d81f2ed2ba207fb50f0ccb5b70331665a887cb92a;
   0x8e8f28eb63d0060cc687b700fe9043344f4f0caf1bd8b20d2e99dd42ae355cd1;
   0x3ed1a3ebecda8f2693e15047d333454146e132cc12878cbc9d29c8e0ad621e8b;
   0xa3f105838b3eb4a6f57153e0dea0444749754b207faec7512f12d1869fda9764;
   0x436e9638620cca01a2442811a205679edbb01d24adc8978a1b88eb474792a213;
   0x16c0cce53efcb90e0a51bd8643ac796216cd57623c07f3becfe93529c75d6f03;
   0x7ac999b82b3350c03be929f7e405424a60ea2ebee69dbc26a73651163ab0a262;
   0xd383eadbdc45b58d37596208231d59a163ef7f614d445c53154173e9df50720b;
   0x8e66f56ff4d909ef947468df598dd510e49a7a7cd4401398086445489aa828fb;
   0x82a94419973b39f1b744a76aca21267e68a5d8cc2490e4ac05445c675eb8ee81;
   0xc0f68f8132f7fbd09205897936a97c62d3c659de10444bae6895ff992a4dd9f0;
   0x7b71c288da32807ebdd8e3b98a09ddee93135dccda7381549ae5442d13b19fc2;
   0xa593530631210c39bfcb405f9debd14297672983af7bc09ce49f08aac934e02d;
   0xd3283aa28e5f95653dad476d9259f77909ffb0c7b18019050752c0e83848bacc;
   0x327448d2bca69a4a03a93af8dcb4d2aea08344d9eaa3457b786468ad44d3f5d4;
   0x1d8be648024f65670ac1eee512c52bd4071f7e3a823eaa75aaea19db00dc9739;
   0x7d3c9a536f27eacabea5910712fbdefd20760213c17a3f1d0c7a43a09f7a94fd;
   0x42f47279d8e287a0efd366761239b65d2526f5c6fa8cbcceecc333483ac490a2;
   0x437518dda340a76c9188f63f7301f864e5fb5a98a740da59a650351360565b67;
   0xa7e7c3c9e05dc4ce2e62529a16cf817b8ec0041e1ceec54e79fc201b1b146432;
   0xed01bdfd6db6dc5a2387f61eeaaa12a6ac2ce7800cf4da4d7477f484b818601c;
   0x8346d132df298cd11b4d8c544bbcacdc58329f44cff0c3f054109ec356669594;
   0x28c167457b3c6eda4f623f941cc241f2c1caadadf5aa1fda308dc77d5951a7ee;
   0xb0d1a51dec6ab2f2cda0305bcb39ab9fd84ae0c1b15e1fb84fa16d8e355a556b;
   0x35282f488eae8e3264842967f6c16c44888c7b0bb501f3c8c53788d4b50096b;
   0xbaa596dd47708a24bfb5813d7f1a80cff0096493d849deaffbf7372c38cc6ab;
   0x9685a0726a2411df4a4a7fabb55b865423f0d1e10cb291a497b5e8af311c4897;
   0x529ee6c021891dc3f2eb5bb9420211a7e392c14dd408e8c5411fb9959db92072;
   0x1f6f8f187e725281e9f3c3231f3a65921244bba9f09ccd7a9795b76e3abb092e;
   0x411251449762e5b682178b53f8fd851ea19b19e6818952d34ae4759097d9205f;
   0x65edc82f1602478b72f28e338f2536fff36201e052c2e87260fa7422260df7d5;
   0x67a062276a0d4acefd6d73ea1fc5b0a6c11f2d184e17ca09f1c72f7bb69fa5a3;
   0x501ac1f4bb0e4fe0c8ba48feda5273825c1bf5346c8d364944d08fa3b31d1bed;
   0xad9d36850f84f43b13fea0333a3ca508e4f540ba8a77295306fed9699447403c;
   0x18b3c6045fe0a3aceaaba6c5e2fd9fd9daa84dab4e72bf1fd01f47bec5fa5d1c;
   0x24705bdc6359d2731271bb47be35764476320c159bfcea8f71dd71117289b38b;
   0x87a5615ce64434d549cdadeb92c9a45162e0f70549909f0aa469608a0346cb85;
   0xd18d34102149f2e9da63704614290d8ea1e5f9419e03b9acd4138494479bcb14;
   0x28118df222f2b51a9ef8d6c27c64095d81d926b57fcd161aacf11bb4484b871e;
   0x1e3d534adbafb58dd111b70b555a595d3299e620092d1bf9e085d97247506b30;
   0xd9deb94fa76f9ba0ce3ccafc49963f1e450592adc2883792fb93068c40f99085;
   0x6698ec7e0abd2bb33c6198c6637fe6d2874d09c61674419dbc3623a0ce3fe38e;
   0x203e5b1c28612cbd080e168f0c7691a40ab61be8a07e286f71da4bbde990d4e9;
   0xdb33a1a39f8f7862e623bc1c594d6ce08a858712b17d081be8ea189eadf0c2b7;
   0xb967e345979e68b30d27b857f4eb6d10463b0447c6e1baf1a31fc6cc607f26cc;
   0x51b07b713c3e6e22f53c6c03644d5eac685f6a27ba9dfa81267f980ef738fac;
   0x25ca3922e2201316d1fe1676d6a32f428850522028ade503ff4c5af525fb15ed;
   0xb2c3ad8299ce1c5a01c87caf8c55047f2caf7eef3ce2e3e1d5d0a210234344f1;
   0x65cd583e36a38eefa4aa546c23e8f4dd7c5fc7fb9f69e016a36586e2975a331b;
   0x78b38c54dea4f0850617dc0f14d2cba30c9dacfc59d53ccd6a57facbfaaa0a89].
Definition sample_nonce_slopes : list Z :=
  [0x208eea39cffe1a4085aef71a98a9dbe8f0b51e7b64dc657dbe9a7597b7965d29;
   0xb62aa199aeb8a92969ea3a695d8a27e9a862825a2f16468349a3425efd804c32;
   0x336b69b2e8ffe9e567308b912d5150f89dd47b951b4331debeb120d00879ad07;
   0x457f4d240d7e283e93477c9fa351d570cd506b5f3616debc5b55f8a65800714f;
   0x51d8aa1c5ac611dbf0afc613d86adba96b3f47bea7416481da4a5420c3026b40;
   0xa0868d15f0ba97a8935f0abe9ca42390c6f033b82f56e9e8b6d8f6826768f904;
   0xb5d279860c9dbec4896f670b91009f2af82d47867d4011022e6ffae6442daf6e;
   0x89d23ebc84181bb3ccd79648a8aab7b0e33084661a5d6ebd5ef7fde577c91059;
   0x192b9ab8bc439d157c460aa7160f5fcb02fcd5e05c716d4511676603871733a6;
   0x87ecf504954ccc69dfd0772bcfa5c1cca29e0ad3ddc30a744a0455725f04f155;
   0x3d741556499745c634dd8d86aac623a9b2672d9e20351409dfebb332e743e292;
   0x507717968085b7e8ac7ba9aae68d0a8a411bcd02cb6988f1d4218578764e113d;
   0xaebd4b8018c7869e1badade6634e14e5147ba5549f565d163f7bb31f8c0d453a;
   0x44f65be7e574301a131014247bc1bb2a9b754f670e4af049d9f59d3225671b04;
   0x75905ade18ef48753ae8ac2cd4c9190d51391091655535e2141350ff40ce1a00;
   0x126656416c3fcfd68c652f5207acb6e255c7ccc1c475c16c3d025cc4576f14b5;
   0x2fda49383548249054162b0dc240564e527bd5a99c86729ef6ab1607aaf11713;
   0xffa3bbe33294440a0a2e2f4a495950867a6abe5556acf82b87ae43224dcc9db8;
   0x5bbae633437ffe025cb90ba0c368ae044a116519ca8eacc2da7e1a53b5b1e9c0;
   0xddadc8b3b52e244c14113ffb0734e38751aef516cf0669f99865ebb8933d7453;
   0x8158f175b5975f55bba9f5b3fff75119c013a66c6722f7991a37d83732b564f6;
   0x4f31304d958383e6d6eedeffcce6d8501b7a27a09f330dd55cfbb905d0a29e96;
   0x25d04c3ca4da65e24922b89589c9517b6a777c786c67b75108cd0d7480a8d389;
   0x54804235f2c05e054f25f212412f7022d88e76a3417b0a35a0e86cc003a18b6d;
   0x93f64456cfb6e66b9d3ee2f0a7750a1c86c2f19e5eab2b2becd46f7b06617f4;
   0xb340fff631d9a03c84792be7ee7b9783297c3f810c6f94be355808074e5e7b6e;
   0xa97153b9a0cf69ac145095ac6291bba33d19ce9e5601c45d9e689f8784d57f77;
   0xd99462e37d83b735274d4489ea5dd5588ef545f5f40583cfccf2c6abbfef9ec9;
   0x81691f6831b954c77a37347210fbba055d044ed1944639a0233827fc55d82b04;
   0x85d29a3448c9165c09bb8087e4961ef4264c8a13aed9cdff4b6d08ef14d61ae6;
   0xb26979443790da412282c21401d9733f4ff42e0a004a26e5bfc1e36aa0f2e6c8;
   0x6e34f8437a5c0ae54be8c006da5cdd20ec1623747b3ef380529896b393b26cd8;
   0x3a5fa6ef960f9fe9e566d71a2cf42874c9eaf6dc33b5c1485a75980600e48d3f;
   0x2ccf5bda582927accfda6e38b66309142bb81fcda820f20671fb6e69f00abac6;
   0xcb7119a59ffde5d9d525bb41dbba213df897c447a734ab38df845b92bc16ff83;
   0xbb78f00dcea017a26e29b88837ed10ffbe71d5eab8a27d0cea2d1c83e62cd20a;
   0x2517ebed228827d51a5e5c7bcc3564fd6d624cc783aeb89af097a1a9c9e62739;
   0xa841168abf0ddb5ca5d17896d7ba59d8554cab829081b4bf0501212d933b2429;
   0x6db06056989e54791ac426fd9fa4d83f0698b69ff9a4f55f7bca267e70a0a392;
   0xdc02ab78e43250ad2e2dde1f23273176c2d636829f710471c591726bdb1818b3;
   0x8438aba8303d77756aa87dec4ab693f361c65f8014f0e6bf2efc7058db08dd05;
   0x88cd022654f428487a15899b0992b58408ec8443fded45d937e0e55d7a8380e6;
   0x68bdc3beb1849dfdf905a3c41f154686cb9e119b47b3f778e498f690510e840c;
   0x2b339d672940d4da8f108bd656eb2db3a585fe256fefa306bcdb3ddff93c0e41;
   0x75f16adc55ea4f1322184e55ff7af52eb10937771fd7e55ec56d3e65a1cd0b3c;
   0x915059a70cfd88a470798eb13f937e827c0af920b3fd7a2043971703286bb008;
   0x77d567913d122fed31e301630802dbce521eb7c781fcbda532843d8a76d307e8;
   0x206672d5446d829242af98f3cc222afb9880e5ce4c2330949042164d4f01e2b;
   0x6a88e7f96b588e760ef8fa1f8d4aa0e11298a121c37e5eb6392a2ad707a2bd8f;
   0xb5d8b025d36214286bfc65700d487b1c8c28908cf6823dd1eae64df07192c384;
   0x2e52f45aa619356dfdd882023aaf3a038196f11c54cbdcf1fd029c07ffdf3be9;
   0xd46401aa32d3af6a115695d71491bef13bc31f7d342f44eb5c8520d56d341cb7;
   0x30b3ba6286f2cf0a6c4fee3910a720fa04516146fe871f0753a7be928bd2afc2;
   0x3ee06f7c0b9a9161cf6a05b957058fe03bf45b97b2eace2a0778efc6d93cd760;
   0x1f09cd7e220985b928ed42f34e95e5ce57d84c72de58104cf843787d53cd508c;
   0x71b7892afb16f1066024c8b1d711ebf816ab3c06c28e62bfd3101532f4721a16;
   0xbba0e1b1e38ea42d4356ee90141d8611d7e2ce3204ac18f65ca399b752d18bf8;
   0x5897c8567a1a7367f62bbac9958234ffdd3d866f3911b32df7b38024f1044a77;
   0xda6adb8f09fa91c183ab4182428507e1883c5444178a752acb566b49a99f62c8;
   0xf0561fcfeb4fcfd19a39f882dea5603236601e73d283e184838a82bc13f89ba4;
   0xa4e6266265d97e54f9b766899b7b9cde3ddee2465d45baf8caa8a4ee2d9f5ac5;
   0x561984aaceccae0954a84649e1791ed1059b1be38ebdba306df2b9f712c0445f;
   0xa1c74837a2a9e3331c11ba7d73e034f36ad67e1298e81605f6992418e5b4807;
   0xd1d0458e29a4c1266733f74589a801995e97c3c9b66f495d73042244e56ad2e8;
   0xb59ccaae15a936bd2eed8118dfab38a2fa7412f7bf13da64c247a6db3ad3665a;
   0x4c3768f5ef5a310ff35b554c5f04378b429da2341e4e048dc19893b3e8cbf18b;
   0xabe763dc1f5a0ba6db8b994dd64f53e711afa9517316d568e12ab0ee0f682fe0;
   0xc27d00f4cee20c9bb4e713105a2920c075d54f3c4a0a1c7f23fe721db105824f;
   0xd45af5a9b36739ff4488ee053802b5bdeb3bf57b391e2e3923c0a317a4b9d406;
   0xabe4785dcda53b07b98165721e373b2ad5a2f692e7e63a0a110e72681e28d95c;
   0xa73dc376f15560e88976f17b4782eaa2d1a5a166bb672272afb7492b56c63fea;
   0xa39db17454dbb03c35cb3183b89517bf0404a9f76a550ac56afd4127c0178f71;
   0xd76654e67a3248636635719b1f8ade5f730567023d8646f1a5f879c893718b3c;
   0x1044083b282ff58cfbdb5e9c2b41d13deaff895ad5e8ecae0f2c0f09459f293f;
   0x5936f3cbe0909e7c99e913b3e7fc65fcacfa6090b3d91622f39ba3d0578cf9b8;
   0x54aeffc8ef17b4d6d2cdc44918a182c4a5a8fd01353e1f2b641bc0232b6238d;
   0xa81a4ed28baab5bf631fcb178c3dbec0ad81ea47a881850e1a77a3d5eecc15ed;
   0xef2767d7b61c5d6e3a798de1355b2c300eadcbe5fcfd4a9d840b5f71bf1cde4b;
   0x2806dc9acd87f4e4a497f93ac4f02bad6da8c57f30ea7ddb5e826391bd4af6c1;
   0x5bd587fd0def8c24d891e076a2543988ff0ac86e87a55301cb76ea450dc3917f;
   0x1fc14c145b39db3d830c9a92f302f25edaf4a9c79ebcc80de38d7c636c026f0c;
   0xe5fbbba643a2e07715e679e461cc00e2f35080600369b4b95ca2a64bd773baa;
   0x5506764e2590b641765941423afe29b6593fa097cacb9b660da450f516d9ffda;
   0x2088b8b4fe406f82b8a27cc2281cbebad4c90ac66c51e308286d306bb423bb42;
   0x9a7f23a4679643b64446fddfafe6beb3da61a0fe25099578563698fe2e328412;
   0x60374e9fcae762d9590153dc8850c35c26369bdd0a331e44bb2b33a810daf42e;
   0x8981ebe3b20f0595fd8eb72d30d1ab58cc713402d94c8d25d10a44043a22be95;
   0xc5faec99912ee7db48927b61f84ccb6ee1032352d58a887c1d9f5e53e9f3db3a;
   0x83b8bb9a4299f541553ec99dc8c36f0acd6f66b9ff8ec53f9bbedc4660383542;
   0x7707d4a9753cbf3189e627b45f06ccd07def066ebd8bca7216d105f3c1b4d73e;
   0x58b296497b19f695600f02310c1336d46a93002a49260c46d684ca0e638c2775;
   0x85f84302ca2e72b14b7bae83f892473ebed7d0c11a856571bcc4ae999ab42b36;
   0x185af27ad2a2af49b728bdd756d915f4218460fad5ae82a78ef04517b60afd00;
   0xb3fba4d571b210bb38b5c6f07d09eeebb344b8823195f5cc1e7cb2e64fc97fef;
   0x27103772bd1429065d8cb9ce73b6259a9efd9a73cf56f87ae0806f5c2f08693d;
   0x9b1c1e7ff0f6c5a71f565945aa0c1079de556d598c96c6f528c68e91cf3ab202;
   0x65b79e119866dc06127ec9cde2e65c211796214251aac618a2f10ed5bb44f356;
   0x3c84f790c54d0ffdd0872ad0fc58f6a04007ea2769f7e1dd509d005adb76b623;
   0xecaac7c0efdb56cb9aa13b0af0036da56d47ce3d6069c1851ed29c855539daf1;
   0x317d6c3120b34cc82c67268e671c2751648ef9147bb869d52f7296e1d2d76588;
   0x59cbd559706db1351e209f0eab4f0ecae203097b21b280ce4e8733749e9ad518;
   0x37446e0ddf2481e27b3b2d88d7d267d956b42f3f866a28ca02f1dcd2be22d8b7;
   0xda0978c1b9e4929cd79e34e44daf5ea81f25dde3268fa8f5e1a8d3e49269f570;
   0x708e626e22b8eb333aee014d98c7b9e540052b3a51c4614b98eb61b6c6386507;
   0x59f7cdacd156c6deb89e42f1d184d7de39a54ddfcc26c4a18776e247b1e927dc;
   0x1308de6d5f7be26f5e2b5a1c188fdc897ba83cd17d49b8b694943647f29b3f93;
   0x732132bcb9dadb8f4dce9b0954ba06b7bd8bf384728bb1a636809beb80f09866;
   0x90458b97ffa9153ee9e34c37dbe9eade0df9bb0aa54fb28085dd194afb11ccf8;
   0x626658325c25935cdb438a936e1e49ed48056cafed563d37b1ea965ca6338086;
   0xd4f3deae9a92145f73cd9352064f8cea185549beb5c885e8e8ceed4faa4737b6;
   0xa91fd699a44fa05a0f82b10548c818c9ecb2c8fb8359d2d64a19339bcc33226f;
   0x4a199914e70e8ccffbafa2bc2367fbaa42fde877945fc165752f508c4180ab5f;
   0xffcf97e8b6a2203518b8aa0ab95bace85c33cc8a7bd576676c026cef79b6db36;
   0xec12e32c640295f208f7df92f6951ac2b54fd15ef4793634dca2767987992fd0;
   0x48aeee895f0ac2358bb78a424679c2fa101c55981fdd764d6553bb83e239060;
   0x8aef4262567af69ae0bafb3d37304ab2f11275f47c3a8f19139b63512a19f117;
   0x7e85d246e031c37d9b907f250c9af4bdd1a0c2ea8437fa11437160b9ea5340b1;
   0xbae0186e29ea54204bfd1da5a8bf9c929850bc46d84856635b973a42b5aced53;
   0x79ca0c4df20b2de9e4ecc08e4240e2bc727be12d6af184ace3e71b6da6ee57b4].

Lemma sample_public : ec_eq (ec_mul sample_d G) (Affine sample_x sample_y).
Proof.
  apply (generator_multiple sample_key_slopes (Z.to_pos sample_d) (sample_x, sample_y)).
  vm_cast_no_check (eq_refl (Some (sample_x, sample_y))).
Qed.

Definition sample_point_y : Z := 0x34a7e72c423213443152c82df94fe0f6851bf894fd91c64b19555346093ff492.

Lemma sample_commitment : ec_eq (ec_mul sample_nonce G) (Affine sample_r sample_point_y).
Proof.
  apply (generator_multiple sample_nonce_slopes (Z.to_pos sample_nonce) (sample_r, sample_point_y)).
  vm_cast_no_check (eq_refl (Some (sample_r, sample_point_y))).
Qed.

(** ** The signature *)

Lemma sample_nonce_ok : nonce 0 sample_d sample_digest = sample_nonce.
Proof. vm_cast_no_check (eq_refl sample_nonce). Qed.

(** A signature is determined by its equation. *)
Lemma ecdsa_sign_by d e k x y r s :
  in_order k = true -> ec_eq (ec_mul k G) (Affine x y) -> (x mod P) mod N = r -> in_order r = true -> in_order s = true ->
  (s * k) mod N = (e + r * d) mod N -> ecdsa_sign d e k = Some (r, s).
Proof.
  intros Hk%in_order_true E Er Hr%in_order_true Hs%in_order_true Eq. unfold ecdsa_sign.
  destruct (ec_mul k G) as [|x' y']; [done|]. destruct E as [Ex _]. unfold eqm in Ex. rewrite Ex, Er. cbv zeta.
  assert ((inverse N k * (e + r * d)) mod N = s) as ->.
  { pose proof (inverse_spec N k prime_order ltac:(rewrite Z.mod_small; lia)) as Hi. unfold eqm in Hi.
    pose proof order_facts as (B & _). rewrite <- Z.mul_mod_idemp_r, <- Eq, Z.mul_mod_idemp_r by lia.
    replace (inverse N k * (s * k)) with (k * inverse N k * s) by ring.
    rewrite <- Z.mul_mod_idemp_l, Hi, Z.mul_mod_idemp_l, Z.mul_1_l by lia. apply Z.mod_small. lia. }
  by rewrite !(proj2 (Z.eqb_neq _ 0)) by lia.
Qed.

Lemma sample_attempt : attempt sample_d sample_digest 0 = Some (sample_r, sample_s).
Proof.
  unfold attempt. rewrite sample_nonce_ok.
  assert (in_order sample_nonce = true) as Hk by (vm_compute; reflexivity). rewrite Hk.
  apply (ecdsa_sign_by _ _ _ sample_r sample_point_y _ _ Hk sample_commitment); vm_compute; reflexivity.
Qed.

Lemma sample_limbs v a : u256 a -> val a = v -> stands (field curve) v (to_mont (field curve) a).
Proof. intros Ha <-. by apply f_to_mont. Qed.

Lemma sample_scalar_ok : u256 sample_scalar /\ val sample_scalar = sample_d.
Proof. split; [by_limbs|vm_compute; reflexivity]. Qed.

Lemma sample_key_pair : key_pair sample_key sample_x sample_y.
Proof.
  destruct sample_scalar_ok as [Hu Hv]. split; [|cbn [sample_key key_scalar]; rewrite Hv; exact sample_public].
  split; cbn [sample_key key_scalar public_x public_y].
  - split; [exact Hu|rewrite Hv; vm_compute; reflexivity].
  - apply sample_limbs; [by_limbs|vm_compute; reflexivity].
  - apply sample_limbs; [by_limbs|vm_compute; reflexivity].
  - vm_compute. repeat split; discriminate.
  - vm_compute. reflexivity.
Qed.

Lemma sample_digest_ok : is_bytes sample_digest /\ zlen sample_digest = 32.
Proof. split; [apply is_bytes_forallb; vm_compute; reflexivity|vm_compute; reflexivity]. Qed.

Lemma sample_first : first_attempt (val (key_scalar sample_key)) sample_digest 0 sample_r sample_s.
Proof.
  assert (val (key_scalar sample_key) = sample_d) as -> by exact (proj2 sample_scalar_ok).
  split; [exact sample_attempt|]. intros j Hj. lia.
Qed.

Lemma sample_signed : sign_digest 1 sample_key sample_digest = Ok sample_signature.
Proof.
  destruct sample_digest_ok as [Hd Ld].
  exact (sign_finds 1 sample_key sample_digest 0 sample_r sample_s (proj1 sample_scalar_ok) Hd Ld sample_first (le_n 1)).
Qed.

Lemma sample_accepts : accepts sample_digest sample_signature (Affine sample_x sample_y) = true.
Proof.
  destruct (attempt_equation _ _ _ _ _ sample_attempt) as (Hk & Es & Or & Os & _).
  destruct (signature_halves _ _ Or Os) as (_ & _ & Er & Es'). unfold accepts, sample_signature. rewrite Er, Es'.
  refine (sign_then_verify sample_d _ _ _ _ _ _ Hk sample_public Es). vm_compute. discriminate.
Qed.

Lemma sample_signature_ok : is_bytes sample_signature /\ zlen sample_signature = 64.
Proof. split; [apply is_bytes_forallb; vm_compute; reflexivity|vm_compute; reflexivity]. Qed.

(** ** Witnesses *)

(** The code signs the vector, with the standard's signature. *)
Lemma sign_exact_witness : sign_digest 1 sample_key sample_digest = Ok sample_signature.
Proof.
  destruct (sign_exact 1 sample_key sample_digest (proj1 sample_scalar_ok) (proj1 sample_digest_ok)
              (proj2 sample_digest_ok)) as [H _].
  exact (H 0%nat sample_r sample_s sample_first (le_n 1)).
Defined.

(** The code accepts the vector, under both encodings of the key. *)
Lemma verify_exact_witness :
  verify_uncompressed (sec1_encoding sample_x sample_y) sample_digest sample_signature = true /\
  verify_compact (be_bytes 32 sample_x) sample_digest sample_signature = true.
Proof.
  destruct sample_digest_ok as [Hd Ld], sample_signature_ok as [Hs Ls].
  assert (is_bytes (sec1_encoding sample_x sample_y)) as H1 by (apply is_bytes_forallb; vm_compute; reflexivity).
  assert (is_bytes (be_bytes 32 sample_x)) as H2 by (apply is_bytes_forallb; vm_compute; reflexivity).
  assert (on_curve (Affine sample_x sample_y)) as Hc by (vm_compute; reflexivity).
  assert (0 <= sample_x < P /\ 0 <= sample_y < P /\ 2 * sample_y <= P - 1) as (Bx & By & Bh) by (vm_compute; repeat split; discriminate).
  destruct (verify_exact sample_digest sample_signature Hd Ld Hs Ls _ H1) as [V1 _].
  destruct (verify_exact sample_digest sample_signature Hd Ld Hs Ls _ H2) as [_ V2]. split.
  - apply (proj2 (V1 eq_refl)). exists sample_x, sample_y.
    exact (conj eq_refl (conj Bx (conj By (conj Hc sample_accepts)))).
  - apply (proj2 (V2 eq_refl)). exists sample_x, sample_y.
    exact (conj eq_refl (conj Bx (conj (proj1 By) (conj Bh (conj Hc sample_accepts))))).
Defined.

Lemma sign_verifies_witness :
  verify_uncompressed (public_uncompressed sample_key) sample_digest sample_signature = true /\
  verify_compact (public_x_bytes sample_key) sample_digest sample_signature = true.
Proof.
  exact (sign_verifies 1 sample_key sample_x sample_y sample_digest sample_signature sample_key_pair
           (proj1 sample_digest_ok) (proj2 sample_digest_ok) sample_signed).
Defined.
