(* ===== verification/Windows.v ===== *)
(** * Text as bytes

    What the property-list reader and the PEM decoder share: byte literals,
    [u8::is_ascii_whitespace] and
    [haystack.windows(n).position(|window| window == needle)]. *)

From S2P Require Import Prelude.
From stdpp Require Import base tactics numbers list option strings.
From Stdlib Require Import ZArith Lia.

Open Scope Z_scope.

(** A literal b'...'. *)
Definition bytes_of (text : string) : bytes := map (fun c => Z.of_nat (Ascii.nat_of_ascii c)) (String.list_ascii_of_string text).

(** [u8::is_ascii_whitespace]: space, tab, line feed, form feed, return. *)
Definition is_ascii_whitespace (b : Z) : bool := (b =? 32) || (b =? 9) || (b =? 10) || (b =? 12) || (b =? 13).

Fixpoint window_position (needle haystack : bytes) : option Z :=
  match haystack with
  | [] => None
  | _ :: rest =>
      if bool_decide (ztake (zlen needle) haystack = needle) then Some 0
      else (fun i => i + 1) <$> window_position needle rest
  end.

Lemma ztake_prefix {A} (needle h k : list A) : ztake (zlen needle) h = needle -> ztake (zlen needle) (h ++ k) = needle.
Proof.
  intros E. rewrite ztake_app_le; [done|].
  apply (f_equal zlen) in E. rewrite zlen_ztake in E. pose proof (zlen_nonneg needle). pose proof (zlen_nonneg h). lia.
Qed.

(** Every other match comes no earlier. *)
Lemma needle_first needle h i :
  window_position needle h = Some i <->
  (0 <= i < zlen h /\ ztake (zlen needle) (zdrop i h) = needle /\
   forall j, 0 <= j < i -> ztake (zlen needle) (zdrop j h) <> needle).
Proof.
  revert i. induction h as [|x h IH]; intros i; cbn [window_position].
  { change (zlen []) with 0. split; [done|]. intros [? _]; lia. }
  pose proof (zlen_nonneg h). rewrite zlen_cons.
  assert (forall j, 0 <= j -> zdrop (j + 1) (x :: h) = zdrop j h) as Hs.
  { intros j Hj. unfold zdrop. by replace (Z.to_nat (j + 1)) with (S (Z.to_nat j)) by lia. }
  case_bool_decide as E.
  - split.
    + intros [= <-]. split_and!; [lia..|by rewrite zdrop_0|intros; lia].
    + intros (Hi&_&Hm). destruct (decide (i = 0)) as [->|]; [done|].
      destruct (Hm 0); [lia|]. by rewrite zdrop_0.
  - rewrite fmap_Some. setoid_rewrite IH. split.
    + intros (k&(Hk&Ek&Hm)&->). split_and!; [lia..|by rewrite Hs by lia|].
      intros j Hj. destruct (decide (j = 0)) as [->|]; [by rewrite zdrop_0|].
      replace j with (j - 1 + 1) by lia. rewrite Hs by lia. apply Hm. lia.
    + intros (Hi&Ei&Hm). destruct (decide (i = 0)) as [->|]; [by rewrite zdrop_0 in Ei|].
      exists (i - 1). rewrite <- Hs by lia. replace (i - 1 + 1) with i by lia.
      split_and!; [lia..|done| |lia]. intros j Hj. rewrite <- Hs by lia. apply Hm. lia.
Qed.

(** More bytes do not move the first match. *)
Lemma needle_app needle h k i : window_position needle h = Some i -> window_position needle (h ++ k) = Some i.
Proof.
  revert i. induction h as [|x h IH]; intros i; cbn [window_position app]; [done|].
  case_bool_decide as E.
  - intros [= <-]. rewrite bool_decide_eq_true_2; [done|]. by apply (ztake_prefix _ (x :: h)).
  - intros (j&Hj&->)%fmap_Some. apply IH in Hj as Ej. rewrite Ej.
    rewrite bool_decide_eq_false_2; [done|]. intros E'. apply E.
    apply needle_first in Hj as (Hj&Ej'&_).
    assert (zlen needle <= zlen (x :: h)).
    { apply (f_equal zlen) in Ej'. rewrite zlen_ztake, zlen_zdrop in Ej'. rewrite zlen_cons.
      pose proof (zlen_nonneg needle). lia. }
    change (x :: h ++ k) with ((x :: h) ++ k) in E'. by rewrite ztake_app_le in E'.
Qed.

Lemma window_none_prefix needle h k : window_position needle (h ++ k) = None -> window_position needle h = None.
Proof. destruct (window_position needle h) eqn:E; [|done]. by rewrite (needle_app _ _ _ _ E). Qed.

Lemma window_room needle h i : window_position needle h = Some i -> 0 <= i /\ i + zlen needle <= zlen h.
Proof.
  intros (Hi&E&_)%needle_first. split; [lia|]. apply (f_equal zlen) in E.
  rewrite zlen_ztake, zlen_zdrop in E. lia.
Qed.

(** A needle is found where it stands, when nothing before it matches. *)
Lemma window_at needle pre post :
  needle <> [] -> (forall j, 0 <= j < zlen pre -> ztake (zlen needle) (zdrop j (pre ++ needle ++ post)) <> needle) ->
  window_position needle (pre ++ needle ++ post) = Some (zlen pre).
Proof.
  intros Hn Hm. apply needle_first. pose proof (zlen_nonneg pre). pose proof (zlen_nonneg post).
  assert (0 < zlen needle). { destruct needle; [done|]. rewrite zlen_cons. pose proof (zlen_nonneg needle). lia. }
  split_and!; [lia|zl| |done].
  rewrite zdrop_app_ge by lia. rewrite Z.sub_diag, zdrop_0, ztake_app_le by lia. by apply ztake_all.
Qed.

(** No window matches when a byte of the needle is missing from the haystack's start. *)
Lemma window_skip needle pre post b0 rest :
  needle = b0 :: rest -> b0 ∉ pre -> window_position needle (pre ++ needle ++ post) = Some (zlen pre).
Proof.
  intros -> Hb. apply window_at; [done|]. intros j Hj E.
  assert (zget (zdrop j (pre ++ (b0 :: rest) ++ post)) 0 = Some b0) as G.
  { apply (f_equal (fun l => zget l 0)) in E. unfold zget, ztake in *. cbn in *.
    rewrite lookup_take_lt in E by (unfold zlen; cbn; lia). done. }
  unfold zget, zdrop in G. cbn in G. rewrite lookup_drop, lookup_app_l in G by (unfold zlen in Hj; lia).
  apply Hb. by apply list_elem_of_lookup_2 in G.
Qed.
