(* ===== verification/Channel.v ===== *)
(** * Byte channels

    What the servers do with [std::io]: a stateful program that can fail and may
    loop ([prog]), the [Read] and [Write] traits as the type class [Channel], the
    laws of a connection whose peer sends a fixed stream of bytes, and a small
    logic for total correctness ([runs]).  [Pipe] is a connection that hands out
    the peer's bytes a few at a time. *)

From S2P Require Import Prelude.
From stdpp Require Import base tactics numbers list.
From Stdlib Require Import ZArith Lia.

Open Scope Z_scope.

(** [io::Error]: its kind; the text that goes with it is not modelled. *)
Inductive ErrorKind :=
| Interrupted
| InvalidInput
| UnexpectedEof
| OtherKind (code : Z).

#[export] Instance ErrorKind_eq_dec : EqDecision ErrorKind.
Proof. solve_decision. Defined.

(** ** Programs

    [None] is a loop that has used up its turns. *)

Definition prog (S E A : Type) : Type := S -> option (S * res E A).

Definition pbind {S E A B} (m : prog S E A) (k : A -> prog S E B) : prog S E B := fun s =>
  match m s with
  | Some (s, Ok a) => k a s
  | Some (s, Err e) => Some (s, Err e)
  | Some (s, Panic) => Some (s, Panic)
  | None => None
  end.
Definition done_with {S E A} (r : res E A) : prog S E A := fun s => Some (s, r).
Definition reads {S E A} (f : S -> A) : prog S E A := fun s => Some (s, Ok (f s)).
Definition writes {S E} (f : S -> S) : prog S E unit := fun s => Some (f s, Ok tt).
Definition perr {S E F A} (f : E -> F) (m : prog S E A) : prog S F A := fun s =>
  match m s with Some (s, r) => Some (s, map_err f r) | None => None end.
(** A call on one field of the state. *)
Definition zoom {S X : Type} (field : S -> X) `{!Setter field} {E A} (m : prog X E A) : prog S E A := fun s =>
  match m (field s) with Some (x, r) => Some (s <| field := x |>, r) | None => None end.
(** [match call() { Ok(a) => ..., Err(_) => ... }] *)
Definition tried {S E A} (m : prog S E A) : prog S E (option A) := fun s =>
  match m s with
  | Some (s, Ok a) => Some (s, Ok (Some a))
  | Some (s, Err _) => Some (s, Ok None)
  | Some (s, Panic) => Some (s, Panic)
  | None => None
  end.
Definition out_of_turns {S E A} : prog S E A := fun _ => None.

Declare Scope prog_scope.
Delimit Scope prog_scope with prog.
Notation "'let*' x ':=' m 'in' k" := (pbind m (fun x => k))
  (at level 10, x pattern, m at level 100, k at level 200) : prog_scope.
Open Scope prog_scope.

(** ** Total correctness: the program returns, and what it returns satisfies [Q]. *)

Definition runs {S E A} (m : prog S E A) (s : S) (Q : S -> res E A -> Prop) : Prop :=
  exists s' r, m s = Some (s', r) /\ Q s' r.

(** What an early return leaves of a postcondition. *)
Definition then_ {S E A B} (K : A -> S -> Prop) (Q : S -> res E B -> Prop) (s : S) (r : res E A) : Prop :=
  match r with Ok a => K a s | Err e => Q s (Err e) | Panic => Q s Panic end.

Section Logic.
Context {S E : Type}.
Implicit Types (s : S).

Lemma runs_bind {A B} (m : prog S E A) (k : A -> prog S E B) s Q :
  runs m s (then_ (fun a s' => runs (k a) s' Q) Q) -> runs (pbind m k) s Q.
Proof.
  intros (s'&r&E1&H). unfold runs, pbind. rewrite E1.
  destruct r; cbn in H; [exact H|..]; eauto.
Qed.

Lemma runs_weaken {A} (m : prog S E A) s (P Q : S -> res E A -> Prop) :
  runs m s P -> (forall s' r, P s' r -> Q s' r) -> runs m s Q.
Proof. intros (s'&r&E1&HP) HQ. exists s', r. eauto. Qed.

Lemma runs_done {A} (r : res E A) s (Q : S -> res E A -> Prop) : Q s r -> runs (done_with r) s Q.
Proof. intros. by exists s, r. Qed.

Lemma runs_reads {A} (f : S -> A) s (Q : S -> res E A -> Prop) : Q s (Ok (f s)) -> runs (reads f) s Q.
Proof. intros. by exists s, (Ok (f s)). Qed.

Lemma runs_writes (f : S -> S) s (Q : S -> res E unit -> Prop) : Q (f s) (Ok tt) -> runs (writes f) s Q.
Proof. intros. by exists (f s), (Ok tt). Qed.

(** A pure step that succeeds. *)
Lemma runs_pure {A B} (r : res E A) a (k : A -> prog S E B) s Q :
  r = Ok a -> runs (k a) s Q -> runs (pbind (done_with r) k) s Q.
Proof. intros -> Hk. by apply runs_bind, runs_done. Qed.

Lemma runs_update {B} (f : S -> S) (k : unit -> prog S E B) s Q :
  runs (k tt) (f s) Q -> runs (pbind (writes f) k) s Q.
Proof. intros Hk. by apply runs_bind, runs_writes. Qed.

Lemma runs_look {A B} (f : S -> A) (k : A -> prog S E B) s Q :
  runs (k (f s)) s Q -> runs (pbind (reads f) k) s Q.
Proof. intros Hk. by apply runs_bind, runs_reads. Qed.

Lemma runs_perr {F A} (f : F -> E) (m : prog S F A) s (Q : S -> res E A -> Prop) :
  runs m s (fun s' r => Q s' (map_err f r)) -> runs (perr f m) s Q.
Proof. intros (s'&r&E1&H). unfold runs, perr. rewrite E1. eauto. Qed.

Lemma runs_tried {A} (m : prog S E A) s (Q : S -> res E (option A) -> Prop) :
  runs m s (fun s' r => match r with Ok a => Q s' (Ok (Some a)) | Err _ => Q s' (Ok None) | Panic => Q s' Panic end) ->
  runs (tried m) s Q.
Proof. intros (s'&r&E1&Hr). unfold runs, tried. rewrite E1. destruct r; eauto. Qed.

Lemma runs_zoom {X A} (field : S -> X) `{!Setter field} (m : prog X E A) s (Q : S -> res E A -> Prop) :
  runs m (field s) (fun x r => Q (s <| field := x |>) r) -> runs (zoom field m) s Q.
Proof. intros (x&r&E1&H). unfold runs, zoom. rewrite E1. eauto. Qed.
End Logic.

(** One step of a program: through a bind, into the call at its head. *)
Ltac prog_step :=
  first [ apply runs_bind | apply runs_done | apply runs_reads | apply runs_writes
        | apply runs_perr | apply runs_zoom ]; cbn [then_ map_err].

(** ** [Read] and [Write] *)

Class Channel (T : Type) := {
  chan_read : T -> Z -> T * res ErrorKind bytes;
  chan_write_all : T -> bytes -> T * res ErrorKind unit;
  chan_flush : T -> T * res ErrorKind unit;
}.

Section Calls.
Context {T : Type} `{Channel T}.

Definition read_some (n : Z) : prog T ErrorKind bytes := fun t => Some (chan_read t n).
Definition write_all (b : bytes) : prog T ErrorKind unit := fun t => Some (chan_write_all t b).
Definition flush : prog T ErrorKind unit := fun t => Some (chan_flush t).
End Calls.

(** A connection: the peer sends [incoming] and then closes; what has been
    written so far is [outgoing].  Any call can fail; a failed write may have
    sent a part. *)
Class LawfulChannel (T : Type) `{Channel T} := {
  incoming : T -> bytes;
  outgoing : T -> bytes;
  read_law t n : 0 < n ->
    match chan_read t n with
    | (t', Ok b) => incoming t = b ++ incoming t' /\ zlen b <= n /\ (b = [] -> incoming t = []) /\
        outgoing t' = outgoing t
    | (t', Err _) => incoming t' = incoming t /\ outgoing t' = outgoing t
    | (_, Panic) => False
    end;
  write_law t b :
    match chan_write_all t b with
    | (t', Ok _) => incoming t' = incoming t /\ outgoing t' = outgoing t ++ b
    | (t', Err _) => incoming t' = incoming t /\ exists sent, sent `prefix_of` b /\ outgoing t' = outgoing t ++ sent
    | (_, Panic) => False
    end;
  flush_law t :
    match chan_flush t with
    | (t', Panic) => False
    | (t', _) => incoming t' = incoming t /\ outgoing t' = outgoing t
    end;
}.

Section CallLogic.
Context {T : Type} `{LawfulChannel T}.

Lemma runs_read_some n t (Q : T -> res ErrorKind bytes -> Prop) :
  0 < n ->
  (forall t' b, incoming t = b ++ incoming t' -> zlen b <= n -> (b = [] -> incoming t = []) ->
     outgoing t' = outgoing t -> Q t' (Ok b)) ->
  (forall t' e, incoming t' = incoming t -> outgoing t' = outgoing t -> Q t' (Err e)) ->
  runs (read_some n) t Q.
Proof.
  intros Hn HO HE. pose proof (read_law t n Hn) as L. unfold runs, read_some.
  destruct (chan_read t n) as [t' [b|e|]]; [|..|done]; eexists _, _; (split; [done|]); naive_solver.
Qed.

Lemma runs_write_all b t (Q : T -> res ErrorKind unit -> Prop) :
  (forall t', incoming t' = incoming t -> outgoing t' = outgoing t ++ b -> Q t' (Ok tt)) ->
  (forall t' e sent, incoming t' = incoming t -> sent `prefix_of` b -> outgoing t' = outgoing t ++ sent -> Q t' (Err e)) ->
  runs (write_all b) t Q.
Proof.
  intros HO HE. pose proof (write_law t b) as L. unfold runs, write_all.
  destruct (chan_write_all t b) as [t' [[]|e|]]; [|..|done]; eexists _, _; (split; [done|]); naive_solver.
Qed.

Lemma runs_flush t (Q : T -> res ErrorKind unit -> Prop) :
  (forall t' r, r <> Panic -> incoming t' = incoming t -> outgoing t' = outgoing t -> Q t' r) ->
  runs flush t Q.
Proof.
  intros HQ. pose proof (flush_law t) as L. unfold runs, flush.
  destruct (chan_flush t) as [t' [[]|e|]]; [..|done]; eexists _, _; (split; [done|]); naive_solver.
Qed.
End CallLogic.

(** ** A concrete connection: [feed] arrives [grain] bytes at a time. *)

Record Pipe := { feed : bytes; grain : Z; drained : bytes }.
#[export] Instance eta_pipe : Eta Pipe := fun p => Build_Pipe (feed p) (grain p) (drained p).

#[export] Instance pipe_channel : Channel Pipe := {
  chan_read p n :=
    let k := Z.min n (Z.max 1 (grain p)) in
    (p <| feed := zdrop k (feed p) |>, Ok (ztake k (feed p)));
  chan_write_all p b := (p <| drained := drained p ++ b |>, Ok tt);
  chan_flush p := (p, Ok tt);
}.

#[export] Program Instance lawful_pipe : LawfulChannel Pipe := {
  incoming := feed;
  outgoing := drained;
}.
Next Obligation.
  intros p n Hn. cbn. split_and!.
  - symmetry. apply ztake_zdrop.
  - rewrite zlen_ztake. lia.
  - intros E. apply zlen_zero. apply (f_equal zlen) in E. rewrite zlen_ztake in E.
    change (zlen []) with 0 in E. pose proof (zlen_nonneg (feed p)). lia.
  - done.
Qed.
Next Obligation. done. Qed.
Next Obligation. done. Qed.
