(* ===== verification/Plist.v ===== *)
(** * Property lists

    The [plist] crate is not part of the program.  [Plist] is what the program
    uses of it: values, dictionaries and the XML and binary forms; [LawfulPlist]
    is what the program relies on.  [sample_plist] is a concrete instance. *)

From S2P Require Import Prelude Windows.
From stdpp Require Import base tactics numbers list strings countable.
From Stdlib Require Import ZArith Lia.

Open Scope Z_scope.

(** [Result<A, E>] of a function that is only called. *)
Definition of_result {E A} (r : E + A) : res E A := match r with inl e => Err e | inr a => Ok a end.

Definition i64 (z : Z) : Prop := - 2 ^ 63 <= z < 2 ^ 63.

Class Plist := {
  Value : Type;
  Dictionary : Type;
  PlistError : Type;
  dict_new : Dictionary;
  dict_insert : Dictionary -> string -> Value -> Dictionary;
  dict_get : Dictionary -> string -> option Value;
  v_dictionary : Dictionary -> Value;
  v_array : list Value -> Value;
  v_boolean : bool -> Value;
  v_data : bytes -> Value;
  v_integer : Z -> Value;
  v_string : string -> Value;
  as_dictionary : Value -> option Dictionary;
  as_array : Value -> option (list Value);
  as_boolean : Value -> option bool;
  as_data : Value -> option bytes;
  as_signed_integer : Value -> option Z;
  as_string : Value -> option string;
  to_writer_xml : Value -> PlistError + bytes;
  to_writer_binary : Value -> PlistError + bytes;
  from_reader_xml : bytes -> PlistError + Value;
  from_reader : bytes -> PlistError + Value;
}.

Definition contains_key `{Plist} (d : Dictionary) (key : string) : bool := bool_decide (is_Some (dict_get d key)).

Definition PLIST_CLOSE_TAG : bytes := bytes_of "</plist>".

(** A dictionary is a map, the constructors and accessors agree, an [Integer]
    made from an [i64] reads back, what is written is read back, and an XML
    document starts with its [<] and ends with its only closing tag. *)
Class LawfulPlist `{Plist} : Prop := {
  get_new key : dict_get dict_new key = None;
  get_insert d key v key' : dict_get (dict_insert d key v) key' = if decide (key = key') then Some v else dict_get d key';
  dictionary_law d : as_dictionary (v_dictionary d) = Some d;
  array_law l : as_array (v_array l) = Some l;
  boolean_law b : as_boolean (v_boolean b) = Some b;
  data_law b : as_data (v_data b) = Some b;
  integer_law z : i64 z -> as_signed_integer (v_integer z) = Some z;
  signed_law v z : as_signed_integer v = Some z -> i64 z;
  string_law s : as_string (v_string s) = Some s;
  xml_law v b : to_writer_xml v = inr b -> from_reader_xml b = inr v;
  reader_xml_law v b : to_writer_xml v = inr b -> from_reader b = inr v;
  reader_binary_law v b : to_writer_binary v = inr b -> from_reader b = inr v;
  xml_bytes v b : to_writer_xml v = inr b -> is_bytes b /\ zget b 0 = Some 60;
  xml_frame v b : to_writer_xml v = inr b ->
    exists pre, b = pre ++ PLIST_CLOSE_TAG /\ window_position PLIST_CLOSE_TAG b = Some (zlen pre);
  binary_bytes v b : to_writer_binary v = inr b -> is_bytes b /\ b <> [];
}.

Create HintDb plist.
#[export] Hint Rewrite @get_new @get_insert @dictionary_law @array_law @boolean_law @data_law @string_law : plist.

Section Facts.
Context `{LawfulPlist}.

Lemma get_insert_eq d key v : dict_get (dict_insert d key v) key = Some v.
Proof. rewrite get_insert. by rewrite decide_True. Qed.

Lemma get_insert_ne d key key' v : key <> key' -> dict_get (dict_insert d key v) key' = dict_get d key'.
Proof. intros. rewrite get_insert. by rewrite decide_False. Qed.
End Facts.

(** ** A concrete instance

    Values are trees; the text of a value is the binary digits of its code,
    between a [<] and the closing tag. *)

Module Sample.

Definition leaf : Type := (bool + (bytes + (Z + string)))%type.
Definition tree : Type := gen_tree leaf.

Fixpoint flatten (d : list (string * tree)) : list tree :=
  match d with [] => [] | (key, v) :: d => GenLeaf (inr (inr (inr key))) :: v :: flatten d end.

Fixpoint unflatten (l : list tree) : option (list (string * tree)) :=
  match l with
  | [] => Some []
  | GenLeaf (inr (inr (inr key))) :: v :: l => (fun d => (key, v) :: d) <$> unflatten l
  | _ => None
  end.

Fixpoint lookup (d : list (string * tree)) (key : string) : option tree :=
  match d with [] => None | (k, v) :: d => if decide (k = key) then Some v else lookup d key end.

Fixpoint digits (p : positive) : bytes :=
  match p with xH => [] | xO p => 48 :: digits p | xI p => 49 :: digits p end.

Fixpoint number (b : bytes) : positive :=
  match b with [] => xH | x :: b => if x =? 48 then xO (number b) else xI (number b) end.

Definition text (v : tree) : bytes := digits (encode v).
Definition value (b : bytes) : unit + tree := match decode (number b) with Some v => inr v | None => inl tt end.

Lemma number_digits p : number (digits p) = p.
Proof. induction p; cbn; by f_equal. Qed.
Lemma value_text v : value (text v) = inr v.
Proof. unfold value, text. by rewrite number_digits, decode_encode. Qed.
Lemma unflatten_flatten d : unflatten (flatten d) = Some d.
Proof. induction d as [|[k v] d IH]; cbn; [done|]. by rewrite IH. Qed.
Lemma digits_range p : Forall (fun x => x = 48 \/ x = 49) (digits p).
Proof. induction p; cbn; constructor; auto. Qed.

Definition xml (v : tree) : bytes := 60 :: text v ++ PLIST_CLOSE_TAG.
Definition binary (v : tree) : bytes := 98 :: text v.
Definition unxml (b : bytes) : unit + tree :=
  match b with 60 :: b => value (ztake (zlen b - zlen PLIST_CLOSE_TAG) b) | _ => inl tt end.

#[export] Instance sample_plist : Plist := {
  Value := tree;
  Dictionary := list (string * tree);
  PlistError := unit;
  dict_new := [];
  dict_insert d key v := (key, v) :: d;
  dict_get := lookup;
  v_dictionary d := GenNode 1 (flatten d);
  v_array l := GenNode 0 l;
  v_boolean b := GenLeaf (inl b);
  v_data b := GenLeaf (inr (inl b));
  v_integer z := GenLeaf (inr (inr (inl z)));
  v_string s := GenLeaf (inr (inr (inr s)));
  as_dictionary v := match v with GenNode 1 l => unflatten l | _ => None end;
  as_array v := match v with GenNode 0 l => Some l | _ => None end;
  as_boolean v := match v with GenLeaf (inl b) => Some b | _ => None end;
  as_data v := match v with GenLeaf (inr (inl b)) => Some b | _ => None end;
  as_signed_integer v :=
    match v with GenLeaf (inr (inr (inl z))) => if bool_decide (i64 z) then Some z else None | _ => None end;
  as_string v := match v with GenLeaf (inr (inr (inr s))) => Some s | _ => None end;
  to_writer_xml v := inr (xml v);
  to_writer_binary v := inr (binary v);
  from_reader_xml := unxml;
  from_reader b := match b with 98 :: b => value b | _ => unxml b end;
}.

Lemma unxml_xml v : unxml (xml v) = inr v.
Proof.
  unfold unxml, xml. rewrite ztake_app_le by (zl).
  replace (zlen (text v ++ PLIST_CLOSE_TAG) - zlen PLIST_CLOSE_TAG) with (zlen (text v)) by zl.
  rewrite ztake_all by done. apply value_text.
Qed.

Lemma text_bytes v : is_bytes (text v).
Proof. apply Forall_forall. intros x Hin. pose proof (proj1 (Forall_forall _ _) (digits_range _) x Hin) as Hx. revert Hx. cbn. intros [->| ->]; by_compute. Qed.

Lemma xml_tag v : window_position PLIST_CLOSE_TAG (xml v) = Some (zlen (60 :: text v)).
Proof.
  unfold xml. cbn [window_position]. rewrite bool_decide_eq_false_2.
  - rewrite <- (app_nil_r PLIST_CLOSE_TAG). rewrite (window_skip _ _ _ 60 (bytes_of "/plist>")); [|done|].
    + cbn [fmap option_fmap option_map]. by rewrite zlen_cons.
    + intros Hin%list_elem_of_In. by destruct (proj1 (Forall_forall _ _) (digits_range (encode v)) _ Hin).
  - change (zlen PLIST_CLOSE_TAG) with 8. intros E. apply (f_equal (fun l => zget l 1)) in E.
    unfold zget, ztake in E. cbn in E. pose proof (digits_range (encode v)) as F. unfold text in E.
    destruct (digits (encode v)) as [|x l]; [discriminate|]. cbn in E. injection E as ->.
    inversion F as [|? ? [?|?]]; discriminate.
Qed.

#[export] Instance sample_lawful : LawfulPlist.
Proof.
  split; cbn.
  - done.
  - done.
  - apply unflatten_flatten.
  - done.
  - done.
  - done.
  - intros. by rewrite bool_decide_eq_true_2.
  - intros v z. repeat case_match; try done. intros [= <-]. by eapply bool_decide_eq_true_1.
  - done.
  - intros v b [= <-]. apply unxml_xml.
  - intros v b [= <-]. apply unxml_xml.
  - intros v b [= <-]. apply value_text.
  - intros v b [= <-]. split; [|done]. constructor; [by_compute|]. apply Forall_app. split; [apply text_bytes|concrete_bytes].
  - intros v b [= <-]. exists (60 :: text v). split; [done|]. apply xml_tag.
  - intros v b [= <-]. split; [|done]. constructor; [by_compute|apply text_bytes].
Qed.
End Sample.
