(* ===== verification/AsrPayload.v ===== *)
(** * The ASR payload stream (src/src/asr_server/digest.rs, source.rs, payload.rs)

    The image goes to the device in blocks, each followed by its digest when the
    device asked for digests; a second digest runs over the data alone.  The
    image source, the connection and the observer that is told of the progress
    are type classes. *)

From S2P Require Import Prelude Sha Channel.
From stdpp Require Import base tactics numbers list.
From Stdlib Require Import ZArith Lia.

Open Scope Z_scope.

(** ** digest.rs *)

Definition SHA1_DIGEST_LEN : Z := 20.
Definition SHA256_DIGEST_LEN : Z := 32.
Definition SHA384_DIGEST_LEN : Z := 48.

Inductive ChecksumType := CkSha1 | CkSha256.
#[export] Instance ChecksumType_eq_dec : EqDecision ChecksumType.
Proof. solve_decision. Defined.

Definition wire_value (c : ChecksumType) : Z := match c with CkSha1 => 0 | CkSha256 => 1 end.
Definition from_wire (value : Z) : option ChecksumType :=
  if value =? 0 then Some CkSha1 else if value =? 1 then Some CkSha256 else None.
Definition digest_len (c : ChecksumType) : Z :=
  match c with CkSha1 => SHA1_DIGEST_LEN | CkSha256 => SHA256_DIGEST_LEN end.

Inductive BlockHasher := BhSha1 (h : Hasher Words5) | BhSha256 (h : Hasher Words8).

Definition block_hasher (c : ChecksumType) : BlockHasher :=
  match c with
  | CkSha1 => BhSha1 (with_initial_state (H := sha1_hash) Sha1.initial)
  | CkSha256 => BhSha256 (with_initial_state (H := sha256_hash) Sha256.initial)
  end.

Definition block_update {E} (h : BlockHasher) (b : bytes) : res E BlockHasher :=
  match h with
  | BhSha1 h => let? h := update (H := sha1_hash) h b in Ok (BhSha1 h)
  | BhSha256 h => let? h := update (H := sha256_hash) h b in Ok (BhSha256 h)
  end.

Definition block_finish {E} (h : BlockHasher) : res E bytes :=
  match h with BhSha1 h => finish (H := sha1_hash) h | BhSha256 h => finish (H := sha256_hash) h end.

Definition checksum_digest {E} (c : ChecksumType) (b : bytes) : res E bytes :=
  let? h := block_update (block_hasher c) b in block_finish h.

Inductive StreamDigestKind := SdSha1 | SdSha384.

Definition for_expected_hash_len (len : Z) : StreamDigestKind := if len =? SHA384_DIGEST_LEN then SdSha384 else SdSha1.
Definition stream_digest_len (k : StreamDigestKind) : Z :=
  match k with SdSha1 => SHA1_DIGEST_LEN | SdSha384 => SHA384_DIGEST_LEN end.

Inductive StreamHasher := ShSha1 (h : Hasher Words5) | ShSha384 (h : Hasher Words8).

Definition stream_hasher (k : StreamDigestKind) : StreamHasher :=
  match k with
  | SdSha1 => ShSha1 (with_initial_state (H := sha1_hash) Sha1.initial)
  | SdSha384 => ShSha384 (with_initial_state (H := sha512_hash) Sha512.initial384)
  end.

Definition stream_update {E} (h : StreamHasher) (b : bytes) : res E StreamHasher :=
  match h with
  | ShSha1 h => let? h := update (H := sha1_hash) h b in Ok (ShSha1 h)
  | ShSha384 h => let? h := update (H := sha512_hash) h b in Ok (ShSha384 h)
  end.

Definition stream_finish {E} (h : StreamHasher) : res E bytes :=
  match h with
  | ShSha1 h => finish (H := sha1_hash) h
  | ShSha384 h => let? d := finish (H := sha512_hash) h in slice d 0 SHA384_DIGEST_LEN
  end.

Definition kind_digest {E} (k : StreamDigestKind) (b : bytes) : res E bytes :=
  let? h := stream_update (stream_hasher k) b in stream_finish h.

(** ** source.rs *)

Class ImageSource (I : Type) := {
  src_len : I -> Z;
  read_exact_at : I -> Z -> Z -> I * res ErrorKind bytes;
}.

Definition check_range (len offset request : Z) : res ErrorKind unit :=
  let? fin := ok_or (checked_add 64 offset request) InvalidInput in
  if len <? fin then Err UnexpectedEof else Ok tt.

Record MemoryImageSource := { mis_bytes : bytes }.

#[export] Instance memory_source : ImageSource MemoryImageSource := {
  src_len s := zlen (mis_bytes s);
  read_exact_at s offset n :=
    (s, let? _ := check_range (zlen (mis_bytes s)) offset n in slice (mis_bytes s) offset (offset + n));
}.

(** [std::fs::File]: its length, and a read of exactly [n] bytes after a seek. *)
Class FileIo (F : Type) := {
  file_len : F -> res ErrorKind Z;
  file_seek : F -> Z -> F * res ErrorKind unit;
  file_read_exact : F -> Z -> F * res ErrorKind bytes;
}.

Record FileImageSource (F : Type) := MkFile { fis_file : F; fis_len : Z }.
Arguments MkFile {F}.
Arguments fis_file {F} _.
Arguments fis_len {F} _.
#[export] Instance eta_file F : Eta (FileImageSource F) := fun s => MkFile (fis_file s) (fis_len s).

Section File.
Context {F : Type} `{FileIo F}.

(** [open] and [open_prefix] on a file that has been opened. *)
Definition open_file (file : F) : res ErrorKind (FileImageSource F) :=
  let? len := file_len file in Ok (MkFile file len).
Definition open_prefix (file : F) (len : Z) : res ErrorKind (FileImageSource F) :=
  let? source := open_file file in
  if fis_len source <? len then Err InvalidInput else Ok (source <| fis_len := len |>).

Definition file_read_at (s : FileImageSource F) (offset n : Z) : FileImageSource F * res ErrorKind bytes :=
  match check_range (fis_len s) offset n with
  | Ok _ =>
      if n =? 0 then (s, Ok []) else
      let '(file, r) := file_seek (fis_file s) offset in
      let s := s <| fis_file := file |> in
      match r with
      | Ok _ => let '(file, b) := file_read_exact (fis_file s) n in (s <| fis_file := file |>, b)
      | Err e => (s, Err e)
      | Panic => (s, Panic)
      end
  | Err e => (s, Err e)
  | Panic => (s, Panic)
  end.

#[export] Instance file_source : ImageSource (FileImageSource F) := {
  src_len := fis_len;
  read_exact_at := file_read_at;
}.
End File.

(** ** payload.rs *)

(** producer.rs: where the serving thread is. *)
Inductive AsrPhase :=
| Idle | OpeningImage | DiallingDataPort | AwaitingRequest | AnsweringInitiate | ServingMetadata | ServingOob
| ReadingImage | DigestingBlock | WritingPayload | WritingDigest | Reporting | FlushingPayload.

Definition DEFAULT_BLOCK_LEN : Z := 0x10_0000.

Record PayloadPlan := {
  plan_size : Z;
  checksum_chunk_size : Z;
  checksum_type : ChecksumType;
  stream_digest_kind : StreamDigestKind;
}.

(** [usize::try_from] of a [u64] succeeds: [usize] has 64 bits. *)
Definition block_len (p : PayloadPlan) : Z := if checksum_chunk_size p =? 0 then DEFAULT_BLOCK_LEN else checksum_chunk_size p.
Definition plan_digest_len (p : PayloadPlan) : Z := if checksum_chunk_size p =? 0 then 0 else digest_len (checksum_type p).
Definition block_count (p : PayloadPlan) : Z := (plan_size p + block_len p - 1) / block_len p.
Definition wire_len {E} (p : PayloadPlan) : res E Z :=
  let? digests := mul_or_panic 64 (block_count p) (plan_digest_len p) in
  add_or_panic 64 (plan_size p) digests.
Definition block_data_len_at (p : PayloadPlan) (offset : Z) : option Z :=
  if plan_size p <=? offset then None else Some (Z.min (plan_size p - offset) (block_len p)).

Class PayloadObserver (V : Type) := {
  block_sent : V -> Z -> Z -> V;
  should_stop : V -> V * bool;
  entered_phase : V -> AsrPhase -> Z -> V;
}.

#[export] Instance unit_observer : PayloadObserver unit := {
  block_sent o _ _ := o;
  should_stop o := (o, false);
  entered_phase o _ _ := o;
}.

Record PayloadSummary := {
  data_bytes : Z;
  wire_bytes : Z;
  blocks : Z;
  stream_digest : bytes;
  stopped_early : bool;
}.

(** What the serving code holds at once: the image, the connection, the observer. *)
Record Wire (I T V : Type) := MkWire { w_source : I; w_out : T; w_observer : V }.
Arguments MkWire {I T V}.
Arguments w_source {I T V} _.
Arguments w_out {I T V} _.
Arguments w_observer {I T V} _.
#[export] Instance eta_wire I T V : Eta (Wire I T V) := fun w => MkWire (w_source w) (w_out w) (w_observer w).

(** The locals of [stream_payload]. *)
Record Progress := { pg_buffer : bytes; pg_hasher : StreamHasher; pg_offset : Z; pg_blocks : Z; pg_wire : Z }.
#[export] Instance eta_progress : Eta Progress := fun p =>
  Build_Progress (pg_buffer p) (pg_hasher p) (pg_offset p) (pg_blocks p) (pg_wire p).

Section Stream.
Context {I T V : Type} `{ImageSource I, Channel T, PayloadObserver V}.
Notation P := (prog (Wire I T V) ErrorKind).

Definition phase (ph : AsrPhase) (offset : Z) : P unit :=
  writes (fun w => w <| w_observer := entered_phase (w_observer w) ph offset |>).

Definition source_read (offset n : Z) : prog I ErrorKind bytes := fun s => Some (read_exact_at s offset n).

(** The digest goes behind the data in the buffer. *)
Definition append_digest {E} (plan : PayloadPlan) (buffer : bytes) (data_len : Z) : res E bytes :=
  if plan_digest_len plan =? 0 then Ok buffer else
  let? data := slice buffer 0 data_len in
  let? block_digest := checksum_digest (checksum_type plan) data in
  if zlen block_digest =? plan_digest_len plan then copy_at buffer data_len block_digest else Panic.

(** One turn of the loop, up to [observer.should_stop()]. *)
Definition send_block (plan : PayloadPlan) (p : Progress) (data_len : Z) : P Progress :=
  let offset := pg_offset p in
  let* frame_len := done_with (add_or_panic 64 data_len (plan_digest_len plan)) in
  let* _ := phase ReadingImage offset in
  let* data := zoom w_source (source_read offset data_len) in
  let* buffer := done_with (copy_at (pg_buffer p) 0 data) in
  let* _ := phase DigestingBlock offset in
  let* hashed := done_with (slice buffer 0 data_len) in
  let* hasher := done_with (stream_update (pg_hasher p) hashed) in
  let* buffer := done_with (append_digest plan buffer data_len) in
  let* _ := phase WritingPayload offset in
  let* frame := done_with (slice buffer 0 frame_len) in
  let* _ := zoom w_out (write_all frame) in
  let* wire := done_with (add_or_panic 64 (pg_wire p) frame_len) in
  let* _ := phase Reporting offset in
  let* _ := writes (fun w => w <| w_observer := block_sent (w_observer w) offset data_len |>) in
  let* next := done_with (add_or_panic 64 offset data_len) in
  let* count := done_with (add_or_panic 64 (pg_blocks p) 1) in
  done_with (Ok {| pg_buffer := buffer; pg_hasher := hasher; pg_offset := next; pg_blocks := count; pg_wire := wire |}).

Definition asked_to_stop : P bool := fun w =>
  let '(o, stop) := should_stop (w_observer w) in Some (w <| w_observer := o |>, Ok stop).

(** The loop: the locals and [stopped_early]. *)
Fixpoint send_blocks (fuel : nat) (plan : PayloadPlan) (p : Progress) : P (Progress * bool) :=
  match fuel with
  | O => out_of_turns
  | S fuel =>
      match block_data_len_at plan (pg_offset p) with
      | None => done_with (Ok (p, false))
      | Some data_len =>
          let* p := send_block plan p data_len in
          let* stop := asked_to_stop in
          if stop && (pg_offset p <? plan_size plan) then done_with (Ok (p, true)) else send_blocks fuel plan p
      end
  end.

Definition stream_payload (fuel : nat) (plan : PayloadPlan) : P PayloadSummary :=
  let* len := reads (fun w => src_len (w_source w)) in
  if len <? plan_size plan then done_with (Err InvalidInput) else
  if block_len plan =? 0 then done_with (Err InvalidInput) else
  let* buffer_len := done_with (add_or_panic 64 (block_len plan) (plan_digest_len plan)) in
  let start := {| pg_buffer := zeros buffer_len; pg_hasher := stream_hasher (stream_digest_kind plan);
                  pg_offset := 0; pg_blocks := 0; pg_wire := 0 |} in
  let* (p, stopped) := send_blocks fuel plan start in
  let* _ := phase FlushingPayload (pg_offset p) in
  let* _ := zoom w_out flush in
  let* digest := done_with (stream_finish (pg_hasher p)) in
  done_with (Ok {| data_bytes := pg_offset p; wire_bytes := pg_wire p; blocks := pg_blocks p;
                   stream_digest := digest; stopped_early := stopped |}).
End Stream.
