(* ===== verification/AsrPayloadProps.v ===== *)
(** * The payload stream is the image, block by block

    What [stream_payload] puts on the wire, stated with the FIPS digests; the
    device's side reads the image back. *)

From S2P Require Import Prelude Sha ShaProps Channel AsrPayload.
From stdpp Require Import base tactics numbers list.
From Stdlib Require Import ZArith Lia.

Open Scope Z_scope.

(** ** Digests *)

Definition checksum_spec (c : ChecksumType) (b : bytes) : bytes :=
  match c with CkSha1 => Fips.SHA1 b | CkSha256 => Fips.SHA256 b end.
Definition stream_spec (k : StreamDigestKind) (b : bytes) : bytes :=
  match k with SdSha1 => Fips.SHA1 b | SdSha384 => Fips.SHA384 b end.

Lemma zlen_SHA1 m : zlen (Fips.SHA1 m) = 20.
Proof. unfold Fips.SHA1. by rewrite (zlen_digest _ _ _ _ _ _ _ 5). Qed.
Lemma zlen_SHA256' m : zlen (Fips.SHA256 m) = 32.
Proof. unfold Fips.SHA256. by rewrite (zlen_digest _ _ _ _ _ _ _ 8). Qed.

Lemma zlen_checksum c b : zlen (checksum_spec c b) = digest_len c.
Proof. destruct c; [apply zlen_SHA1|apply zlen_SHA256']. Qed.

Lemma checksum_digest_ok {E} c b : checksum_digest (E := E) c b = Ok (checksum_spec c b).
Proof.
  destruct c; unfold checksum_digest, block_update, block_hasher, checksum_spec.
  - pose proof (streamed1 (E := E) [b]) as Hs. cbn [updates foldl res_bind concat] in Hs. rewrite app_nil_r in Hs.
    destruct (update _ b); [exact Hs|done..].
  - pose proof (streamed256 (E := E) [b]) as Hs. cbn [updates foldl res_bind concat] in Hs. rewrite app_nil_r in Hs.
    destruct (update _ b); [exact Hs|done..].
Qed.

(** The stream hasher has taken in [m]. *)
Definition hashed (k : StreamDigestKind) (m : bytes) (h : StreamHasher) : Prop :=
  match k, h with
  | SdSha1, ShSha1 h => absorbed (H := sha1_hash) Sha1.initial m h
  | SdSha384, ShSha384 h => absorbed (H := sha512_hash) Sha512.initial384 m h
  | _, _ => False
  end.

Lemma hashed_new k : hashed k [] (stream_hasher k).
Proof. destruct k; [apply (absorbed_new (H0 := sha1_lawful))|apply (absorbed_new (H0 := sha512_lawful))]. Qed.

Lemma stream_update_ok {E} k m h b :
  hashed k m h -> exists h', stream_update (E := E) h b = Ok h' /\ hashed k (m ++ b) h'.
Proof.
  destruct k, h; try done; cbn [hashed stream_update]; intros Hh.
  - destruct (update_ok (H0 := sha1_lawful) (E := E) _ _ _ b Hh) as (h'&->&?). by eexists.
  - destruct (update_ok (H0 := sha512_lawful) (E := E) _ _ _ b Hh) as (h'&->&?). by eexists.
Qed.

Lemma stream_finish_ok {E} k m h : hashed k m h -> stream_finish (E := E) h = Ok (stream_spec k m).
Proof.
  destruct k, h; try done; cbn [hashed stream_finish stream_spec]; intros Hh.
  - rewrite (finish_ok (H0 := sha1_lawful) _ _ _ Hh). f_equal. apply (digest_ext typed5).
    + intros s b Hs. split; [by apply compress1_fips|apply typed_compress1].
    + repeat constructor; by_compute.
  - rewrite (finish_ok (H0 := sha512_lawful) _ _ _ Hh). cbn [res_bind].
    rewrite (digest_ext (fun _ => True) _ Fips.compress512); [|intros s b _; split; [apply compress512_fips|done]|done].
    pose proof (zlen_digest Fips.compress512 words8 128 16 8 Sha512.initial384 m 8 (fun _ => eq_refl)) as L.
    rewrite slice_ok by (change SHA384_DIGEST_LEN with 48; first [lia | cbn [words_of block_bytes length_size word_size sha512_hash]; change SHA512_BLOCK_SIZE with 128; lia]). by rewrite zdrop_0.
Qed.

(** ** Lawful sources *)

Class LawfulSource (I : Type) `{ImageSource I} := {
  image : I -> bytes;
  len_law s : src_len s = zlen (image s);
  read_at_law s offset n : 0 <= offset -> 0 <= n ->
    match read_exact_at s offset n with
    | (s', Ok b) => image s' = image s /\ offset + n <= zlen (image s) /\ b = ztake n (zdrop offset (image s))
    | (s', Err _) => image s' = image s
    | (_, Panic) => False
    end;
}.

#[export] Program Instance lawful_memory : LawfulSource MemoryImageSource := { image := mis_bytes }.
Next Obligation. done. Qed.
Next Obligation.
  intros s offset n Ho Hn. cbn. unfold check_range, checked_add, ok_or. destruct (offset + n <? 2 ^ 64) eqn:E1; [|done]. cbn [res_bind].
  destruct (_ <? offset + n) eqn:E2; [done|]. bools. cbn [res_bind]. rewrite slice_ok by lia.
  split_and!; [done|lia|]. by replace (offset + n - offset) with n by lia.
Qed.

Lemma runs_source_read {I} `{LawfulSource I} s offset n (Q : I -> res ErrorKind bytes -> Prop) :
  0 <= offset -> 0 <= n ->
  (forall s', image s' = image s -> offset + n <= zlen (image s) -> Q s' (Ok (ztake n (zdrop offset (image s))))) ->
  (forall s' e, image s' = image s -> Q s' (Err e)) ->
  runs (source_read offset n) s Q.
Proof.
  intros Ho Hn HO HE. pose proof (read_at_law s offset n Ho Hn) as HR. unfold runs, source_read.
  destruct (read_exact_at s offset n) as [s' [b|e|]]; [|..|done]; eexists _, _; (split; [done|]); [|auto].
  destruct HR as (?&?&->). auto.
Qed.

(** A file whose length does not change behind the program's back. *)
Class LawfulFile (F : Type) `{FileIo F} := {
  contents : F -> bytes;
  cursor : F -> Z;
  file_len_law f : match file_len f with Ok n => n = zlen (contents f) | Err _ => True | Panic => False end;
  seek_law f pos : match file_seek f pos with
    | (f', Ok _) => contents f' = contents f /\ cursor f' = pos
    | (f', Err _) => contents f' = contents f
    | (_, Panic) => False end;
  read_exact_law f n : match file_read_exact f n with
    | (f', Ok b) => contents f' = contents f /\ cursor f + n <= zlen (contents f) /\ b = ztake n (zdrop (cursor f) (contents f))
    | (f', Err _) => contents f' = contents f
    | (_, Panic) => False end;
}.

(** A file source behaves as the prefix of the file it was opened on. *)
Lemma file_source_law {F} `{LawfulFile F} (s : FileImageSource F) offset n :
  fis_len s <= zlen (contents (fis_file s)) -> 0 <= offset -> 0 <= n ->
  match read_exact_at s offset n with
  | (s', Ok b) => fis_len s' = fis_len s /\ contents (fis_file s') = contents (fis_file s) /\
      offset + n <= fis_len s /\ b = ztake n (zdrop offset (ztake (fis_len s) (contents (fis_file s))))
  | (s', Err _) => fis_len s' = fis_len s /\ contents (fis_file s') = contents (fis_file s)
  | (_, Panic) => False
  end.
Proof.
  intros Hl Ho Hn. cbn. unfold file_read_at, check_range, checked_add, ok_or.
  destruct (offset + n <? 2 ^ 64) eqn:E1; [|done]. cbn [res_bind]. destruct (_ <? offset + n) eqn:E2; [done|]. bools.
  destruct (Z.eqb_spec n 0) as [->|]; [split_and!; [done..|lia|done]|].
  pose proof (seek_law (fis_file s) offset) as HS. destruct (file_seek _ _) as [f [?|?|]]; [|done|done].
  destruct HS as [Ec Ep]. cbn. pose proof (read_exact_law f n) as HR.
  destruct (file_read_exact f n) as [f' [b|?|]]; [|split; [done|cbn; congruence]|done].
  destruct HR as (Ec'&_&->). split_and!; [done|cbn; congruence|lia|].
  rewrite Ep, Ec. replace (fis_len s) with (offset + (fis_len s - offset)) by lia.
  rewrite zdrop_ztake_comm by lia. rewrite ztake_ztake. f_equal. lia.
Qed.

(** ** What is on the wire *)

Definition frame (plan : PayloadPlan) (b : bytes) : bytes :=
  b ++ (if plan_digest_len plan =? 0 then [] else checksum_spec (checksum_type plan) b).
Definition frames (plan : PayloadPlan) (data : bytes) : bytes := concat (map (frame plan) (slice_chunks (block_len plan) data)).

Record plan_ok (plan : PayloadPlan) : Prop := {
  po_size : 0 <= plan_size plan;
  po_chunk : 0 <= checksum_chunk_size plan < 2 ^ 63;
  po_wire : plan_size plan + block_count plan * plan_digest_len plan < 2 ^ 64;
}.

Section Frames.
Context (plan : PayloadPlan) (Hp : plan_ok plan).
Notation B := (block_len plan).
Notation D := (plan_digest_len plan).

Lemma block_len_pos : 1 <= B < 2 ^ 63.
Proof. destruct Hp. unfold block_len. destruct (Z.eqb_spec (checksum_chunk_size plan) 0); [by_compute|lia]. Qed.

Lemma digest_len_range : 0 <= D <= 32.
Proof. unfold plan_digest_len. destruct (_ =? 0); [lia|]. destruct (checksum_type plan); by_compute. Qed.

Lemma zlen_frame b : zlen (frame plan b) = zlen b + D.
Proof.
  unfold frame. rewrite zlen_app. f_equal. destruct (Z.eqb_spec D 0) as [->|Hd]; [done|].
  rewrite zlen_checksum. unfold plan_digest_len in *. by destruct (_ =? 0).
Qed.

Lemma zlen_frames data : zlen (frames plan data) = zlen data + zlen (slice_chunks B data) * D.
Proof.
  unfold frames. induction data as [|data Hd IH] using (slice_chunks_ind B (proj1 block_len_pos)); [done|].
  rewrite slice_chunks_step by (done || apply block_len_pos). cbn [map concat].
  rewrite zlen_app, zlen_frame, IH, zlen_cons, zlen_ztake, zlen_zdrop.
  pose proof block_len_pos. pose proof (zlen_nonneg data). lia.
Qed.

(** The stream up to a block boundary, and the next block. *)
Lemma frames_step img off n :
  0 <= off -> off mod B = 0 -> 0 < n <= B -> off + n <= zlen img ->
  frames plan (ztake (off + n) img) = frames plan (ztake off img) ++ frame plan (ztake n (zdrop off img)) /\
  slice_chunks B (ztake (off + n) img) = slice_chunks B (ztake off img) ++ [ztake n (zdrop off img)].
Proof.
  intros H0 Hm Hn Hi. pose proof block_len_pos as HB.
  assert (zlen (ztake off img) = off) as Lo by (rewrite zlen_ztake; lia).
  assert (zlen (ztake n (zdrop off img)) = n) as Ln by (rewrite zlen_ztake, zlen_zdrop; lia).
  rewrite ztake_add by lia.
  assert (slice_chunks B (ztake off img ++ ztake n (zdrop off img)) =
          slice_chunks B (ztake off img) ++ [ztake n (zdrop off img)]) as E.
  { rewrite slice_chunks_app by (lia || by rewrite Lo). f_equal. apply slice_chunks_one; [|lia].
    intros E. rewrite E in Ln. change (zlen []) with 0 in Ln. lia. }
  split; [|done]. unfold frames. rewrite E, map_app, concat_app. cbn [map concat]. by rewrite app_nil_r.
Qed.

Lemma frames_prefix img off :
  0 <= off <= plan_size plan -> plan_size plan <= zlen img -> off mod B = 0 \/ off = plan_size plan ->
  frames plan (ztake off img) `prefix_of` frames plan (ztake (plan_size plan) img).
Proof.
  intros H0 Hs [Hm| ->]; [|done]. pose proof block_len_pos as HB.
  replace (plan_size plan) with (off + (plan_size plan - off)) by lia. rewrite ztake_add by lia.
  unfold frames. rewrite slice_chunks_app; [|lia|rewrite zlen_ztake; replace (Z.max 0 (Z.min off (zlen img))) with off by lia; done].
  rewrite map_app, concat_app. by apply prefix_app_r.
Qed.

Lemma block_count_range : 0 <= block_count plan <= plan_size plan.
Proof.
  pose proof block_len_pos as HB. destruct Hp. unfold block_count. split; [apply Z.div_pos; lia|].
  destruct (decide (plan_size plan = 0)) as [->|]; [rewrite Z.div_small; lia|].
  apply Z.div_le_upper_bound; nia.
Qed.

Lemma count_le (img : bytes) off :
  0 <= off <= plan_size plan -> plan_size plan <= zlen img -> zlen (slice_chunks B (ztake off img)) <= block_count plan.
Proof.
  intros H0 Hs. pose proof block_len_pos as HB. rewrite zlen_chunks by lia. unfold block_count.
  apply Z.div_le_mono; [lia|]. rewrite zlen_ztake. lia.
Qed.
End Frames.

(** ** The loop *)

Ltac wire_fields := unfold set_field in *; cbn [w_source w_out w_observer] in *.

Section Stream.
Context {I T V : Type} `{LawfulSource I, LawfulChannel T, PayloadObserver V}.
Context (plan : PayloadPlan) (Hp : plan_ok plan) (img : bytes) (Hi : plan_size plan <= zlen img) (t0 : T).
Implicit Types (w : Wire I T V).
Notation B := (block_len plan).
Notation D := (plan_digest_len plan).

(** The image and the peer's stream are as they were; [off] bytes are out. *)
Record sent w (off : Z) : Prop := {
  st_image : image (w_source w) = img;
  st_incoming : incoming (w_out w) = incoming t0;
  st_outgoing : outgoing (w_out w) = outgoing t0 ++ frames plan (ztake off img);
}.

(** A failed transfer has sent the start of the whole stream. *)
Record cut w : Prop := {
  cut_image : image (w_source w) = img;
  cut_incoming : incoming (w_out w) = incoming t0;
  cut_outgoing : exists start, start `prefix_of` frames plan (ztake (plan_size plan) img) /\ outgoing (w_out w) = outgoing t0 ++ start;
}.

Record at_offset (p : Progress) (off : Z) : Prop := {
  ao_offset : pg_offset p = off;
  ao_range : 0 <= off <= plan_size plan;
  ao_block : off mod B = 0 \/ off = plan_size plan;
  ao_hasher : hashed (stream_digest_kind plan) (ztake off img) (pg_hasher p);
  ao_buffer : zlen (pg_buffer p) = B + D;
  ao_wire : pg_wire p = zlen (frames plan (ztake off img));
  ao_blocks : pg_blocks p = zlen (slice_chunks B (ztake off img));
}.

Lemma sent_cut w p off : at_offset p off -> sent w off -> cut w.
Proof.
  intros [] []. split; [done..|]. eexists. split; [|done]. by apply frames_prefix.
Qed.

Lemma append_digest_ok {E} data junk :
  zlen data + zlen junk = B + D -> zlen data <= B ->
  exists junk', append_digest (E := E) plan (data ++ junk) (zlen data) = Ok (frame plan data ++ junk') /\ zlen (frame plan data ++ junk') = B + D.
Proof.
  intros Hl Hb. pose proof (digest_len_range plan) as HD. pose proof (zlen_nonneg data). pose proof (zlen_nonneg junk).
  unfold append_digest, frame. destruct (Z.eqb_spec D 0) as [E0|Hd].
  { exists junk. rewrite app_nil_r. split; [done|]. zl. }
  rewrite slice_ok by zl. cbn [res_bind]. rewrite zdrop_0, Z.sub_0_r, ztake_app_le, ztake_all by lia.
  rewrite checksum_digest_ok. cbn [res_bind].
  assert (zlen (checksum_spec (checksum_type plan) data) = D) as Ld.
  { rewrite zlen_checksum. unfold plan_digest_len in *. by destruct (_ =? 0). }
  rewrite Ld, Z.eqb_refl. exists (zdrop D junk). unfold copy_at.
  rewrite (proj2 (splice_some _ _ _ (ztake (zlen data) (data ++ junk) ++ checksum_spec (checksum_type plan) data ++ zdrop (zlen data + D) (data ++ junk)))).
  - cbn [or_panic]. split.
    + f_equal. rewrite ztake_app_le, ztake_all by lia. rewrite zdrop_app_ge by lia.
      replace (zlen data + D - zlen data) with D by lia. by rewrite app_assoc.
    + rewrite !zlen_app, Ld, zlen_zdrop. lia.
  - rewrite Ld. split; [|done]. split; [lia|]. zl.
Qed.

Lemma send_block_spec w p off data_len :
  at_offset p off -> sent w off -> block_data_len_at plan off = Some data_len ->
  runs (send_block plan p data_len) w (fun w' r =>
    match r with
    | Ok p' => at_offset p' (off + data_len) /\ sent w' (off + data_len)
    | Err _ => cut w'
    | Panic => False
    end).
Proof.
  intros Hat Hs Hdl. pose proof (sent_cut w p off Hat Hs) as Hc. destruct Hat as [Eo Hr Hb Hh Hbuf Hw Hk].
  destruct Hs as [Hsi Hsn Hso]. pose proof (block_len_pos plan Hp) as HB. pose proof (digest_len_range plan) as HD.
  unfold block_data_len_at in Hdl. destruct (_ <=? _) eqn:Elt; [done|]. injection Hdl as Edl. bools.
  assert (off mod B = 0) as Hm by (destruct Hb; [done|lia]).
  assert (0 < data_len <= B /\ off + data_len <= plan_size plan) as [Hd Hd'] by lia.
  assert ((off + data_len) mod B = 0 \/ off + data_len = plan_size plan) as Hb'.
  { destruct (decide (data_len = B)) as [->|]; [|lia]. left. rewrite Z.add_mod, Hm, Z.mod_same by lia. by rewrite Z.mod_0_l by lia. }
  set (data := ztake data_len (zdrop off img)).
  assert (zlen data = data_len) as Ld by (unfold data; rewrite zlen_ztake, zlen_zdrop; lia).
  destruct (frames_step plan Hp img off data_len) as [Ef Ek]; [lia..|]. fold data in Ef, Ek.
  assert (zlen (frames plan (ztake (off + data_len) img)) < 2 ^ 64) as Hw64.
  { rewrite (zlen_frames plan Hp). pose proof (count_le plan Hp img (off + data_len)). destruct Hp.
    rewrite zlen_ztake. nia. }
  assert (zlen (frame plan data) = data_len + D) as Lf by (rewrite zlen_frame; lia).
  unfold send_block. rewrite Eo.
  eapply runs_pure; [apply add_or_panic_ok; lia|]. cbv beta. apply runs_update.
  apply runs_bind, runs_zoom, runs_source_read; [lia..| |].
  2:{ intros s' e Es. cbn [then_]. destruct Hc. split; wire_fields; congruence || done. }
  intros s1 Es1 _. cbn [then_]. wire_fields. rewrite Hsi. fold data.
  set (junk := zdrop data_len (pg_buffer p)). pose proof (zlen_nonneg junk).
  assert (copy_at (E := ErrorKind) (pg_buffer p) 0 data = Ok (data ++ junk)) as Ec.
  { unfold copy_at. rewrite (proj2 (splice_some _ _ _ (data ++ junk))); [done|]. rewrite Ld.
    split; [lia|done]. }
  eapply runs_pure; [exact Ec|]. cbv beta. apply runs_update.
  eapply runs_pure; [rewrite slice_ok by zl; rewrite zdrop_0, Z.sub_0_r, ztake_app_le, ztake_all by lia; done|].
  cbv beta. destruct (stream_update_ok (E := ErrorKind) _ _ _ data Hh) as (h'&Eh&Hh').
  eapply runs_pure; [exact Eh|]. cbv beta.
  destruct (append_digest_ok (E := ErrorKind) data junk) as (junk'&Ea&La); [unfold junk; rewrite zlen_zdrop; lia|lia|].
  rewrite Ld in Ea. eapply runs_pure; [exact Ea|]. cbv beta. apply runs_update.
  eapply runs_pure; [rewrite slice_ok by lia; rewrite zdrop_0, Z.sub_0_r, ztake_app_le, ztake_all by lia; done|].
  cbv beta. apply runs_bind, runs_zoom, runs_write_all; wire_fields; cbn [then_].
  2:{ intros t' e start Hin Hpre Hout. split; wire_fields; [congruence..|].
      exists (frames plan (ztake off img) ++ start). split; [|by rewrite Hout, Hso, app_assoc].
      etrans; [apply prefix_app, Hpre|]. rewrite <- Ef. apply frames_prefix; done || lia. }
  intros t' Hin Hout. eapply runs_pure; [apply add_or_panic_ok; rewrite Hw; rewrite Ef, zlen_app in Hw64; lia|].
  cbv beta. apply runs_update, runs_update. wire_fields.
  pose proof (block_count_range plan Hp) as HK. pose proof (count_le plan Hp img (off + data_len)) as Hk'.
  rewrite Ek, zlen_app in Hk'. change (zlen [data]) with 1 in Hk'.
  eapply runs_pure; [apply add_or_panic_ok; destruct Hp; nia|]. cbv beta.
  eapply runs_pure; [apply add_or_panic_ok; destruct Hp; nia|]. cbv beta. apply runs_done. split.
  - split; cbn [pg_offset pg_hasher pg_buffer pg_wire pg_blocks]; [done|lia|done| |done|..].
    + rewrite ztake_add by lia. exact Hh'.
    + by rewrite Ef, zlen_app, Lf, Hw.
    + by rewrite Ek, zlen_app, Hk.
  - split; wire_fields; [congruence..|]. by rewrite Hout, Hso, Ef, app_assoc.
Qed.

(** The loop ends at the image's end, or where the observer asked to stop. *)
Definition ended w (p : Progress) (stopped : bool) : Prop :=
  exists off, at_offset p off /\ sent w off /\ stopped = (off <? plan_size plan) /\
    ((forall v : V, (should_stop v).2 = false) -> stopped = false).

Lemma send_blocks_spec fuel : forall w p off,
  block_count plan - pg_blocks p < Z.of_nat fuel -> at_offset p off -> sent w off ->
  runs (send_blocks fuel plan p) w (fun w' r =>
    match r with Ok (p', stopped) => ended w' p' stopped | Err _ => cut w' | Panic => False end).
Proof.
  induction fuel as [|fuel IH]; intros w p off Hf Hat Hs; pose proof Hat as [Eo Hr Hb _ _ _ Hk].
  { pose proof (count_le plan Hp img off Hr Hi). lia. }
  cbn [send_blocks]. rewrite Eo. destruct (block_data_len_at plan off) as [data_len|] eqn:Edl.
  - apply runs_bind. eapply runs_weaken; [by apply send_block_spec|]. intros w1 [p1|e|]; cbn [then_]; [|done..].
    intros [Hat1 Hs1]. unfold block_data_len_at in Edl. destruct (_ <=? _) eqn:Elt; [done|]. injection Edl as Edl. bools.
    pose proof (block_len_pos plan Hp) as HB.
    destruct (frames_step plan Hp img off data_len) as [_ Ek]; [lia..|destruct Hb; [done|lia]|lia|lia|].
    pose proof Hat1 as [Eo1 _ _ _ _ _ Hk1]. rewrite Ek, zlen_app in Hk1. change (zlen [_]) with 1 in Hk1.
    apply runs_bind. unfold runs at 1, asked_to_stop. destruct (should_stop (w_observer w1)) as [v stop] eqn:Ev.
    eexists _, _. split; [done|]. cbn [then_]. set (w2 := w1 <| w_observer := v |>).
    assert (sent w2 (off + data_len)) as Hs2 by (destruct Hs1; split; unfold w2; wire_fields; done).
    rewrite Eo1. destruct (stop && _) eqn:Est.
    + apply runs_done. bools. exists (off + data_len). split_and!; [done..|by rewrite (proj2 (Z.ltb_lt _ _))|].
      intros Hns. pose proof (Hns (w_observer w1)) as Hx. rewrite Ev in Hx. cbn in Hx. congruence.
    + apply (IH _ _ (off + data_len)); [lia|done..].
  - apply runs_done. exists off. split_and!; [done..| |done]. unfold block_data_len_at in Edl.
    destruct (_ <=? _) eqn:Elt; [|done]. bools. symmetry. apply Z.ltb_ge. lia.
Qed.

Lemma stream_payload_spec fuel w :
  block_count plan < Z.of_nat fuel -> image (w_source w) = img -> w_out w = t0 ->
  runs (stream_payload fuel plan) w (fun w' r =>
    match r with
    | Ok s => exists off, sent w' off /\ 0 <= off <= plan_size plan /\
        s = {| data_bytes := off; wire_bytes := zlen (frames plan (ztake off img));
               blocks := zlen (slice_chunks B (ztake off img)); stream_digest := stream_spec (stream_digest_kind plan) (ztake off img);
               stopped_early := off <? plan_size plan |} /\
        ((forall v : V, (should_stop v).2 = false) -> off = plan_size plan)
    | Err _ => cut w'
    | Panic => False
    end).
Proof.
  intros Hf Hw Ht. pose proof (block_len_pos plan Hp) as HB. pose proof (digest_len_range plan) as HD. unfold stream_payload.
  apply runs_look. rewrite len_law, Hw, (proj2 (Z.ltb_ge _ _)) by lia. rewrite (proj2 (Z.eqb_neq _ _)) by lia.
  eapply runs_pure; [apply add_or_panic_ok; lia|]. cbv beta zeta.
  apply runs_bind. eapply runs_weaken; [apply (send_blocks_spec _ _ _ 0)|].
  - cbn. lia.
  - split; cbn [pg_offset pg_hasher pg_buffer pg_wire pg_blocks]; [done|destruct Hp; lia|by left; apply Z.mod_0_l; lia| |rewrite zlen_zeros; lia|done|done].
    apply hashed_new.
  - split; [done|by rewrite Ht|]. rewrite Ht. by rewrite app_nil_r.
  - intros w1 [[p stopped]|e|]; cbn [then_]; [|done..]. intros (off&Hat&Hs&Est&Hns).
    apply runs_update. apply runs_bind, runs_zoom, runs_flush. wire_fields. intros t' r Hr Hin Hout.
    pose proof (sent_cut _ _ _ Hat Hs) as Hcut. destruct Hat as [Eo Hra Hb Hh _ Hwi Hbl]. destruct Hs as [Hsi Hsn Hso].
    assert (forall f, sent (MkWire (w_source w1) t' f) off) as Hs' by (intros f; split; cbn [w_source w_out]; congruence).
    destruct r as [[]|e|]; cbn [then_]; [| |done].
    + eapply runs_pure; [by apply stream_finish_ok|]. cbv beta. apply runs_done. exists off.
      split_and!; [apply Hs'|lia|lia|by rewrite Eo, Hwi, Hbl, Est|].
      intros Hv. apply Hns in Hv. rewrite Hv in Est. symmetry in Est. bools. lia.
    + destruct Hcut as [_ _ Hco]. split; cbn [w_source w_out]; [done|congruence|]. by rewrite Hout.
Qed.
End Stream.

(** ** The device's side *)

(** Cuts the stream by the announced sizes and checks each block's digest. *)
Fixpoint receive_blocks (fuel : nat) (plan : PayloadPlan) (left : Z) (wire : bytes) : option bytes :=
  match fuel with
  | O => None
  | S fuel =>
      if left <=? 0 then (if bool_decide (wire = []) then Some [] else None) else
      let n := Z.min left (block_len plan) in
      let data := ztake n wire in
      if (zlen data =? n) && bool_decide (ztake (n + plan_digest_len plan) wire = frame plan data)
      then app data <$> receive_blocks fuel plan (left - n) (zdrop (n + plan_digest_len plan) wire) else None
  end.
Definition receive (plan : PayloadPlan) (wire : bytes) : option bytes :=
  receive_blocks (S (Z.to_nat (plan_size plan))) plan (plan_size plan) wire.

Section Receive.
Context (plan : PayloadPlan) (Hp : plan_ok plan).
Notation B := (block_len plan).
Notation D := (plan_digest_len plan).

Lemma frames_cons data : data <> [] -> frames plan data = frame plan (ztake B data) ++ frames plan (zdrop B data).
Proof. intros Hd. unfold frames. by rewrite slice_chunks_step by (done || apply (block_len_pos plan Hp)). Qed.

Lemma receive_blocks_frames fuel : forall left wire data,
  0 <= left < Z.of_nat fuel ->
  receive_blocks fuel plan left wire = Some data <-> wire = frames plan data /\ zlen data = left.
Proof.
  pose proof (block_len_pos plan Hp) as HB. pose proof (digest_len_range plan) as HD.
  induction fuel as [|fuel IH]; intros left wire data Hf; [lia|]. cbn [receive_blocks].
  destruct (_ <=? 0) eqn:El; bools.
  { case_bool_decide as Ew; (split; [|intros [-> Hz]]).
    - intros [= <-]. subst wire. split; [done|]. change (zlen []) with 0. lia.
    - assert (zlen data = 0) as ->%zlen_zero by lia. done.
    - done.
    - assert (zlen data = 0) as ->%zlen_zero by lia. done. }
  set (n := Z.min left B). set (d := ztake n wire).
  assert (0 < n <= B /\ n <= left) as [Hn Hn'] by (unfold n; lia).
  split.
  - destruct (_ && _) eqn:Ec; [|done]. bools. match goal with E : bool_decide _ = true |- _ => apply bool_decide_eq_true_1 in E as Efr end.
    intros (rest&Hrest&->)%fmap_Some. apply IH in Hrest as [Hw Hz]; [|lia]. pose proof (zlen_nonneg rest).
    split; [|zl]. rewrite <- (ztake_zdrop (n + D) wire), Efr, Hw.
    destruct (decide (d = [])) as [Ed|Ed]; [rewrite Ed in *; change (zlen []) with 0 in *; lia|].
    rewrite (frames_cons (d ++ rest)) by (by destruct d).
    destruct (decide (n = B)) as [En|].
    + by rewrite ztake_app_le, ztake_all, zdrop_app_le, zdrop_all by lia.
    + assert (zlen rest = 0) as ->%zlen_zero by (unfold n in *; lia). rewrite (app_nil_r d).
      by rewrite ztake_all, zdrop_all by lia.
  - intros [Hw Hz]. destruct (decide (data = [])) as [->|Hd]; [change (zlen []) with 0 in Hz; lia|].
    rewrite frames_cons in Hw by done.
    assert (n = zlen (ztake B data)) as En by (unfold n; rewrite zlen_ztake; lia).
    assert (d = ztake B data) as Ed.
    { unfold d. rewrite Hw, En. unfold frame. rewrite <- app_assoc, ztake_app_le by done. by apply ztake_all. }
    rewrite Ed, <- En, Z.eqb_refl. cbn [andb].
    assert (zlen (frame plan (ztake B data)) = n + D) as Lf by (rewrite zlen_frame; lia).
    rewrite Hw, ztake_app_le, ztake_all, zdrop_app_ge by lia. rewrite bool_decide_eq_true_2 by done.
    rewrite Lf, Z.sub_diag, zdrop_0.
    rewrite (proj2 (IH (left - n) _ (zdrop B data) ltac:(lia))).
    + cbn. by rewrite ztake_zdrop.
    + split; [done|]. rewrite zlen_zdrop. unfold n. lia.
Qed.
End Receive.

(** ** The theorems *)

(** A device that cuts the payload stream by the plan and checks the digests
    accepts exactly the streams the server sends for an image of the announced
    size, and what it assembles is that image. *)
Theorem payload_receive (plan : PayloadPlan) (wire data : bytes) :
  plan_ok plan -> receive plan wire = Some data <-> wire = frames plan data /\ zlen data = plan_size plan.
Proof. intros Hp. apply receive_blocks_frames; [done|]. destruct Hp. lia. Qed.

(** Streaming a payload returns, whatever the disc, the connection and the
    observer do.  On success the connection carries, block after block, the data
    of the image and its digest; the summary's counts and stream digest are
    those of the data sent; the transfer is complete unless the observer asked
    to stop, and then a device that cuts the stream by the plan and checks the
    digests assembles the image.  On failure a prefix of that stream went out. *)
Theorem payload_exact {I T V : Type} `{LawfulSource I, LawfulChannel T, PayloadObserver V}
    (plan : PayloadPlan) (w : Wire I T V) (fuel : nat) :
  plan_ok plan -> plan_size plan <= zlen (image (w_source w)) -> block_count plan < Z.of_nat fuel ->
  exists w' r, stream_payload fuel plan w = Some (w', r) /\
    image (w_source w') = image (w_source w) /\ incoming (w_out w') = incoming (w_out w) /\
    match r with
    | Ok s =>
        let sent := frames plan (ztake (data_bytes s) (image (w_source w))) in
        outgoing (w_out w') = outgoing (w_out w) ++ sent /\ wire_bytes s = zlen sent /\
        blocks s = (data_bytes s + block_len plan - 1) / block_len plan /\
        stream_digest s = stream_spec (stream_digest_kind plan) (ztake (data_bytes s) (image (w_source w))) /\
        stopped_early s = (data_bytes s <? plan_size plan) /\
        ((forall v : V, (should_stop v).2 = false) -> stopped_early s = false) /\
        (stopped_early s = false ->
           receive plan sent = Some (ztake (plan_size plan) (image (w_source w))) /\ wire_len (E := ErrorKind) plan = Ok (wire_bytes s))
    | Err _ => exists start, start `prefix_of` frames plan (ztake (plan_size plan) (image (w_source w))) /\
        outgoing (w_out w') = outgoing (w_out w) ++ start
    | Panic => False
    end.
Proof.
  intros Hp Hs Hf. pose proof (block_len_pos plan Hp) as HB.
  destruct (stream_payload_spec plan Hp (image (w_source w)) Hs (w_out w) fuel w Hf eq_refl eq_refl) as (w'&r&E&Hr).
  exists w', r. split; [done|]. destruct r as [s|e|]; [|destruct Hr as [? ? Hc]; done|done].
  destruct Hr as (off&[? ? Ho]&Hoff&->&Hns). cbn [data_bytes wire_bytes blocks stream_digest stopped_early].
  split_and!; [done..| |done|done|intros Hv; rewrite (Hns Hv); apply Z.ltb_irrefl|].
  - rewrite zlen_chunks by lia. rewrite zlen_ztake. do 3 f_equal. lia.
  - intros Hfull. bools. assert (off = plan_size plan) as -> by lia. split.
    + apply (receive_blocks_frames plan Hp); [lia|]. split; [done|]. rewrite zlen_ztake. lia.
    + unfold wire_len. rewrite (zlen_frames plan Hp), zlen_chunks by lia. rewrite zlen_ztake.
      replace (Z.max 0 _) with (plan_size plan) by lia. fold (block_count plan). unfold mul_or_panic.
      pose proof (block_count_range plan Hp). pose proof (digest_len_range plan). destruct Hp.
      rewrite (proj2 (Z.ltb_lt _ _)) by nia. cbn [res_bind]. by apply add_or_panic_ok.
Qed.

(** ** Witnesses *)

Definition sample_plan : PayloadPlan :=
  {| plan_size := 10; checksum_chunk_size := 4; checksum_type := CkSha256; stream_digest_kind := SdSha1 |}.
Definition sample_wire : Wire MemoryImageSource Pipe unit :=
  MkWire {| mis_bytes := [1; 2; 3; 4; 5; 6; 7; 8; 9; 10; 11; 12] |} {| feed := []; grain := 1; drained := [] |} tt.

Lemma sample_plan_ok : plan_ok sample_plan.
Proof. split; by_compute. Qed.

Lemma payload_receive_witness :
  receive sample_plan (frames sample_plan [1; 2; 3; 4; 5; 6; 7; 8; 9; 10]) = Some [1; 2; 3; 4; 5; 6; 7; 8; 9; 10].
Proof. by apply (payload_receive sample_plan _ _ sample_plan_ok). Defined.

Lemma payload_exact_witness : exists w' s,
  stream_payload 4 sample_plan sample_wire = Some (w', Ok s) /\
  receive sample_plan (drained (w_out w')) = Some [1; 2; 3; 4; 5; 6; 7; 8; 9; 10].
Proof.
  destruct (payload_exact sample_plan sample_wire 4 sample_plan_ok) as (w'&r&E&_&_&Hr); [by_compute..|].
  assert (match r with Ok _ => true | _ => false end = true) as Hok.
  { apply (f_equal (fun x => match x with Some (_, Ok _) => true | _ => false end)) in E. rewrite <- E. by vm_compute. }
  destruct r as [s|e|]; [|discriminate Hok..]. cbn zeta in Hr. destruct Hr as (Ho&_&_&_&_&Hns&Hrec).
  exists w', s. split; [exact E|]. destruct (Hrec (Hns (fun _ => eq_refl))) as [HR _].
  cbn in Ho. rewrite Ho. exact HR.
Defined.
