(* ===== verification/AsrCodec.v ===== *)
(** * ASR messages (src/src/asr_server/codec.rs, message.rs, metadata.rs)

    Requests and responses are property lists in XML, one after the other with
    nothing between them; the metadata blob is one such document, plain or
    compressed.  The property-list library is the class [Plist]. *)

From S2P Require Import Prelude Windows Channel Plist Deflate AsrPayload.
From stdpp Require Import base tactics numbers list strings option.
From Stdlib Require Import ZArith Lia.

Open Scope Z_scope.

(** ** codec.rs *)

Definition READ_CHUNK_LEN : Z := 0x400.
Definition MAX_REQUEST_LEN : Z := 4 * 1024 * 1024.
Definition KEY_COMMAND : string := "Command".

Inductive Command := Initiate | Metadata | OobData | Payload.

Definition wire_name (c : Command) : string :=
  match c with Initiate => "Initiate" | Metadata => "Metadata" | OobData => "OOBData" | Payload => "Payload" end.
Definition command_from_wire (name : string) : option Command :=
  if decide (name = "Initiate"%string) then Some Initiate else
  if decide (name = "Metadata"%string) then Some Metadata else
  if decide (name = "OOBData"%string) then Some OobData else
  if decide (name = "Payload"%string) then Some Payload else None.

(** [PlistReader]: the connection and the bytes read but not yet used. *)
Record PlistReader (T : Type) := MkReader { inner : T; pending : bytes }.
Arguments MkReader {T}.
Arguments inner {T} _.
Arguments pending {T} _.
#[export] Instance eta_reader T : Eta (PlistReader T) := fun r => MkReader (inner r) (pending r).

Section Codec.
Context `{Plist}.

Inductive CodecError :=
| CodecIo (e : ErrorKind)
| CodecPlist (e : PlistError)
| MalformedRequest (reason : string)
| UnknownCommand (name : string)
| Truncated (len : Z)
| RequestTooLarge (len : Z).

Record Request := { command : Command; body : Dictionary }.

Definition new_request (c : Command) : Request :=
  {| command := c; body := dict_insert dict_new KEY_COMMAND (v_string (wire_name c)) |}.
Definition with_integer (r : Request) (key : string) (value : Z) : Request :=
  {| command := command r; body := dict_insert (body r) key (v_integer value) |}.

Definition request_from_value (value : Value) : res CodecError Request :=
  let? body := ok_or (as_dictionary value) (MalformedRequest "request is not a dictionary") in
  let? name := ok_or (dict_get body KEY_COMMAND ≫= as_string) (MalformedRequest "request has no Command string") in
  let? command := ok_or (command_from_wire name) (UnknownCommand name) in
  Ok {| command := command; body := body |}.
Definition request_to_value (r : Request) : Value := v_dictionary (body r).

Definition dict_integer (d : Dictionary) (key : string) : option Z := dict_get d key ≫= as_signed_integer.
Definition request_integer (r : Request) (key : string) : option Z := dict_integer (body r) key.

Definition encode_plist (value : Value) : res CodecError bytes := map_err CodecPlist (of_result (to_writer_xml value)).

Definition find_close_tag (buf : bytes) : option Z :=
  if zlen buf <? zlen PLIST_CLOSE_TAG then None else
  (fun start => start + zlen PLIST_CLOSE_TAG) <$> window_position PLIST_CLOSE_TAG buf.

Section Reader.
Context {T : Type} `{Channel T}.

Definition write_plist (value : Value) : prog T CodecError unit :=
  let* b := done_with (encode_plist value) in
  let* _ := perr CodecIo (write_all b) in
  perr CodecIo flush.

Definition new_reader (t : T) : PlistReader T := MkReader t [].

Fixpoint read_value (fuel : nat) : prog (PlistReader T) CodecError (option Value) :=
  match fuel with
  | O => out_of_turns
  | S fuel =>
      let* buf := reads pending in
      match find_close_tag buf with
      | Some fin =>
          let* _ := writes (fun r => r <| pending := zdrop fin buf |>) in
          let* value := done_with (map_err CodecPlist (of_result (from_reader_xml (ztake fin buf)))) in
          done_with (Ok (Some value))
      | None =>
          if MAX_REQUEST_LEN <? zlen buf then done_with (Err (RequestTooLarge (zlen buf))) else
          let* chunk := zoom inner (perr CodecIo (read_some READ_CHUNK_LEN)) in
          if zlen chunk =? 0 then
            if forallb is_ascii_whitespace buf then
              let* _ := writes (fun r => r <| pending := [] |>) in done_with (Ok None)
            else done_with (Err (Truncated (zlen buf)))
          else
            let* _ := writes (fun r => r <| pending := pending r ++ chunk |>) in
            read_value fuel
      end
  end.

Definition read_request (fuel : nat) : prog (PlistReader T) CodecError (option Request) :=
  let* value := read_value fuel in
  match value with
  | Some value => let* r := done_with (request_from_value value) in done_with (Ok (Some r))
  | None => done_with (Ok None)
  end.
End Reader.

(** ** message.rs *)

Definition PROTOCOL_VERSION : Z := 1.
Definition DEFAULT_PACKET_PAYLOAD_SIZE : Z := 1450.
Definition DEFAULT_PACKETS_PER_FEC : Z := 25.
Definition DEFAULT_FEC_SLICE_STRIDE : Z := 40.
Definition DEFAULT_MAX_RETRY : Z := 0x10_0000.

Definition KEY_VERSION : string := "Version".
Definition KEY_PAYLOAD : string := "Payload".
Definition KEY_METADATA : string := "Metadata".
Definition KEY_STREAM_ID : string := "Stream ID".
Definition KEY_PACKET_PAYLOAD_SIZE : string := "Packet Payload Size".
Definition KEY_PACKETS_PER_FEC : string := "Packets Per FEC".
Definition KEY_FEC_SLICE_STRIDE : string := "FEC Slice Stride".
Definition KEY_MAX_RETRY : string := "Max Retry".
Definition KEY_UUID : string := "UUID".
Definition KEY_IMAGE_NAME : string := "Image Name".
Definition KEY_DNS_SD_STATUS : string := "DNS Service Discovery Status".
Definition KEY_CHECKSUM_CHUNKS : string := "Checksum Chunks".
Definition KEY_CHECKSUM_CHUNK_SIZE : string := "Checksum Chunk Size".
Definition KEY_CHECKSUM_TYPE : string := "Checksum Type".
Definition KEY_SIZE : string := "Size".
Definition KEY_PORT : string := "Port".
Definition KEY_FAMILY : string := "Family".
Definition KEY_ADDRESS : string := "Address".
Definition KEY_CHECKSUM : string := "Checksum".
Definition KEY_OOB_OFFSET : string := "OOB Offset".
Definition KEY_OOB_LENGTH : string := "OOB Length".
Definition KEY_OOB_RANGES : string := "OOB Ranges".
Definition KEY_OOB_CHUNK : string := "OOB Chunk".
Definition KEY_OOB_ERROR : string := "OOB Error".

Record InitiateRequest := {
  wants_checksum_chunks : bool;
  preferred_checksum_type : option ChecksumType;
  ir_image_name : option string;
}.

Definition initiate_from_request (r : Request) : InitiateRequest := {|
  wants_checksum_chunks := default false (dict_get (body r) KEY_CHECKSUM_CHUNKS ≫= as_boolean);
  preferred_checksum_type := dict_integer (body r) KEY_CHECKSUM_TYPE ≫= from_wire;
  ir_image_name := dict_get (body r) KEY_IMAGE_NAME ≫= as_string |}.

Record StreamDescriptor := {
  sd_size : Z;
  sd_port : Z;
  sd_family : option Z;
  sd_address : option string;
  sd_checksum : option bytes;
}.

Definition on_control_connection (size : Z) : StreamDescriptor :=
  {| sd_size := size; sd_port := 0; sd_family := None; sd_address := None; sd_checksum := None |}.
Definition with_checksum (d : StreamDescriptor) (checksum : bytes) : StreamDescriptor :=
  {| sd_size := sd_size d; sd_port := sd_port d; sd_family := sd_family d; sd_address := sd_address d; sd_checksum := Some checksum |}.
Definition diverts_transport (d : StreamDescriptor) : bool :=
  match sd_family d with Some family => negb (family =? 0) | None => false end && bool_decide (is_Some (sd_address d)).

(** [if let Some(x) = o { dict.insert(key, f(x)) }] *)
Definition insert_some {A} (d : Dictionary) (key : string) (f : A -> Value) (o : option A) : Dictionary :=
  match o with Some x => dict_insert d key (f x) | None => d end.

Definition descriptor_to_value (s : StreamDescriptor) : Value :=
  let d := insert_some dict_new KEY_FAMILY v_integer (sd_family s) in
  let d := dict_insert d KEY_PORT (v_integer (sd_port s)) in
  let d := dict_insert d KEY_SIZE (v_integer (sd_size s)) in
  let d := insert_some d KEY_CHECKSUM v_data (sd_checksum s) in
  let d := insert_some d KEY_ADDRESS v_string (sd_address s) in
  v_dictionary d.

Record InitiateResponse := {
  rs_version : Z;
  rs_payload : StreamDescriptor;
  rs_metadata : option StreamDescriptor;
  rs_stream_id : Z;
  rs_packet_payload_size : Z;
  rs_packets_per_fec : Z;
  rs_fec_slice_stride : Z;
  rs_max_retry : Z;
  rs_checksum_chunk_size : option Z;
  rs_checksum_type : option ChecksumType;
  rs_uuid : option string;
  rs_image_name : option string;
  rs_dns_service_discovery : option bool;
}.
#[export] Instance eta_response : Eta InitiateResponse := fun r =>
  Build_InitiateResponse (rs_version r) (rs_payload r) (rs_metadata r) (rs_stream_id r) (rs_packet_payload_size r)
    (rs_packets_per_fec r) (rs_fec_slice_stride r) (rs_max_retry r) (rs_checksum_chunk_size r) (rs_checksum_type r)
    (rs_uuid r) (rs_image_name r) (rs_dns_service_discovery r).

Definition new_response (payload : StreamDescriptor) (stream_id : Z) : InitiateResponse := {|
  rs_version := PROTOCOL_VERSION; rs_payload := payload; rs_metadata := None; rs_stream_id := stream_id;
  rs_packet_payload_size := DEFAULT_PACKET_PAYLOAD_SIZE; rs_packets_per_fec := DEFAULT_PACKETS_PER_FEC;
  rs_fec_slice_stride := DEFAULT_FEC_SLICE_STRIDE; rs_max_retry := DEFAULT_MAX_RETRY;
  rs_checksum_chunk_size := None; rs_checksum_type := None; rs_uuid := None; rs_image_name := None;
  rs_dns_service_discovery := None |}.

(** [size as u64] of a positive [i64]. *)
Definition effective_chunk_size (r : InitiateResponse) : Z :=
  match rs_checksum_chunk_size r with Some size => if 0 <? size then size else 0 | None => 0 end.
Definition effective_checksum_type (r : InitiateResponse) : ChecksumType := default CkSha256 (rs_checksum_type r).

Definition response_to_value (r : InitiateResponse) : Value :=
  let d := dict_insert dict_new KEY_VERSION (v_integer (rs_version r)) in
  let d := dict_insert d KEY_PAYLOAD (descriptor_to_value (rs_payload r)) in
  let d := insert_some d KEY_METADATA descriptor_to_value (rs_metadata r) in
  let d := dict_insert d KEY_STREAM_ID (v_integer (rs_stream_id r)) in
  let d := dict_insert d KEY_PACKET_PAYLOAD_SIZE (v_integer (rs_packet_payload_size r)) in
  let d := dict_insert d KEY_PACKETS_PER_FEC (v_integer (rs_packets_per_fec r)) in
  let d := dict_insert d KEY_FEC_SLICE_STRIDE (v_integer (rs_fec_slice_stride r)) in
  let d := dict_insert d KEY_MAX_RETRY (v_integer (rs_max_retry r)) in
  let d := match rs_checksum_chunk_size r with
           | Some size =>
               let d := dict_insert d KEY_CHECKSUM_CHUNK_SIZE (v_integer size) in
               dict_insert d KEY_CHECKSUM_TYPE (v_integer (wire_value (effective_checksum_type r)))
           | None => d
           end in
  let d := insert_some d KEY_UUID v_string (rs_uuid r) in
  let d := insert_some d KEY_IMAGE_NAME v_string (rs_image_name r) in
  let d := insert_some d KEY_DNS_SD_STATUS v_boolean (rs_dns_service_discovery r) in
  v_dictionary d.

(** ** metadata.rs *)

Definition KEY_IMAGE_SIZE : string := "Image Size".
Definition KEY_CHUNKS : string := "Chunks".
Definition KEY_PARTITIONS : string := "Partitions".
Definition KEY_FILESYSTEMS : string := "Filesystems".
Definition CHUNK_HEADER_LEN : Z := 12.

Inductive MetadataError :=
| MetaPlist (e : PlistError)
| MetaDeflate (e : DeflateError)
| ChunkTooLong (len : Z)
| ShortChunk (len : Z)
| ChunkLengthMismatch (declared present : Z)
| MissingKey (key : string)
| MetaMalformed (reason : string).

Record ImageChunk := { ic_offset : Z; ic_bytes : bytes }.

Definition encode_plain (c : ImageChunk) : res MetadataError bytes :=
  let? length := ok_or (if zlen (ic_bytes c) <? 2 ^ 32 then Some (zlen (ic_bytes c)) else None) (ChunkTooLong (zlen (ic_bytes c))) in
  Ok (be_bytes 8 (ic_offset c) ++ be_bytes 4 length ++ ic_bytes c).
Definition encode_chunk (c : ImageChunk) : res MetadataError bytes :=
  let? plain := encode_plain c in zlib_compress plain.

Definition decode_plain (raw : bytes) : res MetadataError ImageChunk :=
  if zlen raw <? CHUNK_HEADER_LEN then Err (ShortChunk (zlen raw)) else
  let? offset := slice raw 0 8 in
  let? length := slice raw 8 12 in
  let? body := slice raw CHUNK_HEADER_LEN (zlen raw) in
  if negb (zlen body =? be_val length) then Err (ChunkLengthMismatch (be_val length) (zlen body)) else
  Ok {| ic_offset := be_val offset; ic_bytes := body |}.
(** The inflate loop of [zlib_decompress] always has turns enough. *)
Definition decode_chunk (element : bytes) : res MetadataError ImageChunk :=
  match zlib_decompress element with
  | Some r => let? raw := map_err MetaDeflate r in decode_plain raw
  | None => Panic
  end.

Record ImageMetadata := {
  image_size : Z;
  im_chunks : list ImageChunk;
  partitions : option Value;
  filesystems : option Value;
}.

Definition for_image_size (size : Z) : ImageMetadata :=
  {| image_size := size; im_chunks := []; partitions := None; filesystems := None |}.

Fixpoint encode_chunks (l : list ImageChunk) : res MetadataError (list Value) :=
  match l with
  | [] => Ok []
  | c :: l => let? b := encode_chunk c in let? vs := encode_chunks l in Ok (v_data b :: vs)
  end.

Definition metadata_to_value (m : ImageMetadata) : res MetadataError Value :=
  let d := dict_insert dict_new KEY_IMAGE_SIZE (v_integer (image_size m)) in
  let? chunks := encode_chunks (im_chunks m) in
  let d := dict_insert d KEY_CHUNKS (v_array chunks) in
  let d := insert_some d KEY_PARTITIONS id (partitions m) in
  let d := insert_some d KEY_FILESYSTEMS id (filesystems m) in
  Ok (v_dictionary d).

Definition to_blob (m : ImageMetadata) : res MetadataError bytes :=
  let? value := metadata_to_value m in map_err MetaPlist (of_result (to_writer_xml value)).
Definition to_gzip_blob (m : ImageMetadata) : res MetadataError bytes :=
  let? blob := to_blob m in Ok (gzip_compress blob).

Fixpoint decode_chunks (l : list Value) : res MetadataError (list ImageChunk) :=
  match l with
  | [] => Ok []
  | entry :: l =>
      let? raw := ok_or (as_data entry) (MetaMalformed "a Chunks element is not data") in
      let? c := decode_chunk raw in
      let? cs := decode_chunks l in Ok (c :: cs)
  end.

Definition metadata_from_value (value : Value) : res MetadataError ImageMetadata :=
  let? d := ok_or (as_dictionary value) (MetaMalformed "metadata is not a dictionary") in
  let? size := ok_or (dict_get d KEY_IMAGE_SIZE ≫= as_signed_integer) (MissingKey KEY_IMAGE_SIZE) in
  let? values := ok_or (dict_get d KEY_CHUNKS ≫= as_array) (MissingKey KEY_CHUNKS) in
  let? chunks := decode_chunks values in
  Ok {| image_size := size; im_chunks := chunks; partitions := dict_get d KEY_PARTITIONS; filesystems := dict_get d KEY_FILESYSTEMS |}.

Definition inflated (blob : bytes) : res MetadataError bytes :=
  match gzip_decompress blob with
  | Some (Ok b) => Ok b
  | Some (Err _) => match zlib_decompress blob with
                    | Some (Ok b) => Ok b
                    | Some (Err _) => Ok blob
                    | _ => Panic
                    end
  | _ => Panic
  end.
Definition from_blob (blob : bytes) : res MetadataError ImageMetadata :=
  let? b := inflated blob in
  let? value := map_err MetaPlist (of_result (from_reader_xml b)) in
  metadata_from_value value.
End Codec.
