(* ===== verification/AsrCodecProps.v ===== *)
(** * Reading requests and metadata back

    The reader takes exactly one document off the stream, however the
    connection cuts the stream into reads; metadata survives both of its
    encodings. *)

From S2P Require Import Prelude Windows Channel Plist Deflate AsrPayload AsrCodec.
From stdpp Require Import base tactics numbers list strings option.
From Stdlib Require Import ZArith Lia.

Open Scope Z_scope.

Lemma get_insert_some `{LawfulPlist} {A} d key (f : A -> Value) o key' :
  dict_get (insert_some d key f o) key' =
  match o with Some x => if decide (key = key') then Some (f x) else dict_get d key' | None => dict_get d key' end.
Proof. destruct o; [|done]. apply get_insert. Qed.

(** Looks a literal key up in a dictionary built by insertions. *)
Ltac dict := repeat first [rewrite get_insert_eq | rewrite get_insert_ne by done | rewrite get_insert_some
  | rewrite decide_True by done | rewrite decide_False by done | rewrite get_new].

(** ** The closing tag *)

Lemma close_tag_room h e : find_close_tag h = Some e -> 8 <= e <= zlen h.
Proof.
  unfold find_close_tag. destruct (_ <? _); [done|]. intros (i&Hi&->)%fmap_Some.
  apply window_room in Hi. change (zlen PLIST_CLOSE_TAG) with 8 in *. lia.
Qed.

Lemma close_tag_app h k e : find_close_tag h = Some e -> find_close_tag (h ++ k) = Some e.
Proof.
  unfold find_close_tag. destruct (_ <? _) eqn:El; [done|]. bools. intros (i&Hi&->)%fmap_Some.
  rewrite (needle_app _ _ _ _ Hi). rewrite (proj2 (Z.ltb_ge _ _)); [done|]. pose proof (zlen_nonneg k). zl.
Qed.

Lemma close_tag_none h k : find_close_tag (h ++ k) = None -> find_close_tag h = None.
Proof. destruct (find_close_tag h) eqn:E; [|done]. by rewrite (close_tag_app _ _ _ E). Qed.

(** A document written by the library is one frame, whatever follows it. *)
Lemma xml_is_frame `{LawfulPlist} v b k : to_writer_xml v = inr b -> find_close_tag (b ++ k) = Some (zlen b).
Proof.
  intros Hx. destruct (xml_frame v b Hx) as (pre&Eb&Hw). apply close_tag_app. unfold find_close_tag.
  rewrite Hw. pose proof (zlen_nonneg pre). rewrite (proj2 (Z.ltb_ge _ _)) by (rewrite Eb; zl). cbn [fmap option_fmap option_map].
  by rewrite Eb, zlen_app.
Qed.

(** ** The reader *)

Section Reader.
Context `{Plist} {T : Type} `{LawfulChannel T}.

(** What the reader has not used yet: buffered, then still to come. *)
Definition stream (r : PlistReader T) : bytes := pending r ++ incoming (inner r).

(** The first document of a stream is [doc]. *)
Definition frame_of (s doc rest : bytes) : Prop := s = doc ++ rest /\ find_close_tag s = Some (zlen doc).

Definition value_read (r r' : PlistReader T) (a : res CodecError (option Value)) : Prop :=
  outgoing (inner r') = outgoing (inner r) /\
  match a with
  | Ok (Some v) => exists doc, frame_of (stream r) doc (stream r') /\ from_reader_xml doc = inr v
  | Ok None => find_close_tag (stream r) = None /\ forallb is_ascii_whitespace (stream r) = true /\ stream r' = []
  | Err (CodecPlist e) => exists doc, frame_of (stream r) doc (stream r') /\ from_reader_xml doc = inl e
  | Err (Truncated n) => find_close_tag (stream r) = None /\ forallb is_ascii_whitespace (stream r) = false /\ n = zlen (stream r)
  | Err (RequestTooLarge n) => MAX_REQUEST_LEN < n <= zlen (stream r) /\ find_close_tag (ztake n (stream r)) = None
  | Err (CodecIo _) => stream r' = stream r
  | Err _ | Panic => False
  end.

Ltac reader_fields := unfold set_field in *; cbn [inner pending] in *.

Lemma read_value_spec fuel : forall r,
  (length (incoming (inner r)) < fuel)%nat -> runs (read_value fuel) r (value_read r).
Proof.
  induction fuel as [|fuel IH]; intros r Hf; [lia|]. cbn [read_value]. apply runs_look.
  destruct (find_close_tag (pending r)) as [fin|] eqn:Ef.
  { apply runs_update. pose proof (close_tag_room _ _ Ef) as Hr.
    assert (frame_of (stream r) (ztake fin (pending r)) (zdrop fin (pending r) ++ incoming (inner r))) as Hfr.
    { unfold frame_of, stream. rewrite app_assoc, ztake_zdrop. split; [done|].
      rewrite (close_tag_app _ _ _ Ef), zlen_ztake. f_equal. lia. }
    destruct (from_reader_xml (ztake fin (pending r))) as [e|v] eqn:Ev.
    - apply runs_bind, runs_done. cbn. split; [done|]. by exists (ztake fin (pending r)).
    - eapply runs_pure; [done|]. apply runs_done. split; [done|]. by exists (ztake fin (pending r)). }
  destruct (_ <? zlen (pending r)) eqn:Em; bools.
  { apply runs_done. split; [done|]. unfold stream. pose proof (zlen_nonneg (incoming (inner r))).
    split; [split; [done|zl]|]. by rewrite ztake_app_le, ztake_all. }
  apply runs_bind, runs_zoom, runs_perr, runs_read_some; [done|..]; cbn [map_err then_].
  2:{ intros t' e Hin Hout. split; [done|]. unfold stream. reader_fields. by rewrite Hin. }
  intros t' b Hin Hlen Hend Hout. destruct (Z.eqb_spec (zlen b) 0) as [->%zlen_zero|Hb].
  - cbn in Hin. assert (stream r = pending r) as Es by (unfold stream; rewrite (Hend eq_refl); apply app_nil_r).
    destruct (forallb _ _) eqn:Ew.
    + apply runs_update, runs_done. split; [done|]. rewrite Es. split_and!; [done..|]. unfold stream. reader_fields. rewrite <- Hin. by apply Hend.
    + apply runs_done. split; [done|]. by rewrite Es.
  - apply runs_update. eapply runs_weaken; [apply IH|]; reader_fields.
    { apply (f_equal length) in Hin. rewrite length_app in Hin. unfold zlen in Hb. lia. }
    assert (stream (MkReader t' (pending r ++ b)) = stream r) as Es.
    { unfold stream. cbn [inner pending]. by rewrite Hin, app_assoc. }
    intros r' a [Ho Ha]. rewrite Es in Ha. split; [by rewrite Ho|done].
Qed.

(** A document the library wrote comes back as its value. *)
Lemma read_value_next `{!LawfulPlist} fuel r v b rest :
  (length (incoming (inner r)) < fuel)%nat -> to_writer_xml v = inr b -> stream r = b ++ rest -> zlen b <= MAX_REQUEST_LEN + 1 ->
  runs (read_value fuel) r (fun r' a => outgoing (inner r') = outgoing (inner r) /\
    match a with Ok o => o = Some v /\ stream r' = rest | Err (CodecIo _) => True | _ => False end).
Proof.
  intros Hf Hx Es Hm. eapply runs_weaken; [by apply read_value_spec|]. intros r' a [Ho Ha]. split; [done|].
  pose proof (xml_is_frame v b rest Hx) as Ht. rewrite <- Es in Ht.
  assert (forall doc rest', frame_of (stream r) doc rest' -> doc = b /\ rest' = rest) as Huniq.
  { intros doc rest' [E1 E2]. rewrite Ht in E2. injection E2 as E2. rewrite Es in E1.
    apply app_inj_1 in E1; [naive_solver|]. unfold zlen in E2. lia. }
  destruct a as [[v'|]|[]|]; try done.
  - destruct Ha as (doc&Hfr&Hv). destruct (Huniq _ _ Hfr) as [-> ->]. rewrite (xml_law v b Hx) in Hv. naive_solver.
  - destruct Ha as (E&_). by rewrite Ht in E.
  - destruct Ha as (doc&Hfr&Hv). destruct (Huniq _ _ Hfr) as [-> _]. by rewrite (xml_law v b Hx) in Hv.
  - destruct Ha as (E&_). by rewrite Ht in E.
  - destruct Ha as [Hn E]. rewrite Es, ztake_app_ge in E by lia. by rewrite (xml_is_frame v b _ Hx) in E.
Qed.
End Reader.

(** ** Metadata *)

Record chunk_typed (c : ImageChunk) : Prop := {
  ct_offset : u64 (ic_offset c);
  ct_bytes : is_bytes (ic_bytes c);
  ct_len : zlen (ic_bytes c) < 2 ^ 32;
}.

Section Metadata.
Context `{LawfulPlist}.

Lemma chunk_roundtrip c :
  chunk_typed c -> exists z, encode_chunk c = Ok z /\ decode_chunk z = Ok c.
Proof.
  intros [Ho Hb Hl]. pose proof (zlen_nonneg (ic_bytes c)). unfold encode_chunk, encode_plain, ok_or. rewrite (proj2 (Z.ltb_lt _ _)) by done.
  cbn [res_bind]. set (raw := be_bytes 8 _ ++ _).
  assert (is_bytes raw) as Hr by (unfold raw; rewrite !Forall_app; auto using is_bytes_be_bytes).
  destruct (zlib_roundtrip (E := MetadataError) raw Hr) as (z&->&Ez). exists z. split; [done|]. unfold decode_chunk. rewrite Ez.
  cbn [map_err res_bind]. unfold decode_plain.
  assert (zlen raw = 12 + zlen (ic_bytes c)) as Lr by (unfold raw; zl). change CHUNK_HEADER_LEN with 12.
  rewrite (proj2 (Z.ltb_ge _ _)) by lia. rewrite !slice_ok by lia. cbn [res_bind].
  assert (ztake (8 - 0) (zdrop 0 raw) = be_bytes 8 (ic_offset c)) as -> by (unfold raw; pick).
  assert (ztake (12 - 8) (zdrop 8 raw) = be_bytes 4 (zlen (ic_bytes c))) as -> by (unfold raw; pick).
  assert (ztake (zlen raw - 12) (zdrop 12 raw) = ic_bytes c) as -> by (rewrite Lr; unfold raw; pick).
  rewrite !be_val_be_bytes. rewrite !Z.mod_small by (unfold in_range in *; lia).
  rewrite Z.eqb_refl. cbn [negb]. by destruct c.
Qed.

Lemma chunks_roundtrip l :
  Forall chunk_typed l -> exists vs, encode_chunks l = Ok vs /\ decode_chunks vs = Ok l.
Proof.
  induction 1 as [|c l Hc _ (vs&E1&E2)]; [by exists []|]. destruct (chunk_roundtrip c Hc) as (z&Ez&Dz).
  exists (v_data z :: vs). cbn [encode_chunks decode_chunks]. rewrite Ez. cbn [res_bind]. rewrite E1. split; [done|].
  rewrite data_law. cbn [ok_or res_bind]. rewrite Dz. cbn [res_bind]. by rewrite E2.
Qed.

Record metadata_typed (m : ImageMetadata) : Prop := {
  mt_size : i64 (image_size m);
  mt_chunks : Forall chunk_typed (im_chunks m);
}.

Lemma metadata_value_roundtrip m :
  metadata_typed m -> exists v, metadata_to_value m = Ok v /\ metadata_from_value v = Ok m.
Proof.
  intros [Hs Hc]. destruct (chunks_roundtrip _ Hc) as (vs&E1&E2). unfold metadata_to_value. rewrite E1. cbn [res_bind].
  eexists. split; [done|]. unfold metadata_from_value. rewrite dictionary_law. cbn [ok_or res_bind].
  replace (dict_get _ KEY_IMAGE_SIZE) with (Some (v_integer (image_size m))) by (dict; by destruct (filesystems m), (partitions m)).
  replace (dict_get _ KEY_CHUNKS) with (Some (v_array vs)) by (dict; by destruct (filesystems m), (partitions m)).
  cbn [mbind option_bind]. rewrite integer_law, array_law by done. cbn [ok_or res_bind]. rewrite E2. cbn [res_bind]. f_equal.
  destruct m as [size chunks [p|] [f|]]; cbn [partitions filesystems]; f_equal; dict; done.
Qed.

(** A document starts with [<], which neither container does. *)
Lemma xml_not_compressed v b : to_writer_xml v = inr b -> inflated b = Ok b.
Proof.
  intros Hx. destruct (xml_bytes v b Hx) as [_ Hf]. unfold inflated.
  assert (exists e, gzip_decompress b = Some (Err e)) as [e ->].
  { unfold gzip_decompress. destruct (_ <? 18) eqn:El; [by eexists|]. bools.
    rewrite !slice_ok by lia. destruct b as [|b0 [|b1 [|b2 [|b3 b]]]]; try (exfalso; revert El; unfold zlen; cbn; lia).
    cbn in Hf. injection Hf as ->. change (ztake 4 _) with [60; b1; b2; b3]. by eexists. }
  assert (exists e, zlib_decompress b = Some (Err e)) as [e' ->]; [|done].
  unfold zlib_decompress. destruct (_ <? 6) eqn:El; [by eexists|]. bools. rewrite !slice_ok by lia.
  unfold index. rewrite Hf. destruct (zget_in b 1) as [b1 ->]; [lia|]. cbn [or_panic]. by eexists.
Qed.

(** Metadata survives its blob, plain or compressed: what the device decodes is
    what the server was given, whenever the property-list writer takes it. *)
Theorem metadata_roundtrip (m : ImageMetadata) (blob : bytes) :
  metadata_typed m -> to_blob m = Ok blob ->
  from_blob blob = Ok m /\ exists packed, to_gzip_blob m = Ok packed /\ from_blob packed = Ok m.
Proof.
  intros Hm Hb. destruct (metadata_value_roundtrip m Hm) as (v&Ev&Dv). pose proof Hb as Hb'. unfold to_blob in Hb.
  rewrite Ev in Hb. cbn [res_bind] in Hb. destruct (to_writer_xml v) as [?|b] eqn:Hx; [done|]. cbn in Hb. injection Hb as ->.
  assert (map_err MetaPlist (of_result (from_reader_xml blob)) = Ok v) as Hr by (by rewrite (xml_law _ _ Hx)).
  split.
  - unfold from_blob. rewrite (xml_not_compressed _ _ Hx). cbn [res_bind]. by rewrite Hr.
  - exists (gzip_compress blob). unfold to_gzip_blob. rewrite Hb'. split; [done|]. unfold from_blob, inflated.
    rewrite gzip_roundtrip by apply (xml_bytes _ _ Hx). cbn [res_bind]. by rewrite Hr.
Qed.
End Metadata.

(** Reading a request returns, however the connection cuts the peer's stream,
    and is exact: the bytes up to and including the first closing tag are parsed
    and taken off the stream, and nothing beyond them; a stream that ends without
    a closing tag is the end of the conversation when only whitespace is left and
    is reported truncated otherwise; a request is refused as too large only when
    more than the limit has arrived without a closing tag; a failed read loses
    nothing.  Reading sends nothing. *)
Theorem read_value_frames `{Plist} {T : Type} `{LawfulChannel T} (r : PlistReader T) (fuel : nat) :
  (length (incoming (inner r)) < fuel)%nat -> exists r' a, read_value fuel r = Some (r', a) /\ value_read r r' a.
Proof. apply read_value_spec. Qed.

(** ** Witnesses *)

#[local] Existing Instance Sample.sample_plist.
#[local] Existing Instance Sample.sample_lawful.

Definition sample_reader : PlistReader Pipe :=
  new_reader {| feed := Sample.xml (v_boolean true) ++ [10; 32]; grain := 3; drained := [] |}.

Definition read_true (o : option (PlistReader Pipe * res CodecError (option Value))) : bool :=
  match o with Some (_, Ok (Some v)) => bool_decide (as_boolean v = Some true) | _ => false end.

Lemma sample_reads : read_true (read_value 100 sample_reader) = true.
Proof. by vm_compute. Qed.

Lemma read_value_frames_witness : exists r' v doc,
  read_value 100 sample_reader = Some (r', Ok (Some v)) /\ as_boolean v = Some true /\ frame_of (stream sample_reader) doc (stream r').
Proof.
  destruct (read_value_frames sample_reader 100) as (r'&a&E&_&Ha).
  { apply Nat.ltb_lt. by vm_compute. }
  pose proof sample_reads as Hs. rewrite E in Hs. destruct a as [[v|]|e|]; [|discriminate Hs..].
  destruct Ha as (doc&Hf&_). exists r', v, doc. split; [exact E|]. split; [by apply bool_decide_eq_true in Hs|exact Hf].
Defined.

Definition sample_metadata : ImageMetadata :=
  {| image_size := 4096; im_chunks := [{| ic_offset := 512; ic_bytes := [1; 2; 3] |}]; partitions := Some (v_array []); filesystems := None |}.

Lemma sample_blob : match to_blob sample_metadata with Ok _ => true | _ => false end = true.
Proof. by vm_compute. Qed.

Lemma metadata_roundtrip_witness : exists blob, to_blob sample_metadata = Ok blob /\ from_blob blob = Ok sample_metadata.
Proof.
  assert (metadata_typed sample_metadata) as Ht.
  { split; [by_compute|]. repeat constructor; cbn; by_compute || concrete_bytes. }
  pose proof sample_blob as Hs. destruct (to_blob sample_metadata) as [blob|e|] eqn:E; [|discriminate Hs..].
  exists blob. split; [done|]. apply (metadata_roundtrip sample_metadata blob Ht E).
Defined.
