(* ===== verification/AsrSession.v ===== *)
(** * The ASR server (src/src/asr_server/session.rs)

    One conversation with the device's asr over one connection: requests are
    answered in turn until the payload has been streamed or the device closes. *)

From S2P Require Import Prelude Windows Channel Plist Deflate AsrPayload AsrCodec.
From stdpp Require Import base tactics numbers list strings option.
From Stdlib Require Import ZArith Lia.

Open Scope Z_scope.

Definition OOB_READ_ERROR : Z := 5.

(** [x as i64] of a 64-bit value. *)
Definition as_i64 (x : Z) : Z := if x <? 2 ^ 63 then x else x - 2 ^ 64.

Record MetadataBlob := { blob_bytes : bytes; blob_checksum : option bytes }.

Definition blob_from_bytes (b : bytes) : MetadataBlob := {| blob_bytes := b; blob_checksum := None |}.
Definition blob_with_checksum {E} (b : MetadataBlob) : res E MetadataBlob :=
  let? d := checksum_digest CkSha1 (blob_bytes b) in Ok {| blob_bytes := blob_bytes b; blob_checksum := Some d |}.
Definition descriptor (b : MetadataBlob) : StreamDescriptor :=
  let d := on_control_connection (as_i64 (zlen (blob_bytes b))) in
  match blob_checksum b with Some checksum => with_checksum d checksum | None => d end.

Record AsrServerConfig := {
  cf_payload_size : option Z;
  cf_stream_id : Z;
  cf_image_name : option string;
  cf_uuid : option string;
  cf_checksum_chunk_size : Z;
  cf_checksum_type : ChecksumType;
  cf_metadata : option MetadataBlob;
  cf_expected_hash : option bytes;
  cf_max_retry : Z;
  cf_packet_payload_size : Z;
  cf_packets_per_fec : Z;
  cf_fec_slice_stride : Z;
}.

Definition default_config : AsrServerConfig := {|
  cf_payload_size := None; cf_stream_id := 1; cf_image_name := None; cf_uuid := None;
  cf_checksum_chunk_size := DEFAULT_BLOCK_LEN; cf_checksum_type := CkSha256; cf_metadata := None; cf_expected_hash := None;
  cf_max_retry := DEFAULT_MAX_RETRY; cf_packet_payload_size := DEFAULT_PACKET_PAYLOAD_SIZE;
  cf_packets_per_fec := DEFAULT_PACKETS_PER_FEC; cf_fec_slice_stride := DEFAULT_FEC_SLICE_STRIDE |}.

Record SessionSummary := {
  initiates : Z;
  metadata_requests : Z;
  oob_single_requests : Z;
  oob_ranges_requests : Z;
  oob_bytes : Z;
  payload : option PayloadSummary;
}.
#[export] Instance eta_summary : Eta SessionSummary := fun s =>
  Build_SessionSummary (initiates s) (metadata_requests s) (oob_single_requests s) (oob_ranges_requests s) (oob_bytes s) (payload s).
Definition no_requests : SessionSummary :=
  {| initiates := 0; metadata_requests := 0; oob_single_requests := 0; oob_ranges_requests := 0; oob_bytes := 0; payload := None |}.

(** [AsrSession] without its image, which is in the [Wire]; a [Negotiation] is
    its plan. *)
Record AsrSession := {
  config : AsrServerConfig;
  payload_size : Z;
  negotiation : option PayloadPlan;
  summary : SessionSummary;
}.
#[export] Instance eta_session : Eta AsrSession := fun s =>
  Build_AsrSession (config s) (payload_size s) (negotiation s) (summary s).

Section Session.
Context `{Plist}.

Inductive AsrError :=
| AsrIo (e : ErrorKind)
| AsrCodecErr (e : CodecError)
| AsrMetadata (e : MetadataError)
| PayloadExceedsSource (requested available : Z)
| PayloadBeforeInitiate
| MetadataNotOffered
| MalformedOob (reason : string)
| OobOutOfRange (offset length size : Z)
| StreamDigestMismatch (expected actual : bytes).

(** [MetadataBlob::plain] and [gzip]. *)
Definition blob_plain (m : ImageMetadata) : res MetadataError MetadataBlob := let? b := to_blob m in Ok (blob_from_bytes b).
Definition blob_gzip (m : ImageMetadata) : res MetadataError MetadataBlob := let? b := to_gzip_blob m in Ok (blob_from_bytes b).

(** [AsrSession::new] on a source of [len] bytes. *)
Definition new_session (len : Z) (c : AsrServerConfig) : res AsrError AsrSession :=
  let payload_size := default len (cf_payload_size c) in
  if len <? payload_size then Err (PayloadExceedsSource payload_size len) else
  Ok {| config := c; payload_size := payload_size; negotiation := None; summary := no_requests |}.

Definition session_digest_kind (s : AsrSession) : StreamDigestKind :=
  for_expected_hash_len (match cf_expected_hash (config s) with Some hash => zlen hash | None => 0 end).

Definition initiate_response (s : AsrSession) (r : Request) : InitiateResponse :=
  let asked := initiate_from_request r in
  let c := config s in
  let response := new_response (on_control_connection (as_i64 (payload_size s))) (cf_stream_id c) in
  let response := response <| rs_packet_payload_size := cf_packet_payload_size c |>
                           <| rs_packets_per_fec := cf_packets_per_fec c |>
                           <| rs_fec_slice_stride := cf_fec_slice_stride c |>
                           <| rs_max_retry := cf_max_retry c |>
                           <| rs_uuid := cf_uuid c |>
                           <| rs_image_name := match cf_image_name c with Some n => Some n | None => ir_image_name asked end |>
                           <| rs_metadata := descriptor <$> cf_metadata c |> in
  if wants_checksum_chunks asked && (0 <? cf_checksum_chunk_size c) then
    response <| rs_checksum_chunk_size := Some (as_i64 (cf_checksum_chunk_size c)) |>
             <| rs_checksum_type := Some (default (cf_checksum_type c) (preferred_checksum_type asked)) |>
  else response.

Definition answer_initiate (s : AsrSession) (r : Request) : AsrSession * InitiateResponse :=
  let response := initiate_response s r in
  (s <| negotiation := Some {| plan_size := payload_size s; checksum_chunk_size := effective_chunk_size response;
                               checksum_type := effective_checksum_type response; stream_digest_kind := session_digest_kind s |} |>,
   response).

Definition oob_range (d : Dictionary) : res AsrError (Z * Z) :=
  let? offset := ok_or (dict_integer d KEY_OOB_OFFSET) (MalformedOob "no OOB Offset") in
  let? length := ok_or (dict_integer d KEY_OOB_LENGTH) (MalformedOob "no OOB Length") in
  if (offset <? 0) || (length <? 0) then Err (MalformedOob "negative OOB Offset or OOB Length") else
  Ok (offset, length).

(** ** The server's state: the connection's reader, the image, the observer and
    the session *)

Record Server (I T V : Type) := MkServer { wire : Wire I T V; sv_pending : bytes; session : AsrSession }.
End Session.
Arguments MkServer {I T V}.
Arguments wire {I T V} _.
Arguments sv_pending {I T V} _.
Arguments session {I T V} _.
#[export] Instance eta_server I T V : Eta (Server I T V) := fun s => MkServer (wire s) (sv_pending s) (session s).

Section Serve.
Context `{Plist} {I T V : Type} `{ImageSource I, Channel T, PayloadObserver V}.
Notation P := (prog (Server I T V) AsrError).

Definition read_oob (size offset n : Z) : prog I AsrError bytes :=
  let* fin := done_with (ok_or (checked_add 64 offset n) (OobOutOfRange offset n size)) in
  if size <? fin then done_with (Err (OobOutOfRange offset n size)) else
  perr AsrIo (source_read offset n).

(** A call on the connection, and one on the image. *)
Definition on_out {A} (m : prog T AsrError A) : P A := zoom wire (zoom w_out m).
Definition on_source {A} (m : prog I AsrError A) : P A := zoom wire (zoom w_source m).
Definition send (b : bytes) : P unit :=
  let* _ := on_out (perr AsrIo (write_all b)) in on_out (perr AsrIo flush).
Definition enter (ph : AsrPhase) (offset : Z) : P unit := zoom wire (perr AsrIo (phase ph offset)).

(** [reader.read_request()]: the reader is the connection and the pending bytes. *)
Definition next_request (fuel : nat) : P (option Request) := fun s =>
  match read_request fuel (MkReader (w_out (wire s)) (sv_pending s)) with
  | Some (r, a) => Some (s <| wire := (wire s) <| w_out := inner r |> |> <| sv_pending := pending r |>, map_err AsrCodecErr a)
  | None => None
  end.

(** [self.summary.field += n] on a [w]-bit counter. *)
Definition count (field : SessionSummary -> Z) `{!Setter field} (w n : Z) : P unit :=
  let* s := reads session in
  let* total := done_with (add_or_panic w (field (summary s)) n) in
  writes (fun x => x <| session := (session x) <| summary := (summary (session x)) <| field := total |> |> |>).

Definition answer_oob_single (r : Request) : P Z :=
  let* (offset, n) := done_with (oob_range (body r)) in
  let* size := reads (fun s => payload_size (session s)) in
  let* b := on_source (read_oob size offset n) in
  let* _ := send b in
  done_with (Ok n).

(** One entry of [OOB Ranges]: a failed read is answered with an error number. *)
Definition answer_range (entry : Value) : P Value :=
  let* d := done_with (ok_or (as_dictionary entry) (MalformedOob "an OOB Ranges element is not a dictionary")) in
  let* (offset, n) := done_with (oob_range d) in
  let answer := dict_insert dict_new KEY_OOB_OFFSET (v_integer (as_i64 offset)) in
  let* size := reads (fun s => payload_size (session s)) in
  let* b := tried (on_source (read_oob size offset n)) in
  match b with
  | Some b =>
      let* _ := count oob_bytes 64 n in
      done_with (Ok (v_dictionary (dict_insert answer KEY_OOB_CHUNK (v_data b))))
  | None => done_with (Ok (v_dictionary (dict_insert answer KEY_OOB_ERROR (v_integer OOB_READ_ERROR))))
  end.

Fixpoint answer_entries (l : list Value) : P (list Value) :=
  match l with
  | [] => done_with (Ok [])
  | entry :: l => let* a := answer_range entry in let* rest := answer_entries l in done_with (Ok (a :: rest))
  end.

Definition answer_oob_ranges (r : Request) : P bytes :=
  let* ranges := done_with (ok_or (dict_get (body r) KEY_OOB_RANGES ≫= as_array) (MalformedOob "OOB Ranges is not an array")) in
  let* answers := answer_entries ranges in
  let response := dict_insert dict_new KEY_OOB_RANGES (v_array answers) in
  let* xml := done_with (map_err AsrCodecErr (encode_plist (v_dictionary response))) in
  done_with (Ok (gzip_compress xml)).

Definition serve_payload (fuel : nat) : P unit :=
  let* s := reads session in
  let* plan := done_with (ok_or (negotiation s) PayloadBeforeInitiate) in
  let* sum := zoom wire (perr AsrIo (stream_payload fuel plan)) in
  match cf_expected_hash (config s) with
  | Some expected =>
      if negb (stopped_early sum) && negb (bool_decide (stream_digest sum = expected))
      then done_with (Err (StreamDigestMismatch expected (stream_digest sum)))
      else writes (fun x => x <| session := (session x) <| summary := (summary (session x)) <| payload := Some sum |> |> |>)
  | None => writes (fun x => x <| session := (session x) <| summary := (summary (session x)) <| payload := Some sum |> |> |>)
  end.

(** The body of [match request.command]; the result says whether the loop ends. *)
Definition serve_request (fuel : nat) (r : Request) : P bool :=
  match command r with
  | Initiate =>
      let* _ := enter AnsweringInitiate 0 in
      let* s := reads session in
      let '(s, response) := answer_initiate s r in
      let* _ := writes (fun x => x <| session := s |>) in
      let* _ := on_out (perr AsrCodecErr (write_plist (response_to_value response))) in
      let* _ := count initiates 32 1 in
      done_with (Ok false)
  | Metadata =>
      let* _ := enter ServingMetadata 0 in
      let* s := reads session in
      let* blob := done_with (ok_or (cf_metadata (config s)) MetadataNotOffered) in
      let* _ := send (blob_bytes blob) in
      let* _ := count metadata_requests 32 1 in
      done_with (Ok false)
  | OobData =>
      let* _ := enter ServingOob 0 in
      if contains_key (body r) KEY_OOB_RANGES then
        let* response := answer_oob_ranges r in
        let* _ := send response in
        let* _ := count oob_ranges_requests 32 1 in
        done_with (Ok false)
      else
        let* served := answer_oob_single r in
        let* _ := count oob_single_requests 32 1 in
        let* _ := count oob_bytes 64 served in
        done_with (Ok false)
  | Payload => let* _ := serve_payload fuel in done_with (Ok true)
  end.

Fixpoint serve_loop (turns fuel : nat) : P SessionSummary :=
  match turns with
  | O => out_of_turns
  | S turns =>
      let* _ := enter AwaitingRequest 0 in
      let* request := next_request fuel in
      match request with
      | Some request =>
          let* finished := serve_request fuel request in
          if finished : bool then reads (fun s => summary (session s)) else serve_loop turns fuel
      | None => reads (fun s => summary (session s))
      end
  end.

(** [serve]: a new reader on the connection. *)
Definition serve (turns fuel : nat) : P SessionSummary :=
  let* _ := writes (fun s => s <| sv_pending := [] |>) in serve_loop turns fuel.
End Serve.
