(* ===== verification/AsrSessionProps.v ===== *)
(** * The ASR conversation

    What a server says to each request ([reply]), what it refuses ([refusal]) and
    whole conversations ([talks]), as relations on the two byte streams; [serve]
    implements them.  A device that follows the server's answers ends up with
    the image. *)

From S2P Require Import Prelude Windows Channel Plist Deflate AsrPayload AsrPayloadProps AsrCodec AsrCodecProps AsrSession.
From stdpp Require Import base tactics numbers list strings option.
From Stdlib Require Import ZArith Lia.

Open Scope Z_scope.

Lemma as_i64_small x : 0 <= x < 2 ^ 63 -> as_i64 x = x.
Proof. intros. unfold as_i64. by rewrite (proj2 (Z.ltb_lt _ _)) by lia. Qed.

(** [field += n] in the summary. *)
Definition bump (field : SessionSummary -> Z) `{!Setter field} (n : Z) (s : AsrSession) : AsrSession :=
  s <| summary := (summary s) <| field := field (summary s) + n |> |>.

(** A counter of the summary is about to overflow. *)
Definition exhausted (s : AsrSession) : Prop :=
  2 ^ 32 - 1 <= initiates (summary s) \/ 2 ^ 32 - 1 <= metadata_requests (summary s) \/
  2 ^ 32 - 1 <= oob_single_requests (summary s) \/ 2 ^ 32 - 1 <= oob_ranges_requests (summary s) \/
  2 ^ 63 < oob_bytes (summary s).

Section Spec.
Context `{Plist}.

(** In-range reads of the image never fail. *)
Variables (steady : Prop) (img : bytes).

(** One range of an out-of-band request: the bytes asked for, or error 5. *)
Inductive range_reply (size : Z) : Value -> Value -> Z -> Prop :=
| range_chunk entry d offset n :
    as_dictionary entry = Some d -> oob_range d = Ok (offset, n) -> offset + n <= size ->
    range_reply size entry
      (v_dictionary (dict_insert (dict_insert dict_new KEY_OOB_OFFSET (v_integer offset)) KEY_OOB_CHUNK
                       (v_data (ztake n (zdrop offset img))))) n
| range_error entry d offset n :
    as_dictionary entry = Some d -> oob_range d = Ok (offset, n) -> (steady -> size < offset + n) ->
    range_reply size entry
      (v_dictionary (dict_insert (dict_insert dict_new KEY_OOB_OFFSET (v_integer offset)) KEY_OOB_ERROR
                       (v_integer OOB_READ_ERROR))) 0.

Inductive range_replies (size : Z) : list Value -> list Value -> Z -> Prop :=
| replies_nil : range_replies size [] [] 0
| replies_cons entry entries answer answers n total :
    range_reply size entry answer n -> range_replies size entries answers total ->
    range_replies size (entry :: entries) (answer :: answers) (n + total).

Definition payload_summary (plan : PayloadPlan) (off : Z) : PayloadSummary :=
  let data := ztake off img in
  {| data_bytes := off; wire_bytes := zlen (frames plan data); blocks := zlen (slice_chunks (block_len plan) data);
     stream_digest := stream_spec (stream_digest_kind plan) data; stopped_early := off <? plan_size plan |}.

(** The server answers [r] with [out]; the flag says that the conversation is over. *)
Inductive reply (s : AsrSession) (r : Request) : bytes -> AsrSession -> bool -> Prop :=
| reply_initiate out :
    command r = Initiate -> to_writer_xml (response_to_value (initiate_response s r)) = inr out ->
    reply s r out (bump initiates 1 (answer_initiate s r).1) false
| reply_metadata blob :
    command r = Metadata -> cf_metadata (config s) = Some blob ->
    reply s r (blob_bytes blob) (bump metadata_requests 1 s) false
| reply_single offset n :
    command r = OobData -> contains_key (body r) KEY_OOB_RANGES = false ->
    oob_range (body r) = Ok (offset, n) -> offset + n <= payload_size s ->
    reply s r (ztake n (zdrop offset img)) (bump oob_bytes n (bump oob_single_requests 1 s)) false
| reply_ranges entries answers total xml :
    command r = OobData -> dict_get (body r) KEY_OOB_RANGES ≫= as_array = Some entries ->
    range_replies (payload_size s) entries answers total ->
    to_writer_xml (v_dictionary (dict_insert dict_new KEY_OOB_RANGES (v_array answers))) = inr xml ->
    reply s r (gzip_compress xml) (bump oob_ranges_requests 1 (bump oob_bytes total s)) false
| reply_payload plan off :
    command r = Payload -> negotiation s = Some plan -> 0 <= off <= plan_size plan ->
    (forall hash, cf_expected_hash (config s) = Some hash -> off = plan_size plan ->
       stream_spec (stream_digest_kind plan) (ztake off img) = hash) ->
    reply s r (frames plan (ztake off img))
      (s <| summary := (summary s) <| payload := Some (payload_summary plan off) |> |>) true.

(** The server refuses [r], having sent [out]. *)
Inductive refusal (s : AsrSession) (r : Request) : bytes -> AsrError -> Prop :=
| refuse_initiate e :
    command r = Initiate -> to_writer_xml (response_to_value (initiate_response s r)) = inl e ->
    refusal s r [] (AsrCodecErr (CodecPlist e))
| refuse_metadata :
    command r = Metadata -> cf_metadata (config s) = None -> refusal s r [] MetadataNotOffered
| refuse_single e :
    command r = OobData -> contains_key (body r) KEY_OOB_RANGES = false -> oob_range (body r) = Err e -> refusal s r [] e
| refuse_outside offset n :
    command r = OobData -> contains_key (body r) KEY_OOB_RANGES = false -> oob_range (body r) = Ok (offset, n) ->
    payload_size s < offset + n -> refusal s r [] (OobOutOfRange offset n (payload_size s))
| refuse_ranges :
    command r = OobData -> contains_key (body r) KEY_OOB_RANGES = true ->
    dict_get (body r) KEY_OOB_RANGES ≫= as_array = None -> refusal s r [] (MalformedOob "OOB Ranges is not an array")
| refuse_entry entries entry :
    command r = OobData -> dict_get (body r) KEY_OOB_RANGES ≫= as_array = Some entries -> entry ∈ entries ->
    as_dictionary entry = None -> refusal s r [] (MalformedOob "an OOB Ranges element is not a dictionary")
| refuse_range entries entry d e :
    command r = OobData -> dict_get (body r) KEY_OOB_RANGES ≫= as_array = Some entries -> entry ∈ entries ->
    as_dictionary entry = Some d -> oob_range d = Err e -> refusal s r [] e
| refuse_answers entries answers total e :
    command r = OobData -> dict_get (body r) KEY_OOB_RANGES ≫= as_array = Some entries ->
    range_replies (payload_size s) entries answers total ->
    to_writer_xml (v_dictionary (dict_insert dict_new KEY_OOB_RANGES (v_array answers))) = inl e ->
    refusal s r [] (AsrCodecErr (CodecPlist e))
| refuse_early :
    command r = Payload -> negotiation s = None -> refusal s r [] PayloadBeforeInitiate
| refuse_digest plan hash :
    command r = Payload -> negotiation s = Some plan -> cf_expected_hash (config s) = Some hash ->
    stream_spec (stream_digest_kind plan) (ztake (plan_size plan) img) <> hash ->
    refusal s r (frames plan (ztake (plan_size plan) img))
      (StreamDigestMismatch hash (stream_spec (stream_digest_kind plan) (ztake (plan_size plan) img))).

(** What an input or output failure lets out: the start of an answer. *)
Inductive interrupted (s : AsrSession) (r : Request) (start : bytes) : Prop :=
| cut_before : start = [] -> interrupted s r start
| cut_reply out s' : reply s r out s' false -> start `prefix_of` out -> interrupted s r start
| cut_payload plan :
    command r = Payload -> negotiation s = Some plan ->
    start `prefix_of` frames plan (ztake (plan_size plan) img) -> interrupted s r start.

Inductive io_error : AsrError -> Prop :=
| io_plain e : io_error (AsrIo e)
| io_codec e : io_error (AsrCodecErr (CodecIo e)).

(** The bytes that arrive next are not a request. *)
Inductive unreadable (inp : bytes) : CodecError -> Prop :=
| bad_end : find_close_tag inp = None -> forallb is_ascii_whitespace inp = false -> unreadable inp (Truncated (zlen inp))
| bad_length n : MAX_REQUEST_LEN < n <= zlen inp -> find_close_tag (ztake n inp) = None -> unreadable inp (RequestTooLarge n)
| bad_document doc rest e : frame_of inp doc rest -> from_reader_xml doc = inl e -> unreadable inp (CodecPlist e)
| bad_request doc rest v e : frame_of inp doc rest -> from_reader_xml doc = inr v -> request_from_value v = Err e -> unreadable inp e.

(** [r] is the next request of the stream. *)
Definition asks (inp : bytes) (r : Request) (rest : bytes) : Prop :=
  exists doc v, frame_of inp doc rest /\ from_reader_xml doc = inr v /\ request_from_value v = Ok r.

(** A conversation from session [s]: the device says [inp], the server [out]. *)
Inductive talks : AsrSession -> bytes -> bytes -> AsrSession -> res AsrError SessionSummary -> Prop :=
| talks_end s inp :
    find_close_tag inp = None -> forallb is_ascii_whitespace inp = true -> talks s inp [] s (Ok (summary s))
| talks_more s inp r rest out s1 out' s' a :
    asks inp r rest -> reply s r out s1 false -> talks s1 rest out' s' a -> talks s inp (out ++ out') s' a
| talks_payload s inp r rest out s' :
    asks inp r rest -> reply s r out s' true -> talks s inp out s' (Ok (summary s'))
| talks_refused s inp r rest out s' e :
    asks inp r rest -> refusal s r out e -> talks s inp out s' (Err e)
| talks_unreadable s inp e :
    unreadable inp e -> talks s inp [] s (Err (AsrCodecErr e))
| talks_unread s inp e : io_error e -> talks s inp [] s (Err e)
| talks_cut s inp r rest start s' e :
    asks inp r rest -> interrupted s r start -> io_error e -> talks s inp start s' (Err e)
| talks_full s inp r rest out s' :
    asks inp r rest -> exhausted s' -> talks s inp out s' Panic.
End Spec.

(** ** The server implements it *)

Definition steady_source (I : Type) `{LawfulSource I} : Prop :=
  forall (i : I) offset n, 0 <= offset -> 0 <= n -> offset + n <= zlen (image i) -> forall e, (read_exact_at i offset n).2 <> Err e.

Lemma oob_range_typed `{LawfulPlist} d offset n : oob_range d = Ok (offset, n) -> 0 <= offset < 2 ^ 63 /\ 0 <= n < 2 ^ 63.
Proof.
  unfold oob_range, dict_integer. destruct (dict_get d KEY_OOB_OFFSET) as [v|]; [|done]. cbn [mbind option_bind].
  destruct (as_signed_integer v) eqn:E1; [|done]. cbn [ok_or res_bind].
  destruct (dict_get d KEY_OOB_LENGTH) as [v'|]; [|done]. cbn [mbind option_bind].
  destruct (as_signed_integer v') eqn:E2; [|done]. cbn [ok_or res_bind].
  apply signed_law in E1, E2. unfold i64 in *. destruct (_ || _) eqn:Eb; [done|]. bools. intros [= <- <-]. lia.
Qed.

Lemma oob_range_no_panic `{Plist} d : oob_range d <> Panic.
Proof.
  unfold oob_range. destruct (dict_integer d KEY_OOB_OFFSET); [|done]. cbn [ok_or res_bind].
  destruct (dict_integer d KEY_OOB_LENGTH); [|done]. cbn [ok_or res_bind]. by destruct (_ || _).
Qed.

Ltac server_fields := unfold set_field in *; cbn [wire sv_pending session w_source w_out w_observer inner pending] in *.

(** The session's own data fit the image, and a negotiated plan is for it. *)
Record session_ok (img : bytes) (s : AsrSession) : Prop := {
  so_size : 0 <= payload_size s <= zlen img;
  so_small : payload_size s < 2 ^ 58;
  so_config : u64 (cf_checksum_chunk_size (config s));
  so_plan plan : negotiation s = Some plan -> plan_size plan = payload_size s /\ 0 <= checksum_chunk_size plan < 2 ^ 63;
}.

Lemma session_plan_ok img s plan : session_ok img s -> negotiation s = Some plan -> plan_ok plan.
Proof.
  intros [Hs Hm _ Hp] E. destruct (Hp _ E) as [Ez Hc]. split; [lia|done|].
  assert (1 <= block_len plan) as HB.
  { unfold block_len. destruct (Z.eqb_spec (checksum_chunk_size plan) 0); [by_compute|lia]. }
  pose proof (digest_len_range plan) as HD.
  assert (block_count plan <= plan_size plan) as HK.
  { unfold block_count. destruct (decide (plan_size plan = 0)) as [->|]; [rewrite Z.div_small; lia|].
    apply Z.div_le_upper_bound; nia. }
  assert (0 <= block_count plan) by (apply Z.div_pos; lia). nia.
Qed.

(** What the answer to [Initiate] says of the payload. *)
Lemma initiate_checks `{Plist} s r :
  let checked := wants_checksum_chunks (initiate_from_request r) && (0 <? cf_checksum_chunk_size (config s)) in
  rs_checksum_chunk_size (initiate_response s r) = (if checked then Some (as_i64 (cf_checksum_chunk_size (config s))) else None) /\
  (checked = false -> rs_checksum_type (initiate_response s r) = None) /\
  sd_size (rs_payload (initiate_response s r)) = as_i64 (payload_size s).
Proof. unfold initiate_response. destruct (_ && _); split_and!; reflexivity || done. Qed.

Lemma chunk_size_range `{Plist} s r : u64 (cf_checksum_chunk_size (config s)) -> 0 <= effective_chunk_size (initiate_response s r) < 2 ^ 63.
Proof.
  intros [H1' H2']. unfold effective_chunk_size. destruct (initiate_checks s r) as (->&_). destruct (_ && _); [|lia].
  destruct (0 <? as_i64 _) eqn:Ez; [|lia]. bools. split; [lia|]. unfold as_i64 in *. destruct (_ <? 2 ^ 63) eqn:El; bools; lia.
Qed.

Lemma reply_session_ok `{Plist} steady img s r out s' fin :
  session_ok img s -> reply steady img s r out s' fin -> session_ok img s' /\ payload_size s' = payload_size s.
Proof.
  intros [Hs Hm Hc Hp] Hr. destruct Hr; (split; [split|]); try done.
  intros plan [= <-]. cbn [plan_size checksum_chunk_size]. split; [done|]. by apply chunk_size_range.
Qed.

Section Serve.
Context `{LawfulPlist} {I T V : Type} `{LawfulSource I, LawfulChannel T, PayloadObserver V}.
Implicit Types (sv : Server I T V).
Notation reply := (reply (steady_source I)).
Notation refusal := (refusal (steady_source I)).
Notation interrupted := (interrupted (steady_source I)).
Notation talks := (talks (steady_source I)).

(** The server has said [out] since [sv0], and read nothing. *)
Record said sv0 sv (out : bytes) : Prop := {
  sd_image : image (w_source (wire sv)) = image (w_source (wire sv0));
  sd_pending : sv_pending sv = sv_pending sv0;
  sd_incoming : incoming (w_out (wire sv)) = incoming (w_out (wire sv0));
  sd_outgoing : outgoing (w_out (wire sv)) = outgoing (w_out (wire sv0)) ++ out;
}.

Lemma said_refl sv : said sv sv [].
Proof. split; [done..|]. by rewrite app_nil_r. Qed.

(** Steps that concern neither the image nor the connection. *)
Lemma said_session sv0 sv out s : said sv0 sv out -> said sv0 (sv <| session := s |>) out.
Proof. intros []. by split. Qed.

Lemma runs_enter {A} sv ph offset (k : unit -> prog (Server I T V) AsrError A) Q :
  (forall sv', session sv' = session sv -> said sv sv' [] -> runs (k tt) sv' Q) -> runs (pbind (enter ph offset) k) sv Q.
Proof.
  intros Hk. apply runs_bind, runs_zoom, runs_perr, runs_writes. cbn [map_err then_]. apply Hk; [done|].
  split; server_fields; try done. by rewrite app_nil_r.
Qed.

Lemma runs_send sv b (Q : Server I T V -> res AsrError unit -> Prop) :
  (forall sv', session sv' = session sv -> said sv sv' b -> Q sv' (Ok tt)) ->
  (forall sv' e start, session sv' = session sv -> start `prefix_of` b -> said sv sv' start -> Q sv' (Err (AsrIo e))) ->
  runs (send b) sv Q.
Proof.
  intros HO HE. apply runs_bind, runs_zoom, runs_zoom, runs_perr, runs_write_all; cbn [map_err then_].
  - intros t' Hin Hout. apply runs_zoom, runs_zoom, runs_perr, runs_flush. server_fields.
    intros t'' r Hr Hin' Hout'. assert (forall w, said sv (MkServer (MkWire (w_source (wire sv)) t'' w) (sv_pending sv) (session sv)) b) as Hs.
    { intros w. split; server_fields; congruence. }
    destruct r as [[]|e|]; cbn [map_err]; [by apply HO|by apply (HE _ _ b)|done].
  - intros t' e start Hin Hpre Hout. server_fields. apply (HE _ _ start); [done..|]. by split.
Qed.

Lemma runs_count {A} sv (field : SessionSummary -> Z) `{!Setter field} w n (k : unit -> prog (Server I T V) AsrError A) Q :
  (field (summary (session sv)) + n < 2 ^ w ->
   runs (k tt) (sv <| session := bump field n (session sv) |>) Q) ->
  (2 ^ w <= field (summary (session sv)) + n -> Q sv Panic) -> runs (pbind (count field w n) k) sv Q.
Proof.
  intros HO HP. apply runs_bind. unfold count. apply runs_look. apply runs_bind, runs_done.
  unfold add_or_panic, checked_add. destruct (_ <? _) eqn:El; bools; cbn [or_panic then_]; [|by apply HP].
  apply runs_writes. cbn [then_]. by apply HO.
Qed.

(** ** Answers *)

Lemma runs_read_oob sv offset n (Q : Server I T V -> res AsrError bytes -> Prop) :
  let img := image (w_source (wire sv)) in let size := payload_size (session sv) in
  session_ok img (session sv) -> 0 <= offset < 2 ^ 63 -> 0 <= n < 2 ^ 63 ->
  (forall sv', said sv sv' [] -> session sv' = session sv -> offset + n <= size -> Q sv' (Ok (ztake n (zdrop offset img)))) ->
  (size < offset + n -> Q sv (Err (OobOutOfRange offset n size))) ->
  (forall sv' e, said sv sv' [] -> session sv' = session sv -> ~ steady_source I -> Q sv' (Err (AsrIo e))) ->
  runs (on_source (read_oob size offset n)) sv Q.
Proof.
  intros img size [Hsz _ _ _] Ho Hn HO HR HE. apply runs_zoom, runs_zoom. unfold read_oob. fold img size in Hsz.
  eapply runs_pure.
  { unfold checked_add, ok_or. by rewrite (proj2 (Z.ltb_lt _ _)) by lia. }
  cbv beta. destruct (_ <? _) eqn:El; bools.
  { apply runs_done. cbn. destruct sv as [[i t v] p s]. by apply HR. }
  apply runs_perr. pose proof (read_at_law (w_source (wire sv)) offset n ltac:(lia) ltac:(lia)) as HL.
  unfold runs, source_read. destruct (read_exact_at (w_source (wire sv)) offset n) as [i' [b|e|]] eqn:Er; [| |done];
    eexists _, _; (split; [done|]); cbn [map_err].
  - destruct HL as (Ei&_&->). apply HO; [|done|lia]. split; server_fields; try done. by rewrite app_nil_r.
  - apply HE; [split; server_fields; try done; by rewrite app_nil_r|done|].
    intros Hst. apply (Hst (w_source (wire sv)) offset n) with (e := e); [lia|lia|fold img; lia|]. by rewrite Er.
Qed.

Lemma said_trans sv0 sv1 sv2 o1 o2 : said sv0 sv1 o1 -> said sv1 sv2 o2 -> said sv0 sv2 (o1 ++ o2).
Proof. intros [] []. split; [congruence..|]. by rewrite sd_outgoing1, sd_outgoing0, app_assoc. Qed.

Lemma session_ok_bump img s field `{!Setter field} n : session_ok img s -> session_ok img (bump field n s).
Proof. intros []. by split. Qed.

(** One entry: the answer of the specification, and its bytes counted. *)
Lemma answer_range_spec sv entry :
  let img := image (w_source (wire sv)) in
  session_ok img (session sv) ->
  runs (answer_range entry) sv (fun sv' a => said sv sv' [] /\
    match a with
    | Ok answer => exists n, range_reply (steady_source I) img (payload_size (session sv)) entry answer n /\ session sv' = bump oob_bytes n (session sv)
    | Err e => as_dictionary entry = None /\ e = MalformedOob "an OOB Ranges element is not a dictionary" \/
        exists d, as_dictionary entry = Some d /\ oob_range d = Err e
    | Panic => exhausted (session sv')
    end).
Proof.
  intros img Hok. unfold answer_range. destruct (as_dictionary entry) as [d|] eqn:Ed; cbn [ok_or].
  2:{ apply runs_bind, runs_done. cbn [then_]. split; [apply said_refl|]. by left. }
  eapply runs_pure; [done|]. cbv beta. destruct (oob_range d) as [[offset n]|e|] eqn:Er.
  3:{ by apply oob_range_no_panic in Er. }
  2:{ apply runs_bind, runs_done. cbn [then_]. split; [apply said_refl|]. right. by exists d. }
  destruct (oob_range_typed _ _ _ Er) as [Ho Hn].
  eapply runs_pure; [done|]. cbv beta iota zeta. rewrite as_i64_small by done. apply runs_look.
  apply runs_bind, runs_tried, runs_read_oob; [done..| | |].
  - intros sv' Hsd Es Hle. cbn [then_]. rewrite <- Es. apply runs_count; intros Hc.
    + apply runs_done. split; [by apply said_session|]. exists n. rewrite Es. split; [|done]. by apply range_chunk with d.
    + split; [done|]. right. right. right. right. lia.
  - intros Hgt. cbn [then_]. apply runs_done. split; [apply said_refl|]. exists 0. split; [by eapply range_error|].
    destruct sv as [? ? [? ? ? []]]. unfold bump. server_fields. cbn. by rewrite Z.add_0_r.
  - intros sv' e Hsd Es Hns. cbn [then_]. apply runs_done. split; [done|]. exists 0. split; [by eapply range_error|].
    rewrite Es. destruct (session sv) as [? ? ? []]. unfold bump. server_fields. cbn. by rewrite Z.add_0_r.
Qed.

Lemma bump_bump s n m : bump oob_bytes m (bump oob_bytes n s) = bump oob_bytes (n + m) s.
Proof. destruct s as [? ? ? []]. unfold bump. server_fields. cbn. by rewrite Z.add_assoc. Qed.

Lemma bump_zero s : bump oob_bytes 0 s = s.
Proof. destruct s as [? ? ? []]. unfold bump. server_fields. cbn. by rewrite Z.add_0_r. Qed.

Definition bad_entry (l : list Value) (e : AsrError) : Prop :=
  exists entry, entry ∈ l /\
    (as_dictionary entry = None /\ e = MalformedOob "an OOB Ranges element is not a dictionary" \/
     exists d, as_dictionary entry = Some d /\ oob_range d = Err e).

Lemma answer_entries_spec l : forall sv,
  session_ok (image (w_source (wire sv))) (session sv) ->
  runs (answer_entries l) sv (fun sv' a => said sv sv' [] /\
    match a with
    | Ok answers => exists total, range_replies (steady_source I) (image (w_source (wire sv))) (payload_size (session sv)) l answers total /\
        session sv' = bump oob_bytes total (session sv)
    | Err e => bad_entry l e
    | Panic => exhausted (session sv')
    end).
Proof.
  induction l as [|entry l IH]; intros sv Hok; cbn [answer_entries].
  { apply runs_done. split; [apply said_refl|]. exists 0. split; [constructor|]. by rewrite bump_zero. }
  apply runs_bind. eapply runs_weaken; [by apply answer_range_spec|]. intros sv1 a [Hsd Ha].
  destruct a as [answer|e|]; cbn [then_]; [|split; [done|]; exists entry; split; [by apply list_elem_of_here|done]|done].
  destruct Ha as (n&Hr&Es). apply runs_bind. eapply runs_weaken; [apply IH|].
  { rewrite (sd_image _ _ _ Hsd), Es. by apply session_ok_bump. }
  intros sv2 a [Hsd2 Ha]. pose proof (said_trans _ _ _ _ _ Hsd Hsd2) as Hsd'. cbn [app] in Hsd'.
  destruct a as [answers|e|]; cbn [then_]; [| |done].
  - apply runs_done. split; [done|]. destruct Ha as (total&Hrs&Es2). exists (n + total).
    rewrite (sd_image _ _ _ Hsd), Es in Hrs. split; [by constructor|]. by rewrite Es2, Es, bump_bump.
  - split; [done|]. destruct Ha as (entry'&Hin&He). exists entry'. split; [by apply list_elem_of_further|done].
Qed.

(** What a request does, whatever it is. *)
Definition request_done sv (r : Request) sv' (a : res AsrError bool) : Prop :=
  let img := image (w_source (wire sv)) in
  exists out, said sv sv' out /\
    match a with
    | Ok fin => reply img (session sv) r out (session sv') fin
    | Err e => refusal img (session sv) r out e \/ io_error e /\ interrupted img (session sv) r out
    | Panic => exhausted (session sv')
    end.

(** Sending an answer and counting the request. *)
Lemma runs_reply sv sv1 (r : Request) out (field : SessionSummary -> Z) `{!Setter field} s' k :
  said sv sv1 [] -> reply (image (w_source (wire sv))) (session sv) r out s' false ->
  s' = bump field 1 (session sv1) -> (2 ^ 32 <= field (summary (session sv1)) + 1 -> exhausted (session sv1)) ->
  k = (fun _ : unit => let* _ := count field 32 1 in done_with (Ok false)) ->
  runs (pbind (send out) k) sv1 (request_done sv r).
Proof.
  intros Hsd Hrep -> Hex ->. apply runs_bind, runs_send; cbn [then_].
  - intros sv2 Es Hsd2. pose proof (said_trans _ _ _ _ _ Hsd Hsd2) as Hsd'. cbn [app] in Hsd'. rewrite <- Es in *.
    apply runs_count; intros Hc.
    + apply runs_done. exists out. split; [by apply said_session|done].
    + exists out. split; [done|]. by apply Hex.
  - intros sv2 e start Es Hpre Hsd2. pose proof (said_trans _ _ _ _ _ Hsd Hsd2) as Hsd'. cbn [app] in Hsd'.
    exists start. split; [done|]. right. split; [constructor|]. by eapply cut_reply.
Qed.

Lemma serve_initiate_spec fuel sv r :
  command r = Initiate -> runs (serve_request fuel r) sv (request_done sv r).
Proof.
  intros Ec. unfold serve_request. rewrite Ec. apply runs_enter. intros sv1 Es Hsd. apply runs_look.
  destruct (answer_initiate (session sv1) r) as [s response] eqn:Ea. apply runs_update.
  assert (response = initiate_response (session sv) r) as -> by (unfold answer_initiate in Ea; rewrite Es in Ea; by injection Ea).
  assert (s = (answer_initiate (session sv) r).1) as Es' by (by rewrite <- Es, Ea).
  set (sv2 := sv1 <| session := s |>). pose proof (said_session _ _ _ s Hsd) as Hsd2. fold sv2 in Hsd2.
  apply runs_bind. apply runs_zoom, runs_zoom, runs_perr. unfold write_plist, encode_plist.
  destruct (to_writer_xml (response_to_value (initiate_response (session sv) r))) as [e|out] eqn:Ex.
  { apply runs_bind, runs_done. cbn. exists []. split; [|left; by constructor].
    destruct Hsd2. split; unfold sv2 in *; server_fields; done. }
  eapply runs_pure; [done|]. cbv beta. apply runs_bind, runs_perr, runs_write_all; cbn [then_ map_err].
  - intros t' Hin Hout. apply runs_perr, runs_flush. intros t'' a Ha Hin' Hout'.
    assert (forall w, said sv (MkServer (MkWire (w_source (wire sv2)) t'' w) (sv_pending sv2) s) out) as Hsd3.
    { intros w. destruct Hsd2. split; unfold sv2 in *; server_fields; try congruence. rewrite Hout', Hout, sd_outgoing0. by rewrite <- app_assoc. }
    destruct a as [[]|e|]; cbn [map_err then_]; [| |done].
    + apply runs_count; intros Hc.
      * apply runs_done. exists out. split; [apply said_session, Hsd3|]. unfold sv2 in *. server_fields. rewrite Es'. by constructor.
      * exists out. split; [apply Hsd3|]. left. unfold sv2 in *. server_fields. lia.
    + exists out. split; [apply Hsd3|]. right. split; [constructor|]. eapply cut_reply; [by constructor|done].
  - intros t' e start Hin Hpre Hout. exists start. split.
    + destruct Hsd2. split; unfold sv2 in *; server_fields; try congruence. rewrite Hout, sd_outgoing0. by rewrite <- app_assoc.
    + right. split; [constructor|]. eapply cut_reply; [by constructor|done].
Qed.

Lemma serve_metadata_spec fuel sv r :
  command r = Metadata -> runs (serve_request fuel r) sv (request_done sv r).
Proof.
  intros Ec. unfold serve_request. rewrite Ec. apply runs_enter. intros sv1 Es Hsd. apply runs_look. rewrite Es.
  destruct (cf_metadata (config (session sv))) as [blob|] eqn:Eb; cbn [ok_or].
  - eapply runs_pure; [done|]. cbv beta. eapply (runs_reply _ _ _ _ metadata_requests); [done|by apply reply_metadata|by rewrite Es| |done].
    intros Hc. right. left. lia.
  - apply runs_bind, runs_done. exists []. split; [done|]. left. by constructor.
Qed.

Lemma serve_oob_spec fuel sv r :
  session_ok (image (w_source (wire sv))) (session sv) ->
  command r = OobData -> runs (serve_request fuel r) sv (request_done sv r).
Proof.
  intros Hok Ec. unfold serve_request. rewrite Ec. apply runs_enter. intros sv1 Es Hsd.
  assert (session_ok (image (w_source (wire sv1))) (session sv1)) as Hok1 by (by rewrite (sd_image _ _ _ Hsd), Es).
  destruct (contains_key (body r) KEY_OOB_RANGES) eqn:Ek.
  - apply runs_bind. unfold answer_oob_ranges. apply runs_bind, runs_done.
    destruct (dict_get (body r) KEY_OOB_RANGES ≫= as_array) as [entries|] eqn:Ee; cbn [ok_or then_].
    2:{ exists []. split; [done|]. left. by constructor. }
    apply runs_bind. eapply runs_weaken; [by apply answer_entries_spec|]. intros sv2 a [Hsd2 Ha].
    pose proof (said_trans _ _ _ _ _ Hsd Hsd2) as Hsd'. cbn [app] in Hsd'. rewrite (sd_image _ _ _ Hsd), Es in Ha.
    destruct a as [answers|e|]; cbn [then_]; [| |by exists []].
    + destruct Ha as (total&Hr&Es2). apply runs_bind, runs_done. unfold encode_plist.
      destruct (to_writer_xml _) as [e|xml] eqn:Ex; cbn [of_result map_err then_].
      { exists []. split; [done|]. left. by eapply refuse_answers. }
      apply runs_done. cbn [then_].
      eapply (runs_reply _ _ _ _ oob_ranges_requests); [done|by eapply reply_ranges|by rewrite Es2| |done].
      intros Hc. right. right. right. left. lia.
    + exists []. split; [done|]. left. destruct Ha as (entry&Hin&[[Hd ->]|(d&Hd&He)]).
      * by eapply refuse_entry.
      * by eapply refuse_range.
  - apply runs_bind. unfold answer_oob_single. apply runs_bind, runs_done.
    destruct (oob_range (body r)) as [[offset n]|e|] eqn:Er; cbn [then_].
    3:{ by apply oob_range_no_panic in Er. }
    2:{ exists []. split; [done|]. left. by constructor. }
    destruct (oob_range_typed _ _ _ Er) as [Ho Hn]. apply runs_look. apply runs_bind, runs_read_oob; [done..| | |].
    + intros sv2 Hsd2 Es2 Hle. cbn [then_]. pose proof (said_trans _ _ _ _ _ Hsd Hsd2) as Hsd'. cbn [app] in Hsd'.
      rewrite (sd_image _ _ _ Hsd). rewrite Es in *. apply runs_bind, runs_send; cbn [then_].
      * intros sv3 Es3 Hsd3. pose proof (said_trans _ _ _ _ _ Hsd' Hsd3) as Hsd4. cbn [app] in Hsd4.
        rewrite Es2 in Es3. rewrite <- Es3 in *. apply runs_done. cbn [then_]. apply runs_count; intros Hc.
        2:{ eexists. split; [exact Hsd4|]. right. right. left. lia. }
        apply runs_count; intros Hc'.
        -- apply runs_done. eexists. split; [by apply said_session, said_session|]. rewrite <- Es3. by apply reply_single.
        -- eexists. split; [by apply said_session|]. right. right. right. right. unfold bump in *. server_fields. cbn in *. lia.
      * intros sv3 e start Es3 Hpre Hsd3. pose proof (said_trans _ _ _ _ _ Hsd' Hsd3) as Hsd4. cbn [app] in Hsd4.
        exists start. split; [done|]. right. split; [constructor|]. eapply cut_reply; [by eapply reply_single|done].
    + intros Hgt. cbn [then_]. rewrite Es in *. exists []. split; [done|]. left. by constructor.
    + intros sv2 e Hsd2 Es2 _. cbn [then_]. exists []. split; [by apply (said_trans _ _ _ _ _ Hsd Hsd2)|].
      right. split; [constructor|]. by constructor.
Qed.

Lemma serve_payload_spec fuel sv r :
  session_ok (image (w_source (wire sv))) (session sv) -> payload_size (session sv) < Z.of_nat fuel ->
  command r = Payload -> runs (serve_request fuel r) sv (request_done sv r).
Proof.
  intros Hok Hf Ec. unfold serve_request, serve_payload. rewrite Ec. apply runs_bind, runs_look.
  destruct (negotiation (session sv)) as [plan|] eqn:En; cbn [ok_or].
  2:{ apply runs_bind, runs_done. cbn [then_]. exists []. split; [apply said_refl|]. left. by constructor. }
  eapply runs_pure; [done|]. cbv beta. pose proof (session_plan_ok _ _ _ Hok En) as Hp.
  pose proof (block_count_range plan Hp) as HK. destruct (so_plan _ _ Hok _ En) as [Ez _]. destruct Hok as [Hsz _ _ _].
  assert (plan_size plan <= zlen (image (w_source (wire sv)))) as Hle by lia.
  apply runs_bind, runs_zoom, runs_perr.
  eapply runs_weaken; [apply (stream_payload_spec plan Hp _ Hle (w_out (wire sv))); [lia|done|done]|].
  intros w' a Ha. destruct a as [sum|e|]; cbn [map_err then_]; [| |done].
  - destruct Ha as (off&[Hi Hin Hout]&Hoff&->&_).
    assert (forall s, said sv (MkServer w' (sv_pending sv) s) (frames plan (ztake off (image (w_source (wire sv)))))) as Hsd by (intros s; by split).
    assert (forall hash, cf_expected_hash (config (session sv)) = Some hash ->
      (negb (off <? plan_size plan) && negb (bool_decide (stream_spec (stream_digest_kind plan) (ztake off (image (w_source (wire sv)))) = hash))) = false ->
      off = plan_size plan -> stream_spec (stream_digest_kind plan) (ztake off (image (w_source (wire sv)))) = hash) as Hmatch.
    { intros hash _ Hc ->. rewrite Z.ltb_irrefl in Hc. cbn in Hc. by apply negb_false_iff, bool_decide_eq_true_1 in Hc. }
    cbn [stopped_early stream_digest].
    destruct (cf_expected_hash (config (session sv))) as [hash|] eqn:Eh.
    + destruct (negb _ && _) eqn:Ed.
      * apply runs_done. cbn [then_]. bools. match goal with E : bool_decide _ = false |- _ => apply bool_decide_eq_false_1 in E as Hne end.
        assert (off = plan_size plan) as -> by lia. eexists. split; [apply Hsd|]. left. by constructor.
      * apply runs_writes. cbn [then_]. apply runs_done. eexists. split; [apply Hsd|]. apply reply_payload; [done..|].
        rewrite Eh. intros h [= <-]. by apply Hmatch.
    + apply runs_writes. cbn [then_]. apply runs_done. eexists. split; [apply Hsd|]. apply reply_payload; [done..|].
      by rewrite Eh.
  - destruct Ha as [Hi Hin (start&Hpre&Hout)]. exists start. split; [by split|]. right. split; [constructor|]. by eapply cut_payload.
Qed.

Lemma serve_request_spec fuel sv r :
  session_ok (image (w_source (wire sv))) (session sv) -> payload_size (session sv) < Z.of_nat fuel ->
  runs (serve_request fuel r) sv (request_done sv r).
Proof.
  intros Hok Hf. destruct (command r) eqn:Ec; auto using serve_initiate_spec, serve_metadata_spec, serve_oob_spec, serve_payload_spec.
Qed.

(** ** Conversations *)

(** Taking the next request off the connection. *)
Definition unread sv : bytes := sv_pending sv ++ incoming (w_out (wire sv)).

Lemma next_request_spec fuel sv :
  (length (incoming (w_out (wire sv))) < fuel)%nat ->
  runs (next_request fuel) sv (fun sv' a =>
    image (w_source (wire sv')) = image (w_source (wire sv)) /\ session sv' = session sv /\
    outgoing (w_out (wire sv')) = outgoing (w_out (wire sv)) /\
    match a with
    | Ok (Some r) => asks (unread sv) r (unread sv')
    | Ok None => find_close_tag (unread sv) = None /\ forallb is_ascii_whitespace (unread sv) = true
    | Err e => io_error e \/ exists c, e = AsrCodecErr c /\ unreadable (unread sv) c
    | Panic => False
    end).
Proof.
  intros Hf. destruct (read_value_spec fuel (MkReader (w_out (wire sv)) (sv_pending sv)) Hf) as (rd&a&Er&Ho&Ha).
  unfold runs, next_request, read_request, pbind. rewrite Er. unfold stream in Ha. cbn [inner pending] in *. fold (unread sv) in Ha.
  destruct a as [[v|]|c|]; cbn; [..|done].
  - destruct Ha as (doc&Hfr&Hv). destruct (request_from_value v) as [r|e|] eqn:Ev; cbn; eexists _, _; (split; [done|]); server_fields; cbn; (split_and!; [done..|]).
    + by exists doc, v.
    + right. exists e. split; [done|]. by eapply bad_request.
    + revert Ev. unfold request_from_value. destruct (as_dictionary v); [|done]. cbn [ok_or res_bind].
      destruct (_ ≫= _); [|done]. cbn [ok_or res_bind]. by destruct (command_from_wire _).
  - eexists _, _. split; [done|]. server_fields. cbn. by destruct Ha as (?&?&_).
  - eexists _, _. split; [done|]. server_fields. cbn. split_and!; [done..|].
    destruct c; try done.
    + left. constructor.
    + right. eexists. split; [done|]. destruct Ha as (doc&?&?). by eapply bad_document.
    + right. eexists. split; [done|]. destruct Ha as (?&?&->). by constructor.
    + right. eexists. split; [done|]. destruct Ha as [? ?]. by constructor.
Qed.

Lemma asks_shorter inp r rest : asks inp r rest -> (length rest < length inp)%nat.
Proof.
  intros (doc&v&[-> Hc]&_). apply close_tag_room in Hc. rewrite length_app. unfold zlen in Hc. lia.
Qed.

Lemma serve_loop_spec turns : forall fuel sv,
  session_ok (image (w_source (wire sv))) (session sv) -> payload_size (session sv) < Z.of_nat fuel ->
  (length (unread sv) < fuel)%nat -> (length (unread sv) < turns)%nat ->
  runs (serve_loop turns fuel) sv (fun sv' a =>
    image (w_source (wire sv')) = image (w_source (wire sv)) /\
    exists out, outgoing (w_out (wire sv')) = outgoing (w_out (wire sv)) ++ out /\
      talks (image (w_source (wire sv))) (session sv) (unread sv) out (session sv') a).
Proof.
  induction turns as [|turns IH]; intros fuel sv Hok Hp Hf Ht; [lia|]. cbn [serve_loop].
  apply runs_enter. intros sv1 Es1 Hsd1. apply runs_bind. eapply runs_weaken; [apply next_request_spec|].
  { rewrite (sd_incoming _ _ _ Hsd1). unfold unread in Hf. rewrite length_app in Hf. lia. }
  intros sv2 a (Hi2&Es2&Ho2&Ha). rewrite (sd_image _ _ _ Hsd1) in Hi2. rewrite (sd_outgoing _ _ _ Hsd1), app_nil_r in Ho2.
  assert (unread sv1 = unread sv) as Eu by (unfold unread; by rewrite (sd_pending _ _ _ Hsd1), (sd_incoming _ _ _ Hsd1)).
  rewrite Eu in Ha. rewrite Es1 in Es2. destruct a as [[r|]|e|]; cbn [then_]; [| | |done].
  - pose proof (asks_shorter _ _ _ Ha) as Hlt.
    assert (session_ok (image (w_source (wire sv2))) (session sv2)) as Hok2 by (by rewrite Hi2, Es2).
    apply runs_bind. eapply runs_weaken; [apply serve_request_spec; [done|by rewrite Es2]|].
    intros sv3 b (out&Hsd3&Hb). rewrite Hi2, Es2 in Hb. destruct Hsd3 as [Hi3 Hpe3 Hin3 Ho3]. rewrite Hi2 in Hi3. rewrite Ho2 in Ho3.
    assert (unread sv3 = unread sv2) as Eu3 by (unfold unread; by rewrite Hpe3, Hin3).
    destruct b as [fin|e|]; cbn [then_].
    + destruct fin.
      * apply runs_reads. split; [done|]. exists out. split; [done|]. by eapply talks_payload.
      * destruct (reply_session_ok _ _ _ _ _ _ _ Hok Hb) as [Hok3 Ep3].
        eapply runs_weaken; [apply IH|]; [by rewrite Hi3|by rewrite Ep3|rewrite Eu3; lia|rewrite Eu3; lia|].
        intros sv4 a (Hi4&out'&Ho4&Htk). split; [by rewrite Hi4|]. exists (out ++ out'). rewrite Ho4, Ho3. split; [by rewrite app_assoc|].
        rewrite Hi3, Eu3 in Htk. by eapply talks_more.
    + split; [done|]. exists out. split; [done|]. destruct Hb as [Hb|[Hio Hcut]]; [by eapply talks_refused|by eapply talks_cut].
    + split; [done|]. exists out. split; [done|]. by eapply talks_full.
  - apply runs_reads. split; [done|]. exists []. rewrite app_nil_r. split; [done|]. rewrite Es2. destruct Ha. by apply talks_end.
  - split; [done|]. exists []. rewrite app_nil_r. split; [done|]. rewrite Es2.
    destruct Ha as [Hio|(c&->&Hc)]; [by apply talks_unread|by apply talks_unreadable].
Qed.
End Serve.

(** ** The device *)

Section Device.
Context `{Plist}.

(** What the device takes from an answer to [Initiate]: the size of the payload
    and how its blocks are checked. *)
Definition device_plan (v : Value) : option PayloadPlan :=
  d ← as_dictionary v;
  p ← dict_get d KEY_PAYLOAD ≫= as_dictionary;
  n ← dict_integer p KEY_SIZE;
  match dict_integer d KEY_CHECKSUM_CHUNK_SIZE with
  | Some chunk =>
      ty ← dict_integer d KEY_CHECKSUM_TYPE ≫= from_wire;
      Some {| plan_size := n; checksum_chunk_size := chunk; checksum_type := ty; stream_digest_kind := SdSha1 |}
  | None => Some {| plan_size := n; checksum_chunk_size := 0; checksum_type := CkSha256; stream_digest_kind := SdSha1 |}
  end.

(** The last of [n] answers, and what follows it. *)
Fixpoint last_answer (n : nat) (out : bytes) : option (Value * bytes) :=
  match n with
  | O => None
  | S n =>
      fin ← find_close_tag out;
      match from_reader_xml (ztake fin out) with
      | inr v => match n with O => Some (v, zdrop fin out) | _ => last_answer n (zdrop fin out) end
      | inl _ => None
      end
  end.

(** The image a device assembles that has sent [n] [Initiate] requests and a
    [Payload] request. *)
Definition device_restore (n : nat) (out : bytes) : option bytes :=
  '(v, rest) ← last_answer n out;
  plan ← device_plan v;
  receive plan rest.

Definition wf_request (r : Request) : Prop := dict_get (body r) KEY_COMMAND ≫= as_string = Some (wire_name (command r)).

Lemma wf_request_read `{!LawfulPlist} r : wf_request r -> request_from_value (request_to_value r) = Ok r.
Proof.
  unfold wf_request, request_from_value, request_to_value. intros E. rewrite dictionary_law. cbn [ok_or res_bind].
  rewrite E. cbn [ok_or res_bind]. destruct r as [[] b]; done.
Qed.

Lemma new_request_wf `{!LawfulPlist} c : wf_request (new_request c).
Proof. unfold wf_request, new_request. cbn [body command]. by rewrite get_insert_eq, <- string_law. Qed.

Lemma asks_written `{!LawfulPlist} r b rest r' rest' :
  wf_request r -> to_writer_xml (request_to_value r) = inr b -> asks (b ++ rest) r' rest' -> r' = r /\ rest' = rest.
Proof.
  intros Hw Hx (doc&v&[E1 E2]&Hv&Hr). rewrite (xml_is_frame _ _ rest Hx) in E2. injection E2 as E2.
  apply app_inj_1 in E1 as [-> ->]; [|unfold zlen in E2; lia]. rewrite (xml_law _ _ Hx) in Hv. injection Hv as <-.
  rewrite wf_request_read in Hr by done. by injection Hr as <-.
Qed.

(** The entries of an answer that the device uses. *)
Lemma descriptor_entries `{!LawfulPlist} x :
  exists p, descriptor_to_value x = v_dictionary p /\ dict_get p KEY_SIZE = Some (v_integer (sd_size x)).
Proof. unfold descriptor_to_value. eexists. split; [done|]. destruct x as [? ? ? [] []]; by dict. Qed.

Lemma response_entries `{!LawfulPlist} x :
  exists d, as_dictionary (response_to_value x) = Some d /\
    dict_get d KEY_PAYLOAD = Some (descriptor_to_value (rs_payload x)) /\
    dict_get d KEY_CHECKSUM_CHUNK_SIZE = v_integer <$> rs_checksum_chunk_size x /\
    dict_get d KEY_CHECKSUM_TYPE =
      match rs_checksum_chunk_size x with Some _ => Some (v_integer (wire_value (effective_checksum_type x))) | None => None end.
Proof.
  unfold response_to_value. rewrite dictionary_law. eexists. split; [done|]. 
  destruct (rs_checksum_chunk_size x), (rs_uuid x), (rs_image_name x), (rs_dns_service_discovery x), (rs_metadata x); split_and!; by dict.
Qed.

Lemma wire_value_read c : i64 (wire_value c) /\ from_wire (wire_value c) = Some c.
Proof. by destruct c. Qed.

(** The device reads the plan the server has negotiated. *)
Lemma negotiation_agrees `{!LawfulPlist} s r :
  0 <= payload_size s < 2 ^ 63 -> 0 <= cf_checksum_chunk_size (config s) < 2 ^ 63 ->
  device_plan (response_to_value (initiate_response s r)) =
  Some {| plan_size := payload_size s; checksum_chunk_size := effective_chunk_size (initiate_response s r);
          checksum_type := effective_checksum_type (initiate_response s r); stream_digest_kind := SdSha1 |}.
Proof.
  intros Hp Hc. destruct (response_entries (initiate_response s r)) as (d&Ed&Ep&E2&E3).
  destruct (descriptor_entries (rs_payload (initiate_response s r))) as (p&Eq&E1).
  unfold device_plan, dict_integer. rewrite Ed. cbn [mbind option_bind]. rewrite Ep, Eq. cbn [mbind option_bind].
  rewrite dictionary_law. cbn [mbind option_bind]. rewrite E1, E2, E3.
  destruct (initiate_checks s r) as (Ec&Et&->). rewrite as_i64_small by done.
  cbn [mbind option_bind]. rewrite integer_law by (unfold i64; lia). destruct (wire_value_read (effective_checksum_type (initiate_response s r))) as [Hw Ew].
  unfold effective_chunk_size. rewrite Ec in *. destruct (_ && _) eqn:Ek; cbn [fmap option_fmap option_map mbind option_bind].
  - bools. rewrite as_i64_small by lia. rewrite integer_law by (unfold i64; lia). cbn [mbind option_bind].
    rewrite integer_law by done. cbn [mbind option_bind]. rewrite Ew. cbn [mbind option_bind]. by rewrite (proj2 (Z.ltb_lt _ _)) by lia.
  - unfold effective_checksum_type. by rewrite Et.
Qed.

(** Written requests: the documents of a list of requests. *)
Inductive written : list Request -> list bytes -> Prop :=
| written_nil : written [] []
| written_cons r b rs bs : wf_request r -> to_writer_xml (request_to_value r) = inr b -> written rs bs -> written (r :: rs) (b :: bs).

Context `{!LawfulPlist} (steady : Prop) (img : bytes).

Lemma talks_written s r b rest out s' sum :
  wf_request r -> to_writer_xml (request_to_value r) = inr b -> talks steady img s (b ++ rest) out s' (Ok sum) ->
  (reply steady img s r out s' true /\ sum = summary s') \/
  exists o out' s1, reply steady img s r o s1 false /\ out = o ++ out' /\ talks steady img s1 rest out' s' (Ok sum).
Proof.
  intros Hw Hx Ht. inversion Ht; subst.
  - match goal with E : find_close_tag _ = None |- _ => by rewrite (xml_is_frame _ _ rest Hx) in E end.
  - match goal with A : asks _ _ _ |- _ => destruct (asks_written _ _ _ _ _ Hw Hx A) as [-> ->] end. right. eauto 10.
  - match goal with A : asks _ _ _ |- _ => destruct (asks_written _ _ _ _ _ Hw Hx A) as [-> ->] end. by left.
Qed.

(** A successful conversation of [Initiate] requests and a [Payload] request. *)
Lemma device_follows inits bs : forall pay b rest s out s' sum,
  written inits bs -> Forall (fun r => command r = Initiate) inits -> inits <> [] ->
  wf_request pay -> command pay = Payload -> to_writer_xml (request_to_value pay) = inr b ->
  session_ok img s -> cf_checksum_chunk_size (config s) < 2 ^ 63 ->
  talks steady img s (concat bs ++ b ++ rest) out s' (Ok sum) ->
  exists p, payload sum = Some p /\
    (stopped_early p = false -> device_restore (length inits) out = Some (ztake (payload_size s) img) /\
       forall hash, cf_expected_hash (config s) = Some hash -> stream_spec (session_digest_kind s) (ztake (payload_size s) img) = hash).
Proof.
  intros pay b rest s out s' sum Hws. revert s out.
  induction Hws as [|r br rs bs Hw Hx Hws IH]; intros s out Hin Hne Hpw Hpc Hpx Hok Hc Ht; [done|].
  inversion Hin as [|? ? Hcr Hin']; subst. cbn [concat] in Ht. rewrite <- !app_assoc in Ht.
  destruct (talks_written _ _ _ _ _ _ _ Hw Hx Ht) as [[Hr _]|(o&out'&s1&Hr&->&Ht1)].
  { inversion Hr. congruence. }
  destruct (reply_session_ok _ _ _ _ _ _ _ Hok Hr) as [Hok1 Ep1].
  inversion Hr as [o' _ Ho| | | |]; [|congruence..]. subst o' s1.
  assert (forall n, last_answer (S n) (o ++ out') =
    match n with O => Some (response_to_value (initiate_response s r), out') | _ => last_answer n out' end) as Hla.
  { intros n. cbn [last_answer]. rewrite (xml_is_frame _ _ out' Ho). cbn [mbind option_bind].
    by rewrite ztake_app_le, ztake_all, zdrop_app_le, zdrop_all, (xml_law _ _ Ho) by lia. }
  destruct Hws as [|r2 b2 rs bs Hw2 Hx2 Hws].
  - cbn [concat app] in Ht1. destruct (talks_written _ _ _ _ _ _ _ Hpw Hpx Ht1) as [[Hp ->]|(?&?&?&Hp&_)].
    2:{ inversion Hp; congruence. }
    inversion Hp as [| | | |plan off _ En Hoff Hhash]; subst; [congruence..|].
    exists (payload_summary img plan off). split; [done|]. intros He. cbn [payload_summary stopped_early] in He. bools.
    assert (off = plan_size plan) as -> by lia.
    destruct (so_plan _ _ Hok1 _ En) as [Eps _]. pose proof (session_plan_ok _ _ _ Hok1 En) as Hpo. injection En as <-.
    split; [|intros hash Eh; exact (Hhash hash Eh eq_refl)].
    unfold device_restore. cbn [length]. rewrite Hla. cbn [mbind option_bind].
    rewrite negotiation_agrees by (destruct Hok as [? ? [] ?]; lia). cbn [mbind option_bind].
    apply receive_blocks_frames; [by destruct Hpo; split|cbn [plan_size]; destruct Hok; lia|].
    split; [done|]. cbn [plan_size]. rewrite zlen_ztake. destruct Hok. lia.
  - edestruct IH as (p&Ep&Hp); [exact Hin'|done..|exact Hok1|exact Hc|exact Ht1|].
    exists p. split; [done|]. intros He. destruct (Hp He) as [Hd Hh]. split; [|exact Hh].
    unfold device_restore. cbn [length]. rewrite Hla. exact Hd.
Qed.
End Device.

Lemma new_session_ok `{Plist} img c s :
  new_session (zlen img) c = Ok s -> 0 <= default (zlen img) (cf_payload_size c) < 2 ^ 58 -> u64 (cf_checksum_chunk_size c) ->
  session_ok img s /\ config s = c /\ payload_size s = default (zlen img) (cf_payload_size c).
Proof.
  unfold new_session. destruct (_ <? _) eqn:El; [done|]. bools. intros [= <-] Hs Hc.
  split; [|done]. split; cbn [payload_size config negotiation]; [lia|lia|done|done].
Qed.

(** C10. Serving a connection returns, whatever the disc, the connection and the
    observer do, and is a conversation of the specification: each request that
    arrives is answered by [reply] or refused by [refusal], in the order of
    arrival; the session after it is the one the reply leads to; the summary
    returned is the last session's; nothing else is sent.  The image is not
    changed. *)
Theorem serve_refines `{LawfulPlist} {I T V : Type} `{LawfulSource I, LawfulChannel T, PayloadObserver V}
    (sv : Server I T V) (turns fuel : nat) :
  let img := image (w_source (wire sv)) in let inp := incoming (w_out (wire sv)) in
  session_ok img (session sv) -> payload_size (session sv) < Z.of_nat fuel -> (length inp < fuel)%nat -> (length inp < turns)%nat ->
  exists sv' a out, serve turns fuel sv = Some (sv', a) /\ image (w_source (wire sv')) = img /\
    outgoing (w_out (wire sv')) = outgoing (w_out (wire sv)) ++ out /\
    talks (steady_source I) img (session sv) inp out (session sv') a.
Proof.
  intros img inp Hok Hp Hf Ht.
  destruct (serve_loop_spec turns fuel (sv <| sv_pending := [] |>)) as (sv'&a&E&Hi&out&Ho&Htk); [done..|].
  exists sv', a, out. split; [exact E|]. by server_fields.
Qed.

(** C9. A restore, end to end: a device sends one or more [Initiate] requests and
    then a [Payload] request, takes the size of the image and the way its blocks
    are checked from the last answer and cuts the payload by it.  If the server
    reports success and was not asked to stop, the device has assembled exactly
    the announced part of the image, every block digest having matched, and the
    digest the configuration expects of it is the image's. *)
Theorem asr_end_to_end `{LawfulPlist} {I T V : Type} `{LawfulSource I, LawfulChannel T, PayloadObserver V}
    (c : AsrServerConfig) (sv : Server I T V) (inits : list Request) (pay : Request) (bs : list bytes) (b rest : bytes) (turns fuel : nat) :
  let img := image (w_source (wire sv)) in let inp := concat bs ++ b ++ rest in
  let size := default (zlen img) (cf_payload_size c) in
  new_session (zlen img) c = Ok (session sv) -> 0 <= size < 2 ^ 58 -> 0 <= cf_checksum_chunk_size c < 2 ^ 63 ->
  written inits bs -> Forall (fun r => command r = Initiate) inits -> inits <> [] ->
  wf_request pay -> command pay = Payload -> to_writer_xml (request_to_value pay) = inr b ->
  incoming (w_out (wire sv)) = inp -> size < Z.of_nat fuel -> (length inp < fuel)%nat -> (length inp < turns)%nat ->
  exists sv' a out, serve turns fuel sv = Some (sv', a) /\ outgoing (w_out (wire sv')) = outgoing (w_out (wire sv)) ++ out /\
    forall sum, a = Ok sum -> exists p, payload sum = Some p /\
      (stopped_early p = false -> device_restore (length inits) out = Some (ztake size img) /\
         forall hash, cf_expected_hash c = Some hash -> stream_spec (for_expected_hash_len (zlen hash)) (ztake size img) = hash).
Proof.
  intros img inp size Hnew Hs Hc Hw Hin Hne Hpw Hpc Hpx Einp Hf1 Hf2 Ht.
  destruct (new_session_ok _ _ _ Hnew Hs) as (Hok&Ec&Ep); [split; lia|]. fold size in Ep.
  destruct (serve_loop_spec turns fuel (sv <| sv_pending := [] |>)) as (sv'&a&E&Hi&out&Ho&Htk).
  { done. }
  { server_fields. by rewrite Ep. }
  { unfold unread. server_fields. by rewrite Einp. }
  { unfold unread. server_fields. by rewrite Einp. }
  exists sv', a, out. split; [exact E|]. split; [by server_fields|]. intros sum ->. unfold unread in Htk. server_fields.
  cbn [app] in Htk. rewrite Einp in Htk.
  edestruct device_follows as (p&Epay&Hp); [exact Hw|exact Hin|exact Hne|exact Hpw|exact Hpc|exact Hpx|exact Hok|by rewrite Ec; lia|exact Htk|].
  exists p. split; [done|]. intros He. destruct (Hp He) as [Hd Hh]. rewrite Ep in Hd, Hh. split; [done|].
  intros hash Eh. rewrite <- Ec in Eh. specialize (Hh _ Eh). unfold session_digest_kind in Hh. by rewrite Eh in Hh.
Qed.

(** ** Witnesses *)

#[local] Existing Instance Sample.sample_plist.
#[local] Existing Instance Sample.sample_lawful.

Definition sample_image : bytes := [1; 2; 3; 4; 5; 6; 7; 8; 9; 10].
Definition sample_config : AsrServerConfig :=
  {| cf_payload_size := None; cf_stream_id := 1; cf_image_name := None; cf_uuid := None; cf_checksum_chunk_size := 4;
     cf_checksum_type := CkSha256; cf_metadata := None; cf_expected_hash := Some (stream_spec SdSha1 sample_image);
     cf_max_retry := 1; cf_packet_payload_size := 1450; cf_packets_per_fec := 25; cf_fec_slice_stride := 40 |}.
Definition sample_initiate : Request :=
  {| command := Initiate; body := dict_insert (body (new_request Initiate)) KEY_CHECKSUM_CHUNKS (v_boolean true) |}.
Definition sample_pay : Request := new_request Payload.
Definition sample_server : Server MemoryImageSource Pipe unit :=
  MkServer (MkWire {| mis_bytes := sample_image |}
                   {| feed := Sample.xml (request_to_value sample_initiate) ++ Sample.xml (request_to_value sample_initiate) ++
                              Sample.xml (request_to_value sample_pay); grain := 7; drained := [] |} tt) []
           {| config := sample_config; payload_size := 10; negotiation := None; summary := no_requests |}.

Definition restored (o : option (Server MemoryImageSource Pipe unit * res AsrError SessionSummary)) : bool :=
  match o with Some (_, Ok sum) => match payload sum with Some p => negb (stopped_early p) | None => false end | _ => false end.

Lemma sample_restored : restored (serve 2000 2000 sample_server) = true.
Proof. by vm_compute. Qed.

Lemma sample_ok : session_ok sample_image (session sample_server).
Proof. split; cbn; [by_compute..|done]. Qed.

Lemma sample_length : (length (feed (w_out (wire sample_server))) <? 2000)%nat = true.
Proof. by vm_compute. Qed.

Lemma serve_refines_witness : exists sv' a out,
  serve 2000 2000 sample_server = Some (sv', a) /\ outgoing (w_out (wire sv')) = out /\
  talks (steady_source MemoryImageSource) sample_image (session sample_server) (feed (w_out (wire sample_server))) out (session sv') a.
Proof.
  destruct (serve_refines sample_server 2000 2000) as (sv'&a&out&E&_&Ho&Ht); [exact sample_ok|by_compute|apply Nat.ltb_lt, sample_length..|].
  exists sv', a, out. auto.
Defined.

Lemma asr_end_to_end_witness : exists sv' sum out,
  serve 2000 2000 sample_server = Some (sv', Ok sum) /\ outgoing (w_out (wire sv')) = out /\ device_restore 2 out = Some sample_image.
Proof.
  destruct (asr_end_to_end sample_config sample_server [sample_initiate; sample_initiate] sample_pay
    [Sample.xml (request_to_value sample_initiate); Sample.xml (request_to_value sample_initiate)]
    (Sample.xml (request_to_value sample_pay)) [] 2000 2000) as (sv'&a&out&E&Ho&Hr);
    [done|by_compute|by_compute|repeat constructor|repeat constructor|done|done|done|done| |by_compute|rewrite app_nil_r; apply Nat.ltb_lt, sample_length..|].
  { cbn [concat]. by rewrite !app_nil_r, <- app_assoc. }
  pose proof sample_restored as Hs. rewrite E in Hs. destruct a as [sum|e|]; [|discriminate Hs..].
  destruct (Hr sum eq_refl) as (p&Ep&Hp). cbn in Hs. rewrite Ep in Hs. apply negb_true_iff in Hs.
  exists sv', sum, out. destruct (Hp Hs) as [Hd _]. auto.
Defined.
