(* ===== verification/Pem.v ===== *)
(** * Base64 and PEM armour (ramrod/pem.rs)

    The encoder and the tolerant decoder.  The specification of the decoder is
    arithmetic: the characters that are not whitespace are digits in base 64
    followed by padding, and the result is the number they write, cut to whole
    bytes. *)

From S2P Require Import Prelude Windows.
From stdpp Require Import base tactics numbers list option strings.
From Stdlib Require Import ZArith Lia.

Open Scope Z_scope.

Definition ALPHABET : bytes := bytes_of "ABCDEFGHIJKLMNOPQRSTUVWXYZabcdefghijklmnopqrstuvwxyz0123456789+/".
Definition PAD : Z := 61.
Definition PEM_LINE_WIDTH : Z := 64.
Definition LABEL_CERTIFICATE_REQUEST : bytes := bytes_of "CERTIFICATE REQUEST".
Definition LABEL_CERTIFICATE : bytes := bytes_of "CERTIFICATE".

Inductive PemError :=
| NoBeginLine (label : bytes)
| NoEndLine (label : bytes)
| Alphabet (byte offset : Z)
| Length (characters : Z)
| Padding (offset : Z).

Section Encode.
Context {E : Type}.

Definition encode_group (group : bytes) : res E bytes :=
  let? a := index group 0 in
  let b := default 0 (zget group 1) in
  let c := default 0 (zget group 2) in
  let word := Z.lor (Z.lor (Z.shiftl a 16) (Z.shiftl b 8)) c in
  let? c0 := index ALPHABET (Z.land (Z.shiftr word 18) 0x3f) in
  let? c1 := index ALPHABET (Z.land (Z.shiftr word 12) 0x3f) in
  let? c2 := if 1 <? zlen group then index ALPHABET (Z.land (Z.shiftr word 6) 0x3f) else Ok PAD in
  let? c3 := if 2 <? zlen group then index ALPHABET (Z.land word 0x3f) else Ok PAD in
  Ok [c0; c1; c2; c3].

Fixpoint encode_groups (groups : list bytes) : res E bytes :=
  match groups with
  | [] => Ok []
  | group :: groups =>
      let? text := encode_group group in
      let? rest := encode_groups groups in
      Ok (text ++ rest)
  end.

Definition base64_encode (data : bytes) : res E bytes := encode_groups (slice_chunks 3 data).

(** A line of the body is ASCII, so [from_utf8] gives it back. *)
Definition encode (label der : bytes) : res E bytes :=
  let? body := base64_encode der in
  Ok (bytes_of "-----BEGIN " ++ label ++ bytes_of "-----" ++ [10] ++
      concat (map (fun line => line ++ [10]) (slice_chunks PEM_LINE_WIDTH body)) ++
      bytes_of "-----END " ++ label ++ bytes_of "-----" ++ [10]).
End Encode.

Definition alphabet_value (byte : Z) : option Z :=
  if (65 <=? byte) && (byte <=? 90) then Some (byte - 65)
  else if (97 <=? byte) && (byte <=? 122) then Some (byte - 97 + 26)
  else if (48 <=? byte) && (byte <=? 57) then Some (byte - 48 + 52)
  else if byte =? 43 then Some 62
  else if byte =? 47 then Some 63
  else None.

(** The variables of the decoder's loop. *)
Record Decoder := { accumulator : Z; held : Z; characters : Z; padding : Z; out : bytes }.
#[export] Instance eta_decoder : Eta Decoder := fun d => Build_Decoder (accumulator d) (held d) (characters d) (padding d) (out d).

Definition start : Decoder := {| accumulator := 0; held := 0; characters := 0; padding := 0; out := [] |}.

Definition take_value (d : Decoder) (value : Z) : Decoder :=
  let acc := Z.lor (wrap 32 (Z.shiftl (accumulator d) 6)) value in
  let d := d <| accumulator := acc |> <| held := held d + 1 |> <| characters := characters d + 1 |> in
  if held d =? 4 then
    d <| out := out d ++ [wrap 8 (Z.shiftr acc 16); wrap 8 (Z.shiftr acc 8); wrap 8 acc] |>
      <| accumulator := 0 |> <| held := 0 |>
  else d.

Fixpoint decode_from (offset : Z) (text : bytes) (d : Decoder) : res PemError Decoder :=
  match text with
  | [] => Ok d
  | byte :: text =>
      if is_ascii_whitespace byte then decode_from (offset + 1) text d
      else if byte =? PAD then
        decode_from (offset + 1) text (d <| padding := padding d + 1 |> <| characters := characters d + 1 |>)
      else if negb (padding d =? 0) then Err (Padding offset)
      else
        let? value := ok_or (alphabet_value byte) (Alphabet byte offset) in
        decode_from (offset + 1) text (take_value d value)
  end.

Definition decode_tail (d : Decoder) : res PemError bytes :=
  if negb (characters d mod 4 =? 0) then Err (Length (characters d))
  else if held d =? 0 then Ok (out d)
  else if held d =? 2 then Ok (out d ++ [wrap 8 (Z.shiftr (accumulator d) 4)])
  else if held d =? 3 then Ok (out d ++ [wrap 8 (Z.shiftr (accumulator d) 10); wrap 8 (Z.shiftr (accumulator d) 2)])
  else Err (Length (characters d)).

Definition base64_decode (text : bytes) : res PemError bytes :=
  let? d := decode_from 0 text start in decode_tail d.

Definition find (haystack needle : bytes) : option Z :=
  if (zlen needle =? 0) || (zlen haystack <? zlen needle) then None else window_position needle haystack.

Definition decode (text label : bytes) : res PemError bytes :=
  let begin := bytes_of "-----BEGIN " ++ label ++ bytes_of "-----" in
  let fin := bytes_of "-----END " ++ label ++ bytes_of "-----" in
  let? at_ := ok_or (find text begin) (NoBeginLine label) in
  let start := at_ + zlen begin in
  let? rest := slice text start (zlen text) in
  let? stop := ok_or (find rest fin) (NoEndLine label) in
  let? body := slice text start (start + stop) in
  base64_decode body.

Definition looks_like_pem (text : bytes) : bool := bool_decide (is_Some (find text (bytes_of "-----BEGIN "))).

(** ** What base 64 text means *)

Definition significant (text : bytes) : bytes := filter (fun b => is_ascii_whitespace b = false) text.
Definition digit (b : Z) : Prop := is_Some (alphabet_value b).
Definition val64 (digits : bytes) : Z := foldl (fun v b => v * 64 + default 0 (alphabet_value b)) 0 digits.

(** The bytes of [digits]: their bits, less the incomplete byte at the end. *)
Definition base64_value (digits : bytes) : bytes :=
  let bits := 6 * zlen digits in be_bytes (Z.to_nat (bits / 8)) (val64 digits / 2 ^ (bits mod 8)).

Lemma alphabet_value_range b v : alphabet_value b = Some v -> 0 <= v < 64.
Proof. unfold alphabet_value. repeat case_match; intros [= <-]; bools; lia. Qed.

Lemma digit_plain b : digit b -> is_ascii_whitespace b = false /\ b <> PAD /\ b <> 45 /\ b < 128.
Proof.
  intros [v Hv]. unfold is_ascii_whitespace, PAD. revert Hv. unfold alphabet_value.
  repeat case_match; intros [= _]; bools; repeat split; try lia;
    repeat (apply orb_false_iff; split); apply Z.eqb_neq; lia.
Qed.

Lemma val64_app l k : val64 (l ++ k) = val64 l * 64 ^ zlen k + val64 k.
Proof.
  unfold val64. rewrite foldl_app. generalize (foldl (fun v b => v * 64 + default 0 (alphabet_value b)) 0 l) as x. 
  induction k as [|b k IH] using rev_ind; intros x; [cbn [foldl]; change (zlen []) with 0; rewrite Z.pow_0_r; lia|].
  rewrite !foldl_app, IH. cbn [foldl]. rewrite zlen_app. change (zlen [b]) with 1.
  rewrite Z.pow_add_r by (pose proof (zlen_nonneg k); lia). lia.
Qed.

Lemma val64_range l : 0 <= val64 l < 64 ^ zlen l.
Proof.
  induction l as [|b l IH] using rev_ind; [by_compute|]. rewrite val64_app, zlen_app. change (zlen [b]) with 1.
  rewrite Z.pow_add_r by (pose proof (zlen_nonneg l); lia).
  assert (0 <= val64 [b] < 64).
  { unfold val64. cbn. destruct (alphabet_value b) eqn:E; cbn; [by apply alphabet_value_range in E|lia]. }
  lia.
Qed.

#[local] Transparent be_bytes.

Lemma be_bytes_app n m x y :
  0 <= y < 2 ^ (8 * Z.of_nat m) -> be_bytes (n + m) (x * 2 ^ (8 * Z.of_nat m) + y) = be_bytes n x ++ be_bytes m y.
Proof.
  unfold be_bytes. intros Hy. rewrite <- rev_app_distr. f_equal. revert y Hy.
  induction m as [|m IH]; intros y Hy.
  - cbn [le_bytes app]. replace (n + 0)%nat with n by lia. f_equal. change (2 ^ (8 * Z.of_nat 0)) with 1 in *. lia.
  - replace (n + S m)%nat with (S (n + m)) by lia. cbn [le_bytes app].
    replace (8 * Z.of_nat (S m)) with (8 + 8 * Z.of_nat m) in * by lia. rewrite Z.pow_add_r in * by lia.
    change (2 ^ 8) with 256 in *. replace (x * (256 * 2 ^ (8 * Z.of_nat m)) + y) with (y + (x * 2 ^ (8 * Z.of_nat m)) * 256) by lia.
    rewrite Z.mod_add, Z.div_add by lia. f_equal. rewrite Z.add_comm. apply IH. split; [apply Z.div_pos; lia|].
    apply Z.div_lt_upper_bound; lia.
Qed.

(** ** The decoder *)

(** The decoder has read the characters [sig]: [whole] in full groups of four,
    [rest] after them, then padding. *)
Record decoding (sig whole rest : bytes) (d : Decoder) : Prop := {
  dc_sig : sig = whole ++ rest ++ replicate (Z.to_nat (padding d)) PAD;
  dc_digits : Forall digit (whole ++ rest);
  dc_padding : 0 <= padding d;
  dc_characters : characters d = zlen sig;
  dc_held : zlen rest = held d /\ held d < 4;
  dc_whole : zlen whole mod 4 = 0;
  dc_out : out d = be_bytes (Z.to_nat (6 * zlen whole / 8)) (val64 whole);
  dc_accumulator : accumulator d = val64 rest;
}.

Lemma wrap_8_bytes x : wrap 8 (Z.shiftr x 16) :: wrap 8 (Z.shiftr x 8) :: wrap 8 x :: [] = be_bytes 3 x.
Proof. unfold wrap, be_bytes. rewrite !Z.shiftr_div_pow2 by lia. cbn [le_bytes rev app]. by rewrite Z.div_div by lia. Qed.

Lemma take_value_decoding sig whole rest d b v :
  decoding sig whole rest d -> padding d = 0 -> alphabet_value b = Some v ->
  exists whole' rest', decoding (sig ++ [b]) whole' rest' (take_value d v) /\ padding (take_value d v) = 0.
Proof.
  intros [Hs Hd Hp Hc [Hh Hh4] Hw Ho Ha] Hp0 Hv. pose proof (alphabet_value_range _ _ Hv) as Hvr. rewrite Hp0 in Hs. cbn in Hs. rewrite app_nil_r in Hs.
  assert (0 <= held d) by (rewrite <- Hh; apply zlen_nonneg).
  assert (0 <= accumulator d < 2 ^ 18) as Har.
  { rewrite Ha. pose proof (val64_range rest) as [? Hr]. split; [done|]. eapply Z.lt_le_trans; [exact Hr|].
    change (2 ^ 18) with (64 ^ 3). apply Z.pow_le_mono_r; lia. }
  assert (Z.lor (wrap 32 (Z.shiftl (accumulator d) 6)) v = val64 (rest ++ [b])) as Eacc.
  { rewrite wrap_small by (unfold in_range; rewrite Z.shiftl_mul_pow2 by lia; lia).
    rewrite lor_shiftl by (change (2 ^ 6) with 64; lia). rewrite val64_app, Ha. change (zlen [b]) with 1.
    replace (val64 [b]) with v; [lia|]. unfold val64. cbn [foldl]. by rewrite Hv. }
  assert (Forall digit (whole ++ (rest ++ [b]))) as Hd'.
  { rewrite app_assoc. apply Forall_app. split; [done|]. constructor; [by exists v|constructor]. }
  unfold take_value. unfold set_field. cbn [held accumulator characters padding out]. rewrite Eacc.
  destruct (Z.eqb_spec (held d + 1) 4) as [E4|]; cbn [held accumulator characters padding out].
  - exists (whole ++ rest ++ [b]), []. split; [|done]. assert (zlen (rest ++ [b]) = 4) as Hl by (zl).
    split; cbn [held accumulator characters padding out].
    + rewrite Hp0, Hs. cbn. by rewrite app_nil_r, app_assoc.
    + by rewrite app_nil_r.
    + lia.
    + rewrite Hc. zl.
    + done.
    + rewrite zlen_app, Hl. rewrite <- (Z.mul_1_l 4) at 1. by rewrite Z.mod_add by lia.
    + rewrite wrap_8_bytes, Ho. rewrite zlen_app, Hl, (val64_app whole), Hl. change (64 ^ 4) with (2 ^ (8 * Z.of_nat 3)).
      rewrite <- be_bytes_app.
      * f_equal. pose proof (zlen_nonneg whole). Z.div_mod_to_equations. lia.
      * change (2 ^ (8 * Z.of_nat 3)) with (64 ^ 4). rewrite <- Hl. apply val64_range.
    + done.
  - exists whole, (rest ++ [b]). split; [|done]. split; cbn [held accumulator characters padding out]; try done.
    + rewrite Hp0, Hs. cbn. by rewrite app_nil_r, app_assoc.
    + rewrite Hc. zl.
    + rewrite zlen_app. change (zlen [b]) with 1. lia.
Qed.

Lemma start_decoding : decoding (significant []) [] [] start.
Proof. split; done || constructor. Qed.

Definition decode_outcome (pre text : bytes) (r : res PemError Decoder) : Prop :=
  match r with
  | Ok d => exists whole rest, decoding (significant (pre ++ text)) whole rest d
  | Err (Alphabet byte offset) => exists before after, pre ++ text = before ++ byte :: after /\ offset = zlen before /\
      is_ascii_whitespace byte = false /\ byte <> PAD /\ alphabet_value byte = None
  | Err (Padding offset) => exists before byte after, pre ++ text = before ++ byte :: after /\ offset = zlen before /\
      is_ascii_whitespace byte = false /\ byte <> PAD /\ PAD ∈ before
  | _ => False
  end.

Lemma significant_snoc pre b : significant (pre ++ [b]) = significant pre ++ (if is_ascii_whitespace b then [] else [b]).
Proof.
  unfold significant. rewrite filter_app. f_equal. destruct (is_ascii_whitespace b) eqn:E.
  - rewrite filter_cons_False; [done|]. by rewrite E.
  - rewrite filter_cons_True; done.
Qed.

Lemma decode_from_spec text : forall pre whole rest d,
  decoding (significant pre) whole rest d -> decode_outcome pre text (decode_from (zlen pre) text d).
Proof.
  induction text as [|b text IH]; intros pre whole rest d Hd; cbn [decode_from].
  { unfold decode_outcome. rewrite app_nil_r. eauto. }
  assert (zlen pre + 1 = zlen (pre ++ [b])) as El by zl.
  replace (pre ++ b :: text) with ((pre ++ [b]) ++ text) in * by (by rewrite <- app_assoc).
  assert (forall whole rest d', decoding (significant (pre ++ [b])) whole rest d' ->
    decode_outcome pre (b :: text) (decode_from (zlen pre + 1) text d')) as Hnext.
  { intros whole' rest' d' Hd'. rewrite El. specialize (IH _ _ _ _ Hd').
    unfold decode_outcome in *. by rewrite <- !app_assoc in IH. }
  destruct (is_ascii_whitespace b) eqn:Ew.
  { apply (Hnext whole rest). rewrite significant_snoc, Ew, app_nil_r. done. }
  destruct (Z.eqb_spec b PAD) as [->|Hb].
  { apply (Hnext whole rest). rewrite significant_snoc, Ew. destruct Hd as [Hs ? ? Hc ? ? ? ?]. unfold set_field.
    split; cbn [held accumulator characters padding out]; try done; [|lia|rewrite Hc; zl].
    rewrite Hs. rewrite <- !app_assoc. do 2 f_equal.
    replace (Z.to_nat (padding d + 1)) with (Z.to_nat (padding d) + 1)%nat by lia. by rewrite replicate_add. }
  destruct (Z.eqb_spec (padding d) 0) as [Hp0|Hp]; cbn [negb].
  2:{ exists pre, b, text. split_and!; try done. destruct Hd as [Hs ? ? ? ? ? ? ?].
      assert (PAD ∈ significant pre) as Hin.
      { rewrite Hs. apply elem_of_app. right. apply elem_of_app. right. apply elem_of_replicate. split; [done|lia]. }
      by apply list_elem_of_filter in Hin as [_ Hin]. }
  destruct (alphabet_value b) as [v|] eqn:Ev; cbn [ok_or res_bind].
  2:{ by exists pre, text. }
  destruct (take_value_decoding _ _ _ _ _ _ Hd Hp0 Ev) as (whole'&rest'&Hd'&_).
  apply (Hnext whole' rest'). rewrite significant_snoc, Ew. done.
Qed.

(** [text] writes [digits] and then padding, up to whitespace. *)
Definition writes64 (text digits : bytes) : Prop :=
  Forall digit digits /\ exists pads, significant text = digits ++ replicate pads PAD.

(** The bytes of digits that end in an incomplete group. *)
Lemma base64_value_app whole rest k :
  zlen whole mod 4 = 0 -> 6 * zlen rest = 8 * Z.of_nat k + (6 * zlen rest) mod 8 ->
  base64_value (whole ++ rest) = be_bytes (Z.to_nat (6 * zlen whole / 8)) (val64 whole) ++ be_bytes k (val64 rest / 2 ^ ((6 * zlen rest) mod 8)).
Proof.
  intros Hw Hk. unfold base64_value. pose proof (zlen_nonneg whole). pose proof (zlen_nonneg rest). rewrite zlen_app.
  set (m := (6 * zlen rest) mod 8) in *.
  assert (6 * zlen whole = 8 * (6 * zlen whole / 8)) as Ew by (Z.div_mod_to_equations; lia).
  set (n := 6 * zlen whole / 8) in *.
  assert (0 <= m < 8) by (apply Z.mod_pos_bound; lia).
  replace ((6 * (zlen whole + zlen rest)) mod 8) with m.
  2:{ replace (6 * (zlen whole + zlen rest)) with (6 * zlen rest + n * 8) by lia. by rewrite Z.mod_add by lia. }
  replace (6 * (zlen whole + zlen rest) / 8) with (n + Z.of_nat k) by (apply Z.div_unique with m; lia).
  rewrite Z2Nat.inj_add, Nat2Z.id by lia. rewrite val64_app.
  replace (64 ^ zlen rest) with (2 ^ (8 * Z.of_nat k) * 2 ^ m).
  2:{ rewrite <- Z.pow_add_r, <- Hk by lia. change 64 with (2 ^ 6). by rewrite <- Z.pow_mul_r by lia. }
  rewrite Z.mul_assoc, Z.add_comm, Z.div_add by (apply Z.pow_nonzero; lia). rewrite Z.add_comm. apply be_bytes_app.
  pose proof (val64_range rest) as [Hr1 Hr2]. split; [apply Z.div_pos; lia|].
  apply Z.div_lt_upper_bound; [lia|]. rewrite <- Z.pow_add_r by lia. replace (m + 8 * Z.of_nat k) with (6 * zlen rest) by lia.
  rewrite Z.pow_mul_r by lia. done.
Qed.

Lemma decode_tail_spec sig whole rest d :
  decoding sig whole rest d ->
  decode_tail d =
    if (zlen sig mod 4 =? 0) && negb (zlen (whole ++ rest) mod 4 =? 1) then Ok (base64_value (whole ++ rest)) else Err (Length (zlen sig)).
Proof.
  intros [Hs Hd Hp Hc [Hh Hh4] Hw Ho Ha]. unfold decode_tail. rewrite Hc. pose proof (zlen_nonneg rest) as Hr0.
  assert (zlen (whole ++ rest) mod 4 = held d) as ->.
  { rewrite zlen_app, Hh, Z.add_mod, Hw, Z.add_0_l, Z.mod_mod, Z.mod_small by lia. done. }
  destruct (zlen sig mod 4 =? 0); [|done]. cbn [negb andb]. pose proof (val64_range rest) as Hr.
  destruct (Z.eqb_spec (held d) 0) as [E|].
  { rewrite E in Hh |- *. apply zlen_zero in Hh as ->. cbn. rewrite (base64_value_app whole [] 0) by done.
    by rewrite <- Ho, app_nil_r. }
  destruct (Z.eqb_spec (held d) 2) as [E|].
  { rewrite E in *. cbn [negb]. change (negb (2 =? 1)) with true. rewrite (base64_value_app whole rest 1) by (done || by rewrite Hh).
    rewrite <- Ho, Hh, Ha. do 2 f_equal. rewrite Z.shiftr_div_pow2 by lia. done. }
  destruct (Z.eqb_spec (held d) 3) as [E|].
  { rewrite E in *. change (negb (3 =? 1)) with true. rewrite (base64_value_app whole rest 2) by (done || by rewrite Hh).
    rewrite <- Ho, Hh, Ha. do 2 f_equal. rewrite !Z.shiftr_div_pow2 by lia. unfold wrap, be_bytes. cbn [le_bytes rev app].
    change ((6 * 3) mod 8) with 2. by rewrite Z.div_div by lia. }
  assert (held d = 1) as -> by lia. done.
Qed.

(** What the decoder says of a text. *)
Definition decoder_says (text : bytes) (r : res PemError bytes) : Prop :=
  match r with
  | Ok data => exists digits, writes64 text digits /\ zlen (significant text) mod 4 = 0 /\ zlen digits mod 4 <> 1 /\
      data = base64_value digits
  | Err (Length n) => exists digits, writes64 text digits /\ n = zlen (significant text) /\ (n mod 4 <> 0 \/ zlen digits mod 4 = 1)
  | Err (Alphabet byte offset) => exists before after, text = before ++ byte :: after /\ offset = zlen before /\
      is_ascii_whitespace byte = false /\ byte <> PAD /\ alphabet_value byte = None
  | Err (Padding offset) => exists before byte after, text = before ++ byte :: after /\ offset = zlen before /\
      is_ascii_whitespace byte = false /\ byte <> PAD /\ PAD ∈ before
  | _ => False
  end.

Lemma base64_decode_spec text : decoder_says text (base64_decode text).
Proof.
  unfold decoder_says.
  unfold base64_decode. pose proof (decode_from_spec text [] [] [] start start_decoding) as Hs.
  change (zlen []) with 0 in Hs. destruct (decode_from 0 text start) as [d|[]|]; cbn [res_bind]; try exact Hs; try done.
  destruct Hs as (whole&rest&Hd). cbn [app] in Hd. rewrite (decode_tail_spec _ _ _ _ Hd).
  assert (writes64 text (whole ++ rest)) as Hw.
  { destruct Hd as [Hsig Hdig _ _ _ _ _ _]. split; [done|]. eexists. by rewrite Hsig, app_assoc. }
  destruct (_ && _) eqn:E; exists (whole ++ rest); bools; (split; [done|]).
  - by repeat split.
  - split; [done|]. apply andb_false_iff in E as [E|E]; bools; [by left|by right].
Qed.

Lemma significant_no_pad text digits : writes64 text digits -> forall b, b ∈ significant text -> digit b \/ b = PAD.
Proof.
  intros [Hd [pads Hs]] b. rewrite Hs, elem_of_app. intros [Hb|Hb].
  - left. rewrite Forall_forall in Hd. by apply Hd.
  - right. by apply elem_of_replicate_inv in Hb.
Qed.

(** Text of the right form is decoded. *)
Lemma base64_decode_writes text digits :
  writes64 text digits -> zlen (significant text) mod 4 = 0 -> zlen digits mod 4 <> 1 ->
  base64_decode text = Ok (base64_value digits).
Proof.
  intros Hw H4 H1. pose proof (base64_decode_spec text) as Hs. pose proof (significant_no_pad _ _ Hw) as Hin.
  assert (forall digits', writes64 text digits' -> digits' = digits) as Huniq.
  { intros digits' [Hd' [p' E']]. destruct Hw as [Hd [p E]]. rewrite E in E'.
    assert (forall l n, Forall digit l -> filter (fun b => b <> PAD) (l ++ replicate n PAD) = l) as Hf.
    { intros l n Hl. rewrite filter_app. replace (filter _ (replicate n PAD)) with (@nil Z).
      - rewrite app_nil_r. induction Hl as [|b l Hb Hl IH]; [done|]. rewrite filter_cons_True by (by apply digit_plain in Hb as (_&?&_)). by rewrite IH.
      - induction n; [done|]. cbn [replicate]. by rewrite filter_cons_False by (intros Hn; by apply Hn). }
    by rewrite <- (Hf digits' p' Hd'), <- E', Hf. }
  destruct (base64_decode text) as [data|[]|]; try done.
  - destruct Hs as (digits'&Hw'&_&_&->). by rewrite (Huniq _ Hw').
  - destruct Hs as (before&after&->&_&Hws&Hp&Ha). exfalso. destruct (Hin byte) as [[v Hv]|Hv]; [|congruence..].
    apply list_elem_of_filter. split; [done|]. apply elem_of_app. right. apply list_elem_of_here.
  - destruct Hs as (digits'&Hw'&->&[?|E1]); [done|]. by rewrite (Huniq _ Hw') in E1.
  - exfalso. destruct Hs as (before&byte&after&->&_&Hws&Hp&Hin'). destruct Hw as [Hd [p E]]. unfold significant in E.
    rewrite filter_app, filter_cons_True in E by done.
    apply app_eq_inv in E as [(k&E1&E2)|(k&E1&E2)].
    + apply Hp. apply elem_of_replicate_inv with p. rewrite E2. apply elem_of_app. right. apply list_elem_of_here.
    + assert (digit PAD) as (?&?&_)%digit_plain; [|done].
      rewrite Forall_forall in Hd. apply Hd. rewrite E1. apply elem_of_app. left. by apply list_elem_of_filter.
Qed.

(** ** The encoder *)

Lemma symbol {E} v : 0 <= v < 64 -> exists c, index (E := E) ALPHABET v = Ok c /\ alphabet_value c = Some v.
Proof.
  intros Hv. assert (forallb (fun i => match zget ALPHABET i with Some c => bool_decide (alphabet_value c = Some i) | None => false end)
    (map Z.of_nat (seq 0 64)) = true) as Hall by (by vm_compute).
  rewrite forallb_forall in Hall. specialize (Hall v). destruct (zget ALPHABET v) as [c|] eqn:Ec.
  - exists c. unfold index. rewrite Ec. split; [done|]. apply (bool_decide_eq_true_1 _), Hall.
    apply in_map_iff. exists (Z.to_nat v). split; [lia|]. apply in_seq. lia.
  - discriminate Hall. apply in_map_iff. exists (Z.to_nat v). split; [lia|]. apply in_seq. lia.
Qed.

Lemma index_symbol {E A} v (k : Z -> res E A) (Q : res E A -> Prop) :
  (forall c, alphabet_value c = Some (Z.land v 0x3f) -> Q (k c)) -> Q (res_bind (index ALPHABET (Z.land v 0x3f)) k).
Proof.
  intros Hk. destruct (@symbol E (Z.land v 0x3f)) as (c&->&Hc).
  - change 0x3f with (2 ^ 6 - 1). rewrite land_low by lia. apply Z.mod_pos_bound. lia.
  - by apply Hk.
Qed.

Lemma val64_cons c v l : alphabet_value c = Some v -> val64 (c :: l) = v * 64 ^ zlen l + val64 l.
Proof. intros E. change (c :: l) with ([c] ++ l). rewrite val64_app. f_equal. unfold val64. cbn [foldl]. by rewrite E. Qed.

(** The number of a group's digits. *)
Ltac group_digits :=
  repeat (erewrite val64_cons by eassumption); rewrite ?be_val_cons; change 0x3f with (2 ^ 6 - 1);
  rewrite ?land_low, ?Z.shiftr_div_pow2 by lia;
  unfold zlen, in_range in *; cbn -[Z.mul Z.add Z.div Z.modulo Z.pow] in *; change (be_val []) with 0; change (val64 []) with 0;
  Z.div_mod_to_equations; lia.

Lemma word_value x y z : u8 x -> u8 y -> u8 z ->
  Z.lor (Z.lor (Z.shiftl x 16) (Z.shiftl y 8)) z = x * 65536 + y * 256 + z.
Proof.
  unfold in_range. change (2 ^ 8) with 256. intros Hx Hy Hz. change 16 with (8 + 8). rewrite <- Z.shiftl_shiftl, <- Z.shiftl_lor by lia.
  rewrite !lor_shiftl by (change (2 ^ 8) with 256; lia). change (2 ^ 8) with 256. lia.
Qed.

(** Digits whose number is that of [g], shifted. *)
Lemma base64_value_of g digits m :
  is_bytes g -> 6 * zlen digits = 8 * zlen g + m -> 0 <= m < 8 -> val64 digits = be_val g * 2 ^ m -> base64_value digits = g.
Proof.
  intros Hg Hl Hm Hv. unfold base64_value. rewrite Hl, Hv.
  replace ((8 * zlen g + m) mod 8) with m by (apply Z.mod_unique with (zlen g); lia).
  replace ((8 * zlen g + m) / 8) with (zlen g) by (apply Z.div_unique with m; lia).
  rewrite Z.div_mul by (apply Z.pow_nonzero; lia). apply be_bytes_be_val; [done|]. unfold zlen. lia.
Qed.

Lemma encode_group_spec {E} g : is_bytes g -> 1 <= zlen g <= 3 -> exists digits,
  encode_group (E := E) g = Ok (digits ++ replicate (3 - length g) PAD) /\ Forall digit digits /\
  zlen digits = zlen g + 1 /\ base64_value digits = g.
Proof.
  intros Hg Hl. destruct g as [|a [|b [|c [|]]]]; try (exfalso; revert Hl; unfold zlen; cbn [length]; lia); clear Hl;
    repeat match goal with F : Forall _ (_ :: _) |- _ => inversion_clear F end; unfold encode_group.
  - change (index [a] 0) with (Ok (E := E) a). change (zget [a] 1) with (@None Z). change (zget [a] 2) with (@None Z).
    cbn [res_bind default]. rewrite word_value by (by_compute || done).
    apply index_symbol; intros c0 E0. apply index_symbol; intros c1 E1.
    exists [c0; c1]. split; [done|]. split; [repeat constructor; eexists; eassumption|]. split; [done|].
    apply base64_value_of with 4; [auto|done|lia|]. group_digits.
  - change (index [a; b] 0) with (Ok (E := E) a). change (zget [a; b] 1) with (Some b). change (zget [a; b] 2) with (@None Z).
    change (1 <? zlen [a; b]) with true. change (2 <? zlen [a; b]) with false.
    cbn [res_bind default]. rewrite word_value by (by_compute || done).
    apply index_symbol; intros c0 E0. apply index_symbol; intros c1 E1. apply index_symbol; intros c2 E2.
    exists [c0; c1; c2]. split; [done|]. split; [repeat constructor; eexists; eassumption|]. split; [done|].
    apply base64_value_of with 2; [auto|done|lia|]. group_digits.
  - change (index [a; b; c] 0) with (Ok (E := E) a). change (zget [a; b; c] 1) with (Some b). change (zget [a; b; c] 2) with (Some c).
    change (1 <? zlen [a; b; c]) with true. change (2 <? zlen [a; b; c]) with true.
    cbn [res_bind default]. rewrite word_value by done.
    apply index_symbol; intros c0 E0. apply index_symbol; intros c1 E1. apply index_symbol; intros c2 E2. apply index_symbol; intros c3 E3.
    exists [c0; c1; c2; c3]. split; [done|]. split; [repeat constructor; eexists; eassumption|]. split; [done|].
    apply base64_value_of with 0; [auto|done|lia|]. group_digits.
Qed.

Lemma base64_value_cons group rest :
  zlen group = 4 -> base64_value (group ++ rest) = base64_value group ++ base64_value rest.
Proof.
  intros Hg. pose proof (zlen_nonneg rest).
  rewrite (base64_value_app group rest (Z.to_nat (6 * zlen rest / 8))) by (rewrite ?Hg; done || Z.div_mod_to_equations; lia).
  unfold base64_value at 1. rewrite Hg. f_equal. f_equal. by rewrite Z.div_1_r.
Qed.

Lemma base64_encode_spec {E} data : is_bytes data -> exists digits pads,
  base64_encode (E := E) data = Ok (digits ++ replicate pads PAD) /\ Forall digit digits /\
  (zlen digits + Z.of_nat pads) mod 4 = 0 /\ zlen digits mod 4 <> 1 /\ base64_value digits = data.
Proof.
  unfold base64_encode. induction data as [|data Hd IH] using (slice_chunks_ind 3 ltac:(lia)); intros Hb.
  { exists [], 0%nat. by repeat split. }
  rewrite slice_chunks_step by (done || lia). cbn [encode_groups].
  destruct (@encode_group_spec E (ztake 3 data)) as (ds&->&Hds&Hl&Hv).
  { by apply is_bytes_ztake. }
  { rewrite zlen_ztake. destruct data; [done|]. rewrite zlen_cons. pose proof (zlen_nonneg data). lia. }
  cbn [res_bind]. destruct (decide (zlen data <= 3)) as [Hle|Hgt].
  - rewrite (zdrop_all 3 data) by done. rewrite ztake_all in * by done. cbn [slice_chunks chunks_from length encode_groups res_bind].
    exists ds, (3 - length data)%nat. rewrite app_nil_r, Hl. split; [done|].
    assert (0 < zlen data) by (destruct data; [done|rewrite zlen_cons; pose proof (zlen_nonneg data); lia]).
    split; [done|]. unfold zlen in *. assert (length data = 1 \/ length data = 2 \/ length data = 3)%nat as [-> |[->| ->]] by lia; done.
  - destruct IH as (ds'&pads&->&Hds'&Hm&Hm1&Hv'); [by apply is_bytes_zdrop|]. cbn [res_bind].
    assert (zlen (ztake 3 data) = 3) as H3 by (rewrite zlen_ztake; lia).
    exists (ds ++ ds'), pads. assert (length (ztake 3 data) = 3%nat) as -> by (unfold zlen in H3; lia). cbn [replicate app Nat.sub].
    rewrite app_nil_r, <- app_assoc. split; [done|]. split; [by apply Forall_app|]. rewrite zlen_app, Hl, H3.
    split_and!; [Z.div_mod_to_equations; lia..|]. rewrite base64_value_cons by lia. rewrite Hv, Hv'. apply ztake_zdrop.
Qed.

(** ** PEM *)

Lemma significant_lines n body : 1 <= n -> significant (concat (map (fun line => line ++ [10]) (slice_chunks n body))) = significant body.
Proof.
  intros Hn. destruct (slice_chunks_spec n body Hn) as [Ec _]. rewrite <- Ec at 2. generalize (slice_chunks n body) as ls.
  unfold significant. induction ls as [|l ls IH]; [done|]. cbn [map concat]. rewrite !filter_app, IH.
  change (filter _ [10]) with (@nil Z). by rewrite app_nil_r.
Qed.

Lemma significant_digits digits pads : Forall digit digits -> significant (digits ++ replicate pads PAD) = digits ++ replicate pads PAD.
Proof.
  intros Hd. unfold significant. rewrite filter_app. f_equal.
  - induction Hd as [|b l Hb Hl IH]; [done|]. rewrite filter_cons_True by (apply digit_plain in Hb; tauto). by rewrite IH.
  - induction pads; [done|]. cbn [replicate]. rewrite filter_cons_True by done. by f_equal.
Qed.

Lemma find_at needle pre post b0 rest :
  needle = b0 :: rest -> b0 ∉ pre -> find (pre ++ needle ++ post) needle = Some (zlen pre).
Proof.
  intros -> Hb. unfold find. pose proof (zlen_nonneg pre). pose proof (zlen_nonneg post). pose proof (zlen_nonneg rest).
  rewrite (proj2 (Z.eqb_neq _ _)) by (zl). rewrite (proj2 (Z.ltb_ge _ _)) by (zl). cbn [orb]. by eapply window_skip.
Qed.

(** Whatever the label, the body that [encode] writes under it is what [decode]
    finds there, and [looks_like_pem] knows the text. *)
Theorem pem_roundtrip (label der : bytes) :
  is_bytes der -> exists text, encode (E := PemError) label der = Ok text /\ decode text label = Ok der /\ looks_like_pem text = true.
Proof.
  intros Hb. destruct (@base64_encode_spec PemError der Hb) as (digits&pads&Ee&Hd&H4&H1&Hv).
  unfold encode. rewrite Ee. cbn [res_bind]. eexists. split; [done|].
  set (body := digits ++ replicate pads PAD) in *. set (lines := concat _). 
  set (begin := bytes_of "-----BEGIN " ++ label ++ bytes_of "-----"). set (fin := bytes_of "-----END " ++ label ++ bytes_of "-----").
  set (text := _ ++ label ++ _). 
  assert (text = begin ++ ([10] ++ lines) ++ fin ++ [10]) as Et.
  { unfold text, begin, fin. by rewrite <- !app_assoc. }
  assert (45 ∉ [10] ++ lines) as Hno.
  { rewrite elem_of_app. intros [Hin|Hin]; [by apply list_elem_of_singleton in Hin|].
    assert (45 ∈ significant body) as Hs.
    { unfold body. rewrite <- (significant_lines PEM_LINE_WIDTH) by done. by apply list_elem_of_filter. }
    unfold body in Hs. rewrite significant_digits in Hs by done. apply elem_of_app in Hs as [Hs|Hs%elem_of_replicate_inv]; [|done].
    rewrite Forall_forall in Hd. apply Hd, digit_plain in Hs. naive_solver. }
  split.
  - unfold decode. fold begin fin.
    assert (find text begin = Some 0) as ->.
    { rewrite Et. by apply (find_at begin [] _ 45 (tail begin)); [|apply not_elem_of_nil]. }
    cbn [ok_or res_bind]. rewrite Z.add_0_l.
    assert (slice text (zlen begin) (zlen text) = Ok (([10] ++ lines) ++ fin ++ [10])) as ->.
    { rewrite Et. rewrite <- (app_nil_r (([10] ++ _) ++ _)) at 1. apply slice_mid; zl. }
    cbn [res_bind]. rewrite (find_at fin _ _ 45 (tail fin)) by done. cbn [ok_or res_bind].
    assert (slice text (zlen begin) (zlen begin + zlen ([10] ++ lines)) = Ok ([10] ++ lines)) as ->.
    { rewrite Et. apply slice_mid; zl. }
    cbn [res_bind]. assert (significant ([10] ++ lines) = body) as Es.
    { unfold significant. rewrite filter_app. fold (significant lines). unfold lines. rewrite significant_lines by done.
      by apply significant_digits. }
    rewrite (base64_decode_writes _ digits); [by rewrite Hv| | |done].
    + split; [done|]. by exists pads.
    + rewrite Es. unfold body. rewrite zlen_app. unfold zlen at 2. by rewrite length_replicate.
  - unfold looks_like_pem. apply bool_decide_eq_true_2. 
    unfold text. exists 0. by apply (find_at _ [] _ 45 (bytes_of "----BEGIN ")); [|apply not_elem_of_nil].
Qed.

(** The decoder is exact: the text it accepts is digits and then padding,
    whitespace anywhere between, a whole number of groups of four characters and
    no lone digit at the end; the result is the bytes of the digits; every
    refusal names what is wrong and where. *)
Theorem base64_decode_exact (text : bytes) : decoder_says text (base64_decode text).
Proof. apply base64_decode_spec. Qed.

(** Padding may run over more groups than the last: six padding characters after
    two digits are accepted. *)
Example padding_fills_groups : base64_decode (bytes_of "QQ======") = Ok [65].
Proof. by vm_compute. Qed.

Lemma pem_roundtrip_witness : exists text,
  encode (E := PemError) LABEL_CERTIFICATE [48; 130; 1; 0; 255] = Ok text /\ decode text LABEL_CERTIFICATE = Ok [48; 130; 1; 0; 255].
Proof.
  destruct (pem_roundtrip LABEL_CERTIFICATE [48; 130; 1; 0; 255]) as (text&E&D&_); [concrete_bytes|].
  exists text. by split.
Defined.
