(* ===== verification/RamrodCodec.v ===== *)
(** * Restore messages (ramrod/codec.rs)

    A message is a property list behind a four-byte length.  Reading retries
    interrupted reads, so a theorem that it returns needs a bound on them
    ([PatientChannel]). *)

From S2P Require Import Prelude Windows Channel Plist.
From stdpp Require Import base tactics numbers list strings option.
From Stdlib Require Import ZArith Lia.

Open Scope Z_scope.

Definition LENGTH_PREFIX_LEN : Z := 4.
Definition MAX_MESSAGE_LEN : Z := 64 * 1024 * 1024.

Inductive PlistFormat := Binary | Xml.

Inductive Filled := Complete | Empty | Partial (read : Z).

Section Codec.
Context `{Plist}.

Inductive CodecError :=
| CodecIo (e : ErrorKind)
| CodecPlist (e : PlistError)
| MessageTooLarge (announced : Z)
| EmptyMessage
| Truncated (expected received : Z) (part : string).

Definition encode_body (value : Value) (format : PlistFormat) : PlistError + bytes :=
  match format with Binary => to_writer_binary value | Xml => to_writer_xml value end.

Definition encode_message (value : Value) (format : PlistFormat) : res CodecError bytes :=
  let? body := map_err CodecPlist (of_result (encode_body value format)) in
  if MAX_MESSAGE_LEN <? zlen body then Err (MessageTooLarge (zlen body)) else
  Ok (be_bytes 4 (wrap 32 (zlen body)) ++ body).

Section Connection.
Context {T : Type} `{Channel T}.

(** The text added to a write error is not modelled; its kind is kept. *)
Definition write_message (value : Value) (format : PlistFormat) : prog T CodecError Z :=
  let* framed := done_with (encode_message value format) in
  let* _ := perr CodecIo (write_all framed) in
  let* _ := perr CodecIo flush in
  done_with (Ok (zlen framed)).

(** [buf] is the part of the buffer that is filled, [want] its length. *)
Fixpoint read_fully (fuel : nat) (want : Z) (buf : bytes) : prog T CodecError (Filled * bytes) :=
  match fuel with
  | O => out_of_turns
  | S fuel =>
      if zlen buf <? want then fun t =>
        match chan_read t (want - zlen buf) with
        | (t, Ok []) => Some (t, Ok (if zlen buf =? 0 then Empty else Partial (zlen buf), buf))
        | (t, Ok count) => read_fully fuel want (buf ++ count) t
        | (t, Err Interrupted) => read_fully fuel want buf t
        | (t, Err error) => Some (t, Err (CodecIo error))
        | (t, Panic) => Some (t, Panic)
        end
      else done_with (Ok (Complete, buf))
  end.

Definition read_message (fuel : nat) : prog T CodecError (option Value) :=
  let* (filled, prefix) := read_fully fuel LENGTH_PREFIX_LEN [] in
  match filled with
  | Empty => done_with (Ok None)
  | Partial read => done_with (Err (Truncated LENGTH_PREFIX_LEN read "length prefix"))
  | Complete =>
      let announced := be_val prefix in
      if announced =? 0 then done_with (Err EmptyMessage) else
      if MAX_MESSAGE_LEN <? announced then done_with (Err (MessageTooLarge announced)) else
      let* (filled, body) := read_fully fuel announced [] in
      match filled with
      | Complete =>
          let* value := done_with (map_err CodecPlist (of_result (from_reader body))) in
          done_with (Ok (Some value))
      | Empty => done_with (Err (Truncated announced 0 "body"))
      | Partial read => done_with (Err (Truncated announced read "body"))
      end
  end.
End Connection.
End Codec.

(** ** Reading *)

(** Reads are interrupted finitely often: [patience] bounds how many times more. *)
Class PatientChannel (T : Type) `{Channel T} := {
  patience : T -> nat;
  patience_law t n : (patience (chan_read t n).1 <= patience t)%nat /\
    ((chan_read t n).2 = Err Interrupted -> (patience (chan_read t n).1 < patience t)%nat);
}.

Section Read.
Context `{Plist} {T : Type} `{LawfulChannel T, !PatientChannel T}.
Implicit Types (t : T).

(** What filling a buffer of length [want] does, [buf] of it being filled. *)
Definition fully_read (want : Z) (buf : bytes) t t' (a : res CodecError (Filled * bytes)) : Prop :=
  outgoing t' = outgoing t /\ (patience t' <= patience t)%nat /\
  match a with
  | Ok (Complete, b) => zlen b = want /\ buf ++ incoming t = b ++ incoming t'
  | Ok (Empty, b) => b = [] /\ buf = [] /\ incoming t = [] /\ incoming t' = []
  | Ok (Partial n, b) => b = buf ++ incoming t /\ n = zlen b /\ 0 < n < want /\ incoming t' = []
  | Err (CodecIo e) => e <> Interrupted /\ exists lost, incoming t = lost ++ incoming t'
  | _ => False
  end.

Lemma read_fully_spec fuel : forall want buf t,
  zlen buf <= want -> (length (incoming t) + patience t < fuel)%nat ->
  runs (read_fully fuel want buf) t (fully_read want buf t).
Proof.
  induction fuel as [|fuel IH]; intros want buf t Hw Hf; [lia|]. cbn [read_fully]. pose proof (zlen_nonneg buf).
  destruct (Z.ltb_spec (zlen buf) want) as [Hlt|Hge].
  2:{ apply runs_done. unfold fully_read. split_and!; [done..|lia|done]. }
  pose proof (read_law t (want - zlen buf) ltac:(lia)) as L. pose proof (patience_law t (want - zlen buf)) as [P1 P2].
  unfold runs. destruct (chan_read t (want - zlen buf)) as [t' [b|e|]]; cbn [fst snd] in *; [| |done].
  - destruct L as (Ein&Hb&Hnil&Ho). destruct b as [|x b].
    + specialize (Hnil eq_refl). eexists _, _. split; [done|]. rewrite Hnil in Ein. cbn in Ein. unfold fully_read. split_and!; [done..|].
      destruct (Z.eqb_spec (zlen buf) 0) as [E0|].
      * apply zlen_zero in E0. by split_and!.
      * rewrite Hnil, app_nil_r. split_and!; [done|done|lia|lia|done].
    + destruct (IH want (buf ++ x :: b) t') as (t''&a&E&Ho'&Hp&Ha).
      { rewrite zlen_app. lia. }
      { rewrite Ein, length_app in Hf. cbn [length] in Hf. lia. }
      exists t'', a. split; [exact E|]. split; [congruence|]. split; [lia|]. rewrite Ein.
      destruct a as [[[] d]|[]|]; try done.
      * by rewrite app_assoc.
      * destruct Ha as (_&Hnl&_). by destruct buf.
      * by rewrite app_assoc.
      * destruct Ha as (Hne&lost&El). split; [done|]. exists ((x :: b) ++ lost). by rewrite <- app_assoc, El.
  - destruct L as [Ein Ho]. destruct e; try (eexists _, _; (split; [done|]); unfold fully_read; split_and!; [done..|exists []; by rewrite Ein]).
    specialize (P2 eq_refl). destruct (IH want buf t') as (t''&a&E&Ho'&Hp&Ha); [lia|rewrite Ein; lia|].
    exists t'', a. split; [exact E|]. split; [congruence|]. split; [lia|]. rewrite Ein in Ha. by destruct a as [[[] d]|[]|].
Qed.

(** What reading a message does with the peer's stream. *)
Definition message_read t t' (a : res CodecError (option Value)) : Prop :=
  outgoing t' = outgoing t /\ (patience t' <= patience t)%nat /\
  match a with
  | Ok None => incoming t = []
  | Ok (Some v) => exists prefix body, incoming t = prefix ++ body ++ incoming t' /\ zlen prefix = LENGTH_PREFIX_LEN /\
      zlen body = be_val prefix /\ 0 < zlen body <= MAX_MESSAGE_LEN /\ from_reader body = inr v
  | Err (CodecPlist e) => exists prefix body, incoming t = prefix ++ body ++ incoming t' /\ zlen prefix = LENGTH_PREFIX_LEN /\
      zlen body = be_val prefix /\ 0 < zlen body <= MAX_MESSAGE_LEN /\ from_reader body = inl e
  | Err EmptyMessage => exists prefix, incoming t = prefix ++ incoming t' /\ zlen prefix = LENGTH_PREFIX_LEN /\ be_val prefix = 0
  | Err (MessageTooLarge n) => exists prefix, incoming t = prefix ++ incoming t' /\ zlen prefix = LENGTH_PREFIX_LEN /\
      be_val prefix = n /\ MAX_MESSAGE_LEN < n
  | Err (Truncated expected n part) => incoming t' = [] /\
      (part = "length prefix"%string /\ expected = LENGTH_PREFIX_LEN /\ n = zlen (incoming t) /\ 0 < n < expected \/
       part = "body"%string /\ exists prefix body, incoming t = prefix ++ body /\ zlen prefix = LENGTH_PREFIX_LEN /\
         expected = be_val prefix /\ n = zlen body /\ n < expected <= MAX_MESSAGE_LEN)
  | Err (CodecIo e) => e <> Interrupted /\ exists lost, incoming t = lost ++ incoming t'
  | Panic => False
  end.

Lemma read_message_spec fuel t :
  is_bytes (incoming t) -> (length (incoming t) + patience t < fuel)%nat ->
  runs (read_message fuel) t (message_read t).
Proof.
  intros Hby Hf. assert (MAX_MESSAGE_LEN = 67108864) as EM by done. unfold read_message.
  apply runs_bind. eapply runs_weaken; [by apply read_fully_spec|].
  intros t1 a (Ho1&Hp1&Ha). destruct a as [[[] prefix]|[]|]; cbn [then_]; try done.
  2:{ apply runs_done. destruct Ha as (_&_&?&?). by split_and!. }
  2:{ apply runs_done. destruct Ha as (->&->&?&?). split_and!; [done..|]. left. split_and!; (done || lia). }
  destruct Ha as [Hl Ein]. cbn [app] in Ein. destruct (Z.eqb_spec (be_val prefix) 0) as [E0|N0].
  { apply runs_done. split_and!; [done..|]. by exists prefix. }
  destruct (Z.ltb_spec MAX_MESSAGE_LEN (be_val prefix)) as [Hbig|Hsmall].
  { apply runs_done. split_and!; [done..|]. by exists prefix. }
  assert (0 <= be_val prefix) as Hpos.
  { apply be_val_bound. rewrite Ein in Hby. by apply Forall_app in Hby as [? _]. }
  apply runs_bind. eapply runs_weaken; [apply read_fully_spec; [done|]|].
  { rewrite Ein, length_app in Hf. lia. }
  intros t2 a (Ho2&Hp2&Ha). rewrite Ho1 in Ho2. assert (patience t2 <= patience t)%nat as Hp by lia.
  destruct a as [[[] body]|[]|]; cbn [then_]; try done.
  - destruct Ha as [Hb Ein2]. cbn [app] in Ein2. rewrite Ein2 in Ein.
    apply runs_bind, runs_done. destruct (from_reader body) as [e|v] eqn:Er; cbn [of_result map_err then_].
    + split_and!; [done..|]. exists prefix, body. split_and!; [done..|lia|lia|done].
    + apply runs_done. split_and!; [done..|]. exists prefix, body. split_and!; [done..|lia|lia|done].
  - apply runs_done. destruct Ha as (_&_&E1&E2). split_and!; [done..|]. right. split; [done|]. exists prefix, [].
    rewrite app_nil_r. rewrite Ein, E1, app_nil_r. change (zlen []) with 0. split_and!; [done..|lia|lia].
  - apply runs_done. destruct Ha as (->&->&Hn&E2). split_and!; [done..|]. right. split; [done|]. exists prefix, (incoming t1).
    cbn [app] in *. split_and!; [done..|lia|lia].
  - destruct Ha as (Hne&lost&El). split_and!; [done..|]. exists (prefix ++ lost). by rewrite <- app_assoc, <- El.
Qed.

(** ** Conversations *)

Fixpoint read_messages (fuel : nat) (n : nat) : prog T CodecError (list (option Value)) :=
  match n with
  | O => done_with (Ok [])
  | S n =>
      let* v := read_message fuel in
      let* vs := read_messages fuel n in
      done_with (Ok (v :: vs))
  end.

Lemma read_framed `{!LawfulPlist} fuel t v format frame rest :
  encode_message v format = Ok frame -> incoming t = frame ++ rest -> is_bytes (incoming t) ->
  (length (incoming t) + patience t < fuel)%nat ->
  runs (read_message fuel) t (fun t' a => (patience t' <= patience t)%nat /\
    (a = Ok (Some v) /\ incoming t' = rest \/ exists e, a = Err (CodecIo e) /\ e <> Interrupted)).
Proof.
  intros He Hin Hby Hf. eapply runs_weaken; [by apply read_message_spec|]. intros t' a (_&Hp&Ha). split; [done|].
  revert He. unfold encode_message. destruct (encode_body v format) as [e|body] eqn:Eb; cbn [of_result map_err res_bind]; [done|].
  destruct (Z.ltb_spec MAX_MESSAGE_LEN (zlen body)) as [|Hmax]; [done|]. intros [= <-]. rewrite <- app_assoc in Hin.
  assert (from_reader body = inr v /\ 0 < zlen body) as [Hr Hpos].
  { destruct format; cbn in Eb.
    - split; [by apply reader_binary_law|]. apply binary_bytes in Eb as [_ Hn]. destruct body; [done|]. rewrite zlen_cons. pose proof (zlen_nonneg body). lia.
    - split; [by apply reader_xml_law|]. apply xml_bytes in Eb as [_ Hn]. apply zget_some in Hn. lia. }
  assert (MAX_MESSAGE_LEN = 67108864) as EM by done.
  assert (be_val (be_bytes 4 (wrap 32 (zlen body))) = zlen body) as Hval.
  { rewrite wrap_small by (unfold in_range; lia). rewrite be_val_be_bytes. apply Z.mod_small. lia. }
  assert (forall prefix tail, incoming t = prefix ++ tail -> zlen prefix = LENGTH_PREFIX_LEN ->
    prefix = be_bytes 4 (wrap 32 (zlen body)) /\ tail = body ++ rest) as Hpre.
  { intros prefix tail E Hl. rewrite Hin in E. symmetry in E. apply app_inj_1 in E as [? ?]; [done|].
    rewrite length_be_bytes. unfold zlen, LENGTH_PREFIX_LEN in Hl. lia. }
  destruct a as [[w|]|[]|]; try done.
  - destruct Ha as (prefix&b&E&Hl&Hb&_&Hw). destruct (Hpre _ _ E Hl) as [-> E2]. rewrite Hval in Hb.
    apply app_inj_1 in E2 as [-> E3]; [|unfold zlen in Hb; lia]. left. split; [congruence|done].
  - rewrite Ha in Hin. symmetry in Hin. apply app_eq_nil in Hin as [Hin _]. apply (f_equal length) in Hin. by rewrite length_be_bytes in Hin.
  - right. destruct Ha as [Hne _]. eauto.
  - destruct Ha as (prefix&b&E&Hl&Hb&_&Hw). destruct (Hpre _ _ E Hl) as [-> E2]. rewrite Hval in Hb.
    apply app_inj_1 in E2 as [-> E3]; [|unfold zlen in Hb; lia]. congruence.
  - destruct Ha as (prefix&E&Hl&Hb&Hbig). destruct (Hpre _ _ E Hl) as [-> E2]. lia.
  - destruct Ha as (prefix&E&Hl&Hb). destruct (Hpre _ _ E Hl) as [-> E2]. lia.
  - destruct Ha as [_ [(_&->&->&Hn)|(_&prefix&b&E&Hl&->&->&Hn)]].
    + rewrite Hin, zlen_app, zlen_be_bytes in Hn. unfold LENGTH_PREFIX_LEN in Hn. pose proof (zlen_nonneg (body ++ rest)). lia.
    + destruct (Hpre _ _ E Hl) as [-> ->]. rewrite Hval, zlen_app in Hn. pose proof (zlen_nonneg rest). lia.
Qed.

(** ** Writing *)

(** What [write_message] sends: the whole frame, or a part of it when a write
    fails; a value that does not fit is refused before anything is sent. *)
Lemma write_message_spec v format t :
  runs (write_message v format) t (fun t' a => incoming t' = incoming t /\
    match a with
    | Ok n => exists frame, encode_message v format = Ok frame /\ n = zlen frame /\ outgoing t' = outgoing t ++ frame
    | Err e => encode_message v format = Err e /\ outgoing t' = outgoing t \/
        exists frame k sent, encode_message v format = Ok frame /\ e = CodecIo k /\ sent `prefix_of` frame /\ outgoing t' = outgoing t ++ sent
    | Panic => False
    end).
Proof.
  unfold write_message. destruct (encode_message v format) as [frame|e|] eqn:He.
  - eapply runs_pure; [done|]. apply runs_bind, runs_perr, runs_write_all; cbn [map_err then_].
    + intros t1 Hin Hout. apply runs_bind, runs_perr, runs_flush. intros t2 a Ha Hin2 Hout2. rewrite Hin in Hin2. rewrite Hout in Hout2.
      destruct a as [[]|e|]; cbn [map_err then_]; [|by split; [|right; exists frame, e, frame]|done]. apply runs_done. eauto.
    + intros t1 e sent Hin Hpre Hout. split; [done|]. right. by exists frame, e, sent.
  - apply runs_bind, runs_done. cbn. auto.
  - revert He. unfold encode_message. destruct (encode_body v format); cbn; [done|]. by case_match.
Qed.

Fixpoint write_messages (messages : list (Value * PlistFormat)) : prog T CodecError (list Z) :=
  match messages with
  | [] => done_with (Ok [])
  | (v, format) :: messages =>
      let* n := write_message v format in
      let* ns := write_messages messages in
      done_with (Ok (n :: ns))
  end.

Definition frames_of (messages : list (Value * PlistFormat)) (framed : list bytes) : Prop :=
  Forall2 (fun m frame => encode_message m.1 m.2 = Ok frame) messages framed.

Lemma write_messages_spec messages : forall t,
  runs (write_messages messages) t (fun t' a => incoming t' = incoming t /\
    match a with
    | Ok ns => exists framed, frames_of messages framed /\ ns = map zlen framed /\ outgoing t' = outgoing t ++ concat framed
    | Err _ => exists sent, outgoing t' = outgoing t ++ sent
    | Panic => False
    end).
Proof.
  induction messages as [|[v format] messages IH]; intros t; cbn [write_messages].
  { apply runs_done. split; [done|]. exists []. cbn. rewrite app_nil_r. split; [constructor|done]. }
  apply runs_bind. eapply runs_weaken; [apply write_message_spec|]. intros t1 [n|e|] [Hin Ha]; cbn [then_]; [| |done].
  2:{ split; [done|]. destruct Ha as [[_ Ho]|(frame&k&sent&_&_&_&Ho)]; [exists []; by rewrite app_nil_r|by exists sent]. }
  destruct Ha as (frame&He&->&Ho). apply runs_bind. eapply runs_weaken; [apply IH|]. rewrite Hin, Ho.
  intros t2 [ns|e|] [Hin2 Ha]; cbn [then_]; [| |done].
  - destruct Ha as (framed&Hf&->&Ho2). apply runs_done. split; [done|]. exists (frame :: framed).
    split; [by constructor|]. split; [done|]. cbn [concat]. by rewrite Ho2, app_assoc.
  - split; [done|]. destruct Ha as (sent&Ho2). exists (frame ++ sent). by rewrite Ho2, app_assoc.
Qed.

Lemma read_messages_spec `{!LawfulPlist} messages framed rest fuel : forall t,
  frames_of messages framed -> incoming t = concat framed ++ rest -> is_bytes (incoming t) ->
  (length (incoming t) + patience t < fuel)%nat ->
  runs (read_messages fuel (length messages)) t (fun t' a =>
    a = Ok (map (fun m => Some m.1) messages) /\ incoming t' = rest \/ exists e, a = Err (CodecIo e) /\ e <> Interrupted).
Proof.
  intros t Hm. revert t. induction Hm as [|[v format] frame messages framed He Hm IH]; intros t Hin Hby Hf; cbn [length read_messages map].
  { apply runs_done. by left. }
  cbn [concat] in Hin. rewrite <- app_assoc in Hin. apply runs_bind.
  eapply runs_weaken; [by eapply read_framed|]. intros t1 a (Hp&[[-> E1]|(e&->&Hne)]); cbn [then_]; [|by right; exists e].
  apply runs_bind. eapply runs_weaken; [apply (IH t1)|].
  - done.
  - rewrite E1. rewrite Hin in Hby. by apply Forall_app in Hby as [_ ?].
  - rewrite E1. rewrite Hin, length_app in Hf. lia.
  - intros t2 a [[-> E2]|(e&->&Hne)]; cbn [then_]; [|by right; exists e]. apply runs_done. by left.
Qed.
End Read.

(** Reading a message returns, however the connection cuts the stream and
    interrupts the reads, and is exact: a value is the property list of the body
    that the length prefix delimits, and exactly prefix and body leave the
    stream; each error means what it says, and only a failed read loses bytes. *)
Theorem read_message_exact `{Plist} {T : Type} `{LawfulChannel T, !PatientChannel T} (t : T) (fuel : nat) :
  is_bytes (incoming t) -> (length (incoming t) + patience t < fuel)%nat ->
  exists t' a, read_message fuel t = Some (t', a) /\ message_read t t' a.
Proof. apply read_message_spec. Qed.

(** C38. What one side writes the other reads.  Writing a list of values, in either
    format, returns; when it succeeds the counts returned are the lengths of the
    frames, and over any connection that carries what was sent, reading as many
    messages gives the values in order and stops where the last frame ends,
    unless a read fails. *)
Theorem messages_roundtrip `{LawfulPlist} {T R : Type} `{LawfulChannel T} `{LawfulChannel R, !PatientChannel R}
    (messages : list (Value * PlistFormat)) (w : T) :
  exists w' a, write_messages messages w = Some (w', a) /\ incoming w' = incoming w /\ a <> Panic /\
    forall ns, a = Ok ns -> exists sent, outgoing w' = outgoing w ++ sent /\ sum_list_with (fun n => Z.to_nat n) ns = length sent /\
      forall (t : R) (rest : bytes) (fuel : nat),
        incoming t = sent ++ rest -> is_bytes (incoming t) -> (length (incoming t) + patience t < fuel)%nat ->
        exists t' b, read_messages fuel (length messages) t = Some (t', b) /\
          (b = Ok (map (fun m => Some m.1) messages) /\ incoming t' = rest \/ exists e, b = Err (CodecIo e) /\ e <> Interrupted).
Proof.
  destruct (write_messages_spec messages w) as (w'&a&E&Hin&Ha). exists w', a. split; [done|]. split; [done|].
  split; [by destruct a|]. intros ns ->. destruct Ha as (framed&Hf&->&Ho). exists (concat framed). split; [done|]. split.
  - clear. induction framed as [|f l IH]; [done|]. cbn. rewrite length_app, IH. unfold zlen. lia.
  - intros t rest fuel. by apply read_messages_spec.
Qed.

(** ** Witnesses *)

#[local] Existing Instance Sample.sample_plist.
#[local] Existing Instance Sample.sample_lawful.

Lemma pipe_patience (t : Pipe) n : (0 <= 0)%nat /\ ((chan_read t n).2 = Err Interrupted -> (0 < 0)%nat).
Proof. split; [done|]. discriminate. Qed.

#[export] Instance patient_pipe : PatientChannel Pipe := {| patience _ := 0%nat; patience_law := pipe_patience |}.

Definition sample_messages : list (Value * PlistFormat) := [(v_boolean true, Binary); (v_string "ok", Xml)].
Definition sample_stream : bytes :=
  match write_messages sample_messages {| feed := []; grain := 1; drained := [] |} with Some (p, _) => drained p | None => [] end.

Definition sample_bytes_ok (b : bytes) (n : nat) : bool := forallb (fun x => (0 <=? x) && (x <? 256)) b && (length b <? n)%nat.

Lemma sample_stream_ok : sample_bytes_ok sample_stream 400 = true.
Proof. by vm_compute. Qed.

Lemma sample_written :
  match write_messages sample_messages {| feed := []; grain := 1; drained := [] |} with Some (_, Ok _) => true | _ => false end = true.
Proof. by vm_compute. Qed.

Lemma read_message_exact_witness : exists t' a,
  read_message 400 {| feed := sample_stream; grain := 3; drained := [] |} = Some (t', a) /\
  message_read {| feed := sample_stream; grain := 3; drained := [] |} t' a.
Proof.
  pose proof sample_stream_ok as Hs. apply andb_prop in Hs as [Hb Hl]. apply Nat.ltb_lt in Hl.
  apply (read_message_exact {| feed := sample_stream; grain := 3; drained := [] |} 400); [by apply is_bytes_forallb|].
  change (length sample_stream + 0 < 400)%nat. lia.
Defined.

Lemma messages_roundtrip_witness : exists t' b,
  read_messages 400 2 {| feed := sample_stream; grain := 3; drained := [] |} = Some (t', b) /\
  (b = Ok (map (fun m => Some m.1) sample_messages) /\ feed t' = [] \/ exists e, b = Err (CodecIo e) /\ e <> Interrupted).
Proof.
  destruct (messages_roundtrip (T := Pipe) (R := Pipe) sample_messages {| feed := []; grain := 1; drained := [] |}) as (w'&a&E&_&_&Hok).
  pose proof sample_stream_ok as Hs. apply andb_prop in Hs as [Hb Hl]. apply Nat.ltb_lt in Hl.
  pose proof sample_written as Hw. rewrite E in Hw. destruct a as [ns|e|]; [|discriminate Hw..].
  destruct (Hok ns eq_refl) as (sent&Ho&_&Hread). change (drained w' = sent) in Ho.
  assert (sent = sample_stream) as -> by (unfold sample_stream; by rewrite E).
  apply (Hread {| feed := sample_stream; grain := 3; drained := [] |} [] 400%nat).
  - by rewrite app_nil_r.
  - by apply is_bytes_forallb.
  - change (length sample_stream + 0 < 400)%nat. lia.
Defined.
