(* ===== verification/FatNames.v ===== *)
(** * FAT directories (fat32.rs): names and directory entries

    Rust strings are lists of Unicode scalar values; the parts of the standard
    library the code uses on them (UTF-16, UTF-8 validation, white space, ASCII
    case) are written out.  Directory entries are built and parsed as bytes. *)

From S2P Require Import Prelude Windows.
From stdpp Require Import base tactics numbers list option strings.
From Stdlib Require Import ZArith Lia.

Open Scope Z_scope.

Abbreviation text := (list Z).

Definition FAT_EPOCH_DATE : Z := 0x0021.
Definition LFN_CHARS_PER_ENTRY : Z := 13.
Definition DIR_ENTRY_SIZE : Z := 32.
Definition SHORT_NAME_CHARSET_EXTRA : text := bytes_of "!#$%&'()-@^_`{}~".

(** The refusals, without their text. *)
Inductive EfiError :=
| InvalidEfiPath | ParentNotDirectory | TargetNotFile
| BadGeometry | NoBootSector | InvalidFilePath | DuplicateFilePath
| PartitionTooSmall | FatSizeTooLarge | TooManyAliases | ComponentTooLong
| PartitionTooLarge | NoDataArea | OutOfSpaceForTree | OutOfSpaceForFiles
| FileTooManyClusters | DirectoryTooManyClusters | FileTooLarge | NoRootDirectory | RootTooSmall
| BpbTruncated | BadSectorsPerCluster | ZeroReserved | ZeroFats | ZeroTotalSectors | NoFatSize
| BadRootCluster | BadRootEntryCount | SizeOverflows | SizeMismatch
| ChainLoop | ChainOutOfRange | ChainOutsideImage | ChainEndless | RootOutsideImage
| NotFound | NotDirectory | IsDirectory | TooDeep | UnsafeName | BadDirectoryCluster | FileTruncated | AlreadyExists | LengthChanged.

(** ** [char] and [str] *)

(** [char::is_whitespace]: the White_Space property. *)
Definition is_whitespace (c : Z) : bool :=
  ((9 <=? c) && (c <=? 13)) || (c =? 0x20) || (c =? 0x85) || (c =? 0xa0) || (c =? 0x1680) ||
  ((0x2000 <=? c) && (c <=? 0x200a)) || (c =? 0x2028) || (c =? 0x2029) || (c =? 0x202f) || (c =? 0x205f) || (c =? 0x3000).
(** [char::is_control]: category Cc. *)
Definition is_control (c : Z) : bool := (c <? 0x20) || ((0x7f <=? c) && (c <? 0xa0)).
Definition is_ascii_uppercase (c : Z) : bool := (65 <=? c) && (c <=? 90).
Definition is_ascii_lowercase (c : Z) : bool := (97 <=? c) && (c <=? 122).
Definition is_ascii_digit (c : Z) : bool := (48 <=? c) && (c <=? 57).
Definition is_ascii_alphanumeric (c : Z) : bool := is_ascii_uppercase c || is_ascii_lowercase c || is_ascii_digit c.
Definition to_ascii_uppercase (c : Z) : Z := if is_ascii_lowercase c then c - 32 else c.
Definition to_ascii_lowercase (c : Z) : Z := if is_ascii_uppercase c then c + 32 else c.
Definition eq_ignore_ascii_case (a b : text) : bool := bool_decide (map to_ascii_lowercase a = map to_ascii_lowercase b).
Definition contains (l : text) (c : Z) : bool := existsb (Z.eqb c) l.

Fixpoint rfind (c : Z) (l : text) : option Z :=
  match l with
  | [] => None
  | x :: l => match rfind c l with
              | Some i => Some (i + 1)
              | None => if x =? c then Some 0 else None
              end
  end.

Fixpoint trim_start (l : text) : text :=
  match l with c :: l' => if is_whitespace c then trim_start l' else l | [] => [] end.
Definition trim_end (l : text) : text := rev (trim_start (rev l)).

Definition utf16_of (c : Z) : text :=
  if c <? 0x10000 then [c] else [0xd800 + Z.shiftr (c - 0x10000) 10; 0xdc00 + Z.land (c - 0x10000) 0x3ff].
Definition encode_utf16 (name : text) : text := flat_map utf16_of name.

Definition high_surrogate (u : Z) : bool := (0xd800 <=? u) && (u <? 0xdc00).
Definition low_surrogate (u : Z) : bool := (0xdc00 <=? u) && (u <? 0xe000).

Fixpoint from_utf16_lossy (units : text) : text :=
  match units with
  | [] => []
  | u :: rest =>
      if high_surrogate u then
        match rest with
        | v :: rest' =>
            if low_surrogate v then 0x10000 + Z.lor (Z.shiftl (u - 0xd800) 10) (v - 0xdc00) :: from_utf16_lossy rest'
            else 0xfffd :: from_utf16_lossy rest
        | [] => [0xfffd]
        end
      else if low_surrogate u then 0xfffd :: from_utf16_lossy rest
      else u :: from_utf16_lossy rest
  end.

Definition continuation (b : Z) : bool := (0x80 <=? b) && (b <? 0xc0).
Definition low6 (b : Z) : Z := b - 0x80.

(** [str::from_utf8]: [None] on bytes that are not UTF-8. *)
Fixpoint from_utf8 (b : bytes) : option text :=
  match b with
  | [] => Some []
  | b0 :: rest =>
      if b0 <? 0x80 then cons b0 <$> from_utf8 rest else
      match rest with
      | b1 :: rest1 =>
          if (0xc2 <=? b0) && (b0 <? 0xe0) && continuation b1 then cons ((b0 - 0xc0) * 64 + low6 b1) <$> from_utf8 rest1 else
          match rest1 with
          | b2 :: rest2 =>
              let c3 := ((b0 - 0xe0) * 64 + low6 b1) * 64 + low6 b2 in
              if (0xe0 <=? b0) && (b0 <? 0xf0) && continuation b1 && continuation b2 && (0x800 <=? c3)
                 && negb ((0xd800 <=? c3) && (c3 <? 0xe000)) then cons c3 <$> from_utf8 rest2 else
              match rest2 with
              | b3 :: rest3 =>
                  let c4 := (((b0 - 0xf0) * 64 + low6 b1) * 64 + low6 b2) * 64 + low6 b3 in
                  if (0xf0 <=? b0) && (b0 <? 0xf5) && continuation b1 && continuation b2 && continuation b3
                     && (0x10000 <=? c4) && (c4 <? 0x110000) then cons c4 <$> from_utf8 rest3 else None
              | [] => None
              end
          | [] => None
          end
      | [] => None
      end
  end.

(** ** Short names *)

Definition is_short_safe_char (c : Z) : bool := is_ascii_alphanumeric c || contains SHORT_NAME_CHARSET_EXTRA c.

Definition pad_spaces (n : nat) (l : bytes) : bytes := l ++ replicate (n - length l) 32.

(** An 8.3 name: [out[..base.len()]] and [out[8..8 + ext.len()]] over spaces. *)
Definition short_array (base ext : bytes) : bytes := pad_spaces 8 base ++ pad_spaces 3 ext.

Definition short_name_candidate (name : text) : option bytes :=
  if (zlen name =? 0) || negb (forallb (fun c => c <? 128) name) then None else
  if existsb (fun c => is_ascii_lowercase c || (c =? 32)) name then None else
  '(base, ext) ← match rfind 46 name with
                 | Some pos => if negb (pos =? 0) then Some (ztake pos name, zdrop (pos + 1) name) else None
                 | None => Some (name, [])
                 end;
  if (zlen base =? 0) || (8 <? zlen base) || (3 <? zlen ext) then None else
  if contains base 46 || contains ext 46 then None else
  if negb (forallb is_short_safe_char base) || negb (forallb is_short_safe_char ext) then None else
  Some (short_array base ext).

Definition clean_short_component (input : text) : text :=
  map (fun c => let u := to_ascii_uppercase c in if is_short_safe_char u then u else 95)
      (filter (fun c => is_whitespace c = false) input).

(** [HashSet::insert] succeeds on a new element. *)
Definition insert_new (x : bytes) (used : list bytes) : option (list bytes) :=
  if decide (x ∈ used) then None else Some (x :: used).

Fixpoint alias_from (fuel : nat) (n : Z) (base ext : text) (used : list bytes) : option (bytes * list bytes) :=
  match fuel with
  | O => None
  | S fuel =>
      let tail := 126 :: radix 10 7 n in
      let keep := saturating_sub 8 (zlen tail) in
      let out := short_array (ztake keep base ++ tail) ext in
      match insert_new out used with
      | Some used => Some (out, used)
      | None => alias_from fuel (n + 1) base ext used
      end
  end.

Definition MAX_ALIASES : Z := 999_999.

Definition make_unique_short_alias (name : text) (used : list bytes) : res EfiError (bytes * list bytes) :=
  let '(raw_base, raw_ext) := match rfind 46 name with
                              | Some pos => if negb (pos =? 0) then (ztake pos name, zdrop (pos + 1) name) else (name, [])
                              | None => (name, [])
                              end in
  let base_clean := clean_short_component (filter (fun c => c <> 46) raw_base) in
  let base_clean := if zlen base_clean =? 0 then bytes_of "FILE" else base_clean in
  let ext_clean := ztake 3 (clean_short_component raw_ext) in
  ok_or (alias_from (Z.to_nat MAX_ALIASES) 1 base_clean ext_clean used) TooManyAliases.

Definition build_short_and_lfn (name : text) (used : list bytes) : res EfiError (bytes * bool * list bytes) :=
  match (direct ← short_name_candidate name; used' ← insert_new direct used; Some (direct, used')) with
  | Some (direct, used) => Ok (direct, false, used)
  | None => let? (alias, used) := make_unique_short_alias name used in Ok (alias, true, used)
  end.

(** ** Directory entries *)

Definition rotate_right_1 (x : Z) : Z := Z.lor (Z.shiftr x 1) (wrap 8 (Z.shiftl x 7)).

Definition lfn_checksum (short : bytes) : Z := foldl (fun sum b => wrapping_add 8 (rotate_right_1 sum) b) 0 short.

Definition pad_units (chunk : text) : text :=
  if zlen chunk <? LFN_CHARS_PER_ENTRY
  then chunk ++ 0 :: replicate (12 - length chunk) 0xffff
  else chunk.

Definition lfn_entry (ord checksum : Z) (chunk : text) : bytes :=
  [ord] ++ flat_map (le_bytes 2) (ztake 5 chunk) ++ [0x0f; 0; checksum] ++
  flat_map (le_bytes 2) (ztake 6 (zdrop 5 chunk)) ++ [0; 0] ++ flat_map (le_bytes 2) (ztake 2 (zdrop 11 chunk)).

Fixpoint lfn_from (i total checksum : Z) (chunks : list text) : res EfiError (list bytes) :=
  match chunks with
  | [] => Ok []
  | chunk :: chunks =>
      let? seq := add_or_panic 8 (wrap 8 i) 1 in
      let ord := if i =? total - 1 then Z.lor seq 0x40 else seq in
      let? rest := lfn_from (i + 1) total checksum chunks in
      Ok (lfn_entry ord checksum chunk :: rest)
  end.

(** The entries go out in reverse order. *)
Definition build_lfn_entries (name : text) (short : bytes) : res EfiError (list bytes) :=
  let checksum := lfn_checksum short in
  let chunks := map pad_units (slice_chunks LFN_CHARS_PER_ENTRY (encode_utf16 name)) in
  let chunks := if zlen chunks =? 0 then [replicate 13 0] else chunks in
  let? entries := lfn_from 0 (zlen chunks) checksum chunks in
  Ok (rev entries).

(** The fields of an entry in order; the rest of the array is zero. *)
Definition dir_entry (name : bytes) (attr cluster size : Z) : bytes :=
  name ++ [attr; 0; 0] ++ le_bytes 2 0 ++ le_bytes 2 FAT_EPOCH_DATE ++ le_bytes 2 FAT_EPOCH_DATE ++
  le_bytes 2 (wrap 16 (Z.shiftr cluster 16)) ++ le_bytes 2 0 ++ le_bytes 2 FAT_EPOCH_DATE ++
  le_bytes 2 (Z.land cluster 0xffff) ++ le_bytes 4 size.

Definition DOT : bytes := bytes_of ".          ".
Definition DOTDOT : bytes := bytes_of "..         ".
Definition VOLUME_LABEL : bytes := bytes_of "EFI        ".

Definition dot_entries (self_cluster parent_cluster : Z) : bytes :=
  dir_entry DOT 0x10 self_cluster 0 ++ dir_entry DOTDOT 0x10 parent_cluster 0.

Definition volume_label_entry : bytes := dir_entry VOLUME_LABEL 0x08 0 0.

Definition append_child_entries (raw : bytes) (name : text) (short : bytes) (needs_lfn is_dir : bool) (cluster size : Z) : res EfiError bytes :=
  let? lfn := if needs_lfn then build_lfn_entries name short else Ok [] in
  Ok (raw ++ concat lfn ++ dir_entry short (if is_dir then 0x10 else 0x20) cluster size).

Definition validate_component_name_length (name : text) : res EfiError unit :=
  if 255 <? zlen (encode_utf16 name) then Err ComponentTooLong else Ok tt.

(** ** Reading a directory *)

Record DirEntry := MkDirEntry { de_name : text; de_is_dir : bool; de_cluster : Z; de_size : Z }.

Definition decode_short_name (short : bytes) : text :=
  let base := trim_end (default [] (from_utf8 (ztake 8 short))) in
  let ext := trim_end (default [] (from_utf8 (zdrop 8 short))) in
  if zlen ext =? 0 then base else base ++ 46 :: ext.

Record LfnPart := MkPart { lp_seq : Z; lp_checksum : Z; lp_chars : text }.

Fixpoint le_units (b : bytes) : text :=
  match b with lo :: hi :: b => lo + 256 * hi :: le_units b | _ => [] end.

Definition byte_of (raw : bytes) (i : Z) : Z := default 0 (zget raw i).

Definition lfn_part (raw : bytes) : LfnPart :=
  MkPart (Z.land (byte_of raw 0) (bit_not 8 0x40)) (byte_of raw 13)
    (le_units (ztake 10 (zdrop 1 raw)) ++ le_units (ztake 12 (zdrop 14 raw)) ++ le_units (ztake 4 (zdrop 28 raw))).

(** [sort_by_key]: stable. *)
Fixpoint insert_part (p : LfnPart) (l : list LfnPart) : list LfnPart :=
  match l with
  | [] => [p]
  | q :: l => if lp_seq p <=? lp_seq q then p :: q :: l else q :: insert_part p l
  end.
Definition sort_parts (l : list LfnPart) : list LfnPart := foldr insert_part [] l.

Fixpoint until_nul (chars : text) : text :=
  match chars with u :: chars => if u =? 0 then [] else u :: until_nul chars | [] => [] end.

Definition entry_name (parts : list LfnPart) (short : bytes) : text :=
  if negb (zlen parts =? 0) && forallb (fun p => lp_checksum p =? lfn_checksum short) parts
  then from_utf16_lossy (flat_map (fun p => until_nul (lp_chars p)) (sort_parts parts))
  else decode_short_name short.

Definition entry_of (name : text) (raw : bytes) : DirEntry :=
  MkDirEntry name (negb (Z.land (byte_of raw 11) 0x10 =? 0))
    (Z.lor (Z.shiftl (le_val (ztake 2 (zdrop 20 raw))) 16) (le_val (ztake 2 (zdrop 26 raw))))
    (le_val (ztake 4 (zdrop 28 raw))).

(** One turn per 32-byte entry; [fuel] is the length of the region. *)
Fixpoint parse_entries (fuel : nat) (region : bytes) (parts : list LfnPart) : list DirEntry :=
  match fuel with
  | O => []
  | S fuel =>
      if zlen region <? DIR_ENTRY_SIZE then [] else
      let raw := ztake DIR_ENTRY_SIZE region in
      let rest := zdrop DIR_ENTRY_SIZE region in
      if byte_of raw 0 =? 0x00 then [] else
      if byte_of raw 0 =? 0xe5 then parse_entries fuel rest [] else
      let attr := byte_of raw 11 in
      if attr =? 0x0f then parse_entries fuel rest (parts ++ [lfn_part raw]) else
      if negb (Z.land attr 0x08 =? 0) && (Z.land attr 0x10 =? 0) then parse_entries fuel rest [] else
      let name := entry_name parts (ztake 11 raw) in
      if bool_decide (name = bytes_of ".") || bool_decide (name = bytes_of "..") then parse_entries fuel rest []
      else entry_of name raw :: parse_entries fuel rest []
  end.

Definition parse_dir_region (region : bytes) : list DirEntry := parse_entries (length region) region [].
