(* ===== verification/FatNamesProps.v ===== *)
(** * FAT directories read back

    A directory built entry by entry parses to its children: long names through
    UTF-16 and the pieces of thirteen units, short names through the 8.3 form. *)

From S2P Require Import Prelude Windows FatNames.
From stdpp Require Import base tactics numbers list option strings.
From Stdlib Require Import ZArith Lia.

Open Scope Z_scope.

(** ** UTF-16 *)

Definition scalar (c : Z) : Prop := 0 < c < 0xd800 \/ 0xe000 <= c < 0x110000.

Lemma from_utf16_cons c units : scalar c -> from_utf16_lossy (utf16_of c ++ units) = c :: from_utf16_lossy units.
Proof.
  intros Hc. unfold utf16_of. destruct (c <? 0x10000) eqn:Eb; bools; cbn [app from_utf16_lossy].
  - unfold high_surrogate, low_surrogate.
    destruct ((0xd800 <=? c) && (c <? 0xdc00)) eqn:E1; [bools; destruct Hc; lia|].
    destruct ((0xdc00 <=? c) && (c <? 0xe000)) eqn:E2; [bools; destruct Hc; lia|done].
  - destruct Hc as [Hc|Hc]; [lia|]. rewrite Z.shiftr_div_pow2 by lia. change 0x3ff with (2 ^ 10 - 1). rewrite land_low by lia.
    set (x := c - 0x10000). assert (0 <= x < 0x100000) as Hx by lia. change (2 ^ 10) with 1024.
    assert (0 <= x / 1024 < 1024) by (split; [apply Z.div_pos; lia|apply Z.div_lt_upper_bound; lia]).
    pose proof (Z.mod_pos_bound x 1024 ltac:(lia)).
    unfold high_surrogate, low_surrogate. rewrite !(proj2 (Z.leb_le _ _)), !(proj2 (Z.ltb_lt _ _)) by lia. cbn [andb].
    f_equal. replace (0xd800 + x / 1024 - 0xd800) with (x / 1024) by lia. replace (0xdc00 + x mod 1024 - 0xdc00) with (x mod 1024) by lia.
    rewrite lor_shiftl by lia. pose proof (Z.div_mod x 1024 ltac:(lia)). change (2 ^ 10) with 1024. lia.
Qed.

Lemma utf16_roundtrip name : Forall scalar name -> from_utf16_lossy (encode_utf16 name) = name.
Proof.
  induction 1 as [|c name Hc Hn IH]; [done|]. unfold encode_utf16 in *. cbn [flat_map]. by rewrite from_utf16_cons, IH.
Qed.

Definition unit16 (u : Z) : Prop := 0 < u < 0x10000.

Lemma utf16_units name : Forall scalar name -> Forall unit16 (encode_utf16 name).
Proof.
  induction 1 as [|c name Hc Hn IH]; [constructor|]. unfold encode_utf16 in *. cbn [flat_map]. apply Forall_app. split; [|done].
  unfold utf16_of, unit16. destruct (c <? 0x10000) eqn:Eb; bools; repeat constructor; try (destruct Hc; lia).
  all: destruct Hc as [|Hc]; [lia|]; rewrite ?Z.shiftr_div_pow2 by lia; change 0x3ff with (2 ^ 10 - 1); rewrite ?land_low by lia;
    change (2 ^ 10) with 1024; Z.div_mod_to_equations; lia.
Qed.

(** ** Pieces of a long name *)

#[local] Transparent le_bytes.

Lemma le_bytes_2 u : le_bytes 2 u = [u mod 256; u / 256 mod 256].
Proof. done. Qed.

Lemma le_units_bytes us : Forall (fun u => 0 <= u < 0x10000) us -> le_units (flat_map (le_bytes 2) us) = us.
Proof.
  induction 1 as [|u us Hu Hus IH]; [done|]. unfold flat_map. fold (flat_map (le_bytes 2) us). rewrite le_bytes_2. cbn [app le_units].
  rewrite IH. f_equal. Z.div_mod_to_equations. lia.
Qed.

#[local] Opaque le_bytes.

Lemma zlen_units us : zlen (flat_map (le_bytes 2) us) = 2 * zlen us.
Proof. induction us as [|u us IH]; [done|]. cbn [flat_map]. rewrite zlen_app, IH, zlen_le_bytes, zlen_cons. lia. Qed.

Lemma lfn_entry_length ord chk chunk : zlen chunk = 13 -> zlen (lfn_entry ord chk chunk) = 32.
Proof.
  intros Hl. unfold lfn_entry. rewrite !zlen_app, !zlen_units, !zlen_ztake, !zlen_zdrop, Hl. done.
Qed.

Lemma byte_of_at p x r i : i = zlen p -> byte_of (p ++ x :: r) i = x.
Proof. intros ->. unfold byte_of. rewrite <- (Z.add_0_r (zlen p)), zget_app by lia. done. Qed.

Lemma lfn_part_entry ord chk chunk :
  zlen chunk = 13 -> Forall (fun u => 0 <= u < 0x10000) chunk ->
  lfn_part (lfn_entry ord chk chunk) = MkPart (Z.land ord (bit_not 8 0x40)) chk chunk /\
  byte_of (lfn_entry ord chk chunk) 0 = ord /\ byte_of (lfn_entry ord chk chunk) 11 = 0x0f.
Proof.
  intros Hl Hu. set (a := flat_map (le_bytes 2) (ztake 5 chunk)). set (b := flat_map (le_bytes 2) (ztake 6 (zdrop 5 chunk))).
  set (c := flat_map (le_bytes 2) (ztake 2 (zdrop 11 chunk))).
  assert (zlen a = 10) as Ha by (unfold a; rewrite zlen_units, zlen_ztake; lia).
  assert (zlen b = 12) as Hb by (unfold b; rewrite zlen_units, zlen_ztake, zlen_zdrop; lia).
  assert (zlen c = 4) as Hc by (unfold c; rewrite zlen_units, zlen_ztake, zlen_zdrop; lia).
  assert (forall lo n, Forall (fun u => 0 <= u < 0x10000) (ztake n (zdrop lo chunk))) as Hsub by (intros; by apply Forall_take, Forall_drop).
  assert (lfn_entry ord chk chunk = [ord] ++ a ++ [0x0f; 0; chk] ++ b ++ [0; 0] ++ c) as -> by done.
  split_and!.
  - unfold lfn_part. f_equal.
    + replace ([ord] ++ _) with (([ord] ++ a ++ [0x0f; 0]) ++ chk :: b ++ [0; 0] ++ c) by (by rewrite <- !app_assoc).
      apply byte_of_at. rewrite !zlen_app, Ha. done.
    + rewrite (piece [ord] a) by done. 
      replace ([ord] ++ a ++ [0x0f; 0; chk] ++ b ++ [0; 0] ++ c) with (([ord] ++ a ++ [0x0f; 0; chk]) ++ b ++ [0; 0] ++ c) at 1 by (by rewrite <- !app_assoc).
      rewrite (piece _ b) by (rewrite ?zlen_app, ?Ha; done).
      replace ([ord] ++ a ++ [0x0f; 0; chk] ++ b ++ [0; 0] ++ c) with (([ord] ++ a ++ [0x0f; 0; chk] ++ b ++ [0; 0]) ++ c ++ []) by (by rewrite <- !app_assoc, app_nil_r).
      rewrite (piece _ c) by (rewrite ?zlen_app, ?Ha, ?Hb; done).
      unfold a, b, c. rewrite !le_units_bytes by (apply Hsub || (rewrite <- (zdrop_0 chunk) at 1; apply Hsub)).
      rewrite <- (ztake_zdrop 5 chunk) at 4. f_equal. rewrite <- (ztake_zdrop 6 (zdrop 5 chunk)) at 2. f_equal.
      rewrite zdrop_zdrop by lia. apply ztake_all. rewrite zlen_zdrop. lia.
  - done.
  - replace ([ord] ++ a ++ [0x0f; 0; chk] ++ b ++ [0; 0] ++ c) with (([ord] ++ a) ++ 0x0f :: [0; chk] ++ b ++ [0; 0] ++ c) by (by rewrite <- !app_assoc).
    apply byte_of_at. rewrite zlen_app, Ha. done.
Qed.

(** ** Parsing entry by entry *)

Definition parse (region : bytes) (parts : list LfnPart) : list DirEntry := parse_entries (length region) region parts.

Lemma parse_enough fuel : forall region parts, (length region <= fuel)%nat -> parse_entries fuel region parts = parse region parts.
Proof.
  unfold parse. induction fuel as [fuel IH] using lt_wf_ind; intros region parts Hf.
  destruct fuel as [|fuel]; [by replace (length region) with 0%nat by lia|].
  destruct (Z.ltb_spec (zlen region) DIR_ENTRY_SIZE) as [Hs|Hs].
  { cbn [parse_entries]. rewrite (proj2 (Z.ltb_lt _ _)) by done. destruct (length region); [done|]. cbn [parse_entries].
    by rewrite (proj2 (Z.ltb_lt _ _)) by done. }
  destruct (length region) as [|k] eqn:Ek; [unfold zlen, DIR_ENTRY_SIZE in Hs; lia|]. cbn [parse_entries].
  assert (length (zdrop DIR_ENTRY_SIZE region) <= k)%nat as Hk by (unfold zdrop, DIR_ENTRY_SIZE; rewrite length_drop; lia).
  assert (forall ps, parse_entries fuel (zdrop DIR_ENTRY_SIZE region) ps = parse_entries k (zdrop DIR_ENTRY_SIZE region) ps) as E.
  { intros ps. rewrite (IH fuel) by lia. symmetry. apply IH; lia. }
  by rewrite !E.
Qed.

(** What one entry does to the parse of the rest. *)
Definition parse_step (raw : bytes) (parts : list LfnPart) (rest : list LfnPart -> list DirEntry) : list DirEntry :=
  if byte_of raw 0 =? 0x00 then [] else
  if byte_of raw 0 =? 0xe5 then rest [] else
  if byte_of raw 11 =? 0x0f then rest (parts ++ [lfn_part raw]) else
  if negb (Z.land (byte_of raw 11) 0x08 =? 0) && (Z.land (byte_of raw 11) 0x10 =? 0) then rest [] else
  let name := entry_name parts (ztake 11 raw) in
  if bool_decide (name = bytes_of ".") || bool_decide (name = bytes_of "..") then rest []
  else entry_of name raw :: rest [].

Lemma parse_cons raw region parts : zlen raw = 32 -> parse (raw ++ region) parts = parse_step raw parts (parse region).
Proof.
  intros Hl. rewrite <- (parse_enough (S (length (raw ++ region)))) by lia. cbn [parse_entries].
  rewrite (proj2 (Z.ltb_ge _ _)) by (rewrite zlen_app; unfold DIR_ENTRY_SIZE; pose proof (zlen_nonneg region); lia).
  rewrite ztake_app_le, ztake_all, zdrop_app_ge by (unfold DIR_ENTRY_SIZE; lia). rewrite Hl, Z.sub_diag, zdrop_0.
  unfold parse_step. by rewrite !parse_enough by (rewrite length_app; lia).
Qed.

Lemma parse_zeros n parts : parse (zeros n) parts = [].
Proof.
  destruct (Z.ltb_spec (zlen (zeros n)) 32) as [Hs|Hs].
  - unfold parse. destruct (length (zeros n)); [done|]. cbn [parse_entries]. by rewrite (proj2 (Z.ltb_lt _ _)).
  - rewrite zlen_zeros in Hs. unfold zeros. replace (Z.to_nat n) with (32 + (Z.to_nat n - 32))%nat by lia. rewrite replicate_add.
    by rewrite parse_cons by done.
Qed.

Lemma parse_lfn_entries entries : forall region parts,
  Forall (fun e => zlen e = 32 /\ byte_of e 0 <> 0 /\ byte_of e 0 <> 0xe5 /\ byte_of e 11 = 0x0f) entries ->
  parse (concat entries ++ region) parts = parse region (parts ++ map lfn_part entries).
Proof.
  induction entries as [|e entries IH]; intros region parts He; cbn [concat map]; [by rewrite app_nil_r|].
  apply Forall_cons in He as [(Hl&H0&H5&H11) He']. rewrite <- app_assoc. rewrite parse_cons by done. unfold parse_step.
  rewrite !(proj2 (Z.eqb_neq _ _)) by done. rewrite H11. cbn [Z.eqb Pos.eqb]. rewrite IH by done. by rewrite <- app_assoc.
Qed.

(** ** Entries *)

Lemma dir_entry_length name attr cluster size : zlen name = 11 -> zlen (dir_entry name attr cluster size) = 32.
Proof. intros Hn. unfold dir_entry. rewrite !zlen_app, !zlen_le_bytes, Hn. done. Qed.

Lemma dir_entry_fields name attr cluster size :
  zlen name = 11 -> u32 cluster -> u32 size -> let raw := dir_entry name attr cluster size in
  ztake 11 raw = name /\ byte_of raw 11 = attr /\ forall long, entry_of long raw = MkDirEntry long (negb (Z.land attr 0x10 =? 0)) cluster size.
Proof.
  intros Hn Hc Hs raw.
  assert (ztake 11 raw = name) as E1 by (unfold raw, dir_entry; rewrite ztake_app_le by lia; apply ztake_all; lia).
  assert (byte_of raw 11 = attr) as E2 by (by apply byte_of_at).
  split; [done|]. split; [done|]. intros long. unfold entry_of. rewrite E2. f_equal.
  - assert (ztake 2 (zdrop 20 raw) = le_bytes 2 (wrap 16 (Z.shiftr cluster 16))) as -> by (unfold raw, dir_entry; pick).
    assert (ztake 2 (zdrop 26 raw) = le_bytes 2 (Z.land cluster 0xffff)) as -> by (unfold raw, dir_entry; pick).
    rewrite !le_val_le_bytes. change 0xffff with (2 ^ 16 - 1). rewrite land_low, Z.shiftr_div_pow2 by lia. unfold wrap, in_range in *.
    change (8 * Z.of_nat 2) with 16. rewrite !Z.mod_mod by lia. rewrite lor_shiftl by (try apply Z.mod_pos_bound; lia).
    Z.div_mod_to_equations. lia.
  - assert (ztake 4 (zdrop 28 raw) = le_bytes 4 size) as -> by (unfold raw, dir_entry; pick).
    rewrite le_val_le_bytes. apply Z.mod_small, Hs.
Qed.

(** ** Long names *)

(** The marks of a piece: its number, and 0x40 on the last. *)
Lemma ord_marks k : 1 <= k <= 20 ->
  Z.land k (bit_not 8 0x40) = k /\ Z.land (Z.lor k 0x40) (bit_not 8 0x40) = k /\ k <> 0xe5 /\ Z.lor k 0x40 <> 0 /\ Z.lor k 0x40 <> 0xe5.
Proof.
  intros Hk. pose proof (u8_forallb (fun b => negb ((1 <=? b) && (b <=? 20)) ||
    ((Z.land b (bit_not 8 0x40) =? b) && (Z.land (Z.lor b 0x40) (bit_not 8 0x40) =? b) && negb (Z.lor b 0x40 =? 0) && negb (Z.lor b 0x40 =? 0xe5)))
    ltac:(by vm_compute) k ltac:(unfold in_range; lia)) as Hp. cbv beta in Hp.
  apply orb_prop in Hp as [Hp|Hp]; bools; [apply andb_false_iff in Hp as [Hp|Hp]; bools; lia|]. split_and!; done || lia.
Qed.

Definition piece_ord (i total : Z) : Z := if i =? total - 1 then Z.lor (i + 1) 0x40 else i + 1.

Fixpoint lfn_pieces (i total chk : Z) (chunks : list text) : list bytes :=
  match chunks with
  | [] => []
  | chunk :: chunks => lfn_entry (piece_ord i total) chk chunk :: lfn_pieces (i + 1) total chk chunks
  end.

Fixpoint parts_from (i chk : Z) (chunks : list text) : list LfnPart :=
  match chunks with
  | [] => []
  | chunk :: chunks => MkPart (i + 1) chk chunk :: parts_from (i + 1) chk chunks
  end.

Definition full_chunk (chunk : text) : Prop := zlen chunk = 13 /\ Forall (fun u => 0 <= u < 0x10000) chunk.

Lemma lfn_from_pieces chunks chk total : forall i,
  0 <= i -> i + zlen chunks <= 20 -> lfn_from i total chk chunks = Ok (lfn_pieces i total chk chunks).
Proof.
  induction chunks as [|chunk chunks IH]; intros i Hi Hl; [done|]. rewrite zlen_cons in Hl. pose proof (zlen_nonneg chunks).
  cbn [lfn_from lfn_pieces]. rewrite wrap_small by (unfold in_range; lia). rewrite add_or_panic_ok by lia. cbn [res_bind].
  rewrite IH by lia. done.
Qed.

Lemma lfn_pieces_parts chunks chk total : forall i,
  0 <= i -> i + zlen chunks <= 20 -> Forall full_chunk chunks ->
  map lfn_part (lfn_pieces i total chk chunks) = parts_from i chk chunks /\
  Forall (fun e => zlen e = 32 /\ byte_of e 0 <> 0 /\ byte_of e 0 <> 0xe5 /\ byte_of e 11 = 0x0f) (lfn_pieces i total chk chunks).
Proof.
  induction chunks as [|chunk chunks IH]; intros i Hi Hl Hf; [done|]. rewrite zlen_cons in Hl. pose proof (zlen_nonneg chunks).
  apply Forall_cons in Hf as [[Hc Hu] Hf]. destruct (IH (i + 1)) as [E1 E2]; [lia..|done|]. cbn [lfn_pieces parts_from map].
  destruct (lfn_part_entry (piece_ord i total) chk chunk Hc Hu) as (Ep&E0&E11).
  destruct (ord_marks (i + 1)) as (M1&M2&M3&M4&M5); [lia|]. split.
  - rewrite Ep, E1. f_equal. unfold piece_ord. by case_match; rewrite ?M1, ?M2.
  - constructor; [|done]. rewrite E0, E11. split_and!; [by apply lfn_entry_length|..|done]; unfold piece_ord; case_match; done || lia.
Qed.

Lemma insert_part_last p acc : Forall (fun q => lp_seq q < lp_seq p) acc -> insert_part p acc = acc ++ [p].
Proof.
  induction 1 as [|q acc Hq Ha IH]; [done|]. cbn [insert_part app]. rewrite (proj2 (Z.leb_gt _ _)) by lia. by rewrite IH.
Qed.

Lemma sort_parts_rev chunks chk : forall i acc,
  Forall (fun q => lp_seq q <= i) acc -> foldr insert_part acc (rev (parts_from i chk chunks)) = acc ++ parts_from i chk chunks.
Proof.
  induction chunks as [|chunk chunks IH]; intros i acc Ha; cbn [parts_from rev foldr]; [by rewrite app_nil_r|].
  rewrite foldr_app. cbn [foldr]. rewrite insert_part_last.
  - rewrite IH; [by rewrite <- app_assoc|]. apply Forall_app. split; [|by repeat constructor].
    eapply Forall_impl; [exact Ha|]. cbv beta. lia.
  - eapply Forall_impl; [exact Ha|]. cbn. lia.
Qed.

Lemma until_nul_pad chunk : Forall unit16 chunk -> zlen chunk <= 13 -> until_nul (pad_units chunk) = chunk.
Proof.
  intros Hu Hl. assert (forall r, until_nul (chunk ++ 0 :: r) = chunk /\ until_nul chunk = chunk) as Hn.
  { intros r. clear Hl. induction Hu as [|u chunk Hu Hc IH]; [done|]. cbn [app until_nul]. unfold unit16 in Hu.
    rewrite (proj2 (Z.eqb_neq _ _)) by lia. destruct IH as [-> ->]. done. }
  unfold pad_units. destruct (_ <? _); apply Hn. exact [].
Qed.

Lemma pad_units_full chunk : Forall unit16 chunk -> 1 <= zlen chunk <= 13 -> full_chunk (pad_units chunk).
Proof.
  intros Hu Hl. unfold pad_units, full_chunk, LFN_CHARS_PER_ENTRY.
  assert (Forall (fun u => 0 <= u < 65536) chunk) as Hu' by (eapply Forall_impl; [exact Hu|]; unfold unit16; lia).
  destruct (Z.ltb_spec (zlen chunk) 13).
  - split; [rewrite zlen_app, zlen_cons; unfold zlen in *; rewrite length_replicate; lia|].
    apply Forall_app. split; [done|]. constructor; [lia|]. apply Forall_replicate. lia.
  - split; [lia|done].
Qed.

Lemma parts_from_checksum chunks chk : forall i, Forall (fun p => lp_checksum p = chk) (parts_from i chk chunks).
Proof. induction chunks as [|c chunks IH]; intros i; cbn [parts_from]; constructor; [done|apply IH]. Qed.

Lemma parts_from_units cs chk : forall i, Forall (fun c => Forall unit16 c /\ 1 <= zlen c <= 13) cs ->
  flat_map (fun p => until_nul (lp_chars p)) (parts_from i chk (map pad_units cs)) = concat cs.
Proof.
  induction cs as [|c cs IH]; intros i Hc; [done|]. apply Forall_cons in Hc as [[Hu Hl] Hc]. cbn [map parts_from flat_map concat lp_chars].
  rewrite until_nul_pad by (done || lia). f_equal. by apply IH.
Qed.

Lemma chunks_units units : Forall unit16 units -> Forall (fun c => Forall unit16 c /\ 1 <= zlen c <= 13) (slice_chunks 13 units).
Proof.
  intros Hu. destruct (slice_chunks_spec 13 units ltac:(lia)) as [Ec Hl]. rewrite <- Ec in Hu. apply Forall_concat in Hu.
  apply Forall_and. by split.
Qed.

(** The name of the pieces is the name that was cut. *)
Lemma pieces_name units short :
  Forall unit16 units -> units <> [] ->
  entry_name (rev (parts_from 0 (lfn_checksum short) (map pad_units (slice_chunks 13 units)))) short = from_utf16_lossy units.
Proof.
  intros Hu Hn. pose proof (chunks_units _ Hu) as Hcs. destruct (slice_chunks_spec 13 units ltac:(lia)) as [Ec _].
  set (cs := slice_chunks 13 units) in *. set (ps := parts_from _ _ _). unfold entry_name.
  assert (forallb (fun p => lp_checksum p =? lfn_checksum short) (rev ps) = true) as ->.
  { apply forallb_forall. intros p Hp%in_rev. apply Z.eqb_eq. pose proof (parts_from_checksum (map pad_units cs) (lfn_checksum short) 0) as Hf.
    rewrite Forall_forall in Hf. apply Hf. by apply list_elem_of_In. }
  assert (zlen (rev ps) <> 0) as Hz.
  { unfold zlen. rewrite length_rev. unfold ps. destruct cs; [by subst|]. done. }
  rewrite (proj2 (Z.eqb_neq _ _)) by done. cbn [negb andb]. unfold sort_parts, ps. rewrite sort_parts_rev by constructor. cbn [app].
  by rewrite parts_from_units, Ec.
Qed.

(** ** Short names *)

Lemma from_utf8_ascii b : Forall (fun c => 0 <= c < 128) b -> from_utf8 b = Some b.
Proof. induction 1 as [|c b Hc Hb IH]; [done|]. cbn [from_utf8]. rewrite (proj2 (Z.ltb_lt _ _)) by lia. by rewrite IH. Qed.

Definition visible (c : Z) : Prop := 32 < c < 127.

Lemma trim_end_pad base n : Forall visible base -> trim_end (base ++ replicate n 32) = base.
Proof.
  intros Hb. unfold trim_end. rewrite rev_app_distr. assert (rev (replicate n 32) = replicate n 32) as -> by (rewrite rev_alt; apply reverse_replicate).
  assert (forall l, Forall visible l -> trim_start (replicate n 32 ++ l) = l) as Ht.
  { intros l Hl. induction n as [|n IH]; [|exact IH]. destruct Hl as [|c l Hc _]; [done|]. cbn. unfold is_whitespace, visible in *.
    replace (_ || _) with false; [done|]. symmetry. repeat (apply orb_false_iff; split); try (apply Z.eqb_neq; lia); apply andb_false_iff; lia. }
  rewrite Ht by (by apply Forall_rev). apply rev_involutive.
Qed.

Lemma safe_visible c : is_short_safe_char c = true -> visible c /\ c <> 46.
Proof.
  unfold is_short_safe_char, is_ascii_alphanumeric, is_ascii_uppercase, is_ascii_lowercase, is_ascii_digit, visible.
  intros [H|H]%orb_prop; [rewrite !orb_true_iff, !andb_true_iff, !Z.leb_le in H; lia|].
  assert (forallb (fun c => (32 <? c) && (c <? 127) && negb (c =? 46)) SHORT_NAME_CHARSET_EXTRA = true) as Hall by (by vm_compute).
  unfold contains in H. apply existsb_exists in H as (x&Hin&->%Z.eqb_eq). rewrite forallb_forall in Hall. specialize (Hall x Hin). bools. lia.
Qed.

Lemma rfind_some c l i : rfind c l = Some i -> l = ztake i l ++ c :: zdrop (i + 1) l /\ 0 <= i < zlen l.
Proof.
  revert i. induction l as [|x l IH]; intros i; [done|]. cbn [rfind]. rewrite zlen_cons. destruct (rfind c l) as [j|].
  - intros [= <-]. destruct (IH j eq_refl) as [E Hj]. split; [|lia]. unfold ztake, zdrop in *.
    replace (Z.to_nat (j + 1 + 1)) with (S (Z.to_nat (j + 1))) by lia. replace (Z.to_nat (j + 1)) with (S (Z.to_nat j)) in * by lia.
    cbn [take drop app]. cbn [drop] in E. by f_equal.
  - destruct (Z.eqb_spec x c) as [->|]; [|done]. intros [= <-]. pose proof (zlen_nonneg l). split; [done|lia].
Qed.

Lemma zlen_pad n l : zlen l <= Z.of_nat n -> zlen (pad_spaces n l) = Z.of_nat n.
Proof. intros Hl. unfold pad_spaces, zlen in *. rewrite length_app, length_replicate. lia. Qed.

(** A short name in a directory entry: eleven bytes, the first of them visible. *)
Record good_short (short : bytes) : Prop := {
  gs_length : zlen short = 11;
  gs_first : visible (byte_of short 0);
}.

Lemma short_array_good base ext :
  1 <= zlen base <= 8 -> zlen ext <= 3 -> Forall visible base -> Forall visible ext ->
  good_short (short_array base ext) /\
  decode_short_name (short_array base ext) = if zlen ext =? 0 then base else base ++ 46 :: ext.
Proof.
  intros Hb He Vb Ve. unfold short_array. split.
  - split; [rewrite zlen_app, !zlen_pad by lia; done|]. destruct base as [|c base]; [by change (zlen []) with 0 in Hb; lia|].
    apply Forall_cons in Vb as [? _]. done.
  - unfold decode_short_name. rewrite ztake_app_le, ztake_all, zdrop_app_ge by (rewrite zlen_pad; lia).
    rewrite zlen_pad by lia. change (8 - Z.of_nat 8) with 0. rewrite zdrop_0.
    assert (forall n l, Forall visible l -> default [] (from_utf8 (pad_spaces n l)) = pad_spaces n l) as Hu.
    { intros n l Hl. rewrite from_utf8_ascii; [done|]. unfold pad_spaces. apply Forall_app. split.
      - eapply Forall_impl; [exact Hl|]. unfold visible. lia.
      - apply Forall_replicate. lia. }
    rewrite !Hu by done. unfold pad_spaces. by rewrite !trim_end_pad.
Qed.

Lemma all_safe l : forallb is_short_safe_char l = true -> Forall visible l.
Proof. intros H. apply Forall_forall. intros c Hc%list_elem_of_In. rewrite forallb_forall in H. by apply safe_visible, H. Qed.

(** A name that fits the 8.3 form reads back, unless it ends in a dot. *)
Lemma candidate_decodes name short :
  short_name_candidate name = Some short -> last name <> Some 46 -> good_short short /\ decode_short_name short = name.
Proof.
  unfold short_name_candidate. intros H Hlast. destruct (_ || _); [done|]. destruct (existsb _ _); [done|].
  destruct (match rfind 46 name with Some _ => _ | None => _ end) as [[base ext]|] eqn:Es; [|done]. cbn in H.
  destruct ((zlen base =? 0) || (8 <? zlen base) || (3 <? zlen ext)) eqn:El; [done|].
  destruct (contains base 46 || contains ext 46); [done|].
  destruct (negb _ || negb _) eqn:Ef; [done|]. injection H as <-. bools. pose proof (zlen_nonneg base).
  destruct (short_array_good base ext) as [Hg Hd]; [lia|lia|by apply all_safe..|]. split; [done|]. rewrite Hd.
  destruct (rfind 46 name) as [pos|] eqn:Er; [|by injection Es as <- <-].
  destruct (negb _); [|done]. injection Es as <- <-. apply rfind_some in Er as [En Hp].
  destruct (Z.eqb_spec (zlen (zdrop (pos + 1) name)) 0) as [E0|]; [|done].
  apply zlen_zero in E0. rewrite E0 in En. exfalso. apply Hlast. rewrite En. apply last_snoc.
Qed.

Lemma radix_digits base fuel n : 2 <= base <= 10 -> 0 <= n -> Forall (fun c => 48 <= c <= 57) (radix base fuel n) /\ zlen (radix base fuel n) <= Z.of_nat fuel.
Proof.
  intros Hb. revert n. induction fuel as [|fuel IH]; intros n Hn; cbn [radix]; [done|].
  destruct (n <? base) eqn:E; bools; [split; [repeat constructor; lia|change (zlen [_]) with 1; lia]|].
  destruct (IH (n / base)) as [H1 H2]; [apply Z.div_pos; lia|]. pose proof (Z.mod_pos_bound n base ltac:(lia)).
  split; [apply Forall_app; split; [done|repeat constructor; lia]|]. rewrite zlen_app. change (zlen [_]) with 1. lia.
Qed.

Lemma alias_good fuel base ext used : forall n out used',
  Forall visible base -> Forall visible ext -> zlen ext <= 3 -> 0 <= n ->
  alias_from fuel n base ext used = Some (out, used') -> good_short out /\ out ∉ used /\ used' = out :: used.
Proof.
  induction fuel as [|fuel IH]; intros n out used' Vb Ve He Hn; [done|]. cbn [alias_from]. unfold insert_new.
  destruct (radix_digits 10 7 n) as [Hd Hl]; [lia..|]. set (digits := radix 10 7 n) in *. clearbody digits.
  destruct (decide _) as [Hin|Hin]; [apply IH; done || lia|]. intros [= <- <-]. split; [|done]. pose proof (zlen_nonneg digits).
  apply short_array_good; [|done| |done].
  - rewrite zlen_app, zlen_ztake, zlen_cons. unfold saturating_sub. pose proof (zlen_nonneg base). lia.
  - apply Forall_app. split; [by apply Forall_take|]. constructor; [unfold visible; lia|].
    eapply Forall_impl; [exact Hd|]. unfold visible. lia.
Qed.

Lemma clean_visible l : Forall visible (clean_short_component l).
Proof.
  unfold clean_short_component. apply Forall_map, Forall_forall. intros c _. cbn. destruct (is_short_safe_char _) eqn:E.
  - by apply safe_visible.
  - unfold visible. lia.
Qed.

Lemma alias_short name used short lfn used' :
  (let? (alias, used) := make_unique_short_alias name used in Ok (alias, true, used)) = Ok (short, lfn, used') ->
  good_short short /\ short ∉ used /\ used' = short :: used /\ (lfn = false -> decode_short_name short = name).
Proof.
  unfold make_unique_short_alias. destruct (match rfind 46 name with Some _ => _ | None => _ end) as [raw_base raw_ext].
  set (base := if _ =? 0 then _ else _). set (ext := ztake 3 _).
  destruct (alias_from _ 1 base ext used) as [[out used1]|] eqn:Ea; [|done]. intros [= <- <- <-].
  apply alias_good in Ea as (?&?&?); [done|..].
  - unfold base. destruct (_ =? 0); [|apply clean_visible]. repeat constructor; by_compute.
  - apply Forall_take, clean_visible.
  - unfold ext. rewrite zlen_ztake. lia.
  - lia.
Qed.

(** The short name of a directory entry is new in the directory, and good. *)
Lemma build_short_spec name used short lfn used' :
  build_short_and_lfn name used = Ok (short, lfn, used') -> last name <> Some 46 ->
  good_short short /\ short ∉ used /\ used' = short :: used /\ (lfn = false -> decode_short_name short = name).
Proof.
  unfold build_short_and_lfn. intros H Hlast. destruct (short_name_candidate name) as [direct|] eqn:Ec; cbn in H.
  - unfold insert_new in H at 1. destruct (decide (direct ∈ used)); cbn [mbind option_bind] in H; [by apply alias_short|].
    injection H as <- <- <-. by destruct (candidate_decodes _ _ Ec Hlast).
  - by apply alias_short.
Qed.

(** ** A directory's children *)

(** Names that FAT keeps as they are: Unicode text without NUL that does not end
    in a dot (so neither [.] nor [..]). *)
Record plain_name (name : text) : Prop := {
  pn_scalar : Forall scalar name;
  pn_some : name <> [];
  pn_last : last name <> Some 46;
}.

Lemma utf16_nonempty name : name <> [] -> encode_utf16 name <> [].
Proof. destruct name as [|c name]; [done|]. intros _. unfold encode_utf16, utf16_of. cbn [flat_map]. by destruct (_ <? _). Qed.

Lemma plain_name_not_dot name : plain_name name -> name <> bytes_of "." /\ name <> bytes_of "..".
Proof. intros [_ _ Hl]. split; intros ->; by apply Hl. Qed.

Lemma good_short_entry short attr cluster size :
  good_short short -> byte_of (dir_entry short attr cluster size) 0 = byte_of short 0.
Proof. intros [Hl _]. unfold dir_entry, byte_of, zget. cbn. destruct short; [discriminate Hl|]. done. Qed.

(** One entry that is not skipped. *)
Lemma parse_entry short attr cluster size parts rest name :
  good_short short -> u32 cluster -> u32 size -> attr = 0x10 \/ attr = 0x20 -> plain_name name -> entry_name parts short = name ->
  parse (dir_entry short attr cluster size ++ rest) parts = MkDirEntry name (attr =? 0x10) cluster size :: parse rest [].
Proof.
  intros Hg Hc Hs Ha Hn En. rewrite parse_cons by (by apply dir_entry_length, gs_length). unfold parse_step.
  destruct (dir_entry_fields short attr cluster size) as (E1&E2&E3); [by apply gs_length|done..|]. rewrite E1, E2, En, good_short_entry by done.
  destruct (gs_first _ Hg). rewrite !(proj2 (Z.eqb_neq (byte_of short 0) _)) by lia.
  destruct (plain_name_not_dot _ Hn). rewrite !bool_decide_eq_false_2 by done. cbn [orb]. rewrite E3.
  by destruct Ha as [->| ->].
Qed.

(** The entries of one child parse to it. *)
Lemma append_child_spec raw name used short lfn used' is_dir cluster size :
  plain_name name -> validate_component_name_length name = Ok tt -> build_short_and_lfn name used = Ok (short, lfn, used') ->
  u32 cluster -> u32 size -> exists child, append_child_entries raw name short lfn is_dir cluster size = Ok (raw ++ child) /\
    forall rest, parse (child ++ rest) [] = MkDirEntry name is_dir cluster size :: parse rest [].
Proof.
  intros Hn Hv Hb Hc Hs. destruct (build_short_spec _ _ _ _ _ Hb (pn_last _ Hn)) as (Hg&_&_&Hd).
  set (attr := if is_dir then 0x10 else 0x20). assert ((attr =? 0x10) = is_dir) as Ea by (by destruct is_dir).
  assert (attr = 0x10 \/ attr = 0x20) as Hattr by (destruct is_dir; auto).
  unfold append_child_entries. fold attr. destruct lfn; cbn [res_bind].
  - unfold build_lfn_entries. set (units := encode_utf16 name). pose proof (utf16_units _ (pn_scalar _ Hn)) as Hu. fold units in Hu.
    assert (units <> []) as Hne by (by apply utf16_nonempty, pn_some). pose proof (chunks_units _ Hu) as Hcs.
    assert (zlen (slice_chunks 13 units) <= 20) as Hlen.
    { rewrite zlen_chunks by lia. unfold validate_component_name_length in Hv. fold units in Hv. destruct (Z.ltb_spec 255 (zlen units)); [done|].
      Z.div_mod_to_equations. lia. }
    change LFN_CHARS_PER_ENTRY with 13. set (chunks := map pad_units (slice_chunks 13 units)).
    assert (zlen chunks = zlen (slice_chunks 13 units)) as El by (unfold zlen, chunks; by rewrite length_map).
    assert (zlen chunks <> 0) as Hz.
    { rewrite El. rewrite slice_chunks_step by (done || lia). rewrite zlen_cons. pose proof (zlen_nonneg (slice_chunks 13 (zdrop 13 units))). lia. }
    rewrite (proj2 (Z.eqb_neq _ _)) by done. rewrite lfn_from_pieces by lia. cbn [res_bind].
    eexists. split; [done|]. intros rest. rewrite <- app_assoc.
    destruct (lfn_pieces_parts chunks (lfn_checksum short) (zlen chunks) 0) as [Ep Hf]; [lia|lia| |].
    { apply Forall_map. eapply Forall_impl; [exact Hcs|]. intros c [? ?]. by apply pad_units_full. }
    rewrite parse_lfn_entries by (by apply Forall_rev). cbn [app]. rewrite map_rev, Ep. rewrite <- Ea.
    apply parse_entry; [done..|]. unfold chunks. rewrite pieces_name by done. by apply utf16_roundtrip, pn_scalar.
  - eexists. split; [done|]. intros rest. cbn [concat app]. rewrite <- Ea. apply parse_entry; [done..|]. unfold entry_name. cbn. by apply Hd.
Qed.

(** What stands before the children is skipped. *)
Lemma parse_label rest : parse (volume_label_entry ++ rest) [] = parse rest [].
Proof. by rewrite parse_cons by done. Qed.

Lemma parse_dots self parent rest : u32 self -> u32 parent -> parse (dot_entries self parent ++ rest) [] = parse rest [].
Proof.
  intros Hs Hp. unfold dot_entries. rewrite <- app_assoc.
  assert (forall name cluster k, name = DOT \/ name = DOTDOT -> parse (dir_entry name 0x10 cluster 0 ++ k) [] = parse k []) as Hskip.
  { intros name cluster k Hn. rewrite parse_cons by (destruct Hn as [->| ->]; done). unfold parse_step.
    assert (ztake 11 (dir_entry name 0x10 cluster 0) = name) as ->.
    { unfold dir_entry. rewrite ztake_app_le by (destruct Hn as [->| ->]; done). apply ztake_all. by destruct Hn as [->| ->]. }
    by destruct Hn as [->| ->]. }
  by rewrite !Hskip by auto.
Qed.
