(* ===== verification/Fat.v ===== *)
(** * FAT images (fat32.rs): geometry, allocation and assembly

    The builder lays a directory tree out in clusters; [finish] assembles the
    image.  The staging directory on the host is a tree ([Entries]) whose children
    stand in name order, as [read_dir] followed by [sort_by] gives them. *)

From S2P Require Import Prelude Windows FatNames.
From stdpp Require Import base tactics numbers list option strings.
From Stdlib Require Import ZArith Lia.

Open Scope Z_scope.

(** ** Geometry *)

Inductive FatType := Fat16 | Fat32.
#[export] Instance FatType_eq_dec : EqDecision FatType.
Proof. solve_decision. Defined.

Record Layout := {
  fat_type : FatType;
  bytes_per_sector : Z;
  sectors_per_cluster : Z;
  reserved_sectors : Z;
  num_fats : Z;
  root_entry_count : Z;
  total_sectors : Z;
  hidden_sectors : Z;
  volume_id : Z;
  fat_size_sectors : Z;
}.
#[export] Instance eta_layout : Eta Layout := fun l =>
  Build_Layout (fat_type l) (bytes_per_sector l) (sectors_per_cluster l) (reserved_sectors l) (num_fats l) (root_entry_count l)
    (total_sectors l) (hidden_sectors l) (volume_id l) (fat_size_sectors l).

Definition div_ceil (x y : Z) : Z := (x + y - 1) / y.

Definition root_dir_sectors (l : Layout) : Z := div_ceil (root_entry_count l * 32) (bytes_per_sector l).
Definition first_fat_sector (l : Layout) : Z := reserved_sectors l.
Definition first_root_dir_sector (l : Layout) : Z := first_fat_sector l + num_fats l * fat_size_sectors l.
Definition first_data_sector (l : Layout) : Z := first_root_dir_sector l + root_dir_sectors l.
Definition bytes_per_cluster (l : Layout) : Z := bytes_per_sector l * sectors_per_cluster l.
Definition cluster_offset (l : Layout) (cluster : Z) : Z :=
  (first_data_sector l + (cluster - 2) * sectors_per_cluster l) * bytes_per_sector l.
Definition data_sectors (l : Layout) : Z := saturating_sub (total_sectors l) (first_data_sector l).
Definition layout_max_clusters (l : Layout) : Z := data_sectors l / sectors_per_cluster l.
Definition fat_region_len (l : Layout) : Z := fat_size_sectors l * bytes_per_sector l.

Definition validate_efi_geometry (part_bytes sector_size : Z) : res EfiError unit :=
  if negb (existsb (Z.eqb sector_size) [512; 1024; 2048; 4096]) || (part_bytes =? 0) || negb (part_bytes mod sector_size =? 0)
  then Err BadGeometry else Ok tt.

Definition choose_target (total_bytes : Z) : Z :=
  let gb := 1024 * 1024 * 1024 in
  if total_bytes <? 64 * 1024 * 1024 then 512
  else if total_bytes <? 128 * 1024 * 1024 then 1024
  else if total_bytes <? 256 * 1024 * 1024 then 2048
  else if total_bytes <? 8 * gb then 4096
  else if total_bytes <? 16 * gb then 8192
  else if total_bytes <? 32 * gb then 16384
  else 32768.

(** Doubling stops at 128: seven turns are enough. *)
Fixpoint double_up (fuel : nat) (raw spc : Z) : Z :=
  match fuel with
  | O => spc
  | S fuel => if (spc * 2 <=? raw) && (spc <? 128) then double_up fuel raw (spc * 2) else spc
  end.

Definition choose_spc_fat32 (total_sectors bytes_per_sector : Z) : Z :=
  let total_bytes := Z.min (total_sectors * bytes_per_sector) (2 ^ 64 - 1) in
  double_up 8 (Z.max (choose_target total_bytes / bytes_per_sector) 1) 1.

Definition fat_entry_size (t : FatType) : Z := match t with Fat16 => 2 | Fat32 => 4 end.

(** The size the FAT needs when it takes [fat_size] sectors; [None] when nothing
    is left for data. *)
Definition needed_fat_size (l : Layout) (fat_size : Z) : option Z :=
  let overhead := reserved_sectors l + root_dir_sectors l + num_fats l * fat_size in
  if total_sectors l <=? overhead then None else
  let count_of_clusters := (total_sectors l - overhead) / sectors_per_cluster l in
  Some (Z.max (div_ceil ((count_of_clusters + 2) * fat_entry_size (fat_type l)) (bytes_per_sector l)) 1).

Definition u32_try (x : Z) (e : EfiError) : res EfiError Z := if x <? 2 ^ 32 then Ok x else Err e.

Fixpoint fat_size_from (turns : nat) (l : Layout) (fat_size : Z) : res EfiError Z :=
  match turns with
  | O => u32_try fat_size FatSizeTooLarge
  | S turns =>
      let? needed := ok_or (needed_fat_size l fat_size) PartitionTooSmall in
      if needed =? fat_size then u32_try fat_size FatSizeTooLarge else fat_size_from turns l needed
  end.

Definition compute_fat_size (l : Layout) : res EfiError Z := fat_size_from 64 l 1.

(** ** The allocation table *)

Definition fat_eoc (t : FatType) : Z := match t with Fat16 => 0xffff | Fat32 => 0x0fff_ffff end.
Definition fat_is_eoc (t : FatType) (value : Z) : bool := match t with Fat16 => 0xfff8 <=? value | Fat32 => 0x0fff_fff8 <=? value end.

Definition fat_get (fat : bytes) (index : Z) (t : FatType) : res EfiError Z :=
  let off := index * fat_entry_size t in
  match t with
  | Fat16 => let? b := slice fat off (off + 2) in Ok (le_val b)
  | Fat32 => let? b := slice fat off (off + 4) in Ok (Z.land (le_val b) 0x0fff_ffff)
  end.

Definition fat_set (fat : bytes) (index value : Z) (t : FatType) : res EfiError bytes :=
  let off := index * fat_entry_size t in
  match t with
  | Fat16 => copy_at fat off (le_bytes 2 (wrap 16 value))
  | Fat32 => copy_at fat off (le_bytes 4 (Z.land value 0x0fff_ffff))
  end.

(** ** The builder *)

Record Builder := {
  layout : Layout;
  fat : bytes;
  data : bytes;
  next_cluster : Z;
  max_clusters : Z;
}.
#[export] Instance eta_builder : Eta Builder := fun b => Build_Builder (layout b) (fat b) (data b) (next_cluster b) (max_clusters b).

Definition ftype (b : Builder) : FatType := fat_type (layout b).

Definition new_builder (l : Layout) : res EfiError Builder :=
  let? max_clusters := u32_try (layout_max_clusters l) PartitionTooLarge in
  if max_clusters <? 1 then Err NoDataArea else
  let? fat := fat_set (zeros (fat_region_len l)) 0 0x0fff_fff8 (fat_type l) in
  let? fat := fat_set fat 1 (fat_eoc (fat_type l)) (fat_type l) in
  Ok {| layout := l; fat := fat; data := zeros (bytes_per_cluster l * max_clusters); next_cluster := 2; max_clusters := max_clusters |}.

(** [cluster_bytes_mut(cluster)[..src.len()].copy_from_slice(src)] *)
Definition write_cluster (b : Builder) (cluster : Z) (src : bytes) : res EfiError Builder :=
  let cbytes := bytes_per_cluster (layout b) in
  if cluster <? 2 then Panic else
  let start := (cluster - 2) * cbytes in
  let? dst := slice (data b) start (start + cbytes) in
  let? dst := copy_at dst 0 src in
  let? data' := copy_at (data b) start dst in
  Ok (b <| data := data' |>).

Definition set_fat (b : Builder) (index value : Z) : res EfiError Builder :=
  let? fat' := fat_set (fat b) index value (ftype b) in Ok (b <| fat := fat' |>).

(** [let c = self.next_cluster; self.next_cluster += 1] *)
Definition take_cluster (b : Builder) : res EfiError (Builder * Z) :=
  let? next := add_or_panic 32 (next_cluster b) 1 in Ok (b <| next_cluster := next |>, next_cluster b).

Definition reserve_head (b : Builder) : res EfiError (Builder * Z) :=
  let? limit := add_or_panic 32 (max_clusters b) 1 in
  if limit <? next_cluster b then Err OutOfSpaceForTree else
  let? (b, c) := take_cluster b in
  let? b := set_fat b c (fat_eoc (ftype b)) in
  Ok (b, c).

(** The last of [needed] new clusters lies in the data area. *)
Definition has_room (b : Builder) (needed : Z) : res EfiError bool :=
  match checked_add 32 (next_cluster b) (needed - 1) with
  | Some last => let? limit := add_or_panic 32 (max_clusters b) 1 in Ok (last <=? limit)
  | None => Ok false
  end.

(** [n] new clusters, each linked from the one before. *)
Fixpoint link_clusters (n : nat) (prev : option Z) (b : Builder) : res EfiError (Builder * option Z) :=
  match n with
  | O => Ok (b, prev)
  | S n =>
      let? (b, c) := take_cluster b in
      let? b := match prev with Some p => set_fat b p c | None => Ok b end in
      link_clusters n (Some c) b
  end.

Definition alloc_chain (b : Builder) (needed : Z) : res EfiError (Builder * Z) :=
  if needed =? 0 then Err OutOfSpaceForFiles else
  let? room := has_room b needed in
  if negb room then Err OutOfSpaceForFiles else
  let head := next_cluster b in
  let? (b, prev) := link_clusters (Z.to_nat needed) None b in
  let? last := or_panic prev in
  let? b := set_fat b last (fat_eoc (ftype b)) in
  Ok (b, head).

(** A turn per piece; [next] is read on every turn, the last included. *)
Fixpoint write_pieces (b : Builder) (cluster : Z) (pieces : list bytes) : res EfiError Builder :=
  match pieces with
  | [] => Ok b
  | piece :: pieces =>
      let? next := fat_get (fat b) cluster (ftype b) in
      let? b := write_cluster b cluster piece in
      write_pieces b next pieces
  end.

(** The pieces of the loop: nothing at all still makes one turn. *)
Definition pieces_of (cbytes : Z) (content : bytes) : list bytes :=
  match content with [] => [[]] | _ => slice_chunks cbytes content end.

Definition write_chain (b : Builder) (head : Z) (content : bytes) : res EfiError Builder :=
  write_pieces b head (pieces_of (bytes_per_cluster (layout b)) content).

Definition write_file (b : Builder) (content : bytes) : res EfiError (Builder * Z) :=
  match content with
  | [] => Ok (b, 0)
  | _ =>
      let cbytes := bytes_per_cluster (layout b) in
      let? needed := u32_try (div_ceil (zlen content) cbytes) FileTooManyClusters in
      let? (b, head) := alloc_chain b needed in
      let? b := write_chain b head content in
      Ok (b, head)
  end.

Definition extend_dir (b : Builder) (head extra : Z) : res EfiError Builder :=
  let? extra := u32_try extra DirectoryTooManyClusters in
  let? room := has_room b extra in
  if negb room then Err OutOfSpaceForTree else
  let first_extra := next_cluster b in
  let? b := set_fat b head first_extra in
  let? (b, _) := take_cluster b in
  let? (b, prev) := link_clusters (Z.to_nat (extra - 1)) (Some first_extra) b in
  let? prev := or_panic prev in
  set_fat b prev (fat_eoc (ftype b)).

Definition extend_and_write_dir (b : Builder) (head : Z) (content : bytes) : res EfiError Builder :=
  let cbytes := bytes_per_cluster (layout b) in
  let needed := Z.max (div_ceil (Z.max (zlen content) 1) cbytes) 1 in
  let extra := needed - 1 in
  let? b := if 0 <? extra then extend_dir b head extra else Ok b in
  write_chain b head content.

(** ** The directory tree *)

Inductive Entries :=
| NoMore
| AFile (name : text) (content : bytes) (rest : Entries)
| ADir (name : text) (children rest : Entries).

Definition header_of (is_root : bool) (self_cluster parent_cluster : Z) : bytes :=
  if is_root then volume_label_entry else dot_entries self_cluster parent_cluster.
Definition used_at_first (is_root : bool) : list bytes := if is_root then [VOLUME_LABEL] else [DOTDOT; DOT].

(** The loop of [encode_dir] over the children: [raw] is what the directory holds
    so far, [used] its short names. *)
Fixpoint encode_children (b : Builder) (children : Entries) (self_cluster : Z) (is_root : bool) (raw : bytes) (used : list bytes)
    : res EfiError (Builder * bytes) :=
  match children with
  | NoMore => Ok (b, raw)
  | ADir name sub rest =>
      let? _ := validate_component_name_length name in
      let? (short, needs_lfn, used) := build_short_and_lfn name used in
      let? (b, child_cluster) := reserve_head b in
      let dotdot := if is_root then 0 else self_cluster in
      let? (b, child_raw) := encode_children b sub child_cluster false (header_of false child_cluster dotdot) (used_at_first false) in
      let? b := extend_and_write_dir b child_cluster child_raw in
      let? raw := append_child_entries raw name short needs_lfn true child_cluster 0 in
      encode_children b rest self_cluster is_root raw used
  | AFile name content rest =>
      let? _ := validate_component_name_length name in
      let? (short, needs_lfn, used) := build_short_and_lfn name used in
      let? size := u32_try (zlen content) FileTooLarge in
      let? (b, cluster) := write_file b content in
      let? raw := append_child_entries raw name short needs_lfn false cluster size in
      encode_children b rest self_cluster is_root raw used
  end.

Definition encode_dir (b : Builder) (children : Entries) (self_cluster parent_cluster : Z) (is_root : bool) : res EfiError (Builder * bytes) :=
  encode_children b children self_cluster is_root (header_of is_root self_cluster parent_cluster) (used_at_first is_root).
