(* ===== verification/FatProps.v ===== *)
(** * The FAT builder

    What the allocator and the directory encoder leave in the table and in the
    clusters: every stored piece of content is a chain of its own clusters, and
    what is done later leaves it alone. *)

From S2P Require Import Prelude Windows FatNames FatNamesProps Fat.
From stdpp Require Import base tactics numbers list option strings.
From Stdlib Require Import ZArith Lia.

Open Scope Z_scope.

(** ** The table *)

(** Values that can stand in the table and do not mark the end of a chain. *)
Definition fat_limit (t : FatType) : Z := match t with Fat16 => 0xfff8 | Fat32 => 0x0fff_fff8 end.
Definition fat_mask (t : FatType) : Z := match t with Fat16 => 0xffff | Fat32 => 0x0fff_ffff end.

Lemma fat_is_eoc_limit t v : fat_is_eoc t v = (fat_limit t <=? v).
Proof. by destruct t. Qed.

Lemma fat_get_set_same fat i v t fat' :
  fat_set fat i v t = Ok fat' -> 0 <= v <= fat_mask t -> fat_get fat' i t = Ok v.
Proof.
  intros Hs Hv. unfold fat_set, fat_get in *. destruct t; cbn [fat_entry_size fat_mask] in *.
  - pose proof (part_copy_same _ _ _ _ Hs) as Hp. apply copy_at_inv in Hs as (H0&H1&H2&_). rewrite zlen_le_bytes in *.
    rewrite slice_ok by lia. cbn [res_bind]. replace (i * 2 + 2 - i * 2) with (Z.of_nat 2) by lia. rewrite Hp.
    rewrite wrap_small by (unfold in_range; lia). rewrite le_val_le_bytes, Z.mod_small by lia. done.
  - pose proof (part_copy_same _ _ _ _ Hs) as Hp. apply copy_at_inv in Hs as (H0&H1&H2&_). rewrite zlen_le_bytes in *.
    rewrite slice_ok by lia. cbn [res_bind]. replace (i * 4 + 4 - i * 4) with (Z.of_nat 4) by lia. rewrite Hp.
    change 0x0fff_ffff with (2 ^ 28 - 1) in *. rewrite !land_low by lia. rewrite le_val_le_bytes.
    rewrite (Z.mod_small v) by lia. rewrite (Z.mod_small v (2 ^ (8 * Z.of_nat 4))) by lia. by rewrite Z.mod_small by lia.
Qed.

Lemma fat_get_set_other fat i j v t fat' :
  fat_set fat i v t = Ok fat' -> 0 <= j -> i <> j -> fat_get fat' j t = fat_get fat j t.
Proof.
  intros Hs Hj Hij. unfold fat_set, fat_get in *. destruct t; cbn [fat_entry_size] in *.
  - pose proof (part_copy_other _ _ _ _ (j * 2) 2 Hs) as Hp. apply copy_at_inv in Hs as (H0&H1&H2&_). rewrite zlen_le_bytes in *.
    unfold slice, get_range. rewrite H2. replace (j * 2 + 2 - j * 2) with 2 by lia. by rewrite Hp by lia.
  - pose proof (part_copy_other _ _ _ _ (j * 4) 4 Hs) as Hp. apply copy_at_inv in Hs as (H0&H1&H2&_). rewrite zlen_le_bytes in *.
    unfold slice, get_range. rewrite H2. replace (j * 4 + 4 - j * 4) with 4 by lia. by rewrite Hp by lia.
Qed.

Lemma fat_set_zlen fat i v t fat' : fat_set fat i v t = Ok fat' -> zlen fat' = zlen fat.
Proof. unfold fat_set. destruct t; intros (_&_&?&_)%copy_at_inv; done. Qed.

(** ** Builders *)

Definition cbytes (b : Builder) : Z := bytes_per_cluster (layout b).
Definition link (b : Builder) (c : Z) : res EfiError Z := fat_get (fat b) c (ftype b).
Definition cluster_of (b : Builder) (c : Z) : bytes := ztake (cbytes b) (zdrop ((c - 2) * cbytes b) (data b)).

Record builder_ok (b : Builder) : Prop := {
  bo_cbytes : 1 <= cbytes b;
  bo_data : zlen (data b) = cbytes b * max_clusters b;
  bo_next : 2 <= next_cluster b <= max_clusters b + 2;
  bo_limit : max_clusters b + 1 < fat_limit (ftype b);
  bo_fresh c : next_cluster b <= c <= max_clusters b + 1 -> cluster_of b c = zeros (cbytes b);
}.

Definition sized (b : Builder) : Prop := 1 <= cbytes b /\ zlen (data b) = cbytes b * max_clusters b.

Lemma builder_sized b : builder_ok b -> sized b.
Proof. by intros []. Qed.

(** [b'] is [b] with only the clusters of [P] and the next cluster changed. *)
Record grows (P : Z -> Prop) (b b' : Builder) : Prop := {
  gr_layout : layout b' = layout b;
  gr_max : max_clusters b' = max_clusters b;
  gr_fat : zlen (fat b') = zlen (fat b);
  gr_data : zlen (data b') = zlen (data b);
  gr_link c : 0 <= c -> ~ P c -> link b' c = link b c;
  gr_cluster c : 2 <= c <= max_clusters b + 1 -> ~ P c -> cluster_of b' c = cluster_of b c;
}.

Lemma grows_self P b : grows P b b.
Proof. by split. Qed.

Lemma grows_trans P Q b b' b'' : grows P b b' -> grows Q b' b'' -> grows (fun c => P c \/ Q c) b b''.
Proof.
  intros [] []. split; try congruence.
  - intros c Hc Hn. rewrite gr_link1, gr_link0; tauto.
  - intros c Hc Hn. rewrite gr_cluster1, gr_cluster0; try tauto. by rewrite gr_max0.
Qed.

Lemma grows_weaken (P Q : Z -> Prop) b b' : grows P b b' -> (forall c, P c -> Q c) -> grows Q b b'.
Proof. intros [] HPQ. split; eauto. Qed.

Lemma grows_cbytes P b b' : grows P b b' -> cbytes b' = cbytes b.
Proof. intros []. unfold cbytes. congruence. Qed.

Lemma grows_ftype P b b' : grows P b b' -> ftype b' = ftype b.
Proof. intros []. unfold ftype. congruence. Qed.

Lemma grows_sized P b b' : grows P b b' -> sized b -> sized b'.
Proof. intros Hg [H1 H2]. unfold sized. rewrite (grows_cbytes _ _ _ Hg). destruct Hg. split; congruence. Qed.

Ltac builder_fields := unfold set_field in *; cbn [layout fat data next_cluster max_clusters] in *.

Lemma set_fat_spec b i v b' :
  set_fat b i v = Ok b' -> 0 <= v <= fat_mask (ftype b) ->
  grows (fun c => c = i) b b' /\ link b' i = Ok v /\ next_cluster b' = next_cluster b /\ data b' = data b.
Proof.
  unfold set_fat. destruct (fat_set (fat b) i v (ftype b)) as [fat'| |] eqn:E; [|done..]. cbn [res_bind]. intros [= <-] Hv.
  builder_fields. split_and!; [|by apply (fat_get_set_same _ _ _ _ _ E)|done..].
  split; builder_fields; try done; [by apply fat_set_zlen in E|]. intros c Hc Hn. unfold link, ftype. builder_fields.
  apply (fat_get_set_other _ _ _ _ _ _ E); [done|]. congruence.
Qed.

Lemma take_cluster_spec b b' c :
  take_cluster b = Ok (b', c) -> c = next_cluster b /\ next_cluster b' = c + 1 /\ fat b' = fat b /\ data b' = data b /\
    layout b' = layout b /\ max_clusters b' = max_clusters b.
Proof.
  unfold take_cluster, add_or_panic, checked_add. destruct (_ <? _); [|done]. cbn [or_panic res_bind]. intros [= <- <-]. done.
Qed.

Lemma take_cluster_grows P b b' c : take_cluster b = Ok (b', c) -> grows P b b'.
Proof. intros (_&_&F&D&L&M)%take_cluster_spec. split; try congruence; intros; unfold link, cluster_of, cbytes, ftype; congruence. Qed.

Lemma write_cluster_spec b c src b' :
  write_cluster b c src = Ok b' -> sized b ->
  grows (fun x => x = c) b b' /\ next_cluster b' = next_cluster b /\ fat b' = fat b /\ 2 <= c <= max_clusters b + 1 /\
  zlen src <= cbytes b /\ cluster_of b' c = src ++ zdrop (zlen src) (cluster_of b c).
Proof.
  intros Hw [Hcb Hd]. unfold write_cluster in Hw. fold (cbytes b) in Hw. destruct (Z.ltb_spec c 2) as [|Hc]; [done|].
  destruct (slice (data b) ((c - 2) * cbytes b) ((c - 2) * cbytes b + cbytes b)) as [dst| |] eqn:E1; [|done..]. cbn [res_bind] in Hw.
  destruct (copy_at dst 0 src) as [dst'| |] eqn:E2; [|done..]. cbn [res_bind] in Hw.
  destruct (copy_at (data b) ((c - 2) * cbytes b) dst') as [data'| |] eqn:E3; [|done..]. cbn [res_bind] in Hw. injection Hw as <-.
  apply slice_inv in E1 as (_&Hr&Edst). replace (_ - _) with (cbytes b) in Edst by lia. fold (cluster_of b c) in Edst.
  assert (0 <= (c - 2) * cbytes b) by nia.
  assert (zlen dst = cbytes b) as Hdl by (rewrite Edst; unfold cluster_of; rewrite zlen_ztake, zlen_zdrop; lia).
  apply copy_at_inv in E2 as (_&Hs&Hl&Ed'). cbn [ztake] in Ed'. change (ztake 0 dst) with (@nil Z) in Ed'. rewrite Z.add_0_l in Ed'. cbn [app] in Ed'.
  pose proof (part_copy_same _ _ _ _ E3) as Hp. pose proof (fun lo n => part_copy_other _ _ _ _ lo n E3) as Ho.
  apply copy_at_inv in E3 as (_&Hr3&Hl3&_). rewrite Hl, Hdl in *.
  split_and!; builder_fields; try done; [|nia|].
  - split; builder_fields; try done. intros x Hx Hn. unfold cluster_of, cbytes. builder_fields. fold (cbytes b). apply Ho; nia.
  - unfold cluster_of at 1, cbytes. builder_fields. fold (cbytes b). by rewrite Hp, Ed', Edst.
Qed.

(** ** Chains *)

Fixpoint links (b : Builder) (cs : list Z) : Prop :=
  match cs with
  | c :: (c' :: _) as rest => link b c = Ok c' /\ links b rest
  | _ => True
  end.

Definition linked (b : Builder) (cs : list Z) : Prop :=
  links b cs /\ exists c, last cs = Some c /\ link b c = Ok (fat_eoc (ftype b)).

Lemma links_grows P b b' cs : grows P b b' -> Forall (fun c => 0 <= c /\ ~ P c) cs -> links b cs -> links b' cs.
Proof.
  intros Hg. induction cs as [|c [|c' cs] IH]; intros Hf Hl; [done..|]. apply Forall_cons in Hf as [[Hc Hn] Hf].
  destruct Hl as [E Hl]. split; [by rewrite (gr_link _ _ _ Hg)|by apply IH].
Qed.

Lemma linked_grows P b b' cs : grows P b b' -> Forall (fun c => 0 <= c /\ ~ P c) cs -> linked b cs -> linked b' cs.
Proof.
  intros Hg Hf [Hl (c&Ec&El)]. split; [by eapply links_grows|]. exists c. split; [done|].
  rewrite (grows_ftype _ _ _ Hg). apply last_Some_elem_of in Ec. rewrite Forall_forall in Hf. destruct (Hf c Ec). by rewrite (gr_link _ _ _ Hg).
Qed.

(** Marking the end of a chain keeps its links. *)
Lemma links_mark_last b b' c cs :
  grows (fun x => x = c) b b' -> last cs = Some c -> NoDup cs -> Forall (fun x => 0 <= x) cs -> links b cs -> links b' cs.
Proof.
  intros Hg. induction cs as [|x [|y cs] IH]; intros Hlast Hn H0 Hl; [done..|]. destruct Hl as [El Hl].
  apply NoDup_cons in Hn as [Hnin Hn]. apply Forall_cons in H0 as [Hx H0]. split; [|by apply IH].
  rewrite (gr_link _ _ _ Hg); [done|done|]. intros ->. apply Hnin. by apply last_Some_elem_of.
Qed.

Lemma link_clusters_spec n : forall prev b b' l,
  link_clusters n prev b = Ok (b', l) -> 2 <= next_cluster b -> next_cluster b + Z.of_nat n - 1 <= fat_mask (ftype b) ->
  match prev with Some p => 0 <= p < next_cluster b | None => True end ->
  grows (fun c => prev = Some c \/ next_cluster b <= c < next_cluster b + Z.of_nat n) b b' /\
  next_cluster b' = next_cluster b + Z.of_nat n /\ data b' = data b /\
  links b' (option_list prev ++ seqZ (next_cluster b) (Z.of_nat n)) /\ l = last (option_list prev ++ seqZ (next_cluster b) (Z.of_nat n)).
Proof.
  induction n as [|n IH]; intros prev b b' l Hl Hn Hm Hp; cbn [link_clusters] in Hl.
  { injection Hl as <- <-. split_and!; [apply grows_self|lia|done|by destruct prev|by destruct prev]. }
  destruct (take_cluster b) as [[b1 c]| |] eqn:E1; [|done..]. cbn [res_bind] in Hl.
  pose proof (fun Q => take_cluster_grows Q _ _ _ E1) as G1. apply take_cluster_spec in E1 as (->&N1&F1&D1&L1&M1).
  replace (Z.of_nat (S n)) with (Z.of_nat n + 1) in * by lia.
  assert (seqZ (next_cluster b) (Z.of_nat n + 1) = next_cluster b :: seqZ (next_cluster b + 1) (Z.of_nat n)) as Es.
  { rewrite seqZ_cons by lia. do 2 f_equal; lia. }
  rewrite Es. set (c := next_cluster b) in *.
  destruct prev as [p|].
  - destruct (set_fat b1 p c) as [b2| |] eqn:E2; [|done..]. cbn [res_bind] in Hl.
    assert (ftype b1 = ftype b) as T1 by (unfold ftype; congruence).
    apply set_fat_spec in E2 as (G2&K2&N2&D2); [|rewrite T1; lia].
    apply IH in Hl as (G3&N3&D3&K3&->); [|lia|rewrite (grows_ftype _ _ _ G2), T1; lia|lia].
    rewrite N2, N1 in *. split_and!.
    + eapply grows_weaken; [eapply grows_trans; [apply (G1 (fun _ => False))|eapply grows_trans; [exact G2|exact G3]]|]. cbv beta. intros x. naive_solver lia.
    + lia.
    + congruence.
    + cbn [option_list app]. cbn [links]. split; [|exact K3]. rewrite (gr_link _ _ _ G3); [done|lia|]. intros [[=]|?]; lia.
    + done.
  - cbn [res_bind] in Hl. apply IH in Hl as (G3&N3&D3&K3&->); [|lia|unfold ftype in *; rewrite L1; lia|lia].
    rewrite N1 in *. split_and!.
    + eapply grows_weaken; [eapply grows_trans; [apply (G1 (fun _ => False))|exact G3]|]. cbv beta. intros x. naive_solver lia.
    + lia.
    + congruence.
    + exact K3.
    + done.
Qed.

(** [content] is what the chain [cs] of clusters between [lo] and [hi] holds,
    zeros after it. *)
Record holds (lo hi : Z) (b : Builder) (cs : list Z) (content : bytes) : Prop := {
  hd_range : Forall (fun c => lo <= c < hi) cs;
  hd_nodup : NoDup cs;
  hd_linked : linked b cs;
  hd_content : exists k, concat (map (cluster_of b) cs) = content ++ zeros k;
}.

Lemma holds_grows P lo hi b b' cs content :
  grows P b b' -> 2 <= lo -> hi <= max_clusters b + 2 -> (forall c, lo <= c < hi -> ~ P c) ->
  holds lo hi b cs content -> holds lo hi b' cs content.
Proof.
  intros Hg Hlo Hhi HP [Hr Hn Hl Hc]. split; [done|done|..].
  - eapply linked_grows; [done| |done]. eapply Forall_impl; [exact Hr|]. intros c Hc'. cbv beta in Hc'. split; [lia|by apply HP].
  - destruct Hc as [k Hk]. exists k. rewrite <- Hk. f_equal. apply map_ext_in. intros c Hin%list_elem_of_In.
    rewrite Forall_forall in Hr. specialize (Hr c Hin). apply (gr_cluster _ _ _ Hg); [lia|by apply HP].
Qed.

Lemma holds_weaken lo hi lo' hi' b cs content : holds lo hi b cs content -> lo' <= lo -> hi <= hi' -> holds lo' hi' b cs content.
Proof. intros [Hr ? ? ?] H1 H2. split; [|done..]. eapply Forall_impl; [exact Hr|]. intros c Hc. cbv beta in *. lia. Qed.

Definition padded (n : Z) (p : bytes) : bytes := p ++ zeros (n - zlen p).

Lemma zdrop_zeros n m : 0 <= m -> zdrop m (zeros n) = zeros (n - m).
Proof. intros Hm. unfold zdrop, zeros. rewrite drop_replicate. f_equal. lia. Qed.

(** Writing pieces along a chain of clusters that are still zero. *)
Lemma write_pieces_spec pieces : forall c cs b b',
  write_pieces b c pieces = Ok b' -> sized b -> links b (c :: cs) -> NoDup (c :: cs) -> length pieces = S (length cs) ->
  Forall (fun x => 2 <= x <= max_clusters b + 1 /\ cluster_of b x = zeros (cbytes b)) (c :: cs) ->
  grows (fun x => x ∈ c :: cs) b b' /\ next_cluster b' = next_cluster b /\
  map (cluster_of b') (c :: cs) = map (padded (cbytes b)) pieces /\ link b' c = link b c /\ fat b' = fat b.
Proof.
  induction pieces as [|p pieces IH]; intros c cs b b' Hw Hs Hl Hn Hlen H0; [done|]. cbn [write_pieces] in Hw.
  destruct (fat_get (fat b) c (ftype b)) as [next| |] eqn:En; [|done..]. cbn [res_bind] in Hw.
  destruct (write_cluster b c p) as [b1| |] eqn:E1; [|done..]. cbn [res_bind] in Hw. apply Forall_cons in H0 as [[Hc0 Hz] H0].
  apply write_cluster_spec in E1 as (G1&N1&F1&R1&L1&C1); [|done]. rewrite Hz, zdrop_zeros in C1 by apply zlen_nonneg.
  assert (link b1 c = link b c) as K1 by (unfold link, ftype; by rewrite F1, (gr_layout _ _ _ G1)).
  destruct cs as [|c' cs].
  { destruct pieces; [|done]. injection Hw as <-. split_and!; [|done|cbn; by rewrite C1|done|done].
    eapply grows_weaken; [exact G1|]. intros x ->. apply list_elem_of_here. }
  destruct Hl as [El Hl]. unfold link in El. rewrite En in El. injection El as ->. apply NoDup_cons in Hn as [Hnin Hn].
  assert (Forall (fun x => 0 <= x /\ x <> c) (c' :: cs)) as Hne.
  { apply Forall_forall. intros x Hx. rewrite Forall_forall in H0. destruct (H0 x Hx). split; [lia|]. intros ->. done. }
  apply (IH c' cs) in Hw as (G2&N2&C2&K2&F2); [|by eapply grows_sized|by eapply links_grows|done|by injection Hlen|].
  - rewrite (grows_cbytes _ _ _ G1) in C2. split_and!.
    + eapply grows_weaken; [eapply grows_trans; [exact G1|exact G2]|]. intros x [->|Hx]; [apply list_elem_of_here|by apply list_elem_of_further].
    + congruence.
    + rewrite !(map_cons _ c), !(map_cons _ p). f_equal; [|exact C2]. rewrite (gr_cluster _ _ _ G2); [done| |done]. by rewrite (gr_max _ _ _ G1).
    + rewrite (gr_link _ _ _ G2); [done|lia|done].
    + congruence.
  - rewrite (grows_cbytes _ _ _ G1), (gr_max _ _ _ G1). apply Forall_forall. intros x Hx. rewrite Forall_forall in H0, Hne.
    destruct (H0 x Hx), (Hne x Hx). split; [done|]. by rewrite (gr_cluster _ _ _ G1).
Qed.

(** ** Files *)

(** The pieces of some content, padded to clusters, are the content and zeros. *)
Lemma pieces_padded n content : 1 <= n ->
  (exists k, concat (map (padded n) (pieces_of n content)) = content ++ zeros k) /\
  zlen (pieces_of n content) = Z.max (div_ceil (zlen content) n) 1.
Proof.
  intros Hn. unfold pieces_of, div_ceil. destruct content as [|x content].
  { split; [exists n; cbn; unfold padded; rewrite app_nil_r; cbn; f_equal; change (zlen []) with 0; lia|].
    change (zlen [[]]) with 1. change (zlen []) with 0. rewrite Z.div_small by lia. done. }
  set (l := x :: content). assert (l <> []) as Hl by done. clearbody l. split.
  - induction l as [|l Hne IH] using (slice_chunks_ind n Hn); [done|]. rewrite slice_chunks_step by done. cbn [map concat].
    destruct (decide (zlen l <= n)) as [Hle|Hgt].
    + rewrite ztake_all, zdrop_all by done. exists (n - zlen l). cbn. by rewrite app_nil_r.
    + destruct IH as [k Hk]; [intros E; apply (f_equal zlen) in E; rewrite zlen_zdrop in E; change (zlen []) with 0 in E; lia|].
      exists k. rewrite Hk. unfold padded. rewrite zlen_ztake. replace (n - Z.max 0 (Z.min n (zlen l))) with 0 by lia.
      change (zeros 0) with (@nil Z). rewrite app_nil_r, app_assoc. by rewrite ztake_zdrop.
  - rewrite zlen_chunks by done. assert (0 < zlen l) by (destruct l; [done|rewrite zlen_cons; pose proof (zlen_nonneg l); lia]).
    assert (1 <= (zlen l + n - 1) / n) by (apply Z.div_le_lower_bound; lia). lia.
Qed.

Lemma div_ceil_pos x content n : 1 <= n -> 1 <= div_ceil (zlen (x :: content : bytes)) n.
Proof. intros Hn. unfold div_ceil. rewrite zlen_cons. pose proof (zlen_nonneg content). apply Z.div_le_lower_bound; lia. Qed.

(** A directory takes a cluster even when it is empty. *)
Lemma clusters_needed (content : bytes) n : 1 <= n -> Z.max (div_ceil (Z.max (zlen content) 1) n) 1 = Z.max (div_ceil (zlen content) n) 1.
Proof.
  intros Hn. unfold div_ceil. pose proof (zlen_nonneg content). destruct (decide (zlen content = 0)) as [->|]; [|by rewrite (Z.max_l (zlen content)) by lia].
  change (Z.max 0 1) with 1. rewrite (Z.div_small (0 + _ - 1)) by lia. replace (1 + n - 1) with n by lia. by rewrite Z.div_same by lia.
Qed.

Lemma fat_eoc_mask t : 0 <= fat_eoc t <= fat_mask t.
Proof. destruct t; cbn; lia. Qed.

Lemma fat_limit_mask t : fat_limit t <= fat_mask t < 2 ^ 28.
Proof. destruct t; cbn; lia. Qed.

Lemma last_app_nonempty {A} (l k : list A) : k <> [] -> last (l ++ k) = last k.
Proof. intros Hk. destruct (last k) as [x|] eqn:E; [|by apply last_None in E]. rewrite last_app, E. done. Qed.

(** The free clusters of a grown builder. *)
Lemma grown_ok b b' P :
  builder_ok b -> grows P b b' -> (forall c, P c -> c < next_cluster b') -> next_cluster b <= next_cluster b' <= max_clusters b + 2 ->
  builder_ok b'.
Proof.
  intros Hok Hg HP Hn. destruct Hok as [H1 H2 H3 H4 H5]. split.
  - by rewrite (grows_cbytes _ _ _ Hg).
  - by rewrite (gr_data _ _ _ Hg), (grows_cbytes _ _ _ Hg), (gr_max _ _ _ Hg).
  - rewrite (gr_max _ _ _ Hg). lia.
  - by rewrite (gr_max _ _ _ Hg), (grows_ftype _ _ _ Hg).
  - intros c Hc. rewrite (gr_max _ _ _ Hg) in Hc. rewrite (grows_cbytes _ _ _ Hg), (gr_cluster _ _ _ Hg); [apply H5; lia|lia|].
    intros HPc%HP. lia.
Qed.

Lemma has_room_true b n : has_room b n = Ok true -> next_cluster b + (n - 1) <= max_clusters b + 1.
Proof.
  unfold has_room, checked_add, add_or_panic. destruct (_ <? _); [|done]. unfold checked_add. destruct (_ <? _); [|done].
  cbn [or_panic res_bind]. intros [= H]. bools. done.
Qed.

Lemma alloc_chain_spec b needed b' head :
  alloc_chain b needed = Ok (b', head) -> builder_ok b -> 0 <= needed ->
  0 < needed /\ head = next_cluster b /\ next_cluster b' = next_cluster b + needed /\ next_cluster b' <= max_clusters b + 2 /\
  data b' = data b /\ linked b' (seqZ head needed) /\ grows (fun c => next_cluster b <= c < next_cluster b + needed) b b'.
Proof.
  unfold alloc_chain. intros Ha Hok H0. destruct (Z.eqb_spec needed 0) as [|Hne]; [done|].
  destruct (has_room b needed) as [[]| |] eqn:Er; [|done..]. cbn [res_bind negb] in Ha. apply has_room_true in Er.
  destruct (link_clusters (Z.to_nat needed) None b) as [[b1 prev]| |] eqn:El; [|done..]. cbn [res_bind] in Ha.
  pose proof (bo_next _ Hok). pose proof (bo_limit _ Hok). pose proof (fat_limit_mask (ftype b)).
  apply link_clusters_spec in El as (G1&N1&D1&K1&->); [|lia|lia|done]. rewrite Z2Nat.id in * by lia.
  change (option_list None) with (@nil Z) in *. cbn [app] in *.
  assert (seqZ (next_cluster b) needed <> []) as Hs by (rewrite seqZ_cons by lia; done).
  destruct (last (seqZ (next_cluster b) needed)) as [c|] eqn:Ec; [|by apply last_None in Ec]. cbn [or_panic res_bind] in Ha.
  destruct (set_fat b1 c (fat_eoc (ftype b1))) as [b2| |] eqn:Ef; [|done..]. cbn [res_bind] in Ha. injection Ha as <- <-.
  apply set_fat_spec in Ef as (G2&K2&N2&D2); [|apply fat_eoc_mask].
  assert (next_cluster b <= c < next_cluster b + needed) as Hc by (apply last_Some_elem_of in Ec; by apply elem_of_seqZ in Ec).
  assert (NoDup (seqZ (next_cluster b) needed)) as Hnd by apply NoDup_seqZ.
  split_and!; [lia|done|lia|lia|congruence| |].
  - split; [|exists c; split; [done|by rewrite (grows_ftype _ _ _ G2)]]. eapply links_mark_last; [done..| |done].
    apply Forall_forall. intros x Hx%elem_of_seqZ. lia.
  - eapply grows_weaken; [eapply grows_trans; [exact G1|exact G2]|]. cbv beta. intros x. naive_solver.
Qed.

(** Writing content along a fresh chain stores it. *)
Lemma write_chain_spec b c cs content b' lo hi :
  write_chain b c content = Ok b' -> sized b -> linked b (c :: cs) -> NoDup (c :: cs) ->
  zlen (c :: cs) = Z.max (div_ceil (zlen content) (cbytes b)) 1 ->
  Forall (fun x => 2 <= x <= max_clusters b + 1 /\ cluster_of b x = zeros (cbytes b)) (c :: cs) -> Forall (fun x => lo <= x < hi) (c :: cs) ->
  holds lo hi b' (c :: cs) content /\ grows (fun x => x ∈ c :: cs) b b' /\ next_cluster b' = next_cluster b.
Proof.
  intros Hw Hs [Hl (e&He&Ke)] Hn Hlen Hz Hr. unfold write_chain in Hw. fold (cbytes b) in Hw.
  destruct (pieces_padded (cbytes b) content (proj1 Hs)) as [[k Hk] Hlp].
  apply (write_pieces_spec _ c cs) in Hw as (G&N&C&_&F); [|done..| |done].
  2:{ rewrite <- Hlen in Hlp. unfold zlen in Hlp. cbn [length] in Hlp. lia. }
  assert (forall x, link b' x = link b x) as K by (intros x; unfold link, ftype; by rewrite F, (gr_layout _ _ _ G)).
  split; [|done]. split; [done|done|..|exists k; by rewrite C].
  split; [|exists e; split; [done|by rewrite K, (grows_ftype _ _ _ G)]].
  clear -Hl K. revert Hl. generalize (c :: cs) as l. induction l as [|x [|y l] IH]; [done..|]. intros [E Hl]. split; [by rewrite K|by apply IH].
Qed.

Definition stored (lo hi : Z) (b : Builder) (cluster : Z) (content : bytes) : Prop :=
  match content with
  | [] => cluster = 0
  | _ => exists cs, holds lo hi b (cluster :: cs) content
  end.

Lemma write_file_spec b content b' head :
  write_file b content = Ok (b', head) -> builder_ok b ->
  builder_ok b' /\ next_cluster b <= next_cluster b' /\ grows (fun c => next_cluster b <= c < next_cluster b') b b' /\
  u32 head /\ stored (next_cluster b) (next_cluster b') b' head content.
Proof.
  unfold write_file, stored. intros Hw Hok. destruct content as [|x content].
  { injection Hw as <- <-. split_and!; [done|lia|apply grows_self|by_compute|done]. }
  set (l := x :: content) in *. fold (cbytes b) in Hw. pose proof (bo_cbytes _ Hok) as Hcb.
  assert (1 <= div_ceil (zlen l) (cbytes b)) as Hd by (by apply div_ceil_pos).
  unfold u32_try in Hw. destruct (_ <? 2 ^ 32) eqn:Eu; [|done]. cbn [res_bind] in Hw. bools.
  set (needed := div_ceil (zlen l) (cbytes b)) in *.
  destruct (alloc_chain b needed) as [[b1 c]| |] eqn:Ea; [|done..]. cbn [res_bind] in Hw.
  destruct (write_chain b1 c l) as [b2| |] eqn:Ew; [|done..]. cbn [res_bind] in Hw. injection Hw as <- <-.
  apply alloc_chain_spec in Ea as (_&->&N1&R1&D1&K1&G1); [|done|lia].
  assert (cbytes b1 = cbytes b) as C1 by apply (grows_cbytes _ _ _ G1).
  assert (seqZ (next_cluster b) needed = next_cluster b :: seqZ (Z.succ (next_cluster b)) (Z.pred needed)) as Es by (by rewrite seqZ_cons by lia).
  pose proof (bo_next _ Hok). pose proof (bo_limit _ Hok). pose proof (fat_limit_mask (ftype b)).
  assert (builder_ok b1) as Hok1 by (eapply grown_ok; [exact Hok|exact G1| |lia]; cbv beta; lia).
  destruct (write_chain_spec b1 (next_cluster b) (seqZ (Z.succ (next_cluster b)) (Z.pred needed)) l b2 (next_cluster b) (next_cluster b1) Ew) as (Hh&G2&N2).
  - by apply builder_sized.
  - by rewrite <- Es.
  - rewrite <- Es. apply NoDup_seqZ.
  - rewrite <- Es. unfold zlen at 1. rewrite length_seqZ, C1. fold needed. lia.
  - rewrite <- Es, C1, (gr_max _ _ _ G1). apply Forall_forall. intros c Hc%elem_of_seqZ. split; [lia|].
    unfold cluster_of. rewrite D1, C1. apply (bo_fresh _ Hok). lia.
  - rewrite <- Es. apply Forall_forall. intros c Hc%elem_of_seqZ. lia.
  - rewrite <- Es in G2. assert (grows (fun c => next_cluster b <= c < next_cluster b1) b b2) as G.
    { eapply grows_weaken; [eapply grows_trans; [exact G1|exact G2]|]. cbv beta. intros c [Hc|Hc%elem_of_seqZ]; lia. }
    rewrite N2. split; [eapply grown_ok; [exact Hok|exact G| |lia]; cbv beta; lia|]. split; [lia|]. split; [done|].
    split; [unfold in_range; lia|]. by exists (seqZ (Z.succ (next_cluster b)) (Z.pred needed)).
Qed.

(** ** Directories *)

(** A cluster reserved for a directory: end of chain, still zero. *)
Record reserved (b : Builder) (c : Z) : Prop := {
  rs_range : 2 <= c < next_cluster b;
  rs_link : link b c = Ok (fat_eoc (ftype b));
  rs_zero : cluster_of b c = zeros (cbytes b);
}.

Lemma reserved_grows P b b' c :
  grows P b b' -> ~ P c -> next_cluster b <= next_cluster b' -> next_cluster b <= max_clusters b + 2 -> reserved b c -> reserved b' c.
Proof.
  intros Hg HP Hn Hm [H1 H2 H3]. split; [lia|..].
  - by rewrite (gr_link _ _ _ Hg), (grows_ftype _ _ _ Hg) by (done || lia).
  - by rewrite (gr_cluster _ _ _ Hg), (grows_cbytes _ _ _ Hg) by (done || lia).
Qed.

Lemma reserve_head_spec b b' c :
  reserve_head b = Ok (b', c) -> builder_ok b ->
  builder_ok b' /\ c = next_cluster b /\ next_cluster b' = c + 1 /\ grows (fun x => x = c) b b' /\ reserved b' c.
Proof.
  unfold reserve_head, add_or_panic, checked_add. intros Hr Hok. destruct (_ <? _); [|done]. cbn [or_panic res_bind] in Hr.
  destruct (Z.ltb_spec (max_clusters b + 1) (next_cluster b)) as [|Hm]; [done|].
  destruct (take_cluster b) as [[b1 c1]| |] eqn:E1; [|done..]. cbn [res_bind] in Hr.
  destruct (set_fat b1 c1 (fat_eoc (ftype b1))) as [b2| |] eqn:E2; [|done..]. cbn [res_bind] in Hr. injection Hr as <- <-.
  pose proof (take_cluster_grows (fun _ => False) _ _ _ E1) as G1.
  apply take_cluster_spec in E1 as (->&N1&F1&D1&L1&M1). apply set_fat_spec in E2 as (G2&K2&N2&D2); [|apply fat_eoc_mask].
  assert (grows (fun x => x = next_cluster b) b b2) as G.
  { eapply grows_weaken; [eapply grows_trans; [exact G1|exact G2]|]. cbv beta. intros x. naive_solver. }
  pose proof (bo_next _ Hok). split_and!; [|done|lia|done|].
  - eapply grown_ok; [exact Hok|exact G| |lia]. cbv beta. lia.
  - split; [lia|by rewrite K2, (grows_ftype _ _ _ G2)|]. rewrite (grows_cbytes _ _ _ G). unfold cluster_of. rewrite D2, D1.
    rewrite (grows_cbytes _ _ _ G). apply (bo_fresh _ Hok). lia.
Qed.

Lemma extend_dir_spec b head extra b' :
  extend_dir b head extra = Ok b' -> builder_ok b -> reserved b head -> 0 < extra ->
  next_cluster b' = next_cluster b + extra /\ next_cluster b' <= max_clusters b + 2 /\ data b' = data b /\
  linked b' (head :: seqZ (next_cluster b) extra) /\ grows (fun c => c = head \/ next_cluster b <= c < next_cluster b + extra) b b'.
Proof.
  unfold extend_dir. intros He Hok Hres H0. unfold u32_try in He. destruct (_ <? 2 ^ 32); [|done]. cbn [res_bind] in He.
  destruct (has_room b extra) as [[]| |] eqn:Er; [|done..]. cbn [res_bind negb] in He. apply has_room_true in Er.
  destruct (set_fat b head (next_cluster b)) as [b1| |] eqn:E1; [|done..]. cbn [res_bind] in He.
  destruct (take_cluster b1) as [[b2 c2]| |] eqn:E2; [|done..]. cbn [res_bind] in He.
  destruct (link_clusters (Z.to_nat (extra - 1)) (Some (next_cluster b)) b2) as [[b3 prev]| |] eqn:E3; [|done..]. cbn [res_bind] in He.
  pose proof (bo_next _ Hok). pose proof (bo_limit _ Hok). pose proof (fat_limit_mask (ftype b)). pose proof (rs_range _ _ Hres).
  apply set_fat_spec in E1 as (G1&K1&N1&D1); [|lia]. pose proof (fun Q => take_cluster_grows Q _ _ _ E2) as G2.
  apply take_cluster_spec in E2 as (->&N2&F2&D2&L2&M2). rewrite N1 in *.
  assert (ftype b2 = ftype b) as T2 by (rewrite (grows_ftype _ _ _ (G2 (fun _ => False))); apply (grows_ftype _ _ _ G1)).
  apply link_clusters_spec in E3 as (G3&N3&D3&K3&->); [|lia|rewrite T2; lia|lia]. rewrite Z2Nat.id, N2 in * by lia.
  assert (option_list (Some (next_cluster b)) ++ seqZ (next_cluster b + 1) (extra - 1) = seqZ (next_cluster b) extra) as Es.
  { rewrite (seqZ_cons (next_cluster b) extra) by lia. cbn. f_equal. }
  rewrite Es in *. assert (seqZ (next_cluster b) extra <> []) as Hs by (rewrite seqZ_cons by lia; done).
  destruct (last (seqZ (next_cluster b) extra)) as [c|] eqn:Ec; [|by apply last_None in Ec]. cbn [or_panic res_bind] in He.
  apply set_fat_spec in He as (G4&K4&N4&D4); [|apply fat_eoc_mask].
  assert (next_cluster b <= c < next_cluster b + extra) as Hc by (apply last_Some_elem_of in Ec; by apply elem_of_seqZ in Ec).
  assert (grows (fun x => x = head \/ next_cluster b <= x < next_cluster b + extra) b b') as G.
  { eapply grows_weaken; [eapply grows_trans; [exact G1|eapply grows_trans; [apply (G2 (fun _ => False))|eapply grows_trans; [exact G3|exact G4]]]|].
    cbv beta. intros x. naive_solver lia. }
  assert (links b' (seqZ (next_cluster b) extra)) as K5.
  { eapply links_mark_last; [exact G4|done|apply NoDup_seqZ| |done]. apply Forall_forall. intros x Hx%elem_of_seqZ. lia. }
  assert (link b' head = Ok (next_cluster b)) as K6.
  { rewrite (gr_link _ _ _ G4) by lia. rewrite (gr_link _ _ _ G3) by (try lia; intros [[=]|?]; lia).
    by rewrite (gr_link _ _ _ (G2 (fun _ => False))) by (done || lia). }
  split_and!; [lia|lia|congruence| |done]. split.
  - rewrite seqZ_cons in * by lia. done.
  - exists c. split; [|by rewrite (grows_ftype _ _ _ G4)]. change (head :: seqZ (next_cluster b) extra) with ([head] ++ seqZ (next_cluster b) extra).
    by rewrite last_app_nonempty.
Qed.

Lemma reserved_linked b c : reserved b c -> linked b [c].
Proof. intros [_ H _]. split; [done|]. by exists c. Qed.

(** A directory keeps its reserved head and gets what else it needs. *)
Lemma extend_and_write_dir_spec b head content b' :
  extend_and_write_dir b head content = Ok b' -> builder_ok b -> reserved b head ->
  builder_ok b' /\ next_cluster b <= next_cluster b' /\ grows (fun c => c = head \/ next_cluster b <= c < next_cluster b') b b' /\
  exists cs, holds head (next_cluster b') b' (head :: cs) content.
Proof.
  unfold extend_and_write_dir. fold (cbytes b). intros He Hok Hres. pose proof (bo_cbytes _ Hok) as Hcb. pose proof (rs_range _ _ Hres) as Hh.
  set (needed := Z.max (div_ceil (Z.max (zlen content) 1) (cbytes b)) 1) in *.
  assert (needed = Z.max (div_ceil (zlen content) (cbytes b)) 1) as En by (by apply clusters_needed).
  assert (exists b1 cs, (if 0 <? needed - 1 then extend_dir b head (needed - 1) else Ok b) = Ok b1 /\ cs = seqZ (next_cluster b) (needed - 1) /\
    next_cluster b1 = next_cluster b + (needed - 1) /\ next_cluster b1 <= max_clusters b + 2 /\ data b1 = data b /\ linked b1 (head :: cs) /\
    grows (fun c => c = head \/ next_cluster b <= c < next_cluster b1) b b1) as (b1&cs&E1&Ecs&N1&M1&D1&K1&G1).
  { destruct (if 0 <? needed - 1 then _ else _) as [b1| |] eqn:E1; [|done..]. exists b1. eexists. split; [done|]. split; [done|].
    pose proof (bo_next _ Hok). destruct (0 <? needed - 1) eqn:Ed; bools.
    - apply extend_dir_spec in E1 as (N1&M1&D1&K1&G1); [|done|done|lia]. rewrite N1 in *. done.
    - injection E1 as <-. assert (needed - 1 = 0) as -> by lia. split_and!; [lia|lia|done| |apply grows_self]. cbn. by apply reserved_linked. }
  rewrite E1 in He. cbn [res_bind] in He. pose proof (bo_next _ Hok).
  assert (builder_ok b1) as Hok1 by (eapply grown_ok; [exact Hok|exact G1| |lia]; cbv beta; lia).
  assert (cbytes b1 = cbytes b) as C1 by apply (grows_cbytes _ _ _ G1).
  assert (Forall (fun x => x = head \/ next_cluster b <= x < next_cluster b1) (head :: cs)) as Hin.
  { subst cs. constructor; [by left|]. apply Forall_forall. intros c Hc%elem_of_seqZ. lia. }
  destruct (write_chain_spec b1 head cs content b' head (next_cluster b1) He) as (Hd&G2&N2).
  - by apply builder_sized.
  - done.
  - apply NoDup_cons. subst cs. split; [|apply NoDup_seqZ]. intros Hc%elem_of_seqZ. lia.
  - rewrite C1, <- En. subst cs. rewrite zlen_cons. unfold zlen. rewrite length_seqZ. lia.
  - rewrite C1, (gr_max _ _ _ G1). eapply Forall_impl; [exact Hin|]. intros c Hc. cbv beta in Hc. split; [lia|].
    unfold cluster_of. rewrite D1, C1. destruct Hc as [->|Hc]; [apply (rs_zero _ _ Hres)|apply (bo_fresh _ Hok); lia].
  - eapply Forall_impl; [exact Hin|]. intros c Hc. cbv beta in *. lia.
  - rewrite N2. assert (grows (fun c => c = head \/ next_cluster b <= c < next_cluster b1) b b') as G.
    { eapply grows_weaken; [eapply grows_trans; [exact G1|exact G2]|]. cbv beta. intros c [?|Hc]; [done|]. rewrite Forall_forall in Hin. by apply Hin. }
    split; [eapply grown_ok; [exact Hok|exact G| |lia]; cbv beta; lia|]. split; [lia|]. split; [done|]. by exists cs.
Qed.

(** ** Trees *)

(** The entries [es] of a directory describe the children [t]: files are stored,
    and what a subdirectory's chain holds parses to the description of its own
    children; all of it lies in the clusters from [lo] up to [hi]. *)
Fixpoint lists (lo hi : Z) (b : Builder) (t : Entries) (es : list DirEntry) : Prop :=
  match t, es with
  | NoMore, [] => True
  | AFile name content rest, e :: es =>
      (exists c, e = MkDirEntry name false c (zlen content) /\ stored lo hi b c content) /\ lists lo hi b rest es
  | ADir name sub rest, e :: es =>
      (exists c cs raw sub_es, e = MkDirEntry name true c 0 /\ holds lo hi b (c :: cs) raw /\
         (forall k, parse (raw ++ zeros k) [] = sub_es) /\ lists lo hi b sub sub_es) /\ lists lo hi b rest es
  | _, _ => False
  end.

Fixpoint plain_tree (t : Entries) : Prop :=
  match t with
  | NoMore => True
  | AFile name _ rest => plain_name name /\ plain_tree rest
  | ADir name sub rest => plain_name name /\ plain_tree sub /\ plain_tree rest
  end.

Lemma stored_grows P lo hi b b' c content :
  grows P b b' -> 2 <= lo -> hi <= max_clusters b + 2 -> (forall c, lo <= c < hi -> ~ P c) -> stored lo hi b c content -> stored lo hi b' c content.
Proof. unfold stored. intros Hg H1 H2 H3. destruct content; [done|]. intros [cs Hh]. exists cs. by eapply holds_grows. Qed.

Lemma stored_weaken lo hi lo' hi' b c content : stored lo hi b c content -> lo' <= lo -> hi <= hi' -> stored lo' hi' b c content.
Proof. unfold stored. destruct content; [done|]. intros [cs Hh] H1 H2. exists cs. by eapply holds_weaken. Qed.

Lemma lists_grows P lo hi b b' t : forall es,
  grows P b b' -> 2 <= lo -> hi <= max_clusters b + 2 -> (forall c, lo <= c < hi -> ~ P c) -> lists lo hi b t es -> lists lo hi b' t es.
Proof.
  induction t as [|name content rest IH|name sub IHs rest IH]; intros [|e es] Hg H1 H2 H3 Hl; try done; cbn [lists] in *.
  - destruct Hl as [(c&Ee&Hs) Hl]. split; [|by apply IH]. exists c. split; [done|by eapply stored_grows].
  - destruct Hl as [(c&cs&raw&sub_es&Ee&Hh&Hp&Hs) Hl]. split; [|by apply IH]. exists c, cs, raw, sub_es.
    split_and!; [done|by eapply holds_grows|done|by apply IHs].
Qed.

Lemma lists_weaken lo hi lo' hi' b t : forall es, lists lo hi b t es -> lo' <= lo -> hi <= hi' -> lists lo' hi' b t es.
Proof.
  induction t as [|name content rest IH|name sub IHs rest IH]; intros [|e es] Hl H1 H2; try done; cbn [lists] in *.
  - destruct Hl as [(c&Ee&Hs) Hl]. split; [|by apply IH]. exists c. split; [done|by eapply stored_weaken].
  - destruct Hl as [(c&cs&raw&sub_es&Ee&Hh&Hp&Hs) Hl]. split; [|by apply IH]. exists c, cs, raw, sub_es.
    split_and!; [done|by eapply holds_weaken|done|by apply IHs].
Qed.

(** What encoding children leaves: the builder, what was added to the directory
    and what it reads as. *)
Record encoded (b b' : Builder) (raw raw' : bytes) (t : Entries) : Prop := {
  en_ok : builder_ok b';
  en_next : next_cluster b <= next_cluster b';
  en_grows : grows (fun c => next_cluster b <= c < next_cluster b') b b';
  en_lists : exists tail es, raw' = raw ++ tail /\ (forall rest, parse (tail ++ rest) [] = es ++ parse rest []) /\
    lists (next_cluster b) (next_cluster b') b' t es;
}.

(** One child in front of the others. *)
Lemma encoded_cons b b1 b' raw child raw' one rest e :
  builder_ok b -> next_cluster b <= next_cluster b1 -> grows (fun c => next_cluster b <= c < next_cluster b1) b b1 -> builder_ok b1 ->
  (forall k, parse (child ++ k) [] = e :: parse k []) -> encoded b1 b' (raw ++ child) raw' rest ->
  (forall b'' es, lists (next_cluster b) (next_cluster b') b'' (one NoMore) [e] -> lists (next_cluster b) (next_cluster b') b'' rest es ->
     lists (next_cluster b) (next_cluster b') b'' (one rest) (e :: es)) ->
  lists (next_cluster b) (next_cluster b1) b1 (one NoMore) [e] -> encoded b b' raw raw' (one rest).
Proof.
  intros Hok N1 G1 Hok1 Hp [Hok' N2 G2 (tail&es&->&Hp2&Hl)] Hcons Hone. split; [done|lia|..].
  - eapply grows_weaken; [eapply grows_trans; [exact G1|exact G2]|]. cbv beta. lia.
  - exists (child ++ tail), (e :: es). split; [by rewrite app_assoc|]. split.
    + intros k. rewrite <- app_assoc, Hp, Hp2. done.
    + pose proof (bo_next _ Hok). pose proof (bo_next _ Hok1). apply Hcons; [|eapply lists_weaken; [exact Hl|lia|lia]]. eapply lists_weaken; [|reflexivity|exact N2].
      eapply lists_grows; [exact G2|lia|lia| |exact Hone]. cbv beta. lia.
Qed.

Lemma encode_children_spec t : forall b self is_root raw used b' raw',
  encode_children b t self is_root raw used = Ok (b', raw') -> builder_ok b -> u32 self -> plain_tree t -> encoded b b' raw raw' t.
Proof.
  induction t as [|name content rest IH|name sub IHs rest IH]; intros b self is_root raw used b' raw' He Hok Hself Hpl; cbn [encode_children] in He.
  - injection He as <- <-. split; [done|lia|apply grows_self|]. exists [], []. by rewrite app_nil_r.
  - destruct Hpl as [Hn Hpl]. destruct (validate_component_name_length name) as [[]| |] eqn:Ev; [|done..]. cbn [res_bind] in He.
    destruct (build_short_and_lfn name used) as [[[short lfn] used1]| |] eqn:Eb; [|done..]. cbn [res_bind] in He.
    unfold u32_try in He. destruct (Z.ltb_spec (zlen content) (2 ^ 32)) as [Hsz|]; [|done]. cbn [res_bind] in He.
    destruct (write_file b content) as [[b1 c]| |] eqn:Ew; [|done..]. cbn [res_bind] in He.
    apply write_file_spec in Ew as (Hok1&N1&G1&Hc&Hst); [|done]. pose proof (zlen_nonneg content).
    destruct (append_child_spec raw _ _ _ _ _ false c (zlen content) Hn Ev Eb Hc) as (child&Ea&Hp); [unfold in_range; lia|].
    rewrite Ea in He. cbn [res_bind] in He. apply IH in He; [|done..].
    eapply (encoded_cons _ b1 _ _ _ _ (AFile name content)); [done..| |].
    + intros b'' es [Ho _] Hr. by split.
    + cbn [lists]. split; [|done]. exists c. done.
  - destruct Hpl as (Hn&Hsub&Hpl). destruct (validate_component_name_length name) as [[]| |] eqn:Ev; [|done..]. cbn [res_bind] in He.
    destruct (build_short_and_lfn name used) as [[[short lfn] used1]| |] eqn:Eb; [|done..]. cbn [res_bind] in He.
    destruct (reserve_head b) as [[b1 c]| |] eqn:Er; [|done..]. cbn [res_bind] in He.
    destruct (encode_children b1 sub c false _ _) as [[b2 child_raw]| |] eqn:Es; [|done..]. cbn [res_bind] in He.
    destruct (extend_and_write_dir b2 c child_raw) as [b3| |] eqn:Ex; [|done..]. cbn [res_bind] in He.
    apply reserve_head_spec in Er as (Hok1&->&N1&G1&R1); [|done]. set (c := next_cluster b) in *.
    pose proof (bo_next _ Hok). pose proof (bo_next _ Hok1). pose proof (bo_limit _ Hok). pose proof (fat_limit_mask (ftype b)).
    assert (u32 c) as Hc by (unfold in_range; lia).
    apply IHs in Es as [Hok2 N2 G2 (tail&es&->&Hp2&Hl2)]; [|done..]. pose proof (bo_next _ Hok2).
    assert (reserved b2 c) as R2 by (eapply reserved_grows; [exact G2|cbv beta; lia|lia|lia|done]).
    apply extend_and_write_dir_spec in Ex as (Hok3&N3&G3&cs&Hh3); [|done..].
    destruct (append_child_spec raw _ _ _ _ _ true c 0 Hn Ev Eb Hc) as (child&Ea&Hp); [by_compute|].
    rewrite Ea in He. cbn [res_bind] in He. apply IH in He; [|done..].
    eapply (encoded_cons _ b3 _ _ _ _ (ADir name sub)); [done|lia| |done..| |].
    + eapply grows_weaken; [eapply grows_trans; [exact G1|eapply grows_trans; [exact G2|exact G3]]|]. cbv beta. intros x. lia.
    + intros b'' es' [Ho _] Hr. by split.
    + cbn [lists]. split; [|done]. exists c, cs. do 2 eexists. split; [done|]. split; [exact Hh3|]. split.
      * intros k. unfold header_of. rewrite <- app_assoc, parse_dots; [|done|destruct is_root; [by_compute|done]].
        by rewrite Hp2, parse_zeros, app_nil_r.
      * eapply lists_weaken; [eapply (lists_grows _ (next_cluster b1) (next_cluster b2)); [exact G3|lia|lia| |exact Hl2]; cbv beta; lia|lia|lia].
Qed.
