(* ===== verification/FatImage.v ===== *)
(** * FAT images (fat32.rs): the image, its reader and the entry points

    [create_efi], [update_efi] and [read_efi_files] with everything they call.
    [str::to_lowercase], which needs the Unicode tables, is a parameter; the
    staging directory is a tree, so the host's own input and output errors do not
    occur. *)

From S2P Require Import Prelude Windows FatNames Fat.
From stdpp Require Import base tactics numbers list option strings.
From Stdlib Require Import ZArith Lia.

Open Scope Z_scope.

(** ** Boot sector *)

(** Assignments to slices, in order. *)
Fixpoint puts (image : bytes) (fields : list (Z * bytes)) : res EfiError bytes :=
  match fields with
  | [] => Ok image
  | (off, src) :: fields => let? image := copy_at image off src in puts image fields
  end.

Definition bpb_fields (l : Layout) (root_cluster : Z) (volume_label : bytes) : list (Z * bytes) :=
  [(0, [0xeb]); (1, [0x58]); (2, [0x90]); (3, bytes_of "RUSTFAT ");
   (11, le_bytes 2 (wrap 16 (bytes_per_sector l))); (13, [wrap 8 (sectors_per_cluster l)]);
   (14, le_bytes 2 (wrap 16 (reserved_sectors l))); (16, [wrap 8 (num_fats l)]);
   (17, le_bytes 2 (wrap 16 (root_entry_count l))); (19, le_bytes 2 0); (21, [0xf8]);
   (22, le_bytes 2 (match fat_type l with Fat16 => wrap 16 (fat_size_sectors l) | Fat32 => 0 end));
   (24, le_bytes 2 63); (26, le_bytes 2 255); (28, le_bytes 4 (hidden_sectors l)); (32, le_bytes 4 (wrap 32 (total_sectors l)))] ++
  match fat_type l with
  | Fat32 =>
      [(36, le_bytes 4 (fat_size_sectors l)); (40, le_bytes 2 0); (42, le_bytes 2 0); (44, le_bytes 4 root_cluster);
       (48, le_bytes 2 1); (50, le_bytes 2 6); (64, [0x80]); (65, [0]); (66, [0x29]); (67, le_bytes 4 (volume_id l));
       (71, volume_label); (82, bytes_of "FAT32   ")]
  | Fat16 =>
      [(36, [0x80]); (37, [0]); (38, [0x29]); (39, le_bytes 4 (volume_id l)); (43, volume_label); (54, bytes_of "FAT16   ")]
  end ++ [(510, [0x55]); (511, [0xaa])].

Definition write_bpb (image : bytes) (l : Layout) (root_cluster : Z) (volume_label : bytes) : res EfiError bytes :=
  puts image (bpb_fields l root_cluster volume_label).

Definition write_fsinfo (sector : bytes) (free_count next_free : Z) : res EfiError bytes :=
  puts sector [(0, le_bytes 4 0x4161_5252); (484, le_bytes 4 0x6141_7272); (488, le_bytes 4 free_count); (492, le_bytes 4 next_free);
               (508, le_bytes 4 0xaa55_0000)].

(** ** Assembly *)

Definition write_reserved (image : bytes) (bps free_clusters next_free : Z) : res EfiError bytes :=
  let? image := (if 2 * bps <=? zlen image then
                   let? sector := slice image bps (2 * bps) in
                   let? sector := write_fsinfo sector free_clusters next_free in
                   copy_at image bps sector
                 else Ok image) in
  if 8 * bps <=? zlen image then
    let? primary := slice image 0 (2 * bps) in
    copy_at image (6 * bps) primary
  else Ok image.

Fixpoint write_fats (n : nat) (image : bytes) (start : Z) (fat : bytes) : res EfiError bytes :=
  match n with
  | O => Ok image
  | S n => let? image := copy_at image start fat in write_fats n image (start + zlen fat) fat
  end.

Definition finish (b : Builder) (l : Layout) (root_cluster : option Z) (fat16_root_raw : option bytes) : res EfiError bytes :=
  let bps := bytes_per_sector l in
  let image := zeros (total_sectors l * bps) in
  let? used := or_panic (checked_sub (next_cluster b) 2) in
  let free_clusters := saturating_sub (max_clusters b) used in
  let next_free := if free_clusters =? 0 then 0xffff_ffff else next_cluster b in
  let? image := write_bpb image l (default 0 root_cluster) VOLUME_LABEL in
  let? image := match fat_type l with Fat32 => write_reserved image bps free_clusters next_free | Fat16 => Ok image end in
  let? image := write_fats (Z.to_nat (num_fats l)) image (first_fat_sector l * bps) (fat b) in
  let? image := match fat16_root_raw with Some raw => copy_at image (first_root_dir_sector l * bps) raw | None => Ok image end in
  copy_at image (first_data_sector l * bps) (data b).

Definition encode_fat32 (l : Layout) (staged : Entries) : res EfiError bytes :=
  let root_cluster := 2 in
  let? b := new_builder l in
  if max_clusters b <? 1 then Err NoRootDirectory else
  let? b := set_fat (b <| next_cluster := 3 |>) 2 (fat_eoc (fat_type l)) in
  let? (b, raw_root) := encode_dir b staged root_cluster 0 true in
  let? b := extend_and_write_dir b root_cluster raw_root in
  finish b l (Some root_cluster) None.

Definition encode_fat16 (l : Layout) (staged : Entries) : res EfiError bytes :=
  let? b := new_builder l in
  let? (b, raw_root) := encode_dir b staged 0 0 true in
  let root_area_bytes := root_dir_sectors l * bytes_per_sector l in
  if root_area_bytes <? zlen raw_root then Err RootTooSmall else
  finish b l None (Some raw_root).

Definition encode_image (l : Layout) (staged : Entries) : res EfiError bytes :=
  match fat_type l with Fat32 => encode_fat32 l staged | Fat16 => encode_fat16 l staged end.

(** The layout before the size of the table is known. *)
Definition fresh_layout (t : FatType) (total_sectors bytes_per_sector hidden_sectors volume_id : Z) : Layout :=
  let '(spc, reserved, num_fats, root_entry_count) :=
    match t with Fat32 => (choose_spc_fat32 total_sectors bytes_per_sector, 32, 2, 0) | Fat16 => (1, 1, 2, 512) end in
  {| fat_type := t; bytes_per_sector := bytes_per_sector; sectors_per_cluster := spc; reserved_sectors := reserved; num_fats := num_fats;
     root_entry_count := root_entry_count; total_sectors := total_sectors; hidden_sectors := hidden_sectors; volume_id := volume_id;
     fat_size_sectors := 0 |}.

Definition format_image (t : FatType) (total_sectors bytes_per_sector hidden_sectors volume_id : Z) (staged : Entries) : res EfiError bytes :=
  let l := fresh_layout t total_sectors bytes_per_sector hidden_sectors volume_id in
  let? size := compute_fat_size l in
  encode_image (l <| fat_size_sectors := size |>) staged.

(** ** Reading the boot sector *)

Definition efi_sector_size (container : bytes) : res EfiError Z :=
  if zlen container <? 512 then Err NoBootSector else
  let? mark := slice container 510 512 in
  if negb (bool_decide (mark = [0x55; 0xaa])) then Err NoBootSector else
  let? b := slice container 11 13 in
  let? _ := validate_efi_geometry (zlen container) (le_val b) in
  Ok (le_val b).

Definition le_at (container : bytes) (off n : Z) : res EfiError Z := let? b := slice container off (off + n) in Ok (le_val b).

Definition parse_layout (container : bytes) : res EfiError (Layout * Z) :=
  let? sector_size := efi_sector_size container in
  if zlen container <? 90 then Err BpbTruncated else
  let? spc := index container 13 in
  if spc =? 0 then Err BadSectorsPerCluster else
  let? reserved := le_at container 14 2 in
  if reserved =? 0 then Err ZeroReserved else
  let? fats := index container 16 in
  if fats =? 0 then Err ZeroFats else
  let? root_entries := le_at container 17 2 in
  let? tot16 := le_at container 19 2 in
  let? fat16_sz := le_at container 22 2 in
  let? hidden := le_at container 28 4 in
  let? tot32 := le_at container 32 4 in
  let total := if negb (tot32 =? 0) then tot32 else tot16 in
  if total =? 0 then Err ZeroTotalSectors else
  let? (t, size, root_cluster) :=
    (if negb (fat16_sz =? 0) then Ok (Fat16, fat16_sz, 0)
     else
       let? fat32_sz := le_at container 36 4 in
       if fat32_sz =? 0 then Err NoFatSize else
       let? rc := le_at container 44 4 in
       if rc <? 2 then Err BadRootCluster else Ok (Fat32, fat32_sz, rc)) in
  if bool_decide (t = Fat32) && negb (root_entries =? 0) then Err BadRootEntryCount else
  let? id := le_at container (match t with Fat32 => 67 | Fat16 => 39 end) 4 in
  let l := {| fat_type := t; bytes_per_sector := sector_size; sectors_per_cluster := spc; reserved_sectors := reserved; num_fats := fats;
              root_entry_count := root_entries; total_sectors := total; hidden_sectors := hidden; volume_id := id; fat_size_sectors := size |} in
  if 2 ^ 64 <=? total * sector_size then Err SizeOverflows else
  if negb (total * sector_size =? zlen container) then Err SizeMismatch else
  Ok (l, root_cluster).

(** ** The reader *)

Record Reader := { image : bytes; rd_layout : Layout; root_cluster : Z }.

Definition fat_slice (r : Reader) : res EfiError bytes :=
  let start := first_fat_sector (rd_layout r) * bytes_per_sector (rd_layout r) in
  slice (image r) start (start + fat_region_len (rd_layout r)).

Definition enough (size_hint : option Z) (out : bytes) : bool := match size_hint with Some sz => sz <=? zlen out | None => false end.

(** Every turn visits a new cluster of the data area, so one more than there are
    clusters is enough turns; [ChainEndless] is never returned. *)
Fixpoint follow_chain (fuel : nat) (r : Reader) (fat : bytes) (size_hint : option Z) (cluster : Z) (visited : list Z) (out : bytes) : res EfiError bytes :=
  match fuel with
  | O => Err ChainEndless
  | S fuel =>
      let l := rd_layout r in
      let cbytes := bytes_per_cluster l in
      if (cluster <? 2) || fat_is_eoc (fat_type l) cluster then Ok out else
      if bool_decide (cluster ∈ visited) then Err ChainLoop else
      if layout_max_clusters l + 1 <? cluster then Err ChainOutOfRange else
      let off := cluster_offset l cluster in
      if zlen (image r) <? off + cbytes then Err ChainOutsideImage else
      let? piece := slice (image r) off (off + cbytes) in
      let out := out ++ piece in
      if enough size_hint out then Ok out else
      let? next := fat_get fat cluster (fat_type l) in
      follow_chain fuel r fat size_hint next (cluster :: visited) out
  end.

Definition cluster_chain_bytes (r : Reader) (cluster : Z) (size_hint : option Z) : res EfiError bytes :=
  if cluster =? 0 then Ok [] else
  let? fat := fat_slice r in
  let? out := follow_chain (S (Z.to_nat (layout_max_clusters (rd_layout r)))) r fat size_hint cluster [] [] in
  Ok (match size_hint with Some sz => ztake sz out | None => out end).

Definition root_region_bytes (r : Reader) : res EfiError bytes :=
  let l := rd_layout r in
  match fat_type l with
  | Fat16 =>
      let start := first_root_dir_sector l * bytes_per_sector l in
      let len := root_dir_sectors l * bytes_per_sector l in
      if zlen (image r) <? start + len then Err RootOutsideImage else slice (image r) start (start + len)
  | Fat32 => cluster_chain_bytes r (root_cluster r) None
  end.

Definition dir_region_bytes (r : Reader) (cluster : Z) : res EfiError bytes := cluster_chain_bytes r cluster None.

(** ** Paths *)

(** [str::split('/')]: always at least one part. *)
Fixpoint split_path (name : text) : text * list text :=
  match name with
  | [] => ([], [])
  | c :: name => let '(part, parts) := split_path name in if c =? 47 then ([], part :: parts) else (c :: part, parts)
  end.
Definition split_parts (name : text) : list text := let '(part, parts) := split_path name in part :: parts.

Definition find_entry (entries : list DirEntry) (comp : text) : option DirEntry :=
  List.find (fun e => eq_ignore_ascii_case (de_name e) comp) entries.

Fixpoint lookup_from (r : Reader) (entries : list DirEntry) (comp : text) (more : list text) : res EfiError (bool * Z * Z) :=
  let? found := ok_or (find_entry entries comp) NotFound in
  match more with
  | [] => Ok (de_is_dir found, de_cluster found, de_size found)
  | next :: more =>
      if negb (de_is_dir found) then Err NotDirectory else
      let? region := dir_region_bytes r (de_cluster found) in
      lookup_from r (parse_dir_region region) next more
  end.

Definition lookup_path (r : Reader) (path : text) : res EfiError (bool * Z * Z) :=
  let '(part, parts) := split_path path in
  let? region := root_region_bytes r in
  lookup_from r (parse_dir_region region) part parts.

(** ** Walking a whole image *)

Fixpoint walk_each (walk : list DirEntry -> res EfiError unit) (r : Reader) (entries : list DirEntry) : res EfiError unit :=
  match entries with
  | [] => Ok tt
  | e :: entries =>
      let? _ := (if de_is_dir e then
                   if de_cluster e <? 2 then Err BadDirectoryCluster else
                   let? region := dir_region_bytes r (de_cluster e) in
                   walk (parse_dir_region region)
                 else
                   let? content := cluster_chain_bytes r (de_cluster e) (Some (de_size e)) in
                   if negb (zlen content =? de_size e) then Err FileTruncated else Ok tt) in
      walk_each walk r entries
  end.

(** [fuel] is what the depth limit of 64 leaves. *)
Fixpoint walk (fuel : nat) (r : Reader) (entries : list DirEntry) : res EfiError unit :=
  match fuel with
  | O => Err TooDeep
  | S fuel => walk_each (walk fuel r) r entries
  end.

Definition self_check (container : bytes) : res EfiError unit :=
  let? (l, rc) := parse_layout container in
  let r := {| image := container; rd_layout := l; root_cluster := rc |} in
  let? region := root_region_bytes r in
  walk 65 r (parse_dir_region region).

(** ** The staging directory *)

(** [str::cmp]. *)
Fixpoint text_ltb (a b : text) : bool :=
  match a, b with
  | [], [] => false
  | [], _ => true
  | _, [] => false
  | x :: a, y :: b => (x <? y) || ((x =? y) && text_ltb a b)
  end.

Fixpoint fresh_branch (part : text) (more : list text) (content : bytes) (rest : Entries) : Entries :=
  match more with
  | [] => AFile part content rest
  | next :: more => ADir part (fresh_branch next more content NoMore) rest
  end.

(** [write]: missing parents are created, a file is replaced. *)
Fixpoint stage (t : Entries) (part : text) (more : list text) (content : bytes) : res EfiError Entries :=
  match t with
  | NoMore => Ok (fresh_branch part more content NoMore)
  | AFile name old rest =>
      if decide (name = part) then
        match more with [] => Ok (AFile name content rest) | _ => Err ParentNotDirectory end
      else if text_ltb part name then Ok (fresh_branch part more content t)
      else let? rest := stage rest part more content in Ok (AFile name old rest)
  | ADir name children rest =>
      if decide (name = part) then
        match more with
        | [] => Err TargetNotFile
        | next :: more => let? children := stage children next more content in Ok (ADir name children rest)
        end
      else if text_ltb part name then Ok (fresh_branch part more content t)
      else let? rest := stage rest part more content in Ok (ADir name children rest)
  end.

Fixpoint stage_files (t : Entries) (files : list (text * bytes)) : res EfiError Entries :=
  match files with
  | [] => Ok t
  | (name, content) :: files =>
      let '(part, more) := split_path name in
      let? t := stage t part more content in
      stage_files t files
  end.

(** [create_dir] and then the children. *)
Fixpoint add_dir (t : Entries) (name : text) (children : Entries) : res EfiError Entries :=
  match t with
  | NoMore => Ok (ADir name children NoMore)
  | AFile n content rest =>
      if decide (n = name) then Err AlreadyExists else if text_ltb name n then Ok (ADir name children t)
      else let? rest := add_dir rest name children in Ok (AFile n content rest)
  | ADir n sub rest =>
      if decide (n = name) then Err AlreadyExists else if text_ltb name n then Ok (ADir name children t)
      else let? rest := add_dir rest name children in Ok (ADir n sub rest)
  end.

Definition unsafe_name (name : text) : bool := (zlen name =? 0) || contains name 47 || contains name 92.

(** The host refuses a name with a NUL. *)
Definition host_name (name : text) : res EfiError unit := if contains name 0 then Err UnsafeName else Ok tt.

Fixpoint extract_each (extract : list DirEntry -> res EfiError Entries) (r : Reader) (entries : list DirEntry) (out : Entries) : res EfiError Entries :=
  match entries with
  | [] => Ok out
  | e :: entries =>
      if unsafe_name (de_name e) then Err UnsafeName else
      let? out := (if de_is_dir e then
                     let? _ := host_name (de_name e) in
                     let? _ := add_dir out (de_name e) NoMore in
                     let? region := dir_region_bytes r (de_cluster e) in
                     let? children := extract (parse_dir_region region) in
                     add_dir out (de_name e) children
                   else
                     let? content := cluster_chain_bytes r (de_cluster e) (Some (de_size e)) in
                     let? _ := host_name (de_name e) in
                     stage out (de_name e) [] content) in
      extract_each extract r entries out
  end.

Fixpoint extract_dir (fuel : nat) (r : Reader) (entries : list DirEntry) : res EfiError Entries :=
  match fuel with
  | O => Err TooDeep
  | S fuel => extract_each (extract_dir fuel r) r entries NoMore
  end.

Definition extract_to_dir (container : bytes) (l : Layout) (rc : Z) : res EfiError Entries :=
  let r := {| image := container; rd_layout := l; root_cluster := rc |} in
  let? region := root_region_bytes r in
  extract_dir 65 r (parse_dir_region region).

(** ** The entry points *)

Definition bad_part (part : text) : bool :=
  (zlen part =? 0) || bool_decide (part = bytes_of ".") || bool_decide (part = bytes_of "..") ||
  match last part with Some c => (c =? 32) || (c =? 46) | None => false end ||
  existsb (fun c => is_control c || contains [92; 58; 42; 63; 34; 60; 62; 124] c) part.

Section EntryPoints.
Variable to_lowercase : text -> text.

Fixpoint validate_names (names : list text) (seen : list text) : res EfiError unit :=
  match names with
  | [] => Ok tt
  | name :: names =>
      if (zlen name =? 0) || existsb bad_part (split_parts name) then Err InvalidFilePath else
      if decide (to_lowercase name ∈ seen) then Err DuplicateFilePath else
      validate_names names (to_lowercase name :: seen)
  end.

Definition validate_efi_files (files : list (text * bytes)) : res EfiError unit := validate_names (map fst files) [].

Definition create_efi_with_volume_id (part_bytes sector_size partition_start_lba volume_id : Z) (files : list (text * bytes)) : res EfiError bytes :=
  let? _ := validate_efi_files files in
  let? _ := validate_efi_geometry part_bytes sector_size in
  let? staged := stage_files NoMore files in
  let? container := format_image Fat32 (part_bytes / sector_size) sector_size partition_start_lba volume_id staged in
  let? _ := self_check container in
  Ok container.

Definition update_efi_with_volume_id (container : bytes) (volume : option Z) (files : list (text * bytes)) : res EfiError bytes :=
  let? _ := validate_efi_files files in
  let? (l, rc) := parse_layout container in
  let l := match volume with Some id => l <| volume_id := id |> | None => l end in
  let? staged := extract_to_dir container l rc in
  let? staged := stage_files staged files in
  let? image := encode_image l staged in
  if negb (zlen image =? zlen container) then Err LengthChanged else
  let? _ := self_check image in
  Ok image.

Definition read_one (r : Reader) (path : text) : res EfiError bytes :=
  let? (is_dir, cluster, size) := lookup_path r path in
  if is_dir then Err IsDirectory else cluster_chain_bytes r cluster (Some size).

Fixpoint read_each (r : Reader) (paths : list text) : res EfiError (list bytes) :=
  match paths with
  | [] => Ok []
  | path :: paths => let? content := read_one r path in let? rest := read_each r paths in Ok (content :: rest)
  end.

Definition read_efi_files (container : bytes) (paths : list text) : res EfiError (list bytes) :=
  let? _ := validate_efi_files (map (fun p => (p, [])) paths) in
  let? (l, rc) := parse_layout container in
  read_each {| image := container; rd_layout := l; root_cluster := rc |} paths.

Definition read_efi_file (container : bytes) (path : text) : res EfiError bytes :=
  let? files := read_efi_files container [path] in index files 0.
End EntryPoints.
