(* ===== verification/FatRead.v ===== *)
(** * Reading FAT images

    A reader over an image sees what the builder stored: following a chain gives
    its content, and looking a path up gives the file of the staged tree. *)

From S2P Require Import Prelude Windows FatNames FatNamesProps Fat FatProps FatImage.
From stdpp Require Import base tactics numbers list option strings.
From Stdlib Require Import ZArith Lia.

Open Scope Z_scope.

Lemma parse_dir_region_parse region : parse_dir_region region = parse region [].
Proof. done. Qed.

(** ** Chains *)

(** Different clusters of the data area are at most as many as it has. *)
Lemma distinct_clusters m cs : NoDup cs -> Forall (fun c => 2 <= c <= m + 1) cs -> zlen cs <= Z.max m 0.
Proof.
  intros Hn Hr. assert (cs ⊆+ seqZ 2 m) as Hsub.
  { apply NoDup_submseteq; [done|]. intros c Hc. rewrite Forall_forall in Hr. apply elem_of_seqZ. specialize (Hr c Hc). lia. }
  apply submseteq_length in Hsub. rewrite length_seqZ in Hsub. unfold zlen. lia.
Qed.

Lemma slice_no_err {E A} (l : list A) lo hi e : slice (E:=E) l lo hi <> Err e.
Proof. unfold slice. by destruct (get_range l lo hi). Qed.

Lemma fat_get_no_err fat i t e : fat_get fat i t <> Err e.
Proof. unfold fat_get, slice. by destruct t, (get_range fat _ _). Qed.

(** Enough turns for the clusters not yet visited: the loop ends by itself. *)
Lemma follow_chain_ends fuel : forall r fat size_hint cluster visited out,
  NoDup visited -> Forall (fun c => 2 <= c <= layout_max_clusters (rd_layout r) + 1) visited ->
  Z.max (layout_max_clusters (rd_layout r)) 0 < zlen visited + Z.of_nat fuel ->
  follow_chain fuel r fat size_hint cluster visited out <> Err ChainEndless.
Proof.
  induction fuel as [|fuel IH]; intros r fat hint c visited out Hn Hr Hf; cbn [follow_chain].
  { pose proof (distinct_clusters _ _ Hn Hr). lia. }
  destruct ((c <? 2) || _) eqn:Ec; [done|]. destruct (bool_decide (c ∈ visited)) eqn:Ev; [done|].
  destruct (Z.ltb_spec (layout_max_clusters (rd_layout r) + 1) c) as [|Hm]; [done|].
  destruct (zlen (image r) <? _); [done|]. destruct (slice (image r) _ _) as [piece|e|] eqn:Es; cbn [res_bind]; [|by apply slice_no_err in Es|done].
  destruct (enough hint _); [done|].
  destruct (fat_get fat c (fat_type (rd_layout r))) as [next|e|] eqn:Eg; cbn [res_bind]; [|by apply fat_get_no_err in Eg|done].
  apply bool_decide_eq_false in Ev. bools. apply IH.
  - by apply NoDup_cons.
  - constructor; [lia|done].
  - rewrite zlen_cons. lia.
Qed.

(** The image behind [r] carries the table and the clusters of [b]. *)
Record views (r : Reader) (b : Builder) : Prop := {
  vw_layout : rd_layout r = layout b;
  vw_max : layout_max_clusters (layout b) = max_clusters b;
  vw_fat : fat_slice r = Ok (fat b);
  vw_cluster c : 2 <= c <= max_clusters b + 1 ->
    0 <= cluster_offset (layout b) c /\ cluster_offset (layout b) c + cbytes b <= zlen (image r) /\
    slice (E := EfiError) (image r) (cluster_offset (layout b) c) (cluster_offset (layout b) c + cbytes b) = Ok (cluster_of b c);
}.

Lemma fat_eoc_is_eoc t : fat_is_eoc t (fat_eoc t) = true.
Proof. by destruct t. Qed.

Lemma follow_chain_eoc fuel r fat hint visited out : follow_chain (S fuel) r fat hint (fat_eoc (fat_type (rd_layout r))) visited out = Ok out.
Proof. cbn [follow_chain]. rewrite fat_eoc_is_eoc. by rewrite orb_true_r. Qed.

(** The turns along a chain: all of it, or as much as is enough. *)
Lemma follow_chain_linked r b hint cs : forall c fuel visited out,
  views r b -> max_clusters b + 1 < fat_limit (ftype b) -> linked b (c :: cs) -> NoDup (c :: cs) ->
  Forall (fun x => 2 <= x <= max_clusters b + 1 /\ x ∉ visited) (c :: cs) -> zlen (c :: cs) < Z.of_nat fuel ->
  exists got left, follow_chain fuel r (fat b) hint c visited out = Ok got /\ out ++ concat (map (cluster_of b) (c :: cs)) = got ++ left /\
    (left = [] \/ enough hint got = true).
Proof.
  induction cs as [|c' cs IH]; intros c fuel visited out Hv Hlim [Hl Hlast] Hn Hr Hf; rewrite zlen_cons in Hf;
    (destruct fuel as [|fuel]; [match type of Hf with zlen ?l + 1 < _ => pose proof (zlen_nonneg l) | 1 + zlen ?l < _ => pose proof (zlen_nonneg l) end; change (Z.of_nat 0) with 0 in Hf; lia|]);
    apply Forall_cons in Hr as [[Hc Hnv] Hr]; cbn [follow_chain]; rewrite (vw_layout _ _ Hv); fold (cbytes b);
    rewrite (vw_max _ _ Hv), fat_is_eoc_limit; fold (ftype b); rewrite !(proj2 (Z.ltb_ge _ _)) by lia;
    rewrite (proj2 (Z.leb_gt _ _)) by lia; cbn [orb]; rewrite bool_decide_eq_false_2 by done;
    destruct (vw_cluster _ _ Hv c Hc) as (Ho1&Ho2&Es); rewrite (proj2 (Z.ltb_ge _ _)) by lia; rewrite Es; cbn [res_bind].
  - destruct (enough hint (out ++ cluster_of b c)) eqn:Een.
    { exists (out ++ cluster_of b c), []. cbn [map concat]. split_and!; [done|by rewrite !app_nil_r|by left]. }
    destruct Hlast as (e&[= <-]&Ke). fold (link b c). rewrite Ke. cbn [res_bind].
    destruct fuel as [|fuel]; [change (zlen []) with 0 in Hf; lia|]. unfold ftype. rewrite <- (vw_layout _ _ Hv), follow_chain_eoc.
    eexists _, []. cbn [map concat]. split_and!; [done|by rewrite !app_nil_r|by left].
  - destruct (enough hint (out ++ cluster_of b c)) eqn:Een.
    { eexists (out ++ cluster_of b c), _. rewrite map_cons. cbn [concat]. split_and!; [done|by rewrite app_assoc|by right]. }
    destruct Hl as [El Hl]. fold (link b c). rewrite El. cbn [res_bind]. apply NoDup_cons in Hn as [Hnin Hn].
    destruct (IH c' fuel (c :: visited) (out ++ cluster_of b c) Hv Hlim) as (got&left&Eg&Ea&Hor).
    + split; [done|]. destruct Hlast as (e&He&Ke). exists e. done.
    + done.
    + apply Forall_forall. intros x Hx. rewrite Forall_forall in Hr. destruct (Hr x Hx) as [? Hxv]. split; [done|].
      intros [->|?]%elem_of_cons; done.
    + lia.
    + exists got, left. split_and!; [done| |done]. rewrite <- Ea, (map_cons _ c). cbn [concat]. by rewrite app_assoc.
Qed.

Lemma holds_turns lo hi b cs content :
  holds lo hi b cs content -> 2 <= lo -> hi <= max_clusters b + 2 -> zlen cs <= Z.max (max_clusters b) 0.
Proof.
  intros [Hr Hn _ _] Hlo Hhi. apply distinct_clusters; [done|]. eapply Forall_impl; [exact Hr|]. intros c Hc. cbv beta in *. lia.
Qed.

(** Reading the chain of some content: with its size as the hint the content,
    without a hint zeros after it. *)
Lemma chain_bytes_holds r b lo hi c cs content :
  views r b -> builder_ok b -> holds lo hi b (c :: cs) content -> 2 <= lo -> hi <= max_clusters b + 2 ->
  (exists k, cluster_chain_bytes r c None = Ok (content ++ zeros k)) /\ cluster_chain_bytes r c (Some (zlen content)) = Ok content.
Proof.
  intros Hv Hok Hh Hlo Hhi. pose proof (holds_turns _ _ _ _ _ Hh Hlo Hhi) as Ht. destruct Hh as [Hr Hn Hl [k Hk]].
  pose proof (bo_next _ Hok).
  assert (forall hint, exists got left,
    follow_chain (S (Z.to_nat (max_clusters b))) r (fat b) hint c [] [] = Ok got /\ content ++ zeros k = got ++ left /\ (left = [] \/ enough hint got = true)) as Hf.
  { intros hint. rewrite <- Hk. apply (follow_chain_linked r b hint cs c _ [] []); [done|apply (bo_limit _ Hok)|done|done| |lia].
    eapply Forall_impl; [exact Hr|]. intros x Hx. cbv beta in *. split; [lia|apply not_elem_of_nil]. }
  apply Forall_cons in Hr as [Hc _]. unfold cluster_chain_bytes. rewrite (proj2 (Z.eqb_neq _ _)) by lia. rewrite (vw_fat _ _ Hv). cbn [res_bind].
  rewrite (vw_layout _ _ Hv), (vw_max _ _ Hv). split.
  - exists k. destruct (Hf None) as (got&left&Eg&Ea&[->|[=]]). rewrite Eg. cbn [res_bind]. by rewrite Ea, app_nil_r.
  - destruct (Hf (Some (zlen content))) as (got&left&Eg&Ea&Hor). rewrite Eg. cbn [res_bind].
    assert (zlen content <= zlen got) as Hz.
    { destruct Hor as [->|Een]; [|cbn in Een; by bools]. apply (f_equal zlen) in Ea. rewrite !zlen_app in Ea. change (zlen []) with 0 in Ea. pose proof (zlen_nonneg (zeros k)). lia. }
    f_equal. rewrite <- (ztake_app_le _ _ left Hz), <- Ea, ztake_app_le by lia. by apply ztake_all.
Qed.

Lemma chain_bytes_stored r b lo hi c content :
  views r b -> builder_ok b -> stored lo hi b c content -> 2 <= lo -> hi <= max_clusters b + 2 ->
  cluster_chain_bytes r c (Some (zlen content)) = Ok content.
Proof.
  unfold stored. intros Hv Hok Hs Hlo Hhi. destruct content as [|x content]; [by subst c|]. destruct Hs as [cs Hh]. by eapply chain_bytes_holds.
Qed.

(** ** Looking paths up *)

(** The file of a staged tree at a path. *)
Fixpoint file_at (t : Entries) (part : text) (more : list text) : option bytes :=
  match t with
  | NoMore => None
  | AFile name content rest => if decide (name = part) then match more with [] => Some content | _ => None end else file_at rest part more
  | ADir name sub rest =>
      if decide (name = part) then match more with [] => None | next :: more => file_at sub next more end else file_at rest part more
  end.

Fixpoint names (t : Entries) : list text :=
  match t with NoMore => [] | AFile name _ rest => name :: names rest | ADir name _ rest => name :: names rest end.

(** No two names of a directory are equal up to ASCII case. *)
Fixpoint distinct_tree (t : Entries) : bool :=
  match t with
  | NoMore => true
  | AFile name _ rest => forallb (fun n => negb (eq_ignore_ascii_case name n)) (names rest) && distinct_tree rest
  | ADir name sub rest => forallb (fun n => negb (eq_ignore_ascii_case name n)) (names rest) && distinct_tree sub && distinct_tree rest
  end.

Lemma file_at_name t part more content : file_at t part more = Some content -> In part (names t).
Proof.
  induction t as [|name old rest IH|name sub _ rest IH]; [done|..]; cbn [file_at names]; (destruct (decide (name = part)) as [->|]; [by left|]);
    intros Hf; right; by apply IH.
Qed.

Lemma eq_ignore_refl a : eq_ignore_ascii_case a a = true.
Proof. by apply bool_decide_eq_true. Qed.

Lemma find_entry_here name is_dir c size es : find_entry (MkDirEntry name is_dir c size :: es) name = Some (MkDirEntry name is_dir c size).
Proof. unfold find_entry. cbn [List.find de_name]. by rewrite eq_ignore_refl. Qed.

(** A name found further on is not hidden by the first one. *)
Lemma find_entry_later t name part more content is_dir c size es :
  forallb (fun n => negb (eq_ignore_ascii_case name n)) (names t) = true -> file_at t part more = Some content ->
  find_entry (MkDirEntry name is_dir c size :: es) part = find_entry es part.
Proof.
  intros Hd Hf%file_at_name. rewrite forallb_forall in Hd. specialize (Hd _ Hf). unfold find_entry. cbn [List.find de_name].
  by destruct (eq_ignore_ascii_case name part).
Qed.

Lemma lookup_from_skip r e es part more : find_entry (e :: es) part = find_entry es part -> lookup_from r (e :: es) part more = lookup_from r es part more.
Proof. intros E. destruct more; cbn [lookup_from]; by rewrite E. Qed.

(** Looking a file of the tree up finds its entry. *)
Lemma lookup_lists r b lo hi content t : forall es part more,
  views r b -> builder_ok b -> 2 <= lo -> hi <= max_clusters b + 2 -> lists lo hi b t es -> distinct_tree t = true ->
  file_at t part more = Some content ->
  exists c, lookup_from r es part more = Ok (false, c, zlen content) /\ stored lo hi b c content.
Proof.
  induction t as [|name old rest IH|name sub IHs rest IH]; intros es part more Hv Hok Hlo Hhi Hl Hd Hf; [done|..];
    destruct es as [|e es]; [done| |done|]; cbn [lists distinct_tree file_at] in *; bools.
  - destruct Hl as [(c&->&Hs) Hl]. destruct (decide (name = part)) as [->|Hne].
    + destruct more; [|done]. injection Hf as <-. exists c. cbn [lookup_from]. by rewrite find_entry_here.
    + rewrite lookup_from_skip by (by eapply find_entry_later). by apply IH.
  - destruct Hl as [(c&cs&raw&sub_es&->&Hh&Hp&Hs) Hl]. destruct (decide (name = part)) as [->|Hne].
    + destruct more as [|next more]; [done|]. cbn [lookup_from]. rewrite find_entry_here. cbn [ok_or res_bind de_is_dir negb de_cluster].
      destruct (chain_bytes_holds _ _ _ _ _ _ _ Hv Hok Hh Hlo Hhi) as [[k Ek] _]. unfold dir_region_bytes. rewrite Ek. cbn [res_bind].
      rewrite parse_dir_region_parse, Hp. by apply IHs.
    + rewrite lookup_from_skip by (by eapply find_entry_later). by apply IH.
Qed.
