(* ===== verification/FatStage.v ===== *)
(** * The staging directory of a FAT image

    Laws of writing files into the staged tree: children stay in name order, a
    written file is found and the others are left, and only the names of the
    written paths appear. *)

From S2P Require Import Prelude Windows FatNames FatNamesProps Fat FatProps FatImage FatRead.
From stdpp Require Import base tactics numbers list option strings.
From Stdlib Require Import ZArith Lia.

Open Scope Z_scope.

(** ** Name order *)

Lemma text_ltb_irrefl a : text_ltb a a = false.
Proof. induction a as [|x a IH]; [done|]. cbn. by rewrite Z.ltb_irrefl, Z.eqb_refl, IH. Qed.

Lemma text_ltb_total a : forall b, a <> b -> text_ltb a b = false -> text_ltb b a = true.
Proof.
  induction a as [|x a IH]; intros [|y b]; [done..|]. cbn. intros Hne Hl. bools.
  destruct (Z.ltb_spec y x) as [|Hyx]; [done|]. assert (x = y) as -> by lia. rewrite Z.eqb_refl in *. cbn [orb andb] in *.
  apply IH; [congruence|]. destruct (text_ltb a b); [|done]. naive_solver.
Qed.

Lemma text_ltb_trans a : forall b c, text_ltb a b = true -> text_ltb b c = true -> text_ltb a c = true.
Proof.
  induction a as [|x a IH]; intros [|y b] [|z c]; try done. cbn.
  rewrite !orb_true_iff, !andb_true_iff, !Z.ltb_lt, !Z.eqb_eq. intros [H1|[-> H1]] [H2|[-> H2]]; try (left; lia).
  right. split; [done|by eapply IH].
Qed.

(** ** Sorted trees *)

Fixpoint sorted_tree (t : Entries) : bool :=
  match t with
  | NoMore => true
  | AFile name _ rest => forallb (text_ltb name) (names rest) && sorted_tree rest
  | ADir name sub rest => forallb (text_ltb name) (names rest) && sorted_tree sub && sorted_tree rest
  end.

Lemma all_after a b l : text_ltb a b = true -> forallb (text_ltb b) l = true -> forallb (text_ltb a) l = true.
Proof. rewrite !forallb_forall. intros Hab Hb n Hn. eapply text_ltb_trans; [exact Hab|by apply Hb]. Qed.

Lemma not_after name l : forallb (text_ltb name) l = true -> ~ In name l.
Proof. rewrite forallb_forall. intros H Hin%H. by rewrite text_ltb_irrefl in Hin. Qed.

Lemma names_fresh part more content rest : names (fresh_branch part more content rest) = part :: names rest.
Proof. by destruct more. Qed.

Lemma sorted_fresh part content more : forall p rest,
  p = part -> sorted_tree rest = true -> forallb (text_ltb part) (names rest) = true -> sorted_tree (fresh_branch p more content rest) = true.
Proof.
  revert part. induction more as [|next more IH]; intros part p rest -> Hr Ha; cbn [fresh_branch sorted_tree]; rewrite Ha, Hr; [done|].
  by rewrite (IH next) by done.
Qed.

(** What [stage] leaves as names: the old ones and the first part of the path. *)
Lemma stage_names t part more content t' :
  stage t part more content = Ok t' -> forall n, In n (names t') -> n = part \/ In n (names t).
Proof.
  revert t'. induction t as [|name old rest IH|name sub _ rest IH]; intros t' Hs n Hn; cbn [stage] in Hs.
  - injection Hs as <-. rewrite names_fresh in Hn. destruct Hn as [->|[]]. by left.
  - destruct (decide (name = part)) as [->|Hne]; [destruct more; [|done]; injection Hs as <-; by right|].
    destruct (text_ltb part name); [injection Hs as <-; rewrite names_fresh in Hn; destruct Hn as [->|?]; auto|].
    destruct (stage rest part more content) as [rest'| |]; [|done..]. injection Hs as <-. destruct Hn as [->|Hn]; [right; by left|].
    destruct (IH _ eq_refl n Hn); [by left|right; by right].
  - destruct (decide (name = part)) as [->|Hne].
    { destruct more; [done|]. destruct (stage sub _ _ content); [|done..]. injection Hs as <-. by right. }
    destruct (text_ltb part name); [injection Hs as <-; rewrite names_fresh in Hn; destruct Hn as [->|?]; auto|].
    destruct (stage rest part more content) as [rest'| |]; [|done..]. injection Hs as <-. destruct Hn as [->|Hn]; [right; by left|].
    destruct (IH _ eq_refl n Hn); [by left|right; by right].
Qed.

Lemma stage_after t part more content t' name :
  stage t part more content = Ok t' -> text_ltb name part = true -> forallb (text_ltb name) (names t) = true ->
  forallb (text_ltb name) (names t') = true.
Proof.
  intros Hs Hp. rewrite !forallb_forall. intros Ht n Hn. destruct (stage_names _ _ _ _ _ Hs n Hn) as [->|?]; [done|by apply Ht].
Qed.

Lemma stage_sorted content t : forall part more t', stage t part more content = Ok t' -> sorted_tree t = true -> sorted_tree t' = true.
Proof.
  induction t as [|name old rest IH|name sub IHs rest IH]; intros part more t' Hs Ht; cbn [stage] in Hs.
  - injection Hs as <-. by eapply sorted_fresh.
  - destruct (decide (name = part)) as [->|Hne]; [destruct more; [|done]; by injection Hs as <-|].
    destruct (text_ltb part name) eqn:El.
    { injection Hs as <-. eapply sorted_fresh; [done..|]. cbn [names forallb sorted_tree] in *. bools. rewrite El. by eapply all_after. }
    destruct (stage rest part more content) as [rest'| |] eqn:Es; [|done..]. injection Hs as <-. cbn [sorted_tree] in *. bools.
    apply andb_true_iff. split; [|by eapply IH]. eapply stage_after; [done| |done]. apply text_ltb_total; [congruence|done].
  - destruct (decide (name = part)) as [->|Hne].
    { destruct more; [done|]. destruct (stage sub _ _ content) as [sub'| |] eqn:Es; [|done..]. injection Hs as <-. cbn [sorted_tree] in *. bools.
      rewrite !andb_true_iff. split_and!; [done|by eapply IHs|done]. }
    destruct (text_ltb part name) eqn:El.
    { injection Hs as <-. eapply sorted_fresh; [done..|]. cbn [names forallb sorted_tree] in *. bools. rewrite El. by eapply all_after. }
    destruct (stage rest part more content) as [rest'| |] eqn:Es; [|done..]. injection Hs as <-. cbn [sorted_tree] in *. bools.
    rewrite !andb_true_iff. split_and!; [|done|by eapply IH]. eapply stage_after; [done| |done]. apply text_ltb_total; [congruence|done].
Qed.

(** ** Files *)

Lemma file_at_fresh content more : forall part rest p m,
  file_at (fresh_branch part more content rest) p m = if decide (part = p) then if decide (more = m) then Some content else None else file_at rest p m.
Proof.
  induction more as [|next more IH]; intros part rest p m; cbn [fresh_branch file_at]; destruct (decide (part = p)) as [->|]; try done.
  - by destruct m.
  - destruct m as [|q m]; [done|]. rewrite IH. cbn [file_at]. destruct (decide (next = q)) as [->|].
    + destruct (decide (more = m)) as [->|]; [by rewrite decide_True|rewrite decide_False by congruence; done].
    + by rewrite decide_False by congruence.
Qed.

Lemma stage_file_same content t : forall part more t', stage t part more content = Ok t' -> file_at t' part more = Some content.
Proof.
  induction t as [|name old rest IH|name sub IHs rest IH]; intros part more t' Hs; cbn [stage] in Hs.
  - injection Hs as <-. by rewrite file_at_fresh, !decide_True.
  - destruct (decide (name = part)) as [->|Hne]; [destruct more; [|done]; injection Hs as <-; cbn [file_at]; by rewrite decide_True|].
    destruct (text_ltb part name); [injection Hs as <-; by rewrite file_at_fresh, !decide_True|].
    destruct (stage rest part more content) as [rest'| |] eqn:Es; [|done..]. injection Hs as <-. cbn [file_at]. rewrite decide_False by done. by apply IH.
  - destruct (decide (name = part)) as [->|Hne].
    { destruct more; [done|]. destruct (stage sub _ _ content) as [sub'| |] eqn:Es; [|done..]. injection Hs as <-. cbn [file_at]. rewrite decide_True by done. by apply IHs. }
    destruct (text_ltb part name); [injection Hs as <-; by rewrite file_at_fresh, !decide_True|].
    destruct (stage rest part more content) as [rest'| |] eqn:Es; [|done..]. injection Hs as <-. cbn [file_at]. rewrite decide_False by done. by apply IH.
Qed.

(** A name before all those of a tree is not one of them. *)
Lemma file_at_before t part more : forallb (text_ltb part) (names t) = true -> file_at t part more = None.
Proof. intros Ht%not_after. destruct (file_at t part more) eqn:E; [by apply file_at_name in E|done]. Qed.

Lemma file_at_inserted t part more content p m :
  forallb (text_ltb part) (names t) = true -> (p, m) <> (part, more) -> file_at (fresh_branch part more content t) p m = file_at t p m.
Proof.
  intros Ht Hne. rewrite file_at_fresh. destruct (decide (part = p)) as [->|]; [|done]. rewrite decide_False by congruence. by rewrite file_at_before.
Qed.

Lemma stage_file_other content t : forall part more t' p m,
  stage t part more content = Ok t' -> sorted_tree t = true -> (p, m) <> (part, more) -> file_at t' p m = file_at t p m.
Proof.
  induction t as [|name old rest IH|name sub IHs rest IH]; intros part more t' p m Hs Ht Hne; cbn [stage] in Hs.
  - injection Hs as <-. by apply file_at_inserted.
  - destruct (decide (name = part)) as [->|Hnp].
    { destruct more; [|done]. injection Hs as <-. cbn [file_at]. destruct (decide (part = p)) as [->|]; [|done]. by destruct m. }
    destruct (text_ltb part name) eqn:El.
    { injection Hs as <-. apply file_at_inserted; [|done]. cbn [names forallb sorted_tree] in *. bools. rewrite El. by eapply all_after. }
    destruct (stage rest part more content) as [rest'| |] eqn:Es; [|done..]. injection Hs as <-. cbn [file_at sorted_tree] in *. bools.
    destruct (decide (name = p)); [done|]. by eapply IH.
  - destruct (decide (name = part)) as [->|Hnp].
    { destruct more as [|next more]; [done|]. destruct (stage sub _ _ content) as [sub'| |] eqn:Es; [|done..]. injection Hs as <-.
      cbn [file_at sorted_tree] in *. bools. destruct (decide (part = p)) as [->|]; [|done]. destruct m as [|q m]; [done|]. eapply IHs; [done..|]. congruence. }
    destruct (text_ltb part name) eqn:El.
    { injection Hs as <-. apply file_at_inserted; [|done]. cbn [names forallb sorted_tree] in *. bools. rewrite El. by eapply all_after. }
    destruct (stage rest part more content) as [rest'| |] eqn:Es; [|done..]. injection Hs as <-. cbn [file_at sorted_tree] in *. bools.
    destruct (decide (name = p)); [done|]. by eapply IH.
Qed.

(** The file of a tree at a path as the callers write it. *)
Definition tree_file (t : Entries) (path : text) : option bytes := let '(part, more) := split_path path in file_at t part more.

Lemma split_path_inj p : forall q, split_path p = split_path q -> p = q.
Proof.
  induction p as [|c p IH]; intros [|d q]; cbn [split_path].
  - done.
  - destruct (split_path q). by destruct (d =? 47).
  - destruct (split_path p). by destruct (c =? 47).
  - destruct (split_path p) as [pp ps] eqn:Ep, (split_path q) as [qp qs] eqn:Eq.
    destruct (Z.eqb_spec c 47) as [->|], (Z.eqb_spec d 47) as [->|]; intros E; simplify_eq; f_equal; by apply IH.
Qed.

(** Staging files makes the last content written to a path its file, and leaves
    the paths that are not written. *)
Lemma stage_files_spec files : forall t t',
  stage_files t files = Ok t' -> sorted_tree t = true -> NoDup (map fst files) ->
  sorted_tree t' = true /\ (forall path content, (path, content) ∈ files -> tree_file t' path = Some content) /\
  (forall path, path ∉ map fst files -> tree_file t' path = tree_file t path).
Proof.
  induction files as [|[name content] files IH]; intros t t' Hs Ht Hn; cbn [stage_files] in Hs.
  { injection Hs as <-. split_and!; [done| |done]. intros path content Hin. by apply elem_of_nil in Hin. }
  destruct (split_path name) as [part more] eqn:Ep. destruct (stage t part more content) as [t1| |] eqn:Es; [|done..]. cbn [res_bind] in Hs.
  cbn [map fst] in Hn. apply NoDup_cons in Hn as [Hnin Hn]. destruct (IH _ _ Hs (stage_sorted _ _ _ _ _ Es Ht) Hn) as (Hs'&Hin&Hout).
  assert (forall path, path <> name -> tree_file t1 path = tree_file t path) as Hother.
  { intros path Hne. unfold tree_file. destruct (split_path path) as [p m] eqn:Eq. eapply stage_file_other; [done..|]. intros E.
    apply Hne, split_path_inj. congruence. }
  split_and!; [done|..].
  - intros path c [E|Hf]%elem_of_cons; [|by apply Hin]. injection E as -> ->. rewrite (Hout _ Hnin). unfold tree_file. rewrite Ep. by eapply stage_file_same.
  - intros path Hnot. cbn [map fst] in Hnot. apply not_elem_of_cons in Hnot as [Hne Hnot]. by rewrite Hout, Hother.
Qed.

(** ** Names *)

(** The paths of a tree, directories included. *)
Fixpoint node (t : Entries) (part : text) (more : list text) : Prop :=
  match t with
  | NoMore => False
  | AFile name _ rest => (name = part /\ more = []) \/ node rest part more
  | ADir name sub rest => (name = part /\ match more with [] => True | next :: more => node sub next more end) \/ node rest part more
  end.

Lemma node_fresh content more : forall part rest p m, node (fresh_branch part more content rest) p m -> p :: m `prefix_of` part :: more \/ node rest p m.
Proof.
  induction more as [|next more IH]; intros part rest p m; cbn [fresh_branch node].
  - intros [[-> ->]|?]; [by left|by right].
  - intros [[-> H]|?]; [left|by right]. apply prefix_cons. destruct m as [|q m]; [apply prefix_nil|].
    apply IH in H as [H|[]]. done.
Qed.

Lemma stage_node content t : forall part more t' p m,
  stage t part more content = Ok t' -> node t' p m -> p :: m `prefix_of` part :: more \/ node t p m.
Proof.
  induction t as [|name old rest IH|name sub IHs rest IH]; intros part more t' p m Hs Hn; cbn [stage] in Hs.
  - injection Hs as <-. by apply node_fresh in Hn.
  - destruct (decide (name = part)) as [->|Hnp]; [destruct more; [|done]; injection Hs as <-; by right|].
    destruct (text_ltb part name); [injection Hs as <-; by apply node_fresh in Hn|].
    destruct (stage rest part more content) as [rest'| |] eqn:Es; [|done..]. injection Hs as <-. cbn [node] in *.
    destruct Hn as [?|Hn]; [by right; left|]. destruct (IH _ _ _ _ _ Es Hn); [by left|by right; right].
  - destruct (decide (name = part)) as [->|Hnp].
    { destruct more as [|next more]; [done|]. destruct (stage sub _ _ content) as [sub'| |] eqn:Es; [|done..]. injection Hs as <-. cbn [node] in *.
      destruct Hn as [[-> Hn]|Hn]; [|by right; right]. destruct m as [|q m]; [by right; left|].
      destruct (IHs _ _ _ _ _ Es Hn); [left; by apply prefix_cons|by right; left]. }
    destruct (text_ltb part name); [injection Hs as <-; by apply node_fresh in Hn|].
    destruct (stage rest part more content) as [rest'| |] eqn:Es; [|done..]. injection Hs as <-. cbn [node] in *.
    destruct Hn as [?|Hn]; [by right; left|]. destruct (IH _ _ _ _ _ Es Hn); [by left|by right; right].
Qed.

(** Every path of a staged tree leads to a written file. *)
Lemma stage_files_node files : forall t t' p m,
  stage_files t files = Ok t' -> node t' p m -> node t p m \/ exists path, path ∈ map fst files /\ p :: m `prefix_of` split_parts path.
Proof.
  induction files as [|[name content] files IH]; intros t t' p m Hs Hn; cbn [stage_files] in Hs; [injection Hs as <-; by left|].
  destruct (split_path name) as [part more] eqn:Ep. destruct (stage t part more content) as [t1| |] eqn:Es; [|done..]. cbn [res_bind] in Hs.
  destruct (IH _ _ _ _ Hs Hn) as [H1|(path&Hin&Hp)].
  - destruct (stage_node _ _ _ _ _ _ _ Es H1) as [Hpre|?]; [|by left]. right. exists name. split; [by left|]. unfold split_parts. by rewrite Ep.
  - right. exists path. split; [by right|done].
Qed.

Lemma names_node t n : In n (names t) -> node t n [].
Proof.
  induction t as [|name old rest IH|name sub _ rest IH]; cbn [names node]; [done|..]; (intros [->|Hin]; [by left|right; by apply IH]).
Qed.

(** Paths that agree up to ASCII case agree. *)
Definition case_faithful (Q : list text -> Prop) : Prop :=
  forall pre a b, Q (pre ++ [a]) -> Q (pre ++ [b]) -> eq_ignore_ascii_case a b = true -> a = b.

Lemma case_faithful_under Q name : case_faithful Q -> case_faithful (fun m => Q (name :: m)).
Proof. intros HQ pre a b Ha Hb. by apply (HQ (name :: pre)). Qed.

Lemma distinct_names (Q : list text -> Prop) name rest :
  case_faithful Q -> Q [name] -> (forall p, node rest p [] -> Q [p]) -> forallb (text_ltb name) (names rest) = true ->
  forallb (fun n => negb (eq_ignore_ascii_case name n)) (names rest) = true.
Proof.
  intros HQ Hname Hrest Hs. apply not_after in Hs. apply forallb_forall. intros n Hn. apply negb_true_iff.
  destruct (eq_ignore_ascii_case name n) eqn:E; [|done]. exfalso. apply Hs.
  rewrite (HQ [] name n); [done|done|by apply Hrest, names_node|done].
Qed.

Lemma distinct_from_nodes t : forall Q : list text -> Prop,
  case_faithful Q -> (forall p m, node t p m -> Q (p :: m)) -> sorted_tree t = true -> distinct_tree t = true.
Proof.
  induction t as [|name old rest IH|name sub IHs rest IH]; intros Q HQ Hn Ht; cbn [distinct_tree sorted_tree node] in *; [done|..]; bools.
  - rewrite andb_true_iff. split; [|eapply IH; [done| |done]; auto]. eapply distinct_names; [done|by apply Hn; left| |done]. auto.
  - rewrite !andb_true_iff. split_and!; [|eapply IHs; [by apply (case_faithful_under Q name)| |done]|eapply IH; [done| |done]; auto].
    + eapply distinct_names; [done|by apply Hn; left| |done]. auto.
    + intros p m Hm. apply Hn. by left.
Qed.

Lemma plain_from_nodes t : (forall p m, node t p m -> Forall plain_name (p :: m)) -> plain_tree t.
Proof.
  intros Hn. assert (forall t pre, (forall p m, node t p m -> Forall plain_name (pre ++ p :: m)) -> plain_tree t) as H; [|by apply (H t [])].
  clear. induction t as [|name old rest IH|name sub IHs rest IH]; intros pre Hn; cbn [plain_tree node] in *; [done|..].
  - split; [|apply (IH pre); auto]. specialize (Hn name [] (or_introl (conj eq_refl eq_refl))). by apply Forall_app in Hn as [_ [? _]%Forall_cons].
  - split_and!; [|apply (IHs (pre ++ [name]))|apply (IH pre); auto].
    + specialize (Hn name [] (or_introl (conj eq_refl I))). by apply Forall_app in Hn as [_ [? _]%Forall_cons].
    + intros p m Hm. rewrite <- app_assoc. cbn [app]. apply Hn. by left.
Qed.

(** ** Extraction *)

Fixpoint append_tree (t k : Entries) : Entries :=
  match t with
  | NoMore => k
  | AFile name content rest => AFile name content (append_tree rest k)
  | ADir name sub rest => ADir name sub (append_tree rest k)
  end.

Lemma append_tree_nil t : append_tree t NoMore = t.
Proof. by induction t as [|name old rest IH|name sub _ rest IH]; cbn [append_tree]; [done|rewrite IH..]. Qed.

Lemma append_tree_assoc t k j : append_tree (append_tree t k) j = append_tree t (append_tree k j).
Proof. by induction t as [|name old rest IH|name sub _ rest IH]; cbn [append_tree]; [done|rewrite IH..]. Qed.

Lemma names_append t k : names (append_tree t k) = names t ++ names k.
Proof. by induction t as [|name old rest IH|name sub _ rest IH]; cbn [append_tree names]; [done|rewrite IH..]. Qed.

Definition before (name : text) (n : text) : bool := text_ltb n name.

Lemma not_before a b : text_ltb a b = true -> a <> b /\ text_ltb b a = false.
Proof.
  intros H. split; [intros ->; by rewrite text_ltb_irrefl in H|]. destruct (text_ltb b a) eqn:E; [|done].
  pose proof (text_ltb_trans _ _ _ H E) as H'. by rewrite text_ltb_irrefl in H'.
Qed.

(** A name after all those of a tree goes to its end. *)
Lemma add_dir_end t name children : forallb (before name) (names t) = true -> add_dir t name children = Ok (append_tree t (ADir name children NoMore)).
Proof.
  induction t as [|n old rest IH|n sub _ rest IH]; cbn [names forallb add_dir append_tree]; [done|..]; intros H; bools;
    destruct (not_before n name) as [? ->]; try done; rewrite decide_False by done; by rewrite IH.
Qed.

Lemma stage_end t name content : forallb (before name) (names t) = true -> stage t name [] content = Ok (append_tree t (AFile name content NoMore)).
Proof.
  induction t as [|n old rest IH|n sub _ rest IH]; cbn [names forallb stage append_tree]; [done|..]; intros H; bools;
    destruct (not_before n name) as [? ->]; try done; rewrite decide_False by done; by rewrite IH.
Qed.

Fixpoint depth (t : Entries) : nat :=
  match t with NoMore => O | AFile _ _ rest => depth rest | ADir _ sub rest => Nat.max (S (depth sub)) (depth rest) end.

(** Names the host accepts. *)
Definition host_ok (name : text) : Prop := unsafe_name name = false /\ contains name 0 = false.

Fixpoint host_tree (t : Entries) : Prop :=
  match t with
  | NoMore => True
  | AFile name _ rest => host_ok name /\ host_tree rest
  | ADir name sub rest => host_ok name /\ host_tree sub /\ host_tree rest
  end.

(** Every name of [t] comes after every name of [out]. *)
Definition follows (out t : Entries) : Prop := forall n, In n (names t) -> forallb (before n) (names out) = true.

Lemma follows_head out t n : follows out t -> In n (names t) -> forallb (before n) (names out) = true.
Proof. intros H Hin. by apply H. Qed.

Lemma follows_next out one rest name :
  names one = [name] -> forallb (text_ltb name) (names rest) = true -> (forall n, In n (names rest) -> forallb (before n) (names out) = true) ->
  follows (append_tree out one) rest.
Proof.
  intros E1 Hs Hf n Hn. rewrite names_append, forallb_app, (Hf n Hn), E1. cbn [forallb andb]. rewrite andb_true_r.
  rewrite forallb_forall in Hs. by apply Hs.
Qed.

Lemma extract_each_lists r b lo hi extract t : forall es out,
  views r b -> builder_ok b -> 2 <= lo -> hi <= max_clusters b + 2 -> lists lo hi b t es -> sorted_tree t = true -> host_tree t -> follows out t ->
  (forall sub sub_es, lists lo hi b sub sub_es -> sorted_tree sub = true -> host_tree sub -> (S (depth sub) <= depth t)%nat -> extract sub_es = Ok sub) ->
  extract_each extract r es out = Ok (append_tree out t).
Proof.
  induction t as [|name old rest IH|name sub IHs rest IH]; intros es out Hv Hok Hlo Hhi Hl Hst Hh Hf Hex;
    destruct es as [|e es]; try done; cbn [lists sorted_tree host_tree depth] in *; bools; [cbn; by rewrite append_tree_nil|..].
  - destruct Hl as [(c&->&Hs) Hl]. destruct Hh as [[Hu Hz] Hh]. cbn [extract_each de_name de_is_dir de_cluster de_size]. rewrite Hu.
    erewrite chain_bytes_stored by done. cbn [res_bind]. unfold host_name. rewrite Hz. cbn [res_bind].
    rewrite stage_end by (apply Hf; by left). cbn [res_bind].
    rewrite (IH es); [by rewrite append_tree_assoc|done..| |done]. eapply follows_next; [done|done|]. intros n Hn. apply Hf. by right.
  - destruct Hl as [(c&cs&raw&sub_es&->&Hhold&Hp&Hs) Hl]. destruct Hh as ([Hu Hz]&Hhs&Hh). cbn [extract_each de_name de_is_dir de_cluster]. rewrite Hu.
    unfold host_name. rewrite Hz. cbn [res_bind]. rewrite add_dir_end by (apply Hf; by left). cbn [res_bind].
    destruct (chain_bytes_holds _ _ _ _ _ _ _ Hv Hok Hhold Hlo Hhi) as [[k Ek] _]. unfold dir_region_bytes. rewrite Ek. cbn [res_bind].
    rewrite parse_dir_region_parse, Hp, (Hex sub) by (done || lia). cbn [res_bind].
    rewrite add_dir_end by (apply Hf; by left). cbn [res_bind].
    rewrite (IH es); [by rewrite append_tree_assoc|done..| |].
    + eapply follows_next; [done|done|]. intros n Hn. apply Hf. by right.
    + intros s s_es H1' H2' H3' H4'. apply Hex; [done..|]. lia.
Qed.

(** Extracting the directory that describes a tree gives the tree. *)
Lemma extract_dir_lists r b lo hi fuel : forall t es,
  views r b -> builder_ok b -> 2 <= lo -> hi <= max_clusters b + 2 -> lists lo hi b t es -> sorted_tree t = true -> host_tree t -> (depth t < fuel)%nat ->
  extract_dir fuel r es = Ok t.
Proof.
  induction fuel as [|fuel IH]; intros t es Hv Hok Hlo Hhi Hl Hst Hh Hd; [lia|]. cbn [extract_dir].
  rewrite (extract_each_lists r b lo hi (extract_dir fuel r) t es NoMore); try done. intros sub sub_es ? ? ? ?. apply IH; try done. lia.
Qed.
