(* ===== verification/FatRoundtrip.v ===== *)
(** * Creating and updating EFI images, and reading them back

    The assembled image carries the layout in its boot sector, the table and the
    clusters of the builder; so what [create_efi] and [update_efi] write is what
    [read_efi_files] gives. *)

From S2P Require Import Prelude Windows FatNames FatNamesProps Fat FatProps FatImage FatRead FatStage.
From stdpp Require Import base tactics numbers list option strings.
From Stdlib Require Import ZArith Lia.

Open Scope Z_scope.

(** ** Fields of the boot sector *)

Definition part (image : bytes) (off n : Z) : bytes := ztake n (zdrop off image).
Definition field (image : bytes) (off : Z) (src : bytes) : Prop := part image off (zlen src) = src.

Fixpoint ascending (lo : Z) (fields : list (Z * bytes)) : Prop :=
  match fields with
  | [] => True
  | (off, src) :: fields => lo <= off /\ ascending (off + zlen src) fields
  end.

(** Fields put in ascending order are all there afterwards. *)
Lemma puts_fields fields : forall image image' lo,
  puts image fields = Ok image' -> ascending lo fields -> 0 <= lo ->
  zlen image' = zlen image /\ (forall off n, 0 <= off -> 0 <= n -> off + n <= lo -> part image' off n = part image off n) /\
  Forall (fun f => field image' (fst f) (snd f)) fields.
Proof.
  induction fields as [|[off src] fields IH]; intros image image' lo Hp Ha Hlo; cbn [puts ascending] in *; [by injection Hp as <-|].
  destruct Ha as [Hoff Ha]. destruct (copy_at image off src) as [image1| |] eqn:Ec; [|done..]. cbn [res_bind] in Hp. pose proof (zlen_nonneg src).
  destruct (IH _ _ _ Hp Ha) as (Hz&Hsame&Hf); [lia|]. pose proof (part_copy_same _ _ _ _ Ec) as Hs.
  pose proof (fun lo n => part_copy_other _ _ _ _ lo n Ec) as Ho. apply copy_at_inv in Ec as (_&_&Hz1&_). split_and!; [congruence|..].
  - intros o n H0 Hn Hb. rewrite Hsame by lia. apply Ho; lia.
  - constructor; [|done]. unfold field. cbn [fst snd]. rewrite Hsame by lia. exact Hs.
Qed.

Lemma bpb_ascending l rc label : fat_type l = Fat32 -> zlen label = 11 -> ascending 0 (bpb_fields l rc label).
Proof.
  intros Ht Hl. unfold bpb_fields. rewrite Ht. cbn [app ascending]. rewrite !zlen_le_bytes, Hl. repeat split; by_compute.
Qed.

(** A region of a region. *)
Lemma part_part image start len o n : 0 <= start -> 0 <= o -> 0 <= n -> o + n <= len -> part (part image start len) o n = part image (start + o) n.
Proof.
  intros. unfold part. unfold ztake, zdrop. rewrite skipn_firstn_comm, firstn_firstn, skipn_skipn. f_equal; [lia|f_equal; lia].
Qed.

Lemma part_split image off n m : 0 <= off -> 0 <= n -> 0 <= m -> part image off (n + m) = part image off n ++ part image (off + n) m.
Proof.
  intros. unfold part, ztake, zdrop. rewrite Z2Nat.inj_add by lia. rewrite <- take_take_drop, drop_drop. do 3 f_equal. lia.
Qed.

(** ** Assembly *)

Lemma write_reserved_spec image bps free next image' :
  write_reserved image bps free next = Ok image' -> 512 <= bps ->
  zlen image' = zlen image /\ forall off n, 0 <= off -> 0 <= n -> off + n <= 512 -> part image' off n = part image off n.
Proof.
  unfold write_reserved. intros Hw Hb.
  assert (forall src pos a b, copy_at (E:=EfiError) a pos src = Ok b -> 512 <= pos ->
    zlen b = zlen a /\ forall off n, 0 <= off -> 0 <= n -> off + n <= 512 -> part b off n = part a off n) as Hc.
  { intros src pos a b' Ec Hp. split; [by apply copy_at_inv in Ec as (_&_&?&_)|]. intros. apply (part_copy_other _ _ _ _ _ _ Ec); lia. }
  destruct (if 2 * bps <=? zlen image then _ else _) as [image1| |] eqn:E1; [|done..]. cbn [res_bind] in Hw.
  assert (zlen image1 = zlen image /\ forall off n, 0 <= off -> 0 <= n -> off + n <= 512 -> part image1 off n = part image off n) as [Hz1 Hs1].
  { destruct (2 * bps <=? zlen image); [|by injection E1 as <-]. destruct (slice image bps (2 * bps)); [|done..]. cbn [res_bind] in E1.
    destruct (write_fsinfo _ free next); [|done..]. cbn [res_bind] in E1. by eapply Hc. }
  destruct (8 * bps <=? zlen image1); [|by injection Hw as <-]. destruct (slice image1 0 (2 * bps)); [|done..]. cbn [res_bind] in Hw.
  apply Hc in Hw as [Hz2 Hs2]; [|lia]. split; [congruence|]. intros. by rewrite Hs2, Hs1.
Qed.

Lemma write_fats_spec fat n : forall image start image',
  write_fats n image start fat = Ok image' -> 0 <= start ->
  zlen image' = zlen image /\ (forall off k, 0 <= off -> 0 <= k -> off + k <= start -> part image' off k = part image off k) /\
  ((1 <= n)%nat -> part image' start (zlen fat) = fat).
Proof.
  induction n as [|n IH]; intros image start image' Hw Hs; cbn [write_fats] in Hw; [injection Hw as <-; split_and!; [done..|lia]|].
  destruct (copy_at image start fat) as [image1| |] eqn:Ec; [|done..]. cbn [res_bind] in Hw. pose proof (zlen_nonneg fat).
  destruct (IH _ _ _ Hw) as (Hz&Hsame&_); [lia|]. pose proof (part_copy_same _ _ _ _ Ec) as Hs1. pose proof (fun lo n => part_copy_other _ _ _ _ lo n Ec) as Ho.
  apply copy_at_inv in Ec as (_&_&Hz1&_). split_and!; [congruence|..].
  - intros off k H0 Hk Hb. rewrite Hsame by lia. apply Ho; lia.
  - intros _. rewrite Hsame by lia. exact Hs1.
Qed.

(** Layouts of FAT32 images that the boot sector can carry. *)
Record layout_ok (l : Layout) : Prop := {
  lo_type : fat_type l = Fat32;
  lo_bps : bytes_per_sector l ∈ [512; 1024; 2048; 4096];
  lo_spc : 1 <= sectors_per_cluster l < 2 ^ 8;
  lo_reserved : 1 <= reserved_sectors l < 2 ^ 16;
  lo_fats : 1 <= num_fats l < 2 ^ 8;
  lo_root : root_entry_count l = 0;
  lo_total : 1 <= total_sectors l < 2 ^ 32;
  lo_hidden : u32 (hidden_sectors l);
  lo_volume : u32 (volume_id l);
  lo_size : 1 <= fat_size_sectors l < 2 ^ 32;
}.

Lemma layout_bps l : layout_ok l -> 512 <= bytes_per_sector l <= 4096.
Proof. intros Hl. pose proof (lo_bps _ Hl) as H. repeat (apply elem_of_cons in H as [->|H]; [lia|]). by apply elem_of_nil in H. Qed.

Lemma layout_root_sectors l : layout_ok l -> root_dir_sectors l = 0.
Proof. intros Hl. unfold root_dir_sectors, div_ceil. rewrite (lo_root _ Hl). pose proof (layout_bps _ Hl). apply Z.div_small. lia. Qed.

(** What [finish] leaves of the builder. *)
Record assembled (image : bytes) (b : Builder) (root : Z) : Prop := {
  as_length : zlen image = total_sectors (layout b) * bytes_per_sector (layout b);
  as_boot : Forall (fun f => field image (fst f) (snd f)) (bpb_fields (layout b) root VOLUME_LABEL);
  as_fat : part image (first_fat_sector (layout b) * bytes_per_sector (layout b)) (zlen (fat b)) = fat b;
  as_data : part image (first_data_sector (layout b) * bytes_per_sector (layout b)) (zlen (data b)) = data b;
  as_data_end : first_data_sector (layout b) * bytes_per_sector (layout b) + zlen (data b) <= zlen image;
}.

Lemma bpb_inside l rc label : fat_type l = Fat32 -> zlen label = 11 -> Forall (fun f => 0 <= fst f /\ fst f + zlen (snd f) <= 512) (bpb_fields l rc label).
Proof.
  intros Ht Hl. unfold bpb_fields. rewrite Ht. cbn [app]. repeat (apply Forall_cons; split; [cbn [fst snd]; rewrite ?zlen_le_bytes, ?Hl; split; by_compute|]). done.
Qed.

Lemma zeros_zlen n : 0 <= n -> zlen (zeros n) = n.
Proof. intros. rewrite zlen_zeros. lia. Qed.

Lemma finish_assembled b root image :
  finish b (layout b) (Some root) None = Ok image -> layout_ok (layout b) -> zlen (fat b) = fat_region_len (layout b) -> assembled image b root.
Proof.
  intros Hf Hl Hfat. set (l := layout b) in *. pose proof (layout_bps _ Hl) as Hbps. pose proof (lo_reserved _ Hl). pose proof (lo_fats _ Hl). pose proof (lo_size _ Hl).
  pose proof (lo_total _ Hl). unfold finish in Hf. destruct (or_panic _) as [used| |]; [|done..]. cbn [res_bind default] in Hf.
  set (free := saturating_sub _ _) in *. clearbody free. cbn [from_option id] in Hf.
  destruct (write_bpb _ l root VOLUME_LABEL) as [i1| |] eqn:E1; [|done..]. cbn [res_bind] in Hf. rewrite (lo_type _ Hl) in Hf.
  destruct (write_reserved i1 _ _ _) as [i2| |] eqn:E2; [|done..]. cbn [res_bind] in Hf.
  destruct (write_fats _ i2 _ (fat b)) as [i3| |] eqn:E3; [|done..]. cbn [res_bind] in Hf.
  apply (puts_fields _ _ _ 0) in E1 as (Z1&_&F1); [|by apply bpb_ascending; [apply lo_type|]|lia].
  apply write_reserved_spec in E2 as (Z2&S2); [|lia]. unfold first_fat_sector in E3.
  apply write_fats_spec in E3 as (Z3&S3&K3); [|nia]. rewrite zeros_zlen in Z1 by nia.
  pose proof (part_copy_same _ _ _ _ Hf) as S4. pose proof (fun lo n => part_copy_other _ _ _ _ lo n Hf) as O4.
  apply copy_at_inv in Hf as (Hst0&Hend&Z4&_). pose proof (layout_root_sectors _ Hl) as Hroot.
  assert (first_data_sector l = reserved_sectors l + num_fats l * fat_size_sectors l) as Hd.
  { unfold first_data_sector, first_root_dir_sector, first_fat_sector. lia. }
  assert (fat_region_len l = fat_size_sectors l * bytes_per_sector l) as Hfr by done.
  split; fold l.
  - congruence.
  - pose proof (bpb_inside l root VOLUME_LABEL (lo_type _ Hl) eq_refl) as Hin. rewrite Forall_forall in F1, Hin |- *. intros f Hfin.
    destruct (Hin f Hfin) as [Hp Hq]. pose proof (zlen_nonneg (snd f)). specialize (F1 f Hfin). unfold field in *.
    unfold part at 1. rewrite O4 by nia. fold (part i3 (fst f) (zlen (snd f))). rewrite S3 by nia. by rewrite S2 by lia.
  - unfold part. rewrite O4; [apply K3; lia|unfold first_fat_sector; nia|apply zlen_nonneg|]. left. unfold first_fat_sector. rewrite Hfat, Hfr, Hd. nia.
  - exact S4.
  - lia.
Qed.

(** Such an image shows the builder to a reader. *)
Lemma assembled_views image b root :
  assembled image b root -> layout_ok (layout b) -> zlen (fat b) = fat_region_len (layout b) -> sized b ->
  layout_max_clusters (layout b) = max_clusters b -> views {| image := image; rd_layout := layout b; root_cluster := root |} b.
Proof.
  intros [Hz _ Hfat Hdata Hend] Hl Hlen [Hcb Hd] Hmax. pose proof (layout_bps _ Hl). pose proof (lo_spc _ Hl). pose proof (lo_reserved _ Hl). pose proof (lo_fats _ Hl).
  pose proof (lo_size _ Hl). pose proof (layout_root_sectors _ Hl) as Hroot.
  assert (first_data_sector (layout b) = reserved_sectors (layout b) + num_fats (layout b) * fat_size_sectors (layout b)) as Hfd.
  { unfold first_data_sector, first_root_dir_sector, first_fat_sector. lia. }
  assert (fat_region_len (layout b) = fat_size_sectors (layout b) * bytes_per_sector (layout b)) as Hfr by done.
  pose proof (zlen_nonneg (data b)).
  split; cbn [rd_layout FatImage.image]; [done|done|..].
  - unfold fat_slice. cbn [rd_layout FatImage.image]. unfold first_fat_sector in *. rewrite slice_ok by nia.
    f_equal. rewrite <- Hlen, Z.add_simpl_l. exact Hfat.
  - intros c Hc. set (start := first_data_sector (layout b) * bytes_per_sector (layout b)) in *.
    assert (cluster_offset (layout b) c = start + (c - 2) * cbytes b) as -> by (unfold cluster_offset, cbytes, bytes_per_cluster, start; ring).
    assert (0 <= start) by (unfold start; rewrite Hfd; nia). assert (0 <= (c - 2) * cbytes b) by nia.
    assert ((c - 2) * cbytes b + cbytes b <= zlen (data b)) by nia. split_and!; [lia|lia|].
    rewrite slice_ok by lia. f_equal. rewrite Z.add_simpl_l. change (part image (start + (c - 2) * cbytes b) (cbytes b) = cluster_of b c).
    rewrite <- (part_part image start (zlen (data b))) by lia. by rewrite Hdata.
Qed.

(** ** Reading the boot sector back *)

Lemma le_at_field image off n x :
  field image off (le_bytes n x) -> 0 <= off -> off + Z.of_nat n <= zlen image -> 0 <= x < 2 ^ (8 * Z.of_nat n) -> le_at image off (Z.of_nat n) = Ok x.
Proof.
  unfold field, part, le_at. rewrite zlen_le_bytes. intros Hf H0 Hl Hx. rewrite slice_ok by lia. rewrite Z.add_simpl_l, Hf. cbn [res_bind].
  by rewrite le_val_le_bytes, Z.mod_small.
Qed.

Lemma index_field image off x : field image off [x] -> 0 <= off -> index (E := EfiError) image off = Ok x.
Proof.
  unfold field, part, index. change (zlen [x]) with 1. intros Hf H0. apply (f_equal (fun l => zget l 0)) in Hf. cbn in Hf.
  unfold zget, ztake, zdrop in *. cbn in Hf. rewrite (proj2 (Z.ltb_ge _ _)) by lia. rewrite lookup_take_lt, lookup_drop in Hf by lia.
  replace (Z.to_nat off + Z.to_nat 0)%nat with (Z.to_nat off) in Hf by lia. by rewrite Hf.
Qed.

Lemma assembled_parses image b root :
  assembled image b root -> layout_ok (layout b) -> 2 <= root < 2 ^ 32 -> parse_layout image = Ok (layout b, root).
Proof.
  intros [Hz Hb _ _ _] Hl Hroot. set (l := layout b) in *. pose proof (layout_bps _ Hl) as Hbps. pose proof (lo_total _ Hl) as Htot.
  assert (512 <= zlen image) as H512 by nia.
  unfold bpb_fields in Hb. rewrite (lo_type _ Hl) in Hb. cbn [app] in Hb. rewrite !Forall_cons in Hb. cbn [fst snd] in Hb.
  destruct Hb as (_&_&_&_&F11&F13&F14&F16&F17&F19&_&F22&_&_&F28&F32&F36&_&_&F44&_&_&_&_&_&F67&_&_&F510&F511&_).
  pose proof (lo_spc _ Hl). pose proof (lo_reserved _ Hl). pose proof (lo_fats _ Hl). pose proof (lo_hidden _ Hl) as Hh. pose proof (lo_volume _ Hl) as Hv.
  pose proof (lo_size _ Hl). rewrite (lo_root _ Hl) in F17. rewrite wrap_small in F11, F13, F14, F16, F32 by (unfold in_range; lia).
  apply (le_at_field _ _ 2) in F11, F14, F17, F19, F22; [|(lia || by_compute)..]. apply (le_at_field _ _ 4) in F28, F32, F36, F44, F67; [|(lia || done)..].
  apply index_field in F13, F16; [|lia..].
  assert (slice (E := EfiError) image 510 512 = Ok [0x55; 0xaa]) as Hmark.
  { rewrite slice_ok by lia. f_equal. change (part image 510 (1 + 1) = [0x55] ++ [0xaa]). rewrite part_split by lia. f_equal; [exact F510|exact F511]. }
  unfold parse_layout, efi_sector_size. rewrite (proj2 (Z.ltb_ge (zlen image) 512)) by lia. rewrite Hmark. cbn [res_bind].
  rewrite bool_decide_eq_true_2 by done. cbn [negb].
  assert (exists s, slice (E := EfiError) image 11 13 = Ok s /\ le_val s = bytes_per_sector l) as (s&Es&Ev).
  { unfold le_at in F11. change (11 + Z.of_nat 2) with 13 in F11. destruct (slice image 11 13) as [s| |]; [|done..]. exists s. split; [done|]. by injection F11. }
  rewrite Es. cbn [res_bind]. rewrite Ev.
  assert (validate_efi_geometry (zlen image) (bytes_per_sector l) = Ok tt) as ->.
  { unfold validate_efi_geometry. rewrite Hz, Z.mod_mul by lia. rewrite (proj2 (Z.eqb_neq _ _)) by nia.
    assert (existsb (Z.eqb (bytes_per_sector l)) [512; 1024; 2048; 4096] = true) as ->; [|done].
    apply existsb_exists. exists (bytes_per_sector l). split; [apply list_elem_of_In, (lo_bps _ Hl)|apply Z.eqb_refl]. }
  change (Z.of_nat 2) with 2 in *. change (Z.of_nat 4) with 4 in *. cbn [res_bind]. rewrite (proj2 (Z.ltb_ge (zlen image) 90)) by lia. rewrite F13. cbn [res_bind]. rewrite (proj2 (Z.eqb_neq _ _)) by lia.
  rewrite F14. cbn [res_bind]. rewrite (proj2 (Z.eqb_neq _ _)) by lia. rewrite F16. cbn [res_bind]. rewrite (proj2 (Z.eqb_neq _ _)) by lia.
  rewrite F17, F19, F22, F28, F32. cbn [res_bind]. rewrite (proj2 (Z.eqb_neq (total_sectors l) 0)) by lia. cbn [negb]. rewrite (proj2 (Z.eqb_neq (total_sectors l) 0)) by lia.
  cbn [Z.eqb negb]. rewrite F36. cbn [res_bind]. rewrite (proj2 (Z.eqb_neq _ _)) by lia. rewrite F44. cbn [res_bind]. rewrite (proj2 (Z.ltb_ge root 2)) by lia.
  cbn [res_bind]. rewrite bool_decide_eq_true_2 by done. cbn [andb]. rewrite F67. cbn [res_bind].
  rewrite (proj2 (Z.leb_gt _ _)) by nia. rewrite Hz.
  pose proof (lo_type _ Hl) as T. pose proof (lo_root _ Hl) as R. clearbody l. clear -T R. destruct l. cbn in *. subst. by rewrite !Z.eqb_refl.
Qed.

(** ** A whole image *)

Lemma cluster_zeros b c n : data b = zeros n -> 0 <= (c - 2) * cbytes b -> (c - 2) * cbytes b + cbytes b <= n -> cluster_of b c = zeros (cbytes b).
Proof.
  intros Hd H0 Hn. unfold cluster_of. rewrite Hd, zdrop_zeros by done. unfold zeros, ztake. rewrite take_replicate. f_equal. lia.
Qed.

Lemma new_builder_spec l b :
  new_builder l = Ok b -> layout_ok l -> layout_max_clusters l + 1 < fat_limit (fat_type l) ->
  builder_ok b /\ layout b = l /\ next_cluster b = 2 /\ max_clusters b = layout_max_clusters l /\ 1 <= max_clusters b /\ zlen (fat b) = fat_region_len l.
Proof.
  unfold new_builder, u32_try. intros Hb Hl Hlim. pose proof (layout_bps _ Hl). pose proof (lo_spc _ Hl). pose proof (lo_size _ Hl).
  destruct (_ <? 2 ^ 32); [|done]. cbn [res_bind] in Hb. destruct (Z.ltb_spec (layout_max_clusters l) 1); [done|].
  destruct (fat_set (zeros _) 0 _ _) as [f1| |] eqn:E1; [|done..]. cbn [res_bind] in Hb.
  destruct (fat_set f1 1 _ _) as [f2| |] eqn:E2; [|done..]. cbn [res_bind] in Hb. injection Hb as <-.
  assert (1 <= bytes_per_cluster l) by (unfold bytes_per_cluster; nia).
  split_and!; cbn [layout fat data next_cluster max_clusters]; [|done..|].
  - split; unfold cbytes, ftype; cbn [layout fat data next_cluster max_clusters]; [done|apply zeros_zlen; nia|lia|lia|].
    intros c Hc. eapply cluster_zeros; [done|..]; unfold cbytes; cbn [layout]; nia.
  - apply fat_set_zlen in E1, E2. rewrite E2, E1. apply zeros_zlen. unfold fat_region_len. nia.
Qed.

(** What an image shows of a staged tree. *)
Record carries (image : bytes) (l : Layout) (root : Z) (staged : Entries) : Prop := {
  ca_length : zlen image = total_sectors l * bytes_per_sector l;
  ca_layout : parse_layout image = Ok (l, root);
  ca_tree : exists b region es, let r := {| image := image; rd_layout := l; root_cluster := root |} in
    builder_ok b /\ views r b /\ root_region_bytes r = Ok region /\ parse_dir_region region = es /\ lists 2 (max_clusters b + 2) b staged es;
}.

Lemma encode_fat32_carries l staged image :
  encode_fat32 l staged = Ok image -> layout_ok l -> layout_max_clusters l + 1 < fat_limit (fat_type l) -> plain_tree staged ->
  carries image l 2 staged.
Proof.
  unfold encode_fat32. intros He Hl Hlim Hpl. destruct (new_builder l) as [b0| |] eqn:E0; [|done..]. cbn [res_bind] in He.
  destruct (max_clusters b0 <? 1); [done|]. apply new_builder_spec in E0 as (Hok0&L0&N0&M0&Hm&F0); [|done..].
  set (b00 := b0 <| next_cluster := 3 |>) in *.
  assert (forall P, grows P b0 b00) as G00 by (intros P; by split).
  assert (next_cluster b00 = 3) as N00 by done.
  destruct (set_fat b00 2 _) as [b1| |] eqn:E1; [|done..]. cbn [res_bind] in He.
  destruct (encode_dir b1 staged 2 0 true) as [[b2 raw]| |] eqn:E2; [|done..]. cbn [res_bind] in He.
  destruct (extend_and_write_dir b2 2 raw) as [b3| |] eqn:E3; [|done..]. cbn [res_bind] in He.
  assert (ftype b00 = fat_type l) as T00 by (unfold ftype; by rewrite (gr_layout _ _ _ (G00 (fun _ => False))), L0).
  apply set_fat_spec in E1 as (G1&K1&N1&D1); [|rewrite T00; apply fat_eoc_mask].
  assert (grows (fun c => c = 2) b0 b1) as G1'.
  { eapply grows_weaken; [eapply grows_trans; [apply (G00 (fun _ => False))|exact G1]|]. cbv beta. tauto. }
  assert (builder_ok b1) as Hok1 by (eapply grown_ok; [exact Hok0|exact G1'|cbv beta; lia|lia]).
  assert (reserved b1 2) as R1.
  { split; [lia|by rewrite K1, (grows_ftype _ _ _ G1), T00|]. rewrite (grows_cbytes _ _ _ G1'). unfold cluster_of. rewrite D1, (grows_cbytes _ _ _ G1').
    apply (bo_fresh _ Hok0). lia. }
  unfold encode_dir in E2. apply encode_children_spec in E2 as [Hok2 N2 G2 (tail&es&->&Hp&Hls)]; [|done|by_compute|done].
  pose proof (bo_next _ Hok1). pose proof (bo_next _ Hok2). rewrite N1, N00 in *.
  assert (reserved b2 2) as R2 by (eapply reserved_grows; [exact G2|cbv beta; lia|lia|lia|done]).
  apply extend_and_write_dir_spec in E3 as (Hok3&N3&G3&cs&Hh3); [|done..]. pose proof (bo_next _ Hok3).
  assert (layout b3 = l) as L3 by (rewrite (gr_layout _ _ _ G3), (gr_layout _ _ _ G2), (gr_layout _ _ _ G1'); done).
  assert (max_clusters b3 = layout_max_clusters l) as M3 by (rewrite (gr_max _ _ _ G3), (gr_max _ _ _ G2), (gr_max _ _ _ G1'); done).
  assert (zlen (fat b3) = fat_region_len l) as F3 by (rewrite (gr_fat _ _ _ G3), (gr_fat _ _ _ G2), (gr_fat _ _ _ G1'); done).
  rewrite <- L3 in He, F3, M3, Hl. apply finish_assembled in He; [|done..].
  assert (views {| image := image; rd_layout := layout b3; root_cluster := 2 |} b3) as Hv by (apply assembled_views; [done..|by apply builder_sized|done]).
  pose proof (assembled_parses _ _ _ He Hl ltac:(lia)) as Hparse. pose proof (as_length _ _ _ He). rewrite L3 in *. split; [done|done|].
  destruct (chain_bytes_holds _ _ _ _ _ _ _ Hv Hok3 Hh3) as [[k Ek] _]; [lia|lia|].
  exists b3, ((header_of true 2 0 ++ tail) ++ zeros k), es. cbn zeta. split_and!; [done|done| |..].
  - unfold root_region_bytes. cbn [rd_layout root_cluster]. by rewrite (lo_type _ Hl), Ek.
  - rewrite parse_dir_region_parse. unfold header_of. rewrite <- app_assoc, parse_label, Hp, parse_zeros. by rewrite app_nil_r.
  - eapply lists_weaken; [eapply (lists_grows _ 3 (next_cluster b2)); [exact G3|lia|lia|cbv beta; lia|exact Hls]|lia|].
    rewrite (gr_max _ _ _ G3). lia.
Qed.
