(* ===== verification/FatHistory.v ===== *)
(** * EFI images refine a map of files

    An image made by [create_efi] and changed by any number of calls of
    [update_efi] stands for a map from paths to contents, and reading a path
    gives what the map has there. *)

From S2P Require Import Prelude Windows FatNames FatNamesProps Fat FatProps FatImage FatRead FatStage FatRoundtrip.
From stdpp Require Import base tactics numbers list option strings gmap fin_maps.
From Stdlib Require Import ZArith Lia.

Open Scope Z_scope.

(** ** Names *)

(** A value of [char]. *)
Definition is_char (c : Z) : Prop := 0 <= c < 0xd800 \/ 0xe000 <= c < 0x110000.

Lemma split_path_parts name : Forall is_char name -> let '(part, parts) := split_path name in Forall (Forall (fun c => is_char c /\ c <> 47)) (part :: parts).
Proof.
  induction 1 as [|c name Hc Hn IH]; cbn [split_path]; [by repeat constructor|]. destruct (split_path name) as [part parts].
  apply Forall_cons in IH as [Hp Hps]. destruct (Z.eqb_spec c 47); rewrite !Forall_cons; split_and!; done || apply Forall_nil_2.
Qed.

Lemma contains_false l c : Forall (fun x => x <> c) l -> contains l c = false.
Proof.
  intros Hf. unfold contains. destruct (existsb _ _) eqn:E; [|done]. apply existsb_exists in E as (x&Hx&Ex%Z.eqb_eq). subst x.
  rewrite Forall_forall in Hf. apply list_elem_of_In, Hf in Hx. done.
Qed.

(** A part of an accepted path. *)
Lemma good_part part : bad_part part = false -> Forall (fun c => is_char c /\ c <> 47) part -> plain_name part /\ host_ok part.
Proof.
  unfold bad_part. intros Hb Hc. destruct (existsb _ part) eqn:Ee; [by rewrite orb_true_r in Hb|]. rewrite orb_false_r in Hb. bools.
  assert (Forall (fun c => scalar c /\ c <> 47 /\ c <> 92) part) as Hs.
  { apply Forall_forall. intros c Hin. rewrite Forall_forall in Hc. destruct (Hc c Hin) as [Hch H47].
    assert (is_control c || contains [92; 58; 42; 63; 34; 60; 62; 124] c = false) as Hx.
    { destruct (is_control c || _) eqn:E; [|done]. rewrite <- Ee. symmetry. apply existsb_exists. exists c. split; [by apply list_elem_of_In|done]. }
    unfold is_control, contains in Hx. cbn [existsb] in Hx. unfold is_char, scalar in *. bools. lia. }
  assert (part <> []) as Hne by (intros ->; by bools).
  split; [split|split].
  - eapply Forall_impl; [exact Hs|]. by intros c (?&?&?).
  - done.
  - intros E. match goal with H : match last part with Some _ => _ | None => _ end = false |- _ => rewrite E in H; bools; done end.
  - unfold unsafe_name. rewrite !contains_false by (eapply Forall_impl; [exact Hs|]; by intros c (?&?&?)). rewrite !orb_false_r. apply Z.eqb_neq. by intros E%zlen_zero.
  - apply contains_false. eapply Forall_impl; [exact Hs|]. intros c (Hsc&_). unfold scalar in Hsc. cbv beta. lia.
Qed.

Section Names.
Variable to_lowercase : text -> text.

(** A path that [validate_efi_files] accepts on its own. *)
Definition valid_path (path : text) : Prop := (zlen path =? 0) || existsb bad_part (split_parts path) = false.

Lemma validate_names_spec names : forall seen,
  validate_names to_lowercase names seen = Ok tt -> Forall valid_path names /\ NoDup names /\ Forall (fun n => to_lowercase n ∉ seen) names.
Proof.
  induction names as [|name names IH]; intros seen Hv; cbn [validate_names] in Hv; [by repeat constructor|].
  destruct (_ || _) eqn:Eb; [done|]. destruct (decide _) as [|Hn]; [done|]. destruct (IH _ Hv) as (Hf&Hd&Hs).
  split_and!; constructor; [done|done| |done|done|].
  - intros Hin. rewrite Forall_forall in Hs. apply (Hs _ Hin). by left.
  - eapply Forall_impl; [exact Hs|]. intros n Hnot Hin. apply Hnot. by right.
Qed.

Lemma validate_one path : valid_path path -> validate_efi_files to_lowercase [(path, [])] = Ok tt.
Proof. intros Hv. unfold validate_efi_files. cbn [map fst validate_names]. rewrite Hv. by rewrite decide_False by apply not_elem_of_nil. Qed.
End Names.

Lemma valid_path_parts path : valid_path path -> Forall is_char path -> Forall (fun p => plain_name p /\ host_ok p) (split_parts path).
Proof.
  intros Hv Hc. pose proof (split_path_parts _ Hc) as Hs. unfold valid_path in Hv. bools.
  assert (Forall (Forall (fun c => is_char c /\ c <> 47)) (split_parts path)) as Hs' by (unfold split_parts; by destruct (split_path path)).
  apply Forall_forall. intros p Hp. rewrite Forall_forall in Hs'. apply good_part; [|by apply Hs'].
  destruct (bad_part p) eqn:E; [|done]. assert (existsb bad_part (split_parts path) = true); [|congruence].
  apply existsb_exists. exists p. split; [by apply list_elem_of_In|done].
Qed.

(** ** Case *)

(** Two paths differ beyond ASCII case in the first part in which they differ. *)
Fixpoint agree (p q : list text) : bool :=
  match p, q with
  | a :: p, b :: q => if decide (a = b) then agree p q else negb (eq_ignore_ascii_case a b)
  | _, _ => true
  end.

Definition case_ok (paths : list text) : bool :=
  forallb (fun p => forallb (fun q => agree (split_parts p) (split_parts q)) paths) paths.

(** Leading parts of the paths. *)
Definition under (paths : list text) (parts : list text) : Prop := exists path, path ∈ paths /\ parts `prefix_of` split_parts path.

Lemma agree_faithful pre a b : forall p q, pre ++ [a] `prefix_of` p -> pre ++ [b] `prefix_of` q -> agree p q = true -> eq_ignore_ascii_case a b = true -> a = b.
Proof.
  induction pre as [|x pre IH]; intros p q [p' ->] [q' ->] Hag Heq; cbn [app agree] in Hag.
  - destruct (decide (a = b)); [done|]. by rewrite Heq in Hag.
  - rewrite decide_True in Hag by done. eapply IH; [by eexists|by eexists|exact Hag|done].
Qed.

Lemma case_ok_faithful paths : case_ok paths = true -> case_faithful (under paths).
Proof.
  unfold case_ok. intros Hc pre a b (p&Hp&Ha) (q&Hq&Hb) Heq. rewrite forallb_forall in Hc. apply list_elem_of_In in Hp, Hq.
  specialize (Hc p Hp). rewrite forallb_forall in Hc. by eapply agree_faithful; [exact Ha|exact Hb|apply Hc|].
Qed.

(** ** Reading *)

Lemma lookup_from_other r e es part more :
  eq_ignore_ascii_case (de_name e) part = false -> lookup_from r (e :: es) part more = lookup_from r es part more.
Proof. intros E. apply lookup_from_skip. unfold find_entry. cbn [List.find]. by rewrite E. Qed.

(** A file that a lookup finds is one of the tree. *)
Lemma lookup_lists_inv r b lo hi t : forall (Q : list text -> Prop) es part more c size,
  views r b -> builder_ok b -> 2 <= lo -> hi <= max_clusters b + 2 -> lists lo hi b t es -> case_faithful Q ->
  (forall p m, node t p m -> Q (p :: m)) -> (forall p m, p :: m `prefix_of` part :: more -> Q (p :: m)) ->
  lookup_from r es part more = Ok (false, c, size) -> exists content, file_at t part more = Some content.
Proof.
  induction t as [|name old rest IH|name sub IHs rest IH]; intros Q es part more c size Hv Hok Hlo Hhi Hl HQ Hn Hp Hf;
    (destruct es as [|e es]; [by destruct more|]) || destruct es; try done; cbn [lists node file_at] in *.
  - destruct Hl as [(c'&->&Hs) Hl]. destruct (eq_ignore_ascii_case name part) eqn:Eq.
    + assert (name = part) as -> by (apply (HQ []); [by apply Hn; left|apply Hp; by apply prefix_cons, prefix_nil|done]). rewrite decide_True by done.
      destruct more; [by eexists|]. cbn [lookup_from] in Hf. by rewrite find_entry_here in Hf.
    + rewrite lookup_from_other in Hf by done. rewrite decide_False by (intros ->; by rewrite eq_ignore_refl in Eq). eapply IH; eauto.
  - destruct Hl as [(c'&cs&raw&sub_es&->&Hh&Hpa&Hs) Hl]. destruct (eq_ignore_ascii_case name part) eqn:Eq.
    + assert (name = part) as -> by (apply (HQ []); [by apply Hn; left|apply Hp; by apply prefix_cons, prefix_nil|done]). rewrite decide_True by done.
      destruct more as [|next more]; cbn [lookup_from] in Hf; rewrite find_entry_here in Hf; cbn [ok_or res_bind de_is_dir negb de_cluster] in Hf; [done|].
      destruct (chain_bytes_holds _ _ _ _ _ _ _ Hv Hok Hh Hlo Hhi) as [[k Ek] _]. unfold dir_region_bytes in Hf. rewrite Ek in Hf. cbn [res_bind] in Hf.
      rewrite parse_dir_region_parse, Hpa in Hf. eapply (IHs (fun m => Q (part :: m))); [done..|by apply case_faithful_under| | |exact Hf].
      * intros p m Hm. apply Hn. by left.
      * intros p m Hm. apply Hp. by apply prefix_cons.
    + rewrite lookup_from_other in Hf by done. rewrite decide_False by (intros ->; by rewrite eq_ignore_refl in Eq). eapply IH; eauto.
Qed.

(** The names of a tree are leading parts of the paths. *)
Definition named (paths : list text) (t : Entries) : Prop := forall p m, node t p m -> under paths (p :: m).

Lemma carries_reads image l root staged paths path content :
  carries image l root staged -> sorted_tree staged = true -> named paths staged -> case_ok paths = true -> path ∈ paths ->
  read_one {| image := image; rd_layout := l; root_cluster := root |} path = Ok content <-> tree_file staged path = Some content.
Proof.
  intros [_ _ (b&region&es&Hok&Hv&Er&Ep&Hl)] Hst Hn Hc Hpath. set (r := {| image := image; rd_layout := l; root_cluster := root |}) in *.
  apply case_ok_faithful in Hc. pose proof (distinct_from_nodes _ _ Hc Hn Hst) as Hd.
  assert (under paths (split_parts path)) as Hu by (by exists path).
  unfold read_one, lookup_path, tree_file. unfold split_parts in Hu. destruct (split_path path) as [part more]. rewrite Er. cbn [res_bind]. rewrite Ep.
  assert (forall content, file_at staged part more = Some content -> exists c, lookup_from r es part more = Ok (false, c, zlen content) /\
    cluster_chain_bytes r c (Some (zlen content)) = Ok content) as Hfwd.
  { intros k Hk. edestruct (lookup_lists r b 2 (max_clusters b + 2)) as (c&Ec&Hs); [done|done|lia|lia|done|done|exact Hk|]. exists c. split; [done|].
    eapply chain_bytes_stored; [done|done|exact Hs|lia|lia]. }
  split; intros H.
  - destruct (lookup_from r es part more) as [[[is_dir c] size]| |] eqn:El; [|done..]. cbn [res_bind] in H. destruct is_dir; [done|].
    edestruct (lookup_lists_inv r b 2 (max_clusters b + 2) staged (under paths)) as [k Hk]; [done|done|lia|lia|done|done|done| |exact El|].
    { intros p m Hm. destruct Hu as (q&Hq&Hpre). exists q. split; [done|]. by etrans. }
    destruct (Hfwd _ Hk) as (c'&Ec&Ek). rewrite Hk. f_equal. congruence.
  - destruct (Hfwd _ H) as (c&Ec&Ek). rewrite Ec. cbn [res_bind]. exact Ek.
Qed.

(** ** Depth *)

Lemma walk_each_lists r b lo hi walk t : forall es,
  views r b -> builder_ok b -> 2 <= lo -> hi <= max_clusters b + 2 -> lists lo hi b t es -> walk_each walk r es = Ok tt ->
  forall bound, (forall sub sub_es, lists lo hi b sub sub_es -> walk sub_es = Ok tt -> (depth sub < bound)%nat) -> (depth t <= bound)%nat.
Proof.
  induction t as [|name old rest IH|name sub IHs rest IH]; intros es Hv Hok Hlo Hhi Hl Hw bound Hb; destruct es as [|e es]; try done;
    cbn [lists depth walk_each] in *; [lia|..].
  - destruct Hl as [_ Hl]. destruct (if de_is_dir e then _ else _) as [[]| |]; [|done..]. by eapply IH.
  - destruct Hl as [(c&cs&raw&sub_es&->&Hh&Hp&Hs) Hl]. cbn [de_is_dir de_cluster] in Hw. destruct (c <? 2); [done|].
    destruct (chain_bytes_holds _ _ _ _ _ _ _ Hv Hok Hh Hlo Hhi) as [[k Ek] _]. unfold dir_region_bytes in Hw. rewrite Ek in Hw. cbn [res_bind] in Hw.
    rewrite parse_dir_region_parse, Hp in Hw. destruct (walk sub_es) as [[]| |] eqn:Ew; [|done..]. cbn [res_bind] in Hw.
    specialize (Hb sub sub_es Hs Ew) as Hd. pose proof (IH es Hv Hok Hlo Hhi Hl Hw bound Hb). lia.
Qed.

Lemma walk_lists r b lo hi fuel : forall t es,
  views r b -> builder_ok b -> 2 <= lo -> hi <= max_clusters b + 2 -> lists lo hi b t es -> walk fuel r es = Ok tt -> (depth t < fuel)%nat.
Proof.
  induction fuel as [|fuel IH]; intros t es Hv Hok Hlo Hhi Hl Hw; [done|]. cbn [walk] in Hw.
  pose proof (walk_each_lists r b lo hi _ t es Hv Hok Hlo Hhi Hl Hw fuel (fun sub sub_es H1 H2 => IH sub sub_es Hv Hok Hlo Hhi H1 H2)). lia.
Qed.

(** An image that passes the check gives its tree back. *)
Lemma carries_extracts image l root staged :
  carries image l root staged -> self_check image = Ok tt -> sorted_tree staged = true -> host_tree staged -> extract_to_dir image l root = Ok staged.
Proof.
  intros [_ Hp (b&region&es&Hok&Hv&Er&Ep&Hl)] Hs Hst Hh. unfold self_check in Hs. rewrite Hp in Hs. cbn [res_bind] in Hs. rewrite Er in Hs. cbn [res_bind] in Hs.
  rewrite Ep in Hs. unfold extract_to_dir. rewrite Er. cbn [res_bind]. rewrite Ep. eapply extract_dir_lists; [done|done| | |done..|].
  - lia.
  - lia.
  - eapply walk_lists; [done|done| | |done|done]; lia.
Qed.

Lemma host_from_nodes t : (forall p m, node t p m -> Forall host_ok (p :: m)) -> host_tree t.
Proof.
  intros Hn. assert (forall t pre, (forall p m, node t p m -> Forall host_ok (pre ++ p :: m)) -> host_tree t) as H; [|by apply (H t [])].
  clear. induction t as [|name old rest IH|name sub IHs rest IH]; intros pre Hn; cbn [host_tree node] in *; [done|..].
  - split; [|apply (IH pre); auto]. specialize (Hn name [] (or_introl (conj eq_refl eq_refl))). by apply Forall_app in Hn as [_ [? _]%Forall_cons].
  - split_and!; [|apply (IHs (pre ++ [name]))|apply (IH pre); auto].
    + specialize (Hn name [] (or_introl (conj eq_refl I))). by apply Forall_app in Hn as [_ [? _]%Forall_cons].
    + intros p m Hm. rewrite <- app_assoc. cbn [app]. apply Hn. by left.
Qed.

(** ** Geometry *)

Definition targets : list Z := [512; 1024; 2048; 4096; 8192; 16384; 32768].

Lemma choose_target_spec n : n < 2 ^ 41 -> In (choose_target n) targets /\ n < choose_target n * 2 ^ 26.
Proof.
  intros Hn. unfold choose_target, targets. repeat case_match; bools; (split; [cbn [In]; tauto|lia]).
Qed.

(** The power of two reaches the target cluster size. *)
Lemma spc_reaches_target :
  forallb (fun bps => forallb (fun target => let spc := double_up 8 (Z.max (target / bps) 1) 1 in (1 <=? spc) && (spc <? 256) && (target <=? spc * bps)) targets)
    [512; 1024; 2048; 4096] = true.
Proof. by vm_compute. Qed.

Lemma choose_spc_spec total bps :
  bps ∈ [512; 1024; 2048; 4096] -> 1 <= total -> total * bps < 2 ^ 41 ->
  1 <= choose_spc_fat32 total bps < 2 ^ 8 /\ total < 2 ^ 27 * choose_spc_fat32 total bps.
Proof.
  intros Hb%list_elem_of_In Ht Hlt. unfold choose_spc_fat32. rewrite Z.min_l by lia. destruct (choose_target_spec (total * bps)) as [Hin Htar]; [done|].
  pose proof spc_reaches_target as H. rewrite forallb_forall in H. specialize (H bps Hb). rewrite forallb_forall in H. specialize (H _ Hin). cbv zeta in H.
  set (spc := double_up 8 _ 1) in *. bools. split; [lia|].
  assert (0 < bps) by (cbn [In] in Hb; lia). assert (total * bps < (2 ^ 26 * spc) * bps) as Hm by lia. apply Z.mul_lt_mono_pos_r in Hm; lia.
Qed.

Lemma fat_size_from_pos turns : forall l fat_size size, fat_size_from turns l fat_size = Ok size -> 1 <= fat_size -> 1 <= size < 2 ^ 32.
Proof.
  assert (forall x size, u32_try x FatSizeTooLarge = Ok size -> 1 <= x -> 1 <= size < 2 ^ 32) as Hu.
  { intros x size. unfold u32_try. destruct (Z.ltb_spec x (2 ^ 32)); [|done]. intros [= <-]. lia. }
  induction turns as [|turns IH]; intros l x size Hf Hx; cbn [fat_size_from] in Hf; [by eapply Hu|].
  destruct (needed_fat_size l x) as [needed|] eqn:En; [|done]. cbn [ok_or res_bind] in Hf.
  destruct (needed =? x); [by eapply Hu|]. eapply IH; [exact Hf|]. unfold needed_fat_size in En. destruct (_ <=? _); [done|]. injection En as <-. lia.
Qed.

(** The layouts an image can have: the boot sector carries them and cluster
    numbers stay below the markers. *)
Definition sound_layout (l : Layout) : Prop := layout_ok l /\ layout_max_clusters l + 1 < fat_limit (fat_type l).

Lemma fresh_layout_sound total bps hidden vol size :
  bps ∈ [512; 1024; 2048; 4096] -> 1 <= total -> total * bps < 2 ^ 41 -> u32 hidden -> u32 vol -> 1 <= size < 2 ^ 32 ->
  sound_layout ((fresh_layout Fat32 total bps hidden vol) <| fat_size_sectors := size |>).
Proof.
  intros Hb Ht Hlt Hh Hv Hsize. destruct (choose_spc_spec total bps Hb Ht Hlt) as [Hspc Hclu]. set (l := _ <| fat_size_sectors := size |>).
  assert (512 <= bps) as Hb'. { clear -Hb. repeat (apply elem_of_cons in Hb as [->|Hb]; [lia|]). by apply elem_of_nil in Hb. }
  split.
  - split; cbn; done || lia || nia.
  - change (fat_limit (fat_type l)) with 0x0fff_fff8. unfold layout_max_clusters. change (sectors_per_cluster l) with (choose_spc_fat32 total bps).
    assert (data_sectors l <= total) as Hds.
    { unfold data_sectors, saturating_sub. change (total_sectors l) with total.
      assert (0 <= first_data_sector l); [|lia]. unfold first_data_sector, first_root_dir_sector, first_fat_sector, root_dir_sectors, div_ceil.
      change (root_entry_count l) with 0. change (bytes_per_sector l) with bps. change (reserved_sectors l) with 32. change (num_fats l) with 2.
      change (fat_size_sectors l) with size. rewrite Z.div_small by lia. lia. }
    assert (data_sectors l / choose_spc_fat32 total bps < 2 ^ 27); [|lia]. apply Z.div_lt_upper_bound; lia.
Qed.

Lemma format_image_carries total bps hidden vol staged image :
  format_image Fat32 total bps hidden vol staged = Ok image -> bps ∈ [512; 1024; 2048; 4096] -> 1 <= total -> total * bps < 2 ^ 41 ->
  u32 hidden -> u32 vol -> plain_tree staged -> exists l, sound_layout l /\ carries image l 2 staged.
Proof.
  unfold format_image. intros Hf Hb Ht Hlt Hh Hv Hpl. destruct (compute_fat_size _) as [size| |] eqn:Es; [|done..]. cbn [res_bind] in Hf.
  apply fat_size_from_pos in Es; [|lia]. pose proof (fresh_layout_sound total bps hidden vol size Hb Ht Hlt Hh Hv Es) as Hl.
  eexists. split; [exact Hl|]. destruct Hl as [Hok Hlim]. by apply encode_fat32_carries.
Qed.

(** What the check of the geometry gives. *)
Lemma geometry_ok part_bytes ss :
  validate_efi_geometry part_bytes ss = Ok tt -> 0 <= part_bytes < 2 ^ 41 ->
  ss ∈ [512; 1024; 2048; 4096] /\ 1 <= part_bytes / ss /\ part_bytes / ss * ss < 2 ^ 41.
Proof.
  unfold validate_efi_geometry. intros Eg Hpb. destruct (_ || _) eqn:Eb; [done|]. bools. apply existsb_exists in H as (x&Hx&E%Z.eqb_eq). subst x.
  apply list_elem_of_In in Hx. split; [done|]. assert (0 < ss) by (clear -Hx; repeat (apply elem_of_cons in Hx as [->|Hx]; [lia|]); by apply elem_of_nil in Hx).
  pose proof (Z.div_mod part_bytes ss ltac:(lia)) as Hdm. pose proof (Z.div_pos part_bytes ss ltac:(lia) ltac:(lia)). split; nia.
Qed.

(** ** The volume number *)

Section Volume.
Variables (container : bytes) (l : Layout) (root id : Z).
Let r := {| image := container; rd_layout := l; root_cluster := root |}.
Let r' := {| image := container; rd_layout := l <| volume_id := id |>; root_cluster := root |}.

Lemma follow_chain_volume fuel : forall fat hint c visited out, follow_chain fuel r' fat hint c visited out = follow_chain fuel r fat hint c visited out.
Proof.
  induction fuel as [|fuel IH]; intros fat hint c visited out; [done|]. cbn [follow_chain].
  change (layout_max_clusters (rd_layout r')) with (layout_max_clusters l). change (fat_type (rd_layout r')) with (fat_type l).
  change (bytes_per_cluster (rd_layout r')) with (bytes_per_cluster l). change (cluster_offset (rd_layout r') c) with (cluster_offset l c).
  change (image r') with container. cbn [rd_layout FatImage.image r]. repeat (case_match; [done|]). destruct (slice container _ _); [|done..]. cbn [res_bind].
  case_match; [done|]. destruct (fat_get fat c (fat_type l)); [|done..]. cbn [res_bind]. apply IH.
Qed.

Lemma chain_bytes_volume c hint : cluster_chain_bytes r' c hint = cluster_chain_bytes r c hint.
Proof.
  unfold cluster_chain_bytes. destruct (c =? 0); [done|]. change (fat_slice r') with (fat_slice r). destruct (fat_slice r); [|done..]. cbn [res_bind].
  change (layout_max_clusters (rd_layout r')) with (layout_max_clusters (rd_layout r)). by rewrite follow_chain_volume.
Qed.

Lemma extract_each_volume extract extract' es : (forall sub, extract' sub = extract sub) -> forall out,
  extract_each extract' r' es out = extract_each extract r es out.
Proof.
  intros He. induction es as [|e es IH]; intros out; [done|]. cbn [extract_each]. destruct (unsafe_name _); [done|]. unfold dir_region_bytes.
  rewrite !chain_bytes_volume. destruct (de_is_dir e).
  - destruct (host_name _); [|done..]. cbn [res_bind]. destruct (add_dir out _ NoMore); [|done..]. cbn [res_bind].
    destruct (cluster_chain_bytes r _ None); [|done..]. cbn [res_bind]. rewrite He. destruct (extract _); [|done..]. cbn [res_bind].
    destruct (add_dir out _ _); [|done..]. apply IH.
  - destruct (cluster_chain_bytes r _ _); [|done..]. cbn [res_bind]. destruct (host_name _); [|done..]. cbn [res_bind].
    destruct (stage out _ _ _); [|done..]. apply IH.
Qed.

Lemma extract_volume : extract_to_dir container (l <| volume_id := id |>) root = extract_to_dir container l root.
Proof.
  unfold extract_to_dir. fold r r'. assert (root_region_bytes r' = root_region_bytes r) as ->.
  { unfold root_region_bytes. change (fat_type (rd_layout r')) with (fat_type (rd_layout r)). destruct (fat_type (rd_layout r)); [done|apply chain_bytes_volume]. }
  destruct (root_region_bytes r) as [region| |]; [|done..]. cbn [res_bind]. generalize (parse_dir_region region). generalize 65%nat as fuel.
  induction fuel as [|fuel IH]; intros es; [done|]. cbn [extract_dir]. by apply extract_each_volume.
Qed.

Lemma sound_layout_volume : sound_layout l -> u32 id -> sound_layout (l <| volume_id := id |>).
Proof. intros [[] Hlim] Hid. split; [by split|exact Hlim]. Qed.
End Volume.

(** ** Histories *)


Definition accepted (paths : list text) : Prop := Forall (fun p => valid_path p /\ Forall is_char p) paths.

Lemma named_good paths t : accepted paths -> named paths t -> forall p m, node t p m -> Forall (fun p => plain_name p /\ host_ok p) (p :: m).
Proof.
  intros Hf Hn p m Hm. destruct (Hn p m Hm) as (path&Hin&k&Hpre). unfold accepted in Hf. rewrite Forall_forall in Hf.
  destruct (Hf path Hin) as [Hv Hc]. pose proof (valid_path_parts _ Hv Hc) as Hg. rewrite Hpre in Hg. by apply Forall_app in Hg as [? _].
Qed.

Lemma named_plain paths t : accepted paths -> named paths t -> plain_tree t.
Proof. intros Ha Hn. apply plain_from_nodes. intros p m Hm. eapply Forall_impl; [by eapply named_good|]. by intros x [? ?]. Qed.

Lemma named_host paths t : accepted paths -> named paths t -> host_tree t.
Proof. intros Ha Hn. apply host_from_nodes. intros p m Hm. eapply Forall_impl; [by eapply named_good|]. by intros x [? ?]. Qed.

(** Paths that can be used together: accepted, and no two the same up to case. *)
Definition proper (paths : list text) : Prop := accepted paths /\ case_ok paths = true.

Section History.
Variable to_lowercase : text -> text.
Variable paths : list text.

(** The images made from files at the paths, with the map each stands for. *)
Inductive efi_history : bytes -> gmap text bytes -> Prop :=
| created part_bytes sector_size lba vol files image :
    create_efi_with_volume_id to_lowercase part_bytes sector_size lba vol files = Ok image -> 0 <= part_bytes < 2 ^ 41 -> u32 lba -> u32 vol ->
    map fst files ⊆ paths -> efi_history image (list_to_map files)
| updated image m vol files image' :
    efi_history image m -> update_efi_with_volume_id to_lowercase image vol files = Ok image' -> match vol with Some id => u32 id | None => True end ->
    map fst files ⊆ paths -> efi_history image' (list_to_map files ∪ m).

Hypothesis paths_proper : proper paths.

(** A staged tree for a map of files. *)
Record stages (t : Entries) (m : gmap text bytes) : Prop := {
  sg_sorted : sorted_tree t = true;
  sg_named : named paths t;
  sg_files path : tree_file t path = m !! path;
}.

Lemma tree_file_none path : tree_file NoMore path = None.
Proof. unfold tree_file. by destruct (split_path path). Qed.

Lemma stages_empty : stages NoMore ∅.
Proof. split; [done|by intros p m|]. intros path. by rewrite tree_file_none, lookup_empty. Qed.

Lemma stages_files files t t' m :
  stages t m -> stage_files t files = Ok t' -> NoDup (map fst files) -> map fst files ⊆ paths -> stages t' (list_to_map files ∪ m).
Proof.
  intros [Hst Hn Hf] Hs Hd Hsub. destruct (stage_files_spec _ _ _ Hs Hst Hd) as (Hst'&Hin&Hout). split; [done|..].
  - intros p k Hk. destruct (stage_files_node _ _ _ _ _ Hs Hk) as [?|(path&Hp&Hpre)]; [by apply Hn|]. exists path. split; [by apply Hsub|done].
  - intros path. destruct (decide (path ∈ map fst files)) as [Hp|Hp].
    + apply list_elem_of_fmap in Hp as ([path' content]&->&Hp). cbn [fst]. rewrite (Hin _ _ Hp). symmetry.
      apply lookup_union_Some_l. by apply elem_of_list_to_map_1.
    + rewrite Hout, Hf by done. symmetry. apply lookup_union_r. by apply not_elem_of_list_to_map_1.
Qed.

(** What is kept of an image's history. *)
Record represents (image : bytes) (m : gmap text bytes) : Prop := {
  rp_checked : self_check image = Ok tt;
  rp_tree : exists l staged, sound_layout l /\ carries image l 2 staged /\ stages staged m;
}.

Lemma history_represents image m : efi_history image m -> represents image m.
Proof.
  induction 1 as [part_bytes ss lba vol files image Hc Hpb Hlba Hvol Hsub|image m vol files image' _ [Hcheck (l&staged&Hl&Hca&Hst)] Hu Hvol Hsub].
  - unfold create_efi_with_volume_id in Hc. destruct (validate_efi_files to_lowercase files) as [[]| |] eqn:Ev; [|done..]. cbn [res_bind] in Hc.
    destruct (validate_efi_geometry part_bytes ss) as [[]| |] eqn:Eg; [|done..]. cbn [res_bind] in Hc.
    destruct (stage_files NoMore files) as [staged| |] eqn:Es; [|done..]. cbn [res_bind] in Hc.
    destruct (format_image _ _ _ _ _ _) as [container| |] eqn:Ef; [|done..]. cbn [res_bind] in Hc.
    destruct (self_check container) as [[]| |] eqn:Ec; [|done..]. injection Hc as <-. split; [done|].
    apply validate_names_spec in Ev as (_&Hd&_). pose proof (stages_files _ _ _ _ stages_empty Es Hd Hsub) as Hst. rewrite (right_id_L ∅ (∪)) in Hst.
    destruct (geometry_ok _ _ Eg Hpb) as (Hss&Ht&Hlt).
    destruct (format_image_carries _ _ _ _ _ _ Ef Hss Ht Hlt) as (l&Hl&Hca); [done|done|by eapply named_plain, (sg_named _ _ Hst); apply paths_proper|]. by exists l, staged.
  - unfold update_efi_with_volume_id in Hu. destruct (validate_efi_files to_lowercase files) as [[]| |] eqn:Ev; [|done..]. cbn [res_bind] in Hu.
    rewrite (ca_layout _ _ _ _ Hca) in Hu. cbn [res_bind] in Hu. set (l' := match vol with Some id => _ | None => l end) in Hu.
    assert (extract_to_dir image l' 2 = Ok staged /\ sound_layout l') as [Hex Hl'].
    { assert (extract_to_dir image l 2 = Ok staged) as Hex by (eapply carries_extracts; [done|done|apply (sg_sorted _ _ Hst)|eapply named_host, (sg_named _ _ Hst); apply paths_proper]).
      unfold l'. destruct vol as [id|]; [|done]. rewrite extract_volume. split; [done|by apply sound_layout_volume]. }
    clearbody l'. rewrite Hex in Hu. cbn [res_bind] in Hu. destruct (stage_files staged files) as [staged'| |] eqn:Es; [|done..]. cbn [res_bind] in Hu.
    destruct (encode_image l' staged') as [container| |] eqn:Ee; [|done..]. cbn [res_bind] in Hu. destruct (negb _); [done|].
    destruct (self_check container) as [[]| |] eqn:Ec; [|done..]. injection Hu as <-. split; [done|].
    apply validate_names_spec in Ev as (_&Hd&_). pose proof (stages_files _ _ _ _ Hst Es Hd Hsub) as Hst'.
    unfold encode_image in Ee. destruct Hl' as [Hok Hlim]. rewrite (lo_type _ Hok) in Ee.
    exists l', staged'. split; [done|]. split; [|done]. apply encode_fat32_carries; [done..|]. by eapply named_plain, (sg_named _ _ Hst'); apply paths_proper.
Qed.

(** C2. Fix a set of paths that are accepted one by one and whose parts do not clash
    up to ASCII case.  Every image made by [create_efi] on a partition of less than
    2^41 bytes and any number of calls of [update_efi], each with files at those
    paths, reads as the map of the files written last: a path of the set gives a
    content exactly when the map has it there. *)
Theorem efi_refines_map image m path content :
  efi_history image m -> path ∈ paths -> read_efi_file to_lowercase image path = Ok content <-> m !! path = Some content.
Proof.
  intros Hh Hp. apply history_represents in Hh as [_ (l&staged&_&Hca&Hst)]. destruct paths_proper as [Hf Hc]. unfold accepted in Hf. rewrite Forall_forall in Hf.
  destruct (Hf path Hp) as [Hv _]. unfold read_efi_file, read_efi_files. cbn [map]. rewrite validate_one by done. cbn [res_bind].
  rewrite (ca_layout _ _ _ _ Hca). cbn [res_bind read_each]. rewrite <- (sg_files _ _ Hst).
  rewrite <- (carries_reads _ _ _ _ _ _ _ Hca (sg_sorted _ _ Hst) (sg_named _ _ Hst) Hc Hp).
  destruct (read_one _ path) as [x| |]; done.
Qed.
End History.

(** ** Reading ends *)

(** ** Concrete images *)

Definition ascii_lower (name : text) : text := map to_ascii_lowercase name.
Definition the {A : Type} (x : res EfiError A) (d : A) : A := match x with Ok a => a | _ => d end.

Definition is_ok {A : Type} (x : res EfiError A) : bool := match x with Ok _ => true | _ => false end.

Lemma the_ok {A} (x : res EfiError A) d : is_ok x = true -> x = Ok (the x d).
Proof. by destruct x. Qed.

Definition paths_used : list text := map bytes_of ["EFI/BOOT/BOOTAA64.EFI"; "m1n1/boot image.bin"; "EFI/empty"]%string.
Definition first_files : list (text * bytes) := [(bytes_of "EFI/BOOT/BOOTAA64.EFI", repeat 7 700); (bytes_of "m1n1/boot image.bin", [1; 2; 3])].
Definition later_files : list (text * bytes) := [(bytes_of "m1n1/boot image.bin", [4; 5]); (bytes_of "EFI/empty", [])].
Definition first_image : bytes := the (create_efi_with_volume_id ascii_lower (64 * 512) 512 0 77 first_files) [].
Definition later_image : bytes := the (update_efi_with_volume_id ascii_lower first_image None later_files) [].

Lemma efi_refines_map_witness :
  exists m, efi_history ascii_lower paths_used later_image m /\
    read_efi_file ascii_lower later_image (bytes_of "EFI/BOOT/BOOTAA64.EFI") = Ok (repeat 7 700) /\
    read_efi_file ascii_lower later_image (bytes_of "m1n1/boot image.bin") = Ok [4; 5].
Proof.
  assert (proper paths_used) as Hp.
  { split; [|by vm_compute]. repeat (apply Forall_cons; split; [split; [by vm_compute|]|]); [..|apply Forall_nil_2];
      repeat (apply Forall_cons; split; [left; vm_compute; split; congruence|]); apply Forall_nil_2. }
  assert (efi_history ascii_lower paths_used later_image (list_to_map later_files ∪ list_to_map first_files)) as Hh.
  { eapply updated with (image := first_image) (vol := None); [|apply the_ok; by vm_compute|done|].
    - eapply (created _ _ (64 * 512) 512 0 77); [apply the_ok; by vm_compute|lia|by_compute|by_compute|]. intros x Hx. cbn [map fst first_files] in Hx. unfold paths_used. set_solver.
    - intros x Hx. cbn [map fst later_files] in Hx. unfold paths_used. set_solver. }
  exists (list_to_map later_files ∪ list_to_map first_files). split; [done|].
  split; apply (efi_refines_map ascii_lower paths_used Hp _ _ _ _ Hh); try by vm_compute; unfold paths_used; set_solver.
Defined.
