(* ===== verification/FatSafety.v ===== *)
(** * Encoding an EFI image does not panic

    When the allocation table has an entry for every cluster, no index of the
    builder leaves it; the size [compute_fat_size] settles on is such a size. *)

From S2P Require Import Prelude Windows FatNames FatNamesProps Fat FatProps FatImage FatRead FatStage FatRoundtrip FatHistory.
From stdpp Require Import base tactics numbers list option strings.
From Stdlib Require Import ZArith Lia.

Open Scope Z_scope.

(** ** The table *)

(** The table has an entry for every cluster. *)
Definition covered (b : Builder) : Prop := (max_clusters b + 2) * fat_entry_size (ftype b) <= zlen (fat b).

Lemma covered_grows P b b' : grows P b b' -> covered b -> covered b'.
Proof. intros Hg. unfold covered. by rewrite (gr_max _ _ _ Hg), (grows_ftype _ _ _ Hg), (gr_fat _ _ _ Hg). Qed.

Lemma fat_set_ok fat i v t : 0 <= i -> (i + 1) * fat_entry_size t <= zlen fat -> exists fat', fat_set fat i v t = Ok fat'.
Proof. intros H0 Hi. unfold fat_set. destruct t; cbn [fat_entry_size] in *; eexists; apply copy_at_ok; rewrite ?zlen_le_bytes; lia. Qed.

Lemma fat_get_ok fat i t : 0 <= i -> (i + 1) * fat_entry_size t <= zlen fat -> exists v, fat_get fat i t = Ok v.
Proof. intros H0 Hi. unfold fat_get. destruct t; cbn [fat_entry_size] in *; rewrite slice_ok by lia; cbn [res_bind]; by eexists. Qed.

Lemma covered_entry b i : covered b -> i < max_clusters b + 2 -> (i + 1) * fat_entry_size (ftype b) <= zlen (fat b).
Proof. unfold covered. intros Hc Hi. assert (0 < fat_entry_size (ftype b)) by (by destruct (ftype b)). nia. Qed.

Lemma set_fat_ok b i v : covered b -> 0 <= i < max_clusters b + 2 -> exists b', set_fat b i v = Ok b'.
Proof.
  intros Hc Hi. unfold set_fat. destruct (fat_set_ok (fat b) i v (ftype b)) as [fat' ->]; [lia|apply covered_entry; [done|lia]|]. cbn [res_bind]. by eexists.
Qed.

Lemma take_cluster_ok b : next_cluster b + 1 < 2 ^ 32 -> exists b', take_cluster b = Ok (b', next_cluster b).
Proof. intros Hn. unfold take_cluster. rewrite add_or_panic_ok by done. cbn [res_bind]. by eexists. Qed.

Lemma has_room_ok b n : max_clusters b + 1 < 2 ^ 32 -> exists room, has_room b n = Ok room.
Proof. intros Hm. unfold has_room. destruct (checked_add _ _ _); [|by eexists]. rewrite add_or_panic_ok by done. cbn [res_bind]. by eexists. Qed.

Lemma link_clusters_ok n : forall prev b,
  covered b -> 2 <= next_cluster b -> next_cluster b + Z.of_nat n <= max_clusters b + 2 -> max_clusters b + 2 < 2 ^ 32 ->
  match prev with Some p => 0 <= p < next_cluster b | None => True end -> exists b' l, link_clusters n prev b = Ok (b', l).
Proof.
  induction n as [|n IH]; intros prev b Hc H2 Hn Hm Hp; cbn [link_clusters]; [by eexists _, _|].
  destruct (take_cluster_ok b) as [b1 E1]; [lia|]. rewrite E1. cbn [res_bind]. pose proof (take_cluster_grows (fun _ => False) _ _ _ E1) as G1.
  apply take_cluster_spec in E1 as (_&N1&_&_&L1&M1). apply (covered_grows _ _ _ G1) in Hc.
  destruct prev as [p|]; cbn [res_bind]; [|apply IH; [done|lia|lia|lia|lia]].
  destruct (set_fat b1 p (next_cluster b)) as [b2| |] eqn:E2.
  - cbn [res_bind]. assert (grows (fun c => c = p) b1 b2 /\ next_cluster b2 = next_cluster b1) as [G2 N2].
    { unfold set_fat in E2. destruct (fat_set _ _ _ _) as [f| |] eqn:Ef; [|done..]. injection E2 as <-. split; [|done]. split; try done; [by apply fat_set_zlen in Ef|].
      intros c H0 Hne. unfold link, ftype. cbn. by apply (fat_get_set_other _ _ _ _ _ _ Ef). }
    apply IH; [by eapply covered_grows|lia|rewrite (gr_max _ _ _ G2); lia|rewrite (gr_max _ _ _ G2); lia|lia].
  - destruct (set_fat_ok b1 p (next_cluster b)) as [? E]; [done|lia|congruence].
  - destruct (set_fat_ok b1 p (next_cluster b)) as [? E]; [done|lia|congruence].
Qed.

(** ** Clusters *)

Lemma write_cluster_ok b c src : sized b -> 2 <= c <= max_clusters b + 1 -> zlen src <= cbytes b -> exists b', write_cluster b c src = Ok b'.
Proof.
  intros [Hcb Hd] Hc Hs. unfold write_cluster. fold (cbytes b). rewrite (proj2 (Z.ltb_ge _ _)) by lia.
  assert (0 <= (c - 2) * cbytes b) by nia. assert ((c - 2) * cbytes b + cbytes b <= zlen (data b)) by nia. rewrite slice_ok by lia. cbn [res_bind]. rewrite Z.add_simpl_l.
  assert (zlen (ztake (cbytes b) (zdrop ((c - 2) * cbytes b) (data b))) = cbytes b) as Hz by (rewrite zlen_ztake, zlen_zdrop; lia).
  rewrite copy_at_ok by lia. cbn [res_bind]. set (dst := _ ++ _). assert (zlen dst = cbytes b) as Hdst.
  { unfold dst. rewrite !zlen_app, zlen_ztake, zlen_zdrop, Hz. pose proof (zlen_nonneg src). lia. }
  rewrite copy_at_ok by lia. cbn [res_bind]. by eexists.
Qed.

Lemma write_pieces_ok pieces : forall c cs b,
  sized b -> covered b -> links b (c :: cs) -> NoDup (c :: cs) -> length pieces = S (length cs) -> Forall (fun x => 2 <= x <= max_clusters b + 1) (c :: cs) ->
  Forall (fun p => zlen p <= cbytes b) pieces -> exists b', write_pieces b c pieces = Ok b'.
Proof.
  induction pieces as [|p pieces IH]; intros c cs b Hs Hcov Hl Hn Hlen Hr Hp; [done|]. apply Forall_cons in Hr as [Hc Hr]. apply Forall_cons in Hp as [Hp Hps].
  cbn [write_pieces]. destruct (fat_get_ok (fat b) c (ftype b)) as [next En]; [lia|apply covered_entry; [done|lia]|]. rewrite En. cbn [res_bind].
  destruct (write_cluster_ok b c p Hs Hc Hp) as [b1 E1]. rewrite E1. cbn [res_bind]. apply write_cluster_spec in E1 as (G1&N1&F1&_); [|done].
  destruct cs as [|c' cs]; [destruct pieces; [by eexists|done]|]. destruct Hl as [El Hl]. unfold link in El. rewrite En in El. injection El as ->.
  apply NoDup_cons in Hn as [Hnin Hn]. apply (IH c' cs).
  - by eapply grows_sized.
  - by eapply covered_grows.
  - eapply links_grows; [exact G1| |done]. apply Forall_forall. intros x Hx. rewrite Forall_forall in Hr. split; [specialize (Hr x Hx); lia|]. intros ->. done.
  - done.
  - by injection Hlen.
  - by rewrite (gr_max _ _ _ G1).
  - by rewrite (grows_cbytes _ _ _ G1).
Qed.

Lemma chunks_short {A} n (l : list A) : 1 <= n -> Forall (fun p => zlen p <= n) (slice_chunks n l).
Proof.
  intros Hn. induction l as [|l Hne IH] using (slice_chunks_ind n Hn); [apply Forall_nil_2|]. rewrite slice_chunks_step by done.
  constructor; [rewrite zlen_ztake; lia|done].
Qed.

Lemma write_chain_ok b c cs content :
  sized b -> covered b -> links b (c :: cs) -> NoDup (c :: cs) -> zlen (c :: cs) = Z.max (div_ceil (zlen content) (cbytes b)) 1 ->
  Forall (fun x => 2 <= x <= max_clusters b + 1) (c :: cs) -> exists b', write_chain b c content = Ok b'.
Proof.
  intros Hs Hc Hl Hn Hlen Hr. unfold write_chain. fold (cbytes b). destruct (pieces_padded (cbytes b) content (proj1 Hs)) as [_ Hlp].
  apply (write_pieces_ok _ c cs); try done.
  - rewrite <- Hlen in Hlp. unfold zlen in Hlp. cbn [length] in Hlp. lia.
  - unfold pieces_of. destruct content; [constructor; [|apply Forall_nil_2]; change (zlen []) with 0; destruct Hs; lia|]. apply chunks_short, Hs.
Qed.

(** ** Files and directories *)

Lemma max_small b : builder_ok b -> max_clusters b + 2 < 2 ^ 32.
Proof. intros Hok. pose proof (bo_limit _ Hok). pose proof (fat_limit_mask (ftype b)). lia. Qed.

Lemma last_seqZ m n : 0 < n -> exists c, last (seqZ m n) = Some c /\ m <= c < m + n.
Proof.
  intros Hn. destruct (last (seqZ m n)) as [c|] eqn:E; [|by apply last_None in E; rewrite seqZ_cons in E by lia].
  exists c. split; [done|]. apply last_Some_elem_of, elem_of_seqZ in E. lia.
Qed.

Lemma alloc_chain_no_panic b n : builder_ok b -> covered b -> 0 <= n -> no_panic (alloc_chain b n).
Proof.
  intros Hok Hc H0. pose proof (max_small _ Hok). pose proof (bo_next _ Hok). unfold alloc_chain. destruct (Z.eqb_spec n 0); [done|].
  destruct (has_room_ok b n) as [[] Er]; [lia| |by rewrite Er]. rewrite Er. apply has_room_true in Er. cbn [res_bind negb].
  destruct (link_clusters_ok (Z.to_nat n) None b) as (b1&prev&El); [done|lia|lia|lia|done|]. rewrite El. cbn [res_bind].
  pose proof (bo_limit _ Hok). pose proof (fat_limit_mask (ftype b)). apply link_clusters_spec in El as (G1&_&_&_&->); [|lia|lia|done].
  change (option_list None) with (@nil Z). cbn [app]. rewrite Z2Nat.id in * by lia. destruct (last_seqZ (next_cluster b) n) as (c&Ec&Hr); [lia|]. rewrite Ec. cbn [or_panic res_bind].
  destruct (set_fat_ok b1 c (fat_eoc (ftype b1))) as [b2 E2]; [by eapply covered_grows|rewrite (gr_max _ _ _ G1); lia|]. by rewrite E2.
Qed.

Lemma write_file_no_panic b content : builder_ok b -> covered b -> no_panic (write_file b content).
Proof.
  intros Hok Hc. unfold write_file. destruct content as [|x content]; [done|]. set (l := x :: content). fold (cbytes b). pose proof (bo_cbytes _ Hok) as Hcb.
  unfold u32_try. destruct (_ <? 2 ^ 32); [|done]. cbn [res_bind]. set (needed := div_ceil (zlen l) (cbytes b)).
  assert (1 <= needed) as Hd by (by apply div_ceil_pos).
  apply no_panic_bind; [apply alloc_chain_no_panic; [done|done|lia]|]. intros [b1 c] Ea. apply alloc_chain_spec in Ea as (_&->&N1&R1&D1&[K1 _]&G1); [|done|lia].
  pose proof (bo_next _ Hok). assert (seqZ (next_cluster b) needed = next_cluster b :: seqZ (Z.succ (next_cluster b)) (Z.pred needed)) as Es by (by rewrite seqZ_cons by lia).
  apply no_panic_bind; [|done]. destruct (write_chain_ok b1 (next_cluster b) (seqZ (Z.succ (next_cluster b)) (Z.pred needed)) l) as [b2 E2]; [..|by rewrite E2].
  - by eapply grows_sized, builder_sized.
  - by eapply covered_grows.
  - by rewrite <- Es.
  - rewrite <- Es. apply NoDup_seqZ.
  - rewrite <- Es, (grows_cbytes _ _ _ G1). unfold zlen at 1. rewrite length_seqZ. fold needed. lia.
  - rewrite <- Es, (gr_max _ _ _ G1). apply Forall_forall. intros c Hx%elem_of_seqZ. lia.
Qed.

Lemma reserve_head_no_panic b : builder_ok b -> covered b -> no_panic (reserve_head b).
Proof.
  intros Hok Hc. pose proof (max_small _ Hok). pose proof (bo_next _ Hok). unfold reserve_head. rewrite add_or_panic_ok by lia. cbn [res_bind].
  destruct (Z.ltb_spec (max_clusters b + 1) (next_cluster b)); [done|]. destruct (take_cluster_ok b) as [b1 E1]; [lia|]. rewrite E1. cbn [res_bind].
  pose proof (take_cluster_grows (fun _ => False) _ _ _ E1) as G1. destruct (set_fat_ok b1 (next_cluster b) (fat_eoc (ftype b1))) as [b2 E2]; [by eapply covered_grows|rewrite (gr_max _ _ _ G1); lia|].
  by rewrite E2.
Qed.

Lemma extend_dir_no_panic b head extra : builder_ok b -> covered b -> reserved b head -> 0 < extra -> no_panic (extend_dir b head extra).
Proof.
  intros Hok Hc Hres H0. pose proof (max_small _ Hok). pose proof (bo_next _ Hok). pose proof (rs_range _ _ Hres). pose proof (bo_limit _ Hok). pose proof (fat_limit_mask (ftype b)).
  unfold extend_dir, u32_try. destruct (_ <? 2 ^ 32); [|done]. cbn [res_bind]. destruct (has_room_ok b extra) as [[] Er]; [lia| |by rewrite Er].
  rewrite Er. apply has_room_true in Er. cbn [res_bind negb]. destruct (set_fat_ok b head (next_cluster b)) as [b1 E1]; [done|lia|]. rewrite E1. cbn [res_bind].
  apply set_fat_spec in E1 as (G1&_&N1&_); [|lia]. pose proof (gr_max _ _ _ G1) as M1. destruct (take_cluster_ok b1) as [b2 E2]; [lia|]. rewrite E2. cbn [res_bind].
  pose proof (take_cluster_grows (fun _ => False) _ _ _ E2) as G2. apply take_cluster_spec in E2 as (_&N2&_&_&L2&M2).
  assert (covered b2) as Hc2 by (eapply covered_grows; [exact G2|by eapply covered_grows]).
  destruct (link_clusters_ok (Z.to_nat (extra - 1)) (Some (next_cluster b)) b2) as (b3&prev&E3); [done|lia|lia|lia|lia|]. rewrite E3. cbn [res_bind].
  assert (ftype b2 = ftype b) as T2 by (rewrite (grows_ftype _ _ _ G2); apply (grows_ftype _ _ _ G1)).
  apply link_clusters_spec in E3 as (G3&N3&_&_&->); [|lia|rewrite T2; lia|lia]. rewrite Z2Nat.id, N2, N1 in * by lia.
  assert (option_list (Some (next_cluster b)) ++ seqZ (next_cluster b + 1) (extra - 1) = seqZ (next_cluster b) extra) as ->.
  { rewrite (seqZ_cons (next_cluster b) extra) by lia. cbn. f_equal. }
  destruct (last_seqZ (next_cluster b) extra) as (c&Ec&Hr); [lia|]. rewrite Ec. cbn [or_panic res_bind].
  destruct (set_fat_ok b3 c (fat_eoc (ftype b3))) as [b4 E4]; [by eapply covered_grows|rewrite (gr_max _ _ _ G3); lia|]. by rewrite E4.
Qed.

Lemma extend_and_write_dir_no_panic b head content : builder_ok b -> covered b -> reserved b head -> no_panic (extend_and_write_dir b head content).
Proof.
  intros Hok Hc Hres. unfold extend_and_write_dir. fold (cbytes b). set (needed := Z.max (div_ceil (Z.max (zlen content) 1) (cbytes b)) 1).
  pose proof (bo_cbytes _ Hok) as Hcb. pose proof (rs_range _ _ Hres). pose proof (bo_next _ Hok).
  apply no_panic_bind.
  { destruct (0 <? needed - 1) eqn:Ed; [bools; apply extend_dir_no_panic; [done..|lia]|done]. }
  intros b1 E1.
  assert (exists cs, linked b1 (head :: cs) /\ sized b1 /\ covered b1 /\ NoDup (head :: cs) /\ zlen (head :: cs) = needed /\ cbytes b1 = cbytes b /\
    Forall (fun x => 2 <= x <= max_clusters b1 + 1) (head :: cs)) as (cs&[Hl _]&Hs&Hc1&Hn&Hlen&Hcb1&Hr).
  { destruct (0 <? needed - 1) eqn:Ed; bools.
    - apply extend_dir_spec in E1 as (N1&M1&D1&K1&G1); [|done|done|lia]. exists (seqZ (next_cluster b) (needed - 1)).
      split_and!; [done|by eapply grows_sized, builder_sized|by eapply covered_grows| | |apply (grows_cbytes _ _ _ G1)|].
      + apply NoDup_cons. split; [|apply NoDup_seqZ]. intros Hx%elem_of_seqZ. lia.
      + rewrite zlen_cons. unfold zlen. rewrite length_seqZ. lia.
      + rewrite (gr_max _ _ _ G1). constructor; [lia|]. apply Forall_forall. intros x Hx%elem_of_seqZ. lia.
    - injection E1 as <-. exists []. split_and!; [by apply reserved_linked|by apply builder_sized|done|apply NoDup_singleton| |done|].
      + change (zlen [head]) with 1. lia.
      + constructor; [lia|apply Forall_nil_2]. }
  destruct (write_chain_ok b1 head cs content) as [b2 ->]; try done. rewrite Hlen, Hcb1. by apply clusters_needed.
Qed.

Lemma build_short_no_panic name used : no_panic (build_short_and_lfn name used).
Proof.
  unfold build_short_and_lfn. destruct (short_name_candidate name ≫= _) as [[direct used']|]; [done|]. unfold make_unique_short_alias.
  destruct (match rfind 46 name with Some _ => _ | None => _ end) as [raw_base raw_ext]. apply no_panic_bind; [|by intros [? ?]].
  by destruct (alias_from _ _ _ _ _).
Qed.

Lemma validate_length_no_panic name : no_panic (validate_component_name_length name).
Proof. unfold validate_component_name_length. by destruct (_ <? _). Qed.

Lemma encode_children_no_panic t : forall b self is_root raw used,
  builder_ok b -> covered b -> u32 self -> plain_tree t -> no_panic (encode_children b t self is_root raw used).
Proof.
  induction t as [|name content rest IH|name sub IHs rest IH]; intros b self is_root raw used Hok Hc Hself Hpl; cbn [encode_children plain_tree] in *; [done|..].
  - destruct Hpl as [Hn Hpl]. apply no_panic_bind; [apply validate_length_no_panic|]. intros [] Ev. apply no_panic_bind; [apply build_short_no_panic|].
    intros [[short lfn] used1] Eb. unfold u32_try. destruct (Z.ltb_spec (zlen content) (2 ^ 32)); [|done]. cbn [res_bind].
    apply no_panic_bind; [by apply write_file_no_panic|]. intros [b1 c] Ew. apply write_file_spec in Ew as (Hok1&_&G1&Hcl&_); [|done]. pose proof (zlen_nonneg content).
    destruct (append_child_spec raw _ _ _ _ _ false c (zlen content) Hn Ev Eb Hcl) as (child&Ea&_); [unfold in_range; lia|]. rewrite Ea. cbn [res_bind].
    apply IH; [done|by eapply covered_grows|done|done].
  - destruct Hpl as (Hn&Hsub&Hpl). apply no_panic_bind; [apply validate_length_no_panic|]. intros [] Ev. apply no_panic_bind; [apply build_short_no_panic|].
    intros [[short lfn] used1] Eb. apply no_panic_bind; [by apply reserve_head_no_panic|]. intros [b1 c] Er. pose proof (bo_next _ Hok).
    apply reserve_head_spec in Er as (Hok1&->&N1&G1&R1); [|done]. set (c := next_cluster b) in *. pose proof (bo_next _ Hok1). pose proof (max_small _ Hok).
    assert (covered b1) as Hc1 by (by eapply covered_grows). assert (u32 c) as Hcl by (unfold in_range; lia).
    apply no_panic_bind; [by apply IHs|]. intros [b2 child_raw] Es. apply encode_children_spec in Es as [Hok2 N2 G2 _]; [|done..]. pose proof (bo_next _ Hok2).
    assert (reserved b2 c) as R2 by (eapply reserved_grows; [exact G2|cbv beta; lia|lia|lia|done]). assert (covered b2) as Hc2 by (by eapply covered_grows).
    apply no_panic_bind; [by apply extend_and_write_dir_no_panic|]. intros b3 Ex. apply extend_and_write_dir_spec in Ex as (Hok3&_&G3&_); [|done..].
    destruct (append_child_spec raw _ _ _ _ _ true c 0 Hn Ev Eb Hcl) as (child&Ea&_); [by_compute|]. rewrite Ea. cbn [res_bind].
    apply IH; [done|by eapply covered_grows|done|done].
Qed.

(** ** Assembly *)

Lemma puts_ok fields : forall image, Forall (fun f => 0 <= fst f /\ fst f + zlen (snd f) <= zlen image) fields -> exists image', puts image fields = Ok image' /\ zlen image' = zlen image.
Proof.
  induction fields as [|[off src] fields IH]; intros image Hf; cbn [puts]; [by exists image|]. apply Forall_cons in Hf as [[H0 Hl] Hf]. cbn [fst snd] in *.
  destruct (copy_at (E := EfiError) image off src) as [image1| |] eqn:E1; [|rewrite copy_at_ok in E1 by done; done..]. cbn [res_bind].
  apply copy_at_inv in E1 as (_&_&Hz&_). destruct (IH image1) as (image'&E'&Hz'); [by rewrite Hz|]. exists image'. split; [done|congruence].
Qed.

Lemma copy_at_length {E A} (l src : list A) pos : 0 <= pos -> pos + zlen src <= zlen l -> exists l', copy_at (E := E) l pos src = Ok l' /\ zlen l' = zlen l.
Proof. intros H0 H1. eexists. rewrite copy_at_ok by done. split; [done|]. rewrite !zlen_app, zlen_ztake, zlen_zdrop. pose proof (zlen_nonneg src). lia. Qed.

Lemma write_reserved_ok image bps free next : 512 <= bps -> exists image', write_reserved image bps free next = Ok image' /\ zlen image' = zlen image.
Proof.
  intros Hb. unfold write_reserved.
  assert (exists i1, (if 2 * bps <=? zlen image then
                   let? sector := slice image bps (2 * bps) in let? sector := write_fsinfo sector free next in copy_at image bps sector
                 else Ok image) = Ok i1 /\ zlen i1 = zlen image) as (i1&E1&Hz1).
  { destruct (Z.leb_spec (2 * bps) (zlen image)); [|by eexists]. rewrite slice_ok by lia. cbn [res_bind].
    assert (zlen (ztake (2 * bps - bps) (zdrop bps image)) = bps) as Hs by (rewrite zlen_ztake, zlen_zdrop; lia).
    unfold write_fsinfo. edestruct puts_ok as (sector&Ep&Hz); [|rewrite Ep; cbn [res_bind]; apply copy_at_length; lia].
    rewrite Hs. repeat (apply Forall_cons; split; [cbn [fst snd]; rewrite zlen_le_bytes; lia|]). apply Forall_nil_2. }
  rewrite E1. cbn [res_bind]. destruct (Z.leb_spec (8 * bps) (zlen i1)); [|by eexists]. rewrite slice_ok by lia. cbn [res_bind].
  rewrite <- Hz1. apply copy_at_length; rewrite ?zlen_ztake, ?zlen_zdrop; lia.
Qed.

Lemma write_fats_ok fat n : forall image start, 0 <= start -> start + Z.of_nat n * zlen fat <= zlen image -> exists image', write_fats n image start fat = Ok image' /\ zlen image' = zlen image.
Proof.
  induction n as [|n IH]; intros image start H0 Hl; cbn [write_fats]; [by eexists|]. pose proof (zlen_nonneg fat).
  destruct (copy_at_length (E := EfiError) image fat start) as (i1&E1&Hz1); [lia|nia|]. rewrite E1. cbn [res_bind]. rewrite <- Hz1. apply IH; [lia|]. rewrite Hz1. nia.
Qed.

Lemma finish_no_panic b root :
  layout_ok (layout b) -> builder_ok b -> zlen (fat b) = fat_region_len (layout b) -> max_clusters b = layout_max_clusters (layout b) -> 1 <= max_clusters b ->
  no_panic (finish b (layout b) (Some root) None).
Proof.
  intros Hl Hok Hfat Hmax H1. pose proof (layout_bps _ Hl). pose proof (lo_total _ Hl). pose proof (lo_spc _ Hl). pose proof (lo_fats _ Hl). pose proof (lo_size _ Hl). pose proof (lo_reserved _ Hl).
  pose proof (bo_next _ Hok). unfold finish, checked_sub. rewrite (proj2 (Z.leb_le 2 _)) by lia. cbn [or_panic res_bind]. set (free := saturating_sub _ _). clearbody free. cbn [default from_option id].
  assert (zlen (zeros (total_sectors (layout b) * bytes_per_sector (layout b))) = total_sectors (layout b) * bytes_per_sector (layout b)) as Hz0 by (apply zeros_zlen; nia).
  destruct (puts_ok (bpb_fields (layout b) root VOLUME_LABEL) (zeros (total_sectors (layout b) * bytes_per_sector (layout b)))) as (i1&E1&Hz1).
  { eapply Forall_impl; [by apply bpb_inside; [apply lo_type|]|]. intros f [? ?]. rewrite Hz0. split; [done|nia]. }
  unfold write_bpb. rewrite E1. cbn [res_bind]. rewrite (lo_type _ Hl). edestruct write_reserved_ok as (i2&E2&Hz2); [|rewrite E2; cbn [res_bind]]; [lia|].
  assert (first_data_sector (layout b) = reserved_sectors (layout b) + num_fats (layout b) * fat_size_sectors (layout b)) as Hd.
  { unfold first_data_sector, first_root_dir_sector, first_fat_sector. rewrite layout_root_sectors by done. lia. }
  assert (first_data_sector (layout b) + sectors_per_cluster (layout b) * max_clusters b <= total_sectors (layout b)) as Hfit.
  { rewrite Hmax in H1 |- *. unfold layout_max_clusters, data_sectors, saturating_sub in *.
    destruct (decide (total_sectors (layout b) <= first_data_sector (layout b))) as [Hle|]; [rewrite Z.max_r, Z.div_0_l in H1 by lia; lia|].
    rewrite Z.max_l by lia. pose proof (Z.mul_div_le (total_sectors (layout b) - first_data_sector (layout b)) (sectors_per_cluster (layout b)) ltac:(lia)). lia. }
  destruct (write_fats_ok (fat b) (Z.to_nat (num_fats (layout b))) i2 (first_fat_sector (layout b) * bytes_per_sector (layout b))) as (i3&E3&Hz3).
  { unfold first_fat_sector. nia. }
  { rewrite Hz2, Hz1, Hz0, Hfat, Z2Nat.id by lia. unfold first_fat_sector, fat_region_len.
    assert (reserved_sectors (layout b) + num_fats (layout b) * fat_size_sectors (layout b) <= total_sectors (layout b)) by nia. nia. }
  rewrite E3. cbn [res_bind]. destruct (copy_at_length (E := EfiError) i3 (data b) (first_data_sector (layout b) * bytes_per_sector (layout b))) as (i4&E4&_); [nia| |by rewrite E4].
  rewrite Hz3, Hz2, Hz1, Hz0, (bo_data _ Hok). unfold cbytes, bytes_per_cluster. nia.
Qed.

(** ** A whole image *)

Lemma new_builder_no_panic l : layout_ok l -> no_panic (new_builder l).
Proof.
  intros Hl. pose proof (layout_bps _ Hl). pose proof (lo_size _ Hl). unfold new_builder, u32_try. destruct (_ <? 2 ^ 32); [|done]. cbn [res_bind].
  destruct (_ <? 1); [done|]. assert (512 <= fat_region_len l) by (unfold fat_region_len; nia). rewrite (lo_type _ Hl).
  destruct (fat_set_ok (zeros (fat_region_len l)) 0 0x0fff_fff8 Fat32) as [f1 E1]; [lia|rewrite zeros_zlen by lia; cbn [fat_entry_size]; lia|]. rewrite E1. cbn [res_bind].
  apply fat_set_zlen in E1. destruct (fat_set_ok f1 1 (fat_eoc Fat32) Fat32) as [f2 E2]; [lia|rewrite E1, zeros_zlen by lia; cbn [fat_entry_size]; lia|]. by rewrite E2.
Qed.

(** The table of a layout has an entry for every cluster. *)
Definition table_fits (l : Layout) : Prop := (layout_max_clusters l + 2) * fat_entry_size (fat_type l) <= fat_region_len l.

Lemma encode_fat32_no_panic l staged : sound_layout l -> table_fits l -> plain_tree staged -> no_panic (encode_fat32 l staged).
Proof.
  intros [Hl Hlim] Hfit Hpl. unfold encode_fat32. apply no_panic_bind; [by apply new_builder_no_panic|]. intros b0 E0.
  apply new_builder_spec in E0 as (Hok0&L0&N0&M0&Hm&F0); [|done..]. rewrite (proj2 (Z.ltb_ge _ _)) by lia. set (b00 := b0 <| next_cluster := 3 |>).
  assert (forall P, grows P b0 b00) as G00 by (intros P; by split). assert (next_cluster b00 = 3) as N00 by done.
  assert (covered b0) as Hc0 by (unfold covered, ftype; rewrite M0, L0, F0; exact Hfit).
  assert (ftype b00 = fat_type l) as T00 by (unfold ftype; by rewrite (gr_layout _ _ _ (G00 (fun _ => False))), L0).
  assert (max_clusters b00 = max_clusters b0) as M00 by done.
  destruct (set_fat_ok b00 2 (fat_eoc (fat_type l))) as [b1 E1]; [by eapply covered_grows; [apply (G00 (fun _ => False))|]|lia|]. rewrite E1. cbn [res_bind].
  apply set_fat_spec in E1 as (G1&K1&N1&D1); [|rewrite T00; apply fat_eoc_mask].
  assert (grows (fun c => c = 2) b0 b1) as G1'.
  { eapply grows_weaken; [eapply grows_trans; [apply (G00 (fun _ => False))|exact G1]|]. cbv beta. tauto. }
  assert (builder_ok b1) as Hok1 by (eapply grown_ok; [exact Hok0|exact G1'|cbv beta; lia|lia]).
  assert (reserved b1 2) as R1.
  { split; [lia|by rewrite K1, (grows_ftype _ _ _ G1), T00|]. rewrite (grows_cbytes _ _ _ G1'). unfold cluster_of. rewrite D1, (grows_cbytes _ _ _ G1').
    apply (bo_fresh _ Hok0). lia. }
  assert (covered b1) as Hc1 by (by eapply covered_grows).
  apply no_panic_bind; [apply encode_children_no_panic; [done|done|by_compute|done]|]. intros [b2 raw] E2. unfold encode_dir in E2.
  apply encode_children_spec in E2 as [Hok2 N2 G2 _]; [|done|by_compute|done]. pose proof (bo_next _ Hok1). pose proof (bo_next _ Hok2). rewrite N1, N00 in *.
  assert (reserved b2 2) as R2 by (eapply reserved_grows; [exact G2|cbv beta; lia|lia|lia|done]). assert (covered b2) as Hc2 by (by eapply covered_grows).
  apply no_panic_bind; [by apply extend_and_write_dir_no_panic|]. intros b3 E3. apply extend_and_write_dir_spec in E3 as (Hok3&_&G3&_); [|done..].
  assert (layout b3 = l) as L3 by (rewrite (gr_layout _ _ _ G3), (gr_layout _ _ _ G2), (gr_layout _ _ _ G1'); done).
  assert (max_clusters b3 = max_clusters b0) as M3 by (by rewrite (gr_max _ _ _ G3), (gr_max _ _ _ G2), (gr_max _ _ _ G1')).
  assert (zlen (fat b3) = fat_region_len l) as F3 by (rewrite (gr_fat _ _ _ G3), (gr_fat _ _ _ G2), (gr_fat _ _ _ G1'); done).
  rewrite <- L3 in *. apply finish_no_panic; [done|done|done|congruence|lia].
Qed.

(** ** The size of the table *)

(** The search stopped because the size it tried is the size it needs. *)
Definition settled (l : Layout) (size : Z) : Prop := needed_fat_size l size = Some size.

Lemma settled_fits l size : layout_ok (l <| fat_size_sectors := size |>) -> settled l size -> table_fits (l <| fat_size_sectors := size |>).
Proof.
  intros Hl Hs. pose proof (layout_bps _ Hl) as Hbps. pose proof (lo_spc _ Hl) as Hspc. unfold settled, needed_fat_size in Hs.
  change (bytes_per_sector (l <| fat_size_sectors := size |>)) with (bytes_per_sector l) in Hbps.
  change (sectors_per_cluster (l <| fat_size_sectors := size |>)) with (sectors_per_cluster l) in Hspc.
  set (overhead := _ + _ + _) in Hs. destruct (Z.leb_spec (total_sectors l) overhead) as [|Hov]; [done|]. injection Hs as Hs.
  assert (layout_max_clusters (l <| fat_size_sectors := size |>) = (total_sectors l - overhead) / sectors_per_cluster l) as Em.
  { unfold layout_max_clusters, data_sectors, saturating_sub. change (first_data_sector (l <| fat_size_sectors := size |>)) with (reserved_sectors l + num_fats l * size + root_dir_sectors l).
    change (total_sectors (l <| fat_size_sectors := size |>)) with (total_sectors l). change (sectors_per_cluster (l <| fat_size_sectors := size |>)) with (sectors_per_cluster l).
    rewrite Z.max_l by (unfold overhead in *; lia). f_equal. unfold overhead. lia. }
  unfold table_fits. rewrite Em. change (fat_region_len (l <| fat_size_sectors := size |>)) with (size * bytes_per_sector l).
  change (fat_type (l <| fat_size_sectors := size |>)) with (fat_type l). set (need := (_ + 2) * fat_entry_size (fat_type l)) in *.
  assert (div_ceil need (bytes_per_sector l) <= size) as Hd by lia. unfold div_ceil in Hd.
  pose proof (Z.mod_pos_bound (need + bytes_per_sector l - 1) (bytes_per_sector l) ltac:(lia)).
  pose proof (Z.div_mod (need + bytes_per_sector l - 1) (bytes_per_sector l) ltac:(lia)). nia.
Qed.

(** ** Checking the image *)

Lemma walk_each_no_panic r b lo hi walk t : forall es,
  views r b -> builder_ok b -> 2 <= lo -> hi <= max_clusters b + 2 -> lists lo hi b t es ->
  (forall sub sub_es, lists lo hi b sub sub_es -> no_panic (walk sub_es)) -> no_panic (walk_each walk r es).
Proof.
  induction t as [|name old rest IH|name sub _ rest IH]; intros es Hv Hok Hlo Hhi Hl Hw; destruct es as [|e es]; try done; cbn [lists walk_each] in *.
  - destruct Hl as [(c&->&Hs) Hl]. cbn [de_is_dir de_cluster de_size]. erewrite chain_bytes_stored by done. cbn [res_bind]. rewrite Z.eqb_refl. cbn [negb res_bind]. by apply IH.
  - destruct Hl as [(c&cs&raw&sub_es&->&Hh&Hp&Hs) Hl]. cbn [de_is_dir de_cluster]. apply no_panic_bind; [|intros _ _; by apply IH].
    destruct (c <? 2); [done|]. destruct (chain_bytes_holds _ _ _ _ _ _ _ Hv Hok Hh Hlo Hhi) as [[k Ek] _]. unfold dir_region_bytes. rewrite Ek. cbn [res_bind].
    rewrite parse_dir_region_parse, Hp. by apply (Hw sub).
Qed.

Lemma walk_no_panic r b lo hi fuel : forall t es,
  views r b -> builder_ok b -> 2 <= lo -> hi <= max_clusters b + 2 -> lists lo hi b t es -> no_panic (walk fuel r es).
Proof.
  induction fuel as [|fuel IH]; intros t es Hv Hok Hlo Hhi Hl; [done|]. cbn [walk]. eapply walk_each_no_panic; [done|done| | |done|]; [lia|lia|]. intros sub sub_es Hs. by eapply IH.
Qed.

Lemma carries_check_no_panic image l root staged : carries image l root staged -> no_panic (self_check image).
Proof.
  intros [_ Hp (b&region&es&Hok&Hv&Er&Ep&Hl)]. unfold self_check. rewrite Hp. cbn [res_bind]. rewrite Er. cbn [res_bind]. rewrite Ep.
  eapply walk_no_panic; [done|done| | |done]; lia.
Qed.

(** ** Creating an image *)

Lemma validate_names_no_panic lower names : forall seen, no_panic (validate_names lower names seen).
Proof. induction names as [|name names IH]; intros seen; cbn [validate_names]; [done|]. destruct (_ || _); [done|]. destruct (decide _); [done|apply IH]. Qed.

Lemma stage_no_panic content t : forall part more, no_panic (stage t part more content).
Proof.
  induction t as [|name old rest IH|name sub IHs rest IH]; intros part more; cbn [stage]; [done|..]; destruct (decide _).
  - by destruct more.
  - destruct (text_ltb part name); [done|]. apply no_panic_bind; [apply IH|done].
  - destruct more; [done|]. apply no_panic_bind; [apply IHs|done].
  - destruct (text_ltb part name); [done|]. apply no_panic_bind; [apply IH|done].
Qed.

Lemma stage_files_no_panic files : forall t, no_panic (stage_files t files).
Proof.
  induction files as [|[name content] files IH]; intros t; cbn [stage_files]; [done|]. destruct (split_path name).
  apply no_panic_bind; [apply stage_no_panic|]. intros t' _. apply IH.
Qed.

Lemma compute_fat_size_no_panic l : no_panic (compute_fat_size l).
Proof.
  unfold compute_fat_size. generalize 1. generalize 64%nat as turns. induction turns as [|turns IH]; intros size; cbn [fat_size_from]; [unfold u32_try; by destruct (_ <? _)|].
  destruct (needed_fat_size l size); [|done]. cbn [ok_or res_bind]. destruct (_ =? _); [unfold u32_try; by destruct (_ <? _)|apply IH].
Qed.

(** The layout [create_efi] gives a partition, before the size of its table. *)
Definition efi_layout (part_bytes sector_size lba vol : Z) : Layout := fresh_layout Fat32 (part_bytes / sector_size) sector_size lba vol.

Section Create.
Variables (to_lowercase : text -> text) (part_bytes sector_size lba vol : Z) (files : list (text * bytes)).
Hypothesis part_range : 0 <= part_bytes < 2 ^ 41.
Hypothesis lba_range : u32 lba.
Hypothesis vol_range : u32 vol.
Hypothesis names_are_text : Forall (Forall is_char) (map fst files).

(** C34. Creating an image of less than 2 TiB panics in no branch, whatever the files
    are, when the search for the table's size settled. *)
Theorem create_efi_no_panic :
  (forall size, compute_fat_size (efi_layout part_bytes sector_size lba vol) = Ok size -> settled (efi_layout part_bytes sector_size lba vol) size) ->
  create_efi_with_volume_id to_lowercase part_bytes sector_size lba vol files <> Panic.
Proof.
  intros Hset. change (no_panic (create_efi_with_volume_id to_lowercase part_bytes sector_size lba vol files)). unfold create_efi_with_volume_id.
  apply no_panic_bind; [apply validate_names_no_panic|]. intros [] Ev. apply no_panic_bind; [unfold validate_efi_geometry; by destruct (_ || _)|]. intros [] Eg.
  destruct (geometry_ok _ _ Eg part_range) as (Hss&Ht&Hlt). apply no_panic_bind; [apply stage_files_no_panic|]. intros staged Es.
  assert (plain_tree staged) as Hpl.
  { apply validate_names_spec in Ev as (Hv&_&_). eapply (named_plain (map fst files)).
    - apply Forall_and. done.
    - intros p m Hm. destruct (stage_files_node _ _ _ _ _ Es Hm) as [[]|?]. done. }
  apply no_panic_bind.
  - unfold format_image. fold (efi_layout part_bytes sector_size lba vol). apply no_panic_bind; [apply compute_fat_size_no_panic|]. intros size Ec.
    pose proof (fat_size_from_pos _ _ _ _ Ec ltac:(lia)) as Hsize. pose proof (fresh_layout_sound _ _ _ _ _ Hss Ht Hlt lba_range vol_range Hsize) as Hl.
    unfold encode_image. cbn [fat_type]. apply (encode_fat32_no_panic _ _ Hl); [|done]. apply settled_fits; [apply Hl|by apply Hset].
  - intros container Ef. destruct (format_image_carries _ _ _ _ _ _ Ef Hss Ht Hlt lba_range vol_range Hpl) as (l&_&Hca).
    apply no_panic_bind; [by eapply carries_check_no_panic|done].
Qed.
End Create.

Lemma create_efi_no_panic_witness : create_efi_with_volume_id ascii_lower (64 * 512) 512 0 77 first_files <> Panic.
Proof.
  apply create_efi_no_panic; [lia|by_compute|by_compute|..].
  - repeat (apply Forall_cons; split; [repeat (apply Forall_cons; split; [left; vm_compute; split; congruence|]); apply Forall_nil_2|]). apply Forall_nil_2.
  - intros size. vm_compute. intros [= <-]. done.
Defined.

(** ** Chains of damaged images *)

(** The clusters of a chain as the table links them, up to [last]. *)
Fixpoint linked (fat : bytes) (t : FatType) (c : Z) (cs : list Z) (last : Z) : Prop :=
  match cs with
  | [] => c = last
  | x :: cs => x = c /\ exists next, fat_get fat c t = Ok next /\ linked fat t next cs last
  end.

Lemma linked_snoc fat t c cs x y : linked fat t c cs x -> fat_get fat x t = Ok y -> linked fat t c (cs ++ [x]) y.
Proof.
  revert c. induction cs as [|z cs IH]; intros c; cbn [linked app]; [intros ->; eauto|].
  intros (->&next&Hg&Hl) Hy. split; [done|]. exists next. split; [done|by apply IH].
Qed.

Definition cluster_bytes (r : Reader) (c : Z) : bytes :=
  ztake (bytes_per_cluster (rd_layout r)) (zdrop (cluster_offset (rd_layout r) c) (image r)).

(** A cluster of the data area that lies in the image. *)
Definition inside (r : Reader) (c : Z) : Prop :=
  2 <= c <= layout_max_clusters (rd_layout r) + 1 /\
  cluster_offset (rd_layout r) c + bytes_per_cluster (rd_layout r) <= zlen (image r).

Definition trim (hint : option Z) (out : bytes) : bytes := match hint with Some sz => ztake sz out | None => out end.

(** Where following the chain from [c] stops: the clusters passed, each once and
    none with the bytes asked for complete, and why it stops at [last]. *)
Definition chain_ends (r : Reader) (fat : bytes) (hint : option Z) (c : Z) (x : res EfiError bytes) : Prop :=
  let l := rd_layout r in
  let content cs := concat (map (cluster_bytes r) cs) in
  exists cs last, linked fat (fat_type l) c cs last /\ NoDup cs /\ Forall (inside r) cs /\
    (cs <> [] -> enough hint (content cs) = false) /\
    match x with
    | Ok out =>
        ((last < 2 \/ fat_is_eoc (fat_type l) last = true) /\ out = trim hint (content cs)) \/
        (last ∉ cs /\ inside r last /\ enough hint (content (cs ++ [last])) = true /\ out = trim hint (content (cs ++ [last])))
    | Err e =>
        2 <= last /\ fat_is_eoc (fat_type l) last = false /\
        ((e = ChainLoop /\ last ∈ cs) \/
         (e = ChainOutOfRange /\ last ∉ cs /\ layout_max_clusters l + 1 < last) \/
         (e = ChainOutsideImage /\ last ∉ cs /\ last <= layout_max_clusters l + 1 /\ zlen (image r) < cluster_offset l last + bytes_per_cluster l))
    | Panic => False
    end.

Lemma follow_chain_exact fuel r fat hint start : 
  0 <= cluster_offset (rd_layout r) 2 -> 0 <= sectors_per_cluster (rd_layout r) -> 0 <= bytes_per_sector (rd_layout r) ->
  (layout_max_clusters (rd_layout r) + 2) * fat_entry_size (fat_type (rd_layout r)) <= zlen fat ->
  forall c cs, linked fat (fat_type (rd_layout r)) start cs c -> NoDup cs -> Forall (inside r) cs ->
    (cs <> [] -> enough hint (concat (map (cluster_bytes r) cs)) = false) ->
    Z.max (layout_max_clusters (rd_layout r)) 0 < zlen cs + Z.of_nat fuel ->
    chain_ends r fat hint start
      (let? out := follow_chain fuel r fat hint c (rev cs) (concat (map (cluster_bytes r) cs)) in Ok (trim hint out)).
Proof.
  intros H2 Hspc Hbps Ht. induction fuel as [|fuel IH]; intros c cs Hl Hn Hi He Hf.
  { assert (zlen cs <= Z.max (layout_max_clusters (rd_layout r)) 0); [|lia]. apply distinct_clusters; [done|].
    eapply Forall_impl; [exact Hi|]. by intros ? []. }
  cbn [follow_chain]. destruct ((c <? 2) || _) eqn:Ec.
  { cbn [res_bind]. exists cs, c. split_and!; try done. left. split; [|done]. apply orb_prop in Ec as [Ec|Ec]; bools; auto. }
  apply orb_false_elim in Ec as [Ec1 Ec2]. bools. destruct (bool_decide (c ∈ rev cs)) eqn:Ev.
  { apply bool_decide_eq_true in Ev. rewrite list_elem_of_In, <- in_rev, <- list_elem_of_In in Ev. cbn [res_bind]. exists cs, c. split_and!; try done; auto. }
  apply bool_decide_eq_false in Ev. rewrite list_elem_of_In, <- in_rev, <- list_elem_of_In in Ev.
  destruct (Z.ltb_spec (layout_max_clusters (rd_layout r) + 1) c) as [Hm|Hm].
  { cbn [res_bind]. exists cs, c. split_and!; try done; auto. }
  set (off := cluster_offset (rd_layout r) c). set (cb := bytes_per_cluster (rd_layout r)).
  destruct (Z.ltb_spec (zlen (image r)) (off + cb)) as [Ho|Ho].
  { cbn [res_bind]. exists cs, c. split_and!; try done. right. right. by split_and!. }
  assert (0 <= off) as Hoff by (unfold off, cluster_offset in *; nia). assert (0 <= cb) as Hcb by (unfold cb, bytes_per_cluster; nia).
  rewrite slice_ok by lia. cbn [res_bind]. replace (off + cb - off) with cb by lia.
  change (ztake cb (zdrop off (image r))) with (cluster_bytes r c).
  assert (concat (map (cluster_bytes r) cs) ++ cluster_bytes r c = concat (map (cluster_bytes r) (cs ++ [c]))) as ->.
  { by rewrite map_app, concat_app; cbn; rewrite app_nil_r. }
  assert (inside r c) as Hin by done. destruct (enough hint (concat (map (cluster_bytes r) (cs ++ [c])))) eqn:Een.
  { cbn [res_bind]. exists cs, c. split_and!; try done. right. by split_and!. }
  destruct (fat_get_ok fat c (fat_type (rd_layout r))) as [next Eg]; [lia| |].
  { destruct (fat_type (rd_layout r)); cbn [fat_entry_size] in *; nia. }
  rewrite Eg. cbn [res_bind]. rewrite <- rev_unit. apply IH.
  - by eapply linked_snoc.
  - apply NoDup_app. split_and!; [done| |by apply NoDup_singleton]. intros x Hx ->%list_elem_of_singleton. done.
  - apply Forall_app_2; [done|by constructor].
  - done.
  - rewrite zlen_app, zlen_cons. change (zlen []) with 0. lia.
Qed.

(** A test that was passed. *)
Ltac passed H := match type of H with (if ?b then _ else _) = _ => destruct b; [discriminate H|] end.

(** What [parse_layout] accepts has no negative field. *)
Lemma parse_layout_nonneg container l root :
  is_bytes container -> parse_layout container = Ok (l, root) ->
  0 <= bytes_per_sector l /\ 0 <= sectors_per_cluster l /\ 0 <= first_fat_sector l /\ 0 <= first_data_sector l.
Proof.
  intros Hb.
  assert (forall off n x, le_at container off n = Ok x -> 0 <= x) as Hle.
  { intros off n x. unfold le_at. destruct (slice container off (off + n)) as [b| |] eqn:S; [|done..]. intros [= <-]. apply le_val_bound. by eapply slice_is_bytes. }
  unfold parse_layout. intros (size & Hs & H)%res_bind_ok. passed H. apply res_bind_ok in H as (spc & Hspc & H). passed H.
  apply res_bind_ok in H as (reserved & Hres & H). passed H. apply res_bind_ok in H as (fats & Hfats & H). passed H.
  apply res_bind_ok in H as (entries & Hent & H). do 4 apply res_bind_ok in H as (? & ? & H).
  passed H. apply res_bind_ok in H as ([[t n] rc] & Ht & H).
  assert (0 <= n) as Hn.
  { destruct (negb _); [injection Ht as <- <- <-; by eapply Hle|]. apply res_bind_ok in Ht as (m & Hm & Ht). passed Ht.
    apply res_bind_ok in Ht as (? & _ & Ht). passed Ht. injection Ht as <- <- <-. by eapply Hle. }
  passed H. apply res_bind_ok in H as (id & _ & H). do 2 passed H.
  injection H as <- <-. unfold first_data_sector, first_root_dir_sector, first_fat_sector, root_dir_sectors, div_ceil.
  cbn [bytes_per_sector sectors_per_cluster reserved_sectors num_fats fat_size_sectors root_entry_count].
  assert (forall i x, index (E := EfiError) container i = Ok x -> 0 <= x) as Hix.
  { intros i y. unfold index, or_panic. destruct (zget container i) eqn:G; [|done]. intros [= <-]. by apply (zget_bytes _ _ _ Hb) in G as [? _]. }
  apply Hix in Hspc, Hfats. apply Hle in Hres, Hent.
  unfold efi_sector_size in Hs. passed Hs. apply res_bind_ok in Hs as (mark & _ & Hs). passed Hs.
  apply res_bind_ok in Hs as (b & Hsb & Hs). apply res_bind_ok in Hs as ([] & _ & Hs). injection Hs as <-.
  pose proof (le_val_bound b (slice_is_bytes _ _ _ _ Hsb Hb)) as [Hbv _]. split_and!; [done..|].
  assert (0 <= (entries * 32 + le_val b - 1) / le_val b); [|nia]. destruct (decide (le_val b = 0)) as [->|]; [by rewrite Zdiv_0_r|].
  apply Z.div_pos; lia.
Qed.

(** The table lies in the image and has an entry for every cluster. *)
Definition table_covers (r : Reader) : Prop :=
  table_fits (rd_layout r) /\
  first_fat_sector (rd_layout r) * bytes_per_sector (rd_layout r) + fat_region_len (rd_layout r) <= zlen (image r).

(** C35. Following a chain of an image, also a damaged one, always ends and panics
    nowhere, as long as the boot sector is accepted and its table lies in the image
    and has an entry for every cluster.  The result is exact: the bytes of the
    clusters the table links, cut to the size asked for, when the links reach an
    end mark or the size is reached; and an error of the source when they come back
    to a cluster they have passed, leave the data area or leave the image. *)
Theorem cluster_chain_exact (r : Reader) (cluster : Z) (size_hint : option Z) :
  is_bytes (image r) -> parse_layout (image r) = Ok (rd_layout r, root_cluster r) -> table_covers r -> 0 <= cluster ->
  exists fat, fat_slice r = Ok fat /\ chain_ends r fat size_hint cluster (cluster_chain_bytes r cluster size_hint).
Proof.
  intros Hb Hp [Hfit Hin] Hc. destruct (parse_layout_nonneg _ _ _ Hb Hp) as (Hbps & Hspc & Hff & Hfd).
  pose proof Hin as Hin'. unfold table_fits in Hfit. assert (0 <= layout_max_clusters (rd_layout r)) as Hm.
  { unfold layout_max_clusters, data_sectors, saturating_sub. destruct (decide (sectors_per_cluster (rd_layout r) = 0)) as [->|]; [by rewrite Zdiv_0_r|]. apply Z.div_pos; lia. }
  assert (0 <= fat_region_len (rd_layout r)) as Hr by (destruct (fat_type (rd_layout r)); cbn [fat_entry_size] in *; lia).
  unfold cluster_chain_bytes, fat_slice. rewrite slice_ok by nia. eexists. split; [done|]. cbn [res_bind]. set (fat := ztake _ _).
  assert (zlen fat = fat_region_len (rd_layout r)) as Hl by (unfold fat; rewrite zlen_ztake, zlen_zdrop; nia).
  destruct (Z.eqb_spec cluster 0) as [->|].
  { exists [], 0. cbn [linked map concat]. split_and!; try done; [apply NoDup_nil_2|]. left. split; [left; lia|].
    destruct size_hint; [by unfold trim, ztake; rewrite take_nil|done]. }
  apply (follow_chain_exact _ r fat size_hint cluster) with (cs := []); try done.
  - unfold cluster_offset. nia.
  - by rewrite Hl.
  - apply NoDup_nil_2.
  - change (zlen []) with 0. lia.
Qed.


(** An image whose root directory is linked to itself. *)
Definition damaged_image : bytes := the (puts first_image [(32 * 512 + 2 * 4, le_bytes 4 2)]) [].
Definition damaged_reader : Reader :=
  {| image := damaged_image; rd_layout := (efi_layout (64 * 512) 512 0 77) <| fat_size_sectors := 1 |>; root_cluster := 2 |}.

Lemma cluster_chain_exact_witness :
  cluster_chain_bytes damaged_reader 2 None = Err ChainLoop /\
  exists fat, fat_slice damaged_reader = Ok fat /\ chain_ends damaged_reader fat None 2 (cluster_chain_bytes damaged_reader 2 None).
Proof.
  split; [by vm_compute|].
  apply cluster_chain_exact; [apply is_bytes_forallb; by vm_compute|by vm_compute|split; by vm_compute|done].
Defined.

(** ** Where it goes wrong *)

(** The search for the table's size goes to and fro between two sizes for some
    partitions and then takes the smaller one: of 161 sectors of 512 bytes, the
    127 clusters do not all have an entry, and a file that needs them makes
    [create_efi] panic, while one cluster less fits. *)
Lemma table_one_sector_short :
  let l := efi_layout (161 * 512) 512 0 77 in
  compute_fat_size l = Ok 1 /\ needed_fat_size l 1 = Some 2 /\ needed_fat_size l 2 = Some 1 /\
  create_efi_with_volume_id ascii_lower (161 * 512) 512 0 77 [(bytes_of "F", zeros (126 * 512))] = Panic /\
  is_ok (create_efi_with_volume_id ascii_lower (161 * 512) 512 0 77 [(bytes_of "F", zeros (125 * 512))]) = true.
Proof. by vm_compute. Qed.

(** Two directories whose names differ only in case are both accepted, and the
    files of the second cannot be read. *)
Lemma case_hides_files :
  let container := the (create_efi_with_volume_id ascii_lower (64 * 512) 512 0 77 [(bytes_of "EFI/a", [1]); (bytes_of "efi/b", [2])]) [] in
  read_efi_file ascii_lower container (bytes_of "EFI/a") = Ok [1] /\ read_efi_file ascii_lower container (bytes_of "efi/b") = Err NotFound.
Proof. by vm_compute. Qed.

(** A boot sector that names a table larger than the image makes reading panic. *)
Lemma large_table_panics :
  let container := the (puts first_image [(36, le_bytes 4 0xffff)]) [] in
  is_ok (parse_layout container) = true /\ read_efi_file ascii_lower container (bytes_of "m1n1/boot image.bin") = Panic.
Proof. by vm_compute. Qed.
