(* ===== verification/Bridge.v ===== *)
(** * The Restore Bridge protocol (bridge_protocol.rs)

    Records with a forty-byte header, their assembly from a stream of bytes, and
    the binary payloads.  The JSON payloads go through serde_json, which is a
    parameter; the checks on the decoded records are here.  A Rust [String] is the
    list of its bytes. *)

From S2P Require Import Prelude Windows Sha FatNames.
From stdpp Require Import base tactics numbers list option strings.
From Stdlib Require Import ZArith Lia.

Open Scope Z_scope.

(** [io::ErrorKind] of the errors; their text is not modelled. *)
Inductive BridgeError := InvalidInput | InvalidData.

Definition MAGIC : bytes := bytes_of "RBRG".
Definition VERSION : Z := 1.
Definition HEADER_LEN : Z := 40.
Definition MAX_JSON_BYTES : Z := 64 * 1024.
Definition MAX_PACKET_BYTES : Z := 0x8000.
Definition MAX_TRANSFER_BYTES : Z := 0x7ffc.
Definition MAX_BOOT_CONTEXT_BYTES : Z := 4 * 1024 * 1024.
Definition MAX_SIGNED_BODY_BYTES : Z := 4 * 1024 * 1024.
Definition BOOT_CONTEXT_ENCODING_VERSION : Z := 1.
Definition SIGNING_ENCODING_VERSION : Z := 1.
Definition SIGNING_DIGEST_ALGORITHM : Z := 1.
Definition SIGNATURE_FORMAT_RS : Z := 1.
Definition MANB_IDENTIFIER_BYTES : bytes := [0xff; 0x84; 0xea; 0x85; 0x9c; 0x42].

(** ** Records *)

Inductive RecordKind :=
| Hello | ServerHello | List | Device | ListEnd | Watch | Claim | Claimed | PacketToDevice | PacketFromDevice
| Credit | Stats | Gone | Detach | Detached | Ping | Pong | Error | GetBootContext | BootContextKind
| SignFdrManifest | FdrManifestSignatureKind | GetApNonce | ApNonce | GetSepNonce | SepNonce | GetSignerPublicKey | SignerPublicKey.
#[export] Instance RecordKind_eq_dec : EqDecision RecordKind.
Proof. solve_decision. Defined.

(** In the order of their numbers. *)
Definition kinds : list RecordKind :=
  [Hello; ServerHello; List; Device; ListEnd; Watch; Claim; Claimed; PacketToDevice; PacketFromDevice;
   Credit; Stats; Gone; Detach; Detached; Ping; Pong; Error; GetBootContext; BootContextKind;
   SignFdrManifest; FdrManifestSignatureKind; GetApNonce; ApNonce; GetSepNonce; SepNonce; GetSignerPublicKey; SignerPublicKey].

Definition from_wire (value : Z) : res BridgeError RecordKind := ok_or (zget kinds (value - 1)) InvalidData.

Definition wire_value (k : RecordKind) : Z :=
  match k with
  | Hello => 1 | ServerHello => 2 | List => 3 | Device => 4 | ListEnd => 5 | Watch => 6 | Claim => 7 | Claimed => 8
  | PacketToDevice => 9 | PacketFromDevice => 10 | Credit => 11 | Stats => 12 | Gone => 13 | Detach => 14 | Detached => 15
  | Ping => 16 | Pong => 17 | Error => 18 | GetBootContext => 19 | BootContextKind => 20 | SignFdrManifest => 21
  | FdrManifestSignatureKind => 22 | GetApNonce => 23 | ApNonce => 24 | GetSepNonce => 25 | SepNonce => 26
  | GetSignerPublicKey => 27 | SignerPublicKey => 28
  end.

Definition payload_limit (k : RecordKind) : Z :=
  match k with
  | Hello | ServerHello | Device | ListEnd | Watch | Claim | Claimed | Gone | Detach | Detached | Error => MAX_JSON_BYTES
  | List | GetBootContext | GetApNonce | GetSepNonce | GetSignerPublicKey => 0
  | ApNonce => 32
  | SepNonce => 20
  | SignerPublicKey => 65
  | PacketToDevice => MAX_PACKET_BYTES
  | PacketFromDevice => MAX_TRANSFER_BYTES
  | Credit => 8
  | Stats => 64
  | Ping | Pong => 8
  | BootContextKind => MAX_BOOT_CONTEXT_BYTES
  | SignFdrManifest => MAX_SIGNED_BODY_BYTES + 8
  | FdrManifestSignatureKind => 185
  end.

Record RecordHeader := {
  version : Z;
  kind : RecordKind;
  flags : Z;
  payload_len : Z;
  request_id : Z;
  generation : Z;
  lease_id : Z;
}.
#[export] Instance eta_header : Eta RecordHeader := fun h =>
  Build_RecordHeader (version h) (kind h) (flags h) (payload_len h) (request_id h) (generation h) (lease_id h).

Definition header_encode (h : RecordHeader) : bytes :=
  MAGIC ++ be_bytes 2 (version h) ++ be_bytes 2 (wire_value (kind h)) ++ be_bytes 4 (flags h) ++ be_bytes 4 (payload_len h) ++
  be_bytes 8 (request_id h) ++ be_bytes 8 (generation h) ++ be_bytes 8 (lease_id h).

(** [uN::from_be_bytes(b[lo..hi].try_into().unwrap())] *)
Definition be_at (b : bytes) (lo hi : Z) : res BridgeError Z := let? s := slice b lo hi in Ok (be_val s).

Definition header_decode (b : bytes) : res BridgeError RecordHeader :=
  if negb (zlen b =? HEADER_LEN) then Err InvalidData else
  let? magic := slice b 0 4 in
  if negb (bool_decide (magic = MAGIC)) then Err InvalidData else
  let? version := be_at b 4 6 in
  if negb (version =? VERSION) then Err InvalidData else
  let? number := be_at b 6 8 in
  let? kind := from_wire number in
  let? flags := be_at b 8 12 in
  if negb (flags =? 0) then Err InvalidData else
  let? payload_len := be_at b 12 16 in
  let? request_id := be_at b 16 24 in
  let? generation := be_at b 24 32 in
  let? lease_id := be_at b 32 40 in
  Ok {| version := version; kind := kind; flags := flags; payload_len := payload_len; request_id := request_id;
        generation := generation; lease_id := lease_id |}.

Record RawRecord := { header : RecordHeader; payload : bytes }.

(** A check: [if bad { return Err(e) }]. *)
Definition refuse (bad : bool) (e : BridgeError) : res BridgeError unit := if bad then Err e else Ok tt.

(** ** DER elements of a signed body *)

(** [cursor] is the rest of the bytes: [bytes.get(cursor)] and its successors. *)
Definition decode_der_length (b : bytes) : res BridgeError (Z * bytes) :=
  match b with
  | [] => Err InvalidData
  | first :: rest =>
      if first =? 0x80 then Err InvalidData else
      if Z.land first 0x80 =? 0 then Ok (first, rest) else
      let count := Z.land first 0x7f in
      if (count =? 0) || (4 <? count) then Err InvalidData else
      let? length_bytes := ok_or (get_range rest 0 count) InvalidData in
      let? lead := index length_bytes 0 in
      if lead =? 0 then Err InvalidData else
      if (count =? 1) && (lead <? 0x80) then Err InvalidData else
      Ok (foldl (fun length byte => Z.lor (Z.shiftl length 8) byte) 0 length_bytes, zdrop count rest)
  end.

(** The body after a length, and what follows it. *)
Definition take_body (b : bytes) : res BridgeError (bytes * bytes) :=
  let? (length, rest) := decode_der_length b in
  let? body := ok_or (get_range rest 0 length) InvalidData in
  Ok (body, zdrop length rest).

Definition take_der_element (b : bytes) (expected_tag : Z) : res BridgeError (bytes * bytes) :=
  match b with
  | [] => Err InvalidData
  | tag :: rest => if negb (tag =? expected_tag) then Err InvalidData else take_body rest
  end.

Definition take_private_manb_element (b : bytes) : res BridgeError (bytes * bytes) :=
  if bool_decide (get_range b 0 (zlen MANB_IDENTIFIER_BYTES) = Some MANB_IDENTIFIER_BYTES)
  then take_body (zdrop (zlen MANB_IDENTIFIER_BYTES) b) else Err InvalidData.

Definition is_empty {A} (l : list A) : bool := zlen l =? 0.

Definition validate_signed_manb_body (body : bytes) : res BridgeError unit :=
  let? _ := refuse (is_empty body || (MAX_SIGNED_BODY_BYTES <? zlen body)) InvalidData in
  let? (set_body, rest) := take_der_element body 0x31 in
  let? _ := refuse (negb (is_empty rest)) InvalidData in
  let? (private_body, rest) := take_private_manb_element set_body in
  let? _ := refuse (negb (is_empty rest)) InvalidData in
  let? (sequence_body, rest) := take_der_element private_body 0x30 in
  let? _ := refuse (negb (is_empty rest)) InvalidData in
  let? (ia5, rest) := take_der_element sequence_body 0x16 in
  let? _ := refuse (negb (bool_decide (ia5 = bytes_of "MANB"))) InvalidData in
  let? (inner_set, rest) := take_der_element rest 0x31 in
  let? _ := refuse (is_empty inner_set) InvalidData in
  refuse (negb (is_empty rest)) InvalidData.

(** ** Binary payloads *)

Record CreditRecord := { direction : Z; delta : Z }.

Definition bad_direction (d : Z) : bool := negb (d =? 1) && negb (d =? 2).

Definition encode_credit (c : CreditRecord) : res BridgeError bytes :=
  let? _ := refuse (bad_direction (direction c)) InvalidInput in
  let? _ := refuse (delta c =? 0) InvalidInput in
  Ok ([direction c] ++ [0; 0; 0] ++ be_bytes 4 (delta c)).

Definition decode_credit (p : bytes) : res BridgeError CreditRecord :=
  let? _ := refuse (negb (zlen p =? 8)) InvalidData in
  let? reserved := slice p 1 4 in
  let? _ := refuse (negb (bool_decide (reserved = [0; 0; 0]))) InvalidData in
  let? direction := index p 0 in
  let? delta := be_at p 4 8 in
  let? _ := refuse (bad_direction direction || (delta =? 0)) InvalidData in
  Ok {| direction := direction; delta := delta |}.

Record StatsRecord := {
  packets_to_device_received : Z;
  packets_accepted_by_device : Z;
  bytes_accepted_by_device : Z;
  packets_from_device_sent : Z;
  bytes_from_device_sent : Z;
  queued_to_device : Z;
  queued_from_device : Z;
  host_to_device_credits_outstanding : Z;
  device_to_host_credits_outstanding : Z;
  presence : Z;
}.

Definition encode_stats (s : StatsRecord) : bytes :=
  be_bytes 8 (packets_to_device_received s) ++ be_bytes 8 (packets_accepted_by_device s) ++ be_bytes 8 (bytes_accepted_by_device s) ++
  be_bytes 8 (packets_from_device_sent s) ++ be_bytes 8 (bytes_from_device_sent s) ++ be_bytes 4 (queued_to_device s) ++
  be_bytes 4 (queued_from_device s) ++ be_bytes 4 (host_to_device_credits_outstanding s) ++
  be_bytes 4 (device_to_host_credits_outstanding s) ++ [presence s] ++ zeros 7.

Definition decode_stats (p : bytes) : res BridgeError StatsRecord :=
  let? _ := refuse (negb (zlen p =? 64)) InvalidData in
  let? reserved := slice p 57 64 in
  let? _ := refuse (negb (bool_decide (reserved = zeros 7))) InvalidData in
  let? a := be_at p 0 8 in
  let? b := be_at p 8 16 in
  let? c := be_at p 16 24 in
  let? d := be_at p 24 32 in
  let? e := be_at p 32 40 in
  let? f := be_at p 40 44 in
  let? g := be_at p 44 48 in
  let? h := be_at p 48 52 in
  let? i := be_at p 52 56 in
  let? presence := index p 56 in
  Ok {| packets_to_device_received := a; packets_accepted_by_device := b; bytes_accepted_by_device := c; packets_from_device_sent := d;
        bytes_from_device_sent := e; queued_to_device := f; queued_from_device := g; host_to_device_credits_outstanding := h;
        device_to_host_credits_outstanding := i; presence := presence |}.

Definition encode_ping_nonce (nonce : Z) : bytes := be_bytes 8 nonce.
Definition decode_ping_nonce (p : bytes) : res BridgeError Z :=
  let? _ := refuse (negb (zlen p =? 8)) InvalidData in Ok (be_val p).

(** ** The boot context *)

Record BootContext := {
  staged_boot_manifest_sha384 : bytes;
  staged_boot_manifest : option bytes;
  ap_nonce : option bytes;
  fdr_element_index : Z;
  fdr_element_count : Z;
  fdr_trust_digest_sha256 : option bytes;
  fdr_trust_object : option bytes;
  fdr_instance : option bytes;
  fdr_material_path : option bytes;
  sep_public_key_uncompressed : option bytes;
  remote_signer_available : bool;
}.

Definition flag (bit : Z) (present : bool) : Z := if present then Z.shiftl 1 bit else 0.
Definition is_some {A} (o : option A) : bool := match o with Some _ => true | None => false end.
Definition len_of (o : option bytes) : Z := match o with Some b => zlen b | None => 0 end.
Definition u32_len (n : Z) : res BridgeError bytes := if n <? 2 ^ 32 then Ok (be_bytes 4 n) else Err InvalidInput.

(** Nonempty, absolute, without NUL. *)
Definition bad_material_path (path : bytes) : bool :=
  is_empty path || negb (bool_decide (zget path 0 = Some 47)) || existsb (Z.eqb 0) path.

Definition check_trust (c : BootContext) : res BridgeError unit :=
  match fdr_trust_object c, fdr_trust_digest_sha256 c with
  | None, None => refuse (negb (fdr_element_index c =? 0) || negb (fdr_element_count c =? 0)) InvalidInput
  | Some object, Some digest =>
      let? _ := refuse (is_empty object) InvalidInput in
      let? _ := refuse ((fdr_element_count c =? 0) || (fdr_element_count c <=? fdr_element_index c)) InvalidInput in
      let? hash := sha256 object in
      refuse (negb (bool_decide (hash = digest))) InvalidInput
  | _, _ => Err InvalidInput
  end.

(** The checks of [encode] after those on the trust data. *)
Definition check_rest (c : BootContext) : res BridgeError unit :=
  let? _ := match fdr_instance c with
            | Some instance =>
                let? _ := refuse (negb (is_some (fdr_trust_object c))) InvalidInput in refuse (is_empty instance) InvalidInput
            | None => Ok tt
            end in
  let? _ := match fdr_material_path c with
            | Some path =>
                let? _ := refuse (negb (is_some (fdr_trust_object c))) InvalidInput in refuse (bad_material_path path) InvalidInput
            | None => Ok tt
            end in
  let? _ := match sep_public_key_uncompressed c with
            | Some sep => let? lead := index sep 0 in refuse (negb (lead =? 4)) InvalidInput
            | None => Ok tt
            end in
  let? _ := refuse (remote_signer_available c && negb (is_some (sep_public_key_uncompressed c))) InvalidInput in
  match staged_boot_manifest c with
  | Some manifest =>
      let? _ := refuse (is_empty manifest) InvalidInput in
      let? hash := sha384 manifest in
      refuse (negb (bool_decide (hash = staged_boot_manifest_sha384 c))) InvalidInput
  | None => Ok tt
  end.

Definition boot_flags (c : BootContext) : Z :=
  Z.lor (flag 0 (is_some (ap_nonce c))) (Z.lor (flag 1 (is_some (fdr_trust_object c))) (Z.lor (flag 2 (is_some (fdr_instance c)))
  (Z.lor (flag 3 (is_some (fdr_material_path c))) (Z.lor (flag 4 (is_some (sep_public_key_uncompressed c)))
  (Z.lor (flag 5 (remote_signer_available c)) (flag 6 (is_some (staged_boot_manifest c)))))))).

Definition boot_context_encode (c : BootContext) : res BridgeError bytes :=
  let? _ := check_trust c in
  let? _ := check_rest c in
  let? trust_object_len := u32_len (len_of (fdr_trust_object c)) in
  let? instance_len := u32_len (len_of (fdr_instance c)) in
  let? material_len := u32_len (len_of (fdr_material_path c)) in
  let? manifest_len := u32_len (len_of (staged_boot_manifest c)) in
  let out := be_bytes 2 BOOT_CONTEXT_ENCODING_VERSION ++ be_bytes 2 0 ++ be_bytes 4 (boot_flags c) ++ be_bytes 4 (fdr_element_index c) ++
    be_bytes 4 (fdr_element_count c) ++ trust_object_len ++ instance_len ++ material_len ++ manifest_len ++ staged_boot_manifest_sha384 c ++
    default [] (ap_nonce c) ++ default [] (fdr_trust_digest_sha256 c) ++ default [] (fdr_trust_object c) ++ default [] (fdr_instance c) ++
    default [] (fdr_material_path c) ++ default [] (sep_public_key_uncompressed c) ++ default [] (staged_boot_manifest c) in
  if MAX_BOOT_CONTEXT_BYTES <? zlen out then Err InvalidInput else Ok out.

Definition slice_at (p : bytes) (cursor len : Z) : res BridgeError (bytes * Z) :=
  let? fin := ok_or (checked_add 64 cursor len) InvalidData in
  let? s := ok_or (get_range p cursor fin) InvalidData in
  Ok (s, fin).

(** [flags & (1 << bit) != 0] *)
Definition has_flag (flags bit : Z) : bool := Z.testbit flags bit.

(** A part that is there when its flag is set: [take] reads it. *)
Definition take_if (present : bool) (cursor : Z) (take : Z -> res BridgeError (bytes * Z)) (absent : res BridgeError unit)
    : res BridgeError (option bytes * Z) :=
  if present then let? (b, cursor) := take cursor in Ok (Some b, cursor)
  else let? _ := absent in Ok (None, cursor).

Definition take_instance (p : bytes) (trusted : bool) (len cursor : Z) : res BridgeError (bytes * Z) :=
  let? _ := refuse (negb trusted) InvalidData in
  let? (b, cursor) := slice_at p cursor len in
  match from_utf8 b with Some _ => Ok (b, cursor) | None => Err InvalidData end.

Definition take_material (p : bytes) (trusted : bool) (len cursor : Z) : res BridgeError (bytes * Z) :=
  let? _ := refuse (negb trusted) InvalidData in
  let? (b, cursor) := slice_at p cursor len in
  let? _ := refuse (bad_material_path b) InvalidData in
  Ok (b, cursor).

Definition take_sep (p : bytes) (cursor : Z) : res BridgeError (bytes * Z) :=
  let? (key, cursor) := slice_at p cursor 65 in
  let? lead := index key 0 in
  let? _ := refuse (negb (lead =? 4)) InvalidData in
  Ok (key, cursor).

Definition take_manifest (p digest : bytes) (len cursor : Z) : res BridgeError (bytes * Z) :=
  let? (manifest, cursor) := slice_at p cursor len in
  let? _ := refuse (is_empty manifest) InvalidData in
  let? hash := sha384 manifest in
  let? _ := refuse (negb (bool_decide (hash = digest))) InvalidData in
  Ok (manifest, cursor).

(** The parts behind the words at the beginning. *)
Definition boot_context_parts (p : bytes) (flags element_index element_count trust_object_len instance_len material_len manifest_len : Z)
    : res BridgeError BootContext :=
  let? (manifest_digest, cursor) := slice_at p 32 48 in
  let? (nonce, cursor) := take_if (has_flag flags 0) cursor (fun cursor => slice_at p cursor 32) (Ok tt) in
  let trusted := has_flag flags 1 in
  let? (digest, cursor) := take_if trusted cursor (fun cursor => slice_at p cursor 32)
    (refuse (negb (trust_object_len =? 0) || negb (element_index =? 0) || negb (element_count =? 0) || negb (instance_len =? 0) ||
             negb (material_len =? 0)) InvalidData) in
  let? (object, cursor) := take_if trusted cursor (fun cursor => slice_at p cursor trust_object_len) (Ok tt) in
  let? (instance, cursor) := take_if (has_flag flags 2) cursor (take_instance p trusted instance_len)
    (refuse (negb (instance_len =? 0)) InvalidData) in
  let? (material, cursor) := take_if (has_flag flags 3) cursor (take_material p trusted material_len)
    (refuse (negb (material_len =? 0)) InvalidData) in
  let? (sep, cursor) := take_if (has_flag flags 4) cursor (take_sep p) (Ok tt) in
  let? (manifest, cursor) := take_if (has_flag flags 6) cursor (take_manifest p manifest_digest manifest_len)
    (refuse (negb (manifest_len =? 0)) InvalidData) in
  let? _ := refuse (has_flag flags 5 && negb (is_some sep)) InvalidData in
  let? _ := refuse (negb (cursor =? zlen p)) InvalidData in
  let? _ := match digest with
            | Some digest =>
                let? _ := refuse ((trust_object_len =? 0) || (element_count =? 0) || (element_count <=? element_index)) InvalidData in
                let? hash := sha256 (default [] object) in
                refuse (negb (bool_decide (hash = digest))) InvalidData
            | None => Ok tt
            end in
  Ok {| staged_boot_manifest_sha384 := manifest_digest; staged_boot_manifest := manifest; ap_nonce := nonce;
        fdr_element_index := element_index; fdr_element_count := element_count; fdr_trust_digest_sha256 := digest;
        fdr_trust_object := object; fdr_instance := instance; fdr_material_path := material; sep_public_key_uncompressed := sep;
        remote_signer_available := has_flag flags 5 |}.

Definition boot_context_decode (p : bytes) : res BridgeError BootContext :=
  let? _ := refuse (zlen p <? 80) InvalidData in
  let? _ := refuse (MAX_BOOT_CONTEXT_BYTES <? zlen p) InvalidData in
  let? encoding_version := be_at p 0 2 in
  let? reserved0 := be_at p 2 4 in
  let? flags := be_at p 4 8 in
  let? element_index := be_at p 8 12 in
  let? element_count := be_at p 12 16 in
  let? trust_object_len := be_at p 16 20 in
  let? instance_len := be_at p 20 24 in
  let? material_len := be_at p 24 28 in
  let? manifest_len := be_at p 28 32 in
  let? _ := refuse (negb (encoding_version =? BOOT_CONTEXT_ENCODING_VERSION) || negb (reserved0 =? 0)) InvalidData in
  let? _ := refuse (negb (Z.land flags (bit_not 32 0x7f) =? 0)) InvalidData in
  boot_context_parts p flags element_index element_count trust_object_len instance_len material_len manifest_len.

(** ** Signing *)

Definition sign_request_encode (signed_body : bytes) : res BridgeError bytes :=
  let? _ := validate_signed_manb_body signed_body in
  let? body_len := u32_len (zlen signed_body) in
  Ok (be_bytes 2 SIGNING_ENCODING_VERSION ++ be_bytes 2 SIGNING_DIGEST_ALGORITHM ++ body_len ++ signed_body).

Definition sign_request_decode (p : bytes) : res BridgeError bytes :=
  let? _ := refuse (zlen p <? 8) InvalidData in
  let? encoding := be_at p 0 2 in
  let? algorithm := be_at p 2 4 in
  let? len := be_at p 4 8 in
  let? _ := refuse (negb (encoding =? SIGNING_ENCODING_VERSION) || negb (algorithm =? SIGNING_DIGEST_ALGORITHM)) InvalidData in
  let? _ := refuse (MAX_SIGNED_BODY_BYTES <? len) InvalidData in
  let? _ := refuse (negb (zlen p =? 8 + len)) InvalidData in
  let? body := slice p 8 (zlen p) in
  let? _ := validate_signed_manb_body body in
  Ok body.

Record FdrManifestSignature := {
  signed_body_length : Z;
  digest_sha384 : bytes;
  signature_rs : bytes;
  signer_public_key_uncompressed : bytes;
}.

Definition signature_encode (s : FdrManifestSignature) : bytes :=
  be_bytes 2 SIGNING_ENCODING_VERSION ++ be_bytes 2 SIGNATURE_FORMAT_RS ++ be_bytes 4 (signed_body_length s) ++ digest_sha384 s ++
  signature_rs s ++ signer_public_key_uncompressed s.

Definition signature_decode (p : bytes) : res BridgeError FdrManifestSignature :=
  let? _ := refuse (negb (zlen p =? 185)) InvalidData in
  let? encoding := be_at p 0 2 in
  let? format := be_at p 2 4 in
  let? _ := refuse (negb (encoding =? SIGNING_ENCODING_VERSION) || negb (format =? SIGNATURE_FORMAT_RS)) InvalidData in
  let? digest := slice p 8 56 in
  let? rs := slice p 56 120 in
  let? key := slice p 120 185 in
  let? lead := index key 0 in
  let? _ := refuse (negb (lead =? 4)) InvalidData in
  let? len := be_at p 4 8 in
  Ok {| signed_body_length := len; digest_sha384 := digest; signature_rs := rs; signer_public_key_uncompressed := key |}.

(** ** Checks on records *)

Definition validate_packet_to_device (p : bytes) : res BridgeError unit :=
  let? _ := refuse (negb ((8 <=? zlen p) && (zlen p <=? MAX_PACKET_BYTES))) InvalidData in
  let? declared := be_at p 4 8 in
  refuse (negb (declared =? zlen p)) InvalidData.

Definition validate_packet_from_device (p : bytes) (max_transfer_size : Z) : res BridgeError unit :=
  refuse (is_empty p || (max_transfer_size <? zlen p) || (MAX_TRANSFER_BYTES <? zlen p)) InvalidData.

Definition validate_record_header (h : RecordHeader) : res BridgeError unit :=
  let? _ := refuse (negb (version h =? VERSION)) InvalidInput in
  let? _ := refuse (negb (flags h =? 0)) InvalidInput in
  match kind h with
  | Hello | ServerHello | List | ListEnd | Watch =>
      let? _ := refuse (request_id h =? 0) InvalidInput in
      refuse (negb (generation h =? 0) || negb (lease_id h =? 0)) InvalidInput
  | Device | Claim =>
      let? _ := refuse (request_id h =? 0) InvalidInput in
      refuse ((generation h =? 0) || negb (lease_id h =? 0)) InvalidInput
  | PacketToDevice | PacketFromDevice | Credit | Stats | Gone =>
      let? _ := refuse (negb (request_id h =? 0)) InvalidInput in
      refuse ((generation h =? 0) || (lease_id h =? 0)) InvalidInput
  | Claimed | Detach | Detached | GetBootContext | BootContextKind | GetApNonce | ApNonce | GetSepNonce | SepNonce
  | GetSignerPublicKey | SignerPublicKey | SignFdrManifest | FdrManifestSignatureKind =>
      let? _ := refuse (request_id h =? 0) InvalidInput in
      refuse ((generation h =? 0) || (lease_id h =? 0)) InvalidInput
  | Ping | Pong => refuse (request_id h =? 0) InvalidInput
  | Error => Ok tt
  end.

Definition validate_record_payload (k : RecordKind) (p : bytes) : res BridgeError unit :=
  match k with
  | List | GetBootContext | GetApNonce | GetSepNonce | GetSignerPublicKey => refuse (negb (is_empty p)) InvalidInput
  | PacketToDevice => validate_packet_to_device p
  | PacketFromDevice => validate_packet_from_device p MAX_TRANSFER_BYTES
  | Credit => let? _ := decode_credit p in Ok tt
  | Stats => let? _ := decode_stats p in Ok tt
  | Ping | Pong => let? _ := decode_ping_nonce p in Ok tt
  | BootContextKind => let? _ := boot_context_decode p in Ok tt
  | ApNonce => refuse (negb (zlen p =? 32)) InvalidData
  | SepNonce => refuse (negb (zlen p =? 20)) InvalidData
  | SignerPublicKey => refuse (negb (zlen p =? 65) || negb (bool_decide (zget p 0 = Some 4))) InvalidData
  | SignFdrManifest => let? _ := sign_request_decode p in Ok tt
  | FdrManifestSignatureKind => let? _ := signature_decode p in Ok tt
  | _ => Ok tt
  end.

Definition encode_record (h : RecordHeader) (p : bytes) : res BridgeError bytes :=
  let? _ := validate_record_header h in
  let? _ := refuse (negb (zlen p <? 2 ^ 32)) InvalidInput in
  let? _ := refuse (payload_limit (kind h) <? zlen p) InvalidInput in
  let? _ := validate_record_payload (kind h) p in
  Ok (header_encode (h <| payload_len := zlen p |>) ++ p).

(** ** Assembly *)

Record FrameAssembler := { buffer : bytes; consumed : Z }.
#[export] Instance eta_assembler : Eta FrameAssembler := fun a => Build_FrameAssembler (buffer a) (consumed a).
Definition empty_assembler : FrameAssembler := {| buffer := []; consumed := 0 |}.

Definition compact (a : FrameAssembler) : FrameAssembler :=
  if consumed a =? 0 then a else
  if consumed a =? zlen (buffer a) then {| buffer := []; consumed := 0 |} else
  if (4096 <=? consumed a) || (zlen (buffer a) <=? consumed a * 2) then {| buffer := zdrop (consumed a) (buffer a); consumed := 0 |}
  else a.

(** The length a header announces, checked against its kind. *)
Definition announced (h : RecordHeader) : res BridgeError Z :=
  let? _ := refuse (bool_decide (kind h = ApNonce) && negb (payload_len h =? 32)) InvalidData in
  let? _ := refuse (bool_decide (kind h = SepNonce) && negb (payload_len h =? 20)) InvalidData in
  let? _ := refuse (payload_limit (kind h) <? payload_len h) InvalidData in
  Ok (payload_len h).

Definition try_take (a : FrameAssembler) : res BridgeError (option (RawRecord * FrameAssembler)) :=
  let? available := slice (buffer a) (consumed a) (zlen (buffer a)) in
  if zlen available <? HEADER_LEN then Ok None else
  let? head := slice available 0 HEADER_LEN in
  let? h := header_decode head in
  let? n := announced h in
  let total := HEADER_LEN + n in
  if zlen available <? total then Ok None else
  let? p := slice available HEADER_LEN total in
  Ok (Some ({| header := h; payload := p |}, compact (a <| consumed := consumed a + total |>))).

(** The loop of [push]: on an error the records taken before it are dropped with
    the vector that holds them.  [None]: out of turns. *)
Fixpoint take_all (turns : nat) (a : FrameAssembler) : option (FrameAssembler * res BridgeError (list RawRecord)) :=
  match turns with
  | O => None
  | S turns =>
      match try_take a with
      | Ok None => Some (a, Ok [])
      | Ok (Some (frame, a)) =>
          (fun '(a, r) => (a, let? frames := r in Ok (frame :: frames))) <$> take_all turns a
      | Err e => Some (a, Err e)
      | Panic => Some (a, Panic)
      end
  end.

(** Each turn but the last takes at least a header off the buffer. *)
Definition push (a : FrameAssembler) (b : bytes) : option (FrameAssembler * res BridgeError (list RawRecord)) :=
  let a := a <| buffer := buffer a ++ b |> in
  take_all (S (length (buffer a))) a.

(** ** JSON records *)

Class Json (T : Type) := {
  to_vec : T -> option bytes;
  from_slice : bytes -> option T;
}.

Definition encode_json {T} `{Json T} (value : T) : res BridgeError bytes :=
  let? b := ok_or (to_vec value) InvalidInput in
  if MAX_JSON_BYTES <? zlen b then Err InvalidInput else Ok b.

Definition decode_json {T} `{Json T} (p : bytes) : res BridgeError T :=
  if MAX_JSON_BYTES <? zlen p then Err InvalidData else ok_or (from_slice p) InvalidData.

Definition is_hexdigit (b : Z) : bool := ((48 <=? b) && (b <=? 57)) || ((65 <=? b) && (b <=? 70)) || ((97 <=? b) && (b <=? 102)).
Definition is_uppercase (b : Z) : bool := (65 <=? b) && (b <=? 90).

Definition validate_hex_id (value : bytes) : res BridgeError unit :=
  refuse (negb (zlen value =? 32) || negb (forallb (fun b => is_hexdigit b && negb (is_uppercase b)) value)) InvalidData.
Definition validate_ascii_identifier (value : bytes) (max_len : Z) : res BridgeError unit :=
  refuse (is_empty value || (max_len <? zlen value) || existsb (fun b => negb (b <? 128) || (b =? 0)) value) InvalidData.
Definition validate_utf8_nonempty (value : bytes) (max_len : Z) : res BridgeError unit :=
  refuse (is_empty value || (max_len <? zlen value)) InvalidData.

Record HelloRecord := { minimum_version : Z; maximum_version : Z; client_name : bytes; client_instance_id : bytes; client_pid : Z }.

Definition validate_hello (h : HelloRecord) : res BridgeError unit :=
  let? _ := refuse ((VERSION <? minimum_version h) || (maximum_version h <? VERSION)) InvalidData in
  let? _ := refuse (negb (bool_decide (client_name h = bytes_of "apple-utils"))) InvalidData in
  validate_hex_id (client_instance_id h).

Definition SERVER_CAPABILITIES : list bytes :=
  map bytes_of ["list"; "watch"; "packetCredit"; "bootContext"; "signFdrManifest"; "signerPublicKey"; "detach"]%string.

Record ServerHelloRecord := { selected_version : Z; server_name : bytes; broker_id : bytes; server_pid : Z; capabilities : list bytes }.

Definition validate_server_hello (h : ServerHelloRecord) : res BridgeError unit :=
  let? _ := refuse (negb (selected_version h =? VERSION)) InvalidData in
  let? _ := validate_hex_id (broker_id h) in
  refuse (negb (zlen (capabilities h) =? zlen SERVER_CAPABILITIES) || negb (bool_decide (capabilities h = SERVER_CAPABILITIES))) InvalidData.

Inductive DeviceEvent := Snapshot | Added | Changed | RemovedEvent.
Inductive TransportKind := Dwc3 | VirtioGadget.
Inductive DeviceState := Available | ClaimedState | Unavailable | Removed.

Record DeviceRecord := {
  revision : Z;
  event : DeviceEvent;
  device_broker_id : bytes;
  record_device_id : bytes;
  vm_id : bytes;
  vm_name : bytes;
  controller_index : Z;
  device_transport_kind : TransportKind;
  device_state : DeviceState;
  detail : option bytes;
  device_out_max_packet_size : Z;
  device_max_packet_size : Z;
  device_max_transfer_size : Z;
}.

Definition validate_device_record (r : DeviceRecord) : res BridgeError unit :=
  let? _ := validate_hex_id (device_broker_id r) in
  let? _ := validate_ascii_identifier (record_device_id r) 128 in
  let? _ := validate_utf8_nonempty (vm_id r) 256 in
  let? _ := validate_utf8_nonempty (vm_name r) 256 in
  let? _ := refuse (device_out_max_packet_size r =? 0) InvalidData in
  let? _ := refuse ((device_max_packet_size r =? 0) || (MAX_PACKET_BYTES <? device_max_packet_size r)) InvalidData in
  refuse ((device_max_transfer_size r =? 0) || (MAX_TRANSFER_BYTES <? device_max_transfer_size r)) InvalidData.

Record ClaimRequest := { claim_device_id : bytes; receive_depth_packets : Z }.

Definition outside (lo hi x : Z) : bool := negb ((lo <=? x) && (x <=? hi)).

Definition validate_claim_request (r : ClaimRequest) : res BridgeError unit :=
  let? _ := validate_ascii_identifier (claim_device_id r) 128 in
  refuse (outside 1 256 (receive_depth_packets r)) InvalidInput.

Record ClaimedRecord := {
  device_id : bytes;
  transport_kind : TransportKind;
  out_max_packet_size : Z;
  max_packet_size : Z;
  max_transfer_size : Z;
  host_to_device_credits : Z;
  device_to_host_credits : Z;
}.

Definition validate_claimed (c : ClaimedRecord) : res BridgeError unit :=
  let? _ := validate_ascii_identifier (device_id c) 128 in
  let? _ := refuse (outside 1 256 (host_to_device_credits c)) InvalidData in
  let? _ := refuse (outside 1 256 (device_to_host_credits c)) InvalidData in
  let? _ := refuse (MAX_PACKET_BYTES <? max_packet_size c) InvalidData in
  refuse (MAX_TRANSFER_BYTES <? max_transfer_size c) InvalidData.
