(* ===== verification/BridgeProps.v ===== *)
(** * The Restore Bridge protocol: what the codec and the assembler do *)

From S2P Require Import Prelude Windows Sha FatNames Der Bridge.
From stdpp Require Import base tactics numbers list option strings.
From Stdlib Require Import ZArith Lia.

Open Scope Z_scope.

(** ** Reading fields *)

Lemma refuse_ok bad e : refuse bad e = Ok tt <-> bad = false.
Proof. by destruct bad. Qed.

(** A range behind a prefix, and one that is the prefix. *)
Lemma get_range_skip {A} (a b : list A) lo hi : zlen a <= lo -> get_range (a ++ b) lo hi = get_range b (lo - zlen a) (hi - zlen a).
Proof.
  intros Hl. unfold get_range. pose proof (zlen_nonneg a). rewrite zlen_app, zdrop_app_ge by done. replace (hi - zlen a - (lo - zlen a)) with (hi - lo) by lia.
  rewrite (proj2 (Z.leb_le 0 lo)), (proj2 (Z.leb_le 0 (lo - zlen a))) by lia. cbn [andb].
  destruct (Z.leb_spec lo hi), (Z.leb_spec (lo - zlen a) (hi - zlen a)); try lia; [|done]. cbn [andb].
  destruct (Z.leb_spec hi (zlen a + zlen b)), (Z.leb_spec (hi - zlen a) (zlen b)); lia || done.
Qed.

Lemma get_range_here {A} (k post : list A) lo hi : lo = 0 -> hi = zlen k -> get_range (k ++ post) lo hi = Some k.
Proof.
  intros -> ->. unfold get_range. pose proof (zlen_nonneg k). pose proof (zlen_nonneg post). rewrite zlen_app, !(proj2 (Z.leb_le _ _)) by lia. cbn [andb].
  by rewrite zdrop_0, Z.sub_0_r, ztake_app_le, ztake_all by lia.
Qed.

Lemma slice_skip {A} (a b : list A) lo hi : zlen a <= lo -> slice (E := BridgeError) (a ++ b) lo hi = slice b (lo - zlen a) (hi - zlen a).
Proof. intros. unfold slice. by rewrite get_range_skip. Qed.
Lemma slice_here {A} (k post : list A) lo hi : lo = 0 -> hi = zlen k -> slice (E := BridgeError) (k ++ post) lo hi = Ok k.
Proof. intros. unfold slice. by rewrite get_range_here. Qed.
Lemma be_at_skip a b lo hi : zlen a <= lo -> be_at (a ++ b) lo hi = be_at b (lo - zlen a) (hi - zlen a).
Proof. intros. unfold be_at. by rewrite slice_skip. Qed.
Lemma be_at_here n x post lo hi : 0 <= x < 2 ^ (8 * Z.of_nat n) -> lo = 0 -> hi = Z.of_nat n -> be_at (be_bytes n x ++ post) lo hi = Ok x.
Proof. intros. unfold be_at. rewrite slice_here by (rewrite ?zlen_be_bytes; lia). cbn [res_bind]. by rewrite be_val_be_bytes, Z.mod_small. Qed.

(** Sizes of the fields in front. *)
Ltac sizes := rewrite ?zlen_be_bytes, ?zlen_cons, ?zlen_nil in *; change (zlen MAGIC) with 4 in *.
Ltac skip_fields := repeat first [rewrite be_at_skip by (sizes; lia) | rewrite slice_skip by (sizes; lia)].
Ltac read_field := skip_fields; first [rewrite be_at_here by (sizes; lia) | rewrite slice_here by (sizes; lia)]; cbn [res_bind].

(** ** Headers *)


Record header_ok (h : RecordHeader) : Prop := {
  ho_version : version h = VERSION;
  ho_flags : flags h = 0;
  ho_len : u32 (payload_len h);
  ho_request : u64 (request_id h);
  ho_generation : u64 (generation h);
  ho_lease : u64 (lease_id h);
}.

Lemma wire_roundtrip k : from_wire (wire_value k) = Ok k.
Proof. by destruct k. Qed.

Lemma zlen_header h : zlen (header_encode h) = HEADER_LEN.
Proof. unfold header_encode. rewrite !zlen_app, !zlen_be_bytes. done. Qed.

Lemma record_header_roundtrip h : header_ok h -> header_decode (header_encode h) = Ok h.
Proof.
  intros [Hv Hf Hl Hr Hg He]. unfold header_decode. rewrite zlen_header, Z.eqb_refl. cbn [negb]. unfold header_encode.
  rewrite Hv, Hf. unfold in_range in *. unfold VERSION.
  rewrite <- (app_nil_r (be_bytes 8 (lease_id h))).
  rewrite slice_here by done. cbn [res_bind]. rewrite bool_decide_eq_true_2 by done. cbn [negb]. read_field. rewrite Z.eqb_refl. cbn [negb].
  skip_fields. rewrite be_at_here by (first [sizes; lia | destruct (kind h); by_compute]). cbn [res_bind]. rewrite wire_roundtrip. cbn [res_bind].
  do 5 read_field. destruct h. cbn in *. by subst.
Qed.

(** ** Taking records off a stream *)

(** The first record of some bytes and what follows it; nothing while it is not
    complete. *)
Definition next_record (b : bytes) : res BridgeError (option (RawRecord * bytes)) :=
  if zlen b <? HEADER_LEN then Ok None else
  let? h := header_decode (ztake HEADER_LEN b) in
  let? n := announced h in
  if zlen b <? HEADER_LEN + n then Ok None else
  Ok (Some ({| header := h; payload := ztake n (zdrop HEADER_LEN b) |}, zdrop (HEADER_LEN + n) b)).

(** The records of a stream, what is left of it, and the error that ends it. *)
Inductive scans : bytes -> list RawRecord -> bytes -> option BridgeError -> Prop :=
| scans_wait b : next_record b = Ok None -> scans b [] b None
| scans_error b e : next_record b = Err e -> scans b [] b (Some e)
| scans_take b frame rest frames left e :
    next_record b = Ok (Some (frame, rest)) -> scans rest frames left e -> scans b (frame :: frames) left e.

Lemma be_at_inv b lo hi x : be_at b lo hi = Ok x -> is_bytes b -> 0 <= x < 2 ^ (8 * (hi - lo)).
Proof.
  unfold be_at. destruct (slice b lo hi) as [s| |] eqn:E; [|done..]. cbn [res_bind]. intros [= <-] Hb. apply slice_inv in E as (Hlo&Hhi&->).
  assert (is_bytes (ztake (hi - lo) (zdrop lo b))) as Hs by auto with isbytes.
  pose proof (be_val_bound _ Hs) as Hv. assert (zlen (ztake (hi - lo) (zdrop lo b)) = hi - lo) as Hz by (rewrite zlen_ztake, zlen_zdrop; lia). by rewrite Hz in Hv.
Qed.

Lemma announced_range h n : announced h = Ok n -> 0 <= payload_len h -> n = payload_len h /\ 0 <= n <= MAX_SIGNED_BODY_BYTES + 8.
Proof.
  unfold announced. intros Ha H0. destruct (refuse (_ && _) _) as [[]| |]; [|done..]. cbn [res_bind] in Ha. destruct (refuse (_ && _) _) as [[]| |]; [|done..]. cbn [res_bind] in Ha.
  destruct (refuse _ _) as [[]| |] eqn:E; [|done..]. apply refuse_ok in E. bools. injection Ha as <-. split; [done|]. split; [done|]. unfold MAX_SIGNED_BODY_BYTES.
  assert (payload_limit (kind h) <= 4 * 1024 * 1024 + 8) by (destruct (kind h); by_compute). lia.
Qed.

Lemma header_decode_len b h : header_decode b = Ok h -> is_bytes b -> 0 <= payload_len h.
Proof.
  unfold header_decode. intros Hd Hb. destruct (negb _); [done|]. destruct (slice b 0 4); [|done..]. cbn [res_bind] in Hd. destruct (negb _); [done|].
  destruct (be_at b 4 6); [|done..]. cbn [res_bind] in Hd. destruct (negb _); [done|]. destruct (be_at b 6 8); [|done..]. cbn [res_bind] in Hd.
  destruct (from_wire _); [|done..]. cbn [res_bind] in Hd. destruct (be_at b 8 12); [|done..]. cbn [res_bind] in Hd. destruct (negb _); [done|].
  destruct (be_at b 12 16) as [n| |] eqn:En; [|done..]. cbn [res_bind] in Hd. destruct (be_at b 16 24); [|done..]. destruct (be_at b 24 32); [|done..].
  destruct (be_at b 32 40); [|done..]. injection Hd as <-. cbn [payload_len]. by apply be_at_inv in En as [? _].
Qed.

Lemma be_at_no_panic b lo hi : 0 <= lo <= hi -> hi <= zlen b -> no_panic (be_at b lo hi).
Proof. intros. unfold be_at. by rewrite slice_ok. Qed.

Lemma header_decode_no_panic b : no_panic (header_decode b).
Proof.
  unfold header_decode. destruct (Z.eqb_spec (zlen b) HEADER_LEN) as [Hl|]; cbn [negb]; [|done]. unfold HEADER_LEN in Hl.
  repeat first [apply no_panic_bind; [first [apply be_at_no_panic; lia | rewrite slice_ok by lia; done | unfold from_wire, ok_or; by destruct (zget _ _)]|intros ? _] | destruct (negb _); [done|] | done].
Qed.

Lemma refuse_no_panic bad e : no_panic (refuse bad e).
Proof. by destruct bad. Qed.

Lemma announced_no_panic h : no_panic (announced h).
Proof. unfold announced. repeat (apply no_panic_bind; [apply refuse_no_panic|intros _ _]). done. Qed.

Lemma next_record_no_panic b : no_panic (next_record b).
Proof.
  unfold next_record. destruct (_ <? _); [done|]. apply no_panic_bind; [apply header_decode_no_panic|]. intros h _.
  apply no_panic_bind; [apply announced_no_panic|]. intros n _. by destruct (_ <? _).
Qed.

(** What a record taken off says about the bytes. *)
Lemma next_record_some b frame rest :
  next_record b = Ok (Some (frame, rest)) -> is_bytes b -> exists n, 0 <= n /\ HEADER_LEN + n <= zlen b /\ rest = zdrop (HEADER_LEN + n) b.
Proof.
  unfold next_record. intros Hn Hb. destruct (_ <? _); [done|]. destruct (header_decode _) as [h| |] eqn:Eh; [|done..]. cbn [res_bind] in Hn.
  destruct (announced h) as [n| |] eqn:Ea; [|done..]. cbn [res_bind] in Hn. destruct (Z.ltb_spec (zlen b) (HEADER_LEN + n)); [done|]. injection Hn as _ <-.
  apply header_decode_len in Eh; [|auto with isbytes]. apply announced_range in Ea as [_ ?]; [|done]. exists n. split_and!; [lia|lia|done].
Qed.

(** More bytes do not change what was found. *)
Lemma next_record_app b c :
  is_bytes b -> match next_record b with
  | Ok (Some (frame, rest)) => next_record (b ++ c) = Ok (Some (frame, rest ++ c))
  | Err e => next_record (b ++ c) = Err e
  | _ => True
  end.
Proof.
  intros Hb. unfold next_record, HEADER_LEN. pose proof (zlen_nonneg c). rewrite zlen_app. destruct (Z.ltb_spec (zlen b) 40) as [|Hl]; [done|].
  rewrite (proj2 (Z.ltb_ge _ _)) by lia. rewrite ztake_app_le by done. destruct (header_decode _) as [h| |] eqn:Eh; [|done..]. cbn [res_bind].
  destruct (announced h) as [n| |] eqn:Ea; [|done..]. cbn [res_bind]. destruct (Z.ltb_spec (zlen b) (40 + n)) as [|Ht]; [done|].
  rewrite (proj2 (Z.ltb_ge _ _)) by lia. apply header_decode_len in Eh; [|auto with isbytes]. apply announced_range in Ea as [_ ?]; [|done].
  rewrite zdrop_app_le by lia. rewrite ztake_app_le by (rewrite zlen_zdrop; lia). by rewrite zdrop_app_le by lia.
Qed.

(** A stream is scanned piece by piece as it is scanned at once. *)
Lemma scans_app b frames left : scans b frames left None -> is_bytes b -> forall c frames' left' e,
  scans (left ++ c) frames' left' e -> scans (b ++ c) (frames ++ frames') left' e.
Proof.
  intros Hs. remember None as e0 eqn:E0. induction Hs as [b|b e|b frame rest frames left e Hn Hs IH]; intros Hb c frames' left' e' Hc; [done|done|].
  pose proof (next_record_app b c Hb) as Ha. rewrite Hn in Ha. cbn [app]. eapply scans_take; [exact Ha|]. apply IH; [done| |done].
  apply next_record_some in Hn as (n&_&_&->); [|done]. auto with isbytes.
Qed.

Lemma scans_error_app b frames left e : scans b frames left (Some e) -> is_bytes b -> forall c, scans (b ++ c) frames (left ++ c) (Some e).
Proof.
  intros Hs. remember (Some e) as e0 eqn:E0. induction Hs as [b|b e' Hn|b frame rest frames left e' Hn Hs IH]; intros Hb c; [done|..].
  - injection E0 as ->. apply scans_error. pose proof (next_record_app b c Hb) as Ha. by rewrite Hn in Ha.
  - pose proof (next_record_app b c Hb) as Ha. rewrite Hn in Ha. eapply scans_take; [exact Ha|]. apply IH; [done|].
    apply next_record_some in Hn as (n&_&_&->); [|done]. auto with isbytes.
Qed.

(** ** The assembler *)

Definition pending (a : FrameAssembler) : bytes := zdrop (consumed a) (buffer a).

Record assembler_ok (a : FrameAssembler) : Prop := {
  ao_range : 0 <= consumed a <= zlen (buffer a);
  ao_compact : consumed a = 0 \/ (consumed a < 4096 /\ consumed a * 2 < zlen (buffer a));
  ao_bytes : is_bytes (buffer a);
}.

Lemma zlen_pending a : assembler_ok a -> zlen (pending a) = zlen (buffer a) - consumed a.
Proof. intros [Hr _ _]. unfold pending. rewrite zlen_zdrop. lia. Qed.

Lemma pending_bytes a : assembler_ok a -> is_bytes (pending a).
Proof. intros [_ _ Hb]. unfold pending. auto with isbytes. Qed.

Lemma compact_spec a : 0 <= consumed a <= zlen (buffer a) -> is_bytes (buffer a) -> assembler_ok (compact a) /\ pending (compact a) = pending a.
Proof.
  intros Hr Hb. unfold compact. destruct (Z.eqb_spec (consumed a) 0) as [E0|]; [split; [split; auto|done]|].
  destruct (Z.eqb_spec (consumed a) (zlen (buffer a))) as [El|].
  { split; [split; cbn; [change (zlen []) with 0; lia|by left|by apply Forall_nil_2]|]. unfold pending. cbn [consumed buffer]. rewrite (zdrop_all (consumed a)) by lia. done. }
  destruct (_ || _) eqn:Ec.
  - split; [|unfold pending; cbn [consumed buffer]; by rewrite zdrop_0]. split; cbn [consumed buffer]; [pose proof (zlen_nonneg (zdrop (consumed a) (buffer a))); lia|by left|auto with isbytes].
  - bools. split; [|done]. split; [done|right; lia|done].
Qed.

(** One turn is one step on the bytes that are pending. *)
Lemma try_take_next a : assembler_ok a ->
  match next_record (pending a) with
  | Ok None => try_take a = Ok None
  | Ok (Some (frame, rest)) => exists a', try_take a = Ok (Some (frame, a')) /\ assembler_ok a' /\ pending a' = rest
  | Err e => try_take a = Err e
  | Panic => True
  end.
Proof.
  intros Hok. pose proof (zlen_pending _ Hok) as Hz. pose proof (pending_bytes _ Hok) as Hpb. destruct Hok as [Hr Hc Hb]. unfold try_take, next_record.
  rewrite slice_ok by lia. cbn [res_bind]. fold (pending a). rewrite (ztake_all (zlen (buffer a) - consumed a)) by lia.
  destruct (Z.ltb_spec (zlen (pending a)) HEADER_LEN) as [|Hh]; [done|]. unfold HEADER_LEN in *. rewrite slice_ok by lia. rewrite zdrop_0, Z.sub_0_r. cbn [res_bind].
  destruct (header_decode _) as [h| |] eqn:Eh; [|done..]. cbn [res_bind]. destruct (announced h) as [n| |] eqn:Ea; [|done..]. cbn [res_bind].
  apply header_decode_len in Eh; [|auto with isbytes]. apply announced_range in Ea as [_ Hn]; [|done].
  destruct (Z.ltb_spec (zlen (pending a)) (40 + n)) as [|Ht]; [done|]. rewrite slice_ok by lia. cbn [res_bind]. rewrite Z.add_simpl_l.
  destruct (compact_spec (a <| consumed := consumed a + (40 + n) |>)) as [Hok' Hp']; [cbn; lia|done|].
  eexists. split; [done|]. split; [done|]. rewrite Hp'. unfold pending. cbn [set_field consumed buffer]. by rewrite zdrop_zdrop by lia.
Qed.

Definition outcome (frames : list RawRecord) (e : option BridgeError) : res BridgeError (list RawRecord) :=
  match e with None => Ok frames | Some e => Err e end.

Lemma take_all_scans turns : forall a, assembler_ok a -> zlen (pending a) < Z.of_nat turns ->
  exists a' frames e, take_all turns a = Some (a', outcome frames e) /\ assembler_ok a' /\ scans (pending a) frames (pending a') e.
Proof.
  induction turns as [|turns IH]; intros a Hok Ht; [pose proof (zlen_nonneg (pending a)); lia|]. cbn [take_all]. pose proof (try_take_next a Hok) as Hn.
  pose proof (next_record_no_panic (pending a)) as Hnp. destruct (next_record (pending a)) as [[[frame rest]|]|e|] eqn:En; [..|done].
  - destruct Hn as (a1&E1&Hok1&Hp1). rewrite E1. pose proof (next_record_some _ _ _ En (pending_bytes _ Hok)) as (n&H0&Hl&Hrest). unfold HEADER_LEN in *.
    destruct (IH a1 Hok1) as (a'&frames&e&E'&Hok'&Hs'); [rewrite Hp1, Hrest, zlen_zdrop; lia|]. rewrite E'. cbn [fmap option_fmap option_map].
    exists a', (frame :: frames), e. split; [by destruct e|]. split; [done|]. rewrite Hp1 in Hs'. by eapply scans_take.
  - rewrite Hn. exists a, [], None. split; [done|]. split; [done|]. by apply scans_wait.
  - rewrite Hn. exists a, [], (Some e). split; [done|]. split; [done|]. by apply scans_error.
Qed.

Lemma push_scans a b : assembler_ok a -> is_bytes b ->
  exists a' frames e, push a b = Some (a', outcome frames e) /\ assembler_ok a' /\ scans (pending a ++ b) frames (pending a') e.
Proof.
  intros Hok Hb. unfold push. set (a1 := a <| buffer := buffer a ++ b |>). pose proof (ao_range _ Hok) as Hr.
  assert (pending a1 = pending a ++ b) as Hp by (unfold pending, a1; cbn [set_field consumed buffer]; by rewrite zdrop_app_le by lia).
  assert (assembler_ok a1) as Hok1.
  { destruct Hok as [_ Hc Hab]. pose proof (zlen_nonneg b). split; unfold a1; cbn [set_field consumed buffer]; rewrite ?zlen_app; [lia|lia|]. by apply Forall_app. }
  rewrite <- Hp. apply take_all_scans; [done|]. rewrite (zlen_pending _ Hok1). pose proof (ao_range _ Hok1). unfold zlen in *. lia.
Qed.

(** The calls of [push] for the pieces of a stream, up to the first error. *)
Fixpoint feed (a : FrameAssembler) (chunks : list bytes) : option (FrameAssembler * res BridgeError (list RawRecord)) :=
  match chunks with
  | [] => Some (a, Ok [])
  | c :: chunks =>
      match push a c with
      | Some (a, Ok frames) => (fun '(a, r) => (a, let? more := r in Ok (frames ++ more))) <$> feed a chunks
      | other => other
      end
  end.

Lemma scans_left b frames left : scans b frames left None -> next_record left = Ok None.
Proof. intros Hs. remember None as e eqn:E. induction Hs; naive_solver. Qed.

Lemma feed_scans chunks : forall a, assembler_ok a -> Forall is_bytes chunks -> next_record (pending a) = Ok None ->
  exists a' frames left e, feed a chunks = Some (a', outcome frames e) /\ assembler_ok a' /\ scans (pending a ++ concat chunks) frames left e /\
    (e = None -> left = pending a').
Proof.
  induction chunks as [|c chunks IH]; intros a Hok Hc Hw; cbn [feed concat].
  { exists a, [], (pending a), None. rewrite app_nil_r. split_and!; [done..|by apply scans_wait|done]. }
  apply Forall_cons in Hc as [Hc Hcs]. destruct (push_scans a c Hok Hc) as (a1&frames1&e1&E1&Hok1&Hs1). rewrite E1.
  assert (is_bytes (pending a ++ c)) as Hb by (apply Forall_app; split; [by apply pending_bytes|done]). rewrite app_assoc.
  destruct e1 as [e1|]; cbn [outcome].
  - exists a1, frames1, (pending a1 ++ concat chunks), (Some e1). split_and!; [done|done| |done]. by apply scans_error_app.
  - destruct (IH a1 Hok1 Hcs (scans_left _ _ _ Hs1)) as (a'&frames&left&e&E'&Hok'&Hs'&Hl). rewrite E'. cbn [fmap option_fmap option_map].
    exists a', (frames1 ++ frames), left, e. split_and!; [by destruct e|done| |done]. by eapply scans_app.
Qed.

Lemma waiting_short b : next_record b = Ok None -> is_bytes b -> zlen b < HEADER_LEN + MAX_SIGNED_BODY_BYTES + 8.
Proof.
  unfold next_record. intros Hw Hb. destruct (Z.ltb_spec (zlen b) HEADER_LEN); [unfold HEADER_LEN, MAX_SIGNED_BODY_BYTES in *; lia|].
  destruct (header_decode _) as [h| |] eqn:Eh; [|done..]. cbn [res_bind] in Hw. destruct (announced h) as [n| |] eqn:Ea; [|done..]. cbn [res_bind] in Hw.
  apply header_decode_len in Eh; [|auto with isbytes]. apply announced_range in Ea as [_ ?]; [|done]. destruct (Z.ltb_spec (zlen b) (HEADER_LEN + n)); [lia|done].
Qed.

Lemma empty_ok : assembler_ok empty_assembler.
Proof. split; cbn; [change (zlen []) with 0; lia|by left|by apply Forall_nil_2]. Qed.

(** C12. However a stream is cut into pieces, the assembler returns from every call
    and gives the records of the whole stream, up to the first record it must
    refuse; what is left over is the beginning of a record, and the buffer never
    holds more than one record of the largest size and 4096 bytes besides. *)
Theorem assembler_refines chunks : Forall is_bytes chunks ->
  exists a frames left e, feed empty_assembler chunks = Some (a, outcome frames e) /\ scans (concat chunks) frames left e /\
    (e = None -> left = pending a /\ zlen (buffer a) < 4096 + HEADER_LEN + MAX_SIGNED_BODY_BYTES + 8).
Proof.
  intros Hc. destruct (feed_scans chunks empty_assembler empty_ok Hc) as (a&frames&left&e&E&Hok&Hs&Hl); [done|].
  change (pending empty_assembler ++ concat chunks) with (concat chunks) in Hs. exists a, frames, left, e. split_and!; [done|done|].
  intros ->. specialize (Hl eq_refl). split; [done|]. apply scans_left in Hs. rewrite Hl in Hs. apply waiting_short in Hs; [|by apply pending_bytes].
  rewrite zlen_pending in Hs by done. destruct (ao_compact _ Hok); lia.
Qed.

(** ** Encoded records *)

Definition raw_record (r : RecordHeader * bytes) : RawRecord := {| header := (fst r) <| payload_len := zlen (snd r) |>; payload := snd r |}.

(** A record as the types have it, and its encoding. *)
Record encodes (r : RecordHeader * bytes) (enc : bytes) : Prop := {
  ec_request : u64 (request_id (fst r));
  ec_generation : u64 (generation (fst r));
  ec_lease : u64 (lease_id (fst r));
  ec_payload : is_bytes (snd r);
  ec_encoded : encode_record (fst r) (snd r) = Ok enc;
}.

Lemma validate_header_fields h : validate_record_header h = Ok tt -> version h = VERSION /\ flags h = 0.
Proof.
  unfold validate_record_header. destruct (refuse _ _) as [[]| |] eqn:E1; [|done..]. cbn [res_bind]. destruct (refuse (negb (flags h =? 0)) _) as [[]| |] eqn:E2; [|done..].
  intros _. apply refuse_ok in E1, E2. by bools.
Qed.

Lemma encodes_next r enc tail : encodes r enc -> next_record (enc ++ tail) = Ok (Some (raw_record r, tail)) /\ is_bytes enc.
Proof.
  destruct r as [h p]. intros [Hr Hg Hl Hp He]. cbn [fst snd] in *. unfold encode_record in He.
  destruct (validate_record_header h) as [[]| |] eqn:Ev; [|done..]. cbn [res_bind] in He. apply validate_header_fields in Ev as [Hver Hflags].
  destruct (refuse _ _) as [[]| |] eqn:E1; [|done..]. cbn [res_bind] in He. apply refuse_ok in E1. destruct (refuse (payload_limit _ <? _) _) as [[]| |] eqn:E2; [|done..].
  cbn [res_bind] in He. apply refuse_ok in E2. destruct (validate_record_payload (kind h) p) as [[]| |] eqn:E3; [|done..]. cbn [res_bind] in He. bools.
  set (h' := h <| payload_len := zlen p |>) in He. assert (enc = header_encode h' ++ p) as -> by congruence. clear He. pose proof (zlen_nonneg p).
  assert (header_ok h') as Hh by (split; try done; unfold h'; cbn; unfold in_range; lia). pose proof (record_header_roundtrip _ Hh) as Hd.
  assert (announced h' = Ok (zlen p)) as Ha.
  { unfold announced. change (kind h') with (kind h). change (payload_len h') with (zlen p).
    assert (refuse (bool_decide (kind h = ApNonce) && negb (zlen p =? 32)) InvalidData = Ok tt) as ->.
    { apply refuse_ok. case_bool_decide as Ek; [|done]. rewrite Ek in E3. cbn [validate_record_payload] in E3. apply refuse_ok in E3. done. }
    assert (refuse (bool_decide (kind h = SepNonce) && negb (zlen p =? 20)) InvalidData = Ok tt) as ->.
    { apply refuse_ok. case_bool_decide as Ek; [|done]. rewrite Ek in E3. cbn [validate_record_payload] in E3. apply refuse_ok in E3. done. }
    cbn [res_bind]. assert (refuse (payload_limit (kind h) <? zlen p) InvalidData = Ok tt) as ->; [|done]. apply refuse_ok, Z.ltb_ge. lia. }
  pose proof (zlen_header h') as Hz. unfold HEADER_LEN in *. split_and!.
  - unfold next_record, HEADER_LEN. rewrite !zlen_app, Hz. pose proof (zlen_nonneg tail). rewrite (proj2 (Z.ltb_ge _ _)) by lia.
    rewrite <- app_assoc, ztake_app_le, ztake_all by lia. rewrite Hd. cbn [res_bind]. rewrite Ha. cbn [res_bind]. rewrite (proj2 (Z.ltb_ge _ _)) by lia.
    assert (zdrop 40 (header_encode h' ++ p ++ tail) = p ++ tail) as E40 by (rewrite zdrop_app_ge by lia; by rewrite Hz, Z.sub_diag, zdrop_0).
    assert (zdrop (40 + zlen p) (header_encode h' ++ p ++ tail) = tail) as Et.
    { rewrite <- zdrop_zdrop by lia. rewrite E40, zdrop_app_ge, Z.sub_diag, zdrop_0 by lia. done. }
    rewrite E40, Et, ztake_app_le, ztake_all by lia. done.
  - apply Forall_app. split; [|done]. unfold header_encode. repeat (apply Forall_app; split; [auto with isbytes|]); [|auto with isbytes]. repeat constructor; by_compute.
Qed.

Lemma encodes_scans records encs : Forall2 encodes records encs -> scans (concat encs) (map raw_record records) [] None /\ is_bytes (concat encs).
Proof.
  induction 1 as [|r enc records encs Hr _ [IH Hb]]; [split; [by apply scans_wait|apply Forall_nil_2]|]. destruct (encodes_next r enc (concat encs) Hr) as [Hn He].
  split; [by eapply scans_take|by apply Forall_app].
Qed.

Lemma scans_unique b frames left e : scans b frames left e -> forall frames' left' e', scans b frames' left' e' -> frames' = frames /\ left' = left /\ e' = e.
Proof.
  induction 1 as [b Hn|b e Hn|b frame rest frames left e Hn Hs IH]; intros frames' left' e' Hs'; inversion Hs'; simplify_eq; try congruence.
  - done.
  - split_and!; congruence.
  - match goal with H : next_record b = Ok (Some (?f, ?r)) |- _ => rewrite Hn in H; injection H as <- <- end.
    match goal with H : scans rest _ _ _ |- _ => destruct (IH _ _ _ H) as (->&->&->) end. done.
Qed.

(** Records written one after the other are read back in order, with nothing
    left, however the stream is cut into pieces. *)
Theorem records_roundtrip records encs chunks :
  Forall2 encodes records encs -> concat chunks = concat encs ->
  exists a, feed empty_assembler chunks = Some (a, Ok (map raw_record records)) /\ pending a = [].
Proof.
  intros Hr Hc. destruct (encodes_scans _ _ Hr) as [Hs Hb]. rewrite <- Hc in Hs, Hb.
  assert (Forall is_bytes chunks) as Hf.
  { clear -Hb. induction chunks as [|c chunks IH]; [apply Forall_nil_2|]. apply Forall_app in Hb as [? ?]. constructor; auto. }
  destruct (feed_scans chunks empty_assembler empty_ok Hf) as (a&frames&left&e&E&_&Hs'&Hl); [done|].
  change (pending empty_assembler ++ concat chunks) with (concat chunks) in Hs'. destruct (scans_unique _ _ _ _ Hs _ _ _ Hs') as (->&->&->).
  exists a. split; [done|]. symmetry. by apply Hl.
Qed.

(** ** An example stream *)

Definition ping : RecordHeader * bytes :=
  ({| version := 1; kind := Ping; flags := 0; payload_len := 0; request_id := 7; generation := 0; lease_id := 0 |}, encode_ping_nonce 42).
Definition encoding (r : RecordHeader * bytes) : bytes := match encode_record (fst r) (snd r) with Ok b => b | _ => [] end.
(** A stream whose second record has a wrong magic number. *)
Lemma assembler_refines_witness :
  exists a frames left e, feed empty_assembler [encoding ping; zeros 50] = Some (a, outcome frames e) /\ scans (concat [encoding ping; zeros 50]) frames left e /\
    (e = None -> left = pending a /\ zlen (buffer a) < 4096 + HEADER_LEN + MAX_SIGNED_BODY_BYTES + 8).
Proof. apply (assembler_refines [encoding ping; zeros 50]). vm_compute. repeat constructor; discriminate. Defined.
