(* ===== verification/BridgeManb.v ===== *)
(** * The Restore Bridge protocol: the body of a signing request

    The check of a MANB body (bridge_protocol.rs, [validate_signed_manb_body])
    accepts exactly what the DER writer (ramrod/der.rs, in [Der]) makes of a
    manifest. *)

From S2P Require Import Prelude Windows Sha Der Bridge BridgeProps.
From stdpp Require Import base tactics numbers list option strings.
From Stdlib Require Import ZArith Lia.

Open Scope Z_scope.

(** ** Lengths *)

Lemma position_zeros m x r : x <> 0 -> position nonzero (replicate m 0 ++ x :: r) = Some (Z.of_nat m).
Proof.
  intros Hx. induction m as [|m IH]; cbn [replicate app position].
  - unfold nonzero. by rewrite (proj2 (Z.eqb_neq x 0)).
  - change (nonzero 0) with false. rewrite IH. cbn. f_equal. lia.
Qed.

Lemma be_val_zeros m l : be_val (replicate m 0 ++ l) = be_val l.
Proof. induction m as [|m IH]; [done|]. cbn [replicate app]. by rewrite be_val_cons, IH. Qed.

(** The long form: digits without a leading zero. *)
Lemma length_bytes_long x r :
  is_bytes (x :: r) -> x <> 0 -> zlen (x :: r) <= 8 -> 0x80 <= be_val (x :: r) ->
  length_bytes (be_val (x :: r)) = 0x80 + zlen (x :: r) :: x :: r.
Proof.
  intros Hb Hx Hl Hv. unfold length_bytes. rewrite (proj2 (Z.ltb_ge _ _)) by done. set (d := x :: r) in *.
  set (m := (8 - length d)%nat).
  assert (be_bytes 8 (be_val d) = replicate m 0 ++ d) as ->.
  { rewrite <- (be_val_zeros m d). apply be_bytes_be_val.
    - apply Forall_app. split; [apply Forall_replicate; by_compute|done].
    - rewrite length_app, length_replicate. unfold m, zlen in *. lia. }
  assert (position nonzero (replicate m 0 ++ d) = Some (Z.of_nat m)) as -> by (by apply position_zeros). cbn [from_option]. unfold id.
  assert (zdrop (Z.of_nat m) (replicate m 0 ++ d) = d) as -> by (unfold zdrop; rewrite Nat2Z.id, drop_app_length'; [done|by rewrite length_replicate]).
  assert (0 < zlen d) by (unfold d; rewrite zlen_cons; pose proof (zlen_nonneg r); lia).
  rewrite wrap_small by (unfold in_range; lia). rewrite Z.lor_comm, lor_128 by lia. cbn [app]. f_equal. lia.
Qed.

(** Every length past the short form has such digits. *)
Lemma long_digits n : 0x80 <= n < 2 ^ 32 -> exists x r, is_bytes (x :: r) /\ x <> 0 /\ zlen (x :: r) <= 4 /\ be_val (x :: r) = n.
Proof.
  intros Hn. assert (be_val (be_bytes 4 n) = n) as Hv by (rewrite be_val_be_bytes; apply Z.mod_small; lia).
  destruct (position nonzero (be_bytes 4 n)) as [i|] eqn:P; last first.
  { apply position_none, nonzero_false_val in P. lia. }
  pose proof (be_val_trim _ _ P) as Ht. apply position_some in P as (Hi&_&x&r&Hd&Hx). exists x, r. rewrite <- Hd.
  rewrite zlen_be_bytes in Hi.
  split_and!; [auto with isbytes| |rewrite zlen_zdrop, zlen_be_bytes; lia|lia]. unfold nonzero in Hx. by bools.
Qed.

Lemma lor_digits l : is_bytes l -> forall acc, 0 <= acc ->
  foldl (fun length byte => Z.lor (Z.shiftl length 8) byte) acc l = acc * 256 ^ Z.of_nat (length l) + be_val l.
Proof.
  induction 1 as [|b l Hb Hl IH]; intros acc Ha; cbn [foldl length]; [change (be_val []) with 0; change (256 ^ Z.of_nat 0) with 1; lia|].
  rewrite lor_shiftl by (unfold in_range in *; lia). change (2 ^ 8) with 256. rewrite IH by (unfold in_range in *; lia).
  rewrite be_val_cons, Nat2Z.inj_succ, Z.pow_succ_r by lia. lia.
Qed.

Lemma be_val_lead x r : is_bytes (x :: r) -> x <> 0 -> 256 ^ zlen r <= be_val (x :: r).
Proof.
  intros Hb Hx. inversion_clear Hb as [|? ? H1 H2]. rewrite be_val_cons. pose proof (be_val_bound _ H2) as [? _]. unfold in_range, zlen in *.
  pose proof (Z.pow_pos_nonneg 256 (Z.of_nat (length r)) ltac:(lia) ltac:(lia)). nia.
Qed.

(** ** Elements *)

Lemma first_bit first : 0 <= first < 2 ^ 8 ->
  (first < 0x80 /\ Z.land first 0x80 = 0) \/ (0x80 <= first /\ Z.land first 0x80 = 0x80 /\ Z.land first 0x7f = first - 0x80).
Proof.
  intros Hf. assert (forallb (fun n => if n <? 0x80 then Z.land n 0x80 =? 0 else (Z.land n 0x80 =? 0x80) && (Z.land n 0x7f =? n - 0x80)) (seqZ 0 256) = true) as H by by_compute.
  rewrite forallb_forall in H. specialize (H first). rewrite <- list_elem_of_In, elem_of_seqZ in H. specialize (H ltac:(lia)).
  destruct (Z.ltb_spec first 0x80); bools; lia.
Qed.

(** The long form, read and written. *)
Lemma decode_long x r rest :
  is_bytes (x :: r) -> x <> 0 -> zlen (x :: r) <= 4 -> 0x80 <= be_val (x :: r) ->
  decode_der_length (0x80 + zlen (x :: r) :: (x :: r) ++ rest) = Ok (be_val (x :: r), rest).
Proof.
  intros Hb Hx Hl Hv. assert (0 < zlen (x :: r)) as H0 by (rewrite zlen_cons; pose proof (zlen_nonneg r); lia). unfold decode_der_length.
  rewrite (proj2 (Z.eqb_neq _ _)) by lia. destruct (first_bit (0x80 + zlen (x :: r))) as [[? _]|(_&->&->)]; [lia|lia|].
  rewrite Z.add_simpl_l. change (0x80 =? 0) with false. cbn match. rewrite (proj2 (Z.eqb_neq _ _)), (proj2 (Z.ltb_ge _ _)) by lia. cbn [orb].
  rewrite get_range_here by done. cbn [ok_or res_bind]. change (index (E := BridgeError) (x :: r) 0) with (Ok (E := BridgeError) x). cbn [res_bind].
  rewrite (proj2 (Z.eqb_neq _ _)) by done. replace (_ && _) with false.
  - rewrite lor_digits by (done || lia). rewrite Z.mul_0_l, Z.add_0_l, zdrop_app_ge, Z.sub_diag, zdrop_0 by lia. done.
  - symmetry. apply andb_false_iff. destruct (Z.eqb_spec (zlen (x :: r)) 1) as [E1|]; [right|by left]. apply Z.ltb_ge.
    rewrite zlen_cons in E1. destruct r; [|rewrite zlen_cons in E1; pose proof (zlen_nonneg r); lia]. rewrite be_val_cons in Hv. change (be_val []) with 0 in Hv. cbn [length] in Hv. lia.
Qed.

Lemma decode_long_inv first b n rest :
  is_bytes (first :: b) -> 0x80 <= first -> decode_der_length (first :: b) = Ok (n, rest) ->
  exists x r, is_bytes (x :: r) /\ x <> 0 /\ zlen (x :: r) <= 4 /\ 0x80 <= be_val (x :: r) /\ n = be_val (x :: r) /\
    first = 0x80 + zlen (x :: r) /\ b = (x :: r) ++ rest.
Proof.
  intros Hb Hf. inversion_clear Hb as [|? ? H8 Hb']. unfold decode_der_length. destruct (Z.eqb_spec first 0x80) as [|Hne]; [done|].
  destruct (first_bit first H8) as [[? _]|(_&->&->)]; [lia|]. change (0x80 =? 0) with false. cbn match. destruct (_ || _) eqn:Ec; [done|]. bools.
  destruct (get_range b 0 (first - 0x80)) as [d|] eqn:Eg; [|done]. cbn [ok_or res_bind]. apply get_range_some in Eg as [[_ Hl] ->].
  rewrite zdrop_0, Z.sub_0_r. pose proof (ztake_zdrop (first - 0x80) b) as Hcut.
  assert (is_bytes (ztake (first - 0x80) b)) as Hd by auto with isbytes.
  assert (zlen (ztake (first - 0x80) b) = first - 0x80) as Hz by (rewrite zlen_ztake; lia).
  destruct (ztake (first - 0x80) b) as [|x r]; [rewrite zlen_nil in Hz; lia|].
  change (index (E := BridgeError) (x :: r) 0) with (Ok (E := BridgeError) x). cbn [res_bind]. destruct (Z.eqb_spec x 0) as [|Hx]; [done|].
  destruct (_ && _) eqn:Es; [done|]. rewrite lor_digits by (done || lia). rewrite Z.mul_0_l, Z.add_0_l. intros Heq.
  assert (n = be_val (x :: r) /\ rest = zdrop (first - 0x80) b) as [-> ->] by (split; congruence). exists x, r.
  split_and!; [done|done|lia| |done|lia|by symmetry]. pose proof (be_val_lead _ _ Hd Hx) as Hlead. apply andb_false_iff in Es as [Es|Es]; bools.
  - assert (256 ^ 1 <= 256 ^ zlen r) by (apply Z.pow_le_mono_r; [lia|]; rewrite zlen_cons in Hz; lia). lia.
  - destruct r as [|y r]; [rewrite be_val_cons; change (be_val []) with 0; cbn [length]; lia|].
    assert (256 ^ 1 <= 256 ^ zlen (y :: r)) by (apply Z.pow_le_mono_r; [lia|]; rewrite zlen_cons; pose proof (zlen_nonneg r); lia). lia.
Qed.

(** A length is read as [Der] writes it, and nothing else is. *)
Lemma decode_der_length_ok b n rest : is_bytes b ->
  decode_der_length b = Ok (n, rest) <-> b = length_bytes n ++ rest /\ 0 <= n < 2 ^ 32.
Proof.
  intros Hb. split.
  - destruct b as [|first b]; [done|]. pose proof (Forall_inv Hb) as Hf. unfold in_range in Hf. destruct (Z.ltb_spec first 0x80) as [Hlt|Hge].
    + unfold decode_der_length. rewrite (proj2 (Z.eqb_neq _ _)) by lia. destruct (first_bit first Hf) as [[_ ->]|[? _]]; [|lia].
      intros [= <- <-]. split; [|lia]. unfold length_bytes. rewrite (proj2 (Z.ltb_lt _ _)) by done. by rewrite wrap_small by (unfold in_range; lia).
    + intros Hd. apply decode_long_inv in Hd as (x&r&Hb'&Hx&Hl&Hv&->&->&->); [|done|done]. rewrite length_bytes_long by (done || lia). split; [done|].
      pose proof (be_val_bound _ Hb') as [? Hup]. assert (2 ^ (8 * zlen (x :: r)) <= 2 ^ 32) by (apply Z.pow_le_mono_r; lia). lia.
  - intros [-> Hn]. destruct (Z.ltb_spec n 0x80) as [Hlt|Hge].
    + unfold length_bytes. rewrite (proj2 (Z.ltb_lt _ _)), wrap_small by (unfold in_range; lia). cbn [app decode_der_length].
      rewrite (proj2 (Z.eqb_neq _ _)) by lia. destruct (first_bit n) as [[_ ->]|[? _]]; [lia|done|lia].
    + destruct (long_digits n) as (x&r&Hb'&Hx&Hl&<-); [lia|]. rewrite length_bytes_long by (done || lia). by apply decode_long.
Qed.

Lemma take_body_ok b body rest : is_bytes b ->
  take_body b = Ok (body, rest) <-> b = length_bytes (zlen body) ++ body ++ rest /\ zlen body < 2 ^ 32.
Proof.
  intros Hb. unfold take_body. split.
  - destruct (decode_der_length b) as [[n r]| |] eqn:Ed; [|done..]. cbn [res_bind]. apply decode_der_length_ok in Ed as [-> Hn]; [|done].
    destruct (get_range r 0 n) as [s|] eqn:Eg; [|done]. cbn [ok_or res_bind]. apply get_range_some in Eg as [[_ Hl] ->]. rewrite zdrop_0, Z.sub_0_r.
    intros [= <- <-]. rewrite ztake_zdrop, zlen_ztake. rewrite !Z.min_l, Z.max_r by lia. split; [done|lia].
  - intros [-> Hl]. pose proof (zlen_nonneg body). rewrite (proj2 (decode_der_length_ok _ (zlen body) (body ++ rest) Hb)) by (split; [done|lia]).
    cbn [res_bind]. rewrite get_range_here by done. cbn [ok_or res_bind]. by rewrite zdrop_app_ge, Z.sub_diag, zdrop_0 by lia.
Qed.

Lemma take_der_ok b tag body rest : is_bytes b ->
  take_der_element b tag = Ok (body, rest) <-> b = tlv [tag] body ++ rest /\ zlen body < 2 ^ 32.
Proof.
  intros Hb. unfold take_der_element, tlv. destruct b as [|t b]; [split; [done|intros [? _]; done]|]. inversion_clear Hb as [|? ? _ Hb'].
  destruct (Z.eqb_spec t tag) as [->|Hne]; cbn [negb].
  - rewrite take_body_ok by done. rewrite <- !app_assoc. cbn [app]. naive_solver.
  - split; [done|]. intros [[=] _]. done.
Qed.

Lemma take_manb_ok b body rest : is_bytes b ->
  take_private_manb_element b = Ok (body, rest) <-> b = tlv MANB_IDENTIFIER_BYTES body ++ rest /\ zlen body < 2 ^ 32.
Proof.
  intros Hb. unfold take_private_manb_element, tlv. set (id := MANB_IDENTIFIER_BYTES). clearbody id. split.
  - case_bool_decide as Eg; [|done]. apply get_range_some in Eg as [_ Eg]. rewrite zdrop_0, Z.sub_0_r in Eg. intros Ht.
    apply take_body_ok in Ht as [Ht ?]; [|auto with isbytes]. split; [|done]. rewrite <- (ztake_zdrop (zlen id) b), <- Eg, Ht. by rewrite <- !app_assoc.
  - intros [-> Hl]. rewrite <- !app_assoc in *. rewrite get_range_here, bool_decide_eq_true_2 by done. rewrite zdrop_app_ge, Z.sub_diag, zdrop_0 by lia.
    apply take_body_ok; [by apply Forall_app in Hb as [_ ?]|done].
Qed.

(** ** The body *)

Definition manb_inner (inner : bytes) : bytes := ia5_string (bytes_of "MANB") ++ set inner.
Definition manb_body (inner : bytes) : bytes := set (tlv MANB_IDENTIFIER_BYTES (sequence (manb_inner inner))).

Lemma empty_iff {A} (l : list A) : is_empty l = true <-> l = [].
Proof. unfold is_empty. rewrite Z.eqb_eq. apply zlen_zero. Qed.

Lemma refuse_more {A} (l : list A) e : refuse (negb (is_empty l)) e = Ok tt <-> l = [].
Proof. rewrite refuse_ok, negb_false_iff. apply empty_iff. Qed.

Lemma zlen_tlv_le id body : zlen body <= zlen (tlv id body).
Proof. unfold tlv. rewrite !zlen_app. pose proof (zlen_nonneg id). pose proof (zlen_nonneg (length_bytes (zlen body))). lia. Qed.

(** The fields of an element of bytes are bytes. *)
Lemma tlv_bytes id body : is_bytes (tlv id body) -> is_bytes body.
Proof. unfold tlv. rewrite !Forall_app. tauto. Qed.

(** The next call of a chain of calls that succeeds. *)
Ltac next_check E := match goal with H : res_bind ?x _ = Ok _ |- _ => destruct x as [[]| |] eqn:E; [|discriminate H..]; cbn [res_bind] in H end.
Ltac next_pair E a b := match goal with H : res_bind ?x _ = Ok _ |- _ => destruct x as [[a b]| |] eqn:E; [|discriminate H..]; cbn [res_bind] in H end.

Lemma manb_accepts body : is_bytes body -> validate_signed_manb_body body = Ok tt ->
  exists inner, inner <> [] /\ body = manb_body inner /\ zlen body <= MAX_SIGNED_BODY_BYTES.
Proof.
  intros Hb Hv. unfold validate_signed_manb_body in Hv. next_check E0. apply refuse_ok, orb_false_iff in E0 as [_ E0]. apply Z.ltb_ge in E0.
  next_pair E1 s r1. next_check C1. apply refuse_more in C1 as ->. apply take_der_ok in E1 as [-> _]; [|done]. rewrite app_nil_r in *.
  apply tlv_bytes in Hb. next_pair E2 s2 r2. next_check C2. apply refuse_more in C2 as ->. apply take_manb_ok in E2 as [-> _]; [|done]. rewrite app_nil_r in *.
  apply tlv_bytes in Hb. next_pair E3 s3 r3. next_check C3. apply refuse_more in C3 as ->. apply take_der_ok in E3 as [-> _]; [|done]. rewrite app_nil_r in *.
  apply tlv_bytes in Hb. next_pair E4 s4 r4. next_check C4. apply refuse_ok, negb_false_iff, bool_decide_eq_true in C4. apply take_der_ok in E4 as [-> _]; [|done].
  apply Forall_app in Hb as [_ Hb]. next_pair E5 s5 r5. next_check C5. apply refuse_ok in C5. apply refuse_more in Hv as ->.
  apply take_der_ok in E5 as [-> _]; [|done]. rewrite app_nil_r in *. subst s4. exists s5. split_and!; [|done|done].
  intros ->. discriminate C5.
Qed.

Lemma manb_accepted inner : is_bytes (manb_body inner) -> inner <> [] -> zlen (manb_body inner) <= MAX_SIGNED_BODY_BYTES -> validate_signed_manb_body (manb_body inner) = Ok tt.
Proof.
  intros Hb Hi Hl. unfold validate_signed_manb_body. unfold MAX_SIGNED_BODY_BYTES in *.
  rewrite (proj2 (Z.ltb_ge _ _)) by done. replace (is_empty (manb_body inner)) with false by done. cbn [orb refuse res_bind].
  unfold manb_body, set in *. pose proof (zlen_tlv_le [IDENTIFIER_SET] (tlv MANB_IDENTIFIER_BYTES (sequence (manb_inner inner)))) as L1.
  rewrite (proj2 (take_der_ok _ _ _ [] Hb)) by (rewrite app_nil_r; split; [done|lia]). cbn [res_bind is_empty negb refuse]. apply tlv_bytes in Hb.
  pose proof (zlen_tlv_le MANB_IDENTIFIER_BYTES (sequence (manb_inner inner))) as L2. unfold sequence in *.
  cbn match. change (refuse (negb (is_empty (@nil Z))) InvalidData) with (Ok (E := BridgeError) tt). cbn [res_bind].
  rewrite (proj2 (take_manb_ok _ _ [] Hb)) by (rewrite app_nil_r; split; [done|lia]). cbn [res_bind]. apply tlv_bytes in Hb.
  pose proof (zlen_tlv_le [IDENTIFIER_SEQUENCE] (manb_inner inner)) as L3.
  rewrite (proj2 (take_der_ok _ _ _ [] Hb)) by (rewrite app_nil_r; split; [done|lia]). cbn [res_bind]. apply tlv_bytes in Hb. unfold manb_inner in *.
  rewrite (proj2 (take_der_ok _ _ (bytes_of "MANB") (set inner) Hb)) by (split; [done|by_compute]). cbn [res_bind].
  rewrite bool_decide_eq_true_2 by done. cbn [negb refuse res_bind]. apply Forall_app in Hb as [_ Hb]. pose proof (zlen_tlv_le [IDENTIFIER_SET] inner) as L5.
  rewrite zlen_app in L3. pose proof (zlen_nonneg (ia5_string (bytes_of "MANB"))). unfold set in *.
  rewrite (proj2 (take_der_ok _ _ _ [] Hb)) by (rewrite app_nil_r; split; [done|lia]). cbn [res_bind].
  destruct (is_empty inner) eqn:E; [by apply empty_iff in E|]. done.
Qed.

(** C13. A body is accepted for signing exactly when it is what the DER writer makes
    of a manifest: a SET of one element under the private tag MANB, which holds a
    SEQUENCE of the IA5 string MANB and a SET that is not empty, all lengths in
    their shortest form, at most four megabytes in all. *)
Theorem manb_exact body : is_bytes body ->
  fourcc_private (bytes_of "MANB") = Ok MANB_IDENTIFIER_BYTES /\
  (validate_signed_manb_body body = Ok tt <->
   exists inner, inner <> [] /\ body = manb_body inner /\ zlen body <= MAX_SIGNED_BODY_BYTES).
Proof.
  intros Hb. split; [by_compute|]. split; [by apply manb_accepts|]. intros (inner&Hi&->&Hl). by apply manb_accepted.
Qed.

Lemma manb_exact_witness : is_bytes (manb_body [5; 0]) /\ validate_signed_manb_body (manb_body [5; 0]) = Ok tt.
Proof.
  assert (is_bytes (manb_body [5; 0])) as Hb by (repeat constructor; by_compute).
  split; [exact Hb|]. apply (manb_exact (manb_body [5; 0]) Hb). exists [5; 0]. split_and!; [done|done|by_compute].
Defined.
