(* ===== verification/BridgeBoot.v ===== *)
(** * The Restore Bridge protocol: the boot context

    [BootContext::encode] and [BootContext::decode] (bridge_protocol.rs) agree: a
    context that is encoded is decoded to itself, and bytes that are decoded are
    the only encoding of what they are decoded to. *)

From S2P Require Import Prelude Windows Sha FatNames Der Bridge BridgeProps BridgeManb.
From stdpp Require Import base tactics numbers list option strings.
From Stdlib Require Import ZArith Lia.

Open Scope Z_scope.

(** ** What a context is *)

(** The widths its types give. *)
Record context_ok (c : BootContext) : Prop := {
  co_digest : zlen (staged_boot_manifest_sha384 c) = 48;
  co_nonce b : ap_nonce c = Some b -> zlen b = 32;
  co_index : u32 (fdr_element_index c);
  co_count : u32 (fdr_element_count c);
  co_trust b : fdr_trust_digest_sha256 c = Some b -> zlen b = 32;
  co_instance b : fdr_instance c = Some b -> from_utf8 b <> None;
  co_sep b : sep_public_key_uncompressed c = Some b -> zlen b = 65;
}.

(** The bytes of a context. *)
Definition layout (c : BootContext) : bytes :=
  be_bytes 2 BOOT_CONTEXT_ENCODING_VERSION ++ be_bytes 2 0 ++ be_bytes 4 (boot_flags c) ++ be_bytes 4 (fdr_element_index c) ++
  be_bytes 4 (fdr_element_count c) ++ be_bytes 4 (len_of (fdr_trust_object c)) ++ be_bytes 4 (len_of (fdr_instance c)) ++
  be_bytes 4 (len_of (fdr_material_path c)) ++ be_bytes 4 (len_of (staged_boot_manifest c)) ++ staged_boot_manifest_sha384 c ++
  default [] (ap_nonce c) ++ default [] (fdr_trust_digest_sha256 c) ++ default [] (fdr_trust_object c) ++ default [] (fdr_instance c) ++
  default [] (fdr_material_path c) ++ default [] (sep_public_key_uncompressed c) ++ default [] (staged_boot_manifest c).

(** What both directions ask of the fields. *)
Record valid_context (c : BootContext) : Prop := {
  vc_trust : match fdr_trust_object c, fdr_trust_digest_sha256 c with
             | None, None => fdr_element_index c = 0 /\ fdr_element_count c = 0
             | Some object, Some digest =>
                 object <> [] /\ fdr_element_count c <> 0 /\ fdr_element_index c < fdr_element_count c /\ sha256 (E := BridgeError) object = Ok digest
             | _, _ => False
             end;
  vc_instance b : fdr_instance c = Some b -> is_some (fdr_trust_object c) = true;
  vc_material b : fdr_material_path c = Some b -> is_some (fdr_trust_object c) = true /\ bad_material_path b = false;
  vc_sep b : sep_public_key_uncompressed c = Some b -> zget b 0 = Some 4;
  vc_signer : remote_signer_available c = true -> is_some (sep_public_key_uncompressed c) = true;
  vc_manifest b : staged_boot_manifest c = Some b -> b <> [] /\ sha384 (E := BridgeError) b = Ok (staged_boot_manifest_sha384 c);
  vc_size : zlen (layout c) <= MAX_BOOT_CONTEXT_BYTES;
}.

(** ** Encoding *)

Lemma len_of_default o : len_of o = zlen (default [] o).
Proof. by destruct o. Qed.

Lemma layout_parts c :
  zlen (layout c) = 32 + zlen (staged_boot_manifest_sha384 c) + len_of (ap_nonce c) + len_of (fdr_trust_digest_sha256 c) + len_of (fdr_trust_object c) +
    len_of (fdr_instance c) + len_of (fdr_material_path c) + len_of (sep_public_key_uncompressed c) + len_of (staged_boot_manifest c).
Proof. unfold layout. rewrite !zlen_app, !zlen_be_bytes, !len_of_default. lia. Qed.

Lemma len_of_nonneg o : 0 <= len_of o.
Proof. rewrite len_of_default. apply zlen_nonneg. Qed.

Lemma u32_len_ok n b : u32_len n = Ok b <-> b = be_bytes 4 n /\ n < 2 ^ 32.
Proof. unfold u32_len. destruct (Z.ltb_spec n (2 ^ 32)); naive_solver lia. Qed.

Lemma and_iff_compat_eq (A B C D : Prop) : (A <-> B) -> (C <-> D) -> (A /\ C <-> B /\ D).
Proof. tauto. Qed.

(** A chain of checks. *)
Lemma and_then_ok (x y : res BridgeError unit) : (let? _ := x in y) = Ok tt <-> x = Ok tt /\ y = Ok tt.
Proof. destruct x as [[]| |]; cbn [res_bind]; intuition discriminate. Qed.

Lemma opt_check_ok (o : option bytes) (check : bytes -> res BridgeError unit) (Q : bytes -> Prop) :
  (forall b, check b = Ok tt <-> Q b) -> match o with Some b => check b | None => Ok tt end = Ok tt <-> forall b, o = Some b -> Q b.
Proof. intros H. destruct o as [b|]; [rewrite H; naive_solver|naive_solver]. Qed.

Lemma refuse_empty {A} (l : list A) e : refuse (is_empty l) e = Ok tt <-> l <> [].
Proof. rewrite refuse_ok. pose proof (empty_iff l). destruct (is_empty l); naive_solver. Qed.

Lemma check_hash (x : res BridgeError bytes) d e : (let? h := x in refuse (negb (bool_decide (h = d))) e) = Ok tt <-> x = Ok d.
Proof. destruct x as [h| |]; cbn [res_bind]; [|done..]. case_bool_decide; cbn [negb refuse]; naive_solver. Qed.

Lemma check_lead (k : bytes) e : (let? lead := index k 0 in refuse (negb (lead =? 4)) e) = Ok tt <-> zget k 0 = Some 4.
Proof. unfold index, or_panic. destruct (zget k 0) as [z|]; cbn [res_bind]; [|done]. destruct (Z.eqb_spec z 4); cbn [negb refuse]; naive_solver. Qed.

Lemma check_trust_ok c : check_trust c = Ok tt <->
  match fdr_trust_object c, fdr_trust_digest_sha256 c with
  | None, None => fdr_element_index c = 0 /\ fdr_element_count c = 0
  | Some object, Some digest =>
      object <> [] /\ fdr_element_count c <> 0 /\ fdr_element_index c < fdr_element_count c /\ sha256 (E := BridgeError) object = Ok digest
  | _, _ => False
  end.
Proof.
  unfold check_trust. destruct (fdr_trust_object c) as [o|], (fdr_trust_digest_sha256 c) as [d|]; [|done..|].
  - rewrite and_then_ok, refuse_empty, and_then_ok, check_hash, refuse_ok, orb_false_iff, Z.eqb_neq, Z.leb_gt. tauto.
  - rewrite refuse_ok, orb_false_iff, !negb_false_iff, !Z.eqb_eq. done.
Qed.

Lemma check_rest_ok c : check_rest c = Ok tt <->
  (forall b, fdr_instance c = Some b -> is_some (fdr_trust_object c) = true /\ b <> []) /\
  (forall b, fdr_material_path c = Some b -> is_some (fdr_trust_object c) = true /\ bad_material_path b = false) /\
  (forall b, sep_public_key_uncompressed c = Some b -> zget b 0 = Some 4) /\
  (remote_signer_available c = true -> is_some (sep_public_key_uncompressed c) = true) /\
  (forall b, staged_boot_manifest c = Some b -> b <> [] /\ sha384 (E := BridgeError) b = Ok (staged_boot_manifest_sha384 c)).
Proof.
  unfold check_rest. rewrite !and_then_ok.
  repeat apply and_iff_compat_eq.
  - apply opt_check_ok. intros b. by rewrite and_then_ok, refuse_ok, negb_false_iff, refuse_empty.
  - apply opt_check_ok. intros b. by rewrite and_then_ok, !refuse_ok, negb_false_iff.
  - apply opt_check_ok. intros b. apply check_lead.
  - rewrite refuse_ok. destruct (remote_signer_available c), (is_some _); cbn; naive_solver.
  - apply opt_check_ok. intros b. by rewrite and_then_ok, refuse_empty, check_hash.
Qed.

Lemma encode_ok c p : boot_context_encode c = Ok p <-> valid_context c /\ fdr_instance c <> Some [] /\ p = layout c.
Proof.
  unfold boot_context_encode. split.
  - intros He. next_check C1. next_check C2. apply check_trust_ok in C1. apply check_rest_ok in C2 as (Hi&Hm&Hs&Hr&Hman).
    destruct (u32_len _) as [l1| |] eqn:U1; [|done..]. cbn [res_bind] in He. destruct (u32_len (len_of (fdr_instance c))) as [l2| |] eqn:U2; [|done..].
    cbn [res_bind] in He. destruct (u32_len (len_of (fdr_material_path c))) as [l3| |] eqn:U3; [|done..]. cbn [res_bind] in He.
    destruct (u32_len (len_of (staged_boot_manifest c))) as [l4| |] eqn:U4; [|done..]. cbn [res_bind] in He.
    apply u32_len_ok in U1 as [-> _], U2 as [-> _], U3 as [-> _], U4 as [-> _]. fold (layout c) in He.
    destruct (Z.ltb_spec MAX_BOOT_CONTEXT_BYTES (zlen (layout c))); [done|]. split_and!; [|naive_solver|congruence].
    split; [done|naive_solver|done..].
  - intros ([Ht Hi Hm Hs Hr Hman Hz]&Hne&->). rewrite (proj2 (check_trust_ok c) Ht). cbn [res_bind].
    rewrite (proj2 (check_rest_ok c)) by (split_and!; [intros b Hb; split; [by eapply Hi|naive_solver]|done..]). cbn [res_bind].
    pose proof (layout_parts c) as Hp. unfold MAX_BOOT_CONTEXT_BYTES in *. pose proof (zlen_nonneg (staged_boot_manifest_sha384 c)).
    pose proof (len_of_nonneg (ap_nonce c)). pose proof (len_of_nonneg (fdr_trust_digest_sha256 c)). pose proof (len_of_nonneg (fdr_trust_object c)).
    pose proof (len_of_nonneg (fdr_instance c)). pose proof (len_of_nonneg (fdr_material_path c)). pose proof (len_of_nonneg (sep_public_key_uncompressed c)).
    pose proof (len_of_nonneg (staged_boot_manifest c)).
    do 4 (rewrite (proj2 (u32_len_ok _ _)) by (split; [done|lia]); cbn [res_bind]). fold (layout c). by rewrite (proj2 (Z.ltb_ge _ _)) by lia.
Qed.

(** ** Flags *)

Definition seven (b0 b1 b2 b3 b4 b5 b6 : bool) : Z :=
  Z.lor (flag 0 b0) (Z.lor (flag 1 b1) (Z.lor (flag 2 b2) (Z.lor (flag 3 b3) (Z.lor (flag 4 b4) (Z.lor (flag 5 b5) (flag 6 b6)))))).

Lemma seven_bits b0 b1 b2 b3 b4 b5 b6 :
  let f := seven b0 b1 b2 b3 b4 b5 b6 in
  (0 <= f < 2 ^ 32 /\ Z.land f (bit_not 32 0x7f) = 0) /\ has_flag f 0 = b0 /\ has_flag f 1 = b1 /\ has_flag f 2 = b2 /\ has_flag f 3 = b3 /\
  has_flag f 4 = b4 /\ has_flag f 5 = b5 /\ has_flag f 6 = b6.
Proof. destruct b0, b1, b2, b3, b4, b5, b6; by_compute. Qed.

Lemma low_flags f : 0 <= f < 2 ^ 32 -> Z.land f (bit_not 32 0x7f) = 0 -> f < 0x80.
Proof.
  intros Hf H0. destruct (Z.lt_ge_cases f 0x80) as [|Hge]; [done|exfalso].
  assert (7 <= Z.log2 f) as L1 by (apply (Z.log2_le_mono (2 ^ 7)); lia). assert (Z.log2 f < 32) as L2 by (apply Z.log2_lt_pow2; lia).
  apply (f_equal (fun x => Z.testbit x (Z.log2 f))) in H0. rewrite Z.land_spec, Z.bits_0, Z.bit_log2 in H0 by lia. cbn [andb] in H0.
  change (bit_not 32 0x7f) with (Z.shiftl (Z.ones 25) 7) in H0. rewrite Z.shiftl_spec, Z.ones_spec_low in H0 by lia. done.
Qed.

(** Flags without unknown bits are the ones their bits make. *)
Lemma seven_all f : 0 <= f < 2 ^ 32 -> Z.land f (bit_not 32 0x7f) = 0 ->
  f = seven (has_flag f 0) (has_flag f 1) (has_flag f 2) (has_flag f 3) (has_flag f 4) (has_flag f 5) (has_flag f 6).
Proof.
  intros Hf H0. pose proof (low_flags f Hf H0).
  assert (forallb (fun f => f =? seven (has_flag f 0) (has_flag f 1) (has_flag f 2) (has_flag f 3) (has_flag f 4) (has_flag f 5) (has_flag f 6)) (seqZ 0 128) = true) as Ha by by_compute.
  rewrite forallb_forall in Ha. apply Z.eqb_eq, Ha. rewrite <- list_elem_of_In, elem_of_seqZ. lia.
Qed.

(** ** Decoding *)

Lemma slice_at_ok p pre rest cursor len s fin : p = pre ++ rest -> cursor = zlen pre -> zlen p < 2 ^ 64 ->
  slice_at p cursor len = Ok (s, fin) <-> exists rest', rest = s ++ rest' /\ len = zlen s /\ fin = zlen (pre ++ s).
Proof.
  intros -> -> Hl. rewrite zlen_app in Hl. unfold slice_at, checked_add. split.
  - destruct (_ <? _); cbn [ok_or res_bind]; [|done]. destruct (get_range _ _ _) as [k|] eqn:Eg; cbn [ok_or res_bind]; [|done].
    intros [= <- <-]. rewrite get_range_skip in Eg by lia. rewrite Z.sub_diag, Z.add_simpl_l in Eg. apply get_range_some in Eg as [[? Hr] ->].
    rewrite zdrop_0, Z.sub_0_r. exists (zdrop len rest). rewrite ztake_zdrop, zlen_app, zlen_ztake. split_and!; [done|lia|lia].
  - intros (rest'&->&->&->). pose proof (zlen_nonneg rest'). rewrite zlen_app in Hl. rewrite (proj2 (Z.ltb_lt _ _)) by lia. cbn [ok_or res_bind].
    rewrite get_range_skip by lia. rewrite get_range_here by lia. cbn [ok_or res_bind]. by rewrite zlen_app.
Qed.

Lemma take_if_ok p pre rest cursor present len take absent (Q : bytes -> Prop) o fin :
  p = pre ++ rest -> cursor = zlen pre -> zlen p < 2 ^ 64 ->
  (forall s fin, take cursor = Ok (s, fin) <-> slice_at p cursor len = Ok (s, fin) /\ Q s) ->
  take_if present cursor take absent = Ok (o, fin) <->
  present = is_some o /\ (exists rest', rest = default [] o ++ rest' /\ fin = zlen (pre ++ default [] o)) /\
  (forall s, o = Some s -> zlen s = len /\ Q s) /\ (o = None -> absent = Ok tt).
Proof.
  intros Hp Hc Hl Ht. unfold take_if. destruct present; cbn match.
  - split.
    + destruct (take cursor) as [[s f]| |] eqn:E; cbn [res_bind]; [|done..]. intros [= <- <-]. destruct (proj1 (Ht s f) eq_refl) as [E' HQ].
      rewrite slice_at_ok in E' by done. destruct E' as (rest'&?&?&?). cbn. naive_solver.
    + intros (Ho&(rest'&Hr&Hf)&Hs&_). destruct o as [s|]; [|done]. destruct (Hs s eq_refl) as [Hz HQ]. cbn in Hr, Hf.
      rewrite (proj2 (Ht s fin)); [done|]. split; [|done]. rewrite slice_at_ok by done. exists rest'. split_and!; [done|lia|done].
  - destruct absent as [[]| |]; cbn [res_bind].
    + split; [|intros (Ho&(rest'&Hr&Hf)&_&_); destruct o; [done|]; cbn in Hf; rewrite app_nil_r in Hf; by subst].
      intros [= <- <-]. cbn. rewrite app_nil_r. split_and!; [done|by exists rest|done|done].
    + split; [done|]. intros (Ho&_&_&Ha). destruct o; [done|]. by discriminate (Ha eq_refl).
    + split; [done|]. intros (Ho&_&_&Ha). destruct o; [done|]. by discriminate (Ha eq_refl).
Qed.

Lemma take_plain p len cursor s fin : slice_at p cursor len = Ok (s, fin) <-> slice_at p cursor len = Ok (s, fin) /\ True.
Proof. tauto. Qed.

Lemma take_instance_ok p trusted len cursor s fin :
  take_instance p trusted len cursor = Ok (s, fin) <-> slice_at p cursor len = Ok (s, fin) /\ trusted = true /\ from_utf8 s <> None.
Proof.
  unfold take_instance. destruct trusted; cbn [negb refuse res_bind]; [|naive_solver].
  destruct (slice_at p cursor len) as [[b f]| |]; cbn [res_bind]; [|naive_solver..]. destruct (from_utf8 b) eqn:E; naive_solver.
Qed.

Lemma take_material_ok p trusted len cursor s fin :
  take_material p trusted len cursor = Ok (s, fin) <-> slice_at p cursor len = Ok (s, fin) /\ trusted = true /\ bad_material_path s = false.
Proof.
  unfold take_material. destruct trusted; cbn [negb refuse res_bind]; [|naive_solver].
  destruct (slice_at p cursor len) as [[b f]| |]; cbn [res_bind]; [|naive_solver..]. destruct (bad_material_path b) eqn:E; cbn [refuse res_bind].
  - split; [done|]. intros (He&_&Hm). injection He as <- <-. congruence.
  - split; [|tauto]. intros He. injection He as <- <-. done.
Qed.

Lemma take_sep_ok p cursor s fin : take_sep p cursor = Ok (s, fin) <-> slice_at p cursor 65 = Ok (s, fin) /\ zget s 0 = Some 4.
Proof.
  unfold take_sep, index, or_panic. destruct (slice_at p cursor 65) as [[b f]| |]; cbn [res_bind]; [|naive_solver..].
  destruct (zget b 0) as [z|] eqn:E; cbn [res_bind]; [|naive_solver]. destruct (Z.eqb_spec z 4); cbn [negb refuse res_bind]; naive_solver.
Qed.

Lemma take_manifest_ok p digest len cursor s fin :
  take_manifest p digest len cursor = Ok (s, fin) <-> slice_at p cursor len = Ok (s, fin) /\ s <> [] /\ sha384 (E := BridgeError) s = Ok digest.
Proof.
  unfold take_manifest. destruct (slice_at p cursor len) as [[b f]| |]; cbn [res_bind]; [|naive_solver..]. pose proof (empty_iff b).
  destruct (is_empty b); cbn [refuse res_bind]; [naive_solver|]. destruct (sha384 (E := BridgeError) b) as [h| |] eqn:E; cbn [res_bind]; last first.
  1, 2: split; [done|]; intros (He&_&Hm); injection He as <- <-; congruence.
  case_bool_decide as Eh; cbn [negb refuse res_bind].
  - subst h. split; [|tauto]. intros He. injection He as <- <-. naive_solver.
  - split; [done|]. intros (He&_&Hm). injection He as <- <-. congruence.
Qed.

(** A word of the head, read in place. *)
Lemma be_at_next p pre rest lo hi n x : is_bytes p -> p = pre ++ rest -> lo = zlen pre -> hi = lo + Z.of_nat n -> be_at p lo hi = Ok x ->
  exists rest', rest = be_bytes n x ++ rest' /\ 0 <= x < 2 ^ (8 * Z.of_nat n).
Proof.
  intros Hb -> -> -> He. rewrite be_at_skip in He by lia. rewrite Z.sub_diag, Z.add_simpl_l in He. apply Forall_app in Hb as [_ Hb]. pose proof (be_at_inv _ _ _ _ He Hb) as Hx.
  rewrite Z.sub_0_r in Hx. unfold be_at in He. destruct (slice rest 0 (Z.of_nat n)) as [s| |] eqn:E; [|done..]. cbn [res_bind] in He.
  apply slice_inv in E as (_&Hl&->). rewrite zdrop_0, Z.sub_0_r in He. injection He as <-. exists (zdrop (Z.of_nat n) rest). split; [|done].
  rewrite be_bytes_be_val; [by rewrite ztake_zdrop|auto with isbytes|]. pose proof (zlen_ztake (Z.of_nat n) rest). unfold zlen in *. lia.
Qed.

(** The parts of a context behind its words. *)
Definition parts_layout (c : BootContext) : bytes :=
  staged_boot_manifest_sha384 c ++ default [] (ap_nonce c) ++ default [] (fdr_trust_digest_sha256 c) ++ default [] (fdr_trust_object c) ++
  default [] (fdr_instance c) ++ default [] (fdr_material_path c) ++ default [] (sep_public_key_uncompressed c) ++ default [] (staged_boot_manifest c).

(** What the words say of the parts. *)
Record words_of (c : BootContext) (flags index count object instance material manifest : Z) : Prop := {
  wo_flags : has_flag flags 0 = is_some (ap_nonce c) /\ has_flag flags 1 = is_some (fdr_trust_object c) /\ has_flag flags 2 = is_some (fdr_instance c) /\
             has_flag flags 3 = is_some (fdr_material_path c) /\ has_flag flags 4 = is_some (sep_public_key_uncompressed c) /\
             has_flag flags 5 = remote_signer_available c /\ has_flag flags 6 = is_some (staged_boot_manifest c);
  wo_index : index = fdr_element_index c;
  wo_count : count = fdr_element_count c;
  wo_object : object = len_of (fdr_trust_object c);
  wo_instance : instance = len_of (fdr_instance c);
  wo_material : material = len_of (fdr_material_path c);
  wo_manifest : manifest = len_of (staged_boot_manifest c);
}.

(** One part taken off. *)
Ltac part_off Hd H64 Hp lemma o cur E Hs Ha :=
  match type of Hd with res_bind ?x _ = Ok _ => destruct x as [[o cur]| |] eqn:E; [|discriminate Hd..]; cbn [res_bind] in Hd end;
  eapply take_if_ok in E; [|exact Hp|done|exact H64|intros; first [apply lemma | apply take_plain]];
  let r := fresh "r" in destruct E as (E&(r&->&->)&Hs&Ha); rewrite app_assoc in Hp.

Lemma parts_sound p pre rest flags index count object instance material manifest c :
  p = pre ++ rest -> zlen pre = 32 -> zlen p < 2 ^ 64 -> boot_context_parts p flags index count object instance material manifest = Ok c ->
  words_of c flags index count object instance material manifest /\ rest = parts_layout c /\
  (u32 index -> u32 count -> context_ok c) /\ (zlen (layout c) <= MAX_BOOT_CONTEXT_BYTES -> valid_context c).
Proof.
  intros Hp Hz H64 Hd. unfold boot_context_parts in Hd. destruct (slice_at p 32 48) as [[dig cur]| |] eqn:E0; [|done..]. cbn [res_bind] in Hd.
  rewrite slice_at_ok in E0 by done. destruct E0 as (r0&->&Hdig&->). rewrite app_assoc in Hp.
  part_off Hd H64 Hp take_sep_ok nonce cur E0 S0 A0.
  part_off Hd H64 Hp take_sep_ok tdig cur E1 S1 A1.
  part_off Hd H64 Hp take_sep_ok obj cur E2 S2 A2.
  part_off Hd H64 Hp take_instance_ok ins cur E3 S3 A3.
  part_off Hd H64 Hp take_material_ok mtl cur E4 S4 A4.
  part_off Hd H64 Hp take_sep_ok sep cur E5 S5 A5.
  part_off Hd H64 Hp take_manifest_ok man cur E6 S6 A6.
  next_check C1. next_check C2. next_check C3. apply refuse_ok, negb_false_iff, Z.eqb_eq in C2. rewrite Hp, (zlen_app _ r) in C2.
  assert (r = []) as -> by (apply zlen_zero; lia). rewrite !app_nil_r. apply refuse_ok in C1.
  assert (forall (o : option bytes) n (Q : bytes -> Prop), (forall s, o = Some s -> zlen s = n /\ Q s) -> (o = None -> refuse (negb (n =? 0)) InvalidData = Ok tt) -> n = len_of o) as Hlen.
  { intros [s|] n Q HS HA; cbn; [by destruct (HS s eq_refl)|]. specialize (HA eq_refl). apply refuse_ok in HA. by bools. }
  assert (object = len_of obj /\ (obj = None -> index = 0 /\ count = 0)) as [Hobj Hnone].
  { destruct obj as [s|]; [split; [by destruct (S2 s eq_refl)|done]|]. destruct tdig; [rewrite E1 in E2; done|]. specialize (A1 eq_refl). apply refuse_ok in A1. bools. done. }
  set (c' := Build_BootContext _ _ _ _ _ _ _ _ _ _ _) in Hd. assert (c = c') as -> by congruence. clear Hd.
  split_and!; [split; try done; [exact (Hlen _ _ _ S3 A3)|exact (Hlen _ _ _ S4 A4)|exact (Hlen _ _ _ S6 A6)]|done| |].
  - intros Hi Hc. split; try done; intros b Hb; [apply S0 in Hb|apply S1 in Hb|apply S3 in Hb|apply S5 in Hb]; tauto.
  - intros Hsz. rewrite E2 in S3, S4. split; [|intros b Hb; apply S3 in Hb; tauto|intros b Hb; apply S4 in Hb; tauto|intros b Hb; apply S5 in Hb; tauto| |intros b Hb; apply S6 in Hb; tauto|done].
    2: { change (has_flag flags 5 = true -> is_some sep = true). intros Hf. rewrite Hf in C1. by apply negb_false_iff in C1. }
    cbn [fdr_trust_object fdr_trust_digest_sha256 fdr_element_index fdr_element_count c']. destruct obj as [o|], tdig as [d|]; [|by rewrite E1 in E2..|by apply Hnone].
    apply and_then_ok in C3 as [C3 C4]. apply check_hash in C4. apply refuse_ok in C3. bools. cbn in Hobj. split_and!; [intros ->|..]; [done|done|lia|done].
Qed.

Lemma part_on o p pre rest present len take absent (Q : bytes -> Prop) :
  p = pre ++ default [] o ++ rest -> zlen p < 2 ^ 64 ->
  (forall s fin, take (zlen pre) = Ok (s, fin) <-> slice_at p (zlen pre) len = Ok (s, fin) /\ Q s) ->
  present = is_some o -> (forall s, o = Some s -> zlen s = len /\ Q s) -> (o = None -> absent = Ok tt) ->
  take_if present (zlen pre) take absent = Ok (o, zlen (pre ++ default [] o)).
Proof. intros Hp Hl Ht Hpr Hs Ha. eapply take_if_ok; [exact Hp|done|done|exact Ht|]. split_and!; [done|by exists rest|done|done]. Qed.

Lemma refuse_len (o : option bytes) : o = None -> refuse (negb (len_of o =? 0)) InvalidData = Ok tt.
Proof. by intros ->. Qed.

Lemma parts_complete p pre flags index count object instance material manifest c :
  context_ok c -> valid_context c -> words_of c flags index count object instance material manifest ->
  p = pre ++ parts_layout c -> zlen pre = 32 -> zlen p < 2 ^ 64 ->
  boot_context_parts p flags index count object instance material manifest = Ok c.
Proof.
  intros [K1 K2 _ _ K3 K4 K5] [V1 V2 V3 V4 V5 V6 _] [(F0&F1&F2&F3&F4&F5&F6) -> -> -> -> -> ->] Hp Hz H64. unfold parts_layout in Hp. unfold boot_context_parts.
  rewrite F0, F1, F2, F3, F4, F5, F6. assert (is_some (fdr_trust_digest_sha256 c) = is_some (fdr_trust_object c)) as Ht by (by destruct (fdr_trust_object c), (fdr_trust_digest_sha256 c)).
  rewrite (proj2 (slice_at_ok p pre _ 32 48 (staged_boot_manifest_sha384 c) (zlen (pre ++ staged_boot_manifest_sha384 c)) Hp (eq_sym Hz) H64)) by (eexists; split_and!; done).
  cbn [res_bind]. rewrite app_assoc in Hp.
  erewrite (part_on (ap_nonce c)); [|exact Hp|done|intros; apply take_plain|done|by split; [apply K2|]|done]. cbn [res_bind]. rewrite app_assoc in Hp.
  erewrite (part_on (fdr_trust_digest_sha256 c)); [|exact Hp|done|intros; apply take_plain|done|by split; [apply K3|]|]; last first.
  { intros Hn. rewrite Hn in *. destruct (fdr_trust_object c); [done|]. destruct V1 as [-> ->]. destruct (fdr_instance c); [by discriminate (V2 _ eq_refl)|].
    destruct (fdr_material_path c); [by destruct (V3 _ eq_refl)|]. done. }
  cbn [res_bind]. rewrite app_assoc in Hp.
  erewrite (part_on (fdr_trust_object c)); [|exact Hp|done|intros; apply take_plain|done|by intros s ->|done]. cbn [res_bind]. rewrite app_assoc in Hp.
  erewrite (part_on (fdr_instance c)); [|exact Hp|done|intros; apply take_instance_ok|done| |apply refuse_len]; last (intros s Hs; rewrite Hs; split_and!; [done|by eapply V2|by apply K4]).
  cbn [res_bind]. rewrite app_assoc in Hp.
  erewrite (part_on (fdr_material_path c)); [|exact Hp|done|intros; apply take_material_ok|done| |apply refuse_len]; last (intros s Hs; rewrite Hs; split; [done|by apply V3]).
  cbn [res_bind]. rewrite app_assoc in Hp.
  erewrite (part_on (sep_public_key_uncompressed c)); [|exact Hp|done|intros; apply take_sep_ok|done|by split; [apply K5|apply V4]|done]. cbn [res_bind]. rewrite app_assoc in Hp.
  rewrite <- (app_nil_r (default [] (staged_boot_manifest c))) in Hp.
  erewrite (part_on (staged_boot_manifest c)); [|exact Hp|done|intros; apply take_manifest_ok|done| |apply refuse_len]; last (intros s Hs; rewrite Hs; split; [done|by apply V6]).
  cbn [res_bind]. rewrite app_nil_r in Hp.
  assert (refuse (remote_signer_available c && negb (is_some (sep_public_key_uncompressed c))) InvalidData = Ok tt) as ->.
  { apply refuse_ok. destruct (remote_signer_available c); [|done]. by rewrite V5. }
  rewrite <- Hp, Z.eqb_refl. cbn [negb refuse res_bind].
  assert (match fdr_trust_digest_sha256 c with Some digest => let? _ := refuse ((len_of (fdr_trust_object c) =? 0) || (fdr_element_count c =? 0) || (fdr_element_count c <=? fdr_element_index c)) InvalidData in
      let? hash := sha256 (default [] (fdr_trust_object c)) in refuse (negb (bool_decide (hash = digest))) InvalidData | None => Ok tt end = Ok tt) as ->.
  { destruct (fdr_trust_object c) as [o|], (fdr_trust_digest_sha256 c) as [d|]; try done. destruct V1 as (Hne&Hc&Hi&Hh). apply and_then_ok. rewrite check_hash, refuse_ok.
    split; [|done]. cbn [len_of]. rewrite !orb_false_iff, !Z.eqb_neq, Z.leb_gt. split_and!; [|done|done]. by rewrite zlen_zero. }
  cbn [res_bind]. by destruct c.
Qed.

(** ** The words at the beginning *)

Definition words_layout (ver reserved flags index count object instance material manifest : Z) : bytes :=
  be_bytes 2 ver ++ be_bytes 2 reserved ++ be_bytes 4 flags ++ be_bytes 4 index ++ be_bytes 4 count ++ be_bytes 4 object ++ be_bytes 4 instance ++
  be_bytes 4 material ++ be_bytes 4 manifest.

Lemma layout_split c : layout c =
  words_layout BOOT_CONTEXT_ENCODING_VERSION 0 (boot_flags c) (fdr_element_index c) (fdr_element_count c) (len_of (fdr_trust_object c))
    (len_of (fdr_instance c)) (len_of (fdr_material_path c)) (len_of (staged_boot_manifest c)) ++ parts_layout c.
Proof. unfold layout, words_layout, parts_layout. by rewrite <- !app_assoc. Qed.

Lemma zlen_words ver reserved flags index count object instance material manifest :
  zlen (words_layout ver reserved flags index count object instance material manifest) = 32.
Proof. unfold words_layout. rewrite !zlen_app, !zlen_be_bytes. done. Qed.

(** One word taken off the front. *)
Ltac word_off Hd Hb Hp x E Hx :=
  match type of Hd with res_bind ?y _ = Ok _ => destruct y as [x| |] eqn:E; [|discriminate Hd..]; cbn [res_bind] in Hd end;
  let r := fresh "r" in
  match type of E with be_at _ ?lo ?hi = _ =>
    let n := eval vm_compute in (Z.to_nat (hi - lo)) in
    destruct (be_at_next _ _ _ lo hi n x Hb Hp ltac:(rewrite ?zlen_app, ?zlen_be_bytes, ?zlen_nil; reflexivity) eq_refl E) as (r&->&Hx)
  end; rewrite app_assoc in Hp.

Lemma decode_sound p c : is_bytes p -> boot_context_decode p = Ok c -> context_ok c /\ valid_context c /\ p = layout c.
Proof.
  intros Hb Hd. unfold boot_context_decode in Hd. next_check C0. next_check C1. apply refuse_ok, Z.ltb_ge in C0, C1.
  assert (zlen p < 2 ^ 64) as H64 by (unfold MAX_BOOT_CONTEXT_BYTES in C1; lia). assert (exists rest, p = [] ++ rest) as [rest Hp] by (by exists p).
  word_off Hd Hb Hp ver W0 H0. word_off Hd Hb Hp rsv W1 H1. word_off Hd Hb Hp fl W2 H2. word_off Hd Hb Hp idx W3 H3. word_off Hd Hb Hp cnt W4 H4.
  word_off Hd Hb Hp ol W5 H5. word_off Hd Hb Hp il W6 H6. word_off Hd Hb Hp ml W7 H7. word_off Hd Hb Hp nl W8 H8.
  next_check C2. next_check C3. apply refuse_ok in C2, C3. bools. subst ver rsv. pose proof (seven_all fl H2 C3) as Hseven.
  assert (p = words_layout BOOT_CONTEXT_ENCODING_VERSION 0 fl idx cnt ol il ml nl ++ r) as Hw by (rewrite Hp; unfold words_layout; by rewrite <- !app_assoc).
  apply (parts_sound _ _ _ _ _ _ _ _ _ _ _ Hw (zlen_words _ _ _ _ _ _ _ _ _) H64) in Hd as ([(F0&F1&F2&F3&F4&F5&F6) -> -> -> -> -> ->]&->&Hc&Hv).
  rewrite F0, F1, F2, F3, F4, F5, F6 in Hseven. change (fl = boot_flags c) in Hseven. subst fl. rewrite <- layout_split in Hw.
  split_and!; [by apply Hc|apply Hv; by rewrite <- Hw|done].
Qed.

Lemma decode_complete c : context_ok c -> valid_context c -> boot_context_decode (layout c) = Ok c.
Proof.
  intros Hc Hv. pose proof (vc_size _ Hv) as Hs. pose proof (seven_bits (is_some (ap_nonce c)) (is_some (fdr_trust_object c)) (is_some (fdr_instance c))
    (is_some (fdr_material_path c)) (is_some (sep_public_key_uncompressed c)) (remote_signer_available c) (is_some (staged_boot_manifest c))) as [[Hf Hl] Hbits].
  change (seven _ _ _ _ _ _ _) with (boot_flags c) in *.
  assert (forall o, zlen (layout c) <= MAX_BOOT_CONTEXT_BYTES -> len_of o <= zlen (layout c) -> 0 <= len_of o < 2 ^ 32) as Hlen.
  { intros o. pose proof (len_of_nonneg o). unfold MAX_BOOT_CONTEXT_BYTES. lia. }
  pose proof (layout_parts c) as Hparts. pose proof (co_digest _ Hc).
  pose proof (len_of_nonneg (ap_nonce c)). pose proof (len_of_nonneg (fdr_trust_digest_sha256 c)). pose proof (len_of_nonneg (fdr_trust_object c)).
  pose proof (len_of_nonneg (fdr_instance c)). pose proof (len_of_nonneg (fdr_material_path c)). pose proof (len_of_nonneg (sep_public_key_uncompressed c)).
  pose proof (len_of_nonneg (staged_boot_manifest c)). pose proof (Hlen (fdr_trust_object c) Hs ltac:(lia)). pose proof (Hlen (fdr_instance c) Hs ltac:(lia)).
  pose proof (Hlen (fdr_material_path c) Hs ltac:(lia)). pose proof (Hlen (staged_boot_manifest c) Hs ltac:(lia)). pose proof (co_index _ Hc). pose proof (co_count _ Hc). unfold in_range in *.
  unfold boot_context_decode. unfold refuse at 1. rewrite (proj2 (Z.ltb_ge (zlen _) 80)) by lia. cbn [res_bind]. unfold refuse at 1. rewrite (proj2 (Z.ltb_ge _ _)) by done. cbn [res_bind].
  rewrite layout_split. unfold words_layout. rewrite <- !app_assoc. unfold BOOT_CONTEXT_ENCODING_VERSION at 1. do 9 read_field.
  change (refuse (negb (1 =? BOOT_CONTEXT_ENCODING_VERSION) || negb (0 =? 0)) InvalidData) with (Ok (E := BridgeError) tt). cbn [res_bind]. rewrite Hl. cbn [Z.eqb negb refuse res_bind].
  eapply (parts_complete _ (words_layout _ _ _ _ _ _ _ _ _)); [done|done|split; [exact Hbits|done..]| |by rewrite zlen_words|].
  - unfold words_layout. by rewrite <- !app_assoc.
  - rewrite layout_split in Hs. unfold words_layout in Hs. rewrite <- !app_assoc in Hs. unfold MAX_BOOT_CONTEXT_BYTES in Hs. unfold BOOT_CONTEXT_ENCODING_VERSION in *. lia.
Qed.

(** The boot context: what is encoded is decoded to the context it came from,
    and what is decoded is a context whose only encoding is the bytes it came
    from, but for a context with an empty instance, which [decode] lets through
    and [encode] refuses. *)
Theorem boot_context_exact :
  (forall c p, context_ok c -> boot_context_encode c = Ok p -> boot_context_decode p = Ok c) /\
  (forall p c, is_bytes p -> boot_context_decode p = Ok c -> context_ok c /\ (fdr_instance c <> Some [] <-> boot_context_encode c = Ok p)).
Proof.
  split.
  - intros c p Hc He. apply encode_ok in He as (Hv&_&->). by apply decode_complete.
  - intros p c Hb Hd. destruct (decode_sound p c Hb Hd) as (Hc&Hv&->). split; [done|]. rewrite encode_ok. tauto.
Qed.

Definition example_context : BootContext :=
  {| staged_boot_manifest_sha384 := zeros 48; staged_boot_manifest := None; ap_nonce := Some (zeros 32); fdr_element_index := 1; fdr_element_count := 3;
     fdr_trust_digest_sha256 := match sha256 (E := BridgeError) [1; 2; 3] with Ok d => Some d | _ => None end; fdr_trust_object := Some [1; 2; 3];
     fdr_instance := Some [105]; fdr_material_path := Some [47; 109]; sep_public_key_uncompressed := None; remote_signer_available := false |}.

Lemma example_context_ok : context_ok example_context.
Proof.
  split; [by vm_compute| |by vm_compute|by vm_compute| | |]; intros b Hb; vm_compute in Hb; try discriminate Hb; apply Some_inj in Hb as <-; by vm_compute.
Qed.
