(* ===== verification/BridgeSafety.v ===== *)
(** * The Restore Bridge protocol: nothing that arrives makes a decoder panic *)

From S2P Require Import Prelude Windows Sha ShaProps FatNames Der Bridge BridgeProps BridgeManb BridgeBoot.
From stdpp Require Import base tactics numbers list option strings.
From Stdlib Require Import ZArith Lia.

Open Scope Z_scope.

Create HintDb calm.

Lemma sha256_total {E} m : no_panic (sha256 (E := E) m).
Proof. pose proof (streamed256 (E := E) [m]) as H. unfold sha256, no_panic. cbn [updates foldl res_bind] in H. by rewrite H. Qed.
Lemma sha384_total {E} m : no_panic (sha384 (E := E) m).
Proof. pose proof (streamed384 (E := E) [m]) as H. unfold sha384, no_panic. cbn [updates foldl res_bind] in H. by rewrite H. Qed.
Lemma ok_or_no_panic {A} (o : option A) (e : BridgeError) : no_panic (ok_or o e).
Proof. by destruct o. Qed.
Lemma slice_no_panic (b : bytes) lo hi : 0 <= lo <= hi -> hi <= zlen b -> no_panic (slice (E := BridgeError) b lo hi).
Proof. intros. by rewrite slice_ok. Qed.
Lemma index_no_panic (b : bytes) i : 0 <= i < zlen b -> no_panic (index (E := BridgeError) b i).
Proof. intros Hi. unfold index, or_panic. destruct (zget b i) eqn:E; [done|]. unfold zget in E. rewrite (proj2 (Z.ltb_ge _ _)) in E by lia. apply lookup_ge_None in E. unfold zlen in Hi. lia. Qed.
#[export] Hint Resolve sha256_total sha384_total ok_or_no_panic refuse_no_panic : calm.

(** A chain of calls none of which panics: checks, words and pieces in range. *)
Ltac calm_call := first [solve [auto with calm] | apply be_at_no_panic; lia | apply slice_no_panic; lia | apply index_no_panic; lia].
Ltac calm_step := apply no_panic_bind; [calm_call|intros ? ?].

Lemma decode_der_length_no_panic b : no_panic (decode_der_length b).
Proof.
  destruct b as [|first b]; [done|]. unfold decode_der_length. destruct (_ =? _); [done|]. destruct (_ =? _); [done|]. destruct (_ || _) eqn:Ec; [done|].
  bools. apply no_panic_bind; [calm_call|]. intros d Hd. destruct (get_range b 0 (Z.land first 0x7f)) as [k|] eqn:Eg; [|done]. apply get_range_some in Eg as [[? ?] ->].
  injection Hd as <-. rewrite zdrop_0, Z.sub_0_r.
  assert (0 <= Z.land first 0x7f) by (apply Z.land_nonneg; by right).
  apply no_panic_bind; [apply index_no_panic; rewrite zlen_ztake; lia|]. intros lead _. destruct (_ =? _); [done|]. by destruct (_ && _).
Qed.
#[export] Hint Resolve decode_der_length_no_panic : calm.

Lemma take_body_no_panic b : no_panic (take_body b).
Proof. unfold take_body. calm_step. destruct a as [n rest]. by calm_step. Qed.
#[export] Hint Resolve take_body_no_panic : calm.

Lemma take_der_no_panic b tag : no_panic (take_der_element b tag).
Proof. unfold take_der_element. destruct b; [done|]. destruct (negb _); [done|auto with calm]. Qed.
Lemma take_manb_no_panic b : no_panic (take_private_manb_element b).
Proof. unfold take_private_manb_element. by case_bool_decide; auto with calm. Qed.
#[export] Hint Resolve take_der_no_panic take_manb_no_panic : calm.

Lemma manb_no_panic b : no_panic (validate_signed_manb_body b).
Proof. unfold validate_signed_manb_body. repeat first [calm_step; try match goal with v : (bytes * bytes)%type |- _ => destruct v end | auto with calm]. Qed.
#[export] Hint Resolve manb_no_panic : calm.

Lemma slice_at_no_panic p cursor len : no_panic (slice_at p cursor len).
Proof. unfold slice_at. by do 2 calm_step. Qed.
#[export] Hint Resolve slice_at_no_panic : calm.

Lemma take_if_no_panic present cursor take absent : (forall c, no_panic (take c)) -> no_panic absent -> no_panic (take_if present cursor take absent).
Proof. intros Ht Ha. unfold take_if. destruct present; apply no_panic_bind; [done|by intros [? ?] _|done|done]. Qed.

Lemma take_instance_no_panic p trusted len cursor : no_panic (take_instance p trusted len cursor).
Proof. unfold take_instance. do 2 calm_step. destruct a0 as [b c]. by destruct (from_utf8 b). Qed.
Lemma take_material_no_panic p trusted len cursor : no_panic (take_material p trusted len cursor).
Proof. unfold take_material. do 2 calm_step. destruct a0 as [b c]. by calm_step. Qed.
Lemma slice_at_len p cursor len s fin : slice_at p cursor len = Ok (s, fin) -> zlen s = len.
Proof.
  unfold slice_at, checked_add. destruct (_ <? _); cbn [ok_or res_bind]; [|done]. destruct (get_range _ _ _) as [k|] eqn:E; cbn [ok_or res_bind]; [|done].
  apply get_range_some in E as [[? ?] ->]. intros [= <- _]. rewrite zlen_ztake, zlen_zdrop. lia.
Qed.

Lemma take_sep_no_panic p cursor : no_panic (take_sep p cursor).
Proof. unfold take_sep. calm_step. destruct a as [b c]. apply slice_at_len in H. calm_step. by calm_step. Qed.
Lemma take_manifest_no_panic p digest len cursor : no_panic (take_manifest p digest len cursor).
Proof. unfold take_manifest. calm_step. destruct a as [b c]. by do 3 calm_step. Qed.
#[export] Hint Resolve take_if_no_panic take_instance_no_panic take_material_no_panic take_sep_no_panic take_manifest_no_panic : calm.

Lemma no_panic_ok {A} (a : A) : no_panic (Ok (E := BridgeError) a).
Proof. done. Qed.
#[export] Hint Resolve no_panic_ok : calm.

Lemma parts_no_panic p flags index count object instance material manifest : no_panic (boot_context_parts p flags index count object instance material manifest).
Proof.
  unfold boot_context_parts. repeat first [calm_step; try match goal with v : (_ * Z)%type |- _ => destruct v end].
  apply no_panic_bind; [|done]. match goal with |- no_panic (match ?d with Some _ => _ | None => _ end) => destruct d end; [|done]. do 2 calm_step. auto with calm.
Qed.
#[export] Hint Resolve parts_no_panic : calm.

Lemma boot_context_decode_no_panic p : no_panic (boot_context_decode p).
Proof.
  unfold boot_context_decode. calm_step. destruct a. apply refuse_ok, Z.ltb_ge in H. do 12 calm_step. auto with calm.
Qed.
#[export] Hint Resolve boot_context_decode_no_panic : calm.

Lemma decode_credit_no_panic p : no_panic (decode_credit p).
Proof. unfold decode_credit. calm_step. destruct a. apply refuse_ok in H. bools. repeat calm_step. done. Qed.
Lemma decode_stats_no_panic p : no_panic (decode_stats p).
Proof. unfold decode_stats. calm_step. destruct a. apply refuse_ok in H. bools. repeat calm_step. done. Qed.
Lemma decode_ping_no_panic p : no_panic (decode_ping_nonce p).
Proof. unfold decode_ping_nonce. by calm_step. Qed.
Lemma sign_request_decode_no_panic p : no_panic (sign_request_decode p).
Proof. unfold sign_request_decode. calm_step. destruct a. apply refuse_ok in H. bools. repeat calm_step. done. Qed.
Lemma signature_decode_no_panic p : no_panic (signature_decode p).
Proof.
  unfold signature_decode. calm_step. destruct a. apply refuse_ok in H. bools. do 5 calm_step. apply no_panic_bind; [calm_call|]. intros key Hk.
  apply slice_inv in Hk as (?&?&->). apply no_panic_bind; [apply index_no_panic; rewrite zlen_ztake, zlen_zdrop; lia|]. intros lead _. by repeat calm_step.
Qed.
Lemma packet_to_device_no_panic p : no_panic (validate_packet_to_device p).
Proof. unfold validate_packet_to_device. calm_step. destruct a. apply refuse_ok in H. bools. calm_step. auto with calm. Qed.
#[export] Hint Resolve decode_credit_no_panic decode_stats_no_panic decode_ping_no_panic sign_request_decode_no_panic signature_decode_no_panic packet_to_device_no_panic : calm.

Lemma payload_check_no_panic k p : no_panic (validate_record_payload k p).
Proof. destruct k; cbn [validate_record_payload]; first [solve [auto with calm] | by calm_step | unfold validate_packet_from_device; auto with calm]. Qed.

Lemma header_check_no_panic h : no_panic (validate_record_header h).
Proof. unfold validate_record_header. do 2 calm_step. destruct (kind h); repeat first [solve [auto with calm] | calm_step]. Qed.
#[export] Hint Resolve payload_check_no_panic header_check_no_panic : calm.

Lemma encode_record_no_panic h p : no_panic (encode_record h p).
Proof. unfold encode_record. by repeat calm_step. Qed.

(** Whatever header and payload are given, encoding a record or checking a
    payload of any kind returns: a record, or an error. *)
Theorem bridge_never_panics h p k : encode_record h p <> Panic /\ validate_record_payload k p <> Panic.
Proof. split; [apply encode_record_no_panic|apply payload_check_no_panic]. Qed.
