(* ===== verification/BridgeSession.v ===== *)
(** * The claimed session of the Restore Bridge (bridge_transport.rs)

    The state that the reader thread, the link and the control handles share, the
    operations on it, and the threads as a step relation.  An operation that holds
    the queue's lock is one step; a write of a frame, which holds the writer's
    lock, is one step; [mark_terminal] is three, and any thread may run between
    them.  The socket is the environment: what arrives is arbitrary, and a write
    may fail after any number of bytes.  The text of an error is not modelled, what
    it says is. *)

From S2P Require Import Prelude Windows MuxFrame Watchdog Bridge.
From stdpp Require Import base tactics numbers list option gmap.
From Stdlib Require Import ZArith Lia.

Open Scope Z_scope.

Definition GUEST_USB_READ_BUFFERS : Z := 8.

Inductive GoneReason := VmStopped | VmReset | GuestDisconnected | PumpFailed | BrokerStopping | ClaimAborted | TransportClosed.
Record GoneRecord := { reason : GoneReason; gone_detail : option bytes; replacement_generation : option Z; gone_retryable : bool }.
Record ErrorRecord := {
  code : bytes;
  error_detail : bytes;
  fatal : bool;
  retryable : bool;
  current_revision : option Z;
  current_generation : option Z;
}.

(** [io::Error], and what the text kept by [mark_terminal] says. *)
Inductive IoError :=
| Protocol (e : BridgeError)
| BrokenPipe (said : option Reason)
| WouldBlock
| TimedOut
| NotFound
| Unsupported
| OtherError
| UnexpectedEof
| Os (code : Z)
with Reason :=
| Said (e : IoError)
| ScopeMismatch (generation lease_id : Z)
| NotPresent
| DeviceGone (detail : option bytes) (why : GoneReason)
| BrokerSaid (code detail : bytes)
| Aborted
| ClosedByUser
| RequestTimedOut (k : RecordKind).

(** ** The shared state *)

Record QueueState := {
  packets : list bytes;
  closed : bool;
  error : option Reason;
  host_credits : Z;
  host_credit_limit : Z;
  inbound_generation : Z;
}.
#[export] Instance eta_queue : Eta QueueState := fun q =>
  Build_QueueState (packets q) (closed q) (error q) (host_credits q) (host_credit_limit q) (inbound_generation q).

(** [queue_cv], the condition variable, is the number of times it was notified: who
    waits on it remembers the number it began at.  [waiters] maps a request to its
    channel's sender; [channels] holds what was sent. *)
Record TransportState := {
  queue : QueueState;
  queue_cv : Z;
  waiters : gmap Z unit;
  channels : gmap Z RawRecord;
  device_present : bool;
  state_max_transfer_size : Z;
  queue_limit : Z;
  max_in_flight : Z;
  ts_packets_in : Z;
  packets_sent_to_broker : Z;
  ts_deferred_writes : Z;
  ts_idle_reads : Z;
  ts_reads_refused : Z;
  ts_queued_from_device : Z;
  ts_packets_to_device_received : Z;
  ts_packets_accepted_by_device : Z;
}.
#[export] Instance eta_state : Eta TransportState := fun s =>
  Build_TransportState (queue s) (queue_cv s) (waiters s) (channels s) (device_present s) (state_max_transfer_size s) (queue_limit s) (max_in_flight s)
    (ts_packets_in s) (packets_sent_to_broker s) (ts_deferred_writes s) (ts_idle_reads s) (ts_reads_refused s) (ts_queued_from_device s)
    (ts_packets_to_device_received s) (ts_packets_accepted_by_device s).

Definition new_state (credits device_credits max_transfer : Z) : TransportState :=
  {| queue := {| packets := []; closed := false; error := None; host_credits := credits; host_credit_limit := credits; inbound_generation := 0 |};
     queue_cv := 0; waiters := ∅; channels := ∅; device_present := true; state_max_transfer_size := max_transfer; queue_limit := device_credits;
     max_in_flight := Z.min GUEST_USB_READ_BUFFERS credits; ts_packets_in := 0; packets_sent_to_broker := 0; ts_deferred_writes := 0; ts_idle_reads := 0;
     ts_reads_refused := 0; ts_queued_from_device := 0; ts_packets_to_device_received := 0; ts_packets_accepted_by_device := 0 |}.

Definition is_closed (s : TransportState) : bool := closed (queue s).
Definition queue_len (s : TransportState) : Z := zlen (packets (queue s)).

Definition watchdog_snapshot (s : TransportState) : LinkWatchdogStats :=
  {| packets_in := ts_packets_in s; packets_out := ts_packets_accepted_by_device s; deferred_writes := ts_deferred_writes s;
     idle_reads := ts_idle_reads s; reads_refused := ts_reads_refused s; queued := ts_packets_to_device_received s |}.

(** A sender that is replaced is dropped: its receiver is disconnected. *)
Definition register_waiter (request : Z) (s : TransportState) : TransportState * res IoError unit :=
  (s <| waiters := <[request := tt]> (waiters s) |>,
   match waiters s !! request with Some _ => Err (Protocol InvalidData) | None => Ok tt end).

Definition remove_waiter (request : Z) (s : TransportState) : TransportState := s <| waiters := delete request (waiters s) |>.

Definition deliver_waiter (record : RawRecord) (s : TransportState) : TransportState * bool :=
  let request := request_id (header record) in
  match waiters s !! request with
  | None => (s, false)
  | Some _ => (s <| waiters := delete request (waiters s) |> <| channels := <[request := record]> (channels s) |>, true)
  end.

Definition notify_all (s : TransportState) : TransportState := s <| queue_cv := queue_cv s + 1 |>.

Definition add_host_credit (d : Z) (s : TransportState) : TransportState * res IoError unit :=
  let q := queue s in
  match checked_add 32 (host_credits q) d with
  | None => (s, Err (Protocol InvalidData))
  | Some next =>
      if host_credit_limit q <? next then (s, Err (Protocol InvalidData)) else
      (notify_all (s <| queue := q <| host_credits := next |> <| inbound_generation := wrapping_add 64 (inbound_generation q) 1 |> |>), Ok tt)
  end.

Definition outstanding (q : QueueState) : Z := saturating_sub (host_credit_limit q) (host_credits q).
Definition may_send (s : TransportState) : bool := negb (host_credits (queue s) =? 0) && (outstanding (queue s) <? max_in_flight s).
Definition unusable (s : TransportState) : bool := closed (queue s) || negb (device_present s).

Definition try_take_host_credit (s : TransportState) : TransportState * res IoError bool :=
  let q := queue s in
  if unusable s then (s <| ts_reads_refused := wrapping_add 64 (ts_reads_refused s) 1 |>, Err (BrokenPipe (error q))) else
  if may_send s then (s <| queue := q <| host_credits := host_credits q - 1 |> |>, Ok true)
  else (s <| ts_deferred_writes := wrapping_add 64 (ts_deferred_writes s) 1 |>, Ok false).

Definition has_host_credit (s : TransportState) : bool := if unusable s then true else may_send s.

Definition push_packet (packet : bytes) (s : TransportState) : TransportState * res IoError unit :=
  match validate_packet_from_device packet (state_max_transfer_size s) with
  | Err e => (s, Err (Protocol e))
  | Panic => (s, Panic)
  | Ok _ =>
      let q := queue s in
      if queue_limit s <=? zlen (packets q) then (s, Err (Protocol InvalidData)) else
      let q := q <| inbound_generation := wrapping_add 64 (inbound_generation q) 1 |> <| packets := packets q ++ [packet] |> in
      (notify_all (s <| queue := q |> <| ts_queued_from_device := wrap 32 (zlen (packets q)) |>), Ok tt)
  end.

(** [recv_packet] waits once on the condition variable, with the lock released,
    when there is nothing to do: whether it does, and the rest of it after the
    wait. *)
Definition recv_waits (s : TransportState) : bool := is_empty (packets (queue s)) && negb (closed (queue s)).

Definition recv_finish (timed_out : bool) (s : TransportState) : TransportState * res IoError (option bytes) :=
  let q := queue s in
  if timed_out && is_empty (packets q) then (s, Ok None) else
  match packets q with
  | packet :: rest => (s <| queue := q <| packets := rest |> |> <| ts_queued_from_device := wrap 32 (zlen rest) |>, Ok (Some packet))
  | [] => (s, if unusable s then Err (BrokenPipe (error q)) else Ok None)
  end.

(** [wait_for_inbound] returns at once, or waits for a notification later than the
    ones so far (or for its time to pass). *)
Definition wait_for_inbound (seen : Z) (s : TransportState) : option Z :=
  if negb (inbound_generation (queue s) =? seen) || closed (queue s) then None else Some (queue_cv s).

Definition notified (waiting : Z) (s : TransportState) : bool := waiting <? queue_cv s.

(** The steps of [mark_terminal]: the flag, the queue, the waiters. *)
Definition mark_presence (present : bool) (s : TransportState) : TransportState := s <| device_present := present |>.
Definition mark_closed (why : option Reason) (s : TransportState) : TransportState :=
  let q := queue s in
  notify_all (s <| queue := q <| closed := true |> <| error := match why with Some r => Some r | None => error q end |> |>).
Definition drop_waiters (s : TransportState) : TransportState := s <| waiters := ∅ |>.

Definition mark_terminal (why : option Reason) (present : bool) (s : TransportState) : TransportState :=
  drop_waiters (mark_closed why (mark_presence present s)).

(** [apply_broker_stats], but for the call of [mark_terminal] it may make: its
    argument is given back. *)
Definition apply_broker_stats (stats : StatsRecord) (s : TransportState) : TransportState * option Reason :=
  (s <| ts_packets_to_device_received := packets_to_device_received stats |> <| ts_packets_accepted_by_device := packets_accepted_by_device stats |>,
   if presence stats =? 0 then Some NotPresent else None).

(** ** Frames *)

(** What becomes of a write: all of it, or a part and an error. *)
Inductive Write := Written | Failed (bytes_written code : Z).

(** [write_frame]: what reaches the wire, and the result. *)
Definition write_frame (w : Write) (h : RecordHeader) (p : bytes) : bytes * res IoError unit :=
  match encode_record h p with
  | Ok frame => match w with Written => (frame, Ok tt) | Failed n code => (ztake n frame, Err (Os code)) end
  | Err e => ([], Err (Protocol e))
  | Panic => ([], Panic)
  end.

Definition protocol {A} (r : res BridgeError A) : res IoError A :=
  match r with Ok a => Ok a | Err e => Err (Protocol e) | Panic => Panic end.

(** The header of a frame of this session. *)
Definition session_header (k : RecordKind) (request gen lease : Z) : RecordHeader :=
  {| version := VERSION; kind := k; flags := 0; payload_len := 0; request_id := request; generation := gen; lease_id := lease |}.

Section Frames.
Context {gone_json : Json GoneRecord} {error_json : Json ErrorRecord}.

(** What handling a frame leaves: the state, what was written, the result, and the
    calls of [mark_terminal] it makes ([mark_terminal(why, false)] each). *)
Record Handled := { after : TransportState; written : bytes; ends : list (option Reason); result : res IoError unit }.

Definition plain (r : TransportState * res IoError unit) : Handled := {| after := fst r; written := []; ends := []; result := snd r |}.
Definition refused (s : TransportState) : Handled := plain (s, Err (Protocol InvalidData)).

(** The rest of a handler that needs a decoded payload. *)
Definition decoded {A} (s : TransportState) (r : res BridgeError A) (k : A -> Handled) : Handled :=
  match r with Ok a => k a | Err e => plain (s, Err (Protocol e)) | Panic => plain (s, Panic) end.

Definition deliver (s : TransportState) (frame : RawRecord) (ending : list (option Reason)) : Handled :=
  match deliver_waiter frame s with
  | (s, true) => {| after := s; written := []; ends := ending; result := Ok tt |}
  | (s, false) => refused s
  end.

Definition handle_packet_frame (w : Write) (s : TransportState) (frame : RawRecord) : Handled :=
  let h := header frame in
  let asked := negb (request_id h =? 0) in
  match kind h with
  | PacketFromDevice => if asked then refused s else plain (push_packet (payload frame) s)
  | Credit =>
      if asked then refused s else
      decoded s (decode_credit (payload frame)) (fun credit =>
        if negb (direction credit =? 1) then refused s else plain (add_host_credit (delta credit) s))
  | Stats =>
      if asked then refused s else
      decoded s (decode_stats (payload frame)) (fun stats =>
        let '(s, ending) := apply_broker_stats stats s in
        {| after := s; written := []; ends := match ending with Some r => [Some r] | None => [] end; result := Ok tt |})
  | Gone =>
      if asked then refused s else
      decoded s (decode_json (payload frame)) (fun gone : GoneRecord =>
        {| after := s; written := []; ends := [Some (DeviceGone (gone_detail gone) (reason gone))]; result := Ok tt |})
  | Ping =>
      if negb asked then refused s else
      decoded s (decode_ping_nonce (payload frame)) (fun nonce =>
        let '(out, r) := write_frame w (session_header Pong (request_id h) (generation h) (lease_id h)) (encode_ping_nonce nonce) in
        {| after := s; written := out; ends := []; result := r |})
  | Pong | BootContextKind | ApNonce | SepNonce | SignerPublicKey | FdrManifestSignatureKind =>
      if negb asked then refused s else deliver s frame []
  | Detached => if negb asked then refused s else deliver s frame [None]
  | Error =>
      if negb asked then
        decoded s (decode_json (payload frame)) (fun e : ErrorRecord =>
          {| after := s; written := []; ends := [Some (BrokerSaid (code e) (error_detail e))]; result := Ok tt |})
      else deliver s frame []
  | _ => refused s
  end.
End Frames.

(** ** The session *)

Record BridgeClaim := {
  claimed_device : bytes;
  claim_generation : Z;
  claim_lease : Z;
  claimed_kind : TransportKind;
  claim_out_max_packet_size : Z;
  claim_max_packet_size : Z;
  claim_max_transfer_size : Z;
  claim_host_credits : Z;
  claim_device_credits : Z;
}.

(** The thread of the link, inside [send] or [recv]. *)
Inductive LinkPc := LinkIdle | Sending (packet : bytes) | Receiving | Crediting (packet : bytes).

(** A control request: past the check that the session is open, registered under
    an identifier, written, or past its timeout. *)
Inductive RequestPc := Checked (k : RecordKind) (p : bytes) | Registered (id : Z) (k : RecordKind) (p : bytes) | Awaiting (id : Z) (k : RecordKind) | Expiring (id : Z) (k : RecordKind).

(** A call of [mark_terminal(why, false)] with some of its three steps to do. *)
Inductive Stage := Presence | Closing | Dropping.
Record Ending := { why : option Reason; stage : Stage }.

Record World := {
  shared : TransportState;
  wire : bytes;
  reading : bool;
  link : LinkPc;
  requests : gmap Z RequestPc;
  endings : list Ending;
  counter : Z;
}.
#[export] Instance eta_world : Eta World := fun w =>
  Build_World (shared w) (wire w) (reading w) (link w) (requests w) (endings w) (counter w).

(** What happens, as the callers see it. *)
Inductive Event :=
| Took (packet : bytes)
| SendReturned (packet : bytes) (r : res IoError unit)
| Waits
| Popped (packet : bytes)
| RecvReturned (r : res IoError (option bytes))
| Arrived (frame : RawRecord) (r : res IoError unit)
| StreamEnded
| Asking (thread : Z)
| Asked (thread id : Z) (k : RecordKind) (p : bytes)
| AskReturned (thread : Z) (r : res IoError RawRecord)
| Ends.

Definition begin_ending (r : option Reason) (w : World) : World := w <| endings := endings w ++ [{| why := r; stage := Presence |}] |>.


Definition connect (c : BridgeClaim) (first_request : Z) : res IoError World :=
  if (MAX_PACKET <? claim_max_packet_size c) || (MAX_PACKET_BYTES <? claim_max_packet_size c) then Err (Protocol InvalidData) else
  if (MAX_TRANSFER <? claim_max_transfer_size c) || (MAX_TRANSFER_BYTES <? claim_max_transfer_size c) then Err (Protocol InvalidData) else
  Ok {| shared := new_state (claim_host_credits c) (claim_device_credits c) (claim_max_transfer_size c); wire := []; reading := true;
        link := LinkIdle; requests := ∅; endings := []; counter := first_request |}.

Section Session.
Context {gone_json : Json GoneRecord} {error_json : Json ErrorRecord}.
Context (claim : BridgeClaim).

Definition own_header (k : RecordKind) (request : Z) : RecordHeader := session_header k request (claim_generation claim) (claim_lease claim).

(** [send], up to the credit, and its write. *)
Definition send_start (packet : bytes) (w : World) : World * Event :=
  match protocol (let? _ := validate_packet_to_device packet in refuse (claim_max_packet_size claim <? zlen packet) InvalidInput) with
  | Ok _ =>
      let '(s, r) := try_take_host_credit (shared w) in
      let w := w <| shared := s |> in
      match r with
      | Ok true => (w <| link := Sending packet |>, Took packet)
      | Ok false => (w, SendReturned packet (Err WouldBlock))
      | Err e => (w, SendReturned packet (Err e))
      | Panic => (w, SendReturned packet Panic)
      end
  | Err e => (w, SendReturned packet (Err e))
  | Panic => (w, SendReturned packet Panic)
  end.

Definition send_write (wr : Write) (packet : bytes) (w : World) : World * Event :=
  let '(out, r) := write_frame wr (own_header PacketToDevice 0) packet in
  let w := w <| wire := wire w ++ out |> <| link := LinkIdle |> in
  let s := shared w in
  match r with
  | Ok _ => (w <| shared := s <| packets_sent_to_broker := wrapping_add 64 (packets_sent_to_broker s) 1 |> |>, SendReturned packet r)
  | Err e => (begin_ending (Some (Said e)) w, SendReturned packet r)
  | Panic => (w, SendReturned packet r)
  end.

(** [recv]: [recv_packet], and the credit for the packet it gave. *)
Definition recv_end (timed_out : bool) (w : World) : World * Event :=
  let '(s, r) := recv_finish timed_out (shared w) in
  let w := w <| shared := s |> in
  match r with
  | Ok (Some packet) => (w <| link := Crediting packet |>, Popped packet)
  | Ok None => (w <| shared := s <| ts_idle_reads := wrapping_add 64 (ts_idle_reads s) 1 |> |> <| link := LinkIdle |>, RecvReturned (Ok None))
  | Err e => (w <| link := LinkIdle |>, RecvReturned (Err e))
  | Panic => (w <| link := LinkIdle |>, RecvReturned Panic)
  end.

Definition recv_start (w : World) : World * Event :=
  if recv_waits (shared w) then (w <| link := Receiving |>, Waits) else recv_end false w.

Definition one_credit : CreditRecord := {| direction := 2; delta := 1 |}.

Definition recv_credit (wr : Write) (packet : bytes) (w : World) : World * Event :=
  let w := w <| link := LinkIdle |> in
  match encode_credit one_credit with
  | Ok credit =>
      let '(out, r) := write_frame wr (own_header Credit 0) credit in
      let w := w <| wire := wire w ++ out |> in
      let s := shared w in
      match r with
      | Ok _ => (w <| shared := s <| ts_packets_in := wrapping_add 64 (ts_packets_in s) 1 |> <| ts_queued_from_device := wrap 32 (queue_len s) |> |>,
                 RecvReturned (Ok (Some packet)))
      | Err e => (begin_ending (Some (Said e)) w, RecvReturned (Err e))
      | Panic => (w, RecvReturned Panic)
      end
  | Err e => (w, RecvReturned (Err (Protocol e)))
  | Panic => (w, RecvReturned Panic)
  end.

(** One turn of [read_loop] for a frame that arrived. *)
Definition read_turn (wr : Write) (frame : RawRecord) (w : World) : World * Event :=
  let h := header frame in
  if negb (generation h =? claim_generation claim) || negb (lease_id h =? claim_lease claim)
  then ((begin_ending (Some (ScopeMismatch (generation h) (lease_id h))) w) <| reading := false |>, Arrived frame (Err (Protocol InvalidData))) else
  let done := handle_packet_frame wr (shared w) frame in
  let w := w <| shared := after done |> <| wire := wire w ++ written done |> in
  let w := foldl (fun w r => begin_ending r w) w (ends done) in
  match result done with
  | Err e => ((begin_ending (Some (Said e)) w) <| reading := false |>, Arrived frame (Err e))
  | r => (w <| reading := is_empty (ends done) && negb (is_closed (after done)) |>, Arrived frame r)
  end.

(** The stream ended, or reading it failed. *)
Definition read_end (r : option IoError) (w : World) : World := (begin_ending (Said <$> r) w) <| reading := false |>.

(** [send_request] *)
Definition ask (thread : Z) (k : RecordKind) (p : bytes) (w : World) : World * Event :=
  if is_closed (shared w) then (w, AskReturned thread (Err (BrokenPipe None)))
  else (w <| requests := <[thread := Checked k p]> (requests w) |>, Asking thread).

Definition forget (thread : Z) (w : World) : World := w <| requests := delete thread (requests w) |>.

(** [REQUEST_COUNTER.fetch_add(1).max(1)] *)
Definition next_request_id (w : World) : Z * World := (Z.max (counter w) 1, w <| counter := wrapping_add 64 (counter w) 1 |>).

Definition ask_register (thread : Z) (k : RecordKind) (p : bytes) (w : World) : World * Event :=
  let '(id, w) := next_request_id w in
  let '(s, r) := register_waiter id (shared w) in
  let w := w <| shared := s |> in
  match r with
  | Ok _ => (w <| requests := <[thread := Registered id k p]> (requests w) |>, Asking thread)
  | Err e => (forget thread w, AskReturned thread (Err e))
  | Panic => (forget thread w, AskReturned thread Panic)
  end.

Definition ask_write (wr : Write) (thread id : Z) (k : RecordKind) (p : bytes) (w : World) : World * Event :=
  let '(out, r) := write_frame wr (own_header k id) p in
  let w := w <| wire := wire w ++ out |> in
  match r with
  | Ok _ => (w <| requests := <[thread := Awaiting id k]> (requests w) |>, Asked thread id k p)
  | Err e => (begin_ending (Some (Said e)) (forget thread (w <| shared := remove_waiter id (shared w) |>)), AskReturned thread (Err e))
  | Panic => (forget thread w, AskReturned thread Panic)
  end.

(** The reply that is in the channel. *)
Definition ask_reply (thread id : Z) (record : RawRecord) (w : World) : World * Event :=
  (forget thread (w <| shared := (shared w) <| channels := delete id (channels (shared w)) |> |>), AskReturned thread (Ok record)).

Definition ask_expired (thread id : Z) (k : RecordKind) (w : World) : World * Event :=
  (begin_ending (Some (RequestTimedOut k)) (forget thread (w <| shared := remove_waiter id (shared w) |>)), AskReturned thread (Err TimedOut)).

Definition ask_disconnected (thread : Z) (w : World) : World * Event := (forget thread w, AskReturned thread (Err (BrokenPipe None))).

(** A step of a call of [mark_terminal]. *)
Definition end_step (i : nat) (e : Ending) (w : World) : World :=
  match stage e with
  | Presence => w <| shared := mark_presence false (shared w) |> <| endings := <[i := {| why := why e; stage := Closing |}]> (endings w) |>
  | Closing => w <| shared := mark_closed (why e) (shared w) |> <| endings := <[i := {| why := why e; stage := Dropping |}]> (endings w) |>
  | Dropping => w <| shared := drop_waiters (shared w) |> <| endings := delete i (endings w) |>
  end.

(** A frame as its types have it. *)
Definition frame_typed (f : RawRecord) : Prop :=
  is_bytes (payload f) /\ u64 (request_id (header f)) /\ u64 (generation (header f)) /\ u64 (lease_id (header f)).

(** The threads.  The link is driven by one thread, [send] and [recv] take
    [&mut self]; control handles are cloned freely. *)
Inductive step : World -> Event -> World -> Prop :=
| step_send packet w w' ev : link w = LinkIdle -> is_bytes packet -> send_start packet w = (w', ev) -> step w ev w'
| step_send_write wr packet w w' ev : link w = Sending packet -> send_write wr packet w = (w', ev) -> step w ev w'
| step_recv w w' ev : link w = LinkIdle -> recv_start w = (w', ev) -> step w ev w'
| step_recv_wakes timed_out w w' ev : link w = Receiving -> recv_end timed_out w = (w', ev) -> step w ev w'
| step_recv_credit wr packet w w' ev : link w = Crediting packet -> recv_credit wr packet w = (w', ev) -> step w ev w'
| step_read wr frame w w' ev : reading w = true -> frame_typed frame -> read_turn wr frame w = (w', ev) -> step w ev w'
| step_read_end r w : reading w = true -> step w StreamEnded (read_end r w)
| step_read_leaves w : reading w = true -> is_closed (shared w) = true -> step w Ends (w <| reading := false |>)
| step_ask thread k p w w' ev : requests w !! thread = None -> is_bytes p -> ask thread k p w = (w', ev) -> step w ev w'
| step_register thread k p w w' ev : requests w !! thread = Some (Checked k p) -> ask_register thread k p w = (w', ev) -> step w ev w'
| step_ask_write wr thread id k p w w' ev : requests w !! thread = Some (Registered id k p) -> ask_write wr thread id k p w = (w', ev) -> step w ev w'
| step_reply thread id k record w w' ev :
    requests w !! thread = Some (Awaiting id k) -> channels (shared w) !! id = Some record -> ask_reply thread id record w = (w', ev) -> step w ev w'
| step_timeout thread id k w :
    requests w !! thread = Some (Awaiting id k) -> channels (shared w) !! id = None ->
    step w (Asking thread) (w <| requests := <[thread := Expiring id k]> (requests w) |>)
| step_expired thread id k w w' ev : requests w !! thread = Some (Expiring id k) -> ask_expired thread id k w = (w', ev) -> step w ev w'
| step_disconnected thread id k w w' ev :
    requests w !! thread = Some (Awaiting id k) -> channels (shared w) !! id = None -> waiters (shared w) !! id = None ->
    ask_disconnected thread w = (w', ev) -> step w ev w'
| step_close r w : r ∈ [Some Aborted; Some ClosedByUser; None] -> step w Ends (begin_ending r w)
| step_end i e w : endings w !! i = Some e -> step w Ends (end_step i e w)
| step_elsewhere w : step w Ends (snd (next_request_id w)).

(** The runs of a session, with what happened. *)
Inductive runs (first_request : Z) : list Event -> World -> Prop :=
| runs_start w : connect claim first_request = Ok w -> runs first_request [] w
| runs_step tr w ev w' : runs first_request tr w -> step w ev w' -> runs first_request (tr ++ [ev]) w'.
End Session.
