(* ===== verification/BridgeSessionProps.v ===== *)
(** * The claimed session of the Restore Bridge: flow control, order and closing

    Invariants of the runs of [BridgeSession], by induction on the run. *)

From S2P Require Import Prelude Windows MuxFrame Watchdog Sha FatNames Der Bridge BridgeProps BridgeManb BridgeBoot BridgeSafety BridgeSession.
From stdpp Require Import base tactics numbers list option gmap.
From Stdlib Require Import ZArith Lia.

Open Scope Z_scope.

(** ** What a trace says *)

Definition took (ev : Event) : list bytes := match ev with Took p => [p] | _ => [] end.
Definition sent (ev : Event) : list bytes := match ev with SendReturned p (Ok _) => [p] | _ => [] end.
Definition popped (ev : Event) : list bytes := match ev with Popped p => [p] | _ => [] end.
Definition delivered (ev : Event) : list bytes := match ev with RecvReturned (Ok (Some p)) => [p] | _ => [] end.
(** Packets and credits the reader accepted. *)
Definition pushed (ev : Event) : list bytes :=
  match ev with Arrived f (Ok _) => if bool_decide (kind (header f) = PacketFromDevice) then [payload f] else [] | _ => [] end.
Definition credit_of (f : RawRecord) : Z := match decode_credit (payload f) with Ok c => delta c | _ => 0 end.
Definition returned (ev : Event) : Z :=
  match ev with Arrived f (Ok _) => if bool_decide (kind (header f) = Credit) then credit_of f else 0 | _ => 0 end.

Definition all {A} (f : Event -> list A) (tr : list Event) : list A := concat (map f tr).
Definition summed (f : Event -> Z) (tr : list Event) : Z := foldr Z.add 0 (map f tr).

Lemma all_snoc {A} (f : Event -> list A) tr ev : all f (tr ++ [ev]) = all f tr ++ f ev.
Proof. unfold all. rewrite map_app, concat_app. cbn. by rewrite app_nil_r. Qed.
Lemma summed_snoc f tr ev : summed f (tr ++ [ev]) = summed f tr + f ev.
Proof. unfold summed. induction tr as [|e tr IH]; cbn in *; lia. Qed.

(** The packet the link holds: taken a credit for, or off the queue. *)
Definition in_hand (l : LinkPc) : list bytes := match l with Crediting p => [p] | _ => [] end.
Definition on_the_way (l : LinkPc) : list bytes := match l with Sending p => [p] | _ => [] end.

(** ** The invariant *)

(** A claim as [claim_device] accepts it. *)
Record claim_ok (c : BridgeClaim) : Prop := {
  ck_generation : u64 (claim_generation c) /\ claim_generation c <> 0;
  ck_lease : u64 (claim_lease c) /\ claim_lease c <> 0;
  ck_host : 1 <= claim_host_credits c <= 256;
  ck_device : 1 <= claim_device_credits c <= 256;
}.

Record flow (c : BridgeClaim) (tr : list Event) (w : World) : Prop := {
  fl_limit : host_credit_limit (queue (shared w)) = claim_host_credits c;
  fl_queue_limit : queue_limit (shared w) = claim_device_credits c;
  fl_flight : max_in_flight (shared w) = Z.min GUEST_USB_READ_BUFFERS (claim_host_credits c);
  fl_transfer : state_max_transfer_size (shared w) = claim_max_transfer_size c;
  fl_credits : 0 <= host_credits (queue (shared w)) <= claim_host_credits c;
  fl_balance : zlen (all took tr) = summed returned tr + (claim_host_credits c - host_credits (queue (shared w)));
  fl_bound : claim_host_credits c - host_credits (queue (shared w)) <= Z.min GUEST_USB_READ_BUFFERS (claim_host_credits c);
  fl_order : all pushed tr = all popped tr ++ packets (queue (shared w));
  fl_room : zlen (packets (queue (shared w))) <= claim_device_credits c;
  fl_sent : sublist (all sent tr ++ on_the_way (link w)) (all took tr);
  fl_delivered : sublist (all delivered tr ++ in_hand (link w)) (all popped tr);
}.

(** States with the same credits, packets and limits. *)
Record same_flow (s s' : TransportState) : Prop := {
  sf_packets : packets (queue s') = packets (queue s);
  sf_credits : host_credits (queue s') = host_credits (queue s);
  sf_limit : host_credit_limit (queue s') = host_credit_limit (queue s);
  sf_queue_limit : queue_limit s' = queue_limit s;
  sf_flight : max_in_flight s' = max_in_flight s;
  sf_transfer : state_max_transfer_size s' = state_max_transfer_size s;
}.

Lemma same_flow_refl s : same_flow s s.
Proof. by split. Qed.
#[export] Hint Resolve same_flow_refl : core.

(** An event that says nothing of packets and credits. *)
Definition silent (ev : Event) : Prop :=
  took ev = [] /\ sent ev = [] /\ popped ev = [] /\ delivered ev = [] /\ pushed ev = [] /\ returned ev = 0.

Lemma flow_silent c tr w ev w' :
  flow c tr w -> same_flow (shared w) (shared w') -> silent ev ->
  sublist (on_the_way (link w')) (on_the_way (link w)) -> sublist (in_hand (link w')) (in_hand (link w)) -> flow c (tr ++ [ev]) w'.
Proof.
  intros [F1 F2 F3 F4 F5 F6 F7 F8 F9 F10 F11] [S1 S2 S3 S4 S5 S6] (E1&E2&E3&E4&E5&E6) Hw Hh.
  split; rewrite ?S1, ?S2, ?S3, ?S4, ?S5, ?S6, ?all_snoc, ?summed_snoc, ?E1, ?E2, ?E3, ?E4, ?E5, ?E6, ?app_nil_r, ?Z.add_0_r; try done.
  - etrans; [|exact F10]. by apply sublist_app.
  - etrans; [|exact F11]. by apply sublist_app.
Qed.

Lemma flow_quiet c tr w s' ev w' :
  flow c tr w -> same_flow (shared w) s' -> shared w' = s' -> link w' = link w -> silent ev -> flow c (tr ++ [ev]) w'.
Proof. intros Hf Hs <- Hl He. eapply flow_silent; [done|done|done|by rewrite Hl|by rewrite Hl]. Qed.

(** ** The steps of the link *)

Lemma foldl_ending rs : forall w, let w' := foldl (fun w r => begin_ending r w) w rs in
  shared w' = shared w /\ link w' = link w /\ wire w' = wire w /\ requests w' = requests w /\ reading w' = reading w.
Proof. induction rs as [|r rs IH]; intros w; [done|]. cbn [foldl]. destruct (IH (begin_ending r w)) as (->&->&->&->&->). done. Qed.

Lemma try_take_spec s :
  match try_take_host_credit s with
  | (s', Ok true) => may_send s = true /\ s' = s <| queue := (queue s) <| host_credits := host_credits (queue s) - 1 |> |>
  | (s', _) => same_flow s s'
  end.
Proof. unfold try_take_host_credit. destruct (unusable s); [by split|]. destruct (may_send s); [done|by split]. Qed.

Section Steps.
Context {gone_json : Json GoneRecord} {error_json : Json ErrorRecord}.
Context (c : BridgeClaim) (Hc : claim_ok c).

Lemma send_start_flow tr w p w' ev : flow c tr w -> link w = LinkIdle -> send_start c p w = (w', ev) -> flow c (tr ++ [ev]) w'.
Proof.
  intros Hf Hl. unfold send_start.
  assert (forall s e, same_flow (shared w) s -> sent (SendReturned p e) = [] -> flow c (tr ++ [SendReturned p e]) (w <| shared := s |>)) as Hsilent.
  { intros s e Hs He. eapply flow_silent; [done|done|by split_and!|done|done]. }
  assert (w = w <| shared := shared w |>) as Hw by (by destruct w).
  destruct (protocol _) as [[]|e|]; [|intros [= <- <-]; rewrite Hw; by apply Hsilent..].
  pose proof (try_take_spec (shared w)) as Ht. destruct (try_take_host_credit (shared w)) as [s [[]|e|]]; intros [= <- <-]; [|by apply Hsilent..].
  destruct Ht as [Hm ->]. unfold may_send, outstanding, saturating_sub in Hm. bools. destruct Hf as [F1 F2 F3 F4 F5 F6 F7 F8 F9 F10 F11]. rewrite F1, F3 in *.
  split; cbn [shared set_field queue host_credits host_credit_limit packets link queue_limit max_in_flight state_max_transfer_size];
    rewrite ?all_snoc, ?summed_snoc; cbn [took sent popped delivered pushed returned on_the_way in_hand]; rewrite ?app_nil_r, ?Z.add_0_r; try done; [lia| |lia| |].
  - rewrite zlen_app, zlen_cons, zlen_nil. lia.
  - rewrite Hl in F10. cbn in F10. rewrite app_nil_r in F10. by apply sublist_app.
  - rewrite Hl in F11. cbn in F11. by rewrite app_nil_r in F11.
Qed.

(** The packet on its way is sent, or lost with the session. *)
Lemma flow_link_done tr w ev w' :
  flow c tr w -> same_flow (shared w) (shared w') -> took ev = [] -> popped ev = [] -> pushed ev = [] -> returned ev = 0 ->
  sublist (sent ev ++ on_the_way (link w')) (on_the_way (link w)) -> sublist (delivered ev ++ in_hand (link w')) (in_hand (link w)) -> flow c (tr ++ [ev]) w'.
Proof.
  intros [F1 F2 F3 F4 F5 F6 F7 F8 F9 F10 F11] [S1 S2 S3 S4 S5 S6] E1 E2 E3 E4 Hs Hd.
  split; rewrite ?S1, ?S2, ?S3, ?S4, ?S5, ?S6, ?all_snoc, ?summed_snoc, ?E1, ?E2, ?E3, ?E4, ?app_nil_r, ?Z.add_0_r; try done; rewrite <- app_assoc.
  - etrans; [|exact F10]. by apply sublist_app.
  - etrans; [|exact F11]. by apply sublist_app.
Qed.

Lemma send_write_flow tr w wr p w' ev : flow c tr w -> link w = Sending p -> send_write c wr p w = (w', ev) -> flow c (tr ++ [ev]) w'.
Proof.
  intros Hf Hl. unfold send_write. destruct (write_frame _ _ _) as [out [[]|e|]]; intros [= <- <-];
    (eapply flow_link_done; [done|by split|done..| |]; rewrite Hl; cbn; [try done; apply sublist_nil_l|done]).
Qed.

Lemma recv_end_flow tr w timed_out w' ev : flow c tr w -> link w = LinkIdle \/ link w = Receiving -> recv_end timed_out w = (w', ev) -> flow c (tr ++ [ev]) w'.
Proof.
  intros Hf Hl. assert (on_the_way (link w) = [] /\ in_hand (link w) = []) as [Hw Hh] by (by destruct Hl as [-> | ->]). unfold recv_end, recv_finish.
  assert (forall w', same_flow (shared w) (shared w') -> link w' = LinkIdle -> forall r, delivered (RecvReturned r) = [] -> flow c (tr ++ [RecvReturned r]) w') as Hs.
  { intros w1 Hs1 Hl1 r Hr. eapply flow_silent; [done|done|by split_and!|by rewrite Hl1, Hw|by rewrite Hl1, Hh]. }
  destruct (_ && _); [intros [= <- <-]; by apply Hs|]. destruct (packets (queue (shared w))) as [|p rest] eqn:Ep.
  - destruct (unusable _); intros [= <- <-]; by apply Hs.
  - intros [= <- <-]. destruct Hf as [F1 F2 F3 F4 F5 F6 F7 F8 F9 F10 F11]. rewrite Ep in *.
    split; cbn [shared set_field queue host_credits host_credit_limit packets link queue_limit max_in_flight state_max_transfer_size];
      rewrite ?all_snoc, ?summed_snoc; cbn [took sent popped delivered pushed returned on_the_way in_hand]; rewrite ?app_nil_r, ?Z.add_0_r; try done.
    + by rewrite F8, <- app_assoc.
    + rewrite zlen_cons in F9. lia.
    + rewrite Hw, app_nil_r in F10. done.
    + rewrite Hh, app_nil_r in F11. by apply sublist_app.
Qed.

Lemma recv_start_flow tr w w' ev : flow c tr w -> link w = LinkIdle -> recv_start w = (w', ev) -> flow c (tr ++ [ev]) w'.
Proof.
  intros Hf Hl. unfold recv_start. destruct (recv_waits _); [|apply recv_end_flow; auto]. intros [= <- <-].
  eapply flow_silent; [done|by split|by split_and!|by rewrite Hl|by rewrite Hl].
Qed.

Lemma recv_credit_flow tr w wr p w' ev : flow c tr w -> link w = Crediting p -> recv_credit c wr p w = (w', ev) -> flow c (tr ++ [ev]) w'.
Proof.
  intros Hf Hl. unfold recv_credit. destruct (encode_credit _) as [b|e|]; [destruct (write_frame _ _ _) as [out [[]|e|]]|..]; intros [= <- <-];
    (eapply flow_link_done; [done|by split|done..| |]; rewrite Hl; cbn; [done|try done; apply sublist_nil_l]).
Qed.

(** ** The reader *)

(** What a frame that is accepted does to the queue and the credits. *)
Definition frame_effect (f : RawRecord) (s s' : TransportState) : Prop :=
  if bool_decide (kind (header f) = PacketFromDevice) then
    zlen (packets (queue s)) < queue_limit s /\ same_flow (s <| queue := (queue s) <| packets := packets (queue s) ++ [payload f] |> |>) s'
  else if bool_decide (kind (header f) = Credit) then
    host_credits (queue s) + credit_of f <= host_credit_limit (queue s) /\
    same_flow (s <| queue := (queue s) <| host_credits := host_credits (queue s) + credit_of f |> |>) s'
  else same_flow s s'.

Lemma push_packet_spec p s :
  match push_packet p s with
  | (s', Ok _) => zlen (packets (queue s)) < queue_limit s /\ same_flow (s <| queue := (queue s) <| packets := packets (queue s) ++ [p] |> |>) s'
  | (s', _) => s' = s
  end.
Proof.
  unfold push_packet. destruct (validate_packet_from_device _ _) as [[]| |]; [|done..]. destruct (Z.leb_spec (queue_limit s) (zlen (packets (queue s)))); [done|].
  by split; [|split].
Qed.

Lemma add_host_credit_spec d s :
  match add_host_credit d s with
  | (s', Ok _) => host_credits (queue s) + d <= host_credit_limit (queue s) /\ same_flow (s <| queue := (queue s) <| host_credits := host_credits (queue s) + d |> |>) s'
  | (s', _) => s' = s
  end.
Proof.
  unfold add_host_credit, checked_add. destruct (_ <? _); [|done]. destruct (Z.ltb_spec (host_credit_limit (queue s)) (host_credits (queue s) + d)); [done|]. by split; [|split].
Qed.

Lemma deliver_waiter_flow f s : same_flow s (fst (deliver_waiter f s)).
Proof. unfold deliver_waiter. by destruct (waiters s !! _); split. Qed.

Lemma deliver_flow s f rs : same_flow s (after (deliver s f rs)).
Proof. pose proof (deliver_waiter_flow f s). unfold deliver. by destruct (deliver_waiter f s) as [s' []]. Qed.

(** The kinds whose handling leaves queue and credits alone. *)
Lemma handle_other wr s f : kind (header f) <> PacketFromDevice -> kind (header f) <> Credit -> same_flow s (after (handle_packet_frame wr s f)).
Proof.
  intros H1 H2. unfold handle_packet_frame, decoded, refused, plain. destruct (kind (header f)) eqn:E; try done; destruct (negb _); cbn [negb]; try done;
    try apply deliver_flow; try (destruct (decode_json _); done); try (by destruct (decode_stats _); split).
  destruct (decode_ping_nonce _); try done. by destruct (write_frame _ _ _).
Qed.

Lemma handle_effect wr s f :
  let done := handle_packet_frame wr s f in
  match result done with Ok _ => frame_effect f s (after done) | _ => same_flow s (after done) end.
Proof.
  cbv zeta. unfold frame_effect. destruct (decide (kind (header f) = PacketFromDevice)) as [E|N1]; [|destruct (decide (kind (header f) = Credit)) as [E|N2]].
  - rewrite bool_decide_eq_true_2 by done. unfold handle_packet_frame. rewrite E. destruct (negb _); [done|]. cbn [plain after result].
    pose proof (push_packet_spec (payload f) s) as Hp. by destruct (push_packet _ _) as [s' [[]| |]]; cbn; [|subst..].
  - rewrite bool_decide_eq_false_2, bool_decide_eq_true_2 by congruence. unfold handle_packet_frame, decoded, credit_of. rewrite E. destruct (negb _); [done|].
    destruct (decode_credit (payload f)) as [cr| |]; [|done..]. destruct (negb _); [done|]. cbn [plain after result].
    pose proof (add_host_credit_spec (delta cr) s) as Hp. by destruct (add_host_credit _ _) as [s' [[]| |]]; cbn; [|subst..].
  - rewrite !bool_decide_eq_false_2 by done. pose proof (handle_other wr s f N1 N2). by destruct (result _).
Qed.

Lemma credit_of_nonneg f : is_bytes (payload f) -> 0 <= credit_of f.
Proof.
  intros Hb. unfold credit_of. destruct (decode_credit (payload f)) as [cr| |] eqn:E; [|done..]. unfold decode_credit in E.
  destruct (refuse _ _); [|done..]. cbn [res_bind] in E. destruct (slice _ _ _); [|done..]. cbn [res_bind] in E. destruct (refuse _ _); [|done..]. cbn [res_bind] in E.
  destruct (index _ _); [|done..]. cbn [res_bind] in E. destruct (be_at _ _ _) as [d| |] eqn:Ed; [|done..]. cbn [res_bind] in E. destruct (refuse _ _); [|done..].
  injection E as <-. cbn. by apply be_at_inv in Ed as [? _].
Qed.

Lemma frame_flow tr w f s' w' : is_bytes (payload f) -> flow c tr w -> frame_effect f (shared w) s' -> shared w' = s' -> link w' = link w -> flow c (tr ++ [Arrived f (Ok tt)]) w'.
Proof.
  intros Hb Hf He Hs Hl. pose proof (credit_of_nonneg f Hb). unfold frame_effect in He. destruct (decide (kind (header f) = PacketFromDevice)) as [E|N1]; [|destruct (decide (kind (header f) = Credit)) as [E|N2]].
  - rewrite bool_decide_eq_true_2 in He by done. destruct He as [Hr [S1 S2 S3 S4 S5 S6]], Hf as [F1 F2 F3 F4 F5 F6 F7 F8 F9 F10 F11]. rewrite <- Hs in *. cbn in S1, S2, S3, S4, S5, S6.
    split; rewrite ?S1, ?S2, ?S3, ?S4, ?S5, ?S6, ?Hl, ?all_snoc, ?summed_snoc; cbn [took sent popped delivered pushed returned]; rewrite ?E; cbn; rewrite ?app_nil_r, ?Z.add_0_r; try done.
    + by rewrite F8, app_assoc.
    + rewrite zlen_app, zlen_cons, zlen_nil. lia.
  - rewrite bool_decide_eq_false_2, bool_decide_eq_true_2 in He by congruence. destruct He as [Hr [S1 S2 S3 S4 S5 S6]], Hf as [F1 F2 F3 F4 F5 F6 F7 F8 F9 F10 F11]. rewrite <- Hs in *. cbn in S1, S2, S3, S4, S5, S6.
    split; rewrite ?S1, ?S2, ?S3, ?S4, ?S5, ?S6, ?Hl, ?all_snoc, ?summed_snoc; cbn [took sent popped delivered pushed returned]; rewrite ?E; cbn; rewrite ?app_nil_r; try done; [lia| |lia]. rewrite bool_decide_eq_true_2 by done. lia.
  - rewrite !bool_decide_eq_false_2 in He by done. eapply flow_silent; [done|by rewrite Hs| |by rewrite Hl|by rewrite Hl].
    unfold silent. cbn [took sent popped delivered pushed returned]. by rewrite !bool_decide_eq_false_2.
Qed.

Lemma read_turn_flow tr w wr f w' ev : is_bytes (payload f) -> flow c tr w -> read_turn c wr f w = (w', ev) -> flow c (tr ++ [ev]) w'.
Proof.
  intros Hb Hf. unfold read_turn. destruct (_ || _); [intros [= <- <-]; eapply flow_silent; [done|by split|by split_and!|done|done]|].
  pose proof (handle_effect wr (shared w) f) as He. cbv zeta in He. set (dn := handle_packet_frame wr (shared w) f) in *.
  set (w1 := w <| shared := after dn |> <| wire := wire w ++ written dn |>). destruct (foldl_ending (ends dn) w1) as (H1&H2&_). cbv zeta in H1, H2.
  destruct (result dn) as [[]|e|]; intros [= <- <-].
  - by eapply frame_flow.
  - eapply flow_quiet; [done|exact He|exact H1|exact H2|by split_and!].
  - eapply flow_quiet; [done|exact He|exact H1|exact H2|by split_and!].
Qed.

(** ** Every step *)

Ltac quiet := eapply flow_quiet; [eassumption| |reflexivity|reflexivity|by split_and!]; by split.

Lemma step_flow tr w ev w' : flow c tr w -> step c w ev w' -> flow c (tr ++ [ev]) w'.
Proof.
  intros Hf Hs. destruct Hs as [p w w' ev Hl _ Hs|wr p w w' ev Hl Hs|w w' ev Hl Hs|timed_out w w' ev Hl Hs|wr p w w' ev Hl Hs|wr f w w' ev _ [Hb _] Hs|r w _|w _ _
    |th k p w w' ev _ _ Hs|th k p w w' ev _ Hs|wr th id k p w w' ev _ Hs|th id k rec w w' ev _ _ Hs|th id k w _ _|th id k w w' ev _ Hs|th id k w w' ev _ _ _ Hs|r w _|i e w _|w].
  - by eapply send_start_flow.
  - by eapply send_write_flow.
  - by eapply recv_start_flow.
  - eapply recv_end_flow; [done|by right|done].
  - by eapply recv_credit_flow.
  - by eapply read_turn_flow.
  - quiet.
  - quiet.
  - revert Hs. unfold ask. destruct (is_closed _); intros [= <- <-]; quiet.
  - revert Hs. unfold ask_register, next_request_id, register_waiter. destruct (waiters _ !! _); intros [= <- <-]; quiet.
  - revert Hs. unfold ask_write. destruct (write_frame _ _ _) as [out [[]| |]]; intros [= <- <-]; quiet.
  - injection Hs as <- <-. quiet.
  - quiet.
  - injection Hs as <- <-. quiet.
  - injection Hs as <- <-. quiet.
  - quiet.
  - unfold end_step. destruct (stage e); quiet.
  - quiet.
Qed.

Lemma connect_flow first w : connect c first = Ok w -> flow c [] w.
Proof.
  unfold connect. destruct (_ || _); [done|]. destruct (_ || _); [done|]. intros [= <-]. destruct (ck_host _ Hc), (ck_device _ Hc).
  split; try done; cbn [shared queue host_credits packets new_state]; change (zlen _) with 0; change (summed _ _) with 0; unfold GUEST_USB_READ_BUFFERS; lia.
Qed.

Lemma runs_flow first tr w : runs c first tr w -> flow c tr w.
Proof. induction 1; [by eapply connect_flow|by eapply step_flow]. Qed.
End Steps.

(** ** The wire *)

(** The record an event put on the wire. *)
Definition written_by (c : BridgeClaim) (ev : Event) : list (RecordHeader * bytes) :=
  match ev with
  | SendReturned p (Ok _) => [(own_header c PacketToDevice 0, p)]
  | RecvReturned (Ok (Some _)) => [(own_header c Credit 0, [2; 0; 0; 0; 0; 0; 0; 1])]
  | Arrived f (Ok _) =>
      let h := header f in
      if bool_decide (kind h = Ping) then [(session_header Pong (request_id h) (generation h) (lease_id h), payload f)] else []
  | Asked _ id k p => [(own_header c k id, p)]
  | _ => []
  end.

Definition write_failed (ev : Event) : bool :=
  match ev with SendReturned _ (Err (Os _)) | RecvReturned (Err (Os _)) | Arrived _ (Err (Os _)) | AskReturned _ (Err (Os _)) => true | _ => false end.
Definition intact (tr : list Event) : Prop := Forall (fun ev => write_failed ev = false) tr.

(** What the threads hold is as their types and checks have it. *)
Definition request_typed (r : RequestPc) : Prop :=
  match r with Checked _ p => is_bytes p | Registered id _ p => is_bytes p /\ u64 id | Awaiting id _ | Expiring id _ => u64 id end.
Definition link_typed (l : LinkPc) : Prop := match l with Sending p => is_bytes p /\ validate_packet_to_device p = Ok tt | _ => True end.

Record typed (w : World) : Prop := {
  ty_counter : u64 (counter w);
  ty_requests : map_Forall (fun _ r => request_typed r) (requests w);
  ty_link : link_typed (link w);
}.

Lemma write_frame_ok wr h p out : write_frame wr h p = (out, Ok tt) -> encode_record h p = Ok out.
Proof. unfold write_frame. destruct (encode_record h p); [|done..]. destruct wr; [|done]. by intros [= <-]. Qed.

Lemma write_frame_err wr h p out e : write_frame wr h p = (out, Err e) -> (exists code, e = Os code) \/ (exists b, encode_record h p = Err b /\ out = [] /\ e = Protocol b).
Proof. unfold write_frame. destruct (encode_record h p) as [f|b|]; [destruct wr; [done|]; intros [= _ <-]; left; eauto|intros [= <- <-]; right; eauto|done]. Qed.

Lemma write_frame_panic wr h p out : write_frame wr h p = (out, Panic) -> False.
Proof. unfold write_frame. pose proof (encode_record_no_panic h p). destruct (encode_record h p); [by destruct wr|done|done]. Qed.

Section Wire.
Context {gone_json : Json GoneRecord} {error_json : Json ErrorRecord}.
Context (c : BridgeClaim) (Hc : claim_ok c).

(** Frames of the session that the checks let through encode. *)
Lemma scope_nonzero : (claim_generation c =? 0) || (claim_lease c =? 0) = false.
Proof. destruct (ck_generation _ Hc), (ck_lease _ Hc). by rewrite !(proj2 (Z.eqb_neq _ _)). Qed.

Lemma packet_encodes p : validate_packet_to_device p = Ok tt -> exists frame, encode_record (own_header c PacketToDevice 0) p = Ok frame.
Proof.
  intros Hv. assert (zlen p <= MAX_PACKET_BYTES) as Hz.
  { unfold validate_packet_to_device in Hv. destruct (refuse _ _) as [[]| |] eqn:E; [|done..]. apply refuse_ok in E. bools. done. }
  unfold encode_record, validate_record_header, own_header, session_header. cbn [version flags kind request_id generation lease_id].
  rewrite scope_nonzero. unfold MAX_PACKET_BYTES in *. cbn [Z.eqb negb refuse res_bind VERSION].
  change (refuse (negb (VERSION =? VERSION)) InvalidInput) with (Ok (E := BridgeError) tt). cbn [res_bind payload_limit].
  rewrite (proj2 (Z.ltb_lt (zlen p) _)), (proj2 (Z.ltb_ge _ (zlen p))) by (unfold MAX_PACKET_BYTES; lia). cbn [negb refuse res_bind validate_record_payload].
  rewrite Hv. cbn [res_bind]. eauto.
Qed.

Lemma credit_encodes : encode_credit one_credit = Ok [2; 0; 0; 0; 0; 0; 0; 1] /\ exists frame, encode_record (own_header c Credit 0) [2; 0; 0; 0; 0; 0; 0; 1] = Ok frame.
Proof.
  split; [done|]. unfold encode_record, validate_record_header, own_header, session_header. cbn [version flags kind request_id generation lease_id].
  rewrite scope_nonzero. eexists. reflexivity.
Qed.

Lemma own_encodes k id p out : u64 id -> is_bytes p -> encode_record (own_header c k id) p = Ok out -> encodes (own_header c k id, p) out.
Proof. intros Hi Hp He. split; [done|apply Hc|apply Hc|done|done]. Qed.

Record wired (tr : list Event) (w : World) : Prop := {
  wd_wire : exists encs, Forall2 encodes (all (written_by c) tr) encs /\ wire w = concat encs;
  wd_sent : all sent tr ++ on_the_way (link w) = all took tr;
  wd_delivered : all delivered tr ++ in_hand (link w) = all popped tr;
}.

Lemma wired_add tr w ev w' encs :
  wired tr w -> Forall2 encodes (written_by c ev) encs -> wire w' = wire w ++ concat encs ->
  sent ev ++ on_the_way (link w') = on_the_way (link w) ++ took ev -> delivered ev ++ in_hand (link w') = in_hand (link w) ++ popped ev ->
  wired (tr ++ [ev]) w'.
Proof.
  intros [(old&He&Hw) Hs Hd] Hn Hw' Hs' Hd'. split; rewrite ?all_snoc, <- ?app_assoc.
  - exists (old ++ encs). rewrite concat_app, <- Hw. split; [by apply Forall2_app|done].
  - by rewrite Hs', app_assoc, Hs.
  - by rewrite Hd', app_assoc, Hd.
Qed.

(** Nothing written, nothing changed hands. *)
Lemma wired_quiet tr w ev w' : wired tr w -> written_by c ev = [] -> silent ev -> wire w' = wire w -> link w' = link w -> wired (tr ++ [ev]) w'.
Proof.
  intros Hw Hn (E1&E2&E3&E4&_) Hw' Hl. eapply (wired_add _ _ _ _ []); [done|by rewrite Hn|by rewrite app_nil_r|..]; rewrite ?E1, ?E2, ?E3, ?E4, Hl; by rewrite app_nil_r.
Qed.

(** What handling a frame writes. *)
Lemma handle_written wr s f :
  frame_typed f -> let done := handle_packet_frame wr s f in
  match result done with
  | Ok _ => exists encs, Forall2 encodes (written_by c (Arrived f (Ok tt))) encs /\ written done = concat encs
  | Err (Os _) => True
  | _ => written done = []
  end.
Proof.
  intros (Hb&Hr&Hg&Hl). cbv zeta. unfold written_by. destruct (decide (kind (header f) = Ping)) as [E|N].
  - rewrite bool_decide_eq_true_2 by done. unfold handle_packet_frame, decoded, refused, plain. rewrite E. destruct (negb (negb _)); [done|].
    unfold decode_ping_nonce. destruct (refuse _ _) as [[]|e|] eqn:Ez; [|done..]. apply refuse_ok in Ez. bools. cbn [res_bind]. unfold encode_ping_nonce.
    rewrite be_bytes_be_val by (done || (unfold zlen in Ez; lia)). destruct (write_frame _ _ _) as [out r] eqn:Ew. cbn [result written]. destruct r as [[]|e|].
    + apply write_frame_ok in Ew. exists [out]. split; [constructor; [by split|constructor]|cbn; by rewrite app_nil_r].
    + apply write_frame_err in Ew as [(code0&->)|(b&_&->&->)]; done.
    + by apply write_frame_panic in Ew.
  - rewrite bool_decide_eq_false_2 by done.
    assert (written (handle_packet_frame wr s f) = []) as ->; [|destruct (result _) as [| []|]; eauto using Forall2_nil]. clear -N.
    unfold handle_packet_frame, decoded, refused, plain, deliver. destruct (kind (header f)); try done; destruct (negb _); cbn [negb]; try done;
      try (by destruct (decode_json _)); try (by destruct (decode_stats _)); try (by destruct (deliver_waiter f s) as [? []]).
    destruct (decode_credit _) as [cr| |]; try done. by destruct (negb _).
Qed.

Lemma send_start_cases p w w' ev : send_start c p w = (w', ev) ->
  wire w' = wire w /\ requests w' = requests w /\ counter w' = counter w /\
  ((link w' = Sending p /\ ev = Took p /\ validate_packet_to_device p = Ok tt) \/ (link w' = link w /\ exists r, ev = SendReturned p r /\ r <> Ok tt)).
Proof.
  unfold send_start. destruct (protocol _) as [[]|e|] eqn:Ep; [|intros [= <- <-]; split_and!; try done; right; split; [done|eexists; split; [done|done]]..].
  assert (validate_packet_to_device p = Ok tt) as Hv by (by destruct (validate_packet_to_device p) as [[]| |]).
  destruct (try_take_host_credit (shared w)) as [s [[]|e|]]; intros [= <- <-]; split_and!; try done; [by left|right; split; [done|eexists; split; [done|done]]..].
Qed.

Lemma recv_end_cases timed_out w w' ev : recv_end timed_out w = (w', ev) ->
  wire w' = wire w /\ requests w' = requests w /\ counter w' = counter w /\
  ((exists p, link w' = Crediting p /\ ev = Popped p) \/ (link w' = LinkIdle /\ exists r, ev = RecvReturned r /\ forall p, r <> Ok (Some p))).
Proof.
  unfold recv_end. destruct (recv_finish _ _) as [s [[p|]|e|]]; intros [= <- <-]; split_and!; try done; [left; by exists p|right; split; [done|by eexists]..].
Qed.

Lemma typed_same w w' : typed w -> counter w' = counter w -> requests w' = requests w -> link_typed (link w') -> typed w'.
Proof. intros [T1 T2 T3] E1 E2 E3. split; by rewrite ?E1, ?E2. Qed.

Lemma typed_request w w' th r : typed w -> u64 (counter w') -> requests w' = <[th := r]> (requests w) -> request_typed r -> link w' = link w -> typed w'.
Proof. intros [T1 T2 T3] E1 E2 Hr E3. split; [done|rewrite E2; by apply map_Forall_insert_2|by rewrite E3]. Qed.

Lemma typed_forget w w' th : typed w -> u64 (counter w') -> requests w' = delete th (requests w) -> link w' = link w -> typed w'.
Proof. intros [T1 T2 T3] E1 E2 E3. split; [done|rewrite E2; by apply map_Forall_delete|by rewrite E3]. Qed.

Lemma next_counter w : u64 (wrapping_add 64 (counter w) 1).
Proof. apply Z.mod_pos_bound. lia. Qed.

Lemma read_turn_frame wr f w w' ev : read_turn c wr f w = (w', ev) -> requests w' = requests w /\ counter w' = counter w /\ link w' = link w.
Proof.
  assert (forall rs w, counter (foldl (fun w r => begin_ending r w) w rs) = counter w) as Hcount by (induction rs as [|r rs IH]; intros ?; [done|cbn [foldl]; by rewrite IH]).
  unfold read_turn. destruct (_ || _); [by intros [= <- <-]|]. set (dn := handle_packet_frame _ _ _). set (w1 := w <| shared := _ |> <| wire := _ |>).
  destruct (foldl_ending (ends dn) w1) as (_&H2&_&H4&_). cbv zeta in H2, H4. specialize (Hcount (ends dn) w1).
  destruct (result dn); intros [= <- <-]; (split_and!; [exact H4|exact Hcount|exact H2]).
Qed.

Lemma step_typed w ev w' : typed w -> step c w ev w' -> typed w'.
Proof.
  intros Ht Hs. pose proof (ty_requests _ Ht) as Hq. destruct Hs as [p w w' ev Hl Hb Hs|wr p w w' ev Hl Hs|w w' ev Hl Hs|timed_out w w' ev Hl Hs|wr p w w' ev Hl Hs|wr f w w' ev _ _ Hs|r w _|w _ _
    |th k p w w' ev _ Hb Hs|th k p w w' ev Hth Hs|wr th id k p w w' ev Hth Hs|th id k rec w w' ev _ _ Hs|th id k w Hth _|th id k w w' ev Hth Hs|th id k w w' ev _ _ _ Hs|r w _|i e w _|w].
  - apply send_start_cases in Hs as (_&E1&E2&[(E3&_&Hv)|(E3&_)]); (eapply typed_same; [done|done|done|]); rewrite E3; [done|by rewrite Hl].
  - revert Hs. unfold send_write. destruct (write_frame _ _ _) as [out [[]| |]]; intros [= <- <-]; by eapply typed_same.
  - revert Hs. unfold recv_start. destruct (recv_waits _); [intros [= <- <-]; by eapply typed_same|]. intros Hs.
    apply recv_end_cases in Hs as (_&E1&E2&[(p&E3&_)|(E3&_)]); (eapply typed_same; [done|done|done|]); by rewrite E3.
  - apply recv_end_cases in Hs as (_&E1&E2&[(p&E3&_)|(E3&_)]); (eapply typed_same; [done|done|done|]); by rewrite E3.
  - revert Hs. unfold recv_credit. destruct (encode_credit _); [destruct (write_frame _ _ _) as [out [[]| |]]|..]; intros [= <- <-]; by eapply typed_same.
  - apply read_turn_frame in Hs as (E1&E2&E3). eapply typed_same; [done|done|done|]. rewrite E3. apply Ht.
  - eapply typed_same; [done|done|done|apply Ht].
  - eapply typed_same; [done|done|done|apply Ht].
  - revert Hs. unfold ask. destruct (is_closed _); intros [= <- <-]; [done|]. eapply typed_request; [done|apply Ht|done|exact Hb|done].
  - specialize (Hq _ _ Hth). revert Hs. unfold ask_register, next_request_id, register_waiter. pose proof (ty_counter _ Ht) as H64. unfold in_range in H64.
    destruct (waiters _ !! _); intros [= <- <-]; [eapply typed_forget; [done|apply next_counter|done|done]|].
    eapply typed_request; [done|apply next_counter|done|split; [exact Hq|unfold in_range; lia]|done].
  - specialize (Hq _ _ Hth). revert Hs. unfold ask_write. destruct (write_frame _ _ _) as [out [[]| |]]; intros [= <- <-].
    + eapply typed_request; [done|apply Ht|done|apply Hq|done].
    + eapply typed_forget; [done|apply Ht|done|done].
    + eapply typed_forget; [done|apply Ht|done|done].
  - injection Hs as <- <-. eapply typed_forget; [done|apply Ht|done|done].
  - specialize (Hq _ _ Hth). eapply typed_request; [done|apply Ht|done|apply Hq|done].
  - injection Hs as <- <-. eapply typed_forget; [done|apply Ht|done|done].
  - injection Hs as <- <-. eapply typed_forget; [done|apply Ht|done|done].
  - eapply typed_same; [done|done|done|apply Ht].
  - unfold end_step. destruct (stage e); (eapply typed_same; [done|done|done|apply Ht]).
  - eapply typed_same; [|done..|]. all: try apply Ht. split; [apply next_counter|apply Ht|apply Ht].
Qed.

Lemma recv_end_wired tr timed_out w w' ev : wired tr w -> link w = LinkIdle \/ link w = Receiving -> recv_end timed_out w = (w', ev) -> wired (tr ++ [ev]) w'.
Proof.
  intros Hd Hl Hs. assert (on_the_way (link w) = [] /\ in_hand (link w) = []) as [Hw Hh] by (by destruct Hl as [-> | ->]).
  apply recv_end_cases in Hs as (E1&_&_&[(p&E3&->)|(E3&r&->&Hr)]); (eapply (wired_add _ _ _ _ []); [done| |by rewrite app_nil_r|by rewrite E3, Hw|]).
  - constructor.
  - by rewrite E3, Hh.
  - cbn. destruct r as [[p|]| |]; [by destruct (Hr p)|constructor..].
  - rewrite E3, Hh. cbn. destruct r as [[p|]| |]; [by destruct (Hr p)|done..].
Qed.

Lemma read_turn_wired tr wr f w w' ev : frame_typed f -> wired tr w -> write_failed ev = false -> read_turn c wr f w = (w', ev) -> wired (tr ++ [ev]) w'.
Proof.
  intros Hf Hd Hi. unfold read_turn. destruct (_ || _); [intros [= <- <-]; by eapply wired_quiet|].
  pose proof (handle_written wr (shared w) f Hf) as Hh. cbv zeta in Hh. set (dn := handle_packet_frame wr (shared w) f) in *.
  set (w1 := w <| shared := after dn |> <| wire := wire w ++ written dn |>). destruct (foldl_ending (ends dn) w1) as (_&H2&H3&_). cbv zeta in H2, H3.
  destruct (result dn) as [[]|e|]; intros [= <- <-].
  - destruct Hh as (encs&He&Hw). eapply wired_add; [done|exact He|rewrite <- Hw; exact H3|..]; cbn [sent took delivered popped app]; rewrite app_nil_r; f_equal; exact H2.
  - assert (written dn = []) as Hn by (by destruct e). eapply wired_quiet; [done|done|by split_and!| |exact H2]. etrans; [exact H3|]. cbn. by rewrite Hn, app_nil_r.
  - eapply wired_quiet; [done|done|by split_and!| |exact H2]. etrans; [exact H3|]. cbn. by rewrite Hh, app_nil_r.
Qed.

Ltac still := eapply wired_quiet; [eassumption|done|by split_and!|done|done].

Lemma step_wired tr w ev w' : typed w -> wired tr w -> write_failed ev = false -> step c w ev w' -> wired (tr ++ [ev]) w'.
Proof.
  intros Ht Hd Hi Hs. pose proof (ty_requests _ Ht) as Hq. pose proof (ty_link _ Ht) as Hlt.
  destruct Hs as [p w w' ev Hl Hb Hs|wr p w w' ev Hl Hs|w w' ev Hl Hs|timed_out w w' ev Hl Hs|wr p w w' ev Hl Hs|wr f w w' ev _ Hf Hs|r w _|w _ _
    |th k p w w' ev _ Hb Hs|th k p w w' ev Hth Hs|wr th id k p w w' ev Hth Hs|th id k rec w w' ev _ _ Hs|th id k w Hth _|th id k w w' ev Hth Hs|th id k w w' ev _ _ _ Hs|r w _|i e w _|w].
  - apply send_start_cases in Hs as (E1&_&_&[(E3&->&Hv)|(E3&r&->&Hr)]).
    + eapply (wired_add _ _ _ _ []); [done|constructor|by rewrite app_nil_r|by rewrite E3, Hl|by rewrite E3, Hl].
    + eapply wired_quiet; [done| | |done|done]; [|split_and!; try done]; destruct r as [[]| |]; done.
  - rewrite Hl in Hlt. destruct Hlt as [Hb Hv]. destruct (packet_encodes p Hv) as [frame Hfr]. revert Hs. unfold send_write.
    destruct (write_frame _ _ _) as [out [[]|e|]] eqn:Ew; intros [= <- <-].
    + apply write_frame_ok in Ew. eapply (wired_add _ _ _ _ [out]); [done|constructor; [by apply own_encodes|constructor]|cbn; by rewrite app_nil_r|by rewrite Hl|by rewrite Hl].
    + apply write_frame_err in Ew as [(code0&->)|(b&Hb'&_)]; [done|congruence].
    + by apply write_frame_panic in Ew.
  - revert Hs. unfold recv_start. destruct (recv_waits _); [|apply recv_end_wired; auto]. intros [= <- <-].
    eapply (wired_add _ _ _ _ []); [done|constructor|by rewrite app_nil_r|by rewrite Hl|by rewrite Hl].
  - eapply recv_end_wired; [done|by right|done].
  - revert Hs. destruct credit_encodes as [Hcr [frame Hfr]]. unfold recv_credit. rewrite Hcr. destruct (write_frame _ _ _) as [out [[]|e|]] eqn:Ew; intros [= <- <-].
    + apply write_frame_ok in Ew. eapply (wired_add _ _ _ _ [out]); [done|constructor; [apply own_encodes; [done|vm_compute; repeat constructor; discriminate|done]|constructor]|cbn; by rewrite app_nil_r|by rewrite Hl|by rewrite Hl].
    + apply write_frame_err in Ew as [(code0&->)|(b&Hb'&_)]; [done|congruence].
    + by apply write_frame_panic in Ew.
  - by eapply read_turn_wired.
  - still.
  - still.
  - revert Hs. unfold ask. destruct (is_closed _); intros [= <- <-]; still.
  - revert Hs. unfold ask_register, next_request_id, register_waiter. destruct (waiters _ !! _); intros [= <- <-]; still.
  - specialize (Hq _ _ Hth) as [Hb Hid]. revert Hs. unfold ask_write. destruct (write_frame _ _ _) as [out [[]|e|]] eqn:Ew; intros [= <- <-].
    + apply write_frame_ok in Ew. eapply (wired_add _ _ _ _ [out]); [done|constructor; [by apply own_encodes|constructor]|cbn; by rewrite app_nil_r|cbn; by rewrite app_nil_r|cbn; by rewrite app_nil_r].
    + apply write_frame_err in Ew as [(code0&->)|(b&Hb'&->&->)]; [done|]. eapply wired_quiet; [done|done|by split_and!|cbn; by rewrite app_nil_r|done].
    + by apply write_frame_panic in Ew.
  - injection Hs as <- <-. still.
  - still.
  - injection Hs as <- <-. still.
  - injection Hs as <- <-. still.
  - still.
  - unfold end_step. destruct (stage e); still.
  - still.
Qed.

Lemma connect_typed first w : u64 first -> connect c first = Ok w -> typed w /\ wired [] w.
Proof.
  intros Hf. unfold connect. destruct (_ || _); [done|]. destruct (_ || _); [done|]. intros [= <-]. split; split; try done. exists []. split; [constructor|done].
Qed.

Lemma runs_wired first tr w : u64 first -> runs c first tr w -> typed w /\ (intact tr -> wired tr w).
Proof.
  intros Hf. induction 1 as [w Hw|tr w ev w' Hr [Ht IH] Hs].
  - destruct (connect_typed _ _ Hf Hw). auto.
  - split; [by eapply step_typed|]. intros [Hi Hev]%Forall_app. apply Forall_cons in Hev as [Hev _]. eapply step_wired; eauto.
Qed.
End Wire.
