(* ===== verification/BridgeGuarantees.v ===== *)
(** * The claimed session of the Restore Bridge: what it guarantees

    Flow control in both directions, the order of packets, what the broker reads,
    what closing does, and which reply a request gets. *)

From S2P Require Import Prelude Windows MuxFrame Watchdog Bridge BridgeProps BridgeSession BridgeSessionProps.
From stdpp Require Import base tactics numbers list option gmap.
From Stdlib Require Import ZArith Lia.

Open Scope Z_scope.

Section Guarantees.
Context {gone_json : Json GoneRecord} {error_json : Json ErrorRecord}.
Implicit Types (c : BridgeClaim) (tr : list Event) (w : World).

(** C3. The guest has eight read buffers: the packets sent are never more than eight
    ahead of the credits the broker returned, nor more than it granted; a credit
    is taken for each packet before it is written, and the counter never leaves its
    range. *)
Theorem flight_bounded c first tr w : claim_ok c -> runs c first tr w ->
  zlen (all sent tr) <= zlen (all took tr) /\ zlen (all took tr) = summed returned tr + outstanding (queue (shared w)) /\
  outstanding (queue (shared w)) <= Z.min GUEST_USB_READ_BUFFERS (claim_host_credits c) /\
  0 <= host_credits (queue (shared w)) <= claim_host_credits c.
Proof.
  intros Hc Hr. destruct (runs_flow c Hc _ _ _ Hr) as [F1 _ _ _ F5 F6 F7 _ _ F10 _]. unfold outstanding, saturating_sub. rewrite F1, Z.max_l by lia.
  split_and!; [|done|done|lia|lia]. apply sublist_length in F10. rewrite length_app in F10. unfold zlen. lia.
Qed.

(** C4. Packets from the device reach the link in the order they arrived, none twice
    and none left out, and no more wait than the client gave credit for; while no
    write has failed, every packet taken off the queue is delivered. *)
Theorem packets_in_order c first tr w : claim_ok c -> u64 first -> runs c first tr w ->
  all pushed tr = all popped tr ++ packets (queue (shared w)) /\ zlen (packets (queue (shared w))) <= claim_device_credits c /\
  sublist (all delivered tr) (all popped tr) /\ (intact tr -> all delivered tr ++ in_hand (link w) = all popped tr).
Proof.
  intros Hc Hu Hr. destruct (runs_flow c Hc _ _ _ Hr) as [_ _ _ _ _ _ _ F8 F9 _ F11]. split_and!; [done|done| |].
  - etrans; [|exact F11]. by apply sublist_inserts_r.
  - intros Hi. destruct (runs_wired c Hc _ _ _ Hu Hr) as [_ Hw]. apply (Hw Hi).
Qed.

(** A frame with a packet for this session. *)
Record packet_frame c (f : RawRecord) : Prop := {
  pf_kind : kind (header f) = PacketFromDevice;
  pf_request : request_id (header f) = 0;
  pf_scope : generation (header f) = claim_generation c /\ lease_id (header f) = claim_lease c;
  pf_size : 0 < zlen (payload f) <= Z.min (claim_max_transfer_size c) MAX_TRANSFER_BYTES;
}.

Lemma credited_room c first tr w : claim_ok c -> runs c first tr w ->
  zlen (all pushed tr) < claim_device_credits c + zlen (all delivered tr) -> zlen (packets (queue (shared w))) < claim_device_credits c.
Proof.
  intros Hc Hr Hb. destruct (runs_flow c Hc _ _ _ Hr) as [_ _ _ _ _ _ _ F8 _ _ F11]. apply sublist_length in F11. rewrite length_app in F11.
  rewrite F8, zlen_app in Hb. unfold zlen in *. lia.
Qed.

(** C15. A broker that keeps to its credits, one packet for each credit granted at the
    beginning or returned with a packet delivered, is never refused: its packet
    goes to the end of the queue. *)
Theorem honest_broker c first tr w wr f w' ev : claim_ok c -> runs c first tr w -> packet_frame c f ->
  zlen (all pushed tr) < claim_device_credits c + zlen (all delivered tr) -> read_turn c wr f w = (w', ev) ->
  ev = Arrived f (Ok tt) /\ packets (queue (shared w')) = packets (queue (shared w)) ++ [payload f] /\ endings w' = endings w.
Proof.
  intros Hc Hr [K1 K2 [K3 K4] K5] Hb. pose proof (credited_room _ _ _ _ Hc Hr Hb) as Hroom. destruct (runs_flow c Hc _ _ _ Hr) as [_ F2 _ F4 _ _ _ _ _ _ _].
  unfold read_turn. rewrite K3, K4, !Z.eqb_refl. cbn [negb orb]. unfold handle_packet_frame. rewrite K1, K2. cbn [Z.eqb negb]. unfold push_packet.
  assert (validate_packet_from_device (payload f) (state_max_transfer_size (shared w)) = Ok tt) as ->.
  { unfold validate_packet_from_device. apply refuse_ok. rewrite F4. unfold is_empty. rewrite !orb_false_iff, Z.eqb_neq, !Z.ltb_ge. lia. }
  rewrite F2, (proj2 (Z.leb_gt _ _)) by done. cbn [plain fst snd after written ends result foldl]. intros [= <- <-]. done.
Qed.

(** ** Closing *)

Inductive steps c w : list Event -> World -> Prop :=
| steps_nil : steps c w [] w
| steps_snoc tr w1 ev w2 : steps c w tr w1 -> step c w1 ev w2 -> steps c w (tr ++ [ev]) w2.

Lemma handle_closed wr s f : is_closed (after (handle_packet_frame wr s f)) = is_closed s.
Proof.
  unfold handle_packet_frame, decoded, refused, plain, deliver, deliver_waiter. destruct (kind (header f)); try done; destruct (negb _); cbn [negb]; try done;
    try (by destruct (decode_json _)); try (by destruct (decode_stats _)); try (by destruct (waiters s !! _)).
  - unfold push_packet. destruct (validate_packet_from_device _ _); try done. by destruct (_ <=? _).
  - destruct (decode_credit _) as [cr| |]; try done. destruct (negb _); [done|]. unfold add_host_credit. destruct (checked_add _ _ _); [|done]. by destruct (_ <? _).
  - destruct (decode_ping_nonce _); try done. by destruct (write_frame _ _ _).
Qed.

Lemma send_start_closed c p w w' ev : is_closed (shared w) = true -> link w = LinkIdle -> send_start c p w = (w', ev) ->
  is_closed (shared w') = true /\ took ev = [] /\ sent ev = [] /\ link w' = LinkIdle.
Proof.
  intros Hx Hl. unfold send_start. destruct (protocol _); [|by intros [= <- <-]..]. unfold try_take_host_credit, unusable. unfold is_closed in Hx. rewrite Hx. cbn [orb].
  by intros [= <- <-].
Qed.

Lemma recv_end_closed timed_out w w' ev : is_closed (shared w) = true -> recv_end timed_out w = (w', ev) ->
  is_closed (shared w') = true /\ took ev = [] /\ sent ev = [] /\ on_the_way (link w') = [].
Proof.
  intros Hx. unfold recv_end, recv_finish. destruct (_ && _); [by intros [= <- <-]|]. destruct (packets _); [|by intros [= <- <-]]. destruct (unusable _); by intros [= <- <-].
Qed.

Lemma read_turn_closed c wr f w w' ev : is_closed (shared w) = true -> read_turn c wr f w = (w', ev) ->
  is_closed (shared w') = true /\ took ev = [] /\ sent ev = [] /\ link w' = link w.
Proof.
  intros Hx. unfold read_turn. destruct (_ || _); [by intros [= <- <-]|]. pose proof (handle_closed wr (shared w) f) as Hh. set (dn := handle_packet_frame wr (shared w) f) in *.
  set (w1 := w <| shared := after dn |> <| wire := wire w ++ written dn |>). destruct (foldl_ending (ends dn) w1) as (H1&H2&_). cbv zeta in H1, H2.
  assert (is_closed (shared (foldl (fun w r => begin_ending r w) w1 (ends dn))) = true) as Hx' by (rewrite H1; by etrans).
  destruct (result dn); intros [= <- <-]; split_and!; try done; try exact Hx'; exact H2.
Qed.

Lemma step_closed c w ev w' : is_closed (shared w) = true -> step c w ev w' ->
  is_closed (shared w') = true /\ took ev = [] /\ sublist (sent ev ++ on_the_way (link w')) (on_the_way (link w)).
Proof.
  intros Hx Hs. destruct Hs as [p w w' ev Hl Hb Hs|wr p w w' ev Hl Hs|w w' ev Hl Hs|timed_out w w' ev Hl Hs|wr p w w' ev Hl Hs|wr f w w' ev _ Hf Hs|r w _|w _ _
    |th k p w w' ev _ Hb Hs|th k p w w' ev Hth Hs|wr th id k p w w' ev Hth Hs|th id k rec w w' ev _ _ Hs|th id k w Hth _|th id k w w' ev Hth Hs|th id k w w' ev _ _ _ Hs|r w _|i e w _|w].
  - apply send_start_closed in Hs as (?&?&E&E'); [|done|done]. split_and!; [done|done|]. by rewrite E, E', Hl.
  - revert Hs. unfold send_write. destruct (write_frame _ _ _) as [out [[]| |]]; intros [= <- <-]; (split_and!; [done|done|]); rewrite Hl; [done|apply sublist_nil_l..].
  - revert Hs. unfold recv_start, recv_waits. unfold is_closed in Hx. rewrite Hx, andb_false_r. intros Hs.
    apply recv_end_closed in Hs as (?&?&E&E'); [|done]. split_and!; [done|done|]. rewrite E, E'. apply sublist_nil_l.
  - apply recv_end_closed in Hs as (?&?&E&E'); [|done]. split_and!; [done|done|]. rewrite E, E'. apply sublist_nil_l.
  - revert Hs. unfold recv_credit. destruct (encode_credit _); [destruct (write_frame _ _ _) as [out [[]| |]]|..]; intros [= <- <-]; (split_and!; [done|done|]); apply sublist_nil_l.
  - apply read_turn_closed in Hs as (?&?&E&E'); [|done]. split_and!; [done|done|]. by rewrite E, E'.
  - done.
  - done.
  - revert Hs. unfold ask. rewrite Hx. by intros [= <- <-].
  - revert Hs. unfold ask_register, next_request_id, register_waiter. by destruct (waiters _ !! _); intros [= <- <-].
  - revert Hs. unfold ask_write. by destruct (write_frame _ _ _) as [out [[]| |]]; intros [= <- <-].
  - by injection Hs as <- <-.
  - done.
  - by injection Hs as <- <-.
  - by injection Hs as <- <-.
  - done.
  - unfold end_step. by destruct (stage e).
  - done.
Qed.

(** C29. Closing is final: whatever the threads go on to do, the session stays closed,
    no credit is taken, and no packet is sent but the one whose credit was taken
    before; a receive does not wait, but gives the packets that are left and then
    the error. *)
Theorem closing_is_final c w tr w' : is_closed (shared w) = true -> steps c w tr w' ->
  is_closed (shared w') = true /\ all took tr = [] /\ sublist (all sent tr) (on_the_way (link w)) /\
  snd (recv_start w') = match packets (queue (shared w')) with p :: _ => Popped p | [] => RecvReturned (Err (BrokenPipe (error (queue (shared w'))))) end.
Proof.
  intros Hx Hs. assert (is_closed (shared w') = true /\ all took tr = [] /\ sublist (all sent tr ++ on_the_way (link w')) (on_the_way (link w))) as (H1&H2&H3).
  { induction Hs as [|tr w1 ev w2 Hs (H1&H2&H3) Hst]; [done|]. destruct (step_closed _ _ _ _ H1 Hst) as (E1&E2&E3). rewrite !all_snoc, H2, E2.
    split_and!; [done|done|]. etrans; [|exact H3]. rewrite <- app_assoc. by apply sublist_app. }
  split_and!; [done|done|etrans; [|exact H3]; by apply sublist_inserts_r|]. unfold recv_start, recv_waits, recv_end, recv_finish, unusable, is_closed in *.
  rewrite H1. cbn [negb orb]. rewrite andb_false_r. cbn [andb]. by destruct (packets (queue (shared w'))).
Qed.

(** ** Waking *)

(** The arrivals that are told to who waits. *)
Definition tells (ev : Event) : Z :=
  match ev with
  | Arrived f (Ok _) => if bool_decide (kind (header f) = PacketFromDevice) || bool_decide (kind (header f) = Credit) then 1 else 0
  | _ => 0
  end.

(** [n] arrivals: the generation counts them, and they and the closing are notified. *)
Record told (n : Z) (s s' : TransportState) : Prop := {
  td_generation : wrap 64 (inbound_generation (queue s')) = wrap 64 (inbound_generation (queue s) + n);
  td_notified : queue_cv s + n <= queue_cv s';
  td_closed : is_closed s' = is_closed s \/ queue_cv s < queue_cv s';
}.

Lemma told_same s s' : inbound_generation (queue s') = inbound_generation (queue s) -> queue_cv s' = queue_cv s -> is_closed s' = is_closed s -> told 0 s s'.
Proof. intros E1 E2 E3. split; rewrite ?E1, ?E2, ?E3, ?Z.add_0_r; [done|lia|by left]. Qed.

Lemma told_trans n m s s' s'' : 0 <= n -> 0 <= m -> told n s s' -> told m s' s'' -> told (n + m) s s''.
Proof.
  intros Hn Hm [A1 A2 A3] [B1 B2 B3]. split; [|lia|].
  - rewrite B1. unfold wrap in *. by rewrite <- Zplus_mod_idemp_l, A1, Zplus_mod_idemp_l, Z.add_assoc.
  - destruct A3 as [A3|A3], B3 as [B3|B3]; [left; congruence|right; lia..].
Qed.

Lemma handle_other_told wr s f : kind (header f) <> PacketFromDevice -> kind (header f) <> Credit -> told 0 s (after (handle_packet_frame wr s f)).
Proof.
  intros N1 N2. unfold handle_packet_frame, decoded, refused, plain, deliver, deliver_waiter. destruct (kind (header f)); try done; try destruct (negb _); cbn [negb];
    try (by apply told_same); try (destruct (decode_json _); by apply told_same); try (destruct (decode_stats _); by apply told_same);
    try (destruct (waiters s !! _); by apply told_same). destruct (decode_ping_nonce _); [destruct (write_frame _ _ _)|..]; by apply told_same.
Qed.

Lemma told_one s q n : inbound_generation q = wrapping_add 64 (inbound_generation (queue s)) 1 -> closed q = closed (queue s) ->
  told 1 s (notify_all (s <| queue := q |> <| ts_queued_from_device := n |>)).
Proof.
  intros E1 E2. split; cbn [notify_all set_field queue queue_cv]; [|lia|by left]. rewrite E1. unfold wrapping_add. apply wrap_idemp.
Qed.

Lemma handle_told wr s f :
  let done := handle_packet_frame wr s f in told (tells (Arrived f (result done))) s (after done).
Proof.
  assert (told 0 s s) as Hs by (by apply told_same). cbv zeta.
  destruct (decide (kind (header f) = PacketFromDevice)) as [E|N1]; [|destruct (decide (kind (header f) = Credit)) as [E|N2]].
  - unfold handle_packet_frame, tells. rewrite E. destruct (negb _); [exact Hs|]. cbn [plain after result]. unfold push_packet.
    destruct (validate_packet_from_device _ _); [|exact Hs..]. destruct (_ <=? _); [exact Hs|]. by apply told_one.
  - unfold handle_packet_frame, decoded, tells. rewrite E. destruct (negb _); [exact Hs|]. destruct (decode_credit _) as [cr| |]; [|exact Hs..].
    destruct (negb _); [exact Hs|]. cbn [plain after result]. unfold add_host_credit. destruct (checked_add _ _ _); [|exact Hs]. destruct (_ <? _); [exact Hs|].
    by apply (told_one s _ (ts_queued_from_device s)).
  - pose proof (handle_other_told wr s f N1 N2) as H. unfold tells. rewrite !bool_decide_eq_false_2 by done. by destruct (result _).
Qed.

Lemma recv_end_told b w w' ev : recv_end b w = (w', ev) -> told (tells ev) (shared w) (shared w').
Proof.
  unfold recv_end, recv_finish. destruct (_ && _); [intros [= <- <-]; by apply told_same|]. destruct (packets _); [|intros [= <- <-]; by apply told_same].
  destruct (unusable _); intros [= <- <-]; by apply told_same.
Qed.

Lemma steps_runs c first tr w tr' w' : runs c first tr w -> steps c w tr' w' -> exists tr'', runs c first tr'' w'.
Proof. intros Hr Hs. induction Hs as [|tr' w1 ev w2 _ [tr'' IH] Hst]; [by eexists|]. eexists. by eapply runs_step. Qed.

Lemma decoded_credit_positive p cr : decode_credit p = Ok cr -> delta cr <> 0.
Proof.
  intros Ed. unfold decode_credit in Ed. destruct (refuse _ _); [|done..]. cbn [res_bind] in Ed. destruct (slice _ _ _); [|done..]. cbn [res_bind] in Ed. destruct (refuse _ _); [|done..].
  cbn [res_bind] in Ed. destruct (index _ _); [|done..]. cbn [res_bind] in Ed. destruct (be_at _ _ _) as [d| |]; [|done..]. cbn [res_bind] in Ed.
  destruct (refuse _ _) as [[]| |] eqn:Er; [|done..]. apply refuse_ok, orb_false_iff in Er as [_ Er]. injection Ed as <-. by apply Z.eqb_neq.
Qed.

Lemma step_told c w ev w' : step c w ev w' -> told (tells ev) (shared w) (shared w').
Proof.
  intros Hs. destruct Hs as [p w w' ev Hl Hb Hs|wr p w w' ev Hl Hs|w w' ev Hl Hs|timed_out w w' ev Hl Hs|wr p w w' ev Hl Hs|wr f w w' ev _ Hf Hs|r w _|w _ _
    |th k p w w' ev _ Hb Hs|th k p w w' ev Hth Hs|wr th id k p w w' ev Hth Hs|th id k rec w w' ev _ _ Hs|th id k w Hth _|th id k w w' ev Hth Hs|th id k w w' ev _ _ _ Hs|r w _|i e w _|w];
    try (by apply told_same).
  - revert Hs. unfold send_start. destruct (protocol _); [|intros [= <- <-]; by apply told_same..]. unfold try_take_host_credit.
    destruct (unusable _); [intros [= <- <-]; by apply told_same|]. destruct (may_send _); intros [= <- <-]; by apply told_same.
  - revert Hs. unfold send_write. destruct (write_frame _ _ _) as [out [[]| |]]; intros [= <- <-]; by apply told_same.
  - assert (forall b, recv_end b w = (w', ev) -> told (tells ev) (shared w) (shared w')) as He by (intros b; apply recv_end_told).
    revert Hs. unfold recv_start. destruct (recv_waits _); [intros [= <- <-]; by apply told_same|apply He].
  - by eapply recv_end_told.
  - revert Hs. unfold recv_credit. destruct (encode_credit _); [destruct (write_frame _ _ _) as [out [[]| |]]|..]; intros [= <- <-]; by apply told_same.
  - revert Hs. unfold read_turn. destruct (_ || _); [intros [= <- <-]; by apply told_same|]. pose proof (handle_told wr (shared w) f) as Hh. cbv zeta in Hh.
    set (dn := handle_packet_frame wr (shared w) f) in *. set (w1 := w <| shared := after dn |> <| wire := wire w ++ written dn |>).
    destruct (foldl_ending (ends dn) w1) as (H1&_). cbv zeta in H1.
    destruct (result dn); intros [= <- <-]; cbn [shared set_field begin_ending]; rewrite H1; exact Hh.
  - revert Hs. unfold ask. destruct (is_closed _); intros [= <- <-]; by apply told_same.
  - revert Hs. unfold ask_register, next_request_id, register_waiter. destruct (waiters _ !! _); intros [= <- <-]; by apply told_same.
  - revert Hs. unfold ask_write. destruct (write_frame _ _ _) as [out [[]| |]]; intros [= <- <-]; by apply told_same.
  - injection Hs as <- <-. by apply told_same.
  - injection Hs as <- <-. by apply told_same.
  - injection Hs as <- <-. by apply told_same.
  - unfold end_step. destruct (stage e); cbn [tells]; try (by apply told_same). split; cbn [shared set_field mark_closed notify_all queue queue_cv inbound_generation]; rewrite ?Z.add_0_r; [done|lia|right; lia].
Qed.

Lemma steps_told c w tr w' : steps c w tr w' -> told (summed tells tr) (shared w) (shared w') /\ 0 <= summed tells tr <= zlen tr.
Proof.
  induction 1 as [|tr w1 ev w2 Hs [IH1 IH2] Hst]; [split; [by apply told_same|done]|]. rewrite summed_snoc, zlen_app. change (zlen [ev]) with 1.
  assert (0 <= tells ev <= 1) as He by (unfold tells; repeat case_match; lia). split; [|lia].
  eapply told_trans; [lia|lia|exact IH1|by eapply step_told].
Qed.

(** C30. A sender that was refused for want of credit is not left waiting.  It noted
    the generation at [w] and comes to wait at [w1], in whatever way the other
    threads have gone on; if between [w] and [w2], before the wait or during it, a
    packet or a credit was accepted, or if the session is closed at [w2], the wait
    returned at once or has been notified.  And a credit that is accepted makes
    room for a packet. *)
Theorem credit_wakes c first tr w tr1 w1 tr2 w2 : claim_ok c -> runs c first tr w -> steps c w tr1 w1 -> steps c w1 tr2 w2 ->
  zlen (tr1 ++ tr2) < 2 ^ 64 ->
  (0 < summed tells (tr1 ++ tr2) \/ is_closed (shared w2) = true ->
   match wait_for_inbound (inbound_generation (queue (shared w))) (shared w1) with
   | None => True
   | Some waiting => notified waiting (shared w2) = true
   end) /\
  (forall wr f w3, frame_typed f -> kind (header f) = Credit -> read_turn c wr f w2 = (w3, Arrived f (Ok tt)) -> has_host_credit (shared w3) = true).
Proof.
  intros Hc Hr Hs1 Hs2 Hlen. split.
  - destruct (steps_told _ _ _ _ Hs1) as [[A1 A2 A3] A4], (steps_told _ _ _ _ Hs2) as [[B1 B2 B3] B4]. unfold wait_for_inbound.
    rewrite zlen_app in Hlen. destruct (_ || _) eqn:E; [done|]. apply orb_false_iff in E as [E1 E2]. bools. unfold notified. intros H. apply Z.ltb_lt.
    assert (summed tells (tr1 ++ tr2) = summed tells tr1 + summed tells tr2) as Hsum.
    { unfold summed. rewrite map_app. clear. induction (map tells tr1) as [|x l IH]; cbn in *; lia. }
    destruct H as [H|H].
    + assert (summed tells tr1 = 0); [|lia]. rewrite E1 in A1. unfold wrap in A1. set (n := summed tells tr1) in *. set (g := inbound_generation (queue (shared w))) in *.
      assert ((g + n - g) mod 2 ^ 64 = 0) as Hz by (rewrite Zminus_mod, <- A1, Z.sub_diag; done). replace (g + n - g) with n in Hz by lia. rewrite Z.mod_small in Hz by lia. done.
    + destruct B3 as [B3|B3]; [|done]. unfold is_closed in *. congruence.
  - intros wr f w3 [Hb _] Hk Hturn. assert (exists tr', runs c first tr' w2) as [tr' Hr2] by (destruct (steps_runs _ _ _ _ _ _ Hr Hs1) as [? Hr1]; by eapply steps_runs).
    pose proof (runs_flow c Hc _ _ _ Hr2) as [F1 _ F3 _ F5 _ F7 _ _ _ _]. revert Hturn. unfold read_turn.
    destruct (_ || _); [done|]. unfold handle_packet_frame. rewrite Hk. destruct (negb _); [done|]. destruct (decode_credit (payload f)) as [cr| |] eqn:Ed; [|done..]. cbn [decoded].
    destruct (negb (direction cr =? 1)); [done|]. unfold add_host_credit, checked_add. destruct (_ <? 2 ^ 32); [|done].
    destruct (Z.ltb_spec (host_credit_limit (queue (shared w2))) (host_credits (queue (shared w2)) + delta cr)) as [|Hle]; [done|].
    cbn [plain fst snd result ends foldl after written]. intros [= <-]. pose proof (decoded_credit_positive _ _ Ed) as Hd.
    pose proof (credit_of_nonneg f Hb) as H0. unfold credit_of in H0. rewrite Ed in H0.
    unfold has_host_credit, may_send, outstanding, saturating_sub. cbn [shared set_field queue notify_all host_credits host_credit_limit max_in_flight]. destruct (unusable _); [done|].
    rewrite F1, F3 in *. apply andb_true_iff. rewrite negb_true_iff, Z.eqb_neq, Z.ltb_lt. lia.
Qed.

(** ** The other end *)

(** C5. While no write has failed, the broker, reading the stream in whatever pieces
    it comes, takes off it exactly the records that the session wrote, in order:
    the packets sent, a credit for each packet delivered, the answers to pings and
    the requests. *)
Theorem broker_reads c first tr w chunks : claim_ok c -> u64 first -> runs c first tr w -> intact tr -> concat chunks = wire w ->
  exists a, feed empty_assembler chunks = Some (a, Ok (map raw_record (all (written_by c) tr))) /\ pending a = [].
Proof.
  intros Hc Hu Hr Hi Hw. destruct (runs_wired c Hc _ _ _ Hu Hr) as [_ Hd]. destruct (Hd Hi) as [(encs&He&Hwire) _ _].
  apply (records_roundtrip (all (written_by c) tr) encs); [done|congruence].
Qed.

(** ** Replies *)

Definition reply_kind (k : RecordKind) : bool :=
  match k with Pong | BootContextKind | ApNonce | SepNonce | SignerPublicKey | FdrManifestSignatureKind | Detached | Error => true | _ => false end.

Record matched tr w : Prop := {
  mt_channel id r : channels (shared w) !! id = Some r -> request_id (header r) = id /\ reply_kind (kind (header r)) = true /\ Arrived r (Ok tt) ∈ tr;
  mt_asked th id k : requests w !! th = Some (Awaiting id k) -> exists p, Asked th id k p ∈ tr;
}.

Lemma deliver_channels s f rs :
  channels (after (deliver s f rs)) = channels s \/
  (channels (after (deliver s f rs)) = <[request_id (header f) := f]> (channels s) /\ result (deliver s f rs) = Ok tt).
Proof. unfold deliver, deliver_waiter. destruct (waiters s !! _); [by right|by left]. Qed.

Lemma handle_channels wr s f : let done := handle_packet_frame wr s f in
  channels (after done) = channels s \/
  (channels (after done) = <[request_id (header f) := f]> (channels s) /\ result done = Ok tt /\ reply_kind (kind (header f)) = true).
Proof.
  cbv zeta. unfold handle_packet_frame, decoded, refused, plain. pose proof (deliver_channels s f) as Hd. destruct (kind (header f)); try (by left); destruct (negb _); cbn [negb]; try (by left);
    try (destruct (decode_json _); by left); try (destruct (decode_stats _); by left); try (destruct (Hd []); naive_solver); try (destruct (Hd [None]); naive_solver).
  - left. unfold push_packet. destruct (validate_packet_from_device _ _); try done. by destruct (_ <=? _).
  - left. destruct (decode_credit _) as [cr| |]; try done. destruct (negb _); [done|]. unfold add_host_credit. destruct (checked_add _ _ _); [|done]. by destruct (_ <? _).
  - left. destruct (decode_ping_nonce _); try done. by destruct (write_frame _ _ _).
Qed.

(** Requests that wait were asked before, or just now. *)
Definition asked_now (ev : Event) (old new : gmap Z RequestPc) : Prop :=
  forall th id k, new !! th = Some (Awaiting id k) -> old !! th = Some (Awaiting id k) \/ exists p, ev = Asked th id k p.

Lemma matched_keep tr w ev w' : matched tr w -> channels (shared w') ⊆ channels (shared w) -> asked_now ev (requests w) (requests w') -> matched (tr ++ [ev]) w'.
Proof.
  intros [M1 M2] Hch Hreq. split.
  - intros id r Hr. destruct (M1 id r) as (?&?&?); [by eapply lookup_weaken|]. split_and!; [done|done|]. apply elem_of_app. by left.
  - intros th id k Ha. destruct (Hreq _ _ _ Ha) as [Ho|[p ->]].
    + destruct (M2 _ _ _ Ho) as [p Hp]. exists p. apply elem_of_app. by left.
    + exists p. apply elem_of_app. right. by apply list_elem_of_singleton.
Qed.

Lemma asked_same ev m : asked_now ev m m.
Proof. intros th id k Ha. by left. Qed.
Lemma asked_delete ev m th : asked_now ev m (delete th m).
Proof. intros th' id k Ha. left. by apply lookup_delete_Some in Ha as [_ ?]. Qed.
Lemma asked_insert ev m th r : (forall id k, r = Awaiting id k -> exists p, ev = Asked th id k p) -> asked_now ev m (<[th := r]> m).
Proof. intros Hr th' id k [[-> ->]|[_ Ha]]%lookup_insert_Some; [right; by apply Hr|by left]. Qed.

Lemma read_turn_matched c tr wr f w w' ev : matched tr w -> read_turn c wr f w = (w', ev) -> matched (tr ++ [ev]) w'.
Proof.
  intros Hm. unfold read_turn. destruct (_ || _); [intros [= <- <-]; eapply matched_keep; [done|done|apply asked_same]|].
  pose proof (handle_channels wr (shared w) f) as Hch. cbv zeta in Hch. set (dn := handle_packet_frame wr (shared w) f) in *.
  set (w1 := w <| shared := after dn |> <| wire := wire w ++ written dn |>). destruct (foldl_ending (ends dn) w1) as (H1&_&_&H4&_). cbv zeta in H1, H4.
  destruct Hch as [Hch|(Hch&Hok&Hk)].
  - assert (channels (shared (foldl (fun w r => begin_ending r w) w1 (ends dn))) ⊆ channels (shared w)) as Hsub by (rewrite H1; change (shared w1) with (after dn); by rewrite Hch).
    assert (forall ev, asked_now ev (requests w) (requests (foldl (fun w r => begin_ending r w) w1 (ends dn)))) as Hreq by (intros ev'; rewrite H4; apply asked_same).
    destruct (result dn); intros [= <- <-]; (eapply matched_keep; [done|exact Hsub|apply Hreq]).
  - rewrite Hok. intros [= <- <-]. destruct Hm as [M1 M2]. split.
    + change (channels (shared _)) with (channels (shared (foldl (fun w r => begin_ending r w) w1 (ends dn)))). rewrite H1. change (shared w1) with (after dn). rewrite Hch.
      intros id r [[<- <-]|[_ Hr]]%lookup_insert_Some.
      * split_and!; [done|done|]. apply elem_of_app. right. by apply list_elem_of_singleton.
      * destruct (M1 _ _ Hr) as (?&?&?). split_and!; [done|done|]. apply elem_of_app. by left.
    + change (requests _) with (requests (foldl (fun w r => begin_ending r w) w1 (ends dn))). rewrite H4. intros th id k Ha.
      destruct (M2 _ _ _ Ha) as [p Hp]. exists p. apply elem_of_app. by left.
Qed.

Lemma step_matched c tr w ev w' : matched tr w -> step c w ev w' -> matched (tr ++ [ev]) w'.
Proof.
  intros Hm Hs. destruct Hs as [p w w' ev Hl Hb Hs|wr p w w' ev Hl Hs|w w' ev Hl Hs|timed_out w w' ev Hl Hs|wr p w w' ev Hl Hs|wr f w w' ev _ Hf Hs|r w _|w _ _
    |th k p w w' ev _ Hb Hs|th k p w w' ev Hth Hs|wr th id k p w w' ev Hth Hs|th id k rec w w' ev _ _ Hs|th id k w Hth _|th id k w w' ev Hth Hs|th id k w w' ev _ _ _ Hs|r w _|i e w _|w].
  - revert Hs. unfold send_start, try_take_host_credit. destruct (protocol _); [destruct (unusable _); [|destruct (may_send _)]|..]; intros [= <- <-]; (eapply matched_keep; [done|done|apply asked_same]).
  - revert Hs. unfold send_write. destruct (write_frame _ _ _) as [out [[]| |]]; intros [= <- <-]; (eapply matched_keep; [done|done|apply asked_same]).
  - revert Hs. unfold recv_start, recv_end, recv_finish. destruct (recv_waits _); [|destruct (_ && _); [|destruct (packets _); [destruct (unusable _)|]]]; intros [= <- <-]; (eapply matched_keep; [done|done|apply asked_same]).
  - revert Hs. unfold recv_end, recv_finish. destruct (_ && _); [|destruct (packets _); [destruct (unusable _)|]]; intros [= <- <-]; (eapply matched_keep; [done|done|apply asked_same]).
  - revert Hs. unfold recv_credit. destruct (encode_credit _); [destruct (write_frame _ _ _) as [out [[]| |]]|..]; intros [= <- <-]; (eapply matched_keep; [done|done|apply asked_same]).
  - by eapply read_turn_matched.
  - eapply matched_keep; [done|done|apply asked_same].
  - eapply matched_keep; [done|done|apply asked_same].
  - revert Hs. unfold ask. destruct (is_closed _); intros [= <- <-]; (eapply matched_keep; [done|done|]); [apply asked_same|by apply asked_insert].
  - revert Hs. unfold ask_register, next_request_id, register_waiter. destruct (waiters _ !! _); intros [= <- <-]; (eapply matched_keep; [done|done|]); [apply asked_delete|by apply asked_insert].
  - revert Hs. unfold ask_write. destruct (write_frame _ _ _) as [out [[]| |]]; intros [= <- <-]; (eapply matched_keep; [done|done|]); [|apply asked_delete..].
    apply asked_insert. intros ? ? [= <- <-]. by exists p.
  - injection Hs as <- <-. eapply matched_keep; [done|apply delete_subseteq|apply asked_delete].
  - eapply matched_keep; [done|done|by apply asked_insert].
  - injection Hs as <- <-. eapply matched_keep; [done|done|apply asked_delete].
  - injection Hs as <- <-. eapply matched_keep; [done|done|apply asked_delete].
  - eapply matched_keep; [done|done|apply asked_same].
  - unfold end_step. destruct (stage e); (eapply matched_keep; [done|done|apply asked_same]).
  - eapply matched_keep; [done|done|apply asked_same].
Qed.

Lemma runs_matched c first tr w : runs c first tr w -> matched tr w.
Proof.
  induction 1 as [w Hw|tr w ev w' Hr IH Hs]; [|by eapply step_matched]. unfold connect in Hw. destruct (_ || _); [done|]. destruct (_ || _); [done|]. by injection Hw as <-.
Qed.

Lemma reply_step c w ev w' th r : step c w ev w' -> ev = AskReturned th (Ok r) ->
  exists id k, requests w !! th = Some (Awaiting id k) /\ channels (shared w) !! id = Some r.
Proof.
  intros Hs. destruct Hs as [p w w' ev Hl Hb Hs|wr p w w' ev Hl Hs|w w' ev Hl Hs|timed_out w w' ev Hl Hs|wr p w w' ev Hl Hs|wr f w w' ev _ Hf Hs|r' w _|w _ _
    |th' k p w w' ev _ Hb Hs|th' k p w w' ev Hth Hs|wr th' id k p w w' ev Hth Hs|th' id k rec w w' ev Hth Hch Hs|th' id k w Hth _|th' id k w w' ev Hth Hs|th' id k w w' ev _ _ _ Hs|r' w _|i e w _|w].
  - by apply send_start_cases in Hs as (_&_&_&[(_&->&_)|(_&?&->&_)]).
  - revert Hs. unfold send_write. by destruct (write_frame _ _ _) as [out [[]| |]]; intros [= <- <-].
  - revert Hs. unfold recv_start. destruct (recv_waits _); [by intros [= <- <-]|]. intros Hs. by apply recv_end_cases in Hs as (_&_&_&[(?&_&->)|(_&?&->&_)]).
  - by apply recv_end_cases in Hs as (_&_&_&[(?&_&->)|(_&?&->&_)]).
  - revert Hs. unfold recv_credit. by destruct (encode_credit _); [destruct (write_frame _ _ _) as [out [[]| |]]|..]; intros [= <- <-].
  - revert Hs. unfold read_turn. destruct (_ || _); [by intros [= <- <-]|]. by destruct (result _); intros [= <- <-].
  - done.
  - done.
  - revert Hs. unfold ask. by destruct (is_closed _); intros [= <- <-].
  - revert Hs. unfold ask_register, next_request_id, register_waiter. by destruct (waiters _ !! _); intros [= <- <-].
  - revert Hs. unfold ask_write. by destruct (write_frame _ _ _) as [out [[]| |]]; intros [= <- <-].
  - injection Hs as <- <-. intros [= <- <-]. by exists id, k.
  - done.
  - by injection Hs as <- <-.
  - by injection Hs as <- <-.
  - done.
  - done.
  - done.
Qed.

(** C31. The reply a request gets is a reply that arrived with the identifier the
    request was written with. *)
Theorem replies_match c first tr w th r w' : runs c first tr w -> step c w (AskReturned th (Ok r)) w' ->
  exists k p, Asked th (request_id (header r)) k p ∈ tr /\ Arrived r (Ok tt) ∈ tr /\ reply_kind (kind (header r)) = true.
Proof.
  intros Hr Hs. destruct (runs_matched _ _ _ _ Hr) as [M1 M2]. destruct (reply_step _ _ _ _ _ _ Hs eq_refl) as (id&k&Hth&Hch).
  destruct (M1 _ _ Hch) as (<-&?&?), (M2 _ _ _ Hth) as [p Hp]. by exists k, p.
Qed.
End Guarantees.

(** ** An example session

    A packet is sent and its credit returned, a packet arrives and is received, and
    a request is answered. *)

Module Sample.
#[local] Instance no_gone : Json GoneRecord := {| to_vec _ := None; from_slice _ := None |}.
#[local] Instance no_error : Json ErrorRecord := {| to_vec _ := None; from_slice _ := None |}.

Definition cl : BridgeClaim :=
  {| claimed_device := [100]; claim_generation := 5; claim_lease := 6; claimed_kind := Dwc3; claim_out_max_packet_size := 512; claim_max_packet_size := 0x8000;
     claim_max_transfer_size := 0x7ffc; claim_host_credits := 2; claim_device_credits := 1 |}.
Definition packet_out : bytes := [0; 0; 0; 1; 0; 0; 0; 9; 7].
Definition frame (k : RecordKind) (id : Z) (p : bytes) : RawRecord :=
  {| header := (own_header cl k id) <| payload_len := zlen p |>; payload := p |}.
Definition credit_in : RawRecord := frame Credit 0 [1; 0; 0; 0; 0; 0; 0; 1].
Definition packet_in : RawRecord := frame PacketFromDevice 0 [1; 2; 3].
Definition reply : RawRecord := frame ApNonce 9 (zeros 32).

Definition w0 : World := match connect cl 9 with Ok w => w | _ => {| shared := new_state 0 0 0; wire := []; reading := false; link := LinkIdle; requests := ∅; endings := []; counter := 0 |} end.
Definition e1 := send_start cl packet_out w0.
Definition e2 := send_write cl Written packet_out (fst e1).
Definition e3 := read_turn cl Written credit_in (fst e2).
Definition e4 := read_turn cl Written packet_in (fst e3).
Definition e5 := recv_start (fst e4).
Definition e6 := recv_credit cl Written [1; 2; 3] (fst e5).
Definition e7 := ask 1 GetApNonce [] (fst e6).
Definition e8 := ask_register 1 GetApNonce [] (fst e7).
Definition e9 := ask_write cl Written 1 9 GetApNonce [] (fst e8).
Definition e10 := read_turn cl Written reply (fst e9).

Definition trace2 : list Event := [] ++ [snd e1] ++ [snd e2].
Definition trace6 : list Event := ((((trace2 ++ [snd e3]) ++ [snd e4]) ++ [snd e5]) ++ [snd e6]).
Definition trace10 : list Event := (((trace6 ++ [snd e7]) ++ [snd e8]) ++ [snd e9]) ++ [snd e10].

Lemma typed_frame k id p : is_bytes p -> u64 id -> frame_typed (frame k id p).
Proof. intros Hp Hi. split_and!; done. Qed.

Lemma cl_ok : claim_ok cl.
Proof. by split. Qed.


Lemma extend tr w x : runs cl 9 tr w -> step cl w (snd x) (fst x) -> runs cl 9 (tr ++ [snd x]) (fst x).
Proof. apply runs_step. Qed.

Ltac bytes := vm_compute; repeat constructor; discriminate.

Lemma run2 : runs cl 9 trace2 (fst e2).
Proof.
  apply (extend ([] ++ [snd e1]) (fst e1) e2); [apply (extend [] w0 e1)|].
  - by apply runs_start.
  - refine (step_send cl packet_out w0 (fst e1) (snd e1) _ _ _); [done|bytes|unfold e1; apply surjective_pairing].
  - refine (step_send_write cl Written packet_out (fst e1) (fst e2) (snd e2) _ _); [by vm_compute|unfold e2; apply surjective_pairing].
Qed.

Lemma run6 : runs cl 9 trace6 (fst e6).
Proof.
  apply (extend _ (fst e5) e6); [apply (extend _ (fst e4) e5); [apply (extend _ (fst e3) e4); [apply (extend _ (fst e2) e3); [exact run2|]|]|]|].
  - refine (step_read cl Written credit_in (fst e2) (fst e3) (snd e3) _ _ _); [by vm_compute|apply typed_frame; [bytes|done]|unfold e3; apply surjective_pairing].
  - refine (step_read cl Written packet_in (fst e3) (fst e4) (snd e4) _ _ _); [by vm_compute|apply typed_frame; [bytes|done]|unfold e4; apply surjective_pairing].
  - refine (step_recv cl (fst e4) (fst e5) (snd e5) _ _); [by vm_compute|unfold e5; apply surjective_pairing].
  - refine (step_recv_credit cl Written [1; 2; 3] (fst e5) (fst e6) (snd e6) _ _); [by vm_compute|unfold e6; apply surjective_pairing].
Qed.

Lemma run10 : runs cl 9 trace10 (fst e10).
Proof.
  apply (extend _ (fst e9) e10); [apply (extend _ (fst e8) e9); [apply (extend _ (fst e7) e8); [apply (extend _ (fst e6) e7); [exact run6|]|]|]|].
  - refine (step_ask cl 1 GetApNonce [] (fst e6) (fst e7) (snd e7) _ _ _); [by vm_compute|constructor|unfold e7; apply surjective_pairing].
  - refine (step_register cl 1 GetApNonce [] (fst e7) (fst e8) (snd e8) _ _); [by vm_compute|unfold e8; apply surjective_pairing].
  - refine (step_ask_write cl Written 1 9 GetApNonce [] (fst e8) (fst e9) (snd e9) _ _); [by vm_compute|unfold e9; apply surjective_pairing].
  - refine (step_read cl Written reply (fst e9) (fst e10) (snd e10) _ _ _); [by vm_compute|apply typed_frame; [bytes|done]|unfold e10; apply surjective_pairing].
Qed.

Lemma flight_bounded_witness : zlen (all sent trace2) <= zlen (all took trace2) /\ outstanding (queue (shared (fst e2))) <= 2.
Proof. destruct (flight_bounded cl 9 trace2 (fst e2) cl_ok run2) as (H1&_&H2&_). split; [exact H1|exact H2]. Defined.

Lemma packets_in_order_witness : all delivered trace6 ++ in_hand (link (fst e6)) = all popped trace6.
Proof. apply (packets_in_order cl 9 trace6 (fst e6) cl_ok); [done|exact run6|]. repeat constructor. Defined.

Lemma packet_in_frame : packet_frame cl packet_in.
Proof. by split. Qed.

Lemma honest_broker_witness : snd (read_turn cl Written packet_in (fst e6)) = Arrived packet_in (Ok tt).
Proof. apply (honest_broker cl 9 trace6 (fst e6) Written packet_in (fst (read_turn cl Written packet_in (fst e6))) _ cl_ok run6 packet_in_frame); [by vm_compute|apply surjective_pairing]. Defined.

(** The session, aborted. *)
Definition aborted : World := (fst e4) <| shared := mark_terminal (Some Aborted) false (shared (fst e4)) |>.

Lemma closing_is_final_witness : snd (recv_start aborted) = Popped [1; 2; 3].
Proof. apply (closing_is_final cl aborted [] aborted); [done|constructor]. Defined.

(** Who noted the generation after the packet was sent, and waits, is told of the credit. *)
Lemma credit_wakes_witness : exists waiting, wait_for_inbound (inbound_generation (queue (shared (fst e2)))) (shared (fst e2)) = Some waiting /\
  notified waiting (shared (fst e3)) = true.
Proof.
  assert (steps cl (fst e2) ([] ++ [snd e3]) (fst e3)) as Hs.
  { eapply steps_snoc; [apply steps_nil|].
    refine (step_read cl Written credit_in (fst e2) (fst e3) (snd e3) _ _ _); [by vm_compute|apply typed_frame; [bytes|done]|unfold e3; apply surjective_pairing]. }
  destruct (credit_wakes cl 9 trace2 (fst e2) [] (fst e2) ([] ++ [snd e3]) (fst e3) cl_ok run2 (steps_nil _ _) Hs) as [H _]; [done|].
  eexists. split; [vm_compute; reflexivity|]. exact (H (or_introl eq_refl)).
Defined.

Lemma broker_reads_witness : exists a, feed empty_assembler [ztake 50 (wire (fst e6)); zdrop 50 (wire (fst e6))] = Some (a, Ok (map raw_record (all (written_by cl) trace6))) /\ pending a = [].
Proof. apply (broker_reads cl 9 trace6 (fst e6)); [exact cl_ok|done|exact run6|repeat constructor|by vm_compute]. Defined.

Lemma replies_match_witness : exists k p, Asked 1 (request_id (header reply)) k p ∈ trace10.
Proof.
  destruct (replies_match cl 9 trace10 (fst e10) 1 reply (fst (ask_reply 1 9 reply (fst e10))) run10) as (k&p&H&_); [|by exists k, p].
  apply (step_reply cl 1 9 GetApNonce reply); [by vm_compute|by vm_compute|done].
Defined.
End Sample.
