(* ===== verification/BridgeClient.v ===== *)
(** * The client of the Restore Bridge (bridge_transport.rs)

    Reading records off the socket, the handshake, listing and claiming devices,
    watching them, and what is made of the replies to control requests.  The socket
    is a script of what its reads and writes give; finding the sockets and checking
    their owner is not modelled. *)

From S2P Require Import Prelude Windows MuxFrame Watchdog Sha P256 FatNames Bridge BridgeSession.
From stdpp Require Import base tactics numbers list option strings gmap.
From Stdlib Require Import ZArith Lia.

Open Scope Z_scope.

(** ** JSON records *)

Record ListEndRecord := { end_revision : Z; device_count : Z }.
Record WatchRequest := { after_revision : Z }.
Inductive DetachOutcome := Complete | Cancelled | FailedOutcome.
Record DetachRequest := { detach_outcome : DetachOutcome; detach_detail : option bytes }.
Inductive DetachedDeviceState := DetachedState | AlreadyGone.
Record DetachedRecord := { detached_outcome : DetachOutcome; detached_state : DetachedDeviceState; detached_detail : option bytes }.

Definition is_one_of (s : bytes) (names : list string) : bool := existsb (fun n => bool_decide (s = bytes_of n)) names.

Definition error_to_io (e : ErrorRecord) : IoError :=
  let c := code e in
  if is_one_of c ["unsupportedVersion"%string] then Unsupported else
  if is_one_of c ["wrongConnectionMode"; "invalidFrame"; "invalidJson"; "invalidRequest"]%string then Protocol InvalidData else
  if is_one_of c ["resyncRequired"%string] then Protocol InvalidData else
  if is_one_of c ["deviceNotFound"%string] then NotFound else
  if is_one_of c ["staleGeneration"; "deviceUnavailable"; "deviceBusy"; "deviceGone"]%string then WouldBlock else
  if is_one_of c ["bootContextUnavailable"; "apNonceUnavailable"; "signerUnavailable"]%string then NotFound else
  if is_one_of c ["invalidFdrManifest"; "creditViolation"; "internal"]%string then Protocol InvalidData else OtherError.

(** ** The connection *)

(** What [read] of the socket gives: bytes (none at its end), or an error. *)
Inductive Arrival := Chunk (b : bytes) | Interrupted | ReadFailed (code : Z).

Record RecordReader := { assembler : FrameAssembler; ready : list RawRecord }.
Definition new_reader : RecordReader := {| assembler := empty_assembler; ready := [] |}.

Record Conn := { arrivals : list Arrival; reader : RecordReader; outgoing : bytes; writes : list Write; next_id : Z }.
#[export] Instance eta_conn : Eta Conn := fun c => Build_Conn (arrivals c) (reader c) (outgoing c) (writes c) (next_id c).

(** A call returns, or waits for bytes that do not come; [OutOfFuel] bounds the
    loops of the model. *)
Inductive Outcome (A : Type) := Returns (r : res IoError A) | Blocked | OutOfFuel.
Arguments Returns {A} _.
Arguments Blocked {A}.
Arguments OutOfFuel {A}.

Definition Io (A : Type) : Type := Conn -> Conn * Outcome A.
Definition give {A} (r : res IoError A) : Io A := fun c => (c, Returns r).
Definition io_bind {A B} (m : Io A) (k : A -> Io B) : Io B := fun c =>
  match m c with
  | (c, Returns (Ok a)) => k a c
  | (c, Returns (Err e)) => (c, Returns (Err e))
  | (c, Returns Panic) => (c, Returns Panic)
  | (c, Blocked) => (c, Blocked)
  | (c, OutOfFuel) => (c, OutOfFuel)
  end.
Declare Scope io_scope.
Notation "'let!' x ':=' m 'in' k" := (io_bind m (fun x => k)) (at level 200, x pattern, m at level 100, k at level 200) : io_scope.
Open Scope io_scope.

Definition fails {A} (e : IoError) : Io A := give (Err e).
Definition bad_data {A} : Io A := fails (Protocol InvalidData).
Definition checked {A} (r : res BridgeError A) : Io A := give (protocol r).

(** [RecordReader::read] *)
Fixpoint read_from (l : list Arrival) (r : RecordReader) : list Arrival * RecordReader * Outcome (option RawRecord) :=
  match ready r with
  | record :: rest => (l, {| assembler := assembler r; ready := rest |}, Returns (Ok (Some record)))
  | [] =>
      match l with
      | [] => ([], r, Blocked)
      | Interrupted :: l => read_from l r
      | ReadFailed code :: l => (l, r, Returns (Err (Os code)))
      | Chunk b :: l =>
          if is_empty b then (l, r, Returns (Ok None)) else
          match push (assembler r) b with
          | None => (l, r, OutOfFuel)
          | Some (a, Ok frames) => read_from l {| assembler := a; ready := frames |}
          | Some (a, Err e) => (l, {| assembler := a; ready := [] |}, Returns (Err (Protocol e)))
          | Some (a, Panic) => (l, {| assembler := a; ready := [] |}, Returns Panic)
          end
      end
  end.

Definition read_record : Io (option RawRecord) := fun c =>
  let '(l, r, o) := read_from (arrivals c) (reader c) in (c <| arrivals := l |> <| reader := r |>, o).

(** A record, or the end of the stream as an error. *)
Definition expect_record : Io RawRecord :=
  let! r := read_record in match r with Some record => give (Ok record) | None => fails UnexpectedEof end.

Definition put_frame (h : RecordHeader) (p : bytes) : Io unit := fun c =>
  let '(out, r) := write_frame (default Written (head (writes c))) h p in
  (c <| outgoing := outgoing c ++ out |> <| writes := tail (writes c) |>, Returns r).

Definition fresh_id : Io Z := fun c => (c <| next_id := wrapping_add 64 (next_id c) 1 |>, Returns (Ok (Z.max (next_id c) 1))).

Definition handle_ping_record (record : RawRecord) : Io bool :=
  let h := header record in
  if negb (bool_decide (kind h = Ping)) then give (Ok false) else
  if request_id h =? 0 then bad_data else
  let! nonce := checked (decode_ping_nonce (payload record)) in
  let! _ := put_frame (session_header Pong (request_id h) (generation h) (lease_id h)) (encode_ping_nonce nonce) in
  give (Ok true).

Section Client.
Context {hello_json : Json HelloRecord} {server_json : Json ServerHelloRecord} {error_json : Json ErrorRecord}.
Context {device_json : Json DeviceRecord} {end_json : Json ListEndRecord} {watch_json : Json WatchRequest}.
Context {claim_json : Json ClaimRequest} {claimed_json : Json ClaimedRecord}.

Definition broker_error {A} (record : RawRecord) : Io A :=
  let! e := checked (decode_json (payload record)) in fails (error_to_io (e : ErrorRecord)).

(** [connect_and_handshake] on a socket that is connected. *)
Definition handshake (client_instance : bytes) (pid : Z) : Io ServerHelloRecord :=
  let hello := {| minimum_version := VERSION; maximum_version := VERSION; client_name := bytes_of "apple-utils"; client_instance_id := client_instance; client_pid := pid |} in
  let! _ := checked (validate_hello hello) in
  let! id := fresh_id in
  let! p := checked (encode_json hello) in
  let! _ := put_frame (session_header Hello id 0 0) p in
  let! record := expect_record in
  let h := header record in
  if negb (request_id h =? id) || negb (generation h =? 0) || negb (lease_id h =? 0) then bad_data else
  match kind h with
  | ServerHello =>
      let! hello := checked (decode_json (payload record)) in
      let! _ := checked (validate_server_hello hello) in
      give (Ok hello)
  | Error => broker_error record
  | _ => bad_data
  end.

(** A record that answers request [id]; pings in between are answered.  The loops
    of the client all begin so; [body] is the rest of a turn, which says whether to
    go on. *)
Fixpoint answers {A S} (fuel : nat) (id : Z) (ended : res IoError A) (body : S -> RawRecord -> Io (S + A)) (s : S) : Io A :=
  match fuel with
  | O => fun c => (c, OutOfFuel)
  | Datatypes.S fuel =>
      let! r := read_record in
      match r with
      | None => give ended
      | Some record =>
          if negb (request_id (header record) =? id) then
            let! ping := handle_ping_record record in
            if ping then answers fuel id ended body s else bad_data
          else
            let! next := body s record in
            match next with inl s => answers fuel id ended body s | inr a => give (Ok a) end
      end
  end.

Record BridgeDiscoveredDevice := { found_generation : Z; found_record : DeviceRecord }.
Record BridgeInventory := { inventory_revision : Z; devices : list BridgeDiscoveredDevice }.

Definition is_snapshot (e : DeviceEvent) : bool := match e with Snapshot => true | _ => false end.

Definition list_turn (found : list BridgeDiscoveredDevice) (record : RawRecord) : Io (list BridgeDiscoveredDevice + BridgeInventory) :=
  match kind (header record) with
  | Device =>
      if generation (header record) =? 0 then bad_data else
      let! device := checked (decode_json (payload record)) in
      let! _ := checked (validate_device_record device) in
      if negb (is_snapshot (event device)) then bad_data else
      give (Ok (inl (found ++ [{| found_generation := generation (header record); found_record := device |}])))
  | ListEnd =>
      let! barrier := checked (decode_json (payload record)) in
      if negb (device_count barrier =? zlen found) then bad_data else
      give (Ok (inr {| inventory_revision := end_revision barrier; devices := found |}))
  | Error => broker_error record
  | Pong => give (Ok (inl found))
  | _ => bad_data
  end.

Definition list_devices (fuel : nat) : Io BridgeInventory :=
  let! id := fresh_id in
  let! _ := put_frame (session_header List id 0 0) [] in
  answers fuel id (Err UnexpectedEof) list_turn [].

Definition into_watch (revision : Z) : Io Z :=
  let! id := fresh_id in
  let! p := checked (encode_json {| after_revision := revision |}) in
  let! _ := put_frame (session_header Watch id 0 0) p in
  give (Ok id).

Inductive BridgeWatchEvent := DeviceEventSeen (generation : Z) (record : DeviceRecord) | Barrier (e : ListEndRecord).

Definition watch_turn (_ : unit) (record : RawRecord) : Io (unit + option BridgeWatchEvent) :=
  match kind (header record) with
  | Device =>
      let! device := checked (decode_json (payload record)) in
      let! _ := checked (validate_device_record device) in
      give (Ok (inr (Some (DeviceEventSeen (generation (header record)) device))))
  | ListEnd =>
      let! barrier := checked (decode_json (payload record)) in
      give (Ok (inr (Some (Barrier barrier))))
  | Error => broker_error record
  | Pong => give (Ok (inl tt))
  | _ => bad_data
  end.

Definition next_event (fuel : nat) (id : Z) : Io (option BridgeWatchEvent) := answers fuel id (Ok None) watch_turn tt.

Definition DEFAULT_RECEIVE_DEPTH_PACKETS : Z := 256.

Definition claim_turn (device : bytes) (gen : Z) (_ : unit) (record : RawRecord) : Io (unit + BridgeClaim) :=
  match kind (header record) with
  | Claimed =>
      if negb (generation (header record) =? gen) || (lease_id (header record) =? 0) then bad_data else
      let! claimed := checked (decode_json (payload record)) in
      let! _ := checked (validate_claimed claimed) in
      if negb (bool_decide (device_id claimed = device)) then bad_data else
      give (Ok (inr {| claimed_device := device; claim_generation := gen; claim_lease := lease_id (header record); claimed_kind := transport_kind claimed; claim_out_max_packet_size := out_max_packet_size claimed;
                       claim_max_packet_size := max_packet_size claimed; claim_max_transfer_size := max_transfer_size claimed;
                       claim_host_credits := host_to_device_credits claimed; claim_device_credits := device_to_host_credits claimed |}))
  | Error => broker_error record
  | Pong => give (Ok (inl tt))
  | _ => bad_data
  end.

(** [claim_device], on the socket it connects. *)
Definition claim_device (fuel : nat) (client_instance : bytes) (pid : Z) (device : bytes) (gen : Z) : Io BridgeClaim :=
  if gen =? 0 then fails (Protocol InvalidInput) else
  let request := {| claim_device_id := device; receive_depth_packets := DEFAULT_RECEIVE_DEPTH_PACKETS |} in
  let! _ := checked (validate_claim_request request) in
  let! _ := handshake client_instance pid in
  let! id := fresh_id in
  let! p := checked (encode_json request) in
  let! _ := put_frame (session_header Claim id gen 0) p in
  answers fuel id (Err UnexpectedEof) (claim_turn device gen) tt.
End Client.

(** ** Replies to control requests *)

Definition check_that (ok : bool) : res IoError unit := if ok then Ok tt else Err (Protocol InvalidData).

Definition validate_boot_context (c : BootContext) : res IoError unit :=
  let? _ := match staged_boot_manifest c with
            | Some manifest =>
                if is_empty manifest then Err (Protocol InvalidData) else
                let? hash := sha384 manifest in check_that (bool_decide (hash = staged_boot_manifest_sha384 c))
            | None => Ok tt
            end in
  let? _ := match fdr_trust_object c with
            | Some object =>
                let? digest := ok_or (fdr_trust_digest_sha256 c) (Protocol InvalidData) in
                let? hash := sha256 object in check_that (bool_decide (hash = digest))
            | None => check_that (negb (is_some (fdr_trust_digest_sha256 c)))
            end in
  let? _ := check_that (is_some (fdr_trust_object c) || ((fdr_element_index c =? 0) && (fdr_element_count c =? 0))) in
  let? _ := match fdr_instance c with
            | Some instance => check_that (negb (is_empty instance || negb (is_some (fdr_trust_object c))))
            | None => Ok tt
            end in
  let? _ := match fdr_material_path c with
            | Some path => check_that (negb (is_empty path || negb (is_some (fdr_trust_object c))))
            | None => Ok tt
            end in
  let? _ := check_that (negb (remote_signer_available c && negb (is_some (sep_public_key_uncompressed c)))) in
  match sep_public_key_uncompressed c with
  | Some key => check_that (is_some (import_public key))
  | None => Ok tt
  end.

Definition validate_manifest_signature (signed_body expected_public_key : bytes) (s : FdrManifestSignature) : res IoError unit :=
  let? expected_digest := sha384 signed_body in
  let? len := (if zlen signed_body <? 2 ^ 32 then Ok (zlen signed_body) else Err (Protocol InvalidInput)) in
  let? _ := check_that (signed_body_length s =? len) in
  let? _ := check_that (bool_decide (digest_sha384 s = expected_digest)) in
  let? _ := check_that (bool_decide (signer_public_key_uncompressed s = expected_public_key)) in
  let? reduced := slice expected_digest 0 32 in
  check_that (verify_uncompressed (signer_public_key_uncompressed s) reduced (signature_rs s)).

Section Control.
Context {error_json : Json ErrorRecord} {detached_json : Json DetachedRecord}.

(** What is made of a reply: the value, or the error the broker names. *)
Definition named_error {A} (p : bytes) : res IoError (A + ErrorRecord) := let? e := protocol (decode_json p) in Ok (inr e).

Definition boot_context_response (record : RawRecord) : res IoError (BootContext + ErrorRecord) :=
  match kind (header record) with
  | BootContextKind =>
      let? context := protocol (boot_context_decode (payload record)) in
      let? _ := validate_boot_context context in
      Ok (inl context)
  | Error => named_error (payload record)
  | _ => Err (Protocol InvalidData)
  end.

(** [get_ap_nonce_response] and [get_sep_nonce_response] *)
Definition nonce_response (k : RecordKind) (len : Z) (record : RawRecord) : res IoError (bytes + ErrorRecord) :=
  if bool_decide (kind (header record) = k) then let? _ := check_that (zlen (payload record) =? len) in Ok (inl (payload record)) else
  match kind (header record) with Error => named_error (payload record) | _ => Err (Protocol InvalidData) end.
Definition ap_nonce_response : RawRecord -> res IoError (bytes + ErrorRecord) := nonce_response ApNonce 32.
Definition sep_nonce_response : RawRecord -> res IoError (bytes + ErrorRecord) := nonce_response SepNonce 20.

Definition signer_public_key_response (record : RawRecord) : res IoError (bytes + ErrorRecord) :=
  match kind (header record) with
  | SignerPublicKey =>
      let key := payload record in
      let? _ := check_that (zlen key =? 65) in
      let? _ := check_that (is_some (import_public key)) in
      Ok (inl key)
  | Error => named_error (payload record)
  | _ => Err (Protocol InvalidData)
  end.

(** The broker's error as an error of the call. *)
Definition raised {A} (p : bytes) : res IoError A := let? e := protocol (decode_json p) in Err (error_to_io e).

Definition signature_response (signed_body expected_public_key : bytes) (record : RawRecord) : res IoError FdrManifestSignature :=
  match kind (header record) with
  | FdrManifestSignatureKind =>
      let? signature := protocol (signature_decode (payload record)) in
      let? _ := validate_manifest_signature signed_body expected_public_key signature in
      Ok signature
  | Error => raised (payload record)
  | _ => Err (Protocol InvalidData)
  end.

(** [sign_fdr_manifest_with_key], [sign_fdr_manifest] and [sign_fdr_manifest_der]:
    [request] stands for the call of [send_request]. *)
Definition sign_fdr_manifest_with_key (request : RecordKind -> bytes -> res IoError RawRecord) (signed_body expected_public_key : bytes)
    : res IoError FdrManifestSignature :=
  let? p := protocol (sign_request_encode signed_body) in
  let? record := request SignFdrManifest p in
  signature_response signed_body expected_public_key record.

Definition sign_fdr_manifest (request : RecordKind -> bytes -> res IoError RawRecord) (signed_body : bytes) (c : BootContext)
    : res IoError FdrManifestSignature :=
  let? key := ok_or (sep_public_key_uncompressed c) (Protocol InvalidData) in
  sign_fdr_manifest_with_key request signed_body key.

Definition sign_fdr_manifest_der (request : RecordKind -> bytes -> res IoError RawRecord) (signed_body : bytes) (c : BootContext) : res IoError bytes :=
  let? s := sign_fdr_manifest request signed_body c in Ok (signature_to_der (signature_rs s)).

Definition detach_response (record : RawRecord) : res IoError DetachedRecord :=
  match kind (header record) with
  | Detached => protocol (decode_json (payload record))
  | Error => raised (payload record)
  | _ => Err (Protocol InvalidData)
  end.
End Control.
