(* ===== verification/BridgeClientProps.v ===== *)
(** * The client of the Restore Bridge: its loops end, and what it accepts *)

From S2P Require Import Prelude Windows MuxFrame Watchdog Sha ShaProps P256 FatNames Der Bridge BridgeProps BridgeManb BridgeBoot BridgeSafety BridgeSession BridgeSessionProps BridgeClient.
From stdpp Require Import base tactics numbers list option strings gmap.
From Stdlib Require Import ZArith Lia.

Open Scope Z_scope.

(** ** Records as they are read *)

Lemma header_decode_typed b h : header_decode b = Ok h -> is_bytes b -> u64 (request_id h) /\ u64 (generation h) /\ u64 (lease_id h).
Proof.
  unfold header_decode. intros Hd Hb. destruct (negb _); [done|]. destruct (slice b 0 4); [|done..]. cbn [res_bind] in Hd. destruct (negb _); [done|].
  destruct (be_at b 4 6); [|done..]. cbn [res_bind] in Hd. destruct (negb _); [done|]. destruct (be_at b 6 8); [|done..]. cbn [res_bind] in Hd.
  destruct (from_wire _); [|done..]. cbn [res_bind] in Hd. destruct (be_at b 8 12); [|done..]. cbn [res_bind] in Hd. destruct (negb _); [done|].
  destruct (be_at b 12 16); [|done..]. cbn [res_bind] in Hd. destruct (be_at b 16 24) eqn:E1; [|done..]. destruct (be_at b 24 32) eqn:E2; [|done..].
  destruct (be_at b 32 40) eqn:E3; [|done..]. injection Hd as <-. apply be_at_inv in E1, E2, E3; [|done..]. done.
Qed.

Lemma next_record_typed b f rest : next_record b = Ok (Some (f, rest)) -> is_bytes b -> frame_typed f.
Proof.
  unfold next_record. intros Hn Hb. destruct (_ <? _); [done|]. destruct (header_decode _) as [h| |] eqn:Eh; [|done..]. cbn [res_bind] in Hn.
  destruct (announced h) as [n| |]; [|done..]. cbn [res_bind] in Hn. destruct (_ <? _); [done|]. injection Hn as <- _.
  apply header_decode_typed in Eh; [|auto with isbytes]. split; [cbn; auto with isbytes|done].
Qed.

(** The records of a scan are typed, and each takes at least a byte. *)
Lemma scans_typed b frames left e : scans b frames left e -> is_bytes b -> Forall frame_typed frames /\ zlen frames + zlen left <= zlen b.
Proof.
  induction 1 as [b Hn|b e Hn|b f rest frames left e Hn Hs IH]; intros Hb; [done|done|].
  pose proof (next_record_typed _ _ _ Hn Hb). apply next_record_some in Hn as (n&H0&Hl&->); [|done]. unfold HEADER_LEN in *.
  destruct IH as [IH1 IH2]; [auto with isbytes|]. split; [by constructor|]. rewrite zlen_cons. rewrite zlen_zdrop in IH2. lia.
Qed.

(** ** The connection *)

Definition arrival_ok (a : Arrival) : Prop := match a with Chunk b => is_bytes b | _ => True end.

Record conn_ok (c : Conn) : Prop := {
  cn_arrivals : Forall arrival_ok (arrivals c);
  cn_assembler : assembler_ok (assembler (reader c));
  cn_ready : Forall frame_typed (ready (reader c));
}.

Definition arrival_size (a : Arrival) : Z := match a with Chunk b => zlen b | _ => 0 end.
Fixpoint script_size (l : list Arrival) : Z := match l with [] => 0 | a :: l => arrival_size a + script_size l end.
(** The bytes that are left to read, and the records that are ready. *)
Definition reader_size (l : list Arrival) (r : RecordReader) : Z := zlen (ready r) + zlen (pending (assembler r)) + script_size l.
Definition conn_size (c : Conn) : Z := reader_size (arrivals c) (reader c).

Lemma script_nonneg l : 0 <= script_size l.
Proof. induction l as [|[b| |] l IH]; cbn [script_size arrival_size]; [done|pose proof (zlen_nonneg b); lia|lia|lia]. Qed.

Lemma conn_nonneg c : 0 <= conn_size c.
Proof. unfold conn_size, reader_size. pose proof (script_nonneg (arrivals c)). pose proof (zlen_nonneg (ready (reader c))). pose proof (zlen_nonneg (pending (assembler (reader c)))). lia. Qed.

Lemma reader_size_take l r f rest : ready r = f :: rest -> reader_size l {| assembler := assembler r; ready := rest |} < reader_size l r.
Proof. intros Er. unfold reader_size. cbn [ready assembler]. rewrite Er, zlen_cons. lia. Qed.

Lemma reader_size_skip a l r : reader_size l r <= reader_size (a :: l) r.
Proof. unfold reader_size. cbn [script_size]. assert (0 <= arrival_size a); [|lia]. destruct a as [b| |]; [apply zlen_nonneg|done|done]. Qed.

Lemma read_from_ok l : forall r, Forall arrival_ok l -> assembler_ok (assembler r) -> Forall frame_typed (ready r) ->
  let '(l', r', o) := read_from l r in
  Forall arrival_ok l' /\ assembler_ok (assembler r') /\ Forall frame_typed (ready r') /\ o <> OutOfFuel /\ reader_size l' r' <= reader_size l r /\
  (forall f, o = Returns (Ok (Some f)) -> frame_typed f /\ reader_size l' r' < reader_size l r).
Proof.
  induction l as [|a l IH]; intros r Hl Ha Hr; cbn [read_from]; (destruct (ready r) as [|f rest] eqn:Er; last first).
  1, 3: apply Forall_cons in Hr as [Hf Hr]; pose proof (fun l => reader_size_take l r f rest Er) as Hlt;
    split_and!; try done; [apply Z.lt_le_incl, Hlt|]; intros ? [= <-]; by split; [|apply Hlt].
  { split_and!; try done. by rewrite Er. }
  apply Forall_cons in Hl as [Hb Hl]. pose proof (reader_size_skip a l r) as Hskip. destruct a as [b| |code].
  - destruct (is_empty b); [split_and!; try done; by rewrite Er|]. cbn in Hb. destruct (push_scans _ _ Ha Hb) as (a'&frames&e&Ep&Ha'&Hs). rewrite Ep.
    assert (is_bytes (pending (assembler r) ++ b)) as Hpb by (apply Forall_app; split; [by apply pending_bytes|done]). destruct (scans_typed _ _ _ _ Hs Hpb) as [Hty Hsz].
    rewrite zlen_app in Hsz. pose proof (zlen_nonneg frames).
    assert (forall fs, zlen fs <= zlen frames -> reader_size l {| assembler := a'; ready := fs |} <= reader_size (Chunk b :: l) r) as Hle.
    { intros fs Hfs. unfold reader_size. cbn [assembler ready script_size arrival_size]. rewrite Er, zlen_nil. lia. }
    destruct e as [e|]; cbn [outcome]; [split_and!; try done; apply Hle; by rewrite zlen_nil|]. specialize (IH {| assembler := a'; ready := frames |} Hl Ha' Hty). specialize (Hle frames ltac:(lia)).
    destruct (read_from l _) as [[l' r'] o]. destruct IH as (?&?&?&?&?&Hf). split_and!; try done; [lia|]. intros f Ho. destruct (Hf f Ho) as [? Hlt]. split; [done|lia].
  - specialize (IH r Hl Ha). rewrite Er in IH. specialize (IH Hr). destruct (read_from l r) as [[l' r'] o]. done.
  - split_and!; try done. by rewrite Er.
Qed.

Lemma read_record_ok c : conn_ok c -> let '(c', o) := read_record c in
  conn_ok c' /\ o <> OutOfFuel /\ conn_size c' <= conn_size c /\ (forall f, o = Returns (Ok (Some f)) -> frame_typed f /\ conn_size c' < conn_size c).
Proof.
  intros [K1 K2 K3]. unfold read_record. pose proof (read_from_ok (arrivals c) (reader c) K1 K2 K3) as H. destruct (read_from _ _) as [[l r] o].
  destruct H as (?&?&?&?&?&?). split_and!; [by split|done|done|done].
Qed.

(** ** Actions that read no more than there is *)

Definition stays {A} (m : Io A) : Prop :=
  forall c, conn_ok c -> let '(c', o) := m c in conn_ok c' /\ o <> OutOfFuel /\ conn_size c' <= conn_size c.

Create HintDb stays.

Lemma stays_give {A} (r : res IoError A) : stays (give r).
Proof. intros c Hc. cbn. split_and!; done || lia. Qed.
Lemma stays_checked {A} (r : res BridgeError A) : stays (checked r).
Proof. apply stays_give. Qed.
Lemma stays_bad {A} : stays (bad_data (A := A)).
Proof. apply stays_give. Qed.
Lemma stays_fails {A} e : stays (fails (A := A) e).
Proof. apply stays_give. Qed.
Lemma stays_bind {A B} (m : Io A) (k : A -> Io B) : stays m -> (forall a, stays (k a)) -> stays (io_bind m k).
Proof.
  intros Hm Hk c Hc. unfold io_bind. specialize (Hm c Hc). destruct (m c) as [c1 [[a|e|]| |]]; destruct Hm as (H1&H2&H3); [|done..].
  specialize (Hk a c1 H1). destruct (k a c1) as [c2 o]. destruct Hk as (?&?&?). split_and!; [done|done|lia].
Qed.
Lemma stays_put h p : stays (put_frame h p).
Proof. intros c [K1 K2 K3]. unfold put_frame. destruct (write_frame _ _ _) as [out r]. split_and!; [by split|done|]. unfold conn_size. cbn. lia. Qed.
Lemma stays_fresh : stays fresh_id.
Proof. intros c [K1 K2 K3]. split_and!; [by split|done|]. unfold conn_size. cbn. lia. Qed.
Lemma stays_read : stays read_record.
Proof. intros c Hc. pose proof (read_record_ok c Hc) as H. destruct (read_record c) as [c' o]. tauto. Qed.
#[export] Hint Resolve stays_give stays_checked stays_bad stays_fails stays_put stays_fresh stays_read : stays.

(** A chain of such actions. *)
Ltac stay := repeat first [solve [auto with stays] | apply stays_bind; [|intros ?] | case_match].

Lemma stays_expect : stays expect_record.
Proof. unfold expect_record. stay. Qed.
Lemma stays_ping f : stays (handle_ping_record f).
Proof. unfold handle_ping_record. stay. Qed.
#[export] Hint Resolve stays_expect stays_ping : stays.

(** ** The loops *)

Lemma answers_total {A S} (body : S -> RawRecord -> Io (S + A)) id ended : (forall s f, stays (body s f)) ->
  forall fuel s c, conn_ok c -> conn_size c < Z.of_nat fuel -> snd (answers fuel id ended body s c) <> OutOfFuel.
Proof.
  intros Hbody. induction fuel as [|fuel IH]; intros s c Hc Hf; [pose proof (conn_nonneg c); lia|]. cbn [answers]. unfold io_bind at 1.
  pose proof (read_record_ok c Hc) as Hr. destruct (read_record c) as [c1 [[[f|]|e|]| |]]; destruct Hr as (H1&H2&_&H3); [|done..].
  destruct (H3 f eq_refl) as [_ Hlt]. destruct (negb _).
  - unfold io_bind. pose proof (stays_ping f c1 H1) as Hp. destruct (handle_ping_record f c1) as [c2 [[[]|e|]| |]]; destruct Hp as (P1&P2&P3); [|done..].
    apply IH; [done|lia].
  - unfold io_bind. pose proof (Hbody s f c1 H1) as Hp. destruct (body s f c1) as [c2 [[[s'|a]|e|]| |]]; destruct Hp as (P1&P2&P3); [|done..]. apply IH; [done|lia].
Qed.

(** What a loop returns is what its body returned for a record that was read. *)
Lemma answers_returns {A S} (body : S -> RawRecord -> Io (S + A)) id e (P : A -> Prop) : (forall s f, stays (body s f)) ->
  (forall s f c c' a, frame_typed f -> request_id (header f) = id -> body s f c = (c', Returns (Ok (inr a))) -> P a) ->
  forall fuel s c c' a, conn_ok c -> answers fuel id (Err e) body s c = (c', Returns (Ok a)) -> P a.
Proof.
  intros Hstay Hbody. induction fuel as [|fuel IH]; intros s c c' a Hc; [done|]. cbn [answers]. unfold io_bind at 1.
  pose proof (read_record_ok c Hc) as Hr. destruct (read_record c) as [c1 [[[f|]|e1|]| |]]; destruct Hr as (H1&H2&_&H3); [|done..].
  destruct (H3 f eq_refl) as [Hf _]. destruct (Z.eqb_spec (request_id (header f)) id) as [Hid|]; cbn [negb].
  - unfold io_bind. pose proof (Hstay s f c1 H1) as Hp. destruct (body s f c1) as [c2 [[[s'|a']|e1|]| |]] eqn:Eb; destruct Hp as (P1&_); try done.
    + by apply IH.
    + intros [= <- <-]. by eapply Hbody.
  - unfold io_bind. pose proof (stays_ping f c1 H1) as Hp. destruct (handle_ping_record f c1) as [c2 [[[]|e1|]| |]]; destruct Hp as (P1&_); try done. by apply IH.
Qed.

Section Client.
Context {hello_json : Json HelloRecord} {server_json : Json ServerHelloRecord} {error_json : Json ErrorRecord}.
Context {device_json : Json DeviceRecord} {end_json : Json ListEndRecord}.
Context {claim_json : Json ClaimRequest} {claimed_json : Json ClaimedRecord}.

Lemma stays_broker_error {A} f : stays (broker_error (A := A) f).
Proof. unfold broker_error. stay. Qed.
Hint Resolve stays_broker_error : stays.
Lemma stays_list_turn found f : stays (list_turn found f).
Proof. unfold list_turn. stay. Qed.
Lemma stays_watch_turn u f : stays (watch_turn u f).
Proof. unfold watch_turn. stay. Qed.
Lemma stays_claim_turn device gen u f : stays (claim_turn device gen u f).
Proof. unfold claim_turn. stay. Qed.
Lemma stays_handshake client pid : stays (handshake client pid).
Proof. unfold handshake. stay. Qed.
Hint Resolve stays_list_turn stays_watch_turn stays_claim_turn stays_handshake : stays.

(** With enough fuel: an action followed by one that ends. *)
Definition ends_within {A} (fuel : nat) (m : Io A) : Prop := forall c, conn_ok c -> conn_size c < Z.of_nat fuel -> snd (m c) <> OutOfFuel.

Lemma ends_stays {A} fuel (m : Io A) : stays m -> ends_within fuel m.
Proof. intros Hm c Hc _. specialize (Hm c Hc). destruct (m c). tauto. Qed.

Lemma ends_bind {A B} fuel (m : Io A) (k : A -> Io B) : stays m -> (forall a, ends_within fuel (k a)) -> ends_within fuel (io_bind m k).
Proof.
  intros Hm Hk c Hc Hf. unfold io_bind. specialize (Hm c Hc). destruct (m c) as [c1 [[a|e|]| |]]; destruct Hm as (H1&H2&H3); [|done..]. apply Hk; [done|lia].
Qed.

Lemma ends_answers {A S} fuel id ended (body : S -> RawRecord -> Io (S + A)) s : (forall s f, stays (body s f)) -> ends_within fuel (answers fuel id ended body s).
Proof. intros Hb c. by apply answers_total. Qed.

Ltac ends_step := apply ends_bind; [auto with stays|intros ?].

(** Whatever bytes arrive, in whatever pieces: listing, watching and claiming take
    no more turns than there are bytes and records to read. *)
Theorem client_terminates fuel id client pid device gen c : conn_ok c -> conn_size c < Z.of_nat fuel ->
  snd (list_devices fuel c) <> OutOfFuel /\ snd (next_event fuel id c) <> OutOfFuel /\ snd (claim_device fuel client pid device gen c) <> OutOfFuel.
Proof.
  intros Hc Hf. split_and!; revert c Hc Hf.
  - unfold list_devices. do 2 ends_step. apply ends_answers. auto with stays.
  - unfold next_event. apply ends_answers. auto with stays.
  - unfold claim_device. destruct (gen =? 0); [apply ends_stays; auto with stays|]. do 5 ends_step. apply ends_answers. auto with stays.
Qed.

(** ** Claims *)

Lemma bind_returns {A B} (m : Io A) (k : A -> Io B) c c' b : io_bind m k c = (c', Returns (Ok b)) -> exists c1 a, m c = (c1, Returns (Ok a)) /\ k a c1 = (c', Returns (Ok b)).
Proof. unfold io_bind. destruct (m c) as [c1 [[a|e|]| |]]; [|done..]. eauto. Qed.

Lemma checked_returns {A} (r : res BridgeError A) c c' a : checked r c = (c', Returns (Ok a)) -> r = Ok a /\ c' = c.
Proof. unfold checked, give, protocol. destruct r; [|done..]. by intros [= <- <-]. Qed.

Lemma stays_ok {A} (m : Io A) c c' o : stays m -> conn_ok c -> m c = (c', o) -> conn_ok c'.
Proof. intros Hm Hc E. specialize (Hm c Hc). rewrite E in Hm. tauto. Qed.

Lemma validate_claimed_ok r : validate_claimed r = Ok tt ->
  1 <= host_to_device_credits r <= 256 /\ 1 <= device_to_host_credits r <= 256 /\ max_packet_size r <= MAX_PACKET_BYTES /\ max_transfer_size r <= MAX_TRANSFER_BYTES.
Proof.
  unfold validate_claimed. rewrite !and_then_ok, !refuse_ok. intros (_&H1&H2&H3&H4). unfold outside in *. bools. lia.
Qed.

Definition accepted_claim (device : bytes) (gen : Z) (cl : BridgeClaim) : Prop :=
  claim_ok cl /\ claimed_device cl = device /\ claim_generation cl = gen /\ forall first, exists w, connect cl first = Ok w.

Lemma claim_turn_returns device gen u f c c' cl : u64 gen -> gen <> 0 -> frame_typed f -> claim_turn device gen u f c = (c', Returns (Ok (inr cl))) -> accepted_claim device gen cl.
Proof.
  intros Hg Hg0 (_&_&_&Hl). unfold claim_turn.
  destruct (kind (header f)); try done.
  - destruct (Z.eqb_spec (generation (header f)) gen) as [Hgen|]; [|done]. destruct (Z.eqb_spec (lease_id (header f)) 0) as [|Hl0]; [done|]. cbn [negb orb].
    intros (c1&r&_&H)%bind_returns. apply bind_returns in H as (c2&[]&Hv&H). apply checked_returns in Hv as [Hv _]. apply validate_claimed_ok in Hv as (V1&V2&V3&V4).
    case_bool_decide; [|done]. cbn [negb] in H. injection H as _ <-. split_and!; [by split|done|done|]. intros first. unfold connect. cbn [claim_max_packet_size claim_max_transfer_size].
    unfold MAX_PACKET, MAX_TRANSFER, MAX_PACKET_BYTES, MAX_TRANSFER_BYTES in *. rewrite !(proj2 (Z.ltb_ge _ _)) by lia. cbn [orb]. eauto.
  - intros (c1&e&_&H)%bind_returns. done.
Qed.

(** A claim that is accepted is of the device and the generation that were asked
    for, holds what the session assumes of it, and connects. *)
Theorem claim_accepted fuel client pid device gen c c' cl : conn_ok c -> u64 gen ->
  claim_device fuel client pid device gen c = (c', Returns (Ok cl)) -> accepted_claim device gen cl.
Proof.
  intros Hc Hg. unfold claim_device. destruct (Z.eqb_spec gen 0) as [|Hg0]; [done|].
  intros (c1&[]&H1&H)%bind_returns. apply bind_returns in H as (c2&hello&H2&H). apply bind_returns in H as (c3&id&H3&H). apply bind_returns in H as (c4&p&H4&H).
  apply bind_returns in H as (c5&[]&H5&H).
  assert (conn_ok c5) as Hc5.
  { eapply stays_ok, H5; [auto with stays|]. eapply stays_ok, H4; [auto with stays|]. eapply stays_ok, H3; [auto with stays|]. eapply stays_ok, H2; [auto with stays|].
    eapply stays_ok, H1; [auto with stays|done]. }
  eapply answers_returns in H; [exact H|auto with stays| |done]. intros s f ? ? a Hf _ Ha. by eapply claim_turn_returns.
Qed.
End Client.

(** ** The boot context as it is accepted *)

Section Control.
Context {error_json : Json ErrorRecord}.

Lemma check_that_ok b : check_that b = Ok tt <-> b = true.
Proof. by destruct b. Qed.

Lemma and_then_io (x y : res IoError unit) : (let? _ := x in y) = Ok tt <-> x = Ok tt /\ y = Ok tt.
Proof. destruct x as [[]| |]; cbn [res_bind]; intuition discriminate. Qed.

Lemma sha256_same {E F} m d : sha256 (E := E) m = Ok d -> sha256 (E := F) m = Ok d.
Proof.
  pose proof (streamed256 (E := E) [m]) as H1. pose proof (streamed256 (E := F) [m]) as H2. unfold sha256. cbn [updates foldl res_bind] in H1, H2. rewrite H1, H2. congruence.
Qed.
Lemma sha384_same {E F} m d : sha384 (E := E) m = Ok d -> sha384 (E := F) m = Ok d.
Proof.
  pose proof (streamed384 (E := E) [m]) as H1. pose proof (streamed384 (E := F) [m]) as H2. unfold sha384. cbn [updates foldl res_bind] in H1, H2. rewrite H1, H2. congruence.
Qed.

Lemma opt_check_io (o : option bytes) (check : bytes -> res IoError unit) (Q : bytes -> Prop) :
  (forall b, o = Some b -> check b = Ok tt <-> Q b) -> match o with Some b => check b | None => Ok tt end = Ok tt <-> forall b, o = Some b -> Q b.
Proof. intros H. destruct o as [b|]; [rewrite H by done; naive_solver|naive_solver]. Qed.

(** What the client checks of a decoded context beyond the decoder: that the
    instance is not empty, and that the key is a point of the curve. *)
Lemma validate_decoded c : valid_context c ->
  validate_boot_context c = Ok tt <-> fdr_instance c <> Some [] /\ forall k, sep_public_key_uncompressed c = Some k -> import_public k <> None.
Proof.
  intros [V1 V2 V3 V4 V5 V6 _]. unfold validate_boot_context. rewrite !and_then_io.
  assert (match staged_boot_manifest c with Some m => if is_empty m then Err (Protocol InvalidData) else let? hash := sha384 m in check_that (bool_decide (hash = staged_boot_manifest_sha384 c)) | None => Ok tt end = Ok tt) as ->.
  { destruct (staged_boot_manifest c) as [m|]; [|done]. destruct (V6 m eq_refl) as [Hne Hh]. destruct (is_empty m) eqn:E; [by apply empty_iff in E|].
    rewrite (sha384_same _ _ Hh). cbn [res_bind]. by rewrite bool_decide_eq_true_2. }
  assert (match fdr_trust_object c with Some object => let? digest := ok_or (fdr_trust_digest_sha256 c) (Protocol InvalidData) in let? hash := sha256 object in check_that (bool_decide (hash = digest))
    | None => check_that (negb (is_some (fdr_trust_digest_sha256 c))) end = Ok tt) as ->.
  { destruct (fdr_trust_object c) as [o|], (fdr_trust_digest_sha256 c) as [d|]; try done. destruct V1 as (_&_&_&Hh). cbn [ok_or res_bind]. rewrite (sha256_same _ _ Hh).
    cbn [res_bind]. by rewrite bool_decide_eq_true_2. }
  assert (is_some (fdr_trust_object c) || (fdr_element_index c =? 0) && (fdr_element_count c =? 0) = true) as ->.
  { destruct (fdr_trust_object c), (fdr_trust_digest_sha256 c); try done. by destruct V1 as [-> ->]. }
  assert (negb (remote_signer_available c && negb (is_some (sep_public_key_uncompressed c))) = true) as ->.
  { destruct (remote_signer_available c); [|done]. by rewrite V5. }
  rewrite (opt_check_io (fdr_instance c) _ (fun b => b <> [])); last first.
  { intros b Hb. rewrite check_that_ok, (V2 _ Hb). cbn [negb]. rewrite orb_false_r, negb_true_iff. pose proof (empty_iff b). destruct (is_empty b); naive_solver. }
  rewrite (opt_check_io (fdr_material_path c) _ (fun _ => True)); last first.
  { intros b Hb. destruct (V3 _ Hb) as [Ht Hm]. rewrite check_that_ok, Ht. cbn [negb]. rewrite orb_false_r, negb_true_iff. unfold bad_material_path in Hm. bools. done. }
  rewrite (opt_check_io (sep_public_key_uncompressed c) _ (fun k => import_public k <> None)); last first.
  { intros b Hb. rewrite check_that_ok. by destruct (import_public b). }
  cbn [check_that]. naive_solver.
Qed.

(** C28. A boot context is accepted exactly when the reply is the encoding of it, the
    one that [encode] gives, and its key is a point of the curve: the empty
    instance that [decode] lets through does not get past the client. *)
Theorem boot_context_accepted f c : is_bytes (payload f) ->
  boot_context_response f = Ok (inl c) <->
  kind (header f) = BootContextKind /\ context_ok c /\ boot_context_encode c = Ok (payload f) /\ forall k, sep_public_key_uncompressed c = Some k -> import_public k <> None.
Proof.
  intros Hb. unfold boot_context_response. split.
  - destruct (kind (header f)); try done; [unfold named_error; by destruct (protocol _)|]. unfold protocol.
    destruct (boot_context_decode (payload f)) as [c'| |] eqn:Ed; [|done..]. cbn [res_bind]. destruct (validate_boot_context c') as [[]| |] eqn:Ev; [|done..]. cbn [res_bind].
    intros H. assert (c' = c) as -> by congruence. destruct (decode_sound _ _ Hb Ed) as (Hc&Hv&Hp). apply validate_decoded in Ev as [Hi Hk]; [|done].
    split_and!; [done|done| |done]. by apply encode_ok.
  - intros (->&Hc&He&Hk). apply encode_ok in He as (Hv&Hi&->). rewrite decode_complete by done. cbn [protocol res_bind]. by rewrite (proj2 (validate_decoded c Hv)).
Qed.
End Control.

(** ** An example: a device is claimed *)

Module Sample.
Definition server : ServerHelloRecord :=
  {| selected_version := 1; server_name := []; broker_id := replicate 32 48; server_pid := 1; capabilities := SERVER_CAPABILITIES |}.
Definition claimed : ClaimedRecord :=
  {| device_id := [100]; transport_kind := Dwc3; out_max_packet_size := 512; max_packet_size := 0x8000; max_transfer_size := 0x7ffc;
     host_to_device_credits := 256; device_to_host_credits := 256 |}.

(** A codec that knows one document of each kind. *)
Definition one_document {T} (document : bytes) (value : T) : Json T :=
  {| to_vec _ := Some document; from_slice b := if bool_decide (b = document) then Some value else None |}.
#[local] Instance hello_doc : Json HelloRecord := {| to_vec _ := Some [1]; from_slice _ := None |}.
#[local] Instance server_doc : Json ServerHelloRecord := one_document [2] server.
#[local] Instance claim_doc : Json ClaimRequest := {| to_vec _ := Some [3]; from_slice _ := None |}.
#[local] Instance claimed_doc : Json ClaimedRecord := one_document [4] claimed.
#[local] Instance error_doc : Json ErrorRecord := {| to_vec _ := None; from_slice _ := None |}.
#[local] Instance device_doc : Json DeviceRecord := {| to_vec _ := None; from_slice _ := None |}.
#[local] Instance end_doc : Json ListEndRecord := {| to_vec _ := None; from_slice _ := None |}.

Definition encoded (h : RecordHeader) (p : bytes) : bytes := match encode_record h p with Ok b => b | _ => [] end.
(** The server's hello, and its answer with a ping before it, cut at odd places. *)
Definition stream : bytes :=
  encoded (session_header ServerHello 7 0 0) [2] ++ encoded (session_header Ping 99 0 0) (encode_ping_nonce 5) ++ encoded (session_header Claimed 8 5 6) [4].
Definition conn : Conn :=
  {| arrivals := [Chunk (ztake 30 stream); Interrupted; Chunk (zdrop 30 stream)]; reader := new_reader; outgoing := []; writes := []; next_id := 7 |}.

Lemma conn_fine : conn_ok conn.
Proof. split; [|apply empty_ok|constructor]. repeat constructor; vm_compute; repeat constructor; discriminate. Qed.

Lemma client_terminates_witness : snd (list_devices 200 conn) <> OutOfFuel.
Proof. apply (client_terminates 200 7 [] 1 [100] 5 conn conn_fine). by vm_compute. Defined.

Definition claim_outcome : Conn * Outcome BridgeClaim := claim_device 200 (replicate 32 48) 1 [100] 5 conn.
Definition claim_made : BridgeClaim :=
  match snd claim_outcome with
  | Returns (Ok cl) => cl
  | _ => {| claimed_device := []; claim_generation := 0; claim_lease := 0; claimed_kind := Dwc3; claim_out_max_packet_size := 0; claim_max_packet_size := 0;
            claim_max_transfer_size := 0; claim_host_credits := 0; claim_device_credits := 0 |}
  end.

Lemma claim_accepted_witness : accepted_claim [100] 5 claim_made.
Proof. apply (claim_accepted 200 (replicate 32 48) 1 [100] 5 conn (fst claim_outcome) claim_made conn_fine); [done|]. vm_compute. reflexivity. Defined.

Definition context_reply : RawRecord :=
  {| header := session_header BootContextKind 3 5 6; payload := match boot_context_encode example_context with Ok b => b | _ => [] end |}.

Lemma context_reply_bytes : is_bytes (payload context_reply).
Proof. vm_compute. repeat constructor; discriminate. Qed.

Lemma boot_context_accepted_witness : boot_context_response context_reply = Ok (inl example_context).
Proof.
  apply (boot_context_accepted context_reply example_context context_reply_bytes). split_and!; [done|exact example_context_ok|by vm_compute|done].
Defined.
End Sample.
