(* ===== verification/Patch.v ===== *)
(** * Patching restore executables: readers, trust caches and code signatures

    The readers of restore_patch.rs, the replacement of a code directory hash in
    a trust cache (restore_patch/trustcache.rs) and the checking and renewal of
    an embedded code signature (restore_patch/code_signature.rs).  A refusal is
    its name, the text between [skip-tcon-] and the colon; a [Range<usize>] is
    the pair of its ends. *)

From S2P Require Import Prelude Windows Sha.
From stdpp Require Import base tactics numbers list option strings sorting gmap.
From Stdlib Require Import ZArith Lia.

Open Scope Z_scope.

(** ** Readers (restore_patch.rs) *)

Definition refusal : Type := string.

Definition read_bytes (data : bytes) (offset len : Z) : res refusal bytes :=
  let? stop := ok_or (checked_add usize_bits offset len) "bounds"%string in
  ok_or (get_range data offset stop) "bounds"%string.

Definition le32 (data : bytes) (offset : Z) : res refusal Z :=
  let? b := read_bytes data offset 4 in Ok (le_val b).
Definition le64 (data : bytes) (offset : Z) : res refusal Z :=
  let? b := read_bytes data offset 8 in Ok (le_val b).
Definition be32 (data : bytes) (offset : Z) : res refusal Z :=
  let? b := read_bytes data offset 4 in Ok (be_val b).
(** [usize::try_from] of a u64. *)
Definition usize64 (value : Z) : res refusal Z :=
  if value <? 2 ^ usize_bits then Ok value else Err "bounds"%string.

Definition checked_mul (w x y : Z) : option Z := if x * y <? 2 ^ w then Some (x * y) else None.

(** ** Trust caches (restore_patch/trustcache.rs) *)

Record Der := MkDer { der_tag : Z; der_body : Z * Z; der_end : Z }.

(** The bytes of a long length. *)
Fixpoint der_digits (encoded : bytes) (length : Z) : res refusal Z :=
  match encoded with
  | [] => Ok length
  | byte :: encoded =>
      let? length := ok_or (n ← checked_mul usize_bits length 256; checked_add usize_bits n byte) "trustcache-der"%string in
      der_digits encoded length
  end.

(** The length after the two bytes of the header: where the body starts and how
    long it is. *)
Definition der_length (data : bytes) (offset first : Z) : res refusal (Z * Z) :=
  if Z.land first 0x80 =? 0 then Ok (offset, first) else
  let count := Z.land first 0x7f in
  if (count =? 0) || (8 <? count) then Err "trustcache-der"%string else
  let? encoded := read_bytes data offset count in
  let? lead := index encoded 0 in
  if lead =? 0 then Err "trustcache-der"%string else
  let? length := der_digits encoded 0 in
  if length <? 128 then Err "trustcache-der"%string else Ok (offset + count, length).

Definition der (data : bytes) (start limit : Z) : res refusal Der :=
  let? header := read_bytes data start 2 in
  let? tag := index header 0 in
  if Z.land tag 0x1f =? 0x1f then Err "trustcache-der"%string else
  let? first := index header 1 in
  let? (offset, length) := der_length data (start + 2) first in
  let? stop := ok_or (checked_add usize_bits offset length) "trustcache-der"%string in
  if limit <? stop then Err "trustcache-der"%string else
  let? _ := read_bytes data offset length in
  Ok (MkDer tag (offset, stop) stop).

(** The elements from [cursor] on. *)
Fixpoint der_fields (fuel : nat) (data : bytes) (cursor stop : Z) : res refusal (list Der) :=
  if stop <=? cursor then Ok [] else
  match fuel with
  | O => Panic
  | S fuel =>
      let? field := der data cursor stop in
      let? fields := der_fields fuel data (der_end field) stop in
      Ok (field :: fields)
  end.

Definition body_of (data : bytes) (d : Der) : res refusal bytes := slice data (der_body d).1 (der_body d).2.

Definition payload (data : bytes) : res refusal (Z * Z) :=
  let? root := der data 0 (zlen data) in
  if negb (der_tag root =? 0x30) || negb (der_end root =? zlen data) then Err "trustcache-im4p"%string else
  let? fields := der_fields (length data) data (der_body root).1 (der_end root) in
  match fields with
  | f0 :: f1 :: f2 :: f3 :: _ =>
      if negb (der_tag f0 =? 0x16) then Err "trustcache-im4p"%string else
      let? magic := body_of data f0 in
      if bool_decide (magic <> bytes_of "IM4P") || negb (der_tag f1 =? 0x16) then Err "trustcache-im4p"%string else
      let? kind := body_of data f1 in
      if bool_decide (kind <> bytes_of "rtsc") || negb (der_tag f2 =? 0x16) || negb (der_tag f3 =? 0x04)
      then Err "trustcache-im4p"%string else Ok (der_body f3)
  | _ => Err "trustcache-im4p"%string
  end.

(** The order of byte slices. *)
Fixpoint slice_cmp (a b : bytes) : comparison :=
  match a, b with
  | [], [] => Eq
  | [], _ => Lt
  | _, [] => Gt
  | x :: a, y :: b => match x ?= y with Eq => slice_cmp a b | c => c end
  end.
Definition slice_le (a b : bytes) : Prop := slice_cmp a b <> Gt.
Definition slice_lt (a b : bytes) : Prop := slice_cmp a b = Lt.
#[export] Instance slice_lt_dec a b : Decision (slice_lt a b).
Proof. unfold slice_lt. destruct (slice_cmp a b); [right|left|right]; done. Defined.

(** The hash of an entry of 22 bytes. *)
Definition cdhash (entry : bytes) : bytes := ztake 20 entry.
(** The order of [sort_by]. *)
Definition entry_le (a b : bytes) : Prop := slice_le (cdhash a) (cdhash b).
#[export] Instance entry_le_dec : RelDecision entry_le.
Proof. intros a b. unfold entry_le, slice_le. destruct (slice_cmp _ _); [left|left|right]; by try intros ?. Defined.

(** [windows(2).any(|pair| pair[0][..20] >= pair[1][..20])] fails. *)
Fixpoint ascending (entries : list bytes) : bool :=
  match entries with
  | a :: (b :: _) as rest => bool_decide (slice_lt (cdhash a) (cdhash b)) && ascending rest
  | _ => true
  end.

(** [slice::as_chunks]: whole chunks only. *)
Definition as_chunks (n : Z) (l : bytes) : list bytes := slice_chunks n (ztake (zlen l / n * n) l).

(** The checked contents of a version 1 cache. *)
Definition cache_entries (cache : bytes) : res refusal (list bytes) :=
  let? version := le32 cache 0 in
  if negb (version =? 1) then Err "trustcache-version"%string else
  let? count := le32 cache 20 in
  let? length := ok_or (n ← checked_mul usize_bits count 22; checked_add usize_bits n 24) "trustcache-layout"%string in
  if negb (length =? zlen cache) then Err "trustcache-layout"%string else
  let? body := slice cache 24 (zlen cache) in
  let entries := as_chunks 22 body in
  if negb (ascending entries) then Err "trustcache-order"%string else Ok entries.

(** The indices that hold a hash, from [index] on. *)
Fixpoint matches (entries : list bytes) (index : Z) (old : bytes) : list Z :=
  match entries with
  | [] => []
  | entry :: entries =>
      (if bool_decide (cdhash entry = old) then [index] else []) ++ matches entries (index + 1) old
  end.

(** [enumerate().any(|(i, entry)| i != index && entry[..20] == new)]. *)
Fixpoint collides (entries : list bytes) (i index : Z) (new : bytes) : bool :=
  match entries with
  | [] => false
  | entry :: entries => (negb (i =? index) && bool_decide (cdhash entry = new)) || collides entries (i + 1) index new
  end.

(** The entries written back, one after another from [offset] on. *)
Fixpoint write_entries (output : bytes) (offset : Z) (entries : list bytes) : res refusal bytes :=
  match entries with
  | [] => Ok output
  | entry :: entries => let? output := copy_at output offset entry in write_entries output (offset + 22) entries
  end.

Definition replace_entry (entries : list bytes) (old new : bytes) : res refusal (list bytes) :=
  match matches entries 0 old with
  | [i] =>
      let? entry := index entries i in
      let? kind := index entry 20 in
      let? flags := index entry 21 in
      if negb (kind =? 2) || negb (flags =? 0) then Err "trustcache-entry"%string else
      if collides entries 0 i new then Err "trustcache-collision"%string else
      let? entry := copy_at entry 0 new in
      let? entries := copy_at entries i [entry] in
      Ok (merge_sort entry_le entries)
  | _ => Err "trustcache-cdhash"%string
  end.

Definition replace (data old new : bytes) : res refusal bytes :=
  let? range := payload data in
  let? cache := slice data range.1 range.2 in
  let? entries := cache_entries cache in
  let? entries := replace_entry entries old new in
  write_entries data (range.1 + 24) entries.

(** ** Code signatures (restore_patch/code_signature.rs) *)

Record ValidatedSignature := MkSignature {
  directory : Z * Z;
  hashes : Z;
  code_limit : Z;
  code_slots : Z;
}.

Definition overlaps (range other : Z * Z) : bool := (range.1 <? other.2) && (other.1 <? range.2).

(** The blobs the index names, by slot. *)
Fixpoint scan_blobs (blob : bytes) (index_end : Z) (indices : list Z) (slots : gmap Z (Z * Z)) (ranges : list (Z * Z)) :
  res refusal (gmap Z (Z * Z)) :=
  match indices with
  | [] => Ok slots
  | index :: indices =>
      let? slot := be32 blob (12 + index * 8) in
      let? offset := be32 blob (16 + index * 8) in
      let? size := be32 blob (offset + 4) in
      if (size <? 8) || (offset <? index_end) then Err "signature-layout"%string else
      let? subblob := read_bytes blob offset size in
      let range := (offset, offset + size) in
      if existsb (overlaps range) ranges || bool_decide (is_Some (slots !! slot)) then Err "signature-layout"%string else
      let? magic := be32 subblob 0 in
      if (magic =? 0xfade0c02) && negb (slot =? 0) then Err "signature-directory"%string else
      scan_blobs blob index_end indices (<[slot := range]> slots) (ranges ++ [range])
  end.

(** The SuperBlob and the slots of its index. *)
Definition super_blob (executable : bytes) (signature : Z * Z) : res refusal bytes :=
  let? blob := read_bytes executable signature.1 (saturating_sub signature.2 signature.1) in
  let? magic := be32 blob 0 in
  if negb (magic =? 0xfade0cc0) then Err "signature-superblob"%string else
  let? length := be32 blob 4 in
  read_bytes blob 0 length.

Definition blob_slots (blob : bytes) : res refusal (gmap Z (Z * Z)) :=
  let? count := be32 blob 8 in
  let? index_end := ok_or (n ← checked_mul usize_bits count 8; checked_add usize_bits n 12) "signature-layout"%string in
  let? _ := read_bytes blob 0 index_end in
  scan_blobs blob index_end (seqZ 0 count) ∅ [].

Definition header_size (version : Z) : res refusal Z :=
  if version =? 0x20000 then Ok 44 else
  if version =? 0x20100 then Ok 48 else
  if version =? 0x20200 then Ok 52 else
  if version =? 0x20300 then Ok 64 else
  if version =? 0x20400 then Ok 88 else
  if version =? 0x20500 then Ok 96 else
  if version =? 0x20600 then Ok 108 else Err "signature-version"%string.

(** The fields of a CodeDirectory that the later checks use. *)
Record Directory := MkDirectory {
  dir_version : Z;
  dir_header : Z;
  dir_ident : Z;
  hash_offset : Z;
  special : Z;
  dir_slots : Z;
  dir_limit : Z;
}.

Definition directory_format (cd : bytes) : res refusal (Z * Z) :=
  let? magic := be32 cd 0 in
  if negb (magic =? 0xfade0c02) then Err "signature-directory"%string else
  let? version := be32 cd 8 in
  let? header := header_size version in
  let? _ := read_bytes cd 0 header in
  let? flags := be32 cd 12 in
  let? hash_size := index cd 36 in
  let? hash_type := index cd 37 in
  let? page_shift := index cd 39 in
  if (Z.land flags 2 =? 0) || negb (hash_size =? 32) || negb (hash_type =? 2) || negb (page_shift =? 12)
  then Err "signature-format"%string else
  let? _ := (if 0x20100 <=? version then
               let? scatter := be32 cd 44 in if negb (scatter =? 0) then Err "signature-scatter"%string else Ok tt
             else Ok tt) in
  let? _ := (if 0x20500 <=? version then
               let? pre := be32 cd 92 in if negb (pre =? 0) then Err "signature-preencrypt"%string else Ok tt
             else Ok tt) in
  Ok (version, header).

Definition directory_fields (cd : bytes) : res refusal Directory :=
  let? (version, header) := directory_format cd in
  let? ident := be32 cd 20 in
  let? hash_offset := be32 cd 16 in
  let? special := be32 cd 24 in
  let? code_slots := be32 cd 28 in
  let? code_limit := be32 cd 32 in
  let? code_limit :=
    (if 0x20300 <=? version then
       let? limit := read_bytes cd 56 8 in
       let limit64 := be_val limit in
       if negb (limit64 =? 0) then usize64 limit64 else Ok code_limit
     else Ok code_limit) in
  Ok (MkDirectory version header ident hash_offset special code_slots code_limit).

(** A string with its terminator in [lo..hi]. *)
Definition terminated (cd : bytes) (lo hi : Z) : res refusal bool :=
  let? text := slice cd lo hi in Ok (existsb (fun byte => byte =? 0) text).

Definition outside (header at_ hashes_start : Z) : bool := (at_ <? header) || (hashes_start <=? at_).

(** The checks on the arrays and strings of the directory. *)
Definition directory_layout (cd : bytes) (d : Directory) (start : Z) : res refusal unit :=
  if (dir_limit d =? 0) || negb (dir_limit d =? start) || negb (dir_slots d =? (dir_limit d + 4095) / 4096)
  then Err "signature-coverage"%string else
  let? special_bytes := ok_or (checked_mul usize_bits (special d) 32) "signature-layout"%string in
  let? hashes_start := ok_or (checked_sub (hash_offset d) special_bytes) "signature-layout"%string in
  let? hashes_end := ok_or (n ← checked_mul usize_bits (dir_slots d) 32; checked_add usize_bits n (hash_offset d)) "signature-layout"%string in
  let? hashes_length := ok_or (checked_sub hashes_end hashes_start) "signature-layout"%string in
  let? _ := read_bytes cd hashes_start hashes_length in
  if (hashes_start <? dir_header d) || outside (dir_header d) (dir_ident d) hashes_start then Err "signature-identifier"%string else
  let? ident := terminated cd (dir_ident d) hashes_start in
  if negb ident then Err "signature-identifier"%string else
  if 0x20200 <=? dir_version d then
    let? team := be32 cd 48 in
    if team =? 0 then Ok tt else
    if outside (dir_header d) team hashes_start then Err "signature-team"%string else
    let? team := terminated cd team hashes_start in
    if negb team then Err "signature-team"%string else Ok tt
  else Ok tt.

Definition special_magic (slot : Z) : res refusal Z :=
  if slot =? 2 then Ok 0xfade0c01 else
  if slot =? 5 then Ok 0xfade7171 else
  if slot =? 7 then Ok 0xfade7172 else
  if (8 <=? slot) && (slot <=? 11) then Ok 0xfade8181 else Err "signature-special-slot"%string.

Definition check_special_slot (blob cd : bytes) (slots : gmap Z (Z * Z)) (hash_offset slot : Z) : res refusal unit :=
  let? expected := slice cd (hash_offset - slot * 32) (hash_offset - (slot - 1) * 32) in
  match slots !! wrap 32 slot with
  | Some range =>
      let? magic := be32 blob range.1 in
      let? expected_magic := special_magic slot in
      if negb (magic =? expected_magic) then Err "signature-special-hash"%string else
      let? content := slice blob range.1 range.2 in
      let? digest := sha256 content in
      if bool_decide (expected <> digest) then Err "signature-special-hash"%string else Ok tt
  | None => if forallb (fun byte => byte =? 0) expected then Ok tt else Err "signature-special-content"%string
  end.

Definition check_page (executable cd : bytes) (hash_offset code_limit index : Z) : res refusal unit :=
  let start := index * 4096 in
  let stop := Z.min (start + 4096) code_limit in
  let? stored := slice cd (hash_offset + index * 32) (hash_offset + (index + 1) * 32) in
  let? page := slice executable start stop in
  let? digest := sha256 page in
  if bool_decide (stored <> digest) then Err "signature-code-hash"%string else Ok tt.

(** A [for] loop whose body only checks. *)
Fixpoint each (check : Z -> res refusal unit) (items : list Z) : res refusal unit :=
  match items with
  | [] => Ok tt
  | item :: items => let? _ := check item in each check items
  end.

Definition check_cms (blob : bytes) (slots : gmap Z (Z * Z)) : res refusal unit :=
  let? cms := ok_or (slots !! 0x10000) "signature-cms"%string in
  if negb (saturating_sub cms.2 cms.1 =? 8) then Err "signature-cms"%string else
  let? magic := be32 blob cms.1 in
  if negb (magic =? 0xfade0b01) then Err "signature-cms"%string else Ok tt.

Definition check_coverage (slots : gmap Z (Z * Z)) (special : Z) : res refusal unit :=
  if existsb (fun slot => (0 <? slot) && (slot <? 0x1000) && (special <? slot)) (map fst (map_to_list slots))
  then Err "signature-special-coverage"%string else Ok tt.

(** [ValidatedSignature::parse]. *)
Definition parse_signature (executable : bytes) (signature : Z * Z) : res refusal ValidatedSignature :=
  let? blob := super_blob executable signature in
  let? slots := blob_slots blob in
  let? cd_range := ok_or (slots !! 0) "signature-directory"%string in
  let? cd := slice blob cd_range.1 cd_range.2 in
  let? d := directory_fields cd in
  let? _ := directory_layout cd d signature.1 in
  let? _ := check_cms blob slots in
  let? _ := each (check_special_slot blob cd slots (hash_offset d)) (seqZ 1 (special d)) in
  let? _ := check_coverage slots (special d) in
  let? _ := each (check_page executable cd (hash_offset d) (dir_limit d)) (seqZ 0 (dir_slots d)) in
  let start := signature.1 + cd_range.1 in
  Ok (MkSignature (start, signature.1 + cd_range.2) (start + hash_offset d) (dir_limit d) (dir_slots d)).

(** One page of [rehash]. *)
Definition rehash_page (v : ValidatedSignature) (original patched : bytes) (index : Z) : res refusal bytes :=
  let start := index * 4096 in
  let stop := Z.min (start + 4096) (code_limit v) in
  let? before := slice original start stop in
  let? after := slice patched start stop in
  if bool_decide (before <> after) then
    let? digest := sha256 after in
    copy_at patched (hashes v + index * 32) digest
  else Ok patched.

Fixpoint rehash_pages (v : ValidatedSignature) (original patched : bytes) (indices : list Z) : res refusal bytes :=
  match indices with
  | [] => Ok patched
  | index :: indices => let? patched := rehash_page v original patched index in rehash_pages v original patched indices
  end.

(** [patched] after the call, the old and the new hash of the directory. *)
Definition rehash (v : ValidatedSignature) (original patched : bytes) : res refusal (bytes * (bytes * bytes)) :=
  if negb (zlen original =? zlen patched) then Err "signature-edit"%string else
  let? before := slice original (code_limit v) (zlen original) in
  let? after := slice patched (code_limit v) (zlen patched) in
  if bool_decide (before <> after) then Err "signature-edit"%string else
  let? directory_before := slice original (directory v).1 (directory v).2 in
  let? old := sha256 directory_before in
  let? patched := rehash_pages v original patched (seqZ 0 (code_slots v)) in
  let? directory_after := slice patched (directory v).1 (directory v).2 in
  let? new := sha256 directory_after in
  let? old := slice old 0 20 in
  let? new := slice new 0 20 in
  Ok (patched, (old, new)).
