(* ===== verification/PatchSign.v ===== *)
(** * Patching restore executables: renewed signatures validate

    Lemmas about [Patch.parse_signature] and [Patch.rehash], and the theorem that
    a validated signature validates again after its pages were edited and
    rehashed. *)

From S2P Require Import Prelude Windows Sha ShaProps Ecdsa Patch.
From stdpp Require Import base tactics numbers list option strings sorting gmap.
From Stdlib Require Import ZArith Lia.

Open Scope Z_scope.

(** ** Byte strings that agree outside a region *)

Abbreviation part lo n l := (ztake n (zdrop lo l)).

Lemma zdrop_ztake {A} (l : list A) b n : 0 <= b -> zdrop b (ztake n l) = ztake (n - b) (zdrop b l).
Proof. intros. unfold zdrop, ztake. rewrite skipn_firstn_comm. f_equal. lia. Qed.

Lemma part_of_part {A} (l : list A) a n b m : 0 <= a -> 0 <= b -> 0 <= m -> b + m <= n -> part b m (part a n l) = part (a + b) m l.
Proof.
  intros Ha Hb Hm Hn. rewrite zdrop_ztake by lia. rewrite zdrop_zdrop by lia. rewrite ztake_ztake. f_equal. lia.
Qed.

(** The same length, and the same bytes in every part outside [lo, hi). *)
Record agree (lo hi : Z) (l l' : bytes) : Prop := {
  agree_len : zlen l = zlen l';
  agree_part a n : 0 <= a -> 0 <= n -> a + n <= lo \/ hi <= a -> part a n l = part a n l';
}.

Lemma agree_refl lo hi l : agree lo hi l l.
Proof. by constructor. Qed.

Lemma agree_trans lo hi l1 l2 l3 : agree lo hi l1 l2 -> agree lo hi l2 l3 -> agree lo hi l1 l3.
Proof. intros [H1 P1] [H2 P2]. constructor; [by rewrite H1|]. intros a n ? ? ?. by rewrite P1, P2. Qed.

Lemma agree_sub lo hi l l' a n : 0 <= a -> a + n <= zlen l -> agree lo hi l l' -> agree (lo - a) (hi - a) (part a n l) (part a n l').
Proof.
  intros Ha Hn [Hl Hp]. constructor; [rewrite !zlen_ztake, !zlen_zdrop; lia|]. intros b m Hb Hm Hd.
  rewrite !zdrop_ztake by lia. rewrite !zdrop_zdrop, !ztake_ztake by lia.
  destruct (Z.leb_spec 0 (Z.min m (n - b))); [apply Hp; lia|]. unfold ztake. by rewrite !(Z2Nat.nonpos (Z.min _ _)) by lia.
Qed.

Lemma agree_copy {E} lo hi l pos src l' : copy_at (E := E) l pos src = Ok l' -> lo <= pos -> pos + zlen src <= hi -> agree lo hi l l'.
Proof.
  intros Hc Hlo Hhi. pose proof (zlen_nonneg src). constructor.
  - apply copy_at_inv in Hc as (_&_&->&_). done.
  - intros a n ? ? ?. symmetry. eapply part_copy_other; [done..|]. lia.
Qed.

Section agree.
Context (lo hi : Z) (l l' : bytes) (Ha : agree lo hi l l').

Lemma agree_range a b : b <= lo \/ hi <= a -> get_range l a b = get_range l' a b.
Proof.
  intros Hd. unfold get_range. rewrite (agree_len _ _ _ _ Ha). destruct (_ && _) eqn:E; [|done]. bools. f_equal.
  apply (agree_part _ _ _ _ Ha); lia.
Qed.

Lemma agree_read a n : a + n <= lo \/ hi <= a -> read_bytes l a n = read_bytes l' a n.
Proof.
  intros Hd. unfold read_bytes, checked_add. case_match; [|done]. cbn [ok_or res_bind]. by rewrite agree_range.
Qed.

Lemma agree_be32 a : a + 4 <= lo \/ hi <= a -> be32 l a = be32 l' a.
Proof. intros. unfold be32. by rewrite agree_read. Qed.

Lemma agree_slice {E} a b : b <= lo \/ hi <= a -> slice (E := E) l a b = slice l' a b.
Proof. intros. unfold slice. by rewrite agree_range. Qed.

Lemma zget_part {A} (k : list A) i : 0 <= i -> zget k i = head (part i 1 k).
Proof.
  intros. unfold zget, ztake, zdrop. rewrite (proj2 (Z.ltb_ge _ _)) by lia. rewrite <- (Nat.add_0_r (Z.to_nat i)), <- lookup_drop.
  destruct (drop _ k) eqn:E; rewrite Nat.add_0_r, E; done.
Qed.

Lemma agree_index {E} i : 0 <= i -> i < lo \/ hi <= i -> index (E := E) l i = index l' i.
Proof. intros. unfold index. rewrite !zget_part by done. do 2 f_equal. apply (agree_part _ _ _ _ Ha); lia. Qed.

(** A check that a range is there. *)
Lemma agree_probe {B} a n (k : res refusal B) : res_bind (read_bytes l a n) (fun _ => k) = res_bind (read_bytes l' a n) (fun _ => k).
Proof.
  unfold read_bytes, checked_add. case_match; [|done]. cbn [ok_or res_bind]. unfold get_range. rewrite (agree_len _ _ _ _ Ha).
  by destruct (_ && _).
Qed.
End agree.

(** ** Readers *)

Lemma read_bytes_ok l a n k : read_bytes l a n = Ok k <-> 0 <= a /\ 0 <= n /\ a + n <= zlen l /\ a + n < 2 ^ 64 /\ k = part a n l.
Proof.
  unfold read_bytes, checked_add, usize_bits. destruct (Z.ltb_spec (a + n) (2 ^ 64)); cbn [ok_or res_bind]; [|naive_solver lia].
  destruct (get_range l a (a + n)) eqn:E; cbn [ok_or].
  - apply get_range_some in E as [? ->]. replace (a + n - a) with n by lia. naive_solver lia.
  - split; [done|]. intros (?&?&?&?&_). exfalso. unfold get_range in E. rewrite !(proj2 (Z.leb_le _ _)) in E by lia. done.
Qed.

Lemma be32_ok l a x : be32 l a = Ok x -> 0 <= a /\ a + 4 <= zlen l /\ x = be_val (part a 4 l).
Proof. unfold be32. intros (b&(?&?&?&?&->)%read_bytes_ok&[= <-])%res_bind_ok. done. Qed.

Lemma be32_range l a x : is_bytes l -> be32 l a = Ok x -> 0 <= x < 2 ^ 32.
Proof.
  intros Hb (?&?&->)%be32_ok. pose proof (be_val_bound (part a 4 l) ltac:(auto with isbytes)) as H1.
  rewrite zlen_ztake, zlen_zdrop in H1. replace (8 * _) with 32 in H1 by lia. done.
Qed.

Lemma be32_sub l a n : 0 <= a -> 4 <= n -> a + n <= zlen l -> a + n < 2 ^ 64 -> be32 (part a n l) 0 = be32 l a.
Proof.
  intros. unfold be32. rewrite (proj2 (read_bytes_ok (part a n l) 0 4 (part a 4 l))), (proj2 (read_bytes_ok l a 4 (part a 4 l))); [done| |].
  - split_and!; [lia..|done].
  - rewrite zlen_ztake, zlen_zdrop. split_and!; [lia..|]. rewrite part_of_part by lia. by rewrite Z.add_0_r.
Qed.

Lemma mul_add_ok w x y z (e : refusal) r : ok_or (n ← checked_mul w x y; checked_add w n z) e = Ok r -> r = x * y + z.
Proof.
  unfold checked_mul. destruct (_ <? _); [|done]. cbn [mbind option_bind]. unfold checked_add. destruct (_ <? _); [|done]. by intros [= <-].
Qed.

(** ** Loops *)

Lemma each_ok f l : each f l = Ok tt <-> Forall (fun i => f i = Ok tt) l.
Proof.
  induction l as [|i l IH]; cbn [each]; [by split|]. rewrite Forall_cons, <- IH. destruct (f i) as [[]| |]; cbn [res_bind]; naive_solver.
Qed.

(** ** The blobs of a SuperBlob *)

Definition disjoint (r s : Z * Z) : Prop := r.2 <= s.1 \/ s.2 <= r.1.

Lemma disjoint_sym r s : disjoint r s -> disjoint s r.
Proof. unfold disjoint. tauto. Qed.

Lemma overlaps_false r s : overlaps r s = false -> disjoint r s.
Proof. unfold overlaps, disjoint. rewrite andb_false_iff. intros [?|?]; bools; lia. Qed.

(** What a slot found is: a range after the index, long enough for a header, in
    the blob, apart from every other slot's range. *)
Record slots_ok (blob : bytes) (index_end : Z) (slots : gmap Z (Z * Z)) : Prop := {
  slot_place k r : slots !! k = Some r -> index_end <= r.1 /\ r.1 + 8 <= r.2 /\ r.2 <= zlen blob;
  slot_apart j k r s : slots !! j = Some r -> slots !! k = Some s -> j <> k -> disjoint r s;
}.

(** One turn of the scan. *)
Lemma scan_step blob index_end i indices slots ranges out : scan_blobs blob index_end (i :: indices) slots ranges = Ok out ->
  exists slot offset size magic, be32 blob (12 + i * 8) = Ok slot /\ be32 blob (16 + i * 8) = Ok offset /\ be32 blob (offset + 4) = Ok size /\
    8 <= size /\ index_end <= offset /\ read_bytes blob offset size = Ok (part offset size blob) /\
    existsb (overlaps (offset, offset + size)) ranges = false /\ slots !! slot = None /\
    be32 (part offset size blob) 0 = Ok magic /\ (magic =? 0xfade0c02) && negb (slot =? 0) = false /\
    scan_blobs blob index_end indices (<[slot := (offset, offset + size)]> slots) (ranges ++ [(offset, offset + size)]) = Ok out.
Proof.
  cbn [scan_blobs]. intros H. apply res_bind_ok in H as (slot&E1&H). apply res_bind_ok in H as (offset&E2&H). apply res_bind_ok in H as (size&E3&H).
  destruct (_ || _) eqn:E4; [done|]. apply res_bind_ok in H as (sub&E5&H). pose proof E5 as (_&_&_&_&->)%read_bytes_ok.
  destruct (_ || bool_decide _) eqn:E6; [done|]. apply res_bind_ok in H as (magic&E7&H). destruct (_ && _) eqn:E8; [done|].
  apply orb_false_iff in E6 as [E6 E9]. apply bool_decide_eq_false in E9. bools. exists slot, offset, size, magic. split_and!; try done.
  by apply eq_None_not_Some.
Qed.

Lemma scan_mono blob index_end indices : forall slots ranges out, scan_blobs blob index_end indices slots ranges = Ok out -> slots ⊆ out.
Proof.
  induction indices as [|i indices IH]; intros slots ranges out H; [by injection H as ->|].
  apply scan_step in H as (slot&offset&size&magic&_&_&_&_&_&_&_&Hn&_&_&H). apply IH in H. etrans; [|exact H]. by apply insert_subseteq.
Qed.

Lemma scan_slots blob index_end indices : 0 <= index_end -> forall slots ranges out,
  slots_ok blob index_end slots -> (forall k r, slots !! k = Some r -> r ∈ ranges) ->
  scan_blobs blob index_end indices slots ranges = Ok out -> slots_ok blob index_end out.
Proof.
  intros Hie. induction indices as [|i indices IH]; intros slots ranges out [Hp Ha] Hr H; [injection H as <-; by constructor|].
  apply scan_step in H as (slot&offset&size&magic&_&_&_&Hs&Ho&Hrd&Hov&Hn&_&_&H). apply read_bytes_ok in Hrd as (Hr1&Hr2&Hr3&Hr4&_).
  assert (forall k r, slots !! k = Some r -> disjoint (offset, offset + size) r) as Hnew.
  { intros k r Hk. apply overlaps_false. apply Hr in Hk. apply not_true_iff_false. intros Ht. apply not_true_iff_false in Hov. apply Hov.
    apply existsb_exists. exists r. split; [by apply list_elem_of_In|done]. }
  refine (IH _ _ _ _ _ H).
  - constructor.
    + intros k r [[<- <-]|[_ Hk]]%lookup_insert_Some; [cbn; lia|by eapply Hp].
    + intros j k r s [[<- <-]|[? Hj]]%lookup_insert_Some [[<- <-]|[? Hk]]%lookup_insert_Some Hne; [done|by eapply Hnew|apply disjoint_sym; by eapply Hnew|by eapply Ha].
  - intros k r [[<- <-]|[_ Hk]]%lookup_insert_Some; apply elem_of_app; [right; by apply list_elem_of_singleton|left; by eapply Hr].
Qed.

(** The scan does not read the end of the range of slot 0. *)
Lemma scan_same blob blob' index_end c0 c1 lo hi indices : agree lo hi blob blob' -> index_end <= c0 -> c0 + 8 <= lo -> hi <= c1 ->
  Forall (fun i => 20 + i * 8 <= index_end) indices -> forall slots ranges out,
  slots_ok blob index_end out -> out !! 0 = Some (c0, c1) ->
  scan_blobs blob index_end indices slots ranges = Ok out -> scan_blobs blob' index_end indices slots ranges = Ok out.
Proof.
  intros Hag Hie Hlo Hhi. induction 1 as [|i indices Hi _ IH]; intros slots ranges out Hout H0 H; [done|].
  apply scan_step in H as (slot&offset&size&magic&E1&E2&E3&Hs&Ho&E4&Hov&Hn&E5&E6&H).
  assert (out !! slot = Some (offset, offset + size)) as Hslot.
  { eapply lookup_weaken; [|by eapply scan_mono]. apply lookup_insert_eq. }
  assert (offset + 8 <= lo \/ hi <= offset) as Hplace.
  { destruct (decide (slot = 0)) as [->|Hne]; [rewrite H0 in Hslot; injection Hslot as -> Hc; lia|].
    destruct (slot_apart _ _ _ Hout _ _ _ _ Hslot H0 Hne) as [?|?]; cbn in *; lia. }
  pose proof (slot_place _ _ _ Hout _ _ Hslot) as (_&_&Hz). cbn in Hz. apply read_bytes_ok in E4 as (?&_&?&?&_).
  cbn [scan_blobs]. rewrite <- !(agree_be32 _ _ _ _ Hag) by lia. rewrite E1. cbn [res_bind]. rewrite E2. cbn [res_bind].
  rewrite <- (agree_be32 _ _ _ _ Hag) by lia. rewrite E3. cbn [res_bind]. rewrite (proj2 (Z.ltb_ge size 8)), (proj2 (Z.ltb_ge offset _)) by lia. cbn [orb].
  rewrite (proj2 (read_bytes_ok blob' offset size (part offset size blob'))); [|split_and!; [lia..| |done|done]; rewrite <- (agree_len _ _ _ _ Hag); lia]. cbn [res_bind].
  rewrite Hov, bool_decide_eq_false_2 by (by rewrite Hn; intros []). cbn [orb]. rewrite be32_sub in E5 |- * by (rewrite <- ?(agree_len _ _ _ _ Hag); lia).
  rewrite <- (agree_be32 _ _ _ _ Hag), E5 by lia. cbn [res_bind]. rewrite E6. by apply IH.
Qed.

(** ** The directory *)

Lemma header_size_ok version header : header_size version = Ok header ->
  44 <= header /\ (0x20100 <= version -> 48 <= header) /\ (0x20200 <= version -> 52 <= header) /\
  (0x20300 <= version -> 64 <= header) /\ (0x20500 <= version -> 96 <= header).
Proof.
  unfold header_size. repeat (case_match; [intros [= <-]; bools; subst; lia|]). done.
Qed.

(** Opens a chain of calls that succeeded. *)
Ltac open_chain H :=
  repeat match type of H with
  | res_bind _ _ = Ok _ => let x := fresh "x" in let E := fresh "E" in apply res_bind_ok in H as (x & E & H); cbv beta iota in H
  | (if ?b then Err _ else _) = Ok _ => let E := fresh "E" in destruct b eqn:E; [discriminate H|]
  end.

Section directory.
Context (lo hi : Z) (cd cd' : bytes) (Hag : agree lo hi cd cd').

Lemma directory_format_same version header : directory_format cd = Ok (version, header) -> header <= lo ->
  directory_format cd' = directory_format cd.
Proof.
  intros H Hlo. unfold directory_format in H. open_chain H. injection H as -> ->. pose proof (header_size_ok _ _ E2) as (?&H1&_&_&H5).
  unfold directory_format. rewrite <- !(agree_be32 _ _ _ _ Hag) by lia. rewrite <- !(agree_index _ _ _ _ Hag) by lia.
  rewrite E, E1. cbn [res_bind]. rewrite E0, E2. cbn [res_bind]. rewrite <- (agree_read _ _ _ _ Hag) by lia.
  destruct (Z.leb_spec 0x20100 version); destruct (Z.leb_spec 0x20500 version); rewrite <- ?(agree_be32 _ _ _ _ Hag) by lia; done.
Qed.

Lemma directory_fields_same d : directory_fields cd = Ok d -> dir_header d <= lo -> directory_fields cd' = Ok d.
Proof.
  intros H Hlo. pose proof H as H'. unfold directory_fields in H'. apply res_bind_ok in H' as ([version header]&Hf&H'). pose proof Hf as Hf'.
  unfold directory_format in Hf'. open_chain Hf'. injection Hf' as -> ->. pose proof (header_size_ok _ _ E2) as (?&_&_&H3&_).
  assert (dir_header d = header) as Eh by (open_chain H'; by injection H' as <-). rewrite Eh in Hlo.
  rewrite <- H. unfold directory_fields. rewrite (directory_format_same _ _ Hf Hlo), Hf. cbn [res_bind].
  rewrite <- !(agree_be32 _ _ _ _ Hag) by lia. destruct (Z.leb_spec 0x20300 version); [|done]. by rewrite <- (agree_read _ _ _ _ Hag) by lia.
Qed.

Lemma terminated_same a b : b <= lo \/ hi <= a -> terminated cd' a b = terminated cd a b.
Proof. intros. unfold terminated. by rewrite (agree_slice _ _ _ _ Hag). Qed.

Lemma directory_layout_same d start : 52 <= dir_header d \/ dir_version d < 0x20200 ->
  0 <= special d -> hash_offset d <= lo -> directory_layout cd d start = Ok tt -> directory_layout cd' d start = Ok tt.
Proof.
  intros Hv Hs Hlo H. unfold directory_layout in H |- *.
  destruct (_ || _); [discriminate H|]. apply res_bind_ok in H as (sb&E1&H). rewrite E1. cbn [res_bind]. apply res_bind_ok in H as (hs&E2&H). rewrite E2. cbn [res_bind].
  apply res_bind_ok in H as (he&E3&H). rewrite E3. cbn [res_bind]. apply res_bind_ok in H as (hl&E4&H). rewrite E4. cbn [res_bind].
  assert (hs <= lo) as Hhs.
  { unfold checked_mul in E1. unfold checked_sub in E2. destruct (_ <? _); [|done]. injection E1 as <-. destruct (_ <=? _); [|done]. injection E2 as <-. lia. }
  rewrite <- (agree_probe _ _ _ _ Hag). apply res_bind_ok in H as (r&E5&H). rewrite E5. cbn [res_bind].
  destruct (_ || _) eqn:C; [done|]. apply orb_false_iff in C as [C _]. rewrite !terminated_same by lia. apply res_bind_ok in H as (t&E6&H). rewrite E6. cbn [res_bind].
  destruct (negb t); [done|]. destruct (Z.leb_spec 0x20200 (dir_version d)); [|done]. bools. rewrite <- (agree_be32 _ _ _ _ Hag) by lia.
  apply res_bind_ok in H as (team&E7&H). rewrite E7. cbn [res_bind]. destruct (team =? 0); [done|]. destruct (outside _ _ _); [done|]. by rewrite terminated_same by lia.
Qed.
End directory.

(** What an accepted directory says. *)
Lemma layout_facts cd d start : 0 <= special d -> 0 <= dir_slots d -> directory_layout cd d start = Ok tt ->
  dir_limit d = start /\ dir_slots d = (start + 4095) / 4096 /\ dir_header d + special d * 32 <= hash_offset d /\ hash_offset d + dir_slots d * 32 <= zlen cd.
Proof.
  intros Hs Hd H. unfold directory_layout in H. destruct (_ || _) eqn:C; [done|].
  apply res_bind_ok in H as (sb&E1&H). apply res_bind_ok in H as (hs&E2&H). apply res_bind_ok in H as (he&E3&H). apply res_bind_ok in H as (hl&E4&H).
  apply res_bind_ok in H as (r&E5&H). destruct (_ || outside _ _ _) eqn:C2; [done|]. apply read_bytes_ok in E5 as (_&_&E5&_). bools.
  unfold checked_mul in E1. unfold checked_sub in E2, E4. destruct (special d * 32 <? _); [|done]. injection E1 as <-.
  destruct (_ <=? hash_offset d); [|done]. injection E2 as <-. apply mul_add_ok in E3 as ->. destruct (_ <=? _) eqn:C4 in E4; [|done]. injection E4 as <-.
  bools. subst. split_and!; lia.
Qed.

Lemma fields_facts cd d : is_bytes cd -> directory_fields cd = Ok d ->
  0 <= hash_offset d /\ 0 <= special d < 2 ^ 32 /\ 0 <= dir_slots d /\ 44 <= dir_header d /\ (52 <= dir_header d \/ dir_version d < 0x20200).
Proof.
  intros Hb H. unfold directory_fields in H. apply res_bind_ok in H as ([version header]&Hf&H).
  unfold directory_format in Hf. open_chain Hf. injection Hf as -> ->. pose proof (header_size_ok _ _ E2) as (?&_&?&_).
  open_chain H. injection H as <-. cbn. repeat match goal with E : be32 _ _ = Ok _ |- _ => apply be32_range in E; [|done] end. lia.
Qed.

(** ** Pages *)

Definition page (limit : Z) (code : bytes) (i : Z) : bytes := part (i * 4096) (Z.min (i * 4096 + 4096) limit - i * 4096) code.
Definition stored (offset : Z) (l : bytes) (i : Z) : bytes := part (offset + i * 32) 32 l.

Lemma check_page_ok executable cd offset limit i :
  0 <= i -> i * 4096 < limit -> limit <= zlen executable -> 0 <= offset -> offset + (i + 1) * 32 <= zlen cd ->
  check_page executable cd offset limit i = Ok tt <-> stored offset cd i = Fips.SHA256 (page limit executable i).
Proof.
  intros. unfold check_page. rewrite !slice_ok by lia. cbn [res_bind]. rewrite sha256_ok. cbn [res_bind].
  unfold stored, page. replace (offset + (i + 1) * 32 - (offset + i * 32)) with 32 by lia. case_bool_decide as Hc; naive_solver.
Qed.

Lemma agree_page lo hi limit l l' i : agree lo hi l l' -> 0 <= i -> i * 4096 < limit -> limit <= lo -> page limit l i = page limit l' i.
Proof. intros Ha ? ? ?. unfold page. apply (agree_part _ _ _ _ Ha); lia. Qed.

Section rehash.
Context (v : ValidatedSignature) (original : bytes).
Let limit := code_limit v.
Let n := code_slots v.
Context (Hlimit : limit <= hashes v) (Hfit : hashes v + n * 32 <= zlen original) (Hpos : 0 <= hashes v) (Hcover : forall i, 0 <= i < n -> i * 4096 < limit).

Definition changed (patched : bytes) (i : Z) : bool := bool_decide (page limit original i <> page limit patched i).

Lemma rehash_page_ok patched i : zlen patched = zlen original -> 0 <= i < n ->
  exists p, rehash_page v original patched i = Ok p /\ agree (hashes v) (hashes v + n * 32) patched p /\
    forall j, 0 <= j < n -> stored (hashes v) p j =
      if bool_decide (i = j) && changed patched j then Fips.SHA256 (page limit patched j) else stored (hashes v) patched j.
Proof.
  intros Hl Hi. pose proof (Hcover i Hi). unfold rehash_page. fold limit. rewrite !slice_ok by lia. cbn [res_bind].
  fold (page limit original i) (page limit patched i). fold (changed patched i). destruct (changed patched i) eqn:Hc.
  - rewrite sha256_ok. cbn [res_bind]. pose proof (zlen_SHA256 (page limit patched i)) as Hz.
    eexists. split; [apply copy_at_ok; lia|]. set (p := _ ++ _).
    assert (copy_at (E := refusal) patched (hashes v + i * 32) (Fips.SHA256 (page limit patched i)) = Ok p) as Hcopy by (apply copy_at_ok; lia).
    split; [eapply agree_copy; [exact Hcopy|lia..]|]. intros j Hj. case_bool_decide as Hij; cbn [andb].
    + subst j. rewrite Hc. unfold stored. rewrite <- Hz. by apply (part_copy_same _ _ _ _ Hcopy).
    + eapply part_copy_other; [exact Hcopy|lia..].
  - exists patched. split; [done|]. split; [apply agree_refl|]. intros j Hj. case_bool_decide as Hij; [subst; by rewrite Hc|done].
Qed.

Lemma rehash_pages_ok indices : Forall (fun i => 0 <= i < n) indices -> forall patched, zlen patched = zlen original ->
  exists p, rehash_pages v original patched indices = Ok p /\ agree (hashes v) (hashes v + n * 32) patched p /\
    forall j, 0 <= j < n -> stored (hashes v) p j =
      if bool_decide (j ∈ indices) && changed patched j then Fips.SHA256 (page limit patched j) else stored (hashes v) patched j.
Proof.
  induction 1 as [|i indices Hi _ IH]; intros patched Hl; cbn [rehash_pages].
  { exists patched. split; [done|]. split; [apply agree_refl|]. intros j _. by rewrite bool_decide_eq_false_2 by (apply not_elem_of_nil). }
  destruct (rehash_page_ok patched i Hl Hi) as (q&->&Hq&Hsq). cbn [res_bind].
  destruct (IH q) as (p&Hp&Hag&Hs); [by rewrite <- (agree_len _ _ _ _ Hq)|]. exists p. split; [done|]. split; [by eapply agree_trans|].
  intros j Hj. rewrite (Hs j Hj), (Hsq j Hj). pose proof (Hcover j Hj).
  assert (page limit q j = page limit patched j) as Hpg by (symmetry; eapply agree_page; [exact Hq|lia..]).
  assert (changed q j = changed patched j) as -> by (unfold changed; by rewrite Hpg). rewrite Hpg.
  destruct (changed patched j); rewrite ?andb_false_r, ?andb_true_r; [|done].
  destruct (decide (i = j)) as [->|Hne]; [rewrite !(bool_decide_eq_true_2 (j = j)), (bool_decide_eq_true_2 (j ∈ j :: _)) by (done || left); by case_bool_decide|].
  rewrite (bool_decide_eq_false_2 (i = j)) by done. rewrite (bool_decide_ext (j ∈ i :: indices) (j ∈ indices)); [done|]. set_solver.
Qed.
End rehash.

(** ** Validating again *)

(** What a parse that succeeded went through. *)
Record parsed (executable : bytes) (signature : Z * Z) (v : ValidatedSignature) (blob cd : bytes) (slots : gmap Z (Z * Z)) (c : Z * Z) (d : Directory) : Prop := {
  ps_blob : super_blob executable signature = Ok blob;
  ps_slots : blob_slots blob = Ok slots;
  ps_range : slots !! 0 = Some c;
  ps_cd : slice (E := refusal) blob c.1 c.2 = Ok cd;
  ps_fields : directory_fields cd = Ok d;
  ps_layout : directory_layout cd d signature.1 = Ok tt;
  ps_cms : check_cms blob slots = Ok tt;
  ps_special : Forall (fun i => check_special_slot blob cd slots (hash_offset d) i = Ok tt) (seqZ 1 (special d));
  ps_coverage : check_coverage slots (special d) = Ok tt;
  ps_pages : Forall (fun i => check_page executable cd (hash_offset d) (dir_limit d) i = Ok tt) (seqZ 0 (dir_slots d));
  ps_v : v = MkSignature (signature.1 + c.1, signature.1 + c.2) (signature.1 + c.1 + hash_offset d) (dir_limit d) (dir_slots d);
}.

Lemma parse_parsed executable signature v : parse_signature executable signature = Ok v <->
  exists blob cd slots c d, parsed executable signature v blob cd slots c d.
Proof.
  unfold parse_signature. split.
  - intros H. apply res_bind_ok in H as (blob&?&H). apply res_bind_ok in H as (slots&?&H). apply res_bind_ok in H as (c&Hc&H).
    apply res_bind_ok in H as (cd&?&H). apply res_bind_ok in H as (d&?&H). apply res_bind_ok in H as ([]&?&H). apply res_bind_ok in H as ([]&?&H).
    apply res_bind_ok in H as ([]&Hs&H). apply res_bind_ok in H as ([]&?&H). apply res_bind_ok in H as ([]&Hp&H). apply each_ok in Hs, Hp.
    injection H as <-. exists blob, cd, slots, c, d. constructor; try done. unfold ok_or in Hc. by case_match; simplify_eq.
  - intros (blob&cd&slots&c&d&[-> Hs Hr Hcd Hf Hl Hcms Hsp Hcov Hp ->]). cbn [res_bind]. rewrite Hs. cbn [res_bind]. rewrite Hr. cbn [ok_or res_bind].
    rewrite Hcd. cbn [res_bind]. rewrite Hf. cbn [res_bind]. rewrite Hl, Hcms, Hcov. cbn [res_bind].
    by rewrite (proj2 (each_ok _ _) Hsp), (proj2 (each_ok _ _) Hp).
Qed.

Lemma super_blob_ok executable signature blob : super_blob executable signature = Ok blob -> exists n,
  0 <= signature.1 /\ 0 <= n <= saturating_sub signature.2 signature.1 /\ signature.1 + saturating_sub signature.2 signature.1 <= zlen executable /\ blob = part signature.1 n executable.
Proof.
  unfold super_blob. intros H. apply res_bind_ok in H as (b&Hb&H). apply res_bind_ok in H as (magic&_&H). destruct (negb _); [done|].
  apply res_bind_ok in H as (n&_&H). apply read_bytes_ok in Hb as (?&?&?&?&->). apply read_bytes_ok in H as (_&?&Hz&_&->).
  rewrite zlen_ztake, zlen_zdrop in Hz. exists n. split_and!; try lia. rewrite part_of_part by lia. by rewrite Z.add_0_r.
Qed.

Lemma super_blob_same executable executable' signature blob lo hi n :
  super_blob executable signature = Ok blob -> blob = part signature.1 n executable -> zlen executable = zlen executable' -> 8 <= lo -> 8 <= n ->
  agree lo hi (part signature.1 (saturating_sub signature.2 signature.1) executable) (part signature.1 (saturating_sub signature.2 signature.1) executable') ->
  0 <= n <= saturating_sub signature.2 signature.1 ->
  super_blob executable' signature = Ok (part signature.1 n executable').
Proof.
  set (N := saturating_sub _ _). intros H Hb Hz Hlo H8 Hag Hn. unfold super_blob in H |- *. fold N in H |- *. apply res_bind_ok in H as (b&Hr&H).
  apply read_bytes_ok in Hr as (?&?&?&?&->). rewrite (proj2 (read_bytes_ok executable' _ _ (part signature.1 N executable'))) by (split_and!; [lia..|done|done]).
  cbn [res_bind]. rewrite <- !(agree_be32 _ _ _ _ Hag) by lia. apply res_bind_ok in H as (magic&->&H). cbn [res_bind]. destruct (negb _); [done|].
  apply res_bind_ok in H as (m&->&H). cbn [res_bind]. apply read_bytes_ok in H as (_&?&Hm&_&Hbl). rewrite zlen_ztake, zlen_zdrop in Hm.
  assert (m = n) as -> by (pose proof (f_equal zlen Hbl) as Hq; rewrite Hb in Hq; repeat rewrite ?zlen_ztake, ?zlen_zdrop in Hq; lia).
  apply read_bytes_ok. rewrite zlen_ztake, zlen_zdrop. split_and!; try lia. rewrite part_of_part by lia. by rewrite Z.add_0_r.
Qed.

(** The slots of an accepted blob, and the same from a blob that differs only
    after the header of the directory. *)
Lemma blob_slots_ok blob slots : blob_slots blob = Ok slots -> slots !! 0 <> None ->
  exists count, be32 blob 8 = Ok count /\ 1 <= count /\ slots_ok blob (count * 8 + 12) slots.
Proof.
  unfold blob_slots. intros H H0. apply res_bind_ok in H as (count&Hc&H). apply res_bind_ok in H as (ie&Hie&H). apply res_bind_ok in H as (b&Hb&H).
  pose proof (mul_add_ok _ _ _ _ _ _ Hie) as ->.
  exists count. split; [done|]. destruct (Z.ltb_spec count 1).
  { exfalso. apply H0. rewrite seqZ_nil in H by lia. injection H as <-. apply lookup_empty. }
  split; [done|]. eapply scan_slots; [| | |exact H]; [lia| |]; [constructor|]; intros *; rewrite lookup_empty; done.
Qed.

Lemma blob_slots_same blob blob' slots c0 c1 lo hi : agree lo hi blob blob' -> blob_slots blob = Ok slots -> slots !! 0 = Some (c0, c1) ->
  c0 + 8 <= lo -> hi <= c1 -> blob_slots blob' = Ok slots.
Proof.
  intros Hag H H0 Hlo Hhi. destruct (blob_slots_ok blob slots H) as (count&Hc&H1&Hok); [by rewrite H0|].
  pose proof (slot_place _ _ _ Hok _ _ H0) as (Hp&_). cbn in Hp. unfold blob_slots in H |- *. rewrite <- (agree_be32 _ _ _ _ Hag) by lia.
  apply res_bind_ok in H as (x&Hx&H). rewrite Hc in Hx. injection Hx as <-. rewrite Hc. cbn [res_bind].
  apply res_bind_ok in H as (ie&Hie&H). rewrite Hie. cbn [res_bind]. rewrite <- (agree_probe _ _ _ _ Hag).
  apply res_bind_ok in H as (b&Hb&H). rewrite Hb. cbn [res_bind].
  pose proof (mul_add_ok _ _ _ _ _ _ Hie) as ->.
  eapply scan_same; [exact Hag|exact Hp|done|done| |exact Hok|exact H0|exact H]. apply Forall_forall. intros i Hi%elem_of_seqZ. lia.
Qed.

Section again.
Context (blob blob' cd cd' : bytes) (slots : gmap Z (Z * Z)) (c : Z * Z) (index_end lo hi : Z).
Context (Hag : agree (c.1 + lo) (c.1 + hi) blob blob') (Hcd : agree lo hi cd cd') (Hok : slots_ok blob index_end slots).
Context (Hc : slots !! 0 = Some c) (Hlo : 0 <= lo) (Hhi : c.1 + hi <= c.2).

Lemma other_slot k r : slots !! k = Some r -> k <> 0 -> r.2 <= c.1 + lo \/ c.1 + hi <= r.1.
Proof. intros Hk Hne. destruct (slot_apart _ _ _ Hok _ _ _ _ Hk Hc Hne); lia. Qed.

Lemma cms_same : check_cms blob slots = Ok tt -> check_cms blob' slots = Ok tt.
Proof.
  unfold check_cms. destruct (slots !! 0x10000) as [cms|] eqn:E; [|done]. cbn [ok_or res_bind]. destruct (negb _) eqn:Hl; [done|].
  pose proof (other_slot _ _ E ltac:(done)). unfold saturating_sub in Hl. bools. by rewrite <- (agree_be32 _ _ _ _ Hag) by lia.
Qed.

Lemma special_same i : 1 <= i < 2 ^ 32 -> check_special_slot blob cd slots lo i = Ok tt -> check_special_slot blob' cd' slots lo i = Ok tt.
Proof.
  intros Hi. unfold check_special_slot. rewrite <- (agree_slice _ _ _ _ Hcd) by lia. destruct (slice cd _ _) as [expected| |]; [|done..]. cbn [res_bind].
  destruct (slots !! wrap 32 i) as [r|] eqn:E; [|done]. rewrite wrap_small in E by (unfold in_range; lia). pose proof (other_slot _ _ E ltac:(lia)).
  pose proof (slot_place _ _ _ Hok _ _ E) as (_&?&_). rewrite <- (agree_be32 _ _ _ _ Hag) by lia. by rewrite <- (agree_slice _ _ _ _ Hag) by lia.
Qed.
End again.

Lemma slice_bytes {E} l a b k : slice (E := E) l a b = Ok k -> is_bytes l -> is_bytes k.
Proof. intros (_&_&->)%slice_inv. auto with isbytes. Qed.

(** Where the parts of an accepted signature lie. *)
Record bounds (executable : bytes) (signature : Z * Z) (blob cd : bytes) (slots : gmap Z (Z * Z)) (c : Z * Z) (d : Directory) (n : Z) : Prop := {
  bd_start : 0 <= signature.1;
  bd_n : 0 <= n <= saturating_sub signature.2 signature.1;
  bd_end : signature.1 + saturating_sub signature.2 signature.1 <= zlen executable;
  bd_blob : blob = part signature.1 n executable;
  bd_len : zlen blob = n;
  bd_c : 12 <= c.1 /\ c.2 <= n;
  bd_slots : exists index_end, slots_ok blob index_end slots;
  bd_cd : cd = part c.1 (c.2 - c.1) blob;
  bd_cd_len : zlen cd = c.2 - c.1;
  bd_special : 0 <= special d < 2 ^ 32;
  bd_header : 44 <= dir_header d /\ (52 <= dir_header d \/ dir_version d < 0x20200);
  bd_hashes : dir_header d <= hash_offset d - special d * 32;
  bd_fit : hash_offset d + dir_slots d * 32 <= c.2 - c.1;
  bd_limit : dir_limit d = signature.1;
  bd_count : 0 <= dir_slots d /\ dir_slots d = (signature.1 + 4095) / 4096;
}.

Lemma parsed_bounds executable signature v blob cd slots c d : is_bytes executable -> parsed executable signature v blob cd slots c d ->
  exists n, bounds executable signature blob cd slots c d n.
Proof.
  intros Hb [Pb Ps Pr Pcd Pf Pl _ _ _ _ _]. destruct (super_blob_ok _ _ _ Pb) as (n&H0&Hn&HN&Hblob).
  destruct (blob_slots_ok _ _ Ps) as (count&_&Hcount&Hok); [by rewrite Pr|]. pose proof (slot_place _ _ _ Hok _ _ Pr) as (Hc1&Hc2&Hc3).
  assert (zlen blob = n) as Hbn by (subst blob; rewrite zlen_ztake, zlen_zdrop; lia).
  assert (is_bytes blob) as Hbb by (subst blob; auto with isbytes).
  destruct (fields_facts _ _ (slice_bytes _ _ _ _ Pcd Hbb) Pf) as (Hho&Hsp&Hds&Hhd&Hver).
  destruct (layout_facts _ _ _ (proj1 Hsp) Hds Pl) as (Hlim&Hslots&Hfit1&Hfit2).
  apply slice_inv in Pcd as (_&_&Ecd). assert (zlen cd = c.2 - c.1) as Hcz by (subst cd; rewrite zlen_ztake, zlen_zdrop; lia).
  exists n. constructor; eauto; lia.
Qed.

(** A parse sees nothing of the change of a page and of its hash. *)
Lemma parse_again executable executable' signature v : is_bytes executable -> parse_signature executable signature = Ok v ->
  zlen executable = zlen executable' ->
  agree (hashes v - code_limit v) (hashes v + code_slots v * 32 - code_limit v)
    (zdrop (code_limit v) executable) (zdrop (code_limit v) executable') ->
  (forall i, 0 <= i < code_slots v -> stored (hashes v) executable' i = Fips.SHA256 (page (code_limit v) executable' i)) ->
  parse_signature executable' signature = Ok v.
Proof.
  intros Hb Hparse Hz Hag Hst. apply parse_parsed in Hparse as (blob&cd&slots&c&d&Hp). destruct (parsed_bounds _ _ _ _ _ _ _ _ Hb Hp) as [n B].
  destruct Hp as [Pb Ps Pr Pcd Pf Pl Pcms Psp Pcov Pp Pv]. destruct B as [H0 Hn HN Hblob Hbn [Hc1 Hc2] [ie Hok] Ecd Hcz Hsp [Hhd Hver] Hfit1 Hfit2 Hlim [Hds Hslots]].
  set (s := signature.1) in *. set (N := saturating_sub signature.2 s) in *. set (lo := hash_offset d) in *. set (hi := lo + dir_slots d * 32). rewrite Pv in Hag, Hst |- *. cbn [hashes code_limit code_slots] in Hag, Hst. fold lo in Hag, Hst.
  rewrite Hlim in Hag, Hst. replace (s + c.1 + lo - s) with (c.1 + lo) in Hag by lia. replace (s + c.1 + lo + dir_slots d * 32 - s) with (c.1 + hi) in Hag by lia.
  assert (forall m, 0 <= m <= N -> agree (c.1 + lo) (c.1 + hi) (part s m executable) (part s m executable')) as Hparts.
  { intros m Hm. assert (0 + m <= zlen (zdrop s executable)) as Hm' by (rewrite zlen_zdrop; lia). pose proof (agree_sub _ _ _ _ 0 m (Z.le_refl 0) Hm' Hag) as H1. by rewrite !zdrop_0, !Z.sub_0_r in H1. }
  pose proof (Hparts n ltac:(lia)) as Hbag. rewrite <- Hblob in Hbag. set (blob' := part s n executable') in *.
  assert (0 <= c.1 /\ c.1 + (c.2 - c.1) <= zlen blob) as [Hc4 Hc5] by lia.
  pose proof (agree_sub _ _ _ _ c.1 (c.2 - c.1) Hc4 Hc5 Hbag) as Hcag. rewrite <- Ecd in Hcag. set (cd' := part c.1 (c.2 - c.1) blob') in *.
  replace (c.1 + lo - c.1) with lo in Hcag by lia. replace (c.1 + hi - c.1) with hi in Hcag by lia.
  apply parse_parsed. exists blob', cd', slots, c, d. constructor; try done.
  - eapply super_blob_same; [exact Pb|exact Hblob|done| | |exact (Hparts N ltac:(lia))|done]; lia.
  - eapply blob_slots_same; [exact Hbag|exact Ps|rewrite Pr; by rewrite <- surjective_pairing|lia|lia].
  - apply slice_ok; [lia|]. rewrite <- (agree_len _ _ _ _ Hbag). lia.
  - eapply directory_fields_same; [exact Hcag|exact Pf|lia].
  - eapply directory_layout_same; [exact Hcag|done|lia|done|exact Pl].
  - eapply cms_same; [exact Hbag|exact Hok|exact Pr|lia|lia|exact Pcms].
  - apply Forall_forall. intros i Hi. rewrite Forall_forall in Psp. eapply special_same; [exact Hbag|exact Hcag|exact Hok|exact Pr|lia|lia| |by apply Psp].
    apply elem_of_seqZ in Hi. lia.
  - apply Forall_forall. intros i Hi%elem_of_seqZ. rewrite Hlim. apply check_page_ok; [lia|words|lia|lia|rewrite <- (agree_len _ _ _ _ Hcag); lia|].
    rewrite <- (Hst i) by lia. unfold stored, cd', blob'. rewrite !part_of_part by lia. f_equal. f_equal. lia.
Qed.

(** What the fields of an accepted signature say of the executable. *)
Lemma signature_facts executable signature v : is_bytes executable -> parse_signature executable signature = Ok v ->
  0 <= code_limit v /\ code_limit v <= (directory v).1 /\ (directory v).1 <= hashes v /\
  hashes v + code_slots v * 32 <= (directory v).2 /\ (directory v).2 <= zlen executable /\ 0 <= code_slots v /\
  (forall i, 0 <= i < code_slots v -> i * 4096 < code_limit v /\ stored (hashes v) executable i = Fips.SHA256 (page (code_limit v) executable i)).
Proof.
  intros Hb Hparse. apply parse_parsed in Hparse as (blob&cd&slots&c&d&Hp). destruct (parsed_bounds _ _ _ _ _ _ _ _ Hb Hp) as [n B].
  destruct Hp as [_ _ _ _ _ _ _ _ _ Pp ->]. destruct B as [H0 Hn HN Hblob Hbn [Hc1 Hc2] _ Ecd Hcz Hsp [Hhd _] Hfit1 Hfit2 Hlim [Hds Hslots]].
  cbn [code_limit directory hashes code_slots fst snd]. rewrite Hlim in *. split_and!; try lia. intros i Hi. assert (i * 4096 < signature.1) as Hcov by words. split; [done|].
  rewrite Forall_forall in Pp. assert (i ∈ seqZ 0 (dir_slots d)) as Hin by (apply elem_of_seqZ; lia). specialize (Pp i Hin).
  apply check_page_ok in Pp; [|lia..]. rewrite <- Pp. unfold stored. rewrite Ecd, Hblob, !part_of_part by lia. f_equal. f_equal. lia.
Qed.

(** The old hash, the new hash. *)
Definition directory_hash (v : ValidatedSignature) (executable : bytes) : bytes :=
  ztake 20 (Fips.SHA256 (part (directory v).1 ((directory v).2 - (directory v).1) executable)).

Lemma rehash_ok v original patched : zlen patched = zlen original -> zdrop (code_limit v) patched = zdrop (code_limit v) original ->
  0 <= code_limit v /\ code_limit v <= (directory v).1 /\ (directory v).1 <= hashes v /\
  hashes v + code_slots v * 32 <= (directory v).2 /\ (directory v).2 <= zlen original ->
  0 <= code_slots v -> (forall i, 0 <= i < code_slots v -> i * 4096 < code_limit v) ->
  exists out, rehash v original patched = Ok (out, (directory_hash v original, directory_hash v out)) /\
    agree (hashes v) (hashes v + code_slots v * 32) patched out /\
    forall j, 0 <= j < code_slots v -> stored (hashes v) out j =
      if changed v original patched j then Fips.SHA256 (page (code_limit v) patched j) else stored (hashes v) patched j.
Proof.
  intros Hz Ht (H0&H1&H2&H3&H4) Hn Hcov. unfold rehash. rewrite Hz, Z.eqb_refl. cbn [negb]. rewrite !slice_ok by lia. cbn [res_bind].
  rewrite Ht, bool_decide_eq_false_2 by (intros Hne; by apply Hne). rewrite sha256_ok. cbn [res_bind].
  destruct (rehash_pages_ok v original ltac:(lia) ltac:(lia) ltac:(lia) Hcov (seqZ 0 (code_slots v))) with (patched := patched) as (out&->&Hag&Hst);
    [apply Forall_forall; intros i Hi%elem_of_seqZ; lia|done|]. cbn [res_bind].
  pose proof (agree_len _ _ _ _ Hag). rewrite slice_ok by lia. cbn [res_bind]. rewrite sha256_ok. cbn [res_bind]. rewrite !slice_ok by (rewrite ?zlen_SHA256; lia). cbn [res_bind].
  rewrite !zdrop_0. exists out. split; [done|]. split; [done|]. intros j Hj. rewrite (Hst j Hj), bool_decide_eq_true_2; [done|]. apply elem_of_seqZ. lia.
Qed.

Lemma rehash_again executable signature v patched : is_bytes executable -> parse_signature executable signature = Ok v ->
  zlen patched = zlen executable -> zdrop (code_limit v) patched = zdrop (code_limit v) executable ->
  exists out, rehash v executable patched = Ok (out, (directory_hash v executable, directory_hash v out)) /\
    parse_signature out signature = Ok v /\
    ztake (code_limit v) out = ztake (code_limit v) patched /\
    agree (hashes v) (hashes v + code_slots v * 32) patched out.
Proof.
  intros Hb Hp Hz Ht. destruct (signature_facts _ _ _ Hb Hp) as (H0&H1&H2&H3&H4&H5&Hpages).
  destruct (rehash_ok v executable patched Hz Ht) as (out&Hr&Hag&Hst); [lia|done|intros; by apply Hpages|].
  exists out. split; [done|]. pose proof (agree_len _ _ _ _ Hag) as Hlen. split; [|split; [|done]].
  - eapply parse_again; [done|exact Hp|lia| |].
    + rewrite <- Ht. assert (code_limit v + (zlen patched - code_limit v) <= zlen patched) as Hle by lia. pose proof (agree_sub _ _ _ _ _ _ H0 Hle Hag) as Hs.
      by rewrite !ztake_all in Hs by (rewrite zlen_zdrop; lia).
    + intros i Hi. destruct (Hpages i Hi) as [Hc Hs]. rewrite (Hst i Hi), <- (agree_page _ _ _ _ _ _ Hag) by lia.
      unfold changed. case_bool_decide as He; [done|]. rewrite <- He, <- Hs. unfold stored.
      replace (hashes v + i * 32) with (code_limit v + (hashes v - code_limit v + i * 32)) by lia. rewrite <- !zdrop_zdrop by lia. by rewrite Ht.
  - symmetry. pose proof (agree_part _ _ _ _ Hag 0 (code_limit v) ltac:(lia) H0 ltac:(lia)) as Hs. by rewrite !zdrop_0 in Hs.
Qed.

(** C8. When the embedded signature of an executable was accepted and its code is
    edited, without changing its length or a byte from the signature on, then
    renewing the page hashes succeeds, and the result is accepted as the very
    same signature: every page hash matches its page again, and the hashes of
    special slots, the other blobs and the directory's own fields are as they
    were.  The edit itself is kept, only the page hashes were written, and the
    two hashes returned are those of the directory before and after. *)
Theorem rehash_revalidates executable signature v patched : is_bytes executable -> parse_signature executable signature = Ok v ->
  zlen patched = zlen executable -> zdrop (code_limit v) patched = zdrop (code_limit v) executable ->
  exists out, rehash v executable patched = Ok (out, (directory_hash v executable, directory_hash v out)) /\
    parse_signature out signature = Ok v /\
    ztake (code_limit v) out = ztake (code_limit v) patched /\
    agree (hashes v) (hashes v + code_slots v * 32) patched out.
Proof. apply rehash_again. Qed.
