(* ===== verification/PatchTrust.v ===== *)
(** * Patching restore executables: a replaced hash in a trust cache

    Lemmas about [Patch.replace], and the theorem that replacing a hash keeps the
    container and the order of the cache and can be undone. *)

From S2P Require Import Prelude Windows Sha ShaProps Patch PatchSign.
From stdpp Require Import base tactics numbers list option strings sorting gmap.
From Stdlib Require Import ZArith Lia.

Open Scope Z_scope.

(** ** The order of hashes *)

Lemma slice_cmp_refl a : slice_cmp a a = Eq.
Proof. induction a as [|x a IH]; cbn [slice_cmp]; [done|]. by rewrite Z.compare_refl. Qed.

Lemma slice_cmp_eq a b : slice_cmp a b = Eq <-> a = b.
Proof.
  split; [|intros ->; apply slice_cmp_refl]. revert b. induction a as [|x a IH]; intros [|y b]; cbn [slice_cmp]; try done.
  destruct (Z.compare_spec x y) as [->| |]; [|done..]. by intros ->%IH.
Qed.

Lemma slice_cmp_flip a b : slice_cmp b a = CompOpp (slice_cmp a b).
Proof.
  revert b. induction a as [|x a IH]; intros [|y b]; cbn [slice_cmp]; try done. rewrite (Z.compare_antisym x y), IH.
  by destruct (x ?= y).
Qed.

Lemma slice_lt_trans a b c : slice_lt a b -> slice_lt b c -> slice_lt a c.
Proof.
  unfold slice_lt. revert b c. induction a as [|x a IH]; intros [|y b] [|z c]; cbn [slice_cmp]; try done.
  destruct (Z.compare_spec x y), (Z.compare_spec y z), (Z.compare_spec x z); subst; try done; try lia. apply IH.
Qed.

Lemma slice_le_spec a b : slice_le a b <-> slice_lt a b \/ a = b.
Proof. unfold slice_le, slice_lt. rewrite <- slice_cmp_eq. destruct (slice_cmp a b); naive_solver. Qed.

#[export] Instance entry_le_trans : Transitive entry_le.
Proof.
  intros a b c. unfold entry_le. rewrite !slice_le_spec. intros [H1|<-] [H2|<-]; eauto using slice_lt_trans.
Qed.

#[export] Instance entry_le_total : Total entry_le.
Proof.
  intros a b. unfold entry_le, slice_le. rewrite (slice_cmp_flip (cdhash a)). destruct (slice_cmp _ _); [left|left|right]; done.
Qed.

Lemma entry_le_antisym a b : entry_le a b -> entry_le b a -> cdhash a = cdhash b.
Proof.
  unfold entry_le, slice_le. rewrite (slice_cmp_flip (cdhash a)). rewrite <- (slice_cmp_eq (cdhash a)). destruct (slice_cmp _ _); naive_solver.
Qed.

(** Ascending is sorted without a repeated hash. *)
Lemma ascending_sorted entries : ascending entries = true -> StronglySorted (fun a b => slice_lt (cdhash a) (cdhash b)) entries.
Proof.
  intros H. apply Sorted.Sorted_StronglySorted; [intros a b c; apply slice_lt_trans|].
  induction entries as [|a [|b l] IH]; [constructor|repeat constructor|]. cbn [ascending] in H. apply andb_prop in H as [H1%bool_decide_eq_true H2].
  constructor; [by apply IH|by constructor].
Qed.

Lemma ascending_le entries : ascending entries = true -> Sorted entry_le entries /\ NoDup (map cdhash entries).
Proof.
  intros H%ascending_sorted. split.
  - apply StronglySorted_Sorted. induction H as [|a l Hl IH Ha]; constructor; [done|]. eapply Forall_impl; [exact Ha|]. cbn. intros b Hb. apply slice_le_spec. by left.
  - induction H as [|a l Hl IH Ha]; cbn [map]; [constructor|]. constructor; [|done]. rewrite list_elem_of_fmap. intros (b&Hb&Hin).
    rewrite Forall_forall in Ha. specialize (Ha b Hin). rewrite Hb in Ha. unfold slice_lt in Ha. by rewrite slice_cmp_refl in Ha.
Qed.

Lemma sorted_ascending entries : Sorted entry_le entries -> NoDup (map cdhash entries) -> ascending entries = true.
Proof.
  induction 1 as [|a l Hl IH Ha]; [done|]. cbn [map]. rewrite NoDup_cons. intros [Hn Hd]. destruct l as [|b l]; [done|]. specialize (IH Hd).
  change (bool_decide (slice_lt (cdhash a) (cdhash b)) && ascending (b :: l) = true). rewrite IH, bool_decide_eq_true_2; [done|]. inversion_clear Ha as [|? ? Hab]. unfold entry_le in Hab. apply slice_le_spec in Hab as [?|He]; [done|].
  destruct Hn. rewrite He. by left.
Qed.

(** Two sorted arrangements of the same entries are one. *)
Lemma sorted_same l k : Sorted entry_le l -> Sorted entry_le k -> l ≡ₚ k -> NoDup (map cdhash l) -> l = k.
Proof.
  intros Hl Hk Hp Hd. apply (Sorted_unique_strong entry_le); [|done..]. intros x y Hx Hy Hxy Hyx. rewrite <- Hp in Hy.
  pose proof (entry_le_antisym _ _ Hxy Hyx) as He. apply list_elem_of_lookup in Hx as [i Hi], Hy as [j Hj].
  assert (i = j) as ->; [|congruence]. eapply NoDup_lookup; [exact Hd|rewrite list_lookup_fmap, Hi; done|rewrite list_lookup_fmap, Hj; cbn; by rewrite He].
Qed.

(** ** Replacing an entry *)

Abbreviation hashes_of entries := (map cdhash entries).

Lemma matches_none entries base old : old ∉ hashes_of entries -> matches entries base old = [].
Proof.
  revert base. induction entries as [|e l IH]; intros base; cbn [matches map]; [done|]. rewrite not_elem_of_cons. intros [? ?].
  by rewrite bool_decide_eq_false_2, IH by congruence.
Qed.

Lemma matches_none_inv entries base old : matches entries base old = [] -> old ∉ hashes_of entries.
Proof.
  revert base. induction entries as [|e l IH]; intros base; cbn [matches map]; [intros _; apply not_elem_of_nil|].
  case_bool_decide as H; [done|]. intros ?%IH. apply not_elem_of_cons. split; [congruence|done].
Qed.

Lemma matches_one entries old : forall base i, matches entries base old = [i] <->
  exists l1 e l2, entries = l1 ++ e :: l2 /\ i = base + zlen l1 /\ cdhash e = old /\ old ∉ hashes_of (l1 ++ l2).
Proof.
  induction entries as [|e l IH]; intros base i; cbn [matches].
  { split; [done|]. intros (l1&e&l2&He&_). by destruct l1. }
  case_bool_decide as He; cbn [app].
  - split.
    + intros [= <- Hm]. exists [], e, l. rewrite zlen_nil. split_and!; [done|lia|done|by eapply matches_none_inv].
    + intros (l1&f&l2&Hl&Hi&Hf&Hn). destruct l1 as [|g l1]; cbn [app] in Hl; simplify_eq.
      * rewrite zlen_nil, matches_none by done. f_equal. lia.
      * destruct Hn. by left.
  - rewrite IH. split.
    + intros (l1&f&l2&->&->&Hf&Hn). exists (e :: l1), f, l2. rewrite zlen_cons. split_and!; [done|lia|done|].
      cbn [app map]. apply not_elem_of_cons. split; [congruence|done].
    + intros (l1&f&l2&Hl&Hi&Hf&Hn). destruct l1 as [|g l1]; cbn [app] in Hl; simplify_eq. cbn [app map] in Hn.
      apply not_elem_of_cons in Hn as [_ Hn]. exists l1, f, l2. split_and!; [done|rewrite zlen_cons; lia|done|done].
Qed.

Lemma collides_none entries new : forall i index, index < i \/ i + zlen entries <= index -> collides entries i index new = bool_decide (new ∈ hashes_of entries).
Proof.
  induction entries as [|e l IH]; intros i index Hi; cbn [collides map]; [symmetry; apply bool_decide_eq_false_2, not_elem_of_nil|].
  rewrite zlen_cons in Hi. pose proof (zlen_nonneg l). rewrite IH by lia. rewrite (proj2 (Z.eqb_neq i index)) by lia. cbn [negb andb].
  rewrite (bool_decide_ext (new ∈ cdhash e :: hashes_of l) (cdhash e = new \/ new ∈ hashes_of l)) by (rewrite elem_of_cons; naive_solver).
  by rewrite bool_decide_or.
Qed.

Lemma collides_at l1 e l2 new base : collides (l1 ++ e :: l2) base (base + zlen l1) new = bool_decide (new ∈ hashes_of (l1 ++ l2)).
Proof.
  revert base. induction l1 as [|f l1 IH]; intros base; cbn [app collides].
  - rewrite zlen_nil, Z.add_0_r, Z.eqb_refl. cbn [negb andb orb]. apply collides_none. lia.
  - rewrite zlen_cons. pose proof (zlen_nonneg l1). replace (base + (zlen l1 + 1)) with (base + 1 + zlen l1) by lia. rewrite IH.
    rewrite (proj2 (Z.eqb_neq base _)) by lia. cbn [negb andb map].
    rewrite (bool_decide_ext (new ∈ cdhash f :: hashes_of (l1 ++ l2)) (cdhash f = new \/ new ∈ hashes_of (l1 ++ l2))) by (rewrite elem_of_cons; naive_solver).
    by rewrite bool_decide_or.
Qed.

(** An entry that may be replaced: SHA-256, no flags. *)
Definition sha_entry (hash : bytes) : bytes := hash ++ [2; 0].

Lemma cdhash_sha hash : zlen hash = 20 -> cdhash (sha_entry hash) = hash.
Proof. intros. unfold cdhash, sha_entry. rewrite ztake_app_le by lia. by apply ztake_all; lia. Qed.

Lemma zlen_sha hash : zlen hash = 20 -> zlen (sha_entry hash) = 22.
Proof. intros. unfold sha_entry. rewrite zlen_app. change (zlen [2; 0]) with 2. lia. Qed.

Lemma entry_tail (e : bytes) : zlen e = 22 -> exists x y, zget e 20 = Some x /\ zget e 21 = Some y /\ e = cdhash e ++ [x; y].
Proof.
  intros H. destruct (zget_in e 20) as [x Hx]; [lia|]. destruct (zget_in e 21) as [y Hy]; [lia|]. exists x, y. split_and!; [done..|].
  unfold cdhash. rewrite <- (ztake_zdrop 20 e) at 1. f_equal.
  assert (zlen (zdrop 20 e) = 2) as Hz by (rewrite zlen_zdrop; lia).
  assert (forall i, 0 <= i -> zget (zdrop 20 e) i = zget e (20 + i)) as Hg.
  { intros i Hi. unfold zget, zdrop. rewrite !(proj2 (Z.ltb_ge _ _)) by lia. rewrite lookup_drop. f_equal. lia. }
  pose proof (Hg 0 ltac:(lia)) as H0. pose proof (Hg 1 ltac:(lia)) as H1. change (20 + 0) with 20 in H0. change (20 + 1) with 21 in H1. rewrite Hx in H0. rewrite Hy in H1.
  destruct (zdrop 20 e) as [|a [|b [|c l]]]; [done|done|injection H0 as ->; by injection H1 as ->|]. rewrite !zlen_cons in Hz. pose proof (zlen_nonneg l). lia.
Qed.

Lemma index_mid {E A} (l1 : list A) x l2 : index (E := E) (l1 ++ x :: l2) (zlen l1) = Ok x.
Proof. unfold index. rewrite <- (Z.add_0_r (zlen l1)). by rewrite zget_app by lia. Qed.

(** What [replace_entry] does. *)
Lemma replace_entry_ok entries old new out : Forall (fun e => zlen e = 22) entries -> zlen old = 20 -> zlen new = 20 ->
  replace_entry entries old new = Ok out <->
  exists l1 l2, entries = l1 ++ sha_entry old :: l2 /\ old ∉ hashes_of (l1 ++ l2) /\ new ∉ hashes_of (l1 ++ l2) /\
    out = merge_sort entry_le (l1 ++ sha_entry new :: l2).
Proof.
  intros Hall Ho Hn. unfold replace_entry. split.
  - destruct (matches entries 0 old) as [|i [|]] eqn:Hm; [done| |done]. apply matches_one in Hm as (l1&e&l2&->&->&He&Hold). rewrite Z.add_0_l.
    rewrite index_mid. cbn [res_bind].
    apply Forall_app in Hall as [_ Hall]. inversion_clear Hall as [|? ? Hz _]. destruct (entry_tail e Hz) as (x&y&Hx&Hy&Et).
    unfold index. rewrite Hx, Hy. cbn [or_panic res_bind]. destruct (_ || _) eqn:Hk; [done|]. pose proof (collides_at l1 e l2 new 0) as Hc. rewrite Z.add_0_l in Hc. rewrite Hc.
    case_bool_decide as Hcol; [done|]. bools. subst x y.
    intros H. apply res_bind_ok in H as (e'&Hcopy&H). apply res_bind_ok in H as (l'&Hcopy2&H). injection H as <-.
    apply copy_at_inv in Hcopy as (_&_&_&->). apply copy_at_inv in Hcopy2 as (_&_&_&->). exists l1, l2. rewrite He in Et.
    split_and!; [by rewrite Et|done|done|]. f_equal. rewrite Hn. rewrite ztake_app_le, ztake_all by lia. f_equal. change (zlen [_]) with 1. rewrite zdrop_app_ge by lia.
    replace (zlen l1 + 1 - zlen l1) with 1 by lia. cbn [app]. f_equal.
    change (ztake 0 e) with (@nil Z). cbn [app]. rewrite Et. rewrite zdrop_app_ge by lia. replace (0 + 20 - zlen old) with 0 by lia. by rewrite zdrop_0.
  - intros (l1&l2&->&Hold&Hnew&->). rewrite (proj2 (matches_one _ _ 0 (zlen l1))); last first.
    { exists l1, (sha_entry old), l2. split_and!; [done|lia|by apply cdhash_sha|done]. }
    rewrite index_mid. cbn [res_bind].
    assert (zget (sha_entry old) 20 = Some 2 /\ zget (sha_entry old) 21 = Some 0) as [H1 H2].
    { unfold sha_entry. split; [replace 20 with (zlen old + 0) by lia|replace 21 with (zlen old + 1) by lia]; by rewrite zget_app by lia. }
    unfold index. rewrite H1, H2. cbn [or_panic res_bind]. cbn [Z.eqb Pos.eqb negb orb]. pose proof (collides_at l1 (sha_entry old) l2 new 0) as Hc. rewrite Z.add_0_l in Hc.
    rewrite Hc, bool_decide_eq_false_2 by done. unfold sha_entry.
    rewrite (copy_at_prefix [] (old ++ [2; 0]) new 0) by (rewrite ?zlen_app; change (zlen [2; 0]) with 2; done || lia). cbn [res_bind app].
    rewrite zdrop_app_ge by lia. replace (zlen new - zlen old) with 0 by lia. rewrite zdrop_0.
    rewrite (copy_at_prefix l1 _ [new ++ [2; 0]]) by (rewrite ?zlen_cons, ?zlen_nil; pose proof (zlen_nonneg l2); done || lia). cbn [res_bind]. rewrite <- app_assoc. done.
Qed.

(** ** The cache *)

Lemma zlen_concat {A} n (ls : list (list A)) : Forall (fun l => zlen l = n) ls -> zlen (concat ls) = n * zlen ls.
Proof. induction 1 as [|l ls Hl _ IH]; cbn [concat]; [change (zlen []) with 0; lia|]. rewrite zlen_app, zlen_cons. lia. Qed.

Lemma chunks_concat {A} n (ls : list (list A)) : 1 <= n -> Forall (fun l => zlen l = n) ls -> slice_chunks n (concat ls) = ls.
Proof.
  intros Hn. induction 1 as [|l ls Hl _ IH]; cbn [concat]; [done|].
  rewrite slice_chunks_app, IH, slice_chunks_one; [done| |lia|done|by rewrite Hl, Z.mod_same by lia]. intros ->. rewrite zlen_nil in Hl. lia.
Qed.

Lemma chunks_exact {A} n (l : list A) : 1 <= n -> forall k, zlen l = n * k -> Forall (fun c => zlen c = n) (slice_chunks n l).
Proof.
  intros Hn. induction l as [|l Hl IH] using (slice_chunks_ind n Hn); intros k Hk; [constructor|]. rewrite slice_chunks_step by done.
  assert (0 < zlen l) by (destruct l; [done|rewrite zlen_cons; pose proof (zlen_nonneg l); lia]). assert (1 <= k) by nia.
  constructor; [rewrite zlen_ztake; nia|]. apply (IH (k - 1)). rewrite zlen_zdrop. nia.
Qed.

Lemma cache_entries_ok cache entries : cache_entries cache = Ok entries <->
  le32 cache 0 = Ok 1 /\ le32 cache 20 = Ok (zlen entries) /\ zlen cache < 2 ^ 64 /\ 24 <= zlen cache /\
  zdrop 24 cache = concat entries /\ Forall (fun e => zlen e = 22) entries /\ ascending entries = true.
Proof.
  unfold cache_entries, as_chunks. split.
  - intros H. apply res_bind_ok in H as (version&Hv&H). destruct (negb _) eqn:C1; [done|]. apply res_bind_ok in H as (count&Hc&H).
    apply res_bind_ok in H as (length&Hl&H). destruct (negb (length =? _)) eqn:C2; [done|]. apply res_bind_ok in H as (body&Hb&H).
    assert (length < 2 ^ 64) as Hlt.
    { unfold checked_mul in Hl. destruct (_ <? _); [|done]. cbn [mbind option_bind] in Hl. unfold checked_add in Hl. destruct (_ <? _) eqn:?; [|done]. injection Hl as <-. by bools. }
    apply mul_add_ok in Hl. apply slice_inv in Hb as (?&?&Hb). rewrite ztake_all in Hb by (rewrite zlen_zdrop; lia). bools. subst.
    assert (zlen (zdrop 24 cache) = 22 * count) as Hz by (rewrite zlen_zdrop; lia). rewrite Hz, (Z.mul_comm 22), Z.div_mul in H by lia.
    rewrite (ztake_all (count * 22)) in H by lia. destruct (ascending _) eqn:Ha; [|done]. injection H as <-.
    pose proof (chunks_exact 22 _ ltac:(lia) _ Hz) as Hex. pose proof (zlen_concat _ _ Hex) as Hzc. destruct (slice_chunks_spec 22 (zdrop 24 cache) ltac:(lia)) as [Hcat _].
    rewrite Hcat, Hz in Hzc. split_and!; try done; try lia. rewrite Hc. f_equal. lia.
  - intros (->&Hc&Hlt&H24&Hcat&Hex&Ha). cbn [res_bind]. rewrite Hc. cbn [res_bind Z.eqb Pos.eqb negb].
    pose proof (zlen_concat _ _ Hex) as Hzc. rewrite <- Hcat, zlen_zdrop in Hzc. unfold checked_mul, checked_add, usize_bits.
    rewrite (proj2 (Z.ltb_lt (zlen entries * 22) _)) by lia. cbn [mbind option_bind]. rewrite (proj2 (Z.ltb_lt (zlen entries * 22 + 24) _)) by lia. cbn [ok_or res_bind].
    rewrite (proj2 (Z.eqb_eq _ _)) by lia. cbn [negb]. rewrite slice_ok by lia. cbn [res_bind]. rewrite (ztake_all (zlen cache - 24)) by (rewrite zlen_zdrop; lia).
    rewrite Hcat, (zlen_concat _ _ Hex), (Z.mul_comm 22), Z.div_mul by lia. rewrite ztake_all by (rewrite (zlen_concat _ _ Hex); lia).
    rewrite chunks_concat by (done || lia). by rewrite Ha.
Qed.

Lemma write_entries_ok entries : Forall (fun e => zlen e = 22) entries -> forall data offset, 0 <= offset -> offset + 22 * zlen entries <= zlen data ->
  write_entries data offset entries = Ok (ztake offset data ++ concat entries ++ zdrop (offset + 22 * zlen entries) data).
Proof.
  induction 1 as [|e l He _ IH]; intros data offset Ho Hfit; cbn [write_entries concat app].
  { change (zlen []) with 0. rewrite Z.mul_0_r, Z.add_0_r. by rewrite ztake_zdrop. }
  rewrite zlen_cons in *. pose proof (zlen_nonneg l). rewrite copy_at_ok by lia. cbn [res_bind]. rewrite He.
  assert (zlen (ztake offset data) = offset) as Hz by (rewrite zlen_ztake; lia).
  rewrite IH by (rewrite ?zlen_app, ?zlen_zdrop, ?Hz, ?He; lia). f_equal. rewrite (app_assoc (ztake offset data) e).
  assert (zlen (ztake offset data ++ e) = offset + 22) as Hz2 by (rewrite zlen_app, Hz; lia).
  rewrite (ztake_app_le _ (ztake offset data ++ e)), (ztake_all _ (ztake offset data ++ e)) by lia. rewrite (zdrop_app_ge _ (ztake offset data ++ e)) by lia.
  rewrite Hz2, zdrop_zdrop, <- !app_assoc by lia. do 4 f_equal. lia.
Qed.

(** ** The container *)

Lemma der_length_ok data offset first at_ n : der_length data offset first = Ok (at_, n) -> offset <= at_ /\
  forall lo hi data', agree lo hi data data' -> at_ <= lo \/ hi <= offset -> der_length data' offset first = Ok (at_, n).
Proof.
  unfold der_length. destruct (_ =? 0); [intros [= <- <-]; split; [lia|done]|]. destruct (_ || _); [done|]. intros H.
  apply res_bind_ok in H as (encoded&Hr&H). pose proof Hr as (?&?&_&_&_)%read_bytes_ok. apply res_bind_ok in H as (lead&Hl&H). destruct (lead =? 0) eqn:C1; [done|].
  apply res_bind_ok in H as (length&Hd&H). destruct (length <? 128) eqn:C2; [done|]. injection H as <- <-. split; [lia|]. intros lo hi data' Hag Hd'.
  rewrite <- (agree_read _ _ _ _ Hag), Hr by lia. cbn [res_bind]. rewrite Hl. cbn [res_bind]. rewrite C1, Hd. cbn [res_bind]. by rewrite C2.
Qed.

Lemma der_ok data start limit f : der data start limit = Ok f ->
  0 <= start /\ start + 2 <= (der_body f).1 /\ (der_body f).1 <= (der_body f).2 /\ (der_body f).2 = der_end f /\ der_end f <= limit /\ der_end f <= zlen data /\
  forall lo hi data', agree lo hi data data' -> (der_body f).1 <= lo \/ hi <= start -> der data' start limit = Ok f.
Proof.
  unfold der. intros H. apply res_bind_ok in H as (header&Hh&H). apply res_bind_ok in H as (tag&Ht&H). destruct (_ =? _) eqn:C1; [done|].
  apply res_bind_ok in H as (first&Hf&H). apply res_bind_ok in H as ([offset length]&Hl&H). apply res_bind_ok in H as (stop&Hs&H).
  destruct (limit <? stop) eqn:C2; [done|]. apply res_bind_ok in H as (body&Hb&H). injection H as <-. cbn [der_body der_end fst snd].
  pose proof Hh as (?&_&?&_&_)%read_bytes_ok. pose proof Hb as (?&?&?&_&_)%read_bytes_ok. apply der_length_ok in Hl as [Hoff Hlen].
  assert (stop = offset + length) as -> by (unfold checked_add in Hs; destruct (_ <? _); [by injection Hs as <-|done]). apply Z.ltb_ge in C2.
  split_and!; try lia. intros lo hi data' Hag Hd. rewrite <- (agree_read _ _ _ _ Hag), Hh by lia. cbn [res_bind]. rewrite Ht. cbn [res_bind]. rewrite C1, Hf. cbn [res_bind].
  rewrite (Hlen lo hi data' Hag) by lia. cbn [res_bind]. rewrite Hs. cbn [res_bind]. rewrite (proj2 (Z.ltb_ge _ _)) by lia.
  rewrite <- (agree_probe _ _ _ _ Hag), Hb. done.
Qed.

Lemma fields_after fuel : forall data data' cursor stop fields lo hi, agree lo hi data data' -> hi <= cursor ->
  der_fields fuel data cursor stop = Ok fields -> der_fields fuel data' cursor stop = Ok fields.
Proof.
  induction fuel as [|fuel IH]; intros data data' cursor stop fields lo hi Hag Hhi; cbn [der_fields]; destruct (_ <=? _); try done.
  intros H. apply res_bind_ok in H as (f&Hf&H). apply res_bind_ok in H as (fs&Hfs&H). apply der_ok in Hf as (?&?&?&?&_&_&Hsame).
  rewrite (Hsame lo hi data' Hag) by lia. cbn [res_bind]. assert (hi <= der_end f) as Hle by lia. by rewrite (IH _ data' _ _ _ _ _ Hag Hle Hfs).
Qed.

Lemma fields_from fuel : forall data cursor stop fields, der_fields fuel data cursor stop = Ok fields -> Forall (fun f => cursor <= (der_body f).1 /\ (der_body f).2 <= zlen data) fields.
Proof.
  induction fuel as [|fuel IH]; intros data cursor stop fields; cbn [der_fields]; destruct (_ <=? _); intros H; try done; [injection H as <-; constructor..|].
  apply res_bind_ok in H as (f&Hf&H). apply res_bind_ok in H as (fs&Hfs&H). injection H as <-. apply der_ok in Hf as (?&?&?&?&_&?&_).
  constructor; [lia|]. eapply Forall_impl; [by eapply IH|]. cbn. intros; lia.
Qed.

(** The elements are the same when only the body of one of them differs. *)
Lemma fields_around pre : forall fuel data data' cursor stop f post lo hi, agree lo hi data data' -> (der_body f).1 <= lo -> hi <= (der_body f).2 ->
  der_fields fuel data cursor stop = Ok (pre ++ f :: post) ->
  der_fields fuel data' cursor stop = Ok (pre ++ f :: post) /\ Forall (fun g => cursor <= (der_body g).1 /\ (der_body g).2 <= (der_body f).1) pre.
Proof.
  induction pre as [|g pre IH]; intros [|fuel] data data' cursor stop f post lo hi Hag Hlo Hhi; cbn [der_fields app]; destruct (_ <=? _); try done;
    intros H; apply res_bind_ok in H as (h&Hf&H); apply res_bind_ok in H as (fs&Hfs&H); injection H as -> ->.
  - apply der_ok in Hf as (?&?&?&He&_&_&Hsame). split; [|constructor]. rewrite (Hsame lo hi data' Hag) by lia. cbn [res_bind]. 
    assert (hi <= der_end f) as Hle by lia. by rewrite (fields_after _ _ data' _ _ _ _ _ Hag Hle Hfs).
  - pose proof (fields_from _ _ _ _ _ Hfs) as Hall. apply Forall_app in Hall as [_ Hall]. inversion_clear Hall as [|? ? Hfb _].
    apply der_ok in Hf as (?&?&?&He&_&_&Hsame). destruct (IH _ _ data' _ _ _ _ _ _ Hag Hlo Hhi Hfs) as [IH1 IH2]. split.
    + rewrite (Hsame lo hi data' Hag) by lia. cbn [res_bind]. by rewrite IH1.
    + constructor; [lia|]. eapply Forall_impl; [exact IH2|]. cbn. intros; lia.
Qed.

(** The payload is found again when only bytes of it changed. *)
Lemma payload_same data data' range lo : agree lo range.2 data data' -> range.1 <= lo -> payload data = Ok range -> payload data' = Ok range.
Proof.
  intros Hag Hlo H. unfold payload in H |- *. rewrite <- (agree_len _ _ _ _ Hag). apply res_bind_ok in H as (root&Hroot&H). destruct (_ || _) eqn:C; [done|].
  apply res_bind_ok in H as (fields&Hf&H). destruct fields as [|f0 [|f1 [|f2 [|f3 post]]]]; try done. destruct (negb (der_tag f0 =? 0x16)) eqn:C0; [done|].
  apply res_bind_ok in H as (magic&Hm&H). destruct (_ || _) eqn:C1 in H; [done|]. apply res_bind_ok in H as (kind&Hk&H). destruct (_ || _) eqn:C2 in H; [done|]. injection H as <-.
  assert (length data' = length data) as -> by (pose proof (agree_len _ _ _ _ Hag) as Hz; unfold zlen in Hz; lia).
  pose proof (fields_from _ _ _ _ _ Hf) as Hall. do 3 (apply Forall_inv_tail in Hall). apply Forall_inv in Hall as [Hfrom Hto].
  destruct (fields_around [f0; f1; f2] _ data data' _ _ f3 post lo _ Hag Hlo (Z.le_refl _) Hf) as [Hf' Hpre].
  apply der_ok in Hroot as (Hr0&Hr1&_&_&_&_&Hsame). rewrite (Hsame _ _ data' Hag) by lia. cbn [res_bind]. rewrite C, Hf'. cbn [res_bind app].
  inversion_clear Hpre as [|? ? [_ Hp0] Hpre1]. inversion_clear Hpre1 as [|? ? [_ Hp1] _]. rewrite C0. unfold body_of in Hm, Hk |- *.
  rewrite <- !(agree_slice _ _ _ _ Hag) by lia. rewrite Hm. cbn [res_bind]. rewrite C1, Hk. cbn [res_bind]. by rewrite C2.
Qed.

(** ** Replacing a hash *)

Lemma agree_le32 lo hi l l' a : agree lo hi l l' -> a + 4 <= lo \/ hi <= a -> le32 l a = le32 l' a.
Proof. intros Ha ?. unfold le32. by rewrite (agree_read _ _ _ _ Ha). Qed.

Definition entries_of (data : bytes) (range : Z * Z) : res refusal (list bytes) := cache_entries (part range.1 (range.2 - range.1) data).

(** The entries of a container written over. *)
Lemma entries_written data range entries entries' :
  0 <= range.1 <= range.2 -> range.2 <= zlen data -> entries_of data range = Ok entries ->
  Forall (fun e => zlen e = 22) entries' -> zlen entries' = zlen entries -> ascending entries' = true ->
  exists out, write_entries data (range.1 + 24) entries' = Ok out /\ agree (range.1 + 24) range.2 data out /\ entries_of out range = Ok entries' /\
    write_entries out (range.1 + 24) entries = Ok data.
Proof.
  intros Hr Hd He Hex Hlen Hasc. unfold entries_of in *. apply cache_entries_ok in He as (Hv&Hc&Hlt&H24&Hcat&Hex0&_).
  set (n := range.2 - range.1) in *. set (lo := range.1 + 24) in *.
  assert (zlen (part range.1 n data) = n) as Hn by (rewrite zlen_ztake, zlen_zdrop; lia). rewrite Hn in H24, Hlt.
  pose proof (zlen_concat _ _ Hex0) as Hz0. pose proof (zlen_concat _ _ Hex) as Hz. rewrite <- Hcat, zlen_zdrop, Hn in Hz0.
  assert (copy_at (E := refusal) data lo (concat entries') = Ok (ztake lo data ++ concat entries' ++ zdrop (lo + zlen (concat entries')) data)) as Hcopy by (apply copy_at_ok; lia).
  rewrite write_entries_ok by (done || lia). eexists. split; [done|]. rewrite Hz in Hcopy. set (out := ztake lo data ++ _) in *.
  assert (agree lo range.2 data out) as Hag by (eapply agree_copy; [exact Hcopy|lia..]). pose proof (agree_len _ _ _ _ Hag) as Hlo. split; [done|].
  assert (zlen (ztake lo data) = lo) as Hzt by (rewrite zlen_ztake; lia).
  split.
  - apply cache_entries_ok. assert (zlen (part range.1 n out) = n) as Hno by (rewrite zlen_ztake, zlen_zdrop; lia). rewrite Hno.
    assert (range.1 + n <= zlen data /\ 0 <= range.1) as [Hle H0] by lia. pose proof (agree_sub _ _ _ _ _ _ H0 Hle Hag) as Hsub.
    rewrite <- !(agree_le32 _ _ _ _ _ Hsub) by lia. split_and!; try done; [congruence|].
    rewrite zdrop_ztake, zdrop_zdrop by lia. fold lo. rewrite <- (part_copy_same _ _ _ _ Hcopy). f_equal. lia.
  - rewrite write_entries_ok by (done || lia). f_equal. unfold out. rewrite ztake_app_le, ztake_all by lia.
    rewrite zdrop_app_ge, zdrop_app_ge by lia. rewrite zdrop_zdrop by lia. rewrite <- Hcat, zdrop_ztake, zdrop_zdrop by lia. fold lo.
    transitivity (ztake lo data ++ part lo (n - 24) data ++ zdrop (lo + (n - 24)) data); [do 3 f_equal; lia|].
    rewrite <- zdrop_zdrop by lia. by rewrite !ztake_zdrop.
Qed.

(** What replacing a hash makes of the entries, and of the hashes in them. *)
Lemma replaced_entries entries old new out : Forall (fun e => zlen e = 22) entries -> ascending entries = true -> zlen old = 20 -> zlen new = 20 ->
  replace_entry entries old new = Ok out ->
  Forall (fun e => zlen e = 22) out /\ zlen out = zlen entries /\ ascending out = true /\ replace_entry out new old = Ok entries /\
  exists rest, entries ≡ₚ sha_entry old :: rest /\ out ≡ₚ sha_entry new :: rest /\ old ∉ hashes_of rest /\ new ∉ hashes_of rest.
Proof.
  intros Hex Hasc Ho Hn Hr. apply replace_entry_ok in Hr as (l1&l2&->&Hold&Hnew&->); [|done..]. destruct (ascending_le _ Hasc) as [Hsort Hnd].
  set (out := merge_sort _ _). assert (out ≡ₚ sha_entry new :: (l1 ++ l2)) as Hp by (unfold out; by rewrite merge_sort_Permutation, Permutation_middle).
  assert (l1 ++ sha_entry old :: l2 ≡ₚ sha_entry old :: (l1 ++ l2)) as Hp0 by (by rewrite Permutation_middle).
  rewrite Hp0 in Hex, Hnd. inversion_clear Hex as [|? ? _ Hex']. cbn [map] in Hnd. apply NoDup_cons in Hnd as [_ Hnd].
  assert (Forall (fun e => zlen e = 22) out) as Hexo by (rewrite Hp; constructor; [by apply zlen_sha|done]).
  assert (NoDup (hashes_of out)) as Hndo by (rewrite Hp; cbn [map]; rewrite cdhash_sha by done; by apply NoDup_cons).
  assert (Sorted entry_le out) as Hso by (apply Sorted_merge_sort, _).
  split; [done|]. split; [unfold zlen; by rewrite Hp, Hp0|]. split; [by apply sorted_ascending|]. split; [|exists (l1 ++ l2); done].
  assert (sha_entry new ∈ out) as (m1&m2&Hm)%list_elem_of_split by (rewrite Hp; left).
  assert (m1 ++ m2 ≡ₚ l1 ++ l2) as Hmm.
  { apply (inj (sha_entry new ::.)). by rewrite <- Hp, Hm, Permutation_middle. }
  apply replace_entry_ok; [done..|]. exists m1, m2. rewrite Hmm. split_and!; [done..|].
  apply sorted_same; [done|apply Sorted_merge_sort, _| |].
  - rewrite merge_sort_Permutation, Hp0, <- Hmm. by rewrite Permutation_middle.
  - rewrite Hp0. cbn [map]. rewrite cdhash_sha by done. by apply NoDup_cons.
Qed.

Lemma replace_back data old new out : zlen old = 20 -> zlen new = 20 -> replace data old new = Ok out ->
  exists range before after rest, payload data = Ok range /\ payload out = Ok range /\ agree (range.1 + 24) range.2 data out /\
    entries_of data range = Ok before /\ entries_of out range = Ok after /\
    before ≡ₚ sha_entry old :: rest /\ after ≡ₚ sha_entry new :: rest /\ old ∉ hashes_of rest /\ new ∉ hashes_of rest /\
    replace out new old = Ok data.
Proof.
  intros Ho Hn H. unfold replace in H. apply res_bind_ok in H as (range&Hp&H). apply res_bind_ok in H as (cache&Hc&H).
  apply res_bind_ok in H as (before&Hb&H). apply res_bind_ok in H as (after&Ha&H). apply slice_inv in Hc as (Hr1&Hr2&Hc). subst cache.
  fold (entries_of data range) in Hb. pose proof Hb as Hb'. apply cache_entries_ok in Hb' as (_&_&_&_&_&Hex&Hasc).
  destruct (replaced_entries _ _ _ _ Hex Hasc Ho Hn Ha) as (Hex2&Hlen&Hasc2&Hback&rest&P1&P2&N1&N2).
  destruct (entries_written data range before after Hr1 Hr2 Hb Hex2 Hlen Hasc2) as (out'&Hw&Hag&He&Hw2). rewrite Hw in H. injection H as ->.
  assert (range.1 <= range.1 + 24) as H24 by lia. pose proof (payload_same _ _ _ _ Hag H24 Hp) as Hpo.
  exists range, before, after, rest. split_and!; try done. unfold replace. rewrite Hpo. cbn [res_bind]. rewrite slice_ok by (rewrite <- ?(agree_len _ _ _ _ Hag); lia). cbn [res_bind].
  fold (entries_of out range). rewrite He. cbn [res_bind]. by rewrite Hback.
Qed.

(** C14. Replacing a hash in a trust cache that holds it changes nothing but that
    entry and its place: the DER container reads as before, every byte outside
    the entries is the same, the cache is well formed and in strict order again,
    its entries are the old ones with the one hash exchanged, and exchanging the
    hashes back gives the original file byte for byte. *)
Theorem replace_reverses data old new out : zlen old = 20 -> zlen new = 20 -> replace data old new = Ok out ->
  exists range before after rest, payload data = Ok range /\ payload out = Ok range /\ agree (range.1 + 24) range.2 data out /\
    entries_of data range = Ok before /\ entries_of out range = Ok after /\
    before ≡ₚ sha_entry old :: rest /\ after ≡ₚ sha_entry new :: rest /\ old ∉ hashes_of rest /\ new ∉ hashes_of rest /\
    replace out new old = Ok data.
Proof. apply replace_back. Qed.
