(* ===== verification/PatchRecipe.v ===== *)
(** * Patching restore executables: Mach-O images and the recipe

    The Mach-O reader, the A64 instruction arithmetic and the two rewritings of
    restore_patch/recipe.rs, and the whole preparation of a patch
    (restore_patch.rs).  Addresses are u64 and their sums are checked; offsets
    into the file stay below its length.  Instruction words read as a group have
    a fixed number, and every index into them is below it. *)

From S2P Require Import Prelude Windows FatNames Patch.
From stdpp Require Import base tactics numbers list option strings gmap.
From Stdlib Require Import ZArith Lia.

Open Scope Z_scope.

(** ** Mach-O images *)

Record Section_ := MkSection {
  sec_name : bytes;
  sec_address : Z;
  sec_size : Z;
  sec_offset : Z;
  sec_flags : Z;
  reserved1 : Z;
  reserved2 : Z;
}.

Record Segment := MkSegment { seg_address : Z; seg_offset : Z; seg_size : Z }.

Record MachO := MkMachO {
  signature : Z * Z;
  sections : list Section_;
  segments : list Segment;
  symbols : Z * Z * Z * Z;
  indirect : Z * Z;
  fixups : Z * Z;
  base : Z;
}.

(** [position(|byte| *byte == 0)]. *)
Fixpoint zero_position (data : bytes) : option Z :=
  match data with
  | [] => None
  | byte :: data => if byte =? 0 then Some 0 else Z.succ <$> zero_position data
  end.

Definition name (data : bytes) : res refusal bytes :=
  let stop := default (zlen data) (zero_position data) in
  let? text := slice data 0 stop in
  match from_utf8 text with
  | Some _ => Ok text
  | None => Err "macho-name"%string
  end.

(** What the load commands read so far have said. *)
Record Commands := MkCommands {
  c_sections : list Section_;
  c_segments : list Segment;
  c_signature : option (Z * Z);
  c_symbols : option (Z * Z * Z * Z);
  c_indirect : option (Z * Z);
  c_fixups : option (Z * Z);
}.
#[export] Instance eta_commands : Eta Commands := fun c =>
  MkCommands (c_sections c) (c_segments c) (c_signature c) (c_symbols c) (c_indirect c) (c_fixups c).

(** One section of a segment mapped at [address] from [file_offset]. *)
Definition read_section (data lc : bytes) (address file_offset file_size index : Z) : res refusal Section_ :=
  let? section := read_bytes lc (72 + index * 80) 80 in
  let? raw := slice section 0 16 in
  let? name := name raw in
  let? sec_address := le64 section 32 in
  let? size := le64 section 40 in
  let? offset := le32 section 48 in
  let? flags := le32 section 64 in
  let? reserved1 := le32 section 68 in
  let? reserved2 := le32 section 72 in
  let entry := MkSection name sec_address size offset flags reserved1 reserved2 in
  let kind := Z.land flags 0xff in
  if (kind =? 1) || (kind =? 0xc) || (kind =? 0x12) then Ok entry else
  let? section_size := usize64 size in
  let? _ := read_bytes data offset section_size in
  if (offset <? file_offset) || (file_offset + file_size <? offset + section_size) || (sec_address <? address)
     || negb (sec_address - address =? offset - file_offset)
  then Err "macho-section-map"%string else Ok entry.

Fixpoint read_sections (data lc : bytes) (address file_offset file_size : Z) (indices : list Z) : res refusal (list Section_) :=
  match indices with
  | [] => Ok []
  | index :: indices =>
      let? entry := read_section data lc address file_offset file_size index in
      let? entries := read_sections data lc address file_offset file_size indices in
      Ok (entry :: entries)
  end.

(** LC_SEGMENT_64. *)
Definition read_segment (data lc : bytes) (size : Z) : res refusal (list Section_ * Segment) :=
  let? _ := read_bytes lc 0 72 in
  let? address := le64 lc 24 in
  let? file_offset := le64 lc 40 in
  let? file_offset := usize64 file_offset in
  let? file_size := le64 lc 48 in
  let? file_size := usize64 file_size in
  let? _ := read_bytes data file_offset file_size in
  let? _ := ok_or (checked_add 64 address file_size) "macho-segment"%string in
  let? count := le32 lc 64 in
  if bool_decide ((n ← checked_mul usize_bits count 80; checked_add usize_bits n 72) <> Some size) then Err "macho-sections"%string else
  let? entries := read_sections data lc address file_offset file_size (seqZ 0 count) in
  Ok (entries, MkSegment address file_offset file_size).

(** LC_SYMTAB, LC_DYSYMTAB and the linkedit commands. *)
Definition read_symtab (lc : bytes) (size : Z) (c : Commands) : res refusal Commands :=
  if negb (size =? 24) || bool_decide (is_Some (c_symbols c)) then Err "macho-symbols"%string else
  let? s0 := le32 lc 8 in
  let? s1 := le32 lc 12 in
  let? s2 := le32 lc 16 in
  let? s3 := le32 lc 20 in
  Ok (c <| c_symbols := Some (s0, s1, s2, s3) |>).

Definition read_dysymtab (lc : bytes) (size : Z) (c : Commands) : res refusal Commands :=
  if negb (size =? 80) || bool_decide (is_Some (c_indirect c)) then Err "macho-indirect"%string else
  let? i0 := le32 lc 56 in
  let? i1 := le32 lc 60 in
  Ok (c <| c_indirect := Some (i0, i1) |>).

Definition read_linkedit (data lc : bytes) (command size : Z) (c : Commands) : res refusal Commands :=
  if negb (size =? 16) then Err "macho-linkedit"%string else
  let? start := le32 lc 8 in
  let? length := le32 lc 12 in
  let? _ := read_bytes data start length in
  let range := Some (start, start + length) in
  if command =? 0x1d then
    if bool_decide (is_Some (c_signature c)) then Err "macho-linkedit"%string else Ok (c <| c_signature := range |>)
  else
    if bool_decide (is_Some (c_fixups c)) then Err "macho-linkedit"%string else Ok (c <| c_fixups := range |>).

Definition read_command (data lc : bytes) (command size : Z) (c : Commands) : res refusal Commands :=
  if command =? 0x19 then
    let? (entries, segment) := read_segment data lc size in
    Ok (c <| c_sections := c_sections c ++ entries |> <| c_segments := c_segments c ++ [segment] |>)
  else if command =? 0x2 then read_symtab lc size c
  else if command =? 0xb then read_dysymtab lc size c
  else if (command =? 0x1d) || (command =? 0x80000034) then read_linkedit data lc command size c
  else Ok c.

Fixpoint read_commands (commands : nat) (data : bytes) (command_end offset : Z) (c : Commands) : res refusal (Z * Commands) :=
  match commands with
  | O => Ok (offset, c)
  | S commands =>
      let? command := le32 data offset in
      let? size := le32 data (offset + 4) in
      if (size <? 8) || negb (size mod 8 =? 0) || (command_end <? offset + size) then Err "macho-commands"%string else
      let? lc := read_bytes data offset size in
      let? c := read_command data lc command size c in
      read_commands commands data command_end (offset + size) c
  end.

Fixpoint minimum (l : list Z) : option Z :=
  match l with
  | [] => None
  | x :: l => Some (from_option (Z.min x) x (minimum l))
  end.

(** [MachO::parse]. *)
Definition parse_macho (data : bytes) : res refusal MachO :=
  let? magic := le32 data 0 in
  if negb (magic =? 0xfeedfacf) then Err "macho-arm64e"%string else
  let? cpu := le32 data 4 in
  if negb (cpu =? 0x0100000c) then Err "macho-arm64e"%string else
  let? subtype := le32 data 8 in
  if negb (Z.land subtype 0x00ffffff =? 2) then Err "macho-arm64e"%string else
  let? filetype := le32 data 12 in
  if negb (filetype =? 2) then Err "macho-arm64e"%string else
  let? commands := le32 data 16 in
  let? command_size := le32 data 20 in
  let? _ := read_bytes data 32 command_size in
  let command_end := 32 + command_size in
  let? (offset, c) := read_commands (Z.to_nat commands) data command_end 32 (MkCommands [] [] None None None None) in
  if negb (offset =? command_end) then Err "macho-commands"%string else
  let? symbols := ok_or (c_symbols c) "macho-symbols"%string in
  let '(s0, s1, s2, s3) := symbols in
  let? length := ok_or (checked_mul usize_bits s1 16) "macho-symbols"%string in
  let? _ := read_bytes data s0 length in
  let? _ := read_bytes data s2 s3 in
  let? indirect := ok_or (c_indirect c) "macho-indirect"%string in
  let? length := ok_or (checked_mul usize_bits indirect.2 4) "macho-indirect"%string in
  let? _ := read_bytes data indirect.1 length in
  let? base := ok_or (minimum (map seg_address (filter (fun s => seg_size s <> 0 /\ seg_offset s = 0) (c_segments c)))) "macho-base"%string in
  let? signature := ok_or (c_signature c) "macho-signature"%string in
  let? fixups := ok_or (c_fixups c) "macho-fixups"%string in
  Ok (MkMachO signature (c_sections c) (c_segments c) symbols indirect fixups base).

(** [MachO::offset]: the place of the one segment that maps [length] bytes at
    [address]. *)
Fixpoint find_offset (segments : list Segment) (address length : Z) (found : option Z) : res refusal Z :=
  match segments with
  | [] => ok_or found "macho-map"%string
  | segment :: segments =>
      match checked_sub address (seg_address segment) with
      | Some delta =>
          if (delta <=? seg_size segment) && (length <=? seg_size segment - delta) then
            match found with
            | Some _ => Err "macho-map"%string
            | None => find_offset segments address length (Some (seg_offset segment + delta))
            end
          else find_offset segments address length found
      | None => find_offset segments address length found
      end
  end.
Definition offset (image : MachO) (address length : Z) : res refusal Z := find_offset (segments image) address length None.

(** The entry of the import at [address] in a section of stubs or pointers. *)
Definition symbol (image : MachO) (data : bytes) (section : Section_) (address stride : Z) : res refusal bytes :=
  if (stride =? 0) || (address <? sec_address section) || (sec_size section <=? address - sec_address section)
     || negb ((address - sec_address section) mod stride =? 0)
  then Err "macho-import"%string else
  let index := reserved1 section + (address - sec_address section) / stride in
  if (indirect image).2 <=? index then Err "macho-import"%string else
  let? symbol := le32 data ((indirect image).1 + index * 4) in
  let '(s0, s1, s2, s3) := symbols image in
  if s1 <=? symbol then Err "macho-import"%string else
  let? entry := read_bytes data (s0 + symbol * 16) 16 in
  let? kind := Prelude.index entry 4 in
  if negb (Z.land kind 0x0e =? 0) || (Z.land kind 1 =? 0) then Err "macho-import"%string else
  let? string := le32 entry 0 in
  let? table := read_bytes data s2 s3 in
  let? suffix := ok_or (get_range table string (zlen table)) "macho-import"%string in
  let? stop := ok_or (zero_position suffix) "macho-import"%string in
  let? text := slice suffix 0 stop in
  name text.

Definition holds (address : Z) (section : Section_) : bool :=
  (sec_address section <=? address) && (address - sec_address section <? sec_size section).

Definition imported (image : MachO) (data : bytes) (address : Z) (stub : bool) (expected : bytes) : res refusal unit :=
  let kind := if stub then 8 else 6 in
  let? section := ok_or (List.find (fun section => holds address section && (Z.land (sec_flags section) 0xff =? kind)) (sections image)) "recipe-import"%string in
  let? actual := symbol image data section address (if stub then reserved2 section else 8) in
  if bool_decide (actual <> expected) then Err "recipe-import"%string else Ok tt.

Definition u16at (record : bytes) (offset : Z) : res refusal Z :=
  let? b := read_bytes record offset 2 in Ok (le_val b).

(** One step along a chain of pointers: [None] at its end. *)
Fixpoint walk_chain (fuel : nat) (image : MachO) (data : bytes) (segment : Segment) (pointer page_size page_offset chain : Z) : res refusal (option Z) :=
  if (page_size <? chain + 8) || (seg_offset segment + seg_size segment <? page_offset + chain + 8) then Err "recipe-fixups"%string else
  let? value := le64 data (page_offset + chain) in
  if page_offset + chain =? pointer then
    if negb (Z.shiftr value 62 =? 0) then Err "recipe-cfstring"%string else
    let target := Z.lor (Z.land value (2 ^ 43 - 1)) (Z.shiftl (Z.land (Z.shiftr value 43) 0xff) 56) in
    let? target := ok_or (checked_add 64 (base image) target) "recipe-cfstring"%string in
    Ok (Some target)
  else
    let next := Z.land (Z.shiftr value 51) 0x7ff in
    if next =? 0 then Ok None else
    match fuel with
    | O => Panic
    | S fuel => walk_chain fuel image data segment pointer page_size page_offset (chain + next * 8)
    end.

(** The chains of the segment that holds [pointer]; [None] is a [break], or a
    chain that ended. *)
Definition rebase_in (image : MachO) (data fixups : bytes) (starts pointer index : Z) (segment : Segment) : res refusal (option (option Z)) :=
  let? relative := le32 fixups (starts + 4 + index * 4) in
  if relative =? 0 then Ok None else
  let? info := ok_or (checked_add usize_bits starts relative) "recipe-fixups"%string in
  let? size := le32 fixups info in
  let? record := read_bytes fixups info size in
  let? page_size := u16at record 4 in
  let? format := u16at record 6 in
  if negb ((format =? 9) || (format =? 12)) || negb ((page_size =? 4096) || (page_size =? 16384)) then Err "recipe-fixups"%string else
  let? segment_offset := le64 record 8 in
  let? expected := or_panic (checked_sub (seg_address segment) (base image)) in
  if negb (segment_offset =? expected) then Err "recipe-fixups"%string else
  let page := (pointer - seg_offset segment) / page_size in
  let? pages := u16at record 20 in
  if pages <=? page then Ok None else
  let? start := u16at record (22 + page * 2) in
  if start =? 0xffff then Ok None else
  if negb (Z.land start 0x8000 =? 0) then Err "recipe-fixups"%string else
  let page_offset := seg_offset segment + page * page_size in
  let? found := walk_chain (Z.to_nat page_size) image data segment pointer page_size page_offset start in
  Ok (Some found).

Fixpoint rebase_segments (image : MachO) (data fixups : bytes) (starts pointer index : Z) (segments : list Segment) : res refusal Z :=
  match segments with
  | [] => Err "recipe-cfstring"%string
  | segment :: segments =>
      if (pointer <? seg_offset segment) || (seg_size segment <=? pointer - seg_offset segment)
      then rebase_segments image data fixups starts pointer (index + 1) segments else
      let? found := rebase_in image data fixups starts pointer index segment in
      match found with
      | None => Err "recipe-cfstring"%string
      | Some None => rebase_segments image data fixups starts pointer (index + 1) segments
      | Some (Some target) => Ok target
      end
  end.

Definition rebase (image : MachO) (data : bytes) (pointer : Z) : res refusal Z :=
  let? fixups := slice data (fixups image).1 (fixups image).2 in
  let? version := le32 fixups 0 in
  if negb (version =? 0) then Err "recipe-fixups"%string else
  let? starts := le32 fixups 4 in
  let? count := le32 fixups starts in
  if negb (count =? zlen (segments image)) then Err "recipe-fixups"%string else
  rebase_segments image data fixups starts pointer 0 (segments image).

Definition cfstring (image : MachO) (data : bytes) (address : Z) (expected : bytes) : res refusal unit :=
  let? section := ok_or (List.find (fun section => bool_decide (sec_name section = bytes_of "__cfstring") && holds address section) (sections image)) "recipe-cfstring"%string in
  let delta := address - sec_address section in
  if negb (delta mod 32 =? 0) || (sec_size section - delta <? 32) then Err "recipe-cfstring"%string else
  let? at_ := offset image address 32 in
  let? flags := le64 data (at_ + 8) in
  if negb (flags =? 0x7c8) then Err "recipe-cfstring"%string else
  let? length := le64 data (at_ + 24) in
  if negb (length =? zlen expected) then Err "recipe-cfstring"%string else
  let? target := rebase image data (at_ + 16) in
  let? string := offset image target (zlen expected + 1) in
  let? text := read_bytes data string (zlen expected) in
  if bool_decide (text <> expected) then Err "recipe-cfstring"%string else
  let? terminator := index data (string + zlen expected) in
  if negb (terminator =? 0) then Err "recipe-cfstring"%string else Ok tt.

(** ** A64 instruction words *)

(** Sign extension of the low [bits] bits. *)
Definition signed (value bits : Z) : Z := Z.shiftr (as_i32 (wrap 32 (Z.shiftl value (32 - bits)))) (32 - bits).

(** [checked_add_signed]. *)
Definition target (pc delta : Z) : res refusal Z :=
  if (0 <=? pc + delta) && (pc + delta <? 2 ^ 64) then Ok (pc + delta) else Err "recipe-address"%string.

Definition branch (word pc : Z) : res refusal Z := target pc (signed (Z.land word 0x03ffffff) 26 * 4).
Definition conditional (word pc : Z) : res refusal Z := target pc (signed (Z.land (Z.shiftr word 5) 0x7ffff) 19 * 4).

(** [pc & !0xfff]. *)
Definition page_of (pc : Z) : Z := Z.land pc (bit_not 64 0xfff).

Definition adrp (word pc : Z) : res refusal Z :=
  let immediate := Z.lor (Z.land (Z.shiftr word 29) 3) (Z.shiftl (Z.land (Z.shiftr word 5) 0x7ffff) 2) in
  target (page_of pc) (signed immediate 21 * 4096).

Definition fits (immediate bits : Z) : bool := (- 2 ^ (bits - 1) <=? immediate) && (immediate <? 2 ^ (bits - 1)).

Definition encode_delta (word pc destination bits shift : Z) : res refusal Z :=
  let delta := destination - pc in
  let immediate := Z.quot delta 4 in
  if negb (Z.rem delta 4 =? 0) || negb (fits immediate bits) then Err "recipe-branch-range"%string else
  let mask := Z.shiftl (2 ^ bits - 1) shift in
  Ok (Z.lor (Z.land word (bit_not 32 mask)) (Z.land (wrap 32 (Z.shiftl (wrap 32 immediate) shift)) mask)).

(** The two fields of an ADRP immediate. *)
Definition adrp_fields (value : Z) : Z := Z.lor (Z.shiftl (Z.land value 3) 29) (Z.shiftl (Z.shiftr value 2) 5).

Definition is_bl (word : Z) : bool := Z.land word 0xfc000000 =? 0x94000000.
Definition is_conditional (word : Z) : bool := (Z.land word 0xff000010 =? 0x54000000) || (Z.land word 0x7e000000 =? 0x34000000).
Definition is_adrp (word : Z) : bool := Z.land word 0x9f000000 =? 0x90000000.

Definition relocate (word old_pc new_pc : Z) : res refusal Z :=
  if is_bl word then
    let? destination := branch word old_pc in encode_delta word new_pc destination 26 0
  else if is_conditional word then
    let? destination := conditional word old_pc in encode_delta word new_pc destination 19 5
  else if is_adrp word then
    let? page := adrp word old_pc in
    let delta := page - page_of new_pc in
    let immediate := Z.quot delta 4096 in
    if negb (fits immediate 21) then Err "recipe-adrp-range"%string else
    let value := Z.land (wrap 32 immediate) 0x1fffff in
    Ok (Z.lor (Z.land word 0x9f00001f) (adrp_fields value))
  else Ok word.

(** [words[i]], below the length of the group. *)
Definition at_word (words : list Z) (i : Z) : Z := default 0 (zget words i).

Definition pair_address (words : list Z) (index pc register : Z) : res refusal Z :=
  if negb (Z.land (at_word words index) 0x9f00001f =? Z.lor 0x90000000 register)
     || negb (Z.land (at_word words (index + 1)) 0xffc003ff =? Z.lor (Z.lor 0x91000000 (Z.shiftl register 5)) register)
  then Err "recipe-address-pair"%string else
  let? here := add_or_panic 64 pc (index * 4) in
  let? page := adrp (at_word words index) here in
  target page (Z.land (Z.shiftr (at_word words (index + 1)) 10) 0xfff).

Definition encode_adrp (pc address register : Z) : res refusal Z :=
  let delta := page_of address - page_of pc in
  let pages := Z.quot delta 4096 in
  if negb (fits pages 21) then Err "recipe-adrp-range"%string else
  let value := Z.land (wrap 32 pages) 0x1fffff in
  Ok (Z.lor (Z.lor 0x90000000 register) (adrp_fields value)).

(** ** The recipe *)

(** [(0..n).step_by(k)]. *)
Definition steps (n k : Z) : list Z := map (fun i => i * k) (seqZ 0 ((n + k - 1) / k)).

(** [count] words from [at_] on. *)
Fixpoint read_words (count : nat) (data : bytes) (at_ : Z) : res refusal (list Z) :=
  match count with
  | O => Ok []
  | S count =>
      let? word := le32 data at_ in
      let? words := read_words count data (at_ + 4) in
      Ok (word :: words)
  end.

(** The addresses of one section whose string is [SkipTCONFW]. *)
Fixpoint skip_keys (data : bytes) (image : MachO) (section : Section_) (relatives : list Z) : res refusal (list Z) :=
  match relatives with
  | [] => Ok []
  | relative :: relatives =>
      let? address := add_or_panic 64 (sec_address section) relative in
      let? at_ := offset image address 32 in
      let? flags := le64 data (at_ + 8) in
      let? found :=
        (if flags =? 0x7c8 then
           let? length := le64 data (at_ + 24) in
           if length =? 10 then
             match cfstring image data address (bytes_of "SkipTCONFW") with
             | Ok _ => Ok [address]
             | Err _ => Ok []
             | Panic => Panic
             end
           else Ok []
         else Ok []) in
      let? rest := skip_keys data image section relatives in
      Ok (found ++ rest)
  end.

Fixpoint skip_keys_in (data : bytes) (image : MachO) (sections : list Section_) : res refusal (list Z) :=
  match sections with
  | [] => Ok []
  | section :: sections =>
      if negb (sec_size section mod 32 =? 0) then Err "recipe-cfstring"%string else
      let? size := usize64 (sec_size section) in
      let? found := skip_keys data image section (steps size 32) in
      let? rest := skip_keys_in data image sections in
      Ok (found ++ rest)
  end.

Definition skip_tcon_key (data : bytes) (image : MachO) : res refusal Z :=
  let? found := skip_keys_in data image (filter (fun section => sec_name section = bytes_of "__cfstring") (sections image)) in
  match found with
  | [key] => Ok key
  | _ => Err "recipe-skip-key"%string
  end.

(** [words[i] & mask == value]. *)
Definition masked (words : list Z) (i mask value : Z) : bool := Z.land (at_word words i) mask =? value.

Definition gate_layout (words : list Z) : bool :=
  masked words 0 0xfc000000 0x94000000 && masked words 1 0xff00001f 0x34000000 && (at_word words 4 =? 0xaa1503e0)
  && masked words 5 0xfc000000 0x94000000 && masked words 6 0x9f00001f 0x90000008 && masked words 7 0xffc003ff 0xf9400108
  && (at_word words 8 =? 0xf9400108) && (at_word words 9 =? 0xeb08001f) && masked words 10 0xff00001f 0x54000000.

(** The helper the gate calls. *)
Definition check_legacy (data : bytes) (image : MachO) (pc : Z) (words : list Z) : res refusal unit :=
  let? legacy := branch (at_word words 0) pc in
  let? at_ := offset image legacy 20 in
  let? mode := read_words 5 data at_ in
  if negb (masked mode 0 0x9f00001f 0x90000008) || negb (masked mode 1 0xffc003ff 0xb9400108)
     || bool_decide (drop 2 mode <> [0x7100091f; 0x1a9f17e0; 0xd65f03c0])
  then Err "recipe-legacy-mode"%string else Ok tt.

(** Where the gate goes: the skipped and the forced path and the return. *)
Definition check_targets (data : bytes) (image : MachO) (pc : Z) (words : list Z) : res refusal Z :=
  let? pc4 := add_or_panic 64 pc 4 in
  let? skip := conditional (at_word words 1) pc4 in
  let? pc40 := add_or_panic 64 pc 40 in
  let? done := conditional (at_word words 10) pc40 in
  let? pc92 := add_or_panic 64 pc 92 in
  if negb (skip =? pc92) then Err "recipe-targets"%string else
  let? skip48 := add_or_panic 64 skip 48 in
  if done <=? skip48 then Err "recipe-targets"%string else
  let? pc76 := add_or_panic 64 pc 76 in
  let? forced_offset := offset image pc76 16 in
  let? forced := read_words 4 data forced_offset in
  if negb (at_word forced 0 =? 0x910062f6) || negb (at_word forced 3 =? 0xf90067e8) then Err "recipe-force-continuation"%string else
  let? _ := pair_address forced 1 pc76 8 in
  let? skip_offset := offset image skip 48 in
  let? continuation := read_words 12 data skip_offset in
  if bool_decide (take 7 continuation <> [0x6f00e400; 0xad0483e0; 0xad0383e0; 0xad0283e0; 0xad0183e0; 0x3d800be0; 0xf90002df])
     || negb (at_word continuation 9 =? 0x910083e1) || negb (at_word continuation 10 =? 0xaa1403e0)
     || negb (masked continuation 11 0xfc000000 0x94000000)
  then Err "recipe-scratch-liveness"%string else
  let? _ := pair_address continuation 7 skip 20 in
  let? skip44 := add_or_panic 64 skip 44 in
  let? stat := branch (at_word continuation 11) skip44 in
  let? _ := imported image data stat true (bytes_of "_stat") in
  let? done_offset := offset image done 8 in
  let? first := le32 data done_offset in
  if negb (first =? 0x52800020) then Err "recipe-return"%string else
  let? second := le32 data (done_offset + 4) in
  if negb (Z.land second 0xffe00fff =? 0xf84003a8) then Err "recipe-return"%string else
  Ok skip.

(** The dictionary key, the lookup and the constant of the comparison. *)
Definition check_lookup (data : bytes) (image : MachO) (pc : Z) (words : list Z) : res refusal unit :=
  let? key := pair_address words 2 pc 1 in
  let? _ := cfstring image data key (bytes_of "Update TCON FW") in
  let? pc20 := add_or_panic 64 pc 20 in
  let? get_value := branch (at_word words 5) pc20 in
  let? _ := imported image data get_value true (bytes_of "_CFDictionaryGetValue") in
  let? pc24 := add_or_panic 64 pc 24 in
  let? page := adrp (at_word words 6) pc24 in
  let? false_pointer := target page (Z.land (Z.shiftr (at_word words 7) 10) 0xfff * 8) in
  imported image data false_pointer false (bytes_of "_kCFBooleanFalse").

(** The second gate, which the patch leaves in place. *)
Definition check_force (data : bytes) (image : MachO) (pc skip : Z) (words : list Z) : res refusal unit :=
  if negb (masked words 11 0xff00001f 0xb4000014) || negb (at_word words 12 =? 0xf9400680) || negb (masked words 13 0xff00001f 0xb4000000)
     || negb (at_word words 16 =? 0x52800002) || negb (masked words 17 0xfc000000 0x94000000) || negb (masked words 18 0xff00001f 0x34000000)
  then Err "recipe-force-gate"%string else
  let? pc44 := add_or_panic 64 pc 44 in
  let? t11 := conditional (at_word words 11) pc44 in
  if negb (t11 =? skip) then Err "recipe-force-gate"%string else
  let? pc52 := add_or_panic 64 pc 52 in
  let? t13 := conditional (at_word words 13) pc52 in
  if negb (t13 =? skip) then Err "recipe-force-gate"%string else
  let? pc72 := add_or_panic 64 pc 72 in
  let? t18 := conditional (at_word words 18) pc72 in
  if negb (t18 =? skip) then Err "recipe-force-gate"%string else
  let? key := pair_address words 14 pc 1 in
  let? _ := cfstring image data key (bytes_of "ForceTCONFW") in
  let? pc68 := add_or_panic 64 pc 68 in
  let? get_boolean := branch (at_word words 17) pc68 in
  imported image data get_boolean true (bytes_of "_AMSupportCFDictionaryGetBoolean").

Definition validate (data : bytes) (image : MachO) (pc : Z) (words : list Z) : res refusal unit :=
  if negb (gate_layout words) then Err "recipe-control-flow"%string else
  let? _ := check_legacy data image pc words in
  let? skip := check_targets data image pc words in
  let? _ := check_lookup data image pc words in
  check_force data image pc skip words.

Definition allowlist_layout (words : list Z) : bool :=
  masked words 0 0x9f00001f 0x90000003 && masked words 1 0xffc003ff 0xf9400063
  && bool_decide (take 3 (drop 2 words) = [0x9100c3e1; 0xaa1403e0; 0x52800382])
  && masked words 5 0xfc000000 0x94000000 && masked words 6 0xff00001f 0xb4000000 && (at_word words 7 =? 0xaa0003f5)
  && masked words 8 0xfc000000 0x94000000 && (at_word words 9 =? 0xaa0003e2)
  && bool_decide (take 5 (drop 12 words) = [0xdac123f0; 0xaa1003e3; 0x910043e4; 0xaa1503e0; 0xd2800001])
  && masked words 17 0xfc000000 0x94000000 && masked words 18 0xfc000000 0x14000000.

(** The callback of the array and the calls it makes. *)
Definition check_callback (data : bytes) (image : MachO) (pc : Z) (words : list Z) : res refusal unit :=
  let? callback := pair_address words 10 pc 16 in
  let? callback_offset := offset image callback 0x68 in
  let? entry := le32 data callback_offset in
  if negb (entry =? 0xd503237f) then Err "recipe-allowlist-callback"%string else
  let? get_call := le32 data (callback_offset + 0x40) in
  let? callback40 := add_or_panic 64 callback 0x40 in
  let? get_value := branch get_call callback40 in
  let? _ := imported image data get_value true (bytes_of "_AMSupportGetValueForKeyPathInDict") in
  let? set_call := le32 data (callback_offset + 0x64) in
  let? callback64 := add_or_panic 64 callback 0x64 in
  let? set_value := branch set_call callback64 in
  imported image data set_value true (bytes_of "_AMSupportCopySetValueForKeyPathInDict").

(** The calls that build and walk the array. *)
Definition check_array (data : bytes) (image : MachO) (pc : Z) (words : list Z) : res refusal unit :=
  let? pc20 := add_or_panic 64 pc 20 in
  let? create := branch (at_word words 5) pc20 in
  let? _ := imported image data create true (bytes_of "_CFArrayCreate") in
  let? pc32 := add_or_panic 64 pc 32 in
  let? count := branch (at_word words 8) pc32 in
  let? _ := imported image data count true (bytes_of "_CFArrayGetCount") in
  let? pc68 := add_or_panic 64 pc 68 in
  let? apply := branch (at_word words 17) pc68 in
  imported image data apply true (bytes_of "_CFArrayApplyFunction").

(** What comes before the array, and where the code goes after it. *)
Definition check_context (data : bytes) (image : MachO) (pc : Z) (words : list Z) : res refusal unit :=
  let? pc_44 := or_panic (checked_sub pc 44) in
  let? before := offset image pc_44 44 in
  let? slot := le32 data before in
  if negb (slot =? 0xf90017ff) then Err "recipe-allowlist-context"%string else
  let? call := le32 data (before + 32) in
  if negb (Z.land call 0xfc000000 =? 0x94000000) then Err "recipe-allowlist-context"%string else
  let? store := le32 data (before + 36) in
  if negb (store =? 0xf9000fe0) then Err "recipe-allowlist-context"%string else
  let? test := le32 data (before + 40) in
  if negb (Z.land test 0xff00001f =? 0xb4000000) then Err "recipe-allowlist-context"%string else
  let? missing := conditional test (pc - 4) in
  let? pc76 := add_or_panic 64 pc 76 in
  if negb (missing =? pc76) then Err "recipe-allowlist-context"%string else
  let? lookup := branch call (pc - 12) in
  let? _ := imported image data lookup true (bytes_of "_CFDictionaryGetValue") in
  let? pc24 := add_or_panic 64 pc 24 in
  let? failure := conditional (at_word words 6) pc24 in
  if failure <=? pc76 then Err "recipe-allowlist-targets"%string else
  let? pc72 := add_or_panic 64 pc 72 in
  let? continue := branch (at_word words 18) pc72 in
  let? pc80 := add_or_panic 64 pc 80 in
  if negb (continue =? pc80) then Err "recipe-allowlist-targets"%string else Ok tt.

Definition validate_allowlist (data : bytes) (image : MachO) (pc : Z) (words : list Z) : res refusal unit :=
  if negb (allowlist_layout words) then Err "recipe-allowlist-layout"%string else
  let? _ := check_callback data image pc words in
  let? _ := check_array data image pc words in
  check_context data image pc words.

(** The destination of a branch of any kind. *)
Definition destination_of (word address : Z) : res refusal (option Z) :=
  if Z.land word 0x7c000000 =? 0x14000000 then let? d := branch word address in Ok (Some d) else
  if is_conditional word then let? d := conditional word address in Ok (Some d) else
  if Z.land word 0x7e000000 =? 0x36000000 then let? d := target address (signed (Z.land (Z.shiftr word 5) 0x3fff) 14 * 4) in Ok (Some d) else
  Ok None.

(** One word of the text section: no branch from outside into the rewritten part. *)
Definition check_incoming (data : bytes) (text : Section_) (pc size relative : Z) : res refusal unit :=
  let? address := add_or_panic 64 (sec_address text) relative in
  let? inside := (if pc <=? address then let? stop := add_or_panic 64 pc size in Ok (address <? stop) else Ok false) in
  if inside then Ok tt else
  let? word := le32 data (sec_offset text + relative) in
  let? destination := destination_of word address in
  match destination with
  | Some target =>
      if pc <? target then
        let? stop := add_or_panic 64 pc size in
        if target <? stop then Err "recipe-incoming-branch"%string else Ok tt
      else Ok tt
  | None => Ok tt
  end.

Definition incoming_branch (data : bytes) (text : Section_) (pc size : Z) : res refusal unit :=
  let? length := usize64 (sec_size text) in
  each (check_incoming data text pc size) (steps (saturating_sub length 3) 4).

Record Candidate := MkCandidate { cand_offset : Z; cand_pc : Z; cand_words : list Z }.

(** The places that pass: the words at [first] and [second] select, [check]
    decides, a refusal rejects the place only. *)
Fixpoint find_candidates (check : Z -> list Z -> res refusal unit) (data : bytes) (text : Section_) (first second : Z * Z) (relatives : list Z) :
  res refusal (list Candidate) :=
  match relatives with
  | [] => Ok []
  | relative :: relatives =>
      let at_ := sec_offset text + relative in
      let? word := le32 data (at_ + first.1) in
      let? selected :=
        (if negb (word =? first.2) then Ok false else
         let? word := le32 data (at_ + second.1) in Ok (word =? second.2)) in
      let? found :=
        (if negb selected then Ok [] else
         let? words := read_words 19 data at_ in
         let? pc := add_or_panic 64 (sec_address text) relative in
         match check pc words with
         | Ok _ => Ok [MkCandidate at_ pc words]
         | Err _ => Ok []
         | Panic => Panic
         end) in
      let? rest := find_candidates check data text first second relatives in
      Ok (found ++ rest)
  end.

(** Words written one after another. *)
Fixpoint write_words (output : bytes) (at_ : Z) (words : list Z) : res refusal bytes :=
  match words with
  | [] => Ok output
  | word :: words => let? output := copy_at output at_ (le_bytes 4 word) in write_words output (at_ + 4) words
  end.

Definition move_word (pc : Z) (words : list Z) (old new : Z) : res refusal Z :=
  let? old_pc := add_or_panic 64 pc (old * 4) in
  let? new_pc := add_or_panic 64 pc (new * 4) in
  relocate (at_word words old) old_pc new_pc.

(** The nineteen words that replace the array of options. *)
Definition allowlist_words (pc key callback : Z) (words : list Z) : res refusal (list Z) :=
  let? adrp_key := encode_adrp pc key 8 in
  let? w3 := move_word pc words 0 3 in
  let? w8 := move_word pc words 5 8 in
  let? w9 := move_word pc words 6 9 in
  let? pc48 := add_or_panic 64 pc 48 in
  let? adrp_callback := encode_adrp pc48 callback 3 in
  Ok [adrp_key; Z.lor 0x91000108 (Z.shiftl (Z.land key 0xfff) 10); 0xf90017e8; w3; at_word words 1; 0x9100a3e1; at_word words 3; 0x528003a2;
      w8; w9; at_word words 7; 0x528003a2; adrp_callback; Z.lor 0x91000063 (Z.shiftl (Z.land callback 0xfff) 10); 0xdac123e3;
      at_word words 14; at_word words 16; at_word words 17; at_word words 18].

Definition apply_allowlist (data : bytes) (image : MachO) (output : bytes) (text : Section_) : res refusal bytes :=
  let? length := usize64 (sec_size text) in
  let? candidates := find_candidates (validate_allowlist data image) data text (8, 0x9100c3e1) (16, 0x52800382) (steps (saturating_sub length 75) 4) in
  match candidates with
  | [c] =>
      let? _ := incoming_branch data text (cand_pc c) 76 in
      let? key := skip_tcon_key data image in
      let? callback := pair_address (cand_words c) 10 (cand_pc c) 16 in
      let? rewritten := allowlist_words (cand_pc c) key callback (cand_words c) in
      write_words output (cand_offset c) rewritten
  | _ => Err "recipe-allowlist-unique"%string
  end.

(** The gate moved behind the comparison: words 2 to 10, then 0 and 1. *)
Fixpoint write_gate (output : bytes) (c : Candidate) (new : Z) (olds : list Z) : res refusal bytes :=
  match olds with
  | [] => Ok output
  | old :: olds =>
      let? word := move_word (cand_pc c) (cand_words c) old new in
      let? output := copy_at output (cand_offset c + new * 4) (le_bytes 4 word) in
      write_gate output c (new + 1) olds
  end.

Definition gate_order : list Z := seqZ 2 9 ++ seqZ 0 2.

Definition apply_recipe (data : bytes) (image : MachO) (output : bytes) : res refusal bytes :=
  match filter (fun section => sec_name section = bytes_of "__text") (sections image) with
  | [text] =>
      let? length := usize64 (sec_size text) in
      let? candidates := find_candidates (validate data image) data text (16, 0xaa1503e0) (36, 0xeb08001f) (steps (saturating_sub length 75) 4) in
      match candidates with
      | [c] =>
          let? _ := incoming_branch data text (cand_pc c) 44 in
          let? output := write_gate output c 0 gate_order in
          apply_allowlist data image output text
      | _ => Err "recipe-unique"%string
      end
  | _ => Err "recipe-text"%string
  end.

(** ** Preparing a patch (restore_patch.rs) *)

Record PreparedPatch := MkPatch {
  p_executable : bytes;
  p_trustcache : bytes;
  old_cdhash : bytes;
  new_cdhash : bytes;
}.

Definition prepare_skip_tcon (executable trustcache_im4p : bytes) : res refusal PreparedPatch :=
  let? image := parse_macho executable in
  let? v := parse_signature executable (signature image) in
  let? patched := apply_recipe executable image executable in
  let? (patched, hashes) := rehash v executable patched in
  let? trustcache := replace trustcache_im4p hashes.1 hashes.2 in
  Ok (MkPatch patched trustcache hashes.1 hashes.2).
