(* ===== verification/PatchCode.v ===== *)
(** * Patching restore executables: moved instructions

    The arithmetic of A64 immediates, and the theorem that a relocated
    instruction goes where it went. *)

From S2P Require Import Prelude Windows Patch PatchRecipe.
From stdpp Require Import base tactics numbers list option strings.
From Stdlib Require Import ZArith Lia.

Open Scope Z_scope.

(** ** Fields of a word *)

Lemma testbit_bit_not w x i : 0 <= x < 2 ^ w -> 0 <= i < w -> Z.testbit (bit_not w x) i = negb (Z.testbit x i).
Proof.
  intros Hx Hi. unfold bit_not. replace (2 ^ w - 1 - x) with (Z.lnot x mod 2 ^ w).
  - rewrite Z.mod_pow2_bits_low by lia. apply Z.lnot_spec. lia.
  - unfold Z.lnot, Z.pred. symmetry. apply (Z.mod_unique_pos _ _ (-1)); lia.
Qed.

Lemma testbit_ones n i : 0 <= n -> 0 <= i -> Z.testbit (2 ^ n - 1) i = (i <? n).
Proof. intros. rewrite Z.sub_1_r, <- Z.ones_equiv. destruct (Z.ltb_spec i n); [by apply Z.ones_spec_low|by apply Z.ones_spec_high]. Qed.

Lemma testbit_small n x i : 0 <= x < 2 ^ n -> n <= i -> Z.testbit x i = false.
Proof. intros Hx Hi. destruct (decide (0 <= n)); [|rewrite Z.pow_neg_r in Hx by lia; lia]. rewrite <- (Z.mod_small x (2 ^ n)) by done. apply Z.mod_pow2_bits_high. lia. Qed.

Lemma range_bits n x : 0 <= n -> 0 <= x -> (forall i, n <= i -> Z.testbit x i = false) -> in_range n x.
Proof.
  intros Hn Hx H. unfold in_range. split; [done|]. destruct (Z.ltb_spec x (2 ^ n)) as [|Hge]; [done|]. exfalso. assert (0 < x) as H0 by (pose proof (Z.pow_pos_nonneg 2 n); lia).
  assert (n <= Z.log2 x) as Hl by (by apply Z.log2_le_pow2). pose proof (Z.bit_log2 x H0) as Hb. by rewrite (H _ Hl) in Hb.
Qed.

(** A field of [bits] bits from [shift] on, put into a word. *)
Definition put_field (word value bits shift : Z) : Z :=
  Z.lor (Z.land word (bit_not 32 (Z.shiftl (2 ^ bits - 1) shift))) (Z.land (wrap 32 (Z.shiftl (wrap 32 value) shift)) (Z.shiftl (2 ^ bits - 1) shift)).

Section field.
Context (word value bits shift : Z) (Hw : in_range 32 word) (Hb : 0 < bits) (Hs : 0 <= shift) (Hfit : shift + bits <= 32).

Lemma field_mask i : 0 <= i -> Z.testbit (Z.shiftl (2 ^ bits - 1) shift) i = (shift <=? i) && (i <? shift + bits).
Proof.
  intros Hi. rewrite Z.shiftl_spec by lia. destruct (Z.leb_spec shift i); [|by rewrite Z.testbit_neg_r by lia].
  rewrite testbit_ones by lia. cbn [andb]. apply eq_true_iff_eq. rewrite !Z.ltb_lt. lia.
Qed.

Lemma field_mask_range : 0 <= Z.shiftl (2 ^ bits - 1) shift < 2 ^ 32.
Proof.
  rewrite Z.shiftl_mul_pow2 by lia. assert (1 <= 2 ^ bits) by (pose proof (Z.pow_pos_nonneg 2 bits); lia).
  assert (1 <= 2 ^ shift) by (pose proof (Z.pow_pos_nonneg 2 shift); lia). assert (2 ^ bits * 2 ^ shift <= 2 ^ 32).
  { rewrite <- Z.pow_add_r by lia. apply Z.pow_le_mono_r; lia. }
  nia.
Qed.

Lemma put_field_bits i : 0 <= i -> Z.testbit (put_field word value bits shift) i =
  if (shift <=? i) && (i <? shift + bits) then Z.testbit value (i - shift) else Z.testbit word i.
Proof.
  intros Hi. unfold put_field. rewrite Z.lor_spec, !Z.land_spec, field_mask by done.
  destruct (Z.ltb_spec i 32) as [H32|H32].
  - rewrite testbit_bit_not by (apply field_mask_range || lia). rewrite field_mask by done. destruct ((shift <=? i) && (i <? shift + bits)) eqn:C; cbn [negb]; rewrite ?andb_false_r, ?andb_true_r; cbn [orb]; [|by rewrite orb_false_r].
    bools. unfold wrap. rewrite Z.mod_pow2_bits_low, Z.shiftl_spec, Z.mod_pow2_bits_low by lia. done.
  - rewrite (testbit_small 32 word) by (done || lia). destruct (Z.ltb_spec i (shift + bits)); [lia|]. by rewrite !andb_false_r.
Qed.

Lemma put_field_range : in_range 32 (put_field word value bits shift).
Proof.
  apply range_bits; [lia| |].
  - apply Z.lor_nonneg; split; apply Z.land_nonneg; left; [unfold in_range in *; lia|apply (wrap_range 32); lia].
  - intros i Hi. rewrite put_field_bits by lia. destruct (Z.ltb_spec i (shift + bits)); [lia|]. rewrite andb_false_r. by apply (testbit_small 32).
Qed.

(** The field reads back, the rest of the word is kept. *)
Lemma get_field : Z.land (Z.shiftr (put_field word value bits shift) shift) (2 ^ bits - 1) = value mod 2 ^ bits.
Proof.
  apply Z.bits_inj'. intros i Hi. rewrite Z.land_spec, Z.shiftr_spec, put_field_bits, testbit_ones by lia.
  replace (i + shift - shift) with i by lia. destruct (Z.ltb_spec i bits).
  - rewrite (proj2 (Z.leb_le _ _)), (proj2 (Z.ltb_lt _ _)), Z.mod_pow2_bits_low by lia. by rewrite andb_true_r.
  - by rewrite andb_false_r, Z.mod_pow2_bits_high by lia.
Qed.

Lemma keep_field mask : Z.land mask (Z.shiftl (2 ^ bits - 1) shift) = 0 -> Z.land (put_field word value bits shift) mask = Z.land word mask.
Proof.
  intros Hm. apply Z.bits_inj'. intros i Hi. rewrite !Z.land_spec, put_field_bits by done. destruct ((shift <=? i) && (i <? shift + bits)) eqn:C; [|done].
  assert (Z.testbit mask i = false) as ->; [|by rewrite !andb_false_r]. pose proof (f_equal (fun x => Z.testbit x i) Hm) as Ht. cbn in Ht.
  rewrite Z.land_spec, field_mask, C, andb_true_r, Z.bits_0 in Ht by done. done.
Qed.
End field.

Lemma signed_mod value bits : 0 < bits <= 32 -> fits value bits = true -> signed (value mod 2 ^ bits) bits = value.
Proof.
  intros Hb Hf. unfold fits in Hf. bools. unfold signed. set (k := 32 - bits).
  assert (2 ^ bits = 2 * 2 ^ (bits - 1)) as Hp by (rewrite <- Z.pow_succ_r by lia; f_equal; lia).
  assert (2 ^ 32 = 2 ^ bits * 2 ^ k) as Hp32 by (rewrite <- Z.pow_add_r by (unfold k; lia); f_equal; unfold k; lia).
  assert (0 < 2 ^ k) by (apply Z.pow_pos_nonneg; unfold k; lia). assert (0 < 2 ^ (bits - 1)) by (apply Z.pow_pos_nonneg; lia).
  assert (2 ^ 31 = 2 ^ (bits - 1) * 2 ^ k) as Hp31 by (change (2 ^ 32) with (2 * 2 ^ 31) in Hp32; nia).
  pose proof (Z.mod_pos_bound value (2 ^ bits) ltac:(lia)) as Hm. rewrite Z.shiftl_mul_pow2 by (unfold k; lia). rewrite wrap_small by (unfold in_range; rewrite Hp32; nia).
  rewrite Z.shiftr_div_pow2 by (unfold k; lia). unfold as_i32. destruct (Z.ltb_spec value 0).
  - assert (value mod 2 ^ bits = value + 2 ^ bits) as -> by (symmetry; apply (Z.mod_unique_pos _ _ (-1)); lia).
    destruct (Z.ltb_spec ((value + 2 ^ bits) * 2 ^ k) (2 ^ 31)); [nia|]. rewrite Hp32. replace ((value + 2 ^ bits) * 2 ^ k - 2 ^ bits * 2 ^ k) with (value * 2 ^ k) by lia. by apply Z.div_mul; lia.
  - rewrite Z.mod_small by lia. destruct (Z.ltb_spec (value * 2 ^ k) (2 ^ 31)); [|nia]. apply Z.div_mul; lia.
Qed.

(** ** ADRP *)

(** Evaluates the bits of a word built from variables and constants at a given place. *)
Ltac eval_bits :=
  repeat first [rewrite Z.lor_spec | rewrite Z.land_spec | rewrite Z.shiftl_spec by lia | rewrite Z.shiftr_spec by lia];
  repeat match goal with
  | |- context [Z.testbit ?x (?a + ?b)] => let k := eval vm_compute in (a + b) in change (a + b) with k
  | |- context [Z.testbit ?x (?a - ?b)] => let k := eval vm_compute in (a - b) in change (a - b) with k
  | |- context [Z.testbit (Zpos ?p) ?k] => let b := eval vm_compute in (Z.testbit (Zpos p) k) in change (Z.testbit (Zpos p) k) with b
  end;
  rewrite ?Z.testbit_neg_r by lia; rewrite ?andb_false_r, ?andb_true_r, ?orb_false_r; cbn [orb andb].

(** The places [k], [k + 1], ... [n] of them. *)
Ltac each_bit i k n :=
  lazymatch n with
  | O => idtac
  | S ?n => destruct (decide (i = k)) as [->|]; [eval_bits|let k := eval vm_compute in (k + 1) in each_bit i k n]
  end.

Section adrp.
Context (word value : Z) (Hv : 0 <= value < 2 ^ 21).
Let r := Z.lor (Z.land word 0x9f00001f) (adrp_fields value).

Lemma high_bit k : 21 <=? k = true -> Z.testbit value k = false.
Proof. intros Hk. bools. by apply (testbit_small 21). Qed.

Lemma adrp_value : Z.lor (Z.land (Z.shiftr r 29) 3) (Z.shiftl (Z.land (Z.shiftr r 5) 0x7ffff) 2) = value.
Proof.
  apply Z.bits_inj'. intros i Hi. unfold r, adrp_fields. destruct (Z.ltb_spec i 21).
  - each_bit i 0 21%nat; repeat match goal with |- context [Z.testbit value ?k] => rewrite (high_bit k eq_refl) end; rewrite ?orb_false_r; done || lia.
  - rewrite (testbit_small 21 value), Z.lor_spec, Z.shiftl_spec, !Z.land_spec by (done || lia).
    rewrite (testbit_small 2 3), (testbit_small 19 0x7ffff) by lia. by rewrite !andb_false_r.
Qed.

Lemma adrp_keep : Z.land r 0x9f00001f = Z.land word 0x9f00001f.
Proof.
  apply Z.bits_inj'. intros i Hi. unfold r, adrp_fields. destruct (Z.ltb_spec i 32).
  - each_bit i 0 32%nat; repeat match goal with |- context [Z.testbit value ?k] => rewrite (high_bit k eq_refl) end; rewrite ?orb_false_r; done || lia.
  - rewrite !Z.land_spec. rewrite (testbit_small 32 0x9f00001f) by lia. by rewrite !andb_false_r.
Qed.

Lemma adrp_range : in_range 32 r.
Proof.
  apply range_bits; [lia| |].
  - unfold r, adrp_fields. rewrite !Z.lor_nonneg. split; [apply Z.land_nonneg; lia|]. rewrite !Z.shiftl_nonneg, Z.shiftr_nonneg. split; [apply Z.land_nonneg; lia|lia].
  - intros i Hi. unfold r, adrp_fields. rewrite !Z.lor_spec, Z.land_spec, !Z.shiftl_spec, Z.land_spec, Z.shiftr_spec by lia.
    rewrite (testbit_small 32 0x9f00001f), (testbit_small 2 3), (testbit_small 21 value (i - 5 + 2)) by (done || lia). by rewrite !andb_false_r.
Qed.
End adrp.

Lemma page_of_mod pc : in_range 64 pc -> page_of pc = pc - pc mod 4096.
Proof.
  intros Hp. unfold page_of. change 4096 with (2 ^ 12). assert (pc - pc mod 2 ^ 12 = Z.shiftl (Z.shiftr pc 12) 12) as ->.
  { rewrite Z.shiftl_mul_pow2, Z.shiftr_div_pow2 by lia. pose proof (Z.div_mod pc (2 ^ 12)). lia. }
  apply Z.bits_inj'. intros i Hi. rewrite Z.land_spec, Z.shiftl_spec by lia. destruct (Z.ltb_spec i 64).
  - rewrite testbit_bit_not by lia. change 0xfff with (2 ^ 12 - 1). rewrite testbit_ones by lia. destruct (Z.ltb_spec i 12).
    + by rewrite (Z.testbit_neg_r _ (i - 12)), andb_false_r by lia.
    + rewrite Z.shiftr_spec by lia. replace (i - 12 + 12) with i by lia. by rewrite andb_true_r.
  - rewrite Z.shiftr_spec by lia. replace (i - 12 + 12) with i by lia. by rewrite (testbit_small 64 pc) by (done || lia).
Qed.

(** ** Relocation *)

(** What kind of instruction a word is, as [relocate] distinguishes them. *)
Inductive kind := Call | Conditional | Page | Plain.
#[export] Instance kind_eq : EqDecision kind.
Proof. solve_decision. Defined.
Definition kind_of (word : Z) : kind := if is_bl word then Call else if is_conditional word then Conditional else if is_adrp word then Page else Plain.
(** The address an instruction at [pc] names. *)
Definition goes_to (word pc : Z) : option (res refusal Z) :=
  match kind_of word with
  | Call => Some (branch word pc)
  | Conditional => Some (conditional word pc)
  | Page => Some (adrp word pc)
  | Plain => None
  end.
(** The bits of an instruction beside that address: operation, condition, registers. *)
Definition operands (word : Z) : Z :=
  Z.land word match kind_of word with Call => 0xfc000000 | Conditional => 0xff00001f | Page => 0x9f00001f | Plain => 0xffffffff end.

Lemma encode_delta_ok word pc destination bits shift out : encode_delta word pc destination bits shift = Ok out ->
  exists immediate, out = put_field word immediate bits shift /\ destination = pc + immediate * 4 /\ fits immediate bits = true.
Proof.
  unfold encode_delta. destruct (_ || _) eqn:C; [done|]. intros [= <-]. exists (Z.quot (destination - pc) 4). apply orb_false_iff in C as [C1 C2]. bools.
  split_and!; [done| |done]. pose proof (Z.quot_rem' (destination - pc) 4). lia.
Qed.

Lemma target_ok pc delta d : target pc delta = Ok d -> d = pc + delta /\ 0 <= d < 2 ^ 64.
Proof. unfold target. destruct (_ && _) eqn:C; [|done]. intros [= <-]. bools. lia. Qed.

Lemma target_same pc delta pc' delta' d : target pc delta = Ok d -> d = pc' + delta' -> target pc' delta' = Ok d.
Proof. intros [_ H]%target_ok ->. unfold target. rewrite (proj2 (Z.leb_le _ _)), (proj2 (Z.ltb_lt _ _)) by lia. done. Qed.

(** A kind is decided by bits outside the immediate. *)
Lemma kind_conditional word out : is_bl word = false -> is_conditional word = true -> Z.land out 0xff00001f = Z.land word 0xff00001f ->
  is_bl out = false /\ is_conditional out = true.
Proof.
  intros Hb Hc Hk.
  assert (forall x m, Z.land x 0xff00001f = Z.land word 0xff00001f -> Z.land m 0xff00001f = m -> Z.land x m = Z.land word m) as Hsub.
  { intros x m Hx <-. by rewrite (Z.land_comm m), !Z.land_assoc, Hx. }
  unfold is_bl, is_conditional in *. by rewrite !(Hsub out) by (done || reflexivity).
Qed.

Lemma put_call word immediate : in_range 32 word -> is_bl word = true -> fits immediate 26 = true ->
  is_bl (put_field word immediate 26 0) = true /\ forall pc, branch (put_field word immediate 26 0) pc = target pc (immediate * 4).
Proof.
  intros Hw Hb Hf. split; [unfold is_bl; by rewrite keep_field by (done || lia)|]. intros pc. unfold branch. do 2 f_equal.
  pose proof (get_field word immediate 26 0 Hw ltac:(lia) ltac:(lia) ltac:(lia)) as Hg. rewrite Z.shiftr_0_r in Hg. change 0x03ffffff with (2 ^ 26 - 1). rewrite Hg. by apply signed_mod; [lia|].
Qed.

Lemma put_conditional word immediate : in_range 32 word -> fits immediate 19 = true ->
  Z.land (put_field word immediate 19 5) 0xff00001f = Z.land word 0xff00001f /\ forall pc, conditional (put_field word immediate 19 5) pc = target pc (immediate * 4).
Proof.
  intros Hw Hf. split; [by rewrite keep_field by (done || lia)|]. intros pc. unfold conditional. do 2 f_equal.
  change 0x7ffff with (2 ^ 19 - 1). rewrite (get_field word immediate 19 5 Hw) by lia. by apply signed_mod; [lia|].
Qed.

Lemma adrp_alone word : is_adrp word = true -> is_bl word = false /\ is_conditional word = false.
Proof.
  unfold is_adrp. rewrite Z.eqb_eq. intros H. pose proof (f_equal (fun x => Z.testbit x 26) H) as Hb. cbn beta in Hb. rewrite Z.land_spec in Hb.
  assert (forall m c, Z.testbit m 26 = true -> Z.testbit c 26 = true -> (Z.land word m =? c) = false) as Hno.
  { intros m c Hm Hc. apply Z.eqb_neq. intros <-. rewrite Z.land_spec, Hm, andb_true_r in Hc. rewrite Hc in Hb. discriminate Hb. }
  unfold is_bl, is_conditional. by rewrite !Hno.
Qed.

Lemma low21 i : Z.land (wrap 32 i) 0x1fffff = i mod 2 ^ 21.
Proof.
  change 0x1fffff with (2 ^ 21 - 1). rewrite land_low by lia. unfold wrap. rewrite <- (Znumtheory.Zmod_div_mod (2 ^ 21) (2 ^ 32)); [done|lia|lia|]. by exists (2 ^ 11).
Qed.

Lemma relocate_same word old_pc new_pc out : in_range 32 word -> in_range 64 old_pc -> in_range 64 new_pc ->
  relocate word old_pc new_pc = Ok out ->
  in_range 32 out /\ kind_of out = kind_of word /\ operands out = operands word /\ goes_to out new_pc = goes_to word old_pc.
Proof.
  intros Hw Ho Hn. unfold relocate, goes_to, operands, kind_of. destruct (is_bl word) eqn:Hb.
  { intros H. apply res_bind_ok in H as (d&Hd&H). apply encode_delta_ok in H as (i&->&Hi&Hf). destruct (put_call word i Hw Hb Hf) as [-> Hbr].
    split_and!; [apply put_field_range; done || lia|done|by rewrite keep_field by (done || lia)|]. rewrite Hbr, Hd. f_equal. by eapply target_same. }
  destruct (is_conditional word) eqn:Hc.
  { intros H. apply res_bind_ok in H as (d&Hd&H). apply encode_delta_ok in H as (i&->&Hi&Hf). destruct (put_conditional word i Hw Hf) as [Hk Hbr].
    destruct (kind_conditional _ _ Hb Hc Hk) as [-> ->]. split_and!; [apply put_field_range; done || lia|done|done|]. rewrite Hbr, Hd. f_equal. by eapply target_same. }
  destruct (is_adrp word) eqn:Ha; [|intros [= <-]; by rewrite Hb, Hc, Ha].
  intros H. apply res_bind_ok in H as (page&Hp&H). destruct (fits _ 21) eqn:Hf; [|done]. cbn [negb] in H. injection H as <-.
  set (i := Z.quot _ 4096) in *. rewrite low21. pose proof (Z.mod_pos_bound i (2 ^ 21) ltac:(lia)) as Hv.
  pose proof (adrp_keep word _ Hv) as Hk. pose proof (adrp_value word _ Hv) as Hval. set (r := Z.lor _ (adrp_fields _)) in *.
  assert (is_adrp r = true) as Har.
  { unfold is_adrp in *. change 0x9f000000 with (Z.land 0x9f00001f 0x9f000000) in *. by rewrite !Z.land_assoc, Hk in *. }
  destruct (adrp_alone _ Har) as [-> ->]. rewrite Har. split_and!; [by apply adrp_range|done|done|]. f_equal. rewrite Hp.
  assert (adrp r new_pc = target (page_of new_pc) (i * 4096)) as -> by (unfold adrp; by rewrite Hval, signed_mod by (done || lia)).
  assert (i = Z.quot (page - page_of new_pc) 4096) as Hi by done. clearbody i. eapply target_same; [exact Hp|]. apply target_ok in Hp as [Hp _]. rewrite !page_of_mod in * by done.
  pose proof (Z.quot_rem' (page - (new_pc - new_pc mod 4096)) 4096) as Hq.
  rewrite (proj2 (Z.rem_divide _ 4096 ltac:(lia))) in Hq; [rewrite <- Hi in Hq; lia|].
  exists (old_pc / 4096 - new_pc / 4096 + signed (Z.lor (Z.land (Z.shiftr word 29) 3) (Z.shiftl (Z.land (Z.shiftr word 5) 0x7ffff) 2)) 21).
  pose proof (Z.div_mod old_pc 4096). pose proof (Z.div_mod new_pc 4096). lia.
Qed.

(** C23. An instruction that was moved names the same address as before: a call,
    conditional branch or page address at the new place is of the same kind, has
    the same condition and registers, and goes to where the original went from
    its old place; any other instruction is unchanged.  It holds for every word
    and every pair of places for which the code finds an encoding. *)
Theorem relocate_keeps_target word old_pc new_pc out : in_range 32 word -> in_range 64 old_pc -> in_range 64 new_pc ->
  relocate word old_pc new_pc = Ok out ->
  in_range 32 out /\ kind_of out = kind_of word /\ operands out = operands word /\ goes_to out new_pc = goes_to word old_pc.
Proof. apply relocate_same. Qed.

Lemma relocate_keeps_target_witness : exists out, relocate 0x90000061 0x100001000 0x100000ff8 = Ok out /\ out <> 0x90000061 /\
  kind_of out = Page /\ goes_to out 0x100000ff8 = goes_to 0x90000061 0x100001000.
Proof.
  destruct (relocate 0x90000061 0x100001000 0x100000ff8) as [out| |] eqn:E; [|discriminate E..].
  destruct (relocate_keeps_target 0x90000061 0x100001000 0x100000ff8 out) as (_&Hk&_&Hg); [by_compute..|exact E|].
  exists out. split; [done|]. split; [vm_compute in E; injection E as <-; done|]. split; [exact Hk|exact Hg].
Defined.
