(* ===== verification/PatchProps.v ===== *)
(** * Patching restore executables: what the recipe does

    The places the recipe accepts, the words it writes, and the theorems about
    the rewritten gate and about a whole prepared patch. *)

From S2P Require Import Prelude Windows Sha ShaProps Patch PatchSign PatchTrust PatchRecipe PatchCode.
From stdpp Require Import base tactics numbers list option strings gmap.
From Stdlib Require Import ZArith Lia.

Open Scope Z_scope.

(** ** Words in a file *)

Lemma le32_ok l a x : le32 l a = Ok x <-> 0 <= a /\ a + 4 <= zlen l /\ a + 4 < 2 ^ 64 /\ x = le_val (part a 4 l).
Proof.
  unfold le32. split.
  - intros H. apply res_bind_ok in H as (b&Hb&H). injection H as <-. apply read_bytes_ok in Hb as (?&_&?&?&->). done.
  - intros (?&?&?&->). by rewrite (proj2 (read_bytes_ok l a 4 (part a 4 l))).
Qed.

Lemma le32_range l a x : is_bytes l -> le32 l a = Ok x -> in_range 32 x.
Proof.
  intros Hb (?&?&?&->)%le32_ok. pose proof (le_val_bound (part a 4 l) ltac:(auto with isbytes)) as Hv.
  rewrite zlen_ztake, zlen_zdrop in Hv. replace (8 * _) with 32 in Hv by lia. done.
Qed.

Lemma at_word_cons w words i : 0 <= i -> at_word (w :: words) (i + 1) = at_word words i.
Proof. intros. unfold at_word, zget. rewrite !(proj2 (Z.ltb_ge _ _)) by lia. by replace (Z.to_nat (i + 1)) with (S (Z.to_nat i)) by lia. Qed.

Lemma read_words_ok count : forall data a words, read_words count data a = Ok words ->
  zlen words = Z.of_nat count /\ forall i, 0 <= i < Z.of_nat count -> le32 data (a + i * 4) = Ok (at_word words i).
Proof.
  induction count as [|count IH]; intros data a words H; cbn [read_words] in H; [injection H as <-; split; [done|lia]|].
  apply res_bind_ok in H as (w&Hw&H). apply res_bind_ok in H as (ws&Hws&H). injection H as <-. destruct (IH _ _ _ Hws) as [Hl Hi].
  split; [rewrite zlen_cons; lia|]. intros i Hr. destruct (decide (i = 0)) as [->|Hne]; [by replace (a + 0 * 4) with a by lia|].
  replace i with (i - 1 + 1) by lia. rewrite at_word_cons by lia. rewrite <- Hi by lia. f_equal. lia.
Qed.

(** One word written. *)
Lemma put_word output a w out : copy_at (E := refusal) output a (le_bytes 4 w) = Ok out -> in_range 32 w -> zlen output < 2 ^ 64 ->
  zlen out = zlen output /\ agree a (a + 4) output out /\ le32 out a = Ok w.
Proof.
  intros Hc Hw Hz. pose proof (zlen_le_bytes 4 w) as Hl. pose proof (copy_at_inv _ _ _ _ Hc) as (?&Hfit&Hlen&_). rewrite Hl in Hfit.
  split_and!; [done|eapply agree_copy; [exact Hc|lia|rewrite Hl; lia]|]. apply le32_ok. pose proof (part_copy_same _ _ _ _ Hc) as Hp. rewrite Hl in Hp.
  change (Z.of_nat 4) with 4 in *. rewrite Hp, le_val_le_bytes, Z.mod_small by done. split_and!; [lia..|done].
Qed.

Lemma agree_le32' lo hi l l' a x : agree lo hi l l' -> a + 4 <= lo \/ hi <= a -> le32 l a = Ok x -> le32 l' a = Ok x.
Proof. intros Ha Hd <-. symmetry. by apply (agree_le32 lo hi). Qed.

Lemma agree_wider lo hi lo' hi' l l' : agree lo hi l l' -> lo' <= lo -> hi <= hi' -> agree lo' hi' l l'.
Proof. intros [Hl Hp] ? ?. constructor; [done|]. intros. apply Hp; lia. Qed.

(** A row of words written. *)
Lemma write_words_ok words : Forall (in_range 32) words -> forall output a out, write_words output a words = Ok out -> zlen output < 2 ^ 64 ->
  agree a (a + zlen words * 4) output out /\ forall i, 0 <= i < zlen words -> le32 out (a + i * 4) = Ok (at_word words i).
Proof.
  induction 1 as [|w words Hw _ IH]; intros output a out H Hz; cbn [write_words] in H; [injection H as <-; split; [apply agree_refl|change (zlen []) with 0; lia]|].
  apply res_bind_ok in H as (mid&Hm&H). destruct (put_word _ _ _ _ Hm Hw Hz) as (Hlen&Hag&Hr). destruct (IH _ _ _ H ltac:(lia)) as [Hag2 Hi].
  rewrite zlen_cons. pose proof (zlen_nonneg words). split.
  - eapply agree_trans; [eapply agree_wider; [exact Hag|lia..]|eapply agree_wider; [exact Hag2|lia..]].
  - intros i Hr2. destruct (decide (i = 0)) as [->|Hne].
    + replace (a + 0 * 4) with a by lia. eapply agree_le32'; [exact Hag2|lia|exact Hr].
    + replace i with (i - 1 + 1) by lia. rewrite at_word_cons by lia. rewrite <- Hi by lia. f_equal. lia.
Qed.

(** The gate written: the words [olds], moved, from place [new] on. *)
Lemma write_gate_ok c olds : Forall (in_range 32) (cand_words c) -> 0 <= cand_pc c -> forall output new out, 0 <= new -> Forall (fun old => 0 <= old) olds ->
  write_gate output c new olds = Ok out -> zlen output < 2 ^ 64 ->
  agree (cand_offset c + new * 4) (cand_offset c + (new + zlen olds) * 4) output out /\
  forall k old, olds !! k = Some old -> exists w, le32 out (cand_offset c + (new + Z.of_nat k) * 4) = Ok w /\
    relocate (at_word (cand_words c) old) (cand_pc c + old * 4) (cand_pc c + (new + Z.of_nat k) * 4) = Ok w /\
    in_range 64 (cand_pc c + old * 4) /\ in_range 64 (cand_pc c + (new + Z.of_nat k) * 4).
Proof.
  intros Hws Hpc. induction olds as [|old olds IH]; intros output new out Hnew Holds H Hz; cbn [write_gate] in H.
  { injection H as <-. split; [apply agree_refl|]. intros k old Hk. by rewrite lookup_nil in Hk. }
  apply Forall_cons in Holds as [Hold Holds].
  apply res_bind_ok in H as (w&Hw&H). apply res_bind_ok in H as (mid&Hm&H). unfold move_word in Hw. apply res_bind_ok in Hw as (p1&H1&Hw). apply res_bind_ok in Hw as (p2&H2&Hw).
  assert (forall x y z, add_or_panic (E := refusal) 64 x y = Ok z -> z = x + y /\ x + y < 2 ^ 64) as Hadd.
  { intros x y z. unfold add_or_panic, checked_add. destruct (Z.ltb_spec (x + y) (2 ^ 64)); [|done]. by intros [= <-]. }
  apply Hadd in H1 as [-> H1], H2 as [-> H2]. assert (in_range 64 (cand_pc c + old * 4) /\ in_range 64 (cand_pc c + new * 4)) as [R1 R2] by (unfold in_range; lia).
  assert (in_range 32 (at_word (cand_words c) old)) as Hin.
  { unfold at_word, zget. destruct (old <? 0); [by_compute|]. destruct (cand_words c !! Z.to_nat old) eqn:E; [by eapply Forall_lookup_1|by_compute]. }
  destruct (relocate_same _ _ _ _ Hin R1 R2 Hw) as (Hwr&_).
  destruct (put_word _ _ _ _ Hm Hwr Hz) as (Hlen&Hag&Hr). destruct (IH _ (new + 1) _ ltac:(lia) Holds H ltac:(lia)) as [Hag2 Hi].
  rewrite zlen_cons. pose proof (zlen_nonneg olds). split.
  - eapply agree_trans; [eapply agree_wider; [exact Hag|lia..]|eapply agree_wider; [exact Hag2|lia..]].
  - intros [|k] o Hk; cbn [lookup list_lookup] in Hk.
    + injection Hk as <-. exists w. rewrite Z.add_0_r. split_and!; [|done..]. eapply agree_le32'; [exact Hag2|lia|exact Hr].
    + destruct (Hi k o Hk) as (w'&A&B&C). exists w'. replace (new + Z.of_nat (S k)) with (new + 1 + Z.of_nat k) by lia. done.
Qed.

(** ** The places found *)

(** What is known of a place that passed [check]. *)
Record place (check : Z -> list Z -> res refusal unit) (data : bytes) (text : Section_) (c : Candidate) : Prop := {
  pl_step : exists k, 0 <= k /\ cand_offset c = sec_offset text + k * 4;
  pl_words : read_words 19 data (cand_offset c) = Ok (cand_words c);
  pl_pc : cand_pc c = sec_address text + (cand_offset c - sec_offset text);
  pl_room : cand_pc c < 2 ^ 64;
  pl_check : check (cand_pc c) (cand_words c) = Ok tt;
}.

Lemma steps_mod n i : i ∈ steps n 4 -> exists k, 0 <= k /\ i = k * 4.
Proof. unfold steps. rewrite list_elem_of_fmap. intros (k&->&Hk%elem_of_seqZ). exists k. lia. Qed.

Lemma candidates_ok check data text first second relatives : Forall (fun r => exists k, 0 <= k /\ r = k * 4) relatives -> forall found,
  find_candidates check data text first second relatives = Ok found -> Forall (place check data text) found.
Proof.
  induction 1 as [|r relatives Hr _ IH]; intros found H; cbn [find_candidates] in H; [injection H as <-; constructor|].
  apply res_bind_ok in H as (word&_&H). apply res_bind_ok in H as (selected&_&H). apply res_bind_ok in H as (here&Hh&H). apply res_bind_ok in H as (rest&Hrest&H).
  injection H as <-. apply Forall_app. split; [|by apply IH]. destruct selected; cbn [negb] in Hh; [|injection Hh as <-; constructor].
  apply res_bind_ok in Hh as (words&Hw&Hh). apply res_bind_ok in Hh as (pc&Hpc&Hh). unfold add_or_panic, checked_add in Hpc. destruct (_ <? 2 ^ 64) eqn:Hroom; [|done]. injection Hpc as <-. apply Z.ltb_lt in Hroom.
  destruct (check _ words) as [[]| |] eqn:Hc; [|injection Hh as <-; constructor|done]. injection Hh as <-. apply Forall_singleton. destruct Hr as (k&Hk&->).
  constructor; cbn [cand_offset cand_pc cand_words]; [by exists k|done|lia|done|done].
Qed.

Lemma place_words check data text c : is_bytes data -> place check data text c ->
  zlen (cand_words c) = 19 /\ Forall (in_range 32) (cand_words c) /\ forall i, 0 <= i < 19 -> le32 data (cand_offset c + i * 4) = Ok (at_word (cand_words c) i).
Proof.
  intros Hb [_ Hw _ _ _]. destruct (read_words_ok _ _ _ _ Hw) as [Hl Hi]. split_and!; [done| |done].
  apply Forall_lookup. intros k w Hk. pose proof (lookup_lt_Some _ _ _ Hk). assert (0 <= Z.of_nat k < 19) as Hr by (unfold zlen in Hl; lia). pose proof (Hi _ Hr) as Hle.
  assert (at_word (cand_words c) (Z.of_nat k) = w) as E by (unfold at_word, zget; rewrite (proj2 (Z.ltb_ge _ _)), Nat2Z.id, Hk by lia; done). rewrite E in Hle. by eapply le32_range.
Qed.

(** The two patterns never overlap: at every distance a word would have to be
    two different instructions. *)
Definition gate_pattern : list (Z * Z * Z) :=
  [(0, 0xfc000000, 0x94000000); (1, 0xff00001f, 0x34000000); (4, 0xffffffff, 0xaa1503e0); (5, 0xfc000000, 0x94000000); (6, 0x9f00001f, 0x90000008);
   (7, 0xffc003ff, 0xf9400108); (8, 0xffffffff, 0xf9400108); (9, 0xffffffff, 0xeb08001f); (10, 0xff00001f, 0x54000000)].
Definition allowlist_pattern : list (Z * Z * Z) :=
  [(0, 0x9f00001f, 0x90000003); (1, 0xffc003ff, 0xf9400063); (2, 0xffffffff, 0x9100c3e1); (3, 0xffffffff, 0xaa1403e0); (4, 0xffffffff, 0x52800382);
   (5, 0xfc000000, 0x94000000); (6, 0xff00001f, 0xb4000000); (7, 0xffffffff, 0xaa0003f5); (8, 0xfc000000, 0x94000000); (9, 0xffffffff, 0xaa0003e2);
   (12, 0xffffffff, 0xdac123f0); (13, 0xffffffff, 0xaa1003e3); (14, 0xffffffff, 0x910043e4); (15, 0xffffffff, 0xaa1503e0); (16, 0xffffffff, 0xd2800001);
   (17, 0xfc000000, 0x94000000); (18, 0xfc000000, 0x14000000)].
Definition fits_pattern (words : list Z) (p : Z * Z * Z) : Prop := Z.land (at_word words p.1.1) p.1.2 = p.2.

Lemma gate_fits words : gate_layout words = true -> Forall (fits_pattern words) gate_pattern.
Proof.
  unfold gate_layout, masked. intros H. bools. unfold gate_pattern. repeat constructor; unfold fits_pattern; cbn [fst snd]; first [done|match goal with H : at_word _ ?i = _ |- Z.land (at_word _ ?i) _ = _ => by rewrite H end].
Qed.

Lemma at_word_slice words k n l i x : take n (drop k words) = l -> l !! i = Some x -> at_word words (Z.of_nat (k + i)) = x.
Proof.
  intros <- H. apply lookup_take_Some in H as [H _]. rewrite lookup_drop in H. unfold at_word, zget. rewrite (proj2 (Z.ltb_ge _ _)) by lia. by rewrite Nat2Z.id, H.
Qed.

Lemma allowlist_fits words : allowlist_layout words = true -> Forall (fits_pattern words) allowlist_pattern.
Proof.
  unfold allowlist_layout, masked. intros H. bools.
  repeat match goal with H : bool_decide _ = true |- _ => apply bool_decide_eq_true in H end.
  match goal with H : take 3 _ = ?l |- _ => pose proof (at_word_slice _ _ _ _ 0 _ H eq_refl); pose proof (at_word_slice _ _ _ _ 1 _ H eq_refl); pose proof (at_word_slice _ _ _ _ 2 _ H eq_refl) end.
  match goal with H : take 5 _ = ?l |- _ => pose proof (at_word_slice _ _ _ _ 0 _ H eq_refl); pose proof (at_word_slice _ _ _ _ 1 _ H eq_refl);
    pose proof (at_word_slice _ _ _ _ 2 _ H eq_refl); pose proof (at_word_slice _ _ _ _ 3 _ H eq_refl); pose proof (at_word_slice _ _ _ _ 4 _ H eq_refl) end.
  repeat match goal with H : at_word words (Z.of_nat (?a + ?b)) = _ |- _ => let k := eval vm_compute in (Z.of_nat (a + b)) in change (Z.of_nat (a + b)) with k in H end.
  unfold allowlist_pattern. repeat constructor; unfold fits_pattern; cbn [fst snd]; first [done|match goal with H : at_word _ ?i = _ |- Z.land (at_word _ ?i) _ = _ => by rewrite H end].
Qed.

(** Two patterns that ask different things of one word, [d] words apart. *)
Definition clash (d : Z) (g a : Z * Z * Z) : bool := (g.1.1 =? a.1.1 + d) && negb (Z.land g.2 a.1.2 =? Z.land a.2 g.1.2).

Lemma patterns_clash d : -18 <= d <= 10 -> exists g a, g ∈ gate_pattern /\ a ∈ allowlist_pattern /\ clash d g a = true.
Proof.
  intros Hd. assert (forallb (fun d => existsb (fun g => existsb (clash d g) allowlist_pattern) gate_pattern) (seqZ (-18) 29) = true) as H by by_compute.
  rewrite forallb_forall in H. specialize (H d). rewrite <- list_elem_of_In, elem_of_seqZ in H. specialize (H ltac:(lia)).
  apply existsb_exists in H as (g&Hg&H). apply existsb_exists in H as (a&Ha&H). exists g, a. by rewrite !list_elem_of_In.
Qed.

Lemma gate_places p : p ∈ gate_pattern -> 0 <= p.1.1 < 19.
Proof. assert (Forall (fun p => 0 <= p.1.1 < 19) gate_pattern) as F by (repeat constructor; cbn; lia). rewrite Forall_forall in F. apply F. Qed.
Lemma allowlist_places p : p ∈ allowlist_pattern -> 0 <= p.1.1 < 19.
Proof. assert (Forall (fun p => 0 <= p.1.1 < 19) allowlist_pattern) as F by (repeat constructor; cbn; lia). rewrite Forall_forall in F. apply F. Qed.

Lemma windows_apart data g a : (forall i, 0 <= i < 19 -> le32 data (cand_offset g + i * 4) = Ok (at_word (cand_words g) i)) ->
  (forall i, 0 <= i < 19 -> le32 data (cand_offset a + i * 4) = Ok (at_word (cand_words a) i)) ->
  gate_layout (cand_words g) = true -> allowlist_layout (cand_words a) = true ->
  (exists d, cand_offset a = cand_offset g + d * 4) -> cand_offset g + 44 <= cand_offset a \/ cand_offset a + 76 <= cand_offset g.
Proof.
  intros Hg Ha Lg La [d Hd]. destruct (decide (-18 <= d <= 10)) as [Hr|]; [|lia]. exfalso.
  destruct (patterns_clash d Hr) as (p&q&Hp&Hq&Hc). apply gate_fits in Lg. apply allowlist_fits in La. rewrite Forall_forall in Lg, La.
  pose proof (Lg p Hp) as Fp. pose proof (La q Hq) as Fq. unfold clash in Hc. bools. unfold fits_pattern in *.
  pose proof (gate_places _ Hp) as Rp. pose proof (allowlist_places _ Hq) as Rq.
  assert (at_word (cand_words g) p.1.1 = at_word (cand_words a) q.1.1) as E.
  { pose proof (Hg _ Rp) as E1. pose proof (Ha _ Rq) as E2. rewrite Hd, H in *. replace (cand_offset g + d * 4 + q.1.1 * 4) with (cand_offset g + (q.1.1 + d) * 4) in E2 by lia. congruence. }
  apply H0. rewrite <- Fp, <- Fq, E, <- !Z.land_assoc. f_equal. apply Z.land_comm.
Qed.

(** ** The words of the option array *)

(** A pair of ADRP and ADD that loads an address. *)
Lemma encode_pair pc address register w : 0 <= register < 32 -> in_range 64 pc -> in_range 64 address -> encode_adrp pc address register = Ok w ->
  in_range 32 w /\ Z.land w 0x9f00001f = Z.lor 0x90000000 register /\ adrp w pc = Ok (page_of address).
Proof.
  intros Hreg Hpc Ha. unfold encode_adrp. set (i := Z.quot _ 4096). destruct (fits i 21) eqn:Hf; [|done]. cbn [negb]. rewrite low21. intros [= <-].
  pose proof (Z.mod_pos_bound i (2 ^ 21) ltac:(lia)) as Hv. assert (Z.land (Z.lor 0x90000000 register) 0x9f00001f = Z.lor 0x90000000 register) as Hm.
  { assert (forallb (fun r => Z.land (Z.lor 0x90000000 r) 0x9f00001f =? Z.lor 0x90000000 r) (seqZ 0 32) = true) as H by by_compute.
    rewrite forallb_forall in H. apply Z.eqb_eq, H. rewrite <- list_elem_of_In, elem_of_seqZ. lia. }
  pose proof (adrp_keep (Z.lor 0x90000000 register) _ Hv) as Hk. pose proof (adrp_value (Z.lor 0x90000000 register) _ Hv) as Hval.
  pose proof (adrp_range (Z.lor 0x90000000 register) _ Hv) as Hr. rewrite Hm in Hk, Hval, Hr. split_and!; [done|done|]. unfold adrp. rewrite Hval, signed_mod by (done || lia).
  assert (page_of address = page_of pc + i * 4096) as Hp.
  { unfold i. rewrite !page_of_mod by done. pose proof (Z.quot_rem' (address - address mod 4096 - (pc - pc mod 4096)) 4096) as Hq.
    rewrite (proj2 (Z.rem_divide _ 4096 ltac:(lia))) in Hq; [lia|]. exists (address / 4096 - pc / 4096). pose proof (Z.div_mod address 4096). pose proof (Z.div_mod pc 4096). lia. }
  unfold target. rewrite <- Hp. rewrite page_of_mod in * by done. pose proof (Z.mod_pos_bound address 4096 ltac:(lia)). unfold in_range in *.
  rewrite (proj2 (Z.leb_le _ _)), (proj2 (Z.ltb_lt _ _)); [done|words|words].
Qed.

Definition add_base (register : Z) : Z := Z.lor (Z.lor 0x91000000 (Z.shiftl register 5)) register.

Lemma add_word register x : register = 8 \/ register = 3 -> 0 <= x < 4096 ->
  let w := Z.lor (add_base register) (Z.shiftl x 10) in
  in_range 32 w /\ Z.land w 0xffc003ff = add_base register /\ Z.land (Z.shiftr w 10) 0xfff = x.
Proof.
  intros Hr Hx. assert (forallb (fun r => forallb (fun x => let w := Z.lor (add_base r) (Z.shiftl x 10) in
    (0 <=? w) && (w <? 2 ^ 32) && (Z.land w 0xffc003ff =? add_base r) && (Z.land (Z.shiftr w 10) 0xfff =? x)) (seqZ 0 4096)) [8; 3] = true) as H by by_compute.
  rewrite forallb_forall in H. specialize (H register ltac:(destruct Hr as [->| ->]; cbn; tauto)). rewrite forallb_forall in H. specialize (H x).
  rewrite <- list_elem_of_In, elem_of_seqZ in H. specialize (H ltac:(lia)). cbv zeta in *. bools. split_and!; [unfold in_range; lia|done|done].
Qed.

(** The pair reads back. *)
Lemma pair_ok words i pc register address : register = 8 \/ register = 3 -> in_range 64 address -> 0 <= pc + i * 4 < 2 ^ 64 ->
  encode_adrp (pc + i * 4) address register = Ok (at_word words i) ->
  at_word words (i + 1) = Z.lor (add_base register) (Z.shiftl (Z.land address 0xfff) 10) -> pair_address words i pc register = Ok address.
Proof.
  intros Hr Ha Hp He Hw. assert (0 <= register < 32) as Hreg by lia. destruct (encode_pair _ _ _ _ Hreg Hp Ha He) as (_&Hk&Had).
  assert (Z.land address 0xfff = address mod 4096) as Hlow by (change 0xfff with (2 ^ 12 - 1); by rewrite land_low by lia).
  pose proof (Z.mod_pos_bound address 4096 ltac:(lia)) as Hm. destruct (add_word register (Z.land address 0xfff) Hr ltac:(lia)) as (_&Hk2&Hx). rewrite <- Hw in Hk2, Hx.
  unfold pair_address. fold (add_base register). rewrite Hk, Hk2, !Z.eqb_refl. cbn [negb orb]. rewrite add_or_panic_ok by lia. cbn [res_bind]. rewrite Had. cbn [res_bind].
  rewrite Hx, Hlow, page_of_mod by done. unfold target, in_range in *. rewrite (proj2 (Z.leb_le _ _)), (proj2 (Z.ltb_lt _ _)) by lia. f_equal. lia.
Qed.

Lemma add_panic_ok x y z : add_or_panic (E := refusal) 64 x y = Ok z -> z = x + y /\ x + y < 2 ^ 64.
Proof. unfold add_or_panic, checked_add. destruct (Z.ltb_spec (x + y) (2 ^ 64)); [|done]. by intros [= <-]. Qed.

Lemma at_word_range words i : Forall (in_range 32) words -> in_range 32 (at_word words i).
Proof. intros H. unfold at_word, zget. destruct (i <? 0); [by_compute|]. destruct (words !! Z.to_nat i) eqn:E; [by eapply Forall_lookup_1|by_compute]. Qed.

Lemma move_word_ok pc words old new w : 0 <= pc -> 0 <= old -> 0 <= new -> Forall (in_range 32) words -> move_word pc words old new = Ok w ->
  in_range 32 w /\ kind_of w = kind_of (at_word words old) /\ operands w = operands (at_word words old) /\
  goes_to w (pc + new * 4) = goes_to (at_word words old) (pc + old * 4).
Proof.
  intros Hpc Ho Hn Hws H. unfold move_word in H. apply res_bind_ok in H as (p1&H1&H). apply res_bind_ok in H as (p2&H2&H). apply add_panic_ok in H1 as [-> H1], H2 as [-> H2].
  eapply relocate_same; [by apply at_word_range|unfold in_range; lia..|exact H].
Qed.

(** What the rewritten array holds. *)
Record allowlist_done (pc key callback : Z) (words rewritten : list Z) : Prop := {
  ad_len : zlen rewritten = 19;
  ad_range : Forall (in_range 32) rewritten;
  ad_key : pair_address rewritten 0 pc 8 = Ok key;
  ad_callback : pair_address rewritten 12 pc 3 = Ok callback;
  ad_moved old new : (old, new) ∈ [(0, 3); (5, 8); (6, 9)] -> let w := at_word rewritten new in
    kind_of w = kind_of (at_word words old) /\ operands w = operands (at_word words old) /\ goes_to w (pc + new * 4) = goes_to (at_word words old) (pc + old * 4);
  ad_kept old new : (old, new) ∈ [(1, 4); (3, 6); (7, 10); (14, 15); (16, 16); (17, 17); (18, 18)] -> at_word rewritten new = at_word words old;
}.

Lemma allowlist_words_ok pc key callback words rewritten : in_range 64 pc -> in_range 64 key -> in_range 64 callback -> Forall (in_range 32) words ->
  allowlist_words pc key callback words = Ok rewritten -> allowlist_done pc key callback words rewritten.
Proof.
  intros Hpc Hkey Hcb Hws H. unfold allowlist_words in H. apply res_bind_ok in H as (ak&Hak&H). apply res_bind_ok in H as (w3&H3&H). apply res_bind_ok in H as (w8&H8&H).
  apply res_bind_ok in H as (w9&H9&H). apply res_bind_ok in H as (pc48&H48&H). apply res_bind_ok in H as (ac&Hac&H). apply add_panic_ok in H48 as [-> H48].
  assert (0 <= Z.land key 0xfff < 4096 /\ 0 <= Z.land callback 0xfff < 4096) as [Lk Lc] by (change 0xfff with (2 ^ 12 - 1); rewrite !land_low by lia; split; apply Z.mod_pos_bound; lia).
  unfold in_range in Hpc. pose proof (move_word_ok pc _ 0 3 _ ltac:(lia) ltac:(lia) ltac:(lia) Hws H3) as (R3&M3).
  pose proof (move_word_ok pc _ 5 8 _ ltac:(lia) ltac:(lia) ltac:(lia) Hws H8) as (R8&M8). pose proof (move_word_ok pc _ 6 9 _ ltac:(lia) ltac:(lia) ltac:(lia) Hws H9) as (R9&M9).
  destruct (encode_pair _ _ 8 _ ltac:(lia) Hpc Hkey Hak) as (Rk&_). assert (0 <= pc + 48 < 2 ^ 64) as Hp48 by lia. destruct (encode_pair _ _ 3 _ ltac:(lia) Hp48 Hcb Hac) as (Rc&_).
  destruct (add_word 8 _ ltac:(by left) Lk) as (Ra&_). destruct (add_word 3 _ ltac:(by right) Lc) as (Rb&_).
  pose proof (fun i => at_word_range words i Hws) as Rw. injection H as <-. constructor.
  - done.
  - repeat (apply List.Forall_cons; [first [done|apply Rw|by_compute]|]). constructor.
  - apply pair_ok; [by left|done|lia| |done]. by rewrite Z.add_0_r.
  - apply pair_ok; [by right|done|lia|exact Hac|done].
  - intros old new Hin. rewrite !elem_of_cons, elem_of_nil in Hin. destruct Hin as [[= -> ->]|[[= -> ->]|[[= -> ->]|[]]]]; done.
  - intros old new Hin. rewrite !elem_of_cons, elem_of_nil in Hin. repeat destruct Hin as [[= -> ->]|Hin]; done.
Qed.

(** ** Addresses of an image *)

Lemma le64_range l a x : is_bytes l -> le64 l a = Ok x -> in_range 64 x.
Proof.
  intros Hb H. unfold le64 in H. apply res_bind_ok in H as (b&Hr&H). injection H as <-. apply read_bytes_ok in Hr as (?&_&?&?&->).
  pose proof (le_val_bound (part a 8 l) ltac:(auto with isbytes)) as Hv. rewrite zlen_ztake, zlen_zdrop in Hv. replace (8 * _) with 64 in Hv by lia. done.
Qed.

Definition sections_in (l : list Section_) : Prop := Forall (fun s => in_range 64 (sec_address s)) l.

Lemma sections_filter P `{!forall s, Decision (P s)} l : sections_in l -> sections_in (filter P l).
Proof. unfold sections_in. rewrite !Forall_forall. intros Hl s [_ Hs]%list_elem_of_filter. by apply Hl. Qed.

Lemma read_sections_in data lc address file_offset file_size indices : is_bytes lc -> forall l,
  read_sections data lc address file_offset file_size indices = Ok l -> sections_in l.
Proof.
  intros Hb. induction indices as [|i indices IH]; intros l H; cbn [read_sections] in H; [injection H as <-; constructor|].
  apply res_bind_ok in H as (s&Hs&H). apply res_bind_ok in H as (rest&Hrest&H). injection H as <-. constructor; [|by apply IH].
  unfold read_section in Hs. apply res_bind_ok in Hs as (raw&Hraw&Hs). apply read_bytes_ok in Hraw as (_&_&_&_&->). apply res_bind_ok in Hs as (r&_&Hs).
  apply res_bind_ok in Hs as (n&_&Hs). apply res_bind_ok in Hs as (adr&Hadr&Hs). apply le64_range in Hadr; [|auto with isbytes].
  open_chain Hs. destruct (_ || _) in Hs; [by injection Hs as <-|]. open_chain Hs. by injection Hs as <-.
Qed.

Lemma read_commands_in count : forall data stop offset c r, is_bytes data -> sections_in (c_sections c) ->
  read_commands count data stop offset c = Ok r -> sections_in (c_sections r.2).
Proof.
  induction count as [|count IH]; intros data stop offset c r Hb Hc H; cbn [read_commands] in H; [by injection H as <-|].
  apply res_bind_ok in H as (command&_&H). apply res_bind_ok in H as (size&_&H). destruct (_ || _); [done|]. apply res_bind_ok in H as (lc&Hlc&H).
  apply read_bytes_ok in Hlc as (_&_&_&_&->). apply res_bind_ok in H as (c'&Hc'&H). eapply IH; [done| |exact H]. unfold read_command in Hc'.
  destruct (command =? 0x19).
  { apply res_bind_ok in Hc' as ([entries segment]&Hs&Hc'). injection Hc' as <-. apply Forall_app. split; [done|]. unfold read_segment in Hs. open_chain Hs.
    injection Hs as <- <-. eapply read_sections_in; [|eassumption]. auto with isbytes. }
  destruct (command =? 0x2); [unfold read_symtab in Hc'; open_chain Hc'; by injection Hc' as <-|].
  destruct (command =? 0xb); [unfold read_dysymtab in Hc'; open_chain Hc'; by injection Hc' as <-|].
  destruct (_ || _); [|by injection Hc' as <-]. unfold read_linkedit in Hc'. open_chain Hc'. destruct (command =? 0x1d); open_chain Hc'; by injection Hc' as <-.
Qed.

Lemma parse_macho_in data image : is_bytes data -> parse_macho data = Ok image -> sections_in (sections image).
Proof.
  intros Hb H. unfold parse_macho in H. open_chain H. destruct x6 as [offset c]. destruct (negb (offset =? _)); [done|].
  apply res_bind_ok in H as ([[[s0 s1] s2] s3]&_&H). open_chain H. injection H as <-. cbn [sections].
  refine (read_commands_in _ _ _ _ _ (offset, c) Hb _ E10). constructor.
Qed.

Lemma skip_keys_in_range data image section relatives : in_range 64 (sec_address section) -> Forall (fun r => exists k, 0 <= k /\ r = k * 32) relatives -> forall keys,
  skip_keys data image section relatives = Ok keys -> Forall (in_range 64) keys.
Proof.
  intros Hs. induction 1 as [|r relatives (k&Hk&->) _ IH]; intros keys H; cbn [skip_keys] in H; [injection H as <-; constructor|].
  apply res_bind_ok in H as (address&Ha&H). apply res_bind_ok in H as (at_&_&H). apply res_bind_ok in H as (flags&_&H). apply res_bind_ok in H as (found&Hf&H).
  apply res_bind_ok in H as (rest&Hr&H). injection H as <-. apply Forall_app. split; [|by apply IH]. apply add_panic_ok in Ha as [-> Ha].
  destruct (flags =? _); [|injection Hf as <-; constructor]. apply res_bind_ok in Hf as (length&_&Hf). destruct (length =? 10); [|injection Hf as <-; constructor].
  destruct (cfstring _ _ _ _); [|injection Hf as <-; constructor|done]. injection Hf as <-. apply Forall_singleton. unfold in_range in *. lia.
Qed.

Lemma skip_sections_range data image l : sections_in l -> forall keys, skip_keys_in data image l = Ok keys -> Forall (in_range 64) keys.
Proof.
  induction 1 as [|s l Hs _ IH]; intros keys H; cbn [skip_keys_in] in H; [injection H as <-; constructor|]. destruct (negb _); [done|].
  apply res_bind_ok in H as (size&_&H). apply res_bind_ok in H as (found&Hf&H). apply res_bind_ok in H as (rest&Hr&H). injection H as <-. apply Forall_app. split; [|by apply IH].
  eapply skip_keys_in_range; [exact Hs| |exact Hf]. apply Forall_forall. intros i. unfold steps. rewrite list_elem_of_fmap. intros (k&->&Hk%elem_of_seqZ). exists k. lia.
Qed.

Lemma skip_key_range data image key : sections_in (sections image) -> skip_tcon_key data image = Ok key -> in_range 64 key.
Proof.
  intros Hs H. unfold skip_tcon_key in H. apply res_bind_ok in H as (keys&Hk&H). apply skip_sections_range in Hk; [|by apply sections_filter].
  destruct keys as [|k [|]]; [done| |done]. injection H as <-. exact (Forall_inv Hk).
Qed.

(** ** What the recipe writes *)

Record recipe_done (data : bytes) (image : MachO) (patched : bytes) (text : Section_) (g a : Candidate) (key callback : Z) : Prop := {
  rd_text : filter (fun section => sec_name section = bytes_of "__text") (sections image) = [text];
  rd_gate : place (validate data image) data text g;
  rd_allowlist : place (validate_allowlist data image) data text a;
  rd_free : incoming_branch data text (cand_pc g) 44 = Ok tt /\ incoming_branch data text (cand_pc a) 76 = Ok tt;
  rd_key : skip_tcon_key data image = Ok key;
  rd_callback : pair_address (cand_words a) 10 (cand_pc a) 16 = Ok callback;
  rd_apart : cand_offset g + 44 <= cand_offset a \/ cand_offset a + 76 <= cand_offset g;
  rd_len : zlen patched = zlen data;
  rd_rest x n : 0 <= x -> 0 <= n -> x + n <= cand_offset g \/ cand_offset g + 44 <= x -> x + n <= cand_offset a \/ cand_offset a + 76 <= x -> part x n patched = part x n data;
  rd_moved k old : gate_order !! k = Some old -> exists w, le32 patched (cand_offset g + Z.of_nat k * 4) = Ok w /\ in_range 32 w /\
    kind_of w = kind_of (at_word (cand_words g) old) /\ operands w = operands (at_word (cand_words g) old) /\
    goes_to w (cand_pc g + Z.of_nat k * 4) = goes_to (at_word (cand_words g) old) (cand_pc g + old * 4);
  rd_rewritten : exists rewritten, (forall i, 0 <= i < 19 -> le32 patched (cand_offset a + i * 4) = Ok (at_word rewritten i)) /\
    allowlist_done (cand_pc a) key callback (cand_words a) rewritten;
}.

Lemma recipe_ok data image patched : is_bytes data -> zlen data < 2 ^ 64 -> parse_macho data = Ok image -> apply_recipe data image data = Ok patched ->
  exists text g a key callback, recipe_done data image patched text g a key callback.
Proof.
  intros Hb Hz Hm H. pose proof (parse_macho_in _ _ Hb Hm) as Hin. unfold apply_recipe in H.
  destruct (filter _ (sections image)) as [|text [|]] eqn:Hf; [done| |done]. assert (in_range 64 (sec_address text)) as Ht.
  { pose proof (sections_filter (fun section => sec_name section = bytes_of "__text") _ Hin) as Hs. rewrite Hf in Hs. exact (Forall_inv Hs). }
  apply res_bind_ok in H as (length&_&H). apply res_bind_ok in H as (gs&Hg&H). destruct gs as [|g [|]]; [done| |done]. apply res_bind_ok in H as ([]&Hig&H).
  apply res_bind_ok in H as (mid&Hw&H). unfold apply_allowlist in H. apply res_bind_ok in H as (length2&_&H). apply res_bind_ok in H as (as_&Ha&H). destruct as_ as [|a [|]]; [done| |done].
  apply res_bind_ok in H as ([]&Hia&H). apply res_bind_ok in H as (key&Hkey&H). apply res_bind_ok in H as (callback&Hcb&H). apply res_bind_ok in H as (rewritten&Hr&H).
  apply candidates_ok in Hg; [|apply Forall_forall; intros i; apply steps_mod]. apply candidates_ok in Ha; [|apply Forall_forall; intros i; apply steps_mod].
  apply Forall_inv in Hg, Ha. destruct (place_words _ _ _ _ Hb Hg) as (_&Rg&Wg). destruct (place_words _ _ _ _ Hb Ha) as (_&Ra&Wa).
  pose proof (pl_pc _ _ _ _ Hg) as Pg. pose proof (pl_pc _ _ _ _ Ha) as Pa. pose proof (pl_step _ _ _ _ Hg) as (kg&Hkg&Og). pose proof (pl_step _ _ _ _ Ha) as (ka&Hka&Oa).
  pose proof (pl_room _ _ _ _ Ha) as Roa. unfold in_range in Ht. assert (0 <= cand_pc g /\ 0 <= cand_pc a) as [Ng Na] by lia.
  assert (in_range 64 callback) as Rcb.
  { unfold pair_address in Hcb. open_chain Hcb. by apply target_ok in Hcb as [_ ?]. }
  pose proof (allowlist_words_ok _ _ _ _ _ (conj Na Roa) (skip_key_range _ _ _ Hin Hkey) Rcb Ra Hr) as Had.
  destruct (write_gate_ok g gate_order Rg Ng data 0 mid (Z.le_refl 0) ltac:(repeat constructor; lia) Hw Hz) as [Hag1 Hmv].
  destruct (write_words_ok rewritten (ad_range _ _ _ _ _ Had) mid (cand_offset a) patched H) as [Hag2 Hrw]; [by rewrite <- (agree_len _ _ _ _ Hag1)|].
  rewrite (ad_len _ _ _ _ _ Had) in Hag2, Hrw. change (zlen gate_order) with 11 in Hag1. rewrite Z.mul_0_l, Z.add_0_r in Hag1.
  assert (cand_offset g + 44 <= cand_offset a \/ cand_offset a + 76 <= cand_offset g) as Hap.
  { eapply windows_apart; [exact Wg|exact Wa| | |exists (ka - kg); lia].
    - pose proof (pl_check _ _ _ _ Hg) as Hv. unfold validate in Hv. destruct (gate_layout _); done.
    - pose proof (pl_check _ _ _ _ Ha) as Hv. unfold validate_allowlist in Hv. destruct (allowlist_layout _); done. }
  exists text, g, a, key, callback. constructor; try done.
  - by rewrite <- (agree_len _ _ _ _ Hag2), <- (agree_len _ _ _ _ Hag1).
  - intros x n Hx Hn D1 D2. rewrite <- (agree_part _ _ _ _ Hag2) by lia. by rewrite <- (agree_part _ _ _ _ Hag1) by lia.
  - intros k old Hk. destruct (Hmv k old Hk) as (w&Hl&Hrel&R1&R2). rewrite Z.add_0_l in *. assert (Z.of_nat k < 11) as Hk11.
    { apply lookup_lt_Some in Hk. change (List.length gate_order) with 11%nat in Hk. lia. }
    exists w. pose proof (relocate_same _ _ _ _ (at_word_range _ _ Rg) R1 R2 Hrel) as (Hwr&Hrest). split_and!; [|done|apply Hrest..].
    eapply agree_le32'; [exact Hag2|lia|exact Hl].
  - by exists rewritten.
Qed.
