(* ===== verification/PatchGuarantees.v ===== *)
(** * Patching restore executables: what a prepared patch guarantees

    A reference machine that executes the gate: the specification the rewriting
    is proved against. It widens the interpreter of the same name in the tests of
    restore_patch/recipe.rs, which fixes the addresses and the two functions the
    gate calls; here they are arbitrary. Then the theorem that the rewritten gate honours the
    flag, and the theorem about a whole prepared patch. *)

From S2P Require Import Prelude Windows Sha ShaProps Ecdsa Patch PatchSign PatchTrust PatchRecipe PatchCode PatchProps.
From stdpp Require Import base tactics numbers list option strings gmap.
From Stdlib Require Import ZArith Lia.

Open Scope Z_scope.

(** ** Executing the gate *)

Inductive GateResult := ContinueTcon | ForceGate | Success.

(** What the machine does with a word. *)
Inductive action := Call_ | TestZero | Compare | BranchEqual | Next.
Definition action_of (word : Z) : action :=
  if is_bl word then Call_ else
  if Z.land word 0xff00001f =? 0x34000000 then TestZero else
  if word =? 0xeb08001f then Compare else
  if Z.land word 0xff00001f =? 0x54000000 then BranchEqual else Next.

(** [call] is what a function returns in x0, [false_object] the constant that
    comes into x8; the machine keeps x0 and the result of the comparison. *)
Section machine.
Context (fetch : Z -> res refusal Z) (call : Z -> Z) (false_object skip done stop : Z).

Fixpoint execute_gate (fuel : nat) (pc value : Z) (equal : bool) : res refusal GateResult :=
  match fuel with
  | O => Panic
  | S fuel =>
      if pc =? skip then Ok ContinueTcon else
      if pc =? done then Ok Success else
      if pc =? stop then Ok ForceGate else
      let? word := fetch pc in
      match action_of word with
      | Call_ => let? destination := branch word pc in execute_gate fuel (pc + 4) (call destination) equal
      | TestZero =>
          if wrap 32 value =? 0 then let? destination := conditional word pc in execute_gate fuel destination value equal
          else execute_gate fuel (pc + 4) value equal
      | Compare => execute_gate fuel (pc + 4) value (value =? false_object)
      | BranchEqual =>
          if equal then let? destination := conditional word pc in execute_gate fuel destination value equal
          else execute_gate fuel (pc + 4) value equal
      | Next => execute_gate fuel (pc + 4) value equal
      end
  end.

(** A step at a place that is no exit. *)
Lemma execute_step fuel pc value equal word : pc <> skip -> pc <> done -> pc <> stop -> fetch pc = Ok word ->
  execute_gate (S fuel) pc value equal =
  match action_of word with
  | Call_ => let? destination := branch word pc in execute_gate fuel (pc + 4) (call destination) equal
  | TestZero =>
      if wrap 32 value =? 0 then let? destination := conditional word pc in execute_gate fuel destination value equal
      else execute_gate fuel (pc + 4) value equal
  | Compare => execute_gate fuel (pc + 4) value (value =? false_object)
  | BranchEqual =>
      if equal then let? destination := conditional word pc in execute_gate fuel destination value equal
      else execute_gate fuel (pc + 4) value equal
  | Next => execute_gate fuel (pc + 4) value equal
  end.
Proof. intros H1 H2 H3 Hf. cbn [execute_gate]. by rewrite !(proj2 (Z.eqb_neq _ _)), Hf by done. Qed.

Lemma execute_exit fuel pc value equal : pc = skip \/ pc = done \/ pc = stop ->
  execute_gate (S fuel) pc value equal = Ok (if pc =? skip then ContinueTcon else if pc =? done then Success else ForceGate).
Proof.
  intros H. cbn [execute_gate]. destruct (Z.eqb_spec pc skip); [done|]. destruct (Z.eqb_spec pc done); [done|]. destruct (Z.eqb_spec pc stop); [done|]. lia.
Qed.
End machine.

(** A mask inside another. *)
Lemma masked_sub w m v k : Z.land w m = v -> Z.land m k = k -> Z.land w k = Z.land v k.
Proof. intros <- Hk. by rewrite <- Z.land_assoc, Hk. Qed.

Lemma tests_conditional w : Z.land w 0xff00001f = 0x34000000 \/ Z.land w 0xff00001f = 0x54000000 -> is_conditional w = true.
Proof.
  intros [H|H]; unfold is_conditional; apply orb_true_iff; [right|left]; apply Z.eqb_eq; by rewrite (masked_sub _ _ _ _ H eq_refl).
Qed.

Lemma next_of w : is_bl w = false -> is_conditional w = false -> w <> 0xeb08001f -> action_of w = Next.
Proof.
  intros Hb Hc Hn. unfold action_of. rewrite Hb. destruct (Z.eqb_spec (Z.land w 0xff00001f) 0x34000000); [rewrite tests_conditional in Hc by tauto; done|].
  rewrite (proj2 (Z.eqb_neq w _)) by done. destruct (Z.eqb_spec (Z.land w 0xff00001f) 0x54000000); [rewrite tests_conditional in Hc by tauto; done|done].
Qed.

(** The action of a word is a matter of its kind and operands. *)
Lemma action_same w w' : in_range 32 w -> in_range 32 w' -> kind_of w' = kind_of w -> operands w' = operands w -> action_of w' = action_of w.
Proof.
  intros Hw Hw' Hk Ho. assert (forall x, kind_of x = Page -> action_of x = Next) as Hpage.
  { intros x Hx. unfold kind_of in Hx. destruct (is_bl x) eqn:Hb; [done|]. destruct (is_conditional x) eqn:Hc; [done|]. destruct (is_adrp x) eqn:Ha; [|done].
    apply next_of; [done..|]. by intros ->. }
  unfold operands in Ho. rewrite Hk in Ho. destruct (kind_of w) eqn:K.
  - unfold kind_of in K, Hk. unfold action_of. destruct (is_bl w); [|by repeat case_match]. destruct (is_bl w'); [done|by repeat case_match].
  - assert (forall x, kind_of x = Conditional -> is_bl x = false /\ x <> 0xeb08001f) as Hx.
    { intros x Hx. unfold kind_of in Hx. destruct (is_bl x); [done|]. split; [done|]. intros ->. vm_compute in Hx. discriminate Hx. }
    destruct (Hx _ K) as [B1 N1]. destruct (Hx _ Hk) as [B2 N2]. unfold action_of. rewrite B1, B2, Ho. by rewrite !(proj2 (Z.eqb_neq _ 0xeb08001f)).
  - by rewrite !Hpage.
  - assert (forall x, in_range 32 x -> Z.land x 0xffffffff = x) as Hx.
    { intros x Hx. change 0xffffffff with (2 ^ 32 - 1). rewrite land_low by lia. by apply Z.mod_small. }
    rewrite !Hx in Ho by done. by rewrite Ho.
Qed.

(** ** The words of an accepted gate *)

Record gate_facts (pc : Z) (words : list Z) (legacy lookup done : Z) : Prop := {
  gf_actions : map (fun i => action_of (at_word words i)) (seqZ 0 11) =
    [Call_; TestZero; Next; Next; Next; Call_; Next; Next; Next; Compare; BranchEqual];
  gf_room : pc + 140 < 2 ^ 64;
  gf_legacy : branch (at_word words 0) pc = Ok legacy;
  gf_skip : conditional (at_word words 1) (pc + 4) = Ok (pc + 92);
  gf_lookup : branch (at_word words 5) (pc + 20) = Ok lookup;
  gf_done : conditional (at_word words 10) (pc + 40) = Ok done;
  gf_far : pc + 140 < done;
}.

Lemma gate_actions words : gate_layout words = true -> masked words 2 0x9f00001f 0x90000001 = true -> masked words 3 0xffc003ff 0x91000021 = true ->
  map (fun i => action_of (at_word words i)) (seqZ 0 11) = [Call_; TestZero; Next; Next; Next; Call_; Next; Next; Next; Compare; BranchEqual].
Proof.
  unfold gate_layout, masked. intros H Hp Ha. bools. change (seqZ 0 11) with [0; 1; 2; 3; 4; 5; 6; 7; 8; 9; 10]. cbn [map].
  assert (forall w, Z.land w 0x9f00001f = 0x90000001 \/ Z.land w 0x9f00001f = 0x90000008 -> action_of w = Next) as Hadrp.
  { intros w Hw. assert (is_adrp w = true) as Hw' by (apply Z.eqb_eq; destruct Hw as [Hw|Hw]; by rewrite (masked_sub _ _ _ _ Hw eq_refl)).
    destruct (adrp_alone _ Hw'). apply next_of; [done..|]. by intros ->. }
  assert (forall w v, Z.land w 0xffc003ff = v -> v = 0x91000021 \/ v = 0xf9400108 -> action_of w = Next) as Hmem.
  { intros w v Hw Hv. apply next_of; [unfold is_bl|unfold is_conditional|]; rewrite ?(masked_sub _ _ _ _ Hw) by done; [by destruct Hv as [->| ->]..|].
    intros ->. destruct Hv as [->| ->]; discriminate Hw. }
  assert (forall w, Z.land w 0xfc000000 = 0x94000000 -> action_of w = Call_) as Hcall by (intros w Hw; unfold action_of, is_bl; by rewrite Hw).
  assert (forall w, Z.land w 0xff00001f = 0x34000000 -> action_of w = TestZero) as Htest.
  { intros w Hw. unfold action_of, is_bl. by rewrite (masked_sub _ _ _ _ Hw), Hw by done. }
  assert (forall w, Z.land w 0xff00001f = 0x54000000 -> action_of w = BranchEqual) as Hequal.
  { intros w Hw. unfold action_of, is_bl. rewrite (masked_sub _ _ _ _ Hw), Hw by done. destruct (Z.eqb_spec w 0xeb08001f) as [->|]; [discriminate Hw|done]. }
  rewrite (Hcall (at_word words 0)), (Htest (at_word words 1)), (Hadrp (at_word words 2)), (Hmem (at_word words 3) 0x91000021), (Hcall (at_word words 5)) by tauto.
  rewrite (Hadrp (at_word words 6)), (Hmem (at_word words 7) 0xf9400108), (Hequal (at_word words 10)) by tauto.
  repeat match goal with H : at_word words ?i = _ |- _ => rewrite H; clear H end. done.
Qed.

Lemma validate_facts data image pc words : validate data image pc words = Ok tt -> exists legacy lookup done, gate_facts pc words legacy lookup done.
Proof.
  intros H. unfold validate in H. destruct (gate_layout words) eqn:Hl; [|done]. cbn [negb] in H. apply res_bind_ok in H as ([]&H1&H). apply res_bind_ok in H as (skip&H2&H).
  apply res_bind_ok in H as ([]&H3&_). unfold check_legacy in H1. apply res_bind_ok in H1 as (legacy&Hlegacy&_).
  unfold check_targets in H2. apply res_bind_ok in H2 as (p4&P4&H2). apply res_bind_ok in H2 as (s&Hs&H2). apply res_bind_ok in H2 as (p40&P40&H2). apply res_bind_ok in H2 as (dn&Hdn&H2).
  apply res_bind_ok in H2 as (p92&P92&H2). destruct (negb (s =? p92)) eqn:C1; [done|]. apply res_bind_ok in H2 as (s48&P48&H2). destruct (dn <=? s48) eqn:C2; [done|]. clear H2.
  apply add_panic_ok in P4 as [-> _], P40 as [-> _], P92 as [-> _], P48 as [-> P48]. bools. subst s.
  unfold check_lookup in H3. apply res_bind_ok in H3 as (key&Hkey&H3). apply res_bind_ok in H3 as (x&_&H3). apply res_bind_ok in H3 as (p20&P20&H3). apply res_bind_ok in H3 as (lookup&Hlookup&_).
  apply add_panic_ok in P20 as [-> _]. exists legacy, lookup, dn. constructor; try done; try lia.
  unfold pair_address in Hkey. destruct (_ || _) eqn:C3; [done|]. apply gate_actions; [done|..]; unfold masked; bools; apply Z.eqb_eq; done.
Qed.

(** ** Running it *)

Section run.
Context (fetch : Z -> res refusal Z) (call : Z -> Z) (false_object pc done : Z) (word : Z -> Z).
Context (Hfetch : forall k, 0 <= k < 11 -> fetch (pc + k * 4) = Ok (word k)) (Hfar : pc + 140 < done).
Notation run := (execute_gate fetch call false_object (pc + 92) done (pc + 44)).

Lemma run_start fuel value equal : run fuel pc value equal = run fuel (pc + 0 * 4) value equal.
Proof. f_equal. lia. Qed.

Lemma run_next fuel k value equal : 0 <= k < 11 -> action_of (word k) = Next -> run (S fuel) (pc + k * 4) value equal = run fuel (pc + (k + 1) * 4) value equal.
Proof. intros Hk Ha. rewrite (execute_step _ _ _ _ _ _ _ _ _ _ (word k)), Ha by (lia || by apply Hfetch). f_equal. lia. Qed.

Lemma run_call fuel k value equal d : 0 <= k < 11 -> action_of (word k) = Call_ -> branch (word k) (pc + k * 4) = Ok d ->
  run (S fuel) (pc + k * 4) value equal = run fuel (pc + (k + 1) * 4) (call d) equal.
Proof. intros Hk Ha Hb. rewrite (execute_step _ _ _ _ _ _ _ _ _ _ (word k)), Ha, Hb by (lia || by apply Hfetch). cbn [res_bind]. f_equal. lia. Qed.

Lemma run_compare fuel k value equal : 0 <= k < 11 -> action_of (word k) = Compare ->
  run (S fuel) (pc + k * 4) value equal = run fuel (pc + (k + 1) * 4) value (value =? false_object).
Proof. intros Hk Ha. rewrite (execute_step _ _ _ _ _ _ _ _ _ _ (word k)), Ha by (lia || by apply Hfetch). f_equal. lia. Qed.

Lemma run_test fuel k value equal : 0 <= k < 11 -> action_of (word k) = TestZero -> conditional (word k) (pc + k * 4) = Ok (pc + 92) ->
  run (S (S fuel)) (pc + k * 4) value equal = if wrap 32 value =? 0 then Ok ContinueTcon else run (S fuel) (pc + (k + 1) * 4) value equal.
Proof.
  intros Hk Ha Hc. rewrite (execute_step _ _ _ _ _ _ _ _ _ _ (word k)), Ha, Hc by (lia || by apply Hfetch). destruct (wrap 32 value =? 0).
  - cbn [res_bind]. rewrite execute_exit by tauto. by rewrite Z.eqb_refl.
  - f_equal. lia.
Qed.

Lemma run_equal fuel k value equal : 0 <= k < 11 -> action_of (word k) = BranchEqual -> conditional (word k) (pc + k * 4) = Ok done ->
  run (S (S fuel)) (pc + k * 4) value equal = if equal then Ok Success else run (S fuel) (pc + (k + 1) * 4) value equal.
Proof.
  intros Hk Ha Hc. rewrite (execute_step _ _ _ _ _ _ _ _ _ _ (word k)), Ha, Hc by (lia || by apply Hfetch). destruct equal.
  - cbn [res_bind]. rewrite execute_exit by tauto. by rewrite (proj2 (Z.eqb_neq done (pc + 92))), Z.eqb_refl by lia.
  - f_equal. lia.
Qed.

Lemma run_stop fuel value equal : run (S fuel) (pc + 11 * 4) value equal = Ok ForceGate.
Proof. rewrite execute_exit by lia. by rewrite !(proj2 (Z.eqb_neq (pc + 11 * 4) _)) by lia. Qed.

(** The gate as it was: the mode decides first. *)
Lemma run_original legacy lookup value equal n :
  map (fun k => action_of (word k)) (seqZ 0 11) = [Call_; TestZero; Next; Next; Next; Call_; Next; Next; Next; Compare; BranchEqual] ->
  branch (word 0) pc = Ok legacy -> conditional (word 1) (pc + 1 * 4) = Ok (pc + 92) -> branch (word 5) (pc + 5 * 4) = Ok lookup ->
  conditional (word 10) (pc + 10 * 4) = Ok done ->
  run (12 + n) pc value equal =
    Ok (if wrap 32 (call legacy) =? 0 then ContinueTcon else if call lookup =? false_object then Success else ForceGate).
Proof.
  intros A H0 H1 H5 H10. change (seqZ 0 11) with [0; 1; 2; 3; 4; 5; 6; 7; 8; 9; 10] in A. cbn [map] in A. injection A as A0 A1 A2 A3 A4 A5 A6 A7 A8 A9 A10. cbn [Nat.add].
  assert (branch (word 0) (pc + 0 * 4) = Ok legacy) as H0' by (by replace (pc + 0 * 4) with pc by lia). rewrite run_start.
  rewrite (run_call _ 0 _ _ legacy), run_test by (done || lia). destruct (_ =? 0); [done|].
  rewrite !run_next, (run_call _ 5 _ _ lookup), !run_next, run_compare, run_equal by (done || lia). destruct (_ =? false_object); [done|]. apply run_stop.
Qed.

(** The gate rewritten: the flag decides first. *)
Lemma run_patched legacy lookup value equal n :
  map (fun k => action_of (word k)) (seqZ 0 11) = [Next; Next; Next; Call_; Next; Next; Next; Compare; BranchEqual; Call_; TestZero] ->
  branch (word 3) (pc + 3 * 4) = Ok lookup -> conditional (word 8) (pc + 8 * 4) = Ok done -> branch (word 9) (pc + 9 * 4) = Ok legacy ->
  conditional (word 10) (pc + 10 * 4) = Ok (pc + 92) ->
  run (12 + n) pc value equal =
    Ok (if call lookup =? false_object then Success else if wrap 32 (call legacy) =? 0 then ContinueTcon else ForceGate).
Proof.
  intros A H3 H8 H9 H10. change (seqZ 0 11) with [0; 1; 2; 3; 4; 5; 6; 7; 8; 9; 10] in A. cbn [map] in A. injection A as A0 A1 A2 A3 A4 A5 A6 A7 A8 A9 A10. cbn [Nat.add]. rewrite run_start.
  rewrite !run_next, (run_call _ 3 _ _ lookup), !run_next, run_compare, run_equal by (done || lia). destruct (_ =? false_object); [done|].
  rewrite (run_call _ 9 _ _ legacy), run_test by (done || lia). destruct (_ =? 0); [done|]. apply run_stop.
Qed.
End run.

(** An instruction that was moved, seen by the machine. *)
Lemma moved_action w w' p p' : in_range 32 w -> in_range 32 w' -> kind_of w' = kind_of w -> operands w' = operands w -> goes_to w' p' = goes_to w p ->
  action_of w' = action_of w /\ (action_of w = Call_ -> branch w' p' = branch w p) /\
  (action_of w = TestZero \/ action_of w = BranchEqual -> conditional w' p' = conditional w p).
Proof.
  intros Hw Hw' Hk Ho Hg. split; [by apply action_same|]. unfold goes_to in Hg. rewrite Hk in Hg. split.
  - intros Ha. assert (kind_of w = Call) as K; [|rewrite K in Hg; by injection Hg]. unfold action_of in Ha. unfold kind_of. destruct (is_bl w); [done|]. by repeat case_match.
  - intros Ha. assert (kind_of w = Conditional) as K; [|rewrite K in Hg; by injection Hg]. unfold action_of in Ha. unfold kind_of. destruct (is_bl w); [by destruct Ha|].
    rewrite tests_conditional; [done|]. destruct (Z.eqb_spec (Z.land w 0xff00001f) 0x34000000); [by left|]. destruct (w =? 0xeb08001f); [by destruct Ha|].
    destruct (Z.eqb_spec (Z.land w 0xff00001f) 0x54000000); [by right|by destruct Ha].
Qed.

(** The words of the rewritten gate, as the machine finds them. *)
Definition gate_word (patched : bytes) (g : Candidate) (k : Z) : Z := match le32 patched (cand_offset g + k * 4) with Ok w => w | _ => 0 end.

Lemma gate_moved data image patched text g a key callback k old : is_bytes data -> recipe_done data image patched text g a key callback -> gate_order !! Z.to_nat k = Some old -> 0 <= k ->
  let w := gate_word patched g k in let w0 := at_word (cand_words g) old in
  le32 patched (cand_offset g + k * 4) = Ok w /\ action_of w = action_of w0 /\
  (action_of w0 = Call_ -> branch w (cand_pc g + k * 4) = branch w0 (cand_pc g + old * 4)) /\
  (action_of w0 = TestZero \/ action_of w0 = BranchEqual -> conditional w (cand_pc g + k * 4) = conditional w0 (cand_pc g + old * 4)).
Proof.
  intros Hb Hd Hk Hk0. destruct (rd_moved _ _ _ _ _ _ _ _ Hd _ _ Hk) as (w&Hl&Hr&Hkind&Hop&Hg). rewrite Z2Nat.id in Hl, Hg by done.
  unfold gate_word. rewrite Hl. cbv zeta. split; [done|]. destruct (place_words _ _ _ _ Hb (rd_gate _ _ _ _ _ _ _ _ Hd)) as (_&Rg&_).
  apply moved_action; [by apply at_word_range|done..].
Qed.

Lemma lookup_imported data image pc words lookup : validate data image pc words = Ok tt -> branch (at_word words 5) (pc + 20) = Ok lookup ->
  imported image data lookup true (bytes_of "_CFDictionaryGetValue") = Ok tt.
Proof.
  intros H Hb. unfold validate in H. destruct (gate_layout words); [|done]. cbn [negb] in H. apply res_bind_ok in H as ([]&_&H). apply res_bind_ok in H as (skip&_&H).
  apply res_bind_ok in H as ([]&H&_). unfold check_lookup in H. apply res_bind_ok in H as (key&_&H). apply res_bind_ok in H as (x&_&H). apply res_bind_ok in H as (p20&P&H).
  apply add_panic_ok in P as [-> _]. rewrite Hb in H. cbn [res_bind] in H. by apply res_bind_ok in H as ([]&H&_).
Qed.

(** C7. The rewritten gate honours the flag in every mode.  For every executable
    the recipe accepts there are the gate's address and place in the file, the
    helper that tells the restore mode, the dictionary lookup (an import of
    [_CFDictionaryGetValue]) and the address of the successful return, such that
    for all results of these calls: the original gate asks the mode first, and
    goes on with the update when it is not the legacy mode, whatever the flag
    says; the rewritten gate asks the flag first, returns success when it is
    false, and otherwise decides by the mode as before.  Twelve steps suffice for
    both. *)
Theorem patched_gate_honours_flag executable image patched : is_bytes executable -> zlen executable < 2 ^ 64 ->
  parse_macho executable = Ok image -> apply_recipe executable image executable = Ok patched ->
  exists pc at_ legacy lookup done, imported image executable lookup true (bytes_of "_CFDictionaryGetValue") = Ok tt /\
    forall call false_object value equal n,
    let run file := execute_gate (fun address => le32 file (at_ + (address - pc))) call false_object (pc + 92) done (pc + 44) (12 + n) pc value equal in
    run executable = Ok (if wrap 32 (call legacy) =? 0 then ContinueTcon else if call lookup =? false_object then Success else ForceGate) /\
    run patched = Ok (if call lookup =? false_object then Success else if wrap 32 (call legacy) =? 0 then ContinueTcon else ForceGate).
Proof.
  intros Hb Hz Hm Ha. destruct (recipe_ok _ _ _ Hb Hz Hm Ha) as (text&g&a&key&callback&Hd). pose proof (rd_gate _ _ _ _ _ _ _ _ Hd) as Hg.
  destruct (place_words _ _ _ _ Hb Hg) as (_&_&Wg). destruct (validate_facts _ _ _ _ (pl_check _ _ _ _ Hg)) as (legacy&lookup&done&F).
  pose proof (lookup_imported _ _ _ _ _ (pl_check _ _ _ _ Hg) (gf_lookup _ _ _ _ _ F)) as Himp. destruct F as [A Hroom Hl Hs Hlk Hdn Hfar].
  exists (cand_pc g), (cand_offset g), legacy, lookup, done. split; [done|]. intros call false_object value equal n. cbv zeta.
  assert (forall file w, (forall k, 0 <= k < 11 -> le32 file (cand_offset g + k * 4) = Ok (w k)) ->
    forall k, 0 <= k < 11 -> (fun address => le32 file (cand_offset g + (address - cand_pc g))) (cand_pc g + k * 4) = Ok (w k)) as Hf.
  { intros file w Hw k Hk. rewrite <- Hw by done. cbv beta. f_equal. lia. }
  pose proof (gate_moved _ _ _ _ _ _ _ _ 0 2 Hb Hd eq_refl ltac:(lia)) as (F0&A0&_). pose proof (gate_moved _ _ _ _ _ _ _ _ 1 3 Hb Hd eq_refl ltac:(lia)) as (F1&A1&_).
  pose proof (gate_moved _ _ _ _ _ _ _ _ 2 4 Hb Hd eq_refl ltac:(lia)) as (F2&A2&_). pose proof (gate_moved _ _ _ _ _ _ _ _ 3 5 Hb Hd eq_refl ltac:(lia)) as (F3&A3&B3&_).
  pose proof (gate_moved _ _ _ _ _ _ _ _ 4 6 Hb Hd eq_refl ltac:(lia)) as (F4&A4&_). pose proof (gate_moved _ _ _ _ _ _ _ _ 5 7 Hb Hd eq_refl ltac:(lia)) as (F5&A5&_).
  pose proof (gate_moved _ _ _ _ _ _ _ _ 6 8 Hb Hd eq_refl ltac:(lia)) as (F6&A6&_). pose proof (gate_moved _ _ _ _ _ _ _ _ 7 9 Hb Hd eq_refl ltac:(lia)) as (F7&A7&_).
  pose proof (gate_moved _ _ _ _ _ _ _ _ 8 10 Hb Hd eq_refl ltac:(lia)) as (F8&A8&_&C8). pose proof (gate_moved _ _ _ _ _ _ _ _ 9 0 Hb Hd eq_refl ltac:(lia)) as (F9&A9&B9&_).
  pose proof (gate_moved _ _ _ _ _ _ _ _ 10 1 Hb Hd eq_refl ltac:(lia)) as (F10&A10&_&C10).
  change (seqZ 0 11) with [0; 1; 2; 3; 4; 5; 6; 7; 8; 9; 10] in A. pose proof A as A'. cbn [map] in A'. injection A' as D0 D1 D2 D3 D4 D5 D6 D7 D8 D9 D10.
  split.
  - apply (run_original _ _ _ _ _ (at_word (cand_words g))); [apply Hf; intros; apply Wg; lia|done..].
  - apply (run_patched _ _ _ _ _ (gate_word patched g)).
    + apply Hf. intros k Hk. assert (k = 0 \/ k = 1 \/ k = 2 \/ k = 3 \/ k = 4 \/ k = 5 \/ k = 6 \/ k = 7 \/ k = 8 \/ k = 9 \/ k = 10) as Hc by lia. repeat destruct Hc as [->|Hc]; [done..|by subst].
    + done.
    + change (seqZ 0 11) with [0; 1; 2; 3; 4; 5; 6; 7; 8; 9; 10]. cbn [map]. congruence.
    + rewrite B3 by done. exact Hlk.
    + rewrite C8 by (by right). exact Hdn.
    + rewrite B9 by done. by replace (cand_pc g + 0 * 4) with (cand_pc g) by lia.
    + rewrite C10 by (by left). exact Hs.
Qed.

(** What [rehash] takes: an edit of the code alone. *)
Lemma rehash_accepts v original patched r : rehash v original patched = Ok r ->
  zlen patched = zlen original /\ zdrop (code_limit v) patched = zdrop (code_limit v) original.
Proof.
  unfold rehash. destruct (negb _) eqn:C; [done|]. intros H. apply res_bind_ok in H as (b&B1&H). apply res_bind_ok in H as (c&B2&H).
  case_bool_decide as Hne; [done|]. apply slice_inv in B1 as (?&?&E1). apply slice_inv in B2 as (?&?&E2). bools.
  rewrite ztake_all in E1, E2 by (rewrite zlen_zdrop; lia). split; [done|congruence].
Qed.

(** C6. A prepared patch is consistent.  When preparing succeeds, the result is the
    edit of the recipe and nothing else: outside the eleven words of the gate and
    the nineteen of the option array (two places that do not overlap, with no
    branch into them) the code is the original, each moved instruction is of the
    same kind and goes where it went, and the new array loads the address of the
    new key and of the old callback.  The signature of the result is accepted, as
    the same signature as before; the two hashes are those of the old and the new
    directory; and the trust cache is the old one with these two exchanged, so
    that exchanging them back gives the original cache. *)
Theorem prepared_patch_consistent executable trustcache p : is_bytes executable -> zlen executable < 2 ^ 64 ->
  prepare_skip_tcon executable trustcache = Ok p ->
  exists image v patched text g a key callback,
    parse_macho executable = Ok image /\ parse_signature executable (signature image) = Ok v /\
    recipe_done executable image patched text g a key callback /\
    parse_signature (p_executable p) (signature image) = Ok v /\
    ztake (code_limit v) (p_executable p) = ztake (code_limit v) patched /\
    agree (hashes v) (hashes v + code_slots v * 32) patched (p_executable p) /\
    zdrop (code_limit v) patched = zdrop (code_limit v) executable /\
    old_cdhash p = directory_hash v executable /\ new_cdhash p = directory_hash v (p_executable p) /\
    replace (p_trustcache p) (new_cdhash p) (old_cdhash p) = Ok trustcache.
Proof.
  intros Hb Hz H. unfold prepare_skip_tcon in H. apply res_bind_ok in H as (image&Hm&H). apply res_bind_ok in H as (v&Hv&H). apply res_bind_ok in H as (patched&Hp&H).
  apply res_bind_ok in H as ([out [old new]]&Hr&H). apply res_bind_ok in H as (cache&Hc&H). injection H as <-. cbn [fst snd p_executable p_trustcache old_cdhash new_cdhash] in *.
  destruct (recipe_ok _ _ _ Hb Hz Hm Hp) as (text&g&a&key&callback&Hd). pose proof (rd_len _ _ _ _ _ _ _ _ Hd) as Hl.
  destruct (rehash_accepts _ _ _ _ Hr) as [_ Ht].
  destruct (rehash_again _ _ _ _ Hb Hv Hl Ht) as (out'&Hr'&Hv'&Hcode&Hag). rewrite Hr in Hr'. injection Hr' as <- -> ->.
  assert (forall x, zlen (directory_hash v x) = 20) as H20 by (intros x; unfold directory_hash; rewrite zlen_ztake, zlen_SHA256; done).
  destruct (replace_back _ _ _ _ (H20 _) (H20 _) Hc) as (range&before&after&rest&_&_&_&_&_&_&_&_&_&Hback).
  exists image, v, patched, text, g, a, key, callback. split_and!; done.
Qed.
