(* ===== verification/PatchSafety.v ===== *)
(** * Patching restore executables: nothing in a cache or a signature panics

    The trust cache and the embedded signature come from a firmware bundle.  No
    bytes make their readers panic, which for the loops that take fuel also says
    that they return. *)

From S2P Require Import Prelude Windows Sha ShaProps Ecdsa Patch PatchSign PatchTrust PatchRecipe.
From stdpp Require Import base tactics numbers list option strings sorting gmap.
From Stdlib Require Import ZArith Lia.

Open Scope Z_scope.

Create HintDb patchcalm.

Lemma read_bytes_calm l a n : no_panic (read_bytes l a n).
Proof. unfold read_bytes. apply no_panic_bind; [by destruct (checked_add _ _ _)|]. intros. by destruct (get_range _ _ _). Qed.
Lemma le32_calm l a : no_panic (le32 l a).
Proof. apply no_panic_bind; [apply read_bytes_calm|done]. Qed.
Lemma be32_calm l a : no_panic (be32 l a).
Proof. apply no_panic_bind; [apply read_bytes_calm|done]. Qed.
Lemma ok_or_calm {A} (o : option A) (e : refusal) : no_panic (ok_or o e).
Proof. by destruct o. Qed.
Lemma ok_or_some {A} (o : option A) (e : refusal) a : ok_or o e = Ok a -> o = Some a.
Proof. destruct o; [by intros [= ->]|done]. Qed.
Lemma sha256_calm m : no_panic (sha256 (E := refusal) m).
Proof. by rewrite sha256_ok. Qed.
Lemma slice_calm (b : bytes) lo hi : 0 <= lo <= hi -> hi <= zlen b -> no_panic (slice (E := refusal) b lo hi).
Proof. intros. by rewrite slice_ok. Qed.
Lemma index_calm {A} (b : list A) i : 0 <= i < zlen b -> no_panic (index (E := refusal) b i).
Proof. intros Hi. unfold index. destruct (zget_in b i Hi) as [x ->]. done. Qed.
#[export] Hint Resolve read_bytes_calm le32_calm be32_calm @ok_or_calm sha256_calm : patchcalm.

(** The next call of a chain, and a guard. *)
Ltac calm := lazymatch goal with
  | |- no_panic (res_bind _ _) => apply no_panic_bind; [first [solve [auto with patchcalm] | apply slice_calm; lia | apply index_calm; lia]|intros ? ?]
  | |- no_panic (if ?b then _ else _) => let C := fresh "C" in destruct b eqn:C
  | |- no_panic (Ok _) => done
  | |- no_panic (Err _) => done
  end.

Lemma zlen_part {A} (l : list A) a n : 0 <= a -> 0 <= n -> a + n <= zlen l -> zlen (part a n l) = n.
Proof. intros. rewrite zlen_ztake, zlen_zdrop. lia. Qed.

(** ** Trust caches *)

Lemma der_digits_calm encoded : forall length, no_panic (der_digits encoded length).
Proof. induction encoded as [|b l IH]; intros length; cbn [der_digits]; [done|]. apply no_panic_bind; [apply ok_or_calm|]. intros. apply IH. Qed.
#[export] Hint Resolve der_digits_calm : patchcalm.

Lemma der_length_calm data offset first : no_panic (der_length data offset first).
Proof.
  unfold der_length. calm; [done|]. calm; [done|]. calm. apply read_bytes_ok in H as (?&?&?&_&->). bools.
  apply no_panic_bind; [apply index_calm; rewrite zlen_part; lia|]. intros lead _. repeat calm.
Qed.

Lemma der_calm data start limit : no_panic (der data start limit).
Proof.
  unfold der. calm. apply read_bytes_ok in H as (?&?&?&_&->). apply no_panic_bind; [apply index_calm; rewrite zlen_part; lia|]. intros tag _. calm; [done|].
  apply no_panic_bind; [apply index_calm; rewrite zlen_part; lia|]. intros first _. apply no_panic_bind; [apply der_length_calm|]. intros [offset length] _. repeat calm.
Qed.

(** Every element takes two bytes at least, so the fuel is not used up. *)
Lemma der_fields_calm fuel : forall data cursor stop, stop - cursor <= Z.of_nat fuel -> no_panic (der_fields fuel data cursor stop).
Proof.
  induction fuel as [|fuel IH]; intros data cursor stop Hf; cbn [der_fields]; destruct (Z.leb_spec stop cursor); [done|lia|done|].
  apply no_panic_bind; [apply der_calm|]. intros f Hd. apply der_ok in Hd as (?&?&?&?&_). apply no_panic_bind; [apply IH; lia|]. done.
Qed.

Lemma fields_bodies fuel data cursor stop fields : der_fields fuel data cursor stop = Ok fields -> 0 <= cursor ->
  Forall (fun f => 0 <= (der_body f).1 <= (der_body f).2 /\ (der_body f).2 <= zlen data) fields.
Proof.
  revert cursor fields. induction fuel as [|fuel IH]; intros cursor fields H Hc; cbn [der_fields] in H; destruct (_ <=? _); try done; [injection H as <-; constructor..|].
  apply res_bind_ok in H as (f&Hf&H). apply res_bind_ok in H as (fs&Hfs&H). injection H as <-. apply der_ok in Hf as (?&?&?&?&_&?&_).
  constructor; [lia|]. apply (IH (der_end f)); [done|lia].
Qed.

Lemma payload_calm data : no_panic (payload data).
Proof.
  unfold payload. apply no_panic_bind; [apply der_calm|]. intros root Hroot. apply der_ok in Hroot as (_&?&?&?&?&?&_). calm; [done|].
  apply no_panic_bind; [apply der_fields_calm; unfold zlen in *; lia|]. intros fields Hf. apply fields_bodies in Hf; [|lia].
  destruct fields as [|f0 [|f1 [|f2 [|f3 post]]]]; try done. inversion_clear Hf as [|? ? G0 Hf1]. inversion_clear Hf1 as [|? ? G1 _].
  unfold body_of. calm; [done|]. repeat calm.
Qed.

(** The payload of an accepted container. *)
Lemma payload_range data range : payload data = Ok range -> 0 <= range.1 <= range.2 /\ range.2 <= zlen data.
Proof.
  unfold payload. intros H. apply res_bind_ok in H as (root&Hroot&H). apply der_ok in Hroot as (_&?&_). destruct (_ || _); [done|]. apply res_bind_ok in H as (fields&Hf&H).
  apply fields_bodies in Hf; [|lia]. destruct fields as [|f0 [|f1 [|f2 [|f3 post]]]]; try done. open_chain H. injection H as <-.
  do 3 (apply Forall_inv_tail in Hf). exact (Forall_inv Hf).
Qed.

Lemma cache_calm cache : is_bytes cache -> no_panic (cache_entries cache).
Proof.
  intros Hb. unfold cache_entries. calm. calm; [done|]. calm. calm. apply mul_add_ok in H1. calm; [done|]. bools. unfold le32 in H0. apply res_bind_ok in H0 as (b&Hr&H0).
  injection H0 as <-. apply read_bytes_ok in Hr as (_&_&?&_&->). repeat calm.
Qed.

Lemma replace_entry_calm entries old new : Forall (fun e => zlen e = 22) entries -> zlen new = 20 -> no_panic (replace_entry entries old new).
Proof.
  intros Hex Hn. unfold replace_entry. destruct (matches entries 0 old) as [|i [|]] eqn:Hm; [done| |done]. apply matches_one in Hm as (l1&e&l2&->&->&_). rewrite Z.add_0_l, index_mid.
  cbn [res_bind]. apply Forall_app in Hex as [_ Hex]. apply Forall_inv in Hex. pose proof (zlen_nonneg l1). pose proof (zlen_nonneg l2). repeat calm.
  apply no_panic_bind; [rewrite copy_at_ok by lia; done|]. intros e' _. apply no_panic_bind; [rewrite copy_at_ok; [done|lia|rewrite zlen_app, !zlen_cons, zlen_nil; lia]|]. done.
Qed.

Lemma replace_calm data old new : is_bytes data -> zlen old = 20 -> zlen new = 20 -> no_panic (replace data old new).
Proof.
  intros Hb Ho Hn. unfold replace. apply no_panic_bind; [apply payload_calm|]. intros range Hp. destruct (payload_range _ _ Hp) as [Hr1 Hr2]. rewrite slice_ok by lia. cbn [res_bind].
  apply no_panic_bind; [apply cache_calm; auto with isbytes|]. intros entries He. fold (entries_of data range) in He. pose proof He as He'. apply cache_entries_ok in He' as (_&_&_&_&_&Hex&Hasc).
  apply no_panic_bind; [by apply replace_entry_calm|]. intros after Ha. destruct (replaced_entries _ _ _ _ Hex Hasc Ho Hn Ha) as (Hex2&Hlen&Hasc2&_).
  destruct (entries_written data range entries after Hr1 Hr2 He Hex2 Hlen Hasc2) as (out&->&_). done.
Qed.

(** ** Signatures *)

Lemma super_blob_calm executable signature : no_panic (super_blob executable signature).
Proof. unfold super_blob. repeat calm. auto with patchcalm. Qed.

Lemma scan_calm blob index_end indices : forall slots ranges, no_panic (scan_blobs blob index_end indices slots ranges).
Proof. induction indices as [|i l IH]; intros slots ranges; cbn [scan_blobs]; [done|]. repeat (calm; try done; try apply IH). Qed.

Lemma blob_slots_calm blob : no_panic (blob_slots blob).
Proof. unfold blob_slots. do 3 calm. apply scan_calm. Qed.

Lemma header_size_calm version : no_panic (header_size version).
Proof. unfold header_size. by repeat calm. Qed.
Lemma special_magic_calm slot : no_panic (special_magic slot).
Proof. unfold special_magic. by repeat calm. Qed.
#[export] Hint Resolve super_blob_calm blob_slots_calm header_size_calm special_magic_calm : patchcalm.

Lemma format_calm cd : no_panic (directory_format cd).
Proof.
  unfold directory_format. calm. calm; [done|]. calm. calm. calm. apply header_size_ok in H1 as [? _]. apply read_bytes_ok in H2 as (_&_&?&_&_). calm. do 3 calm. calm; [done|].
  apply no_panic_bind; [by repeat calm|]. intros _ _. apply no_panic_bind; [by repeat calm|]. done.
Qed.

Lemma fields_calm cd : no_panic (directory_fields cd).
Proof.
  unfold directory_fields. apply no_panic_bind; [apply format_calm|]. intros [version header] _. do 5 calm. apply no_panic_bind; [|done].
  calm; [|done]. calm. unfold usize64. by repeat calm.
Qed.

Lemma terminated_calm cd lo hi : 0 <= lo <= hi -> hi <= zlen cd -> no_panic (terminated cd lo hi).
Proof. intros. unfold terminated. rewrite slice_ok by lia. done. Qed.

Lemma layout_calm cd d start : 44 <= dir_header d -> no_panic (directory_layout cd d start).
Proof.
  intros Hh. unfold directory_layout. calm; [done|]. calm. calm. calm. calm. calm. apply read_bytes_ok in H3 as (?&?&?&_&_). calm; [done|]. unfold outside in C0. bools.
  apply no_panic_bind; [apply terminated_calm; lia|]. intros ident _. calm; [done|]. calm; [|done]. calm. calm; [done|]. calm; [done|]. match goal with C : outside _ a4 _ = false |- _ => unfold outside in C end. bools.
  apply no_panic_bind; [apply terminated_calm; lia|]. intros team _. by calm.
Qed.

Lemma each_calm f l : Forall (fun i => no_panic (f i)) l -> no_panic (each f l).
Proof. induction 1 as [|i l Hi _ IH]; cbn [each]; [done|]. by apply no_panic_bind. Qed.

Lemma special_calm blob cd slots index_end offset special i : slots_ok blob index_end slots -> 0 <= index_end -> 0 <= offset - special * 32 -> offset <= zlen cd -> 1 <= i <= special ->
  no_panic (check_special_slot blob cd slots offset i).
Proof.
  intros Hok Hie Ho Hz Hi. unfold check_special_slot. calm. destruct (slots !! wrap 32 i) as [r|] eqn:E; [|by calm]. destruct (slot_place _ _ _ Hok _ _ E) as (?&?&?). by repeat calm.
Qed.

Lemma page_calm executable cd offset limit i : 0 <= i -> i * 4096 <= limit -> limit <= zlen executable -> 0 <= offset -> offset + (i + 1) * 32 <= zlen cd ->
  no_panic (check_page executable cd offset limit i).
Proof. intros. unfold check_page. by repeat calm. Qed.

Lemma parse_calm executable signature : is_bytes executable -> no_panic (parse_signature executable signature).
Proof.
  intros Hb. unfold parse_signature. calm. rename a into blob, H into Hblob. calm. rename a into slots, H into Hslots. calm. rename a into c, H into Hc. apply ok_or_some in Hc.
  destruct (blob_slots_ok _ _ Hslots) as (count&_&Hcount&Hok); [by rewrite Hc|]. destruct (slot_place _ _ _ Hok _ _ Hc) as (?&?&?).
  destruct (super_blob_ok _ _ _ Hblob) as (n&Hs&Hn&HN&Eb). rewrite slice_ok by lia. cbn [res_bind]. set (cd := part c.1 (c.2 - c.1) blob).
  assert (zlen cd = c.2 - c.1) as Hz by (apply zlen_part; lia). apply no_panic_bind; [apply fields_calm|]. intros d Hd.
  assert (is_bytes cd) as Hbcd by (unfold cd; rewrite Eb; auto with isbytes). destruct (fields_facts _ _ Hbcd Hd) as (?&?&?&?&_). apply no_panic_bind; [by apply layout_calm|]. intros [] Hl.
  destruct (layout_facts _ _ _ (proj1 H3) H4 Hl) as (Hlim&Hsl&Hf1&Hf2). apply no_panic_bind; [unfold check_cms; by repeat calm|]. intros [] _.
  apply no_panic_bind; [apply each_calm, Forall_forall; intros i Hi%elem_of_seqZ; eapply (special_calm _ _ _ _ _ (special d)); [exact Hok|lia..]|]. intros [] _.
  apply no_panic_bind; [unfold check_coverage; by calm|]. intros [] _. apply no_panic_bind; [|done]. apply each_calm, Forall_forall. intros i Hi%elem_of_seqZ.
  apply page_calm; [lia|rewrite Hlim; words|lia|lia|lia].
Qed.

(** ** Chains of pointers *)

(** A chain moves on inside its page, so the fuel [rebase] gives it is enough. *)
Lemma walk_chain_returns fuel : forall image data segment pointer page_size page_offset chain, page_size - chain <= Z.of_nat fuel ->
  no_panic (walk_chain fuel image data segment pointer page_size page_offset chain).
Proof.
  induction fuel as [|fuel IH]; intros image data segment pointer page_size page_offset chain Hf; cbn [walk_chain]; (calm; [done|]); apply orb_false_iff in C as [C _]; apply Z.ltb_ge in C; [lia|].
  apply no_panic_bind; [apply no_panic_bind; [apply read_bytes_calm|done]|]. intros value _. calm; [calm; [done|]; by calm|]. calm; [done|]. apply IH.
  assert (0 <= Z.land (Z.shiftr value 51) 0x7ff) by (apply Z.land_nonneg; by right). bools. lia.
Qed.

(** C24. No bytes make the readers of a trust cache or of a code signature panic or
    run on: for every file, every place of the signature in it and every pair of
    hashes, replacing a hash and checking the signature end with a result or a
    named refusal. *)
Theorem patch_readers_never_panic data signature old new : is_bytes data -> zlen old = 20 -> zlen new = 20 ->
  no_panic (replace data old new) /\ no_panic (parse_signature data signature).
Proof. intros Hb Ho Hn. split; [by apply replace_calm|by apply parse_calm]. Qed.

Lemma patch_readers_never_panic_witness : replace [0x30; 0x80] (zeros 20) (zeros 20) = Err "trustcache-der"%string /\
  no_panic (replace [0x30; 0x80] (zeros 20) (zeros 20)) /\ no_panic (parse_signature [0x30; 0x80] (0, 2)).
Proof. split; [vm_compute; reflexivity|]. apply (patch_readers_never_panic [0x30; 0x80] (0, 2) (zeros 20) (zeros 20)); [concrete_bytes|reflexivity|reflexivity]. Defined.
