(* ===== verification/PatchSample.v ===== *)
(** * Patching restore executables: a sample

    An executable of two kilobytes that the recipe accepts, laid out like the
    fixtures of the tests in restore_patch/, its signature, and a trust cache that
    holds its hash; the concrete runs of the theorems. *)

From S2P Require Import Prelude Windows Sha ShaProps Ecdsa Patch PatchSign PatchTrust PatchRecipe PatchCode PatchProps PatchGuarantees.
From stdpp Require Import base tactics numbers list option strings gmap.
From Stdlib Require Import ZArith Lia.

Open Scope Z_scope.

Module Sample.
Definition or_else {A} (d : A) (r : res refusal A) : A := match r with Ok a => a | _ => d end.
(** Pieces put at their offsets. *)
Definition put (data : bytes) (p : Z * bytes) : bytes := or_else data (copy_at data p.1 p.2).
Definition row (at_ : Z) (words : list Z) : Z * bytes := (at_, concat (map (le_bytes 4) words)).
Definition le (n : nat) (at_ x : Z) : Z * bytes := (at_, le_bytes n x).
Definition BASE : Z := 0x100000000.
Definition SIZE : Z := 0x860.

Definition jump (word at_ destination bits shift : Z) : Z := or_else 0 (encode_delta word (BASE + at_) (BASE + destination) bits shift).
Definition call (at_ destination : Z) : Z := jump 0x94000000 at_ destination 26 0.
Definition adrp_word (register at_ destination : Z) : Z := or_else 0 (encode_adrp (BASE + at_) (BASE + destination) register).
Definition add_word_at (register destination : Z) : Z := Z.lor (add_base register) (Z.shiftl (Z.land destination 0xfff) 10).

Definition section_at (index : Z) (s : string * (Z * Z * Z * Z * Z)) : list (Z * bytes) :=
  let '(name, (offset, size, flags, r1, r2)) := s in
  let e := 32 + 72 + index * 80 in
  [(e, bytes_of name); le 8 (e + 32) (BASE + offset); le 8 (e + 40) size; le 4 (e + 48) offset; le 4 (e + 64) flags; le 4 (e + 68) r1; le 4 (e + 72) r2].

Definition header : list (Z * bytes) :=
  [row 0 [0xfeedfacf; 0x0100000c; 2; 2; 5; 608]; row 32 [0x19; 472]; le 8 56 BASE; le 8 80 SIZE; le 4 96 5]
  ++ section_at 0 ("__text"%string, (0x300, 0x220, 0x80000400, 0, 0)) ++ section_at 1 ("__auth_stubs"%string, (0x520, 0x80, 8, 0, 16))
  ++ section_at 2 ("__cfstring"%string, (0x5a0, 0x60, 0, 0, 0)) ++ section_at 3 ("__cstring"%string, (0x600, 0x60, 2, 0, 0))
  ++ section_at 4 ("__got"%string, (0x660, 8, 6, 8, 0))
  ++ [row 504 [2; 24; 0x680; 9; 0x740; 0xe0]; row 528 [0xb; 80]; row 584 [0x710; 9]; row 608 [0x80000034; 16; 0x820; 64]; row 624 [0x1d; 16; SIZE; 198]].

Definition imports : list string :=
  ["_CFDictionaryGetValue"; "_AMSupportCFDictionaryGetBoolean"; "_stat"; "_CFArrayCreate"; "_CFArrayGetCount"; "_CFArrayApplyFunction";
   "_AMSupportGetValueForKeyPathInDict"; "_AMSupportCopySetValueForKeyPathInDict"; "_kCFBooleanFalse"]%string.
Fixpoint symbols_from (index string_ : Z) (names : list string) : list (Z * bytes) :=
  match names with
  | [] => []
  | n :: names => [le 4 (0x680 + index * 16) string_; (0x684 + index * 16, [1]); (0x740 + string_, bytes_of n); le 4 (0x710 + index * 4) index]
      ++ symbols_from (index + 1) (string_ + zlen (bytes_of n) + 1) names
  end.
Definition cfstring_at (offset string_ next : Z) (text : string) : list (Z * bytes) :=
  [le 8 (offset + 8) 0x7c8; le 8 (offset + 16) (Z.lor string_ (Z.shiftl next 51)); le 8 (offset + 24) (zlen (bytes_of text)); (string_, bytes_of text)].
Definition tables : list (Z * bytes) :=
  symbols_from 0 1 imports ++ cfstring_at 0x5a0 0x600 4 "Update TCON FW" ++ cfstring_at 0x5c0 0x620 4 "ForceTCONFW" ++ cfstring_at 0x5e0 0x640 0 "SkipTCONFW"
  ++ [le 4 0x824 28; le 4 0x83c 1; le 4 0x840 8; le 4 0x844 24; le 2 0x848 4096; le 2 0x84a 12; le 2 0x858 1; le 2 0x85a 0x5b0].

Definition gate : Z * bytes := row 0x300
  [call 0x300 0x3d0; jump 0x34000000 0x304 0x35c 19 5; adrp_word 1 0x308 0x5a0; add_word_at 1 0x5a0; 0xaa1503e0; call 0x314 0x520; adrp_word 8 0x318 0x660;
   Z.lor 0xf9400108 (Z.shiftl (0x660 / 8) 10); 0xf9400108; 0xeb08001f; jump 0x54000000 0x328 0x3c0 19 5; jump 0xb4000014 0x32c 0x35c 19 5; 0xf9400680;
   jump 0xb4000000 0x334 0x35c 19 5; adrp_word 1 0x338 0x5c0; add_word_at 1 0x5c0; 0x52800002; call 0x344 0x530; jump 0x34000000 0x348 0x35c 19 5;
   0x910062f6; adrp_word 8 0x350 0x620; add_word_at 8 0x620; 0xf90067e8;
   0x6f00e400; 0xad0483e0; 0xad0383e0; 0xad0283e0; 0xad0183e0; 0x3d800be0; 0xf90002df; adrp_word 20 0x378 0x620; add_word_at 20 0x620; 0x910083e1; 0xaa1403e0; call 0x388 0x540].
Definition returns : list (Z * bytes) := [row 0x3c0 [0x52800020; 0xf85c83a8]; row 0x3d0 [adrp_word 8 0x3d0 0x700; 0xb9480108; 0x7100091f; 0x1a9f17e0; 0xd65f03c0]].
Definition allowlist : list (Z * bytes) :=
  [row 0x414 [0xf90017ff]; row 0x434 [call 0x434 0x520; 0xf9000fe0; jump 0xb4000000 0x43c 0x48c 19 5];
   row 0x440 [adrp_word 3 0x440 0x660; 0xf9400063; 0x9100c3e1; 0xaa1403e0; 0x52800382; call 0x454 0x550; jump 0xb4000000 0x458 0x4a0 19 5; 0xaa0003f5; call 0x460 0x560;
     0xaa0003e2; adrp_word 16 0x468 0x4b0; add_word_at 16 0x4b0; 0xdac123f0; 0xaa1003e3; 0x910043e4; 0xaa1503e0; 0xd2800001; call 0x484 0x570; jump 0x14000000 0x488 0x490 26 0];
   row 0x4b0 [0xd503237f]; row 0x4f0 [call 0x4f0 0x580]; row 0x514 [call 0x514 0x590]].
Definition code : bytes := fold_left put (header ++ tables ++ [gate] ++ returns ++ allowlist) (zeros SIZE).

(** A directory with two special slots, a requirements blob and an empty CMS
    wrapper. *)
Definition sha (m : bytes) : bytes := or_else [] (sha256 m).
Definition requirements : bytes := be_bytes 4 0xfade0c01 ++ be_bytes 4 12 ++ [0; 0; 0; 0].
Definition directory_blob (code : bytes) : bytes :=
  concat (map (be_bytes 4) [0xfade0c02; 142; 0x20000; 2; 110; 44; 2; 1; SIZE]) ++ [32; 2; 0; 12] ++ zeros 4 ++ [97; 0] ++ sha requirements ++ zeros 32 ++ sha code.
Definition signed_file (code : bytes) : bytes :=
  code ++ concat (map (be_bytes 4) [0xfade0cc0; 198; 3; 0; 36; 2; 178; 0x10000; 190]) ++ directory_blob code ++ requirements ++ concat (map (be_bytes 4) [0xfade0b01; 8]).
Definition executable : bytes := Eval vm_compute in signed_file code.
(** A cache of three hashes, the second one that of the executable. *)
Definition tlv_short (tag : Z) (body : bytes) : bytes := [tag; zlen body] ++ body.
Definition cache (hash : bytes) : bytes :=
  tlv_short 0x30 (tlv_short 0x16 (bytes_of "IM4P") ++ tlv_short 0x16 (bytes_of "rtsc") ++ tlv_short 0x16 (bytes_of "x") ++
    tlv_short 0x04 (le_bytes 4 1 ++ replicate 16 0x71 ++ le_bytes 4 3 ++ sha_entry (replicate 20 0) ++ sha_entry hash ++ sha_entry (replicate 20 255))).
Definition old_hash : bytes := Eval vm_compute in ztake 20 (sha (directory_blob code)).
Definition trustcache : bytes := cache old_hash.

Lemma executable_bytes : is_bytes executable.
Proof. apply is_bytes_forallb. vm_compute. reflexivity. Qed.

Definition is_ok {A} (r : res refusal A) : bool := match r with Ok _ => true | _ => false end.
Lemma is_ok_ok {A} (r : res refusal A) : is_ok r = true -> exists a, r = Ok a.
Proof. destruct r; eauto; done. Qed.

Lemma patch_prepared : exists p, prepare_skip_tcon executable trustcache = Ok p.
Proof. apply is_ok_ok. vm_compute. reflexivity. Qed.

Lemma patch_steps : exists image v patched, parse_macho executable = Ok image /\ parse_signature executable (signature image) = Ok v /\
  apply_recipe executable image executable = Ok patched /\ zlen patched = zlen executable /\ zdrop (code_limit v) patched = zdrop (code_limit v) executable.
Proof.
  destruct patch_prepared as [p H]. unfold prepare_skip_tcon in H. apply res_bind_ok in H as (image&Hi&H). apply res_bind_ok in H as (v&Hv&H). apply res_bind_ok in H as (patched&Hp&H).
  apply res_bind_ok in H as (r&Hr&_). exists image, v, patched. split; [exact Hi|]. split; [exact Hv|]. split; [exact Hp|exact (rehash_accepts _ _ _ _ Hr)].
Qed.

Lemma rehash_revalidates_witness : exists signature v patched out, parse_signature executable signature = Ok v /\ parse_signature out signature = Ok v /\
  ztake (code_limit v) out = ztake (code_limit v) patched.
Proof.
  destruct patch_steps as (image&v&patched&_&Hv&_&Hl&Hd).
  destruct (rehash_revalidates executable (signature image) v patched executable_bytes Hv Hl Hd) as (out&_&Hp&Hc&_).
  exists (signature image), v, patched, out. split; [exact Hv|]. split; [exact Hp|exact Hc].
Defined.

Lemma replace_reverses_witness : exists out, replace trustcache old_hash (replicate 20 7) = Ok out /\ replace out (replicate 20 7) old_hash = Ok trustcache.
Proof.
  destruct (is_ok_ok (replace trustcache old_hash (replicate 20 7))) as [out Ho]; [vm_compute; reflexivity|].
  destruct (replace_reverses trustcache old_hash (replicate 20 7) out) as (range&b&a&r&_&_&_&_&_&_&_&_&_&Hback); [vm_compute; reflexivity|reflexivity|exact Ho|].
  exists out. split; [exact Ho|exact Hback].
Defined.

Lemma patched_gate_honours_flag_witness : exists image patched pc at_ skip done stop, parse_macho executable = Ok image /\ apply_recipe executable image executable = Ok patched /\
  execute_gate (fun address => le32 patched (at_ + (address - pc))) (fun _ => 0) 0 skip done stop 12 pc 0 false = Ok Success /\
  execute_gate (fun address => le32 executable (at_ + (address - pc))) (fun _ => 0) 0 skip done stop 12 pc 0 false = Ok ContinueTcon.
Proof.
  destruct patch_steps as (image&v&patched&Hi&_&Hp&_).
  destruct (patched_gate_honours_flag executable image patched executable_bytes ltac:(vm_compute; reflexivity) Hi Hp) as (pc&at_&legacy&lookup&done&_&H).
  destruct (H (fun _ => 0) 0 0 false 0%nat) as [H1 H2]. exists image, patched, pc, at_, (pc + 92), done, (pc + 44). split; [exact Hi|]. split; [exact Hp|]. split; [exact H2|exact H1].
Defined.

Lemma prepared_patch_consistent_witness : exists p, prepare_skip_tcon executable trustcache = Ok p /\ replace (p_trustcache p) (new_cdhash p) (old_cdhash p) = Ok trustcache.
Proof.
  destruct patch_prepared as [p Hp].
  destruct (prepared_patch_consistent executable trustcache p executable_bytes ltac:(vm_compute; reflexivity) Hp) as (image&v&q&t&g&a&k&c&_&_&_&_&_&_&_&_&_&Hback).
  exists p. split; [exact Hp|exact Hback].
Defined.
End Sample.
